(* ===== verification/_CoqProject ===== *)
-Q . S2P
Prelude.v
Sorts.v
JsText.v
JsObject.v
Geometry.v
Polygons.v
Paths.v
Shapes.v
TileCoords.v
Tiles.v
Delta.v
ServerCmd.v
TileRequest.v
TileMsg.v
SocketSend.v
Session.v
Slurp.v
ProxySocket.v
FileBased.v
MessageStore.v
Views.v
CellCursor.v
Json.v
Parts.v
SheetSwitch.v
Invalidate.v
TextInput.v
Clipboard.v
CopyPaste.v
Permission.v
PreFetch.v
Mouse.v
Keyboard.v
Events.v
SpanList.v
SheetGeometry.v
Panes.v
Overlay.v
SectionLayout.v
SectionDrawing.v
SectionEvents.v
Scroll.v
TileSystem.v
