(* ===== verification/Prelude.v ===== *)
(** * OxOOL browser client: a verification library

    OxOOL edits office documents in the browser.  The document lives on the server;
    the client (src/browser/, JavaScript) shows it as square tiles of pixels it asks
    for and receives over a web socket, forwards what the user types, and keeps
    parts, permission and selection in step with what the server says.  This library
    models the core of that client - the way of a message from the socket to the
    pixels on a canvas and of a key press to the server - and proves it correct.

    ** Files

    Foundations.
    - [Prelude]: numbers ([option Z], [None] is NaN), rounding, tactics and the lemmas
      on lists and options the other files share.
    - [Sorts]: [Array.prototype.sort], and sorting by exchanges as loops in the code do it.
    - [JsText]: strings, printing and parsing of numbers, [split], [join],
      [substring]; the round trips of numerals.
    - [JsObject]: objects used as maps, with the order of their keys, refining [gmap].
    - [Geometry]: points, bounds and rectangles (src/browser/src/geometry/,
      src/browser/src/core/LOUtil.js).
    - [Json]: [JSON.stringify] for the arguments of commands.

    The tile layer, src/browser/src/layer/tile/CanvasTileLayer.js.
    - [TileCoords]: coordinates, keys, ranges of tiles and conversions to twips.
    - [Tiles]: [_tiles] with the canvas, image and deltas of each tile, the count of
      empty tiles, invalidation of one tile, and the garbage collector.
    - [Delta]: decoding of keyframes and deltas, byte by byte.
    - [TileRequest]: the tiles a view misses, [_update], and [tilecombine] requests.
    - [TileMsg]: from a tile message to its canvas ([_onTileMsg], [_applyDelta],
      [_ensureContext] with its attempts when the browser has no context, [ensureCanvas])
      and the acknowledgement ([tileprocessed]).
    - [PreFetch]: fetching ahead, with its timers.
    - [Invalidate]: [invalidatetiles:] in the layers of Writer, Calc and Impress
      (WriterTileLayer.js, CalcTileLayer.js, ImpressTileLayer.js).
    - [FileBased]: the view with all parts below each other.
    - [MessageStore]: the messages kept to be handled again after a change of zoom.
    - [Views]: the other users of the document, their cursors and selections, and following
      one of them (src/browser/src/map/Map.js, src/browser/src/control/Control.UserList.js).
    - [CellCursor]: the cursor of a spreadsheet, where the view scrolls after it and after a
      selection, and the lock of page up and page down (also CalcTileLayer.js).
    - [TileSystem]: all operations on the store as one step relation.

    Sheets of Calc, src/browser/src/layer/tile/SheetGeometry.ts.
    - [SpanList]: run-length encoded sizes and flags, their encoding, union, masking, and
      the binary search.
    - [SheetGeometry]: positions of columns and rows in three units, the element at a
      position, conversions, grid lines, groups, and the messages that update them.
    - [Panes]: frozen rows and columns (SplitPanesContext.ts, CalcSplitPanesContext.ts and
      CalcTileLayer.js): the rectangles of the panes, where the split is, and the exchange
      of the frozen cell with the server.  What it needs of the geometry is the class
      [Panes.GridAxis] with its laws, which [SheetGeometry] implements.

    Shapes painted over the tiles.
    - [Polygons]: outlines of selections (src/browser/src/layer/vector/CPolyUtil.ts,
      src/browser/src/geometry/PolyUtil.js).
    - [Paths]: clipping and simplification of lines and polygons
      (src/browser/src/geometry/LineUtil.js, PolyUtil.js, CPolyline.ts).
    - [Shapes]: sets of points, their offsets, rings and bounds, the borders of cursors and
      selections and the shade around an object (CPointSet.ts, CPolygon.ts, CRectangle.ts,
      CDarkOverlay.ts).
    - [Overlay]: the paths painted over the tiles, their order, popups and the mouse
      (CanvasOverlay.ts, CPath.ts).

    Sections of the canvas, src/browser/src/layer/tile/CanvasSectionContainer.ts.
    - [SectionLayout]: places of sections (anchors, expansion, sections bound to others),
      their order, and the section at a point.
    - [SectionDrawing]: when they are drawn: pausing, what is dirty, animations; adding and
      removing sections.
    - [SectionEvents]: mouse and touch, which section is told, and who may stop an event.
    - [Scroll]: the scroll bars, the wheel, dragging and scrolling by itself
      (ScrollSection.ts, src/browser/src/control/Scroll.js).

    Messages, src/browser/src/core/Socket.js and src/browser/js/global.js.
    - [ServerCmd]: [parseServerCmd], and the server's printer of tile messages.
    - [SocketSend]: sending, and the queue of unsent messages.
    - [Session]: opening, losing, resuming and suspending the connection, the idle
      handler (src/browser/src/control/Control.IdleHandler.ts) and the view the server
      is told.
    - [Slurp]: the queue of received messages, whose images load in any order, and what
      [_onMessage] makes of each: kept by the socket, a status message (which is tried again
      while the map is not ready), or handed to the document layer.
    - [ProxySocket]: the web socket made of HTTP requests: framing, polling, session.

    Editing.
    - [Parts]: parts, pages, selection and previews
      (src/browser/src/control/Parts.js, Control.PartsPreview.js).
    - [SheetSwitch]: the place each sheet was last viewed at (SheetSwitch.ts, Parts.js,
      Control.Tabs.js).
    - [Permission]: who may edit, and when (src/browser/src/control/Permission.js, with the
      functions that src/ossii/browser/js/control/Permission.Extensions.js puts in the place
      of some of them).
    - [TextInput]: typing (src/browser/src/layer/marker/TextInput.js).
    - [Mouse]: gestures, their queue and timers (src/browser/src/map/handler/Map.Mouse.js).
    - [Keyboard]: shortcuts and keys that are not text
      (src/browser/src/map/handler/Map.Keyboard.js).
    - [Clipboard]: the text on the clipboard of the system and the content that is posted
      (src/browser/src/map/Clipboard.js, src/common/Clipboard.hpp).
    - [CopyPaste]: copying, pasting and transfers between servers as a state machine, and the
      widget for downloads (src/browser/src/control/Control.DownloadProgress.js).
    - [Events]: [L.Evented], through which the components call each other
      (src/browser/src/core/Events.js).

    Interaction.  A tile message passes [Slurp] (or [ProxySocket] before it), is
    parsed by [ServerCmd] and changes the store through [TileMsg], which calls
    [Delta] and may call the collector of [Tiles].  [TileRequest], [PreFetch] and
    [FileBased] read and mark the store and send through [SocketSend]; the tiles they
    ask for come back as messages.  [Mouse] and [Keyboard] tell the server the view
    through [Session], which sends through [SocketSend] as well, before what they post.
    [Invalidate] marks the store.  [TileSystem]
    closes the loop: any interleaving of these operations.  A tile that arrives makes the
    section of the tiles dirty ([SectionDrawing.tile_arrives]); the batch of messages of
    [Slurp] pauses and resumes drawing.  [SectionEvents] tells the section under the
    pointer as [SectionLayout] finds it, and may redraw through [SectionDrawing].

    ** How the code is modelled

    One definition per function, with the name it has in the code.  The state of a
    component is a record, passed explicitly; fields the modelled code does not read
    are left out.  A function that raises an exception returns what the state is at
    that point and the fact that it raised ([TileMsg.outcome], [Permission]); one
    that may loop for ever takes fuel, and [None] is running out of it.  Effects
    outside the modelled state - messages sent, events fired, dialogs opened - are
    logs in the order of the code.  Bytes are integers reduced modulo 256 where the
    typed array does so; other numbers are unbounded integers (positions, sizes and
    counters stay far below 2^53), with [int32] where a bitwise operator is used.
    Parameters stand for what is not under src/ or belongs to the browser: the zstd
    decompressor, [getImageData], the answers of [getContext], clocks, [TextDecoder], whether
    the handler of a message raises an error ([Slurp.fails]), the functions registered as
    listeners, the handlers and drawing functions of sections.

    Fuel.  [Delta.chunk_fuel] is one more than the bytes of a delta, each of which is
    passed at least once; [TileMsg.applyDelta_fuel] is 3, since drawing nests at most
    twice, and 2 more for each call of [getContext] that fails
    ([TileMsg.applyDelta_terminates]; without a context at all it nests without end,
    [TileMsg.no_context_nests]); [PreFetch.pane_fuel] is the number of
    borders left; [JsText.digits_fuel] the number of binary digits; the loops over
    spans get one more than the spans ([SpanList.union_loop_spec],
    [SpanList.binarySearch_finds]); following [boundToSection] gets one more than the
    sections ([SectionLayout.bound_fuel]); tracing an outline gets one step per edge ([Polygons.walk_fuel]), clipping a
    segment six ([Paths.clip_fuel]), simplification as many as points.  Each has a theorem
    that it suffices.  [Events.fire] runs other code, so it ends only when
    the events that are fired descend ([Events.fire_terminates]).

    ** What the theorems show

    - Pixels.  The byte loops implement the commands of a delta
      ([Delta.applyDeltaChunk_correct]); drawing from the stored deltas gives what
      drawing them one by one gave ([Delta.redraw_from_deltas]); after any tile
      message a tile with a canvas shows what the deltas kept for it describe
      ([TileMsg.onTileMsg_shows]), and so in every reachable state
      ([TileSystem.reachable_invariant]).  Bad bytes end the loops
      ([Delta.applyDeltas_total]).
    - Requests.  An update asks for exactly the tiles in view that are not current
      ([TileRequest.update_requests_missing]) in requests that repeat nothing
      ([TileRequest.sendTileCombineRequest_spec]); fetching ahead is complete, limited
      and keeps one timer ([PreFetch]); an invalidation hits exactly the tiles it
      touches ([Invalidate.invalidation_exact]), in the mode the client has selected where the
      message has none.
    - Sheets.  Hidden and filtered elements take no room and the others tile the line
      ([SheetGeometry.element_positions]), through all messages and zooms
      ([SheetGeometry.geometry_invariant]); the element found at a position is the one
      that contains it ([SheetGeometry.index_of_position]); grid lines and groups are
      told exactly ([SheetGeometry.grid_lines_exact], [SheetGeometry.groups_exact]).
    - Sections.  Sections are placed next to what they are anchored to
      ([SectionLayout.locate_places]) and expand without touching their neighbours
      ([SectionLayout.expansion_fits]); an event goes to the topmost section at its point
      ([SectionLayout.hit_topmost]) and on to those below until one stops it
      ([SectionEvents.propagation_exact]); a drag stays with the section it began in
      ([SectionEvents.drag_captured]); no handler raises an error
      ([SectionEvents.events_never_raise]); what is to be redrawn while drawing is paused is
      drawn afterwards ([SectionDrawing.redraws_not_lost]) - unless it was asked for while
      drawing was disabled and then paused.
    - Scrolling.  A scroll goes as far as the document allows, and never back
      ([Scroll.scroll_reaches]); a bar follows the pointer that drags it, under the conditions
      of [Scroll.drag_moves_bar]; timers run only while a bar is pressed
      ([Scroll.scroll_invariant]); a sheet that scrolls by itself does not pass its
      beginning ([Scroll.autoScroll_stays]).
    - Sheets that are switched.  The place a sheet was viewed at stays with the sheet
      ([SheetSwitch.views_follow_sheets]), and the view goes back there if no sheet comes or
      goes meanwhile and the server's answer is not too early ([SheetSwitch.leave_and_return]).
    - Panes.  For each place of the view one pane shows a point of the document there
      ([Panes.panes_share_view]); freezing comes to rest after at most one command of the
      client, with both sides agreed ([Panes.freeze_settles]).
    - Shapes.  The outline of a selection, filled, is what lies in an odd number of its
      rectangles ([Polygons.rectanglesToPolygons_fills], [Polygons.rectanglesToPointSet_fills]);
      clipping keeps what is in view and nothing else ([Paths.clipPoints_view],
      [Paths.clipPolygon_view]); simplification keeps within its tolerance
      ([Paths.simplify_within]).  Paths are painted once each and in order
      ([Overlay.draw_in_order]) and told of the mouse in turn ([Overlay.overlay_invariant]).
    - Memory.  The bounds a collection establishes, and that it leaves the tiles in
      view alone ([Tiles]).
    - Wire.  Round trips of tile messages ([ServerCmd], [TileMsg.tile_roundtrip]) and of
      the proxy's frames ([ProxySocket.parse_server_frames]); nothing is lost or
      reordered in sending ([SocketSend.send_fifo]) and receiving
      ([Slurp.slurp_fifo]), and no message waits without a timer
      ([Slurp.slurp_no_lost_wakeup]); the counters of the proxy
      ([ProxySocket.proxy_reachable]), exact until an error resets it.
    - Connection.  After the client sent its view the server knows exactly it, through
      losses of the connection and idleness ([Session.server_knows_view]); a lost
      connection is resumed by itself, once ([Session.reconnects_once]).
    - Editing.  What the server is told amounts to what the text area holds, for text of the
      basic plane ([TextInput.typing_reaches_server]); the edit mode needs the permission, with
      three exceptions that are stated ([Permission.edit_mode_needs_permission],
      [Permission.other_step]); parts and pages stay in range
      ([Parts.parts_invariant]); press, movements and release of the mouse arrive once
      each and in order, double clicks and panning aside ([Mouse.mouse_gesture]), in the view they were made in
      ([Mouse.click_in_view]); a document that may only be read gets no key but those
      that move around ([Keyboard.readonly_posts_navigation]).
    - Views.  What is shown of another view belongs to one that is there ([Views.no_ghosts]),
      the list is exact ([Views.view_list_exact]), and a change of the part shows what is on
      it ([Views.part_shows_views]).
    - Clipboard.  What was copied here is recognised ([Clipboard.home_from_home]) and pasted
      without a request ([CopyPaste.copy_then_paste]); a gesture pastes one content or its images,
      once each ([CopyPaste.pasted_once]), requests end ([CopyPaste.answers_end]), and no content gets
      on the clipboard where copying is disabled ([CopyPaste.copy_disabled]).
    - Events.  Whatever listeners do, the tables stay well-formed, present listeners
      are called and removed ones are not ([Events]).
    - Deviations.  Where the code does not do what it means to, a theorem states what it
      does, and its comment says so.

    ** Not modelled

    - What sections paint on the canvas, tiles and the geometry of overlays aside: headers
      of Calc, comments.  Their functions are parameters of [SectionDrawing] and
      [SectionEvents].
    - Animated zooming of the map and touch gestures: their state is that of the browser's
      animation frames.
    - Dialogs, menus, toolbars and the notebookbar (src/browser/src/control/): their
      effect is the page that is shown.
    - Accessibility support in [TextInput], debugging overlays and logging.
    - Third-party code (src/browser/js/w2ui, select2, Autolinker) and tables of texts
      (unocommands.js). *)

From Stdlib Require Export Ascii.
From Stdlib Require String.
From stdpp Require Export prelude list strings gmap sorting.
From Stdlib Require Export ZArith Lia.

#[global] Set Default Proof Using "Type".
#[export] Set Default Goal Selector "!".

Declare Scope js_scope.
Delimit Scope js_scope with js.

(** ** Numbers

    A JavaScript number is an [option Z]: [Some z] is the integer [z] and
    [None] is [NaN].  The comparison operators are false as soon as one operand
    is [NaN]. *)

Abbreviation num := (option Z).

Definition num_geb (a b : num) : bool :=
  match a, b with Some x, Some y => (y <=? x)%Z | _, _ => false end.

Definition num_ltb (a b : num) : bool :=
  match a, b with Some x, Some y => (x <? y)%Z | _, _ => false end.

Definition num_eqb (a b : num) : bool :=
  match a, b with Some x, Some y => (x =? y)%Z | _, _ => false end.

(** Arithmetic propagates [NaN]. *)
Definition num_add (a b : num) : num :=
  match a, b with Some x, Some y => Some (x + y)%Z | _, _ => None end.

Definition num_sub (a b : num) : num :=
  match a, b with Some x, Some y => Some (x - y)%Z | _, _ => None end.

Definition num_mul (a b : num) : num :=
  match a, b with Some x, Some y => Some (x * y)%Z | _, _ => None end.

(** [Math.floor (a / b)], [Math.ceil (a / b)] and [Math.round (a / b)] for
    integers [a] and [b > 0].  [Math.round] rounds halves up. *)
Definition js_floor_div (a b : Z) : Z := (a / b)%Z.
Definition js_ceil_div (a b : Z) : Z := (- ((- a) / b))%Z.
Definition js_round_div (a b : Z) : Z := ((2 * a + b) / (2 * b))%Z.

(** [ToInt32]: what the bitwise operators see of a number. *)
Definition int32 (z : Z) : Z :=
  let m := (z mod 2 ^ 32)%Z in
  if (m <? 2 ^ 31)%Z then m else (m - 2 ^ 32)%Z.

(** ** Tactics *)

(** Turn boolean comparisons of the hypotheses and the goal into propositions. *)
Ltac to_prop :=
  repeat match goal with
  | H : _ && _ = true |- _ => apply andb_true_iff in H; destruct H
  | H : _ || _ = false |- _ => apply orb_false_iff in H; destruct H
  | H : negb _ = true |- _ => apply negb_true_iff in H
  | H : negb _ = false |- _ => apply negb_false_iff in H
  | H : (_ =? _)%Z = true |- _ => apply Z.eqb_eq in H
  | H : (_ =? _)%Z = false |- _ => apply Z.eqb_neq in H
  | H : (_ <? _)%Z = true |- _ => apply Z.ltb_lt in H
  | H : (_ <? _)%Z = false |- _ => apply Z.ltb_ge in H
  | H : (_ <=? _)%Z = true |- _ => apply Z.leb_le in H
  | H : (_ <=? _)%Z = false |- _ => apply Z.leb_gt in H
  | H : (_ =? _)%nat = true |- _ => apply Nat.eqb_eq in H
  | H : (_ =? _)%nat = false |- _ => apply Nat.eqb_neq in H
  | H : (_ <? _)%nat = true |- _ => apply Nat.ltb_lt in H
  | H : (_ <? _)%nat = false |- _ => apply Nat.ltb_ge in H
  | H : bool_decide _ = true |- _ => apply bool_decide_eq_true in H
  | H : bool_decide _ = false |- _ => apply bool_decide_eq_false in H
  end.

(** Case analysis on the innermost boolean test of the goal. *)
Ltac case_bool :=
  match goal with
  | |- context [if ?b then _ else _] =>
      lazymatch b with
      | context [if _ then _ else _] => fail
      | context [match _ with _ => _ end] => fail
      | _ => let E := fresh "E" in destruct b eqn:E; to_prop
      end
  end.

(** ** Generic lemmas on integers *)

Section integers.
Local Open Scope Z_scope.

Lemma js_ceil_div_spec a b :
  0 < b -> a <= js_ceil_div a b * b < a + b.
Proof.
  intros Hb. unfold js_ceil_div.
  pose proof (Z.div_mod (- a) b ltac:(lia)).
  pose proof (Z.mod_pos_bound (- a) b Hb). nia.
Qed.

Lemma js_round_div_mul k b : 0 < b -> js_round_div (k * b) b = k.
Proof.
  intros Hb. unfold js_round_div.
  replace (2 * (k * b) + b) with (b + k * (2 * b)) by ring.
  rewrite Z.div_add, Z.div_small; lia.
Qed.

Lemma js_round_div_bounds a b : 0 < b -> 2 * a - b < 2 * (js_round_div a b * b) <= 2 * a + b.
Proof.
  intros Hb. unfold js_round_div.
  pose proof (Z.div_mod (2 * a + b) (2 * b) ltac:(lia)).
  pose proof (Z.mod_pos_bound (2 * a + b) (2 * b) ltac:(lia)). lia.
Qed.

Lemma int32_small z : - 2 ^ 31 <= z < 2 ^ 31 -> int32 z = z.
Proof.
  intros Hz. unfold int32.
  destruct (Z.le_gt_cases 0 z).
  - rewrite Z.mod_small by lia. destruct (Z.ltb_spec z (2 ^ 31)); lia.
  - replace (z mod 2 ^ 32) with (z + 2 ^ 32).
    + destruct (Z.ltb_spec (z + 2 ^ 32) (2 ^ 31)); lia.
    + rewrite <- (Z.mod_add z 1 (2 ^ 32)) by lia.
      rewrite Z.mod_small; lia.
Qed.

Lemma floor_div_iff a b q : 0 < b -> a / b = q <-> q * b <= a < (q + 1) * b.
Proof.
  intros Hb. pose proof (Z.div_mod a b ltac:(lia)).
  pose proof (Z.mod_pos_bound a b Hb). split; [intros <-; lia | intros ?; nia].
Qed.
End integers.

(** ** Generic lemmas on lists *)

Section lists.
Context {A : Type}.

Lemma list_elem_of_existsb (P : A -> bool) l :
  existsb P l = true <-> exists x, x ∈ l /\ P x = true.
Proof.
  rewrite existsb_exists. setoid_rewrite list_elem_of_In. done.
Qed.

Lemma sum_list_with_app (f : A -> nat) l k :
  sum_list_with f (l ++ k) = (sum_list_with f l + sum_list_with f k)%nat.
Proof. induction l; simpl; lia. Qed.

Lemma length_filter_le (P : A -> Prop) `{!forall x, Decision (P x)} l :
  (length (filter P l) <= length l)%nat.
Proof. induction l; [done|]. rewrite filter_cons. case_decide; simpl; lia. Qed.
End lists.

Create HintDb oxool.
#[export] Hint Resolve js_round_div_mul int32_small : oxool.
