(* ===== verification/Sorts.v ===== *)
(** * Sorting

    [Array.prototype.sort], and the two nested loops with which several parts of the client
    order an array in place by exchanges, [for i, for j > i: if (a[i] is after a[j])
    exchange them]: for any comparison, and what they establish. *)

From S2P Require Import Prelude.

(** ** [Array.prototype.sort] *)

(** [Array.prototype.sort (cmp)], which is stable and takes [NaN] for 0. *)
Section js_sort.
Context {A : Type} (cmp : A -> A -> num).

Definition cmp_le (x y : A) : bool :=
  match cmp x y with Some d => (d <=? 0)%Z | None => true end.

Fixpoint js_insert (x : A) (l : list A) : list A :=
  match l with
  | [] => [x]
  | y :: l' => if cmp_le x y then x :: l else y :: js_insert x l'
  end.

Definition js_sort (l : list A) : list A := foldr js_insert [] l.

Lemma js_insert_perm x l : js_insert x l ≡ₚ x :: l.
Proof.
  induction l as [|y l IH]; simpl; [done|]. destruct (cmp_le x y); [done|].
  rewrite IH. apply Permutation_swap.
Qed.

Lemma js_sort_perm l : js_sort l ≡ₚ l.
Proof.
  unfold js_sort. induction l as [|x l IH]; simpl; [done|]. by rewrite js_insert_perm, IH.
Qed.

(** Stability: elements the comparison takes for equal keep the order [pre] they come in,
    so the result is sorted by any order [lt] that the comparison and [pre] decide. *)
Section stable.
Context (pre lt : A -> A -> Prop).
Context (lt_trans : forall x y z, lt x y -> lt y z -> lt x z).
Context (le_lt : forall x y, cmp_le x y = true -> pre x y -> lt x y).
Context (gt_lt : forall x y, cmp_le x y = false -> pre x y -> lt y x).

Lemma js_insert_sorted x l :
  Forall (pre x) l -> StronglySorted lt l -> StronglySorted lt (js_insert x l).
Proof using lt_trans le_lt gt_lt.
  induction l as [|y l IH]; intros Hp Hs; simpl; [by repeat constructor|].
  apply Forall_cons in Hp as [Hy Hl]. apply StronglySorted_inv in Hs as [Hs Hf].
  destruct (cmp_le x y) eqn:E.
  - pose proof (le_lt _ _ E Hy) as Hxy. constructor; [by constructor|]. constructor; [done|].
    apply (Forall_impl _ _ _ Hf). intros z. by apply lt_trans.
  - constructor; [by apply IH|]. rewrite js_insert_perm. constructor; [by apply gt_lt|done].
Qed.

Lemma js_sort_sorted l : StronglySorted pre l -> StronglySorted lt (js_sort l).
Proof using lt_trans le_lt gt_lt.
  induction 1 as [|x l Hs IH Hf]; simpl; [constructor|].
  apply js_insert_sorted; [by rewrite js_sort_perm|done].
Qed.
End stable.
End js_sort.

(** ** Sorted lists *)

Lemma StronglySorted_true {A} (l : list A) : StronglySorted (fun _ _ => True) l.
Proof. induction l; constructor; [done|by apply Forall_true]. Qed.

Lemma StronglySorted_weaken {A} (R S : A -> A -> Prop) (P : A -> Prop) l :
  (forall a b, P a -> P b -> R a b -> S a b) -> Forall P l -> StronglySorted R l -> StronglySorted S l.
Proof.
  intros H HP. induction 1 as [|a l Hs IH Hf]; [constructor|]. apply Forall_cons in HP as [Ha HP].
  constructor; [by apply IH|]. rewrite Forall_forall in *. auto.
Qed.

Lemma sorted_filter {A} (P : A -> Prop) `{forall x, Decision (P x)} (R : A -> A -> Prop) l :
  StronglySorted R l -> StronglySorted R (filter P l).
Proof.
  induction 1 as [|x l _ IH Hl]; [constructor|]. rewrite filter_cons. case_decide; [|done]. constructor; [done|].
  rewrite Forall_forall in *. intros y [_ Hy]%list_elem_of_filter. by apply Hl.
Qed.

(** ** Exchanges *)

Section exchange.
Context {A : Type} (gt : A -> A -> bool).

(** The inner loop, for the element [x] in place [i]: the element it leaves there and
    what is behind it. *)
Fixpoint exchange_pass (x : A) (l : list A) : A * list A :=
  match l with
  | [] => (x, [])
  | y :: l' =>
      if gt x y then let '(m, r) := exchange_pass y l' in (m, x :: r)
      else let '(m, r) := exchange_pass x l' in (m, y :: r)
  end.

Fixpoint exchange_rounds (n : nat) (l : list A) : list A :=
  match n, l with
  | S n', x :: l' => let '(m, r) := exchange_pass x l' in m :: exchange_rounds n' r
  | _, _ => l
  end.

Definition exchange_sort (l : list A) : list A := exchange_rounds (length l) l.

(** The exchanges only permute, whatever the comparison is. *)
Lemma exchange_pass_perm x l m r : exchange_pass x l = (m, r) -> m :: r ≡ₚ x :: l.
Proof.
  revert x m r. induction l as [|y l IH]; intros x m r; simpl; [by intros [= <- <-]|].
  destruct (gt x y).
  - destruct (exchange_pass y l) as [m' r'] eqn:E. intros [= <- <-].
    by rewrite Permutation_swap, (IH _ _ _ E).
  - destruct (exchange_pass x l) as [m' r'] eqn:E. intros [= <- <-].
    rewrite Permutation_swap, (IH _ _ _ E). apply Permutation_swap.
Qed.

Lemma exchange_rounds_perm n l : exchange_rounds n l ≡ₚ l.
Proof.
  revert l. induction n as [|n IH]; intros [|x l]; simpl; try done.
  destruct (exchange_pass x l) as [m r] eqn:E. by rewrite IH, (exchange_pass_perm _ _ _ _ E).
Qed.

Lemma exchange_sort_perm l : exchange_sort l ≡ₚ l.
Proof. apply exchange_rounds_perm. Qed.

(** With a comparison that is a total preorder, the result is sorted. *)
Definition not_after (a b : A) : Prop := gt a b = false.

Context (not_after_trans : forall a b c, not_after a b -> not_after b c -> not_after a c).
Context (gt_antisym : forall a b, gt a b = true -> not_after b a).

Lemma not_after_refl a : not_after a a.
Proof using gt_antisym.
  unfold not_after. destruct (gt a a) eqn:E; [|done]. by rewrite (gt_antisym _ _ E) in E.
Qed.

Lemma exchange_pass_min x l m r :
  exchange_pass x l = (m, r) -> not_after m x /\ Forall (not_after m) r.
Proof using not_after_trans gt_antisym.
  revert x m r. induction l as [|y l IH]; intros x m r; simpl.
  { intros [= <- <-]. split; [apply not_after_refl | done]. }
  destruct (gt x y) eqn:E.
  - destruct (exchange_pass y l) as [m' r'] eqn:Er. intros [= <- <-].
    destruct (IH _ _ _ Er) as [Hy Hr]. apply gt_antisym in E. eauto.
  - destruct (exchange_pass x l) as [m' r'] eqn:Er. intros [= <- <-].
    destruct (IH _ _ _ Er) as [Hx Hr]. eauto.
Qed.

Lemma exchange_rounds_sorted n l :
  (length l <= n)%nat -> StronglySorted not_after (exchange_rounds n l).
Proof using not_after_trans gt_antisym.
  revert l. induction n as [|n IH]; intros [|x l] Hl; simpl in *; try lia; try (by repeat constructor).
  destruct (exchange_pass x l) as [m r] eqn:E.
  pose proof (Permutation_length (exchange_pass_perm _ _ _ _ E)) as Hlen; simpl in Hlen.
  constructor; [apply IH; lia|]. rewrite exchange_rounds_perm. by eapply exchange_pass_min.
Qed.

Lemma exchange_sort_sorted l : StronglySorted not_after (exchange_sort l).
Proof using not_after_trans gt_antisym. by apply exchange_rounds_sorted. Qed.
End exchange.

(** ** Two keys, the first of which counts more *)

Section lex.
Local Open Scope Z_scope.
Context {A : Type} (f g : A -> Z).

Definition lex_gt (a b : A) : bool := (f b <? f a) || (f a =? f b) && (g b <? g a).
Definition lex_le (a b : A) : Prop := f a < f b \/ f a = f b /\ g a <= g b.

Lemma lex_gt_spec a b : not_after lex_gt a b <-> lex_le a b.
Proof. unfold not_after, lex_gt, lex_le. lia. Qed.

Lemma lex_le_trans a b c : lex_le a b -> lex_le b c -> lex_le a c.
Proof. unfold lex_le. lia. Qed.

Lemma lex_not_after_trans a b c :
  not_after lex_gt a b -> not_after lex_gt b c -> not_after lex_gt a c.
Proof. rewrite !lex_gt_spec. apply lex_le_trans. Qed.

Lemma lex_gt_antisym a b : lex_gt a b = true -> not_after lex_gt b a.
Proof. unfold not_after, lex_gt. lia. Qed.

Lemma lex_sort_sorted l : StronglySorted lex_le (exchange_sort lex_gt l).
Proof.
  pose proof (exchange_sort_sorted lex_gt lex_not_after_trans lex_gt_antisym l) as H.
  revert H. induction 1; constructor; [done|].
  eapply Forall_impl; [done|]. intros ?. apply lex_gt_spec.
Qed.

(** *** Sorting the runs of equal first key by the second

    The inner loop stops at the first element with another key. *)
Fixpoint run_pass (k : Z) (x : A) (l : list A) : A * list A :=
  match l with
  | [] => (x, [])
  | y :: l' =>
      if f y =? k then
        if g y <? g x then let '(m, r) := run_pass k y l' in (m, x :: r)
        else let '(m, r) := run_pass k x l' in (m, y :: r)
      else (x, l)
  end.

Fixpoint run_rounds (n : nat) (l : list A) : list A :=
  match n, l with
  | S n', x :: l' => let '(m, r) := run_pass (f x) x l' in m :: run_rounds n' r
  | _, _ => l
  end.

Definition run_sort (l : list A) : list A := run_rounds (length l) l.

Definition sorted_by_first (l : list A) : Prop := StronglySorted (fun a b => f a <= f b) l.

Lemma exchange_pass_idle x l :
  Forall (fun y => f x < f y) l -> exchange_pass lex_gt x l = (x, l).
Proof.
  induction 1 as [|y l Hy _ IH]; [done|]. simpl.
  destruct (lex_gt x y) eqn:E; [unfold lex_gt in E; lia|]. by rewrite IH.
Qed.

(** On an array sorted by the first key this is the sort by both. *)
Lemma run_pass_exchange k x l :
  f x = k -> Forall (fun y => k <= f y) l -> sorted_by_first l ->
  run_pass k x l = exchange_pass lex_gt x l.
Proof.
  intros Hx Hk Hs. revert x Hx Hk. induction Hs as [|y l Hs IH Hy]; intros x Hx Hk; [done|].
  inversion_clear Hk as [|? ? Hky Hk']. simpl. destruct (f y =? k) eqn:E; to_prop.
  - replace (lex_gt x y) with (g y <? g x) by (unfold lex_gt; lia).
    destruct (g y <? g x); [rewrite (IH y)|rewrite (IH x)]; auto.
  - replace (lex_gt x y) with false by (unfold lex_gt; lia).
    rewrite (exchange_pass_idle x l); [done|].
    eapply Forall_impl; [exact Hy|]. simpl. lia.
Qed.

Lemma exchange_pass_keys x l m r :
  Forall (fun y => f x <= f y) l -> exchange_pass lex_gt x l = (m, r) -> f m = f x /\ f <$> r = f <$> l.
Proof.
  intros Hk. revert x m r Hk. induction l as [|y l IH]; intros x m r Hk; simpl; [by intros [= <- <-]|].
  inversion_clear Hk as [|? ? Hy Hk']. destruct (lex_gt x y) eqn:E.
  - assert (f y = f x) by (unfold lex_gt in E; lia).
    destruct (exchange_pass lex_gt y l) as [m' r'] eqn:Er. intros [= <- <-].
    destruct (IH y m' r') as [Hm Hr]; [by rewrite H|done|]. csimpl. split; congruence.
  - destruct (exchange_pass lex_gt x l) as [m' r'] eqn:Er. intros [= <- <-].
    destruct (IH x m' r') as [Hm Hr]; [done..|]. csimpl. split; congruence.
Qed.

Lemma sorted_by_first_keys l r : f <$> r = f <$> l -> sorted_by_first l -> sorted_by_first r.
Proof.
  unfold sorted_by_first. intros Hr Hs. revert r Hr.
  induction Hs as [|y l Hs IH Hy]; intros [|z r]; csimpl; intros Hr; try discriminate; [constructor|].
  injection Hr as Hz Hr. constructor; [by apply IH|]. rewrite Hz.
  assert (Hk : Forall (fun k => f y <= k) (f <$> r)) by (by rewrite Hr; apply Forall_fmap).
  rewrite Forall_fmap in Hk. exact Hk.
Qed.

Lemma run_sort_exchange l : sorted_by_first l -> run_sort l = exchange_sort lex_gt l.
Proof.
  unfold run_sort, exchange_sort. generalize (length l) as n. intros n. revert l.
  induction n as [|n IH]; intros [|x l] Hs; [done..|]. inversion_clear Hs as [|? ? Hs' Hx]. simpl.
  rewrite run_pass_exchange by done. destruct (exchange_pass lex_gt x l) as [m r] eqn:E.
  f_equal. apply IH. eapply sorted_by_first_keys; [|done]. by eapply exchange_pass_keys.
Qed.

Lemma run_pass_perm k x l m r : run_pass k x l = (m, r) -> m :: r ≡ₚ x :: l.
Proof.
  revert x m r. induction l as [|y l IH]; intros x m r; simpl; [by intros [= <- <-]|].
  destruct (f y =? k); [|by intros [= <- <-]]. destruct (g y <? g x).
  - destruct (run_pass k y l) as [m' r'] eqn:E. intros [= <- <-].
    by rewrite Permutation_swap, (IH _ _ _ E).
  - destruct (run_pass k x l) as [m' r'] eqn:E. intros [= <- <-].
    rewrite Permutation_swap, (IH _ _ _ E). apply Permutation_swap.
Qed.

Lemma run_sort_perm l : run_sort l ≡ₚ l.
Proof.
  unfold run_sort. generalize (length l) as n. intros n. revert l.
  induction n as [|n IH]; intros [|x l]; simpl; try done.
  destruct (run_pass (f x) x l) as [m r] eqn:E. by rewrite IH, (run_pass_perm _ _ _ _ _ E).
Qed.
End lex.
