(* ===== verification/JsText.v ===== *)
(** * Text: the JavaScript string and numeral operations the protocol uses

    Strings are [string]s of 8-bit characters (the protocol's text is ASCII).
    This file defines printing a number ([String (n)], [n.toString (16)]),
    [parseInt], [Number (s)], [split], [join], [startsWith] and [substring],
    and the round trips between printing and parsing. *)

From S2P Require Import Prelude.
Local Open Scope Z_scope.

(** ** Characters *)

Definition code (c : ascii) : Z := Z.of_N (N_of_ascii c).

Definition chr (z : Z) : ascii := ascii_of_N (Z.to_N z).

(** The digit characters of [Number.prototype.toString]: 0-9 then a-z. *)
Definition digit_char (d : Z) : ascii :=
  if d <? 10 then chr (48 + d) else chr (87 + d).

(** The value of a digit in either case, [None] for any other character. *)
Definition digit_val (c : ascii) : option Z :=
  let n := code c in
  if (48 <=? n) && (n <=? 57) then Some (n - 48)
  else if (97 <=? n) && (n <=? 122) then Some (n - 87)
  else if (65 <=? n) && (n <=? 90) then Some (n - 55)
  else None.

(** A digit below [radix]. *)
Definition radix_digit (radix : Z) (c : ascii) : option Z :=
  match digit_val c with
  | Some d => if d <? radix then Some d else None
  | None => None
  end.

(** The white space [parseInt], [trim] and [\s] skip, among 8-bit characters. *)
Definition is_space (c : ascii) : bool :=
  let n := code c in
  ((9 <=? n) && (n <=? 13)) || (n =? 32) || (n =? 160).

(** ** Printing numbers *)

(** The digits of [n] in base [radix], most significant first. *)
Fixpoint zdigits (radix : Z) (fuel : nat) (n : Z) : list Z :=
  match fuel with
  | O => []
  | S f => if n <? radix then [n] else zdigits radix f (n / radix) ++ [n mod radix]
  end.

Definition digits_fuel (n : Z) : nat := S (Z.to_nat (Z.log2 n)).

Definition of_digits (ds : list Z) : string :=
  String.string_of_list_ascii (digit_char <$> ds).

Definition print_nat_radix (radix n : Z) : string :=
  of_digits (zdigits radix (digits_fuel n) n).

(** [n.toString (radix)]. *)
Definition to_string_radix (radix n : Z) : string :=
  if n <? 0 then "-" +:+ print_nat_radix radix (- n) else print_nat_radix radix n.

(** [String (n)] for an integer [n] below 1e21. *)
Definition num_to_string (n : Z) : string := to_string_radix 10 n.

(** ** Parsing numbers *)

(** Continue a numeral of value [acc]; returns its value and what follows. *)
Fixpoint scan_digits (radix : Z) (s : string) (acc : Z) : Z * string :=
  match s with
  | EmptyString => (acc, "")
  | String c s' =>
      match radix_digit radix c with
      | Some d => scan_digits radix s' (acc * radix + d)
      | None => (acc, s)
      end
  end.

Definition parse_digits (radix : Z) (s : string) : num :=
  match s with
  | EmptyString => None
  | String c _ =>
      match radix_digit radix c with
      | Some _ => Some (scan_digits radix s 0).1
      | None => None
      end
  end.

Fixpoint trim_start (s : string) : string :=
  match s with
  | String c s' => if is_space c then trim_start s' else s
  | EmptyString => ""
  end.

Definition rev_string (s : string) : string :=
  String.string_of_list_ascii (rev (String.list_ascii_of_string s)).

Definition trim (s : string) : string :=
  rev_string (trim_start (rev_string (trim_start s))).

(** The sign of a numeral and what follows it. *)
Definition split_sign (s : string) : Z * string :=
  match s with
  | String "-"%char s' => (-1, s')
  | String "+"%char s' => (1, s')
  | _ => (1, s)
  end.

Definition strip_hex (s : string) : option string :=
  match s with
  | String "0"%char (String x s') =>
      if (Ascii.eqb x "x"%char || Ascii.eqb x "X"%char)%bool then Some s' else None
  | _ => None
  end.

(** [parseInt (s, radix)]; [parseInt (s)] is [parse_int 0 s]. *)
Definition parse_int (radix : Z) (s : string) : num :=
  let '(sign, s1) := split_sign (trim_start s) in
  let '(r, s2) :=
    if (radix =? 0) || (radix =? 16) then
      match strip_hex s1 with
      | Some h => (16, h)
      | None => (if radix =? 0 then 10 else radix, s1)
      end
    else (radix, s1) in
  Z.mul sign <$> parse_digits r s2.

Abbreviation parseInt := (parse_int 0).

Definition all_digits (radix : Z) (s : string) : num :=
  match parse_digits radix s with
  | Some v => if String.eqb (scan_digits radix s 0).2 "" then Some v else None
  | None => None
  end.

(** [Number (s)] on decimal integer literals: white space is trimmed and the
    empty string is 0; [None] is [NaN] (fractions, exponents and radix prefixes,
    which the callers never meet, are [None] as well). *)
Definition to_number (s : string) : num :=
  let t := trim s in
  if String.eqb t "" then Some 0
  else let '(sign, u) := split_sign t in Z.mul sign <$> all_digits 10 u.

(** ** Splitting, joining, taking apart *)

Fixpoint split_on (c : ascii) (s : string) : list string :=
  match s with
  | EmptyString => [""]
  | String a s' =>
      if Ascii.eqb a c then "" :: split_on c s'
      else match split_on c s' with
           | [] => [String a ""]
           | h :: t => String a h :: t
           end
  end.

Definition join (sep : string) (l : list string) : string := String.concat sep l.

Fixpoint str_drop (n : nat) (s : string) : string :=
  match n, s with
  | O, _ => s
  | S n', String _ s' => str_drop n' s'
  | S _, EmptyString => ""
  end.

Fixpoint str_take (n : nat) (s : string) : string :=
  match n, s with
  | S n', String c s' => String c (str_take n' s')
  | _, _ => ""
  end.

(** [s.startsWith (p)] *)
Fixpoint starts_with (s p : string) {struct p} : bool :=
  match p, s with
  | EmptyString, _ => true
  | String c p', String a s' => Ascii.eqb a c && starts_with s' p'
  | String _ _, EmptyString => false
  end.

Fixpoint str_forall (P : ascii -> bool) (s : string) : bool :=
  match s with
  | EmptyString => true
  | String c s' => P c && str_forall P s'
  end.

(** [s.indexOf (p)], [None] for -1. *)
Fixpoint index_of (p s : string) {struct s} : option nat :=
  if starts_with s p then Some 0%nat
  else match s with
       | EmptyString => None
       | String _ s' => S <$> index_of p s'
       end.

Definition includes (s p : string) : bool :=
  match index_of p s with Some _ => true | None => false end.

(** ** Characters and strings: basic facts *)

Lemma code_chr z : 0 <= z < 256 -> code (chr z) = z.
Proof.
  intros Hz. unfold code, chr. rewrite N_ascii_embedding by lia. lia.
Qed.

Lemma chr_code c : chr (code c) = c.
Proof. unfold chr, code. rewrite N2Z.id. apply ascii_N_embedding. Qed.

Lemma code_bounds c : 0 <= code c < 256.
Proof. unfold code. pose proof (N_ascii_bounded c). lia. Qed.

Lemma digit_val_digit_char d : 0 <= d < 36 -> digit_val (digit_char d) = Some d.
Proof.
  intros Hd. unfold digit_val, digit_char.
  destruct (Z.ltb_spec d 10); rewrite code_chr by lia;
    repeat case_bool; f_equal; try lia; exfalso;
    repeat match goal with H : _ && _ = false |- _ =>
      apply andb_false_iff in H as [?|?]; to_prop end; lia.
Qed.

Lemma radix_digit_digit_char r d :
  0 <= d < r -> r <= 36 -> radix_digit r (digit_char d) = Some d.
Proof.
  intros Hd Hr. unfold radix_digit. rewrite digit_val_digit_char by lia.
  by destruct (Z.ltb_spec d r); [|lia].
Qed.

Lemma str_app_cons c s t : String c s +:+ t = String c (s +:+ t).
Proof. done. Qed.

Lemma str_app_nil_l t : "" +:+ t = t.
Proof. done. Qed.

Lemma str_app_nil_r s : s +:+ "" = s.
Proof. induction s; [done|]. rewrite str_app_cons. by f_equal. Qed.

Lemma str_app_assoc s t u : (s +:+ t) +:+ u = s +:+ t +:+ u.
Proof. induction s; [done|]. rewrite !str_app_cons. by f_equal. Qed.

Create Rewrite HintDb str.
#[export] Hint Rewrite str_app_cons str_app_nil_l str_app_assoc : str.

Ltac str_simpl := autorewrite with str in *.

Lemma str_forall_app P s t : str_forall P (s +:+ t) = str_forall P s && str_forall P t.
Proof.
  induction s as [|c s IH]; [done|]. rewrite str_app_cons. simpl.
  by rewrite IH, andb_assoc.
Qed.

Lemma str_forall_impl (P Q : ascii -> bool) s :
  (forall c, P c = true -> Q c = true) -> str_forall P s = true -> str_forall Q s = true.
Proof. intros HPQ. induction s; simpl; [done|]. intros [??]%andb_true_iff. by rewrite HPQ, IHs. Qed.

Lemma starts_with_app p s : starts_with (p +:+ s) p = true.
Proof.
  induction p as [|c p IH]; [done|]. rewrite str_app_cons. simpl. by rewrite Ascii.eqb_refl.
Qed.

Lemma str_drop_app p s : str_drop (String.length p) (p +:+ s) = s.
Proof. induction p; [done|]. by rewrite str_app_cons. Qed.

(** ** Printing then parsing a number *)

Section digits.
Context (r : Z) (Hr : 2 <= r <= 36).

Definition horner (ds : list Z) (acc : Z) : Z := fold_left (fun a d => a * r + d) ds acc.

Lemma zdigits_range fuel n : 0 <= n -> Forall (fun d => 0 <= d < r) (zdigits r fuel n).
Proof using Hr.
  revert n. induction fuel as [|f IH]; intros n Hn; simpl; [done|].
  destruct (Z.ltb_spec n r); [by repeat constructor|].
  apply Forall_app; split.
  - apply IH. apply Z.div_pos; lia.
  - repeat constructor; apply Z.mod_pos_bound; lia.
Qed.

Lemma zdigits_horner fuel n : 0 <= n < 2 ^ Z.of_nat fuel -> horner (zdigits r fuel n) 0 = n.
Proof using Hr.
  revert n. induction fuel as [|f IH]; intros n Hn; simpl; [simpl in Hn; lia|].
  destruct (Z.ltb_spec n r); [unfold horner; simpl; lia|].
  unfold horner in *. rewrite fold_left_app, IH; simpl.
  - pose proof (Z.div_mod n r). lia.
  - rewrite Nat2Z.inj_succ, Z.pow_succ_r in Hn by lia.
    split; [apply Z.div_pos; lia|]. apply Z.div_lt_upper_bound; nia.
Qed.

Lemma digits_fuel_enough n : 0 <= n -> n < 2 ^ Z.of_nat (digits_fuel n).
Proof.
  intros Hn. unfold digits_fuel. rewrite Nat2Z.inj_succ.
  rewrite Z2Nat.id by apply Z.log2_nonneg.
  destruct (Z.eq_dec n 0) as [->|]; [done|]. by apply Z.log2_spec; lia.
Qed.

Lemma of_digits_cons d ds : of_digits (d :: ds) = String (digit_char d) (of_digits ds).
Proof. done. Qed.

(** [rest] does not continue a numeral in base [r]. *)
Definition stops (rest : string) : Prop :=
  match rest with String c _ => radix_digit r c = None | EmptyString => True end.

Lemma scan_digits_of_digits ds rest acc :
  Forall (fun d => 0 <= d < r) ds -> stops rest ->
  scan_digits r (of_digits ds +:+ rest) acc = (horner ds acc, rest).
Proof using Hr.
  intros Hds Hrest. revert acc. induction Hds as [|d ds Hd _ IH]; intros acc.
  - rewrite (str_app_nil_l rest : of_digits [] +:+ rest = rest).
    destruct rest as [|c rest]; [done|]. simpl in *. by rewrite Hrest.
  - rewrite of_digits_cons, str_app_cons. simpl.
    rewrite radix_digit_digit_char by lia. by rewrite IH.
Qed.

Lemma print_nat_radix_cons n :
  0 <= n -> exists d s, print_nat_radix r n = String (digit_char d) s /\ 0 <= d < r.
Proof using Hr.
  intros Hn. unfold print_nat_radix.
  pose proof (zdigits_range (digits_fuel n) n Hn) as Hds.
  destruct (zdigits r (digits_fuel n) n) as [|d ds] eqn:E.
  - exfalso. unfold digits_fuel in E. simpl in E.
    destruct (n <? r); [done|]. by destruct (zdigits r _ _).
  - apply Forall_cons in Hds as [Hd _]. eexists _, _. by rewrite of_digits_cons.
Qed.

Lemma scan_print n rest acc :
  0 <= n -> stops rest -> acc = 0 ->
  scan_digits r (print_nat_radix r n +:+ rest) acc = (n, rest).
Proof using Hr.
  intros Hn Hrest ->. unfold print_nat_radix.
  rewrite scan_digits_of_digits by auto using zdigits_range.
  f_equal. apply zdigits_horner. auto using digits_fuel_enough.
Qed.

Lemma parse_digits_print n rest :
  0 <= n -> stops rest -> parse_digits r (print_nat_radix r n +:+ rest) = Some n.
Proof using Hr.
  intros Hn Hrest. destruct (print_nat_radix_cons n Hn) as (d & s & E & Hd).
  pose proof (scan_print n rest 0 Hn Hrest eq_refl) as Hs.
  unfold parse_digits. rewrite E, str_app_cons in *.
  rewrite radix_digit_digit_char by lia. by rewrite Hs.
Qed.

Lemma all_digits_print n : 0 <= n -> all_digits r (print_nat_radix r n) = Some n.
Proof using Hr.
  intros Hn. unfold all_digits. rewrite <- (str_app_nil_r (print_nat_radix r n)).
  rewrite parse_digits_print, scan_print by done. done.
Qed.

Lemma print_nat_radix_forall (P : ascii -> bool) n :
  (forall d, 0 <= d < r -> P (digit_char d) = true) -> 0 <= n ->
  str_forall P (print_nat_radix r n) = true.
Proof using Hr.
  intros HP Hn. unfold print_nat_radix.
  pose proof (zdigits_range (digits_fuel n) n Hn) as Hds.
  induction Hds as [|d ds Hd _ IH]; [done|].
  rewrite of_digits_cons. simpl. by rewrite HP, IH.
Qed.
End digits.

Lemma code_digit_char d :
  0 <= d < 36 -> code (digit_char d) = if d <? 10 then 48 + d else 87 + d.
Proof. intros Hd. unfold digit_char. case_bool; by rewrite code_chr by lia. Qed.

Lemma digit_char_not_space d : 0 <= d < 36 -> is_space (digit_char d) = false.
Proof.
  intros Hd. unfold is_space. rewrite code_digit_char by done.
  destruct (Z.ltb_spec d 10); lia.
Qed.

Lemma split_sign_unsigned c s :
  code c <> 45 -> code c <> 43 -> split_sign (String c s) = (1, String c s).
Proof. by destruct c as [[] [] [] [] [] [] [] []]. Qed.

Lemma split_sign_digit d s :
  0 <= d < 36 -> split_sign (String (digit_char d) s) = (1, String (digit_char d) s).
Proof.
  intros Hd. apply split_sign_unsigned; rewrite code_digit_char by done; case_bool; lia.
Qed.

Lemma trim_start_nonspace s :
  str_forall (fun c => negb (is_space c)) s = true -> trim_start s = s.
Proof. destruct s as [|c s]; simpl; [done|]. by intros [->%negb_true_iff _]%andb_true_iff. Qed.

Lemma str_forall_list P s :
  str_forall P s = forallb P (String.list_ascii_of_string s).
Proof. induction s; simpl; congruence. Qed.

Lemma rev_string_involutive s : rev_string (rev_string s) = s.
Proof.
  unfold rev_string. rewrite String.list_ascii_of_string_of_list_ascii, rev_involutive.
  apply String.string_of_list_ascii_of_string.
Qed.

Lemma str_forall_rev P s : str_forall P (rev_string s) = str_forall P s.
Proof.
  rewrite !str_forall_list. unfold rev_string.
  rewrite String.list_ascii_of_string_of_list_ascii.
  induction (String.list_ascii_of_string s) as [|c l IH]; simpl; [done|].
  rewrite forallb_app, IH. simpl. rewrite andb_true_r. apply andb_comm.
Qed.

Lemma trim_nonspace s : str_forall (fun c => negb (is_space c)) s = true -> trim s = s.
Proof.
  intros Hs. unfold trim. rewrite (trim_start_nonspace s) by done.
  rewrite trim_start_nonspace by by rewrite str_forall_rev. apply rev_string_involutive.
Qed.

(** A printed number consists of digits and at most a leading minus sign. *)
Lemma num_to_string_forall (P : ascii -> bool) n :
  (forall d, 0 <= d < 10 -> P (digit_char d) = true) -> P "-"%char = true ->
  str_forall P (num_to_string n) = true.
Proof.
  intros HP Hm. unfold num_to_string, to_string_radix.
  destruct (Z.ltb_spec n 0).
  - rewrite str_forall_app. simpl. rewrite Hm.
    by rewrite print_nat_radix_forall by (done || lia).
  - apply print_nat_radix_forall; done || lia.
Qed.

Lemma num_to_string_nonspace n :
  str_forall (fun c => negb (is_space c)) (num_to_string n) = true.
Proof.
  apply num_to_string_forall; [|done]. intros d Hd. by rewrite digit_char_not_space by lia.
Qed.

Lemma num_to_string_nonempty n : String.eqb (num_to_string n) "" = false.
Proof.
  unfold num_to_string, to_string_radix. destruct (Z.ltb_spec n 0); [done|].
  by destruct (print_nat_radix_cons 10 ltac:(lia) n) as (d & s & -> & _).
Qed.

(** [Number (String (n)) = n] *)
Lemma to_number_num_to_string n : to_number (num_to_string n) = Some n.
Proof.
  unfold to_number. rewrite trim_nonspace by apply num_to_string_nonspace.
  rewrite num_to_string_nonempty. unfold num_to_string, to_string_radix.
  destruct (Z.ltb_spec n 0).
  - rewrite str_app_cons, str_app_nil_l. simpl.
    rewrite all_digits_print by lia. simpl. f_equal. lia.
  - pose proof (all_digits_print 10 ltac:(lia) n ltac:(lia)) as Hall.
    destruct (print_nat_radix_cons 10 ltac:(lia) n) as (d & s & E & Hd); [done|].
    rewrite E in *. rewrite split_sign_digit by lia. rewrite Hall. simpl. f_equal. lia.
Qed.

Lemma num_to_string_inj : Inj (=) (=) num_to_string.
Proof.
  intros n m E. apply (f_equal to_number) in E.
  rewrite !to_number_num_to_string in E. congruence.
Qed.
#[export] Existing Instance num_to_string_inj.

(** A printed decimal natural never looks like a hexadecimal literal. *)
Lemma strip_hex_second c s : (code c <> 120 -> code c <> 88 -> strip_hex (String "0"%char (String c s)) = None).
Proof. by destruct c as [[] [] [] [] [] [] [] []]. Qed.

Lemma strip_hex_digits ds :
  Forall (fun d => 0 <= d < 33) ds -> strip_hex (of_digits ds) = None.
Proof.
  intros Hds. destruct ds as [|d [|e ds]]; [done| |].
  - rewrite of_digits_cons. simpl. by destruct (digit_char d) as [[] [] [] [] [] [] [] []].
  - rewrite !Forall_cons in Hds. destruct Hds as (Hd & He & _). rewrite !of_digits_cons.
    destruct (ascii_dec (digit_char d) "0"%char) as [->|Hne].
    + apply strip_hex_second; rewrite code_digit_char by lia; case_bool; lia.
    + by destruct (digit_char d) as [[] [] [] [] [] [] [] []].
Qed.

(** [parseInt (String (n)) = n] *)
Lemma parse_int_num_to_string n : parseInt (num_to_string n) = Some n.
Proof.
  unfold parse_int. rewrite trim_start_nonspace by apply num_to_string_nonspace.
  unfold num_to_string, to_string_radix.
  assert (Hnat : forall m, 0 <= m -> strip_hex (print_nat_radix 10 m) = None
                           /\ parse_digits 10 (print_nat_radix 10 m) = Some m).
  { intros m Hm. split.
    - apply strip_hex_digits. eapply Forall_impl; [apply (zdigits_range 10); lia|]. simpl. lia.
    - rewrite <- (str_app_nil_r (print_nat_radix 10 m)). apply parse_digits_print; done || lia. }
  destruct (Z.ltb_spec n 0).
  - rewrite str_app_cons, str_app_nil_l. simpl.
    destruct (Hnat (- n)) as [-> E]; [lia|]. simpl. rewrite E. simpl. f_equal. lia.
  - destruct (Hnat n) as [Hs Hp]; [lia|].
    destruct (print_nat_radix_cons 10 ltac:(lia) n) as (d & s & E & Hd); [done|].
    rewrite E in *. rewrite split_sign_digit by lia.
    change ((0 =? 0) || (0 =? 16)) with true. change (0 =? 0) with true. cbv beta iota. rewrite Hs, Hp. simpl. f_equal. lia.
Qed.

(** [parseInt (n.toString (16), 16) = n] for a natural [n]. *)
Lemma parse_int_hex n : 0 <= n -> parse_int 16 (to_string_radix 16 n) = Some n.
Proof.
  intros Hn. unfold parse_int, to_string_radix.
  destruct (Z.ltb_spec n 0); [lia|].
  rewrite trim_start_nonspace.
  2: { apply (print_nat_radix_forall 16); [lia| |done]. intros d Hd. rewrite digit_char_not_space by lia. done. }
  assert (Hh : strip_hex (print_nat_radix 16 n) = None).
  { apply strip_hex_digits. eapply Forall_impl; [apply (zdigits_range 16); lia|]. simpl. intros; lia. }
  assert (Hp : parse_digits 16 (print_nat_radix 16 n) = Some n).
  { rewrite <- (str_app_nil_r (print_nat_radix 16 n)). apply parse_digits_print; done || lia. }
  destruct (print_nat_radix_cons 16 ltac:(lia) n Hn) as (d & s & E & Hd).
  rewrite E in *. rewrite split_sign_digit by lia.
  change ((16 =? 0) || (16 =? 16)) with true. cbv beta iota. rewrite Hh.
  change (16 =? 0) with false. cbv beta iota. rewrite Hp. simpl. f_equal. lia.
Qed.

(** The characters of a natural in base 16. *)
Lemma hex_chars n (P : ascii -> bool) :
  0 <= n -> (forall d, 0 <= d < 16 -> P (digit_char d) = true) ->
  str_forall P (to_string_radix 16 n) = true.
Proof.
  intros Hn HP. unfold to_string_radix. destruct (Z.ltb_spec n 0); [lia|].
  by apply (print_nat_radix_forall 16); [lia|..].
Qed.

(** ** Splitting what was joined *)

Definition no_char (c : ascii) (s : string) : bool := str_forall (fun a => negb (Ascii.eqb a c)) s.

Lemma split_on_nonempty c s : split_on c s <> [].
Proof. destruct s; simpl; [done|]. by repeat case_match. Qed.

Lemma split_on_none c s : no_char c s = true -> split_on c s = [s].
Proof.
  unfold no_char. induction s as [|a s IH]; simpl; [done|].
  intros [->%negb_true_iff Hs]%andb_true_iff. by rewrite IH.
Qed.

Lemma split_on_app c s t :
  no_char c s = true -> split_on c (s +:+ String c t) = s :: split_on c t.
Proof.
  unfold no_char. induction s as [|a s IH]; simpl; intros Hs; str_simpl; simpl.
  - by rewrite Ascii.eqb_refl.
  - apply andb_true_iff in Hs as [->%negb_true_iff Hs]. by rewrite IH.
Qed.

(** [l.join (c).split (c)] is [l]. *)
Lemma split_on_join c l :
  l <> [] -> Forall (fun s => no_char c s = true) l ->
  split_on c (join (String c "") l) = l.
Proof.
  intros Hne Hl. unfold join. induction Hl as [|s l Hs Hl IH]; [done|].
  destruct l as [|t l].
  - simpl. by apply split_on_none.
  - change (String.concat (String c "") (s :: t :: l))
      with (s +:+ String c "" +:+ String.concat (String c "") (t :: l)).
    rewrite str_app_cons, str_app_nil_l, split_on_app by done. f_equal. by apply IH.
Qed.

Lemma num_to_string_no_char c n :
  (forall d, 0 <= d < 10 -> Ascii.eqb (digit_char d) c = false) -> c <> "-"%char ->
  no_char c (num_to_string n) = true.
Proof.
  intros Hd Hm. apply num_to_string_forall.
  - intros d ?. by rewrite Hd.
  - apply negb_true_iff. by apply Ascii.eqb_neq.
Qed.

Lemma num_to_string_no_sep c n :
  (code c < 45 \/ 57 < code c < 87 \/ code c = 46 \/ code c = 47) ->
  no_char c (num_to_string n) = true.
Proof.
  intros Hc. apply num_to_string_no_char.
  - intros d Hd. apply Ascii.eqb_neq. intros E. apply (f_equal code) in E.
    rewrite code_digit_char in E by lia. revert E. case_bool; lia.
  - intros ->. change (code "-") with 45 in Hc. lia.
Qed.

#[export] Hint Resolve num_to_string_no_sep num_to_string_nonspace : oxool.
