(* ===== verification/JsObject.v ===== *)
(** * JavaScript objects used as maps

    An object used as a dictionary is an association list in insertion order:
    assigning to an existing property keeps its place, a new property goes to
    the end and [delete] removes it.  [own_keys] is the order in which
    [for ... in] and [Object.keys] enumerate: integer-like keys first, in
    ascending order, then the other keys in insertion order.  [obj_to_map] forgets
    the order; the operations refine those of [gmap]. *)

From S2P Require Import Prelude JsText.

Abbreviation obj A := (list (string * A)).

Section operations.
Context {A : Type}.
Implicit Types (o : obj A) (k : string) (v : A).

Fixpoint obj_get k o : option A :=
  match o with
  | [] => None
  | (k', v) :: o' => if String.eqb k' k then Some v else obj_get k o'
  end.

Fixpoint obj_set k v o : obj A :=
  match o with
  | [] => [(k, v)]
  | (k', v') :: o' => if String.eqb k' k then (k', v) :: o' else (k', v') :: obj_set k v o'
  end.

Definition obj_del k o : obj A := filter (fun kv => kv.1 <> k) o.

(** Mutate the object a property refers to; nothing when there is none. *)
Definition obj_alter (f : A -> A) k o : obj A :=
  (fun kv => if String.eqb kv.1 k then (kv.1, f kv.2) else kv) <$> o.

(** Mutate every value, given its key. *)
Definition obj_imap (f : string -> A -> A) o : obj A := (fun kv => (kv.1, f kv.1 kv.2)) <$> o.

Definition obj_has k o : bool := match obj_get k o with Some _ => true | None => false end.

Definition obj_keys o : list string := o.*1.
Definition obj_values o : list A := o.*2.

Definition obj_to_map o : gmap string A := list_to_map o.

Definition obj_wf o : Prop := NoDup (obj_keys o).
End operations.

(** Integer-like ("array index") keys: the canonical numerals below 2^32 - 1. *)
Definition key_index (k : string) : option Z :=
  match to_number k with
  | Some n =>
      if ((0 <=? n) && (n <? 2 ^ 32 - 1))%Z && String.eqb (num_to_string n) k then Some n else None
  | None => None
  end.

Definition index_le (x y : Z * string) : Prop := (x.1 <= y.1)%Z.
#[export] Instance index_le_dec : RelDecision index_le.
Proof. intros x y. unfold index_le. apply _. Defined.

Definition index_keys (ks : list string) : list (Z * string) :=
  omap (fun k => (fun i => (i, k)) <$> key_index k) ks.

Definition own_keys_order (ks : list string) : list string :=
  (merge_sort index_le (index_keys ks)).*2 ++ filter (fun k => key_index k = None) ks.

Definition own_keys {A} (o : obj A) : list string := own_keys_order (obj_keys o).

(** ** Laws *)

Section laws.
Context {A : Type}.
Implicit Types (o : obj A) (k : string) (v : A).

Lemma obj_get_set_eq k v o : obj_get k (obj_set k v o) = Some v.
Proof.
  induction o as [|[k' v'] o IH]; simpl; [by rewrite String.eqb_refl|].
  destruct (String.eqb_spec k' k) as [->|Hne]; simpl; [by rewrite String.eqb_refl|].
  by destruct (String.eqb_spec k' k).
Qed.

Lemma obj_get_set_ne k k' v o : k <> k' -> obj_get k' (obj_set k v o) = obj_get k' o.
Proof.
  intros Hne. induction o as [|[k1 v1] o IH]; simpl.
  - by destruct (String.eqb_spec k k').
  - destruct (String.eqb_spec k1 k) as [->|]; simpl; [by destruct (String.eqb_spec k k')|].
    by destruct (String.eqb k1 k').
Qed.

Lemma obj_get_set k k' v o :
  obj_get k' (obj_set k v o) = if decide (k = k') then Some v else obj_get k' o.
Proof. case_decide; subst; auto using obj_get_set_eq, obj_get_set_ne. Qed.

Lemma obj_get_del_eq k o : obj_get k (obj_del k o) = None.
Proof.
  unfold obj_del. induction o as [|[k' v'] o IH]; [done|].
  rewrite filter_cons. case_decide as Hk; simpl in *; [|done].
  by destruct (String.eqb_spec k' k).
Qed.

Lemma obj_get_del_ne k k' o : k <> k' -> obj_get k' (obj_del k o) = obj_get k' o.
Proof.
  intros Hne. unfold obj_del. induction o as [|[k1 v1] o IH]; [done|].
  rewrite filter_cons. case_decide as Hk; simpl in *; [by rewrite IH|].
  subst k1. by destruct (String.eqb_spec k k').
Qed.

Lemma obj_get_del k k' o :
  obj_get k' (obj_del k o) = if decide (k = k') then None else obj_get k' o.
Proof. case_decide; subst; auto using obj_get_del_eq, obj_get_del_ne. Qed.

Lemma obj_get_alter f k k' o :
  obj_get k' (obj_alter f k o) = if decide (k = k') then f <$> obj_get k' o else obj_get k' o.
Proof.
  unfold obj_alter. induction o as [|[k1 v1] o IH]; csimpl; [by case_decide|].
  destruct (String.eqb_spec k1 k) as [->|Hne]; csimpl.
  - destruct (String.eqb_spec k k') as [->|]; csimpl; [by rewrite decide_True|].
    rewrite IH. by case_decide.
  - destruct (String.eqb_spec k1 k') as [->|]; csimpl; [by rewrite decide_False|]. done.
Qed.

Lemma obj_get_imap f k o : obj_get k (obj_imap f o) = f k <$> obj_get k o.
Proof.
  unfold obj_imap. induction o as [|[k1 v1] o IH]; csimpl; [done|].
  by destruct (String.eqb_spec k1 k) as [->|].
Qed.

Lemma obj_keys_alter f k o : obj_keys (obj_alter f k o) = obj_keys o.
Proof.
  unfold obj_keys, obj_alter. rewrite <- list_fmap_compose. apply list_fmap_ext.
  intros i [k1 v1] _. simpl. by destruct (String.eqb k1 k).
Qed.

Lemma obj_keys_imap f o : obj_keys (obj_imap f o) = obj_keys o.
Proof. unfold obj_keys, obj_imap. by rewrite <- list_fmap_compose. Qed.

Lemma obj_keys_del k o : obj_keys (obj_del k o) = filter (fun k' => k' <> k) (obj_keys o).
Proof.
  unfold obj_keys, obj_del. induction o as [|[k1 v1] o IH]; [done|].
  rewrite filter_cons. csimpl. rewrite filter_cons. repeat case_decide; csimpl in *; congruence.
Qed.

Lemma obj_get_None k o : obj_get k o = None <-> k ∉ obj_keys o.
Proof.
  unfold obj_keys. induction o as [|[k1 v1] o IH]; csimpl; [split; [set_solver|done]|].
  destruct (String.eqb_spec k1 k) as [->|]; [split; [done|set_solver]|]. set_solver.
Qed.

Lemma obj_get_is_Some k o : is_Some (obj_get k o) <-> k ∈ obj_keys o.
Proof.
  rewrite <- not_eq_None_Some, obj_get_None. split; [|tauto].
  intros H. by destruct (decide (k ∈ obj_keys o)).
Qed.

Lemma obj_keys_set_old k v o : k ∈ obj_keys o -> obj_keys (obj_set k v o) = obj_keys o.
Proof.
  unfold obj_keys. induction o as [|[k1 v1] o IH]; csimpl; [set_solver|].
  destruct (String.eqb_spec k1 k) as [->|]; csimpl; [done|].
  intros [->|?]%elem_of_cons; [done|]. by rewrite IH.
Qed.

Lemma obj_keys_set_new k v o : k ∉ obj_keys o -> obj_keys (obj_set k v o) = obj_keys o ++ [k].
Proof.
  unfold obj_keys. induction o as [|[k1 v1] o IH]; csimpl; [done|].
  intros [Hne Hk]%not_elem_of_cons.
  destruct (String.eqb_spec k1 k) as [->|]; csimpl; [done|]. by rewrite IH.
Qed.

Lemma obj_set_new k v o : k ∉ obj_keys o -> obj_set k v o = o ++ [(k, v)].
Proof.
  unfold obj_keys. induction o as [|[k1 v1] o IH]; csimpl; [done|].
  intros [Hne Hk]%not_elem_of_cons.
  destruct (String.eqb_spec k1 k) as [->|]; csimpl; [done|]. by rewrite IH.
Qed.

Lemma elem_of_obj_keys_set k k' v o :
  k' ∈ obj_keys (obj_set k v o) <-> k' = k \/ k' ∈ obj_keys o.
Proof.
  destruct (decide (k ∈ obj_keys o)).
  - rewrite obj_keys_set_old by done. naive_solver.
  - rewrite obj_keys_set_new by done. set_solver.
Qed.

Lemma obj_wf_nil : obj_wf (@nil (string * A)).
Proof. apply NoDup_nil_2. Qed.

Lemma obj_wf_set k v o : obj_wf o -> obj_wf (obj_set k v o).
Proof.
  unfold obj_wf. intros Hwf. destruct (decide (k ∈ obj_keys o)).
  - by rewrite obj_keys_set_old.
  - rewrite obj_keys_set_new by done. apply NoDup_app. set_solver by auto using NoDup_singleton.
Qed.

Lemma obj_wf_del k o : obj_wf o -> obj_wf (obj_del k o).
Proof. unfold obj_wf. rewrite obj_keys_del. apply NoDup_filter. Qed.

Lemma obj_wf_alter f k o : obj_wf o -> obj_wf (obj_alter f k o).
Proof. unfold obj_wf. by rewrite obj_keys_alter. Qed.

Lemma obj_wf_imap f o : obj_wf o -> obj_wf (obj_imap f o).
Proof. unfold obj_wf. by rewrite obj_keys_imap. Qed.

Lemma obj_get_elem_of k v o : obj_get k o = Some v -> (k, v) ∈ o.
Proof.
  induction o as [|[k1 v1] o IH]; simpl; [done|].
  destruct (String.eqb_spec k1 k) as [->|]; [intros [= ->]; set_solver|set_solver].
Qed.

Lemma elem_of_obj_get k v o : obj_wf o -> (k, v) ∈ o -> obj_get k o = Some v.
Proof.
  unfold obj_wf, obj_keys. induction o as [|[k1 v1] o IH]; csimpl; [set_solver|].
  intros [Hk1 Hnd]%NoDup_cons [[= <- <-]|Hin]%elem_of_cons; [by rewrite String.eqb_refl|].
  destruct (String.eqb_spec k1 k) as [->|]; [|auto].
  destruct Hk1. apply list_elem_of_fmap. by exists (k, v).
Qed.

(** *** Refinement: an object denotes a finite map *)

Lemma lookup_obj_to_map k o : obj_to_map o !! k = obj_get k o.
Proof.
  unfold obj_to_map. induction o as [|[k1 v1] o IH]; simpl; [by rewrite lookup_empty|].
  rewrite lookup_insert. destruct (String.eqb_spec k1 k); by case_decide.
Qed.

Lemma obj_to_map_set k v o : obj_to_map (obj_set k v o) = <[k:=v]> (obj_to_map o).
Proof.
  apply map_eq. intros k'. rewrite lookup_insert, !lookup_obj_to_map. apply obj_get_set.
Qed.

Lemma obj_to_map_del k o : obj_to_map (obj_del k o) = delete k (obj_to_map o).
Proof.
  apply map_eq. intros k'. rewrite lookup_delete, !lookup_obj_to_map. apply obj_get_del.
Qed.

Lemma obj_to_map_alter f k o : obj_to_map (obj_alter f k o) = alter f k (obj_to_map o).
Proof.
  apply map_eq. intros k'. rewrite lookup_alter, !lookup_obj_to_map, obj_get_alter.
  case_decide; by subst.
Qed.
End laws.

(** ** Sums over the values of an object *)

Definition obj_sum {A} (f : A -> Z) (o : obj A) : Z := foldr (fun kv n => (f kv.2 + n)%Z) 0%Z o.

Section sums.
Local Open Scope Z_scope.
Context {A : Type}.
Implicit Types (o : obj A) (k : string) (v : A) (f : A -> Z).

Lemma obj_sum_app f o1 o2 : obj_sum f (o1 ++ o2) = obj_sum f o1 + obj_sum f o2.
Proof. unfold obj_sum. induction o1; simpl; lia. Qed.

Lemma obj_sum_nonneg f o : (forall v, 0 <= f v) -> 0 <= obj_sum f o.
Proof. intros Hf. unfold obj_sum. induction o as [|[k v] o IH]; simpl; [done|]. specialize (Hf v). lia. Qed.

Lemma obj_sum_set_new f k v o : k ∉ obj_keys o -> obj_sum f (obj_set k v o) = obj_sum f o + f v.
Proof. intros Hk. rewrite obj_set_new by done. rewrite obj_sum_app. unfold obj_sum at 2. simpl. lia. Qed.

Lemma obj_alter_absent g k o : k ∉ obj_keys o -> obj_alter g k o = o.
Proof.
  unfold obj_keys, obj_alter. induction o as [|[k1 v1] o IH]; csimpl; [done|].
  intros [Hne Hk]%not_elem_of_cons.
  destruct (String.eqb_spec k1 k) as [->|]; [done|]. by rewrite IH.
Qed.

Lemma obj_del_absent k o : k ∉ obj_keys o -> obj_del k o = o.
Proof.
  unfold obj_keys, obj_del. induction o as [|[k1 v1] o IH]; csimpl; [done|].
  intros [Hne Hk]%not_elem_of_cons. rewrite filter_cons, decide_True by (simpl; congruence).
  by rewrite IH.
Qed.

(** Split an object at a property. *)
Lemma obj_split k v o :
  obj_wf o -> obj_get k o = Some v ->
  exists o1 o2, o = o1 ++ (k, v) :: o2 /\ (k ∉ obj_keys o1) /\ (k ∉ obj_keys o2).
Proof.
  unfold obj_wf. intros Hwf (o1 & o2 & ->)%obj_get_elem_of%list_elem_of_split.
  exists o1, o2. unfold obj_keys in *. rewrite fmap_app in Hwf. csimpl in *.
  apply NoDup_app in Hwf as (_ & Hd & [Hk _]%NoDup_cons). set_solver.
Qed.

Lemma obj_sum_del f k v o :
  obj_wf o -> obj_get k o = Some v -> obj_sum f (obj_del k o) = obj_sum f o - f v.
Proof.
  intros Hwf Hg. destruct (obj_split k v o Hwf Hg) as (o1 & o2 & -> & Hk1 & Hk2).
  unfold obj_del. rewrite filter_app, filter_cons, decide_False by (simpl; tauto).
  fold (obj_del k o1) (obj_del k o2). rewrite !obj_del_absent, !obj_sum_app by done.
  unfold obj_sum; simpl. lia.
Qed.

Lemma obj_sum_alter f g k v o :
  obj_wf o -> obj_get k o = Some v ->
  obj_sum f (obj_alter g k o) = obj_sum f o - f v + f (g v).
Proof.
  intros Hwf Hg. destruct (obj_split k v o Hwf Hg) as (o1 & o2 & -> & Hk1 & Hk2).
  unfold obj_alter. rewrite fmap_app, fmap_cons. fold (obj_alter g k o1) (obj_alter g k o2).
  rewrite !obj_alter_absent, !obj_sum_app by done. csimpl. rewrite String.eqb_refl.
  unfold obj_sum; simpl. lia.
Qed.

Lemma obj_sum_imap f g o :
  (forall k v, f (g k v) = f v) -> obj_sum f (obj_imap g o) = obj_sum f o.
Proof.
  intros Hfg. unfold obj_sum, obj_imap. induction o as [|[k v] o IH]; csimpl; [done|].
  by rewrite Hfg, IH.
Qed.

(** Summing over the keys, looking each value up. *)
Lemma obj_sum_keys f o :
  obj_wf o ->
  foldr (fun k n => (match obj_get k o with Some v => f v | None => 0 end) + n) 0 (obj_keys o)
  = obj_sum f o.
Proof.
  unfold obj_wf, obj_sum, obj_keys. intros Hwf.
  enough (forall o', (forall k v, (k, v) ∈ o' -> obj_get k o = Some v) ->
    foldr (fun k n => (match obj_get k o with Some v => f v | None => 0 end) + n) 0 o'.*1
    = foldr (fun kv n => f kv.2 + n) 0 o') as H.
  { apply H. intros k v. by apply elem_of_obj_get. }
  induction o' as [|[k v] o' IH]; csimpl; [done|]. intros Ho'.
  rewrite IH by (intros; apply Ho'; set_solver). by rewrite (Ho' k v) by set_solver.
Qed.
End sums.

#[export] Hint Resolve obj_wf_nil obj_wf_set obj_wf_del obj_wf_alter obj_wf_imap : oxool.

(** ** Enumeration order *)

Lemma key_index_num_to_string n :
  (0 <= n < 2 ^ 32 - 1)%Z -> key_index (num_to_string n) = Some n.
Proof.
  intros Hn. unfold key_index. rewrite to_number_num_to_string, String.eqb_refl.
  by rewrite (proj2 (Z.leb_le _ _)), (proj2 (Z.ltb_lt _ _)) by lia.
Qed.

Lemma elem_of_index_keys i k ks : (i, k) ∈ index_keys ks <-> k ∈ ks /\ key_index k = Some i.
Proof.
  unfold index_keys. rewrite list_elem_of_omap. split.
  - intros (k' & Hk' & E). apply fmap_Some in E as (i' & ? & [= -> ->]). done.
  - intros [Hk E]. exists k. by rewrite E.
Qed.

(** Enumerating visits every own property. *)
Lemma elem_of_own_keys_order k ks : k ∈ own_keys_order ks <-> k ∈ ks.
Proof.
  unfold own_keys_order. rewrite elem_of_app, list_elem_of_fmap, list_elem_of_filter.
  split.
  - intros [([i k'] & -> & Hin)|[_ ?]]; [|done].
    rewrite merge_sort_Permutation, elem_of_index_keys in Hin. naive_solver.
  - intros Hk. destruct (key_index k) as [i|] eqn:E; [left|by right].
    exists (i, k). rewrite merge_sort_Permutation, elem_of_index_keys. done.
Qed.

(** ... exactly once. *)
Lemma NoDup_own_keys_order ks : NoDup ks -> NoDup (own_keys_order ks).
Proof.
  intros Hnd. unfold own_keys_order. apply NoDup_app. split_and!.
  - rewrite merge_sort_Permutation. unfold index_keys.
    induction Hnd as [|k ks Hk Hnd IH]; [constructor|].
    csimpl. destruct (key_index k) as [i|] eqn:E; csimpl; [|done].
    apply NoDup_cons. split; [|done]. intros ([i' k'] & -> & Hin)%list_elem_of_fmap.
    apply Hk. by apply (elem_of_index_keys i' k' ks) in Hin as [? _].
  - intros k ([i k'] & -> & Hin)%list_elem_of_fmap.
    rewrite merge_sort_Permutation, elem_of_index_keys in Hin.
    rewrite list_elem_of_filter. naive_solver.
  - by apply NoDup_filter.
Qed.

(** Objects without integer-like keys enumerate in insertion order. *)
Lemma own_keys_order_insertion ks :
  Forall (fun k => key_index k = None) ks -> own_keys_order ks = ks.
Proof.
  intros Hks. unfold own_keys_order.
  assert (index_keys ks = []) as ->.
  { unfold index_keys. induction Hks as [|k ks E _ IH]; csimpl; [done|]. by rewrite E. }
  simpl. induction Hks as [|k ks E _ IH]; [done|]. rewrite filter_cons, decide_True by done.
  by rewrite IH.
Qed.
