(* ===== verification/Geometry.v ===== *)
(** * Geometry: points, bounds and [x, y, w, h] rectangles

    Models [L.Point] and [L.Bounds] (src/browser/src/geometry/Point.ts and
    Bounds.ts) on integer coordinates, and the rectangle helpers of
    src/browser/src/core/LOUtil.js.  Mutating methods return the new value. *)

From S2P Require Import Prelude JsText.
Local Open Scope Z_scope.

Record point := Point { px : Z; py : Z }.
Record bounds := Bounds { bmin : point; bmax : point }.

#[export] Instance point_eq_dec : EqDecision point.
Proof. solve_decision. Defined.
#[export] Instance bounds_eq_dec : EqDecision bounds.
Proof. solve_decision. Defined.

(** ** [L.Point] *)

Definition point_add (p q : point) : point := Point (px p + px q) (py p + py q).
Definition point_subtract (p q : point) : point := Point (px p - px q) (py p - py q).

(** ** [L.Bounds] *)

Definition bounds_extend (b : bounds) (p : point) : bounds :=
  Bounds (Point (Z.min (px p) (px (bmin b))) (Z.min (py p) (py (bmin b))))
         (Point (Z.max (px p) (px (bmax b))) (Z.max (py p) (py (bmax b)))).

(** [new L.Bounds (a, b)]: the corners may come in any order. *)
Definition mk_bounds (a b : point) : bounds := bounds_extend (Bounds a a) b.

Definition getSize (b : bounds) : point := point_subtract (bmax b) (bmin b).

Definition contains_point (b : bounds) (p : point) : bool :=
  (px (bmin b) <=? px p) && (px p <=? px (bmax b)) &&
  (py (bmin b) <=? py p) && (py p <=? py (bmax b)).

Definition contains_bounds (b c : bounds) : bool :=
  (px (bmin b) <=? px (bmin c)) && (px (bmax c) <=? px (bmax b)) &&
  (py (bmin b) <=? py (bmin c)) && (py (bmax c) <=? py (bmax b)).

Definition intersects (b c : bounds) : bool :=
  ((px (bmin b) <=? px (bmax c)) && (px (bmin c) <=? px (bmax b))) &&
  ((py (bmin b) <=? py (bmax c)) && (py (bmin c) <=? py (bmax b))).

Definition intersectsAny (b : bounds) (l : list bounds) : bool :=
  existsb (fun c => intersects c b) l.

Definition clampX (b : bounds) (x : Z) : Z := Z.max (px (bmin b)) (Z.min (px (bmax b)) x).
Definition clampY (b : bounds) (y : Z) : Z := Z.max (py (bmin b)) (Z.min (py (bmax b)) y).

Definition clamp_point (b : bounds) (p : point) : point := Point (clampX b (px p)) (clampY b (py p)).

Definition clamp_bounds (b c : bounds) : bounds :=
  mk_bounds (clamp_point b (bmin c)) (clamp_point b (bmax c)).

Definition valid_bounds (b : bounds) : Prop :=
  px (bmin b) <= px (bmax b) /\ py (bmin b) <= py (bmax b).

(** ** [L.LOUtil] rectangles: lists [x, y, w, h] *)

Record rect := Rect { rx : Z; ry : Z; rw : Z; rh : Z }.

(** [_doRectanglesIntersect]; the comparison of the halves is scaled by two. *)
Definition doRectanglesIntersect (r1 r2 : rect) : bool :=
  if Z.abs ((2 * rx r1 + rw r1) - (2 * rx r2 + rw r2)) <? 2 * (rw r1 + rw r2) then
    if Z.abs ((2 * ry r1 + rh r1) - (2 * ry r2 + rh r2)) <? 2 * (rh r1 + rh r2) then true
    else false
  else false.

Definition getIntersectionRectangle (r1 r2 : rect) : option rect :=
  if doRectanglesIntersect r1 r2 then
    let x := if rx r2 <? rx r1 then rx r1 else rx r2 in
    let y := if ry r2 <? ry r1 then ry r1 else ry r2 in
    let w := if rx r1 + rw r1 <? rx r2 + rw r2 then rx r1 + rw r1 - x else rx r2 + rw r2 - x in
    let h := if ry r1 + rh r1 <? ry r2 + rh r2 then ry r1 + rh r1 - y else ry r2 + rh r2 - y in
    Some (Rect x y w h)
  else None.

(** The pixels a rectangle covers. *)
Definition in_rect (r : rect) (p : point) : Prop :=
  rx r <= px p < rx r + rw r /\ ry r <= py p < ry r + rh r.

(** ** Facts about bounds *)

Lemma mk_bounds_valid a b : valid_bounds (mk_bounds a b).
Proof. unfold valid_bounds; simpl; lia. Qed.

Lemma mk_bounds_ordered a b :
  px a <= px b -> py a <= py b -> mk_bounds a b = Bounds a b.
Proof.
  intros Hx Hy. unfold mk_bounds, bounds_extend. destruct a, b; simpl in *.
  repeat f_equal; lia.
Qed.

Lemma intersects_sym b c : intersects b c = intersects c b.
Proof. unfold intersects. lia. Qed.

(** Two valid bounds intersect exactly when they share a point. *)
Lemma intersects_spec b c :
  valid_bounds b -> valid_bounds c ->
  intersects b c = true <-> exists p, contains_point b p = true /\ contains_point c p = true.
Proof.
  intros [Hbx Hby] [Hcx Hcy]. unfold intersects, contains_point. split.
  - intros H.
    exists (Point (Z.max (px (bmin b)) (px (bmin c))) (Z.max (py (bmin b)) (py (bmin c)))).
    simpl. lia.
  - intros (p & Hb & Hc). lia.
Qed.

Lemma clamp_bounds_valid b c : valid_bounds (clamp_bounds b c).
Proof. apply mk_bounds_valid. Qed.

Lemma clamp_bounds_within b c :
  valid_bounds b -> contains_bounds b (clamp_bounds b c) = true.
Proof.
  intros [Hx Hy]. unfold contains_bounds, clamp_bounds, mk_bounds, bounds_extend,
    clamp_point, clampX, clampY; simpl. lia.
Qed.

(** ** Facts about rectangles *)

(** Rectangles that share a pixel are reported as intersecting ... *)
Lemma doRectanglesIntersect_complete r1 r2 p :
  in_rect r1 p -> in_rect r2 p -> doRectanglesIntersect r1 r2 = true.
Proof.
  intros [Hx1 Hy1] [Hx2 Hy2]. unfold doRectanglesIntersect.
  do 2 (case_bool; [|lia]). done.
Qed.

(** ... and the intersection rectangle covers exactly the shared pixels. *)
Lemma getIntersectionRectangle_pixels r1 r2 r p :
  getIntersectionRectangle r1 r2 = Some r -> in_rect r p <-> in_rect r1 p /\ in_rect r2 p.
Proof.
  unfold getIntersectionRectangle. destruct (doRectanglesIntersect r1 r2); [|done].
  intros [= <-]. unfold in_rect; simpl. repeat case_bool; lia.
Qed.

(** ** Properties *)

(** The pixels of the rectangle [_getIntersectionRectangle] returns
    are exactly those common to its two arguments, and when it returns [null]
    the arguments have no pixel in common. *)
Theorem intersection_rectangle_spec r1 r2 p :
  in_rect r1 p /\ in_rect r2 p <->
  match getIntersectionRectangle r1 r2 with Some r => in_rect r p | None => False end.
Proof.
  destruct (getIntersectionRectangle r1 r2) as [r|] eqn:E.
  - by rewrite (getIntersectionRectangle_pixels _ _ _ _ E).
  - split; [|done]. intros [H1 H2]. unfold getIntersectionRectangle in E.
    by rewrite (doRectanglesIntersect_complete r1 r2 p H1 H2) in E.
Qed.

(** [_doRectanglesIntersect] compares the distance of the centres
    with the sum of the sizes instead of half of it: two rectangles side by side
    with a gap are reported as intersecting, and their "intersection" has a
    negative width. *)
Theorem doRectanglesIntersect_false_positive :
  exists r1 r2 r,
    (forall p, ~ (in_rect r1 p /\ in_rect r2 p)) /\
    doRectanglesIntersect r1 r2 = true /\
    getIntersectionRectangle r1 r2 = Some r /\ rw r < 0.
Proof.
  exists (Rect 0 0 10 10), (Rect 15 0 10 10), (Rect 15 0 (-5) 10).
  split_and!; [|done..]. intros p [[Hx1 _] [Hx2 _]]; simpl in *; lia.
Qed.
