(* ===== verification/Polygons.v ===== *)
(** * Outlines of selections

    A selection comes as a list of rectangles; what is painted is the outline of their
    union.  This file models the two functions that trace it,
    [CPolyUtil.rectanglesToPointSet] (src/browser/src/layer/vector/CPolyUtil.ts) and
    [L.PolyUtil.rectanglesToPolygons] (src/browser/src/geometry/PolyUtil.js), which connect
    the dots: corners in one row, and corners in one column, are joined in pairs.

    The two differ in what a vertex is.  The first keeps the corner objects, so corners in
    the same place stay apart; the second keeps the places, so that two corners in one place
    cancel.  The common part is the section [tracing], over any type [V] of vertices.  An
    exception is [Raised]; the loops take fuel, and [OutOfFuel] is running out of it. *)

From S2P Require Import Prelude Sorts Geometry.
Local Open Scope Z_scope.

(** ** Gluing *)

Definition eps : Z := 20.

Definition snap (c x : Z) : Z := if Z.abs (c - x) <? eps then c else x.

Definition glue_point (a b : point) : point := Point (snap (px a) (px b)) (snap (py a) (py b)).

(** The corners of [rj] move to those of [ri] that are near, one corner of [ri] at a time. *)
Definition glue_rect (ri rj : list point) : list point :=
  foldl (fun rj a => glue_point a <$> rj) rj ri.

Fixpoint glue_fuel (n : nat) (rects : list (list point)) : list (list point) :=
  match n, rects with
  | S n', r :: rs => r :: glue_fuel n' (glue_rect r <$> rs)
  | _, _ => rects
  end.

(** Each rectangle, in turn, attracts the later ones. *)
Definition glue (rects : list (list point)) : list (list point) := glue_fuel (length rects) rects.

(** ** Tracing *)

Inductive outcome (A : Type) := Done (a : A) | Raised | OutOfFuel.
Arguments Done {A} a.
Arguments Raised {A}.
Arguments OutOfFuel {A}.

Section tracing.
Context {V : Type} `{EqDecision V} (pt : V -> point).
(** How the end of a polygon is recognised: [None] is an exception. *)
Context (closes : option V -> option V -> option bool).
(** The conversion of the corners to the units of the screen, likewise. *)
Context {B : Type} (unitConverter : option point -> option B).

(** A vertex met twice is met no more. *)
Definition toggle (ks : list V) (v : V) : list V :=
  if decide (v ∈ ks) then filter (fun w => w <> v) ks else ks ++ [v].

Definition boundary (vs : list V) : list V := foldl toggle [] vs.

(** A map from vertices to vertices, in the order of insertion; a key or a value may be
    [undefined]. *)
Abbreviation edges := (list (option V * option V)).

Fixpoint edge (k : option V) (m : edges) : option V :=
  match m with
  | [] => None
  | (k', v) :: m' => if bool_decide (k' = k) then v else edge k m'
  end.

Fixpoint set_edge (k v : option V) (m : edges) : edges :=
  match m with
  | [] => [(k, v)]
  | (k', v') :: m' =>
      if bool_decide (k' = k) then (k', v) :: m' else (k', v') :: set_edge k v m'
  end.

Definition del_edge (k : option V) (m : edges) : edges := filter (fun kv => kv.1 <> k) m.

(** The vertices of a row, or of a column, are joined in pairs. *)
Fixpoint link (l : list V) (m : edges) : edges :=
  match l with
  | a :: b :: l' => link l' (set_edge (Some b) (Some a) (set_edge (Some a) (Some b) m))
  | [a] => set_edge None (Some a) (set_edge (Some a) None m)
  | [] => m
  end.

(** Walk along a column ([e = false]) and a row in turn, until back at the start. *)
Fixpoint walk (fuel : nat) (start curr : option V) (e : bool) (p : list (option V))
    (edgesH edgesV : edges) : outcome (list (option V) * edges * edges) :=
  match fuel with
  | O => OutOfFuel
  | S fuel' =>
      let nextVertex := if e then edge curr edgesH else edge curr edgesV in
      let edgesH := if e then del_edge curr edgesH else edgesH in
      let edgesV := if e then edgesV else del_edge curr edgesV in
      match closes nextVertex start with
      | None => Raised
      | Some c =>
          if c && e then Done (p, edgesH, edgesV)
          else walk fuel' start nextVertex (negb e) (p ++ [nextVertex]) edgesH edgesV
      end
  end.

Definition del_edges (p : list (option V)) (m : edges) : edges := foldl (fun m v => del_edge v m) m p.

Definition convert_ring (p : list (option V)) : option (list B) :=
  mapM (fun v => unitConverter (pt <$> v)) (p ++ take 1 p).

Definition walk_fuel (edgesH edgesV : edges) : nat := S (length edgesH + length edgesV).

Fixpoint polygons_loop (fuel : nat) (edgesH edgesV : edges) (polygons : list (list B)) :
    outcome (list (list B)) :=
  match fuel, edgesH with
  | _, [] => Done polygons
  | O, _ => OutOfFuel
  | S fuel', (k, _) :: _ =>
      match walk (walk_fuel edgesH edgesV) k k false [k] edgesH edgesV with
      | Done (p, edgesH, edgesV) =>
          match convert_ring p with
          | Some polygon =>
              polygons_loop fuel' (del_edges p edgesH) (del_edges p edgesV) (polygons ++ [polygon])
          | None => Raised
          end
      | Raised => Raised
      | OutOfFuel => OutOfFuel
      end
  end.

Definition trace_polygons (sortX sortY : list V) : outcome (list (list B)) :=
  let edgesH := link sortY [] in
  polygons_loop (length edgesH) edgesH (link sortX []) [].
End tracing.

(** ** [CPolyUtil.rectanglesToPointSet] *)

(** A corner object: its identity and its place. *)
Abbreviation corner := (nat * point)%type.

Definition xThenY (ap bp : point) : num :=
  if (px ap <? px bp) || (px ap =? px bp) && (py ap <? py bp) then Some (-1)
  else if (px ap =? px bp) && (py ap =? py bp) then Some 0 else Some 1.

Definition yThenX (ap bp : point) : num :=
  if (py ap <? py bp) || (py ap =? py bp) && (px ap <? px bp) then Some (-1)
  else if (px ap =? px bp) && (py ap =? py bp) then Some 0 else Some 1.

(** [Point.equals], which compares places and raises when either is missing. *)
Definition corner_equals (a b : option corner) : option bool :=
  match a, b with Some a, Some b => Some (bool_decide (a.2 = b.2)) | _, _ => None end.

Definition rectanglesToPointSet {B} (unitConverter : option point -> option B)
    (rectangles : list (list point)) : outcome (list (list B)) :=
  let points := boundary (imap pair (concat (glue rectangles))) in
  let sortX := js_sort (fun a b => xThenY a.2 b.2) points in
  let sortY := js_sort (fun a b => yThenX a.2 b.2) points in
  trace_polygons snd corner_equals unitConverter sortX sortY.

(** ** [L.PolyUtil.rectanglesToPolygons] *)

(** The keys are the printed places; the comparison reads the digits back, without a sign. *)
Definition unsigned (p : point) : point := Point (Z.abs (px p)) (Z.abs (py p)).

Definition key_equals (a b : option point) : option bool := Some (bool_decide (a = b)).

Definition rectanglesToPolygons {B} (toLatLng : option point -> option B)
    (rectangles : list (list point)) : outcome (list (list B)) :=
  let points := boundary (concat (glue rectangles)) in
  let sortX := js_sort (fun a b => xThenY (unsigned a) (unsigned b)) points in
  let sortY := js_sort (fun a b => yThenX (unsigned a) (unsigned b)) points in
  trace_polygons id key_equals toLatLng sortX sortY.

(** The corners [Bounds.getPointArray] gives. *)
Definition getPointArray (b : bounds) : list point :=
  [Point (px (bmin b)) (py (bmax b)); bmax b; bmin b; Point (px (bmax b)) (py (bmin b))].

(** ** Pairing *)

Section pairing.
Context {V : Type} `{EqDecision V}.
Implicit Types (l p : list V).

(** The partner of a vertex among the consecutive pairs of a list. *)
Fixpoint mate (l : list V) (v : V) : option V :=
  match l with
  | a :: b :: l' => if decide (v = a) then Some b else if decide (v = b) then Some a else mate l' v
  | _ => None
  end.

Lemma pair_ind (P : list V -> Prop) :
  P [] -> (forall a, P [a]) -> (forall a b l, P l -> P (a :: b :: l)) -> forall l, P l.
Proof.
  intros H0 H1 H2. fix IH 1. intros l. destruct l as [|a [|b l]].
  - exact H0.
  - exact (H1 a).
  - exact (H2 a b l (IH l)).
Qed.

Lemma mate_elem l v w : mate l v = Some w -> v ∈ l /\ w ∈ l.
Proof.
  induction l as [|a|a b l IH] using pair_ind; simpl; [done..|]. rewrite !elem_of_cons.
  repeat case_decide; intros E; simplify_eq; naive_solver.
Qed.

Lemma mate_sym l v w : NoDup l -> mate l v = Some w -> mate l w = Some v.
Proof.
  induction l as [|a|a b l IH] using pair_ind; simpl; [done..|].
  rewrite !NoDup_cons, !elem_of_cons. intros (Ha & Hb & Hl).
  destruct (decide (v = a)) as [Ea|Ea]; [|destruct (decide (v = b)) as [Eb|Eb]]; intros E; simplify_eq.
  - rewrite decide_False by naive_solver. by rewrite decide_True.
  - by rewrite decide_True.
  - pose proof (mate_elem _ _ _ E) as [? ?].
    rewrite !decide_False by naive_solver. by apply IH.
Qed.

Lemma mate_irrefl l v : NoDup l -> mate l v <> Some v.
Proof.
  induction l as [|a|a b l IH] using pair_ind; simpl; [done..|].
  rewrite !NoDup_cons, !elem_of_cons. intros (Ha & Hb & Hl).
  repeat case_decide; simplify_eq; naive_solver.
Qed.

Lemma mate_total l v : Nat.Even (length l) -> v ∈ l -> is_Some (mate l v).
Proof.
  induction l as [|a|a b l IH] using pair_ind; simpl; intros He.
  - by rewrite elem_of_nil.
  - destruct He; lia.
  - rewrite !elem_of_cons. repeat case_decide; [done..|]. intros [?|[?|?]]; [done..|].
    apply IH; [|done]. destruct He as [n ?]. exists (n - 1)%nat. lia.
Qed.

Fixpoint pair_all (R : V -> V -> Prop) (l : list V) : Prop :=
  match l with a :: b :: l' => R a b /\ pair_all R l' | _ => True end.

Lemma mate_related (R : V -> V -> Prop) l v w :
  (forall a b, R a b -> R b a) -> pair_all R l -> mate l v = Some w -> R v w.
Proof.
  intros Hs. induction l as [|a|a b l IH] using pair_ind; simpl; [done..|]. intros [Hab HR].
  repeat case_decide; intros E; simplify_eq; [done|by apply Hs|by apply IH].
Qed.

(** ** The maps of edges *)

Abbreviation edges := (list (option V * option V)).
Implicit Types (m : edges) (k : option V).

Definition absent m k : Prop := k ∉ m.*1.

Lemma set_edge_absent k v m : absent m k -> set_edge k v m = m ++ [(k, v)].
Proof.
  unfold absent. induction m as [|[k' v'] m IH]; simpl; [done|]. rewrite elem_of_cons. intros Hk.
  rewrite bool_decide_false by naive_solver. rewrite IH; naive_solver.
Qed.

Lemma link_append l m :
  NoDup l -> Nat.Even (length l) -> Forall (fun v => absent m (Some v)) l ->
  link l m = m ++ ((fun v => (Some v, mate l v)) <$> l).
Proof.
  revert m. induction l as [|a|a b l IH] using pair_ind; intros m; simpl.
  - intros _ _ _. by rewrite app_nil_r.
  - intros _ He. destruct He; lia.
  - rewrite !NoDup_cons, !elem_of_cons, !Forall_cons. intros (Hab & Hb & Hl) He (Fa & Fb & Fl).
    rewrite (set_edge_absent _ _ m) by done.
    assert (absent (m ++ [(Some a, Some b)]) (Some b)) as Hb'.
    { unfold absent in *. rewrite fmap_app, elem_of_app. simpl. rewrite list_elem_of_singleton.
      naive_solver. }
    rewrite set_edge_absent by done. rewrite <- app_assoc. simpl.
    rewrite IH; [|done| |].
    + rewrite <- app_assoc. simpl. rewrite !decide_True by done.
      destruct (decide (b = a)) as [->|_]; [naive_solver|].
      rewrite (decide_True (P := b = b)) by done. do 3 f_equal. apply list_fmap_ext.
      intros i v Hv. apply list_elem_of_lookup_2 in Hv.
      by rewrite !decide_False by naive_solver.
    + destruct He as [n ?]. exists (n - 1)%nat. lia.
    + rewrite Forall_forall in *. intros v Hv. specialize (Fl v Hv). unfold absent in *.
      rewrite fmap_app, elem_of_app. simpl. rewrite !elem_of_cons, elem_of_nil. naive_solver.
Qed.

(** The edges of the vertices of [l] that are not in [gone]. *)
Definition edges_by (f : V -> option V) l (gone : list V) : edges :=
  (fun v => (Some v, f v)) <$> filter (fun v => v ∉ gone) l.

Abbreviation edges_of l gone := (edges_by (mate l) l gone).

Lemma edges_by_nil f l : edges_by f l [] = (fun v => (Some v, f v)) <$> l.
Proof.
  unfold edges_by. f_equal. induction l as [|a l IH]; [done|].
  rewrite filter_cons, decide_True by apply not_elem_of_nil. by rewrite IH.
Qed.

Lemma link_edges l : NoDup l -> Nat.Even (length l) -> link l [] = edges_of l [].
Proof.
  intros Hl He. rewrite edges_by_nil. apply link_append; [done..|].
  apply Forall_forall. intros v _. apply not_elem_of_nil.
Qed.

Lemma edge_edges_by f l gone v : v ∉ gone -> v ∈ l -> edge (Some v) (edges_by f l gone) = f v.
Proof.
  intros Hg Hv. unfold edges_by.
  assert (v ∈ filter (fun v => v ∉ gone) l) as Hf by by apply list_elem_of_filter.
  induction (filter (fun v => v ∉ gone) l) as [|a k IH]; simpl; [by apply elem_of_nil in Hf|].
  case_bool_decide; [naive_solver|]. apply IH. apply elem_of_cons in Hf. naive_solver.
Qed.

Lemma del_edges_by f l gone v : del_edge (Some v) (edges_by f l gone) = edges_by f l (v :: gone).
Proof.
  unfold del_edge, edges_by. induction l as [|a l IH]; [done|]. rewrite !filter_cons.
  destruct (decide (a ∉ gone)) as [Ha|Ha].
  - rewrite fmap_cons, filter_cons. simpl. destruct (decide (Some a <> Some v)) as [Hv|Hv].
    + rewrite decide_True by (rewrite elem_of_cons; naive_solver). simpl. by rewrite IH.
    + rewrite decide_False by (rewrite elem_of_cons; naive_solver). done.
  - rewrite decide_False by (rewrite elem_of_cons; naive_solver). done.
Qed.

Lemma edges_by_ext f l g1 g2 :
  (forall v, v ∈ l -> v ∈ g1 <-> v ∈ g2) -> edges_by f l g1 = edges_by f l g2.
Proof.
  intros Hg. unfold edges_by. f_equal.
  induction l as [|a l IH]; [done|]. rewrite !filter_cons, IH by (intros v Hv; apply Hg; set_solver).
  specialize (Hg a ltac:(set_solver)).
  destruct (decide (a ∉ g1)), (decide (a ∉ g2)); [done|naive_solver..|done].
Qed.

Lemma del_all_edges_by f l gone p :
  del_edges (Some <$> p) (edges_by f l gone) = edges_by f l (gone ++ p).
Proof.
  unfold del_edges. revert gone. induction p as [|v p IH]; intros gone; simpl; [by rewrite app_nil_r|].
  rewrite del_edges_by, IH. apply edges_by_ext. set_solver.
Qed.

Lemma edges_by_empty f l gone : edges_by f l gone = [] -> forall v, v ∈ l -> v ∈ gone.
Proof.
  unfold edges_by. intros E%fmap_nil_inv v Hv. destruct (decide (v ∈ gone)) as [|Hg]; [done|].
  assert (v ∈ filter (fun v => v ∉ gone) l) as Hf by by apply list_elem_of_filter.
  rewrite E in Hf. by apply elem_of_nil in Hf.
Qed.
End pairing.

(** ** Tracing ends with closed rings *)

Section cycles.
Context {V : Type} `{EqDecision V} (sX sY : list V).
Implicit Types (p q gone : list V) (s v w : V).
Abbreviation edges_of l gone := (edges_by (mate l) l gone).

(** The vertices of a path are joined along a column and a row in turn. *)
Definition side (i : nat) : list V := if Nat.even i then sX else sY.

Definition alternates p : Prop :=
  forall i v w, p !! i = Some v -> p !! S i = Some w -> mate (side i) v = Some w.

(** A set of vertices that holds the partners of its members. *)
Definition closed gone : Prop :=
  forall v w, v ∈ gone -> mate sX v = Some w \/ mate sY v = Some w -> w ∈ gone.

(** A ring of vertices outside [gone]: each once, and back at the start after a row. *)
Record ring gone p : Prop := {
  ring_nodup : NoDup p;
  ring_fresh : forall v, v ∈ p -> v ∈ sY /\ v ∉ gone;
  ring_alternates : alternates p;
  ring_even : Nat.Even (length p);
  ring_back : exists s w, head p = Some s /\ last p = Some w /\ mate sY w = Some s
}.

Fixpoint rings gone (l : list (list V)) : Prop :=
  match l with [] => True | p :: l' => ring gone p /\ rings (gone ++ p) l' end.

Context (HX : NoDup sX) (HY : NoDup sY) (Hsame : sX ≡ₚ sY) (Heven : Nat.Even (length sY)).

Lemma side_nodup i : NoDup (side i).
Proof using HX HY. unfold side. by destruct (Nat.even i). Qed.

Lemma side_mate i v : v ∈ sY -> exists w, mate (side i) v = Some w /\ w ∈ sY.
Proof using Hsame Heven.
  intros Hv. destruct (mate_total (side i) v) as [w Hw].
  - unfold side. destruct (Nat.even i); [by rewrite Hsame|done].
  - unfold side. destruct (Nat.even i); [by rewrite Hsame|done].
  - exists w. split; [done|]. apply mate_elem in Hw as [_ Hw].
    revert Hw. unfold side. destruct (Nat.even i); [by rewrite Hsame|done].
Qed.

Lemma side_step i j : Nat.even i = Nat.even j -> side i = side j.
Proof. unfold side. by intros ->. Qed.

Lemma alternates_snoc p v w :
  alternates p -> last p = Some v -> mate (side (length p - 1)) v = Some w -> alternates (p ++ [w]).
Proof.
  intros Hp Hl Hw i a b Ha Hb. rewrite last_lookup in Hl.
  destruct (decide (S i < length p)%nat) as [Hi|Hi].
  - rewrite lookup_app_l in Ha, Hb by lia. by apply (Hp i).
  - pose proof (lookup_lt_Some _ _ _ Hb) as Hlt. rewrite length_app in Hlt. simpl in Hlt.
    assert (i = (length p - 1)%nat /\ (0 < length p)%nat) as [-> Hlen].
    { assert (i <> length p); [|lia]. intros ->. lia. }
    rewrite lookup_app_l in Ha by lia. rewrite lookup_app_r in Hb by lia.
    replace (pred (length p)) with (length p - 1)%nat in Hl by lia.
    replace (S (length p - 1) - length p)%nat with 0%nat in Hb by lia. simpl in Hb. naive_solver.
Qed.

(** Where a path goes on: to a new vertex, or back to its start after a column. *)
Lemma path_next p s v w :
  NoDup p -> alternates p -> head p = Some s -> last p = Some v ->
  mate (side (length p - 1)) v = Some w -> w ∈ p -> w = s /\ Nat.even (length p) = true.
Proof using HX HY.
  intros Hn Hp Hh Hl Hw [j Hj]%list_elem_of_lookup.
  pose proof (mate_sym _ _ _ (side_nodup _) Hw) as Hback.
  pose proof (mate_irrefl _ v (side_nodup (length p - 1))) as Hirr.
  pose proof (lookup_lt_Some _ _ _ Hj) as Hlt. rewrite last_lookup in Hl.
  replace (pred (length p)) with (length p - 1)%nat in Hl by lia.
  destruct (decide (Nat.even j = Nat.even (length p - 1))) as [Epar|Epar].
  - exfalso. assert (j <> (length p - 1)%nat) as Hne by naive_solver.
    destruct (lookup_lt_is_Some_2 p (S j) ltac:(lia)) as [x Hx].
    pose proof (Hp j _ _ Hj Hx) as Hm. rewrite (side_step _ _ Epar), Hback in Hm. simplify_eq.
    pose proof (NoDup_lookup _ _ _ _ Hn Hl Hx) as E. rewrite E, Nat.even_succ, <- Nat.negb_even in Epar.
    by destruct (Nat.even j).
  - destruct j as [|j].
    + rewrite head_lookup in Hh. simplify_eq. split; [done|]. simpl in Epar.
      destruct (length p) as [|n]; [lia|]. simpl in Epar. rewrite Nat.sub_0_r in Epar.
      rewrite Nat.even_succ, <- Nat.negb_even. by destruct (Nat.even n).
    + exfalso. destruct (lookup_lt_is_Some_2 p j ltac:(lia)) as [x Hx].
      pose proof (Hp j _ _ Hx Hj) as Hm.
      assert (side j = side (length p - 1)) as Es.
      { apply side_step. rewrite Nat.even_succ, <- Nat.negb_even in Epar.
        by destruct (Nat.even j), (Nat.even (length p - 1)). }
      apply (mate_sym _ _ _ (side_nodup _)) in Hm. rewrite Es, Hback in Hm. simplify_eq.
      pose proof (NoDup_lookup _ _ _ _ Hn Hl Hx). lia.
Qed.

Context (at_same : V -> V -> bool) (at_same_refl : forall v, at_same v v = true).
Context (closes : option V -> option V -> option bool).
Context (closes_spec : forall v w, closes (Some v) (Some w) = Some (at_same v w)).

(** [s] is the first vertex that is left when [gone] has been traced; another vertex in the
    same place does not end its polygon too early. *)
Definition starts gone s : Prop :=
  s ∈ sY /\ s ∉ gone /\
  forall w, w ∈ sY -> w ∉ gone -> at_same w s = true -> w = s \/ mate sX s = mate sY s.

Record path gone s v p : Prop := {
  path_nodup : NoDup p;
  path_fresh : forall w, w ∈ p -> w ∈ sY /\ w ∉ gone;
  path_alternates : alternates p;
  path_start : head p = Some s;
  path_end : last p = Some v
}.

(** The vertices still to be traced. *)
Definition remaining gone : list V := filter (fun v => v ∉ gone) sY.

Lemma path_length gone s v p : path gone s v p -> (0 < length p <= length (remaining gone))%nat.
Proof using HY.
  intros []. split; [destruct p; [done|simpl; lia]|].
  apply submseteq_length, NoDup_submseteq; [done|]. intros w Hw.
  apply list_elem_of_filter. by apply and_comm, path_fresh0.
Qed.

(** A path that comes past the place of its start, by a row, is at its start. *)
Lemma path_closes gone s v w p :
  path gone s v p -> starts gone s -> Nat.even (length p) = true ->
  mate sY v = Some w -> w ∈ sY -> w ∉ gone -> at_same w s = true -> w = s.
Proof using HX HY.
  intros Hp (Hs & Hg & Hclose) He Hw HwY Hwg Hat.
  destruct (Hclose w HwY Hwg Hat) as [|Hm]; [done|].
  destruct Hp as [Hn _ Ha Hh Hl]. destruct p as [|a [|b p]]; [done..|]. simpl in Hh. simplify_eq.
  pose proof (Ha 0%nat s b eq_refl eq_refl) as Hb. change (mate sX s = Some b) in Hb.
  rewrite Hm in Hb. apply (mate_sym _ _ _ HY) in Hb.
  destruct p as [|c p]; [simpl in Hl; naive_solver|].
  pose proof (Ha 1%nat b c eq_refl eq_refl) as Hc. change (mate sY b = Some c) in Hc.
  rewrite Hb in Hc. simplify_eq. apply NoDup_cons in Hn as [Hn _].
  destruct Hn. do 2 constructor.
Qed.

Lemma path_extend gone s v w p :
  path gone s v p -> mate (side (length p - 1)) v = Some w -> w ∈ sY -> w ∉ gone -> w ∉ p ->
  path gone s w (p ++ [w]).
Proof.
  intros [Hn Hf Ha Hh Hl] Hw HwY Hwg Hwp. constructor.
  - apply NoDup_app. split_and!; [done| |apply NoDup_singleton].
    intros x Hx ->%list_elem_of_singleton. done.
  - intros x [Hx| ->%list_elem_of_singleton]%elem_of_app; [by apply Hf|done].
  - by apply alternates_snoc with v.
  - by destruct p.
  - by rewrite last_snoc.
Qed.

Definition left_out gone p (g : list V) : Prop := (forall v, v ∈ gone -> v ∈ g) /\ (forall v, v ∈ g -> v ∈ gone \/ v ∈ p).

Lemma left_out_grow gone p g w : left_out gone p g -> left_out gone (p ++ [w]) g.
Proof.
  intros [? Hg]. split; [done|]. intros x Hx. rewrite elem_of_app. destruct (Hg x Hx); auto.
Qed.

Lemma left_out_cons gone p g v : v ∈ p -> left_out gone p g -> left_out gone p (v :: g).
Proof.
  intros Hv [Hin Hg]. split; [by right; auto|]. intros x [->|Hx]%elem_of_cons; auto.
Qed.

Lemma left_out_fresh gone p g w : left_out gone p g -> w ∉ gone -> w ∉ p -> w ∉ g.
Proof. intros [_ Hg] ? ? Hw. by destruct (Hg _ Hw). Qed.

(** The vertex a step leads to. *)
Lemma path_step gone s v p gH gV :
  closed gone -> path gone s v p -> v ∉ gH -> v ∉ gV ->
  exists w, mate (side (length p - 1)) v = Some w /\ w ∈ sY /\ w ∉ gone /\
    (if Nat.even (length p) then edge (Some v) (edges_of sY gH) else edge (Some v) (edges_of sX gV))
    = Some w.
Proof using All.
  intros Hc Hp HvH HvV. pose proof (path_length _ _ _ _ Hp) as Hlen.
  assert (v ∈ p) as Hv by (apply last_Some_elem_of; apply Hp).
  pose proof (path_fresh _ _ _ _ Hp v Hv) as [HvY Hvg].
  destruct (side_mate (length p - 1) v HvY) as (w & Hw & HwY). exists w. split_and!; [done..| |].
  - intros Hwg. apply Hvg. apply (Hc w); [done|]. pose proof (mate_sym _ _ _ (side_nodup _) Hw) as Hb.
    unfold side in Hb. destruct (Nat.even (length p - 1)); [by left|by right].
  - unfold side in Hw. destruct (length p) as [|n]; [lia|]. rewrite Nat.even_succ, <- Nat.negb_even.
    simpl in Hw. rewrite Nat.sub_0_r in Hw.
    destruct (Nat.even n); simpl; rewrite edge_edges_by; try done. by rewrite Hsame.
Qed.

Lemma path_ring gone s v p :
  path gone s v p -> Nat.even (length p) = true -> mate sY v = Some s -> ring gone p.
Proof.
  intros [] He Hm. constructor; [done..|by apply Nat.even_spec|]. by exists s, v.
Qed.

Lemma walk_spec fuel gone s v p gH gV :
  closed gone -> starts gone s -> path gone s v p ->
  left_out gone p gH -> left_out gone p gV -> v ∉ gH -> v ∉ gV ->
  (length (remaining gone) < fuel + length p)%nat ->
  exists q hH hV, ring gone q /\ head q = Some s /\ left_out gone q hH /\ left_out gone q hV /\
    walk closes fuel (Some s) (Some v) (Nat.even (length p)) (Some <$> p)
      (edges_of sY gH) (edges_of sX gV) = Done (Some <$> q, edges_of sY hH, edges_of sX hV).
Proof using All.
  intros Hc Hs. revert v p gH gV. induction fuel as [|fuel IH]; intros v p gH gV Hp HgH HgV HvH HvV Hf.
  { pose proof (path_length _ _ _ _ Hp). lia. }
  destruct (path_step _ _ _ _ _ _ Hc Hp HvH HvV) as (w & Hw & HwY & Hwg & E). simpl. rewrite E.
  rewrite closes_spec, !del_edges_by.
  assert (v ∈ p) as Hv by (apply last_Some_elem_of; apply Hp).
  pose proof (path_length _ _ _ _ Hp) as Hlen.
  assert (Nat.even (length (p ++ [w])) = negb (Nat.even (length p))) as Eneg.
  { by rewrite length_app, Nat.add_1_r, Nat.even_succ, Nat.negb_even. }
  assert (w ∉ p -> path gone s w (p ++ [w])) as Hext by (intros; by apply path_extend with v).
  assert (forall g, left_out gone p g -> w ∉ p -> w ∉ v :: g) as Hnew.
  { intros g Hg Hwp [->|Hwg']%elem_of_cons; [done|]. by eapply left_out_fresh. }
  assert (w ∉ p -> length (remaining gone) < fuel + length (p ++ [w]))%nat as Hf' by (intros; rewrite length_app; simpl; lia).
  assert (w ∈ p -> w = s /\ Nat.even (length p) = true) as Hnext by (destruct Hp; by apply path_next with v).
  destruct (Nat.even (length p)) eqn:Epar; [|rewrite andb_false_r].
  - assert (mate sY v = Some w) as HwH.
    { unfold side in Hw. destruct (length p); [lia|]. rewrite Nat.even_succ, <- Nat.negb_even in Epar.
      simpl in Hw. rewrite Nat.sub_0_r in Hw. by destruct (Nat.even n). }
    destruct (at_same w s) eqn:Eat; simpl.
    + assert (w = s) as -> by (by eapply path_closes).
      exists p, (v :: gH), gV. split_and!; [by eapply path_ring|apply Hp|by apply left_out_cons|done..].
    + assert (w ∉ p) as Hwp by (intros [-> _]%Hnext; by rewrite at_same_refl in Eat).
      specialize (IH w (p ++ [w]) (v :: gH) gV). rewrite Eneg, fmap_app in IH.
      apply IH; eauto using left_out_grow, left_out_cons, left_out_fresh.
  - assert (w ∉ p) as Hwp by (by intros [_ ?]%Hnext).
    specialize (IH w (p ++ [w]) gH (v :: gV)). rewrite Eneg, fmap_app in IH.
    apply IH; eauto using left_out_grow, left_out_cons, left_out_fresh.
Qed.

Lemma ring_closed gone q : closed gone -> ring gone q -> closed (gone ++ q).
Proof using HX HY.
  intros Hc [Hn Hf Ha [n He] (s & e & Hs & Hl & Hb)] v w Hv Hm. rewrite !elem_of_app in *.
  destruct Hv as [Hv|[i Hi]%list_elem_of_lookup]; [left; by eapply Hc|right].
  rewrite head_lookup in Hs. rewrite last_lookup in Hl.
  pose proof (lookup_lt_Some _ _ _ Hi) as Hlt.
  assert (forall j a, q !! j = Some a -> a ∈ q) as Hin by (intros; by eapply list_elem_of_lookup_2).
  (* the partner that stands before or behind [v] in the ring *)
  assert (forall k, mate (side k) v = Some w ->
            (Nat.even k = Nat.even i /\ (S i < length q)%nat) \/ (Nat.even k <> Nat.even i /\ i <> 0%nat) -> w ∈ q) as Hnear.
  { intros k Hk [[Ep Hlt']|[Ep Hi0]].
    - destruct (lookup_lt_is_Some_2 q (S i) Hlt') as [x Hx]. pose proof (Ha _ _ _ Hi Hx) as Hm'.
      rewrite <- (side_step _ _ Ep), Hk in Hm'. simplify_eq. by eapply Hin.
    - destruct i as [|i]; [done|]. destruct (lookup_lt_is_Some_2 q i ltac:(lia)) as [x Hx].
      pose proof (mate_sym _ _ _ (side_nodup _) (Ha _ _ _ Hx Hi)) as Hm'.
      assert (side k = side i) as Es.
      { apply side_step. rewrite Nat.even_succ, <- Nat.negb_even in Ep. by destruct (Nat.even k), (Nat.even i). }
      rewrite Es, Hm' in Hk. simplify_eq. by eapply Hin. }
  destruct (Nat.even i) eqn:Ei.
  - destruct Hm as [Hm|Hm].
    + apply (Hnear 0%nat Hm). left. split; [done|]. apply Nat.even_spec in Ei as [m ?]. lia.
    + destruct (decide (i = 0%nat)) as [->|]; [|by apply (Hnear 1%nat Hm); right].
      pose proof (mate_sym _ _ _ HY Hb). simplify_eq. by eapply Hin.
  - destruct Hm as [Hm|Hm]; [apply (Hnear 0%nat Hm); right; by destruct i|].
    destruct (decide (S i < length q)%nat); [by apply (Hnear 1%nat Hm); left|].
    replace (pred (length q)) with i in Hl by lia. simplify_eq. by eapply Hin.
Qed.

Lemma remaining_shrinks gone q s :
  ring gone q -> head q = Some s -> (length (remaining (gone ++ q)) < length (remaining gone))%nat.
Proof.
  intros [_ Hf _ _ _] Hs.
  assert (s ∈ q) as [HsY Hsg]%Hf by (destruct q; simplify_eq/=; constructor).
  assert (s ∈ q) as Hsq by (destruct q; simplify_eq/=; constructor).
  unfold remaining.
  assert (filter (fun v => v ∉ gone ++ q) sY = filter (fun v => v ∉ q) (filter (fun v => v ∉ gone) sY)) as ->.
  { rewrite list_filter_filter. apply list_filter_iff. intros v. rewrite not_elem_of_app. tauto. }
  apply length_filter_lt with s; [by apply list_elem_of_filter|]. intros Hn. by apply Hn.
Qed.

Lemma left_out_app gone q g : left_out gone q g -> forall v, v ∈ g ++ q <-> v ∈ gone ++ q.
Proof.
  intros [Hin Hg] v. rewrite !elem_of_app. split; [intros [?%Hg|]|intros [?%Hin|]]; tauto.
Qed.

Context {B : Type} (pt : V -> point) (unitConverter : option point -> option B) (f : point -> B).
Context (convert : forall a, unitConverter (Some a) = Some (f a)).

Definition ring_points (p : list V) : list point := pt <$> p ++ take 1 p.

Lemma convert_ring_spec p : convert_ring pt unitConverter (Some <$> p) = Some (f <$> ring_points p).
Proof using convert.
  unfold convert_ring, ring_points. rewrite <- fmap_take, <- fmap_app.
  apply mapM_Some. rewrite <- list_fmap_compose.
  apply Forall2_fmap_2, Forall_Forall2_diag, Forall_true. intros v. apply convert.
Qed.

Context (first_starts : forall gone s, closed gone -> head (remaining gone) = Some s -> starts gone s).

Lemma polygons_loop_spec fuel gone acc :
  closed gone -> (length (remaining gone) <= fuel)%nat ->
  exists l, rings gone l /\ (forall v, v ∈ sY -> v ∉ gone -> v ∈ concat l) /\
    polygons_loop pt closes unitConverter fuel (edges_of sY gone) (edges_of sX gone) acc
    = Done (acc ++ ((fun p => f <$> ring_points p) <$> l)).
Proof using All.
  revert gone acc. induction fuel as [|fuel IH]; intros gone acc Hc Hf;
    (destruct (remaining gone) as [|s r] eqn:Er; [exists []; split_and!; [done| |]|]).
  1, 4: intros v Hv Hg; exfalso; apply (not_elem_of_nil v); rewrite <- Er; by apply list_elem_of_filter.
  1, 3: unfold edges_by at 1; unfold remaining in Er; rewrite Er, app_nil_r; done.
  { simpl in Hf. lia. }
  assert (starts gone s) as Hs by (apply first_starts; [done|by rewrite Er]).
  assert (path gone s s [s]) as Hp.
  { constructor; [apply NoDup_singleton| |by intros [] ? ?|done..].
    intros w ->%list_elem_of_singleton. split; apply Hs. }
  assert (left_out gone [s] gone) as Hg by (split; auto).
  assert (exists x m, edges_of sY gone = (Some s, x) :: m) as (x & m & E).
  { unfold edges_by. unfold remaining in Er. rewrite Er. csimpl. eauto. }
  destruct (walk_spec (walk_fuel (edges_of sY gone) (edges_of sX gone)) gone s s [s] gone gone)
    as (q & hH & hV & Hq & Hqs & HhH & HhV & Ew); [done..|apply Hs|apply Hs| |].
  { unfold walk_fuel, edges_by, remaining. rewrite !length_fmap. lia. }
  destruct (IH (gone ++ q) (acc ++ [f <$> ring_points q])) as (l & Hl & Hin & El).
  { by apply ring_closed. }
  { apply Nat.lt_succ_r. eapply Nat.lt_le_trans; [|exact Hf]. rewrite <- Er.
    by eapply remaining_shrinks. }
  exists (q :: l). split_and!; [done| |].
  - intros v Hv Hvg. simpl. rewrite elem_of_app. destruct (decide (v ∈ q)); [by left|right].
    apply Hin; [done|]. by rewrite not_elem_of_app.
  - rewrite E in Ew |- *. cbn [polygons_loop]. change (walk closes (walk_fuel ((Some s, x) :: m) (edges_of sX gone))
      (Some s) (Some s) false [Some s]) with (walk closes (walk_fuel ((Some s, x) :: m) (edges_of sX gone))
      (Some s) (Some s) (Nat.even (length [s])) (Some <$> [s])).
    rewrite Ew, convert_ring_spec, !del_all_edges_by.
    rewrite (edges_by_ext _ _ (hH ++ q) (gone ++ q)), (edges_by_ext _ _ (hV ++ q) (gone ++ q)), El.
    + by rewrite fmap_cons, <- app_assoc.
    + intros v _. by apply left_out_app.
    + intros v _. by apply left_out_app.
Qed.

Lemma rings_concat gone l : rings gone l -> NoDup (concat l) /\ forall v, v ∈ concat l -> v ∈ sY /\ v ∉ gone.
Proof.
  revert gone. induction l as [|q l IH]; intros gone; simpl; [by split; [constructor|intros v ?%elem_of_nil]|].
  intros [Hq Hl]. apply IH in Hl as [Hn Hl]. split.
  - apply NoDup_app. split_and!; [apply Hq| |done]. intros v Hv [_ Hg]%Hl. apply Hg, elem_of_app; auto.
  - intros v [Hv|[? Hv]%Hl]%elem_of_app; [by apply Hq|]. split; [done|].
    intros ?. apply Hv, elem_of_app; auto.
Qed.

Lemma rings_elem gone l p : rings gone l -> p ∈ l -> exists gone', ring gone' p.
Proof.
  revert gone. induction l as [|q l IH]; intros gone; simpl; [by intros _ ?%elem_of_nil|].
  intros [? Hl] [->|Hp]%elem_of_cons; [by exists gone|by eapply IH].
Qed.

Lemma trace_polygons_spec :
  exists l, rings [] l /\ concat l ≡ₚ sY /\
    trace_polygons pt closes unitConverter sX sY = Done ((fun p => f <$> ring_points p) <$> l).
Proof using All.
  assert (Nat.Even (length sX)) as HevenX by by rewrite Hsame.
  destruct (polygons_loop_spec (length (edges_of sY [])) [] []) as (l & Hl & Hin & E).
  - by intros v w ?%elem_of_nil.
  - unfold edges_by. by rewrite length_fmap.
  - exists l. split_and!; [done| |].
    + destruct (rings_concat _ _ Hl) as [Hn Hc]. apply NoDup_Permutation; [done..|]. intros v. split.
      * by intros [? _]%Hc.
      * intros Hv. apply Hin; [done|]. apply not_elem_of_nil.
    + unfold trace_polygons. rewrite !link_edges by done. exact E.
Qed.
End cycles.

(** ** Parity *)

Definition parity {A} (g : A -> bool) (l : list A) : bool := foldr (fun a b => xorb (g a) b) false l.

Section parity.
Context {A : Type}.
Implicit Types (g : A -> bool) (l : list A).

Lemma parity_app g l k : parity g (l ++ k) = xorb (parity g l) (parity g k).
Proof.
  induction l as [|a l IH]; simpl; [by destruct (parity g k)|].
  unfold parity in *. simpl. rewrite IH. by rewrite xorb_assoc.
Qed.

#[export] Instance parity_proper g : Proper ((≡ₚ) ==> (=)) (parity g).
Proof.
  unfold parity. induction 1; simpl; [done|by f_equal| |congruence].
  by rewrite <- !xorb_assoc, (xorb_comm (g x)).
Qed.

Lemma parity_toggle `{EqDecision A} g l v :
  NoDup l -> NoDup (toggle l v) /\ parity g (toggle l v) = xorb (parity g l) (g v).
Proof.
  intros Hl. unfold toggle. case_decide as Hv.
  - split; [by apply NoDup_filter|].
    apply list_elem_of_split in Hv as (l1 & l2 & ->). apply NoDup_app in Hl as (_ & H1 & H2).
    apply NoDup_cons in H2 as [H2 _].
    rewrite filter_app, filter_cons_False by tauto. rewrite !parity_app. simpl.
    assert (forall k : list A, v ∉ k -> filter (fun w => w <> v) k = k) as E.
    { intros k. induction k as [|a k IH]; [done|]. rewrite not_elem_of_cons. intros [? ?].
      rewrite filter_cons_True by done. by rewrite IH. }
    rewrite !E; [|done|]. 2: { intros Hv. apply (H1 _ Hv). constructor. }
    unfold parity at 4. simpl. fold (parity g l2). by destruct (parity g l1), (parity g l2), (g v).
  - split.
    + apply NoDup_app. split_and!; [done| |apply NoDup_singleton]. by intros w Hw ->%list_elem_of_singleton.
    + rewrite parity_app. simpl. by rewrite xorb_false_r.
Qed.

Lemma parity_boundary `{EqDecision A} g l :
  NoDup (boundary l) /\ parity g (boundary l) = parity g l.
Proof.
  unfold boundary. assert (forall k, NoDup k -> NoDup (foldl toggle k l) /\
    parity g (foldl toggle k l) = xorb (parity g k) (parity g l)) as H.
  { induction l as [|v l IH]; intros k Hk; simpl; [by rewrite xorb_false_r|].
    destruct (parity_toggle g k v Hk) as [Hn Ep]. destruct (IH _ Hn) as [Hn' Ep'].
    split; [done|]. rewrite Ep', Ep. unfold parity at 4. simpl. fold (parity g l). by rewrite xorb_assoc. }
  destruct (H [] (NoDup_nil_2)) as [Hn E]. split; [done|]. rewrite E. by destruct (parity g l).
Qed.

(** Without repetitions nothing cancels. *)
Lemma boundary_nodup `{EqDecision A} l : NoDup l -> boundary l = l.
Proof.
  unfold boundary. assert (forall k, NoDup (k ++ l) -> foldl toggle k l = k ++ l) as H; [|by apply (H [])].
  induction l as [|v l IH]; intros k Hk; simpl; [by rewrite app_nil_r|].
  assert (toggle k v = k ++ [v]) as ->.
  { unfold toggle. rewrite decide_False; [done|]. intros Hv.
    apply NoDup_app in Hk as (_ & Hk & _). apply (Hk _ Hv). constructor. }
  rewrite IH; by rewrite <- app_assoc.
Qed.

Lemma elem_of_boundary `{EqDecision A} l v : v ∈ boundary l -> v ∈ l.
Proof.
  unfold boundary. assert (forall k, v ∈ foldl toggle k l -> v ∈ k \/ v ∈ l) as H.
  { induction l as [|w l IH]; intros k; simpl; [auto|]. intros [Hv|Hv]%IH; [|by right; right].
    unfold toggle in Hv. case_decide; [apply list_elem_of_filter in Hv as [_ ?]; auto|].
    apply elem_of_app in Hv as [?| ->%list_elem_of_singleton]; [by left|right; constructor]. }
  intros [Hv|Hv]%(H []); [by apply elem_of_nil in Hv|done].
Qed.

Lemma parity_fmap {C} (h : C -> A) g (k : list C) : parity g (h <$> k) = parity (fun c => g (h c)) k.
Proof. unfold parity. induction k as [|c k IH]; csimpl; [done|]. by rewrite IH. Qed.

Lemma parity_none g l : Forall (fun a => g a = false) l -> parity g l = false.
Proof. unfold parity. induction 1 as [|a l E _ IH]; simpl; [done|]. by rewrite E, IH. Qed.

Lemma parity_ext g h l : Forall (fun a => g a = h a) l -> parity g l = parity h l.
Proof. unfold parity. induction 1 as [|a l E _ IH]; simpl; [done|]. by rewrite E, IH. Qed.

(** Sorted by a coordinate each value of which occurs evenly often, neighbours go in pairs. *)
Lemma sorted_pairs (f : A -> Z) l :
  StronglySorted (fun a b => f a <= f b) l ->
  (forall y, parity (fun a => f a =? y) l = false) ->
  pair_all (fun a b => f a = f b) l /\ Nat.Even (length l).
Proof.
  induction l as [|a|a b l IH] using pair_ind; simpl; intros Hs Hp.
  - split; [done|by exists 0%nat].
  - specialize (Hp (f a)). unfold parity in Hp. simpl in Hp. by rewrite Z.eqb_refl in Hp.
  - apply StronglySorted_inv in Hs as [Hs Ha]. apply StronglySorted_inv in Hs as [Hs Hb].
    apply Forall_cons in Ha as [Hab Ha].
    assert (f a = f b) as E.
    { destruct (decide (f a = f b)) as [|Hne]; [done|]. exfalso.
      specialize (Hp (f a)). unfold parity in Hp. simpl in Hp. fold (parity (fun c => f c =? f a) l) in Hp.
      rewrite Z.eqb_refl, (proj2 (Z.eqb_neq (f b) (f a))), parity_none in Hp; [done| |lia].
      apply (Forall_impl _ _ _ Hb). intros c Hc. apply Z.eqb_neq. lia. }
    destruct IH as [? [n ?]]; [done| |].
    + intros y. specialize (Hp y). unfold parity in *. simpl in Hp. rewrite E in Hp.
      by destruct (f b =? y), (foldr (fun c d => xorb (f c =? y) d) false l).
    + split; [done|]. exists (S n). lia.
Qed.
End parity.

(** ** What the rings enclose *)

(** Pixel [(x, y)] covers [x .. x + 1] by [y .. y + 1]; the ray from its centre to the left
    meets the vertical lines at [x] and below. *)
Definition crosses (x y : Z) (a b : point) : bool :=
  xorb (py a <=? y) (py b <=? y) && (px a <=? x).

Fixpoint crossings (x y : Z) (ring : list point) : bool :=
  match ring with
  | a :: (b :: _) as ring' => xorb (crosses x y a b) (crossings x y ring')
  | _ => false
  end.

(** The fill rule "evenodd" of the canvas. *)
Definition evenodd (x y : Z) (polygons : list (list point)) : bool := parity (crossings x y) polygons.

Definition covers (x y : Z) (b : bounds) : bool :=
  (px (bmin b) <=? x) && (x <? px (bmax b)) && (py (bmin b) <=? y) && (y <? py (bmax b)).

Definition up_left (x y : Z) (p : point) : bool := (px p <=? x) && (py p <=? y).

(** The sides of a ring are vertical and horizontal in turn. *)
Definition rectilinear (ring : list point) : Prop :=
  forall i a b, ring !! i = Some a -> ring !! S i = Some b -> if Nat.even i then px a = px b else py a = py b.

Lemma crossings_up_left x y l s :
  Nat.Even (length l) -> rectilinear (l ++ [s]) -> crossings x y (l ++ [s]) = parity (up_left x y) l.
Proof.
  induction l as [|a|a b l IH] using pair_ind; simpl; intros He Hr; [done|destruct He; lia|].
  assert (rectilinear (l ++ [s])) as Hr' by (intros i; apply (Hr (S (S i)))).
  assert (Nat.Even (length l)) as He' by (destruct He as [n ?]; exists (n - 1)%nat; lia).
  specialize (IH He' Hr'). unfold parity. simpl. fold (parity (up_left x y) l). rewrite <- IH.
  pose proof (Hr 0%nat a b eq_refl eq_refl) as Hab. simpl in Hab.
  destruct (l ++ [s]) as [|c k] eqn:Ek; [by destruct l|].
  pose proof (Hr 1%nat b c eq_refl eq_refl) as Hbc. simpl in Hbc.
  assert (crosses x y b c = false) as -> by (unfold crosses; by rewrite Hbc, xorb_nilpotent).
  unfold crosses, up_left. rewrite <- Hab.
  by destruct (py a <=? y), (py b <=? y), (px a <=? x), (crossings x y (c :: k)).
Qed.

Lemma parity_getPointArray x y b :
  valid_bounds b -> parity (up_left x y) (getPointArray b) = covers x y b.
Proof.
  intros [Hx Hy]. unfold parity, up_left, getPointArray, covers. simpl.
  repeat match goal with |- context [?a <=? ?b] => destruct (Z.leb_spec a b) end;
  repeat match goal with |- context [?a <? ?b] => destruct (Z.ltb_spec a b) end; simpl; try done; lia.
Qed.

Lemma parity_rects {A} (g : point -> bool) (h : A -> list point) (l : list A) :
  parity g (concat (h <$> l)) = parity (fun a => parity g (h a)) l.
Proof.
  induction l as [|a l IH]; csimpl; [done|]. rewrite parity_app, IH. done.
Qed.

(** A ring of points: closed, with sides along the axes in turn. *)
Definition outline (ring : list point) : Prop := rectilinear ring /\ head ring = last ring.

Section outlines.
Context {V : Type} `{EqDecision V} (pt : V -> point) (sX sY : list V).
Context (HX : NoDup sX) (Hpx : pair_all (fun a b => px (pt a) = px (pt b)) sX).
Context (Hpy : pair_all (fun a b => py (pt a) = py (pt b)) sY).

Lemma ring_outline gone p :
  ring sX sY gone p ->
  outline (ring_points pt p) /\ forall x y, crossings x y (ring_points pt p) = parity (fun v => up_left x y (pt v)) p.
Proof using Hpx Hpy.
  intros [Hn _ Ha [n He] (s & e & Hs & Hl & Hb)]. unfold ring_points.
  assert (take 1 p = [s]) as -> by (by destruct p; simplify_eq/=).
  assert (rectilinear (pt <$> p ++ [s])) as Hr.
  { assert (forall i v w, mate (side sX sY i) v = Some w ->
              if Nat.even i then px (pt v) = px (pt w) else py (pt v) = py (pt w)) as Hm.
    { intros i v w. unfold side. destruct (Nat.even i); intros Hm.
      - exact (mate_related (fun a b => px (pt a) = px (pt b)) _ _ _ ltac:(done) Hpx Hm).
      - exact (mate_related (fun a b => py (pt a) = py (pt b)) _ _ _ ltac:(done) Hpy Hm). }
    intros i a b Hi Hj. rewrite list_lookup_fmap in Hi, Hj.
    destruct ((p ++ [s]) !! i) as [v|] eqn:Ev; [|done]. destruct ((p ++ [s]) !! S i) as [w|] eqn:Ew; [|done].
    simplify_eq/=. apply Hm. pose proof (lookup_lt_Some _ _ _ Ew) as Hlt. rewrite length_app in Hlt. simpl in Hlt.
    rewrite lookup_app_l in Ev by lia. destruct (decide (S i < length p)%nat).
    + rewrite lookup_app_l in Ew by lia. by apply Ha.
    + rewrite lookup_app_r in Ew by lia. replace (S i - length p)%nat with 0%nat in Ew by lia. simpl in Ew.
      rewrite last_lookup in Hl. replace (pred (length p)) with i in Hl by lia. simplify_eq.
      unfold side. replace (Nat.even i) with false; [done|]. symmetry. apply not_true_iff_false.
      intros [m ?]%Nat.even_spec. lia. }
  split; [split; [done|]|].
  - rewrite fmap_app. simpl. rewrite last_snoc. by destruct p; simplify_eq/=.
  - intros x y. rewrite fmap_app in Hr |- *. simpl in *. rewrite crossings_up_left, parity_fmap; [done| |done].
    rewrite length_fmap. by exists n.
Qed.

Lemma rings_evenodd gone l x y :
  rings sX sY gone l ->
  Forall outline (ring_points pt <$> l) /\
  evenodd x y (ring_points pt <$> l) = parity (fun v => up_left x y (pt v)) (concat l).
Proof using Hpx Hpy.
  unfold evenodd. revert gone. induction l as [|p l IH]; intros gone; csimpl; [done|].
  intros [Hp Hl]. destruct (IH _ Hl) as [Ho E]. destruct (ring_outline _ _ Hp) as [Hp1 Hp2].
  split; [by constructor|]. rewrite parity_app. unfold parity at 1. simpl.
  fold (parity (crossings x y) (ring_points pt <$> l)). by rewrite E, Hp2.
Qed.
End outlines.

(** ** Gluing *)

Definition glue_bounds2 (bi bj : bounds) : bounds :=
  foldl (fun b a => Bounds (glue_point a (bmin b)) (glue_point a (bmax b))) bj (getPointArray bi).

Fixpoint glue_bounds_fuel (n : nat) (bs : list bounds) : list bounds :=
  match n, bs with
  | S n', b :: bs' => b :: glue_bounds_fuel n' (glue_bounds2 b <$> bs')
  | _, _ => bs
  end.

(** What gluing makes of rectangles. *)
Definition glue_bounds (bs : list bounds) : list bounds := glue_bounds_fuel (length bs) bs.

Lemma glue_rect_bounds l b :
  foldl (fun rj a => glue_point a <$> rj) (getPointArray b) l
  = getPointArray (foldl (fun b a => Bounds (glue_point a (bmin b)) (glue_point a (bmax b))) b l).
Proof. revert b. induction l as [|a l IH]; intros b; simpl; [done|]. by rewrite <- IH. Qed.

Lemma glue_getPointArray bs : glue (getPointArray <$> bs) = getPointArray <$> glue_bounds bs.
Proof.
  unfold glue, glue_bounds. rewrite length_fmap. generalize (length bs) as n. intros n.
  revert bs. induction n as [|n IH]; intros [|b bs]; [done..|]. csimpl. f_equal. rewrite <- IH. f_equal.
  rewrite <- !list_fmap_compose. apply list_fmap_ext. intros i c _. apply glue_rect_bounds.
Qed.

Lemma snap_mono c x y : x <= y -> snap c x <= snap c y.
Proof. unfold snap, eps. intros. repeat case_bool; lia. Qed.

Lemma snap_cases c x : snap c x = c \/ snap c x = x.
Proof. unfold snap. case_bool; auto. Qed.

Lemma glue_bounds2_valid bi bj : valid_bounds bj -> valid_bounds (glue_bounds2 bi bj).
Proof.
  unfold glue_bounds2. revert bj. induction (getPointArray bi) as [|a l IH]; intros bj Hv; simpl; [done|].
  apply IH. destruct Hv. split; simpl; by apply snap_mono.
Qed.

Lemma glue_bounds_valid bs : Forall valid_bounds bs -> Forall valid_bounds (glue_bounds bs).
Proof.
  unfold glue_bounds. generalize (length bs) as n. intros n. revert bs.
  induction n as [|n IH]; intros bs Hb; [done|]. destruct Hb as [|b bs Hb Hbs]; simpl; [constructor|].
  constructor; [done|]. apply IH. apply Forall_fmap. by apply (Forall_impl _ _ _ Hbs), glue_bounds2_valid.
Qed.

(** Rectangles no two sides of which nearly touch. *)
Definition apart1 (x y : Z) : Prop := x = y \/ eps <= Z.abs (x - y).
Definition apart (b c : bounds) : Prop :=
  forall p q, p ∈ getPointArray b -> q ∈ getPointArray c -> apart1 (px p) (px q) /\ apart1 (py p) (py q).

Lemma snap_apart c x : apart1 c x -> snap c x = x.
Proof. unfold apart1, snap. intros []; case_bool; lia. Qed.

Lemma glue_bounds2_apart b c : apart b c -> glue_bounds2 b c = c.
Proof.
  intros Ha. unfold glue_bounds2.
  assert (forall a, a ∈ getPointArray b -> Bounds (glue_point a (bmin c)) (glue_point a (bmax c)) = c) as H.
  { intros a Hp. assert (bmin c ∈ getPointArray c /\ bmax c ∈ getPointArray c) as [H1 H2] by (split; set_solver).
    destruct (Ha a _ Hp H1) as [E1 E2], (Ha a _ Hp H2) as [E3 E4]. unfold glue_point.
    rewrite !snap_apart by done. by destruct c as [[] []]. }
  induction (getPointArray b) as [|a l IH]; simpl; [done|]. rewrite H by constructor.
  apply IH. intros a' ?. apply H. by right.
Qed.

Lemma glue_bounds_apart bs : ForallOrdPairs apart bs -> glue_bounds bs = bs.
Proof.
  unfold glue_bounds. induction 1 as [|b bs Hb _ IH]; simpl; [done|]. f_equal.
  assert (glue_bounds2 b <$> bs = bs) as ->; [|done].
  transitivity (id <$> bs); [|apply list_fmap_id]. apply Forall_fmap_ext_1.
  apply (Forall_impl _ _ _ Hb). intros c. apply glue_bounds2_apart.
Qed.

(** ** The two functions *)

(** Pixels inside an odd number of rectangles; inside one, when they do not overlap. *)
Definition selected (x y : Z) (bs : list bounds) : bool := parity (covers x y) bs.

Lemma covers_once x y bs :
  ForallOrdPairs (fun b c => covers x y b && covers x y c = false) bs ->
  selected x y bs = existsb (covers x y) bs.
Proof.
  unfold selected. induction 1 as [|b bs Hb _ IH]; [done|]. unfold parity in *. simpl. rewrite IH.
  destruct (covers x y b) eqn:E; [|by destruct (existsb _ bs)]. simpl.
  assert (existsb (covers x y) bs = false) as ->; [|done].
  clear IH. induction Hb as [|c l Hc _ IHl]; [done|]. simpl. by rewrite IHl, orb_false_r.
Qed.

Lemma selected_corners {A} (pt : A -> point) x y bs (vs : list A) :
  map pt vs = concat (map getPointArray bs) -> Forall valid_bounds bs ->
  parity (fun v => up_left x y (pt v)) vs = selected x y bs.
Proof.
  intros E Hv. rewrite <- (parity_fmap pt). change (pt <$> vs) with (map pt vs). rewrite E.
  change (map getPointArray bs) with (getPointArray <$> bs). rewrite parity_rects.
  apply parity_ext. apply (Forall_impl _ _ _ Hv). intros b. apply parity_getPointArray.
Qed.

(** Each row and each column holds evenly many corners. *)
Lemma even_rows {A} (pt : A -> point) (f : point -> Z) bs (vs : list A) y :
  (forall b, parity (fun p => f p =? y) (getPointArray b) = false) ->
  map pt vs = concat (map getPointArray bs) -> parity (fun v => f (pt v) =? y) vs = false.
Proof.
  intros Hf E. rewrite <- (parity_fmap pt (fun p => f p =? y)). change (pt <$> vs) with (map pt vs). rewrite E.
  change (map getPointArray bs) with (getPointArray <$> bs). rewrite parity_rects. apply parity_none, Forall_true.
  apply Hf.
Qed.

Lemma even_row y b : parity (fun p => py p =? y) (getPointArray b) = false.
Proof. unfold parity, getPointArray. simpl. by destruct (_ =? _), (_ =? _). Qed.

Lemma even_column x b : parity (fun p => px p =? x) (getPointArray b) = false.
Proof. unfold parity, getPointArray. simpl. by destruct (_ =? _), (_ =? _). Qed.

(** The rings in the units of the screen. *)
Definition converted {B} (f : point -> B) (rings : list (list point)) : list (list B) :=
  (fun ring : list point => f <$> ring) <$> rings.

(** Both functions: a total conversion, and vertices sorted and joined as they should be. *)
Lemma trace_outline {V B} `{EqDecision V} (pt : V -> point) (at_same : V -> V -> bool) closes
    (uc : option point -> option B) (f : point -> B) (vs : list V) sX sY bs :
  (forall v, at_same v v = true) ->
  (forall v w, closes (Some v) (Some w) = Some (at_same v w)) ->
  (forall p, uc (Some p) = Some (f p)) ->
  sX ≡ₚ boundary vs -> sY ≡ₚ boundary vs ->
  StronglySorted (fun a b => px (pt a) <= px (pt b)) sX ->
  StronglySorted (fun a b => py (pt a) <= py (pt b)) sY ->
  map pt vs = concat (map getPointArray bs) -> Forall valid_bounds bs ->
  (pair_all (fun a b => px (pt a) = px (pt b)) sX ->
   forall gone s, closed sX sY gone -> head (remaining sY gone) = Some s -> starts sX sY at_same gone s) ->
  exists rings,
    trace_polygons pt closes uc sX sY = Done (converted f rings) /\ Forall outline rings /\
    forall x y, evenodd x y rings = selected x y bs.
Proof.
  intros Hrefl Hcl Huc PX PY SX SY Evs Hbs Hstart.
  destruct (parity_boundary (fun _ => true) vs) as [Hn _].
  assert (forall f, parity f sX = parity f vs) as QX by (intros g; rewrite PX; apply parity_boundary).
  assert (forall f, parity f sY = parity f vs) as QY by (intros g; rewrite PY; apply parity_boundary).
  destruct (sorted_pairs (fun v => px (pt v)) sX SX) as [HpX HeX].
  { intros x. rewrite QX. apply (even_rows pt px bs); [apply even_column|done]. }
  destruct (sorted_pairs (fun v => py (pt v)) sY SY) as [HpY HeY].
  { intros y. rewrite QY. apply (even_rows pt py bs); [apply even_row|done]. }
  assert (NoDup sX) as HX by by rewrite PX. assert (NoDup sY) as HY by by rewrite PY.
  assert (sX ≡ₚ sY) as Hsame by by rewrite PX, PY.
  destruct (trace_polygons_spec sX sY HX HY Hsame HeY at_same Hrefl closes Hcl pt uc f Huc (Hstart HpX))
    as (l & Hl & Pl & E).
  exists (ring_points pt <$> l). split_and!.
  - unfold converted. by rewrite E, <- list_fmap_compose.
  - by eapply (rings_evenodd pt sX sY HpX HpY [] l 0 0).
  - intros x y. destruct (rings_evenodd pt sX sY HpX HpY [] l x y Hl) as [_ ->].
    rewrite Pl, QY. by apply selected_corners.
Qed.

(** *** Places as vertices *)

Lemma cmp_le_yThenX {A} (g : A -> point) a b :
  if cmp_le (fun a b => yThenX (g a) (g b)) a b then
    py (g a) < py (g b) \/ py (g a) = py (g b) /\ px (g a) <= px (g b)
  else py (g b) < py (g a) \/ py (g a) = py (g b) /\ px (g b) < px (g a).
Proof.
  unfold cmp_le, yThenX. destruct (Z.ltb_spec (py (g a)) (py (g b))), (Z.eqb_spec (py (g a)) (py (g b))),
    (Z.ltb_spec (px (g a)) (px (g b))), (Z.eqb_spec (px (g a)) (px (g b))); simpl; lia.
Qed.

Lemma cmp_le_xThenY {A} (g : A -> point) a b :
  if cmp_le (fun a b => xThenY (g a) (g b)) a b then
    px (g a) < px (g b) \/ px (g a) = px (g b) /\ py (g a) <= py (g b)
  else px (g b) < px (g a) \/ px (g a) = px (g b) /\ py (g b) < py (g a).
Proof.
  unfold cmp_le, xThenY. destruct (Z.ltb_spec (py (g a)) (py (g b))), (Z.eqb_spec (py (g a)) (py (g b))),
    (Z.ltb_spec (px (g a)) (px (g b))), (Z.eqb_spec (px (g a)) (px (g b))); simpl; lia.
Qed.

Definition nonneg (p : point) : Prop := 0 <= px p /\ 0 <= py p.

Lemma snap_nonneg c x : 0 <= c -> 0 <= x -> 0 <= snap c x.
Proof. intros. destruct (snap_cases c x) as [-> | ->]; done. Qed.

(** The corners of glued rectangles lie where corners of the rectangles lie, axis by axis. *)
Lemma glue_bounds_nonneg bs :
  Forall (fun b => Forall nonneg (getPointArray b)) bs ->
  Forall (fun b => Forall nonneg (getPointArray b)) (glue_bounds bs).
Proof.
  assert (forall l b, Forall nonneg l -> Forall nonneg (getPointArray b) ->
    Forall nonneg (getPointArray (foldl (fun b a => Bounds (glue_point a (bmin b)) (glue_point a (bmax b))) b l))) as H.
  { intros l. induction l as [|a l IH]; intros b Hl Hb; simpl; [done|].
    apply Forall_cons in Hl as [[] Hl]. apply IH; [done|].
    change (Forall nonneg (glue_point a <$> getPointArray b)). apply Forall_fmap.
    apply (Forall_impl _ _ _ Hb). intros p []. split; by apply snap_nonneg. }
  unfold glue_bounds. generalize (length bs) as n. intros n. revert bs.
  induction n as [|n IH]; intros bs Hb; [done|]. destruct Hb as [|b bs Hb Hbs]; simpl; [constructor|].
  constructor; [done|]. apply IH. apply Forall_fmap. apply (Forall_impl _ _ _ Hbs). intros c Hc. by apply H.
Qed.

Lemma js_sort_column (l : list point) :
  Forall nonneg l ->
  StronglySorted (fun a b => px a <= px b) (js_sort (fun a b => xThenY (unsigned a) (unsigned b)) l).
Proof.
  intros Hl. apply (StronglySorted_weaken (fun a b => px (unsigned a) <= px (unsigned b)) _ nonneg).
  - intros a b [] []. simpl. lia.
  - by rewrite js_sort_perm.
  - apply (js_sort_sorted _ (fun _ _ => True)); [lia|..|apply StronglySorted_true];
      intros a b E _; pose proof (cmp_le_xThenY unsigned a b) as H; rewrite E in H; lia.
Qed.

Lemma js_sort_row (l : list point) :
  Forall nonneg l ->
  StronglySorted (fun a b => py a <= py b) (js_sort (fun a b => yThenX (unsigned a) (unsigned b)) l).
Proof.
  intros Hl. apply (StronglySorted_weaken (fun a b => py (unsigned a) <= py (unsigned b)) _ nonneg).
  - intros a b [] []. simpl. lia.
  - by rewrite js_sort_perm.
  - apply (js_sort_sorted _ (fun _ _ => True)); [lia|..|apply StronglySorted_true];
      intros a b E _; pose proof (cmp_le_yThenX unsigned a b) as H; rewrite E in H; lia.
Qed.

(** C24: Whatever rectangles come, if no coordinate is negative,
    [rectanglesToPolygons] ends without an exception; its polygons are closed and have sides
    along the axes in turn; filled by the even-odd rule they cover exactly the pixels that
    lie in an odd number of the glued rectangles - so a pixel that two rectangles share is
    left out ([selected_twice]). *)
Theorem rectanglesToPolygons_fills {B} (toLatLng : option point -> option B) (f : point -> B) (bs : list bounds) :
  (forall p, toLatLng (Some p) = Some (f p)) ->
  Forall valid_bounds bs -> Forall (fun b => Forall nonneg (getPointArray b)) bs ->
  exists rings,
    rectanglesToPolygons toLatLng (map getPointArray bs) = Done (converted f rings) /\
    Forall outline rings /\ forall x y, evenodd x y rings = selected x y (glue_bounds bs).
Proof.
  intros Hf Hv Hn. unfold rectanglesToPolygons. change (map getPointArray bs) with (getPointArray <$> bs).
  rewrite glue_getPointArray.
  assert (Forall nonneg (boundary (concat (getPointArray <$> glue_bounds bs)))) as Hnn.
  { apply Forall_forall. intros p Hp%elem_of_boundary. revert p Hp. apply Forall_forall, Forall_concat, Forall_fmap.
    by apply glue_bounds_nonneg. }
  apply (trace_outline id (fun a b => bool_decide (a = b)) key_equals toLatLng f
           (concat (getPointArray <$> glue_bounds bs))); try done.
  - intros v. by apply bool_decide_eq_true.
  - intros v w. unfold key_equals. f_equal. apply bool_decide_ext. naive_solver.
  - apply js_sort_perm.
  - apply js_sort_perm.
  - by apply js_sort_column.
  - by apply js_sort_row.
  - apply map_id.
  - by apply glue_bounds_valid.
  - intros _ gone s _ Hs. apply head_Some_elem_of in Hs.
    apply list_elem_of_filter in Hs as [Hg HsY].
    split_and!; [done..|]. intros w _ _ Hw%bool_decide_eq_true. by left.
Qed.

(** *** Corner objects as vertices *)

(** Orders without ties: objects in one place come in the order of their identity. *)
Definition row_lt (a b : corner) : Prop :=
  py a.2 < py b.2 \/ py a.2 = py b.2 /\ (px a.2 < px b.2 \/ px a.2 = px b.2 /\ (a.1 < b.1)%nat).
Definition column_lt (a b : corner) : Prop :=
  px a.2 < px b.2 \/ px a.2 = px b.2 /\ (py a.2 < py b.2 \/ py a.2 = py b.2 /\ (a.1 < b.1)%nat).

Lemma row_sorted vs :
  StronglySorted (fun a b : corner => (a.1 < b.1)%nat) vs ->
  StronglySorted row_lt (js_sort (fun a b => yThenX a.2 b.2) vs).
Proof.
  apply js_sort_sorted; unfold row_lt; [lia|..];
    intros a b E H; pose proof (cmp_le_yThenX snd a b) as C; simpl in C; rewrite E in C; lia.
Qed.

Lemma column_sorted vs :
  StronglySorted (fun a b : corner => (a.1 < b.1)%nat) vs ->
  StronglySorted column_lt (js_sort (fun a b => xThenY a.2 b.2) vs).
Proof.
  apply js_sort_sorted; unfold column_lt; [lia|..];
    intros a b E H; pose proof (cmp_le_xThenY snd a b) as C; simpl in C; rewrite E in C; lia.
Qed.

Lemma imap_pair_sorted {A} (l : list A) : StronglySorted (fun a b => (a.1 < b.1)%nat) (imap pair l).
Proof.
  assert (forall n, StronglySorted (fun a b : nat * A => (a.1 < b.1)%nat) (imap (fun i => pair (i + n)%nat) l)) as H.
  { induction l as [|a l IH]; intros n; simpl; constructor.
    - rewrite (imap_ext _ (fun i => pair (i + S n)%nat)); [apply IH|]. intros i x _. simpl. f_equal. lia.
    - apply Forall_forall. intros [i x] Hi. apply elem_of_lookup_imap in Hi as (j & y & ? & _). simplify_eq/=. lia. }
  specialize (H 0%nat). rewrite (imap_ext _ (fun i => pair i)) in H; [done|]. intros i x _. simpl. by rewrite Nat.add_0_r.
Qed.

Lemma map_snd_imap {A} (l : list A) : map snd (imap pair l) = l.
Proof. change (snd <$> imap pair l = l). rewrite fmap_imap. unfold compose. simpl.
  apply list_eq. intros i. rewrite list_lookup_imap. by destruct (l !! i). Qed.

(** Partners are next to each other. *)
Lemma mate_adjacent {A} `{EqDecision A} (lt : A -> A -> Prop) l a b :
  (forall x, ~ lt x x) -> (forall x y z, lt x y -> lt y z -> lt x z) ->
  StronglySorted lt l -> mate l a = Some b ->
  (lt a b /\ forall c, c ∈ l -> lt a c -> c = b \/ lt b c) \/
  (lt b a /\ forall c, c ∈ l -> lt c a -> c = b \/ lt c b).
Proof.
  intros Hirr Htr. induction l as [|x|x y l IH] using pair_ind; simpl; [done..|]. intros Hs.
  apply StronglySorted_inv in Hs as [Hs Hx]. apply StronglySorted_inv in Hs as [Hs Hy].
  apply Forall_cons in Hx as [Hxy Hx]. rewrite Forall_forall in Hx, Hy.
  repeat case_decide; intros E; simplify_eq.
  - left. split; [done|]. intros c [->|[->|Hc]%elem_of_cons]%elem_of_cons ?; [by destruct (Hirr x)|auto..].
  - right. split; [done|]. intros c [->|[->|Hc]%elem_of_cons]%elem_of_cons ?; [auto|by destruct (Hirr y)|].
    destruct (Hirr c). eauto.
  - pose proof (mate_elem _ _ _ E) as [Ha Hb].
    destruct (IH Hs E) as [[Hab Hc]|[Hba Hc]]; [left|right]; (split; [done|]);
      intros c [->|[->|Hin]%elem_of_cons]%elem_of_cons Hlt; auto.
    + destruct (Hirr a). eauto.
    + destruct (Hirr a). eauto.
Qed.

Lemma StronglySorted_filter {A} (R : A -> A -> Prop) (P : A -> Prop) `{!forall x, Decision (P x)} l :
  StronglySorted R l -> StronglySorted R (filter P l).
Proof.
  induction 1 as [|a l Hl IH Hf]; [constructor|]. rewrite filter_cons. case_decide; [|done].
  constructor; [done|]. rewrite Forall_forall in *. intros x [_ Hx]%list_elem_of_filter. by apply Hf.
Qed.

Section corners.
Context (sX sY : list corner).
Context (SX : StronglySorted column_lt sX) (SY : StronglySorted row_lt sY) (Hsame : sX ≡ₚ sY).
Context (HX : NoDup sX) (HY : NoDup sY) (Heven : Nat.Even (length sY)).
Context (Hpx : pair_all (fun a b : corner => px a.2 = px b.2) sX).

Lemma first_row gone s c :
  head (remaining sY gone) = Some s -> c ∈ sY -> c ∉ gone -> c = s \/ row_lt s c.
Proof using SY.
  intros Hs Hc Hg. assert (c ∈ remaining sY gone) as Hin by by apply list_elem_of_filter.
  pose proof (StronglySorted_filter row_lt (fun v => v ∉ gone) sY SY) as SR.
  change (filter _ sY) with (remaining sY gone) in SR.
  destruct (remaining sY gone) as [|a l]; simplify_eq/=.
  apply StronglySorted_inv in SR as [_ Hf]. apply elem_of_cons in Hin as [->|Hin]; [by left|right].
  rewrite Forall_forall in Hf. by apply Hf.
Qed.

(** Another corner left in the place of the first one: then the first one has the same
    partner in its row and in its column. *)
Lemma corner_starts gone s :
  closed sX sY gone -> head (remaining sY gone) = Some s ->
  starts sX sY (fun a b => bool_decide (a.2 = b.2)) gone s.
Proof using All.
  intros Hc Hs. assert (s ∈ remaining sY gone) as [Hg HsY]%list_elem_of_filter by by apply head_Some_elem_of.
  split_and!; [done..|]. intros w HwY Hwg Ew%bool_decide_eq_true.
  destruct (first_row gone s w Hs HwY Hwg) as [->|Hw]; [by left|right].
  destruct (side_mate sX sY Hsame Heven 0 s HsY) as (t & Ht & HtY). change (mate sX s = Some t) in Ht.
  destruct (side_mate sX sY Hsame Heven 1 s HsY) as (r & Hr & HrY). change (mate sY s = Some r) in Hr.
  assert (forall x, x = t \/ x = r -> x ∉ gone) as Hfresh.
  { intros x Hx Hxg. apply Hg, (Hc x s Hxg). destruct Hx as [->| ->]; [left|right]; by apply mate_sym. }
  destruct (mate_adjacent row_lt sY s r) as [[Hsr Hbr]|[Hrs _]]; [unfold row_lt; lia..|done|done| |].
  2: { destruct (first_row gone s r Hs HrY ltac:(auto)) as [->|]; unfold row_lt in *; lia. }
  assert (r.2 = s.2 /\ (s.1 < r.1)%nat) as [Er Hsr1].
  { destruct s as [i []], r as [j []], w as [k []]. simpl in *. simplify_eq.
    destruct (Hbr _ HwY Hw) as [|]; simplify_eq; unfold row_lt in *; simpl in *; [split; [done|lia]|].
    split; [f_equal; lia|lia]. }
  pose proof (mate_related (fun a b : corner => px a.2 = px b.2) _ _ _ ltac:(done) Hpx Ht) as Hcol. simpl in Hcol.
  destruct (mate_adjacent column_lt sX s t) as [[Hst Hbt]|[Hts _]]; [unfold column_lt; lia..|done|done| |].
  2: { destruct (first_row gone s t Hs HtY ltac:(auto)) as [->|]; unfold row_lt, column_lt in *; lia. }
  rewrite Ht, Hr. f_equal. symmetry.
  destruct (Hbt r) as [|Htr]; [by rewrite Hsame| |done|].
  { unfold column_lt. rewrite Er. lia. }
  exfalso. destruct s as [i []], r as [j []], t as [k []]. simpl in Er. simplify_eq.
  destruct (Hbr _ HtY) as [|]; simplify_eq; unfold row_lt, column_lt in *; simpl in *; lia.
Qed.
End corners.

(** Whatever rectangles come, [rectanglesToPointSet] ends without an exception, although
    it keeps several corners in one place apart; its polygons are closed and have sides along
    the axes in turn; filled by the even-odd rule they cover exactly the pixels that lie in
    an odd number of the glued rectangles. *)
Theorem rectanglesToPointSet_fills {B} (unitConverter : option point -> option B)
    (f : point -> B) (bs : list bounds) :
  (forall p, unitConverter (Some p) = Some (f p)) -> Forall valid_bounds bs ->
  exists rings,
    rectanglesToPointSet unitConverter (map getPointArray bs) = Done (converted f rings) /\
    Forall outline rings /\ forall x y, evenodd x y rings = selected x y (glue_bounds bs).
Proof.
  intros Hf Hv. unfold rectanglesToPointSet. change (map getPointArray bs) with (getPointArray <$> bs).
  rewrite glue_getPointArray. pose proof (imap_pair_sorted (concat (getPointArray <$> glue_bounds bs))) as Sid.
  set (vs := imap pair (concat (getPointArray <$> glue_bounds bs))) in *.
  assert (NoDup vs) as Hn.
  { clear -Sid. induction Sid as [|a l _ IH Hl]; constructor; [|done]. intros Ha.
    rewrite Forall_forall in Hl. specialize (Hl _ Ha). lia. }
  rewrite (boundary_nodup vs Hn). pose proof (column_sorted _ Sid) as SX. pose proof (row_sorted _ Sid) as SY.
  destruct (sorted_pairs (fun v : corner => py v.2) (js_sort (fun a b => yThenX a.2 b.2) vs)) as [_ He].
  { revert SY. apply StronglySorted_weaken with (P := fun _ => True); [unfold row_lt; lia|by apply Forall_true]. }
  { intros y. rewrite js_sort_perm. apply (even_rows snd py (glue_bounds bs)); [apply even_row|apply map_snd_imap]. }
  apply (trace_outline snd (fun a b => bool_decide (a.2 = b.2)) corner_equals unitConverter f vs); try done.
  - intros v. by apply bool_decide_eq_true.
  - by rewrite js_sort_perm, boundary_nodup.
  - by rewrite js_sort_perm, boundary_nodup.
  - revert SX. apply StronglySorted_weaken with (P := fun _ => True); [unfold column_lt; lia|by apply Forall_true].
  - revert SY. apply StronglySorted_weaken with (P := fun _ => True); [unfold row_lt; lia|by apply Forall_true].
  - apply map_snd_imap.
  - by apply glue_bounds_valid.
  - intros HpX. apply corner_starts; [done|done|by rewrite !js_sort_perm|by rewrite js_sort_perm..|done|done].
Qed.

Lemma rectanglesToPolygons_fills_witness :
  let bs := [Bounds (Point 0 0) (Point 100 50); Bounds (Point 105 0) (Point 300 50)] in
  exists rings,
    rectanglesToPolygons (fun p => p) (map getPointArray bs) = Done (converted id rings) /\
    Forall outline rings /\ forall x y, evenodd x y rings = selected x y (glue_bounds bs).
Proof.
  intros bs. apply (rectanglesToPolygons_fills (fun p => p) id bs); [done| |].
  - repeat constructor; simpl; lia.
  - repeat constructor; simpl; lia.
Defined.

Lemma rectanglesToPointSet_fills_witness :
  let bs := [Bounds (Point 0 0) (Point 100 50); Bounds (Point (-40) 50) (Point 100 200)] in
  exists rings,
    rectanglesToPointSet (fun p => p) (map getPointArray bs) = Done (converted id rings) /\
    Forall outline rings /\ forall x y, evenodd x y rings = selected x y (glue_bounds bs).
Proof.
  intros bs. apply (rectanglesToPointSet_fills (fun p => p) id bs); [done|].
  repeat constructor; simpl; lia.
Defined.

(** For rectangles that neither overlap nor nearly touch this is their union. *)
Lemma selected_exact x y bs :
  ForallOrdPairs apart bs -> ForallOrdPairs (fun b c => covers x y b && covers x y c = false) bs ->
  selected x y (glue_bounds bs) = existsb (covers x y) bs.
Proof. intros Ha Hd. rewrite glue_bounds_apart by done. by apply covers_once. Qed.

(** What lies in two rectangles is not painted. *)
Example selected_twice :
  rectanglesToPolygons (fun p => p) (map getPointArray [Bounds (Point 0 0) (Point 100 50); Bounds (Point 0 0) (Point 100 50)])
  = Done [].
Proof. reflexivity. Qed.

(** A gap of less than 20 twips is closed. *)
Example gap_closed :
  rectanglesToPolygons (fun p => p) (map getPointArray [Bounds (Point 0 0) (Point 100 50); Bounds (Point 105 0) (Point 300 50)])
  = Done [[Point 0 0; Point 0 50; Point 300 50; Point 300 0; Point 0 0]].
Proof. reflexivity. Qed.
