(* ===== verification/Paths.v ===== *)
(** * Lines and polygons on the canvas

    What happens to a ring of points before it is painted: clipping to the visible area and
    simplification (src/browser/src/geometry/LineUtil.js and PolyUtil.js, with their copies in
    src/browser/src/layer/vector/CLineUtil.ts, and CPolyline.ts).

    Points are in whole pixels and the intersections are rounded, as all callers ask for;
    tolerances and squared distances are fractions. *)

From Stdlib Require Import QArith.
From S2P Require Import Prelude Sorts Geometry.
Local Open Scope Z_scope.

(** ** Clipping of a segment *)

(** [_getBitCode]: on which sides of the area a point is: 1 left, 2 right, 4 and 8 beyond the
    least and greatest [y]. *)
Definition getBitCode (p : point) (b : bounds) : Z :=
  let code := if px p <? px (bmin b) then 1 else if px (bmax b) <? px p then 2 else 0 in
  if py p <? py (bmin b) then Z.lor code 4 else if py (bmax b) <? py p then Z.lor code 8 else code.

(** [Math.round (n / d)] for [d] of any sign but not 0. *)
Definition round_quot (n d : Z) : Z := if d <? 0 then js_round_div (- n) (- d) else js_round_div n d.

Definition has_bit (code bit : Z) : bool := negb (Z.land code bit =? 0).

(** [_getEdgeIntersection], rounded. *)
Definition getEdgeIntersection (a b : point) (code : Z) (bs : bounds) : point :=
  let dx := px b - px a in
  let dy := py b - py a in
  if has_bit code 8 then
    Point (px a + round_quot (dx * (py (bmax bs) - py a)) dy) (py (bmax bs))
  else if has_bit code 4 then
    Point (px a + round_quot (dx * (py (bmin bs) - py a)) dy) (py (bmin bs))
  else if has_bit code 2 then
    Point (px (bmax bs)) (py a + round_quot (dy * (px (bmax bs) - px a)) dx)
  else
    Point (px (bmin bs)) (py a + round_quot (dy * (px (bmin bs) - px a)) dx).

(** What is left of a segment, and whether its second end is still the given one. *)
Inductive clipped := Outside | Inside (a b : point) (b_kept : bool).

Fixpoint clip_loop (fuel : nat) (a b : point) (codeA codeB : Z) (b_kept : bool) (bs : bounds) :
    option clipped :=
  match fuel with
  | O => None
  | S fuel' =>
      if Z.lor codeA codeB =? 0 then Some (Inside a b b_kept)
      else if negb (Z.land codeA codeB =? 0) then Some Outside
      else
        let codeOut := if negb (codeA =? 0) then codeA else codeB in
        let p := getEdgeIntersection a b codeOut bs in
        let newCode := getBitCode p bs in
        if codeOut =? codeA then clip_loop fuel' p b newCode codeB b_kept bs
        else clip_loop fuel' a p codeA newCode false bs
  end.

Definition clip_fuel : nat := 6.

(** [clipSegment]; [lastCode] is the code of [a], kept from the segment before, if there was
    one.  The second result is the code to keep. *)
Definition clipSegment (a b : point) (bs : bounds) (lastCode : option Z) : option clipped * Z :=
  let codeA := default (getBitCode a bs) lastCode in
  let codeB := getBitCode b bs in
  (clip_loop clip_fuel a b codeA codeB true bs, codeB).

(** ** Clipping of rings *)

(** [CPolyline.clipPoints], for one ring: the finished parts and the one in progress. *)
Fixpoint clip_ring (points : list point) (lastCode : option Z) (bs : bounds)
    (parts : list (list point)) (part : list point) : option (list (list point) * list point) :=
  match points with
  | a :: (b :: rest) as points' =>
      let '(r, code) := clipSegment a b bs lastCode in
      match r with
      | None => None
      | Some Outside => clip_ring points' (Some code) bs parts part
      | Some (Inside a' b' b_kept) =>
          let part := part ++ [a'] in
          if negb b_kept || bool_decide (rest = []) then
            clip_ring points' (Some code) bs (parts ++ [part ++ [b']]) []
          else clip_ring points' (Some code) bs parts part
      end
  | _ => Some (parts, part)
  end.

Fixpoint clip_rings (rings : list (list point)) (bs : bounds) (parts : list (list point))
    (part : list point) : option (list (list point)) :=
  match rings with
  | [] => Some (if bool_decide (part = []) then parts else parts ++ [part])
  | ring :: rings' =>
      match clip_ring ring None bs parts part with
      | Some (parts, part) => clip_rings rings' bs parts part
      | None => None
      end
  end.

Definition clipPoints (rings : list (list point)) (bs : bounds) : option (list (list point)) :=
  clip_rings rings bs [] [].

(** ** [L.PolyUtil.clipPolygon] *)

Definition outside (p : point) (edge : Z) (bs : bounds) : bool := has_bit (getBitCode p bs) edge.

(** One side [b -> a] of the polygon against one edge of the area. *)
Definition clip_side (edge : Z) (bs : bounds) (a b : point) : list point :=
  if negb (outside a edge bs) then
    (if outside b edge bs then [getEdgeIntersection b a edge bs] else []) ++ [a]
  else if negb (outside b edge bs) then [getEdgeIntersection b a edge bs]
  else [].

Fixpoint clip_sides (edge : Z) (bs : bounds) (b : point) (points : list point) : list point :=
  match points with
  | [] => []
  | a :: points' => clip_side edge bs a b ++ clip_sides edge bs a points'
  end.

Definition clip_edge (edge : Z) (bs : bounds) (points : list point) : list point :=
  match last points with
  | Some b => clip_sides edge bs b points
  | None => []
  end.

Definition clipPolygon (points : list point) (bs : bounds) : list point :=
  foldl (fun points edge => clip_edge edge bs points) points [1; 4; 2; 8].

(** ** Simplification *)

(** [_sqDist] *)
Definition sqDist (p1 p2 : point) : Z :=
  let dx := px p2 - px p1 in let dy := py p2 - py p1 in dx * dx + dy * dy.

(** The square of the distance of [(x, y)], given as fractions, from a point. *)
Definition sqDistQ (x y : Q) (p : point) : Q :=
  let dx := (inject_Z (px p) - x)%Q in let dy := (inject_Z (py p) - y)%Q in (dx * dx + dy * dy)%Q.

(** [_sqClosestPointOnSegment (p, p1, p2, true)] *)
Definition sqDistToSegment (p p1 p2 : point) : Q :=
  let dx := px p2 - px p1 in
  let dy := py p2 - py p1 in
  let dot := dx * dx + dy * dy in
  if 0 <? dot then
    let n := (px p - px p1) * dx + (py p - py p1) * dy in
    if dot <? n then sqDistQ (inject_Z (px p2)) (inject_Z (py p2)) p
    else if 0 <? n then
      let t := (inject_Z n / inject_Z dot)%Q in
      sqDistQ (inject_Z (px p1) + inject_Z dx * t) (inject_Z (py p1) + inject_Z dy * t) p
    else sqDistQ (inject_Z (px p1)) (inject_Z (py p1)) p
  else sqDistQ (inject_Z (px p1)) (inject_Z (py p1)) p.

Definition Qgt_bool (x y : Q) : bool := negb (Qle_bool x y).

(** [_reducePoints]: [prev] is the point kept last; the last point is always kept. *)
Fixpoint reduce_loop (prev : point) (points : list point) (sqTolerance : Q) : list point :=
  match points with
  | [] => []
  | [p] => [p]
  | p :: points' =>
      if Qgt_bool (inject_Z (sqDist p prev)) sqTolerance then p :: reduce_loop p points' sqTolerance
      else reduce_loop prev points' sqTolerance
  end.

Definition reducePoints (points : list point) (sqTolerance : Q) : list point :=
  match points with
  | [] => []
  | p :: points' => p :: reduce_loop p points' sqTolerance
  end.

Definition at_point (points : list point) (i : nat) : point := default (Point 0 0) (points !! i).

(** The loop of [_simplifyDPStep]: the place and distance of the point farthest from the line
    between two others. *)
Fixpoint farthest (points : list point) (first last : nat) (n i : nat) (index : nat) (maxSqDist : Q) :
    nat * Q :=
  match n with
  | O => (index, maxSqDist)
  | S n' =>
      let sqDist := sqDistToSegment (at_point points i) (at_point points first) (at_point points last) in
      if Qgt_bool sqDist maxSqDist then farthest points first last n' (S i) i sqDist
      else farthest points first last n' (S i) index maxSqDist
  end.

(** [_simplifyDPStep] *)
Fixpoint simplifyDPStep (fuel : nat) (points : list point) (markers : list bool) (sqTolerance : Q)
    (first last : nat) : option (list bool) :=
  match fuel with
  | O => None
  | S fuel' =>
      let '(index, maxSqDist) := farthest points first last (last - first - 1) (S first) 0 0%Q in
      if Qgt_bool maxSqDist sqTolerance then
        let markers := <[index:=true]> markers in
        match simplifyDPStep fuel' points markers sqTolerance first index with
        | Some markers => simplifyDPStep fuel' points markers sqTolerance index last
        | None => None
        end
      else Some markers
  end.

Fixpoint marked (points : list point) (markers : list bool) : list point :=
  match points, markers with
  | p :: points', m :: markers' => if m then p :: marked points' markers' else marked points' markers'
  | _, _ => []
  end.

(** [_simplifyDP] *)
Definition simplifyDP (points : list point) (sqTolerance : Q) : option (list point) :=
  let len := length points in
  let markers := <[0%nat:=true]> (<[(len - 1)%nat:=true]> (replicate len false)) in
  match simplifyDPStep len points markers sqTolerance 0 (len - 1) with
  | Some markers => Some (marked points markers)
  | None => None
  end.

(** [simplify] *)
Definition simplify (points : list point) (tolerance : Q) : option (list point) :=
  if Qeq_bool tolerance 0 || bool_decide (points = []) then Some points
  else
    let sqTolerance := (tolerance * tolerance)%Q in
    simplifyDP (reducePoints points sqTolerance) sqTolerance.

(** ** Codes *)

Definition left_of (p : point) (bs : bounds) : Prop := px p < px (bmin bs).
Definition right_of (p : point) (bs : bounds) : Prop := px (bmax bs) < px p.
Definition below (p : point) (bs : bounds) : Prop := py p < py (bmin bs).
Definition above (p : point) (bs : bounds) : Prop := py (bmax bs) < py p.

Ltac code_cases :=
  unfold getBitCode, has_bit, outside, left_of, right_of, below, above in *;
  repeat match goal with
  | |- context [?a <? ?b] => destruct (Z.ltb_spec a b)
  | H : context [?a <? ?b] |- _ => destruct (Z.ltb_spec a b)
  end; simpl in *.

Section codes.
Context (bs : bounds) (Hbs : valid_bounds bs).
Implicit Types (p a b : point).

Lemma code_inside p : getBitCode p bs = 0 <-> contains_point bs p = true.
Proof.
  unfold contains_point. rewrite !andb_true_iff, !Z.leb_le. code_cases; split; intros; try done; lia.
Qed.

Lemma code_left p : has_bit (getBitCode p bs) 1 = true <-> left_of p bs.
Proof. code_cases; split; intros; try done; lia. Qed.

Lemma code_right p : has_bit (getBitCode p bs) 2 = true <-> right_of p bs.
Proof using Hbs. destruct Hbs. code_cases; split; intros; try done; lia. Qed.

Lemma code_below p : has_bit (getBitCode p bs) 4 = true <-> below p bs.
Proof. code_cases; split; intros; try done; lia. Qed.

Lemma code_above p : has_bit (getBitCode p bs) 8 = true <-> above p bs.
Proof using Hbs. destruct Hbs. code_cases; split; intros; try done; lia. Qed.

(** Both ends are beyond one edge. *)
Definition beyond a b : Prop :=
  (left_of a bs /\ left_of b bs) \/ (right_of a bs /\ right_of b bs) \/
  (below a bs /\ below b bs) \/ (above a bs /\ above b bs).

Lemma code_both a b : Z.land (getBitCode a bs) (getBitCode b bs) <> 0 <-> beyond a b.
Proof using Hbs. destruct Hbs. unfold beyond. code_cases; split; intros; try done; try lia. Qed.

Lemma code_either a b : Z.lor (getBitCode a bs) (getBitCode b bs) = 0 <-> getBitCode a bs = 0 /\ getBitCode b bs = 0.
Proof. apply Z.lor_eq_0_iff. Qed.
End codes.

(** ** Intersections *)

Definition between (x a b : Z) : Prop := a <= x <= b \/ b <= x <= a.
Definition in_box (p a b : point) : Prop := between (px p) (px a) (px b) /\ between (py p) (py a) (py b).

Lemma js_round_div_le a b d k : 0 < d -> k * d <= a -> a <= b * d -> k <= js_round_div a d <= b.
Proof. intros Hd Ha Hb. pose proof (js_round_div_bounds a d Hd). nia. Qed.

Lemma round_quot_between w t d : d <> 0 -> between t 0 d -> between (round_quot (w * t) d) 0 w.
Proof.
  intros Hd Ht. unfold round_quot, between in *. destruct (Z.ltb_spec d 0).
  - destruct (Z.le_ge_cases 0 w).
    + left. apply js_round_div_le; nia.
    + right. apply js_round_div_le; nia.
  - destruct (Z.le_ge_cases 0 w).
    + left. apply js_round_div_le; nia.
    + right. apply js_round_div_le; nia.
Qed.

Lemma round_quot_zero d : d <> 0 -> round_quot 0 d = 0.
Proof.
  intros Hd. assert (between (round_quot (0 * 0) d) 0 0) as H; [|rewrite Z.mul_0_l in H; unfold between in H; lia].
  apply round_quot_between; [done|]. unfold between. lia.
Qed.

(** The rounded point of the line through [a] and [b] with the coordinate [m]. *)
Definition line_point (vertical : bool) (m : Z) (a b : point) : point :=
  if vertical then Point m (py a + round_quot ((py b - py a) * (m - px a)) (px b - px a))
  else Point (px a + round_quot ((px b - px a) * (m - py a)) (py b - py a)) m.

(** Which edge an intersection is computed with. *)
Inductive edge_of (bs : bounds) (code : Z) : bool -> Z -> Prop :=
  | edge_above : has_bit code 8 = true -> edge_of bs code false (py (bmax bs))
  | edge_below : has_bit code 8 = false -> has_bit code 4 = true -> edge_of bs code false (py (bmin bs))
  | edge_right : has_bit code 8 = false -> has_bit code 4 = false -> has_bit code 2 = true ->
      edge_of bs code true (px (bmax bs))
  | edge_left : has_bit code 8 = false -> has_bit code 4 = false -> has_bit code 2 = false ->
      edge_of bs code true (px (bmin bs)).

Lemma intersection_edge a b code bs :
  exists vertical m, edge_of bs code vertical m /\
    getEdgeIntersection a b code bs = line_point vertical m a b.
Proof.
  unfold getEdgeIntersection.
  destruct (has_bit code 8) eqn:E8; [exists false; eexists; split; [by apply edge_above|done]|].
  destruct (has_bit code 4) eqn:E4; [exists false; eexists; split; [by apply edge_below|done]|].
  destruct (has_bit code 2) eqn:E2; [exists true; eexists; split; [by apply edge_right|done]|].
  exists true; eexists; split; [by apply edge_left|done].
Qed.

Lemma between_shift x a w : between x 0 w -> between (a + x) a (a + w).
Proof. unfold between. lia. Qed.

(** An intersection with a line that separates the ends lies between them, on the line. *)
Lemma intersection_box (vertical : bool) m a b :
  (if vertical then px a <> px b /\ between m (px a) (px b) else py a <> py b /\ between m (py a) (py b)) ->
  in_box (line_point vertical m a b) a b.
Proof.
  unfold line_point. intros H. assert (forall v u : Z, v = u + (v - u)) as Hv by lia.
  destruct vertical, H as [Hne Hm]; split; simpl; try done.
  - rewrite (Hv (py b) (py a)) at 2. apply between_shift, round_quot_between; [lia|]. unfold between in *. lia.
  - rewrite (Hv (px b) (px a)) at 2. apply between_shift, round_quot_between; [lia|]. unfold between in *. lia.
Qed.

(** ** Clipping a segment *)

Section clip.
Context (bs : bounds) (Hbs : valid_bounds bs).
Implicit Types (a b p : point).

(** How many coordinates are out of range. *)
Definition out_x p : bool := (px p <? px (bmin bs)) || (px (bmax bs) <? px p).
Definition out_y p : bool := (py p <? py (bmin bs)) || (py (bmax bs) <? py p).
Definition nsides p : nat := ((if out_x p then 1 else 0) + (if out_y p then 1 else 0))%nat.

Lemma out_x_spec p : out_x p = true <-> left_of p bs \/ right_of p bs.
Proof. unfold out_x. by rewrite orb_true_iff, !Z.ltb_lt. Qed.

Lemma out_y_spec p : out_y p = true <-> below p bs \/ above p bs.
Proof. unfold out_y. by rewrite orb_true_iff, !Z.ltb_lt. Qed.

#[export] Instance beyond_dec a b : Decision (beyond bs a b).
Proof. unfold beyond, left_of, right_of, below, above. apply _. Defined.

(** The edge chosen for an end [u] that is out of range separates it from [v]. *)
Lemma edge_separates u v vertical m :
  edge_of bs (getBitCode u bs) vertical m -> getBitCode u bs <> 0 -> ~ beyond bs u v ->
  if vertical then px u <> px v /\ between m (px u) (px v) /\ px (bmin bs) <= m <= px (bmax bs) /\
                   (left_of u bs \/ right_of u bs)
  else py u <> py v /\ between m (py u) (py v) /\ py (bmin bs) <= m <= py (bmax bs) /\
       (below u bs \/ above u bs).
Proof using Hbs.
  intros He Hu Hb. pose proof Hbs as [Hx Hy]. pose proof (code_above bs Hbs u) as C8.
  pose proof (code_below bs u) as C4. pose proof (code_right bs Hbs u) as C2.
  pose proof (code_left bs u) as C1. unfold beyond, between, above, below, left_of, right_of in *.
  destruct He as [H8|H8 H4|H8 H4 H2|H8 H4 H2].
  - apply C8 in H8. lia.
  - apply C4 in H4. lia.
  - apply C2 in H2. lia.
  - assert (px u < px (bmin bs)); [|lia]. apply C1. clear -Hu H8 H4 H2. by code_cases.
Qed.

Lemma clip_step a b u v :
  (u = a /\ v = b) \/ (u = b /\ v = a) -> getBitCode u bs <> 0 -> ~ beyond bs u v ->
  let p := getEdgeIntersection a b (getBitCode u bs) bs in
  in_box p a b /\ (beyond bs p v \/ (nsides p < nsides u)%nat).
Proof using Hbs.
  intros Huv Hu Hb. destruct (intersection_edge a b (getBitCode u bs) bs) as (vertical & m & He & ->).
  pose proof (edge_separates u v vertical m He Hu Hb) as Hs. cbv zeta.
  assert (in_box (line_point vertical m a b) a b) as Hin.
  { apply intersection_box. unfold between in *. destruct vertical, Huv as [[-> ->]|[-> ->]]; lia. }
  split; [exact Hin|].
  assert ((if vertical then px else py) (line_point vertical m a b) = m) as Hp by by destruct vertical.
  revert Hin Hp. generalize (line_point vertical m a b) as p.
  intros p [Bx By] Hp. destruct (decide (beyond bs p v)) as [|Hpv]; [by left|right].
  unfold nsides. destruct vertical, Hs as (_ & _ & Hm & Hside).
  - assert (out_x p = false) as -> by (apply not_true_iff_false; rewrite out_x_spec; unfold left_of, right_of; lia).
    assert (out_x u = true) as -> by by apply out_x_spec.
    destruct (out_y p) eqn:E; [|lia]. apply out_y_spec in E.
    assert (out_y u = true) as ->; [|lia]. apply out_y_spec.
    unfold beyond, between, above, below in *. destruct Huv as [[-> ->]|[-> ->]]; lia.
  - assert (out_y p = false) as -> by (apply not_true_iff_false; rewrite out_y_spec; unfold below, above; lia).
    assert (out_y u = true) as -> by by apply out_y_spec.
    destruct (out_x p) eqn:E; [|destruct (out_x u); lia]. apply out_x_spec in E.
    assert (out_x u = true) as ->; [|lia]. apply out_x_spec.
    unfold beyond, between, left_of, right_of in *. destruct Huv as [[-> ->]|[-> ->]]; lia.
Qed.

Definition straight a b : Prop := px a = px b \/ py a = py b.

(** Nothing that is seen of a horizontal or vertical segment is cut off. *)
Lemma clip_step_exact a b u v q :
  (u = a /\ v = b) \/ (u = b /\ v = a) -> getBitCode u bs <> 0 -> ~ beyond bs u v -> straight a b ->
  in_box q a b -> contains_point bs q = true ->
  let p := getEdgeIntersection a b (getBitCode u bs) bs in in_box q p v.
Proof using Hbs.
  intros Huv Hu Hb Hst Hq Hc. destruct (intersection_edge a b (getBitCode u bs) bs) as (vertical & m & He & ->).
  cbv zeta. pose proof (edge_separates u v vertical m He Hu Hb) as Hs. unfold contains_point in Hc. to_prop.
  unfold straight, in_box, between, line_point in *. destruct vertical, Hs as (Hne & Hm & Hr & _); simpl.
  - assert (py a = py b) as Ey by (destruct Huv as [[-> ->]|[-> ->]]; lia).
    rewrite Ey, Z.sub_diag, Z.mul_0_l, round_quot_zero by (destruct Huv as [[-> ->]|[-> ->]]; lia).
    pose proof (code_left bs u) as C1. pose proof (code_right bs Hbs u) as C2.
    unfold left_of, right_of in *.
    inversion He as [| |_ _ F2|F8 F4 F2]; subst m.
    + apply C2 in F2. destruct Huv as [[-> ->]|[-> ->]]; lia.
    + assert (px u < px (bmin bs)); [|destruct Huv as [[-> ->]|[-> ->]]; lia].
      apply C1. clear -Hu F8 F4 F2. by code_cases.
  - assert (px a = px b) as Ex by (destruct Huv as [[-> ->]|[-> ->]]; lia).
    rewrite Ex, Z.sub_diag, Z.mul_0_l, round_quot_zero by (destruct Huv as [[-> ->]|[-> ->]]; lia).
    pose proof (code_below bs u) as C1. pose proof (code_above bs Hbs u) as C2. unfold below, above in *.
    inversion He as [F8|_ F4| |]; subst m.
    + apply C2 in F8. destruct Huv as [[-> ->]|[-> ->]]; lia.
    + apply C1 in F4. destruct Huv as [[-> ->]|[-> ->]]; lia.
Qed.

Definition clip_ok a b (kept : bool) (r : clipped) : Prop :=
  (straight a b -> forall q, in_box q a b -> contains_point bs q = true ->
     match r with Inside a' b' _ => in_box q a' b' | Outside => False end) /\
  match r with
  | Inside a' b' k =>
      contains_point bs a' = true /\ contains_point bs b' = true /\ in_box a' a b /\ in_box b' a b /\
      (contains_point bs a = true -> a' = a) /\ (contains_point bs b = true -> b' = b /\ k = kept) /\
      (k = true -> b' = b /\ kept = true)
  | Outside => contains_point bs a = false /\ contains_point bs b = false
  end.

Lemma in_box_trans p q a b : in_box p a b -> in_box q p b \/ in_box q a p -> in_box q a b.
Proof. unfold in_box, between. lia. Qed.

Lemma in_box_ends a b : in_box a a b /\ in_box b a b.
Proof. unfold in_box, between. lia. Qed.

Lemma not_inside_code p : getBitCode p bs <> 0 <-> contains_point bs p = false.
Proof. rewrite code_inside. apply not_true_iff_false. Qed.

Lemma beyond_sym a b : beyond bs a b -> beyond bs b a.
Proof. unfold beyond. tauto. Qed.

Lemma beyond_outside a b : beyond bs a b -> contains_point bs a = false.
Proof.
  intros H. apply not_true_iff_false. unfold contains_point. rewrite !andb_true_iff, !Z.leb_le.
  unfold beyond, left_of, right_of, below, above in H. lia.
Qed.

Lemma beyond_box a b q : beyond bs a b -> in_box q a b -> contains_point bs q = false.
Proof.
  intros H Hq. apply not_true_iff_false. unfold contains_point. rewrite !andb_true_iff, !Z.leb_le.
  unfold beyond, left_of, right_of, below, above, in_box, between in *. lia.
Qed.

Lemma in_box_sym q a b : in_box q a b -> in_box q b a.
Proof. unfold in_box, between. lia. Qed.

Lemma straight_box a b p : in_box p a b -> straight a b -> straight a p /\ straight p b.
Proof. unfold in_box, between, straight. lia. Qed.

Lemma clip_loop_spec fuel a b kept :
  (beyond bs a b /\ (0 < fuel)%nat) \/ (nsides a + nsides b + 1 < fuel)%nat ->
  exists r, clip_loop fuel a b (getBitCode a bs) (getBitCode b bs) kept bs = Some r /\ clip_ok a b kept r.
Proof using Hbs.
  revert a b kept. induction fuel as [|fuel IH]; intros a b kept Hf; [lia|]. simpl.
  destruct (Z.eqb_spec (Z.lor (getBitCode a bs) (getBitCode b bs)) 0) as [E|E].
  { apply code_either in E as [Ea%code_inside Eb%code_inside]. eexists. split; [done|].
    pose proof (in_box_ends a b) as []. by split; [auto|split_and!]. }
  destruct (Z.eqb_spec (Z.land (getBitCode a bs) (getBitCode b bs)) 0) as [E0|E0]; simpl.
  2: { apply code_both in E0; [|done]. exists Outside. split; [done|].
       split; [intros _ q Hq Hc; by rewrite (beyond_box a b q) in Hc|].
       split; [by apply (beyond_outside a b)|by apply (beyond_outside b a), beyond_sym]. }
  assert (~ beyond bs a b) as Hnb by (rewrite <- (code_both bs Hbs); lia).
  destruct Hf as [[]|Hf]; [done|].
  destruct (Z.eqb_spec (getBitCode a bs) 0) as [Ea|Ea]; simpl.
  - assert (getBitCode b bs <> 0) as Eb by (intros Eb; apply E; by apply code_either).
    rewrite Ea. destruct (Z.eqb_spec (getBitCode b bs) 0) as [|_]; [done|].
    assert (~ beyond bs b a) as Hnb' by by intros ?%beyond_sym.
    pose proof (clip_step a b b a ltac:(auto) Eb Hnb') as [Hbox Hn].
    pose proof (clip_step_exact a b b a) as Hx. cbv zeta in *.
    set (p := getEdgeIntersection a b (getBitCode b bs) bs) in *.
    assert (contains_point bs a = true) as Ha by by apply code_inside.
    destruct Hn as [Hn|Hn]; [apply beyond_sym, beyond_outside in Hn; congruence|].
    destruct (IH a p false) as (r & Hr & He & Hok); [lia|]. rewrite Ea in Hr. exists r. split; [done|].
    apply not_inside_code in Eb as Eb'. split.
    { intros Hst q Hq Hc. apply He; [by apply (straight_box a b p)|apply in_box_sym; by apply Hx; auto|done]. }
    destruct r as [|a' b' k]; simpl in *; [by destruct Hok; split|].
    destruct Hok as (? & ? & ? & ? & ? & ? & Hk).
    split_and!; eauto using in_box_trans; [congruence|]. intros ->. by destruct Hk.
  - rewrite Z.eqb_refl.
    pose proof (clip_step a b a b ltac:(auto) Ea Hnb) as [Hbox Hn].
    pose proof (clip_step_exact a b a b) as Hx. cbv zeta in *.
    set (p := getEdgeIntersection a b (getBitCode a bs) bs) in *.
    destruct (IH p b kept) as (r & Hr & He & Hok); [destruct Hn; [left; split; [done|lia]|right; lia]|].
    exists r. split; [done|]. apply not_inside_code in Ea as Ea'. split.
    { intros Hst q Hq Hc. apply He; [by apply (straight_box a b p)|by apply Hx; auto|done]. }
    destruct r as [|a' b' k]; simpl in *; [by destruct Hok; split|].
    destruct Hok as (? & ? & ? & ? & ? & ? & ?). split_and!; eauto using in_box_trans. congruence.
Qed.

Lemma nsides_le p : (nsides p <= 2)%nat.
Proof. unfold nsides. destruct (out_x p), (out_y p); lia. Qed.

Lemma clipSegment_spec a b :
  exists r, clipSegment a b bs None = (Some r, getBitCode b bs) /\
    clipSegment a b bs (Some (getBitCode a bs)) = (Some r, getBitCode b bs) /\ clip_ok a b true r.
Proof using Hbs.
  unfold clipSegment, clip_fuel. simpl default.
  destruct (clip_loop_spec 6 a b true) as (r & -> & Hr); [|by exists r].
  pose proof (nsides_le a). pose proof (nsides_le b). lia.
Qed.
End clip.

(** ** Clipping rings *)

Section rings.
Context (bs : bounds) (Hbs : valid_bounds bs).
Abbreviation seen p := (contains_point bs p = true).
Implicit Types (points part : list point) (parts new : list (list point)).

Definition code_known points (code : option Z) : Prop :=
  code = None \/ exists a, head points = Some a /\ code = Some (getBitCode a bs).

(** A part in progress ends where the ring goes on, in view. *)
Definition part_ok points part : Prop :=
  Forall (fun p => seen p) part /\ (part = [] \/ exists a, head points = Some a /\ seen a).

Definition good_parts new : Prop := Forall (fun part => Forall (fun p => seen p) part /\ (2 <= length part)%nat) new.

Lemma clipSegment_known a b code rest :
  code_known (a :: rest) code ->
  exists r, clipSegment a b bs code = (Some r, getBitCode b bs) /\ clip_ok bs a b true r.
Proof using Hbs.
  intros Hc. destruct (clipSegment_spec bs Hbs a b) as (r & E1 & E2 & Hr). exists r. split; [|done].
  destruct Hc as [->|(a' & [= <-] & ->)]; done.
Qed.

Lemma clip_ring_eq a b rest code parts part :
  clip_ring (a :: b :: rest) code bs parts part =
  let '(r, code) := clipSegment a b bs code in
  match r with
  | None => None
  | Some Outside => clip_ring (b :: rest) (Some code) bs parts part
  | Some (Inside a' b' b_kept) =>
      let part := part ++ [a'] in
      if negb b_kept || bool_decide (rest = []) then
        clip_ring (b :: rest) (Some code) bs (parts ++ [part ++ [b']]) []
      else clip_ring (b :: rest) (Some code) bs parts part
  end.
Proof. reflexivity. Qed.

(** What one piece of the ring adds to the part in progress. *)
Lemma piece_spec a b part a' b' k :
  clip_ok bs a b true (Inside a' b' k) -> Forall (fun p => seen p) part ->
  Forall (fun p => seen p) (part ++ [a']) /\ good_parts [(part ++ [a']) ++ [b']] /\
  (forall p, p ∈ part \/ p = a /\ seen p -> p ∈ part ++ [a']) /\
  (forall p, p ∈ part \/ p = a /\ seen p \/ p = b /\ seen p -> p ∈ (part ++ [a']) ++ [b']) /\
  (seen a -> a' = a) /\ (seen b -> b' = b /\ k = true) /\ (k = true -> seen b).
Proof.
  intros (_ & Ha' & Hb' & _ & _ & Ha & Hb & Hk) Hpart.
  assert (Forall (fun p => seen p) (part ++ [a'])) as Hpart' by (apply Forall_app; split; [done|by constructor]).
  assert (forall p, p ∈ part \/ p = a /\ seen p -> p ∈ part ++ [a']) as Hin.
  { intros p [Hp|[-> Hp]]; rewrite elem_of_app, list_elem_of_singleton; [by left|]. rewrite Ha; auto. }
  split_and!; [done| |done| |done|done|].
  - constructor; [|constructor]. split; [apply Forall_app; split; [done|by constructor]|].
    rewrite !length_app. simpl. lia.
  - intros p Hp. rewrite elem_of_app, list_elem_of_singleton. destruct Hp as [Hp|[Hp|[-> Hp]]]; [auto..|].
    destruct (Hb Hp) as [-> _]; auto.
  - intros [<- _]%Hk. done.
Qed.

Lemma clip_ring_spec points code parts part :
  code_known points code -> part_ok points part -> (2 <= length points)%nat ->
  exists new, clip_ring points code bs parts part = Some (parts ++ new, []) /\ good_parts new /\
    (forall p, p ∈ part \/ p ∈ points /\ seen p -> p ∈ concat new) /\
    (Forall (fun p => seen p) points -> new = [part ++ points]).
Proof using Hbs.
  revert code parts part.
  induction points as [|a [|b rest] IH]; intros code parts part Hcode [Hpart Hcont] Hlen; [simpl in Hlen; lia..|].
  destruct (clipSegment_known a b code (b :: rest) Hcode) as (r & Er & Hr).
  rewrite clip_ring_eq, Er. assert (code_known (b :: rest) (Some (getBitCode b bs))) as Hcode' by (right; by exists b).
  assert (forall p, p ∈ a :: b :: rest -> p = a \/ p ∈ b :: rest) as Hsplit by (intros p; by rewrite elem_of_cons).
  destruct r as [|a' b' k].
  { destruct Hr as [_ [Ha Hb]]. destruct Hcont as [->|(? & [= <-] & ?)]; [|congruence].
    destruct rest as [|c rest].
    - exists []. simpl. rewrite app_nil_r. split_and!; [done|constructor| |].
      + intros p [Hp|[[->|[->|Hp]%elem_of_cons]%elem_of_cons ?]]; by (apply elem_of_nil in Hp || congruence).
      + intros [? _]%Forall_cons. congruence.
    - destruct (IH (Some (getBitCode b bs)) parts []) as (new & -> & Hg & Hin & _); [done|by split; [|left]|simpl; lia|].
      exists new. split_and!; [done..| |].
      + intros p [Hp|[[->|Hp]%Hsplit ?]]; [by apply elem_of_nil in Hp|congruence|apply Hin; by right].
      + intros [? _]%Forall_cons. congruence. }
  destruct (piece_spec a b part a' b' k Hr Hpart) as (Hpart' & Hgood & Hin1 & Hin2 & Ha & Hb & Hk). cbv zeta.
  destruct rest as [|c rest].
  { rewrite orb_true_r. exists [(part ++ [a']) ++ [b']]. split_and!; [done..| |].
    - intros p Hp. simpl. rewrite app_nil_r. apply Hin2. rewrite !elem_of_cons, elem_of_nil in Hp. tauto.
    - intros [Hsa [Hsb _]%Forall_cons]%Forall_cons. destruct (Hb Hsb) as [-> _].
      by rewrite (Ha Hsa), <- app_assoc. }
  rewrite bool_decide_false, orb_false_r by done. destruct k; simpl negb; cbv iota.
  - destruct (IH (Some (getBitCode b bs)) parts (part ++ [a'])) as (new & E & Hg & Hin & Hfull);
      [done|split; [done|right; exists b; split; [done|by apply Hk]]|simpl; lia|].
    exists new. split_and!; [exact E|done| |].
    + intros p [Hp|[[->|Hp]%Hsplit Hs]]; apply Hin; [left; auto..|by right].
    + intros [Hsa Hf]%Forall_cons. by rewrite (Hfull Hf), (Ha Hsa), <- app_assoc.
  - destruct (IH (Some (getBitCode b bs)) (parts ++ [(part ++ [a']) ++ [b']]) []) as (new & E & Hg & Hin & _);
      [done|by split; [|left]|simpl; lia|].
    exists ([(part ++ [a']) ++ [b']] ++ new). split_and!.
    + rewrite app_assoc. exact E.
    + by apply Forall_app.
    + intros p Hp. simpl. apply elem_of_app. destruct Hp as [Hp|[[->|Hp]%Hsplit Hs]];
        [left; auto..|right; apply Hin; by right].
    + intros [Hsa [Hsb _]%Forall_cons]%Forall_cons. by destruct (Hb Hsb).
Qed.

(** Clipping ends, and what it leaves is in view: every part has two points or more, all
    in the area; every point of the rings that is in view is kept, and rings that are in view
    as a whole are left as they are. *)
Theorem clipPoints_view rings :
  Forall (fun ring => 2 <= length ring)%nat rings ->
  exists parts, clipPoints rings bs = Some parts /\ good_parts parts /\
    (forall ring p, ring ∈ rings -> p ∈ ring -> seen p -> p ∈ concat parts) /\
    (Forall (Forall (fun p => seen p)) rings -> parts = rings).
Proof using Hbs.
  unfold clipPoints. assert (forall acc, Forall (fun ring => 2 <= length ring)%nat rings ->
    exists new, clip_rings rings bs acc [] = Some (acc ++ new) /\ good_parts new /\
      (forall ring p, ring ∈ rings -> p ∈ ring -> seen p -> p ∈ concat new) /\
      (Forall (Forall (fun p => seen p)) rings -> new = rings)) as H; [|intros Hl; exact (H [] Hl)].
  induction rings as [|ring l IH]; intros acc Hl; simpl.
  - exists []. rewrite app_nil_r. split_and!; [done|constructor| |done]. by intros ? ? ?%elem_of_nil.
  - apply Forall_cons in Hl as [Hring Hl].
    destruct (clip_ring_spec ring None acc []) as (new & -> & Hg & Hin & Hfull); [by left|by split; [|left]|done|].
    destruct (IH (acc ++ new) Hl) as (more & -> & Hg' & Hin' & Hfull').
    exists (new ++ more). rewrite app_assoc. split_and!; [done|by apply Forall_app| |].
    + intros r p [->|Hr]%elem_of_cons Hp Hs; rewrite concat_app, elem_of_app; [left; apply Hin; by right|right; eauto].
    + intros [Hr Hf]%Forall_cons. by rewrite (Hfull Hr), (Hfull' Hf).
Qed.
End rings.

Lemma clipPoints_view_witness :
  let bs := Bounds (Point 0 0) (Point 10 10) in
  let rings := [[Point 5 5; Point 15 5; Point 15 15; Point 5 5]] in
  exists parts, clipPoints rings bs = Some parts /\ good_parts bs parts /\
    (forall ring p, ring ∈ rings -> p ∈ ring -> contains_point bs p = true -> p ∈ concat parts) /\
    (Forall (Forall (fun p => contains_point bs p = true)) rings -> parts = rings).
Proof.
  intros bs rings. apply (clipPoints_view bs); [split; simpl; lia|]. repeat constructor.
Defined.

Example clip_corner :
  clipPoints [[Point 5 5; Point 15 5; Point 15 15; Point 5 5]] (Bounds (Point 0 0) (Point 10 10))
  = Some [[Point 5 5; Point 10 5]; [Point 10 10; Point 5 5]].
Proof. reflexivity. Qed.

(** ** Clipping polygons *)

Section polygon.
Context (bs : bounds) (Hbs : valid_bounds bs).
Implicit Types (p q a b : point) (points : list point).

Definition is_edge (edge : Z) : Prop := edge ∈ [1; 4; 2; 8].

Definition beyond_edge (edge : Z) p : Prop :=
  edge = 1 /\ left_of p bs \/ edge = 2 /\ right_of p bs \/ edge = 4 /\ below p bs \/ edge = 8 /\ above p bs.

Lemma outside_spec edge p : is_edge edge -> outside p edge bs = true <-> beyond_edge edge p.
Proof using Hbs.
  unfold is_edge, outside, beyond_edge. rewrite !elem_of_cons, elem_of_nil.
  intros [->|[->|[->|[->|[]]]]].
  - rewrite code_left. intuition lia.
  - rewrite code_below. intuition lia.
  - rewrite (code_right bs Hbs). intuition lia.
  - rewrite (code_above bs Hbs). intuition lia.
Qed.

Lemma outside_false edge p : is_edge edge -> outside p edge bs = false <-> ~ beyond_edge edge p.
Proof using Hbs. intros He. by rewrite <- (outside_spec edge p He), not_true_iff_false. Qed.

(** A point between two points that are within an edge is within it. *)
Lemma between_within edge p a b : ~ beyond_edge edge a -> ~ beyond_edge edge b -> in_box p a b -> ~ beyond_edge edge p.
Proof. unfold beyond_edge, left_of, right_of, below, above, in_box, between. lia. Qed.

Lemma edge_point a b edge :
  is_edge edge -> outside a edge bs <> outside b edge bs ->
  let p := getEdgeIntersection a b edge bs in in_box p a b /\ ~ beyond_edge edge p.
Proof using Hbs.
  intros He Hab. cbv zeta. pose proof Hbs as [Hx Hy].
  assert (exists u v, (u = a /\ v = b \/ u = b /\ v = a) /\ beyond_edge edge u /\ ~ beyond_edge edge v) as (u & v & Huv & Hu & Hv).
  { destruct (outside a edge bs) eqn:Ea, (outside b edge bs) eqn:Eb; try done.
    - exists a, b. apply outside_spec in Ea; [|done]. apply outside_false in Eb; auto.
    - exists b, a. apply outside_spec in Eb; [|done]. apply outside_false in Ea; auto. }
  assert (exists vertical m, getEdgeIntersection a b edge bs = line_point vertical m a b /\
    (if vertical : bool then px a <> px b /\ between m (px a) (px b) else py a <> py b /\ between m (py a) (py b)) /\
    (vertical = true /\ (edge = 1 /\ m = px (bmin bs) \/ edge = 2 /\ m = px (bmax bs)) \/
     vertical = false /\ (edge = 4 /\ m = py (bmin bs) \/ edge = 8 /\ m = py (bmax bs)))) as (vertical & m & -> & Hsep & Hm).
  { unfold is_edge in He. rewrite !elem_of_cons, elem_of_nil in He.
    unfold beyond_edge, left_of, right_of, below, above, between in *.
    destruct He as [->|[->|[->|[->|[]]]]].
    - exists true, (px (bmin bs)). split; [done|]. destruct Huv as [[-> ->]|[-> ->]]; lia.
    - exists false, (py (bmin bs)). split; [done|]. destruct Huv as [[-> ->]|[-> ->]]; lia.
    - exists true, (px (bmax bs)). split; [done|]. destruct Huv as [[-> ->]|[-> ->]]; lia.
    - exists false, (py (bmax bs)). split; [done|]. destruct Huv as [[-> ->]|[-> ->]]; lia. }
  split; [by apply intersection_box|].
  unfold beyond_edge, left_of, right_of, below, above, line_point.
  destruct Hm as [[-> Hm]|[-> Hm]]; simpl; lia.
Qed.

(** What one side contributes: points within the edge, between the ends of the side. *)
Lemma clip_side_spec edge a b q :
  is_edge edge -> q ∈ clip_side edge bs a b -> ~ beyond_edge edge q /\ (q = a \/ in_box q b a).
Proof using Hbs.
  intros He. unfold clip_side.
  destruct (outside a edge bs) eqn:Ea, (outside b edge bs) eqn:Eb; simpl;
    rewrite ?elem_of_cons, ?elem_of_nil; intros Hq.
  - done.
  - destruct Hq as [->|[]]. destruct (edge_point b a edge He) as [? ?]; [congruence|auto].
  - destruct Hq as [->|[->|[]]].
    + destruct (edge_point b a edge He) as [? ?]; [congruence|auto].
    + apply outside_false in Ea; auto.
  - destruct Hq as [->|[]]. apply outside_false in Ea; auto.
Qed.

Lemma clip_sides_spec edge points b q :
  is_edge edge -> q ∈ clip_sides edge bs b points ->
  ~ beyond_edge edge q /\ exists u v, u ∈ b :: points /\ v ∈ b :: points /\ in_box q u v.
Proof using Hbs.
  intros He. revert b. induction points as [|a points IH]; intros b; simpl; [by intros ?%elem_of_nil|].
  intros [Hq|Hq]%elem_of_app.
  - apply clip_side_spec in Hq as [? Hq]; [|done]. split; [done|].
    destruct Hq as [->|Hq]; [exists a, a|exists b, a]; split_and!; try (constructor; fail); try (do 2 constructor; fail);
      [apply in_box_ends|done].
  - destruct (IH a Hq) as (? & u & v & Hu & Hv & ?). split; [done|]. exists u, v.
    rewrite elem_of_cons in Hu, Hv |- *. rewrite (elem_of_cons (a :: points)), !(elem_of_cons points). tauto.
Qed.

Lemma clip_edge_spec edge points q :
  is_edge edge -> q ∈ clip_edge edge bs points ->
  ~ beyond_edge edge q /\ exists u v, u ∈ points /\ v ∈ points /\ in_box q u v.
Proof using Hbs.
  intros He. unfold clip_edge. destruct (last points) as [b|] eqn:El; [|by intros ?%elem_of_nil].
  intros (? & u & v & Hu & Hv & ?)%clip_sides_spec; [|done]. split; [done|]. exists u, v.
  apply last_Some_elem_of in El. apply elem_of_cons in Hu, Hv. split_and!; [naive_solver..|done].
Qed.

Definition within (edges : list Z) p : Prop := forall edge, edge ∈ edges -> ~ beyond_edge edge p.

Lemma clip_edges_within edges points done :
  Forall is_edge edges -> Forall (within done) points ->
  Forall (within (done ++ edges)) (foldl (fun points edge => clip_edge edge bs points) points edges).
Proof using Hbs.
  revert points done. induction edges as [|e edges IH]; intros points done He Hp; simpl; [by rewrite app_nil_r|].
  apply Forall_cons in He as [He Hes]. rewrite cons_middle, app_assoc. apply IH; [exact Hes|].
  rewrite Forall_forall in *. intros q (Hq & u & v & Hu%Hp & Hv%Hp & Hbox)%clip_edge_spec; [|exact He].
  intros edge [Hin|Hin]%elem_of_app.
  - eapply between_within; [by apply Hu|by apply Hv|exact Hbox].
  - apply list_elem_of_singleton in Hin. by subst edge.
Qed.

Lemma in_view p : contains_point bs p = true <-> within [1; 4; 2; 8] p.
Proof using Hbs.
  unfold within, beyond_edge, contains_point. rewrite !andb_true_iff, !Z.leb_le.
  unfold left_of, right_of, below, above. split.
  - intros H edge _. lia.
  - intros H. pose proof (H 1 ltac:(set_solver)). pose proof (H 4 ltac:(set_solver)).
    pose proof (H 2 ltac:(set_solver)). pose proof (H 8 ltac:(set_solver)). lia.
Qed.

(** A point in view is kept at every edge, and nothing is added to a polygon in view. *)
Lemma clip_sides_keeps edge points b p :
  p ∈ points -> outside p edge bs = false -> p ∈ clip_sides edge bs b points.
Proof.
  revert b. induction points as [|a points IH]; intros b Hp Ho; [by apply elem_of_nil in Hp|]. simpl.
  apply elem_of_app. apply elem_of_cons in Hp as [->|Hp]; [left|right; by apply IH].
  unfold clip_side. rewrite Ho. simpl. apply elem_of_app. right. constructor.
Qed.

Lemma clip_sides_id edge points b :
  outside b edge bs = false -> Forall (fun p => outside p edge bs = false) points ->
  clip_sides edge bs b points = points.
Proof.
  intros Hb Hp. revert b Hb. induction Hp as [|a points Ha _ IH]; intros b Hb; simpl; [done|].
  unfold clip_side. rewrite Ha, Hb. simpl. by rewrite IH.
Qed.

Lemma clip_edges_keep edges points :
  Forall is_edge edges ->
  (forall p, p ∈ points -> within edges p -> p ∈ foldl (fun points edge => clip_edge edge bs points) points edges) /\
  (Forall (within edges) points -> foldl (fun points edge => clip_edge edge bs points) points edges = points).
Proof using Hbs.
  revert points. induction edges as [|e edges IH]; intros points He; simpl; [done|].
  apply Forall_cons in He as [He Hes]. split.
  - intros p Hp Hw. apply IH; [done| |intros edge ?; apply Hw; by right].
    unfold clip_edge. destruct (last points) eqn:El; [|apply last_None in El; by subst].
    apply clip_sides_keeps; [done|]. apply outside_false, Hw; [done|constructor].
  - intros Hf. assert (clip_edge e bs points = points) as ->.
    { unfold clip_edge. destruct (last points) as [b|] eqn:El; [|apply last_None in El; by subst].
      assert (Forall (fun p => outside p e bs = false) points) as Ho.
      { apply (Forall_impl _ _ _ Hf). intros p Hw. apply outside_false, Hw; [done|constructor]. }
      apply clip_sides_id; [|done]. rewrite Forall_forall in Ho. by apply Ho, last_Some_elem_of. }
    apply IH; [done|]. apply (Forall_impl _ _ _ Hf). intros p Hw edge ?. apply Hw. by right.
Qed.

(** [clipPolygon] leaves only points in view, keeps all that are in view, and leaves a
    polygon that is in view as a whole as it is. *)
Theorem clipPolygon_view points :
  Forall (fun p => contains_point bs p = true) (clipPolygon points bs) /\
  (forall p, p ∈ points -> contains_point bs p = true -> p ∈ clipPolygon points bs) /\
  (Forall (fun p => contains_point bs p = true) points -> clipPolygon points bs = points).
Proof using Hbs.
  assert (Forall is_edge [1; 4; 2; 8]) as He by (repeat constructor).
  destruct (clip_edges_keep [1; 4; 2; 8] points He) as [Hk Hid]. split_and!.
  - apply (Forall_impl (within ([] ++ [1; 4; 2; 8]))); [|intros p; by apply in_view].
    apply clip_edges_within; [done|]. apply Forall_forall. by intros p _ edge ?%elem_of_nil.
  - intros p Hp Hs%in_view. by apply Hk.
  - intros Hf. apply Hid. apply (Forall_impl _ _ _ Hf). intros p. apply in_view.
Qed.
End polygon.

Lemma clipPolygon_view_witness :
  let bs := Bounds (Point 0 0) (Point 10 10) in
  let points := [Point 5 5; Point 15 5; Point 15 15] in
  Forall (fun p => contains_point bs p = true) (clipPolygon points bs) /\
  (forall p, p ∈ points -> contains_point bs p = true -> p ∈ clipPolygon points bs) /\
  (Forall (fun p => contains_point bs p = true) points -> clipPolygon points bs = points).
Proof. intros bs points. apply (clipPolygon_view bs). split; simpl; lia. Defined.

(** ** Simplification *)

Section simplify.
Context (tol2 : Q) (Htol : (0 <= tol2)%Q).
Implicit Types (points red : list point) (ms : list bool).

Lemma Qgt_bool_spec x y : if Qgt_bool x y then (y < x)%Q else (x <= y)%Q.
Proof.
  unfold Qgt_bool. destruct (Qle_bool x y) eqn:E; simpl.
  - by apply Qle_bool_iff.
  - apply Qnot_le_lt. intros H%Qle_bool_iff. congruence.
Qed.

Lemma sqDist_self p : sqDist p p = 0.
Proof. unfold sqDist. lia. Qed.

(** Every point lies near one that is kept. *)
Lemma reduce_loop_near prev points p :
  p ∈ points -> exists q, q ∈ prev :: reduce_loop prev points tol2 /\ (inject_Z (sqDist p q) <= tol2)%Q.
Proof using Htol.
  revert prev. induction points as [|a points IH]; intros prev; [by intros ?%elem_of_nil|].
  assert (exists q, q = a /\ (inject_Z (sqDist a q) <= tol2)%Q) as (q & -> & Ha).
  { exists a. by rewrite sqDist_self. }
  destruct points as [|b points].
  { intros ->%list_elem_of_singleton. exists a. split; [simpl; right; constructor|done]. }
  change (reduce_loop prev (a :: b :: points) tol2) with
    (if Qgt_bool (inject_Z (sqDist a prev)) tol2 then a :: reduce_loop a (b :: points) tol2
     else reduce_loop prev (b :: points) tol2).
  pose proof (Qgt_bool_spec (inject_Z (sqDist a prev)) tol2) as Hd.
  destruct (Qgt_bool (inject_Z (sqDist a prev)) tol2); intros [->|Hp]%elem_of_cons.
  - exists a. split; [right; constructor|done].
  - destruct (IH a Hp) as (q & Hq & ?). exists q. split; [by right|done].
  - exists prev. split; [constructor|done].
  - by apply IH.
Qed.

Lemma reduce_loop_ends prev points :
  sublist (reduce_loop prev points tol2) points /\
  last (prev :: reduce_loop prev points tol2) = last (prev :: points).
Proof.
  revert prev. induction points as [|a points IH]; intros prev; [done|].
  destruct points as [|b points]; [done|].
  change (reduce_loop prev (a :: b :: points) tol2) with
    (if Qgt_bool (inject_Z (sqDist a prev)) tol2 then a :: reduce_loop a (b :: points) tol2
     else reduce_loop prev (b :: points) tol2).
  destruct (Qgt_bool (inject_Z (sqDist a prev)) tol2).
  - destruct (IH a) as [Hs Hl]. split; [by constructor|].
    change (last (prev :: a :: reduce_loop a (b :: points) tol2)) with (last (a :: reduce_loop a (b :: points) tol2)).
    by rewrite Hl.
  - destruct (IH prev) as [Hs Hl]. split; [by constructor|]. by rewrite Hl.
Qed.

Definition seg_dist points (i j k : nat) : Q :=
  sqDistToSegment (at_point points i) (at_point points j) (at_point points k).

Lemma farthest_spec points first last n i index m :
  let '(index', m') := farthest points first last n i index m in
  (m <= m')%Q /\ (forall l, i <= l < i + n -> (seg_dist points l first last <= m')%Q)%nat /\
  ((index', m') = (index, m) \/ (i <= index' < i + n)%nat).
Proof.
  revert i index m. induction n as [|n IH]; intros i index m; simpl.
  - split_and!; [apply Qle_refl|intros; lia|by left].
  - fold (seg_dist points i first last). pose proof (Qgt_bool_spec (seg_dist points i first last) m) as Hd.
    destruct (Qgt_bool (seg_dist points i first last) m).
    + specialize (IH (S i) i (seg_dist points i first last)).
      destruct (farthest _ _ _ _ _ _ _) as [index' m']. destruct IH as (Hm & Hall & Hi). split_and!.
      * eapply Qle_trans; [apply Qlt_le_weak|]; done.
      * intros l Hl. destruct (decide (l = i)) as [->|]; [done|]. apply Hall. lia.
      * right. destruct Hi as [[= -> _]|]; lia.
    + specialize (IH (S i) index m).
      destruct (farthest _ _ _ _ _ _ _) as [index' m']. destruct IH as (Hm & Hall & Hi). split_and!.
      * done.
      * intros l Hl. destruct (decide (l = i)) as [->|]; [by eapply Qle_trans|]. apply Hall. lia.
      * destruct Hi as [|]; [by left|right; lia].
Qed.

(** Every unmarked point between two others is near the line between the marked points
    around it. *)
Definition near points ms (first last : nat) : Prop :=
  forall i, (first < i < last)%nat -> ms !! i = Some false ->
  exists j k, (first <= j < i)%nat /\ (i < k <= last)%nat /\
    (j = first \/ ms !! j = Some true) /\ (k = last \/ ms !! k = Some true) /\
    (forall l, (j < l < k)%nat -> ms !! l = Some false) /\ (seg_dist points i j k <= tol2)%Q.

Definition unmarked ms (first last : nat) : Prop := forall i, (first < i < last)%nat -> ms !! i = Some false.

Lemma near_ext points ms ms' first last :
  (forall i, (first < i < last)%nat -> ms' !! i = ms !! i) -> near points ms first last -> near points ms' first last.
Proof.
  intros E Hn i Hi Hf. rewrite E in Hf by done. destruct (Hn i Hi Hf) as (j & k & Hj & Hk & Hjm & Hkm & Hl & Hd).
  exists j, k. split_and!; try lia; try done.
  - destruct (decide (j = first)); [by left|right]. rewrite E by lia. by destruct Hjm.
  - destruct (decide (k = last)); [by left|right]. rewrite E by lia. by destruct Hkm.
  - intros l Hll. rewrite E by lia. by apply Hl.
Qed.

Lemma near_join points ms first index last :
  (first < index < last)%nat -> ms !! index = Some true ->
  near points ms first index -> near points ms index last -> near points ms first last.
Proof.
  intros Hx Hm H1 H2 i Hi Hf. destruct (decide (i = index)) as [->|Hne]; [congruence|].
  destruct (decide (i < index)%nat).
  - destruct (H1 i ltac:(lia) Hf) as (j & k & ? & ? & ? & Hk & ? & ?). exists j, k.
    split_and!; try lia; try done. right. by destruct Hk as [->|].
  - destruct (H2 i ltac:(lia) Hf) as (j & k & ? & ? & Hj & ? & ? & ?). exists j, k.
    split_and!; try lia; try done. right. by destruct Hj as [->|].
Qed.

Lemma simplifyDPStep_spec fuel points ms first last :
  (last - first < fuel)%nat -> (last < length ms)%nat -> unmarked ms first last ->
  exists ms', simplifyDPStep fuel points ms tol2 first last = Some ms' /\
    length ms' = length ms /\ (forall i, ~ (first < i < last)%nat -> ms' !! i = ms !! i) /\
    near points ms' first last.
Proof using Htol.
  revert ms first last. induction fuel as [|fuel IH]; intros ms first last Hf Hlen Hu; [lia|]. simpl.
  pose proof (farthest_spec points first last (last - first - 1) (S first) 0 0%Q) as Hfar.
  destruct (farthest _ _ _ _ _ _ _) as [index m]. destruct Hfar as (_ & Hall & Hi).
  pose proof (Qgt_bool_spec m tol2) as Hd. destruct (Qgt_bool m tol2).
  - assert (first < index < last)%nat as Hix.
    { destruct Hi as [[= -> ->]|]; [|lia]. exfalso. apply (Qle_not_lt _ _ Htol Hd). }
    destruct (IH (<[index:=true]> ms) first index) as (ms1 & -> & Hl1 & Ho1 & Hn1); [lia|rewrite length_insert; lia| |].
    { intros i ?. rewrite list_lookup_insert_ne by lia. apply Hu. lia. }
    rewrite length_insert in Hl1.
    destruct (IH ms1 index last) as (ms2 & -> & Hl2 & Ho2 & Hn2); [lia|lia| |].
    { intros i ?. rewrite Ho1 by lia. rewrite list_lookup_insert_ne by lia. apply Hu. lia. }
    exists ms2. split_and!; [done|lia| |].
    + intros i Hni. rewrite Ho2, Ho1 by lia. apply list_lookup_insert_ne. lia.
    + apply near_join with index; [done| | |done].
      * rewrite Ho2, Ho1 by lia. apply list_lookup_insert_eq. lia.
      * revert Hn1. apply near_ext. intros i ?. apply Ho2. lia.
  - exists ms. split_and!; [done..|]. intros i Hin _. exists first, last. split_and!; [lia..|auto|auto|done|].
    eapply Qle_trans; [apply Hall; lia|done].
Qed.
End simplify.

(** What simplification promises: the ends stay, no point is new, and a point that goes is
    near the line between the kept points around it, or near a point of that kind. *)
Record simplified (tol2 : Q) (points out : list point) : Prop := {
  simplified_sub : sublist out points;
  simplified_head : head out = head points;
  simplified_last : last out = last points;
  simplified_near : exists red ms,
    (forall p, p ∈ points -> exists q, q ∈ red /\ (inject_Z (sqDist p q) <= tol2)%Q) /\
    out = marked red ms /\ length ms = length red /\
    forall i, ms !! i = Some false -> exists j k, (j < i < k)%nat /\
      ms !! j = Some true /\ ms !! k = Some true /\ (forall l, (j < l < k)%nat -> ms !! l = Some false) /\
      (seg_dist red i j k <= tol2)%Q
}.

Lemma marked_sub points ms : sublist (marked points ms) points.
Proof.
  revert ms. induction points as [|p points IH]; intros [|[] ms]; simpl; try by constructor.
  - apply sublist_nil_l.
Qed.

Lemma marked_head points ms : ms !! 0%nat = Some true -> points <> [] -> head (marked points ms) = head points.
Proof. destruct points, ms as [|[] ms]; simpl; intros; simplify_eq; done. Qed.

Lemma marked_last points ms :
  length ms = length points -> ms !! (length points - 1)%nat = Some true -> last (marked points ms) = last points.
Proof.
  revert ms. induction points as [|p points IH]; intros ms Hl Hm; [by destruct ms|].
  destruct ms as [|m ms]; [done|]. injection Hl as Hl. simpl in Hm. rewrite Nat.sub_0_r in Hm.
  destruct points as [|q points]; [destruct ms; by simplify_eq/=|].
  assert (last (marked (q :: points) ms) = last (q :: points)) as IH'.
  { apply IH; [done|]. simpl. rewrite Nat.sub_0_r. done. }
  change (last (p :: q :: points)) with (last (q :: points)). rewrite <- IH'. destruct m; [|done].
  change (marked (p :: q :: points) (true :: ms)) with (p :: marked (q :: points) ms).
  destruct (marked (q :: points) ms); [|done]. symmetry in IH'. by apply last_None in IH'.
Qed.

Lemma reducePoints_near tol2 points p :
  (0 <= tol2)%Q -> p ∈ points -> exists q, q ∈ reducePoints points tol2 /\ (inject_Z (sqDist p q) <= tol2)%Q.
Proof.
  intros Ht. destruct points as [|a points]; [by intros ?%elem_of_nil|]. simpl.
  intros [->|Hp]%elem_of_cons; [|by apply reduce_loop_near].
  exists a. rewrite sqDist_self. split; [constructor|done].
Qed.

Lemma simplifyDP_spec tol2 red :
  (0 <= tol2)%Q -> red <> [] ->
  exists ms, simplifyDP red tol2 = Some (marked red ms) /\ length ms = length red /\
    ms !! 0%nat = Some true /\ ms !! (length red - 1)%nat = Some true /\
    near tol2 red ms 0 (length red - 1).
Proof.
  intros Ht Hr. assert (0 < length red)%nat as Hlen by (destruct red; [done|simpl; lia]). unfold simplifyDP.
  set (ms0 := <[0%nat:=true]> (<[(length red - 1)%nat:=true]> (replicate (length red) false))).
  assert (length ms0 = length red) as Hl0 by by unfold ms0; rewrite !length_insert, length_replicate.
  destruct (simplifyDPStep_spec tol2 Ht (length red) red ms0 0 (length red - 1)) as (ms & -> & Hl & Ho & Hn).
  - lia.
  - lia.
  - intros i Hi. unfold ms0. rewrite !list_lookup_insert_ne by lia. by apply lookup_replicate_2; lia.
  - exists ms. split_and!; [done|congruence| | |done].
    + rewrite Ho by lia. unfold ms0. apply list_lookup_insert_eq. rewrite length_insert, length_replicate. lia.
    + rewrite Ho by lia. unfold ms0. destruct (decide (length red - 1 = 0)%nat) as [->|].
      * apply list_lookup_insert_eq. rewrite length_insert, length_replicate. lia.
      * rewrite list_lookup_insert_ne by lia. apply list_lookup_insert_eq. rewrite length_replicate. lia.
Qed.

(** C26: Simplification ends and stays within its tolerance: the ends of the line are kept,
    no point is new, and a point that is dropped is near a point that is kept at first, or
    near the line between the points kept around it. *)
Theorem simplify_within points tolerance :
  points <> [] ->
  exists out, simplify points tolerance = Some out /\
    (Qeq_bool tolerance 0 = true /\ out = points \/ simplified (tolerance * tolerance) points out).
Proof.
  intros Hp. unfold simplify. rewrite (bool_decide_false (points = [])), orb_false_r by done.
  destruct (Qeq_bool tolerance 0); [by exists points; auto|]. set (tol2 := (tolerance * tolerance)%Q).
  assert (0 <= tol2)%Q as Ht by (unfold tol2, Qle; simpl; nia).
  destruct points as [|p points]; [done|]. set (red := reducePoints (p :: points) tol2).
  destruct (simplifyDP_spec tol2 red Ht) as (ms & -> & Hl & H0 & H1 & Hn); [done|].
  eexists. split; [done|]. right. constructor.
  - apply (PreOrder_Transitive _ red); [apply marked_sub|]. constructor. apply reduce_loop_ends.
  - by rewrite marked_head.
  - rewrite marked_last by done. apply (reduce_loop_ends tol2 p points).
  - exists red, ms. split_and!; [intros q Hq; by apply reducePoints_near|done..|].
    intros i Hi. pose proof (lookup_lt_Some _ _ _ Hi) as Hlt.
    assert (i <> 0)%nat by (intros ->; congruence).
    assert (i <> length red - 1)%nat by (intros ->; congruence).
    destruct (Hn i ltac:(lia) Hi) as (j & k & Hj & Hk & Hjm & Hkm & Hbetween & Hd).
    exists j, k. split_and!; [lia|lia|by destruct Hjm as [->|]|by destruct Hkm as [->|]|done|done].
Qed.

Lemma simplify_within_witness :
  let points := [Point 0 0; Point 5 1; Point 10 0; Point 10 10] in
  exists out, simplify points 2 = Some out /\
    (Qeq_bool 2 0 = true /\ out = points \/ simplified (2 * 2) points out).
Proof. intros points. apply (simplify_within points). done. Defined.

Example simplify_straight :
  simplify [Point 0 0; Point 5 1; Point 10 0; Point 10 10] 2 = Some [Point 0 0; Point 10 0; Point 10 10].
Proof. reflexivity. Qed.
