(* ===== verification/Shapes.v ===== *)
(** * Shapes of overlays

    The points of the shapes that are painted over the tiles: point sets
    (src/browser/src/layer/vector/CPointSet.ts), the rings of a polyline (CPolyline.ts,
    CPolygon.ts), the borders of cell cursors and cell selections (CRectangle.ts) and the
    shade around an embedded object (CDarkOverlay.ts).

    Borders run between pixels, so coordinates are counted in half pixels: a pixel is 2.
    The point objects of a set are different objects, as those who make sets take care of;
    a function that changes its argument returns the new one. *)

From S2P Require Import Prelude Geometry Sorts Polygons.
Local Open Scope Z_scope.

(** ** Point sets *)

(** [CPointSet]: flat, a set of sets, or neither. *)
Inductive point_set :=
  | NoPoints
  | Flat (points : list point)
  | Sets (pointSets : list point_set).

Definition getTopLeft (b : bounds) : point := bmin b.
Definition getTopRight (b : bounds) : point := Point (px (bmax b)) (py (bmin b)).
Definition getBottomRight (b : bounds) : point := bmax b.
Definition getBottomLeft (b : bounds) : point := Point (px (bmin b)) (py (bmax b)).

Definition fromBounds (b : bounds) : point_set :=
  Flat [getTopLeft b; getTopRight b; getBottomRight b; getBottomLeft b].

Definition isFlat (s : point_set) : bool := match s with Flat _ => true | _ => false end.

Definition empty (s : point_set) : bool :=
  match s with NoPoints => true | Flat points => bool_decide (points = []) | Sets _ => false end.

(** [Math.round] of half pixels. *)
Definition round_half (x : Z) : Z := 2 * js_round_div x 2.
Definition round_point (p : point) : point := Point (round_half (px p)) (round_half (py p)).

Definition sum_of (f : point -> Z) (points : list point) : Z := foldr (fun p s => f p + s) 0 points.

(** A coordinate moves away from that of the reference point, which is the centroid - [total]
    divided by [n] - or infinite. *)
Definition move (centroidSymmetry : bool) (total n x offset : Z) : Z :=
  if negb centroidSymmetry || (x * n <? total) then x - offset else x + offset.

Definition offset_points (offset : point) (centroidSymmetry preRound : bool) (points : list point) : list point :=
  let n := Z.of_nat (length points) in
  let sx := sum_of px points in
  let sy := sum_of py points in
  map (fun p =>
    let q := if preRound then round_point p else p in
    Point (move centroidSymmetry sx n (px q) (px offset)) (move centroidSymmetry sy n (py q) (py offset))) points.

(** [applyOffset] *)
Fixpoint applyOffset (offset : point) (centroidSymmetry preRound : bool) (s : point_set) : point_set :=
  match s with
  | NoPoints => NoPoints
  | Flat points => Flat (offset_points offset centroidSymmetry preRound points)
  | Sets pointSets => Sets (List.map (applyOffset offset centroidSymmetry preRound) pointSets)
  end.

(** ** Rings *)

(** [calcRingsBounds]: the rings... *)
Fixpoint set_rings (s : point_set) : list (list point) :=
  match s with
  | NoPoints => []
  | Flat points => [points]
  | Sets pointSets => List.flat_map set_rings pointSets
  end.

(** ... and the bounds; [None]: not valid. *)
Definition extend_bounds (b : option bounds) (p : point) : option bounds :=
  Some (match b with None => Bounds p p | Some b => bounds_extend b p end).

Definition points_bounds (points : list point) : option bounds := foldl extend_bounds None points.

(** [updateRingsBounds] *)
Definition updateRingsBounds (s : point_set) : list (list point) * option bounds :=
  if empty s then ([], None) else (set_rings s, points_bounds (concat (set_rings s))).

(** [CPolyline.getPoints] *)
Fixpoint getPoints (s : point_set) : list point :=
  match s with
  | NoPoints => []
  | Flat points => points
  | Sets [] => []
  | Sets (s :: _) => getPoints s
  end.

(** [CPolygon.anyRingBoundContains] *)
Definition anyRingBoundContains (rings : list (list point)) (corePxPoint : point) : bool :=
  existsb (fun ring => match points_bounds ring with
                       | Some b => contains_point b corePxPoint
                       | None => false
                       end) rings.

(** The closing point [CPolygon.updatePath] takes off a ring. *)
Definition drop_closing (ring : list point) : list point :=
  if (2 <=? length ring)%nat && bool_decide (head ring = last ring) then take (length ring - 1) ring else ring.

(** ** Rectangles *)

(** [CRectangle.boundsToPointSet]; [None]: bounds that are not valid. *)
Definition boundsToPointSet (b : option bounds) : point_set :=
  match b with
  | None => NoPoints
  | Some b => Flat [getTopLeft b; getTopRight b; getBottomRight b; getBottomLeft b; getTopLeft b]
  end.

Definition grow_bounds (b : bounds) (halfs : Z) : bounds :=
  mk_bounds (point_subtract (bmin b) (Point halfs halfs)) (point_add (bmax b) (Point halfs halfs)).

Definition shift_bounds (b : bounds) (halfs : Z) : bounds :=
  mk_bounds (point_subtract (bmin b) (Point halfs halfs)) (point_subtract (bmax b) (Point halfs halfs)).

(** [CCellCursor]: how many borders, and their bounds, with that of the contrast border. *)
Definition cursorWeight (weight : Z) : Z := if weight =? 1 then 2 else weight.

Definition cursor_borders (weight : Z) (b : bounds) : list bounds * bounds :=
  let cellBounds := shift_bounds b 1 in
  (map (fun idx => grow_bounds cellBounds (2 * idx)) (seqZ 0 (cursorWeight weight)), grow_bounds cellBounds (-2)).

(** [CCellSelection.setPointSet]: the borders and the contrast border. *)
Definition selection_borders (selectionWeight : Z) (s : point_set) : list point_set * point_set :=
  let outer := applyOffset (Point 1 1) false true s in
  (map (fun idx => applyOffset (Point (-2 * idx) (-2 * idx)) true false outer) (seqZ 0 selectionWeight),
   applyOffset (Point (-2 * selectionWeight) (-2 * selectionWeight)) true false outer).

(** ** The shade around an object *)

Definition fullWidth : Z := 2 * 1000000.
Definition fullHeight : Z := 2 * 1000000.

(** [CDarkOverlay.invertOleBounds] *)
Definition invertOleBounds (ole : bounds) : list bounds :=
  [mk_bounds (Point 0 0) (Point fullWidth (py (bmin ole)));
   mk_bounds (Point 0 (py (bmin ole))) (getBottomLeft ole);
   mk_bounds (getTopRight ole) (Point fullWidth (py (bmax ole)));
   mk_bounds (Point 0 (py (bmax ole))) (Point fullWidth fullHeight)].

(** [CDarkOverlay.setPointSet]: the bounds of the four rectangles. *)
Definition dark_rectangles (s : point_set) : option (list bounds) :=
  match s with
  | Flat points =>
      match points !! 0%nat, points !! 2%nat with
      | Some a, Some c => Some (invertOleBounds (mk_bounds a c))
      | _, _ => None
      end
  | _ => Some (replicate 4 (mk_bounds (Point 0 0) (Point 0 2)))
  end.

(** ** Bounds of points *)

Lemma points_bounds_from points b :
  foldl extend_bounds (Some b) points = Some (foldl bounds_extend b points).
Proof. revert b. induction points as [|p points IH]; intros b; simpl; [done|apply IH]. Qed.

Lemma bounds_extend_contains b p : valid_bounds b -> contains_point (bounds_extend b p) p = true.
Proof. unfold contains_point, valid_bounds. simpl. lia. Qed.

Lemma bounds_extend_mono b p q : contains_point b q = true -> contains_point (bounds_extend b p) q = true.
Proof. unfold contains_point. simpl. lia. Qed.

Lemma bounds_extend_valid b p : valid_bounds b -> valid_bounds (bounds_extend b p).
Proof. unfold valid_bounds. simpl. lia. Qed.

Lemma extend_all_mono points b q : contains_point b q = true -> contains_point (foldl bounds_extend b points) q = true.
Proof. revert b. induction points as [|p points IH]; intros b Hq; simpl; [done|]. by apply IH, bounds_extend_mono. Qed.

Lemma extend_all_contains points b q :
  valid_bounds b -> q ∈ points -> contains_point (foldl bounds_extend b points) q = true.
Proof.
  revert b. induction points as [|p points IH]; intros b Hb; [by intros ?%elem_of_nil|].
  intros [->|Hq]%elem_of_cons; simpl.
  - by apply extend_all_mono, bounds_extend_contains.
  - apply IH; [by apply bounds_extend_valid|done].
Qed.

(** The bounds are the least that contain all points. *)
Lemma extend_all_least points b c :
  contains_bounds c b = true -> Forall (fun p => contains_point c p = true) points ->
  contains_bounds c (foldl bounds_extend b points) = true.
Proof.
  revert b. induction points as [|p points IH]; intros b Hb Hf; simpl; [done|].
  apply Forall_cons in Hf as [Hp Hf]. apply IH; [|done]. unfold contains_bounds, contains_point in *. simpl. lia.
Qed.

(** The bounds of a shape are the least that contain all points of its rings, and a shape
    without points has none. *)
Theorem ring_bounds_least s :
  match (updateRingsBounds s).2 with
  | None => concat (updateRingsBounds s).1 = []
  | Some b =>
      (forall ring p, ring ∈ (updateRingsBounds s).1 -> p ∈ ring -> contains_point b p = true) /\
      forall c, (forall ring p, ring ∈ (updateRingsBounds s).1 -> p ∈ ring -> contains_point c p = true) ->
        contains_bounds c b = true
  end.
Proof.
  unfold updateRingsBounds. destruct (empty s); [done|]. cbn [fst snd].
  set (rings := set_rings s). clearbody rings. unfold points_bounds.
  assert (Hin : forall p, p ∈ concat rings <-> exists ring, ring ∈ rings /\ p ∈ ring).
  { intros p. rewrite list_elem_of_In, in_concat. split; intros (r & H1 & H2); exists r; by rewrite !list_elem_of_In in *. }
  destruct (concat rings) as [|p points] eqn:E; [done|]. cbn [foldl]. unfold extend_bounds at 2.
  rewrite points_bounds_from. split.
  - intros ring q Hr Hq. assert (q ∈ p :: points) as [->|Hq']%elem_of_cons by (apply Hin; eauto).
    + apply extend_all_mono. unfold contains_point. simpl. lia.
    + apply extend_all_contains; [split; simpl; lia|done].
  - intros c Hc. assert (Hall : Forall (fun q => contains_point c q = true) (p :: points)).
    { apply Forall_forall. intros q (ring & Hr & Hq)%Hin. by apply (Hc ring). }
    apply Forall_cons in Hall as [Hp Hall]. apply extend_all_least; [|done].
    unfold contains_bounds, contains_point in *. simpl. lia.
Qed.

(** ** Borders of a rectangle *)

(** A ring along a rectangle: every point is one of its corners, on each side is one. *)
Record around (b : bounds) (ring : list point) : Prop := {
  ar_x : Forall (fun p => px p = px (bmin b) \/ px p = px (bmax b)) ring;
  ar_y : Forall (fun p => py p = py (bmin b) \/ py p = py (bmax b)) ring;
  ar_left : exists p, p ∈ ring /\ px p = px (bmin b);
  ar_right : exists p, p ∈ ring /\ px p = px (bmax b);
  ar_top : exists p, p ∈ ring /\ py p = py (bmin b);
  ar_bottom : exists p, p ∈ ring /\ py p = py (bmax b)
}.

(** What a corner becomes when each side moves inwards by [k]. *)
Definition inset (b : bounds) (k : Z) (p : point) : point :=
  Point (if px p =? px (bmin b) then px p + k else px p - k) (if py p =? py (bmin b) then py p + k else py p - k).

(** The mean of values that are [a] or [c], where both occur, is between them. *)
Lemma sum_between (f : point -> Z) a c l :
  a < c -> Forall (fun p => f p = a \/ f p = c) l ->
  a * Z.of_nat (length l) <= sum_of f l <= c * Z.of_nat (length l) /\
  ((exists p, p ∈ l /\ f p = c) -> a * Z.of_nat (length l) < sum_of f l) /\
  ((exists p, p ∈ l /\ f p = a) -> sum_of f l < c * Z.of_nat (length l)).
Proof.
  intros Hac. induction 1 as [|p l Hp _ (IH1 & IH2 & IH3)]; cbn [sum_of foldr length].
  - split_and!; [lia|lia| |]; intros (p & Hp%elem_of_nil & _); done.
  - fold (sum_of f l). rewrite Nat2Z.inj_succ. split_and!; [lia|lia| |].
    + intros (q & [->|Hq]%elem_of_cons & Hf); [lia|]. specialize (IH2 ltac:(eauto)). lia.
    + intros (q & [->|Hq]%elem_of_cons & Hf); [lia|]. specialize (IH3 ltac:(eauto)). lia.
Qed.

Lemma move_inwards a c total n x k :
  a * n < total < c * n -> x = a \/ x = c ->
  move true total n x (- k) = if x =? a then x + k else x - k.
Proof.
  intros Ht [->| ->]; unfold move; cbn [negb orb].
  - rewrite Z.eqb_refl, (proj2 (Z.ltb_lt _ _)) by lia. lia.
  - rewrite (proj2 (Z.ltb_ge _ _)) by lia. destruct (Z.eqb_spec c a) as [->|]; lia.
Qed.

(** The borders of a cell selection run inside each other: around a rectangle, each corner
    moves towards the middle by as many pixels, whatever the order of the corners in the ring
    and even if the first comes again at the end. *)
Theorem border_inset b ring k :
  px (bmin b) < px (bmax b) -> py (bmin b) < py (bmax b) -> around b ring ->
  applyOffset (Point (- k) (- k)) true false (Flat ring) = Flat (map (inset b k) ring).
Proof.
  intros Hx Hy [Ax Ay Al Ar At_ Ab]. cbn [applyOffset]. f_equal. unfold offset_points. cbv zeta. cbn [px py].
  destruct (sum_between px _ _ _ Hx Ax) as (_ & X1 & X2). destruct (sum_between py _ _ _ Hy Ay) as (_ & Y1 & Y2).
  apply map_ext_in. intros p Hp%list_elem_of_In. rewrite Forall_forall in Ax, Ay. unfold inset. f_equal.
  - apply (move_inwards _ (px (bmax b))); [auto|by apply Ax].
  - apply (move_inwards _ (py (bmax b))); [auto|by apply Ay].
Qed.

Definition sample_cell : bounds := Bounds (Point 200 40) (Point 360 80).

Lemma border_inset_witness :
  applyOffset (Point (-4) (-4)) true false (boundsToPointSet (Some sample_cell)) =
  boundsToPointSet (Some (Bounds (Point 204 44) (Point 356 76))).
Proof.
  apply (border_inset sample_cell [Point 200 40; Point 360 40; Point 360 80; Point 200 80; Point 200 40] 4);
    [reflexivity|reflexivity|]. split.
  - rewrite !Forall_cons. split_and!; try (cbn; lia). constructor.
  - rewrite !Forall_cons. split_and!; try (cbn; lia). constructor.
  - exists (Point 200 40). split; [by left|reflexivity].
  - exists (Point 360 40). split; [right; by left|reflexivity].
  - exists (Point 200 40). split; [by left|reflexivity].
  - exists (Point 360 80). split; [right; right; by left|reflexivity].
Defined.

(** The borders of a selected cell, two pixels wide, and the contrast border within. *)
Example selection_of_a_cell :
  selection_borders 2 (boundsToPointSet (Some sample_cell)) =
    ([boundsToPointSet (Some (Bounds (Point 199 39) (Point 359 79)));
      boundsToPointSet (Some (Bounds (Point 201 41) (Point 357 77)))],
     boundsToPointSet (Some (Bounds (Point 203 43) (Point 355 75)))).
Proof. reflexivity. Qed.

(** In a selection that is not convex corners move away from the inside: the border of
    this one, an L, leaves it at the top of its foot. *)
Definition l_shape : list point :=
  [Point 0 0; Point 40 0; Point 40 160; Point 400 160; Point 400 200; Point 0 200; Point 0 0].
Example concave_border_outside :
  applyOffset (Point (-4) (-4)) true false (Flat l_shape) =
    Flat [Point 4 4; Point 44 4; Point 44 156; Point 396 156; Point 396 196; Point 4 196; Point 4 4] /\
  evenodd 200 157 [l_shape] = false.
Proof. split; reflexivity. Qed.

(** ** Borders of the cell cursor *)

(** The borders of the cell cursor grow outwards from the cell by a pixel each; the contrast
    border is a pixel inside. *)
Theorem cursor_borders_grow weight b i c :
  valid_bounds b -> (cursor_borders weight b).1 !! i = Some c ->
  px (bmin c) = px (bmin b) - 1 - 2 * Z.of_nat i /\ px (bmax c) = px (bmax b) - 1 + 2 * Z.of_nat i /\
  py (bmin c) = py (bmin b) - 1 - 2 * Z.of_nat i /\ py (bmax c) = py (bmax b) - 1 + 2 * Z.of_nat i.
Proof.
  intros [Hx Hy] Hi. cbn [cursor_borders fst] in Hi. apply list_lookup_fmap_Some in Hi as (idx & -> & Hidx).
  apply lookup_seqZ in Hidx as [-> Hlt].
  unfold grow_bounds, shift_bounds, mk_bounds, bounds_extend, point_subtract, point_add. cbn [px py bmin bmax]. lia.
Qed.

(** A cursor one pixel wide is drawn as wide as one of two. *)
Example weight_one_is_two b : cursor_borders 1 b = cursor_borders 2 b.
Proof. reflexivity. Qed.

(** ** The shade *)

(** The shade around an embedded object leaves exactly the object out: a place of the
    area it can cover, a million pixels either way, is in the object or in one of the four
    rectangles, and never in two of them. *)
Theorem shade_complement ole x y :
  valid_bounds ole -> 0 <= px (bmin ole) -> 0 <= py (bmin ole) -> px (bmax ole) <= fullWidth -> py (bmax ole) <= fullHeight ->
  0 <= x < fullWidth -> 0 <= y < fullHeight ->
  length (filter (fun b => covers x y b = true) (ole :: invertOleBounds ole)) = 1%nat.
Proof.
  destruct ole as [[ax ay] [bx by_]]. unfold valid_bounds. cbn [px py bmin bmax]. intros [Hx Hy] H0 H1 H2 H3 Hpx Hpy.
  unfold invertOleBounds, getBottomLeft, getTopRight. cbn [px py bmin bmax].
  rewrite !mk_bounds_ordered by (cbn [px py]; lia). rewrite !filter_cons, filter_nil. unfold covers. cbn [px py bmin bmax].
  repeat case_decide; cbn [length]; lia.
Qed.

Lemma shade_complement_witness :
  length (filter (fun b => covers 500 300 b = true) (Bounds (Point 400 200) (Point 600 350) :: invertOleBounds (Bounds (Point 400 200) (Point 600 350)))) = 1%nat.
Proof. apply shade_complement; vm_compute; repeat split; discriminate. Defined.

(** Further down a sheet than a million pixels the object is shaded itself. *)
Example shade_covers_object :
  let ole := Bounds (Point 400 2400000) (Point 600 2400200) in
  existsb (covers 500 2400100) (invertOleBounds ole) = true /\ covers 500 2400100 ole = true.
Proof. split; reflexivity. Qed.
