(* ===== verification/TileCoords.v ===== *)
(** * Tile coordinates and keys

    [L.TileCoordData], its key and [parseKey], and the conversions between tile
    coordinates, document twips and pixel ranges of [L.CanvasTileLayer]
    (src/browser/src/layer/tile/CanvasTileLayer.js). *)

From S2P Require Import Prelude JsText JsObject Geometry.
Local Open Scope Z_scope.

(** ** [L.TileCoordData] *)

(** Top left corner in core pixels, zoom, part and mode. *)
Record coord := Coord { cx : Z; cy : Z; cz : Z; cpart : Z; cmode : Z }.

#[export] Instance coord_eq_dec : EqDecision coord.
Proof. solve_decision. Defined.

Definition getPos (c : coord) : point := Point (cx c) (cy c).

Definition key (c : coord) : string :=
  num_to_string (cx c) +:+ ":" +:+ num_to_string (cy c) +:+ ":" +:+ num_to_string (cz c)
  +:+ ":" +:+ num_to_string (cpart c) +:+ ":" +:+ num_to_string (cmode c).

Definition tileCoordsToKey (c : coord) : string := key c.

(** What parsing a key yields: fields may be [NaN]. *)
Record parsed_coord :=
  Parsed { kx : num; ky : num; kz : num; kpart : num; kmode : num }.

(** [+ k[i]]: [Number (undefined)] is [NaN]. *)
Definition nth_number (k : list string) (i : nat) : num := k !! i ≫= to_number.

Definition parseKey (s : string) : parsed_coord :=
  let k := split_on ":"%char s in
  let mode := if (length k =? 4)%nat then nth_number k 4 else Some 0 in
  Parsed (nth_number k 0) (nth_number k 1) (nth_number k 2) (nth_number k 3) mode.

Definition keyToTileCoords (s : string) : parsed_coord := parseKey s.

Definition of_coord (c : coord) : parsed_coord :=
  Parsed (Some (cx c)) (Some (cy c)) (Some (cz c)) (Some (cpart c)) (Some (cmode c)).

Definition with_mode (m : Z) (c : coord) : coord := Coord (cx c) (cy c) (cz c) (cpart c) m.

(** ** The tile grid of a layer *)

(** Sizes in pixels and twips; the code divides by the tile sizes, which are
    positive once the layer is set up ([grid_ok]). *)
Record grid := Grid {
  tileSize : Z;
  tileWidthTwips : Z;
  tileHeightTwips : Z;
  docWidthTwips : Z;
  docHeightTwips : Z
}.

Definition grid_ok (g : grid) : Prop :=
  0 < tileSize g /\ 0 < tileWidthTwips g /\ 0 < tileHeightTwips g.

Definition pxBoundsToTileRange (g : grid) (b : bounds) : bounds :=
  mk_bounds
    (Point (js_floor_div (px (bmin b)) (tileSize g)) (js_floor_div (py (bmin b)) (tileSize g)))
    (Point (js_floor_div (px (bmax b)) (tileSize g)) (js_floor_div (py (bmax b)) (tileSize g))).

(** [panes] is [_splitPanesContext.getPxBoundList], when there are split panes. *)
Definition pxBoundsToTileRanges
    (g : grid) (panes : option (bounds -> list bounds)) (b : bounds) : list bounds :=
  match panes with
  | None => [pxBoundsToTileRange g b]
  | Some getPxBoundList => pxBoundsToTileRange g <$> getPxBoundList b
  end.

(** The position fields of a tile message. *)
Record tile_twips := TileTwips { tw_x : Z; tw_y : Z; tw_tileWidth : Z; tw_tileHeight : Z }.

Definition twipsToCoords (g : grid) (t : tile_twips) : point :=
  Point (js_round_div (tw_x t) (tw_tileWidth t) * tileSize g)
        (js_round_div (tw_y t) (tw_tileHeight t) * tileSize g).

Definition coordsToTwips (g : grid) (c : coord) : point :=
  Point (js_floor_div (cx c) (tileSize g) * tileWidthTwips g)
        (js_floor_div (cy c) (tileSize g) * tileHeightTwips g).

(** [(x / tileSize) * tileWidthTwips > docWidthTwips] without the division. *)
Definition isValidTile (g : grid) (c : coord) : bool :=
  if (cx c <? 0) || (cy c <? 0) then false
  else if (docWidthTwips g * tileSize g <? cx c * tileWidthTwips g)
          || (docHeightTwips g * tileSize g <? cy c * tileHeightTwips g) then false
  else true.

(** The fields of a parsed tile message [_tileMsgToCoords] reads. *)
Definition tileMsgToCoords (g : grid) (t : tile_twips) (zoom part : Z) (mode : option Z) : coord :=
  let p := twipsToCoords g t in
  Coord (px p) (py p) zoom part (default 0 mode).

Definition coordsToPixBounds (g : grid) (c : coord) : bounds :=
  let topLeft := Point (cx c) (cy c) in
  mk_bounds topLeft (point_add topLeft (Point (tileSize g) (tileSize g))).

(** A tile of the grid: its corner is a multiple of the tile size. *)
Definition aligned (g : grid) (c : coord) : Prop :=
  exists i j, cx c = i * tileSize g /\ cy c = j * tileSize g.

(** ** Keys *)

Lemma key_join c :
  key c = join ":" [num_to_string (cx c); num_to_string (cy c); num_to_string (cz c);
                    num_to_string (cpart c); num_to_string (cmode c)].
Proof. done. Qed.

Lemma split_key c :
  split_on ":"%char (key c) =
  [num_to_string (cx c); num_to_string (cy c); num_to_string (cz c);
   num_to_string (cpart c); num_to_string (cmode c)].
Proof.
  rewrite key_join. apply (split_on_join ":"%char); [done|].
  repeat constructor; apply num_to_string_no_sep; right; left; vm_compute; done.
Qed.

#[export] Instance key_inj : Inj (=) (=) key.
Proof.
  intros [] [] E. apply (f_equal (split_on ":"%char)) in E. rewrite !split_key in E.
  simplify_eq/=. done.
Qed.

(** A tile key is never an array index, so tiles enumerate in creation order. *)
Lemma key_index_key c : key_index (key c) = None.
Proof.
  unfold key_index. destruct (to_number (key c)) as [n|]; [|done].
  destruct (String.eqb_spec (num_to_string n) (key c)) as [E|]; [|by rewrite andb_false_r].
  exfalso. apply (f_equal (no_char ":"%char)) in E.
  rewrite num_to_string_no_sep in E by (right; left; vm_compute; done).
  unfold no_char, key in E. rewrite !str_forall_app in E.
  simpl in E. by rewrite andb_false_r in E.
Qed.

Lemma tileMsgToCoords_inverse g c :
  grid_ok g -> aligned g c ->
  tileMsgToCoords g (TileTwips (px (coordsToTwips g c)) (py (coordsToTwips g c))
                               (tileWidthTwips g) (tileHeightTwips g))
                  (cz c) (cpart c) (Some (cmode c)) = c.
Proof.
  intros (Hs & Hw & Hh) (i & j & Hx & Hy).
  unfold tileMsgToCoords, twipsToCoords, coordsToTwips, js_floor_div. simpl.
  rewrite Hx, Hy, !Z.div_mul, !js_round_div_mul by lia.
  destruct c; simpl in *; congruence.
Qed.

(** ** Properties *)

(** Parsing a tile's key gives back its position, zoom and part; the
    mode always comes back as 0 (see [parseKey_loses_mode]). *)
Theorem parseKey_key c : parseKey (key c) = of_coord (with_mode 0 c).
Proof.
  unfold parseKey. rewrite split_key. unfold nth_number. simpl.
  by rewrite !to_number_num_to_string.
Qed.

(** [parseKey] reads the mode only from keys of four fields, which no
    key has: a tile of another mode than 0 does not survive the round trip. *)
Theorem parseKey_loses_mode c : cmode c <> 0 -> parseKey (key c) <> of_coord c.
Proof. intros Hm E. rewrite parseKey_key in E. destruct c; simplify_eq/=. Qed.

Lemma parseKey_loses_mode_witness :
  cmode (Coord 256 512 10 3 1) <> 0 /\
  parseKey (key (Coord 256 512 10 3 1)) <> of_coord (Coord 256 512 10 3 1).
Proof. split; [done|]. apply parseKey_loses_mode. done. Defined.

(** C37: Different tiles have different keys: storing tiles by key never
    confuses two tiles. *)
Theorem key_injective c1 c2 : key c1 = key c2 <-> c1 = c2.
Proof. split; [apply key_inj|by intros ->]. Qed.

(** The position the client requests for a tile of the grid, echoed by
    the server with the tile size of the request, is mapped back to that tile. *)
Theorem tileMsgToCoords_coordsToTwips g c :
  grid_ok g -> aligned g c ->
  tileMsgToCoords g (TileTwips (px (coordsToTwips g c)) (py (coordsToTwips g c))
                               (tileWidthTwips g) (tileHeightTwips g))
                  (cz c) (cpart c) (Some (cmode c)) = c.
Proof. apply tileMsgToCoords_inverse. Qed.

Lemma tileMsgToCoords_coordsToTwips_witness :
  let g := Grid 256 3840 3840 12240 15840 in
  let c := Coord 512 256 10 2 1 in
  tileMsgToCoords g (TileTwips (px (coordsToTwips g c)) (py (coordsToTwips g c))
                               (tileWidthTwips g) (tileHeightTwips g))
                  (cz c) (cpart c) (Some (cmode c)) = c.
Proof.
  apply tileMsgToCoords_coordsToTwips; [vm_compute; done|]. exists 2, 1. done.
Defined.

(** The tile range of a pixel area is exactly the set of tiles that
    contain one of its pixels. *)
Theorem pxBoundsToTileRange_spec g b i j :
  grid_ok g -> valid_bounds b ->
  contains_point (pxBoundsToTileRange g b) (Point i j) = true <->
  exists p, contains_point b p = true /\
    i * tileSize g <= px p < (i + 1) * tileSize g /\
    j * tileSize g <= py p < (j + 1) * tileSize g.
Proof.
  intros (Hs & _) [Hx Hy]. unfold pxBoundsToTileRange, js_floor_div.
  rewrite mk_bounds_ordered by (simpl; apply Z.div_le_mono; lia).
  unfold contains_point; simpl.
  pose proof (fun a q => proj1 (floor_div_iff a (tileSize g) q Hs)) as Hdiv.
  pose proof (Hdiv (px (bmin b)) _ eq_refl). pose proof (Hdiv (px (bmax b)) _ eq_refl).
  pose proof (Hdiv (py (bmin b)) _ eq_refl). pose proof (Hdiv (py (bmax b)) _ eq_refl).
  split.
  - intros Hin. exists (Point (Z.max (px (bmin b)) (i * tileSize g))
                            (Z.max (py (bmin b)) (j * tileSize g))). simpl.
    to_prop. split; [|nia]. repeat (apply andb_true_iff; split); apply Z.leb_le; nia.
  - intros (p & Hp & Hi & Hj). to_prop.
    repeat (apply andb_true_iff; split); apply Z.leb_le; nia.
Qed.

Lemma pxBoundsToTileRange_spec_witness :
  let g := Grid 256 3840 3840 12240 15840 in
  contains_point (pxBoundsToTileRange g (Bounds (Point 100 0) (Point 600 255))) (Point 2 0) = true.
Proof.
  apply pxBoundsToTileRange_spec; [vm_compute; done|vm_compute; done|].
  exists (Point 600 255). vm_compute. done.
Defined.
