(* ===== verification/Tiles.v ===== *)
(** * The tile store

    The tiles [L.CanvasTileLayer] keeps in [this._tiles], the count of tiles
    still without content, and the operations that create, remove, invalidate
    and garbage-collect them (src/browser/src/layer/tile/CanvasTileLayer.js).
    Debug logging and debug counters are left out. *)

From S2P Require Import Prelude Sorts JsText JsObject Geometry TileCoords.
Local Open Scope Z_scope.

(** ** Data *)

(** Pixel and delta data are lists of bytes. [canvas] holds the pixels drawn on
    the tile's canvas, when one is allocated. *)
Record content := Content {
  canvas : option (list Z);
  imgDataCache : option (list Z);
  rawDeltas : option (list Z)
}.

Record stats := Stats {
  deltaCount : Z; updateCount : Z; loadCount : Z;
  gcErrors : Z; missingContent : Z; invalidateCount : Z
}.

Record tile := Tile {
  coords : coord;
  current : bool;
  data : content;
  tstats : stats;
  viewId : option string;
  wireId : num;
  invalidFrom : num;
  lastRendered : num
}.

(** Field updates. *)
Definition set_coords (c : coord) (t : tile) : tile :=
  Tile c (current t) (data t) (tstats t) (viewId t) (wireId t) (invalidFrom t) (lastRendered t).
Definition set_current (b : bool) (t : tile) : tile :=
  Tile (coords t) b (data t) (tstats t) (viewId t) (wireId t) (invalidFrom t) (lastRendered t).
Definition set_data (d : content) (t : tile) : tile :=
  Tile (coords t) (current t) d (tstats t) (viewId t) (wireId t) (invalidFrom t) (lastRendered t).
Definition set_stats (s : stats) (t : tile) : tile :=
  Tile (coords t) (current t) (data t) s (viewId t) (wireId t) (invalidFrom t) (lastRendered t).
Definition set_viewId (v : option string) (t : tile) : tile :=
  Tile (coords t) (current t) (data t) (tstats t) v (wireId t) (invalidFrom t) (lastRendered t).
Definition set_wireId (w : num) (t : tile) : tile :=
  Tile (coords t) (current t) (data t) (tstats t) (viewId t) w (invalidFrom t) (lastRendered t).
Definition set_invalidFrom (w : num) (t : tile) : tile :=
  Tile (coords t) (current t) (data t) (tstats t) (viewId t) (wireId t) w (lastRendered t).
Definition set_lastRendered (n : num) (t : tile) : tile :=
  Tile (coords t) (current t) (data t) (tstats t) (viewId t) (wireId t) (invalidFrom t) n.

Definition incr_invalidateCount (s : stats) : stats :=
  Stats (deltaCount s) (updateCount s) (loadCount s) (gcErrors s) (missingContent s)
        (invalidateCount s + 1).
Definition incr_gcErrors (s : stats) : stats :=
  Stats (deltaCount s) (updateCount s) (loadCount s) (gcErrors s + 1) (missingContent s)
        (invalidateCount s).

Record store := Store {
  tiles : obj tile;
  emptyTilesCount : Z;
  gcCounter : Z
}.

Definition set_tiles (o : obj tile) (s : store) : store :=
  Store o (emptyTilesCount s) (gcCounter s).

(** Mutate the tile stored under a key. *)
Definition alter_tile (f : tile -> tile) (k : string) (s : store) : store :=
  set_tiles (obj_alter f k (tiles s)) s.

(** ** Tile methods *)

Definition hasKeyframe (d : content) : bool :=
  match rawDeltas d with Some l => negb (length l =? 0)%nat | None => false end.

Definition hasContent (d : content) : bool :=
  (match imgDataCache d with Some _ => true | None => false end) || hasKeyframe d.

Definition needsFetch (t : tile) : bool :=
  num_geb (invalidFrom t) (wireId t) || negb (hasContent (data t)).

(** ** Store operations *)

Definition new_tile (c : coord) (now : num) : tile :=
  Tile c true (Content None None None) (Stats 0 0 0 0 0 0) None (Some 0) (Some 0) now.

Definition createTile (c : coord) (k : string) (now : num) (s : store) : store :=
  match obj_get k (tiles s) with
  | Some _ => s
  | None =>
      Store (obj_set k (new_tile c now) (tiles s)) (emptyTilesCount s + 1) (gcCounter s)
  end.

Definition tileNeedsFetch (k : string) (s : store) : bool :=
  match obj_get k (tiles s) with Some t => needsFetch t | None => true end.

Definition reclaimTileCanvasMemory (t : tile) : tile :=
  set_data (Content None None (rawDeltas (data t))) t.

Definition removeTile (k : string) (s : store) : store :=
  match obj_get k (tiles s) with
  | None => s
  | Some t =>
      let count :=
        if negb (hasContent (data t)) && (0 <? emptyTilesCount s)
        then emptyTilesCount s - 1 else emptyTilesCount s in
      Store (obj_del k (tiles s)) count (gcCounter s)
  end.

Definition removeAllTiles (s : store) : store :=
  foldl (fun s k => removeTile k s) s (own_keys (tiles s)).

(** [wid]: the message's [wid] field, a string or undefined. *)
Definition invalidateTile (k : string) (wid : option string) (s : store) : store :=
  match obj_get k (tiles s) with
  | None => s
  | Some t =>
      let s1 := alter_tile (fun t => set_stats (incr_invalidateCount (tstats t)) t) k s in
      if negb (hasContent (data t)) then removeTile k s1
      else
        match wid with
        | Some w =>
            if String.eqb w "" then alter_tile (fun t => set_invalidFrom (wireId t) t) k s1
            else alter_tile (set_invalidFrom (to_number w)) k s1
        | None => alter_tile (fun t => set_invalidFrom (wireId t) t) k s1
        end
  end.

Definition refreshTilesInBackground (s : store) : store :=
  set_tiles (obj_imap (fun _ t => set_invalidFrom (Some 0) (set_wireId (Some 0) t)) (tiles s)) s.

(** ** Garbage collection *)

(** The number a named property of a string primitive converts to. *)
Definition string_property (s name : string) : num :=
  if String.eqb name "length" then Some (Z.of_nat (String.length s)) else None.

Definition by_lastRendered (a b : string) : num :=
  num_sub (string_property b "lastRendered") (string_property a "lastRendered").

Definition highNumCanvases : nat := 250.
Definition lowNumCanvases : nat := 125.
Definition highDeltaMemory : Z := 120 * 1024 * 1024.
Definition lowDeltaMemory : Z := 60 * 1024 * 1024.
Definition highTileCount : nat := Z.to_nat (2 * 1024).
Definition lowTileCount : nat := Z.to_nat 1024.

Definition has_canvas (t : tile) : bool :=
  match canvas (data t) with Some _ => true | None => false end.

Definition delta_size (t : tile) : Z :=
  match rawDeltas (data t) with Some l => Z.of_nat (length l) | None => 0 end.

Definition tile_has_canvas (s : store) (k : string) : bool :=
  match obj_get k (tiles s) with Some t => has_canvas t | None => false end.

Definition tile_delta_size (s : store) (k : string) : Z :=
  match obj_get k (tiles s) with Some t => delta_size t | None => 0 end.

Definition total_delta_size (s : store) (ks : list string) : Z :=
  foldr (fun k n => tile_delta_size s k + n) 0 ks.

(** Trim the canvases. *)
Definition gc_canvases (canvasKeys : list string) (s : store) : store :=
  if (highNumCanvases <? length canvasKeys)%nat then
    foldl (fun s k => alter_tile reclaimTileCanvasMemory k s) s
          (take (length canvasKeys - lowNumCanvases) canvasKeys)
  else s.

(** Drop a tile's deltas; the next fetch asks for a keyframe. *)
Definition drop_deltas (t : tile) : tile :=
  set_invalidFrom (Some 0) (set_wireId (Some 0) (set_data (Content None None None) t)).

Fixpoint gc_deltas (ks : list string) (totalSize : Z) (s : store) : store :=
  match ks with
  | [] => s
  | k :: ks' =>
      if lowDeltaMemory <? totalSize then
        match obj_get k (tiles s) with
        | Some t =>
            match rawDeltas (data t) with
            | Some l =>
                if negb (current t)
                then gc_deltas ks' (totalSize - Z.of_nat (length l)) (alter_tile drop_deltas k s)
                else gc_deltas ks' totalSize s
            | None => gc_deltas ks' totalSize s
            end
        | None => gc_deltas ks' totalSize s
        end
      else s
  end.

Definition gc_remove (k : string) (s : store) : store :=
  match obj_get k (tiles s) with
  | Some t => if negb (current t) then removeTile k s else s
  | None => s
  end.

Definition gc_tiles (ks : list string) (s : store) : store :=
  if (highTileCount <? length ks)%nat then
    foldl (fun s k => gc_remove k s) s (take (length ks - lowTileCount) ks)
  else s.

(** The first half of the collector, which trims canvases and deltas. *)
Definition gc_trim (keys : list string) (s : store) : store :=
  let canvasKeys := List.filter (tile_has_canvas s) keys in
  let totalSize := total_delta_size s keys in
  let s1 := gc_canvases canvasKeys s in
  if highDeltaMemory <? totalSize then gc_deltas keys totalSize s1 else s1.

Definition gc_keys (s : store) : list string := js_sort by_lastRendered (own_keys (tiles s)).

Definition garbageCollect (s : store) : store := gc_tiles (gc_keys s) (gc_trim (gc_keys s) s).

Definition maybeGarbageCollect (s : store) : store :=
  let s1 := Store (tiles s) (emptyTilesCount s) (gcCounter s + 1) in
  if gcCounter s1 mod 53 =? 0 then garbageCollect s1 else s1.

(** ** The store invariant *)

Definition contentless (t : tile) : Z := Z.b2z (negb (hasContent (data t))).

(** Tiles sit under their own key, each once, and the count of empty tiles never
    exceeds the number of tiles without content. *)
Record store_ok (s : store) : Prop := {
  ok_wf : obj_wf (tiles s);
  ok_keyed : forall k t, obj_get k (tiles s) = Some t -> key (coords t) = k;
  ok_count : 0 <= emptyTilesCount s <= obj_sum contentless (tiles s)
}.

Definition empty_store : store := Store [] 0 0.

Lemma contentless_bool t : 0 <= contentless t <= 1.
Proof. unfold contentless. destruct (negb _); simpl; lia. Qed.

Lemma obj_sum_contentless_nonneg o : 0 <= obj_sum contentless o.
Proof. apply obj_sum_nonneg. intros t. pose proof (contentless_bool t). lia. Qed.

Lemma empty_store_ok : store_ok empty_store.
Proof. split; simpl; [apply obj_wf_nil|done|unfold obj_sum; simpl; lia]. Qed.

(** Invariants about how the store is keyed only depend on its entries. *)
Lemma store_ok_intro s s' :
  store_ok s -> obj_wf (tiles s') ->
  (forall k t, obj_get k (tiles s') = Some t ->
     exists t0, obj_get k (tiles s) = Some t0 /\ coords t = coords t0) ->
  0 <= emptyTilesCount s' <= obj_sum contentless (tiles s') -> store_ok s'.
Proof.
  intros Hok Hwf Hk Hc. split; [done| |done].
  intros k t (t0 & Hg & ->)%Hk. by apply (ok_keyed s Hok).
Qed.

(** Any update of one tile that keeps its coordinates, followed by the
    decrement of the count the update calls for. *)
Lemma store_ok_alter f k t s count :
  store_ok s -> obj_get k (tiles s) = Some t -> coords (f t) = coords t ->
  0 <= count <= emptyTilesCount s ->
  (count = emptyTilesCount s -> emptyTilesCount s = 0 \/ contentless t <= contentless (f t)) ->
  store_ok (Store (obj_alter f k (tiles s)) count (gcCounter s)).
Proof.
  intros Hok Hg Hco Hcount Hsame.
  apply (store_ok_intro s); simpl; [done|apply obj_wf_alter, Hok|..].
  - intros k' t'. rewrite obj_get_alter. case_decide as Hk; [subst k'|by eauto].
    rewrite Hg. intros [= <-]. eauto.
  - rewrite (obj_sum_alter contentless f k t) by (done || apply Hok).
    pose proof (ok_count s Hok). pose proof (contentless_bool t).
    pose proof (contentless_bool (f t)).
    pose proof (obj_sum_contentless_nonneg (obj_alter f k (tiles s))) as Hnn.
    rewrite (obj_sum_alter contentless f k t) in Hnn by (done || apply Hok).
    destruct (Z.eq_dec count (emptyTilesCount s)) as [->|]; [|lia].
    destruct (Hsame eq_refl); lia.
Qed.

Lemma store_ok_alter_tile f k s :
  (forall t, coords (f t) = coords t) ->
  (forall t, contentless t <= contentless (f t)) ->
  store_ok s -> store_ok (alter_tile f k s).
Proof.
  intros Hco Hcl Hok. unfold alter_tile, set_tiles.
  destruct (obj_get k (tiles s)) as [t|] eqn:Hg.
  - apply (store_ok_alter f k t); auto. pose proof (ok_count s Hok). lia.
  - apply obj_get_None in Hg. rewrite obj_alter_absent by done. by destruct s.
Qed.

Lemma own_keys_tiles s : store_ok s -> own_keys (tiles s) = obj_keys (tiles s).
Proof.
  intros Hok. apply own_keys_order_insertion. apply Forall_forall.
  intros k [t Hg]%obj_get_is_Some. rewrite <- (ok_keyed s Hok k t Hg). apply key_index_key.
Qed.

(** *** Preservation by the store operations *)

Lemma createTile_ok c now s : store_ok s -> store_ok (createTile c (key c) now s).
Proof.
  intros Hok. unfold createTile. destruct (obj_get (key c) (tiles s)) eqn:Hg; [done|].
  pose proof Hg as Hnew. apply obj_get_None in Hnew. split; simpl.
  - apply obj_wf_set, Hok.
  - intros k t. rewrite obj_get_set. case_decide; [by intros [= <-]|apply Hok].
  - rewrite obj_sum_set_new by done. pose proof (ok_count s Hok).
    change (contentless (new_tile c now)) with 1. lia.
Qed.

Lemma removeTile_ok k s : store_ok s -> store_ok (removeTile k s).
Proof.
  intros Hok. unfold removeTile. destruct (obj_get k (tiles s)) as [t|] eqn:Hg; [|done].
  apply (store_ok_intro s); simpl; [done|apply obj_wf_del, Hok|..].
  - intros k' t'. rewrite obj_get_del. case_decide; [done|]. by eauto.
  - rewrite (obj_sum_del contentless k t) by (done || apply Hok).
    pose proof (ok_count s Hok).
    pose proof (obj_sum_contentless_nonneg (obj_del k (tiles s))) as Hnn.
    rewrite (obj_sum_del contentless k t) in Hnn by (done || apply Hok).
    unfold contentless at 2 in Hnn. unfold contentless at 2.
    destruct (hasContent (data t)); simpl in *; [lia|].
    destruct (Z.ltb_spec 0 (emptyTilesCount s)); lia.
Qed.

Lemma removeAllTiles_ok s : store_ok s -> store_ok (removeAllTiles s).
Proof.
  unfold removeAllTiles. generalize (own_keys (tiles s)) as ks. intros ks. revert s.
  induction ks as [|k ks IH]; simpl; auto using removeTile_ok.
Qed.

Lemma invalidateTile_ok k wid s : store_ok s -> store_ok (invalidateTile k wid s).
Proof.
  intros Hok. unfold invalidateTile. destruct (obj_get k (tiles s)) as [t|] eqn:Hg; [|done].
  assert (store_ok (alter_tile (fun t => set_stats (incr_invalidateCount (tstats t)) t) k s)).
  { by apply store_ok_alter_tile. }
  destruct (negb (hasContent (data t))); [by apply removeTile_ok|].
  destruct wid as [w|]; [destruct (String.eqb w "")|]; by apply store_ok_alter_tile.
Qed.

Lemma set_tiles_imap_ok f s :
  (forall k t, coords (f k t) = coords t) -> (forall k t, contentless (f k t) = contentless t) ->
  store_ok s -> store_ok (set_tiles (obj_imap f (tiles s)) s).
Proof.
  intros Hco Hcl Hok. apply (store_ok_intro s); simpl; [done|apply obj_wf_imap, Hok|..].
  - intros k t. rewrite obj_get_imap. destruct (obj_get k (tiles s)) as [t0|]; [|done].
    intros [= <-]. eauto.
  - rewrite obj_sum_imap by done. apply Hok.
Qed.

Lemma refreshTilesInBackground_ok s : store_ok s -> store_ok (refreshTilesInBackground s).
Proof. by apply set_tiles_imap_ok. Qed.

(** *** Garbage collection: induction over its steps *)

Lemma js_sort_by_lastRendered l : js_sort by_lastRendered l = l.
Proof.
  induction l as [|k l IH]; [done|]. unfold js_sort in *. simpl. rewrite IH.
  destruct l; [done|]. unfold js_insert, cmp_le, by_lastRendered. done.
Qed.

Section gc_ind.
Context (R : store -> Prop).
Context (Hreclaim : forall k s, R s -> R (alter_tile reclaimTileCanvasMemory k s)).
Context (Hdrop : forall k t s, R s -> obj_get k (tiles s) = Some t -> current t = false ->
                   R (alter_tile drop_deltas k s)).
Context (Hremove : forall k t s, R s -> obj_get k (tiles s) = Some t -> current t = false ->
                     R (removeTile k s)).

Lemma gc_canvases_ind ks s : R s -> R (gc_canvases ks s).
Proof using Hreclaim.
  unfold gc_canvases. destruct (_ <? _)%nat; [|done].
  generalize (take (length ks - lowNumCanvases) ks) as l. intros l. revert s.
  induction l; simpl; auto.
Qed.

Lemma gc_deltas_ind ks total s : R s -> R (gc_deltas ks total s).
Proof using Hdrop.
  revert total s. induction ks as [|k ks IH]; intros total s HR; simpl; [done|].
  destruct (lowDeltaMemory <? total); [|done].
  destruct (obj_get k (tiles s)) as [t|] eqn:Hg; [|auto].
  destruct (rawDeltas (data t)); [|auto].
  destruct (current t) eqn:Hc; simpl; eauto.
Qed.

Lemma gc_tiles_ind ks s : R s -> R (gc_tiles ks s).
Proof using Hremove.
  unfold gc_tiles. destruct (_ <? _)%nat; [|done].
  generalize (take (length ks - lowTileCount) ks) as l. intros l. revert s.
  induction l as [|k l IH]; simpl; [done|]. intros s HR. apply IH. unfold gc_remove.
  destruct (obj_get k (tiles s)) as [t|] eqn:Hg; [|done].
  destruct (current t) eqn:Hc; simpl; eauto.
Qed.

Lemma garbageCollect_ind s : R s -> R (garbageCollect s).
Proof using Hreclaim Hdrop Hremove.
  intros HR. unfold garbageCollect, gc_trim. apply gc_tiles_ind.
  destruct (_ <? _); [apply gc_deltas_ind|]; by apply gc_canvases_ind.
Qed.
End gc_ind.

Lemma contentless_no_data t : contentless (set_data (Content None None None) t) = 1.
Proof. done. Qed.

Lemma reclaim_ok k s : store_ok s -> store_ok (alter_tile reclaimTileCanvasMemory k s).
Proof.
  apply store_ok_alter_tile; [done|]. intros t. unfold contentless, hasContent, hasKeyframe; simpl.
  destruct (imgDataCache (data t)) as [?|], (rawDeltas (data t)) as [d|]; simpl;
    try destruct (length d =? 0)%nat; simpl; lia.
Qed.

Lemma drop_deltas_ok k s : store_ok s -> store_ok (alter_tile drop_deltas k s).
Proof.
  apply store_ok_alter_tile; [done|]. intros t. pose proof (contentless_bool t).
  change (contentless (drop_deltas t)) with 1. lia.
Qed.

Lemma garbageCollect_ok s : store_ok s -> store_ok (garbageCollect s).
Proof. apply garbageCollect_ind; eauto using reclaim_ok, drop_deltas_ok, removeTile_ok. Qed.

Lemma maybeGarbageCollect_ok s : store_ok s -> store_ok (maybeGarbageCollect s).
Proof.
  intros [Hwf Hk Hc]. unfold maybeGarbageCollect. case_bool; [apply garbageCollect_ok|]; by split.
Qed.

#[export] Hint Resolve empty_store_ok createTile_ok removeTile_ok removeAllTiles_ok
  invalidateTile_ok refreshTilesInBackground_ok garbageCollect_ok maybeGarbageCollect_ok : oxool.

(** ** What garbage collection guarantees *)

Definition numCanvases (s : store) : Z := obj_sum (fun t => Z.b2z (has_canvas t)) (tiles s).
Definition deltaMemory (s : store) : Z := obj_sum delta_size (tiles s).
Definition numCurrent (s : store) : Z := obj_sum (fun t => Z.b2z (current t)) (tiles s).
Definition numTiles (s : store) : Z := Z.of_nat (length (tiles s)).

Lemma delta_size_nonneg t : 0 <= delta_size t.
Proof. unfold delta_size. destruct (rawDeltas _); lia. Qed.

Lemma numTiles_sum s : numTiles s = obj_sum (fun _ => 1) (tiles s).
Proof. unfold numTiles, obj_sum. induction (tiles s); simpl; lia. Qed.

Lemma numTiles_keys s : numTiles s = Z.of_nat (length (obj_keys (tiles s))).
Proof. unfold numTiles, obj_keys. by rewrite length_fmap. Qed.

(** The effect of the collector's two primitive steps on a sum over the tiles. *)
Lemma sum_alter_tile_wf f g k s :
  obj_wf (tiles s) ->
  obj_sum f (tiles (alter_tile g k s)) =
  obj_sum f (tiles s) +
  match obj_get k (tiles s) with Some t => f (g t) - f t | None => 0 end.
Proof.
  intros Hwf. unfold alter_tile; simpl. destruct (obj_get k (tiles s)) as [t|] eqn:Hg.
  - rewrite (obj_sum_alter f g k t) by done. lia.
  - apply obj_get_None in Hg. rewrite obj_alter_absent by done. lia.
Qed.

Lemma sum_removeTile_wf f k s :
  obj_wf (tiles s) ->
  obj_sum f (tiles (removeTile k s)) =
  obj_sum f (tiles s) - match obj_get k (tiles s) with Some t => f t | None => 0 end.
Proof.
  intros Hwf. unfold removeTile. destruct (obj_get k (tiles s)) as [t|] eqn:Hg; simpl; [|lia].
  by rewrite (obj_sum_del f k t) by done.
Qed.

Lemma sum_alter_tile f g k s :
  store_ok s ->
  obj_sum f (tiles (alter_tile g k s)) =
  obj_sum f (tiles s) +
  match obj_get k (tiles s) with Some t => f (g t) - f t | None => 0 end.
Proof. intros Hok. apply sum_alter_tile_wf, Hok. Qed.

Lemma sum_removeTile f k s :
  store_ok s ->
  obj_sum f (tiles (removeTile k s)) =
  obj_sum f (tiles s) - match obj_get k (tiles s) with Some t => f t | None => 0 end.
Proof. intros Hok. apply sum_removeTile_wf, Hok. Qed.

(** A sum no step of the collector increases. *)
Section gc_decreasing.
Context (f : tile -> Z).
Context (Hf : forall t, 0 <= f t).
Context (Hreclaim : forall t, f (reclaimTileCanvasMemory t) <= f t).
Context (Hdrop : forall t, f (drop_deltas t) <= f t).

Let R (n : Z) (s : store) : Prop := store_ok s /\ obj_sum f (tiles s) <= n.

Lemma R_reclaim n k s : R n s -> R n (alter_tile reclaimTileCanvasMemory k s).
Proof using Hreclaim.
  intros [Hok Hn]. split; [by apply reclaim_ok|]. rewrite sum_alter_tile by done.
  destruct (obj_get k (tiles s)) as [t|]; [specialize (Hreclaim t)|]; lia.
Qed.

Lemma R_drop n k t s :
  R n s -> obj_get k (tiles s) = Some t -> current t = false -> R n (alter_tile drop_deltas k s).
Proof using Hdrop.
  intros [Hok Hn] Hg _. split; [by apply drop_deltas_ok|]. rewrite sum_alter_tile, Hg by done.
  specialize (Hdrop t). lia.
Qed.

Lemma R_remove n k t s :
  R n s -> obj_get k (tiles s) = Some t -> current t = false -> R n (removeTile k s).
Proof using Hf.
  intros [Hok Hn] Hg _. split; [by apply removeTile_ok|]. rewrite sum_removeTile, Hg by done.
  specialize (Hf t). lia.
Qed.

Lemma gc_tiles_sum ks s : store_ok s -> obj_sum f (tiles (gc_tiles ks s)) <= obj_sum f (tiles s).
Proof using Hf.
  intros Hok. apply (gc_tiles_ind (R (obj_sum f (tiles s)))); [|by split].
  intros k t s'. apply R_remove.
Qed.

Lemma gc_deltas_sum ks n s :
  store_ok s -> obj_sum f (tiles (gc_deltas ks n s)) <= obj_sum f (tiles s).
Proof using Hdrop.
  intros Hok. apply (gc_deltas_ind (R (obj_sum f (tiles s)))); [|by split].
  intros k t s'. apply R_drop.
Qed.
End gc_decreasing.

Lemma gc_canvases_ok ks s : store_ok s -> store_ok (gc_canvases ks s).
Proof. apply gc_canvases_ind. eauto using reclaim_ok. Qed.

Lemma gc_deltas_ok ks n s : store_ok s -> store_ok (gc_deltas ks n s).
Proof. apply gc_deltas_ind. eauto using drop_deltas_ok. Qed.

(** The middle part of the collector. *)
Definition gc_memory (keys : list string) (total : Z) (s : store) : store :=
  if highDeltaMemory <? total then gc_deltas keys total s else s.

Lemma gc_memory_ok ks n s : store_ok s -> store_ok (gc_memory ks n s).
Proof. unfold gc_memory. case_bool; auto using gc_deltas_ok. Qed.

(** For a well-formed store the collector visits the keys in creation order. *)
Lemma garbageCollect_unfold s :
  store_ok s ->
  let keys := obj_keys (tiles s) in
  garbageCollect s =
    gc_tiles keys (gc_memory keys (deltaMemory s)
      (gc_canvases (List.filter (tile_has_canvas s) keys) s)).
Proof.
  intros Hok keys. unfold garbageCollect, gc_trim, gc_keys. rewrite js_sort_by_lastRendered, own_keys_tiles by done.
  assert (total_delta_size s (obj_keys (tiles s)) = deltaMemory s) as ->; [|done].
  apply (obj_sum_keys delta_size). apply Hok.
Qed.

(** *** Canvases *)

Lemma reclaim_fold_count ks s :
  store_ok s -> NoDup ks -> Forall (fun k => tile_has_canvas s k = true) ks ->
  numCanvases (foldl (fun s k => alter_tile reclaimTileCanvasMemory k s) s ks)
  = numCanvases s - Z.of_nat (length ks).
Proof.
  intros Hok Hnd. revert s Hok. induction Hnd as [|k ks Hk Hnd IH]; intros s Hok Hks; simpl; [lia|].
  apply Forall_cons in Hks as [Hc Hks].
  rewrite IH; [|by apply reclaim_ok|].
  - unfold numCanvases. rewrite sum_alter_tile by done. unfold tile_has_canvas in Hc.
    destruct (obj_get k (tiles s)) as [t|]; [|done]. rewrite Hc. simpl. lia.
  - rewrite Forall_forall in Hks |- *. intros k' Hin. pose proof (Hks k' Hin) as Hc'.
    unfold tile_has_canvas in *. simpl. rewrite obj_get_alter. case_decide; [by subst|done].
Qed.

Lemma length_canvas_keys s :
  store_ok s ->
  Z.of_nat (length (List.filter (tile_has_canvas s) (obj_keys (tiles s)))) = numCanvases s.
Proof.
  intros Hok. unfold numCanvases. rewrite <- obj_sum_keys by apply Hok.
  generalize (obj_keys (tiles s)) as ks. induction ks as [|k ks IH]; simpl; [done|].
  rewrite <- IH. unfold tile_has_canvas at 1.
  destruct (obj_get k (tiles s)) as [t|]; [|done]. destruct (has_canvas t); simpl; lia.
Qed.

Lemma gc_canvases_count s :
  store_ok s ->
  numCanvases (gc_canvases (List.filter (tile_has_canvas s) (obj_keys (tiles s))) s)
  = if Z.of_nat highNumCanvases <? numCanvases s then Z.of_nat lowNumCanvases else numCanvases s.
Proof.
  intros Hok. pose proof (length_canvas_keys s Hok) as Hlen. revert Hlen.
  set (cks := List.filter (tile_has_canvas s) (obj_keys (tiles s))). intros Hlen.
  unfold gc_canvases. destruct (Nat.ltb_spec highNumCanvases (length cks)) as [Hhi|Hhi];
    destruct (Z.ltb_spec (Z.of_nat highNumCanvases) (numCanvases s)); try lia.
  rewrite reclaim_fold_count; [|done| |].
  - rewrite length_take. unfold highNumCanvases, lowNumCanvases in *. lia.
  - eapply sublist_NoDup; [|apply sublist_take].
    apply NoDup_ListNoDup, List.NoDup_filter, NoDup_ListNoDup, Hok.
  - apply Forall_take. apply Forall_forall. intros k Hk.
    apply list_elem_of_In, List.filter_In in Hk as [_ Hk]. done.
Qed.

(** *** Delta memory *)

(** No tile that is out of view holds deltas. *)
Definition only_current_deltas (s : store) : Prop :=
  forall k t, obj_get k (tiles s) = Some t -> current t = false -> rawDeltas (data t) = None.

Lemma gc_deltas_bound ks s :
  store_ok s ->
  let s' := gc_deltas ks (deltaMemory s) s in
  deltaMemory s' <= lowDeltaMemory \/
  forall k t, k ∈ ks -> obj_get k (tiles s') = Some t -> current t = false ->
    rawDeltas (data t) = None.
Proof.
  cbv zeta. revert s. induction ks as [|k ks IH]; intros s Hok; simpl; [set_solver|].
  destruct (Z.ltb_spec lowDeltaMemory (deltaMemory s)); [|by left].
  (* once settled, a key stays settled *)
  assert (Hstay : forall n s0, (forall t, obj_get k (tiles s0) = Some t -> current t = false ->
                     rawDeltas (data t) = None) ->
                   forall t, obj_get k (tiles (gc_deltas ks n s0)) = Some t ->
                     current t = false -> rawDeltas (data t) = None).
  { intros n s0 H0. apply (gc_deltas_ind (fun s => forall t, obj_get k (tiles s) = Some t ->
      current t = false -> rawDeltas (data t) = None)); [|done].
    intros k' t' s1 H1 _ _ t. simpl. rewrite obj_get_alter. case_decide; [|by auto].
    subst. destruct (obj_get k (tiles s1)); [|done]. by intros [= <-]. }
  assert (Hgo : forall s1, store_ok s1 -> (forall t, obj_get k (tiles s1) = Some t ->
                  current t = false -> rawDeltas (data t) = None) ->
            deltaMemory (gc_deltas ks (deltaMemory s1) s1) <= lowDeltaMemory \/
            (forall k' t, k' ∈ k :: ks ->
               obj_get k' (tiles (gc_deltas ks (deltaMemory s1) s1)) = Some t ->
               current t = false -> rawDeltas (data t) = None)).
  { intros s1 Hok1 H1. destruct (IH s1 Hok1) as [?|Hks]; [by left|right].
    intros k' t [->|Hin]%elem_of_cons; [by apply Hstay|by apply Hks]. }
  destruct (obj_get k (tiles s)) as [t|] eqn:Hg; [|apply Hgo; [done|by rewrite Hg]].
  destruct (rawDeltas (data t)) as [l|] eqn:Hraw; [|apply Hgo; [done|rewrite Hg; intros ? [= <-]; congruence]].
  destruct (current t) eqn:Hc; simpl; [apply Hgo; [done|rewrite Hg; intros ? [= <-]; congruence]|].
  assert (deltaMemory s - Z.of_nat (length l) = deltaMemory (alter_tile drop_deltas k s)) as ->.
  { unfold deltaMemory. rewrite sum_alter_tile, Hg by done. unfold delta_size. rewrite Hraw.
    simpl. lia. }
  apply Hgo; [by apply drop_deltas_ok|]. simpl. intros t'. rewrite obj_get_alter.
  case_decide; [|done]. rewrite Hg. by intros [= <-].
Qed.

Lemma gc_canvases_memory ks s : deltaMemory (gc_canvases ks s) = deltaMemory s.
Proof.
  unfold gc_canvases. case_bool; [|done]. generalize (take (length ks - lowNumCanvases) ks) as l.
  intros l. revert s. induction l as [|k l IH]; intros s; simpl; [done|]. rewrite IH.
  unfold deltaMemory, alter_tile; simpl. unfold obj_sum, obj_alter.
  induction (tiles s) as [|[k' t] o IHo]; csimpl; [done|]. rewrite IHo.
  by destruct (String.eqb k' k).
Qed.

Lemma gc_canvases_keys ks s : obj_keys (tiles (gc_canvases ks s)) = obj_keys (tiles s).
Proof.
  apply (gc_canvases_ind (fun s' => obj_keys (tiles s') = obj_keys (tiles s))); [|done].
  intros k s' <-. apply obj_keys_alter.
Qed.

Lemma gc_memory_keys ks n s : obj_keys (tiles (gc_memory ks n s)) = obj_keys (tiles s).
Proof.
  unfold gc_memory. case_bool; [|done].
  apply (gc_deltas_ind (fun s' => obj_keys (tiles s') = obj_keys (tiles s))); [|done].
  intros k t s' <- _ _. apply obj_keys_alter.
Qed.

(** Removing tiles only removes tiles. *)
Lemma gc_tiles_get ks s k t :
  obj_get k (tiles (gc_tiles ks s)) = Some t -> obj_get k (tiles s) = Some t.
Proof.
  apply (gc_tiles_ind (fun s' => obj_get k (tiles s') = Some t -> obj_get k (tiles s) = Some t));
    [|done].
  intros k' t' s' IH _ _. unfold removeTile. destruct (obj_get k' (tiles s')); [simpl|done].
  rewrite obj_get_del. by case_decide.
Qed.

(** *** The number of tiles *)

Definition noncurrent (s : store) (k : string) : Z :=
  match obj_get k (tiles s) with Some t => Z.b2z (negb (current t)) | None => 0 end.

Lemma gc_remove_fold_count ks s :
  store_ok s -> NoDup ks ->
  numTiles (foldl (fun s k => gc_remove k s) s ks)
  = numTiles s - foldr (fun k n => noncurrent s k + n) 0 ks.
Proof.
  intros Hok Hnd. revert s Hok. induction Hnd as [|k ks Hk Hnd IH]; intros s Hok; simpl; [lia|].
  assert (Hok' : store_ok (gc_remove k s)).
  { unfold gc_remove. destruct (obj_get k (tiles s)) as [t|]; [|done].
    destruct (current t); simpl; auto using removeTile_ok. }
  rewrite IH by done.
  assert (numTiles (gc_remove k s) = numTiles s - noncurrent s k) as ->.
  { unfold noncurrent, gc_remove. rewrite !numTiles_sum.
    destruct (obj_get k (tiles s)) as [t|] eqn:Hg; [|lia].
    destruct (current t); simpl; [lia|]. rewrite sum_removeTile, Hg by done. lia. }
  assert (foldr (fun k' n => noncurrent (gc_remove k s) k' + n) 0 ks
          = foldr (fun k' n => noncurrent s k' + n) 0 ks) as ->; [|lia].
  clear IH Hnd. induction ks as [|k' ks IH]; simpl; [done|].
  apply not_elem_of_cons in Hk as [Hne Hk]. rewrite IH by done. f_equal.
  unfold noncurrent, gc_remove, removeTile. destruct (obj_get k (tiles s)) as [t|]; [|done].
  destruct (current t); simpl; [done|]. by rewrite obj_get_del_ne by congruence.
Qed.

Lemma count_noncurrent_take n s :
  store_ok s ->
  Z.of_nat (Nat.min n (length (obj_keys (tiles s)))) - numCurrent s
  <= foldr (fun k m => noncurrent s k + m) 0 (take n (obj_keys (tiles s))).
Proof.
  intros Hok. unfold numCurrent. rewrite <- obj_sum_keys by apply Hok.
  assert (Hks : Forall (fun k => is_Some (obj_get k (tiles s))) (obj_keys (tiles s))).
  { apply Forall_forall. intros k. apply obj_get_is_Some. }
  revert n. induction Hks as [|k ks [t Hg] Hks IH]; intros [|n]; simpl; try lia.
  - specialize (IH 0%nat). rewrite take_0 in IH. simpl in IH. rewrite Hg.
    destruct (current t); simpl; lia.
  - specialize (IH n). unfold noncurrent at 1. rewrite Hg. destruct (current t); simpl; lia.
Qed.

Lemma gc_tiles_count s :
  store_ok s ->
  numTiles (gc_tiles (obj_keys (tiles s)) s)
  <= Z.max (Z.of_nat highTileCount)
           (Z.of_nat lowTileCount + numCurrent s).
Proof.
  intros Hok. unfold gc_tiles. pose proof (numTiles_keys s) as Hn.
  destruct (Nat.ltb_spec highTileCount (length (obj_keys (tiles s)))); [|lia].
  rewrite gc_remove_fold_count; [|done|].
  - pose proof (count_noncurrent_take (length (obj_keys (tiles s)) - lowTileCount) s Hok).
    unfold highTileCount, lowTileCount in *. lia.
  - eapply sublist_NoDup; [|apply sublist_take]. apply Hok.
Qed.

(** *** Tiles in view are kept *)

Lemma gc_keeps_current s k t :
  obj_get k (tiles s) = Some t -> current t = true ->
  exists t', obj_get k (tiles (garbageCollect s)) = Some t' /\ current t' = true /\
    rawDeltas (data t') = rawDeltas (data t) /\ wireId t' = wireId t /\
    invalidFrom t' = invalidFrom t.
Proof.
  intros Hg Hc.
  apply (garbageCollect_ind (fun s => exists t', obj_get k (tiles s) = Some t' /\ current t' = true /\
    rawDeltas (data t') = rawDeltas (data t) /\ wireId t' = wireId t /\ invalidFrom t' = invalidFrom t)).
  - intros k' s' (t' & Hg' & Ht'). simpl. rewrite obj_get_alter, Hg'.
    case_decide; simpl; [by exists (reclaimTileCanvasMemory t')|by exists t'].
  - intros k' u s' (t' & Hg' & Hcur & Ht') Hu Hcu. exists t'. simpl. rewrite obj_get_alter, Hg'.
    case_decide; [|done]. subst. congruence.
  - intros k' u s' (t' & Hg' & Hcur & Ht') Hu Hcu. exists t'. unfold removeTile. rewrite Hu. simpl.
    rewrite obj_get_del, Hg'. case_decide; [|done]. subst. congruence.
  - eauto 10.
Qed.

(** *** Collection does not look at render times *)

(** Give every tile another [lastRendered]. *)
Definition rerender (when : string -> num) (s : store) : store :=
  set_tiles (obj_imap (fun k t => set_lastRendered (when k) t) (tiles s)) s.
#[local] Arguments rerender : simpl never.

Section rerender.
Context (when : string -> num).

Lemma rerender_get k s :
  obj_get k (tiles (rerender when s)) = set_lastRendered (when k) <$> obj_get k (tiles s).
Proof. apply (obj_get_imap (fun k t => set_lastRendered (when k) t)). Qed.

Lemma rerender_alter g k s :
  (forall n t, g (set_lastRendered n t) = set_lastRendered n (g t)) ->
  alter_tile g k (rerender when s) = rerender when (alter_tile g k s).
Proof.
  intros Hg. unfold alter_tile, rerender, set_tiles; simpl. f_equal.
  unfold obj_alter, obj_imap. rewrite <- !list_fmap_compose. apply list_fmap_ext.
  intros i [k' t] _. simpl. destruct (String.eqb k' k); simpl; by rewrite ?Hg.
Qed.

Lemma rerender_remove k s :
  removeTile k (rerender when s) = rerender when (removeTile k s).
Proof.
  unfold removeTile. rewrite rerender_get. destruct (obj_get k (tiles s)) as [t|]; [|done]. simpl.
  unfold rerender, set_tiles; simpl. f_equal. unfold obj_del, obj_imap.
  induction (tiles s) as [|[k' t'] o IH]; csimpl; [done|].
  rewrite !filter_cons; simpl. case_decide; csimpl; congruence.
Qed.

Lemma rerender_fold (step : string -> store -> store) ks s :
  (forall k s, step k (rerender when s) = rerender when (step k s)) ->
  foldl (fun s k => step k s) (rerender when s) ks
  = rerender when (foldl (fun s k => step k s) s ks).
Proof. intros Hs. revert s. induction ks; intros s; simpl; [done|]. by rewrite Hs. Qed.

Lemma rerender_gc_deltas ks n s :
  gc_deltas ks n (rerender when s) = rerender when (gc_deltas ks n s).
Proof.
  revert n s. induction ks as [|k ks IH]; intros n s; simpl; [done|].
  case_bool; [|done]. rewrite (obj_get_imap (fun k t => set_lastRendered (when k) t)).
  destruct (obj_get k (tiles s)) as [t|]; [simpl|by apply IH].
  destruct (rawDeltas (data t)); [|by apply IH]. destruct (current t); simpl; [by apply IH|].
  rewrite rerender_alter by done. apply IH.
Qed.

Lemma rerender_gc s : garbageCollect (rerender when s) = rerender when (garbageCollect s).
Proof.
  unfold garbageCollect, gc_trim, gc_keys. rewrite !js_sort_by_lastRendered.
  assert (own_keys (tiles (rerender when s)) = own_keys (tiles s)) as ->.
  { unfold own_keys, rerender. simpl. by rewrite obj_keys_imap. }
  set (ks := own_keys (tiles s)).
  assert (List.filter (tile_has_canvas (rerender when s)) ks = List.filter (tile_has_canvas s) ks)
    as ->.
  { apply List.filter_ext. intros k. unfold tile_has_canvas. rewrite rerender_get.
    by destruct (obj_get k (tiles s)). }
  assert (total_delta_size (rerender when s) ks = total_delta_size s ks) as ->.
  { unfold total_delta_size. induction ks as [|k ks' IH]; simpl; [done|]. rewrite IH. f_equal.
    unfold tile_delta_size. rewrite rerender_get. by destruct (obj_get k (tiles s)). }
  assert (Hc : forall cks, gc_canvases cks (rerender when s) = rerender when (gc_canvases cks s)).
  { intros cks. unfold gc_canvases. case_bool; [|done].
    apply (rerender_fold (alter_tile reclaimTileCanvasMemory)). intros k' s'.
    by apply rerender_alter. }
  rewrite Hc. unfold gc_tiles. repeat case_bool; rewrite ?rerender_gc_deltas;
    rewrite ?(rerender_fold gc_remove); try done; intros k' s'; unfold gc_remove;
    rewrite rerender_get; destruct (obj_get k' (tiles s')) as [t|]; simpl; try done;
    destruct (current t); simpl; rewrite ?rerender_remove; done.
Qed.
End rerender.

(** ** Properties *)

(** Trimming canvases: after a collection at most 250 tiles hold a canvas, and
    at most 125 do when more than 250 did before. *)
Theorem garbageCollect_canvases s :
  store_ok s ->
  numCanvases (garbageCollect s) <= Z.of_nat highNumCanvases /\
  (Z.of_nat highNumCanvases < numCanvases s ->
   numCanvases (garbageCollect s) <= Z.of_nat lowNumCanvases).
Proof.
  intros Hok. rewrite garbageCollect_unfold by done.
  pose proof (gc_canvases_count s Hok) as Hc. cbv zeta.
  set (s1 := gc_canvases _ s) in *.
  assert (Hok1 : store_ok s1) by by apply gc_canvases_ok.
  assert (Hle : numCanvases (gc_tiles (obj_keys (tiles s))
                  (gc_memory (obj_keys (tiles s)) (deltaMemory s) s1)) <= numCanvases s1).
  { assert (Hpos : forall t, 0 <= Z.b2z (has_canvas t)) by (intros t; by destruct (has_canvas t)).
    unfold numCanvases. etransitivity; [apply gc_tiles_sum; [done|by apply gc_memory_ok]|].
    unfold gc_memory. case_bool; [|done]. apply gc_deltas_sum; [|done]. intros t. apply Hpos. }
  unfold highNumCanvases, lowNumCanvases in *. destruct (Z.ltb_spec (Z.of_nat 250) (numCanvases s)); lia.
Qed.

(** Trimming delta memory: collecting more than 120 MB of deltas leaves at most
    60 MB of them, or only the deltas of tiles in view; 120 MB or less
    are never trimmed for memory. *)
Theorem garbageCollect_deltas s :
  store_ok s ->
  deltaMemory (garbageCollect s) <= deltaMemory s /\
  (highDeltaMemory < deltaMemory s ->
   deltaMemory (garbageCollect s) <= lowDeltaMemory \/ only_current_deltas (garbageCollect s)).
Proof.
  intros Hok. rewrite garbageCollect_unfold by done. cbv zeta.
  set (ks := obj_keys (tiles s)). set (s1 := gc_canvases _ s).
  assert (Hok1 : store_ok s1) by by apply gc_canvases_ok.
  assert (Hm1 : deltaMemory s1 = deltaMemory s) by apply gc_canvases_memory.
  pose proof (gc_tiles_sum delta_size delta_size_nonneg ks (gc_memory ks (deltaMemory s) s1)
    (gc_memory_ok _ _ _ Hok1)) as Ht.
  fold (deltaMemory (gc_tiles ks (gc_memory ks (deltaMemory s) s1))) in Ht.
  fold (deltaMemory (gc_memory ks (deltaMemory s) s1)) in Ht.
  assert (Hle : deltaMemory (gc_memory ks (deltaMemory s) s1) <= deltaMemory s1).
  { unfold gc_memory. case_bool; [|lia]. apply gc_deltas_sum; [|done].
    intros t. pose proof (delta_size_nonneg t). change (delta_size (drop_deltas t)) with 0. lia. }
  split; [lia|]. intros Hhi.
  destruct (gc_deltas_bound ks s1 Hok1) as [Hlo|Hcur].
  - left. rewrite Hm1 in Hlo. unfold gc_memory in Ht |- *.
    rewrite (proj2 (Z.ltb_lt _ _) Hhi) in *. lia.
  - right. intros k t Hg%gc_tiles_get Hc. unfold gc_memory in Hg.
    rewrite (proj2 (Z.ltb_lt _ _) Hhi), <- Hm1 in Hg. apply (Hcur k t); try done.
    replace ks with (obj_keys (tiles (gc_memory ks (deltaMemory s) s1))).
    + apply obj_get_is_Some. unfold gc_memory. rewrite (proj2 (Z.ltb_lt _ _) Hhi), <- Hm1.
      by eexists.
    + rewrite gc_memory_keys. apply gc_canvases_keys.
Qed.

(** Trimming tiles: after a collection there are at most 2048 tiles, or at most
    1024 more than there are tiles in view. *)
Theorem garbageCollect_tile_count s :
  store_ok s ->
  numTiles (garbageCollect s)
  <= Z.max (Z.of_nat highTileCount) (Z.of_nat lowTileCount + numCurrent s).
Proof.
  intros Hok. rewrite garbageCollect_unfold by done. cbv zeta.
  set (s1 := gc_canvases _ s). set (s2 := gc_memory _ _ s1).
  assert (Hok1 : store_ok s1) by by apply gc_canvases_ok.
  assert (Hok2 : store_ok s2) by by apply gc_memory_ok.
  assert (obj_keys (tiles s) = obj_keys (tiles s2)) as ->.
  { unfold s2. rewrite gc_memory_keys. symmetry. apply gc_canvases_keys. }
  assert (Hcur : numCurrent s2 <= numCurrent s).
  { assert (Hpos : forall t, 0 <= Z.b2z (current t)) by (intros t; by destruct (current t)).
    unfold numCurrent, s2, gc_memory, s1. transitivity (obj_sum (fun t => Z.b2z (current t)) (tiles s1)).
    - case_bool; [|done]. by apply gc_deltas_sum.
    - apply (gc_canvases_ind (fun s' => store_ok s' /\ obj_sum (fun t => Z.b2z (current t)) (tiles s')
        <= obj_sum (fun t => Z.b2z (current t)) (tiles s))); [|by split].
      intros k s'. by apply R_reclaim. }
  pose proof (gc_tiles_count s2 Hok2). lia.
Qed.

(** A tile in view survives a collection with its deltas and its wire
    identifiers: it is not asked for again because memory was trimmed. *)
Theorem garbageCollect_keeps_current s k t :
  obj_get k (tiles s) = Some t -> current t = true ->
  exists t', obj_get k (tiles (garbageCollect s)) = Some t' /\ current t' = true /\
    rawDeltas (data t') = rawDeltas (data t) /\ wireId t' = wireId t /\
    invalidFrom t' = invalidFrom t.
Proof. apply gc_keeps_current. Qed.

(** The collector does not see render times: the sort meant to put
    the oldest tiles first compares properties of the key strings, which are
    undefined, so whatever the tiles' [lastRendered] are, the same tiles lose
    their canvas, their deltas or their place. *)
Theorem garbageCollect_ignores_lastRendered when s :
  garbageCollect (rerender when s) = rerender when (garbageCollect s).
Proof. apply rerender_gc. Qed.

(** ** Sample stores *)

(** [n] tiles in a row. *)
Definition sample_coord (i : nat) : coord := Coord (256 * Z.of_nat i) 0 10 0 0.
Definition sample_store (n : nat) (f : tile -> tile) : store :=
  Store (foldr (fun i o => obj_set (key (sample_coord i)) (f (new_tile (sample_coord i) (Some 0))) o)
               [] (seq 0 n)) 0 0.

Lemma sample_store_ok n f : (forall t, coords (f t) = coords t) -> store_ok (sample_store n f).
Proof.
  intros Hf. unfold sample_store. split; simpl.
  - induction (seq 0 n) as [|i l IH]; simpl; auto with oxool.
  - induction (seq 0 n) as [|i l IH]; intros k t; simpl; [done|].
    rewrite obj_get_set. case_decide; [|by apply IH]. intros [= <-]. by rewrite Hf.
  - split; [done|]. apply obj_sum_contentless_nonneg.
Qed.

Definition with_canvas (t : tile) : tile := set_data (Content (Some []) None None) t.
Definition out_of_view (t : tile) : tile := set_current false t.
Definition with_deltas (n : Z) (t : tile) : tile :=
  set_data (Content None None (Some (repeat 0 (Z.to_nat n)))) t.

Lemma delta_size_with_deltas n t : 0 <= n -> delta_size (with_deltas n t) = n.
Proof. intros Hn. unfold delta_size, with_deltas; simpl. rewrite repeat_length. lia. Qed.

Lemma garbageCollect_canvases_witness :
  numCanvases (garbageCollect (sample_store 300 with_canvas)) <= 125.
Proof.
  apply (garbageCollect_canvases (sample_store 300 with_canvas)).
  - by apply sample_store_ok.
  - vm_compute. done.
Defined.

Lemma garbageCollect_deltas_witness :
  let s := sample_store 1 (with_deltas (200 * 1024 * 1024)) in
  deltaMemory (garbageCollect s) <= lowDeltaMemory \/ only_current_deltas (garbageCollect s).
Proof.
  apply garbageCollect_deltas.
  - by apply sample_store_ok.
  - unfold deltaMemory, obj_sum, sample_store, highDeltaMemory. cbn [seq foldr obj_set tiles snd].
    rewrite delta_size_with_deltas by lia. lia.
Defined.

Lemma garbageCollect_tile_count_witness :
  numTiles (garbageCollect (sample_store 3 out_of_view)) <= 2048.
Proof. apply (garbageCollect_tile_count (sample_store 3 out_of_view)). by apply sample_store_ok. Defined.

Lemma garbageCollect_keeps_current_witness :
  exists t', obj_get "256:0:10:0:0" (tiles (garbageCollect (sample_store 300 with_canvas))) = Some t' /\
    current t' = true /\ rawDeltas (data t') = None /\ wireId t' = Some 0 /\ invalidFrom t' = Some 0.
Proof.
  apply (garbageCollect_keeps_current (sample_store 300 with_canvas) "256:0:10:0:0"
    (with_canvas (new_tile (sample_coord 1) (Some 0)))); vm_compute; done.
Defined.

#[export] Hint Resolve gc_canvases_ok gc_deltas_ok sample_store_ok : oxool.
