(* ===== verification/Delta.v ===== *)
(** * Tile pixels: keyframes and deltas

    The pixel routines of [L.CanvasTileLayer]
    (src/browser/src/layer/tile/CanvasTileLayer.js): [_unpremultiply],
    [_applyDeltaChunk] and the drawing loop of [_applyDelta].  Byte arrays are
    lists of integers; reading a typed array out of range yields [undefined] and
    writing out of range does nothing.  The commands a delta consists of and
    their effect on whole blocks of pixels are given as a separate
    specification, which the byte loops refine. *)

From S2P Require Import Prelude.
Local Open Scope Z_scope.

(** ** Typed arrays *)

(** The conversion a [Uint8ClampedArray] applies to what is stored in it. *)
Definition u8clamp (v : num) : Z :=
  match v with Some z => Z.max 0 (Z.min 255 z) | None => 0 end.

Definition js_read (l : list Z) (i : num) : num :=
  match i with
  | Some z => if 0 <=? z then l !! Z.to_nat z else None
  | None => None
  end.

Definition js_write (i : num) (v : num) (l : list Z) : list Z :=
  match i with
  | Some z => if 0 <=? z then <[Z.to_nat z := u8clamp v]> l else l
  | None => l
  end.

(** [for (var j = 0; j < n; ++j) data[dest + j] = src (j);] *)
Definition write_loop (n : nat) (dest : num) (src : nat -> num) (data : list Z) : list Z :=
  foldl (fun d j => js_write (num_add dest (Some (Z.of_nat j))) (src j) d) data (seq 0 n).

(** ** [_unpremultiply] *)

Definition unpremultiply_channel (c alpha : Z) : Z := u8clamp (Some (js_ceil_div (c * 255) alpha)).

Definition unpremultiply_pixel (r g b alpha : Z) : list Z :=
  if alpha =? 255 then [r; g; b; alpha]
  else if negb (alpha =? 0) then
    [unpremultiply_channel r alpha; unpremultiply_channel g alpha;
     unpremultiply_channel b alpha; alpha]
  else [0; 0; 0; 0].

Fixpoint unpremultiply_pixels (l : list Z) : list Z :=
  match l with
  | r :: g :: b :: alpha :: l' => unpremultiply_pixel r g b alpha ++ unpremultiply_pixels l'
  | _ => []
  end.

(** [new Uint32Array (buffer, offset, len)] throws a [RangeError] ([None]) when
    the buffer is too short; a fractional [len] is truncated. *)
Definition unpremultiply (rawDelta : list Z) (byteLength : nat) : option (list Z) :=
  let bytes := (4 * (byteLength / 4))%nat in
  if (length rawDelta <? bytes)%nat then None
  else Some (unpremultiply_pixels (take bytes rawDelta)).

(** ** [_applyDeltaChunk] *)

Definition num_nat (n : num) : nat := match n with Some z => Z.to_nat z | None => 0 end.

Definition copy_row (oldData : list Z) (width : nat) (srcRow destRow : num) (cnt : nat)
    (data : list Z) : list Z :=
  let row r := num_mul (num_add r (Some (Z.of_nat cnt))) (Some (Z.of_nat (width * 4))) in
  write_loop (width * 4) (row destRow)
    (fun j => js_read oldData (num_add (row srcRow) (Some (Z.of_nat j)))) data.

(** The code 'c': copy rows of the old image. *)
Definition copy_rows (oldData : list Z) (width : nat) (count srcRow destRow : num)
    (data : list Z) : list Z :=
  foldl (fun d cnt => copy_row oldData width srcRow destRow cnt d) data (seq 0 (num_nat count)).

(** The code 'd': a run of new pixels. *)
Definition new_run (width : nat) (destRow destCol : num) (span : nat) (tmpu8 : list Z)
    (data : list Z) : list Z :=
  let offset := num_add (num_mul destRow (Some (Z.of_nat (width * 4)))) (num_mul destCol (Some 4)) in
  let pixelData := default [] (unpremultiply tmpu8 (length tmpu8)) in
  write_loop span offset (fun j => js_read pixelData (Some (Z.of_nat j))) data.

(** The loop over the codes, [i] being the read position; returns the pixels and
    the final position, [NaN] when the length of a run is missing. The outer
    [None] means that the fuel ran out. *)
Fixpoint chunk_loop (fuel : nat) (width : nat) (delta oldData : list Z) (i : nat) (data : list Z)
  : option (list Z * num) :=
  match fuel with
  | O => None
  | S fuel' =>
      let at_ (n : nat) : num := delta !! (i + n)%nat in
      match at_ 0%nat with
      | None => Some (data, Some (Z.of_nat i))
      | Some code =>
          if code =? 99 then
            chunk_loop fuel' width delta oldData (i + 4)
              (copy_rows oldData width (at_ 1%nat) (at_ 2%nat) (at_ 3%nat) data)
          else if code =? 100 then
            match at_ 3%nat with
            | Some n =>
                let span := (Z.to_nat n * 4)%nat in
                chunk_loop fuel' width delta oldData (i + 4 + span)
                  (new_run width (at_ 1%nat) (at_ 2%nat) span (take span (drop (i + 4) delta)) data)
            | None => Some (data, None)
            end
          else if code =? 116 then Some (data, Some (Z.of_nat (i + 1)))
          else Some (data, Some (Z.of_nat (length delta)))
      end
  end.

Definition chunk_fuel (delta : list Z) : nat := S (length delta).

Definition applyDeltaChunk (imgData delta oldData : list Z) (width : nat) : option (list Z * num) :=
  chunk_loop (chunk_fuel delta) width delta oldData 0 imgData.

(** ** The drawing loop of [_applyDelta] *)

(** Apply the deltas that follow [offset]; [imgData] is the image they start
    from. *)
Fixpoint delta_loop (fuel : nat) (width : nat) (allDeltas : list Z) (offset : nat)
    (imgData : list Z) : option (list Z) :=
  match fuel with
  | O => None
  | S fuel' =>
      if (offset <? length allDeltas)%nat then
        match applyDeltaChunk imgData (drop offset allDeltas) imgData width with
        | Some (imgData', Some len) => delta_loop fuel' width allDeltas (offset + Z.to_nat len) imgData'
        | Some (imgData', None) => Some imgData'
        | None => None
        end
      else Some imgData
  end.

Definition applyDeltas (width : nat) (allDeltas : list Z) (offset : nat) (imgData : list Z) :
    option (list Z) :=
  delta_loop (S (length allDeltas)) width allDeltas offset imgData.

(** What [_applyDelta] makes of the decompressed bytes: [base] is the image a
    delta without keyframe starts from. An inner [None] means that nothing is
    drawn, an outer one that an exception is thrown. *)
Definition drawDelta (width height : nat) (isKeyframe : bool) (base : list Z) (allDeltas : list Z) :
    option (option (list Z)) :=
  if isKeyframe then
    let len := (width * height * 4)%nat in
    match unpremultiply allDeltas len with
    | Some pixelArray => Some (applyDeltas width allDeltas len pixelArray)
    | None => None
    end
  else
    if (length allDeltas =? 0)%nat then Some None
    else Some (applyDeltas width allDeltas 0 base).

(** ** Specification: delta commands *)

Inductive cmd :=
  | CopyRows (count src dest : nat)
  | NewRun (row col : nat) (pixels : list Z).

(** Premultiplied pixels, four bytes each. *)
Definition span_of (pixels : list Z) : nat := (length pixels / 4)%nat.

Definition encode_cmd (c : cmd) : list Z :=
  match c with
  | CopyRows count src dest => [99; Z.of_nat count; Z.of_nat src; Z.of_nat dest]
  | NewRun row col pixels =>
      [100; Z.of_nat row; Z.of_nat col; Z.of_nat (span_of pixels)] ++ pixels
  end.

Definition encode_chunk (cs : list cmd) : list Z := (cs ≫= encode_cmd) ++ [116].

Definition byte (z : Z) : Prop := 0 <= z < 256.

(** Rows are copied from inside the image; a run holds whole pixels. *)
Definition cmd_ok (height : nat) (c : cmd) : Prop :=
  match c with
  | CopyRows count src dest => (src + count <= height)%nat
  | NewRun row col pixels =>
      Forall byte pixels /\ exists span, length pixels = (4 * span)%nat
  end.

(** The effect of a command: a block of the new image is overwritten, by rows of
    the old image or by new pixels. *)
Definition cmd_effect (width : nat) (old : list Z) (data : list Z) (c : cmd) : list Z :=
  match c with
  | CopyRows count src dest =>
      list_inserts (dest * (width * 4)) (take (count * (width * 4)) (drop (src * (width * 4)) old)) data
  | NewRun row col pixels =>
      list_inserts ((row * width + col) * 4) (unpremultiply_pixels pixels) data
  end.

(** A delta turns the old image into the new one. *)
Definition delta_effect (width : nat) (old : list Z) (cs : list cmd) : list Z :=
  foldl (cmd_effect width old) old cs.

(** A stream of deltas. *)
Definition encode_deltas (css : list (list cmd)) : list Z := css ≫= encode_chunk.

Definition deltas_effect (width : nat) (img : list Z) (css : list (list cmd)) : list Z :=
  foldl (delta_effect width) img css.

(** An image of the tile's size. *)
Definition image_ok (width height : nat) (img : list Z) : Prop :=
  length img = (height * (width * 4))%nat /\ Forall byte img.

(** ** Unpremultiplying *)

Lemma unpremultiply_channel_spec c a :
  0 <= c <= a -> 0 < a -> unpremultiply_channel c a = js_ceil_div (c * 255) a
                          /\ 0 <= js_ceil_div (c * 255) a <= 255.
Proof.
  intros Hc Ha. pose proof (js_ceil_div_spec (c * 255) a Ha).
  assert (0 <= js_ceil_div (c * 255) a <= 255) by nia.
  split; [|done]. unfold unpremultiply_channel, u8clamp. lia.
Qed.

Lemma u8clamp_byte v : byte (u8clamp v).
Proof. unfold byte. destruct v; simpl; lia. Qed.

Lemma u8clamp_id z : byte z -> u8clamp (Some z) = z.
Proof. unfold byte; simpl; lia. Qed.

Lemma unpremultiply_pixels_app k l1 l2 :
  length l1 = (4 * k)%nat ->
  unpremultiply_pixels (l1 ++ l2) = unpremultiply_pixels l1 ++ unpremultiply_pixels l2.
Proof.
  revert l1. induction k as [|k IH]; intros l1 Hl; [by destruct l1|].
  destruct l1 as [|r [|g [|b [|a l1]]]]; simpl in Hl; try lia.
  simpl. rewrite IH by lia. by rewrite app_assoc.
Qed.

Lemma length_unpremultiply_pixels k l :
  length l = (4 * k)%nat -> length (unpremultiply_pixels l) = (4 * k)%nat.
Proof.
  revert l. induction k as [|k IH]; intros l Hl; [by destruct l|].
  destruct l as [|r [|g [|b [|a l]]]]; simpl in Hl; try lia.
  simpl. rewrite length_app, IH by lia. unfold unpremultiply_pixel. repeat case_bool; simpl; lia.
Qed.

Lemma unpremultiply_pixels_bytes l : Forall byte l -> Forall byte (unpremultiply_pixels l).
Proof.
  revert l. fix IH 1. intros [|r [|g [|b [|a l]]]] Hl; simpl; try done.
  rewrite !Forall_cons in Hl. destruct Hl as (? & ? & ? & ? & Hl).
  apply Forall_app; split; [|by apply IH]. unfold unpremultiply_pixel, unpremultiply_channel.
  repeat case_bool; repeat apply Forall_cons_2; try apply u8clamp_byte; try done;
    apply Forall_nil_2.
Qed.

Lemma div_mul_4 k : (4 * k / 4)%nat = k.
Proof. rewrite Nat.mul_comm. by apply Nat.div_mul. Qed.

Lemma unpremultiply_exact k l :
  length l = (4 * k)%nat -> unpremultiply l (length l) = Some (unpremultiply_pixels l).
Proof.
  intros Hl. unfold unpremultiply. rewrite Hl, div_mul_4.
  destruct (Nat.ltb_spec (4 * k) (4 * k)); [lia|]. by rewrite take_ge by lia.
Qed.

Lemma unpremultiply_prefix k l n :
  n = (4 * k)%nat -> (n <= length l)%nat ->
  unpremultiply l n = Some (unpremultiply_pixels (take n l)).
Proof.
  intros -> Hle. unfold unpremultiply. rewrite div_mul_4.
  by destruct (Nat.ltb_spec (length l) (4 * k)); [lia|].
Qed.

(** ** The byte loops *)

Lemma length_js_write i v l : length (js_write i v l) = length l.
Proof. unfold js_write. destruct i as [z|]; [case_bool|]; rewrite ?length_insert; done. Qed.

Lemma length_write_loop n dest src data : length (write_loop n dest src data) = length data.
Proof.
  unfold write_loop. generalize (seq 0 n) as js. intros js. revert data.
  induction js as [|j js IH]; intros data; simpl; [done|]. by rewrite IH, length_js_write.
Qed.

Lemma length_copy_rows old w count s d data : length (copy_rows old w count s d data) = length data.
Proof.
  unfold copy_rows. generalize (seq 0 (num_nat count)) as js. intros js. revert data.
  induction js as [|j js IH]; intros data; simpl; [done|]. rewrite IH. apply length_write_loop.
Qed.

Lemma length_new_run w r c span tmp data : length (new_run w r c span tmp data) = length data.
Proof. apply length_write_loop. Qed.

Lemma js_write_bytes i v l : Forall byte l -> Forall byte (js_write i v l).
Proof.
  intros Hl. unfold js_write. destruct i as [z|]; [case_bool|]; [|done..].
  apply Forall_insert; [done|]. apply u8clamp_byte.
Qed.

Lemma write_loop_bytes n dest src data : Forall byte data -> Forall byte (write_loop n dest src data).
Proof.
  unfold write_loop. generalize (seq 0 n) as js. intros js. revert data.
  induction js as [|j js IH]; intros data Hd; simpl; auto using js_write_bytes.
Qed.

Lemma copy_rows_bytes old w count s d data :
  Forall byte data -> Forall byte (copy_rows old w count s d data).
Proof.
  unfold copy_rows. generalize (seq 0 (num_nat count)) as js. intros js. revert data.
  induction js as [|j js IH]; intros data Hd; simpl; [done|]. apply IH. by apply write_loop_bytes.
Qed.

Lemma new_run_bytes w r c span tmp data :
  Forall byte data -> Forall byte (new_run w r c span tmp data).
Proof. apply write_loop_bytes. Qed.

(** A loop that reads a block of bytes writes that block. *)
Lemma write_loop_block n dest src block data :
  length block = n -> Forall byte block ->
  (forall j, (j < n)%nat -> src j = block !! j) ->
  write_loop n (Some (Z.of_nat dest)) src data = list_inserts dest block data.
Proof.
  revert block data. induction n as [|n IH]; intros block data Hlen Hbytes Hsrc.
  { by destruct block. }
  destruct block as [|x block' _] using rev_ind; [done|].
  rewrite length_app in Hlen; simpl in Hlen. apply Forall_app in Hbytes as [Hb' Hx].
  unfold write_loop. rewrite seq_S, foldl_app; simpl.
  change (foldl _ data (seq 0 n)) with (write_loop n (Some (Z.of_nat dest)) src data).
  rewrite (IH block'); [|lia|done|].
  2: { intros j Hj. rewrite Hsrc by lia. by rewrite lookup_app_l by lia. }
  rewrite Hsrc by lia. rewrite lookup_app_r by lia. replace (n - length block')%nat with 0%nat by lia.
  unfold js_write; simpl. rewrite (proj2 (Z.leb_le _ _)) by lia.
  apply Forall_cons in Hx as [Hx _].
  pose proof (u8clamp_id x Hx) as E. simpl in E. rewrite E.
  rewrite list_inserts_app_l. simpl. f_equal. lia.
Qed.

Lemma take_rows n w (l : list Z) :
  take (S n * w) l = take (n * w) l ++ take w (drop (n * w) l).
Proof. rewrite take_take_drop. f_equal. simpl. lia. Qed.

Lemma copy_rows_effect w h old data count src dest :
  length old = (h * (w * 4))%nat -> Forall byte old ->
  (src + count <= h)%nat ->
  copy_rows old w (Some (Z.of_nat count)) (Some (Z.of_nat src)) (Some (Z.of_nat dest)) data
  = cmd_effect w old data (CopyRows count src dest).
Proof.
  intros Hlen Hb. unfold copy_rows, num_nat. rewrite Nat2Z.id. simpl.
  set (W := (w * 4)%nat) in *.
  induction count as [|n IH]; intros Hsrc; [done|].
  rewrite seq_S, foldl_app, IH by lia. simpl.
  change (W + n * W)%nat with (S n * W)%nat. rewrite take_rows, list_inserts_app_l.
  unfold copy_row; simpl. fold W.
  replace ((Z.of_nat dest + Z.of_nat n) * Z.of_nat W)
    with (Z.of_nat (length (take (n * W) (drop (src * W) old)) + dest * W)).
  2: { rewrite length_take, length_drop. nia. }
  apply write_loop_block.
  - rewrite length_take, !length_drop. nia.
  - apply Forall_take, Forall_drop, Forall_drop, Hb.
  - intros j Hj. rewrite lookup_take_lt, !lookup_drop by done. unfold js_read.
    rewrite (proj2 (Z.leb_le _ _)) by lia. f_equal. lia.
Qed.

Lemma new_run_effect w row col span pixels old data :
  length pixels = (4 * span)%nat -> Forall byte pixels ->
  new_run w (Some (Z.of_nat row)) (Some (Z.of_nat col)) (span * 4) pixels data
  = cmd_effect w old data (NewRun row col pixels).
Proof.
  intros Hlen Hb. unfold new_run. rewrite (unpremultiply_exact span) by done. simpl.
  replace (Z.of_nat row * Z.of_nat (w * 4) + Z.of_nat col * 4)
    with (Z.of_nat ((row * w + col) * 4)) by nia.
  apply write_loop_block.
  - rewrite (length_unpremultiply_pixels span) by done. lia.
  - by apply unpremultiply_pixels_bytes.
  - intros j _. unfold js_read. rewrite (proj2 (Z.leb_le _ _)) by lia. f_equal. lia.
Qed.

(** ** The loop over the codes *)

(** The loop ends within its fuel, keeps the image's size and consumes at least
    one byte of a non-empty delta. *)
Lemma chunk_loop_total fuel w delta old i data :
  (length delta - i < fuel)%nat ->
  exists data' n, chunk_loop fuel w delta old i data = Some (data', n) /\
    length data' = length data /\ (Forall byte data -> Forall byte data') /\
    match n with
    | Some z => Z.of_nat i <= z /\ ((i < length delta)%nat -> Z.of_nat i < z)
    | None => True
    end.
Proof.
  revert i data. induction fuel as [|fuel IH]; intros i data Hfuel; [lia|]. simpl.
  replace (i + 0)%nat with i by lia.
  destruct (delta !! i) as [code|] eqn:Hi.
  2: { apply lookup_ge_None in Hi. eexists _, _. split; [done|]. split_and!; try done; lia. }
  apply lookup_lt_Some in Hi.
  destruct (code =? 99); [|destruct (code =? 100); [|destruct (code =? 116)]].
  - destruct (IH (i + 4)%nat (copy_rows old w (delta !! (i + 1)%nat) (delta !! (i + 2)%nat)
      (delta !! (i + 3)%nat) data)) as (data' & n & E & Hlen & Hb & Hn); [lia|].
    exists data', n. split; [done|]. rewrite length_copy_rows in Hlen.
    split_and!; [done|auto using copy_rows_bytes|]. destruct n; [lia|done].
  - destruct (delta !! (i + 3)%nat) as [m|]; [|by exists data, None].
    match goal with |- context [chunk_loop fuel w delta old ?i' ?d'] =>
      destruct (IH i' d') as (data' & n & E & Hlen & Hb & Hn); [lia|] end.
    exists data', n. split; [done|]. rewrite length_new_run in Hlen.
    split_and!; [done|auto using new_run_bytes|]. destruct n; [lia|done].
  - eexists _, _. split; [done|]. split_and!; try done; lia.
  - eexists _, _. split; [done|]. split_and!; try done; lia.
Qed.

(** More fuel changes nothing. *)
Lemma chunk_loop_fuel fuel fuel' w delta old i data r :
  chunk_loop fuel w delta old i data = Some r -> (fuel <= fuel')%nat ->
  chunk_loop fuel' w delta old i data = Some r.
Proof.
  revert fuel' i data. induction fuel as [|fuel IH]; intros [|fuel'] i data; simpl; try done; try lia.
  intros E Hle. destruct (delta !! (i + 0)%nat) as [code|]; [|done].
  destruct (code =? 99); [apply IH; by auto with lia|]. destruct (code =? 100); [|done].
  destruct (delta !! (i + 3)%nat); [|done]. apply IH; by auto with lia.
Qed.

Lemma delta_loop_total fuel w delta i data :
  (length delta - i < fuel)%nat ->
  exists data', delta_loop fuel w delta i data = Some data' /\
    length data' = length data /\ (Forall byte data -> Forall byte data').
Proof.
  revert i data. induction fuel as [|fuel IH]; intros i data Hfuel; [lia|]. simpl.
  destruct (Nat.ltb_spec i (length delta)); [|by exists data].
  destruct (chunk_loop_total (chunk_fuel (drop i delta)) w (drop i delta) data 0 data)
    as (d1 & n & E & Hlen & Hb & Hn); [unfold chunk_fuel; lia|].
  unfold applyDeltaChunk. rewrite E. rewrite length_drop in Hn. destruct n as [z|]; [|by exists d1].
  destruct (IH (i + Z.to_nat z)%nat d1) as (d2 & -> & Hlen2 & Hb2); [lia|].
  exists d2. split_and!; [done|congruence|auto].
Qed.

Lemma lookup_at (pre l : list Z) n : (pre ++ l) !! (length pre + n)%nat = l !! n.
Proof. rewrite lookup_app_r by lia. f_equal. lia. Qed.

Lemma encode_chunk_cons c cs : encode_chunk (c :: cs) = encode_cmd c ++ encode_chunk cs.
Proof. unfold encode_chunk. csimpl. by rewrite app_assoc. Qed.

(** Decoding an encoded delta, wherever it stands in the stream. *)
Lemma chunk_loop_encode w h old cs pre rest fuel data :
  image_ok w h old -> Forall (cmd_ok h) cs ->
  (length (encode_chunk cs ++ rest) < fuel)%nat ->
  chunk_loop fuel w (pre ++ encode_chunk cs ++ rest) old (length pre) data
  = Some (foldl (cmd_effect w old) data cs, Some (Z.of_nat (length (pre ++ encode_chunk cs)))).
Proof.
  intros [Hlen Hb] Hcs. revert pre fuel data.
  induction Hcs as [|c cs Hc Hcs IH]; intros pre fuel data Hfuel.
  - destruct fuel; [simpl in Hfuel; lia|]. cbn [chunk_loop]. rewrite lookup_at. simpl.
    rewrite length_app. simpl. done.
  - destruct fuel as [|fuel]; [lia|]. rewrite encode_chunk_cons in *.
    rewrite <- (app_assoc (encode_cmd c)) in *. cbn [chunk_loop]. rewrite !lookup_at.
    assert (Hnext : (length (encode_chunk cs ++ rest) < fuel)%nat).
    { rewrite length_app in Hfuel. destruct c; simpl in Hfuel; lia. }
    specialize (IH (pre ++ encode_cmd c)). rewrite <- !(app_assoc pre) in IH.
    destruct c as [count src dest|row col pixels]; simpl in *.
    + rewrite (copy_rows_effect w h) by done.
      replace (length pre + 4)%nat
        with (length (pre ++ [99; Z.of_nat count; Z.of_nat src; Z.of_nat dest]))
        by (rewrite length_app; done).
      by apply IH.
    + destruct Hc as (Hpb & span & Hspan).
      assert (span_of pixels = span) as Hspan'.
      { unfold span_of. rewrite Hspan. apply div_mul_4. }
      rewrite Hspan' in *. rewrite Nat2Z.id. simpl. rewrite drop_app_add. simpl.
      rewrite drop_0, take_app_le, take_ge by lia.
      rewrite (new_run_effect w row col span pixels old) by done.
      match goal with |- chunk_loop _ _ _ _ ?i _ = _ =>
        replace i with (length (pre ++ 100 :: Z.of_nat row :: Z.of_nat col :: Z.of_nat span :: pixels))
          by (rewrite length_app; simpl; lia) end.
      by apply IH.
Qed.

Lemma applyDeltaChunk_encode w h old cs rest data :
  image_ok w h old -> Forall (cmd_ok h) cs ->
  applyDeltaChunk data (encode_chunk cs ++ rest) old w
  = Some (foldl (cmd_effect w old) data cs, Some (Z.of_nat (length (encode_chunk cs)))).
Proof.
  intros Hold Hcs. apply (chunk_loop_encode w h old cs []); [done..|]. unfold chunk_fuel. lia.
Qed.

(** Deltas keep the size and the range of the image. *)
Lemma delta_effect_ok w h img cs :
  image_ok w h img -> Forall (cmd_ok h) cs -> image_ok w h (delta_effect w img cs).
Proof.
  intros Himg Hcs.
  pose proof (applyDeltaChunk_encode w h img cs [] img Himg Hcs) as E.
  destruct (chunk_loop_total (chunk_fuel (encode_chunk cs ++ [])) w (encode_chunk cs ++ []) img 0 img)
    as (d & n & E' & Hlen & Hb & _); [unfold chunk_fuel; lia|].
  unfold applyDeltaChunk in E. rewrite E in E'. injection E' as <- <-.
  destruct Himg as [Hl Hbytes]. split; [unfold delta_effect; congruence|]. by apply Hb.
Qed.

Lemma encode_chunk_length cs : (0 < length (encode_chunk cs))%nat.
Proof. unfold encode_chunk. rewrite length_app. simpl. lia. Qed.

(** Applying a stream of encoded deltas that starts at an offset. *)
Lemma delta_loop_encode w h css pre fuel img :
  image_ok w h img -> Forall (Forall (cmd_ok h)) css ->
  (length (encode_deltas css) < fuel)%nat ->
  delta_loop fuel w (pre ++ encode_deltas css) (length pre) img = Some (deltas_effect w img css).
Proof.
  intros Himg Hcss. revert pre fuel img Himg.
  induction Hcss as [|cs css Hcs Hcss IH]; intros pre fuel img Himg Hfuel.
  - destruct fuel; simpl in *; [lia|]. rewrite app_nil_r.
    by destruct (Nat.ltb_spec (length pre) (length pre)); [lia|].
  - destruct fuel as [|fuel]; [lia|]. pose proof (encode_chunk_length cs) as Hpos.
    unfold encode_deltas in *. csimpl in *. rewrite !length_app in *.
    destruct (Nat.ltb_spec (length pre) (length pre + (length (encode_chunk cs)
      + length (css ≫= encode_chunk)))); [|lia].
    rewrite drop_app_length, (applyDeltaChunk_encode w h) by done. simpl.
    rewrite Nat2Z.id. rewrite <- length_app, (app_assoc pre). apply IH; [|lia].
    by apply delta_effect_ok.
Qed.

Lemma applyDeltas_encode w h css pre img :
  image_ok w h img -> Forall (Forall (cmd_ok h)) css ->
  applyDeltas w (pre ++ encode_deltas css) (length pre) img = Some (deltas_effect w img css).
Proof.
  intros Himg Hcss. apply (delta_loop_encode w h); [done..|]. rewrite length_app. lia.
Qed.

(** ** Keyframes *)

(** Keyframe bytes: the premultiplied pixels of the whole tile. *)
Lemma unpremultiply_image_ok w h raw :
  image_ok w h raw -> image_ok w h (unpremultiply_pixels raw).
Proof.
  intros [Hl Hb]. split; [|by apply unpremultiply_pixels_bytes].
  rewrite (length_unpremultiply_pixels (h * w)); lia.
Qed.

Lemma drawDelta_keyframe w h base raw css :
  image_ok w h raw -> Forall (Forall (cmd_ok h)) css ->
  drawDelta w h true base (raw ++ encode_deltas css)
  = Some (Some (deltas_effect w (unpremultiply_pixels raw) css)).
Proof.
  intros Hraw Hcss. pose proof Hraw as [Hl _]. unfold drawDelta.
  replace (w * h * 4)%nat with (length raw) by lia.
  rewrite (unpremultiply_prefix (h * w)); [|lia|rewrite length_app; lia].
  rewrite take_app_length. f_equal. apply (applyDeltas_encode w h); [|done].
  by apply unpremultiply_image_ok.
Qed.

Lemma drawDelta_delta w h base css :
  image_ok w h base -> Forall (Forall (cmd_ok h)) css -> css <> [] ->
  drawDelta w h false base (encode_deltas css) = Some (Some (deltas_effect w base css)).
Proof.
  intros Hbase Hcss Hne. unfold drawDelta.
  destruct css as [|cs css]; [done|]. unfold encode_deltas at 1. csimpl. rewrite length_app.
  pose proof (encode_chunk_length cs).
  destruct (Nat.eqb_spec (length (encode_chunk cs) + length (css ≫= encode_chunk)) 0); [lia|].
  f_equal. apply (applyDeltas_encode w h (cs :: css) []); done.
Qed.

(** ** Properties *)

(** C3: [_applyDeltaChunk] implements the delta format: on the encoding of
    a list of commands, its byte loops turn the image into the one in which each
    command overwrites its block of pixels with rows of the old image, or with new
    pixels, and it consumes exactly that encoding, so that the next delta of the
    stream is found. *)
Theorem applyDeltaChunk_correct w h old cs rest :
  image_ok w h old -> Forall (cmd_ok h) cs ->
  applyDeltaChunk old (encode_chunk cs ++ rest) old w
  = Some (delta_effect w old cs, Some (Z.of_nat (length (encode_chunk cs)))).
Proof. apply applyDeltaChunk_encode. Qed.

(** Whatever bytes arrive, well-formed or not, the decoding loops of
    [_applyDelta] end, keep the size of the image and write bytes only inside
    it. *)
Theorem applyDeltas_total w delta offset img :
  exists img', applyDeltas w delta offset img = Some img' /\ length img' = length img /\
    (Forall byte img -> Forall byte img').
Proof. apply delta_loop_total. lia. Qed.

(** C16: A tile redrawn from its stored deltas looks as if it had never been
    dropped: decoding the keyframe followed by all deltas received since gives the
    image obtained by applying the deltas one message at a time. *)
Theorem redraw_from_deltas w h base raw css1 css2 img1 img2 :
  image_ok w h raw -> Forall (Forall (cmd_ok h)) (css1 ++ css2) -> css2 <> [] ->
  drawDelta w h true base (raw ++ encode_deltas css1) = Some (Some img1) ->
  drawDelta w h false img1 (encode_deltas css2) = Some (Some img2) ->
  drawDelta w h true base ((raw ++ encode_deltas css1) ++ encode_deltas css2) = Some (Some img2).
Proof.
  intros Hraw [Hcss1 Hcss2]%Forall_app Hne. rewrite (drawDelta_keyframe w h) by done. intros [= <-].
  assert (Himg : image_ok w h (deltas_effect w (unpremultiply_pixels raw) css1)).
  { apply unpremultiply_image_ok in Hraw. revert Hraw. generalize (unpremultiply_pixels raw) as img.
    clear Hcss2 Hne. induction Hcss1; intros img Himg; simpl; auto using delta_effect_ok. }
  rewrite (drawDelta_delta w h) by done. intros [= <-].
  rewrite <- app_assoc. replace (encode_deltas css1 ++ encode_deltas css2)
    with (encode_deltas (css1 ++ css2)) by apply bind_app.
  rewrite (drawDelta_keyframe w h) by (done || by apply Forall_app).
  unfold deltas_effect. by rewrite foldl_app.
Qed.

(** Premultiplication by alpha, rounding down. *)
Definition premultiply_channel (c alpha : Z) : Z := js_floor_div (c * alpha) 255.

Lemma unpremultiply_channel_roundtrip c a :
  0 <= c <= a -> 0 < a < 256 -> premultiply_channel (unpremultiply_channel c a) a = c.
Proof.
  intros Hc Ha. destruct (unpremultiply_channel_spec c a) as [E Hb]; [lia..|].
  pose proof (js_ceil_div_spec (c * 255) a ltac:(lia)) as Hspec. rewrite <- E in *.
  unfold premultiply_channel, js_floor_div. apply floor_div_iff; [lia|]. nia.
Qed.

(** Premultiplying the colours [_unpremultiply] computes gives back the
    colours of the wire: the conversion loses nothing of a visible pixel whose
    colours do not exceed its alpha. *)
Theorem unpremultiply_roundtrip r g b a :
  0 <= r <= a -> 0 <= g <= a -> 0 <= b <= a -> 0 < a < 256 ->
  exists r' g' b', unpremultiply_pixel r g b a = [r'; g'; b'; a] /\
    premultiply_channel r' a = r /\ premultiply_channel g' a = g /\ premultiply_channel b' a = b.
Proof.
  intros Hr Hg Hb Ha. unfold unpremultiply_pixel. case_bool; [|case_bool; [|lia]].
  - subst a. exists r, g, b. unfold premultiply_channel, js_floor_div.
    by rewrite !Z.div_mul by lia.
  - do 3 eexists. split; [done|]. by rewrite !unpremultiply_channel_roundtrip.
Qed.

(** ** Examples *)

(** A 2 x 2 tile: the first row is copied to the second, then one half
    transparent pixel is drawn. *)
Definition sample_image : list Z := [1; 2; 3; 255; 4; 5; 6; 255; 7; 8; 9; 255; 10; 11; 12; 255].
Definition sample_cmds : list cmd := [CopyRows 1 0 1; NewRun 0 1 [64; 0; 128; 128]].

Example sample_delta :
  applyDeltaChunk sample_image (encode_chunk sample_cmds) sample_image 2
  = Some ([1; 2; 3; 255; 128; 0; 255; 128; 1; 2; 3; 255; 4; 5; 6; 255], Some 13).
Proof. reflexivity. Qed.

Lemma sample_image_ok : image_ok 2 2 sample_image.
Proof. split; [done|]. by repeat constructor. Qed.

Lemma sample_cmds_ok : Forall (cmd_ok 2) sample_cmds.
Proof.
  repeat apply Forall_cons_2; simpl; [lia| |apply Forall_nil_2].
  split; [by repeat constructor|by exists 1%nat].
Qed.

Lemma applyDeltaChunk_correct_witness :
  applyDeltaChunk sample_image (encode_chunk sample_cmds ++ [99]) sample_image 2
  = Some (delta_effect 2 sample_image sample_cmds, Some 13).
Proof.
  apply (applyDeltaChunk_correct 2 2); [apply sample_image_ok|apply sample_cmds_ok].
Defined.

Lemma redraw_from_deltas_witness :
  let raw := sample_image in
  drawDelta 2 2 true [] ((raw ++ encode_deltas [sample_cmds]) ++ encode_deltas [sample_cmds])
  = Some (Some (deltas_effect 2 raw [sample_cmds; sample_cmds])).
Proof.
  apply (redraw_from_deltas 2 2 [] sample_image [sample_cmds] [sample_cmds]
           (deltas_effect 2 sample_image [sample_cmds])).
  - apply sample_image_ok.
  - constructor; [apply sample_cmds_ok|]. constructor; [apply sample_cmds_ok|constructor].
  - done.
  - reflexivity.
  - reflexivity.
Defined.

Lemma unpremultiply_roundtrip_witness :
  exists r' g' b', unpremultiply_pixel 64 0 127 128 = [r'; g'; b'; 128] /\
    premultiply_channel r' 128 = 64 /\ premultiply_channel g' 128 = 0 /\
    premultiply_channel b' 128 = 127.
Proof. apply unpremultiply_roundtrip; lia. Defined.
