(* ===== verification/ServerCmd.v ===== *)
(** * Server messages: [L.Socket.parseServerCmd]

    The parser that turns the text of a server message into a command object
    (src/browser/src/core/Socket.js), and the printer on the other end of the
    wire for tile messages ([TileDesc::serialize], src/wsd/TileDesc.hpp).  The
    command object is an [obj] of [field]s, as the code builds it. *)

From S2P Require Import Prelude JsText JsObject.
Local Open Scope Z_scope.

(** ** Tokens *)

Definition is_sep (c : ascii) : bool := Ascii.eqb c " "%char || Ascii.eqb c "010"%char.

Definition starts_sep (s : string) : bool :=
  match s with String c _ => is_sep c | EmptyString => false end.

(** [msg.split (/[ \n]+/)]: a run of separators splits once. *)
Fixpoint split_tokens (s : string) : list string :=
  match s with
  | EmptyString => [""]
  | String c s' =>
      if is_sep c then
        if starts_sep s' then split_tokens s' else "" :: split_tokens s'
      else
        match split_tokens s' with
        | [] => [String c ""]
        | h :: t => String c h :: t
        end
  end.

(** ** Fields *)

Inductive field :=
  | FNum (n : num)
  | FStr (s : string)
  | FNums (l : list num)
  | FStrs (l : list string)
  | FRects (l : list (num * num * num * num))
  | FTrue.

Definition command := obj field.

(** [s.replace (/(\r\n|\n|\r)/gm, '')] *)
Fixpoint remove_newlines (s : string) : string :=
  match s with
  | EmptyString => ""
  | String c s' =>
      if Ascii.eqb c "010"%char || Ascii.eqb c "013"%char then remove_newlines s'
      else String c (remove_newlines s')
  end.

Definition as_num (v : string) : field := FNum (parseInt v).
Definition as_str (v : string) : field := FStr v.
Definition as_line (v : string) : field := FStr (remove_newlines v).
Definition as_nums (v : string) : field := FNums (parseInt <$> split_on ","%char v).
Definition as_strs (v : string) : field := FStrs (split_on ","%char v).

(** [parseInt (element[i])]; a missing element is [NaN]. *)
Definition nth_int (l : list string) (i : nat) : num := l !! i ≫= parseInt.

Definition as_rects (v : string) : field :=
  FRects ((fun e => let l := split_on ","%char e in
                    (nth_int l 0, nth_int l 1, nth_int l 2, nth_int l 3))
          <$> split_on ";"%char v).

(** [getParameterValue]: what follows the first '='. *)
Definition getParameterValue (s : string) : option string :=
  match index_of "=" s with Some i => Some (str_drop (i + 1) s) | None => None end.

Definition as_wireId (v : string) : field :=
  FStr (default "" (getParameterValue ("wid=" +:+ v))).

(** The tests in their order: prefix of the token, property, conversion of the
    rest of the token. *)
Definition field_table : list (string * string * (string -> field)) :=
  [("tileposx=", "x", as_num); ("tileposy=", "y", as_num); ("x=", "x", as_num); ("y=", "y", as_num);
   ("tilewidth=", "tileWidth", as_num); ("tileheight=", "tileHeight", as_num);
   ("width=", "width", as_num); ("height=", "height", as_num); ("part=", "part", as_num);
   ("parts=", "parts", as_num); ("mode=", "mode", as_num); ("current=", "selectedPart", as_num);
   ("id=", "id", as_line); ("type=", "type", as_line); ("cmd=", "errorCmd", as_str);
   ("code=", "errorCode", as_str); ("kind=", "errorKind", as_str); ("jail=", "jail", as_str);
   ("dir=", "dir", as_str); ("downloadid=", "downloadid", as_str); ("name=", "name", as_str);
   ("filename=", "filename", as_str); ("port=", "port", as_str); ("font=", "font", as_str);
   ("char=", "char", as_str); ("url=", "url", as_str); ("viewid=", "viewid", as_str);
   ("nviewid=", "nviewid", as_str); ("params=", "params", as_strs);
   ("rendercount=", "rendercount", as_num); ("wid=", "wireId", as_wireId); ("title=", "title", as_str);
   ("dialogwidth=", "dialogwidth", as_str); ("dialogheight=", "dialogheight", as_str);
   ("rectangle=", "rectangle", as_str); ("hiddenparts=", "hiddenparts", as_nums);
   ("selectedparts=", "selectedParts", as_nums); ("rtlparts=", "rtlParts", as_nums);
   ("protectedparts=", "protectedParts", as_nums); ("hash=", "hash", as_str);
   ("username=", "username", as_str); ("pagerectangles=", "pageRectangleList", as_rects);
   ("lastcolumn=", "lastcolumn", as_num); ("lastrow=", "lastrow", as_num);
   ("readonly=", "readonly", as_num)].

Fixpoint find_field (table : list (string * string * (string -> field))) (token : string) :
    option (string * field) :=
  match table with
  | [] => None
  | (p, prop, conv) :: table' =>
      if starts_with token p then Some (prop, conv (str_drop (String.length p) token))
      else find_field table' token
  end.

(** [nopng] is the one token tested as a whole; no prefix of the table matches it. *)
Definition parse_token (token : string) : option (string * field) :=
  if String.eqb token "nopng" then Some ("nopng", FTrue) else find_field field_table token.

Definition add_token (c : command) (token : string) : command :=
  match parse_token token with Some (prop, v) => obj_set prop v c | None => c end.

(** [command.prop] as a number, when it is one that counts as true. *)
Definition truthy_num (prop : string) (c : command) : option Z :=
  match obj_get prop c with
  | Some (FNum (Some n)) => if n =? 0 then None else Some n
  | _ => None
  end.

(** [zoomOf] computes the zoom from the tile width in twips, with the document
    layer's default zoom and tile size ([Math.log] is not modelled); it is absent
    as long as there is no document layer. *)
Definition parseServerCmd (zoomOf : option (Z -> num)) (msg : string) : command :=
  let c := foldl add_token [] (split_tokens msg) in
  match truthy_num "tileWidth" c, truthy_num "tileHeight" c, zoomOf with
  | Some w, Some _, Some z => obj_set "zoom" (FNum (z w)) c
  | _, _, _ => c
  end.

(** Typed access to the result. *)
Definition get_num (prop : string) (c : command) : option num :=
  match obj_get prop c with Some (FNum n) => Some n | _ => None end.
Definition get_str (prop : string) (c : command) : option string :=
  match obj_get prop c with Some (FStr s) => Some s | _ => None end.

(** ** The server's side: [TileDesc::serialize] *)

Record tile_desc := TileDesc {
  d_nviewid : Z; d_part : Z; d_width : Z; d_height : Z; d_tilePosX : Z; d_tilePosY : Z;
  d_tileWidth : Z; d_tileHeight : Z; d_oldWireId : Z; d_wireId : Z; d_ver : Z;
  d_id : Z; d_imgSize : Z; d_mode : Z
}.

Definition print_field (name : string) (v : Z) : string := name +:+ num_to_string v.

Definition desc_tokens (d : tile_desc) : list string :=
  [print_field "nviewid=" (d_nviewid d); print_field "part=" (d_part d);
   print_field "width=" (d_width d); print_field "height=" (d_height d);
   print_field "tileposx=" (d_tilePosX d); print_field "tileposy=" (d_tilePosY d);
   print_field "tilewidth=" (d_tileWidth d); print_field "tileheight=" (d_tileHeight d);
   print_field "oldwid=" (d_oldWireId d); print_field "wid=" (d_wireId d);
   print_field "ver=" (d_ver d)]
  ++ (if 0 <=? d_id d then [print_field "id=" (d_id d)] else [])
  ++ (if 0 <? d_imgSize d then [print_field "imgsize=" (d_imgSize d)] else [])
  ++ (if negb (d_mode d =? 0) then [print_field "mode=" (d_mode d)] else []).

Definition serialize (prefix : string) (d : tile_desc) : string :=
  join " " (prefix :: desc_tokens d).

(** ** Tokens: splitting what was joined *)

Definition token_ok (s : string) : bool :=
  negb (String.eqb s "") && str_forall (fun c => negb (is_sep c)) s.

Lemma split_tokens_single s :
  str_forall (fun c => negb (is_sep c)) s = true -> split_tokens s = [s].
Proof.
  induction s as [|c s IH]; simpl; [done|]. intros [->%negb_true_iff Hs]%andb_true_iff. by rewrite IH.
Qed.

Lemma split_tokens_app s t :
  str_forall (fun c => negb (is_sep c)) s = true -> starts_sep t = false ->
  split_tokens (s +:+ String " " t) = s :: split_tokens t.
Proof.
  intros Hs Ht. induction s as [|c s IH]; simpl in *; str_simpl; simpl; [by rewrite Ht|].
  apply andb_true_iff in Hs as [->%negb_true_iff Hs]. by rewrite IH.
Qed.

Lemma token_ok_starts s t : token_ok s = true -> starts_sep (s +:+ t) = false.
Proof.
  unfold token_ok. destruct s as [|c s]; simpl; [done|]. intros H. str_simpl. simpl.
  apply andb_true_iff in H as [H _]. by apply negb_true_iff.
Qed.

Lemma split_tokens_join l :
  l <> [] -> Forall (fun s => token_ok s = true) l -> split_tokens (join " " l) = l.
Proof.
  intros Hne Hl. unfold join. induction Hl as [|s l Hs Hl IH]; [done|].
  assert (Hs' : str_forall (fun c => negb (is_sep c)) s = true) by by apply andb_true_iff in Hs as [_ Hs].
  destruct l as [|t l]; [by apply split_tokens_single|].
  change (String.concat " " (s :: t :: l)) with (s +:+ " " +:+ String.concat " " (t :: l)).
  rewrite str_app_cons, str_app_nil_l, split_tokens_app; [by rewrite IH|done|].
  apply Forall_cons in Hl as [Ht _]. destruct l as [|u l]; simpl.
  - rewrite <- (str_app_nil_r t). by apply token_ok_starts.
  - by apply token_ok_starts.
Qed.

(** ** Parsing what the server prints *)

Lemma num_to_string_no_sep_char v : str_forall (fun c => negb (is_sep c)) (num_to_string v) = true.
Proof.
  eapply str_forall_impl; [|apply (num_to_string_nonspace v)].
  intros c Hc. apply negb_true_iff. destruct (is_sep c) eqn:E; [|done].
  unfold is_sep in E. apply orb_true_iff in E as [-> %Ascii.eqb_eq | -> %Ascii.eqb_eq]; done.
Qed.

Lemma print_field_ok name v :
  token_ok name = true -> token_ok (print_field name v) = true.
Proof.
  unfold token_ok, print_field. intros [Hne Hname]%andb_true_iff.
  rewrite str_forall_app, Hname, num_to_string_no_sep_char, andb_true_r.
  destruct name; [done|]. by rewrite str_app_cons.
Qed.

Lemma desc_tokens_ok d : Forall (fun s => token_ok s = true) (desc_tokens d).
Proof.
  unfold desc_tokens. repeat case_bool; repeat apply Forall_cons_2; try apply Forall_nil_2;
    by apply print_field_ok.
Qed.

Lemma split_serialize prefix d :
  token_ok prefix = true -> split_tokens (serialize prefix d) = prefix :: desc_tokens d.
Proof.
  intros Hp. unfold serialize. apply split_tokens_join; [done|].
  constructor; [done|apply desc_tokens_ok].
Qed.

(** The fields of a tile message, in the order they are set. *)
Definition desc_command (d : tile_desc) : command :=
  [("nviewid", FStr (num_to_string (d_nviewid d))); ("part", FNum (Some (d_part d)));
   ("width", FNum (Some (d_width d))); ("height", FNum (Some (d_height d)));
   ("x", FNum (Some (d_tilePosX d))); ("y", FNum (Some (d_tilePosY d)));
   ("tileWidth", FNum (Some (d_tileWidth d))); ("tileHeight", FNum (Some (d_tileHeight d)));
   ("wireId", FStr (num_to_string (d_wireId d)))]
  ++ (if 0 <=? d_id d then [("id", FStr (num_to_string (d_id d)))] else [])
  ++ (if negb (d_mode d =? 0) then [("mode", FNum (Some (d_mode d)))] else []).

Lemma remove_newlines_num v : remove_newlines (num_to_string v) = num_to_string v.
Proof.
  pose proof (num_to_string_nonspace v) as H.
  induction (num_to_string v) as [|c s IH]; simpl in *; [done|].
  apply andb_true_iff in H as [Hc Hs]. rewrite IH by done.
  destruct (Ascii.eqb_spec c "010"%char) as [->|]; [done|].
  by destruct (Ascii.eqb_spec c "013"%char) as [->|].
Qed.

Section add_field.
Context (c : command) (v : Z).
Lemma add_nviewid : add_token c (print_field "nviewid=" v) = obj_set "nviewid" (FStr (num_to_string v)) c.
Proof. reflexivity. Qed.
Lemma add_oldwid : add_token c (print_field "oldwid=" v) = c.
Proof. reflexivity. Qed.
Lemma add_ver : add_token c (print_field "ver=" v) = c.
Proof. reflexivity. Qed.
Lemma add_imgsize : add_token c (print_field "imgsize=" v) = c.
Proof. reflexivity. Qed.
Lemma add_wid : add_token c (print_field "wid=" v) = obj_set "wireId" (FStr (num_to_string v)) c.
Proof. reflexivity. Qed.
Lemma add_id : add_token c (print_field "id=" v) = obj_set "id" (FStr (num_to_string v)) c.
Proof.
  transitivity (obj_set "id" (as_line (num_to_string v)) c); [reflexivity|].
  unfold as_line. by rewrite remove_newlines_num.
Qed.
End add_field.

Section add_int.
Context (c : command) (v : Z).

(** The tokens read with [parseInt]. *)
Lemma add_int name prop :
  (forall s, add_token c (name +:+ s) = obj_set prop (FNum (parseInt s)) c) ->
  add_token c (print_field name v) = obj_set prop (FNum (Some v)) c.
Proof. intros H. unfold print_field. by rewrite H, parse_int_num_to_string. Qed.
End add_int.

Lemma parse_desc_tokens d prefix :
  parse_token prefix = None ->
  foldl add_token [] (prefix :: desc_tokens d) = desc_command d.
Proof.
  intros Hp. cbn [foldl].
  replace (add_token [] prefix) with (@nil (string * field)) by (unfold add_token; by rewrite Hp).
  unfold desc_tokens. rewrite !foldl_app. cbn [foldl].
  rewrite add_nviewid, (add_int _ _ "part=" "part"), (add_int _ _ "width=" "width"), (add_int _ _ "height=" "height"),
    (add_int _ _ "tileposx=" "x"), (add_int _ _ "tileposy=" "y"), (add_int _ _ "tilewidth=" "tileWidth"),
    (add_int _ _ "tileheight=" "tileHeight"), add_oldwid, add_wid, add_ver by reflexivity.
  unfold desc_command. repeat case_bool; cbn [foldl];
    rewrite ?add_id, ?add_imgsize, ?(add_int _ _ "mode=" "mode") by reflexivity; reflexivity.
Qed.

Definition desc_zoom (zoomOf : option (Z -> num)) (d : tile_desc) : command :=
  match zoomOf with
  | Some z => if (d_tileWidth d =? 0) || (d_tileHeight d =? 0) then []
              else [("zoom", FNum (z (d_tileWidth d)))]
  | None => []
  end.

Lemma desc_command_truthy d :
  truthy_num "tileWidth" (desc_command d) =
    (if d_tileWidth d =? 0 then None else Some (d_tileWidth d)) /\
  truthy_num "tileHeight" (desc_command d) =
    (if d_tileHeight d =? 0 then None else Some (d_tileHeight d)).
Proof. done. Qed.

Lemma desc_command_set_zoom d v :
  obj_set "zoom" v (desc_command d) = desc_command d ++ [("zoom", v)].
Proof. unfold desc_command. by repeat case_bool. Qed.

Lemma parse_serialize zoomOf prefix d :
  token_ok prefix = true -> parse_token prefix = None ->
  parseServerCmd zoomOf (serialize prefix d) = desc_command d ++ desc_zoom zoomOf d.
Proof.
  intros Hok Hp. unfold parseServerCmd. rewrite split_serialize, parse_desc_tokens by done.
  destruct (desc_command_truthy d) as [-> ->]. unfold desc_zoom.
  destruct (d_tileWidth d =? 0), (d_tileHeight d =? 0), zoomOf;
    rewrite ?desc_command_set_zoom, ?app_nil_r; done.
Qed.

(** ** Properties *)

(** What the server prints about a tile is what the client reads:
    parsing the text of [TileDesc::serialize] gives the description's fields, with
    [oldwid], [ver] and [imgsize] dropped, [id] and [mode] present exactly when
    they were printed, and the zoom that belongs to the tile's size. *)
Theorem parseServerCmd_serialize zoomOf prefix d :
  token_ok prefix = true -> parse_token prefix = None ->
  parseServerCmd zoomOf (serialize prefix d) = desc_command d ++ desc_zoom zoomOf d.
Proof. apply parse_serialize. Qed.

Definition sample_desc : tile_desc :=
  TileDesc 0 2 256 256 7680 3840 3840 3840 12 14 (-1) (-1) 0 1.

Example serialize_sample :
  serialize "tile:" sample_desc =
  "tile: nviewid=0 part=2 width=256 height=256 tileposx=7680 tileposy=3840 tilewidth=3840 tileheight=3840 oldwid=12 wid=14 ver=-1 mode=1".
Proof. reflexivity. Qed.

Lemma parseServerCmd_serialize_witness :
  parseServerCmd (Some (fun w => Some (10 + w - w))) (serialize "tile:" sample_desc)
  = desc_command sample_desc ++ [("zoom", FNum (Some 10))].
Proof. apply parseServerCmd_serialize; reflexivity. Defined.

(** No test of the parser hides a later one: no prefix is a prefix of another, so
    the order of the tests does not matter. *)
Definition prefixes : list string := field_table.*1.*1.

Lemma field_prefixes_disjoint p q :
  p ∈ prefixes -> q ∈ prefixes -> starts_with p q = true -> p = q.
Proof.
  assert (Hall : forallb (fun p => forallb (fun q =>
    negb (starts_with p q) || String.eqb p q) prefixes) prefixes = true) by by vm_compute.
  intros Hp Hq Hpq. rewrite forallb_forall in Hall.
  apply list_elem_of_In in Hp, Hq. specialize (Hall p Hp). rewrite forallb_forall in Hall.
  specialize (Hall q Hq). rewrite Hpq in Hall. by apply String.eqb_eq.
Qed.

Lemma starts_with_longer s p q :
  starts_with s p = true -> starts_with s q = true ->
  starts_with p q = true \/ starts_with q p = true.
Proof.
  revert p q. induction s as [|c s IH]; intros [|a p] [|b q]; simpl; try done; auto.
  intros [->%Ascii.eqb_eq Hp]%andb_true_iff [->%Ascii.eqb_eq Hq]%andb_true_iff.
  rewrite Ascii.eqb_refl. simpl. by apply IH.
Qed.

(** A token is read by the one entry whose prefix it has, wherever that entry
    stands in the table. *)
Theorem parse_token_unique p prop conv s :
  (p, prop, conv) ∈ field_table -> parse_token (p +:+ s) = Some (prop, conv s).
Proof.
  intros Hin. unfold parse_token.
  assert (String.eqb (p +:+ s) "nopng" = false) as ->.
  { assert (Hall : forallb (fun p => negb (starts_with "nopng" p)) prefixes = true) by by vm_compute.
    apply String.eqb_neq. intros E. rewrite forallb_forall in Hall.
    assert (Hp : List.In p prefixes).
    { apply list_elem_of_In. unfold prefixes. apply (list_elem_of_fmap_2' fst _ (p, prop)); [|done].
      by apply (list_elem_of_fmap_2' fst _ (p, prop, conv)). }
    specialize (Hall p Hp). rewrite <- E, starts_with_app in Hall. done. }
  assert (Hnd : NoDup prefixes) by (apply (bool_decide_unpack _); by vm_compute).
  assert (Hsub : forall x, x ∈ field_table.*1.*1 -> x ∈ prefixes) by done.
  assert (Hpp : p ∈ prefixes).
  { unfold prefixes. apply (list_elem_of_fmap_2' fst _ (p, prop)); [|done].
    by apply (list_elem_of_fmap_2' fst _ (p, prop, conv)). }
  unfold prefixes in Hnd. revert Hin Hnd Hsub. generalize field_table as table.
  induction table as [|[[q qprop] qconv] table IH]; intros Hin Hnd Hsub; [by apply not_elem_of_nil in Hin|].
  csimpl in *. apply NoDup_cons in Hnd as [Hq Hnd].
  destruct (starts_with (p +:+ s) q) eqn:Hst.
  - assert (p = q) as <-.
    { destruct (starts_with_longer (p +:+ s) p q) as [?|?]; auto using starts_with_app.
      - apply field_prefixes_disjoint; auto. apply Hsub, list_elem_of_here.
      - symmetry. apply field_prefixes_disjoint; auto. apply Hsub, list_elem_of_here. }
    rewrite str_drop_app. apply elem_of_cons in Hin as [[= -> ->]|Hin]; [done|].
    destruct Hq. apply (list_elem_of_fmap_2' fst _ (p, prop)); [|done].
    by apply (list_elem_of_fmap_2' fst _ (p, prop, conv)).
  - apply IH; [|done|intros x Hx; apply Hsub; by apply list_elem_of_further]. apply elem_of_cons in Hin as [[= -> -> ->]|Hin]; [|done].
    by rewrite starts_with_app in Hst.
Qed.

Lemma parse_token_unique_witness :
  ("part=", "part", as_num) ∈ field_table /\
  parse_token ("part=" +:+ "7 ") = Some ("part", FNum (Some 7)).
Proof.
  assert (H : ("part=", "part", as_num) ∈ field_table) by (unfold field_table; set_solver).
  split; [done|]. apply (parse_token_unique "part=" "part" as_num "7 " H).
Defined.
