(* ===== verification/TileRequest.v ===== *)
(** * Requesting tiles

    How [L.CanvasTileLayer] finds the tiles it misses, groups them and asks the
    server for them: [_getMissingTiles], [_update], [_addTiles] and
    [_sendTileCombineRequest]
    (src/browser/src/layer/tile/CanvasTileLayer.js).  Messages are kept as
    records next to the text that is sent. *)

From S2P Require Import Prelude Sorts JsText JsObject Geometry TileCoords Tiles.
Local Open Scope Z_scope.

(** The settings of the layer the requests depend on. *)
Record view := View {
  vgrid : grid;
  splitPanes : option (bounds -> list bounds);
  selectedPart : Z;
  selectedMode : Z;
  tileWidthPx : Z;
  tileHeightPx : Z
}.

(** ** [_sendTileCombineRequest] *)

(** [(coords.part << 8) + coords.mode] *)
Definition pmKey (c : coord) : string :=
  num_to_string (int32 (Z.shiftl (int32 (cpart c)) 8) + cmode c).

Definition add_to_bucket (partMode : obj (list coord)) (c : coord) : obj (list coord) :=
  obj_set (pmKey c) (default [] (obj_get (pmKey c) partMode) ++ [c]) partMode.

Definition buckets (queue : list coord) : obj (list coord) := foldl add_to_bucket [] queue.

(** Request each tile just once; [added] holds the keys seen so far. *)
Fixpoint uniqify (added : list string) (l : list coord) : list coord :=
  match l with
  | [] => []
  | c :: l' =>
      if bool_decide (tileCoordsToKey c ∈ added) then uniqify added l'
      else c :: uniqify (tileCoordsToKey c :: added) l'
  end.

Definition tile_wid (s : store) (c : coord) : num :=
  match obj_get (tileCoordsToKey c) (tiles s) with Some t => wireId t | None => Some 0 end.

Record combine_request := Combine {
  rq_part : Z;
  rq_mode : Z;
  rq_coords : list coord;
  rq_oldwids : list num
}.

Definition bucket_request (s : store) (partTileQueue : list coord) : option combine_request :=
  match partTileQueue with
  | [] => None
  | c :: _ =>
      let l := uniqify [] partTileQueue in
      Some (Combine (cpart c) (cmode c) l (tile_wid s <$> l))
  end.

Definition combine_requests (s : store) (queue : list coord) : list combine_request :=
  let partMode := buckets queue in
  omap (fun k => obj_get k partMode ≫= bucket_request s) (own_keys partMode).

Definition num_str (n : num) : string :=
  match n with Some z => num_to_string z | None => "NaN" end.

Definition print_request (v : view) (r : combine_request) : string :=
  let g := vgrid v in
  "tilecombine " +:+ "nviewid=0 " +:+ "part=" +:+ num_to_string (rq_part r) +:+ " " +:+
  (if negb (rq_mode r =? 0) then "mode=" +:+ num_to_string (rq_mode r) +:+ " " else "") +:+
  "width=" +:+ num_to_string (tileWidthPx v) +:+ " " +:+
  "height=" +:+ num_to_string (tileHeightPx v) +:+ " " +:+
  "tileposx=" +:+ join "," ((fun c => num_to_string (px (coordsToTwips g c))) <$> rq_coords r) +:+ " " +:+
  "tileposy=" +:+ join "," ((fun c => num_to_string (py (coordsToTwips g c))) <$> rq_coords r) +:+ " " +:+
  "oldwid=" +:+ join "," (num_str <$> rq_oldwids r) +:+ " " +:+
  "tilewidth=" +:+ num_to_string (tileWidthTwips g) +:+ " " +:+
  "tileheight=" +:+ num_to_string (tileHeightTwips g).

Definition sendTileCombineRequest (v : view) (s : store) (queue : list coord) : list string :=
  print_request v <$> combine_requests s queue.

(** ** [_addTiles] *)

Definition is_selected (v : view) (c : coord) : bool :=
  (cpart c =? selectedPart v) && (cmode c =? selectedMode v).

Definition createTiles (v : view) (now : num) (queue : list coord) (s : store) : store :=
  foldl (fun s c =>
    if is_selected v c && negb (obj_has (tileCoordsToKey c) (tiles s))
    then createTile c (tileCoordsToKey c) now s else s) s queue.

(** The comparison the queue is sorted with: by rows. *)
Definition by_rows (a b : coord) : num :=
  if negb (cy a =? cy b) then Some (cy a - cy b) else Some (cx a - cx b).

(** The inner loop of the grouping: what is taken into the rectangle and what is
    left in the queue. *)
Fixpoint grow_rect (tileSize : Z) (bound : point) (rowLocked hasHole : bool) (rest : list coord) :
    list coord * list coord :=
  match rest with
  | [] => ([], [])
  | current :: rest' =>
      let extend := negb hasHole && (cy current =? py bound + tileSize) in
      let rowLocked := rowLocked || extend in
      let bound := if extend then Point (px bound) (py bound + tileSize) else bound in
      if py bound <? cy current then ([], rest)
      else if negb rowLocked then
        if (cy current =? py bound) && (cx current =? px bound + tileSize) then
          let '(taken, kept) := grow_rect tileSize (Point (px bound + tileSize) (py bound))
                                  rowLocked hasHole rest' in
          (current :: taken, kept)
        else
          let '(taken, kept) := grow_rect tileSize bound true hasHole rest' in
          (taken, current :: kept)
      else if (cx current <=? px bound) && (cy current <=? py bound) then
        let '(taken, kept) := grow_rect tileSize bound rowLocked hasHole rest' in
        (current :: taken, kept)
      else
        let '(taken, kept) := grow_rect tileSize bound rowLocked true rest' in
        (taken, current :: kept)
  end.

Definition interesting (v : view) (s : store) (c : coord) : bool :=
  negb (negb (tileNeedsFetch (tileCoordsToKey c) s) || negb (is_selected v c)).

(** The outer loop; each turn removes a tile from the queue. *)
Fixpoint group_rects (fuel : nat) (v : view) (s : store) (queue : list coord) : list (list coord) :=
  match fuel, queue with
  | _, [] => []
  | O, _ => []
  | S fuel', c :: queue' =>
      if interesting v s c then
        let '(taken, kept) := grow_rect (tileSize (vgrid v)) (getPos c) false false queue' in
        (c :: taken) :: group_rects fuel' v s kept
      else group_rects fuel' v s queue'
  end.

Definition rectangles (v : view) (s : store) (queue : list coord) : list (list coord) :=
  group_rects (length queue) v s queue.

Definition addTiles (v : view) (now : num) (queue : list coord) (s : store) :
    store * list combine_request :=
  let s' := createTiles v now queue s in
  let queue' := js_sort by_rows queue in
  (s', rectangles v s' queue' ≫= combine_requests s').

(** ** [_getMissingTiles] *)

Definition range_coords (v : view) (zoom : Z) (r : bounds) : list coord :=
  j ← seqZ (py (bmin r)) (py (bmax r) - py (bmin r) + 1);
  i ← seqZ (px (bmin r)) (px (bmax r) - px (bmin r) + 1);
  [Coord (i * tileSize (vgrid v)) (j * tileSize (vgrid v)) zoom (selectedPart v) (selectedMode v)].

Definition visit_tile (v : view) (sq : store * list coord) (c : coord) : store * list coord :=
  let '(s, queue) := sq in
  if negb (isValidTile (vgrid v) c) then (s, queue)
  else
    match obj_get (tileCoordsToKey c) (tiles s) with
    | Some t =>
        if negb (needsFetch t) then (alter_tile (set_current true) (tileCoordsToKey c) s, queue)
        else (s, queue ++ [c])
    | None => (s, queue ++ [c])
    end.

Definition visited_coords (v : view) (zoom : Z) (pixelBounds : bounds) : list coord :=
  pxBoundsToTileRanges (vgrid v) (splitPanes v) pixelBounds ≫= range_coords v zoom.

Definition getMissingTiles (v : view) (pixelBounds : bounds) (zoom : Z) (s : store) :
    store * list coord :=
  foldl (visit_tile v) (s, []) (visited_coords v zoom pixelBounds).

(** ** [_update] *)

(** A tile stays current when its key has the zoom, part and mode in view. *)
Definition in_selection (v : view) (zoom : Z) (k : string) : bool :=
  let c := keyToTileCoords k in
  num_eqb (kz c) (Some zoom) && num_eqb (kpart c) (Some (selectedPart v)) &&
  num_eqb (kmode c) (Some (selectedMode v)).

Definition unmark_others (v : view) (zoom : Z) (s : store) : store :=
  set_tiles (obj_imap (fun k t => if in_selection v zoom k then t else set_current false t)
                      (tiles s)) s.

(** The part of [_update] that follows its early returns, without the view
    messages ([_sendClientVisibleArea], [_sendClientZoom]) and without starting
    the prefetch timers. *)
Definition update (v : view) (pixelBounds : bounds) (zoom : Z) (now : num) (s : store) :
    store * list combine_request :=
  let '(s', queue) := getMissingTiles v pixelBounds zoom (unmark_others v zoom s) in
  if (length queue =? 0)%nat then (s', []) else addTiles v now queue s'.

(** ** Buckets *)

Lemma buckets_get_aux queue pm k :
  obj_get k (foldl add_to_bucket pm queue) =
    match default [] (obj_get k pm) ++ filter (fun c => pmKey c = k) queue with
    | [] => obj_get k pm
    | l => Some l
    end.
Proof.
  revert pm. induction queue as [|c queue IH]; intros pm; simpl.
  - rewrite app_nil_r. by destruct (obj_get k pm) as [[]|].
  - rewrite IH. unfold add_to_bucket. rewrite obj_get_set, filter_cons.
    repeat case_decide; subst; simpl; try done. rewrite <- app_assoc; simpl.
    by destruct (default [] (obj_get (pmKey c) pm)).
Qed.

(** A bucket holds the coordinates with its key, in the order of the queue. *)
Lemma buckets_get queue k :
  obj_get k (buckets queue) =
    match filter (fun c => pmKey c = k) queue with [] => None | l => Some l end.
Proof. unfold buckets. by rewrite buckets_get_aux. Qed.

Lemma buckets_wf queue : obj_wf (buckets queue).
Proof.
  unfold buckets. generalize (obj_wf_nil (A := list coord)). generalize (@nil (string * list coord)) as pm.
  intros pm. revert pm. induction queue; intros pm Hpm; simpl; [done|].
  apply IHqueue. by apply obj_wf_set.
Qed.

Lemma elem_of_own_keys_buckets queue k :
  k ∈ own_keys (buckets queue) <-> exists c, c ∈ queue /\ pmKey c = k.
Proof.
  unfold own_keys. rewrite elem_of_own_keys_order, <- obj_get_is_Some, buckets_get. split.
  - destruct (filter _ queue) as [|c l] eqn:E; [by intros [? [=]]|]. intros _. exists c.
    assert (c ∈ filter (fun c => pmKey c = k) queue) as Hc by (rewrite E; by left).
    apply list_elem_of_filter in Hc. naive_solver.
  - intros (c & Hc & Hk).
    assert (c ∈ filter (fun c => pmKey c = k) queue) as Hf by by apply list_elem_of_filter.
    destruct (filter _ queue); [by apply not_elem_of_nil in Hf|by eexists].
Qed.

Lemma NoDup_own_keys_buckets queue : NoDup (own_keys (buckets queue)).
Proof. apply NoDup_own_keys_order, buckets_wf. Qed.

(** ** Requesting each tile once *)

Lemma elem_of_uniqify added l c :
  c ∈ uniqify added l <-> c ∈ l /\ key c ∉ added.
Proof.
  revert added. induction l as [|d l IH]; intros added; simpl.
  { split; [by intros ?%not_elem_of_nil|by intros [?%not_elem_of_nil _]]. }
  unfold tileCoordsToKey. case_bool_decide as Hd.
  - rewrite IH, elem_of_cons. naive_solver.
  - rewrite !elem_of_cons, IH, not_elem_of_cons. split.
    + intros [->|(? & ? & ?)]; auto.
    + intros [[->|Hin] Hk]; [by left|]. destruct (decide (c = d)) as [->|Hne]; [by left|right].
      split_and!; [done| |done]. intros E%key_inj. done.
Qed.

Lemma NoDup_uniqify added l : NoDup (uniqify added l).
Proof.
  revert added. induction l as [|d l IH]; intros added; simpl; [constructor|].
  case_bool_decide; [done|]. apply NoDup_cons. split; [|done].
  rewrite elem_of_uniqify. unfold tileCoordsToKey. set_solver.
Qed.

(** The coordinates a bucket's request holds. *)
Definition bucket_coords (queue : list coord) (k : string) : list coord :=
  uniqify [] (filter (fun c => pmKey c = k) queue).

Lemma elem_of_bucket_coords queue k c : c ∈ bucket_coords queue k <-> c ∈ queue /\ pmKey c = k.
Proof.
  unfold bucket_coords. rewrite elem_of_uniqify, list_elem_of_filter.
  split; [tauto|]. intros [? ?]. split; [done|]. apply not_elem_of_nil.
Qed.

Lemma bucket_request_get s queue k :
  k ∈ own_keys (buckets queue) ->
  exists c, c ∈ queue /\ pmKey c = k /\
    obj_get k (buckets queue) ≫= bucket_request s
    = Some (Combine (cpart c) (cmode c) (bucket_coords queue k)
                    (tile_wid s <$> bucket_coords queue k)).
Proof.
  intros (c0 & Hc0 & Hk)%elem_of_own_keys_buckets. rewrite buckets_get. unfold bucket_coords.
  destruct (filter (fun c => pmKey c = k) queue) as [|c l] eqn:E.
  - assert (c0 ∈ filter (fun c => pmKey c = k) queue) as Hf by by apply list_elem_of_filter.
    rewrite E in Hf. by apply not_elem_of_nil in Hf.
  - assert (c ∈ filter (fun c => pmKey c = k) queue) as Hc by (rewrite E; by left).
    apply list_elem_of_filter in Hc as [? ?]. exists c. split_and!; done.
Qed.

Lemma requests_coords s queue :
  combine_requests s queue ≫= rq_coords = own_keys (buckets queue) ≫= bucket_coords queue.
Proof.
  unfold combine_requests. pose proof (bucket_request_get s queue) as H. revert H.
  generalize (own_keys (buckets queue)) as ks. induction ks as [|k ks IH]; intros H; csimpl; [done|].
  destruct (H k) as (c & _ & _ & ->); [by left|]. csimpl. rewrite IH; [done|].
  intros k' Hk'. apply H. by right.
Qed.

Lemma elem_of_requests_coords s queue c :
  c ∈ combine_requests s queue ≫= rq_coords <-> c ∈ queue.
Proof.
  rewrite requests_coords, list_elem_of_bind. split.
  - intros (k & Hc & _). by apply elem_of_bucket_coords in Hc as [].
  - intros Hc. exists (pmKey c). split; [by apply elem_of_bucket_coords|].
    apply elem_of_own_keys_buckets. by exists c.
Qed.

Lemma NoDup_requests_coords s queue : NoDup (combine_requests s queue ≫= rq_coords).
Proof.
  rewrite requests_coords. pose proof (NoDup_own_keys_buckets queue) as Hnd. revert Hnd.
  generalize (own_keys (buckets queue)) as ks. induction ks as [|k ks IH]; csimpl; [constructor|].
  intros [Hk Hnd]%NoDup_cons. apply NoDup_app. split_and!; [apply NoDup_uniqify| |by apply IH].
  intros c Hc (k' & Hc' & Hk')%list_elem_of_bind.
  apply elem_of_bucket_coords in Hc as [_ <-], Hc' as [_ <-]. done.
Qed.

Lemma elem_of_combine_requests s queue r :
  r ∈ combine_requests s queue ->
  exists c, c ∈ queue /\
    r = Combine (cpart c) (cmode c) (bucket_coords queue (pmKey c))
                (tile_wid s <$> bucket_coords queue (pmKey c)).
Proof.
  unfold combine_requests. intros (k & Hk & E)%list_elem_of_omap.
  destruct (bucket_request_get s queue k Hk) as (c & Hc & Hkey & E'). rewrite E' in E.
  injection E as <-. exists c. by rewrite Hkey.
Qed.

(** Parts and modes for which the bucket key does not overlap. *)
Definition pm_ok (c : coord) : Prop := 0 <= cpart c < 2 ^ 23 /\ 0 <= cmode c < 2 ^ 8.

Lemma pmKey_inj c d :
  pm_ok c -> pm_ok d -> pmKey c = pmKey d -> cpart c = cpart d /\ cmode c = cmode d.
Proof.
  intros [Hc Hcm] [Hd Hdm] E. unfold pmKey in E. apply num_to_string_inj in E.
  assert (Hs : forall p, 0 <= p < 2 ^ 23 -> int32 (Z.shiftl (int32 p) 8) = p * 256).
  { intros p Hp. rewrite (int32_small p) by lia. rewrite Z.shiftl_mul_pow2 by lia.
    apply int32_small. lia. }
  rewrite !Hs in E by done. lia.
Qed.

(** ** Sorting and grouping *)

Lemma grow_rect_perm ts bound locked hole rest :
  (grow_rect ts bound locked hole rest).1 ++ (grow_rect ts bound locked hole rest).2 ≡ₚ rest.
Proof.
  revert bound locked hole. induction rest as [|c rest IH]; intros bound locked hole; simpl; [done|].
  set (b := if negb hole && _ then _ else bound). set (lk := locked || _).
  destruct (py b <? cy c); [done|].
  destruct (negb lk); [destruct ((cy c =? py b) && _)|destruct ((cx c <=? px b) && _)];
    match goal with |- context [grow_rect ts ?b' ?l' ?h' rest] =>
      specialize (IH b' l' h'); destruct (grow_rect ts b' l' h' rest) as [taken kept] end;
    simpl in *; rewrite <- ?Permutation_middle; by rewrite IH.
Qed.

Lemma NoDup_submseteq {A} (l1 l2 : list A) : l1 ⊆+ l2 -> NoDup l2 -> NoDup l1.
Proof. intros [k ->]%submseteq_Permutation Hnd. by apply NoDup_app in Hnd as []. Qed.

(** The rectangles hold tiles of the queue, none more often than the queue ... *)
Lemma group_rects_sub fuel v s queue : concat (group_rects fuel v s queue) ⊆+ queue.
Proof.
  revert queue. induction fuel as [|fuel IH]; intros [|c queue]; simpl; try apply submseteq_nil_l.
  destruct (interesting v s c); [|by apply submseteq_cons].
  pose proof (grow_rect_perm (tileSize (vgrid v)) (getPos c) false false queue) as Hperm.
  destruct (grow_rect (tileSize (vgrid v)) (getPos c) false false queue) as [taken kept].
  simpl in *. apply submseteq_skip. rewrite <- Hperm. by apply submseteq_skips_l.
Qed.

(** ... and every tile of interest. *)
Lemma group_rects_interesting fuel v s queue c :
  (length queue <= fuel)%nat -> c ∈ queue -> interesting v s c = true ->
  c ∈ concat (group_rects fuel v s queue).
Proof.
  revert queue. induction fuel as [|fuel IH]; intros [|d queue] Hfuel Hc Hint;
    try (by apply not_elem_of_nil in Hc); simpl in *; try lia.
  destruct (interesting v s d) eqn:Hd.
  - pose proof (grow_rect_perm (tileSize (vgrid v)) (getPos d) false false queue) as Hperm.
    destruct (grow_rect (tileSize (vgrid v)) (getPos d) false false queue) as [taken kept].
    simpl in *. apply elem_of_cons in Hc as [->|Hc]; [by left|]. right.
    rewrite <- Hperm in Hc. apply elem_of_app in Hc as [Hc|Hc]; apply elem_of_app; [by left|right].
    apply IH; [|done..]. apply Permutation_length in Hperm. rewrite length_app in Hperm. lia.
  - apply elem_of_cons in Hc as [->|Hc]; [congruence|]. apply IH; [lia|done..].
Qed.

Lemma rectangles_exact v s queue :
  Forall (fun c => interesting v s c = true) queue ->
  forall c, c ∈ concat (rectangles v s queue) <-> c ∈ queue.
Proof.
  intros Hall c. rewrite Forall_forall in Hall. split.
  - intros Hc. eapply elem_of_submseteq; [exact Hc|apply group_rects_sub].
  - intros Hc. by apply group_rects_interesting; [|done|apply Hall].
Qed.

(** The coordinates requested for a list of rectangles. *)
Lemma elem_of_rect_requests s rects c :
  c ∈ (rects ≫= combine_requests s) ≫= rq_coords <-> c ∈ concat rects.
Proof.
  induction rects as [|r rects IH]; csimpl; [done|].
  rewrite bind_app, !elem_of_app, elem_of_requests_coords, IH. done.
Qed.

Lemma NoDup_rect_requests s rects :
  NoDup (concat rects) -> NoDup ((rects ≫= combine_requests s) ≫= rq_coords).
Proof.
  induction rects as [|r rects IH]; csimpl; [done|]. rewrite bind_app.
  intros (Hr & Hd & Hrs)%NoDup_app. apply NoDup_app.
  split_and!; [apply NoDup_requests_coords| |by apply IH].
  intros c Hc. rewrite elem_of_requests_coords in Hc. rewrite elem_of_rect_requests. by apply Hd.
Qed.

(** ** Creating tiles *)

Lemma createTile_get c now s k :
  obj_get k (tiles (createTile c (key c) now s)) =
    match obj_get k (tiles s) with
    | Some t => Some t
    | None => if decide (key c = k) then Some (new_tile c now) else None
    end.
Proof.
  unfold createTile. destruct (obj_get (key c) (tiles s)) eqn:E; simpl.
  - case_decide; [subst; by rewrite E|]. by destruct (obj_get k (tiles s)).
  - rewrite obj_get_set. case_decide; [subst; by rewrite E|]. by destruct (obj_get k (tiles s)).
Qed.

Lemma createTiles_get v now queue s k :
  obj_get k (tiles (createTiles v now queue s)) =
    match obj_get k (tiles s) with
    | Some t => Some t
    | None => match filter (fun c => key c = k /\ is_selected v c = true) queue with
              | [] => None
              | c :: _ => Some (new_tile c now)
              end
    end.
Proof.
  unfold createTiles, tileCoordsToKey. revert s. induction queue as [|c queue IH]; intros s; simpl.
  { by destruct (obj_get k (tiles s)). }
  rewrite IH, filter_cons. unfold obj_has.
  destruct (is_selected v c) eqn:Hsel; simpl.
  2: { rewrite decide_False by (intros [_ ?]; congruence). done. }
  destruct (obj_get (key c) (tiles s)) as [u|] eqn:Hu; simpl.
  - destruct (obj_get k (tiles s)) eqn:E; [done|].
    rewrite decide_False; [done|]. intros [<- _]. congruence.
  - rewrite createTile_get. destruct (obj_get k (tiles s)); [done|].
    repeat case_decide; naive_solver.
Qed.

Lemma createTiles_ok v now queue s : store_ok s -> store_ok (createTiles v now queue s).
Proof.
  unfold createTiles, tileCoordsToKey. revert s. induction queue as [|c queue IH]; intros s Hok; simpl;
    [done|]. apply IH. by case_bool; auto with oxool.
Qed.

(** A tile that is created needs its content. *)
Lemma createTiles_needsFetch v now queue s k :
  tileNeedsFetch k (createTiles v now queue s) = tileNeedsFetch k s.
Proof.
  unfold tileNeedsFetch. rewrite createTiles_get. destruct (obj_get k (tiles s)); [done|].
  by destruct (filter _ queue).
Qed.

(** ** Finding the missing tiles *)

(** A visible tile the queue must ask for. *)
Definition wanted (v : view) (s : store) (c : coord) : bool :=
  isValidTile (vgrid v) c && tileNeedsFetch (key c) s.

(** A tile the visit marks as current: visible, and up to date. *)
Definition marks (v : view) (k : string) (t : tile) (cs : list coord) : bool :=
  existsb (fun c => isValidTile (vgrid v) c && String.eqb (key c) k && negb (needsFetch t)) cs.

Lemma mark_needsFetch b t : needsFetch (set_current b t) = needsFetch t.
Proof. done. Qed.

Lemma alter_current_needsFetch b k k' s :
  tileNeedsFetch k (alter_tile (set_current b) k' s) = tileNeedsFetch k s.
Proof.
  unfold tileNeedsFetch, alter_tile; simpl. rewrite obj_get_alter. case_decide; [|done].
  by destruct (obj_get k (tiles s)).
Qed.

Lemma visit_tile_fold v cs s q :
  let '(s', q') := foldl (visit_tile v) (s, q) cs in
  q' = q ++ List.filter (wanted v s) cs /\
  forall k, obj_get k (tiles s') =
    (fun t => if marks v k t cs then set_current true t else t) <$> obj_get k (tiles s).
Proof.
  revert s q. induction cs as [|c cs IH]; intros s q; simpl.
  { rewrite app_nil_r. split; [done|]. intros k. by destruct (obj_get k (tiles s)). }
  unfold wanted at 1, tileNeedsFetch, tileCoordsToKey.
  destruct (isValidTile (vgrid v) c) eqn:Hv; simpl.
  2: { specialize (IH s q). destruct (foldl _ (s, q) cs). done. }
  destruct (obj_get (key c) (tiles s)) as [t|] eqn:Hg; simpl.
  2: { specialize (IH s (q ++ [c])). destruct (foldl _ (s, q ++ [c]) cs) as [s' q'].
       destruct IH as [-> IH]. split; [by rewrite <- app_assoc|]. intros k. rewrite IH.
       destruct (obj_get k (tiles s)) eqn:E; simpl; [|done].
       destruct (String.eqb_spec (key c) k) as [<-|]; [congruence|done]. }
  destruct (needsFetch t) eqn:Hn; simpl.
  - specialize (IH s (q ++ [c])). destruct (foldl _ (s, q ++ [c]) cs) as [s' q'].
    destruct IH as [-> IH]. split; [by rewrite <- app_assoc|]. intros k. rewrite IH.
    destruct (obj_get k (tiles s)) as [u|] eqn:E; simpl; [|done].
    destruct (String.eqb_spec (key c) k) as [<-|]; [|done].
    rewrite Hg in E. injection E as <-. by rewrite Hn.
  - specialize (IH (alter_tile (set_current true) (key c) s) q).
    destruct (foldl _ (alter_tile _ _ s, q) cs) as [s' q']. destruct IH as [-> IH]. split.
    + f_equal. apply List.filter_ext. intros d. unfold wanted. by rewrite alter_current_needsFetch.
    + intros k. rewrite IH. simpl. rewrite obj_get_alter.
      destruct (String.eqb_spec (key c) k) as [<-|]; [rewrite decide_True by done|by rewrite decide_False].
      rewrite Hg. simpl. unfold marks. rewrite Hn. simpl.
      change (needsFetch (set_current true t)) with (needsFetch t).
      by case_match.
Qed.

Lemma getMissingTiles_spec v b zoom s :
  let '(s', q) := getMissingTiles v b zoom s in
  let cs := visited_coords v zoom b in
  q = List.filter (wanted v s) cs /\
  forall k, obj_get k (tiles s') =
    (fun t => if marks v k t cs then set_current true t else t) <$> obj_get k (tiles s).
Proof. apply visit_tile_fold. Qed.

Lemma getMissingTiles_needsFetch v b zoom s k :
  tileNeedsFetch k (getMissingTiles v b zoom s).1 = tileNeedsFetch k s.
Proof.
  pose proof (getMissingTiles_spec v b zoom s) as H.
  destruct (getMissingTiles v b zoom s) as [s' q]. destruct H as [_ H].
  unfold tileNeedsFetch; simpl. rewrite H. destruct (obj_get k (tiles s)); simpl; [|done].
  by case_match.
Qed.

Lemma unmark_others_get v zoom s k :
  obj_get k (tiles (unmark_others v zoom s)) =
    (fun t => if in_selection v zoom k then t else set_current false t) <$> obj_get k (tiles s).
Proof.
  apply (obj_get_imap (fun k t => if in_selection v zoom k then t else set_current false t)).
Qed.

Lemma unmark_others_needsFetch v zoom s k :
  tileNeedsFetch k (unmark_others v zoom s) = tileNeedsFetch k s.
Proof.
  unfold tileNeedsFetch. rewrite unmark_others_get. destruct (obj_get k (tiles s)); simpl; [|done].
  by case_match.
Qed.

Lemma visited_selected v zoom b c : c ∈ visited_coords v zoom b -> is_selected v c = true.
Proof.
  unfold visited_coords, range_coords.
  intros (r & (j & (i & Hc & _)%list_elem_of_bind & _)%list_elem_of_bind & _)%list_elem_of_bind.
  apply list_elem_of_singleton in Hc as ->. unfold is_selected; simpl. by rewrite !Z.eqb_refl.
Qed.

(** Without split panes no tile is visited twice. *)
Lemma NoDup_visited v zoom b :
  grid_ok (vgrid v) -> splitPanes v = None -> NoDup (visited_coords v zoom b).
Proof.
  intros (Hts & _) Hp. unfold visited_coords, pxBoundsToTileRanges. rewrite Hp. csimpl.
  rewrite app_nil_r. generalize (pxBoundsToTileRange (vgrid v) b) as r. intros r. unfold range_coords.
  pose proof (NoDup_seqZ (py (bmin r)) (py (bmax r) - py (bmin r) + 1)) as Hj. revert Hj.
  generalize (seqZ (py (bmin r)) (py (bmax r) - py (bmin r) + 1)) as js.
  induction js as [|j js IH]; csimpl; [constructor|]. intros [Hj Hjs]%NoDup_cons.
  apply NoDup_app. split_and!; [| |by apply IH].
  - pose proof (NoDup_seqZ (px (bmin r)) (px (bmax r) - px (bmin r) + 1)) as Hi. revert Hi.
    generalize (seqZ (px (bmin r)) (px (bmax r) - px (bmin r) + 1)) as is_.
    induction is_ as [|i is_ IHi]; csimpl; [constructor|]. intros [Hi His]%NoDup_cons.
    apply NoDup_cons. split; [|by apply IHi].
    intros (i' & Hc & Hi')%list_elem_of_bind. apply list_elem_of_singleton in Hc as [= E].
    apply Z.mul_reg_r in E; [|lia]. by subst.
  - intros c (i & Hc & _)%list_elem_of_bind (j' & (i' & Hc' & _)%list_elem_of_bind & Hj')%list_elem_of_bind.
    apply list_elem_of_singleton in Hc as ->, Hc' as [= _ E].
    apply Z.mul_reg_r in E; [|lia]. by subst.
Qed.

(** ** What an update does *)

(** The queue of an update and the store it is sent from. *)
Definition update_queue (v : view) (b : bounds) (zoom : Z) (s : store) : list coord :=
  List.filter (wanted v s) (visited_coords v zoom b).
Definition update_store (v : view) (b : bounds) (zoom : Z) (now : num) (s : store) : store :=
  createTiles v now (update_queue v b zoom s)
              (getMissingTiles v b zoom (unmark_others v zoom s)).1.

Lemma update_unfold v b zoom now s :
  let s2 := update_store v b zoom now s in
  update v b zoom now s
  = (s2, rectangles v s2 (js_sort by_rows (update_queue v b zoom s)) ≫= combine_requests s2).
Proof.
  cbv zeta. unfold update, update_store, update_queue.
  pose proof (getMissingTiles_spec v b zoom (unmark_others v zoom s)) as H.
  destruct (getMissingTiles v b zoom (unmark_others v zoom s)) as [s1 q]. destruct H as [-> _]. simpl.
  assert (List.filter (wanted v (unmark_others v zoom s)) (visited_coords v zoom b)
          = List.filter (wanted v s) (visited_coords v zoom b)) as ->.
  { apply List.filter_ext. intros c. unfold wanted. by rewrite unmark_others_needsFetch. }
  by destruct (List.filter (wanted v s) (visited_coords v zoom b)).
Qed.

Lemma elem_of_list_filter_bool {A} (f : A -> bool) l x : x ∈ List.filter f l <-> x ∈ l /\ f x = true.
Proof. by rewrite !list_elem_of_In, List.filter_In. Qed.

Section update_facts.
Context (v : view) (b : bounds) (zoom : Z) (now : num) (s : store).

Lemma update_needsFetch k : tileNeedsFetch k (update_store v b zoom now s) = tileNeedsFetch k s.
Proof.
  unfold update_store.
  by rewrite createTiles_needsFetch, getMissingTiles_needsFetch, unmark_others_needsFetch.
Qed.

Lemma elem_of_update_queue c :
  c ∈ update_queue v b zoom s <->
  c ∈ visited_coords v zoom b /\ isValidTile (vgrid v) c = true /\
  tileNeedsFetch (key c) s = true.
Proof. unfold update_queue, wanted. by rewrite elem_of_list_filter_bool, andb_true_iff. Qed.

Lemma queue_interesting :
  Forall (fun c => interesting v (update_store v b zoom now s) c = true)
         (js_sort by_rows (update_queue v b zoom s)).
Proof.
  apply Forall_forall. intros c. rewrite js_sort_perm. intros (Hc & _ & Hf)%elem_of_update_queue.
  unfold interesting, tileCoordsToKey. rewrite update_needsFetch, Hf.
  by rewrite (visited_selected v zoom b c).
Qed.

Lemma elem_of_update_groups c :
  c ∈ concat (rectangles v (update_store v b zoom now s)
                (js_sort by_rows (update_queue v b zoom s)))
  <-> c ∈ update_queue v b zoom s.
Proof. rewrite rectangles_exact by apply queue_interesting. by rewrite js_sort_perm. Qed.

Lemma update_tile c :
  c ∈ visited_coords v zoom b -> isValidTile (vgrid v) c = true ->
  exists t, obj_get (key c) (tiles (update_store v b zoom now s)) = Some t /\
    needsFetch t = tileNeedsFetch (key c) s /\ (needsFetch t = false -> current t = true).
Proof.
  intros Hc Hv. unfold update_store. rewrite createTiles_get.
  pose proof (getMissingTiles_spec v b zoom (unmark_others v zoom s)) as H.
  destruct (getMissingTiles v b zoom (unmark_others v zoom s)) as [s1 q].
  destruct H as [_ H]. simpl. rewrite H, unmark_others_get. unfold tileNeedsFetch.
  destruct (obj_get (key c) (tiles s)) as [t|] eqn:Hg; simpl.
  - set (u := if in_selection v zoom (key c) then t else set_current false t).
    assert (Hu : needsFetch u = needsFetch t) by by (unfold u; case_match).
    assert (Hm : needsFetch t = false -> marks v (key c) u (visited_coords v zoom b) = true).
    { intros Hn. unfold marks. apply list_elem_of_existsb. exists c. split; [done|].
      by rewrite Hv, String.eqb_refl, Hu, Hn. }
    eexists. split; [done|]. fold u.
    destruct (marks v (key c) u (visited_coords v zoom b)) eqn:E; (split; [exact Hu|]); [done|].
    intros Hn. rewrite Hu in Hn. specialize (Hm Hn). congruence.
  - assert (c ∈ filter (fun d => key d = key c /\ is_selected v d = true)
                       (update_queue v b zoom s)) as Hf.
    { apply list_elem_of_filter. split; [split; [done|by apply (visited_selected v zoom b)]|].
      apply elem_of_update_queue. unfold tileNeedsFetch. by rewrite Hg. }
    destruct (filter _ _) as [|d l]; [by apply not_elem_of_nil in Hf|].
    by eexists.
Qed.
End update_facts.

(** ** Properties *)

(** C4: After an update every valid tile in view is in the store, and either it is
    up to date and marked as visible or it has been asked for; nothing else is asked
    for, and without split panes nothing is asked for twice. *)
Theorem update_requests_missing v b zoom now s :
  let '(s', reqs) := update v b zoom now s in
  let requested := reqs ≫= rq_coords in
  (forall c, c ∈ visited_coords v zoom b -> isValidTile (vgrid v) c = true ->
     exists t, obj_get (key c) (tiles s') = Some t /\
       ((needsFetch t = false /\ current t = true) \/ c ∈ requested)) /\
  (forall c, c ∈ requested <->
     c ∈ visited_coords v zoom b /\ isValidTile (vgrid v) c = true /\
     tileNeedsFetch (key c) s = true) /\
  (grid_ok (vgrid v) -> splitPanes v = None -> NoDup requested).
Proof.
  rewrite update_unfold. cbv zeta. split_and!.
  - intros c Hc Hv. destruct (update_tile v b zoom now s c Hc Hv) as (t & Hg & Hn & Hcur).
    exists t. split; [done|]. destruct (needsFetch t) eqn:E; [right|by left; auto].
    rewrite elem_of_rect_requests, elem_of_update_groups. by apply elem_of_update_queue.
  - intros c. rewrite elem_of_rect_requests, elem_of_update_groups. apply elem_of_update_queue.
  - intros Hgrid Hp. apply NoDup_rect_requests. apply (NoDup_submseteq _ _ (group_rects_sub _ _ _ _)).
    rewrite js_sort_perm. apply NoDup_ListNoDup, List.NoDup_filter, NoDup_ListNoDup.
    by apply NoDup_visited.
Qed.

(** A [tilecombine] request asks for each tile of the queue exactly once, groups
    tiles of one part and mode and sends with each tile the wire identifier of the
    content the client has. *)
Theorem sendTileCombineRequest_spec s queue :
  Forall pm_ok queue ->
  let reqs := combine_requests s queue in
  NoDup (reqs ≫= rq_coords) /\
  (forall c, c ∈ reqs ≫= rq_coords <-> c ∈ queue) /\
  (forall r, r ∈ reqs -> rq_oldwids r = tile_wid s <$> rq_coords r /\
     forall c, c ∈ rq_coords r -> cpart c = rq_part r /\ cmode c = rq_mode r).
Proof.
  intros Hpm reqs. split_and!.
  - apply NoDup_requests_coords.
  - intros c. apply elem_of_requests_coords.
  - intros r (c & Hc & ->)%elem_of_combine_requests. split; [done|]. simpl.
    intros d [Hd Hk]%elem_of_bucket_coords. rewrite Forall_forall in Hpm.
    apply pmKey_inj; auto.
Qed.

(** An update unmarks tiles by the mode their key is parsed to, which is
    always 0: while a view of another mode is selected every tile loses its mark, and
    while mode 0 is selected tiles of other modes keep theirs. *)
Theorem in_selection_ignores_mode v zoom c :
  in_selection v zoom (key c) = true <->
  cz c = zoom /\ cpart c = selectedPart v /\ selectedMode v = 0.
Proof.
  unfold in_selection, keyToTileCoords. rewrite parseKey_key.
  unfold of_coord, with_mode, num_eqb. cbn [kz kpart kmode cz cpart cmode].
  rewrite !andb_true_iff, !Z.eqb_eq. intuition congruence.
Qed.

(** A tile in view whose content is out of date is asked for but not
    marked as visible again: when it was out of view before, it stays so for the
    garbage collector although it is on screen. *)
Theorem update_leaves_stale_unmarked v b zoom now s c t :
  obj_get (key c) (tiles s) = Some t -> needsFetch t = true -> current t = false ->
  c ∈ visited_coords v zoom b -> isValidTile (vgrid v) c = true ->
  exists t', obj_get (key c) (tiles (update v b zoom now s).1) = Some t' /\ current t' = false /\
    c ∈ (update v b zoom now s).2 ≫= rq_coords.
Proof.
  intros Hg Hn Hcur Hc Hv. rewrite update_unfold. simpl.
  assert (Hq : c ∈ update_queue v b zoom s).
  { apply elem_of_update_queue. unfold tileNeedsFetch. by rewrite Hg. }
  pose proof (proj2 (elem_of_update_groups v b zoom now s c) Hq) as Hin.
  apply (elem_of_rect_requests (update_store v b zoom now s)) in Hin.
  revert Hin. generalize (rectangles v (update_store v b zoom now s)
    (js_sort by_rows (update_queue v b zoom s)) ≫= combine_requests (update_store v b zoom now s)).
  intros reqs Hin. unfold update_store. rewrite createTiles_get.
  pose proof (getMissingTiles_spec v b zoom (unmark_others v zoom s)) as H.
  destruct (getMissingTiles v b zoom (unmark_others v zoom s)) as [s1 q].
  destruct H as [_ H]. simpl. rewrite H, unmark_others_get, Hg. simpl.
  set (u := if in_selection v zoom (key c) then t else set_current false t).
  assert (Hu : needsFetch u = true) by (unfold u; by case_match).
  assert (Hcu : current u = false) by (unfold u; by case_match).
  exists u. split; [|done]. unfold marks. rewrite Hu.
  destruct (existsb _ _) eqn:E; [|done].
  apply list_elem_of_existsb in E as (d & _ & Hd). by rewrite andb_false_r in Hd.
Qed.

Lemma sendTileCombineRequest_spec_witness :
  let reqs := combine_requests empty_store
    [Coord 0 0 10 1 0; Coord 256 0 10 0 0; Coord 0 0 10 1 0; Coord 0 0 10 1 2] in
  NoDup (reqs ≫= rq_coords) /\ length (reqs ≫= rq_coords) = 3%nat.
Proof.
  split; [|by vm_compute]. apply (sendTileCombineRequest_spec empty_store).
  repeat constructor; by vm_compute.
Defined.

(** ** Examples *)

Definition sample_view : view := View (Grid 256 3840 3840 12240 15840) None 0 0 256 256.

Example sendTileCombineRequest_sample :
  sendTileCombineRequest sample_view empty_store [Coord 256 0 10 0 0; Coord 0 256 10 0 0]
  = ["tilecombine nviewid=0 part=0 width=256 height=256 tileposx=3840,0 tileposy=0,3840 oldwid=0,0 tilewidth=3840 tileheight=3840"].
Proof. reflexivity. Qed.

(** A stale tile of the first row. *)
Definition stale_coord : coord := Coord 256 0 10 0 0.
Definition stale_tile : tile :=
  set_current false (set_data (Content None None (Some [1])) (new_tile stale_coord (Some 0))).
Definition stale_store : store := Store [(key stale_coord, stale_tile)] 0 0.

Lemma update_leaves_stale_unmarked_witness :
  let b := Bounds (Point 0 0) (Point 511 255) in
  exists t', obj_get (key stale_coord) (tiles (update sample_view b 10 (Some 0) stale_store).1) = Some t' /\
    current t' = false /\
    stale_coord ∈ (update sample_view b 10 (Some 0) stale_store).2 ≫= rq_coords.
Proof.
  apply (update_leaves_stale_unmarked _ _ _ _ _ _ stale_tile); try reflexivity.
  change (visited_coords sample_view 10 (Bounds (Point 0 0) (Point 511 255)))
    with [Coord 0 0 10 0 0; stale_coord].
  apply list_elem_of_further, list_elem_of_here.
Defined.

Example update_sample :
  (update sample_view (Bounds (Point 0 0) (Point 300 300)) 10 (Some 0) stale_store).2 ≫= rq_coords
  = [Coord 0 0 10 0 0; Coord 256 0 10 0 0; Coord 0 256 10 0 0; Coord 256 256 10 0 0].
Proof. reflexivity. Qed.
