(* ===== verification/TileMsg.v ===== *)
(** * Receiving tiles

    What [L.CanvasTileLayer] does with a tile or delta message: [_onTileMsg],
    [_applyDelta], [ensureCanvas], [_ensureContext], [_tileReady] and the
    acknowledgements of [_sendProcessedResponse]
    (src/browser/src/layer/tile/CanvasTileLayer.js).  Whether the browser has a
    context for a canvas is an answer to each call of [getContext]; a handler that
    gets none frees canvases and tries again, four times in all.  What the browser
    and the zstd library do is a parameter. *)

From S2P Require Import Prelude JsText JsObject Geometry TileCoords Tiles Delta ServerCmd TileRequest.
Local Open Scope Z_scope.

(** ** The tile a handler works on

    A handler keeps a reference to its tile while the garbage collector may drop
    the tile from the store. A [handle] is the store, the tile object as it is
    once it is no longer in the store, and what the coming calls of
    [canvas.getContext ('2d')] answer; once these answers are used up, it succeeds. *)

Definition handle := (store * (tile * list bool))%type.

Definition h_store (h : handle) : store := h.1.
Definition h_answers (h : handle) : list bool := h.2.2.
Definition h_tile (k : string) (h : handle) : tile := default h.2.1 (obj_get k (tiles h.1)).
Definition h_alter (k : string) (f : tile -> tile) (h : handle) : handle :=
  (alter_tile f k h.1, (f (h_tile k h), h.2.2)).

(** [_garbageCollect]; a tile the collector drops keeps what trimming left of it,
    without its canvas. *)
Definition h_garbageCollect (k : string) (h : handle) : handle :=
  (garbageCollect h.1,
   (match obj_get k (tiles (gc_trim (gc_keys h.1) h.1)) with
    | Some t => reclaimTileCanvasMemory t
    | None => h.2.1
    end, h.2.2)).

Definition h_count (h : handle) : handle :=
  (Store (tiles h.1) (emptyTilesCount h.1) (gcCounter h.1 + 1), h.2).

Definition h_maybeGarbageCollect (k : string) (h : handle) : handle :=
  let h1 := h_count h in if gcCounter h1.1 mod 53 =? 0 then h_garbageCollect k h1 else h1.

(** [for (var key in this._tiles)] with [_reclaimTileCanvasMemory], of the tiles [p] holds of. *)
Definition reclaim_tiles (p : tile -> bool) (s : store) : store :=
  foldl (fun s k => match obj_get k (tiles s) with
                    | Some t => if p t then alter_tile reclaimTileCanvasMemory k s else s
                    | None => s
                    end) s (obj_keys (tiles s)).

Definition h_reclaim (p : tile -> bool) (h : handle) : handle := (reclaim_tiles p h.1, h.2).

(** The answer of one call of [getContext]. *)
Definition h_getContext (h : handle) : bool * handle :=
  match h.2.2 with
  | [] => (true, h)
  | b :: l => (b, (h.1, (h.2.1, l)))
  end.

(** The outcome of a handler: it returns or throws, in either case with the
    state it leaves behind, or the fuel ran out. *)
Inductive outcome :=
  | Returns (h : handle)
  | Throws (h : handle)
  | NoFuel.

Definition andThen (o : outcome) (f : handle -> outcome) : outcome :=
  match o with Returns h => f h | _ => o end.

Definition set_counts (loads deltas updates : Z) (t : tile) : tile :=
  set_stats (Stats deltas updates loads (gcErrors (tstats t)) (missingContent (tstats t))
                   (invalidateCount (tstats t))) t.

Definition incr_missingContent (t : tile) : tile :=
  let st := tstats t in
  set_stats (Stats (deltaCount st) (updateCount st) (loadCount st) (gcErrors st)
                   (missingContent st + 1) (invalidateCount st)) t.

Definition set_canvas (c : option (list Z)) (t : tile) : tile :=
  set_data (Content c (imgDataCache (data t)) (rawDeltas (data t))) t.
Definition set_rawDeltas (r : option (list Z)) (t : tile) : tile :=
  set_data (Content (canvas (data t)) (imgDataCache (data t)) r) t.
Definition set_imgData (img : list Z) (t : tile) : tile :=
  set_data (Content (Some img) (Some img) (rawDeltas (data t))) t.

Section handlers.
(** [window.fzstd.decompress] ([None]: it throws), [getImageData] on a canvas and
    [window.tileSize]. *)
Context (decompress : list Z -> option (list Z)).
Context (getImageData : list Z -> list Z).
Context (tileSizePx : nat).

Definition blank_canvas : list Z := repeat 0 (tileSizePx * tileSizePx * 4).

Definition has_keyframe_tile (t : tile) : bool := hasKeyframe (data t).

(** [ensureCanvas (tile, now)]; [apply] redraws the tile from given deltas. *)
Definition ensureCanvas (apply : list Z -> handle -> outcome) (k : string) (now : num) (h : handle) :
    outcome :=
  andThen
    (if has_canvas (h_tile k h) then Returns h
     else
       let h1 := h_alter k (set_canvas (Some blank_canvas)) h in
       match rawDeltas (data (h_tile k h1)) with
       | Some raw => if has_keyframe_tile (h_tile k h1) then apply raw h1 else Returns h1
       | None => Returns h1
       end)
    (fun h =>
       let h1 := h_alter k (set_lastRendered now) h in
       Returns (if hasContent (data (h_tile k h1)) then h1 else h_alter k incr_missingContent h1)).

(** [_ensureContext], for what its caller does with the context ([draw]); without a context the
    caller returns.  One attempt: a canvas if there is none, and [getContext] of it. *)
Definition tryContext (apply : list Z -> handle -> outcome) (k : string) (draw fail : handle -> outcome)
    (h : handle) : outcome :=
  andThen (if has_canvas (h_tile k h) then Returns h else ensureCanvas apply k None h)
    (fun h =>
       if has_canvas (h_tile k h)
       then let '(got, h) := h_getContext h in if got then draw h else fail h
       else Throws h).

(** Out of canvas memory: collect, then free the canvases of the tiles that are not current,
    then all of them. *)
Definition retryContext (apply : list Z -> handle -> outcome) (k : string) (draw : handle -> outcome)
    (h : handle) : outcome :=
  let attempt := tryContext apply k draw in
  let third h := attempt Returns (h_reclaim (fun _ => true) h) in
  let second h := attempt third (h_reclaim (fun t => negb (current t)) h) in
  attempt second (h_garbageCollect k h).

Definition ensureContext (apply : list Z -> handle -> outcome) (k : string) (draw : handle -> outcome)
    (h : handle) : outcome :=
  tryContext apply k draw (retryContext apply k draw) (h_maybeGarbageCollect k h).

(** The counters of a message from the wire. *)
Definition count_delta (isKeyframe : bool) (t : tile) : tile :=
  let st := tstats t in
  if isKeyframe then set_counts (loadCount st + 1) 0 0 t
  else set_counts (loadCount st) (deltaCount st + 1) (updateCount st) t.

Definition count_update (t : tile) : tile :=
  let st := tstats t in set_counts (loadCount st) (deltaCount st) (updateCount st + 1) t.

(** Draw the deltas on the canvas. *)
Definition draw (k : string) (rawDelta : list Z) (isKeyframe : bool) (h : handle) : outcome :=
  match canvas (data (h_tile k h)) with
  | None => Returns h
  | Some pixels =>
      match decompress rawDelta with
      | None => Throws h
      | Some allDeltas =>
          let base := default (getImageData pixels) (imgDataCache (data (h_tile k h))) in
          match drawDelta tileSizePx tileSizePx isKeyframe base allDeltas with
          | None => Throws h
          | Some None => Returns h
          | Some (Some img) => Returns (h_alter k (set_imgData img) h)
          end
      end
  end.

(** Keep the compressed deltas, then draw them. *)
Definition store_and_draw (k : string) (rawDelta : list Z) (isKeyframe : bool) (h : handle) : outcome :=
  if isKeyframe then draw k rawDelta true (h_alter k (set_rawDeltas (Some rawDelta)) h)
  else
    match rawDeltas (data (h_tile k h)) with
    | None => Returns h
    | Some old => draw k rawDelta false (h_alter k (set_rawDeltas (Some (old ++ rawDelta))) h)
    end.

Definition applyDelta_body (k : string) (rawDelta : list Z) (isKeyframe wireMessage : bool)
    (h : handle) : outcome :=
  if wireMessage then
    if negb isKeyframe && (length rawDelta =? 0)%nat then Returns (h_alter k count_update h)
    else store_and_draw k rawDelta isKeyframe (h_alter k (count_delta isKeyframe) h)
  else store_and_draw k rawDelta isKeyframe h.

Fixpoint applyDelta (fuel : nat) (k : string) (rawDelta : list Z) (isKeyframe wireMessage : bool)
    (h : handle) : outcome :=
  match fuel with
  | O => NoFuel
  | S fuel' =>
      ensureContext (fun raw h => applyDelta fuel' k raw true false h) k
                    (applyDelta_body k rawDelta isKeyframe wireMessage) h
  end.

(** Redrawing a tile nests at most twice, and twice more for each call of [getContext] that
    fails (see [applyDelta_terminates]). *)
Definition applyDelta_fuel (answers : list bool) : nat := 2 * length answers + 3.
End handlers.

(** ** The layer *)

Inductive map_event :=
  | EvTilePreview (id : string) (width height part : option num) (mode : num)
  | EvAllTilesLoaded
  | EvSetDirty (c : coord).

Record layer := Layer {
  lstore : store;
  queuedProcessed : list num;
  fetchKeyframeQueue : list coord;
  events : list map_event;
  sent : list string
}.

Definition with_store (s : store) (l : layer) : layer :=
  Layer s (queuedProcessed l) (fetchKeyframeQueue l) (events l) (sent l).
Definition fire (e : map_event) (l : layer) : layer :=
  Layer (lstore l) (queuedProcessed l) (fetchKeyframeQueue l) (events l ++ [e]) (sent l).

(** [visible]: [_painter.coordsIntersectVisible]. *)
Definition tileReady (visible : coord -> bool) (c : coord) (now : num) (l : layer) : layer :=
  let k := tileCoordsToKey c in
  let s := lstore l in
  match obj_get k (tiles s) with
  | None => l
  | Some _ =>
      let changed := 0 <? emptyTilesCount s in
      let count := if changed then emptyTilesCount s - 1 else emptyTilesCount s in
      let l1 := with_store (Store (tiles s) count (gcCounter s)) l in
      let l2 := if changed && (count =? 0) then fire EvAllTilesLoaded l1 else l1 in
      let l3 := with_store (alter_tile (set_lastRendered now) k (lstore l2)) l2 in
      if visible c then fire (EvSetDirty c) l3 else l3
  end.

(** The image that comes with a message. *)
Record img := Img { rawData : list Z; isKeyframe : bool }.

(** The coordinates of a tile message; [None] when a field is missing or is not a
    number, or when the size of the tile is not positive. *)
Definition msg_coords (g : grid) (m : command) : option coord :=
  match get_num "x" m, get_num "y" m, get_num "tileWidth" m, get_num "tileHeight" m,
        get_num "part" m, get_num "zoom" m with
  | Some (Some x), Some (Some y), Some (Some w), Some (Some h), Some (Some part), Some (Some zoom) =>
      if (0 <? w) && (0 <? h) then
        match obj_get "mode" m with
        | None => Some (tileMsgToCoords g (TileTwips x y w h) zoom part None)
        | Some (FNum (Some mode)) => Some (tileMsgToCoords g (TileTwips x y w h) zoom part (Some mode))
        | Some _ => None
        end
      else None
  | _, _, _, _, _, _ => None
  end.

(** [+tileMsgObj.wireId] *)
Definition msg_wireId (m : command) : num := get_str "wireId" m ≫= to_number.

Definition queueAcknowledgement (m : command) (l : layer) : layer :=
  Layer (lstore l) (queuedProcessed l ++ [msg_wireId m]) (fetchKeyframeQueue l) (events l) (sent l).

(** What [_onTileMsg] ends in; [Malformed]: coordinates that are not numbers,
    which this model does not follow. *)
Inductive msg_outcome :=
  | Handled (l : layer)
  | Raised (l : layer)
  | Malformed
  | OutOfFuel.

Definition mark_gc_error (t : tile) : tile :=
  set_stats (incr_gcErrors (tstats t)) (set_invalidFrom (Some 0) (set_wireId (Some 0) t)).

Section onTileMsg.
Context (decompress : list Z -> option (list Z)).
Context (getImageData : list Z -> list Z).
Context (tileSizePx : nat).
Context (visible : coord -> bool).

(** The tile the message is about, with the message's identifiers. *)
Definition receive_tile (m : command) (c : coord) (now : num) (s : store) : store :=
  let k := tileCoordsToKey c in
  let s1 := if obj_has k (tiles s) then s else createTile c k now s in
  alter_tile (fun t => set_wireId (msg_wireId m) (set_viewId (get_str "nviewid" m) t)) k s1.

(** [answers]: of the calls of [getContext] to come. *)
Definition onTileMsg (g : grid) (m : command) (im : option img) (now : num) (answers : list bool)
    (l : layer) : msg_outcome :=
  match get_str "id" m with
  | Some id =>
      Handled (queueAcknowledgement m (fire (EvTilePreview id (get_num "width" m)
        (get_num "height" m) (get_num "part" m) (default (Some 0) (get_num "mode" m))) l))
  | None =>
      match msg_coords g m with
      | None => Malformed
      | Some c =>
          let k := tileCoordsToKey c in
          let s1 := receive_tile m c now (lstore l) in
          let t := default (new_tile c now) (obj_get k (tiles s1)) in
          match im with
          | None => Handled (queueAcknowledgement m (with_store s1 l))
          | Some i =>
              if negb (isKeyframe i) && negb (hasKeyframe (data t)) then
                let l1 := with_store (alter_tile mark_gc_error k s1) l in
                Handled (queueAcknowledgement m
                  (Layer (lstore l1) (queuedProcessed l1) (fetchKeyframeQueue l1 ++ [c])
                         (events l1) (sent l1)))
              else
                match applyDelta decompress getImageData tileSizePx (applyDelta_fuel answers) k
                        (rawData i) (isKeyframe i) true (s1, (t, answers)) with
                | Returns h =>
                    Handled (queueAcknowledgement m (tileReady visible c now (with_store h.1 l)))
                | Throws h => Raised (with_store h.1 l)
                | NoFuel => OutOfFuel
                end
          end
      end
  end.
End onTileMsg.

(** [_sendProcessedResponse] *)
Definition sendProcessedResponse (v : view) (l : layer) : layer :=
  let toSend := queuedProcessed l in
  let sent1 :=
    if (0 <? length toSend)%nat
    then sent l ++ ["tileprocessed wids=" +:+ join "," (num_str <$> toSend)] else sent l in
  match fetchKeyframeQueue l with
  | [] => Layer (lstore l) [] [] (events l) sent1
  | q => Layer (lstore l) [] [] (events l) (sent1 ++ sendTileCombineRequest v (lstore l) q)
  end.

(** ** Handles *)

Lemma h_tile_alter k f h : h_tile k (h_alter k f h) = f (h_tile k h).
Proof.
  unfold h_alter, h_tile, alter_tile; simpl. rewrite obj_get_alter, decide_True by done.
  by destruct (obj_get k (tiles h.1)).
Qed.

Lemma garbageCollect_counter s : gcCounter (garbageCollect s) = gcCounter s.
Proof.
  apply (garbageCollect_ind (fun s' => gcCounter s' = gcCounter s)); try done.
  intros k t s' <- _ _. unfold removeTile. by destruct (obj_get k (tiles s')).
Qed.

Lemma maybeGarbageCollect_counter s : gcCounter (maybeGarbageCollect s) = gcCounter s + 1.
Proof. unfold maybeGarbageCollect. case_bool; [|done]. by rewrite garbageCollect_counter. Qed.

Lemma h_maybeGarbageCollect_store k h : (h_maybeGarbageCollect k h).1 = maybeGarbageCollect h.1.
Proof. unfold h_maybeGarbageCollect, maybeGarbageCollect, h_count. cbn. by destruct (_ =? 0). Qed.

(** Between two collections the handle's tile is left alone. *)
Lemma h_maybeGarbageCollect_idle k h :
  (gcCounter h.1 + 1) mod 53 <> 0 -> h_maybeGarbageCollect k h = h_count h.
Proof. intros Hc. apply Z.eqb_neq in Hc. unfold h_maybeGarbageCollect, h_count. cbn. by rewrite Hc. Qed.

Lemma mod53_next c : c mod 53 = 0 -> (c + 1) mod 53 <> 0.
Proof. intros H. rewrite Z.add_mod, H by lia. done. Qed.

(** How one attempt to get a context ends, for any property of outcomes: [J] holds of the
    handle once it has a canvas. *)
Lemma tryContext_rule (O : outcome -> Prop) (J : handle -> Prop) w apply k draw fail h :
  (has_canvas (h_tile k h) = true -> J h) ->
  (has_canvas (h_tile k h) = false ->
   match ensureCanvas w apply k None h with Returns h' => J h' | o => O o end) ->
  (forall h', J h' ->
   if has_canvas (h_tile k h')
   then O (let '(got, h2) := h_getContext h' in if got then draw h2 else fail h2)
   else O (Throws h')) ->
  O (tryContext w apply k draw fail h).
Proof.
  intros Hhas Hcan Hdraw. unfold tryContext. destruct (has_canvas (h_tile k h)) eqn:E; cbn [andThen].
  - specialize (Hdraw h (Hhas eq_refl)). rewrite E in *. exact Hdraw.
  - specialize (Hcan eq_refl). destruct (ensureCanvas _ _ _ _ _) as [h'|h'|]; cbn [andThen]; [|done..].
    specialize (Hdraw h' Hcan). by destruct (has_canvas (h_tile k h')).
Qed.

Lemma reclaim_tiles_ind (R : store -> Prop) p s :
  (forall k s, R s -> R (alter_tile reclaimTileCanvasMemory k s)) -> R s -> R (reclaim_tiles p s).
Proof.
  intros HR. unfold reclaim_tiles. generalize (obj_keys (tiles s)) as ks. intros ks. revert s.
  induction ks as [|k ks IH]; intros s Hs; [done|]. apply IH. repeat case_match; auto.
Qed.

Lemma reclaim_tiles_keys p s : obj_keys (tiles (reclaim_tiles p s)) = obj_keys (tiles s).
Proof.
  apply (reclaim_tiles_ind (fun s' => obj_keys (tiles s') = obj_keys (tiles s))); [|done].
  intros k s' <-. apply obj_keys_alter.
Qed.

(** No picture is left once all tiles are freed. *)
Lemma reclaim_all_get k s t :
  obj_get k (tiles (reclaim_tiles (fun _ => true) s)) = Some t ->
  canvas (data t) = None /\ imgDataCache (data t) = None.
Proof.
  intros Hg. assert (k ∈ obj_keys (tiles s)) as Hin.
  { rewrite <- (reclaim_tiles_keys (fun _ => true)). apply obj_get_is_Some. by rewrite Hg. }
  revert Hg. unfold reclaim_tiles. set (f := fun s k => _).
  set (bare := fun s => forall t, obj_get k (tiles s) = Some t ->
                        canvas (data t) = None /\ imgDataCache (data t) = None).
  assert (forall ks s, k ∈ ks \/ bare s -> bare (foldl f s ks)) as H; [|by apply H; left].
  clear. induction ks as [|k' ks IH]; intros s Hor; cbn [foldl].
  { destruct Hor as [Hk|Hs]; [by apply not_elem_of_nil in Hk|exact Hs]. }
  apply IH. destruct (decide (k ∈ ks)) as [|Hn]; [by left|right].
  intros t. unfold f. destruct (obj_get k' (tiles s)) as [t'|] eqn:E.
  - simpl. rewrite obj_get_alter. case_decide as Hd; [subst; rewrite E; by intros [= <-]|].
    destruct Hor as [Hk|Hs]; [|apply Hs]. apply elem_of_cons in Hk as [->|]; done.
  - destruct Hor as [Hk|Hs]; [|apply Hs]. apply elem_of_cons in Hk as [->|]; congruence.
Qed.

Lemma h_tile_getContext k h : h_tile k (h_getContext h).2 = h_tile k h.
Proof. unfold h_getContext, h_tile. by destruct (h.2.2). Qed.

Lemma h_store_getContext h : (h_getContext h).2.1 = h.1.
Proof. unfold h_getContext. by destruct (h.2.2). Qed.

(** ** The count of empty tiles while a message is handled

    While a handler fills the tile under [k], the count may exceed the tiles
    without content by the one that is being filled. *)

(** Contentless tiles other than the one under [k]. *)
Definition contentless_but (k : string) (t : tile) : Z :=
  if String.eqb (key (coords t)) k then 0 else contentless t.

Record filling (n : Z) (k : string) (s : store) : Prop := {
  fill_wf : obj_wf (tiles s);
  fill_keyed : forall k' t, obj_get k' (tiles s) = Some t -> key (coords t) = k';
  fill_count : 0 <= emptyTilesCount s <= obj_sum (contentless_but k) (tiles s) + n
}.

Lemma contentless_but_bound k t : 0 <= contentless_but k t <= contentless t.
Proof. unfold contentless_but. pose proof (contentless_bool t). case_bool; lia. Qed.

Lemma contentless_but_self k t : key (coords t) = k -> contentless_but k t = 0.
Proof. intros <-. unfold contentless_but. by rewrite String.eqb_refl. Qed.

Lemma contentless_but_other k t : key (coords t) <> k -> contentless_but k t = contentless t.
Proof. intros H. unfold contentless_but. by destruct (String.eqb_spec (key (coords t)) k). Qed.

Lemma obj_sum_le {A} (f g : A -> Z) o : (forall v, f v <= g v) -> obj_sum f o <= obj_sum g o.
Proof.
  intros H. unfold obj_sum. induction o as [|[k v] o IH]; simpl; [done|]. specialize (H v). lia.
Qed.

(** The sum splits into the tile under [k] and the others. *)
Lemma contentless_split k s :
  obj_wf (tiles s) -> (forall k' t, obj_get k' (tiles s) = Some t -> key (coords t) = k') ->
  obj_sum contentless (tiles s) = obj_sum (contentless_but k) (tiles s) +
    match obj_get k (tiles s) with Some t => contentless t | None => 0 end.
Proof.
  intros Hwf Hk.
  assert (H : forall o, obj_wf o -> (forall k' t, obj_get k' o = Some t -> key (coords t) = k') ->
    k ∉ obj_keys o -> obj_sum contentless o = obj_sum (contentless_but k) o).
  { clear. intros o Hwf Hk Hn. unfold obj_sum.
    assert (Hall : forall k' t, (k', t) ∈ o -> contentless_but k t = contentless t).
    { intros k' t Hin. apply contentless_but_other. rewrite (Hk k' t) by by apply elem_of_obj_get.
      intros ->. apply Hn. unfold obj_keys. by apply (list_elem_of_fmap_2' fst _ (k, t)). }
    clear Hwf Hk Hn. induction o as [|[k' t] o IH]; simpl; [done|].
    rewrite (Hall k' t), IH; [done| |by left]. intros k'' t' Hin. apply (Hall k''). by right. }
  destruct (obj_get k (tiles s)) as [t|] eqn:Hg.
  - pose proof (obj_sum_del contentless k t (tiles s) Hwf Hg) as E1.
    pose proof (obj_sum_del (contentless_but k) k t (tiles s) Hwf Hg) as E2.
    rewrite (contentless_but_self k t) in E2 by by apply Hk.
    rewrite (H (obj_del k (tiles s))) in E1; [lia|by apply obj_wf_del| |].
    + intros k' t'. rewrite obj_get_del. case_decide; [done|]. apply Hk.
    + rewrite obj_keys_del, list_elem_of_filter. tauto.
  - apply obj_get_None in Hg. rewrite H by done. lia.
Qed.

Lemma filling_of_ok k s :
  store_ok s ->
  filling (match obj_get k (tiles s) with Some t => contentless t | None => 0 end) k s.
Proof.
  intros [Hwf Hk Hc]. split; [done..|]. by rewrite <- contentless_split.
Qed.

Lemma filling_weaken n m k s : n <= m -> filling n k s -> filling m k s.
Proof. intros Hle [Hwf Hk Hc]. split; [done..|]. lia. Qed.

Lemma ok_of_filling k s : filling 0 k s -> store_ok s.
Proof.
  intros [Hwf Hk Hc]. split; [done..|]. rewrite (contentless_split k) by done.
  destruct (obj_get k (tiles s)) as [t|]; [pose proof (contentless_bool t)|]; lia.
Qed.

(** Any change of the tile under [k], and the collector's steps, keep it. *)
Lemma filling_alter n k f s :
  (forall t, coords (f t) = coords t) -> filling n k s -> filling n k (alter_tile f k s).
Proof.
  intros Hf [Hwf Hk Hc]. split.
  - by apply obj_wf_alter.
  - intros k' t. simpl. rewrite obj_get_alter. case_decide; [subst k'|by eauto].
    destruct (obj_get k (tiles s)) as [t0|] eqn:Hg; [|done]. intros [= <-]. rewrite Hf. by eauto.
  - rewrite sum_alter_tile_wf by done. simpl. destruct (obj_get k (tiles s)) as [t0|] eqn:Hg; [|lia].
    rewrite !contentless_but_self; rewrite ?Hf; [lia|by apply Hk..].
Qed.

Lemma filling_alter_more n k k' f s :
  (forall t, coords (f t) = coords t) -> (forall t, contentless t <= contentless (f t)) ->
  filling n k s -> filling n k (alter_tile f k' s).
Proof.
  intros Hf Hle H. destruct (decide (k' = k)) as [->|Hne]; [by apply filling_alter|].
  destruct H as [Hwf Hk Hc]. split.
  - by apply obj_wf_alter.
  - intros k1 t. simpl. rewrite obj_get_alter. case_decide; [subst k1|by eauto].
    destruct (obj_get k' (tiles s)) as [t0|] eqn:Hg; [|done]. intros [= <-]. rewrite Hf. by eauto.
  - rewrite sum_alter_tile_wf by done. simpl. destruct (obj_get k' (tiles s)) as [t0|] eqn:Hg; [|lia].
    specialize (Hk k' t0 Hg). rewrite !contentless_but_other by (rewrite ?Hf; congruence).
    specialize (Hle t0). lia.
Qed.

Lemma filling_remove n k k' s : 0 <= n -> filling n k s -> filling n k (removeTile k' s).
Proof.
  intros Hn [Hwf Hk Hc]. pose proof (sum_removeTile_wf (contentless_but k) k' s Hwf) as Hsum.
  pose proof (obj_sum_nonneg (contentless_but k) (tiles (removeTile k' s))
    (fun t => proj1 (contentless_but_bound k t))) as Hnn.
  unfold removeTile in *. destruct (obj_get k' (tiles s)) as [t|] eqn:Hg; [|by split].
  simpl in *. split; simpl.
  - by apply obj_wf_del.
  - intros k1 t1. rewrite obj_get_del. case_decide; [done|]. by eauto.
  - pose proof (contentless_but_bound k t) as Hb. unfold contentless in Hb.
    destruct (hasContent (data t)); simpl in *; [lia|].
    destruct (Z.ltb_spec 0 (emptyTilesCount s)); lia.
Qed.

Lemma filling_reclaim n k k' s :
  filling n k s -> filling n k (alter_tile reclaimTileCanvasMemory k' s).
Proof.
  intros H. apply filling_alter_more; [done| |done]. intros t.
  unfold contentless, hasContent, hasKeyframe; simpl.
  destruct (imgDataCache (data t)) as [?|], (rawDeltas (data t)) as [d|]; simpl;
    try destruct (length d =? 0)%nat; simpl; lia.
Qed.

Lemma filling_gc n k s : 0 <= n -> filling n k s -> filling n k (garbageCollect s).
Proof.
  intros Hn H. apply (garbageCollect_ind (filling n k)); [..|done].
  - intros k' s'. apply filling_reclaim.
  - intros k' t s' H' _ _. apply filling_alter_more; [done| |done]. intros t'.
    pose proof (contentless_bool t'). change (contentless (drop_deltas t')) with 1. lia.
  - intros k' t s' H' _ _. by apply filling_remove.
Qed.

(** ** Induction over what a handler does to its tile *)

(** Changes of a tile's content that leave its identity alone. *)
Definition content_only (f : tile -> tile) : Prop :=
  forall t, coords (f t) = coords t /\ current (f t) = current t /\ wireId (f t) = wireId t /\
            invalidFrom (f t) = invalidFrom t.

(** [P] holds of the state the handler leaves, whether it returns or throws. *)
Definition outcome_all (P : handle -> Prop) (o : outcome) : Prop :=
  match o with Returns h | Throws h => P h | NoFuel => True end.

Lemma outcome_all_mono (P Q : handle -> Prop) o :
  (forall h, P h -> Q h) -> outcome_all P o -> outcome_all Q o.
Proof. destruct o; simpl; auto. Qed.

Lemma outcome_all_andThen P o f :
  outcome_all P o -> (forall h, P h -> outcome_all P (f h)) -> outcome_all P (andThen o f).
Proof. destruct o; simpl; auto. Qed.

Section applyDelta_ind.
Context (decompress : list Z -> option (list Z)) (getImageData : list Z -> list Z).
Context (tileSizePx : nat) (k : string) (P : handle -> Prop).
Context (Halter : forall f h, content_only f -> P h -> P (h_alter k f h)).
Context (Hcount : forall h, P h -> P (h_count h)).
Context (Hgc : forall h, P h -> P (h_garbageCollect k h)).
Context (Hreclaim : forall p h, P h -> P (h_reclaim p h)).
Context (Hanswer : forall h, P h -> P (h_getContext h).2).

Lemma draw_ind raw isKey h :
  P h -> outcome_all P (draw decompress getImageData tileSizePx k raw isKey h).
Proof using Halter. intros HP. unfold draw. repeat case_match; simpl; auto. by apply Halter. Qed.

Lemma store_and_draw_ind raw isKey h :
  P h -> outcome_all P (store_and_draw decompress getImageData tileSizePx k raw isKey h).
Proof using Halter.
  intros HP. unfold store_and_draw. repeat case_match; try done; apply draw_ind; by apply Halter.
Qed.

Lemma applyDelta_body_ind raw isKey wire h :
  P h -> outcome_all P (applyDelta_body decompress getImageData tileSizePx k raw isKey wire h).
Proof using Halter.
  intros HP. unfold applyDelta_body. destruct wire; [|by apply store_and_draw_ind].
  case_match; simpl; [by apply Halter|]. apply store_and_draw_ind. apply Halter; [|done].
  intros t. unfold count_delta. by destruct isKey.
Qed.

Lemma ensureCanvas_ind apply now h :
  (forall raw h, P h -> outcome_all P (apply raw h)) ->
  P h -> outcome_all P (ensureCanvas tileSizePx apply k now h).
Proof using Halter.
  intros Happly HP. unfold ensureCanvas. apply outcome_all_andThen.
  - repeat case_match; simpl; auto; first [apply Happly; by apply Halter|by apply Halter].
  - intros h' HP'. assert (P (h_alter k (set_lastRendered now) h')) by by apply Halter.
    simpl. case_match; [done|]. by apply Halter.
Qed.

Lemma tryContext_ind apply draw fail h :
  (forall raw h, P h -> outcome_all P (apply raw h)) ->
  (forall h, P h -> outcome_all P (draw h)) -> (forall h, P h -> outcome_all P (fail h)) ->
  P h -> outcome_all P (tryContext tileSizePx apply k draw fail h).
Proof using Halter Hanswer.
  intros Happly Hdraw Hfail HP. apply (tryContext_rule (outcome_all P) P); [done| |].
  - intros _. pose proof (ensureCanvas_ind apply None h Happly HP) as H.
    by destruct (ensureCanvas _ _ _ _ _).
  - intros h' HP'. destruct (has_canvas _); [|done]. apply Hanswer in HP'.
    destruct (h_getContext h') as [[] h2]; cbn in HP'; auto.
Qed.

Lemma ensureContext_ind apply draw h :
  (forall raw h, P h -> outcome_all P (apply raw h)) ->
  (forall h, P h -> outcome_all P (draw h)) ->
  P h -> outcome_all P (ensureContext tileSizePx apply k draw h).
Proof using Halter Hcount Hgc Hreclaim Hanswer.
  intros Happly Hdraw HP. unfold ensureContext.
  assert (P (h_maybeGarbageCollect k h)).
  { unfold h_maybeGarbageCollect. cbv zeta. case_match; auto. }
  apply tryContext_ind; try done. intros h1 H1. unfold retryContext.
  apply tryContext_ind; auto. intros h2 H2. apply tryContext_ind; auto.
  intros h3 H3. apply tryContext_ind; auto.
Qed.

Lemma applyDelta_ind fuel raw isKey wire h :
  P h -> outcome_all P (applyDelta decompress getImageData tileSizePx fuel k raw isKey wire h).
Proof using Halter Hcount Hgc Hreclaim Hanswer.
  revert raw isKey wire h. induction fuel as [|fuel IH]; intros raw isKey wire h HP; simpl; [done|].
  apply ensureContext_ind; auto. intros h' HP'. by apply applyDelta_body_ind.
Qed.
End applyDelta_ind.

(** ** Redrawing ends *)

Section termination.
Context (decompress : list Z -> option (list Z)) (getImageData : list Z -> list Z).
Context (tileSizePx : nat) (k : string).

Abbreviation applyD := (applyDelta decompress getImageData tileSizePx).

(** The number of answers that are left. *)
Definition left (h : handle) : nat := length (h_answers h).

Lemma applyDelta_left n fuel raw isKey wire h :
  (left h <= n)%nat -> outcome_all (fun h' => (left h' <= n)%nat) (applyD fuel k raw isKey wire h).
Proof.
  apply (applyDelta_ind _ _ _ _ (fun h' => (left h' <= n)%nat)); try done.
  intros [s [t [|b l]]] H; unfold left, h_answers, h_getContext in *; cbn in *; lia.
Qed.

Lemma draw_fuel raw isKey h : draw decompress getImageData tileSizePx k raw isKey h <> NoFuel.
Proof. unfold draw. by repeat case_match. Qed.

Lemma applyDelta_body_fuel raw isKey wire h :
  applyDelta_body decompress getImageData tileSizePx k raw isKey wire h <> NoFuel.
Proof.
  unfold applyDelta_body, store_and_draw. repeat case_match; try done; apply draw_fuel.
Qed.

Section attempts.
Context (apply : list Z -> handle -> outcome) (draw : handle -> outcome).
Context (Hleft : forall n raw h, (left h <= n)%nat -> outcome_all (fun h' => (left h' <= n)%nat) (apply raw h)).
Context (Hdraw : forall h, draw h <> NoFuel).

(** [apply] has enough fuel for the tile with a canvas and [n] answers left. *)
Definition enough (n : nat) : Prop :=
  forall raw h, has_canvas (h_tile k h) = true -> (left h <= n)%nat -> apply raw h <> NoFuel.

(** The canvas is set before the tile is redrawn. *)
Lemma ensureCanvas_fuel now h :
  (has_canvas (h_tile k h) = false -> forall raw h', has_canvas (h_tile k h') = true ->
     h'.1 = alter_tile (set_canvas (Some (blank_canvas tileSizePx))) k h.1 -> left h' = left h ->
     apply raw h' <> NoFuel) ->
  ensureCanvas tileSizePx apply k now h <> NoFuel.
Proof.
  intros Ha. unfold ensureCanvas. destruct (has_canvas (h_tile k h)) eqn:E; [done|].
  set (h1 := h_alter k (set_canvas _) h).
  assert (H1 : forall raw, apply raw h1 <> NoFuel).
  { intros raw. apply Ha; [done|unfold h1; by rewrite h_tile_alter|done..]. }
  destruct (rawDeltas (data (h_tile k h1))) as [raw|]; simpl; [|done].
  destruct (has_keyframe_tile _); simpl; [|done].
  specialize (H1 raw). by destruct (apply raw h1).
Qed.

Lemma ensureCanvas_left n now h :
  (left h <= n)%nat ->
  outcome_all (fun h' => (left h' <= n)%nat) (ensureCanvas tileSizePx apply k now h).
Proof using Hleft. intros H. apply (ensureCanvas_ind _ _ (fun h' => (left h' <= n)%nat)); auto. Qed.

Lemma tryContext_fuel n fail h :
  (left h <= n)%nat -> ensureCanvas tileSizePx apply k None h <> NoFuel ->
  (forall h', (left h' < n)%nat -> fail h' <> NoFuel) ->
  tryContext tileSizePx apply k draw fail h <> NoFuel.
Proof using Hleft Hdraw.
  intros Hn Hcan Hfail.
  apply (tryContext_rule (fun o => o <> NoFuel) (fun h' => (left h' <= n)%nat)); [done| |].
  - intros _. pose proof (ensureCanvas_left n None h Hn) as H.
    by destruct (ensureCanvas _ _ _ _ _).
  - intros h' Hn'. destruct (has_canvas (h_tile k h')); [|done].
    unfold h_getContext. destruct h' as [s [t [|[] l]]]; cbn in *; auto.
Qed.

Lemma retryContext_fuel n h :
  enough n -> (left h <= n)%nat -> retryContext tileSizePx apply k draw h <> NoFuel.
Proof using Hleft Hdraw.
  intros Ha Hn. unfold retryContext.
  assert (forall h fail, (left h <= n)%nat -> (forall h', (left h' < n)%nat -> fail h' <> NoFuel) ->
            tryContext tileSizePx apply k draw fail h <> NoFuel) as Htry.
  { intros h0 fail H0. apply tryContext_fuel; [done|]. apply ensureCanvas_fuel.
    intros _ raw h' Hc _ Hl. apply Ha; [done|lia]. }
  apply Htry; [done|]. intros h1 H1. apply Htry; [unfold left, h_answers in *; cbn; lia|]. intros h2 H2.
  apply Htry; [unfold left, h_answers in *; cbn; lia|]. done.
Qed.

(** The first attempt redraws the tile when the collector took its canvas. *)
Lemma ensureContext_fuel n h :
  (left h <= n)%nat -> (forall m, (m < n)%nat -> enough m) ->
  ensureCanvas tileSizePx apply k None (h_maybeGarbageCollect k h) <> NoFuel ->
  ensureContext tileSizePx apply k draw h <> NoFuel.
Proof using Hleft Hdraw.
  intros Hn Ha Hcan. unfold ensureContext. apply (tryContext_fuel n); [|done|].
  - unfold h_maybeGarbageCollect. cbv zeta. by case_match.
  - intros h' Hn'. apply (retryContext_fuel (n - 1)); [apply Ha; lia|lia].
Qed.
End attempts.

(** What [ensureCanvas] asks for depends on the answers that are left ... *)
Lemma applyDelta_fuel_step n f raw isKey wire h :
  (left h <= n)%nat ->
  (forall m, (m < n)%nat -> enough (fun raw h => applyD f k raw true false h) m) ->
  ensureCanvas tileSizePx (fun raw h => applyD f k raw true false h) k None
    (h_maybeGarbageCollect k h) <> NoFuel ->
  applyD (S f) k raw isKey wire h <> NoFuel.
Proof.
  intros Hn Ha Hcan. cbn [applyDelta]. apply (ensureContext_fuel _ _) with (n := n); try done.
  - intros m raw' h'. apply applyDelta_left.
  - intros h'. apply applyDelta_body_fuel.
Qed.

(** ... and, with a canvas at hand, on whether the collector runs. *)
Lemma applyDelta_fuel_canvas n :
  (forall m, (m < n)%nat -> forall f, (2 * m + 2 <= f)%nat -> enough (fun raw h => applyD f k raw true false h) m) ->
  forall f, (2 * n + 2 <= f)%nat -> enough (fun raw h => applyD f k raw true false h) n.
Proof.
  intros IH f Hf raw h Hc Hn. destruct f as [|f]; [lia|].
  assert (forall m, (m < n)%nat -> enough (fun raw h => applyD f k raw true false h) m) as IH1.
  { intros m Hm. apply IH; [done|lia]. }
  apply (applyDelta_fuel_step n); [done..|].
  destruct (decide ((gcCounter h.1 + 1) mod 53 = 0)) as [Hg|Hg].
  - apply ensureCanvas_fuel. intros _ raw' h' Hc' Hs Hl. destruct f as [|f]; [lia|].
    assert (left h' = left h) as Hl'.
    { rewrite Hl. unfold h_maybeGarbageCollect. cbv zeta. by case_match. }
    apply (applyDelta_fuel_step n); [lia| |].
    + intros m Hm. apply IH; [done|lia].
    + rewrite h_maybeGarbageCollect_idle.
      * apply ensureCanvas_fuel. change (h_tile k (h_count h')) with (h_tile k h'). by rewrite Hc'.
      * rewrite Hs. cbn [alter_tile set_tiles gcCounter]. rewrite h_maybeGarbageCollect_store, maybeGarbageCollect_counter.
        by apply mod53_next.
  - rewrite h_maybeGarbageCollect_idle by done. apply ensureCanvas_fuel.
    change (h_tile k (h_count h)) with (h_tile k h). by rewrite Hc.
Qed.

Lemma applyDelta_fuel_any n f : (2 * n + 2 <= f)%nat -> enough (fun raw h => applyD f k raw true false h) n.
Proof.
  revert f. induction n as [n IH] using lt_wf_ind. intros f Hf. by apply applyDelta_fuel_canvas.
Qed.

Lemma applyDelta_fuel_enough raw isKey wire h :
  applyD (applyDelta_fuel (h_answers h)) k raw isKey wire h <> NoFuel.
Proof.
  unfold applyDelta_fuel. rewrite Nat.add_succ_r.
  apply (applyDelta_fuel_step (left h)); [done| |].
  - intros m Hm. apply applyDelta_fuel_any. unfold left in Hm. lia.
  - apply ensureCanvas_fuel. intros _ raw' h' Hc _ Hl.
    apply (applyDelta_fuel_any (left h)); [unfold left; lia|done|].
    rewrite Hl. unfold h_maybeGarbageCollect. cbv zeta. by case_match.
Qed.

(** *** Without canvas memory *)

(** The tile is in view, has a keyframe, and the next [m] calls of [getContext] fail. *)
Definition starved (m : nat) (h : handle) : Prop :=
  h_answers h = replicate m false /\
  exists t, obj_get k (tiles h.1) = Some t /\ current t = true /\ has_keyframe_tile t = true.

Lemma starved_alter m f h :
  (forall t, current (f t) = current t /\ rawDeltas (data (f t)) = rawDeltas (data t)) ->
  starved m h -> starved m (h_alter k f h).
Proof.
  intros Hf (Ha & t & Hg & Hc & Hk). split; [done|]. exists (f t). simpl.
  rewrite obj_get_alter, decide_True, Hg by done. destruct (Hf t) as [E1 E2].
  unfold has_keyframe_tile, hasKeyframe in *. by rewrite E1, E2.
Qed.

Lemma starved_gc m h : starved m h -> starved m (h_garbageCollect k h).
Proof.
  intros (Ha & t & Hg & Hc & Hk). split; [done|].
  destruct (gc_keeps_current h.1 k t Hg Hc) as (t' & Hg' & Hc' & E & _). exists t'.
  unfold has_keyframe_tile, hasKeyframe in *. by rewrite E.
Qed.

Lemma starved_reclaim m p h : starved m h -> starved m (h_reclaim p h).
Proof.
  intros [Ha H]. split; [done|]. simpl. apply reclaim_tiles_ind; [|done].
  intros k' s (t & Hg & Hc & Hk). simpl. rewrite obj_get_alter, Hg.
  case_decide; [by exists (reclaimTileCanvasMemory t)|by exists t].
Qed.

Section starving.
Context (f : nat) (apply : list Z -> handle -> outcome) (draw : handle -> outcome).
Context (IH : forall m raw h, (4 * f <= m)%nat -> starved m h -> apply raw h = NoFuel).

Lemma starved_ensureCanvas m h :
  (4 * f <= m)%nat -> starved m h -> has_canvas (h_tile k h) = false ->
  ensureCanvas tileSizePx apply k None h = NoFuel.
Proof using IH.
  intros Hm Hs Hc. unfold ensureCanvas. rewrite Hc.
  apply (starved_alter m (set_canvas (Some (blank_canvas tileSizePx)))) in Hs; [|done].
  destruct (Hs) as (_ & t & Hg & _ & Hk). set (h1 := h_alter k _ h) in *.
  assert (h_tile k h1 = t) as -> by (unfold h_tile; by rewrite Hg). rewrite Hk.
  unfold has_keyframe_tile, hasKeyframe in Hk. destruct (rawDeltas (data t)) as [raw|]; [|done].
  by rewrite (IH m).
Qed.

Lemma starved_try m fail h :
  (4 * f <= m)%nat -> starved (S m) h -> (forall h', starved m h' -> fail h' = NoFuel) ->
  tryContext tileSizePx apply k draw fail h = NoFuel.
Proof using IH.
  intros Hm Hs Hfail. unfold tryContext. destruct (has_canvas (h_tile k h)) eqn:Hc.
  - cbn [andThen]. rewrite Hc. destruct h as [s [t l]], Hs as (Ha & Ht).
    unfold h_answers in Ha. cbn in Ha. rewrite Ha. cbn. apply Hfail. by split.
  - by rewrite (starved_ensureCanvas (S m)) by (done || lia).
Qed.

Lemma starved_context m h :
  (4 * S f <= m)%nat -> starved m h -> ensureContext tileSizePx apply k draw h = NoFuel.
Proof using IH.
  intros Hm Hs. destruct m as [|[|[|m]]]; [lia..|]. unfold ensureContext.
  assert (starved (S (S (S m))) (h_maybeGarbageCollect k h)) as H0.
  { unfold h_maybeGarbageCollect. cbv zeta. assert (starved (S (S (S m))) (h_count h)) by done.
    case_match; [by apply starved_gc|done]. }
  apply (starved_try (S (S m))); [lia|done|]. intros h1 H1. unfold retryContext.
  apply (starved_try (S m)); [lia|by apply starved_gc|]. intros h2 H2.
  apply (starved_try m); [lia|by apply starved_reclaim|]. intros h3 H3.
  apply (starved_reclaim m (fun _ => true)) in H3. unfold tryContext.
  assert (has_canvas (h_tile k (h_reclaim (fun _ => true) h3)) = false) as Hc.
  { destruct H3 as (_ & t & Ht & _). unfold h_tile. rewrite Ht. cbn in Ht.
    apply reclaim_all_get in Ht as [E _]. unfold has_canvas. cbn. by rewrite E. }
  by rewrite Hc, (starved_ensureCanvas m) by (done || lia).
Qed.
End starving.

Lemma starved_nests fuel m raw isKey wire h :
  (4 * fuel <= m)%nat -> starved m h -> applyD fuel k raw isKey wire h = NoFuel.
Proof.
  revert m raw isKey wire h. induction fuel as [|fuel IH]; intros m raw isKey wire h Hm Hs; [done|].
  cbn [applyDelta]. apply (starved_context fuel) with (m := m); [|done..]. intros m' raw' h'. apply IH.
Qed.
End termination.

(** ** The store stays well-formed *)

Section message_ok.
Context (decompress : list Z -> option (list Z)) (getImageData : list Z -> list Z).
Context (tileSizePx : nat) (k : string).

Abbreviation applyD := (applyDelta decompress getImageData tileSizePx).

Lemma filling_h_alter n f h : content_only f -> filling n k h.1 -> filling n k (h_alter k f h).1.
Proof. intros Hf H. apply filling_alter; [|done]. intros t. apply Hf. Qed.

Lemma applyDelta_filling n fuel raw isKey wire h :
  0 <= n -> filling n k h.1 ->
  outcome_all (fun h' => filling n k h'.1) (applyD fuel k raw isKey wire h).
Proof.
  intros Hn. apply (applyDelta_ind _ _ _ _ (fun h' => filling n k h'.1)).
  - intros f h'. apply filling_h_alter.
  - intros h' H. destruct H. by split.
  - intros h'. by apply filling_gc.
  - intros p h'. apply reclaim_tiles_ind. intros k' s. apply filling_reclaim.
  - intros h'. by rewrite h_store_getContext.
Qed.

Lemma hasKeyframe_contentless t : hasKeyframe (data t) = true -> contentless t = 0.
Proof. unfold contentless, hasContent. intros ->. by rewrite orb_true_r. Qed.

(** Getting a canvas preserves the invariant: what it may redraw had content. *)
Lemma ensureCanvas_store_ok fuel now h1 :
  store_ok h1.1 ->
  outcome_all (fun h' => store_ok h'.1)
    (ensureCanvas tileSizePx (fun raw h => applyD fuel k raw true false h) k now h1).
Proof.
  intros Hok1. unfold ensureCanvas.
  destruct (has_canvas (h_tile k h1)); [|apply outcome_all_andThen].
  { simpl. case_match; by repeat apply store_ok_alter_tile. }
  - assert (Hok2 : store_ok (h_alter k (set_canvas (Some (blank_canvas tileSizePx))) h1).1)
      by by apply store_ok_alter_tile.
    set (h2 := h_alter _ _ h1) in *. destruct (rawDeltas (data (h_tile k h2))) as [raw|]; [|done].
    destruct (has_keyframe_tile (h_tile k h2)) eqn:Hkf; [|done].
    assert (Hfill : filling 0 k h2.1).
    { pose proof (filling_of_ok k h2.1 Hok2) as Hf. unfold has_keyframe_tile, h_tile in Hkf.
      destruct (obj_get k (tiles h2.1)); [|done]. simpl in Hkf.
      by rewrite hasKeyframe_contentless in Hf. }
    pose proof (applyDelta_filling 0 fuel raw true false h2 ltac:(lia) Hfill) as H.
    destruct (applyD fuel k raw true false h2); simpl in *; [by apply (ok_of_filling k)..|done].
  - intros h' Hok'. simpl. case_match; by repeat apply store_ok_alter_tile.
Qed.

(** A handler that works on a tile no longer in the store leaves the store alone. *)
Lemma applyDelta_body_detached raw isKey wire h :
  obj_get k (tiles h.1) = None ->
  outcome_all (fun h' => h'.1 = h.1)
    (applyDelta_body decompress getImageData tileSizePx k raw isKey wire h).
Proof.
  intros Hg. apply (applyDelta_body_ind _ _ _ _ (fun h' => h'.1 = h.1)); [|done].
  intros f h' _ E. simpl. unfold alter_tile, set_tiles. rewrite E.
  rewrite obj_alter_absent by by apply obj_get_None. by destruct h.1.
Qed.

(** A tile in the store stays there while it is drawn. *)
Lemma applyDelta_body_present raw isKey wire h :
  is_Some (obj_get k (tiles h.1)) -> filling 1 k h.1 ->
  outcome_all (fun h' => is_Some (obj_get k (tiles h'.1)) /\ filling 1 k h'.1)
    (applyDelta_body decompress getImageData tileSizePx k raw isKey wire h).
Proof.
  intros Hg Hf.
  apply (applyDelta_body_ind _ _ _ _ (fun h' => is_Some (obj_get k (tiles h'.1)) /\ filling 1 k h'.1));
    [|done].
  intros f h' Hcf [Hg' Hf']. split; [|by apply filling_h_alter]. simpl.
  rewrite obj_get_alter, decide_True by done. by apply fmap_is_Some.
Qed.

(** After a message the count may be one too high if its tile is in the store. *)
Definition settled (h : handle) : Prop :=
  (is_Some (obj_get k (tiles h.1)) /\ filling 1 k h.1) \/ store_ok h.1.

Lemma applyDelta_body_settled raw isKey wire h :
  store_ok h.1 ->
  outcome_all settled (applyDelta_body decompress getImageData tileSizePx k raw isKey wire h).
Proof.
  intros Hok. destruct (obj_get k (tiles h.1)) as [t|] eqn:Hg.
  - pose proof (filling_of_ok k h.1 Hok) as Hf. rewrite Hg in Hf.
    apply (filling_weaken _ 1) in Hf; [|apply contentless_bool].
    eapply outcome_all_mono; [|apply (applyDelta_body_present raw isKey wire h); eauto].
    by left.
  - eapply outcome_all_mono; [|by apply (applyDelta_body_detached raw isKey wire h)].
    intros h' E. right. by rewrite E.
Qed.

Lemma tryContext_settled fuel draw fail h :
  store_ok h.1 -> (forall h, store_ok h.1 -> outcome_all settled (draw h)) ->
  (forall h, store_ok h.1 -> outcome_all settled (fail h)) ->
  outcome_all settled (tryContext tileSizePx (fun raw h => applyD fuel k raw true false h) k draw fail h).
Proof.
  intros Hok Hdraw Hfail. apply (tryContext_rule (outcome_all settled) (fun h => store_ok h.1)); [done| |].
  - intros _. pose proof (ensureCanvas_store_ok fuel None h Hok) as H.
    destruct (ensureCanvas _ _ _ _ _); simpl in *; [done|by right|done].
  - intros h' Hok'. destruct (has_canvas _); [|by right].
    rewrite <- (h_store_getContext h') in Hok'. destruct (h_getContext h') as [[] h2]; cbn in Hok'; auto.
Qed.

Lemma applyDelta_store_ok fuel raw isKey wire h :
  store_ok h.1 -> outcome_all settled (applyD fuel k raw isKey wire h).
Proof.
  intros Hok. destruct fuel as [|fuel]; [done|]. cbn [applyDelta]. unfold ensureContext.
  assert (Hrec : forall p h, store_ok h.1 -> store_ok (h_reclaim p h).1).
  { intros p h' H. apply (reclaim_tiles_ind store_ok); [|done]. intros k' s. apply reclaim_ok. }
  pose proof (applyDelta_body_settled raw isKey wire) as Hbody.
  apply tryContext_settled; [|done|].
  { rewrite h_maybeGarbageCollect_store. by apply maybeGarbageCollect_ok. }
  intros h1 H1. unfold retryContext. apply tryContext_settled; [by apply garbageCollect_ok|done|].
  intros h2 H2. apply tryContext_settled; [by apply Hrec|done|].
  intros h3 H3. apply tryContext_settled; [by apply Hrec|done|]. by right.
Qed.
End message_ok.

Lemma tileReady_ok visible c now l :
  (is_Some (obj_get (key c) (tiles (lstore l))) /\ filling 1 (key c) (lstore l)) \/
    store_ok (lstore l) ->
  store_ok (lstore (tileReady visible c now l)).
Proof.
  intros H. unfold tileReady, tileCoordsToKey.
  destruct (obj_get (key c) (tiles (lstore l))) as [t|] eqn:Hg.
  2: { destruct H as [[[? ?] _]|H]; [done|exact H]. }
  assert (Hs : store_ok (Store (tiles (lstore l))
    (if 0 <? emptyTilesCount (lstore l) then emptyTilesCount (lstore l) - 1
     else emptyTilesCount (lstore l)) (gcCounter (lstore l)))).
  { destruct H as [[_ [Hwf Hk Hc]]|[Hwf Hk Hc]]; split; try done; simpl.
    - rewrite (contentless_split (key c)), Hg by done. pose proof (contentless_bool t).
      pose proof (obj_sum_nonneg (contentless_but (key c)) (tiles (lstore l))
        (fun t => proj1 (contentless_but_bound (key c) t))).
      case_bool; lia.
    - case_bool; lia. }
  repeat case_match; simpl; by apply store_ok_alter_tile.
Qed.

Lemma receive_tile_ok m c now s : store_ok s -> store_ok (receive_tile m c now s).
Proof.
  intros Hok. unfold receive_tile, tileCoordsToKey. apply store_ok_alter_tile; [done..|].
  case_match; auto with oxool.
Qed.

(** ** What a tile shows

    [raw] is a keyframe for the pixels [px] followed by the deltas [css]. *)

(** The collector leaves a tile's data, drops its pictures, or drops everything. *)
Definition shrunk (d d' : content) : Prop :=
  d' = d \/ d' = Content None None (rawDeltas d) \/ d' = Content None None None.

Lemma shrunk_refl d : shrunk d d.
Proof. by left. Qed.

Lemma shrunk_reclaim d t : shrunk d (data t) -> shrunk d (data (reclaimTileCanvasMemory t)).
Proof. unfold shrunk, reclaimTileCanvasMemory; simpl. intros [->|[->| ->]]; auto. Qed.

(** Every tile of [s'] is a shrunk tile of [s]. *)
Definition store_shrunk (s s' : store) : Prop :=
  forall k t', obj_get k (tiles s') = Some t' ->
    exists t, obj_get k (tiles s) = Some t /\ shrunk (data t) (data t').

Lemma store_shrunk_refl s : store_shrunk s s.
Proof. intros k t Hg. exists t. auto using shrunk_refl. Qed.

Lemma store_shrunk_reclaim s s' k :
  store_shrunk s s' -> store_shrunk s (alter_tile reclaimTileCanvasMemory k s').
Proof.
  intros H k' t'. simpl. rewrite obj_get_alter. case_decide; [|by apply H].
  destruct (obj_get k' (tiles s')) as [t0|] eqn:E; [|done]. intros [= <-].
  destruct (H k' t0 E) as (t & Ht & Hsh). exists t. split; [done|]. by apply shrunk_reclaim.
Qed.

Lemma store_shrunk_drop s s' k :
  store_shrunk s s' -> store_shrunk s (alter_tile drop_deltas k s').
Proof.
  intros H k' t'. simpl. rewrite obj_get_alter. case_decide; [|by apply H].
  destruct (obj_get k' (tiles s')) as [t0|] eqn:E; [|done]. intros [= <-].
  destruct (H k' t0 E) as (t & Ht & _). exists t. split; [done|]. by right; right.
Qed.

Lemma store_shrunk_remove s s' k : store_shrunk s s' -> store_shrunk s (removeTile k s').
Proof.
  intros H k' t'. unfold removeTile. destruct (obj_get k (tiles s')); [simpl|by apply H].
  rewrite obj_get_del. case_decide; [done|]. by apply H.
Qed.

Lemma garbageCollect_shrunk s : store_shrunk s (garbageCollect s).
Proof.
  apply garbageCollect_ind; auto using store_shrunk_reclaim, store_shrunk_drop,
    store_shrunk_remove, store_shrunk_refl.
Qed.

Lemma gc_trim_shrunk ks s : store_shrunk s (gc_trim ks s).
Proof.
  unfold gc_trim. set (s1 := gc_canvases _ s).
  assert (store_shrunk s s1).
  { apply (gc_canvases_ind (store_shrunk s)); auto using store_shrunk_reclaim, store_shrunk_refl. }
  case_bool; [|done]. apply (gc_deltas_ind (store_shrunk s)); auto using store_shrunk_drop.
Qed.

Lemma maybeGarbageCollect_shrunk s : store_shrunk s (maybeGarbageCollect s).
Proof.
  unfold maybeGarbageCollect. case_bool; [|exact (store_shrunk_refl s)].
  intros k t' H. by apply garbageCollect_shrunk in H.
Qed.

Lemma gc_trim_keys ks s : obj_keys (tiles (gc_trim ks s)) = obj_keys (tiles s).
Proof.
  unfold gc_trim. case_bool; [|apply gc_canvases_keys].
  rewrite <- (gc_canvases_keys (List.filter (tile_has_canvas s) ks) s).
  set (s1 := gc_canvases _ s).
  apply (gc_deltas_ind (fun s' => obj_keys (tiles s') = obj_keys (tiles s1))); [|done].
  intros k t s' <- _ _. apply obj_keys_alter.
Qed.

Lemma maybeGarbageCollect_absent k s :
  obj_get k (tiles s) = None -> obj_get k (tiles (maybeGarbageCollect s)) = None.
Proof.
  intros Hg. destruct (obj_get k (tiles (maybeGarbageCollect s))) as [t|] eqn:E; [|done].
  apply maybeGarbageCollect_shrunk in E as (t' & E & _). congruence.
Qed.

(** The handle's tile is shrunk as well, whether it stays in the store or not. *)
Lemma h_garbageCollect_shrunk k h :
  shrunk (data (h_tile k h)) (data (h_tile k (h_garbageCollect k h))).
Proof.
  unfold h_tile at 2. simpl. destruct (obj_get k (tiles (garbageCollect h.1))) as [t'|] eqn:E.
  - apply garbageCollect_shrunk in E as (t & E & Hsh). unfold h_tile. by rewrite E.
  - simpl. destruct (obj_get k (tiles (gc_trim (gc_keys h.1) h.1))) as [t|] eqn:Et.
    + apply gc_trim_shrunk in Et as (t0 & Et & Hsh). unfold h_tile. rewrite Et.
      by apply shrunk_reclaim.
    + apply obj_get_None in Et. rewrite gc_trim_keys in Et. apply obj_get_None in Et.
      unfold h_tile. rewrite Et. apply shrunk_refl.
Qed.

Lemma reclaim_tiles_shrunk p s : store_shrunk s (reclaim_tiles p s).
Proof. apply reclaim_tiles_ind; auto using store_shrunk_reclaim, store_shrunk_refl. Qed.

Lemma h_reclaim_shrunk k p h : shrunk (data (h_tile k h)) (data (h_tile k (h_reclaim p h))).
Proof.
  unfold h_tile at 2. simpl. destruct (obj_get k (tiles (reclaim_tiles p h.1))) as [t'|] eqn:E.
  - apply reclaim_tiles_shrunk in E as (t & E & Hsh). unfold h_tile. by rewrite E.
  - apply obj_get_None in E. rewrite reclaim_tiles_keys in E. apply obj_get_None in E as Eh.
    unfold h_tile. rewrite Eh. apply shrunk_refl.
Qed.

#[local] Arguments drawDelta : simpl never.
#[local] Arguments applyDelta : simpl never.
#[local] Arguments store_and_draw : simpl never.

Section pictures.
Context (decompress : list Z -> option (list Z)) (getImageData : list Z -> list Z).
Context (tileSizePx : nat) (k : string).

(** Concatenated zstd frames decompress to the concatenation of their contents. *)
Definition decompress_concat : Prop :=
  forall a b x y, decompress a = Some x -> decompress b = Some y ->
    decompress (a ++ b) = Some (x ++ y).

Abbreviation w := tileSizePx.
Abbreviation applyD := (applyDelta decompress getImageData tileSizePx).

(** Compressed bytes that hold a keyframe and some deltas. *)
Definition stream (raw px : list Z) (css : list (list cmd)) : Prop :=
  raw <> [] /\ decompress raw = Some (px ++ encode_deltas css) /\ image_ok w w px /\
  Forall (Forall (cmd_ok w)) css.

Definition picture (px : list Z) (css : list (list cmd)) : list Z :=
  deltas_effect w (unpremultiply_pixels px) css.

Definition drawn (raw px : list Z) (css : list (list cmd)) : content :=
  Content (Some (picture px css)) (Some (picture px css)) (Some raw).

(** The deltas of a tile, if any, form a stream. *)
Definition streamy (d : content) : Prop :=
  match rawDeltas d with Some raw => exists px css, stream raw px css | None => True end.

(** A tile with a canvas and deltas shows exactly the image of its deltas. *)
Definition shows_deltas (d : content) : Prop :=
  match rawDeltas d with
  | None => imgDataCache d = None
  | Some raw => exists px css, stream raw px css /\
      ((canvas d = None /\ imgDataCache d = None) \/ d = drawn raw px css)
  end.

Lemma shows_streamy d : shows_deltas d -> streamy d.
Proof. unfold shows_deltas, streamy. destruct (rawDeltas d); [|done].
  intros (px & css & Hs & _). by exists px, css. Qed.

Lemma shrunk_streamy d d' : shrunk d d' -> streamy d -> streamy d'.
Proof. by intros [->|[->| ->]]. Qed.

Lemma shrunk_shows d d' : shrunk d d' -> shows_deltas d -> shows_deltas d'.
Proof.
  unfold shows_deltas. intros [->|[->| ->]]; try done. simpl.
  destruct (rawDeltas d); [|done]. intros (px & css & Hs & _). exists px, css. auto.
Qed.

Lemma drawn_shows raw px css : stream raw px css -> shows_deltas (drawn raw px css).
Proof. intros Hs. exists px, css. auto. Qed.

(** The handler returns, with [Q], unless the fuel runs out. *)
Definition returns_with (Q : handle -> Prop) (o : outcome) : Prop :=
  match o with Returns h => Q h | Throws _ => False | NoFuel => True end.

Lemma returns_with_andThen P Q o f :
  returns_with P o -> (forall h, P h -> returns_with Q (f h)) -> returns_with Q (andThen o f).
Proof. destruct o; simpl; auto. Qed.

Lemma store_and_draw_keyframe raw px css h :
  stream raw px css -> canvas (data (h_tile k h)) <> None ->
  returns_with (fun h' => data (h_tile k h') = drawn raw px css)
    (store_and_draw decompress getImageData w k raw true h).
Proof.
  intros (_ & Hd & Hpx & Hcss) Hc. unfold store_and_draw, draw. rewrite !h_tile_alter. simpl.
  destruct (canvas (data (h_tile k h))) as [c|]; [|done]. rewrite Hd.
  rewrite drawDelta_keyframe by done. simpl. by rewrite !h_tile_alter.
Qed.

Lemma count_delta_data isKey t : data (count_delta isKey t) = data t.
Proof. unfold count_delta. by destruct isKey. Qed.

Lemma keyframe_body raw px css wire h :
  stream raw px css -> canvas (data (h_tile k h)) <> None ->
  returns_with (fun h' => data (h_tile k h') = drawn raw px css)
    (applyDelta_body decompress getImageData w k raw true wire h).
Proof.
  intros Hs Hc. unfold applyDelta_body. destruct wire; simpl; apply store_and_draw_keyframe; try done.
  by rewrite h_tile_alter, count_delta_data.
Qed.

(** The tile, if it is still in the store, shows its deltas. *)
Definition shown (h : handle) : Prop :=
  forall t, obj_get k (tiles h.1) = Some t -> shows_deltas (data t).

Definition sound (h : handle) : Prop := streamy (data (h_tile k h)) /\ shown h.

Definition ready (h : handle) : Prop := canvas (data (h_tile k h)) <> None /\ sound h.

Lemma h_tile_get h t : obj_get k (tiles h.1) = Some t -> h_tile k h = t.
Proof. unfold h_tile. by intros ->. Qed.

Lemma shows_sound h : shows_deltas (data (h_tile k h)) -> sound h.
Proof. intros H. split; [by apply shows_streamy|]. intros t Hg. by rewrite <- (h_tile_get h t). Qed.

Lemma drawn_ready raw px css h :
  stream raw px css -> data (h_tile k h) = drawn raw px css -> ready h.
Proof.
  intros Hs E. split; [by rewrite E|]. apply shows_sound. rewrite E. by apply drawn_shows.
Qed.

Lemma sound_shrunk h h' :
  shrunk (data (h_tile k h)) (data (h_tile k h')) -> store_shrunk h.1 h'.1 -> sound h -> sound h'.
Proof.
  intros Ht Hst [Hs Hsh]. split; [by eapply shrunk_streamy|].
  intros t' (t & Hg & Hd)%Hst. eapply shrunk_shows; [done|]. by apply Hsh.
Qed.

Lemma sound_gc h : sound h -> sound (h_garbageCollect k h).
Proof. apply sound_shrunk; [apply h_garbageCollect_shrunk|apply garbageCollect_shrunk]. Qed.

Lemma streamy_gc h : streamy (data (h_tile k h)) -> streamy (data (h_tile k (h_garbageCollect k h))).
Proof. apply shrunk_streamy, h_garbageCollect_shrunk. Qed.

Lemma sound_maybeGC h : sound h -> sound (h_maybeGarbageCollect k h).
Proof.
  intros H. unfold h_maybeGarbageCollect. cbv zeta. assert (sound (h_count h)) by exact H.
  case_match; [by apply sound_gc|done].
Qed.

Lemma streamy_maybeGC h :
  streamy (data (h_tile k h)) -> streamy (data (h_tile k (h_maybeGarbageCollect k h))).
Proof.
  intros H. unfold h_maybeGarbageCollect. cbv zeta. case_match; [by apply streamy_gc|done].
Qed.

Lemma sound_reclaim p h : sound h -> sound (h_reclaim p h).
Proof. apply sound_shrunk; [apply h_reclaim_shrunk|apply reclaim_tiles_shrunk]. Qed.

Lemma streamy_reclaim p h : streamy (data (h_tile k h)) -> streamy (data (h_tile k (h_reclaim p h))).
Proof. apply shrunk_streamy, h_reclaim_shrunk. Qed.

Lemma sound_alter f h : (forall t, data (f t) = data t) -> sound h -> sound (h_alter k f h).
Proof.
  intros Hf [Hs Hsh]. split; [by rewrite h_tile_alter, Hf|]. intros t. simpl.
  rewrite obj_get_alter, decide_True by done. destruct (obj_get k (tiles h.1)) as [t0|] eqn:E; [|done].
  intros [= <-]. rewrite Hf. by apply Hsh.
Qed.

Lemma sound_getContext h : sound h -> sound (h_getContext h).2.
Proof. unfold sound, shown. by rewrite h_tile_getContext, h_store_getContext. Qed.

(** Redrawing from [raw] leaves a tile that can be shown. *)
Definition redraws (apply : list Z -> handle -> outcome) : Prop :=
  forall raw px css h, stream raw px css -> streamy (data (h_tile k h)) ->
    returns_with ready (apply raw h).

(** [ensureCanvas] on a tile without canvas. *)
Lemma ensureCanvas_shows apply now h :
  redraws apply -> canvas (data (h_tile k h)) = None -> streamy (data (h_tile k h)) ->
  returns_with (fun h' => canvas (data (h_tile k h')) <> None /\ streamy (data (h_tile k h')) /\
                          ((forall t, obj_get k (tiles h.1) = Some t -> imgDataCache (data t) = None) -> sound h'))
    (ensureCanvas w apply k now h).
Proof.
  intros Happly Hc Hs. unfold ensureCanvas, has_canvas. rewrite Hc.
  set (h1 := h_alter k (set_canvas (Some (blank_canvas w))) h).
  assert (Hd1 : data (h_tile k h1) = Content (Some (blank_canvas w))
                  (imgDataCache (data (h_tile k h))) (rawDeltas (data (h_tile k h)))).
  { unfold h1. by rewrite h_tile_alter. }
  assert (Hs1 : streamy (data (h_tile k h1))) by by rewrite Hd1.
  apply (returns_with_andThen (fun h' => canvas (data (h_tile k h')) <> None /\
    streamy (data (h_tile k h')) /\
    ((forall t, obj_get k (tiles h.1) = Some t -> imgDataCache (data t) = None) -> sound h'))).
  - rewrite Hd1. simpl. unfold streamy in Hs.
    destruct (rawDeltas (data (h_tile k h))) as [raw|] eqn:Hraw.
    + destruct Hs as (px & css & Hst). unfold has_keyframe_tile, hasKeyframe. rewrite Hd1. simpl.
      destruct raw as [|b raw]; [by destruct Hst|]. simpl.
      specialize (Happly (b :: raw) px css h1 Hst Hs1).
      destruct (apply (b :: raw) h1) as [h2|h2|]; simpl in *; [|done..].
      by destruct Happly as (? & ? & ?).
    + simpl. rewrite Hd1. split_and!; [done|done|]. intros Hi. split; [done|].
      intros t Hg. rewrite <- (h_tile_get h1 t Hg), Hd1. unfold shows_deltas. simpl.
      revert Hg. simpl. rewrite obj_get_alter, decide_True by done.
      destruct (obj_get k (tiles h.1)) as [t0|] eqn:E; [|done]. intros _.
      rewrite (h_tile_get h t0 E). by apply Hi.
  - intros h2 (Hc2 & Hs2 & Hsh2). simpl.
    assert (forall f, (forall t, data (f t) = data t) ->
      canvas (data (h_tile k (h_alter k f h2))) <> None /\ streamy (data (h_tile k (h_alter k f h2))) /\
      ((forall t, obj_get k (tiles h.1) = Some t -> imgDataCache (data t) = None) -> sound (h_alter k f h2))) as H.
    { intros f Hf. rewrite h_tile_alter, Hf. split_and!; [done..|]. intros Hi. by apply sound_alter, Hsh2. }
    rewrite h_tile_alter. destruct (hasContent _); [by apply H|]. simpl.
    destruct (H (set_lastRendered now) ltac:(done)) as (H1 & H2 & H3).
    rewrite h_tile_alter. split_and!; [done..|]. intros Hi. by apply sound_alter, H3.
Qed.

Lemma canvas_false h : has_canvas (h_tile k h) = false -> canvas (data (h_tile k h)) = None.
Proof. unfold has_canvas. by destruct (canvas _). Qed.

Lemma canvas_true h : canvas (data (h_tile k h)) <> None -> has_canvas (h_tile k h) = true.
Proof. unfold has_canvas. by destruct (canvas _). Qed.

Lemma has_canvas_true h : has_canvas (h_tile k h) = true -> canvas (data (h_tile k h)) <> None.
Proof. unfold has_canvas. by destruct (canvas _). Qed.

(** An attempt on a tile that need not show its deltas yet. *)
Lemma tryContext_streamy apply draw fail Q h :
  redraws apply -> streamy (data (h_tile k h)) ->
  (forall h, canvas (data (h_tile k h)) <> None -> streamy (data (h_tile k h)) -> returns_with Q (draw h)) ->
  (forall h, streamy (data (h_tile k h)) -> returns_with Q (fail h)) ->
  returns_with Q (tryContext w apply k draw fail h).
Proof.
  intros Ha Hs Hdraw Hfail.
  apply (tryContext_rule (returns_with Q) (fun h => canvas (data (h_tile k h)) <> None /\ streamy (data (h_tile k h)))).
  - intros Hc. split; [by apply has_canvas_true|done].
  - intros Hc. pose proof (ensureCanvas_shows apply None h Ha (canvas_false h Hc) Hs) as H.
    destruct (ensureCanvas _ _ _ _ _); simpl in *; [|done..]. by destruct H as (? & ? & _).
  - intros h' [Hc' Hs']. rewrite (canvas_true h' Hc'). rewrite <- (h_tile_getContext k h') in Hc', Hs'.
    destruct (h_getContext h') as [[] h2]; cbn in *; auto.
Qed.

(** An attempt on a tile that shows its deltas, if it is still in the store. *)
Lemma tryContext_sound apply draw fail Q h :
  redraws apply -> streamy (data (h_tile k h)) ->
  (has_canvas (h_tile k h) = true -> shown h) ->
  (has_canvas (h_tile k h) = false -> forall t, obj_get k (tiles h.1) = Some t -> imgDataCache (data t) = None) ->
  (forall h, ready h -> returns_with Q (draw h)) -> (forall h, ready h -> returns_with Q (fail h)) ->
  returns_with Q (tryContext w apply k draw fail h).
Proof.
  intros Ha Hs Hsh Hi Hdraw Hfail. apply (tryContext_rule (returns_with Q) ready).
  - intros Hc. split; [by apply has_canvas_true|]. split; [done|by apply Hsh].
  - intros Hc. pose proof (ensureCanvas_shows apply None h Ha (canvas_false h Hc) Hs) as H.
    destruct (ensureCanvas _ _ _ _ _); simpl in *; [|done..]. destruct H as (? & ? & H). split; auto.
  - intros h' [Hc' Hs']. rewrite (canvas_true h' Hc'). apply sound_getContext in Hs'.
    rewrite <- (h_tile_getContext k h') in Hc'. assert (ready (h_getContext h').2) by done.
    destruct (h_getContext h') as [[] h2]; cbn in *; auto.
Qed.

Lemma sound_no_image h :
  sound h -> has_canvas (h_tile k h) = false ->
  forall t, obj_get k (tiles h.1) = Some t -> imgDataCache (data t) = None.
Proof.
  intros [_ Hsh] Hc%canvas_false t Hg. specialize (Hsh t Hg). rewrite (h_tile_get h t Hg) in Hc.
  unfold shows_deltas in Hsh. destruct (rawDeltas (data t)); [|done].
  destruct Hsh as (px & css & _ & [[_ ?]|E]); [done|]. rewrite E in Hc. done.
Qed.

(** Once all canvases are freed a tile of the store is drawn from its deltas or is bare. *)
Lemma last_attempt apply draw Q h :
  redraws apply -> streamy (data (h_tile k h)) ->
  (forall h, ready h -> returns_with Q (draw h)) -> (forall h, ready h -> Q h) ->
  returns_with Q (tryContext w apply k draw Returns (h_reclaim (fun _ => true) h)).
Proof.
  intros Ha Hs Hdraw HQ. apply tryContext_sound; try done.
  - by apply streamy_reclaim.
  - intros Hc t Hg. cbn in Hg. rewrite (h_tile_get (h_reclaim _ h) t Hg) in Hc.
    apply reclaim_all_get in Hg as [Hn _]. unfold has_canvas in Hc. by rewrite Hn in Hc.
  - intros _ t Hg. by apply reclaim_all_get in Hg as [_ ?].
Qed.

(** Redrawing a stream: whatever fails, a tile of the store shows its deltas in the end. *)
Lemma applyDelta_keyframe fuel raw px css wire h :
  stream raw px css -> streamy (data (h_tile k h)) ->
  returns_with ready (applyD fuel k raw true wire h).
Proof.
  revert raw px css wire h. induction fuel as [|fuel IH]; intros raw px css wire h Hst Hs; [done|].
  cbn [applyDelta]. unfold ensureContext.
  assert (Ha : redraws (fun raw h => applyD fuel k raw true false h)).
  { intros raw' px' css' h' Hst' Hs'. by apply (IH _ px' css'). }
  assert (Hbody : forall h, canvas (data (h_tile k h)) <> None ->
            returns_with ready (applyDelta_body decompress getImageData w k raw true wire h)).
  { intros h' Hc. pose proof (keyframe_body raw px css wire h' Hst Hc) as H.
    destruct (applyDelta_body _ _ _ _ _ _ _ _); simpl in *; [|done..]. by apply (drawn_ready raw px css). }
  apply tryContext_streamy; [done|by apply streamy_maybeGC|auto|]. intros h1 H1. unfold retryContext.
  apply tryContext_streamy; [done|by apply streamy_gc|auto|]. intros h2 H2.
  apply tryContext_streamy; [done|by apply streamy_reclaim|auto|]. intros h3 H3.
  apply last_attempt; [done..| |done]. intros h4 [Hc _]. by apply Hbody.
Qed.

Lemma applyDelta_redraws fuel : redraws (fun raw h => applyD fuel k raw true false h).
Proof. intros raw px css h. apply applyDelta_keyframe. Qed.

(** With a context for every canvas the picture is the stream's. *)
Lemma applyDelta_granted fuel raw px css wire h :
  h_answers h = [] -> stream raw px css -> streamy (data (h_tile k h)) ->
  returns_with (fun h' => data (h_tile k h') = drawn raw px css) (applyD fuel k raw true wire h).
Proof.
  intros Hn Hst Hs. destruct fuel as [|fuel]; [done|]. cbn [applyDelta]. unfold ensureContext.
  set (apply := fun raw h => applyD fuel k raw true false h).
  set (h1 := h_maybeGarbageCollect k h).
  assert (Hn1 : h_answers h1 = []).
  { unfold h1, h_maybeGarbageCollect. cbv zeta. by case_match. }
  apply (tryContext_rule _ (fun h => canvas (data (h_tile k h)) <> None /\ h_answers h = [])).
  - intros Hc. split; [by apply has_canvas_true|done].
  - intros Hc. pose proof (ensureCanvas_shows apply None h1 (applyDelta_redraws fuel) (canvas_false h1 Hc)
      (streamy_maybeGC h Hs)) as H.
    pose proof (ensureCanvas_ind w k (fun h => h_answers h = []) ltac:(done) apply None h1) as Hind.
    assert (Happ : forall raw h, h_answers h = [] -> outcome_all (fun h => h_answers h = []) (apply raw h)).
    { intros raw' h'. apply (applyDelta_ind _ _ _ _ (fun h => h_answers h = [])); try done.
      intros [s0 [t0 l0]] H0. unfold h_answers in *. cbn in H0. by subst. }
    specialize (Hind Happ Hn1). destruct (ensureCanvas _ _ _ _ _); simpl in *; [|done..].
    by destruct H as (? & _).
  - intros h' [Hc' Hn']. rewrite (canvas_true h' Hc'). unfold h_answers in Hn'. unfold h_getContext.
    rewrite Hn'. by apply keyframe_body.
Qed.

(** A delta that comes with the protocol: encoded commands, or nothing. *)
Definition delta_bytes (raw : list Z) : Prop :=
  raw = [] \/ exists css, css <> [] /\ decompress raw = Some (encode_deltas css) /\
                         Forall (Forall (cmd_ok w)) css.

Lemma picture_ok px css :
  image_ok w w px -> Forall (Forall (cmd_ok w)) css -> image_ok w w (picture px css).
Proof.
  intros Hpx Hcss. unfold picture. apply unpremultiply_image_ok in Hpx. revert Hpx.
  generalize (unpremultiply_pixels px) as im.
  induction Hcss; intros im Him; simpl; auto using delta_effect_ok.
Qed.

(** Appending a delta to a tile's stream appends it to its picture. *)
Lemma draw_delta_shows raw css h old px css0 :
  decompress_concat -> css <> [] -> decompress raw = Some (encode_deltas css) ->
  Forall (Forall (cmd_ok w)) css -> stream old px css0 ->
  data (h_tile k h) = drawn old px css0 ->
  returns_with (fun h' => data (h_tile k h') = drawn (old ++ raw) px (css0 ++ css))
    (store_and_draw decompress getImageData w k raw false h).
Proof.
  intros Hcat Hne Hd Hcss (Hold & Hdo & Hpx & Hcss0) Hdata. unfold store_and_draw.
  rewrite Hdata. simpl. unfold draw. rewrite !h_tile_alter. simpl. rewrite Hdata. simpl. rewrite Hd.
  rewrite (drawDelta_delta w w) by (done || by apply picture_ok). simpl.
  rewrite !h_tile_alter. simpl. unfold drawn. do 3 f_equal; unfold picture, deltas_effect;
    by rewrite foldl_app.
Qed.

Lemma stream_app old px css0 raw css :
  decompress_concat -> decompress raw = Some (encode_deltas css) -> Forall (Forall (cmd_ok w)) css ->
  stream old px css0 -> stream (old ++ raw) px (css0 ++ css).
Proof.
  intros Hcat Hd Hcss (Hold & Hdo & Hpx & Hcss0). split_and!.
  - by destruct old.
  - rewrite (Hcat _ _ _ _ Hdo Hd). rewrite <- app_assoc. do 2 f_equal. symmetry. apply bind_app.
  - done.
  - by apply Forall_app.
Qed.

Lemma delta_body_shows raw h :
  decompress_concat -> delta_bytes raw -> canvas (data (h_tile k h)) <> None ->
  shows_deltas (data (h_tile k h)) ->
  returns_with (fun h' => shows_deltas (data (h_tile k h')))
    (applyDelta_body decompress getImageData w k raw false true h).
Proof.
  intros Hcat Hraw Hc Hs. unfold applyDelta_body. simpl.
  destruct (Nat.eqb_spec (length raw) 0) as [Hl|Hl]; [simpl; by rewrite h_tile_alter|].
  destruct Hraw as [->|(css & Hne & Hd & Hcss)]; [done|].
  set (h1 := h_alter k (count_delta false) h).
  assert (Hd1 : data (h_tile k h1) = data (h_tile k h)) by (unfold h1; by rewrite h_tile_alter).
  unfold shows_deltas in Hs. destruct (rawDeltas (data (h_tile k h))) as [old|] eqn:Hraw.
  - destruct Hs as (px & css0 & Hst & [[? _]|Hdr]); [done|].
    pose proof (draw_delta_shows raw css h1 old px css0 Hcat Hne Hd Hcss Hst) as H.
    rewrite Hd1 in H. specialize (H Hdr).
    destruct (store_and_draw _ _ _ _ _ _ _); simpl in *; [|done..]. rewrite H.
    apply drawn_shows. by apply stream_app.
  - unfold store_and_draw. rewrite Hd1, Hraw. simpl. rewrite Hd1. unfold shows_deltas. by rewrite Hraw.
Qed.

(** A tile that is no longer in the store: nothing is raised. *)
Lemma delta_body_streamy raw h :
  decompress_concat -> delta_bytes raw -> streamy (data (h_tile k h)) ->
  returns_with (fun h' => streamy (data (h_tile k h')))
    (applyDelta_body decompress getImageData w k raw false true h).
Proof.
  intros Hcat Hraw Hs. unfold applyDelta_body. simpl.
  destruct (Nat.eqb_spec (length raw) 0) as [Hl|Hl]; [simpl; by rewrite h_tile_alter|].
  destruct Hraw as [->|(css & Hne & Hd & Hcss)]; [done|].
  unfold store_and_draw. rewrite h_tile_alter, count_delta_data. unfold streamy in Hs.
  destruct (rawDeltas (data (h_tile k h))) as [old|] eqn:Hraw.
  - destruct Hs as (px & css0 & Hst). set (h1 := h_alter k _ (h_alter k _ h)).
    assert (Hs1 : streamy (data (h_tile k h1))).
    { unfold h1. rewrite h_tile_alter. unfold streamy. simpl. exists px, (css0 ++ css). by apply stream_app. }
    unfold draw. destruct (canvas (data (h_tile k h1))); [|done]. rewrite Hd. unfold drawDelta.
    destruct (_ =? 0)%nat; [done|]. destruct (applyDeltas _ _ _ _); [|done]. simpl.
    by rewrite h_tile_alter.
  - simpl. rewrite h_tile_alter, count_delta_data. unfold streamy. by rewrite Hraw.
Qed.

(** The bytes of a tile or delta message. *)
Definition img_ok (i : img) : Prop :=
  if isKeyframe i then exists px css, stream (rawData i) px css else delta_bytes (rawData i).

Lemma delta_body_sound raw h :
  decompress_concat -> delta_bytes raw -> ready h ->
  returns_with sound (applyDelta_body decompress getImageData w k raw false true h).
Proof.
  intros Hcat Hraw (Hc & Hs & Hsh). destruct (obj_get k (tiles h.1)) as [t|] eqn:Hg.
  - pose proof (delta_body_shows raw h Hcat Hraw Hc) as H. rewrite (h_tile_get h t Hg) in H.
    specialize (H (Hsh t Hg)). destruct (applyDelta_body _ _ _ _ _ _ _ _); simpl in *; [|done..].
    by apply shows_sound.
  - pose proof (delta_body_streamy raw h Hcat Hraw Hs) as H.
    pose proof (applyDelta_body_detached decompress getImageData w k raw false true h Hg) as Hd.
    destruct (applyDelta_body _ _ _ _ _ _ _ _); simpl in *; [|done..]. split; [done|].
    intros t. by rewrite Hd, Hg.
Qed.

Lemma applyDelta_delta fuel raw h :
  decompress_concat -> delta_bytes raw -> sound h -> returns_with sound (applyD fuel k raw false true h).
Proof.
  intros Hcat Hraw Hs. destruct fuel as [|fuel]; [done|]. cbn [applyDelta]. unfold ensureContext.
  pose proof (applyDelta_redraws fuel) as Ha.
  assert (Htry : forall draw fail h, (forall h, ready h -> returns_with sound (draw h)) ->
    (forall h, sound h -> returns_with sound (fail h)) -> sound h ->
    returns_with sound (tryContext w (fun raw h => applyD fuel k raw true false h) k draw fail h)).
  { intros draw fail h' Hd Hf Hs'. apply tryContext_sound; [done|apply Hs'|intros _; apply Hs'| |done|].
    - by apply sound_no_image.
    - intros h2 [_ H2]. by apply Hf. }
  assert (Hbody : forall h, ready h -> returns_with sound (applyDelta_body decompress getImageData w k raw false true h)).
  { intros h'. by apply delta_body_sound. }
  apply Htry; [done| |by apply sound_maybeGC]. intros h1 H1. unfold retryContext.
  apply Htry; [done| |by apply sound_gc]. intros h2 H2.
  apply Htry; [done| |by apply sound_reclaim]. intros h3 H3.
  apply last_attempt; [done|apply H3|done|]. by intros h4 [_ ?].
Qed.

Lemma applyDelta_shows fuel i h :
  decompress_concat -> img_ok i -> sound h ->
  returns_with sound (applyD fuel k (rawData i) (isKeyframe i) true h).
Proof.
  intros Hcat Hi Hs. unfold img_ok in Hi. destruct (isKeyframe i); [|by apply applyDelta_delta].
  destruct Hi as (px & css & Hst).
  pose proof (applyDelta_keyframe fuel (rawData i) px css true h Hst (proj1 Hs)) as H.
  destruct (applyD _ _ _ _ _ _); simpl in *; [|done..]. apply H.
Qed.

(** The other tiles are only ever shrunk. *)
Lemma applyDelta_others fuel raw isKey wire h :
  (forall k' t, k' <> k -> obj_get k' (tiles h.1) = Some t -> shows_deltas (data t)) ->
  outcome_all (fun h' => forall k' t, k' <> k -> obj_get k' (tiles h'.1) = Some t ->
                           shows_deltas (data t)) (applyD fuel k raw isKey wire h).
Proof.
  apply (applyDelta_ind decompress getImageData w k (fun h' => forall k' t, k' <> k ->
    obj_get k' (tiles h'.1) = Some t -> shows_deltas (data t))).
  - intros f h' _ H k' t Hne. simpl. rewrite obj_get_alter, decide_False by congruence. by apply H.
  - done.
  - intros h' H k' t Hne Hg. apply garbageCollect_shrunk in Hg as (t0 & Hg & Hsh).
    eapply shrunk_shows; [exact Hsh|]. by apply (H k').
  - intros p h' H k' t Hne Hg. apply reclaim_tiles_shrunk in Hg as (t0 & Hg & Hsh).
    eapply shrunk_shows; [exact Hsh|]. by apply (H k').
  - intros h' H. by rewrite h_store_getContext.
Qed.
End pictures.

(** ** Messages *)

(** Every tile of the store shows its deltas. *)
Definition all_show (decompress : list Z -> option (list Z)) (w : nat) (s : store) : Prop :=
  forall k t, obj_get k (tiles s) = Some t -> shows_deltas decompress w (data t).

Lemma all_show_alter dec w f k s :
  (forall t, data (f t) = data t) -> all_show dec w s -> all_show dec w (alter_tile f k s).
Proof.
  intros Hf H k' t. simpl. rewrite obj_get_alter. case_decide; [|by apply H].
  destruct (obj_get k' (tiles s)) as [t0|] eqn:E; [|done]. intros [= <-]. rewrite Hf. by apply (H k').
Qed.

Lemma receive_tile_get m c now s :
  exists t, obj_get (key c) (tiles (receive_tile m c now s)) = Some t /\
    wireId t = msg_wireId m /\
    data t = data (default (new_tile c now) (obj_get (key c) (tiles s))) /\
    invalidFrom t = invalidFrom (default (new_tile c now) (obj_get (key c) (tiles s))) /\
    current t = current (default (new_tile c now) (obj_get (key c) (tiles s))).
Proof.
  unfold receive_tile, tileCoordsToKey, obj_has. simpl. rewrite obj_get_alter, decide_True by done.
  destruct (obj_get (key c) (tiles s)) as [t|] eqn:Hg; simpl.
  - rewrite Hg. simpl. by eexists.
  - rewrite createTile_get, Hg, decide_True by done. by eexists.
Qed.

Lemma receive_tile_shows dec w m c now s :
  all_show dec w s -> all_show dec w (receive_tile m c now s).
Proof.
  intros H. unfold receive_tile, tileCoordsToKey. apply all_show_alter; [done|].
  destruct (obj_has (key c) (tiles s)); [done|]. intros k t. rewrite createTile_get.
  destruct (obj_get k (tiles s)) eqn:E; [intros [= <-]; by apply (H k)|].
  case_decide; [|done]. by intros [= <-].
Qed.

Lemma tileReady_shows dec w visible c now l :
  all_show dec w (lstore l) -> all_show dec w (lstore (tileReady visible c now l)).
Proof.
  intros H. unfold tileReady. destruct (obj_get _ _); [|done].
  repeat case_match; simpl; by apply all_show_alter.
Qed.

Section onTileMsg_facts.
Context (decompress : list Z -> option (list Z)) (getImageData : list Z -> list Z).
Context (tileSizePx : nat) (visible : coord -> bool).

Abbreviation onMsg := (onTileMsg decompress getImageData tileSizePx visible).

(** What a message ends in, by cases. *)
Inductive onTileMsg_case (g : grid) (m : command) (im : option img) (now : num) (answers : list bool) (l : layer) :
    msg_outcome -> Prop :=
| case_preview id :
    get_str "id" m = Some id ->
    onTileMsg_case g m im now answers l
      (Handled (queueAcknowledgement m (fire (EvTilePreview id (get_num "width" m)
        (get_num "height" m) (get_num "part" m) (default (Some 0) (get_num "mode" m))) l)))
| case_malformed :
    get_str "id" m = None -> msg_coords g m = None -> onTileMsg_case g m im now answers l Malformed
| case_no_image c :
    get_str "id" m = None -> msg_coords g m = Some c -> im = None ->
    onTileMsg_case g m im now answers l
      (Handled (queueAcknowledgement m (with_store (receive_tile m c now (lstore l)) l)))
| case_no_keyframe c i t :
    get_str "id" m = None -> msg_coords g m = Some c -> im = Some i -> isKeyframe i = false ->
    obj_get (key c) (tiles (receive_tile m c now (lstore l))) = Some t ->
    hasKeyframe (data t) = false ->
    onTileMsg_case g m im now answers l
      (Handled (queueAcknowledgement m
        (Layer (alter_tile mark_gc_error (key c) (receive_tile m c now (lstore l)))
               (queuedProcessed l) (fetchKeyframeQueue l ++ [c]) (events l) (sent l))))
| case_drawn c i t o :
    get_str "id" m = None -> msg_coords g m = Some c -> im = Some i ->
    obj_get (key c) (tiles (receive_tile m c now (lstore l))) = Some t ->
    (isKeyframe i = true \/ hasKeyframe (data t) = true) ->
    applyDelta decompress getImageData tileSizePx (applyDelta_fuel answers) (key c) (rawData i)
      (isKeyframe i) true (receive_tile m c now (lstore l), (t, answers)) = o ->
    onTileMsg_case g m im now answers l
      (match o with
       | Returns h => Handled (queueAcknowledgement m (tileReady visible c now (with_store h.1 l)))
       | Throws h => Raised (with_store h.1 l)
       | NoFuel => OutOfFuel
       end).

Lemma onTileMsg_cases g m im now answers l : onTileMsg_case g m im now answers l (onMsg g m im now answers l).
Proof.
  unfold onTileMsg. destruct (get_str "id" m) as [id|] eqn:Hid; [by constructor|].
  destruct (msg_coords g m) as [c|] eqn:Hc; [|by constructor].
  destruct im as [i|]; [|by constructor]. unfold tileCoordsToKey.
  destruct (receive_tile_get m c now (lstore l)) as (t & Hg & _). rewrite Hg. simpl.
  destruct (isKeyframe i) eqn:Hi; simpl.
  - pose proof (case_drawn g m (Some i) now answers l c i t _ Hid Hc eq_refl Hg (or_introl Hi) eq_refl) as H.
    by rewrite Hi in H.
  - destruct (hasKeyframe (data t)) eqn:Hk; simpl.
    + pose proof (case_drawn g m (Some i) now answers l c i t _ Hid Hc eq_refl Hg (or_intror Hk) eq_refl) as H.
      by rewrite Hi in H.
    + eapply case_no_keyframe; eauto.
Qed.
End onTileMsg_facts.

#[local] Arguments receive_tile : simpl never.

(** ** A tile in view keeps its place and its identifiers *)

Definition keeps (k : string) (wid inv : num) (h : handle) : Prop :=
  exists t, obj_get k (tiles h.1) = Some t /\ current t = true /\ wireId t = wid /\
            invalidFrom t = inv.

Lemma applyDelta_keeps dec getI w fuel k raw isKey wire wid inv h :
  keeps k wid inv h -> outcome_all (keeps k wid inv) (applyDelta dec getI w fuel k raw isKey wire h).
Proof.
  apply applyDelta_ind.
  - intros f h' Hf (t & Hg & Hc & Hw & Hi). exists (f t). simpl.
    rewrite obj_get_alter, decide_True, Hg by done. destruct (Hf t) as (_ & -> & -> & ->). done.
  - done.
  - intros h' (t & Hg & Hc & Hw & Hi). destruct (gc_keeps_current h'.1 k t Hg Hc)
      as (t' & Hg' & Hc' & _ & Hw' & Hi'). exists t'. split_and!; [exact Hg'|congruence..].
  - intros p h' H. unfold keeps. simpl. apply reclaim_tiles_ind; [|done].
    intros k' s (t & Hg & Hc & Hw & Hi). simpl. rewrite obj_get_alter, Hg.
    case_decide; [by exists (reclaimTileCanvasMemory t)|by exists t].
  - intros h'. unfold keeps. by rewrite h_store_getContext.
Qed.

Lemma tileReady_get visible c now l k :
  obj_get k (tiles (lstore (tileReady visible c now l))) =
    if decide (key c = k) then set_lastRendered now <$> obj_get k (tiles (lstore l))
    else obj_get k (tiles (lstore l)).
Proof.
  unfold tileReady, tileCoordsToKey. destruct (obj_get (key c) (tiles (lstore l))) as [t|] eqn:Hg.
  - repeat (case_match; simpl); rewrite ?obj_get_alter; repeat case_decide; try done; simplify_eq/=.
  - case_decide; [subst; by rewrite Hg|done].
Qed.

(** ** Properties *)

(** C17: Handling a delta ends, whatever the collector does and however often the browser has no
    context for a canvas before it has one again: redrawing a tile from its own deltas nests at
    most twice, and twice more for each call of [getContext] that fails. *)
Theorem applyDelta_terminates decompress getImageData w k raw isKey wire h :
  applyDelta decompress getImageData w (2 * length (h_answers h) + 3) k raw isKey wire h <> NoFuel.
Proof. apply applyDelta_fuel_enough. Qed.

(** While the browser has no context at all it does not end: for a tile in view that has a
    keyframe, [_ensureContext] frees its canvas, [ensureCanvas] makes one and redraws it, which
    calls [_ensureContext] again; the nesting has no bound but the calls that fail. *)
Theorem no_context_nests decompress getImageData w k fuel m raw isKey wire h :
  (4 * fuel <= m)%nat -> starved k m h ->
  applyDelta decompress getImageData w fuel k raw isKey wire h = NoFuel.
Proof. apply starved_nests. Qed.

Lemma handled_shows decompress getImageData w visible g m im now answers l :
  decompress_concat decompress ->
  (forall i, im = Some i -> img_ok decompress w i) ->
  all_show decompress w (lstore l) ->
  match onTileMsg decompress getImageData w visible g m im now answers l with
  | Handled l' => all_show decompress w (lstore l')
  | Malformed => msg_coords g m = None
  | Raised _ | OutOfFuel => False
  end.
Proof.
  intros Hcat Him Hall.
  destruct (onTileMsg_cases decompress getImageData w visible g m im now answers l)
    as [id Hid|Hid Hc|c Hid Hc ->|c i t Hid Hc -> Hk Hg Hkf|c i t o Hid Hc -> Hg Hkf <-];
    simpl; [done|done|by apply receive_tile_shows| |].
  - apply all_show_alter; [done|]. by apply receive_tile_shows.
  - pose proof (receive_tile_shows decompress w m c now (lstore l) Hall) as Hall1.
    set (s1 := receive_tile m c now (lstore l)) in *.
    assert (Hsd : sound decompress w (key c) (s1, (t, answers))).
    { split; [|by intros t' Hg'; apply (Hall1 (key c))]. unfold h_tile. cbn [fst snd]. rewrite Hg.
      by apply shows_streamy, (Hall1 (key c)). }
    pose proof (applyDelta_shows decompress getImageData w (key c) (applyDelta_fuel answers) i
      (s1, (t, answers)) Hcat (Him i eq_refl) Hsd) as Hsh.
    pose proof (applyDelta_others decompress getImageData w (key c) (applyDelta_fuel answers) (rawData i)
      (isKeyframe i) true (s1, (t, answers))) as Hoth.
    specialize (Hoth (fun k' t' _ => Hall1 k' t')).
    pose proof (applyDelta_fuel_enough decompress getImageData w (key c) (rawData i)
      (isKeyframe i) true (s1, (t, answers))) as Hfuel. unfold h_answers in Hfuel. cbn [fst snd] in Hfuel.
    destruct (applyDelta _ _ _ _ _ _ _ _ _) as [h|h|]; [|done..]. simpl in *.
    apply (tileReady_shows decompress w visible c now (with_store h.1 l)). simpl. intros k' t' Hg'.
    destruct (decide (k' = key c)) as [->|Hne]; [by apply Hsh|by apply (Hoth k')].
Qed.

(** C2: What the browser shows is what the server sent: when every tile of the
    store shows the image its deltas describe, it is so after any tile message
    that follows the protocol, and such a message never raises an exception; for any
    decompressor that maps concatenated frames to concatenated contents, and also when the
    browser has no context for the canvas of the tile at first (where the tile loses its
    canvas for lack of a context it has nothing to show, and the delta that came is not kept). *)
Theorem onTileMsg_shows decompress getImageData w visible g m im now answers l :
  decompress_concat decompress ->
  (forall i, im = Some i -> img_ok decompress w i) ->
  all_show decompress w (lstore l) ->
  match onTileMsg decompress getImageData w visible g m im now answers l with
  | Handled l' => all_show decompress w (lstore l')
  | Malformed => msg_coords g m = None
  | Raised _ | OutOfFuel => False
  end.
Proof. apply handled_shows. Qed.

Lemma handled_store_ok decompress getImageData w visible g m im now answers l l' :
  store_ok (lstore l) ->
  onTileMsg decompress getImageData w visible g m im now answers l = Handled l' ->
  store_ok (lstore l').
Proof.
  intros Hok E. revert E.
  destruct (onTileMsg_cases decompress getImageData w visible g m im now answers l)
    as [id Hid|Hid Hc|c Hid Hc ->|c i t Hid Hc -> Hk Hg Hkf|c i t o Hid Hc -> Hg Hkf <-];
    intros E; simplify_eq/=; [done|by apply receive_tile_ok| |].
  - apply store_ok_alter_tile; [done..|]. by apply receive_tile_ok.
  - pose proof (applyDelta_store_ok decompress getImageData w (key c) (applyDelta_fuel answers) (rawData i)
      (isKeyframe i) true (receive_tile m c now (lstore l), (t, answers)) (receive_tile_ok m c now _ Hok)) as H.
    destruct (applyDelta _ _ _ _ _ _ _ _ _) as [h|h|]; simplify_eq/=.
    by apply (tileReady_ok visible c now (with_store h.1 l)).
Qed.

(** Tile messages keep the store well-formed: tiles stay under the key of
    their coordinates, and the count of empty tiles never exceeds the tiles
    without content. *)
Theorem onTileMsg_store_ok decompress getImageData w visible g m im now answers l l' :
  store_ok (lstore l) ->
  onTileMsg decompress getImageData w visible g m im now answers l = Handled l' ->
  store_ok (lstore l').
Proof. apply handled_store_ok. Qed.

(** Every tile message that is handled is acknowledged exactly once, with its wire
    identifier, after the acknowledgements already queued; one that raises is
    not. *)
Theorem onTileMsg_acknowledges decompress getImageData w visible g m im now answers l :
  match onTileMsg decompress getImageData w visible g m im now answers l with
  | Handled l' => queuedProcessed l' = queuedProcessed l ++ [msg_wireId m]
  | Raised l' => queuedProcessed l' = queuedProcessed l
  | Malformed | OutOfFuel => True
  end.
Proof.
  assert (Ht : forall c l, queuedProcessed (tileReady visible c now l) = queuedProcessed l).
  { intros c l0. unfold tileReady. repeat case_match; done. }
  destruct (onTileMsg_cases decompress getImageData w visible g m im now answers l); simpl; try done.
  destruct o; simpl; by rewrite ?Ht.
Qed.

(** A keyframe for a tile in view settles it, if the browser has a context to draw it: afterwards the tile holds and
    shows the keyframe, carries the message's wire identifier, and it needs fetching
    again exactly when it has been invalidated from that identifier on, so an
    invalidation that overtakes the tile is not lost. *)
Theorem keyframe_settles_tile decompress getImageData w visible g m i now l c px css :
  stream decompress w (rawData i) px css -> isKeyframe i = true ->
  get_str "id" m = None -> msg_coords g m = Some c ->
  let t0 := default (new_tile c now) (obj_get (key c) (tiles (lstore l))) in
  streamy decompress w (data t0) -> current t0 = true ->
  exists l' t', onTileMsg decompress getImageData w visible g m (Some i) now [] l = Handled l' /\
    obj_get (key c) (tiles (lstore l')) = Some t' /\
    data t' = drawn w (rawData i) px css /\ wireId t' = msg_wireId m /\
    needsFetch t' = num_geb (invalidFrom t0) (msg_wireId m).
Proof.
  intros Hst Hkey Hid Hc t0 Hs0 Hcur.
  destruct (receive_tile_get m c now (lstore l)) as (t & Hg & Hw & Hd & Hinv & Hc').
  fold t0 in Hd, Hinv, Hc'. unfold onTileMsg. rewrite Hid, Hc, Hkey. unfold tileCoordsToKey.
  cbv zeta. rewrite Hg. simpl. set (s1 := receive_tile m c now (lstore l)) in *.
  assert (Ht : h_tile (key c) (s1, (t, [])) = t) by (unfold h_tile; cbn [fst snd]; by rewrite Hg).
  pose proof (applyDelta_granted decompress getImageData w (key c) (applyDelta_fuel []) (rawData i) px css
    true (s1, (t, [])) eq_refl Hst) as Hkf. rewrite Ht, Hd in Hkf. specialize (Hkf Hs0).
  pose proof (applyDelta_keeps decompress getImageData w (applyDelta_fuel []) (key c) (rawData i) true true
    (msg_wireId m) (invalidFrom t0) (s1, (t, []))) as Hkeep.
  assert (Hk0 : keeps (key c) (msg_wireId m) (invalidFrom t0) (s1, (t, []))) by (exists t; cbn [fst]; split_and!; congruence).
  specialize (Hkeep Hk0). clear Hk0.
  pose proof (applyDelta_fuel_enough decompress getImageData w (key c) (rawData i)
    true true (s1, (t, []))) as Hfuel. change (h_answers (s1, (t, []))) with (@nil bool) in Hfuel.
  destruct (applyDelta _ _ _ _ _ _ _ _ _) as [h|h|]; [|done..]. simpl in *.
  destruct Hkeep as (t1 & Hg1 & _ & Hw1 & Hi1).
  eexists _, (set_lastRendered now t1). split; [done|]. simpl.
  rewrite tileReady_get, decide_True by done. simpl. rewrite Hg1. simpl.
  unfold h_tile in Hkf. rewrite Hg1 in Hkf. simpl in Hkf. split_and!; try done.
  unfold needsFetch; simpl. rewrite Hkf, Hw1, Hi1. unfold hasContent; simpl. by rewrite orb_false_r.
Qed.

(** A delta for a tile whose keyframe is gone does no harm and is repaired:
    nothing is drawn, the tile is marked as lacking everything, and the next response
    to the server asks for it without naming an old wire identifier, which makes the
    server send a keyframe. *)
Theorem delta_without_keyframe decompress getImageData w visible v m i now answers l c t0 :
  isKeyframe i = false -> get_str "id" m = None -> msg_coords (vgrid v) m = Some c ->
  obj_get (key c) (tiles (lstore l)) = Some t0 -> hasKeyframe (data t0) = false ->
  exists l' t',
    onTileMsg decompress getImageData w visible (vgrid v) m (Some i) now answers l = Handled l' /\
    obj_get (key c) (tiles (lstore l')) = Some t' /\ data t' = data t0 /\
    needsFetch t' = true /\ fetchKeyframeQueue l' = fetchKeyframeQueue l ++ [c] /\
    exists r j, r ∈ combine_requests (lstore l') (fetchKeyframeQueue l') /\
      print_request v r ∈ sent (sendProcessedResponse v l') /\
      rq_coords r !! j = Some c /\ rq_oldwids r !! j = Some (Some 0).
Proof.
  intros Hi Hid Hc Hg0 Hkf.
  destruct (receive_tile_get m c now (lstore l)) as (t & Hg & Hw & Hd & Hinv & Hc').
  rewrite Hg0 in Hd. simpl in Hd. unfold onTileMsg. rewrite Hid, Hc, Hi. unfold tileCoordsToKey.
  cbv zeta. rewrite Hg. simpl. rewrite Hd, Hkf. simpl.
  eexists _, (mark_gc_error t). split; [done|]. simpl.
  assert (Hg' : obj_get (key c) (obj_alter mark_gc_error (key c) (tiles (receive_tile m c now (lstore l))))
                = Some (mark_gc_error t)).
  { rewrite obj_get_alter, decide_True by done. by rewrite Hg. }
  split; [done|]. split; [done|]. split; [done|]. split; [done|].
  set (q := fetchKeyframeQueue l ++ [c]).
  set (s' := alter_tile mark_gc_error (key c) (receive_tile m c now (lstore l))).
  assert (Hin : c ∈ combine_requests s' q ≫= rq_coords).
  { apply elem_of_requests_coords. unfold q. set_solver. }
  apply list_elem_of_bind in Hin as (r & Hcr & Hr).
  destruct (elem_of_combine_requests _ _ _ Hr) as (c0 & _ & E).
  apply list_elem_of_lookup in Hcr as [j Hj]. exists r, j. split_and!; try done.
  - unfold sendProcessedResponse; simpl. fold q. fold s'.
    assert (Hq : exists a b, q = a :: b) by (unfold q; destruct (fetchKeyframeQueue l); simpl; eauto).
    destruct Hq as (a & b & Hq). rewrite Hq. simpl. rewrite <- Hq. apply elem_of_app. right.
    unfold sendTileCombineRequest. by apply list_elem_of_fmap_2.
  - rewrite E in Hj |- *. simpl in *. rewrite list_lookup_fmap, Hj. simpl. unfold tile_wid, tileCoordsToKey.
    unfold s'. simpl. by rewrite Hg'.
Qed.

(** The wire round trip: the tile the client asks for, echoed by the server
    with its position and size, is stored under the key it was asked for. *)
Theorem tile_roundtrip g c d zoomOf :
  grid_ok g -> aligned g c ->
  d_tilePosX d = px (coordsToTwips g c) -> d_tilePosY d = py (coordsToTwips g c) ->
  d_tileWidth d = tileWidthTwips g -> d_tileHeight d = tileHeightTwips g ->
  d_part d = cpart c -> d_mode d = cmode c -> zoomOf (tileWidthTwips g) = Some (cz c) ->
  let m := parseServerCmd (Some zoomOf) (serialize "tile:" d) in
  msg_coords g m = Some c /\ msg_wireId m = Some (d_wireId d).
Proof.
  intros Hg Ha Hx Hy Hw Hh Hp Hm Hz m.
  assert (E : m = desc_command d ++ desc_zoom (Some zoomOf) d) by by apply parse_serialize.
  rewrite E. pose proof Hg as (Hts & Htw & Hth).
  assert (Hzm : desc_zoom (Some zoomOf) d = [("zoom", FNum (Some (cz c)))]).
  { unfold desc_zoom. rewrite Hw, Hh, Hz.
    destruct (Z.eqb_spec (tileWidthTwips g) 0), (Z.eqb_spec (tileHeightTwips g) 0); try lia. done. }
  rewrite Hzm. split.
  - assert (Hc : msg_coords g (desc_command d ++ [("zoom", FNum (Some (cz c)))])
      = Some (tileMsgToCoords g (TileTwips (d_tilePosX d) (d_tilePosY d) (d_tileWidth d) (d_tileHeight d))
          (cz c) (d_part d) (Some (d_mode d)))).
    { unfold msg_coords, desc_command. rewrite Hw, Hh.
      destruct (0 <=? d_id d), (Z.eqb_spec (d_mode d) 0) as [Hm0|Hm0]; simpl;
        rewrite (proj2 (Z.ltb_lt 0 _) Htw), (proj2 (Z.ltb_lt 0 _) Hth); simpl; try done;
        rewrite Hm0; done. }
    rewrite Hc. f_equal. rewrite Hx, Hy, Hw, Hh, Hp, Hm.
    by apply tileMsgToCoords_inverse.
  - unfold msg_wireId, get_str, desc_command.
    destruct (0 <=? d_id d), (negb (d_mode d =? 0)); simpl; apply to_number_num_to_string.
Qed.

(** ** Witnesses *)

(** A decompressor that satisfies the hypothesis, and a 2 x 2 tile. *)
Lemma identity_decompress_concat : decompress_concat Some.
Proof. intros a b x y [= <-] [= <-]. done. Qed.

Definition sample_msg (wid : Z) : command :=
  parseServerCmd (Some (fun _ => Some 10))
    (serialize "tile:" (TileDesc 0 0 256 256 3840 0 3840 3840 0 wid (-1) (-1) 0 0)).

Definition sample_tile_coord : coord := Coord 256 0 10 0 0.
Definition empty_layer : layer := Layer empty_store [] [] [] [].
Definition keyframe_img : img := Img sample_image true.
Definition delta_img : img := Img (encode_deltas [sample_cmds]) false.

Lemma keyframe_img_stream : stream Some 2 (rawData keyframe_img) sample_image [].
Proof. split_and!; [done| |apply sample_image_ok|constructor]. by rewrite app_nil_r. Qed.

Lemma sample_imgs_ok : img_ok Some 2 keyframe_img /\ img_ok Some 2 delta_img.
Proof.
  split; [exists sample_image, []; apply keyframe_img_stream|].
  right. exists [sample_cmds]. split_and!; [done..|].
  constructor; [apply sample_cmds_ok|constructor].
Qed.

Lemma onTileMsg_shows_witness :
  match onTileMsg Some (fun l => l) 2 (fun _ => true) (vgrid sample_view) (sample_msg 7)
          (Some keyframe_img) (Some 1) [] empty_layer with
  | Handled l' => all_show Some 2 (lstore l')
  | Malformed => msg_coords (vgrid sample_view) (sample_msg 7) = None
  | Raised _ | OutOfFuel => False
  end.
Proof.
  apply onTileMsg_shows.
  - apply identity_decompress_concat.
  - intros i [= <-]. apply sample_imgs_ok.
  - intros k t. done.
Defined.

(** The state after the keyframe: a computed value, not a hypothesis. *)
Definition layer_after_keyframe : layer :=
  match onTileMsg Some (fun l => l) 2 (fun _ => true) (vgrid sample_view) (sample_msg 7)
          (Some keyframe_img) (Some 1) [] empty_layer with
  | Handled l' => l'
  | _ => empty_layer
  end.

Example keyframe_then_delta :
  match onTileMsg Some (fun l => l) 2 (fun _ => true) (vgrid sample_view) (sample_msg 8)
          (Some delta_img) (Some 1) [] layer_after_keyframe with
  | Handled l' => data <$> obj_get (key sample_tile_coord) (tiles (lstore l'))
  | _ => None
  end = Some (drawn 2 (sample_image ++ encode_deltas [sample_cmds]) sample_image [sample_cmds]).
Proof. vm_compute. reflexivity. Qed.

(** A delta for which no context can be had in the end is dropped, but the tile has its wire
    identifier by then: it is not asked for again, and what it changed is missing until the
    area changes once more. *)
Example delta_lost_without_context :
  match onTileMsg Some (fun l => l) 2 (fun _ => true) (vgrid sample_view) (sample_msg 8)
          (Some delta_img) (Some 1) [false; false; false; true; false] layer_after_keyframe with
  | Handled l' => (fun t => (data t, wireId t, needsFetch t)) <$> obj_get (key sample_tile_coord) (tiles (lstore l'))
  | _ => None
  end = Some (drawn 2 sample_image sample_image [], Some 8, false).
Proof. vm_compute. reflexivity. Qed.

(** A tile in view with a keyframe, and no context for the next 400 calls. *)
Example starved_sample :
  starved (key sample_tile_coord) 400
    (lstore layer_after_keyframe, (new_tile sample_tile_coord None, replicate 400 false)).
Proof. split; [done|]. vm_compute. by eexists. Qed.

Lemma onTileMsg_store_ok_witness : store_ok (lstore layer_after_keyframe).
Proof.
  apply (onTileMsg_store_ok Some (fun l => l) 2 (fun _ => true) (vgrid sample_view) (sample_msg 7)
    (Some keyframe_img) (Some 1) [] empty_layer); [apply empty_store_ok|].
  vm_compute. reflexivity.
Defined.

Lemma keyframe_settles_tile_witness :
  exists l' t', onTileMsg Some (fun l => l) 2 (fun _ => true) (vgrid sample_view) (sample_msg 7)
      (Some keyframe_img) (Some 1) [] empty_layer = Handled l' /\
    obj_get (key sample_tile_coord) (tiles (lstore l')) = Some t' /\
    data t' = drawn 2 sample_image sample_image [] /\ wireId t' = msg_wireId (sample_msg 7) /\
    needsFetch t' = false.
Proof.
  apply (keyframe_settles_tile Some (fun l => l) 2 (fun _ => true) (vgrid sample_view) (sample_msg 7)
    keyframe_img (Some 1) empty_layer sample_tile_coord sample_image []); try reflexivity.
  apply keyframe_img_stream.
Defined.

Definition bare_layer : layer :=
  Layer (createTile sample_tile_coord (key sample_tile_coord) (Some 0) empty_store) [] [] [] [].

Lemma delta_without_keyframe_witness :
  exists l' t',
    onTileMsg Some (fun l => l) 2 (fun _ => true) (vgrid sample_view) (sample_msg 7)
      (Some delta_img) (Some 1) [] bare_layer = Handled l' /\
    obj_get (key sample_tile_coord) (tiles (lstore l')) = Some t' /\
    data t' = Content None None None /\
    needsFetch t' = true /\ fetchKeyframeQueue l' = [sample_tile_coord] /\
    exists r j, r ∈ combine_requests (lstore l') (fetchKeyframeQueue l') /\
      print_request sample_view r ∈ sent (sendProcessedResponse sample_view l') /\
      rq_coords r !! j = Some sample_tile_coord /\ rq_oldwids r !! j = Some (Some 0).
Proof.
  apply (delta_without_keyframe Some (fun l => l) 2 (fun _ => true) sample_view (sample_msg 7)
    delta_img (Some 1) [] bare_layer sample_tile_coord (new_tile sample_tile_coord (Some 0)));
    vm_compute; reflexivity.
Defined.

Lemma tile_roundtrip_witness :
  let g := vgrid sample_view in
  let d := TileDesc 0 0 256 256 3840 0 3840 3840 0 7 (-1) (-1) 0 0 in
  let m := parseServerCmd (Some (fun _ => Some 10)) (serialize "tile:" d) in
  msg_coords g m = Some sample_tile_coord /\ msg_wireId m = Some 7.
Proof.
  apply (tile_roundtrip (vgrid sample_view) sample_tile_coord
    (TileDesc 0 0 256 256 3840 0 3840 3840 0 7 (-1) (-1) 0 0)); try reflexivity.
  - vm_compute. done.
  - exists 1, 0. done.
Defined.
