(* ===== verification/SocketSend.v ===== *)
(** * Sending messages: [L.Socket.sendMessage] and the queue of unsent messages

    Models [sendMessage], [_doSend] and [_onSocketOpen] of
    src/browser/src/core/Socket.js, with the socket's ready state as part of the
    state.  A socket that opens runs [_onSocketOpen] before anything else is sent,
    as the browser does; the activation at its end is [Session.activate].  Creating a
    socket is taken to succeed. *)

From S2P Require Import Prelude JsText.

(** ** State *)

(** What is sent: text, or a binary object. *)
Inductive payload :=
  | Text (s : string)
  | Binary (bytes : list Z).

Inductive ready_state := CONNECTING | OPEN | CLOSING | CLOSED.

#[export] Instance ready_state_eq_dec : EqDecision ready_state.
Proof. solve_decision. Defined.

Record sender := Sender {
  fatal : bool;
  idleActive : bool;
  uiBlocked : bool;
  readyState : ready_state;
  msgQueue : list payload;
  wire : list payload;      (** what [socket.send] was called with *)
  reloads : nat             (** calls of [loadDocument] *)
}.

Definition set_ready (r : ready_state) (s : sender) : sender :=
  Sender (fatal s) (idleActive s) (uiBlocked s) r (msgQueue s) (wire s) (reloads s).

(** ** [sendMessage] *)

Definition doSend (m : payload) (s : sender) : sender :=
  Sender (fatal s) (idleActive s) (uiBlocked s) (readyState s) (msgQueue s) (wire s ++ [m]) (reloads s).

Definition pushMsg (m : payload) (s : sender) : sender :=
  Sender (fatal s) (idleActive s) (uiBlocked s) (readyState s) (msgQueue s ++ [m]) (wire s) (reloads s).

(** A new socket, which replaces the old one. *)
Definition loadDocument (s : sender) : sender :=
  Sender (fatal s) (idleActive s) (uiBlocked s) CONNECTING (msgQueue s) (wire s) (S (reloads s)).

(** Messages let through while the document is inactive. *)
Definition passes_idle (m : payload) : bool :=
  match m with
  | Text t => starts_with t "useractive" || starts_with t "userinactive"
  | Binary _ => false
  end.

(** The early returns of [sendMessage]. *)
Definition accepted (m : payload) (s : sender) : bool :=
  negb (fatal s) && (idleActive s || passes_idle m) && negb (uiBlocked s).

Definition sendMessage (m : payload) (s : sender) : sender :=
  if fatal s then s
  else if negb (idleActive s) && negb (passes_idle m) then s
  else if uiBlocked s then s
  else
    let s1 := if bool_decide (readyState s = CLOSING) || bool_decide (readyState s = CLOSED)
              then loadDocument s else s in
    if bool_decide (readyState s = OPEN) then doSend m s1 else pushMsg m s1.

(** ** [_onSocketOpen] *)

(** What the load message is built from; the URL comes encoded and the rendering
    options come as JSON. *)
Record load_options := LoadOptions {
  lo_doc : string;
  lo_currentPart : option Z;        (** of the document layer, when reconnecting *)
  lo_timestamp : option string;
  lo_docPassword : option string;
  lo_locale : option string;
  lo_deviceFormFactor : option string;
  lo_timezone : string;
  lo_renderingOptions : option string;
  lo_spellOnline : option string;   (** from the local storage, when it is allowed *)
  lo_accessibility : option bool
}.

(** [if (value) msg += prefix + value]: the empty string counts as absent. *)
Definition opt_arg (prefix : string) (v : option string) : string :=
  match v with
  | Some s => if String.eqb s "" then "" else prefix +:+ s
  | None => ""
  end.

Definition load_message (o : load_options) : string :=
  "load url=" +:+ lo_doc o +:+
  (match lo_currentPart o with Some p => " part=" +:+ num_to_string p | None => "" end) +:+
  opt_arg " timestamp=" (lo_timestamp o) +:+
  opt_arg " password=" (lo_docPassword o) +:+
  opt_arg " lang=" (lo_locale o) +:+
  opt_arg " deviceFormFactor=" (lo_deviceFormFactor o) +:+
  " timezone=" +:+ lo_timezone o +:+
  opt_arg " options=" (lo_renderingOptions o) +:+
  opt_arg " spellOnline=" (lo_spellOnline o) +:+
  (match lo_accessibility o with
   | Some b => " accessibilityState=" +:+ (if b then "true" else "false")
   | None => ""
   end).

Definition client_message (version time perf : string) : string :=
  "oxoolclient " +:+ version +:+ " " +:+ time +:+ " " +:+ perf.

Definition onSocketOpen (hello load : string) (s : sender) : sender :=
  let s1 := doSend (Text load) (doSend (Text hello) s) in
  let s2 := foldl (fun s m => doSend m s) s1 (msgQueue s1) in
  Sender (fatal s2) (idleActive s2) (uiBlocked s2) (readyState s2) [] (wire s2) (reloads s2).

(** ** Steps *)

(** A new connection opens: the ready state changes and the handler runs. *)
Definition socket_opens (hello load : string) (s : sender) : sender :=
  onSocketOpen hello load (set_ready OPEN s).

(** What may happen to the sender. The second component of the state collects what
    must reach the server, in order. *)
Inductive send_step : sender * list payload -> sender * list payload -> Prop :=
  | step_send m s l :
      send_step (s, l) (sendMessage m s, if accepted m s then l ++ [m] else l)
  | step_open hello load s l :
      readyState s = CONNECTING ->
      (* the two greetings go before whatever waits *)
      send_step (s, l) (socket_opens hello load s,
                        take (length l - length (msgQueue s)) l ++ [Text hello; Text load]
                        ++ drop (length l - length (msgQueue s)) l)
  | step_lost r s l :
      r = CLOSING \/ r = CLOSED \/ r = CONNECTING ->
      send_step (s, l) (set_ready r s, l)
  | step_load s l : send_step (s, l) (loadDocument s, l)
  | step_flags f i b s l :
      send_step (s, l) (Sender f i b (readyState s) (msgQueue s) (wire s) (reloads s), l).

Definition new_sender : sender := Sender false true false CONNECTING [] [] 0.

(** ** Facts *)

Lemma foldl_doSend ms s :
  foldl (fun s m => doSend m s) s ms =
    Sender (fatal s) (idleActive s) (uiBlocked s) (readyState s) (msgQueue s) (wire s ++ ms) (reloads s).
Proof.
  revert s. induction ms as [|m ms IH]; intros s; simpl.
  - rewrite app_nil_r. by destruct s.
  - rewrite IH. simpl. by rewrite <- app_assoc.
Qed.

Lemma onSocketOpen_unfold hello load s :
  onSocketOpen hello load s =
    Sender (fatal s) (idleActive s) (uiBlocked s) (readyState s) []
           (wire s ++ Text hello :: Text load :: msgQueue s) (reloads s).
Proof. unfold onSocketOpen. rewrite foldl_doSend. simpl. f_equal. by rewrite <- !app_assoc. Qed.

Lemma sendMessage_refused m s : accepted m s = false -> sendMessage m s = s.
Proof.
  unfold accepted, sendMessage. destruct (fatal s); [done|].
  destruct (idleActive s), (passes_idle m), (uiBlocked s); done.
Qed.

Lemma sendMessage_accepted m s :
  accepted m s = true ->
  msgQueue (sendMessage m s) = (if bool_decide (readyState s = OPEN) then msgQueue s
                                else msgQueue s ++ [m]) /\
  wire (sendMessage m s) = (if bool_decide (readyState s = OPEN) then wire s ++ [m] else wire s) /\
  (readyState (sendMessage m s) = OPEN <-> readyState s = OPEN).
Proof.
  unfold accepted, sendMessage. destruct (fatal s); [done|].
  destruct (idleActive s), (passes_idle m), (uiBlocked s); try done; intros _;
    destruct (readyState s) eqn:E; repeat case_bool_decide; try discriminate; try congruence; cbn; rewrite ?E; done.
Qed.

#[local] Arguments sendMessage : simpl never.
#[local] Arguments socket_opens : simpl never.

(** An open socket has nothing waiting. *)
Definition flushed (s : sender) : Prop := readyState s = OPEN -> msgQueue s = [].

(** ** Properties *)

(** C15: No message is lost, doubled or reordered: in every state that can be
    reached, what the socket was given followed by what is queued is exactly the
    accepted messages in the order of their [sendMessage] calls, each greeting
    coming before the messages that waited for its connection; and nothing waits
    while the socket is open. *)
Theorem send_fifo s l :
  rtc send_step (new_sender, []) (s, l) -> wire s ++ msgQueue s = l /\ flushed s.
Proof.
  assert (Hstep : forall x y, send_step x y -> wire x.1 ++ msgQueue x.1 = x.2 /\ flushed x.1 ->
                    wire y.1 ++ msgQueue y.1 = y.2 /\ flushed y.1).
  { intros x y Hs [Hl Hf]. destruct Hs as [m s0 l0|hello load s0 l0 Hc|r s0 l0 Hr|s0 l0|f i b s0 l0];
      cbn [fst snd] in *.
    - destruct (accepted m s0) eqn:Ha; [|by rewrite sendMessage_refused].
      destruct (sendMessage_accepted m s0 Ha) as (Hq & Hw & Hr). unfold flushed. rewrite Hq, Hw, Hr.
      case_bool_decide as Ho; split; try done.
      + rewrite (Hf Ho) in *. rewrite app_nil_r in *. congruence.
      + rewrite <- Hl. by rewrite app_assoc.
    - unfold socket_opens. rewrite onSocketOpen_unfold. cbn [wire msgQueue set_ready]. split; [|done].
      rewrite app_nil_r, <- Hl, length_app.
      replace (length (wire s0) + length (msgQueue s0) - length (msgQueue s0))%nat
        with (length (wire s0)) by lia.
      by rewrite take_app_length, drop_app_length.
    - split; [done|]. unfold flushed; simpl. naive_solver.
    - done.
    - done. }
  intros Hr. assert (H : forall x y, rtc send_step x y ->
    wire x.1 ++ msgQueue x.1 = x.2 /\ flushed x.1 -> wire y.1 ++ msgQueue y.1 = y.2 /\ flushed y.1).
  { clear Hr. induction 1; eauto. }
  by apply (H _ _ Hr).
Qed.

Lemma send_fifo_witness :
  let s := sendMessage (Text "b") (socket_opens "hello" "load" (sendMessage (Text "a") new_sender)) in
  wire s ++ msgQueue s = [Text "hello"; Text "load"; Text "a"; Text "b"] /\ flushed s.
Proof.
  apply send_fifo.
  eapply rtc_l; [apply (step_send (Text "a"))|].
  eapply rtc_l; [by apply (step_open "hello" "load")|].
  eapply rtc_l; [apply (step_send (Text "b"))|]. apply rtc_refl.
Defined.

(** While the document is inactive only activity notices leave the browser, and a
    message sent on a lost connection asks for a reconnection and is kept for
    it. *)
Theorem sendMessage_inactive m s :
  (idleActive s = false -> passes_idle m = false -> sendMessage m s = s) /\
  (fatal s = true -> sendMessage m s = s) /\
  (accepted m s = true -> readyState s = CLOSING \/ readyState s = CLOSED ->
   reloads (sendMessage m s) = S (reloads s) /\
   msgQueue (sendMessage m s) = msgQueue s ++ [m] /\ wire (sendMessage m s) = wire s).
Proof.
  split_and!.
  - intros Hi Hp. apply sendMessage_refused. unfold accepted. rewrite Hi, Hp. simpl.
    by rewrite andb_false_r.
  - intros Hf. apply sendMessage_refused. unfold accepted. by rewrite Hf.
  - unfold accepted, sendMessage. destruct (fatal s); [done|].
    destruct (idleActive s), (passes_idle m), (uiBlocked s); try done; intros _ [E|E]; rewrite E; done.
Qed.

Example load_message_sample :
  load_message (LoadOptions "file%3A%2F%2F%2Fhello.odt" (Some 3%Z) None (Some "") (Some "en-US")
                  (Some "desktop") "Europe/Berlin" None None (Some false))
  = "load url=file%3A%2F%2F%2Fhello.odt part=3 lang=en-US deviceFormFactor=desktop timezone=Europe/Berlin accessibilityState=false".
Proof. reflexivity. Qed.
