(* ===== verification/Session.v ===== *)
(** * The session: connecting, losing and resuming the connection

    The life of the connection to the server: opening, closing, what is done to get it
    back, the idle handler that suspends it, and the view (zoom and visible area) the
    server has to know.  Models [connect], [close], [_onSocketOpen], [_onSocketClose],
    [_onStatusMsg], [manualReconnect] and the messages [close:], [error:],
    [statusindicator:], [blockui:] and [unblockui:] of
    src/browser/src/core/Socket.js, the [docloaded] handler and [loadDocument] of
    src/browser/src/map/Map.js, [IdleHandler]
    (src/browser/src/control/Control.IdleHandler.ts), and [_sendClientZoom],
    [_sendClientVisibleArea] and [_resetClientVisArea] of
    src/browser/src/layer/tile/CanvasTileLayer.js.  Messages on the screen are a log;
    dialogs, permission and views are those of other files. *)

From S2P Require Import Prelude JsText SocketSend.
Local Open Scope Z_scope.

(** ** State *)

(** [app.idleHandler], without [_active], which is [idleActive] of the sender. *)
Record idle := Idle {
  serverRecycling : bool;
  documentIdle : bool;
  inactivityTimer : bool;
  outOfFocusTimer : bool;
  dimmed : bool            (** the inactivity dialog is open *)
}.

(** What the layer thinks the server knows. *)
Record memo := Memo { clientZoom : string; clientVisibleArea : string }.

(** What [this.timer], an interval, does. *)
Inductive retry := RetryLoad (ms : Z) | RetryActivate (ms : Z).

(** Messages to the user, and the end of the map. *)
Inductive notice := ClosedAtLoad | CannotConnect | Reconnecting | GiveUp | FatalError | MapRemoved.

Record session := Session {
  sock : sender;
  idler : idle;
  view : memo;
  docLoaded : bool;
  docLoadedOnce : bool;
  docLayer : bool;
  reconnecting : bool;
  reconnectCount : Z;
  closeTimers : nat;       (** timeouts of [_onSocketClose] under way *)
  manualTimers : nat;      (** timeouts of [manualReconnect] under way *)
  timer : option retry;
  notices : list notice
}.

Definition set_sock x c := Session x (idler c) (view c) (docLoaded c) (docLoadedOnce c) (docLayer c) (reconnecting c) (reconnectCount c) (closeTimers c) (manualTimers c) (timer c) (notices c).
Definition set_idler x c := Session (sock c) x (view c) (docLoaded c) (docLoadedOnce c) (docLayer c) (reconnecting c) (reconnectCount c) (closeTimers c) (manualTimers c) (timer c) (notices c).
Definition set_view x c := Session (sock c) (idler c) x (docLoaded c) (docLoadedOnce c) (docLayer c) (reconnecting c) (reconnectCount c) (closeTimers c) (manualTimers c) (timer c) (notices c).
Definition set_docLoaded x c := Session (sock c) (idler c) (view c) x (docLoadedOnce c) (docLayer c) (reconnecting c) (reconnectCount c) (closeTimers c) (manualTimers c) (timer c) (notices c).
Definition set_docLoadedOnce x c := Session (sock c) (idler c) (view c) (docLoaded c) x (docLayer c) (reconnecting c) (reconnectCount c) (closeTimers c) (manualTimers c) (timer c) (notices c).
Definition set_docLayer x c := Session (sock c) (idler c) (view c) (docLoaded c) (docLoadedOnce c) x (reconnecting c) (reconnectCount c) (closeTimers c) (manualTimers c) (timer c) (notices c).
Definition set_reconnecting x c := Session (sock c) (idler c) (view c) (docLoaded c) (docLoadedOnce c) (docLayer c) x (reconnectCount c) (closeTimers c) (manualTimers c) (timer c) (notices c).
Definition set_reconnectCount x c := Session (sock c) (idler c) (view c) (docLoaded c) (docLoadedOnce c) (docLayer c) (reconnecting c) x (closeTimers c) (manualTimers c) (timer c) (notices c).
Definition set_closeTimers x c := Session (sock c) (idler c) (view c) (docLoaded c) (docLoadedOnce c) (docLayer c) (reconnecting c) (reconnectCount c) x (manualTimers c) (timer c) (notices c).
Definition set_manualTimers x c := Session (sock c) (idler c) (view c) (docLoaded c) (docLoadedOnce c) (docLayer c) (reconnecting c) (reconnectCount c) (closeTimers c) x (timer c) (notices c).
Definition set_timer x c := Session (sock c) (idler c) (view c) (docLoaded c) (docLoadedOnce c) (docLayer c) (reconnecting c) (reconnectCount c) (closeTimers c) (manualTimers c) x (notices c).
Definition notify n c := Session (sock c) (idler c) (view c) (docLoaded c) (docLoadedOnce c) (docLayer c) (reconnecting c) (reconnectCount c) (closeTimers c) (manualTimers c) (timer c) (notices c ++ [n]).

(** [app.idleHandler._active = b], [_map._fatal = true], [blockedUI = b] *)
Definition set_active (b : bool) (c : session) : session :=
  let s := sock c in set_sock (Sender (fatal s) b (uiBlocked s) (readyState s) (msgQueue s) (wire s) (reloads s)) c.
Definition set_fatal (c : session) : session :=
  let s := sock c in set_sock (Sender true (idleActive s) (uiBlocked s) (readyState s) (msgQueue s) (wire s) (reloads s)) c.
Definition set_blocked (b : bool) (c : session) : session :=
  let s := sock c in set_sock (Sender (fatal s) (idleActive s) b (readyState s) (msgQueue s) (wire s) (reloads s)) c.

Definition set_recycling (b : bool) (i : idle) : idle := Idle b (documentIdle i) (inactivityTimer i) (outOfFocusTimer i) (dimmed i).
Definition set_documentIdle (b : bool) (i : idle) : idle := Idle (serverRecycling i) b (inactivityTimer i) (outOfFocusTimer i) (dimmed i).
Definition set_inactivityTimer (b : bool) (i : idle) : idle := Idle (serverRecycling i) (documentIdle i) b (outOfFocusTimer i) (dimmed i).
Definition set_outOfFocusTimer (b : bool) (i : idle) : idle := Idle (serverRecycling i) (documentIdle i) (inactivityTimer i) b (dimmed i).
Definition set_dimmed (b : bool) (i : idle) : idle := Idle (serverRecycling i) (documentIdle i) (inactivityTimer i) (outOfFocusTimer i) b.

(** ** The connection *)

(** [connected] *)
Definition connected (c : session) : bool := bool_decide (readyState (sock c) = OPEN).

(** [map.loadDocument]: [connect] closes the old socket, which unloads the document. *)
Definition load_document (c : session) : session := set_docLoaded false (set_sock (loadDocument (sock c)) c).

(** [app.socket.sendMessage], which loads the document when the socket is lost. *)
Definition send (m : payload) (c : session) : session :=
  let lost := bool_decide (readyState (sock c) = CLOSING) || bool_decide (readyState (sock c) = CLOSED) in
  let c1 := set_sock (sendMessage m (sock c)) c in
  if accepted m (sock c) && lost then set_docLoaded false c1 else c1.

Definition send_all (ms : list payload) (c : session) : session := foldl (fun c m => send m c) c ms.

(** [close]: the socket's handlers are gone, so [_onSocketClose] will not run. *)
Definition close (c : session) : session := set_docLoaded false (set_sock (set_ready CLOSING (sock c)) c).

(** [_resetClientVisArea] *)
Definition resetClientVisArea (c : session) : session := set_view (Memo "" "") c.

(** ** The idle handler *)

Definition startInactiveTimer (c : session) : session :=
  if serverRecycling (idler c) || documentIdle (idler c) || negb (docLoaded c) then c
  else set_idler (set_inactivityTimer true (idler c)) c.

Definition stopOutOfFocusTimer (c : session) : session := set_idler (set_outOfFocusTimer false (idler c)) c.

Definition startOutOfFocusTimer (c : session) : session :=
  if serverRecycling (idler c) || documentIdle (idler c) || negb (docLoaded c) then c
  else set_idler (set_outOfFocusTimer true (idler c)) c.

(** [_activate]; [geometry] is what a spreadsheet's layer asks for. *)
Definition activate (geometry : list payload) (c : session) : session :=
  if serverRecycling (idler c) || documentIdle (idler c) then c
  else
    let c := stopOutOfFocusTimer (startInactiveTimer c) in
    if idleActive (sock c) then c
    else if connected c then
      let c := set_active true (send (Text "useractive") c) in
      let c := if docLayer c then send_all geometry c else c in
      let c := send (Text "commandvalues command=.uno:ViewAnnotations") c in
      set_idler (set_dimmed false (idler c)) c
    else load_document c.

(** [_sendInactiveMessage] *)
Definition sendInactiveMessage (c : session) : session :=
  if connected c then send (Text "userinactive") c else c.

(** [_dim] *)
Definition dim (c : session) : session :=
  if dimmed (idler c) then c
  else sendInactiveMessage (set_idler (set_dimmed true (idler c)) (set_active false c)).

(** [_dimIfInactive], when the inactivity timer fires; times in seconds. *)
Definition dimIfInactive (elapsed timeout : Z) (c : session) : session :=
  let c := set_idler (set_inactivityTimer false (idler c)) c in
  if docLoaded c && (timeout <=? elapsed) then dim c else startInactiveTimer c.

(** The timer of [_startOutOfFocusTimer]. *)
Definition out_of_focus (c : session) : session := dim (set_idler (set_outOfFocusTimer false (idler c)) c).

(** [_deactivate] *)
Definition deactivate (desktop : bool) (c : session) : session :=
  if serverRecycling (idler c) || documentIdle (idler c) || negb (docLoaded c) then c
  else if desktop && (negb (idleActive (sock c)) || dimmed (idler c)) then sendInactiveMessage (set_active false c)
  else startOutOfFocusTimer c.

(** [restartConnectionFn] of the dialog. *)
Definition restart_connection (geometry : list payload) (c : session) : session :=
  activate geometry (if documentIdle (idler c) then set_idler (set_documentIdle false (idler c)) c else c).

(** ** Opening and closing *)

(** [_onSocketOpen]; the browser has set the ready state. *)
Definition on_open (hello load : string) (geometry : list payload) (c : session) : session :=
  let c := set_idler (set_documentIdle false (set_recycling false (idler c))) c in
  let c := if docLayer c then set_reconnecting true c else c in
  activate geometry (set_sock (socket_opens hello load (sock c)) c).

(** [_onSocketClose] *)
Definition on_close (c : session) : session :=
  if negb (docLoadedOnce c) && (reconnectCount c =? 0) then notify ClosedAtLoad c
  else if 0 <? reconnectCount c then c
  else
    let isActive := idleActive (sock c) in
    let c := set_active false c in
    let c := set_idler (set_recycling false (idler c)) c in
    let c := if docLayer c then resetClientVisArea c else c in
    let c := if isActive && reconnecting c then notify CannotConnect c else c in
    let c := set_docLoaded false c in
    set_closeTimers (S (closeTimers c)) c.

(** Its timeout, after a millisecond. *)
Definition close_timer (geometry : list payload) (c : session) : session :=
  let c := set_closeTimers (pred (closeTimers c)) c in
  if reconnecting c then c
  else
    let c := set_reconnecting true c in
    let c := if documentIdle (idler c) then c else notify Reconnecting c in
    activate geometry c.

(** [_onStatusMsg], once the page is ready, with the [docloaded] handler of the map. *)
Definition on_status (geometry : list payload) (c : session) : session :=
  let c :=
    if negb (docLayer c) then resetClientVisArea (set_docLayer true c)
    else if reconnecting c then resetClientVisArea c
    else c in
  let c := activate geometry (set_docLoaded true c) in
  let c := if docLoadedOnce c then c else set_docLoadedOnce (docLoaded c) c in
  set_reconnecting false c.

(** [manualReconnect] and its timeout *)
Definition manualReconnect (c : session) : session :=
  let c := set_timer None (close (set_active false c)) in
  set_manualTimers (S (manualTimers c)) c.
Definition manual_timer (geometry : list payload) (c : session) : session :=
  activate geometry (set_manualTimers (pred (manualTimers c)) c).

(** The interval fires. [clearTimeout (this.timer)] in [RetryLoad] clears nothing,
    since [this] is the window there. *)
Definition retry_timer (geometry : list payload) (c : session) : session :=
  match timer c with
  | Some (RetryLoad _) => if connected c then c else load_document c
  | Some (RetryActivate _) => activate geometry c
  | None => c
  end.

(** ** Messages of the server *)

Inductive closing :=
  | OwnerTermination | DocIdle | Oom | ShuttingDown | DocDisconnected
  | Recycling (ms : Z)      (** with the random delay *)
  | DocumentConflict | PreRestoreAck | ReloadAfterRename.

(** [close: ...] *)
Definition on_close_msg (m : closing) (c : session) : session :=
  match m with
  | OwnerTermination => notify MapRemoved c
  | DocIdle | Oom => dim (set_idler (set_documentIdle true (idler c)) c)
  | ShuttingDown => set_idler (set_recycling true (idler c)) (set_active false c)
  | DocDisconnected => c
  | Recycling ms => set_timer (Some (RetryLoad ms)) (set_idler (set_recycling true (idler c)) (set_active false c))
  | DocumentConflict | PreRestoreAck | ReloadAfterRename =>
      set_timer (Some (RetryActivate 3000)) (set_active false (close c))
  end.

Inductive error_msg :=
  | ErrInternal            (** [error: cmd=internal] *)
  | ErrLoadFatal           (** loading failed or timed out *)
  | ErrUnloading           (** the document is being unloaded *)
  | ErrPassword            (** a password is needed or wrong, or the storage failed to load *)
  | ErrEarly.              (** any other error before there is a layer *)

(** [error: ...] *)
Definition on_error (m : error_msg) (c : session) : session :=
  match m with
  | ErrInternal => close (let c := set_fatal c in if docLayer c then resetClientVisArea c else c)
  | ErrLoadFatal => notify FatalError (set_fatal (close c))
  | ErrUnloading =>
      let c := set_timer None (set_active false (close c)) in
      let n := reconnectCount c in
      let c := set_reconnectCount (n + 1) c in
      if 10 <=? n then notify GiveUp c
      else set_timer (Some (RetryActivate (500 * reconnectCount c * reconnectCount c))) c
  | ErrPassword => close c
  | ErrEarly => if docLayer c then c else notify FatalError (set_active false (set_fatal c))
  end.

(** [statusindicator: ready] *)
Definition on_ready (c : session) : session := set_timer None (set_reconnectCount 0 c).

(** ** The view *)

Record zoom_level := ZoomLevel { tileWidthPx : Z; tileHeightPx : Z; tileWidthTwips : Z; tileHeightTwips : Z }.
Record visible_area := VisibleArea { va_x : Z; va_y : Z; va_width : Z; va_height : Z; va_splitx : Z; va_splity : Z }.

Definition zoom_text (z : zoom_level) : string :=
  "tilepixelwidth=" +:+ num_to_string (tileWidthPx z) +:+ " " +:+
  "tilepixelheight=" +:+ num_to_string (tileHeightPx z) +:+ " " +:+
  "tiletwipwidth=" +:+ num_to_string (tileWidthTwips z) +:+ " " +:+
  "tiletwipheight=" +:+ num_to_string (tileHeightTwips z).

Definition area_text (a : visible_area) : string :=
  "clientvisiblearea x=" +:+ num_to_string (va_x a) +:+ " y=" +:+ num_to_string (va_y a) +:+
  " width=" +:+ num_to_string (va_width a) +:+ " height=" +:+ num_to_string (va_height a) +:+
  " splitx=" +:+ num_to_string (va_splitx a) +:+ " splity=" +:+ num_to_string (va_splity a).

(** [!_fatal && idleHandler._active && socket.connected ()] *)
Definition may_remember (c : session) : bool :=
  negb (fatal (sock c)) && idleActive (sock c) && connected c.

Definition sendClientZoom (z : zoom_level) (forceUpdate : bool) (c : session) : session :=
  if negb (docLoaded c) then c
  else if negb (String.eqb (clientZoom (view c)) (zoom_text z)) || forceUpdate then
    let c := send (Text ("clientzoom " +:+ zoom_text z)) c in
    if may_remember c then set_view (Memo (zoom_text z) (clientVisibleArea (view c))) c else c
  else c.

Definition sendClientVisibleArea (a : visible_area) (forceUpdate : bool) (c : session) : session :=
  if negb (docLoaded c) then c
  else if negb (String.eqb (clientVisibleArea (view c)) (area_text a)) || forceUpdate then
    let c := send (Text (area_text a)) c in
    if may_remember c then set_view (Memo (clientZoom (view c)) (area_text a)) c else c
  else c.

(** ** Steps *)

(** What the server remembers of the view after the messages it got: a new session
    knows nothing. *)
Definition server_step (v : option string * option string) (m : payload) : option string * option string :=
  match m with
  | Text t =>
      if starts_with t "load " then (None, None)
      else if starts_with t "clientzoom " then (Some t, v.2)
      else if starts_with t "clientvisiblearea " then (v.1, Some t)
      else v
  | Binary _ => v
  end.
Definition server_view (wire : list payload) : option string * option string := foldl server_step (None, None) wire.

(** The other messages. *)
Definition plain (m : payload) : Prop := forall v, server_step v m = v.

Inductive session_step (geometry : list payload) : session -> session -> Prop :=
| step_connect c : session_step geometry c (load_document c)
| step_opened version time perf options c :
    readyState (sock c) = CONNECTING ->
    session_step geometry c (on_open (client_message version time perf) (load_message options) geometry c)
| step_socket_lost r c : r = CLOSING \/ r = CLOSED -> session_step geometry c (set_sock (set_ready r (sock c)) c)
| step_closed c : readyState (sock c) = CLOSED -> session_step geometry c (on_close c)
| step_close_timer c : (0 < closeTimers c)%nat -> session_step geometry c (close_timer geometry c)
| step_manual_timer c : (0 < manualTimers c)%nat -> session_step geometry c (manual_timer geometry c)
| step_retry c : session_step geometry c (retry_timer geometry c)
| step_status c : connected c = true -> session_step geometry c (on_status geometry c)
| step_manual c : session_step geometry c (manualReconnect c)
| step_close_msg m c : session_step geometry c (on_close_msg m c)
| step_error m c : session_step geometry c (on_error m c)
| step_ready c : session_step geometry c (on_ready c)
| step_block b c : session_step geometry c (set_blocked b c)
| step_activate c : session_step geometry c (activate geometry c)
| step_dim elapsed timeout c : session_step geometry c (dimIfInactive elapsed timeout c)
| step_out_of_focus c : session_step geometry c (out_of_focus c)
| step_deactivate desktop c : session_step geometry c (deactivate desktop c)
| step_restart c : session_step geometry c (restart_connection geometry c)
| step_plain m c : plain m -> session_step geometry c (send m c)
| step_zoom z b c : uiBlocked (sock c) = false -> session_step geometry c (sendClientZoom z b c)
| step_visible a b c : uiBlocked (sock c) = false -> session_step geometry c (sendClientVisibleArea a b c)
| step_new_size c : session_step geometry c (resetClientVisArea c).

Definition new_session : session :=
  Session new_sender (Idle false false false false false) (Memo "" "") false false false false 0 0 0 None [].

(** ** Sending *)

Lemma sock_send m c : sock (send m c) = sendMessage m (sock c).
Proof. unfold send. by case_match. Qed.

Lemma send_open m c :
  connected c = true -> connected (send m c) = true /\ docLoaded (send m c) = docLoaded c.
Proof.
  unfold connected. rewrite !bool_decide_eq_true. intros H. rewrite sock_send. unfold send. rewrite H.
  assert (E : accepted m (sock c) && (bool_decide (OPEN = CLOSING) || bool_decide (OPEN = CLOSED)) = false) by apply andb_false_r.
  rewrite E. split; [|done]. destruct (accepted m (sock c)) eqn:Ha.
  - by apply (sendMessage_accepted m (sock c) Ha).
  - by rewrite sendMessage_refused.
Qed.

Lemma send_frame m c :
  idler (send m c) = idler c /\ view (send m c) = view c /\ docLayer (send m c) = docLayer c /\
  reconnecting (send m c) = reconnecting c /\ docLoadedOnce (send m c) = docLoadedOnce c.
Proof. unfold send. by case_match. Qed.

Lemma send_all_ind (P : session -> Prop) ms c :
  P c -> (forall m c, m ∈ ms -> P c -> P (send m c)) -> P (send_all ms c).
Proof.
  unfold send_all. revert c. induction ms as [|m ms IH]; intros c Hc H; [done|]. cbn. apply IH; [apply H; [by left|done]|].
  intros m' c' Hm. apply H. by right.
Qed.

(** *** The sender's steps *)

Definition sends (c c' : session) : Prop := forall l, exists l', rtc send_step (sock c, l) (sock c', l').

Lemma sends_refl c c' : sock c' = sock c -> sends c c'.
Proof. intros E l. exists l. rewrite E. apply rtc_refl. Qed.

Lemma sends_trans c1 c2 c3 : sends c1 c2 -> sends c2 c3 -> sends c1 c3.
Proof. intros H1 H2 l. destruct (H1 l) as [l1 Hl1], (H2 l1) as [l2 Hl2]. exists l2. by etrans. Qed.

Lemma sends_one c c' : (forall l, exists l', send_step (sock c, l) (sock c', l')) -> sends c c'.
Proof. intros H l. destruct (H l) as [l' Hl]. exists l'. by apply rtc_once. Qed.

Lemma sends_send m c : sends c (send m c).
Proof. apply sends_one. intros l. rewrite sock_send. eexists. apply step_send. Qed.

Lemma sends_send_all ms c : sends c (send_all ms c).
Proof.
  apply send_all_ind; [by apply sends_refl|]. intros m c' _ H. eapply sends_trans; [exact H|apply sends_send].
Qed.

Lemma sends_load c : sends c (load_document c).
Proof. apply sends_one. intros l. exists l. apply step_load. Qed.

Lemma sends_ready r c : r = CLOSING \/ r = CLOSED -> sends c (set_sock (set_ready r (sock c)) c).
Proof. intros H. apply sends_one. intros l. exists l. apply step_lost. tauto. Qed.

Lemma sends_close c : sends c (close c).
Proof. eapply sends_trans; [apply (sends_ready CLOSING); by left|by apply sends_refl]. Qed.

Lemma sends_flags f i b c :
  let s := sock c in
  sends c (set_sock (Sender f i b (readyState s) (msgQueue s) (wire s) (reloads s)) c).
Proof. apply sends_one. intros l. exists l. apply step_flags. Qed.

(** Two states with the same sender. *)
Lemma sends_sock c c1 c' : sock c1 = sock c -> sends c1 c' -> sends c c'.
Proof. intros E H. eapply sends_trans; [by apply sends_refl|exact H]. Qed.

Lemma sends_then c c1 c' : sock c' = sock c1 -> sends c c1 -> sends c c'.
Proof. intros E H. eapply sends_trans; [exact H|by apply sends_refl]. Qed.

Lemma sends_activate geometry c : sends c (activate geometry c).
Proof.
  unfold activate. case_match; [by apply sends_refl|]. cbv zeta.
  set (c0 := stopOutOfFocusTimer (startInactiveTimer c)).
  assert (E : sock c0 = sock c) by (unfold c0, startInactiveTimer; by case_match).
  apply (sends_sock c c0); [done|]. clearbody c0. clear E.
  destruct (idleActive (sock c0)); [by apply sends_refl|]. destruct (connected c0); [|apply sends_load].
  eapply sends_then; [reflexivity|]. eapply sends_trans; [|apply sends_send].
  set (c1 := set_active true _). assert (H1 : sends c0 c1).
  { eapply sends_trans; [apply (sends_send (Text "useractive"))|apply sends_flags]. }
  destruct (docLayer c1); [|done]. eapply sends_trans; [done|apply sends_send_all].
Qed.

Lemma sends_inactive c : sends c (sendInactiveMessage c).
Proof. unfold sendInactiveMessage. case_match; [apply sends_send|by apply sends_refl]. Qed.

Lemma sends_dim c : sends c (dim c).
Proof.
  unfold dim. case_match; [by apply sends_refl|]. eapply sends_trans; [|apply sends_inactive].
  eapply sends_then; [|apply sends_flags]. reflexivity.
Qed.

Lemma sends_zoom z b c : sends c (sendClientZoom z b c).
Proof.
  unfold sendClientZoom. case_match; [by apply sends_refl|]. case_match; [|by apply sends_refl]. cbv zeta.
  case_match; (eapply sends_then; [|apply (sends_send (Text ("clientzoom " +:+ zoom_text z)))]); reflexivity.
Qed.

Lemma sends_visible a b c : sends c (sendClientVisibleArea a b c).
Proof.
  unfold sendClientVisibleArea. case_match; [by apply sends_refl|]. case_match; [|by apply sends_refl]. cbv zeta.
  case_match; (eapply sends_then; [|apply (sends_send (Text (area_text a)))]); reflexivity.
Qed.

Lemma sends_opened hello load geometry c :
  readyState (sock c) = CONNECTING -> sends c (on_open hello load geometry c).
Proof.
  intros H. unfold on_open. cbv zeta. eapply sends_trans; [|apply sends_activate].
  assert (E : forall c' : session, sock c' = sock c -> sends c (set_sock (socket_opens hello load (sock c')) c')).
  { intros c' E. apply sends_one. intros l. rewrite E. eexists. by apply step_open. }
  apply E. by case_match.
Qed.

Lemma sends_on_close c : sends c (on_close c).
Proof.
  unfold on_close. case_match; [by apply sends_refl|]. case_match; [by apply sends_refl|]. cbv zeta.
  eapply sends_then; [|apply (sends_flags (fatal (sock c)) false (uiBlocked (sock c)))].
  repeat case_match; reflexivity.
Qed.

Lemma sends_step geometry c c' : session_step geometry c c' -> sends c c'.
Proof.
  intros H. destruct H as [c|version time perf options c H|r c H|c H|c H|c H|c|c H|c|m c|m c|c|b c|c|e t c|c|d c|c|m c H|z b c H|a b c H|c].
  - apply sends_load.
  - by apply sends_opened.
  - by apply sends_ready.
  - apply sends_on_close.
  - unfold close_timer. cbv zeta. case_match; [by apply sends_refl|]. eapply sends_sock; [|apply sends_activate].
    by case_match.
  - unfold manual_timer. eapply sends_sock; [|apply sends_activate]. done.
  - unfold retry_timer. repeat case_match; [by apply sends_refl|apply sends_load|apply sends_activate|by apply sends_refl].
  - unfold on_status. cbv zeta. set (c0 := set_docLoaded true _).
    assert (E : sock c0 = sock c) by (unfold c0; repeat case_match; reflexivity). clearbody c0.
    eapply sends_then; [|eapply sends_sock; [exact E|apply (sends_activate geometry)]]. by case_match.
  - unfold manualReconnect. cbv zeta. eapply sends_then; [reflexivity|]. eapply sends_trans; [|apply sends_close].
    apply sends_flags.
  - destruct m; cbn [on_close_msg]; try (by apply sends_refl).
    + eapply sends_sock; [|apply sends_dim]. done.
    + eapply sends_sock; [|apply sends_dim]. done.
    + eapply sends_then; [|apply sends_flags]. reflexivity.
    + eapply sends_then; [|apply sends_flags]. reflexivity.
    + eapply sends_then; [reflexivity|]. eapply sends_trans; [apply sends_close|apply sends_flags].
    + eapply sends_then; [reflexivity|]. eapply sends_trans; [apply sends_close|apply sends_flags].
    + eapply sends_then; [reflexivity|]. eapply sends_trans; [apply sends_close|apply sends_flags].
  - destruct m; cbn [on_error]; cbv zeta.
    + eapply sends_trans; [|apply sends_close]. eapply sends_then; [|apply sends_flags]. by case_match.
    + eapply sends_then; [reflexivity|]. eapply sends_trans; [apply sends_close|apply sends_flags].
    + eapply sends_then; [|eapply sends_trans; [apply sends_close|apply sends_flags]]. by case_match.
    + apply sends_close.
    + case_match; [by apply sends_refl|]. eapply sends_then; [reflexivity|].
      eapply sends_trans; apply sends_flags.
  - by apply sends_refl.
  - apply sends_flags.
  - apply sends_activate.
  - unfold dimIfInactive. cbv zeta. case_match.
    + eapply sends_sock; [|apply sends_dim]. done.
    + apply sends_refl. unfold startInactiveTimer. by case_match.
  - unfold out_of_focus. eapply sends_sock; [|apply sends_dim]. done.
  - unfold deactivate. case_match; [by apply sends_refl|]. case_match.
    + eapply sends_trans; [|apply sends_inactive]. apply sends_flags.
    + apply sends_refl. unfold startOutOfFocusTimer. by case_match.
  - unfold restart_connection. eapply sends_sock; [|apply sends_activate]. by case_match.
  - apply sends_send.
  - apply sends_zoom.
  - apply sends_visible.
  - by apply sends_refl.
Qed.

(** ** What the server knows of the view *)

Definition view_ok (v : memo) (w : list payload) : Prop :=
  (clientZoom v = "" \/ (server_view w).1 = Some ("clientzoom " +:+ clientZoom v)) /\
  (clientVisibleArea v = "" \/ (server_view w).2 = Some (clientVisibleArea v)).

Record session_ok (c : session) : Prop := {
  ok_layer : docLoaded c = true -> docLayer c = true;
  ok_not_connecting : docLoaded c = true -> readyState (sock c) <> CONNECTING;
  ok_reconnecting : readyState (sock c) = OPEN -> docLayer c = true -> docLoaded c = false -> reconnecting c = true;
  ok_view : docLoaded c = true -> view_ok (view c) (wire (sock c))
}.

(** Two states that differ in nothing of that. *)
Lemma session_ok_same c c' :
  docLoaded c' = docLoaded c -> docLayer c' = docLayer c -> reconnecting c' = reconnecting c ->
  readyState (sock c') = readyState (sock c) -> wire (sock c') = wire (sock c) -> view c' = view c ->
  session_ok c -> session_ok c'.
Proof. intros E1 E2 E3 E4 E5 E6 []. split; rewrite ?E1, ?E2, ?E3, ?E4, ?E5, ?E6; done. Qed.

Lemma session_ok_flags f i b c :
  let s := sock c in
  session_ok c -> session_ok (set_sock (Sender f i b (readyState s) (msgQueue s) (wire s) (reloads s)) c).
Proof. by apply session_ok_same. Qed.

Lemma session_ok_idler i c : session_ok c -> session_ok (set_idler i c).
Proof. by apply session_ok_same. Qed.

Lemma view_ok_none w : view_ok (Memo "" "") w.
Proof. split; by left. Qed.

Lemma session_ok_reset c : session_ok c -> session_ok (resetClientVisArea c).
Proof. intros []. split; try done. intros _. apply view_ok_none. Qed.

(** Without a document or a connection there is nothing to keep. *)
Lemma session_ok_unloaded c : docLoaded c = false -> readyState (sock c) <> OPEN -> session_ok c.
Proof. intros E H. split; rewrite ?E; done. Qed.

Lemma session_ok_load c : session_ok (load_document c).
Proof. by apply session_ok_unloaded. Qed.

Lemma session_ok_close c : session_ok (close c).
Proof. by apply session_ok_unloaded. Qed.

Lemma server_view_app w w' : server_view (w ++ w') = foldl server_step (server_view w) w'.
Proof. unfold server_view. by rewrite foldl_app. Qed.

(** A message goes out, waits for a connection, or is refused. *)
Lemma send_cases m c :
  (sock (send m c) = sock c /\ docLoaded (send m c) = docLoaded c /\ accepted m (sock c) = false) \/
  (connected c = true /\ connected (send m c) = true /\ docLoaded (send m c) = docLoaded c /\
   wire (sock (send m c)) = wire (sock c) ++ [m]) \/
  (connected c = false /\ readyState (sock (send m c)) = CONNECTING /\ wire (sock (send m c)) = wire (sock c) /\
   (docLoaded (send m c) = true -> docLoaded c = true /\ readyState (sock c) = CONNECTING)).
Proof.
  destruct (accepted m (sock c)) eqn:Ha.
  2: { left. unfold send. rewrite Ha. cbn. by rewrite sendMessage_refused. }
  right. destruct (sendMessage_accepted m (sock c) Ha) as (_ & Hw & _). unfold connected.
  destruct (bool_decide (readyState (sock c) = OPEN)) eqn:Ho.
  - left. destruct (send_open m c Ho) as [Hc Hd]. unfold connected in Hc. by rewrite sock_send in *.
  - right. rewrite sock_send, Hw. split_and!; [done| |done|].
    + apply bool_decide_eq_false in Ho. revert Ha. unfold accepted, sendMessage.
      destruct (fatal (sock c)); [done|]. destruct (idleActive (sock c)), (passes_idle m), (uiBlocked (sock c)); try done;
        destruct (readyState (sock c)) eqn:E; repeat case_bool_decide; try congruence; cbn; done.
    + unfold send. rewrite Ha. apply bool_decide_eq_false in Ho.
      destruct (readyState (sock c)) eqn:E; repeat case_bool_decide; try congruence; cbn; try done.
Qed.

Lemma session_ok_send m c : plain m -> session_ok c -> session_ok (send m c).
Proof.
  intros Hm H. destruct (send_frame m c) as (_ & Hv & Hl & Hr & _).
  destruct (send_cases m c) as [(E & Ed & _)|[(_ & Eo & Ed & Ew)|(_ & Ec & _ & Ed)]].
  - revert H. apply session_ok_same; congruence.
  - destruct H as [H1 H2 H3 H4]. unfold connected in Eo. apply bool_decide_eq_true in Eo.
    destruct (send_cases m c) as [(E & _)|[(Eo' & _)|(Eo' & Ec & _)]].
    + split; rewrite ?Hl, ?Hv, ?Hr, ?Ed, ?E in *; done.
    + apply bool_decide_eq_true in Eo'. split; rewrite ?Hl, ?Hv, ?Hr, ?Ed, ?Ew, ?Eo; [done|done|by auto|].
      intros Hd. unfold view_ok. rewrite server_view_app. cbn. rewrite Hm. by apply H4.
    + congruence.
  - apply session_ok_unloaded; [|congruence]. destruct (docLoaded (send m c)); [|done]. exfalso.
    destruct (Ed eq_refl) as [Hd Hc]. by apply (ok_not_connecting c H).
Qed.

Lemma session_ok_send_all ms c : Forall plain ms -> session_ok c -> session_ok (send_all ms c).
Proof. intros Hms Hc. apply send_all_ind; [done|]. intros m c' Hm. apply session_ok_send. by eapply Forall_forall. Qed.

Ltac plain_text := intros v; reflexivity.

Section view.
Context (geometry : list payload).
Hypothesis geometry_plain : Forall plain geometry.

Lemma session_ok_activate c : session_ok c -> session_ok (activate geometry c).
Proof using geometry_plain.
  intros H. unfold activate. case_match; [done|]. cbv zeta.
  assert (Hi : session_ok (stopOutOfFocusTimer (startInactiveTimer c))).
  { apply session_ok_idler. unfold startInactiveTimer. case_match; [done|by apply session_ok_idler]. }
  revert Hi. generalize (stopOutOfFocusTimer (startInactiveTimer c)) as c0. clear - geometry_plain. intros c H.
  case_match; [done|]. case_match; [|apply session_ok_load]. apply session_ok_idler, session_ok_send; [plain_text|].
  assert (Hs : session_ok (set_active true (send (Text "useractive") c))).
  { apply session_ok_flags, session_ok_send; [plain_text|done]. }
  case_match; [by apply session_ok_send_all|done].
Qed.

(** An open connection stays open, and the document loaded. *)
Lemma activate_open c :
  connected c = true -> connected (activate geometry c) = true /\ docLoaded (activate geometry c) = docLoaded c.
Proof.
  intros H. unfold activate. case_match; [done|]. cbv zeta.
  assert (Hi : connected (stopOutOfFocusTimer (startInactiveTimer c)) = true /\
    docLoaded (stopOutOfFocusTimer (startInactiveTimer c)) = docLoaded c).
  { unfold stopOutOfFocusTimer, startInactiveTimer. by case_match. }
  revert Hi. generalize (stopOutOfFocusTimer (startInactiveTimer c)) as c0. intros c0 [Hc0 <-].
  case_match; [done|]. rewrite Hc0. set (c1 := set_active true _).
  assert (Hc1 : connected c1 = true /\ docLoaded c1 = docLoaded c0) by by apply send_open.
  assert (Hc2 : connected (if docLayer c1 then send_all geometry c1 else c1) = true /\
    docLoaded (if docLayer c1 then send_all geometry c1 else c1) = docLoaded c0).
  { case_match; [|done]. apply send_all_ind; [done|]. intros m c2 _ [Hc2 Hd2]. rewrite <- Hd2. by apply send_open. }
  destruct Hc2 as [Hc2 Hd2]. rewrite <- Hd2. by apply send_open.
Qed.

Lemma session_ok_inactive c : session_ok c -> session_ok (sendInactiveMessage c).
Proof. intros H. unfold sendInactiveMessage. case_match; [|done]. apply session_ok_send; [plain_text|done]. Qed.

Lemma session_ok_dim c : session_ok c -> session_ok (dim c).
Proof. intros H. unfold dim. case_match; [done|]. by apply session_ok_inactive, session_ok_idler, session_ok_flags. Qed.

Lemma session_ok_opened hello load c :
  readyState (sock c) = CONNECTING -> session_ok c -> session_ok (on_open hello load geometry c).
Proof using geometry_plain.
  intros Hc H. unfold on_open. cbv zeta. apply session_ok_activate.
  assert (Hd : docLoaded c = false).
  { destruct (docLoaded c) eqn:E; [|done]. exfalso. by apply (ok_not_connecting c H). }
  split; cbn -[socket_opens].
  - case_match; cbn; congruence.
  - case_match; cbn; congruence.
  - intros _. destruct (docLayer c) eqn:E; cbn; congruence.
  - case_match; cbn; congruence.
Qed.

Lemma session_ok_on_close c : readyState (sock c) = CLOSED -> session_ok c -> session_ok (on_close c).
Proof.
  intros Hc H. unfold on_close. case_match; [by apply (session_ok_same c)|]. case_match; [done|]. cbv zeta.
  apply session_ok_unloaded; [done|]. repeat case_match; cbn; congruence.
Qed.

Lemma session_ok_status c : connected c = true -> session_ok c -> session_ok (on_status geometry c).
Proof using geometry_plain.
  intros Hc H. unfold on_status. cbv zeta. set (c0 := if negb (docLayer c) then _ else _).
  assert (H0 : session_ok (set_docLoaded true c0) /\ connected (set_docLoaded true c0) = true).
  { unfold connected in *. apply bool_decide_eq_true in Hc. unfold c0. rewrite bool_decide_eq_true.
    destruct (docLayer c) eqn:El; cbn [negb].
    - destruct (reconnecting c) eqn:Er; cbn.
      + split; [|done]. split; cbn; try done; try congruence. intros _. apply view_ok_none.
      + split; [|done]. destruct (docLoaded c) eqn:Ed.
        * revert H. by apply session_ok_same.
        * pose proof (ok_reconnecting c H Hc El Ed). congruence.
    - split; [|done]. split; cbn; try done; try congruence. intros _. apply view_ok_none. }
  destruct H0 as [H0 H1]. destruct (activate_open _ H1) as [H2 H3]. apply session_ok_activate in H0.
  revert H0 H2 H3. generalize (activate geometry (set_docLoaded true c0)) as c1. intros c1 H0 H2 H3.
  cbn in H3. destruct H0. split; repeat case_match; cbn; congruence || auto.
Qed.
End view.

(** *** Telling the server *)

Lemma sendMessage_flags m s :
  fatal (sendMessage m s) = fatal s /\ idleActive (sendMessage m s) = idleActive s /\ uiBlocked (sendMessage m s) = uiBlocked s.
Proof. unfold sendMessage. repeat case_match; done. Qed.

(** A message the idle handler does not let through is remembered when it went out. *)
Lemma send_view m c :
  uiBlocked (sock c) = false -> passes_idle m = false -> session_ok c ->
  (may_remember c = true /\ may_remember (send m c) = true /\ connected (send m c) = true /\
   docLoaded (send m c) = docLoaded c /\ wire (sock (send m c)) = wire (sock c) ++ [m]) \/
  (may_remember c = false /\ may_remember (send m c) = false /\ session_ok (send m c)).
Proof.
  intros Hb Hp H. destruct (sendMessage_flags m (sock c)) as (Ef & Ei & _).
  unfold may_remember at 2 4. rewrite sock_send, Ef, Ei.
  destruct (send_frame m c) as (_ & Hv & Hl & Hr & _).
  destruct (send_cases m c) as [(E & Ed & Ha)|[(Hc & Eo & Ed & Ew)|(Hc & Ec & _ & Ed)]].
  - right. assert (Hm : negb (fatal (sock c)) && idleActive (sock c) = false).
    { unfold accepted in Ha. rewrite Hp, Hb, orb_false_r in Ha. by destruct (fatal (sock c)), (idleActive (sock c)). }
    unfold may_remember. rewrite Hm. split_and!; [done|done|]. revert H. apply session_ok_same; congruence.
  - unfold may_remember. rewrite Hc, Eo.
    destruct (negb (fatal (sock c)) && idleActive (sock c)) eqn:Hm; cbn; [left|right].
    + rewrite <- sock_send. split_and!; done.
    + split_and!; [done|done|]. exfalso.
      assert (Ha : accepted m (sock c) = false).
      { unfold accepted. rewrite Hp, Hb, orb_false_r. by rewrite Hm. }
      rewrite sock_send, sendMessage_refused in Ew by done.
      apply (f_equal length) in Ew. rewrite length_app in Ew. cbn in Ew. lia.
  - right. unfold may_remember. rewrite Hc, andb_false_r. split_and!; [done| |].
    + unfold connected. rewrite Ec. by rewrite andb_false_r.
    + apply session_ok_unloaded; [|congruence]. destruct (docLoaded (send m c)); [|done]. exfalso.
      destruct (Ed eq_refl) as [Hd Hcc]. by apply (ok_not_connecting c H).
Qed.

Lemma connected_open c : connected c = true <-> readyState (sock c) = OPEN.
Proof. unfold connected. by rewrite bool_decide_eq_true. Qed.

Lemma sendClientZoom_spec z b c :
  uiBlocked (sock c) = false -> session_ok c ->
  session_ok (sendClientZoom z b c) /\
  (docLoaded c = true -> may_remember c = true ->
   clientZoom (view (sendClientZoom z b c)) = zoom_text z /\ docLoaded (sendClientZoom z b c) = true /\
   may_remember (sendClientZoom z b c) = true).
Proof.
  intros Hb H. unfold sendClientZoom. destruct (docLoaded c) eqn:Hd; cbn [negb]; [|done].
  destruct (negb (String.eqb (clientZoom (view c)) (zoom_text z)) || b) eqn:E.
  2: { split; [done|]. intros _ Hm. apply orb_false_iff in E as [E _]. apply negb_false_iff, String.eqb_eq in E. done. }
  cbv zeta. set (m := Text ("clientzoom " +:+ zoom_text z)). destruct (send_frame m c) as (_ & Hv & Hl & Hr & _).
  destruct (send_view m c Hb ltac:(reflexivity) H) as [(Hm0 & Hm & Hc & Ed & Ew)|(Hm0 & Hm & Hs)]; rewrite Hm.
  - apply connected_open in Hc. destruct H as [H1 H2 H3 H4]. split.
    + split; cbn [docLoaded docLayer sock reconnecting view set_view]; rewrite ?Ed, ?Hl, ?Hr, ?Hv, ?Ew, ?Hc; [by auto|done|by rewrite Hd|].
      intros _. destruct (H4 Hd) as [_ Ha]. unfold view_ok. rewrite server_view_app. cbn. split; [by right|done].
    + intros _ _. cbn [view set_view clientZoom]. split_and!; [done|by cbn; rewrite Ed|done].
  - split; [done|]. congruence.
Qed.

Lemma sendClientVisibleArea_spec a b c :
  uiBlocked (sock c) = false -> session_ok c ->
  session_ok (sendClientVisibleArea a b c) /\
  (docLoaded c = true -> may_remember c = true ->
   view (sendClientVisibleArea a b c) = Memo (clientZoom (view c)) (area_text a) /\
   docLoaded (sendClientVisibleArea a b c) = true).
Proof.
  intros Hb H. unfold sendClientVisibleArea. destruct (docLoaded c) eqn:Hd; cbn [negb]; [|done].
  destruct (negb (String.eqb (clientVisibleArea (view c)) (area_text a)) || b) eqn:E.
  2: { split; [done|]. intros _ Hm. apply orb_false_iff in E as [E _]. apply negb_false_iff, String.eqb_eq in E.
       destruct (view c). cbn in *. by subst. }
  cbv zeta. set (m := Text (area_text a)). destruct (send_frame m c) as (_ & Hv & Hl & Hr & _).
  destruct (send_view m c Hb ltac:(reflexivity) H) as [(Hm0 & Hm & Hc & Ed & Ew)|(Hm0 & Hm & Hs)]; rewrite Hm.
  - apply connected_open in Hc. destruct H as [H1 H2 H3 H4]. split.
    + split; cbn [docLoaded docLayer sock reconnecting view set_view]; rewrite ?Ed, ?Hl, ?Hr, ?Hv, ?Ew, ?Hc; [by auto|done|by rewrite Hd|].
      intros _. destruct (H4 Hd) as [Hz _]. unfold view_ok. rewrite server_view_app. cbn. split; [done|by right].
    + intros _ _. cbn [view set_view clientZoom docLoaded]. by rewrite Hv, Ed.
  - split; [done|]. congruence.
Qed.

Section steps.
Context (geometry : list payload).
Hypothesis geometry_plain : Forall plain geometry.

Lemma session_step_ok c c' : session_step geometry c c' -> session_ok c -> session_ok c'.
Proof using geometry_plain.
  intros Hst H.
  destruct Hst as [c|version time perf options c Hc|r c Hr|c Hc|c _|c _|c|c Hc|c|m c|m c|c|b c|c|e t c|c|d c|c|m c Hm|z b c Hb|a b c Hb|c].
  - apply session_ok_load.
  - by apply session_ok_opened.
  - destruct H as [H1 H2 H3 H4]. split; cbn; [done| |intros ->; naive_solver|done]. intros _ ->. naive_solver.
  - by apply session_ok_on_close.
  - unfold close_timer. cbv zeta. case_match; [by apply (session_ok_same c)|]. apply session_ok_activate; [done|].
    destruct H as [H1 H2 H3 H4]. split; repeat case_match; cbn; auto.
  - apply session_ok_activate; [done|]. by apply (session_ok_same c).
  - unfold retry_timer. repeat case_match; [done|apply session_ok_load|by apply session_ok_activate|done].
  - by apply session_ok_status.
  - by apply session_ok_unloaded.
  - destruct m; cbn [on_close_msg]; try done; try (by apply (session_ok_same c)); try (by apply session_ok_unloaded).
    + apply session_ok_dim. by apply session_ok_idler.
    + apply session_ok_dim. by apply session_ok_idler.
  - destruct m; cbn [on_error]; cbv zeta.
    + apply session_ok_close.
    + by apply session_ok_unloaded.
    + case_match; by apply session_ok_unloaded.
    + apply session_ok_close.
    + case_match; [done|]. by apply (session_ok_same c).
  - by apply (session_ok_same c).
  - by apply session_ok_flags.
  - by apply session_ok_activate.
  - unfold dimIfInactive. cbv zeta. case_match; [by apply session_ok_dim, session_ok_idler|].
    unfold startInactiveTimer. case_match; by apply (session_ok_same c).
  - by apply session_ok_dim, session_ok_idler.
  - unfold deactivate. case_match; [done|]. case_match; [by apply session_ok_inactive, session_ok_flags|].
    unfold startOutOfFocusTimer. case_match; [done|by apply session_ok_idler].
  - apply session_ok_activate; [done|]. case_match; [by apply session_ok_idler|done].
  - by apply session_ok_send.
  - by apply sendClientZoom_spec.
  - by apply sendClientVisibleArea_spec.
  - by apply session_ok_reset.
Qed.

Lemma session_reachable_ok c : rtc (session_step geometry) new_session c -> session_ok c.
Proof using geometry_plain.
  intros H. assert (H0 : session_ok new_session) by by apply session_ok_unloaded.
  revert H0. induction H as [|c1 c2 c3 Hst _ IH]; [done|]. intros H1. apply IH. by eapply session_step_ok.
Qed.
End steps.

Lemma view_told z bz a ba c :
  session_ok c -> uiBlocked (sock c) = false -> docLoaded c = true -> may_remember c = true ->
  server_view (wire (sock (sendClientVisibleArea a ba (sendClientZoom z bz c)))) =
    (Some ("clientzoom " +:+ zoom_text z), Some (area_text a)).
Proof.
  intros H Hb Hd Hm.
  destruct (sendClientZoom_spec z bz c Hb H) as [H1 Hz]. destruct (Hz Hd Hm) as (Ez & Hd1 & Hm1).
  assert (Hb1 : uiBlocked (sock (sendClientZoom z bz c)) = false).
  { rewrite <- Hb. unfold sendClientZoom. repeat case_match; cbn; rewrite ?sock_send; try done; apply sendMessage_flags. }
  destruct (sendClientVisibleArea_spec a ba _ Hb1 H1) as [H2 Ha]. destruct (Ha Hd1 Hm1) as (Ea & Hd2).
  destruct (ok_view _ H2 Hd2) as [Vz Va]. rewrite Ea in Vz, Va. cbn [clientZoom clientVisibleArea] in Vz, Va.
  rewrite Ez in Vz. destruct Vz as [Vz|Vz]; [by destruct z|]. destruct Va as [Va|Va]; [by destruct a|].
  rewrite <- Vz, <- Va. by destruct (server_view _).
Qed.

(** ** Properties *)

(** C12: In every state of a session - connecting, losing the connection, resuming,
    being idle - after the client sent its zoom and visible area the server knows
    exactly these, whether they were sent again or taken as known; as long as the page
    was not blocked when a view was sent. *)
Theorem server_knows_view geometry c z a bz ba :
  Forall plain geometry -> rtc (session_step geometry) new_session c ->
  uiBlocked (sock c) = false -> docLoaded c = true -> may_remember c = true ->
  server_view (wire (sock (sendClientVisibleArea a ba (sendClientZoom z bz c)))) =
    (Some ("clientzoom " +:+ zoom_text z), Some (area_text a)).
Proof. intros Hg Hc. apply view_told. by eapply session_reachable_ok. Qed.

(** Whatever a session goes through, its messages are sent by steps of the sender,
    whose queue loses and reorders nothing. *)
Theorem session_refines_sender geometry c :
  rtc (session_step geometry) new_session c -> exists l, rtc send_step (new_sender, []) (sock c, l).
Proof.
  intros H. assert (Hs : sends new_session c).
  { induction H as [c|c1 c2 c3 Hst _ IH]; [by apply sends_refl|]. eapply sends_trans; [by eapply sends_step|done]. }
  apply (Hs []).
Qed.

(** A lost connection is resumed by itself: a millisecond after the socket of a
    loaded document closed a new one is being opened.  When that one fails as well,
    nothing more happens by itself, and the user is not told. *)
Theorem reconnects_once geometry c :
  docLoadedOnce c = true -> reconnectCount c = 0 -> reconnecting c = false -> documentIdle (idler c) = false ->
  readyState (sock c) = CLOSED ->
  let c1 := close_timer geometry (on_close c) in
  let c2 := close_timer geometry (on_close (set_sock (set_ready CLOSED (sock c1)) c1)) in
  readyState (sock c1) = CONNECTING /\ reloads (sock c1) = S (reloads (sock c)) /\ docLoaded c1 = false /\
  readyState (sock c2) = CLOSED /\ reloads (sock c2) = reloads (sock c1) /\ closeTimers c2 = closeTimers c /\
  notices c2 = notices c ++ [Reconnecting].
Proof.
  destruct c as [[f ia ub rs q w rl] [sr di it ot dm] v dl dlo lay rc cnt ct mt tm ns].
  cbn [docLoadedOnce reconnectCount reconnecting documentIdle idler sock readyState]. intros -> -> -> -> ->.
  destruct lay, ia; vm_compute; repeat split.
Qed.

(** A session that connected, loaded its document and was told "status". *)
Definition sample_options : load_options := LoadOptions "file" None None None None None "UTC" None None None.
Definition loaded_session : session :=
  on_status [] (on_open (client_message "0.1" "1" "2") (load_message sample_options) [] (load_document new_session)).

Lemma loaded_session_reachable : rtc (session_step []) new_session loaded_session.
Proof.
  eapply rtc_l; [apply step_connect|]. eapply rtc_l; [apply step_opened; reflexivity|].
  eapply rtc_l; [apply step_status; reflexivity|]. apply rtc_refl.
Qed.

Definition sample_zoom : zoom_level := ZoomLevel 256 256 3840 3840.
Definition sample_area : visible_area := VisibleArea 0 0 12000 8000 0 0.

Lemma server_knows_view_witness :
  server_view (wire (sock (sendClientVisibleArea sample_area false (sendClientZoom sample_zoom false loaded_session)))) =
    (Some ("clientzoom " +:+ zoom_text sample_zoom), Some (area_text sample_area)).
Proof.
  apply (server_knows_view []); [constructor|exact loaded_session_reachable|reflexivity|reflexivity|reflexivity].
Defined.

Lemma session_refines_sender_witness : exists l, rtc send_step (new_sender, []) (sock loaded_session, l).
Proof. apply (session_refines_sender []). exact loaded_session_reachable. Defined.

Lemma reconnects_once_witness :
  readyState (sock (close_timer [] (on_close (set_sock (set_ready CLOSED (sock loaded_session)) loaded_session)))) = CONNECTING.
Proof.
  refine (proj1 (reconnects_once [] (set_sock (set_ready CLOSED (sock loaded_session)) loaded_session) _ _ _ _ _)); reflexivity.
Defined.

(** ** Findings *)

(** A view sent while the page is blocked is refused and yet remembered: after the
    page is unblocked the client does not send it again, and the server keeps the old
    one. *)
Theorem view_lost_when_blocked z b c :
  docLoaded c = true -> may_remember c = true -> clientZoom (view c) <> zoom_text z ->
  let c1 := sendClientZoom z b (set_blocked true c) in
  wire (sock c1) = wire (sock c) /\ clientZoom (view c1) = zoom_text z /\
  sendClientZoom z false (set_blocked false c1) = set_blocked false c1.
Proof.
  intros Hd Hm Hz. destruct c as [[f ia ub rs q w rl] i v dl dlo lay rc cnt ct mt tm ns].
  unfold may_remember, connected in Hm. cbn in *. subst dl.
  apply andb_true_iff in Hm as [Hm Ho]. apply andb_true_iff in Hm as [Hf Hi]. apply negb_true_iff in Hf. subst f ia.
  apply bool_decide_eq_true in Ho. subst rs. apply String.eqb_neq in Hz.
  unfold sendClientZoom. cbn [docLoaded set_blocked set_sock negb view]. rewrite Hz. cbn [negb orb].
  split_and!; [done|done|]. cbn [docLoaded view set_view set_blocked set_sock send negb clientZoom]. 
  unfold send, sendMessage, accepted, may_remember, connected. cbn. by rewrite String.eqb_refl.
Qed.

Lemma view_lost_when_blocked_witness :
  clientZoom (view (sendClientZoom sample_zoom false (set_blocked true loaded_session))) = zoom_text sample_zoom.
Proof.
  refine (proj1 (proj2 (view_lost_when_blocked sample_zoom false loaded_session _ _ _))); [reflexivity|reflexivity|discriminate].
Defined.

(** "close: recycling" sets up a retry after five to ten seconds, so that not all
    clients come back at once; but when the socket closes after that message was
    handled, [_onSocketClose] forgets it and its timeout connects at once. *)
Theorem recycling_reconnects_at_once geometry ms c :
  docLoadedOnce c = true -> reconnectCount c = 0 -> reconnecting c = false -> documentIdle (idler c) = false ->
  let c1 := on_close_msg (Recycling ms) c in
  let c2 := close_timer geometry (on_close (set_sock (set_ready CLOSED (sock c1)) c1)) in
  readyState (sock c2) = CONNECTING /\ reloads (sock c2) = S (reloads (sock c)).
Proof.
  destruct c as [[f ia ub rs q w rl] [sr di it ot dm] v dl dlo lay rc cnt ct mt tm ns].
  cbn [docLoadedOnce reconnectCount reconnecting documentIdle idler sock readyState]. intros -> -> -> ->.
  destruct lay; vm_compute; repeat split.
Qed.

Lemma recycling_reconnects_at_once_witness :
  readyState (sock (close_timer [] (on_close (set_sock (set_ready CLOSED (sock (on_close_msg (Recycling 7000) loaded_session)))
    (on_close_msg (Recycling 7000) loaded_session))))) = CONNECTING.
Proof. refine (proj1 (recycling_reconnects_at_once [] 7000 loaded_session _ _ _ _)); reflexivity. Defined.
