(* ===== verification/Slurp.v ===== *)
(** * Receiving messages: the slurp queue of [L.Socket]

    Messages from the server are queued as they arrive and handed on in batches
    from a timer; a message whose image still loads holds up those behind it.  The socket
    keeps some messages to itself; the others go to the document layer, which the first
    [status:] message creates, or wait for it.  A [status:] message that comes before the map
    is ready is tried again from a timer.  Models [_slurpMessage], [_extractTextImg],
    [_extractCopyObject], [_queueSlurpEventEmission], [_emitSlurpedEvents], [_delayMessage],
    [_handleDelayedMessages], [_onStatusMsg] and which messages [_onMessage] keeps
    (src/browser/src/core/Socket.js); what the handlers of those do is elsewhere
    ([Permission], [Session]) or left out.  A text is given by its UTF-8 bytes.  A handler of
    the document layer does not call back into the socket. *)

From S2P Require Import Prelude JsText JsObject ServerCmd.
Local Open Scope Z_scope.

(** ** A message and its parts *)

(** The data of a web socket event: text, or the bytes of an array buffer. *)
Inductive ws_data :=
  | DText (s : string)
  | DBytes (bytes : list Z).

Inductive image :=
  | RawImage (rawData : list Z) (isKeyframe : bool)   (** a tile or a delta *)
  | PngSource (bytes : list Z)                         (** a preview: the bytes of its PNG *)
  | PngLoading (bytes : list Z).                       (** an image element that loads *)

Record event := Event {
  ev_textMsg : string;
  ev_imgBytes : option (list Z);
  ev_imgIndex : nat;
  ev_image : option image;
  ev_imageIsComplete : bool;
  ev_binary : bool                  (** [typeof e.data === 'object'] *)
}.

Definition isComplete (e : event) : bool :=
  match ev_image e with Some _ => ev_imageIsComplete e | None => true end.

Definition chars (bytes : list Z) : string := String.string_of_list_ascii (chr <$> bytes).
Definition codes (s : string) : list Z := code <$> String.list_ascii_of_string s.

(** [imgBytes.indexOf (10)] *)
Fixpoint newline_index (bytes : list Z) : option nat :=
  match bytes with
  | [] => None
  | b :: bytes' => if b =? 10 then Some 0%nat else S <$> newline_index bytes'
  end.

(** [_extractCopyObject] *)
Definition extractCopyObject (bytes : list Z) : event :=
  let index := default (length bytes) (newline_index bytes) in
  Event (chars (take index bytes)) (Some bytes) (index + 1) None false true.

(** Text data that carries an image on the platforms without binary frames. *)
Definition text_with_image (s : string) : bool :=
  starts_with s "tile:" || starts_with s "tilecombine:" || starts_with s "delta:" ||
  starts_with s "renderfont:" || starts_with s "rendersearchlist:" || starts_with s "windowpaint:".

(** [window.ThisIsTheiOSApp] and [window.ThisIsTheEmscriptenApp]. *)
Record platform := Platform { isIOS : bool; isEmscripten : bool }.

(** The text and the bytes of a message. *)
Definition extract_text (p : platform) (d : ws_data) : event :=
  match d with
  | DText s =>
      if (isIOS p || isEmscripten p) && (isEmscripten p || text_with_image s) then
        let index := default (String.length s) (newline_index (codes s)) in
        Event (str_take index s) (Some (codes s)) (index + 1) None false false
      else Event s None 0 None false false
  | DBytes bytes => extractCopyObject bytes
  end.

(** [_strFromUint8]: the data in chunks, then what is left of it. *)
Fixpoint str_chunks (fuel : nat) (data : list Z) : list Z :=
  match fuel, data with
  | S fuel', _ :: _ => take 4096 data ++ str_chunks fuel' (drop 4096 data)
  | _, _ => []
  end.

Definition strFromUint8 (prefix data : list Z) : list Z :=
  prefix ++ str_chunks (length data) data.

(** The bytes of the PNG in [_extractImage]; the byte 0x89 is put back in front. *)
Definition png_bytes (bytes : list Z) (imgIndex : nat) : list Z :=
  let data := drop imgIndex bytes in
  let prefix := match data with b :: _ => if b =? 137 then [] else [137] | [] => [137] end in
  strFromUint8 prefix data.

Definition with_image (e : event) (i : image) (complete : bool) : event :=
  Event (ev_textMsg e) (ev_imgBytes e) (ev_imgIndex e) (Some i) complete (ev_binary e).

(** [_extractTextImg]; [None]: an exception, for an image without bytes. *)
Definition extractTextImg (p : platform) (d : ws_data) : option event :=
  let e := extract_text p d in
  let isTile := starts_with (ev_textMsg e) "tile:" in
  let isDelta := starts_with (ev_textMsg e) "delta:" in
  if negb isTile && negb isDelta && negb (starts_with (ev_textMsg e) "renderfont:")
     && negb (starts_with (ev_textMsg e) "windowpaint:") then Some e
  else if includes (ev_textMsg e) " nopng" then Some e
  else
    match ev_imgBytes e with
    | None => None
    | Some bytes =>
        let first := bytes !! ev_imgIndex e in
        if (isTile || isDelta) && negb (bool_decide (first = Some 80)) then
          Some (with_image e (RawImage (drop (ev_imgIndex e) bytes) isTile) true)
        else
          let png := png_bytes bytes (ev_imgIndex e) in
          if isTile then Some (with_image e (PngSource png) true)
          else Some (with_image e (PngLoading png) false)
    end.

(** ** What the socket keeps *)

(** What [_onMessage] sees of the page.  [fails]: the handler of a text raises an error, for
    example because its JSON cannot be parsed. *)
Record socket_env := SocketEnv {
  ready : bool;                     (** [_isReady ()] *)
  indirectSocket : bool;
  wrongServer : bool;               (** another server answered, and not for the third time *)
  mobileApp : bool;
  givesUp : bool;                   (** [ReconnectCount] is ten *)
  limitShown : bool;                (** [WasShownLimitDialog] *)
  errorMessage : string -> string;  (** of a kind of error *)
  fails : string -> bool
}.

Inductive verdict := Consumed | Continues (text : string) | Raises.

Definition storage_errors : list string :=
  ["savediskfull"; "savetoolarge"; "savefailed"; "renamefailed"; "saveunauthorized"; "saveasfailed"; "loadfailed"].

(** The bytes are UTF-8, else [decodeURIComponent] raises. *)
Definition between (a b x : Z) : bool := (a <=? x) && (x <=? b).
Fixpoint valid_utf8 (l : list Z) : bool :=
  match l with
  | [] => true
  | b :: l =>
      if b <? 128 then valid_utf8 l
      else
        match l with
        | [] => false
        | c :: l =>
            if between 194 223 b then between 128 191 c && valid_utf8 l
            else
              match l with
              | [] => false
              | d :: l =>
                  if between 224 239 b then
                    between (if b =? 224 then 160 else 128) (if b =? 237 then 159 else 191) c
                    && between 128 191 d && valid_utf8 l
                  else
                    match l with
                    | [] => false
                    | f :: l =>
                        between 240 244 b
                        && between (if b =? 240 then 144 else 128) (if b =? 244 then 143 else 191) c
                        && between 128 191 d && between 128 191 f && valid_utf8 l
                    end
              end
        end
  end.

(** The last branch: the whole text of a message that carries no image. *)
Definition whole_text (e : event) : verdict :=
  match ev_imgBytes e with
  | None => Continues (ev_textMsg e)
  | Some bytes =>
      if ev_binary e && negb (valid_utf8 bytes) then Raises else Continues (chars bytes)
  end.

(** The branches of [_onMessage], in order; [layer]: there is a document layer. *)
Definition keeps (env : socket_env) (layer : bool) (e : event) : verdict :=
  let t := ev_textMsg e in
  let c := parseServerCmd None t in
  let kind := get_str "errorKind" c in
  let has := starts_with t in
  let cmd x := bool_decide (get_str "errorCmd" c = Some x) in
  let kind_is x := bool_decide (kind = Some x) in
  if has "oxoolserver " then if wrongServer env && indirectSocket env then Consumed else Continues t
  else if has "lokitversion " || has "enabletraceeventlogging " || has "osinfo " || has "clipboardkey: " then Continues t
  else if has "perm:" then Consumed
  else if has "filemode:" then Continues t
  else if has "lockfailed:" || has "wopi: " then Consumed
  else if has "loadstorage: " then Continues t
  else if has "lastmodtime: " || has "commandresult: " then Consumed
  else if has "migrate:" && indirectSocket env then Consumed
  else if has "close: " then Consumed
  else if (has "error:" && (cmd "storage" || cmd "saveas")) || cmd "downloadas" || cmd "exportas" then
    if kind_is "documentconflict" || existsb kind_is storage_errors then Consumed else Continues t
  else if has "error:" && cmd "internal" then Consumed
  else if has "error:" && cmd "load" then
    match kind with
    | None => Raises
    | Some k =>
        if starts_with k "passwordrequired" || starts_with k "wrongpassword" then Consumed
        else if starts_with k "faileddocloading" || starts_with k "docloadtimeout" then Continues t
        else if starts_with k "docunloading" && givesUp env then Consumed else Continues t
    end
  else if has "error:" && cmd "dialogevent" && kind_is "cantchangepass" then Consumed
  else if has "error:" && negb layer then
    Continues (if kind_is "hardlimitreached" || kind_is "serviceunavailable"
               then errorMessage env (default "" kind) else str_drop 6 t)
  else if has "fontsmissing:" then Continues t
  else if has "info:" && cmd "socket" then
    Continues (if kind_is "limitreached" && negb (limitShown env) then errorMessage env "limitreached" else t)
  else if has "saveas:" || has "renamefile:" || has "exportas:" then Continues t
  else if has "warn:" then Continues (str_drop 6 t)
  else if has "statusindicator:" || (mobileApp env && has "mobile:") then Continues t
  else if has "blockui:" || has "unblockui:" || has "featurelock: " || has "restrictedCommands: " || has "blockedcommand: "
  then Consumed
  else if (has "updateroutetoken" && indirectSocket env) || has "reload" then Continues t
  else if negb (has "tile:") && negb (has "delta:") && negb (has "renderfont:") && negb (has "windowpaint:")
  then whole_text e else Continues t.

(** What becomes of an event. *)
Inductive disposition :=
  | Kept
  | Failed
  | IsStatus (text : string)
  | ToLayer (text : string).

Definition dispatch (env : socket_env) (layer : bool) (e : event) : disposition :=
  if fails env (ev_textMsg e) then Failed
  else
    match keeps env layer e with
    | Consumed => Kept
    | Raises => Failed
    | Continues t =>
        if starts_with t "status:" then IsStatus t
        else if starts_with t "statusindicatorstart:" || starts_with t "statusindicatorsetvalue:"
                || starts_with t "statusindicatorfinish:" then Kept
        else ToLayer t
    end.

(** ** The queues *)

(** What the document layer is called with. *)
Inductive delivery :=
  | Plain (text : string) (i : option image)
  | Status (text : string).

(** [slurpTimer]: a timer is set; [docLayer]: the document layer exists; [statusTimers]: the
    status messages to be tried again; [forwarded]: what the document layer received.
    [handled] records what became of each event. *)
Record receiver := Receiver {
  slurpQueue : list event;
  slurpTimer : bool;
  docLayer : bool;
  delayedMessages : list string;
  statusTimers : list string;
  forwarded : list delivery;
  messagesdone : nat;
  handled : list (event * disposition)
}.

Definition set_timer (b : bool) (r : receiver) : receiver :=
  Receiver (slurpQueue r) b (docLayer r) (delayedMessages r) (statusTimers r) (forwarded r) (messagesdone r) (handled r).
Definition set_queue (q : list event) (r : receiver) : receiver :=
  Receiver q (slurpTimer r) (docLayer r) (delayedMessages r) (statusTimers r) (forwarded r) (messagesdone r) (handled r).
Definition set_statusTimers (l : list string) (r : receiver) : receiver :=
  Receiver (slurpQueue r) (slurpTimer r) (docLayer r) (delayedMessages r) l (forwarded r) (messagesdone r) (handled r).

Definition queueSlurpEventEmission (r : receiver) : receiver := set_timer true r.

Definition slurp_event (e : event) (r : receiver) : receiver :=
  let r := if (length (slurpQueue r) =? 0)%nat then queueSlurpEventEmission r else r in
  set_queue (slurpQueue r ++ [e]) r.

(** [_slurpMessage]: an exception of the extraction leaves the timer set. *)
Definition slurpMessage (p : platform) (d : ws_data) (r : receiver) : receiver :=
  match extractTextImg p d with
  | Some e => slurp_event e r
  | None => if (length (slurpQueue r) =? 0)%nat then queueSlurpEventEmission r else r
  end.

Definition delayMessage (text : string) (r : receiver) : receiver :=
  Receiver (slurpQueue r) (slurpTimer r) (docLayer r) (delayedMessages r ++ [text]) (statusTimers r) (forwarded r)
           (messagesdone r) (handled r).

Definition forward (d : delivery) (r : receiver) : receiver :=
  Receiver (slurpQueue r) (slurpTimer r) (docLayer r) (delayedMessages r) (statusTimers r) (forwarded r ++ [d])
           (messagesdone r) (handled r).

(** [_handleDelayedMessages]; without a layer to call each message is lost. *)
Definition handleDelayedMessages (layer : bool) (r : receiver) : receiver :=
  let r := if layer then foldl (fun r m => forward (Plain m None) r) r (delayedMessages r) else r in
  Receiver (slurpQueue r) (slurpTimer r) (docLayer r) [] (statusTimers r) (forwarded r) (messagesdone r) (handled r).

Definition create_layer (r : receiver) : receiver :=
  Receiver (slurpQueue r) (slurpTimer r) true (delayedMessages r) (statusTimers r) (forwarded r) (messagesdone r) (handled r).

(** [_onStatusMsg]: the layer is made by the first one; its local variable [docLayer] is only
    set then. *)
Definition onStatusMsg (env : socket_env) (text : string) (r : receiver) : receiver :=
  if negb (ready env) then set_statusTimers (statusTimers r ++ [text]) r
  else
    let isNew := negb (docLayer r) in
    let r := if isNew then handleDelayedMessages true (create_layer r) else r in
    handleDelayedMessages isNew (forward (Status text) r).

(** [_onMessage] *)
Definition onMessage (env : socket_env) (e : event) (r : receiver) : receiver :=
  let d := dispatch env (docLayer r) e in
  let r := Receiver (slurpQueue r) (slurpTimer r) (docLayer r) (delayedMessages r) (statusTimers r) (forwarded r)
                    (messagesdone r) (handled r ++ [(e, d)]) in
  match d with
  | Kept | Failed => r
  | IsStatus t => onStatusMsg env t r
  | ToLayer t => if docLayer r then forward (Plain t (ev_image e)) r else delayMessage t r
  end.

(** The loop of [_emitSlurpedEvents]: handle events until one is not complete; an exception is
    caught for each.  Returns what stays in the queue; [envs] gives what each event sees. *)
Fixpoint emit_loop (envs : nat -> socket_env) (i : nat) (queue : list event) (r : receiver) :
    list event * receiver :=
  match queue with
  | [] => ([], r)
  | e :: queue' =>
      if isComplete e then emit_loop envs (S i) queue' (onMessage (envs i) e r) else (queue, r)
  end.

Definition emitSlurpedEvents (envs : nat -> socket_env) (r : receiver) : receiver :=
  let '(rest, r) := emit_loop envs 0 (slurpQueue r) r in
  Receiver rest (slurpTimer r) (docLayer r) (delayedMessages r) (statusTimers r) (forwarded r)
           (S (messagesdone r)) (handled r).

(** The timer's callback. *)
Definition timer_fires (envs : nat -> socket_env) (r : receiver) : receiver :=
  emitSlurpedEvents envs (set_timer false r).

(** The timer of a status message. *)
Definition status_retry (env : socket_env) (i : nat) (r : receiver) : receiver :=
  match statusTimers r !! i with
  | None => r
  | Some t => onStatusMsg env t (set_statusTimers (delete i (statusTimers r)) r)
  end.

(** [image.onload] or [image.onerror] of the [i]-th event of the queue. *)
Definition load_image (e : event) : event :=
  Event (ev_textMsg e) (ev_imgBytes e) (ev_imgIndex e) (ev_image e) true (ev_binary e).

Definition image_loaded (i : nat) (r : receiver) : receiver :=
  queueSlurpEventEmission (set_queue (alter load_image i (slurpQueue r)) r).

(** ** Bytes and characters *)

Lemma chars_codes s : chars (codes s) = s.
Proof.
  unfold chars, codes. rewrite <- list_fmap_compose.
  rewrite <- (String.string_of_list_ascii_of_string s) at 2. f_equal.
  rewrite <- (list_fmap_id (String.list_ascii_of_string s)) at 2.
  apply list_fmap_ext. intros i c _. apply chr_code.
Qed.

Lemma length_codes s : length (codes s) = String.length s.
Proof. unfold codes. rewrite length_fmap. induction s; simpl; congruence. Qed.

Lemma code_eqb c n : (code c =? code n) = Ascii.eqb c n.
Proof.
  destruct (Ascii.eqb_spec c n) as [->|Hne]; [apply Z.eqb_refl|]. apply Z.eqb_neq. intros E.
  apply Hne. by rewrite <- (chr_code c), E, chr_code.
Qed.

(** The first newline is where the text ends. *)
Lemma newline_index_codes s rest :
  no_char "010"%char s = true -> newline_index (codes s ++ 10 :: rest) = Some (String.length s).
Proof.
  unfold codes, no_char. induction s as [|c s IH]; csimpl; [done|].
  intros [Hc%negb_true_iff Hs]%andb_true_iff.
  pose proof (code_eqb c "010"%char) as E. change (code "010"%char) with 10 in E.
  by rewrite E, Hc, IH.
Qed.

Lemma strFromUint8_app prefix data : strFromUint8 prefix data = prefix ++ data.
Proof.
  unfold strFromUint8. f_equal.
  assert (H : forall fuel data, (length data <= fuel)%nat -> str_chunks fuel data = data).
  { induction fuel as [|fuel IH]; intros l Hl; [destruct l; simpl in *; [done|lia]|].
    destruct l as [|b l]; [done|]. cbn [str_chunks]. rewrite IH.
    - apply take_drop.
    - rewrite length_drop. simpl in *. lia. }
  by apply H.
Qed.

(** ** Steps *)

Definition new_receiver (layer : bool) : receiver := Receiver [] false layer [] [] [] 0 [].

(** The second component lists the events that have arrived and could be taken apart.  In a
    [steady] run the map is always ready for a status message. *)
Inductive recv_step (steady : bool) : receiver * list (string * option image) ->
    receiver * list (string * option image) -> Prop :=
  | step_slurp p d r l :
      recv_step steady (r, l) (slurpMessage p d r,
        match extractTextImg p d with Some e => l ++ [(ev_textMsg e, ev_image e)] | None => l end)
  | step_timer envs r l :
      slurpTimer r = true -> (steady = true -> forall i, ready (envs i) = true) ->
      recv_step steady (r, l) (timer_fires envs r, l)
  | step_retry env i r l :
      (steady = true -> ready env = true) -> recv_step steady (r, l) (status_retry env i r, l)
  | step_loaded i r l : recv_step steady (r, l) (image_loaded i r, l).

Definition event_pair (e : event) : string * option image := (ev_textMsg e, ev_image e).

(** Of what became of the events: what the layer is to get, without status messages, the status
    messages, and both. *)
Definition plain_of (x : event * disposition) : option (string * option image) :=
  match x.2 with ToLayer t => Some (t, ev_image x.1) | _ => None end.
Definition status_of (x : event * disposition) : option string :=
  match x.2 with IsStatus t => Some t | _ => None end.
Definition text_of (x : event * disposition) : option string :=
  match x.2 with ToLayer t | IsStatus t => Some t | _ => None end.

(** Of what the layer got. *)
Definition got_plain (d : delivery) : option (string * option image) :=
  match d with Plain t i => Some (t, i) | Status _ => None end.
Definition got_status (d : delivery) : option string :=
  match d with Plain _ _ => None | Status t => Some t end.
Definition got_text (d : delivery) : string := match d with Plain t _ | Status t => t end.

(** Events are handled in the order of arrival; what is for the layer is forwarded or delayed in
    that order; no status message is lost. *)
Record fifo (layer steady : bool) (r : receiver) : Prop := {
  ff_plain : (omap got_plain (forwarded r)).*1 ++ delayedMessages r = (omap plain_of (handled r)).*1;
  ff_delayed : docLayer r = true -> delayedMessages r = [];
  ff_none : docLayer r = false -> forwarded r = [];
  ff_images : layer = true -> docLayer r = true /\ omap got_plain (forwarded r) = omap plain_of (handled r);
  ff_status : omap got_status (forwarded r) ++ statusTimers r ≡ₚ omap status_of (handled r);
  ff_steady : steady = true -> statusTimers r = [] /\
    (got_text <$> forwarded r) ++ delayedMessages r = omap text_of (handled r)
}.

(** Someone will look at the queue again: the timer is set or an image loads. *)
Definition will_wake (r : receiver) : Prop :=
  slurpQueue r <> [] ->
  slurpTimer r = true \/ exists e, head (slurpQueue r) = Some e /\ isComplete e = false.

Lemma foldl_forward ms r :
  foldl (fun r m => forward (Plain m None) r) r ms =
    Receiver (slurpQueue r) (slurpTimer r) (docLayer r) (delayedMessages r) (statusTimers r)
             (forwarded r ++ ((fun m => Plain m None) <$> ms)) (messagesdone r) (handled r).
Proof.
  revert r. induction ms as [|m ms IH]; intros r; simpl.
  - rewrite app_nil_r. by destruct r.
  - rewrite IH. simpl. by rewrite <- app_assoc.
Qed.

Lemma got_delayed ms :
  omap got_plain ((fun m => Plain m None) <$> ms) = (fun m => (m, None)) <$> ms /\
  omap got_status ((fun m => Plain m None) <$> ms) = [] /\
  got_text <$> ((fun m => Plain m None) <$> ms) = ms.
Proof. induction ms as [|m ms (H1 & H2 & H3)]; csimpl; [done|]. by rewrite H1, H2, H3. Qed.

(** *** Frames *)

Lemma onStatusMsg_frame env t r :
  slurpQueue (onStatusMsg env t r) = slurpQueue r /\ slurpTimer (onStatusMsg env t r) = slurpTimer r /\
  handled (onStatusMsg env t r) = handled r.
Proof.
  unfold onStatusMsg, handleDelayedMessages. destruct (ready env); cbn [negb]; [|done].
  destruct (docLayer r); cbn [negb]; rewrite ?foldl_forward; done.
Qed.

Lemma onMessage_frame env e r :
  slurpQueue (onMessage env e r) = slurpQueue r /\ slurpTimer (onMessage env e r) = slurpTimer r /\
  handled (onMessage env e r) = handled r ++ [(e, dispatch env (docLayer r) e)].
Proof.
  unfold onMessage. destruct (dispatch env (docLayer r) e); cbn; [done|done| |by destruct (docLayer r)].
  match goal with |- context [onStatusMsg env text ?r0] => destruct (onStatusMsg_frame env text r0) as (-> & -> & ->) end.
  done.
Qed.

(** What the loop handles. *)
Lemma emit_loop_handles envs i queue r :
  exists done ds, queue = done ++ (emit_loop envs i queue r).1 /\
    handled (emit_loop envs i queue r).2 = handled r ++ zip done ds /\ length ds = length done /\
    slurpTimer (emit_loop envs i queue r).2 = slurpTimer r.
Proof.
  revert i r. induction queue as [|e queue IH]; intros i r; cbn [emit_loop].
  { exists [], []. cbn. by rewrite app_nil_r. }
  destruct (isComplete e); [|exists [], []; cbn; by rewrite app_nil_r].
  destruct (IH (S i) (onMessage (envs i) e r)) as (d & ds & Hd & H & Hl & Ht).
  destruct (onMessage_frame (envs i) e r) as (_ & Ht' & Hh).
  exists (e :: d), (dispatch (envs i) (docLayer r) e :: ds). rewrite H, Hh, <- app_assoc.
  split_and!; [cbn; congruence|done|cbn; congruence|congruence].
Qed.

Lemma emit_loop_head envs i queue r :
  (emit_loop envs i queue r).1 = [] \/
  exists e, head (emit_loop envs i queue r).1 = Some e /\ isComplete e = false.
Proof.
  revert i r. induction queue as [|e queue IH]; intros i r; simpl; [by left|].
  destruct (isComplete e) eqn:E; [apply IH|]. right. by exists e.
Qed.

Lemma timer_fires_unfold envs r :
  let x := emit_loop envs 0 (slurpQueue r) (set_timer false r) in
  timer_fires envs r = Receiver x.1 (slurpTimer x.2) (docLayer x.2) (delayedMessages x.2) (statusTimers x.2)
    (forwarded x.2) (S (messagesdone x.2)) (handled x.2).
Proof.
  cbv zeta. unfold timer_fires, emitSlurpedEvents. cbn [slurpQueue set_timer].
  by destruct (emit_loop _ _ _ _).
Qed.

(** *** The layer gets everything in order *)

Section kept.
Context (layer steady : bool).
Abbreviation ok := (fifo layer steady).

(** [fifo] does not depend on the queue. *)
Lemma fifo_frame r r' :
  docLayer r' = docLayer r -> delayedMessages r' = delayedMessages r -> statusTimers r' = statusTimers r ->
  forwarded r' = forwarded r -> handled r' = handled r -> ok r -> ok r'.
Proof. intros E1 E2 E3 E4 E5 [H1 H2 H3 H4 H5 H6]. by split; rewrite ?E1, ?E2, ?E3, ?E4, ?E5. Qed.

(** A status message is taken from those that are handled and not yet tried again. *)
Record owed (t : string) (r : receiver) : Prop := {
  ow_plain : (omap got_plain (forwarded r)).*1 ++ delayedMessages r = (omap plain_of (handled r)).*1;
  ow_delayed : docLayer r = true -> delayedMessages r = [];
  ow_none : docLayer r = false -> forwarded r = [];
  ow_images : layer = true -> docLayer r = true /\ omap got_plain (forwarded r) = omap plain_of (handled r);
  ow_status : omap got_status (forwarded r) ++ statusTimers r ++ [t] ≡ₚ omap status_of (handled r);
  ow_steady : steady = true -> statusTimers r = [] /\
    (got_text <$> forwarded r) ++ delayedMessages r ++ [t] = omap text_of (handled r)
}.

Lemma onStatusMsg_fifo env t r :
  (steady = true -> ready env = true) -> owed t r -> ok (onStatusMsg env t r).
Proof.
  intros Hready [H1 H2 H3 H4 H5 H6]. unfold onStatusMsg, handleDelayedMessages.
  destruct (ready env); cbn [negb].
  - assert (Hs : statusTimers r ++ [t] ≡ₚ t :: statusTimers r) by (symmetry; apply Permutation_cons_append).
    destruct (docLayer r) eqn:El; cbn [negb]; rewrite ?foldl_forward; cbn.
    + rewrite H2 in * by done. split; cbn; rewrite ?omap_app, ?fmap_app; cbn; rewrite ?app_nil_r in *.
      * done.
      * done.
      * congruence.
      * intros Hl. by destruct (H4 Hl).
      * by rewrite <- app_assoc, <- Hs.
      * intros Hst. by destruct (H6 Hst).
    + destruct (got_delayed (delayedMessages r)) as (G1 & G2 & G3).
      rewrite H3 in * by done. cbn in *. split; cbn; rewrite ?omap_app, ?fmap_app, ?G1, ?G2, ?G3; cbn;
        rewrite ?app_nil_r in *.
      * rewrite <- H1, <- list_fmap_compose. clear. induction (delayedMessages r); csimpl; congruence.
      * done.
      * done.
      * intros Hl. by destruct (H4 Hl).
      * by rewrite <- Hs.
      * intros Hst. by destruct (H6 Hst).
  - assert (steady = false) as Hst by (destruct steady; [by discriminate Hready|done]).
    split; cbn; try done. by rewrite Hst.
Qed.

Lemma onMessage_fifo env e r : (steady = true -> ready env = true) -> ok r -> ok (onMessage env e r).
Proof.
  intros Hready [H1 H2 H3 H4 H5 H6]. unfold onMessage.
  destruct (dispatch env (docLayer r) e) as [| |t|t] eqn:Ed; cbn [docLayer].
  - split; cbn; rewrite ?omap_app; cbn; rewrite ?app_nil_r; done.
  - split; cbn; rewrite ?omap_app; cbn; rewrite ?app_nil_r; done.
  - apply onStatusMsg_fifo; [done|]. split; cbn; rewrite ?omap_app; cbn; rewrite ?app_nil_r; [done..| |].
    + by rewrite app_assoc, H5.
    + intros Hst. destruct (H6 Hst) as [-> E]. by rewrite <- E, app_assoc.
  - destruct (docLayer r) eqn:El.
    + rewrite H2 in * by done. split; cbn; rewrite ?omap_app, ?fmap_app; cbn; rewrite ?app_nil_r in *.
      * by rewrite H1.
      * done.
      * congruence.
      * intros Hl. destruct (H4 Hl) as [? E]. split; [done|]. by rewrite E.
      * done.
      * intros Hst. destruct (H6 Hst) as [? E]. split; [done|]. by rewrite <- E.
    + split; cbn; rewrite ?omap_app, ?fmap_app; cbn; rewrite ?app_nil_r.
      * by rewrite <- H1, app_assoc.
      * congruence.
      * done.
      * intros Hl. destruct (H4 Hl). congruence.
      * done.
      * intros Hst. destruct (H6 Hst) as [? E]. split; [done|]. by rewrite <- E, app_assoc.
Qed.

Lemma emit_loop_fifo envs i queue r :
  (steady = true -> forall j, ready (envs j) = true) -> ok r -> ok (emit_loop envs i queue r).2.
Proof.
  intros Hready. revert i r. induction queue as [|e queue IH]; intros i r Hr; cbn [emit_loop]; [done|].
  destruct (isComplete e); [|done]. apply IH. by apply onMessage_fifo; [intros Hst; apply Hready|].
Qed.

Lemma status_retry_fifo env i r :
  (steady = true -> ready env = true) -> ok r -> ok (status_retry env i r).
Proof.
  intros Hready Hr. unfold status_retry. destruct (statusTimers r !! i) as [t|] eqn:Et; [|done].
  apply onStatusMsg_fifo; [done|]. destruct Hr as [H1 H2 H3 H4 H5 H6]. split; cbn; try done.
  - rewrite <- H5. apply Permutation_app_head. rewrite <- Permutation_cons_append.
    symmetry. by apply delete_Permutation.
  - intros Hst. destruct (H6 Hst) as [E _]. by rewrite E in Et.
Qed.

Lemma recv_step_fifo x y : recv_step steady x y -> ok x.1 -> ok y.1.
Proof.
  intros Hs H. destruct Hs as [p d r l|envs r l _ He|env i r l He|i r l]; cbn [fst snd] in *.
  - unfold slurpMessage, slurp_event. destruct (extractTextImg p d); destruct (_ =? _)%nat; by apply (fifo_frame r).
  - rewrite timer_fires_unfold. cbv zeta.
    apply (fifo_frame (emit_loop envs 0 (slurpQueue r) (set_timer false r)).2); [done..|].
    apply emit_loop_fifo; [done|]. by apply (fifo_frame r).
  - by apply status_retry_fifo.
  - by apply (fifo_frame r).
Qed.

Lemma new_receiver_fifo : ok (new_receiver layer).
Proof. by split; destruct layer. Qed.
End kept.

(** *** Every event is handled once *)

Definition arrived (r : receiver) (l : list (string * option image)) : Prop :=
  (event_pair <$> (handled r).*1) ++ (event_pair <$> slurpQueue r) = l.

Lemma fmap_alter_same {A B} (f : A -> B) g i (l : list A) :
  (forall x, f (g x) = f x) -> f <$> alter g i l = f <$> l.
Proof. intros H. revert i. induction l as [|x l IH]; intros [|i]; csimpl; congruence. Qed.

Lemma slurpMessage_fields p d r :
  slurpQueue (slurpMessage p d r) =
    slurpQueue r ++ match extractTextImg p d with Some e => [e] | None => [] end /\
  handled (slurpMessage p d r) = handled r.
Proof.
  unfold slurpMessage, slurp_event. destruct (extractTextImg p d) as [e|]; destruct (_ =? _)%nat; simpl;
    by rewrite ?app_nil_r.
Qed.

Lemma recv_step_arrived steady x y : recv_step steady x y -> arrived x.1 x.2 -> arrived y.1 y.2.
Proof.
  intros Hs H. destruct Hs as [p d r l|envs r l _ _|env i r l _|i r l]; cbn [fst snd] in *; unfold arrived in *.
  - destruct (slurpMessage_fields p d r) as (-> & ->). destruct (extractTextImg p d) as [e|]; [|by rewrite app_nil_r].
    rewrite fmap_app, <- H. by rewrite <- app_assoc.
  - rewrite timer_fires_unfold. cbv zeta.
    destruct (emit_loop_handles envs 0 (slurpQueue r) (set_timer false r)) as (dn & ds & Hq & Hh & Hl & _).
    cbn [handled slurpQueue]. rewrite Hh. rewrite Hq in H at 1. cbn in *. rewrite <- H.
    rewrite !fmap_app, fst_zip by lia. by rewrite <- app_assoc.
  - unfold status_retry. destruct (statusTimers r !! i); [|done].
    destruct (onStatusMsg_frame env s (set_statusTimers (delete i (statusTimers r)) r)) as (-> & _ & ->). done.
  - cbn. by rewrite fmap_alter_same.
Qed.

Lemma recv_step_wakes steady x y : recv_step steady x y -> will_wake x.1 -> will_wake y.1.
Proof.
  intros Hs H. destruct Hs as [p d r l|envs r l _ _|env i r l _|i r l]; cbn [fst snd] in *.
  - unfold will_wake, slurpMessage, slurp_event in *.
    destruct (extractTextImg p d) as [e|]; destruct (slurpQueue r) as [|e0 q] eqn:E; simpl in *;
      rewrite ?E; auto; intros _; by apply H.
  - unfold will_wake. rewrite timer_fires_unfold. cbv zeta. simpl. intros Hne. right.
    by destruct (emit_loop_head envs 0 (slurpQueue r) (set_timer false r)).
  - unfold will_wake, status_retry in *. destruct (statusTimers r !! i); [|done].
    destruct (onStatusMsg_frame env s (set_statusTimers (delete i (statusTimers r)) r)) as (-> & -> & _). exact H.
  - intros _. by left.
Qed.

Lemma recv_reachable steady (P : receiver * list (string * option image) -> Prop) x y :
  (forall x y, recv_step steady x y -> P x -> P y) -> rtc (recv_step steady) x y -> P x -> P y.
Proof. intros Hs. induction 1; eauto. Qed.

(** ** Properties *)

(** C8: Messages reach the document layer in the order they arrived, each exactly once.  Whatever
    the interleaving of arrivals, timers and image loads: every event that could be taken apart is
    handled once, in the order of arrival, or is still queued; those the socket does not keep to
    itself and whose handler raises no error are forwarded or wait for the layer in that order,
    with their images if there was a layer from the start; no status message is lost or doubled,
    and it keeps its place when the map is always ready for it. *)
Theorem slurp_fifo layer steady r l :
  rtc (recv_step steady) (new_receiver layer, []) (r, l) ->
  (event_pair <$> (handled r).*1) ++ (event_pair <$> slurpQueue r) = l /\
  (omap got_plain (forwarded r)).*1 ++ delayedMessages r = (omap plain_of (handled r)).*1 /\
  (layer = true -> omap got_plain (forwarded r) = omap plain_of (handled r)) /\
  omap got_status (forwarded r) ++ statusTimers r ≡ₚ omap status_of (handled r) /\
  (steady = true -> (got_text <$> forwarded r) ++ delayedMessages r = omap text_of (handled r)).
Proof.
  intros Hr. split; [by apply (recv_reachable steady (fun x => arrived x.1 x.2) _ _ (recv_step_arrived steady) Hr)|].
  pose proof (recv_reachable steady (fun x => fifo layer steady x.1) _ _ (recv_step_fifo layer steady) Hr
    (new_receiver_fifo layer steady)) as [H1 H2 H3 H4 H5 H6]. cbn in *.
  split_and!; [done|intros Hl; by apply H4|done|intros Hst; by apply H6].
Qed.

(** C9: A queued message is never forgotten: as long as the queue is not empty a
    timer is set or the image of its first message is still loading, and once the
    images are there the timer empties the queue. *)
Theorem slurp_no_lost_wakeup layer steady r l :
  rtc (recv_step steady) (new_receiver layer, []) (r, l) ->
  (slurpQueue r <> [] ->
   slurpTimer r = true \/ exists e, head (slurpQueue r) = Some e /\ isComplete e = false) /\
  (forall envs, Forall (fun e => isComplete e = true) (slurpQueue r) -> slurpQueue (timer_fires envs r) = []).
Proof.
  intros Hr. split.
  - apply (recv_reachable steady (fun x => will_wake x.1) _ _ (recv_step_wakes steady) Hr). by intros [].
  - clear Hr l. intros envs. rewrite timer_fires_unfold. cbv zeta. simpl.
    generalize (set_timer false r) as r0, 0%nat as i.
    induction (slurpQueue r) as [|e q IH]; intros r0 i Hall; [done|].
    apply Forall_cons in Hall as [He Hq]. cbn [emit_loop]. rewrite He. by apply IH.
Qed.

(** A binary tile or delta frame is taken apart where the server put it together:
    the text before the newline, the payload after it, marked as a keyframe exactly
    for tiles, and it is complete at once, so it never holds up the queue. *)
Theorem tile_frame_extracted p text payload :
  no_char "010"%char text = true ->
  starts_with text "tile:" || starts_with text "delta:" = true ->
  includes text " nopng" = false -> head payload <> Some 80 ->
  exists e, extractTextImg p (DBytes (codes text ++ 10 :: payload)) = Some e /\
    ev_textMsg e = text /\ ev_image e = Some (RawImage payload (starts_with text "tile:")) /\
    isComplete e = true.
Proof.
  intros Hnl Htd Hpng Hhd. unfold extractTextImg, extract_text, extractCopyObject.
  rewrite newline_index_codes by done. cbn [default ev_textMsg ev_imgBytes ev_imgIndex].
  unfold id.
  replace (take (String.length text) (codes text ++ 10 :: payload)) with (codes text)
    by (rewrite <- length_codes, take_app_length; done).
  rewrite chars_codes, Hpng.
  replace (negb (starts_with text "tile:") && negb (starts_with text "delta:")) with false
    by (rewrite <- negb_orb, Htd; done).
  rewrite Htd. simpl.
  assert (Hdrop : drop (String.length text + 1) (codes text ++ 10 :: payload) = payload).
  { rewrite <- length_codes, drop_app_add. done. }
  assert (Hfirst : (codes text ++ 10 :: payload) !! (String.length text + 1)%nat = head payload).
  { rewrite <- Hdrop at 2. rewrite head_lookup, lookup_drop. f_equal. lia. }
  rewrite Hfirst, bool_decide_eq_false_2 by done. simpl. rewrite Hdrop. eexists. split; [done|].
  by split_and!.
Qed.

(** ** Examples and witnesses *)

Definition plain_env (b : bool) : socket_env := SocketEnv b false false false false false id (fun _ => false).

(** The image of the second message loads: it and those behind it wait for it; the permission is
    kept by the socket. *)
Definition sample_messages : list ws_data :=
  [DText "perm: edit"; DText "status: type=text"; DBytes (codes "tile: x" ++ [10; 40; 181]);
   DBytes (codes "windowpaint: id=1" ++ [10; 80; 78]); DText "statechanged: .uno:Bold=true"].

Definition sample_receiver : receiver :=
  timer_fires (fun _ => plain_env true)
    (foldl (fun r d => slurpMessage (Platform false false) d r) (new_receiver false) sample_messages).

Definition sample_arrived : list (string * option image) :=
  [("perm: edit", None); ("status: type=text", None); ("tile: x", Some (RawImage [40; 181] true));
   ("windowpaint: id=1", Some (PngLoading [137; 80; 78])); ("statechanged: .uno:Bold=true", None)].

Example sample_events_wait :
  forwarded sample_receiver = [Status "status: type=text"; Plain "tile: x" (Some (RawImage [40; 181] true))] /\
  length (slurpQueue sample_receiver) = 2%nat.
Proof. by vm_compute. Qed.

(** A status message that finds the map not ready comes after the messages behind it. *)
Example status_overtaken :
  let r := foldl (fun r d => slurpMessage (Platform false false) d r) (new_receiver false)
             [DText "status: type=text"; DText "invalidatetiles: EMPTY"] in
  forwarded (status_retry (plain_env true) 0 (timer_fires (fun _ => plain_env false) r)) =
    [Plain "invalidatetiles: EMPTY" None; Status "status: type=text"].
Proof. by vm_compute. Qed.

Lemma slurps_reach steady p ds r l :
  rtc (recv_step steady) (r, l)
    (foldl (fun r d => slurpMessage p d r) r ds,
     foldl (fun l d => match extractTextImg p d with
                       | Some e => l ++ [(ev_textMsg e, ev_image e)]
                       | None => l
                       end) l ds).
Proof.
  revert r l. induction ds as [|d ds IH]; intros r l; [apply rtc_refl|].
  eapply rtc_l; [apply (step_slurp steady p d)|]. apply IH.
Qed.

Lemma sample_events_reachable :
  rtc (recv_step true) (new_receiver false, []) (sample_receiver, sample_arrived).
Proof.
  eapply rtc_r; [apply (slurps_reach true (Platform false false) sample_messages)|].
  apply (step_timer true (fun _ => plain_env true)); [by vm_compute|done].
Qed.

Lemma slurp_fifo_witness :
  (event_pair <$> (handled sample_receiver).*1) ++ (event_pair <$> slurpQueue sample_receiver) = sample_arrived.
Proof. apply (slurp_fifo false true sample_receiver sample_arrived sample_events_reachable). Defined.

Lemma slurp_no_lost_wakeup_witness :
  slurpTimer sample_receiver = true \/
  exists e, head (slurpQueue sample_receiver) = Some e /\ isComplete e = false.
Proof.
  apply (slurp_no_lost_wakeup false true sample_receiver sample_arrived sample_events_reachable). by vm_compute.
Defined.

Lemma tile_frame_extracted_witness :
  exists e, extractTextImg (Platform false false) (DBytes (codes "delta: wid=3" ++ [10; 40; 181])) = Some e /\
    ev_textMsg e = "delta: wid=3" /\ ev_image e = Some (RawImage [40; 181] false) /\ isComplete e = true.
Proof. apply (tile_frame_extracted _ "delta: wid=3"); by vm_compute. Defined.
