(* ===== verification/ProxySocket.v ===== *)
(** * [ProxySocket]: a web socket over HTTP requests

    Where web sockets are not available the client posts its messages and polls
    for those of the server.  Models [global.ProxySocket] of
    src/browser/js/global.js: the framing of messages in both directions, the
    polling with its throttle, and the life of the socket.  Times are whole
    milliseconds.  [decode] is [TextDecoder.decode], [encode] is
    [TextEncoder.encode]; the server's framing is that of
    src/wsd/ProxyProtocol.hpp. *)

From Stdlib Require Import Floats.SpecFloat.
From S2P Require Import Prelude JsText Slurp.
Local Open Scope Z_scope.

(** ** Reading a response: [parseIncomingArray] *)

(** [arr[i]], [None] for [undefined]. *)
Definition byte_at (arr : list Z) (i : Z) : num :=
  if i <? 0 then None else arr !! Z.to_nat i.

(** The guard [arr[i] !== 48 && arr[i+1] !== 120] does not stop the parse. *)
Definition preamble_passes (arr : list Z) (i : Z) : bool :=
  negb (negb (bool_decide (byte_at arr i = Some 48)) &&
        negb (bool_decide (byte_at arr (i + 1) = Some 120))).

(** [while (arr[i] != 10) i++]; [None]: the loop runs past the end, forever. *)
Definition line_end (arr : list Z) (i : Z) : option Z :=
  (fun n => Z.of_nat (Z.to_nat i + n)) <$> newline_index (drop (Z.to_nat i) arr).

(** [bytes.slice (start, end)] of a typed array; [NaN] counts as 0. *)
Definition relative_index (len : Z) (i : num) : Z :=
  match i with
  | Some i => if i <? 0 then Z.max (len + i) 0 else Z.min i len
  | None => 0
  end.

Definition doSlice (arr : list Z) (start stop : num) : list Z :=
  let len := Z.of_nat (length arr) in
  let b := relative_index len start in
  let e := relative_index len stop in
  take (Z.to_nat (e - b)) (drop (Z.to_nat b) arr).

Inductive frame :=
  | FStop                                          (** [break] *)
  | FHang                                          (** a loop that never ends *)
  | FNext (serial : num) (data : ws_data) (i : num). (** a message; [i] after [i += size] *)

(** What a parse did: the serial last seen, the messages, and how it ended. *)
Inductive ending := Ended | Hangs | OutOfFuel.

Record parsed := Parsed { p_inSerial : num; p_messages : list ws_data; p_ending : ending }.

Section parse.
Context (decode : list Z -> string).

Definition parse_frame (arr : list Z) (i : Z) : frame :=
  if Z.of_nat (length arr) - i <? 4 then FStop
  else
    match byte_at arr i with
    | None => FStop
    | Some t =>
        if negb (t =? 84) && negb (t =? 66) then FStop
        else if negb (preamble_passes arr (i + 1)) then FStop
        else
          match line_end arr (i + 3) with
          | None => FHang
          | Some j =>
              let serial := parse_int 16 (decode (doSlice arr (Some (i + 3)) (Some j))) in
              if negb (preamble_passes arr (j + 1)) then FStop
              else
                match line_end arr (j + 3) with
                | None => FHang
                | Some k =>
                    let size := parse_int 16 (decode (doSlice arr (Some (j + 3)) (Some k))) in
                    let data := doSlice arr (Some (k + 1)) (num_add (Some (k + 1)) size) in
                    FNext serial (if t =? 84 then DText (decode data) else DBytes data)
                          (num_add (Some (k + 1)) size)
                end
          end
    end.

Fixpoint parse_loop (fuel : nat) (arr : list Z) (i : Z) (inSerial : num) (got : list ws_data)
    : parsed :=
  match fuel with
  | O => Parsed inSerial got OutOfFuel
  | S fuel' =>
      if i <? Z.of_nat (length arr) then
        match parse_frame arr i with
        | FStop => Parsed inSerial got Ended
        | FHang => Parsed inSerial got Hangs
        | FNext serial data (Some j) => parse_loop fuel' arr (j + 1) serial (got ++ [data])
        | FNext serial data None => Parsed serial (got ++ [data]) Ended
        end
      else Parsed inSerial got Ended
  end.

Definition parseIncomingArray (arr : list Z) (inSerial : num) : parsed :=
  parse_loop (S (length arr)) arr 0 inSerial [].
End parse.

(** ** Framing *)

(** [s] framed by either side, of type ['T'] or ['B']. *)
Definition header (type : Z) (serial len : Z) : list Z :=
  type :: codes ("0x" +:+ to_string_radix 16 serial) ++
  10 :: codes ("0x" +:+ to_string_radix 16 len) ++ [10].

(** [ProxyProtocolHandler::Message]: a message of the server. *)
Record message := Message { msg_text : bool; msg_serial : Z; msg_bytes : list Z }.

Definition server_frame (m : message) : list Z :=
  header (if msg_text m then 84 else 66) (msg_serial m) (Z.of_nat (length (msg_bytes m)))
    ++ msg_bytes m ++ [10].

(** ** Reading what was framed *)

Section index_lemmas.
Context (pre : list Z).
Local Abbreviation off := (Z.of_nat (length pre)).

Lemma byte_at_app l : byte_at (pre ++ l) off = head l.
Proof.
  unfold byte_at. destruct (Z.ltb_spec off 0); [lia|]. rewrite Nat2Z.id, lookup_app_r by done.
  rewrite Nat.sub_diag. by destruct l.
Qed.

Lemma byte_at_app_S x l : byte_at (pre ++ x :: l) (off + 1) = head l.
Proof.
  replace (pre ++ x :: l) with ((pre ++ [x]) ++ l) by by rewrite <- (assoc_L (++)).
  replace (off + 1) with (Z.of_nat (length (pre ++ [x]))) by (rewrite length_app; simpl; lia).
  unfold byte_at. destruct (Z.ltb_spec (Z.of_nat (length (pre ++ [x]))) 0); [lia|].
  rewrite Nat2Z.id, lookup_app_r by done. rewrite Nat.sub_diag. by destruct l.
Qed.

Lemma preamble_passes_hex l : preamble_passes (pre ++ 48 :: l) off = true.
Proof. unfold preamble_passes. rewrite byte_at_app. by rewrite bool_decide_eq_true_2. Qed.

Lemma line_end_app l :
  line_end (pre ++ l) off = (fun n => off + Z.of_nat n) <$> newline_index l.
Proof.
  unfold line_end. rewrite Nat2Z.id, drop_app_length.
  destruct (newline_index l); simpl; [f_equal; lia|done].
Qed.

Lemma doSlice_app l post :
  doSlice (pre ++ l ++ post) (Some off) (Some (off + Z.of_nat (length l))) = l.
Proof.
  unfold doSlice, relative_index. rewrite !length_app.
  destruct (Z.ltb_spec off 0); [lia|].
  destruct (Z.ltb_spec (off + Z.of_nat (length l)) 0); [lia|].
  rewrite !Z.min_l by lia. rewrite Nat2Z.id, drop_app_length.
  replace (Z.to_nat _) with (length l) by lia. by rewrite take_app_length.
Qed.
End index_lemmas.

(** The text of a hexadecimal number: no newline, and plain ASCII. *)
Lemma hex_no_newline n : 0 <= n -> no_char "010"%char (to_string_radix 16 n) = true.
Proof.
  intros Hn. apply hex_chars; [done|]. intros d Hd. apply negb_true_iff, Ascii.eqb_neq. intros E.
  apply (f_equal code) in E. rewrite code_digit_char in E by lia. change (code "010") with 10 in E.
  revert E. case_bool; lia.
Qed.

Definition is_ascii (c : ascii) : bool := code c <? 128.

Lemma hex_is_ascii n : 0 <= n -> str_forall is_ascii (to_string_radix 16 n) = true.
Proof.
  intros Hn. apply hex_chars; [done|]. intros d Hd. unfold is_ascii. rewrite code_digit_char by lia.
  case_bool; lia.
Qed.

(** A frame whose two numbers are written in hexadecimal. *)
Lemma header_unfold type serial len l :
  header type serial len ++ l =
  type :: 48 :: 120 :: codes (to_string_radix 16 serial) ++
    10 :: 48 :: 120 :: codes (to_string_radix 16 len) ++ 10 :: l.
Proof.
  unfold header. simpl. f_equal. f_equal. f_equal. rewrite <- (assoc_L (++)). simpl. f_equal. f_equal.
  f_equal. f_equal. by rewrite <- (assoc_L (++)).
Qed.

Section parse_proofs.
Context (decode : list Z -> string).
Context (decode_ascii : forall s, str_forall is_ascii s = true -> decode (codes s) = s).
Local Abbreviation off pre := (Z.of_nat (length pre)).

(** A hexadecimal number of a frame: where it ends and its value. *)
Lemma number_field p n tail arr :
  0 <= n -> arr = p ++ 48 :: 120 :: codes (to_string_radix 16 n) ++ 10 :: tail ->
  let e := off p + 2 + Z.of_nat (length (codes (to_string_radix 16 n))) in
  preamble_passes arr (off p) = true /\ line_end arr (off p + 2) = Some e /\
  parse_int 16 (decode (doSlice arr (Some (off p + 2)) (Some e))) = Some n.
Proof using decode_ascii.
  intros Hn E e. split_and!.
  - rewrite E. apply preamble_passes_hex.
  - assert (E2 : arr = (p ++ [48; 120]) ++ codes (to_string_radix 16 n) ++ 10 :: tail)
      by (rewrite E; by rewrite <- (assoc_L (++))).
    replace (off p + 2) with (off (p ++ [48; 120])) by (rewrite length_app; simpl; lia).
    rewrite E2, line_end_app, newline_index_codes by by apply hex_no_newline.
    simpl. f_equal. subst e. rewrite length_codes, length_app. simpl. lia.
  - assert (E2 : arr = (p ++ [48; 120]) ++ codes (to_string_radix 16 n) ++ 10 :: tail)
      by (rewrite E; by rewrite <- (assoc_L (++))).
    subst e. replace (off p + 2) with (off (p ++ [48; 120])) by (rewrite length_app; simpl; lia).
    rewrite E2, doSlice_app, decode_ascii by by apply hex_is_ascii. by apply parse_int_hex.
Qed.

(** One frame of the server, wherever it stands. *)
Lemma parse_frame_header pre type serial data rest :
  (type = 84 \/ type = 66) -> 0 <= serial ->
  parse_frame decode (pre ++ header type serial (off data) ++ data ++ 10 :: rest) (off pre)
  = FNext (Some serial) (if type =? 84 then DText (decode data) else DBytes data)
          (Some (off (pre ++ header type serial (off data) ++ data))).
Proof using decode_ascii.
  intros Htype Hserial. rewrite header_unfold. unfold parse_frame.
  set (hs := codes (to_string_radix 16 serial)). set (hl := codes (to_string_radix 16 (off data))).
  remember (pre ++ type :: _) as arr eqn:E.
  assert (Hlen : 4 <= Z.of_nat (length arr) - off pre).
  { subst arr. rewrite !length_app. simpl. rewrite !length_app. simpl. lia. }
  destruct (Z.ltb_spec (Z.of_nat (length arr) - off pre) 4); [lia|].
  assert (Ht : byte_at arr (off pre) = Some type) by (rewrite E; apply byte_at_app). rewrite Ht.
  replace (negb (type =? 84) && negb (type =? 66)) with false by (destruct Htype as [-> | ->]; done).
  destruct (number_field (pre ++ [type]) serial (48 :: 120 :: hl ++ 10 :: data ++ 10 :: rest) arr)
    as (P1 & L1 & N1); [done|by rewrite E, <- (assoc_L (++))|].
  set (p3 := pre ++ [type] ++ 48 :: 120 :: hs ++ [10]).
  destruct (number_field p3 (off data) (data ++ 10 :: rest) arr) as (P2 & L2 & N2);
    [lia|subst p3; rewrite E; simpl; rewrite <- !(assoc_L (++)); simpl; by rewrite <- !(assoc_L (++))|].
  set (p5 := p3 ++ 48 :: 120 :: hl ++ [10]).
  assert (E5 : arr = p5 ++ data ++ 10 :: rest).
  { subst p5 p3. rewrite E. repeat (rewrite <- (assoc_L (++)) || simpl). done. }
  fold hs in L1, N1. fold hl in L2, N2.
  assert (O1 : off (pre ++ [type]) = off pre + 1) by (rewrite length_app; simpl; lia).
  rewrite O1 in *. replace (off pre + 3) with (off pre + 1 + 2) by lia. rewrite P1, L1, N1. cbn [negb].
  assert (O3 : off pre + 1 + 2 + Z.of_nat (length hs) + 1 = off p3).
  { subst p3. repeat (rewrite length_app || simpl length). lia. }
  rewrite O3. replace (off pre + 1 + 2 + Z.of_nat (length hs) + 3) with (off p3 + 2) by lia.
  rewrite P2, L2, N2. cbn [negb num_add].
  assert (O5 : off p3 + 2 + Z.of_nat (length hl) + 1 = off p5).
  { subst p5. repeat (rewrite length_app || simpl length). lia. }
  rewrite O5. rewrite E5, doSlice_app. f_equal. f_equal.
  subst p5 p3. rewrite header_unfold. fold hs hl. repeat (rewrite length_app || simpl length). lia.
Qed.

(** ** A whole response *)

Definition event_data (m : message) : ws_data :=
  if msg_text m then DText (decode (msg_bytes m)) else DBytes (msg_bytes m).

Lemma header_length type serial len : (4 <= length (header type serial len))%nat.
Proof. unfold header. repeat (rewrite length_app || simpl length). lia. Qed.

Lemma server_frame_length m : (4 <= length (server_frame m))%nat.
Proof.
  unfold server_frame. rewrite length_app.
  pose proof (header_length (if msg_text m then 84 else 66) (msg_serial m) (off (msg_bytes m))). lia.
Qed.

Lemma frames_length ms : (4 * length ms <= length (concat (server_frame <$> ms)))%nat.
Proof.
  induction ms as [|m ms IH]; [done|]. rewrite fmap_cons. cbn [concat length].
  rewrite length_app. pose proof (server_frame_length m). lia.
Qed.

(** The serial left in [inSerial] by the messages. *)
Definition last_serial (ms : list message) (inSerial : num) : num :=
  foldl (fun _ m => Some (msg_serial m)) inSerial ms.

Lemma parse_loop_frames ms fuel pre tail inSerial got :
  Forall (fun m => 0 <= msg_serial m) ms ->
  let arr := pre ++ concat (server_frame <$> ms) ++ tail in
  parse_loop decode (length ms + fuel) arr (off pre) inSerial got
  = parse_loop decode fuel arr (off (pre ++ concat (server_frame <$> ms)))
      (last_serial ms inSerial) (got ++ (event_data <$> ms)).
Proof using decode_ascii.
  intros Hms. revert pre inSerial got. induction Hms as [|m ms Hm _ IH]; intros pre inSerial got arr.
  - simpl. by rewrite !app_nil_r.
  - subst arr. rewrite fmap_cons. cbn [concat length parse_loop Nat.add].
    rewrite <- (assoc_L (++)). set (rest := concat (server_frame <$> ms) ++ tail) in *.
    assert (Hfr : server_frame m ++ rest =
      header (if msg_text m then 84 else 66) (msg_serial m) (off (msg_bytes m)) ++ msg_bytes m ++ 10 :: rest).
    { unfold server_frame. by rewrite <- !(assoc_L (++)). }
    pose proof (server_frame_length m).
    destruct (Z.ltb_spec (off pre) (Z.of_nat (length (pre ++ server_frame m ++ rest))));
      [|rewrite !length_app in *; lia].
    rewrite Hfr. rewrite parse_frame_header by (done || destruct (msg_text m); auto). rewrite <- Hfr.
    replace (off (pre ++ header _ _ _ ++ msg_bytes m) + 1) with (off (pre ++ server_frame m))
      by (unfold server_frame; rewrite !length_app; simpl (length [10]); lia).
    rewrite !(assoc_L (++)). subst rest. rewrite (assoc_L (++)). specialize (IH (pre ++ server_frame m)).
    rewrite <- !(assoc_L (++)) in *. rewrite IH. rewrite fmap_cons, <- (assoc_L (++) got).
    by replace (if (if msg_text m then 84 else 66) =? 84 then _ else _) with (event_data m)
      by (unfold event_data; by destruct (msg_text m)).
Qed.

(** C11: A response of the server: whatever messages it holds, the client hands on
    exactly them, in order, and the parse ends. *)
Theorem parse_server_frames ms inSerial :
  Forall (fun m => 0 <= msg_serial m) ms ->
  parseIncomingArray decode (concat (server_frame <$> ms)) inSerial
  = Parsed (last_serial ms inSerial) (event_data <$> ms) Ended.
Proof using decode_ascii.
  intros Hms. unfold parseIncomingArray. pose proof (frames_length ms).
  replace (S _) with (length ms + S (length (concat (server_frame <$> ms)) - length ms))%nat by lia.
  pose proof (parse_loop_frames ms (S (length (concat (server_frame <$> ms)) - length ms)) [] []
                inSerial [] Hms) as E.
  rewrite !app_nil_r, !app_nil_l in E. change (off []) with 0 in E. rewrite E. cbn [parse_loop].
  by rewrite Z.ltb_irrefl.
Qed.

Lemma line_end_none arr i : (forall j, drop i arr !! j <> Some 10) -> line_end arr (Z.of_nat i) = None.
Proof.
  intros H. unfold line_end. rewrite Nat2Z.id.
  assert (newline_index (drop i arr) = None) as ->; [|done].
  revert H. generalize (drop i arr) as l. induction l as [|b l IH]; intros H; simpl; [done|].
  destruct (Z.eqb_spec b 10) as [->|]; [by destruct (H O)|]. rewrite IH; [done|].
  intros j. apply (H (S j)).
Qed.

(** A response that was cut inside the line of a serial: the client hands on the
    complete messages in front, and the parse then never ends. *)
Theorem parse_truncated_hangs ms type digits inSerial :
  Forall (fun m => 0 <= msg_serial m) ms ->
  type = 84 \/ type = 66 -> digits <> [] -> 10 ∉ digits ->
  parseIncomingArray decode (concat (server_frame <$> ms) ++ type :: 48 :: 120 :: digits) inSerial
  = Parsed (last_serial ms inSerial) (event_data <$> ms) Hangs.
Proof using decode_ascii.
  intros Hms Htype Hne H10. unfold parseIncomingArray. pose proof (frames_length ms).
  set (tail := type :: _). set (arr := concat _ ++ tail).
  assert (Hl : (4 <= length tail)%nat) by (subst tail; destruct digits; simpl; [done|lia]).
  assert (Hla : length arr = (length (concat (server_frame <$> ms)) + length tail)%nat)
    by (subst arr; by rewrite length_app).
  replace (S _) with (length ms + S (length arr - length ms))%nat by lia.
  pose proof (parse_loop_frames ms (S (length arr - length ms)) [] tail inSerial [] Hms) as E.
  rewrite !app_nil_l in E. fold arr in E. change (off []) with 0 in E. rewrite E. clear E. cbn [parse_loop].
  set (p := concat (server_frame <$> ms)) in *.
  destruct (Z.ltb_spec (off p) (off arr)); [|lia].
  unfold parse_frame. destruct (Z.ltb_spec (off arr - off p) 4); [lia|].
  assert (byte_at arr (off p) = Some type) as -> by apply byte_at_app.
  replace (negb (type =? 84) && negb (type =? 66)) with false by (destruct Htype as [-> | ->]; done).
  assert (Ht : off (p ++ [type]) = off p + 1) by (rewrite length_app; simpl; lia).
  pose proof (preamble_passes_hex (p ++ [type]) (120 :: digits)) as Hp. rewrite Ht, <- (assoc_L (++)) in Hp.
  assert (preamble_passes arr (off p + 1) = true) as -> by apply Hp.
  replace (off p + 3) with (Z.of_nat (length p + 3)) by lia.
  rewrite line_end_none; [done|]. intros j Hj. apply H10.
  rewrite <- drop_drop in Hj. subst arr. rewrite drop_app_length in Hj. subst tail.
  by apply list_elem_of_lookup_2 in Hj.
Qed.
End parse_proofs.

(** ** The state of a socket *)

(** [Math.min (this.maxPollMs, this.curPollMs * this.throttleFactor) | 0]: the
    product is that of doubles, 1.15 being the double nearest to it. *)
Definition minPollMs : Z := 25.
Definition maxPollMs : Z := 500.
Definition minIdlePollsToThrottle : Z := 3.

Definition double_of (z : Z) : spec_float := binary_normalize 53 1024 z 0 false.
Definition throttleFactor : spec_float := S754_finite false 5179139571476070 (-52).

Definition trunc (x : spec_float) : Z :=
  match x with
  | S754_finite s m e =>
      let v := if e <? 0 then Z.pos m / 2 ^ (- e) else Z.pos m * 2 ^ e in
      if s then - v else v
  | _ => 0
  end.

Definition throttle (cur : Z) : Z :=
  Z.min maxPollMs (trunc (SFmul 53 1024 (double_of cur) throttleFactor)).

(** Requests posted, and calls of the socket's handlers. *)
Inductive request :=
  | RequestOpen (url : string)
  | RequestWrite (url : string) (body : string)
  | RequestClose (url : string) (beacon : bool).

Inductive callback := OnOpen | OnMessage (d : ws_data) | OnClose | OnError.

Record connection := Connection {
  readyState : Z;              (** 0 connecting, 1 open, 3 closed *)
  sessionId : string;          (** ['open'] while there is no session *)
  msgInflight : Z;
  openInflight : Z;
  inSerial : num;
  outSerial : Z;
  sendQueue : string
}.

(** [pollTimer]: the interval that runs; [delayTimer]: the timeout of
    [delaySession] runs. *)
Record polling := Polling {
  curPollMs : Z;
  pollTimer : option Z;
  delaySession : bool;
  delayTimer : bool;
  lastDataTimestamp : Z
}.

(** [lastCreatedProxySocket] is a global variable; the requests, the calls and
    the number of runs of [_signalErrorClose] record what happened. *)
Record outside := Outside {
  lastCreatedProxySocket : option Z;
  requests : list request;
  calls : list callback;
  resets : nat
}.

Record proxy := Proxy {
  uri : string;
  unloading : bool;
  conn : connection;
  poll : polling;
  out : outside
}.

Definition with_conn (f : connection -> connection) (s : proxy) : proxy :=
  Proxy (uri s) (unloading s) (f (conn s)) (poll s) (out s).
Definition with_poll (f : polling -> polling) (s : proxy) : proxy :=
  Proxy (uri s) (unloading s) (conn s) (f (poll s)) (out s).
Definition with_out (f : outside -> outside) (s : proxy) : proxy :=
  Proxy (uri s) (unloading s) (conn s) (poll s) (f (out s)).

Definition set_readyState (r : Z) : proxy -> proxy :=
  with_conn (fun c => Connection r (sessionId c) (msgInflight c) (openInflight c) (inSerial c)
                        (outSerial c) (sendQueue c)).
Definition set_sessionId (i : string) : proxy -> proxy :=
  with_conn (fun c => Connection (readyState c) i (msgInflight c) (openInflight c) (inSerial c)
                        (outSerial c) (sendQueue c)).
Definition add_msgInflight (d : Z) : proxy -> proxy :=
  with_conn (fun c => Connection (readyState c) (sessionId c) (msgInflight c + d) (openInflight c)
                        (inSerial c) (outSerial c) (sendQueue c)).
Definition add_openInflight (d : Z) : proxy -> proxy :=
  with_conn (fun c => Connection (readyState c) (sessionId c) (msgInflight c) (openInflight c + d)
                        (inSerial c) (outSerial c) (sendQueue c)).
Definition set_inSerial (n : num) : proxy -> proxy :=
  with_conn (fun c => Connection (readyState c) (sessionId c) (msgInflight c) (openInflight c) n
                        (outSerial c) (sendQueue c)).
Definition set_out (n : Z) (q : string) : proxy -> proxy :=
  with_conn (fun c => Connection (readyState c) (sessionId c) (msgInflight c) (openInflight c)
                        (inSerial c) n q).
Definition set_curPollMs (n : Z) : proxy -> proxy :=
  with_poll (fun p => Polling n (pollTimer p) (delaySession p) (delayTimer p) (lastDataTimestamp p)).
Definition set_pollTimer (t : option Z) : proxy -> proxy :=
  with_poll (fun p => Polling (curPollMs p) t (delaySession p) (delayTimer p) (lastDataTimestamp p)).
Definition set_delay (v t : bool) : proxy -> proxy :=
  with_poll (fun p => Polling (curPollMs p) (pollTimer p) v t (lastDataTimestamp p)).
Definition set_lastData (n : Z) : proxy -> proxy :=
  with_poll (fun p => Polling (curPollMs p) (pollTimer p) (delaySession p) (delayTimer p) n).
Definition set_lastCreated (n : Z) : proxy -> proxy :=
  with_out (fun o => Outside (Some n) (requests o) (calls o) (resets o)).
Definition post (r : request) : proxy -> proxy :=
  with_out (fun o => Outside (lastCreatedProxySocket o) (requests o ++ [r]) (calls o) (resets o)).
Definition call (l : list callback) : proxy -> proxy :=
  with_out (fun o => Outside (lastCreatedProxySocket o) (requests o) (calls o ++ l) (resets o)).
Definition count_reset : proxy -> proxy :=
  with_out (fun o => Outside (lastCreatedProxySocket o) (requests o) (calls o) (S (resets o))).

(** ** The operations *)

Definition getEndPoint (command : string) (s : proxy) : string :=
  uri s +:+ "/" +:+ sessionId (conn s) +:+ "/" +:+ command +:+ "/" +:+ num_to_string (outSerial (conn s)).

Definition setPollInterval (ms : Z) (s : proxy) : proxy :=
  set_pollTimer (if readyState (conn s) =? 1 then Some ms else None) s.

Definition signalErrorClose (s : proxy) : proxy :=
  let s := set_delay false false (set_pollTimer None s) in
  let s := if readyState (conn s) <? 3 then call [OnError; OnClose] s else s in
  count_reset (with_conn (fun c => Connection 3 "open" 0 0 (Some 0) 0 (sendQueue c)) s).

(** [doSend]: the callback of the poll timer, at time [now]. *)
Definition doSend (now : Z) (s : proxy) : proxy :=
  if String.eqb (sessionId (conn s)) "open" then s
  else if 4 <=? msgInflight (conn s) then
    if curPollMs (poll s) <? maxPollMs then
      let s := set_curPollMs (throttle (curPollMs (poll s))) s in
      setPollInterval (curPollMs (poll s)) s
    else if 30 * 1000 <? now - lastDataTimestamp (poll s) then signalErrorClose s
    else s
  else
    let s := setPollInterval maxPollMs s in
    let s := post (RequestWrite (getEndPoint "write" s) (sendQueue (conn s))) s in
    add_msgInflight 1 (set_out (outSerial (conn s)) "" s).

(** What [load] does for an answer without data: throttle when there was none
    for long enough. *)
Definition idle_response (now : Z) (s : proxy) : proxy :=
  let cur := curPollMs (poll s) in
  let s :=
    if cur <? maxPollMs then
      if minIdlePollsToThrottle * cur <=? now - lastDataTimestamp (poll s)
      then set_curPollMs (throttle cur) s else s
    else s in
  setPollInterval (curPollMs (poll s)) s.

Section operations.
Context (decode : list Z -> string) (encode : string -> list Z).

(** [load] of a write request; [None]: the parse does not end. *)
Definition write_load (now status : Z) (data : list Z) (s : proxy) : option proxy :=
  if status =? 200 then
    match data with
    | _ :: _ =>
        let s := set_curPollMs minPollMs s in
        let s := set_lastData now (setPollInterval (curPollMs (poll s)) s) in
        let r := parseIncomingArray decode data (inSerial (conn s)) in
        match p_ending r with
        | Ended => Some (call (OnMessage <$> p_messages r) (set_inSerial (p_inSerial r) s))
        | _ => None
        end
    | [] => Some (idle_response now s)
    end
  else Some (idle_response now (signalErrorClose s)).

(** [loadend] of a write request. *)
Definition write_loadend (s : proxy) : proxy := add_msgInflight (-1) s.

Definition getSessionId (now : Z) (s : proxy) : proxy :=
  if 0 <? openInflight (conn s) then s
  else if delaySession (poll s) then s
  else
    let wait :=
      match lastCreatedProxySocket (out s) with
      | Some t => if negb (t =? 0) && (now - t <? 250) then Some (250 - (now - t)) else None
      | None => None
      end in
    match wait with
    | Some delay => set_delay true true (set_curPollMs delay s)
    | None =>
        let s := set_lastCreated now s in
        let s := post (RequestOpen (getEndPoint "open" s)) s in
        add_openInflight 1 s
    end.

(** The timeout of [delaySession]. *)
Definition delay_fires (now : Z) (s : proxy) : proxy := getSessionId now (set_delay false false s).

(** [load] of an open request. *)
Definition open_load (status : Z) (text : string) (s : proxy) : proxy :=
  if negb (status =? 200) || String.eqb text "" || includes text (String "010"%char "")
  then signalErrorClose s
  else
    let s := set_readyState 1 (set_sessionId text s) in
    setPollInterval (curPollMs (poll s)) (call [OnOpen] s).

Definition open_loadend (s : proxy) : proxy := add_openInflight (-1) s.

(** The frame of the [serial]-th message. *)
Definition client_frame (serial : Z) (msg : string) : string :=
  "B0x" +:+ to_string_radix 16 serial +:+ String "010"%char "" +:+
  "0x" +:+ to_string_radix 16 (Z.of_nat (length (encode msg))) +:+ String "010"%char "" +:+
  msg +:+ String "010"%char "".

Definition send (msg : string) (s : proxy) : proxy :=
  let hadData := (0 <? String.length (sendQueue (conn s)))%nat in
  let s := set_out (outSerial (conn s) + 1)
                   (sendQueue (conn s) +:+ client_frame (outSerial (conn s)) msg) s in
  if (minPollMs <? curPollMs (poll s)) || negb hadData then
    if msgInflight (conn s) <=? 3 then
      let s := set_curPollMs minPollMs s in
      setPollInterval (curPollMs (poll s)) s
    else s
  else s.

Definition sendCloseMsg (beacon : bool) (s : proxy) : proxy :=
  post (RequestClose (getEndPoint "close" s) beacon) s.

Definition close (s : proxy) : proxy :=
  let oldState := readyState (conn s) in
  let s := call [OnClose] (set_readyState 3 s) in
  let s := set_delay (delaySession (poll s)) false (set_pollTimer None s) in
  let s := if oldState =? 1 then sendCloseMsg (unloading s) s else s in
  set_sessionId "open" s.

Definition setUnloading (s : proxy) : proxy :=
  Proxy (uri s) true (conn s) (poll s) (out s).

(** [new ProxySocket (uri)]. *)
Definition new_ProxySocket (uri : string) (now : Z) (last : option Z) : proxy :=
  getSessionId now
    (Proxy uri false (Connection 0 "open" 0 0 (Some 0) 0 "")
       (Polling minPollMs None false false now) (Outside last [] [] 0)).

(** ** Runs of a socket *)

(** A socket with the requests of it that are under way and the messages given
    to [send]. *)
Record world := World { sock : proxy; opening : nat; writing : nat; sent : list string }.

(** [performance.now ()] does not go back. *)
Definition monotonic (now : Z) (s : proxy) : Prop :=
  forall t, lastCreatedProxySocket (out s) = Some t -> t <= now.

(** [load] and [loadend] of a request come together; a request that fails on the
    network has a [loadend] only. *)
Inductive proxy_step : world -> world -> Prop :=
  | step_send w m :
      proxy_step w (World (send m (sock w)) (opening w) (writing w) (sent w ++ [m]))
  | step_poll w t now :
      pollTimer (poll (sock w)) = Some t ->
      let s := doSend now (sock w) in
      proxy_step w (World s (opening w)
        (writing w + (length (requests (out s)) - length (requests (out (sock w))))) (sent w))
  | step_write_load w now status data s n :
      writing w = S n -> write_load now status data (sock w) = Some s ->
      proxy_step w (World (write_loadend s) (opening w) n (sent w))
  | step_write_fails w n :
      writing w = S n ->
      proxy_step w (World (write_loadend (sock w)) (opening w) n (sent w))
  | step_open_load w status text n :
      opening w = S n ->
      proxy_step w (World (open_loadend (open_load status text (sock w))) n (writing w) (sent w))
  | step_open_fails w n :
      opening w = S n ->
      proxy_step w (World (open_loadend (sock w)) n (writing w) (sent w))
  | step_delay w now :
      delayTimer (poll (sock w)) = true -> monotonic now (sock w) ->
      let s := delay_fires now (sock w) in
      proxy_step w (World s (opening w + (length (requests (out s)) - length (requests (out (sock w)))))
        (writing w) (sent w))
  | step_close w :
      proxy_step w (World (close (sock w)) (opening w) (writing w) (sent w)).

Definition new_world (uri : string) (now : Z) (last : option Z) : world :=
  let s := new_ProxySocket uri now last in World s (length (requests (out s))) 0 [].

(** What was posted by the write requests. *)
Definition body_of (r : request) : string :=
  match r with RequestWrite _ body => body | _ => "" end.

Definition posted (l : list request) : string := foldr (fun r t => body_of r +:+ t) "" l.

(** The frames of the messages [ms], numbered from [k]. *)
Fixpoint frames (k : Z) (ms : list string) : string :=
  match ms with
  | [] => ""
  | m :: ms' => client_frame k m +:+ frames (k + 1) ms'
  end.

(** ** The invariant *)

Definition proxy_inv (w : world) : Prop :=
  let c := conn (sock w) in let p := poll (sock w) in let o := out (sock w) in
  (readyState c = 1 \/ sessionId c = "open") /\
  (pollTimer p <> None -> readyState c = 1) /\
  (curPollMs p <= maxPollMs /\ forall t, pollTimer p = Some t -> t <= maxPollMs) /\
  (msgInflight c <= 4 /\ msgInflight c <= Z.of_nat (writing w)) /\
  (resets o = 0%nat ->
    msgInflight c = Z.of_nat (writing w) /\
    openInflight c = Z.of_nat (opening w) /\
    outSerial c = Z.of_nat (length (sent w)) /\
    posted (requests o) +:+ sendQueue c = frames 0 (sent w)).

Lemma posted_app l k : posted (l ++ k) = posted l +:+ posted k.
Proof. induction l as [|r l IH]; [done|]. simpl. by rewrite IH, str_app_assoc. Qed.

Lemma frames_app k ms ns :
  frames k (ms ++ ns) = frames k ms +:+ frames (k + Z.of_nat (length ms)) ns.
Proof.
  revert k. induction ms as [|m ms IH]; intros k.
  - simpl. rewrite str_app_nil_l. f_equal. lia.
  - cbn [app frames length]. rewrite IH, str_app_assoc. do 2 f_equal. f_equal. lia.
Qed.

(** Throttling, computed for every poll period there is. *)
Definition throttle_table : bool :=
  forallb (fun n => let c := Z.of_nat n in
    (throttle c <=? maxPollMs) &&
    (if c <=? 6 then throttle c =? c else c <? throttle c) || (c =? maxPollMs)) (seq 1 500).

Lemma throttle_table_true : throttle_table = true.
Proof. by vm_compute. Qed.

Lemma throttle_le c : throttle c <= maxPollMs.
Proof. unfold throttle. lia. Qed.

Ltac proxy_simpl :=
  repeat match goal with w : world |- _ => destruct w as [[? ? [] [] []] ? ? ?] end;
  cbv beta iota zeta delta
    [with_conn with_poll with_out set_readyState set_sessionId add_msgInflight add_openInflight
     set_inSerial set_out set_curPollMs set_pollTimer set_delay set_lastData set_lastCreated post call
     count_reset uri unloading conn poll out readyState sessionId msgInflight openInflight inSerial
     outSerial sendQueue curPollMs pollTimer delaySession delayTimer lastDataTimestamp
     lastCreatedProxySocket requests calls resets sock opening writing sent] in *.

Local Arguments throttle : simpl never.
Local Arguments maxPollMs : simpl never.
Local Arguments num_to_string : simpl never.
Local Arguments getEndPoint : simpl never.

(** Unfold the invariant and its operations, and split along their tests. *)
Ltac proxy_cases :=
  unfold proxy_inv in *; proxy_simpl;
  try match goal with |- _ -> _ => intros (I1 & I2 & (I3 & I4) & (I5 & I6) & I7) end;
  assert (minPollMs <= maxPollMs) by done.

Ltac proxy_done :=
  proxy_simpl; split_and!; try done; try (intros ? [= <-]); try (by auto); try lia.

Lemma send_inv w m :
  proxy_inv w -> proxy_inv (World (send m (sock w)) (opening w) (writing w) (sent w ++ [m])).
Proof.
  unfold send, setPollInterval. proxy_cases.
  repeat case_bool; proxy_done;
    intros Hr; destruct (I7 Hr) as (? & ? & ? & Hq); split_and!; try done;
    try (rewrite length_app; simpl; lia);
    rewrite <- str_app_assoc, Hq, frames_app; simpl; subst; by rewrite str_app_nil_r.
Qed.

Lemma signalErrorClose_inv w n k :
  proxy_inv w -> proxy_inv (World (signalErrorClose (sock w)) n k (sent w)).
Proof.
  unfold signalErrorClose. proxy_cases. repeat case_bool; proxy_done.
Qed.

Lemma doSend_requests now s :
  (length (requests (out (doSend now s))) - length (requests (out s)) =
   if String.eqb (sessionId (conn s)) "open" then 0
   else if (4 <=? msgInflight (conn s))%Z then 0 else 1)%nat.
Proof.
  unfold doSend, setPollInterval, signalErrorClose. destruct s as [? ? [] [] []].
  proxy_simpl. repeat case_bool; proxy_simpl; rewrite ?length_app; simpl; lia.
Qed.

Lemma poll_inv w now t :
  pollTimer (poll (sock w)) = Some t -> proxy_inv w ->
  let s := doSend now (sock w) in
  proxy_inv (World s (opening w)
    (writing w + (length (requests (out s)) - length (requests (out (sock w))))) (sent w)).
Proof.
  intros Ht Hinv. cbv zeta. rewrite doSend_requests. unfold doSend.
  destruct (String.eqb_spec (sessionId (conn (sock w))) "open").
  { rewrite Nat.add_0_r. by destruct w. }
  destruct (Z.leb_spec 4 (msgInflight (conn (sock w)))).
  - rewrite Nat.add_0_r. destruct (Z.ltb_spec (curPollMs (poll (sock w))) maxPollMs).
    + revert Hinv. unfold setPollInterval. pose proof (throttle_le (curPollMs (poll (sock w)))).
      proxy_cases. repeat case_bool; proxy_done.
    + case_bool; [by apply signalErrorClose_inv|by destruct w].
  - revert Hinv. unfold setPollInterval. proxy_cases. repeat case_bool; proxy_done;
      intros Hr; destruct (I7 Hr) as (? & ? & ? & Hq); split_and!; try done; try lia;
      rewrite posted_app, <- Hq; simpl; by rewrite !str_app_nil_r.
Qed.

(** A change of the polling that keeps its bounds. *)
Lemma idle_response_inv w now :
  proxy_inv w -> proxy_inv (World (idle_response now (sock w)) (opening w) (writing w) (sent w)).
Proof.
  unfold idle_response, setPollInterval. pose proof (throttle_le (curPollMs (poll (sock w)))).
  proxy_cases. repeat case_bool; proxy_done.
Qed.

Lemma write_load_inv w now status data s :
  write_load now status data (sock w) = Some s -> proxy_inv w ->
  proxy_inv (World s (opening w) (writing w) (sent w)).
Proof.
  unfold write_load. intros E Hinv. destruct (status =? 200).
  - destruct data as [|b data]; [injection E as <-; by apply idle_response_inv|].
    cbv zeta in E. destruct (p_ending _) in E; try done. injection E as <-.
    revert Hinv. unfold setPollInterval. proxy_cases. repeat case_bool; proxy_done.
  - injection E as <-.
    apply (signalErrorClose_inv _ (opening w) (writing w)) in Hinv.
    apply (idle_response_inv _ now) in Hinv. done.
Qed.

Lemma write_loadend_inv w n :
  writing w = S n -> proxy_inv w -> proxy_inv (World (write_loadend (sock w)) (opening w) n (sent w)).
Proof.
  unfold write_loadend. intros E. proxy_cases. subst. proxy_done.
  intros Hr. destruct (I7 Hr) as (? & ? & ? & Hq). split_and!; done || lia.
Qed.

Lemma open_load_inv w status text :
  proxy_inv w -> proxy_inv (World (open_load status text (sock w)) (opening w) (writing w) (sent w)).
Proof.
  intros Hinv. unfold open_load. destruct (_ || _); [by apply signalErrorClose_inv|].
  revert Hinv. unfold setPollInterval. proxy_cases. repeat case_bool; proxy_done.
Qed.

Lemma open_loadend_inv w n :
  opening w = S n -> proxy_inv w -> proxy_inv (World (open_loadend (sock w)) n (writing w) (sent w)).
Proof.
  unfold open_loadend. intros E. proxy_cases. subst. proxy_done.
  intros Hr. destruct (I7 Hr) as (? & ? & ? & Hq). split_and!; done || lia.
Qed.

Lemma getSessionId_inv w now :
  let s := getSessionId now (sock w) in
  monotonic now (sock w) -> proxy_inv w ->
  proxy_inv (World s (opening w + (length (requests (out s)) - length (requests (out (sock w)))))
               (writing w) (sent w)).
Proof.
  cbv zeta. unfold getSessionId, monotonic. assert (250 <= maxPollMs) by done.
  destruct (lastCreatedProxySocket (out (sock w))) as [t|] eqn:El; intros Hmono;
    [specialize (Hmono t eq_refl)|]; proxy_cases; repeat case_bool;
    proxy_simpl; rewrite ?length_app, ?Nat.sub_diag, ?Nat.add_0_r; proxy_done;
    intros Hr; destruct (I7 Hr) as (? & ? & ? & Hq); split_and!; try done; simpl; try lia;
    rewrite posted_app; simpl; by rewrite str_app_nil_r.
Qed.

Lemma close_inv w :
  proxy_inv w -> proxy_inv (World (close (sock w)) (opening w) (writing w) (sent w)).
Proof.
  unfold close, sendCloseMsg. proxy_cases. repeat case_bool; proxy_done;
    intros Hr; destruct (I7 Hr) as (? & ? & ? & Hq); split_and!; try done;
    rewrite posted_app; simpl; by rewrite str_app_nil_r.
Qed.

Lemma proxy_step_inv w w' : proxy_step w w' -> proxy_inv w -> proxy_inv w'.
Proof.
  intros [].
  - apply send_inv.
  - by eapply poll_inv.
  - intros Hinv. apply (write_loadend_inv (World s (opening w0) (writing w0) (sent w0)) n); [done|].
    by eapply write_load_inv.
  - by apply write_loadend_inv.
  - intros Hinv.
    apply (open_loadend_inv (World (open_load status text (sock w0)) (opening w0) (writing w0) (sent w0)) n);
      [done|by apply open_load_inv].
  - by apply open_loadend_inv.
  - intros Hinv.
    apply (getSessionId_inv (World (set_delay false false (sock w0)) (opening w0) (writing w0) (sent w0)) now).
    + done.
    + revert Hinv. proxy_cases. proxy_done.
  - apply close_inv.
Qed.

(** A socket closed while its session request is under way: the answer opens it
    again, after [onclose]: [onopen] is called and polling starts. *)
Theorem closed_socket_reopens text s :
  text <> "" -> includes text (String "010"%char "") = false ->
  let s' := open_load 200 text (close s) in
  readyState (conn (close s)) = 3 /\ pollTimer (poll (close s)) = None /\
  readyState (conn s') = 1 /\ sessionId (conn s') = text /\
  pollTimer (poll s') = Some (curPollMs (poll s)) /\
  calls (out s') = calls (out s) ++ [OnClose; OnOpen].
Proof.
  intros Hne Hnl. cbv zeta. unfold open_load. rewrite Hnl.
  destruct (String.eqb_spec text ""); [done|]. cbn [negb Z.eqb orb].
  unfold close, sendCloseMsg, setPollInterval. destruct s as [? ? [] [] []].
  proxy_simpl. case_bool; simpl; rewrite <- ?(assoc_L (++)); done.
Qed.
End operations.

(** ** Theorems *)

(** C10: In every state a socket reaches: the poll timer runs only while the socket
    is open, an unopened socket has no session, no poll period exceeds the
    maximum, and no more writes are counted under way than there are, at most four.  As long
    as nothing has reset the socket - an error of a request closes it, which drops the queue
    and sets the counters to 0 - the counters are exact as well, and the bodies posted so far
    followed by the queue are the frames of all messages given to [send], each
    once, in order, numbered from 0; after a reset this is not claimed. *)
Theorem proxy_reachable decode encode uri now last w :
  (forall t, last = Some t -> t <= now) ->
  rtc (proxy_step decode encode) (new_world uri now last) w -> proxy_inv encode w.
Proof.
  intros Hlast Hrun.
  assert (Hinit : proxy_inv encode (new_world uri now last)).
  { set (s0 := Proxy uri false (Connection 0 "open" 0 0 (Some 0) 0 "")
                 (Polling minPollMs None false false now) (Outside last [] [] 0)).
    assert (H : proxy_inv encode (World s0 0 0 [])) by (unfold proxy_inv; simpl; split_and!; auto; done).
    apply (getSessionId_inv encode _ now) in H; [|done]. unfold new_world, new_ProxySocket. fold s0.
    change (requests (out (sock (World s0 0 0 [])))) with (@nil request) in H.
    rewrite Nat.sub_0_r in H. exact H. }
  clear Hlast. induction Hrun as [|x y z Hxy _ IH]; [done|].
  apply IH. by eapply proxy_step_inv.
Qed.

Lemma throttle_cases c :
  1 <= c <= maxPollMs ->
  throttle c <= maxPollMs /\ (c <= 6 -> throttle c = c) /\ (6 < c < maxPollMs -> c < throttle c).
Proof.
  intros Hc. pose proof throttle_table_true as H. unfold throttle_table in H.
  rewrite forallb_forall in H. specialize (H (Z.to_nat c)).
  rewrite in_seq in H. cbv zeta in H. rewrite Z2Nat.id in H by lia.
  pose proof (throttle_le c). assert (maxPollMs = 500) by done. specialize (H ltac:(lia)).
  destruct (Z.leb_spec c 6); apply orb_true_iff in H; destruct H as [H|H]; to_prop; split_and!; lia.
Qed.

(** Throttling lengthens a poll period of 7 ms or more until it is the maximum,
    which 23 rounds reach from the minimum; a shorter period, which a delayed
    session request leaves behind, is never lengthened. *)
Theorem throttle_progress c :
  1 <= c <= maxPollMs ->
  throttle c <= maxPollMs /\
  (6 < c < maxPollMs -> c < throttle c) /\
  (c <= 6 -> forall n, Nat.iter n throttle c = c) /\
  Nat.iter 23 throttle minPollMs = maxPollMs.
Proof.
  intros Hc. destruct (throttle_cases c Hc) as (H1 & H2 & H3). split_and!; [done..| |by vm_compute].
  intros H6 n. induction n as [|n IH]; [done|]. simpl. rewrite IH. auto.
Qed.

(** ** Witnesses *)

Definition sample_frames : list message :=
  [Message true 0 (codes "tile: part=0"); Message false 18 [1; 10; 255]].

Lemma parse_server_frames_witness :
  parseIncomingArray chars (concat (server_frame <$> sample_frames)) (Some 0)
  = Parsed (Some 18) [DText "tile: part=0"; DBytes [1; 10; 255]] Ended.
Proof.
  apply (parse_server_frames chars (fun s _ => chars_codes s) sample_frames (Some 0)).
  repeat constructor; simpl; lia.
Defined.

Lemma parse_truncated_hangs_witness :
  parseIncomingArray chars (concat (server_frame <$> sample_frames) ++ 84 :: 48 :: 120 :: codes "1f") (Some 0)
  = Parsed (Some 18) [DText "tile: part=0"; DBytes [1; 10; 255]] Hangs.
Proof.
  apply (parse_truncated_hangs chars (fun s _ => chars_codes s) sample_frames 84 (codes "1f") (Some 0)).
  - repeat constructor; simpl; lia.
  - by left.
  - done.
  - by apply (bool_decide_unpack (10 ∉ codes "1f")).
Defined.

Definition sample_run : world :=
  let w0 := new_world "u" 1000 None in
  let s1 := send codes "load url=x" (sock w0) in
  let s2 := open_loadend (open_load 200 "42" s1) in
  let s3 := doSend 1030 s2 in
  World s3 0 1 ["load url=x"].

Lemma sample_run_reachable :
  rtc (proxy_step chars codes) (new_world "u" 1000 None) sample_run.
Proof.
  eapply rtc_l; [apply (step_send chars codes _ "load url=x")|].
  eapply rtc_l; [eapply (step_open_load chars codes _ 200 "42" 0); reflexivity|].
  eapply rtc_l; [eapply (step_poll chars codes _ 25 1030); vm_compute; reflexivity|].
  match goal with |- rtc _ ?x ?y => replace x with y by (vm_compute; reflexivity) end. apply rtc_refl.
Qed.

Lemma proxy_reachable_witness : proxy_inv codes sample_run.
Proof. apply (proxy_reachable chars codes "u" 1000 None); [discriminate|apply sample_run_reachable]. Defined.

Lemma throttle_progress_witness :
  throttle 25 = 28 /\ (forall n, Nat.iter n throttle 5 = 5).
Proof.
  split; [by vm_compute|]. apply (throttle_progress 5); [|lia]. unfold maxPollMs. lia.
Defined.

Lemma closed_socket_reopens_witness :
  readyState (conn (open_load 200 "42" (close (new_ProxySocket "u" 1000 None)))) = 1.
Proof. apply (closed_socket_reopens "42" (new_ProxySocket "u" 1000 None)); [done|reflexivity]. Defined.
