(* ===== verification/FileBased.v ===== *)
(** * The file-based view: all parts below each other

    In this view the parts of a presentation are laid out as one long page.
    Models [_getMostVisiblePart], [_sortFileBasedQueue], [_updateFileBasedView]
    and [_checkSelectedPart] of
    src/browser/src/layer/tile/CanvasTileLayer.js.  The two messages about the
    visible area and the zoom that an update sends first are left out. *)

From S2P Require Import Prelude Sorts JsText JsObject Geometry TileCoords Tiles TileRequest.
Local Open Scope Z_scope.

(** What the layout depends on; [zoomScale] is [_map.getZoomScale] as a fraction. *)
Record file_view := FileView {
  fview : view;
  partWidthTwips : Z;
  partHeightTwips : Z;
  spaceBetweenParts : Z;
  fparts : Z;
  isZooming : bool;
  mapZoom : Z;                    (** [Math.round (this._map.getZoom ())] *)
  zoomScale : Z -> Z -> Z * Z;
  viewedRectangle : rect;         (** [app.file.viewedRectangle] *)
  documentBounds : rect           (** [getDocumentBounds ()], as position and size *)
}.

Definition tile_px (f : file_view) : Z := tileSize (vgrid (fview f)).

(** A length in twips in pixels, scaled by a fraction. *)
Definition twips_to_pixels (f : file_view) (scale : Z * Z) (twips : Z) : Z :=
  js_round_div (twips * tile_px f * scale.1) (tileHeightTwips (vgrid (fview f)) * scale.2).

Definition partHeightPixels (f : file_view) (scale : Z * Z) : Z :=
  twips_to_pixels f scale (partHeightTwips f + spaceBetweenParts f).
Definition partWidthPixels (f : file_view) (scale : Z * Z) : Z :=
  twips_to_pixels f scale (partWidthTwips f).

(** ** [_getMostVisiblePart] *)

(** The parts of a queue, each once, in the order of their first tile. *)
Definition distinct_parts (queue : list coord) : list Z :=
  foldl (fun parts c => if bool_decide (cpart c ∈ parts) then parts else parts ++ [cpart c]) [] queue.

(** The visible area of a part. *)
Definition visible_area (f : file_view) (part : Z) : option Z :=
  let h := partHeightPixels f (1, 1) in
  (fun r => rw r * rh r) <$>
    getIntersectionRectangle (Rect 0 (h * part) (partWidthPixels f (1, 1)) h) (documentBounds f).

Definition max_part (f : file_view) (best : Z * Z) (part : Z) : Z * Z :=
  match visible_area f part with
  | Some a => if best.1 <? a then (a, part) else best
  | None => best
  end.

Definition getMostVisiblePart (f : file_view) (queue : list coord) : Z :=
  (foldl (max_part f) (-1, 0) (distinct_parts queue)).2.

(** ** [_sortFileBasedQueue] *)

Definition switchTiles (a b : coord) : bool :=
  if cpart a =? cpart b then
    if cy b <? cy a then true
    else if cy a =? cy b then cx b <? cx a
    else false
  else cpart b <? cpart a.

Definition sortFileBasedQueue (queue : list coord) : list coord := exchange_sort switchTiles queue.

(** ** [_updateFileBasedView] *)

(** [for (j = from; j <= to; j += step)], for a positive step. *)
Definition steps (from to step : Z) : list Z :=
  (fun n => from + Z.of_nat n * step) <$> seq 0 (Z.to_nat ((to - from) / step + 1)).

(** The tiles in view before they are sorted, at zoom [zoom]. *)
Definition visible_queue (f : file_view) (zoom : Z) (scale : Z * Z) : list coord :=
  let ts := tile_px f in
  let h := partHeightPixels f scale in
  let w := partWidthPixels f scale in
  let v := viewedRectangle f in
  match getIntersectionRectangle v (Rect 0 0 w (h * fparts f)) with
  | None => []
  | Some r =>
      let minLocalX := rx r / ts * ts in
      let maxLocalX := (rx r + rw r) / ts * ts in
      let startPart := ry r / h in
      let startY := (ry v - startPart * h) / ts * ts in
      let endPart := js_ceil_div (ry r + rh r) h in
      let endY := (ry v + rh v - endPart * h) / ts * ts in
      let vTileCountPerPart := js_ceil_div h ts in
      i ← seqZ startPart (endPart - startPart);
      j ← steps minLocalX maxLocalX ts;
      k ← steps 0 (vTileCountPerPart * ts) ts;
      if (negb (i =? startPart) || (startY <=? k)) && (negb (i =? endPart) || (k <=? endY))
      then [Coord j k zoom i 0] else []
  end.

(** Mark the tiles of the queue; the loop that is to unmark the others first
    runs over [this._tiles.length], which is undefined, so it does nothing. *)
Definition mark_queue (queue : list coord) (s : store) : store :=
  foldl (fun s c => alter_tile (set_current true) (tileCoordsToKey c) s) s queue.

Definition fetch_queue (now : num) (queue : list coord) (s : store) : store * list coord :=
  foldl (fun '(s, q) c =>
    let s := if obj_has (tileCoordsToKey c) (tiles s) then s
             else createTile c (tileCoordsToKey c) now s in
    (s, if tileNeedsFetch (tileCoordsToKey c) s then q ++ [c] else q)) (s, []) queue.

(** The queue, with [checkOnly]. *)
Definition updateFileBasedView_check (f : file_view) (forZoom : option Z) (s : store)
    : store * list coord :=
  if partHeightTwips f =? 0 then (s, [])
  else if isZooming f then (s, [])
  else
    let zoom := match forZoom with Some z => if z =? 0 then mapZoom f else z | None => mapZoom f end in
    let scale := if mapZoom f =? zoom then (1, 1) else zoomScale f zoom (mapZoom f) in
    let queue := sortFileBasedQueue (visible_queue f zoom scale) in
    (mark_queue queue s, queue).

(** The store and the messages sent, without [checkOnly]. *)
Definition updateFileBasedView (f : file_view) (now : num) (s : store) : store * list string :=
  if (partHeightTwips f =? 0) || isZooming f then (s, [])
  else
    let '(s1, queue) := updateFileBasedView_check f None s in
    let '(s2, tileCombineQueue) := fetch_queue now queue s1 in
    (s2, sendTileCombineRequest (fview f) s2 tileCombineQueue).

(** [_checkSelectedPart]: the selected part and the message about it. *)
Definition checkSelectedPart (f : file_view) (selected : Z) (s : store) : store * Z * list string :=
  let '(s1, queue) := updateFileBasedView_check f None s in
  match queue with
  | [] => (s1, selected, [])
  | _ :: _ =>
      let partToSelect := getMostVisiblePart f queue in
      if selected =? partToSelect then (s1, selected, [])
      else (s1, partToSelect, ["setclientpart part=" +:+ num_to_string partToSelect])
  end.

(** ** The sort *)

Abbreviation in_order := (not_after switchTiles).

Lemma switchTiles_spec a b :
  switchTiles a b = true <->
  cpart b < cpart a \/
  (cpart a = cpart b /\ (cy b < cy a \/ (cy a = cy b /\ cx b < cx a))).
Proof. unfold switchTiles. repeat case_bool; split; intros; try done; lia. Qed.

Lemma in_order_spec a b :
  in_order a b <->
  cpart a < cpart b \/
  (cpart a = cpart b /\ (cy a < cy b \/ (cy a = cy b /\ cx a <= cx b))).
Proof.
  unfold not_after. rewrite <- not_true_iff_false, switchTiles_spec. lia.
Qed.

(** The sort in place orders a queue by part, then row, then column, and loses
    and repeats no tile. *)
Theorem sortFileBasedQueue_sorted queue :
  StronglySorted in_order (sortFileBasedQueue queue) /\ sortFileBasedQueue queue ≡ₚ queue.
Proof.
  split; [|apply exchange_sort_perm]. apply exchange_sort_sorted.
  - intros a b c. rewrite !in_order_spec. lia.
  - intros a b. rewrite switchTiles_spec, in_order_spec. lia.
Qed.

(** ** What an update asks for *)

Lemma elem_of_steps from to step x :
  0 < step -> x ∈ steps from to step <-> exists n, 0 <= n /\ x = from + n * step /\ x <= to.
Proof.
  intros Hs. unfold steps. rewrite list_elem_of_fmap. setoid_rewrite elem_of_seq.
  assert (Hd : forall n, n <= (to - from) / step <-> from + n * step <= to).
  { intros n. pose proof (Z.div_mod (to - from) step). pose proof (Z.mod_pos_bound (to - from) step Hs). nia. }
  split.
  - intros (n & -> & Hn). exists (Z.of_nat n). split_and!; [lia|done|]. apply Hd. lia.
  - intros (n & Hn & -> & Hto). apply Hd in Hto. exists (Z.to_nat n).
    rewrite Z2Nat.id by lia. split; [done|]. lia.
Qed.

(** The multiples of [b] between the ones at or below two numbers. *)
Lemma elem_of_steps_floor a c x b :
  0 < b -> a <= x <= c -> x / b * b ∈ steps (a / b * b) (c / b * b) b.
Proof.
  intros Hb Hx. apply elem_of_steps; [done|]. exists (x / b - a / b).
  pose proof (Z.div_le_mono a x b Hb). pose proof (Z.div_le_mono x c b Hb). split_and!; [lia|lia|nia].
Qed.

(** Every pixel of the document in view lies on a tile of the queue: the tile at
    its position within its part. *)
Theorem visible_queue_covers f zoom scale x y :
  0 < tile_px f -> 0 < partHeightPixels f scale ->
  in_rect (viewedRectangle f) (Point x y) ->
  in_rect (Rect 0 0 (partWidthPixels f scale) (partHeightPixels f scale * fparts f)) (Point x y) ->
  let i := y / partHeightPixels f scale in
  let local := y - i * partHeightPixels f scale in
  Coord (x / tile_px f * tile_px f) (local / tile_px f * tile_px f) zoom i 0 ∈ visible_queue f zoom scale.
Proof.
  intros Hts Hh Hv Hd i local. unfold visible_queue.
  set (ts := tile_px f) in *. set (h := partHeightPixels f scale) in *. set (w := partWidthPixels f scale) in *.
  destruct (getIntersectionRectangle _ _) as [r|] eqn:Er.
  2: { unfold getIntersectionRectangle in Er. by erewrite doRectanglesIntersect_complete in Er. }
  assert (Hr : in_rect r (Point x y) /\ ry (viewedRectangle f) <= ry r).
  { split; [by apply (getIntersectionRectangle_pixels _ _ _ _ Er)|].
    revert Er. unfold getIntersectionRectangle. destruct (doRectanglesIntersect _ _); [|done].
    intros [= <-]. simpl. case_bool; lia. }
  destruct Hr as [Hr Hry]. unfold in_rect in Hr. cbn [px py] in Hr.
  assert (Hy : i * h <= y < (i + 1) * h) by (apply floor_div_iff; done).
  assert (Hs : ry r / h <= i) by (apply Z.div_le_mono; lia).
  assert (He : i < js_ceil_div (ry r + rh r) h) by (pose proof (js_ceil_div_spec (ry r + rh r) h Hh); nia).
  apply list_elem_of_bind. exists i. split; [|by apply elem_of_seqZ; lia].
  apply list_elem_of_bind. exists (x / ts * ts). split; [|by apply elem_of_steps_floor; lia].
  apply list_elem_of_bind. exists (local / ts * ts). split.
  - destruct (Z.eqb_spec i (js_ceil_div (ry r + rh r) h)); [lia|]. rewrite andb_true_r.
    destruct (Z.eqb_spec i (ry r / h)) as [E|]; simpl; [|by left].
    destruct (Z.leb_spec ((ry (viewedRectangle f) - ry r / h * h) / ts * ts) (local / ts * ts)); [by left|].
    exfalso. subst local. rewrite E in *.
    pose proof (Z.div_le_mono (ry (viewedRectangle f) - ry r / h * h) (y - ry r / h * h) ts Hts). nia.
  - apply elem_of_steps; [done|]. exists (local / ts).
    assert (0 <= local < h) by (subst local; lia).
    pose proof (js_ceil_div_spec h ts Hts). pose proof (Z.div_pos local ts).
    pose proof (Z.div_mod local ts). pose proof (Z.mod_pos_bound local ts Hts). split_and!; [lia|lia|nia].
Qed.

(** ** The part in view *)

Lemma elem_of_distinct_parts queue p : p ∈ distinct_parts queue <-> exists c, c ∈ queue /\ cpart c = p.
Proof.
  unfold distinct_parts.
  assert (H : forall acc, p ∈ foldl (fun parts c => if bool_decide (cpart c ∈ parts) then parts
      else parts ++ [cpart c]) acc queue <-> p ∈ acc \/ exists c, c ∈ queue /\ cpart c = p).
  { induction queue as [|c queue IH]; intros acc; simpl; [set_solver|].
    rewrite IH. case_bool_decide; set_solver. }
  rewrite H. set_solver.
Qed.

Definition best_so_far (f : file_view) (seen : list Z) (best : Z * Z) : Prop :=
  (best = (-1, 0) \/ (best.2 ∈ seen /\ visible_area f best.2 = Some best.1)) /\
  forall p a, p ∈ seen -> visible_area f p = Some a -> a <= best.1.

Lemma max_part_best f seen best p :
  best_so_far f seen best -> best_so_far f (seen ++ [p]) (max_part f best p).
Proof.
  intros [Hb Hmax]. unfold max_part, best_so_far. setoid_rewrite elem_of_app.
  setoid_rewrite list_elem_of_singleton.
  destruct (visible_area f p) as [a|] eqn:E; [destruct (Z.ltb_spec best.1 a)|]; split; simpl.
  - right. auto.
  - intros q b [Hq | ->] Hv; [specialize (Hmax q b Hq Hv); lia|]. simplify_eq. lia.
  - destruct Hb as [?|[??]]; auto.
  - intros q b [Hq | ->] Hv; [by eapply Hmax|]. simplify_eq. lia.
  - destruct Hb as [?|[??]]; auto.
  - intros q b [Hq | ->] Hv; [by eapply Hmax|]. by rewrite E in Hv.
Qed.

Lemma getMostVisiblePart_best f queue :
  best_so_far f (distinct_parts queue) (foldl (max_part f) (-1, 0) (distinct_parts queue)).
Proof.
  assert (H : forall l seen best, best_so_far f seen best -> best_so_far f (seen ++ l) (foldl (max_part f) best l)).
  { induction l as [|p l IH]; intros seen best Hb; simpl; [by rewrite app_nil_r|].
    replace (seen ++ p :: l) with ((seen ++ [p]) ++ l) by by rewrite <- (assoc_L (++)).
    by apply IH, max_part_best. }
  apply (H _ []). split; [by left|set_solver].
Qed.

(** Selecting the part in view: when a part of the queue is visible, the chosen
    part is a part of the queue, and no part of the queue has a larger visible
    area; the server is told exactly when the selection changes. *)
Theorem checkSelectedPart_spec f selected s :
  let queue := (updateFileBasedView_check f None s).2 in
  let '(_, part, msgs) := checkSelectedPart f selected s in
  (queue = [] -> part = selected) /\
  (queue <> [] -> part = getMostVisiblePart f queue /\
     forall c a, c ∈ queue -> visible_area f (cpart c) = Some a -> 0 <= a ->
       exists c' b, c' ∈ queue /\ cpart c' = part /\ visible_area f part = Some b /\ a <= b) /\
  msgs = (if selected =? part then [] else ["setclientpart part=" +:+ num_to_string part]).
Proof.
  cbv zeta. unfold checkSelectedPart. destruct (updateFileBasedView_check f None s) as [s1 queue]. cbn [snd].
  destruct queue as [|c0 queue0] eqn:Eq; [by rewrite Z.eqb_refl|]. assert (Hne : queue <> []) by by rewrite Eq.
  rewrite <- Eq. clear Eq c0 queue0.
  set (part := getMostVisiblePart f queue).
  assert (Hbest : forall c a, c ∈ queue -> visible_area f (cpart c) = Some a -> 0 <= a ->
       exists c' b, c' ∈ queue /\ cpart c' = part /\ visible_area f part = Some b /\ a <= b).
  { intros c a Hc Ha Hpos. destruct (getMostVisiblePart_best f queue) as [Hb Hmax].
    specialize (Hmax (cpart c) a). rewrite elem_of_distinct_parts in Hmax.
    assert (a <= (foldl (max_part f) (-1, 0) (distinct_parts queue)).1) by eauto.
    fold (getMostVisiblePart f queue) in Hb. fold part in Hb.
    destruct Hb as [Hb|[Hin Hv]]; [rewrite Hb in *; simpl in *; lia|].
    apply elem_of_distinct_parts in Hin as (c' & Hc' & Hp'). eauto 7. }
  destruct (Z.eqb_spec selected part) as [E|E].
  - rewrite Z.eqb_refl, E. by split_and!.
  - destruct (Z.eqb_spec selected part); [done|]. by split_and!.
Qed.

Lemma mark_queue_current queue s k t :
  obj_get k (tiles s) = Some t ->
  exists t', obj_get k (tiles (mark_queue queue s)) = Some t' /\
    current t' = current t || bool_decide (k ∈ tileCoordsToKey <$> queue).
Proof.
  unfold mark_queue. revert s t. induction queue as [|c queue IH]; intros s t Hk; simpl.
  - exists t. split; [done|]. by rewrite orb_false_r.
  - assert (Ha : obj_get k (tiles (alter_tile (set_current true) (tileCoordsToKey c) s))
        = Some (if decide (tileCoordsToKey c = k) then set_current true t else t)).
    { unfold alter_tile, set_tiles. simpl. rewrite obj_get_alter, Hk. by destruct (decide _). }
    destruct (IH _ _ Ha) as (t' & Ht' & Hc). exists t'. split; [done|]. rewrite Hc.
    rewrite (bool_decide_ext _ _ (elem_of_cons _ _ _)).
    rewrite bool_decide_or. case_decide as E.
    + subst. rewrite (bool_decide_eq_true_2 (tileCoordsToKey c = _)) by done. simpl. by rewrite orb_true_r.
    + rewrite (bool_decide_eq_false_2 (k = tileCoordsToKey c)) by done. done.
Qed.

(** An update of the view never takes a tile out of view: a tile that was current
    stays current, so the garbage collector never reclaims it. *)
Theorem file_based_never_unmarks f forZoom s k t :
  obj_get k (tiles s) = Some t -> current t = true ->
  exists t', obj_get k (tiles (updateFileBasedView_check f forZoom s).1) = Some t' /\ current t' = true.
Proof.
  intros Hk Hc. unfold updateFileBasedView_check.
  destruct (partHeightTwips f =? 0); [by exists t|]. destruct (isZooming f); [by exists t|]. cbn [fst].
  edestruct mark_queue_current as (t' & Ht' & E); [done|]. exists t'. split; [done|]. by rewrite E, Hc.
Qed.

(** ** Witnesses *)

Definition sample_file_view : file_view :=
  FileView (View (Grid 256 3840 3840 12240 15840) None 0 0 256 256) 12240 15840 100 3 false 10
    (fun _ _ => (1, 1)) (Rect 0 900 800 600) (Rect 0 900 800 600).

Example sample_queue :
  length (visible_queue sample_file_view 10 (1, 1)) = 36%nat /\
  (checkSelectedPart sample_file_view 0 (Store [] 0 0)).2 = ["setclientpart part=1"].
Proof. split; by vm_compute. Qed.

Lemma visible_queue_covers_witness :
  Coord 256 256 10 1 0 ∈ visible_queue sample_file_view 10 (1, 1).
Proof.
  apply (visible_queue_covers sample_file_view 10 (1, 1) 300 1400); vm_compute; repeat split; done.
Defined.

Definition current_store : store :=
  Store [(key (Coord 4096 4096 10 0 0), new_tile (Coord 4096 4096 10 0 0) (Some 0))] 1 0.

Lemma file_based_never_unmarks_witness :
  exists t', obj_get (key (Coord 4096 4096 10 0 0))
               (tiles (updateFileBasedView_check sample_file_view None current_store).1) = Some t' /\
             current t' = true.
Proof. by eapply (file_based_never_unmarks sample_file_view None current_store). Defined.
