(* ===== verification/MessageStore.v ===== *)
(** * The messages that are replayed: [L.MessageStore]

    Messages with coordinates are kept, the last of each type and view, and
    handled again when the zoom or the sheet geometry changes.  Models
    [L.MessageStore] and [_saveMessageForReplay], [_clearMsgReplayStore],
    [_replayPrintTwipsMsgs], [_replayPrintTwipsMsg] and
    [_replayPrintTwipsMsgAllViews] of
    src/browser/src/layer/tile/CanvasTileLayer.js. *)

From S2P Require Import Prelude JsText JsObject.
Local Open Scope Z_scope.

(** [_ownMessages] maps a type to a text; [_othersMessages] maps a type to an
    array with the views' numbers as its indices. *)
Record message_store := MessageStore {
  ownMessages : obj string;
  othersMessages : obj (obj string)
}.

(** [initialize] *)
Definition new_store (ownViewTypes otherViewTypes : list string) : message_store :=
  MessageStore (foldl (fun o t => obj_set t "" o) [] ownViewTypes)
               (foldl (fun o t => obj_set t [] o) [] otherViewTypes).

Definition clear (notOtherMsg : bool) (s : message_store) : message_store :=
  MessageStore (obj_imap (fun _ _ => "") (ownMessages s))
    (if notOtherMsg then othersMessages s else obj_imap (fun _ _ => []) (othersMessages s)).

(** [save]; [viewId] is [None] where it is not a number. *)
Definition save (msgType textMsg : string) (viewId : num) (s : message_store) : message_store :=
  match viewId with
  | None =>
      if obj_has msgType (ownMessages s)
      then MessageStore (obj_set msgType textMsg (ownMessages s)) (othersMessages s) else s
  | Some v =>
      if obj_has msgType (othersMessages s)
      then MessageStore (ownMessages s)
             (obj_alter (obj_set (num_to_string v) textMsg) msgType (othersMessages s))
      else s
  end.

(** [get]; [None] is [undefined]. *)
Definition get (msgType : string) (viewId : num) (s : message_store) : option string :=
  match viewId with
  | None => obj_get msgType (ownMessages s)
  | Some v =>
      match obj_get msgType (othersMessages s) with
      | Some views => obj_get (num_to_string v) views
      | None => None
      end
  end.

(** [_cleanUpSelectionMessages]: its guard asks for a falsy object, so it never
    returns early. *)
Definition cleanUpSelectionMessages (messages : obj string) : obj string :=
  obj_set "textselectionend" "textselectionend: "
    (obj_set "textselectionstart" "textselectionstart: " messages).

(** [array.forEach]: the elements by ascending index. *)
Definition array_values (a : obj string) : list string :=
  omap (fun ik => obj_get ik.2 a) (merge_sort index_le (index_keys (obj_keys a))).

(** [forEach]: the store afterwards and the messages the callback gets. *)
Definition forEach (s : message_store) : message_store * list string :=
  let own := cleanUpSelectionMessages (ownMessages s) in
  (MessageStore own (othersMessages s),
   omap (fun t => obj_get t own) (own_keys own) ++
   concat (omap (fun t => array_values <$> obj_get t (othersMessages s))
             (own_keys (othersMessages s)))).

(** ** The document layer *)

Inductive app := Calc | Writer | Impress.

Definition isCalc (a : app) : bool := match a with Calc => true | _ => false end.
Definition isWriter (a : app) : bool := match a with Writer => true | _ => false end.

Definition ownViewTypes (a : app) : list string :=
  (if isCalc a then
     ["cellcursor"; "referencemarks"; "cellselectionarea"; "textselection"; "invalidatecursor";
      "textselectionstart"; "textselectionend"; "graphicselection"]
   else ["invalidatecursor"; "textselection"; "graphicselection"]) ++
  (if isWriter a then ["contentcontrol"] else []).

Definition otherViewTypes (a : app) : list string :=
  if isCalc a then
    ["cellviewcursor"; "textviewselection"; "invalidateviewcursor"; "graphicviewselection"]
  else ["textviewselection"; "invalidateviewcursor"].

(** [_saveMessageForReplay]; the store is created with the first message. *)
Definition saveMessageForReplay (a : app) (textMsg : string) (viewId : num)
    (st : option message_store) : message_store :=
  let s := default (new_store (ownViewTypes a) (otherViewTypes a)) st in
  match index_of ":" textMsg with
  | None => s
  | Some i => save (str_take i textMsg) textMsg viewId s
  end.

Definition clearMsgReplayStore (notOtherMsg : bool) (st : option message_store)
    : option message_store := clear notOtherMsg <$> st.

(** [_replayPrintTwipsMsgs]: what [_onMessage] is called with. *)
Definition replayPrintTwipsMsgs (differentSheet : bool) (st : option message_store)
    : option message_store * list string :=
  match st with
  | None => (None, [])
  | Some s =>
      let '(s1, msgs) := forEach s in
      (Some s1,
       filter (fun msg => differentSheet && starts_with msg "graphicselection:" = false) msgs)
  end.

(** [_replayPrintTwipsMsg]; without a store the method throws. *)
Definition replayPrintTwipsMsg (msgType : string) (st : option message_store) : option (option string) :=
  get msgType None <$> st.

(** [_replayPrintTwipsMsgAllViews] for the views of [_cellViewCursors]; an empty
    text is not replayed. *)
Definition replayPrintTwipsMsgAllViews (views : list string) (msgType : string)
    (st : option message_store) : list string :=
  match st with
  | None => []
  | Some s =>
      omap (fun viewId =>
        match parseInt viewId with
        | Some v => match get msgType (Some v) s with
                    | Some m => if String.eqb m "" then None else Some m
                    | None => None
                    end
        | None => None
        end) views
  end.

(** ** The store as a history *)

Inductive store_op :=
  | Save (msgType textMsg : string) (viewId : num)
  | Clear (notOtherMsg : bool).

Definition run_op (s : message_store) (o : store_op) : message_store :=
  match o with
  | Save t m v => save t m v s
  | Clear b => clear b s
  end.

(** What the last relevant operation of a history left for a type of each kind. *)
Definition latest_own (t : string) (h : list store_op) : string :=
  foldl (fun cur o =>
    match o with
    | Save t' m None => if String.eqb t' t then m else cur
    | Save _ _ (Some _) => cur
    | Clear _ => ""
    end) "" h.

Definition latest_other (t : string) (v : Z) (h : list store_op) : option string :=
  foldl (fun cur o =>
    match o with
    | Save t' m (Some v') => if String.eqb t' t && (v' =? v) then Some m else cur
    | Save _ _ None => cur
    | Clear notOtherMsg => if notOtherMsg then cur else None
    end) None h.

(** ** Lemmas *)

Lemma new_store_get {A} (x : A) (ts : list string) o t :
  obj_get t (foldl (fun o t => obj_set t x o) o ts)
  = if decide (t ∈ ts) then Some x else obj_get t o.
Proof.
  revert o. induction ts as [|t' ts IH]; intros o; simpl; [done|].
  rewrite IH, obj_get_set. repeat case_decide; set_solver.
Qed.

Section history.
Context (own others : list string).

Definition run (h : list store_op) : message_store := foldl run_op (new_store own others) h.

Lemma run_snoc h o : run (h ++ [o]) = run_op (run h) o.
Proof. unfold run. by rewrite foldl_app. Qed.

Lemma latest_other_snoc t v h o :
  latest_other t v (h ++ [o]) =
  match o with
  | Save t' m (Some v') => if String.eqb t' t && (v' =? v) then Some m else latest_other t v h
  | Save _ _ None => latest_other t v h
  | Clear notOtherMsg => if notOtherMsg then latest_other t v h else None
  end.
Proof. unfold latest_other. by rewrite foldl_app. Qed.

Lemma run_own h t :
  obj_get t (ownMessages (run h)) = if decide (t ∈ own) then Some (latest_own t h) else None.
Proof.
  induction h as [|o h IH] using rev_ind.
  - unfold run, new_store. simpl. by rewrite new_store_get.
  - unfold run, latest_own in *. rewrite !foldl_app. cbn [foldl].
    set (s := foldl run_op (new_store own others) h) in *.
    destruct o as [t' m [v|]|b]; simpl.
    + by destruct (obj_has t' (othersMessages s)).
    + unfold obj_has. destruct (obj_get t' (ownMessages s)) as [x|] eqn:E; simpl.
      * rewrite obj_get_set. destruct (String.eqb_spec t' t) as [->|Hne].
        { rewrite (decide_True (P := t = t)) by done. rewrite E in IH. by destruct (decide (t ∈ own)). }
        by rewrite decide_False.
      * rewrite IH. destruct (String.eqb_spec t' t) as [->|]; [|done].
        rewrite E in IH. by destruct (decide (t ∈ own)).
    + rewrite obj_get_imap, IH. by case_decide.
Qed.

Lemma num_to_string_eqb v v' : String.eqb (num_to_string v) (num_to_string v') = (v =? v').
Proof.
  destruct (Z.eqb_spec v v') as [->|Hne]; [apply String.eqb_refl|].
  apply String.eqb_neq. intros E. by apply (inj num_to_string) in E.
Qed.

Lemma run_others h t :
  if decide (t ∈ others)
  then exists views, obj_get t (othersMessages (run h)) = Some views /\
         obj_wf views /\ (forall k, k ∈ obj_keys views -> exists v, k = num_to_string v) /\
         forall v, obj_get (num_to_string v) views = latest_other t v h
  else obj_get t (othersMessages (run h)) = None.
Proof.
  induction h as [|o h IH] using rev_ind.
  - unfold run, new_store. simpl. rewrite new_store_get. case_decide; [|done].
    exists []. split_and!; [done|apply obj_wf_nil|set_solver|done].
  - destruct (decide (t ∈ others)) as [Ht|Ht].
    + destruct IH as (views & E & Hwf & Hks & Hv). setoid_rewrite latest_other_snoc. rewrite run_snoc.
      set (s := run h) in *.
      destruct o as [t' m [v|]|[]]; simpl; [| destruct (obj_has t' (ownMessages s)); simpl; eauto | eauto |].
      * unfold obj_has. destruct (String.eqb_spec t' t) as [->|Hne].
        -- rewrite E. simpl. rewrite obj_get_alter, decide_True, E by done. eexists.
           split_and!; [done|by apply obj_wf_set| |].
           { intros k [-> | Hk]%elem_of_obj_keys_set; eauto. }
           intros v'. rewrite obj_get_set, Hv. simpl.
           destruct (Z.eqb_spec v v') as [->|Hne]; [by rewrite decide_True|].
           rewrite decide_False; [done|]. intros E'. by apply (inj num_to_string) in E'.
        -- destruct (obj_get t' (othersMessages s)); simpl; [rewrite obj_get_alter, decide_False by done|];
             exists views; done.
      * rewrite obj_get_imap, E. exists []. split_and!; [done|apply obj_wf_nil|set_solver|done].
    + rewrite run_snoc. set (s := run h) in *.
      destruct o as [t' m [v|]|[]]; simpl; [| by destruct (obj_has t' (ownMessages s)) |done|].
      * destruct (obj_has t' (othersMessages s)); simpl; [|done].
        rewrite obj_get_alter, IH. by case_decide.
      * by rewrite obj_get_imap, IH.
Qed.

(** [get] returns what the last operation on the type, and on the view, left:
    the text saved last, or nothing since the last [clear]; types the store was
    not created with are never kept. *)
Theorem get_latest h t :
  get t None (run h) = (if decide (t ∈ own) then Some (latest_own t h) else None) /\
  forall v, get t (Some v) (run h) = if decide (t ∈ others) then latest_other t v h else None.
Proof.
  split; [apply run_own|]. intros v. unfold get. pose proof (run_others h t) as H.
  case_decide; [destruct H as (views & -> & _ & _ & Hv); apply Hv|by rewrite H].
Qed.

Lemma elem_of_array_values views m :
  (forall k, k ∈ obj_keys views -> exists v, k = num_to_string v) ->
  m ∈ array_values views <->
  exists v, 0 <= v < 2 ^ 32 - 1 /\ obj_get (num_to_string v) views = Some m.
Proof.
  intros Hks. unfold array_values. rewrite list_elem_of_omap. split.
  - intros ([i k] & Hin & Hg). rewrite merge_sort_Permutation, elem_of_index_keys in Hin.
    destruct Hin as [Hk Hi]. destruct (Hks k Hk) as [v ->]. exists v. split; [|done].
    unfold key_index in Hi. rewrite to_number_num_to_string in Hi.
    destruct (Z.leb_spec 0 v), (Z.ltb_spec v (2 ^ 32 - 1)); simpl in Hi; done || lia.
  - intros (v & Hv & Hg). exists (v, num_to_string v). split; [|done].
    rewrite merge_sort_Permutation, elem_of_index_keys. split.
    + apply obj_get_is_Some. eauto.
    + by apply key_index_num_to_string.
Qed.

Lemma elem_of_values (o : obj string) m :
  m ∈ omap (fun t => obj_get t o) (own_keys o) <-> exists t, obj_get t o = Some m.
Proof.
  rewrite list_elem_of_omap. unfold own_keys. setoid_rewrite elem_of_own_keys_order. split.
  - intros (t & _ & H). eauto.
  - intros (t & H). exists t. split; [|done]. apply obj_get_is_Some. eauto.
Qed.

Lemma get_cleanUp t (o : obj string) :
  obj_get t (cleanUpSelectionMessages o) =
  if decide (t = "textselectionend") then Some "textselectionend: "
  else if decide (t = "textselectionstart") then Some "textselectionstart: "
  else obj_get t o.
Proof. unfold cleanUpSelectionMessages. rewrite !obj_get_set. repeat case_decide; congruence. Qed.

(** A replay handles exactly the kept messages: the last of every type of this
    view and of every type and view of the others; only the handles of the text
    selection are replaced by empty ones. *)
Theorem replay_exact h m :
  m ∈ (forEach (run h)).2 <->
  m = "textselectionstart: " \/ m = "textselectionend: " \/
  (exists t, t ∈ own /\ t <> "textselectionstart" /\ t <> "textselectionend" /\ m = latest_own t h) \/
  (exists t v, t ∈ others /\ 0 <= v < 2 ^ 32 - 1 /\ latest_other t v h = Some m).
Proof.
  unfold forEach. cbn [snd]. rewrite elem_of_app.
  assert (Hown : m ∈ omap (fun t => obj_get t (cleanUpSelectionMessages (ownMessages (run h))))
                       (own_keys (cleanUpSelectionMessages (ownMessages (run h)))) <->
    m = "textselectionstart: " \/ m = "textselectionend: " \/
    (exists t, t ∈ own /\ t <> "textselectionstart" /\ t <> "textselectionend" /\ m = latest_own t h)).
  { rewrite elem_of_values. setoid_rewrite get_cleanUp. split.
    - intros (t & Hm). rewrite run_own in Hm. repeat case_decide; simplify_eq; auto.
      right; right. exists t. done.
    - intros [->|[->|(t & Ht & H1 & H2 & ->)]];
        [by exists "textselectionstart"|by exists "textselectionend"|].
      exists t. rewrite run_own, !(decide_False (P := t = _)) by done. by rewrite decide_True. }
  rewrite Hown. clear Hown.
  assert (Hoth : m ∈ concat (omap (fun t => array_values <$> obj_get t (othersMessages (run h)))
             (own_keys (othersMessages (run h)))) <->
    (exists t v, t ∈ others /\ 0 <= v < 2 ^ 32 - 1 /\ latest_other t v h = Some m)).
  { rewrite list_elem_of_In, in_concat. setoid_rewrite <- list_elem_of_In. split.
    - intros (l & Hl & Hm). apply list_elem_of_omap in Hl as (t & _ & Hl).
      pose proof (run_others h t) as H. case_decide; [|by rewrite H in Hl].
      destruct H as (views & E & _ & Hks & Hv). rewrite E in Hl. injection Hl as <-.
      apply (elem_of_array_values views m Hks) in Hm as (v & ? & Hg). rewrite Hv in Hg. eauto 6.
    - intros (t & v & Ht & Hv & Hm). pose proof (run_others h t) as H. rewrite decide_True in H by done.
      destruct H as (views & E & _ & Hks & Hg). exists (array_values views). split.
      + apply list_elem_of_omap. exists t. rewrite E. split; [|done].
        apply elem_of_own_keys_order, obj_get_is_Some. eauto.
      + apply (elem_of_array_values views m Hks). exists v. by rewrite Hg. }
  rewrite Hoth. tauto.
Qed.
End history.

(** The replay loses the handles of a text selection, whatever the selection: the
    kept handles are overwritten by empty ones before they are replayed, and the
    selection itself is kept. *)
Theorem replay_loses_handles a h :
  let s' := (forEach (run (ownViewTypes a) (otherViewTypes a) h)).1 in
  get "textselection" None s' = Some (latest_own "textselection" h) /\
  get "textselectionstart" None s' = Some "textselectionstart: " /\
  get "textselectionend" None s' = Some "textselectionend: ".
Proof.
  unfold forEach, get, cleanUpSelectionMessages. cbn [fst ownMessages].
  rewrite !obj_get_set, run_own. by destruct a.
Qed.

(** ** Witnesses *)

Definition sample_history : list store_op :=
  [Save "textselection" "textselection: 1, 2, 3, 4" None;
   Save "textviewselection" "textviewselection: a" (Some 3);
   Save "textselectionstart" "textselectionstart: 1, 2, 3" None].

Example sample_replay :
  (forEach (run (ownViewTypes Calc) (otherViewTypes Calc) sample_history)).2
  = [""; ""; ""; "textselection: 1, 2, 3, 4"; ""; "textselectionstart: "; "textselectionend: "; "";
     "textviewselection: a"].
Proof. by vm_compute. Qed.
