(* ===== verification/Views.v ===== *)
(** * The views of other users

    Models what the client knows and shows of the other views of a document: the list of views
    ([addView], [removeView], [_setFollowing] and their kin of src/browser/src/map/Map.js), the
    cursors, cell cursors, selections and selected objects of other views
    (src/browser/src/layer/tile/CanvasTileLayer.js), and following a view or the editor, with
    its controls (src/browser/src/control/Control.UserList.js, Control.Toolbar.js).

    What is shown is kept by kind: cursors in the document of the browser, cell cursors and
    selections among the paths of the overlay, objects in a group of layers.  An object that is
    shown is named by the view it was made for and a number.  Messages come parsed, with
    rectangles in twips of tiles; the conversions to core pixels, rounded or not, and to
    latitude and longitude are parameters, and an area stays the rectangles it is made of
    ([Polygons] has the outlines).  A handler returns its state and whether it raised an
    error. *)

From S2P Require Import Prelude Geometry MessageStore.
Local Open Scope Z_scope.

(** ** The data *)

(** [L.LatLngBounds] *)
Record llbounds := LatLng { west : Z; south : Z; east : Z; north : Z }.

Definition createDefault : llbounds := LatLng 0 0 0 0.

#[export] Instance llbounds_eq_dec : EqDecision llbounds.
Proof. solve_decision. Defined.

(** [_isEmptyRectangle] *)
Definition isEmptyRectangle (b : llbounds) : bool := bool_decide (b = createDefault).

Definition ll_contains (a b : llbounds) : bool :=
  (south a <=? south b) && (north b <=? north a) && (west a <=? west b) && (east b <=? east a).

(** An element of [viewinfo:].  [hasAvatar]: [userextrainfo] has an avatar; [readonly] is what
    [isViewReadOnly] makes of it. *)
Record info := Info { username : string; hasAvatar : bool; readonly : bool; color : Z }.

(** Entries of the tables; [None] is [undefined]. *)
Record view_cursor := ViewCursor {
  vc_bounds : option (llbounds * bounds);
  vc_part : option Z;
  vc_mode : option Z;
  vc_visible : option bool;
  vc_marker : option nat
}.

Record cell_cursor := CellCursor { cc_bounds : llbounds; cc_core : bounds; cc_part : option Z; cc_marker : option nat }.

Record view_selection := ViewSelection {
  vs_points : option (list bounds);
  vs_part : option Z;
  vs_mode : option Z;
  vs_selection : option nat
}.

Record graphic_marker := GraphicMarker {
  gm_bounds : option llbounds;
  gm_part : option Z;
  gm_mode : option Z;
  gm_marker : option nat
}.

Record tables := Tables {
  viewCursors : gmap Z view_cursor;
  cellViewCursors : gmap Z cell_cursor;
  viewSelections : gmap Z view_selection;
  graphicViewMarkers : gmap Z graphic_marker
}.

(** What is shown, of each kind. *)
Record screen := Screen {
  domCursors : gmap (Z * nat) bounds;
  cellPaths : gmap (Z * nat) bounds;
  selectionPaths : gmap (Z * nat) (list bounds);
  viewLayers : gmap (Z * nat) llbounds
}.

Record following := Following { followThis : Z; followUser : bool; followEditor : bool; editorId : Z }.

(** The place of the document that is shown, and the view of it. *)
Record place := Place { selectedPart : Z; selectedMode : Z; isZooming : bool; mapBounds : llbounds }.

Inductive effect :=
  | SaveForReplay (view : Z)
  (** A new centre, in quarters. *)
  | ScrollCenter (lng4 lat4 : Z)
  | ScrollTo (lng lat : Z)
  | ShowHeader (object : Z * nat)
  | BindPopup (object : Z * nat)
  | UpdateOwnCursor
  | DeselectUser (view : Z)
  | FollowChanged (view : Z) (user editor : bool)
  | EditorName (name : string).

Record views := Views {
  viewId : option Z;
  viewInfo : gmap Z info;
  viewInfoByUserName : gmap string info;
  tabs : tables;
  scr : screen;
  follow : following;
  at_place : place;
  fresh : nat;
  log : list effect
}.

Definition set_tabs (t : tables) (st : views) : views :=
  Views (viewId st) (viewInfo st) (viewInfoByUserName st) t (scr st) (follow st) (at_place st) (fresh st) (log st).
Definition set_info (i : gmap Z info) (n : gmap string info) (st : views) : views :=
  Views (viewId st) i n (tabs st) (scr st) (follow st) (at_place st) (fresh st) (log st).
Definition set_screen (s : screen) (st : views) : views :=
  Views (viewId st) (viewInfo st) (viewInfoByUserName st) (tabs st) s (follow st) (at_place st) (fresh st) (log st).
Definition set_follow (f : following) (st : views) : views :=
  Views (viewId st) (viewInfo st) (viewInfoByUserName st) (tabs st) (scr st) f (at_place st) (fresh st) (log st).
Definition set_place (p : place) (st : views) : views :=
  Views (viewId st) (viewInfo st) (viewInfoByUserName st) (tabs st) (scr st) (follow st) p (fresh st) (log st).
Definition set_viewId (i : option Z) (st : views) : views :=
  Views i (viewInfo st) (viewInfoByUserName st) (tabs st) (scr st) (follow st) (at_place st) (fresh st) (log st).
Definition use_number (st : views) : views :=
  Views (viewId st) (viewInfo st) (viewInfoByUserName st) (tabs st) (scr st) (follow st) (at_place st) (S (fresh st)) (log st).
Definition say (e : effect) (st : views) : views :=
  Views (viewId st) (viewInfo st) (viewInfoByUserName st) (tabs st) (scr st) (follow st) (at_place st) (fresh st) (log st ++ [e]).

Definition set_cursors (c : gmap Z view_cursor) (st : views) : views :=
  let t := tabs st in set_tabs (Tables c (cellViewCursors t) (viewSelections t) (graphicViewMarkers t)) st.
Definition set_cells (c : gmap Z cell_cursor) (st : views) : views :=
  let t := tabs st in set_tabs (Tables (viewCursors t) c (viewSelections t) (graphicViewMarkers t)) st.
Definition set_selections (c : gmap Z view_selection) (st : views) : views :=
  let t := tabs st in set_tabs (Tables (viewCursors t) (cellViewCursors t) c (graphicViewMarkers t)) st.
Definition set_graphics (c : gmap Z graphic_marker) (st : views) : views :=
  let t := tabs st in set_tabs (Tables (viewCursors t) (cellViewCursors t) (viewSelections t) c) st.

Definition on_dom (f : gmap (Z * nat) bounds -> gmap (Z * nat) bounds) (st : views) : views :=
  let s := scr st in set_screen (Screen (f (domCursors s)) (cellPaths s) (selectionPaths s) (viewLayers s)) st.
Definition on_cells (f : gmap (Z * nat) bounds -> gmap (Z * nat) bounds) (st : views) : views :=
  let s := scr st in set_screen (Screen (domCursors s) (f (cellPaths s)) (selectionPaths s) (viewLayers s)) st.
Definition on_selections (f : gmap (Z * nat) (list bounds) -> gmap (Z * nat) (list bounds)) (st : views) : views :=
  let s := scr st in set_screen (Screen (domCursors s) (cellPaths s) (f (selectionPaths s)) (viewLayers s)) st.
Definition on_layers (f : gmap (Z * nat) llbounds -> gmap (Z * nat) llbounds) (st : views) : views :=
  let s := scr st in set_screen (Screen (domCursors s) (cellPaths s) (selectionPaths s) (f (viewLayers s))) st.

(** The end of a handler, and sequence: an error ends it. *)
Definition outcome : Type := views * bool.
Definition ok (st : views) : outcome := (st, false).
Definition raise (st : views) : outcome := (st, true).
Definition andThen (o : outcome) (f : views -> outcome) : outcome := if o.2 then o else f o.1.

Definition known (id : Z) (st : views) : bool := bool_decide (is_Some (viewInfo st !! id)).

Section Views.
Variable app : app.
Variable toLatLng : bounds -> llbounds.
Variable toCore : bounds -> bounds.
Variable toCorePixels : bounds -> bounds.
Variable idColor : Z -> Z.

(** ** What is shown of a view *)

(** Whether the part and the mode of something are the ones that are shown. *)
Definition in_place (part mode : option Z) (st : views) : bool :=
  isWriter app ||
  (bool_decide (Some (selectedPart (at_place st)) = part) &&
   (selectedMode (at_place st) =? default 0 mode)).

(** [_onUpdateViewCursor] *)
Definition onUpdateViewCursor (id : Z) (st : views) : outcome :=
  match viewCursors (tabs st) !! id with
  | None => ok st
  | Some c =>
      match vc_bounds c with
      | None => ok st
      | Some (ll, core) =>
          match viewInfo st !! id with
          | None => raise st
          | Some i =>
              if negb (readonly i) && default false (vc_visible c) && negb (isZooming (at_place st)) &&
                 negb (isEmptyRectangle ll) && in_place (vc_part c) (vc_mode c) st
              then
                let '(n, st) :=
                  match vc_marker c with
                  | Some n => (n, st)
                  | None =>
                      let n := fresh st in
                      (n, use_number (set_cursors
                        (<[id := ViewCursor (vc_bounds c) (vc_part c) (vc_mode c) (vc_visible c) (Some n)]> (viewCursors (tabs st))) st))
                  end in
                ok (say (ShowHeader (id, n)) (on_dom (insert (id, n) core) st))
              else
                match vc_marker c with
                | Some n => ok (on_dom (delete (id, n)) st)
                | None => ok st
                end
          end
      end
  end.

(** [_onUpdateCellViewCursor]; cell cursors have no mode. *)
Definition onUpdateCellViewCursor (id : Z) (st : views) : outcome :=
  match cellViewCursors (tabs st) !! id with
  | None => ok st
  | Some c =>
      if negb (isEmptyRectangle (cc_bounds c)) && bool_decide (Some (selectedPart (at_place st)) = cc_part c) &&
         (selectedMode (at_place st) =? 0) && known id st
      then
        match cc_marker c with
        | None =>
            let n := fresh st in
            ok (on_cells (insert (id, n) (cc_core c))
                 (use_number (set_cells (<[id := CellCursor (cc_bounds c) (cc_core c) (cc_part c) (Some n)]> (cellViewCursors (tabs st))) st)))
        | Some n => ok (on_cells (insert (id, n) (cc_core c)) st)
        end
      else
        match cc_marker c with
        | Some n =>
            ok (set_cells (<[id := CellCursor (cc_bounds c) (cc_core c) (cc_part c) None]> (cellViewCursors (tabs st)))
                 (on_cells (delete (id, n)) st))
        | None => ok st
        end
  end.

(** [_onUpdateTextViewSelection] *)
Definition onUpdateTextViewSelection (id : Z) (st : views) : outcome :=
  match viewSelections (tabs st) !! id with
  | None => raise st
  | Some s =>
      let clear := match vs_selection s with
                   | Some n => ok (on_selections (insert (id, n) []) st)
                   | None => ok st
                   end in
      match vs_points s with
      | Some points =>
          if in_place (vs_part s) (vs_mode s) st then
            match vs_selection s with
            | Some n => if known id st then ok (on_selections (insert (id, n) points) st) else clear
            | None =>
                if known id st then
                  let n := fresh st in
                  ok (on_selections (insert (id, n) points)
                       (use_number (set_selections (<[id := ViewSelection (vs_points s) (vs_part s) (vs_mode s) (Some n)]> (viewSelections (tabs st))) st)))
                else raise st
            end
          else clear
      | None => clear
      end
  end.

(** [_onUpdateGraphicViewSelection] *)
Definition onUpdateGraphicViewSelection (id : Z) (st : views) : outcome :=
  match graphicViewMarkers (tabs st) !! id with
  | None => raise st
  | Some g =>
      let hide := match gm_marker g with
                  | Some n => ok (on_layers (delete (id, n)) st)
                  | None => ok st
                  end in
      match gm_bounds g with
      | Some b =>
          if negb (isEmptyRectangle b) && in_place (gm_part g) (gm_mode g) st then
            match gm_marker g with
            | Some n => ok (on_layers (insert (id, n) b) st)
            | None =>
                if known id st then
                  let n := fresh st in
                  ok (on_layers (insert (id, n) b)
                       (use_number (set_graphics (<[id := GraphicMarker (gm_bounds g) (gm_part g) (gm_mode g) (Some n)]> (graphicViewMarkers (tabs st))) st)))
                else raise st
            end
          else hide
      | None => hide
      end
  end.

(** [eachView]: the keys in their order. *)
Definition keys_of {A} (m : gmap Z A) : list Z := merge_sort Z.le (map_to_list m).*1.

Definition eachView (keys : list Z) (f : Z -> views -> outcome) (st : views) : outcome :=
  foldl (fun o id => andThen o (f id)) (ok st) keys.

Definition updateAllViewCursors (st : views) : outcome := eachView (keys_of (viewCursors (tabs st))) onUpdateViewCursor st.
Definition updateAllCellViewCursors (st : views) : outcome := eachView (keys_of (cellViewCursors (tabs st))) onUpdateCellViewCursor st.
Definition updateAllTextViewSelection (st : views) : outcome := eachView (keys_of (viewSelections (tabs st))) onUpdateTextViewSelection st.
Definition updateAllGraphicViewSelections (st : views) : outcome := eachView (keys_of (graphicViewMarkers (tabs st))) onUpdateGraphicViewSelection st.

(** ** Following *)

Definition quarters_center (b : llbounds) : Z * Z := (2 * (west b + east b), 2 * (south b + north b)).

(** [goToCellViewCursor].  A quarter of the width and height of the cell stays around it. *)
Definition goToCellViewCursor (id : Z) (st : views) : outcome :=
  match cellViewCursors (tabs st) !! id with
  | None => ok st
  | Some c =>
      let b := cc_bounds c in
      if isEmptyRectangle b then ok st
      else
        let m := mapBounds (at_place st) in
        let st :=
          if ll_contains m b then st
          else
            let spacingX := Z.abs (east b - west b) in
            let spacingY := Z.abs (south b - north b) in
            let scrollX :=
              if west b <? west m then 4 * (west b - west m) - spacingX
              else if east m <? east b then 4 * (east b - east m) + spacingX else 0 in
            let scrollY :=
              if north m <? north b then 4 * (north b - north m) + spacingY
              else if south b <? south m then 4 * (south b - south m) - spacingY else 0 in
            if negb (scrollX =? 0) || negb (scrollY =? 0) then
              let '(lng, lat) := quarters_center m in
              say (ScrollCenter lng (lat + scrollX + scrollY)) st
            else st in
        if known id st then
          match cc_marker c with
          | Some n => ok (say (BindPopup (id, n)) st)
          | None => raise st
          end
        else raise st
  end.

(** [goToViewCursor] *)
Definition goToViewCursor (id : Z) (st : views) : outcome :=
  if bool_decide (Some id = viewId st) then ok (say UpdateOwnCursor st)
  else
    match viewCursors (tabs st) !! id with
    | None => ok st
    | Some c =>
        match vc_bounds c with
        | Some (ll, _) =>
            if default false (vc_visible c) && negb (isEmptyRectangle ll) then
              let st := if ll_contains (mapBounds (at_place st)) ll then st else say (ScrollTo (west ll) (north ll)) st in
              match vc_marker c with
              | Some n => ok (say (ShowHeader (id, n)) st)
              | None => raise st
              end
            else ok st
        | None => ok st
        end
    end.

(** [_goToViewId] *)
Definition goToViewId (id : Z) (st : views) : outcome :=
  if id =? -1 then ok st else if isCalc app then goToCellViewCursor id st else goToViewCursor id st.

Definition set_followThis (id : Z) (st : views) : views :=
  let f := follow st in set_follow (Following id (followUser f) (followEditor f) (editorId f)) st.

Definition set_flags (user editor : bool) (st : views) : views :=
  let f := follow st in set_follow (Following (followThis f) user editor (editorId f)) st.

(** [_setFollowing].  The view is compared with [_docLayer.viewId], which is never set: our
    own view is [_docLayer._viewId]. *)
Definition setFollowing (followingState : option bool) (id : option Z) (st : views) : outcome :=
  let user := match id with Some v => negb (v =? -1) | None => false end in
  let off := bool_decide (followingState = Some false) in
  let followUser := user && negb off in
  let followEditor := negb user && negb off in
  let st := set_flags followUser followEditor st in
  let o :=
    if followUser then andThen (goToViewId (default (-1) id) st) (fun st => ok (set_followThis (default (-1) id) st))
    else if followEditor then
      let e := editorId (follow st) in
      if negb (e =? -1) then andThen (goToViewId e st) (fun st => ok (set_followThis e st)) else ok st
    else ok (set_followThis (-1) (say (DeselectUser (followThis (follow st))) st)) in
  andThen o (fun st => ok (say (FollowChanged (followThis (follow st)) followUser followEditor) st)).

(** [followUser] of the list of users; [None]: we have no view yet. *)
Definition userList_followUser (id : option Z) (st : views) : outcome :=
  let go := match id with
            | Some v => goToViewId v st
            | None => if isCalc app then ok st else ok (say UpdateOwnCursor st)
            end in
  andThen go (fun st =>
    if bool_decide (id = viewId st) then setFollowing (Some false) None st
    else
      andThen (if followThis (follow st) =? -1 then ok st else setFollowing (Some false) None st) (fun st =>
        ok (set_flags true false (set_followThis (default (-1) id) st)))).

(** [editorUpdate], the box to follow the editor. *)
Definition editorUpdate (checked : bool) (st : views) : outcome :=
  if checked then
    let e := editorId (follow st) in
    let st := set_flags false true st in
    if negb (e =? -1) && negb (bool_decide (Some e = viewId st))
    then andThen (goToViewId e st) (fun st => ok (set_followThis e st)) else ok st
  else ok (set_followThis (-1) (set_flags (followUser (follow st)) false st)).

(** [_updateEditor] *)
Definition updateEditor (id : Z) (st : views) : views :=
  let f := follow st in
  let st := set_follow (Following (if followEditor f then id else followThis f) (followUser f) (followEditor f) id) st in
  match viewInfo st !! id with Some i => say (EditorName (username i)) st | None => st end.

(** The list of users when a view is removed. *)
Definition onRemoveView (id : Z) (st : views) : views :=
  let f := follow st in
  if id =? followThis f then set_follow (Following (-1) false (followEditor f) (editorId f)) st else st.

(** ** Views come and go *)

(** [addView] of the map. *)
Definition map_addView (id : Z) (i : info) (st : views) : views :=
  set_info (<[id := i]> (viewInfo st))
    (if hasAvatar i then <[username i := i]> (viewInfoByUserName st) else viewInfoByUserName st) st.

(** [_addView] *)
Definition addView (id : Z) (i : info) (st : views) : outcome :=
  let i := if (color i =? 0) && negb (isWriter app) then Info (username i) (hasAvatar i) (readonly i) (idColor id) else i in
  let st := map_addView id i st in
  let st := match viewCursors (tabs st) !! id with
            | Some _ => set_cursors (<[id := ViewCursor None None None None None]> (viewCursors (tabs st))) st
            | None => st
            end in
  onUpdateViewCursor id st.

(** [removeView] of the map. *)
Definition map_removeView (id : Z) (st : views) : outcome :=
  match viewInfo st !! id with
  | None => raise st
  | Some i => ok (onRemoveView id (set_info (delete id (viewInfo st)) (delete (username i) (viewInfoByUserName st)) st))
  end.

Definition remove_selection (id : Z) (st : views) : views :=
  match viewSelections (tabs st) !! id with
  | Some s =>
      let st := match vs_selection s with Some n => on_selections (delete (id, n)) st | None => st end in
      set_selections (delete id (viewSelections (tabs st))) st
  | None => st
  end.

Definition remove_cursor (id : Z) (st : views) : outcome :=
  match viewCursors (tabs st) !! id with
  | Some c =>
      let c := ViewCursor (vc_bounds c) (vc_part c) (vc_mode c) (Some false) (vc_marker c) in
      andThen (onUpdateViewCursor id (set_cursors (<[id := c]> (viewCursors (tabs st))) st))
        (fun st => ok (set_cursors (delete id (viewCursors (tabs st))) st))
  | None => ok st
  end.

Definition remove_cell (id : Z) (st : views) : outcome :=
  match cellViewCursors (tabs st) !! id with
  | Some c =>
      let c := CellCursor createDefault (Bounds (Point 0 0) (Point 0 0)) (cc_part c) (cc_marker c) in
      andThen (onUpdateCellViewCursor id (set_cells (<[id := c]> (cellViewCursors (tabs st))) st))
        (fun st => ok (set_cells (delete id (cellViewCursors (tabs st))) st))
  | None => ok st
  end.

Definition remove_graphic (id : Z) (st : views) : outcome :=
  match graphicViewMarkers (tabs st) !! id with
  | Some g =>
      let g := GraphicMarker (Some createDefault) (Some 0) (Some 0) (gm_marker g) in
      andThen (onUpdateGraphicViewSelection id (set_graphics (<[id := g]> (graphicViewMarkers (tabs st))) st))
        (fun st => ok (set_graphics (delete id (graphicViewMarkers (tabs st))) st))
  | None => ok st
  end.

(** [_removeView] *)
Definition removeView (id : Z) (st : views) : outcome :=
  let st := remove_selection id st in
  andThen (remove_cursor id st) (fun st => andThen (remove_cell id st) (fun st =>
  andThen (remove_graphic id st) (map_removeView id))).

Definition removeAllViews (st : views) : outcome := eachView (keys_of (viewInfo st)) removeView st.

(** [_onViewInfoMsg] *)
Definition onViewInfoMsg (l : list (Z * info)) (st : views) : outcome :=
  andThen (foldl (fun o vi => andThen o (fun st => if known vi.1 st then ok st else addView vi.1 vi.2 st)) (ok st) l)
    (fun st => eachView (keys_of (viewInfo st))
       (fun id st => if bool_decide (id ∈ l.*1) then ok st else removeView id st) st).

(** ** Messages about views *)

Definition own_or_unknown (id : Z) (st : views) : bool := bool_decide (Some id = viewId st) || negb (known id st).

(** [_onInvalidateViewCursorMsg] *)
Definition onInvalidateViewCursorMsg (id : Z) (rectangle : option bounds) (part : Z) (mode : option Z) (st : views) : outcome :=
  if own_or_unknown id st then ok st
  else
    match rectangle with
    | None => ok st
    | Some r =>
        let '(visible, marker) := match viewCursors (tabs st) !! id with
                                  | Some c => (vc_visible c, vc_marker c)
                                  | None => (None, None)
                                  end in
        let c := ViewCursor (Some (toLatLng r, toCore r)) (Some part) (Some (default 0 mode)) (Some (default true visible)) marker in
        andThen (onUpdateViewCursor id (set_cursors (<[id := c]> (viewCursors (tabs st))) st)) (fun st =>
        andThen (if (followThis (follow st) =? id) && (followEditor (follow st) || followUser (follow st))
                 then (if isCalc app then goToCellViewCursor id st else goToViewCursor id st) else ok st) (fun st =>
        ok (say (SaveForReplay id) st)))
    end.

(** [_onViewCursorVisibleMsg] *)
Definition onViewCursorVisibleMsg (id : Z) (visible : bool) (st : views) : outcome :=
  if own_or_unknown id st then ok st
  else
    onUpdateViewCursor id
      (match viewCursors (tabs st) !! id with
       | Some c => set_cursors (<[id := ViewCursor (vc_bounds c) (vc_part c) (vc_mode c) (Some visible) (vc_marker c)]> (viewCursors (tabs st))) st
       | None => st
       end).

(** [_onCellViewCursorMsg]; no rectangle: [EMPTY]. *)
Definition onCellViewCursorMsg (id : Z) (rectangle : option bounds) (part : Z) (st : views) : outcome :=
  if bool_decide (Some id = viewId st) then ok st
  else
    let marker := match cellViewCursors (tabs st) !! id with Some c => cc_marker c | None => None end in
    let '(ll, core) := match rectangle with
                       | Some r => (toLatLng r, toCorePixels r)
                       | None => (createDefault, Bounds (Point 0 0) (Point 0 0))
                       end in
    andThen (onUpdateCellViewCursor id (set_cells (<[id := CellCursor ll core (Some part) marker]> (cellViewCursors (tabs st))) st))
      (fun st => ok (if isCalc app then say (SaveForReplay id) st else st)).

(** [_onTextViewSelectionMsg] *)
Definition onTextViewSelectionMsg (id : Z) (rectangles : list bounds) (part : Z) (mode : option Z) (st : views) : outcome :=
  if own_or_unknown id st then ok st
  else
    let s := default (ViewSelection None None None None) (viewSelections (tabs st) !! id) in
    let s := match rectangles with
             | [] => ViewSelection (Some []) (vs_part s) (vs_mode s) (vs_selection s)
             | _ => ViewSelection (Some (map toCorePixels rectangles)) (Some part) (Some (default 0 mode)) (vs_selection s)
             end in
    andThen (onUpdateTextViewSelection id (set_selections (<[id := s]> (viewSelections (tabs st))) st))
      (fun st => ok (say (SaveForReplay id) st)).

(** [_onGraphicViewSelectionMsg]; no rectangle: nothing is selected. *)
Definition onGraphicViewSelectionMsg (id : Z) (rectangle : option bounds) (part : Z) (mode : option Z) (st : views) : outcome :=
  if own_or_unknown id st then ok st
  else
    let marker := match graphicViewMarkers (tabs st) !! id with Some g => gm_marker g | None => None end in
    let b := match rectangle with Some r => toLatLng r | None => createDefault end in
    andThen (onUpdateGraphicViewSelection id
      (set_graphics (<[id := GraphicMarker (Some b) (Some part) (Some (default 0 mode)) marker]> (graphicViewMarkers (tabs st))) st))
      (fun st => ok (if isCalc app then say (SaveForReplay id) st else st)).

(** ** The document is shown elsewhere *)

Definition show_part (part mode : Z) (st : views) : views :=
  set_place (Place part mode (isZooming (at_place st)) (mapBounds (at_place st))) st.

(** [setPart], as far as views are concerned. *)
Definition setPart (part : Z) (st : views) : outcome :=
  andThen (updateAllViewCursors (show_part part (selectedMode (at_place st)) st)) (fun st =>
  andThen (updateAllCellViewCursors st) (fun st =>
  andThen (updateAllGraphicViewSelections st) updateAllTextViewSelection)).

(** The messages [status:] and [statusupdate:]. *)
Definition onStatus (part mode : Z) (st : views) : outcome :=
  andThen (updateAllGraphicViewSelections (show_part part mode st)) (fun st =>
  andThen (updateAllViewCursors st) updateAllTextViewSelection).

(** [_onEmbeddedVideoContent], where an object is selected: the objects others selected are
    taken off the video. *)
Definition onEmbeddedVideoContent (st : views) : views :=
  foldl (fun st id =>
    match graphicViewMarkers (tabs st) !! id with
    | Some g => match gm_marker g with
                | Some n => if known id st then on_layers (delete (id, n)) st else st
                | None => st
                end
    | None => st
    end) st (keys_of (graphicViewMarkers (tabs st))).

Definition set_zooming (z : bool) (st : views) : views :=
  let p := at_place st in set_place (Place (selectedPart p) (selectedMode p) z (mapBounds p)) st.

Inductive event :=
  | ViewInfo (l : list (Z * info))
  | RemoveAllViews
  | OwnView (id : option Z)
  | InvalidateViewCursor (id : Z) (rectangle : option bounds) (part : Z) (mode : option Z)
  | ViewCursorVisible (id : Z) (visible : bool)
  | CellViewCursor (id : Z) (rectangle : option bounds) (part : Z)
  | TextViewSelection (id : Z) (rectangles : list bounds) (part : Z) (mode : option Z)
  | GraphicViewSelection (id : Z) (rectangle : option bounds) (part : Z) (mode : option Z)
  | SetPart (part : Z)
  | Status (part mode : Z)
  | EmbeddedVideo
  | ZoomStart
  | ZoomEnd
  | Move (m : llbounds)
  | Editor (id : Z)
  | SetFollowing (followingState : option bool) (id : option Z)
  | FollowUser (id : option Z)
  | FollowEditor (checked : bool).

Definition handle (ev : event) (st : views) : outcome :=
  match ev with
  | ViewInfo l => onViewInfoMsg l st
  | RemoveAllViews => removeAllViews st
  | OwnView id => ok (set_viewId id st)
  | InvalidateViewCursor id r part mode => onInvalidateViewCursorMsg id r part mode st
  | ViewCursorVisible id visible => onViewCursorVisibleMsg id visible st
  | CellViewCursor id r part => onCellViewCursorMsg id r part st
  | TextViewSelection id l part mode => onTextViewSelectionMsg id l part mode st
  | GraphicViewSelection id r part mode => onGraphicViewSelectionMsg id r part mode st
  | SetPart part => setPart part st
  | Status part mode => onStatus part mode st
  | EmbeddedVideo => ok (onEmbeddedVideoContent st)
  | ZoomStart => ok (set_zooming true st)
  | ZoomEnd => updateAllViewCursors (set_zooming false st)
  | Move m => ok (set_place (Place (selectedPart (at_place st)) (selectedMode (at_place st)) (isZooming (at_place st)) m) st)
  | Editor id => ok (updateEditor id st)
  | SetFollowing b id => setFollowing b id st
  | FollowUser id => userList_followUser id st
  | FollowEditor b => editorUpdate b st
  end.

Definition run (evs : list event) (st : views) : views := foldl (fun st ev => (handle ev st).1) st evs.

Definition new_views : views :=
  Views None ∅ ∅ (Tables ∅ ∅ ∅ ∅) (Screen ∅ ∅ ∅ ∅) (Following (-1) false false (-1))
    (Place 0 0 false (LatLng 0 0 0 0)) 0 [].

(** ** What is shown belongs to a view *)

(** Each object that is shown is the one of the entry of its view, and the view is known. *)
Definition owned {E P} (marker : E -> option nat) (t : gmap Z E) (s : gmap (Z * nat) P) (i : gmap Z info) : Prop :=
  forall id n p, s !! (id, n) = Some p -> exists e, t !! id = Some e /\ marker e = Some n /\ is_Some (i !! id).

Section owned.
Context {E P : Type} (marker : E -> option nat).
Implicit Types (t : gmap Z E) (s : gmap (Z * nat) P) (i : gmap Z info).

Lemma owned_entry t s i id e :
  owned marker t s i -> (forall e0, t !! id = Some e0 -> marker e0 = marker e) -> owned marker (<[id := e]> t) s i.
Proof.
  intros Ho He id' n p Hs. destruct (Ho id' n p Hs) as (e' & Ht & Hm & Hi).
  destruct (decide (id' = id)) as [->|Hne].
  - exists e. rewrite lookup_insert_eq, <- (He e' Ht). done.
  - exists e'. by rewrite lookup_insert_ne.
Qed.

Lemma owned_fresh t s i id e e' :
  owned marker t s i -> t !! id = Some e -> marker e = None -> owned marker (<[id := e']> t) s i.
Proof.
  intros Ho He Hm id' n p Hs. destruct (Ho id' n p Hs) as (e0 & Ht & Hm0 & Hi).
  destruct (decide (id' = id)) as [->|Hne]; [congruence|]. exists e0. by rewrite lookup_insert_ne.
Qed.

Lemma owned_show t s i id e n p :
  owned marker t s i -> t !! id = Some e -> marker e = Some n -> is_Some (i !! id) -> owned marker t (<[(id, n) := p]> s) i.
Proof.
  intros Ho He Hm Hi id' n' p'. rewrite lookup_insert_Some. intros [[[= <- <-] _]|[_ Hs]]; [by exists e|by eapply Ho].
Qed.

Lemma owned_hide t s i k : owned marker t s i -> owned marker t (delete k s) i.
Proof. intros Ho id n p. rewrite lookup_delete_Some. intros [_ Hs]. by eapply Ho. Qed.

(** Hiding the object of an entry leaves none of its view. *)
Lemma hidden t s i id e n :
  owned marker t s i -> t !! id = Some e -> marker e = Some n -> forall n', delete (id, n) s !! (id, n') = None.
Proof.
  intros Ho He Hm n'. destruct (decide (n' = n)) as [->|Hne]; [by rewrite lookup_delete_eq|].
  rewrite lookup_delete_ne by congruence. apply eq_None_not_Some. intros [p Hp]. destruct (Ho id n' p Hp) as (e' & ? & ? & _). congruence.
Qed.

Lemma none_shown t s i id e :
  owned marker t s i -> t !! id = Some e -> marker e = None -> forall n', s !! (id, n') = None.
Proof. intros Ho He Hm n'. apply eq_None_not_Some. intros [p Hp]. destruct (Ho id n' p Hp) as (e' & ? & ? & _). congruence. Qed.

Lemma absent_none t s i id : owned marker t s i -> t !! id = None -> forall n, s !! (id, n) = None.
Proof. intros Ho He n. apply eq_None_not_Some. intros [p Hp]. destruct (Ho id n p Hp) as (e' & ? & _). congruence. Qed.

Lemma owned_drop t s i id : owned marker t s i -> (forall n, s !! (id, n) = None) -> owned marker (delete id t) s i.
Proof.
  intros Ho Hn id' n p Hs. destruct (Ho id' n p Hs) as (e & Ht & Hm & Hi). exists e. rewrite lookup_delete_ne; [done|].
  intros <-. by rewrite Hn in Hs.
Qed.

Lemma owned_info t s i id x : owned marker t s i -> owned marker t s (<[id := x]> i).
Proof.
  intros Ho id' n p Hs. destruct (Ho id' n p Hs) as (e & ? & ? & Hi). exists e. split_and!; [done..|].
  rewrite lookup_insert_is_Some. destruct (decide (id = id')); auto.
Qed.

Lemma owned_forget t s i id : owned marker t s i -> (forall n, s !! (id, n) = None) -> owned marker t s (delete id i).
Proof.
  intros Ho Hn id' n p Hs. destruct (Ho id' n p Hs) as (e & ? & ? & Hi). exists e. rewrite lookup_delete_ne; [done|].
  intros <-. by rewrite Hn in Hs.
Qed.

Lemma owned_replace t s i id e : owned marker t s i -> (forall n, s !! (id, n) = None) -> owned marker (<[id := e]> t) s i.
Proof.
  intros Ho Hn id' n p Hs. destruct (Ho id' n p Hs) as (e' & Ht & Hm & Hi). exists e'. rewrite lookup_insert_ne; [done|].
  intros <-. by rewrite Hn in Hs.
Qed.

Lemma owned_dom t s i : owned marker t s i -> forall id n p, s !! (id, n) = Some p -> is_Some (i !! id).
Proof. intros Ho id n p Hs. by destruct (Ho id n p Hs) as (? & _ & _ & ?). Qed.
End owned.

(** Entries are of known views. *)
Definition all_known {E} (t : gmap Z E) (i : gmap Z info) : Prop := forall id, is_Some (t !! id) -> is_Some (i !! id).

Record good (st : views) : Prop := Good {
  good_cursors : owned vc_marker (viewCursors (tabs st)) (domCursors (scr st)) (viewInfo st);
  good_cells : owned cc_marker (cellViewCursors (tabs st)) (cellPaths (scr st)) (viewInfo st);
  good_selections : owned vs_selection (viewSelections (tabs st)) (selectionPaths (scr st)) (viewInfo st);
  good_graphics : owned gm_marker (graphicViewMarkers (tabs st)) (viewLayers (scr st)) (viewInfo st);
  bare_cursors : forall id c, viewCursors (tabs st) !! id = Some c -> vc_bounds c = None -> vc_marker c = None;
  known_cursors : all_known (viewCursors (tabs st)) (viewInfo st);
  known_selections : all_known (viewSelections (tabs st)) (viewInfo st);
  known_graphics : all_known (graphicViewMarkers (tabs st)) (viewInfo st)
}.

Lemma all_known_insert {E} (t : gmap Z E) i id e : all_known t i -> is_Some (i !! id) -> all_known (<[id := e]> t) i.
Proof. intros Hk Hi id'. rewrite lookup_insert_is_Some'. intros [<-|H]; auto. Qed.

Lemma all_known_delete {E} (t : gmap Z E) i id : all_known t i -> all_known (delete id t) i.
Proof. intros Hk id' [e He%lookup_delete_Some]. apply Hk. exists e. exact (proj2 He). Qed.

Lemma all_known_info {E} (t : gmap Z E) i id x : all_known t i -> all_known t (<[id := x]> i).
Proof. intros Hk id' He. rewrite lookup_insert_is_Some'. auto. Qed.

(** ** One kind at a time *)

(** What an update of one kind leaves alone. *)
Record same_rest (st st' : views) : Prop := SameRest {
  rest_info : viewInfo st' = viewInfo st;
  rest_place : at_place st' = at_place st;
  rest_follow : follow st' = follow st;
  rest_viewId : viewId st' = viewId st
}.

(** What an update of the cursor of a view does: it is shown exactly where it is due, and
    nothing else changes. *)
Definition cursor_due (id : Z) (st : views) : option bounds :=
  c ← viewCursors (tabs st) !! id;
  '(ll, core) ← vc_bounds c;
  i ← viewInfo st !! id;
  if negb (readonly i) && default false (vc_visible c) && negb (isZooming (at_place st)) &&
     negb (isEmptyRectangle ll) && in_place (vc_part c) (vc_mode c) st then Some core else None.

Definition shows {P} (real : P -> Prop) (s : gmap (Z * nat) P) (id : Z) (due : option P) : Prop :=
  forall p, real p -> ((exists n, s !! (id, n) = Some p) <-> due = Some p).

(** A selection that was cleared is still a path, but without points. *)
Definition anything {P} (_ : P) : Prop := True.
Definition has_points (l : list bounds) : Prop := l <> [].

Lemma shows_none {P} (real : P -> Prop) (s : gmap (Z * nat) P) id : (forall n, s !! (id, n) = None) -> shows real s id None.
Proof. intros Hn p _. split; [intros [n Hs]; by rewrite Hn in Hs|done]. Qed.

Lemma shows_one {E P} (real : P -> Prop) (marker : E -> option nat) (t : gmap Z E) (s : gmap (Z * nat) P) (i : gmap Z info) id e n p :
  owned marker t s i -> t !! id = Some e -> marker e = Some n -> shows real (<[(id, n) := p]> s) id (Some p).
Proof.
  intros Ho He Hm p' _. split.
  - intros [n' [[[= _] <-]|[Hne Hs]]%lookup_insert_Some]; [done|]. destruct (Ho id n' p' Hs) as (e' & ? & ? & _). congruence.
  - intros [= <-]. exists n. by rewrite lookup_insert_eq.
Qed.

Lemma shows_other {P} (real : P -> Prop) (s : gmap (Z * nat) P) id id' n p due :
  id' <> id -> shows real s id' due -> shows real (<[(id, n) := p]> s) id' due.
Proof. intros Hne Hs p' Hp'. rewrite <- (Hs p' Hp'). by setoid_rewrite lookup_insert_ne; [|congruence..]. Qed.

Lemma shows_delete {P} (real : P -> Prop) (s : gmap (Z * nat) P) id id' n due :
  id' <> id -> shows real s id' due -> shows real (delete (id, n) s) id' due.
Proof. intros Hne Hs p' Hp'. rewrite <- (Hs p' Hp'). by setoid_rewrite lookup_delete_ne; [|congruence..]. Qed.

Lemma shows_cleared {E} (marker : E -> option nat) (t : gmap Z E) (s : gmap (Z * nat) (list bounds)) (i : gmap Z info) id e n :
  owned marker t s i -> t !! id = Some e -> marker e = Some n -> shows has_points (<[(id, n) := []]> s) id None.
Proof.
  intros Ho He Hm p Hp. rewrite (shows_one anything marker t s i id e n [] Ho He Hm p I). split; [intros [= <-]; by destruct Hp|done].
Qed.

Record cursor_update (id : Z) (st st' : views) : Prop := CursorUpdate {
  cu_rest : same_rest st st';
  cu_cells : cellViewCursors (tabs st') = cellViewCursors (tabs st) /\ cellPaths (scr st') = cellPaths (scr st);
  cu_selections : viewSelections (tabs st') = viewSelections (tabs st) /\ selectionPaths (scr st') = selectionPaths (scr st);
  cu_graphics : graphicViewMarkers (tabs st') = graphicViewMarkers (tabs st) /\ viewLayers (scr st') = viewLayers (scr st);
  cu_due : forall id', cursor_due id' st' = cursor_due id' st;
  cu_keys : forall id', is_Some (viewCursors (tabs st') !! id') <-> is_Some (viewCursors (tabs st) !! id');
  cu_good : good st';
  cu_shows : shows anything (domCursors (scr st')) id (cursor_due id st);
  cu_others : forall id', id' <> id -> forall due, shows anything (domCursors (scr st)) id' due -> shows anything (domCursors (scr st')) id' due
}.

Lemma onUpdateViewCursor_spec id st :
  good st -> (onUpdateViewCursor id st).2 = false /\ cursor_update id st (onUpdateViewCursor id st).1.
Proof.
  intros Hg. pose proof Hg as [Hcu Hce Hse Hgr Hba Hkc Hks Hkg].
  unfold onUpdateViewCursor. destruct (viewCursors (tabs st) !! id) as [c|] eqn:Hc.
  2:{ split; [done|]. split; try done. unfold cursor_due. rewrite Hc. apply shows_none. by eapply absent_none. }
  destruct (Hkc id ltac:(by eexists)) as [i Hi].
  assert (Hd : cursor_due id st = '(ll, core) ← vc_bounds c;
    if negb (readonly i) && default false (vc_visible c) && negb (isZooming (at_place st)) &&
       negb (isEmptyRectangle ll) && in_place (vc_part c) (vc_mode c) st then Some core else None).
  { unfold cursor_due. rewrite Hc. cbn [mbind option_bind]. destruct (vc_bounds c) as [[ll core]|]; [|done]. cbn [mbind option_bind]. by rewrite Hi. }
  destruct (vc_bounds c) as [[ll core]|] eqn:Hb.
  2:{ split; [done|]. split; try done. rewrite Hd. cbn. apply shows_none. eapply none_shown; eauto. }
  cbn [mbind option_bind] in Hd. rewrite Hi. destruct (_ && in_place _ _ _) eqn:Hcond.
  - destruct (vc_marker c) as [n|] eqn:Hm; (split; [done|]).
    + split; try done.
      * split; try done. by eapply owned_show.
      * rewrite Hd. by eapply shows_one.
      * intros id' Hne due. by apply shows_other.
    + set (c' := ViewCursor _ _ _ _ (Some (fresh st))). set (t := <[id := c']> (viewCursors (tabs st))).
      assert (Ho : owned vc_marker t (domCursors (scr st)) (viewInfo st)) by by eapply owned_fresh.
      assert (Ht : t !! id = Some c') by apply lookup_insert_eq. split; try done.
      * intros id'. unfold cursor_due. cbn. destruct (decide (id' = id)) as [->|Hne].
        -- rewrite Ht, Hc. cbn. by rewrite Hb.
        -- unfold t. by rewrite lookup_insert_ne.
      * intros id'. cbn. unfold t. rewrite lookup_insert_is_Some'. split; [intros [<-|?]; [by eexists|done]|auto].
      * split; try done; cbn.
        -- by eapply owned_show.
        -- intros id' c0. unfold t. rewrite lookup_insert_Some. intros [[_ <-]|[_ H0]]; [done|eauto].
        -- by apply all_known_insert; [|eexists].
      * rewrite Hd. by eapply (shows_one _ vc_marker t).
      * intros id' Hne due. by apply shows_other.
  - destruct (vc_marker c) as [n|] eqn:Hm; (split; [done|]).
    + split; try done.
      * split; try done. by apply owned_hide.
      * rewrite Hd. apply shows_none. by eapply hidden.
      * intros id' Hne due. by apply shows_delete.
    + split; try done. rewrite Hd. apply shows_none. by eapply none_shown.
Qed.

(** The same for cell cursors. *)
Definition cell_due (id : Z) (st : views) : option bounds :=
  c ← cellViewCursors (tabs st) !! id;
  if negb (isEmptyRectangle (cc_bounds c)) && bool_decide (Some (selectedPart (at_place st)) = cc_part c) &&
     (selectedMode (at_place st) =? 0) && known id st then Some (cc_core c) else None.

Record cell_update (id : Z) (st st' : views) : Prop := CellUpdate {
  ce_rest : same_rest st st';
  ce_cursors : viewCursors (tabs st') = viewCursors (tabs st) /\ domCursors (scr st') = domCursors (scr st);
  ce_selections : viewSelections (tabs st') = viewSelections (tabs st) /\ selectionPaths (scr st') = selectionPaths (scr st);
  ce_graphics : graphicViewMarkers (tabs st') = graphicViewMarkers (tabs st) /\ viewLayers (scr st') = viewLayers (scr st);
  ce_due : forall id', cell_due id' st' = cell_due id' st;
  ce_keys : forall id', is_Some (cellViewCursors (tabs st') !! id') <-> is_Some (cellViewCursors (tabs st) !! id');
  ce_good : good st';
  ce_shows : shows anything (cellPaths (scr st')) id (cell_due id st);
  ce_others : forall id', id' <> id -> forall due, shows anything (cellPaths (scr st)) id' due -> shows anything (cellPaths (scr st')) id' due
}.

(** Entries that differ in the marker are due the same. *)
Lemma cell_due_marker id st st' c n :
  cellViewCursors (tabs st) !! id = Some c ->
  cellViewCursors (tabs st') = <[id := CellCursor (cc_bounds c) (cc_core c) (cc_part c) n]> (cellViewCursors (tabs st)) ->
  at_place st' = at_place st -> viewInfo st' = viewInfo st -> forall id', cell_due id' st' = cell_due id' st.
Proof.
  intros Hc Ht Hp Hi id'. unfold cell_due, known. rewrite Ht, Hp, Hi. destruct (decide (id' = id)) as [->|Hne].
  - by rewrite lookup_insert_eq, Hc.
  - by rewrite lookup_insert_ne.
Qed.

Lemma keys_insert {E} (t : gmap Z E) id e e' id' : t !! id = Some e -> is_Some (<[id := e']> t !! id') <-> is_Some (t !! id').
Proof. intros He. rewrite lookup_insert_is_Some'. split; [intros [<-|?]; [by eexists|done]|auto]. Qed.

Lemma onUpdateCellViewCursor_spec id st :
  good st -> (onUpdateCellViewCursor id st).2 = false /\ cell_update id st (onUpdateCellViewCursor id st).1.
Proof.
  intros Hg. pose proof Hg as [Hcu Hce Hse Hgr Hba Hkc Hks Hkg].
  unfold onUpdateCellViewCursor. destruct (cellViewCursors (tabs st) !! id) as [c|] eqn:Hc.
  2:{ split; [done|]. split; try done. unfold cell_due. rewrite Hc. apply shows_none. by eapply absent_none. }
  assert (Hd : cell_due id st = if negb (isEmptyRectangle (cc_bounds c)) && bool_decide (Some (selectedPart (at_place st)) = cc_part c) &&
     (selectedMode (at_place st) =? 0) && known id st then Some (cc_core c) else None) by (unfold cell_due; by rewrite Hc).
  destruct (_ && known id st) eqn:Hcond.
  - assert (Hi : is_Some (viewInfo st !! id)) by (apply andb_true_iff in Hcond as [_ Hk]; by apply bool_decide_eq_true in Hk).
    destruct (cc_marker c) as [n|] eqn:Hm; (split; [done|]).
    + split; try done.
      * split; try done. by eapply owned_show.
      * rewrite Hd. by eapply shows_one.
      * intros id' Hne due. by apply shows_other.
    + set (c' := CellCursor _ _ _ (Some (fresh st))). set (t := <[id := c']> (cellViewCursors (tabs st))).
      assert (Ho : owned cc_marker t (cellPaths (scr st)) (viewInfo st)) by by eapply owned_fresh.
      assert (Ht : t !! id = Some c') by apply lookup_insert_eq. split; try done.
      * by apply (cell_due_marker id st _ c (Some (fresh st))).
      * intros id'. by eapply keys_insert.
      * split; try done. by eapply owned_show.
      * rewrite Hd. by eapply (shows_one _ cc_marker t).
      * intros id' Hne due. by apply shows_other.
  - destruct (cc_marker c) as [n|] eqn:Hm; (split; [done|]).
    + assert (Hh : forall n', delete (id, n) (cellPaths (scr st)) !! (id, n') = None) by by eapply hidden. split; try done.
      * by apply (cell_due_marker id st _ c None).
      * intros id'. by eapply keys_insert.
      * split; try done. apply owned_replace; [by apply owned_hide|exact Hh].
      * rewrite Hd. by apply shows_none.
      * intros id' Hne due. by apply shows_delete.
    + split; try done. rewrite Hd. apply shows_none. by eapply none_shown.
Qed.

(** The same for selected objects. *)
Definition graphic_due (id : Z) (st : views) : option llbounds :=
  g ← graphicViewMarkers (tabs st) !! id;
  b ← gm_bounds g;
  if negb (isEmptyRectangle b) && in_place (gm_part g) (gm_mode g) st then Some b else None.

Record graphic_update (id : Z) (st st' : views) : Prop := GraphicUpdate {
  gr_rest : same_rest st st';
  gr_cursors : viewCursors (tabs st') = viewCursors (tabs st) /\ domCursors (scr st') = domCursors (scr st);
  gr_cells : cellViewCursors (tabs st') = cellViewCursors (tabs st) /\ cellPaths (scr st') = cellPaths (scr st);
  gr_selections : viewSelections (tabs st') = viewSelections (tabs st) /\ selectionPaths (scr st') = selectionPaths (scr st);
  gr_due : forall id', graphic_due id' st' = graphic_due id' st;
  gr_keys : forall id', is_Some (graphicViewMarkers (tabs st') !! id') <-> is_Some (graphicViewMarkers (tabs st) !! id');
  gr_good : good st';
  gr_shows : shows anything (viewLayers (scr st')) id (graphic_due id st);
  gr_others : forall id', id' <> id -> forall due, shows anything (viewLayers (scr st)) id' due -> shows anything (viewLayers (scr st')) id' due
}.

Lemma graphic_due_marker id st st' g n :
  graphicViewMarkers (tabs st) !! id = Some g ->
  graphicViewMarkers (tabs st') = <[id := GraphicMarker (gm_bounds g) (gm_part g) (gm_mode g) n]> (graphicViewMarkers (tabs st)) ->
  at_place st' = at_place st -> forall id', graphic_due id' st' = graphic_due id' st.
Proof.
  intros Hc Ht Hp id'. unfold graphic_due, in_place. rewrite Ht, Hp. destruct (decide (id' = id)) as [->|Hne].
  - by rewrite lookup_insert_eq, Hc.
  - by rewrite lookup_insert_ne.
Qed.

Lemma hide_graphic id st g :
  good st -> graphicViewMarkers (tabs st) !! id = Some g -> graphic_due id st = None ->
  let o := match gm_marker g with Some n => ok (on_layers (delete (id, n)) st) | None => ok st end in
  o.2 = false /\ graphic_update id st o.1.
Proof.
  intros Hg Hc Hd. pose proof Hg as [Hcu Hce Hse Hgr Hba Hkc Hks Hkg]. cbv zeta.
  destruct (gm_marker g) as [n|] eqn:Hm; (split; [done|]).
  - split; try done.
    + split; try done. by apply owned_hide.
    + rewrite Hd. apply shows_none. by eapply hidden.
    + intros id' Hne due. by apply shows_delete.
  - split; try done. rewrite Hd. apply shows_none. by eapply none_shown.
Qed.

Lemma onUpdateGraphicViewSelection_spec id st :
  good st -> is_Some (graphicViewMarkers (tabs st) !! id) ->
  (onUpdateGraphicViewSelection id st).2 = false /\ graphic_update id st (onUpdateGraphicViewSelection id st).1.
Proof.
  intros Hg [g Hc]. pose proof Hg as [Hcu Hce Hse Hgr Hba Hkc Hks Hkg].
  pose proof (hide_graphic id st g Hg Hc) as Hhide. unfold onUpdateGraphicViewSelection. rewrite Hc.
  assert (Hd : graphic_due id st = b ← gm_bounds g; if negb (isEmptyRectangle b) && in_place (gm_part g) (gm_mode g) st then Some b else None)
    by (unfold graphic_due; by rewrite Hc).
  destruct (gm_bounds g) as [b|] eqn:Hb; [|by apply Hhide]. cbn [mbind option_bind] in Hd.
  destruct (_ && in_place _ _ _); [|by apply Hhide].
  assert (Hi : is_Some (viewInfo st !! id)) by (apply Hkg; by eexists).
  destruct (gm_marker g) as [n|] eqn:Hm.
  - split; [done|]. split; try done.
    + split; try done. by eapply owned_show.
    + rewrite Hd. by eapply shows_one.
    + intros id' Hne due. by apply shows_other.
  - unfold known. rewrite bool_decide_eq_true_2 by done. split; [done|].
    set (g' := GraphicMarker _ _ _ (Some (fresh st))). set (t := <[id := g']> (graphicViewMarkers (tabs st))).
    assert (Ho : owned gm_marker t (viewLayers (scr st)) (viewInfo st)) by by eapply owned_fresh.
    assert (Ht : t !! id = Some g') by apply lookup_insert_eq. split; try done.
    + apply (graphic_due_marker id st _ g (Some (fresh st))); [done| |done]. unfold t, g'. by rewrite Hb.
    + intros id'. by eapply keys_insert.
    + split; try done; [by eapply owned_show|by apply all_known_insert].
    + rewrite Hd. by eapply (shows_one _ gm_marker t).
    + intros id' Hne due. by apply shows_other.
Qed.

(** The same for selections. *)
Definition selection_due (id : Z) (st : views) : option (list bounds) :=
  s ← viewSelections (tabs st) !! id;
  points ← vs_points s;
  if in_place (vs_part s) (vs_mode s) st then Some points else None.

Record selection_update (id : Z) (st st' : views) : Prop := SelectionUpdate {
  se_rest : same_rest st st';
  se_cursors : viewCursors (tabs st') = viewCursors (tabs st) /\ domCursors (scr st') = domCursors (scr st);
  se_cells : cellViewCursors (tabs st') = cellViewCursors (tabs st) /\ cellPaths (scr st') = cellPaths (scr st);
  se_graphics : graphicViewMarkers (tabs st') = graphicViewMarkers (tabs st) /\ viewLayers (scr st') = viewLayers (scr st);
  se_due : forall id', selection_due id' st' = selection_due id' st;
  se_keys : forall id', is_Some (viewSelections (tabs st') !! id') <-> is_Some (viewSelections (tabs st) !! id');
  se_good : good st';
  se_shows : shows has_points (selectionPaths (scr st')) id (selection_due id st);
  se_others : forall id', id' <> id -> forall due, shows has_points (selectionPaths (scr st)) id' due -> shows has_points (selectionPaths (scr st')) id' due
}.

Lemma selection_due_marker id st st' s n :
  viewSelections (tabs st) !! id = Some s ->
  viewSelections (tabs st') = <[id := ViewSelection (vs_points s) (vs_part s) (vs_mode s) n]> (viewSelections (tabs st)) ->
  at_place st' = at_place st -> forall id', selection_due id' st' = selection_due id' st.
Proof.
  intros Hc Ht Hp id'. unfold selection_due, in_place. rewrite Ht, Hp. destruct (decide (id' = id)) as [->|Hne].
  - by rewrite lookup_insert_eq, Hc.
  - by rewrite lookup_insert_ne.
Qed.

Lemma clear_selection id st s :
  good st -> viewSelections (tabs st) !! id = Some s -> selection_due id st = None ->
  let o := match vs_selection s with Some n => ok (on_selections (insert (id, n) []) st) | None => ok st end in
  o.2 = false /\ selection_update id st o.1.
Proof.
  intros Hg Hc Hd. pose proof Hg as [Hcu Hce Hse Hgr Hba Hkc Hks Hkg]. cbv zeta.
  destruct (vs_selection s) as [n|] eqn:Hm; (split; [done|]).
  - split; try done.
    + split; try done. eapply owned_show; [done..|]. apply Hks. by eexists.
    + rewrite Hd. by eapply shows_cleared.
    + intros id' Hne due. by apply shows_other.
  - split; try done. rewrite Hd. apply shows_none. by eapply none_shown.
Qed.

Lemma onUpdateTextViewSelection_spec id st :
  good st -> is_Some (viewSelections (tabs st) !! id) ->
  (onUpdateTextViewSelection id st).2 = false /\ selection_update id st (onUpdateTextViewSelection id st).1.
Proof.
  intros Hg [s Hc]. pose proof Hg as [Hcu Hce Hse Hgr Hba Hkc Hks Hkg].
  pose proof (clear_selection id st s Hg Hc) as Hclear. unfold onUpdateTextViewSelection. rewrite Hc.
  assert (Hd : selection_due id st = points ← vs_points s; if in_place (vs_part s) (vs_mode s) st then Some points else None)
    by (unfold selection_due; by rewrite Hc).
  destruct (vs_points s) as [points|] eqn:Hb; [|by apply Hclear]. cbn [mbind option_bind] in Hd.
  destruct (in_place _ _ _); [|by apply Hclear].
  assert (Hi : is_Some (viewInfo st !! id)) by (apply Hks; by eexists).
  assert (Hk : known id st = true) by by apply bool_decide_eq_true_2. rewrite Hk.
  destruct (vs_selection s) as [n|] eqn:Hm; (split; [done|]).
  - split; try done.
    + split; try done. by eapply owned_show.
    + rewrite Hd. by eapply shows_one.
    + intros id' Hne due. by apply shows_other.
  - set (s' := ViewSelection _ _ _ (Some (fresh st))). set (t := <[id := s']> (viewSelections (tabs st))).
    assert (Ho : owned vs_selection t (selectionPaths (scr st)) (viewInfo st)) by by eapply owned_fresh.
    assert (Ht : t !! id = Some s') by apply lookup_insert_eq. split; try done.
    + apply (selection_due_marker id st _ s (Some (fresh st))); [done| |done]. unfold t, s'. by rewrite Hb.
    + intros id'. by eapply keys_insert.
    + split; try done; [by eapply owned_show|by apply all_known_insert].
    + rewrite Hd. by eapply (shows_one _ vs_selection t).
    + intros id' Hne due. by apply shows_other.
Qed.

(** ** All views *)

(** A loop over views: [keeps] holds throughout, and what is done for a view stays. *)
Lemma eachView_spec (keeps : views -> Prop) (done_ : Z -> views -> Prop) f keys st :
  keeps st ->
  (forall id st, id ∈ keys -> keeps st ->
     (f id st).2 = false /\ keeps (f id st).1 /\ done_ id (f id st).1 /\
     forall id', id' <> id -> done_ id' st -> done_ id' (f id st).1) ->
  (eachView keys f st).2 = false /\ keeps (eachView keys f st).1 /\
  forall id, id ∈ keys \/ done_ id st -> done_ id (eachView keys f st).1.
Proof.
  intros Hk. unfold eachView. change (ok st) with (st, false). revert st Hk.
  induction keys as [|id keys IH]; intros st Hk Hf; cbn [foldl].
  - split_and!; [done..|]. intros id [Hin|Hd]; [by apply not_elem_of_nil in Hin|done].
  - destruct (Hf id st ltac:(by left) Hk) as (Hr & Hk' & Hd & Ho). unfold andThen at 2 4 6. cbn [fst snd].
    destruct (f id st) as [st' r]. cbn [fst snd] in *. subst r.
    destruct (IH st' Hk') as (Hr' & Hk'' & Hd'); [intros; apply Hf; [by right|done]|]. split_and!; [done..|].
    intros id' [[->|Hin]%elem_of_cons|Hd0]; apply Hd'; [by right|by left|].
    destruct (decide (id' = id)) as [->|Hne]; right; [done|by apply Ho].
Qed.

Lemma elem_of_keys_of {A} (m : gmap Z A) id : id ∈ keys_of m <-> is_Some (m !! id).
Proof.
  unfold keys_of. rewrite (merge_sort_Permutation Z.le), list_elem_of_fmap. split.
  - intros ([id' x] & -> & H%elem_of_map_to_list). by exists x.
  - intros [x H]. exists (id, x). by rewrite elem_of_map_to_list.
Qed.

(** What all four loops leave alone. *)
Record updated (st0 st : views) : Prop := Updated {
  up_good : good st;
  up_rest : same_rest st0 st;
  up_cursor_due : forall id, cursor_due id st = cursor_due id st0;
  up_cell_due : forall id, cell_due id st = cell_due id st0;
  up_graphic_due : forall id, graphic_due id st = graphic_due id st0;
  up_selection_due : forall id, selection_due id st = selection_due id st0;
  up_cursor_keys : forall id, is_Some (viewCursors (tabs st) !! id) <-> is_Some (viewCursors (tabs st0) !! id);
  up_cell_keys : forall id, is_Some (cellViewCursors (tabs st) !! id) <-> is_Some (cellViewCursors (tabs st0) !! id);
  up_graphic_keys : forall id, is_Some (graphicViewMarkers (tabs st) !! id) <-> is_Some (graphicViewMarkers (tabs st0) !! id);
  up_selection_keys : forall id, is_Some (viewSelections (tabs st) !! id) <-> is_Some (viewSelections (tabs st0) !! id)
}.

Lemma updated_refl st : good st -> updated st st.
Proof. done. Qed.

Lemma same_rest_trans st st' st'' : same_rest st st' -> same_rest st' st'' -> same_rest st st''.
Proof. intros [] []. split; congruence. Qed.

Lemma cell_due_frame st st' id :
  same_rest st st' -> cellViewCursors (tabs st') = cellViewCursors (tabs st) -> cell_due id st' = cell_due id st.
Proof. intros [Hi Hp _ _] Ht. unfold cell_due, known. by rewrite Hi, Hp, Ht. Qed.

Lemma cursor_due_frame st st' id :
  same_rest st st' -> viewCursors (tabs st') = viewCursors (tabs st) -> cursor_due id st' = cursor_due id st.
Proof. intros [Hi Hp _ _] Ht. unfold cursor_due, in_place. by rewrite Hi, Hp, Ht. Qed.

Lemma graphic_due_frame st st' id :
  same_rest st st' -> graphicViewMarkers (tabs st') = graphicViewMarkers (tabs st) -> graphic_due id st' = graphic_due id st.
Proof. intros [Hi Hp _ _] Ht. unfold graphic_due, in_place. by rewrite Hp, Ht. Qed.

Lemma selection_due_frame st st' id :
  same_rest st st' -> viewSelections (tabs st') = viewSelections (tabs st) -> selection_due id st' = selection_due id st.
Proof. intros [Hi Hp _ _] Ht. unfold selection_due, in_place. by rewrite Hp, Ht. Qed.

Ltac keep_updated :=
  split; auto; [by eapply same_rest_trans|..]; intros ?;
  first [ etrans; [|match goal with H : forall _, _ = _ |- _ => apply H end];
            first [ solve [eauto] | by apply cursor_due_frame | by apply cell_due_frame | by apply graphic_due_frame | by apply selection_due_frame ]
        | match goal with H : viewCursors _ = _ |- _ => rewrite H; solve [eauto] end
        | match goal with H : cellViewCursors _ = _ |- _ => rewrite H; solve [eauto] end
        | match goal with H : graphicViewMarkers _ = _ |- _ => rewrite H; solve [eauto] end
        | match goal with H : viewSelections _ = _ |- _ => rewrite H; solve [eauto] end
        | etrans; [match goal with H : forall _, _ <-> _ |- _ => apply H end|]; solve [eauto] ].

Lemma updated_cursor st0 st st' id : updated st0 st -> cursor_update id st st' -> updated st0 st'.
Proof. intros [Hg Hr H1 H2 H3 H4 H5 H6 H7 H8] [Hur [Hc _] [Hs _] [Hgr _] Hd Hk Hug _ _]. keep_updated. Qed.

Lemma updated_cell st0 st st' id : updated st0 st -> cell_update id st st' -> updated st0 st'.
Proof. intros [Hg Hr H1 H2 H3 H4 H5 H6 H7 H8] [Hur [Hc _] [Hs _] [Hgr _] Hd Hk Hug _ _]. keep_updated. Qed.

Lemma updated_graphic st0 st st' id : updated st0 st -> graphic_update id st st' -> updated st0 st'.
Proof. intros [Hg Hr H1 H2 H3 H4 H5 H6 H7 H8] [Hur [Hc _] [Hs _] [Hgr _] Hd Hk Hug _ _]. keep_updated. Qed.

Lemma updated_selection st0 st st' id : updated st0 st -> selection_update id st st' -> updated st0 st'.
Proof. intros [Hg Hr H1 H2 H3 H4 H5 H6 H7 H8] [Hur [Hc _] [Hs _] [Hgr _] Hd Hk Hug _ _]. keep_updated. Qed.

Definition exact_cursors (st0 st : views) : Prop := forall id, shows anything (domCursors (scr st)) id (cursor_due id st0).
Definition exact_cells (st0 st : views) : Prop := forall id, shows anything (cellPaths (scr st)) id (cell_due id st0).
Definition exact_graphics (st0 st : views) : Prop := forall id, shows anything (viewLayers (scr st)) id (graphic_due id st0).
Definition exact_selections (st0 st : views) : Prop := forall id, shows has_points (selectionPaths (scr st)) id (selection_due id st0).

(** Views without an entry have nothing to be shown. *)
Lemma no_entry {E P} (real : P -> Prop) (marker : E -> option nat) (t : gmap Z E) (s : gmap (Z * nat) P) (i : gmap Z info) id (k : E -> option P) :
  owned marker t s i -> ~ is_Some (t !! id) -> shows real s id (t !! id ≫= k).
Proof.
  intros Ho Hn. apply eq_None_not_Some in Hn. rewrite Hn. apply shows_none. by eapply absent_none.
Qed.

(** A loop over the entries of one kind, which shows the kind and leaves the [others] alone. *)
Lemma all_of_kind {E P Q : Type} (real : P -> Prop) (table : views -> gmap Z E) (shown : views -> gmap (Z * nat) P)
    (due : Z -> views -> option P) (f : Z -> views -> outcome) (others : views -> Q) (st0 st : views) :
  (forall id s, good s -> is_Some (table s !! id) ->
     (f id s).2 = false /\ (updated st0 s -> updated st0 (f id s).1) /\ others (f id s).1 = others s /\
     shows real (shown (f id s).1) id (due id s) /\
     (forall id', id' <> id -> forall d, shows real (shown s) id' d -> shows real (shown (f id s).1) id' d)) ->
  (forall s, updated st0 s -> forall id, due id s = due id st0) ->
  (forall s, updated st0 s -> forall id, is_Some (table s !! id) <-> is_Some (table st0 !! id)) ->
  (forall id, ~ is_Some (table st !! id) -> shows real (shown st) id (due id st)) ->
  updated st0 st ->
  let o := eachView (keys_of (table st)) f st in
  o.2 = false /\ updated st0 o.1 /\ (forall id, shows real (shown o.1) id (due id st0)) /\ others o.1 = others st.
Proof.
  intros Hf Hdue Hkeys Hnone Hu. cbv zeta.
  destruct (eachView_spec (fun s => updated st0 s /\ others s = others st) (fun id s => shows real (shown s) id (due id st0))
    f (keys_of (table st)) st) as (Hr & (Hu' & Ho) & Hd); [done| |].
  - intros id s Hin (Hs & Ho). apply elem_of_keys_of in Hin. destruct (Hf id s) as (Hr & Hk & Ho' & Hsh & Hrest).
    { apply Hs. }
    { by rewrite (Hkeys s Hs), <- (Hkeys st Hu). }
    split_and!; [done|auto|congruence| |].
    + by rewrite <- (Hdue s Hs).
    + intros id' Hne. by apply Hrest.
  - split_and!; try done. intros id. apply Hd. destruct (decide (is_Some (table st !! id))) as [Hk|Hn].
    + left. by apply elem_of_keys_of.
    + right. rewrite <- (Hdue st Hu). by apply Hnone.
Qed.

Lemma all_cursors st0 st :
  updated st0 st ->
  let o := updateAllViewCursors st in
  o.2 = false /\ updated st0 o.1 /\ exact_cursors st0 o.1 /\
  (cellPaths (scr o.1), selectionPaths (scr o.1), viewLayers (scr o.1)) = (cellPaths (scr st), selectionPaths (scr st), viewLayers (scr st)).
Proof.
  intros Hu. apply (all_of_kind anything (fun s => viewCursors (tabs s)) (fun s => domCursors (scr s)) cursor_due onUpdateViewCursor
    (fun s => (cellPaths (scr s), selectionPaths (scr s), viewLayers (scr s)))); [|by intros ? []|by intros ? []| |done].
  - intros id s Hg _. destruct (onUpdateViewCursor_spec id s Hg) as [Hr Hc]. split; [done|]. split; [intros; by eapply updated_cursor|].
    destruct Hc as [_ [_ ->] [_ ->] [_ ->] _ _ _ Hsh Ho]. split_and!; [done|done|intros; by apply Ho].
  - intros id Hn. eapply (no_entry _ vc_marker); [apply Hu|done].
Qed.

Lemma all_cells st0 st :
  updated st0 st ->
  let o := updateAllCellViewCursors st in
  o.2 = false /\ updated st0 o.1 /\ exact_cells st0 o.1 /\
  (domCursors (scr o.1), selectionPaths (scr o.1), viewLayers (scr o.1)) = (domCursors (scr st), selectionPaths (scr st), viewLayers (scr st)).
Proof.
  intros Hu. apply (all_of_kind anything (fun s => cellViewCursors (tabs s)) (fun s => cellPaths (scr s)) cell_due onUpdateCellViewCursor
    (fun s => (domCursors (scr s), selectionPaths (scr s), viewLayers (scr s)))); [|by intros ? []|by intros ? []| |done].
  - intros id s Hg _. destruct (onUpdateCellViewCursor_spec id s Hg) as [Hr Hc]. split; [done|]. split; [intros; by eapply updated_cell|].
    destruct Hc as [_ [_ ->] [_ ->] [_ ->] _ _ _ Hsh Ho]. split_and!; [done|done|intros; by apply Ho].
  - intros id Hn. eapply (no_entry _ cc_marker); [apply Hu|done].
Qed.

Lemma all_graphics st0 st :
  updated st0 st ->
  let o := updateAllGraphicViewSelections st in
  o.2 = false /\ updated st0 o.1 /\ exact_graphics st0 o.1 /\
  (domCursors (scr o.1), cellPaths (scr o.1), selectionPaths (scr o.1)) = (domCursors (scr st), cellPaths (scr st), selectionPaths (scr st)).
Proof.
  intros Hu. apply (all_of_kind anything (fun s => graphicViewMarkers (tabs s)) (fun s => viewLayers (scr s)) graphic_due onUpdateGraphicViewSelection
    (fun s => (domCursors (scr s), cellPaths (scr s), selectionPaths (scr s)))); [|by intros ? []|by intros ? []| |done].
  - intros id s Hg Hk. destruct (onUpdateGraphicViewSelection_spec id s Hg Hk) as [Hr Hc]. split; [done|]. split; [intros; by eapply updated_graphic|].
    destruct Hc as [_ [_ ->] [_ ->] [_ ->] _ _ _ Hsh Ho]. split_and!; [done|done|intros; by apply Ho].
  - intros id Hn. eapply (no_entry _ gm_marker); [apply Hu|done].
Qed.

Lemma all_selections st0 st :
  updated st0 st ->
  let o := updateAllTextViewSelection st in
  o.2 = false /\ updated st0 o.1 /\ exact_selections st0 o.1 /\
  (domCursors (scr o.1), cellPaths (scr o.1), viewLayers (scr o.1)) = (domCursors (scr st), cellPaths (scr st), viewLayers (scr st)).
Proof.
  intros Hu. apply (all_of_kind has_points (fun s => viewSelections (tabs s)) (fun s => selectionPaths (scr s)) selection_due onUpdateTextViewSelection
    (fun s => (domCursors (scr s), cellPaths (scr s), viewLayers (scr s)))); [|by intros ? []|by intros ? []| |done].
  - intros id s Hg Hk. destruct (onUpdateTextViewSelection_spec id s Hg Hk) as [Hr Hc]. split; [done|]. split; [intros; by eapply updated_selection|].
    destruct Hc as [_ [_ ->] [_ ->] [_ ->] _ _ _ Hsh Ho]. split_and!; [done|done|intros; by apply Ho].
  - intros id Hn. eapply (no_entry _ vs_selection); [apply Hu|done].
Qed.

Lemma andThen_ok st (f : views -> outcome) : andThen (st, false) f = f st.
Proof. done. Qed.

Lemma good_place p st : good st -> good (set_place p st).
Proof. by intros []. Qed.

Lemma setPart_spec part st :
  good st ->
  let st0 := show_part part (selectedMode (at_place st)) st in
  let o := setPart part st in
  o.2 = false /\ updated st0 o.1 /\ exact_cursors st0 o.1 /\ exact_cells st0 o.1 /\ exact_graphics st0 o.1 /\ exact_selections st0 o.1.
Proof.
  intros Hg. cbv zeta. unfold setPart. set (st0 := show_part _ _ st).
  assert (Hu0 : updated st0 st0) by by apply updated_refl, good_place.
  destruct (all_cursors st0 st0 Hu0) as (Hr1 & Hu1 & He1 & _). destruct (updateAllViewCursors st0) as [st1 r1]. cbn [fst snd] in *. subst r1. rewrite andThen_ok.
  destruct (all_cells st0 st1 Hu1) as (Hr2 & Hu2 & He2 & Ho2). destruct (updateAllCellViewCursors st1) as [st2 r2]. cbn [fst snd] in *. subst r2. rewrite andThen_ok.
  destruct (all_graphics st0 st2 Hu2) as (Hr3 & Hu3 & He3 & Ho3). destruct (updateAllGraphicViewSelections st2) as [st3 r3]. cbn [fst snd] in *. subst r3. rewrite andThen_ok.
  destruct (all_selections st0 st3 Hu3) as (Hr4 & Hu4 & He4 & Ho4). destruct (updateAllTextViewSelection st3) as [st4 r4]. cbn [fst snd] in *.
  unfold exact_cursors, exact_cells, exact_graphics in *. injection Ho2 as Hd2 _ _. injection Ho3 as Hd3 Hc3 _. injection Ho4 as Hd4 Hc4 Hg4.
  rewrite Hd4, Hd3, Hd2, Hc4, Hc3, Hg4. done.
Qed.

Lemma onStatus_spec part mode st :
  good st ->
  let st0 := show_part part mode st in
  let o := onStatus part mode st in
  o.2 = false /\ updated st0 o.1 /\ exact_cursors st0 o.1 /\ exact_graphics st0 o.1 /\ exact_selections st0 o.1.
Proof.
  intros Hg. cbv zeta. unfold onStatus. set (st0 := show_part _ _ st).
  assert (Hu0 : updated st0 st0) by by apply updated_refl, good_place.
  destruct (all_graphics st0 st0 Hu0) as (Hr1 & Hu1 & He1 & _). destruct (updateAllGraphicViewSelections st0) as [st1 r1]. cbn [fst snd] in *. subst r1. rewrite andThen_ok.
  destruct (all_cursors st0 st1 Hu1) as (Hr2 & Hu2 & He2 & Ho2). destruct (updateAllViewCursors st1) as [st2 r2]. cbn [fst snd] in *. subst r2. rewrite andThen_ok.
  destruct (all_selections st0 st2 Hu2) as (Hr3 & Hu3 & He3 & Ho3). destruct (updateAllTextViewSelection st2) as [st3 r3]. cbn [fst snd] in *.
  unfold exact_cursors, exact_graphics in *. injection Ho2 as _ _ Hg2. injection Ho3 as Hd3 _ Hg3.
  rewrite Hd3, Hg3, Hg2. done.
Qed.

(** ** Removing and adding views *)

Lemma shows_nothing {P} (s : gmap (Z * nat) P) id : shows anything s id None -> forall n, s !! (id, n) = None.
Proof. intros Hs n. apply eq_None_not_Some. intros [p Hp]. destruct (Hs p I) as [Hd _]. discriminate Hd. by exists n. Qed.

Lemma remove_selection_spec id st :
  good st ->
  let st' := remove_selection id st in
  good st' /\ same_rest st st' /\ viewSelections (tabs st') !! id = None /\
  viewCursors (tabs st') = viewCursors (tabs st) /\ cellViewCursors (tabs st') = cellViewCursors (tabs st) /\
  graphicViewMarkers (tabs st') = graphicViewMarkers (tabs st).
Proof.
  intros Hg. pose proof Hg as [Hcu Hce Hse Hgr Hba Hkc Hks Hkg]. cbv zeta. unfold remove_selection.
  destruct (viewSelections (tabs st) !! id) as [s|] eqn:Hs; [|done]. destruct (vs_selection s) as [n|] eqn:Hn.
  - split_and!; try done; [|by cbn; rewrite lookup_delete_eq]. split; try done; cbn; [|by apply all_known_delete].
    apply owned_drop; [by apply owned_hide|by eapply hidden].
  - split_and!; try done; [|by cbn; rewrite lookup_delete_eq]. split; try done; cbn; [|by apply all_known_delete].
    apply owned_drop; [done|by eapply none_shown].
Qed.

Lemma remove_cursor_spec id st :
  good st ->
  let o := remove_cursor id st in
  o.2 = false /\ good o.1 /\ same_rest st o.1 /\ viewCursors (tabs o.1) !! id = None /\
  cellViewCursors (tabs o.1) = cellViewCursors (tabs st) /\ viewSelections (tabs o.1) = viewSelections (tabs st) /\
  graphicViewMarkers (tabs o.1) = graphicViewMarkers (tabs st).
Proof.
  intros Hg. pose proof Hg as [Hcu Hce Hse Hgr Hba Hkc Hks Hkg]. cbv zeta. unfold remove_cursor.
  destruct (viewCursors (tabs st) !! id) as [c|] eqn:Hc; [|done].
  set (c' := ViewCursor _ _ _ (Some false) _). set (st1 := set_cursors _ st).
  assert (H1 : good st1).
  { split; try done; cbn.
    - apply owned_entry; [done|]. intros e0 He0. rewrite Hc in He0. by injection He0 as <-.
    - intros id' c0. rewrite lookup_insert_Some. intros [[<- <-]|[_ H0]]; [exact (Hba id c Hc)|eauto].
    - apply all_known_insert; [done|]. apply Hkc. by eexists. }
  destruct (onUpdateViewCursor_spec id st1 H1) as [Hr [Hrest [Hcells _] [Hsel _] [Hgra _] _ _ Hg2 Hsh _]].
  destruct (onUpdateViewCursor id st1) as [st2 r]. cbn [fst snd] in *. subst r. rewrite andThen_ok.
  assert (Hd : cursor_due id st1 = None).
  { unfold cursor_due, st1, c'. cbn. rewrite lookup_insert_eq. cbn. destruct (vc_bounds c) as [[ll core]|]; [|done]. cbn.
    destruct (viewInfo st !! id); [|done]. cbn. by rewrite andb_false_r. }
  rewrite Hd in Hsh. destruct Hg2 as [Hcu2 ? ? ? Hba2 Hkc2 ? ?]. split_and!; [done| |..].
  - split; try done; cbn.
    + apply owned_drop; [done|by apply shows_nothing].
    + intros id' c0 [_ H0]%lookup_delete_Some. eauto.
    + by apply all_known_delete.
  - by destruct Hrest.
  - cbn. by rewrite lookup_delete_eq.
  - done.
  - done.
  - done.
Qed.

Lemma remove_cell_spec id st :
  good st ->
  let o := remove_cell id st in
  o.2 = false /\ good o.1 /\ same_rest st o.1 /\ cellViewCursors (tabs o.1) !! id = None /\
  viewCursors (tabs o.1) = viewCursors (tabs st) /\ viewSelections (tabs o.1) = viewSelections (tabs st) /\
  graphicViewMarkers (tabs o.1) = graphicViewMarkers (tabs st).
Proof.
  intros Hg. pose proof Hg as [Hcu Hce Hse Hgr Hba Hkc Hks Hkg]. cbv zeta. unfold remove_cell.
  destruct (cellViewCursors (tabs st) !! id) as [c|] eqn:Hc; [|done].
  set (c' := CellCursor createDefault _ _ _). set (st1 := set_cells _ st).
  assert (H1 : good st1).
  { split; try done; cbn. apply owned_entry; [done|]. intros e0 He0. rewrite Hc in He0. by injection He0 as <-. }
  destruct (onUpdateCellViewCursor_spec id st1 H1) as [Hr [Hrest [Hcur _] [Hsel _] [Hgra _] _ _ Hg2 Hsh _]].
  destruct (onUpdateCellViewCursor id st1) as [st2 r]. cbn [fst snd] in *. subst r. rewrite andThen_ok.
  assert (Hd : cell_due id st1 = None) by (unfold cell_due, st1, c'; cbn; by rewrite lookup_insert_eq).
  rewrite Hd in Hsh. destruct Hg2. split_and!; [done| |..]; try done.
  - split; try done; cbn. apply owned_drop; [done|by apply shows_nothing].
  - by destruct Hrest.
  - cbn. by rewrite lookup_delete_eq.
Qed.

Lemma remove_graphic_spec id st :
  good st ->
  let o := remove_graphic id st in
  o.2 = false /\ good o.1 /\ same_rest st o.1 /\ graphicViewMarkers (tabs o.1) !! id = None /\
  viewCursors (tabs o.1) = viewCursors (tabs st) /\ cellViewCursors (tabs o.1) = cellViewCursors (tabs st) /\
  viewSelections (tabs o.1) = viewSelections (tabs st).
Proof.
  intros Hg. pose proof Hg as [Hcu Hce Hse Hgr Hba Hkc Hks Hkg]. cbv zeta. unfold remove_graphic.
  destruct (graphicViewMarkers (tabs st) !! id) as [g|] eqn:Hc; [|done].
  set (g' := GraphicMarker _ _ _ _). set (st1 := set_graphics _ st).
  assert (H1 : good st1).
  { split; try done; cbn.
    - apply owned_entry; [done|]. intros e0 He0. rewrite Hc in He0. by injection He0 as <-.
    - apply all_known_insert; [done|]. apply Hkg. by eexists. }
  destruct (onUpdateGraphicViewSelection_spec id st1 H1) as [Hr [Hrest [Hcur _] [Hcells _] [Hsel _] _ _ Hg2 Hsh _]].
  { unfold st1. cbn. rewrite lookup_insert_eq. by eexists. }
  destruct (onUpdateGraphicViewSelection id st1) as [st2 r]. cbn [fst snd] in *. subst r. rewrite andThen_ok.
  assert (Hd : graphic_due id st1 = None) by (unfold graphic_due, st1, g'; cbn; by rewrite lookup_insert_eq).
  rewrite Hd in Hsh. destruct Hg2. split_and!; [done| |..]; try done.
  - split; try done; cbn; [|by apply all_known_delete]. apply owned_drop; [done|by apply shows_nothing].
  - by destruct Hrest.
  - cbn. by rewrite lookup_delete_eq.
Qed.

Lemma all_known_forget {E} (t : gmap Z E) i id : all_known t i -> t !! id = None -> all_known t (delete id i).
Proof.
  intros Hk Hn id' [e He]. rewrite lookup_delete_is_Some. split; [|by apply Hk; exists e]. intros <-. congruence.
Qed.

(** Removing a view leaves nothing of it. *)
Lemma removeView_spec id st :
  good st -> is_Some (viewInfo st !! id) ->
  let o := removeView id st in
  o.2 = false /\ good o.1 /\ viewInfo o.1 = delete id (viewInfo st).
Proof.
  intros Hg Hi. cbv zeta. unfold removeView.
  destruct (remove_selection_spec id st Hg) as (Hg1 & Hr1 & Hn1 & Hc1 & He1 & Hm1). set (st1 := remove_selection id st) in *. clearbody st1.
  destruct (remove_cursor_spec id st1 Hg1) as (Hb2 & Hg2 & Hr2 & Hn2 & He2 & Hs2 & Hm2).
  destruct (remove_cursor id st1) as [st2 r]. cbn [fst snd] in *. subst r. rewrite andThen_ok.
  destruct (remove_cell_spec id st2 Hg2) as (Hb3 & Hg3 & Hr3 & Hn3 & Hc3 & Hs3 & Hm3).
  destruct (remove_cell id st2) as [st3 r]. cbn [fst snd] in *. subst r. rewrite andThen_ok.
  destruct (remove_graphic_spec id st3 Hg3) as (Hb4 & Hg4 & Hr4 & Hn4 & Hc4 & He4 & Hs4).
  destruct (remove_graphic id st3) as [st4 r]. cbn [fst snd] in *. subst r. rewrite andThen_ok.
  assert (Hinfo : viewInfo st4 = viewInfo st) by (destruct Hr1, Hr2, Hr3, Hr4; congruence).
  unfold map_removeView. rewrite Hinfo. destruct Hi as [i Hi]. rewrite Hi. split; [done|].
  assert (Hn : viewCursors (tabs st4) !! id = None /\ cellViewCursors (tabs st4) !! id = None /\ viewSelections (tabs st4) !! id = None /\
    graphicViewMarkers (tabs st4) !! id = None) by (rewrite Hc4, Hc3, He4, Hs4, Hs3, Hs2; auto).
  destruct Hn as (Hnc & Hne & Hns & Hnm). destruct Hg4 as [Hcu Hce Hse Hgr Hba Hkc Hks Hkg]. rewrite Hinfo in *.
  set (st5 := set_info _ _ st4). assert (H5 : good st5).
  { split; cbn.
    - apply owned_forget; [done|]. by eapply absent_none.
    - apply owned_forget; [done|]. by eapply absent_none.
    - apply owned_forget; [done|]. by eapply absent_none.
    - apply owned_forget; [done|]. by eapply absent_none.
    - done.
    - by apply all_known_forget.
    - by apply all_known_forget.
    - by apply all_known_forget. }
  unfold onRemoveView. case_match; [split; [by destruct H5|done]|done].
Qed.

Lemma addView_spec id i st :
  good st -> viewInfo st !! id = None ->
  let o := addView id i st in
  o.2 = false /\ good o.1 /\ forall id', is_Some (viewInfo o.1 !! id') <-> id' = id \/ is_Some (viewInfo st !! id').
Proof.
  intros Hg Hn. cbv zeta. unfold addView. set (i' := if (color i =? 0) && negb (isWriter app) then Info (username i) (hasAvatar i) (readonly i) (idColor id) else i). set (st1 := map_addView id i' st).
  pose proof Hg as [Hcu Hce Hse Hgr Hba Hkc Hks Hkg].
  assert (Hc : viewCursors (tabs st) !! id = None) by (apply eq_None_not_Some; intros Hs; apply Hkc in Hs; rewrite Hn in Hs; by destruct Hs).
  assert (H1 : good st1) by (split; try done; cbn; (by apply owned_info) || (by apply all_known_info)).
  change (viewCursors (tabs st1)) with (viewCursors (tabs st)). rewrite Hc.
  destruct (onUpdateViewCursor_spec id st1 H1) as [Hr [[Hi _ _ _] _ _ _ _ _ Hg2 _ _]]. split_and!; [done|done|].
  intros id'. rewrite Hi. cbn. rewrite lookup_insert_is_Some'. split; (intros [->|?]; [by left|by right]).
Qed.

(** ** The list of views *)

Lemma add_all l st :
  good st ->
  let o := foldl (fun o vi => andThen o (fun st => if known vi.1 st then ok st else addView vi.1 vi.2 st)) (ok st) l in
  o.2 = false /\ good o.1 /\ forall id, is_Some (viewInfo o.1 !! id) <-> id ∈ l.*1 \/ is_Some (viewInfo st !! id).
Proof.
  unfold ok. revert st. induction l as [|[id i] l IH]; intros st Hg; cbn [foldl].
  - split_and!; [done..|]. intros id. split; [by right|]. intros [H|H]; [by apply not_elem_of_nil in H|done].
  - rewrite andThen_ok. cbn [fst snd].
    assert (Hone : let o := if known id st then (st, false) else addView id i st in
      o.2 = false /\ good o.1 /\ forall id', is_Some (viewInfo o.1 !! id') <-> id' = id \/ is_Some (viewInfo st !! id')).
    { unfold known. case_bool_decide as Hk; [|by apply addView_spec; [|apply eq_None_not_Some]].
      split_and!; [done..|]. intros id'. split; [by right|]. by intros [->|?]. }
    cbv zeta in Hone. destruct (if known id st then _ else _) as [st1 r]. cbn [fst snd] in Hone. destruct Hone as (-> & Hg1 & Hi1).
    destruct (IH st1 Hg1) as (Hr & Hg2 & Hi2). split_and!; [done..|]. intros id'. rewrite Hi2, Hi1, fmap_cons, elem_of_cons. cbn [fst]. clear. firstorder.
Qed.

Lemma remove_unlisted (l : list Z) keys st :
  NoDup keys -> good st -> (forall id, id ∈ keys -> is_Some (viewInfo st !! id)) ->
  let o := eachView keys (fun id st => if bool_decide (id ∈ l) then ok st else removeView id st) st in
  o.2 = false /\ good o.1 /\
  forall id, is_Some (viewInfo o.1 !! id) <-> is_Some (viewInfo st !! id) /\ (id ∈ keys -> id ∈ l).
Proof.
  unfold eachView, ok. intros Hnd. revert st. induction Hnd as [|id keys Hid Hnd IH]; intros st Hg Hk; cbn [foldl].
  - split_and!; [done..|]. intros id. split; [|by intros []]. intros H. split; [done|]. by intros ?%not_elem_of_nil.
  - rewrite andThen_ok. assert (Hi : is_Some (viewInfo st !! id)) by (apply Hk; by left).
    assert (Hone : let o := if bool_decide (id ∈ l) then (st, false) else removeView id st in
      o.2 = false /\ good o.1 /\ forall id', is_Some (viewInfo o.1 !! id') <-> is_Some (viewInfo st !! id') /\ (id' = id -> id ∈ l)).
    { case_bool_decide as Hl.
      - split_and!; [done..|]. intros id'. cbn. split; [by intros ?; split|by intros [? _]].
      - destruct (removeView_spec id st Hg Hi) as (Hr & Hg' & He). split_and!; [done..|]. intros id'. rewrite He, lookup_delete_is_Some.
        split; [intros [Hne ?]; split; [done|congruence]|]. intros [? Hne]. split; [|done]. intros <-. by apply Hl, Hne. }
    cbv zeta in Hone. destruct (if bool_decide _ then _ else _) as [st1 r]. cbn [fst snd] in Hone. destruct Hone as (-> & Hg1 & Hi1).
    destruct (IH st1 Hg1) as (Hr & Hg2 & Hi2).
    { intros id' Hin. apply Hi1. split; [apply Hk; by right|]. intros ->. done. }
    split_and!; [done..|]. intros id'. rewrite Hi2, Hi1, elem_of_cons. split.
    + intros [[? H1] H2]. split; [done|]. intros [->|?]; auto.
    + intros [? H1]. split_and!; [done| |]; intros; subst; auto.
Qed.

Lemma NoDup_keys_of {A} (m : gmap Z A) : NoDup (keys_of m).
Proof. unfold keys_of. rewrite (merge_sort_Permutation Z.le). apply NoDup_fst_map_to_list. Qed.

Lemma onViewInfoMsg_spec l st :
  good st ->
  let o := onViewInfoMsg l st in
  o.2 = false /\ good o.1 /\ forall id, is_Some (viewInfo o.1 !! id) <-> id ∈ l.*1.
Proof.
  intros Hg. cbv zeta. unfold onViewInfoMsg. destruct (add_all l st Hg) as (Hr & Hg1 & Hi1).
  destruct (foldl _ _ _) as [st1 r]. cbn [fst snd] in *. subst r. rewrite andThen_ok.
  destruct (remove_unlisted l.*1 (keys_of (viewInfo st1)) st1) as (Hr2 & Hg2 & Hi2); [apply NoDup_keys_of|done|by intros id ?%elem_of_keys_of|].
  split_and!; [done..|]. intros id. rewrite Hi2, elem_of_keys_of. split; [intros [H1 H2]; auto|]. intros Hin. split; [|done]. apply Hi1. by left.
Qed.

Lemma eachView_ext keys f g st : (forall id s, f id s = g id s) -> eachView keys f st = eachView keys g st.
Proof.
  intros Hfg. unfold eachView. generalize (ok st). induction keys as [|id keys IH]; intros o; [done|]. cbn [foldl].
  assert (andThen o (f id) = andThen o (g id)) as -> by (unfold andThen; by rewrite Hfg). apply IH.
Qed.

Lemma removeAllViews_spec st :
  good st -> let o := removeAllViews st in o.2 = false /\ good o.1 /\ forall id, ~ is_Some (viewInfo o.1 !! id).
Proof.
  intros Hg. cbv zeta. unfold removeAllViews.
  destruct (remove_unlisted [] (keys_of (viewInfo st)) st) as (Hr & Hg' & Hi); [apply NoDup_keys_of|done|by intros id ?%elem_of_keys_of|].
  assert (He : eachView (keys_of (viewInfo st)) (fun id st => if bool_decide (id ∈ []) then ok st else removeView id st) st =
    eachView (keys_of (viewInfo st)) removeView st).
  { apply eachView_ext. intros id s. by rewrite bool_decide_eq_false_2 by apply not_elem_of_nil. }
  rewrite He in *. split_and!; [done..|]. intros id Hs. apply Hi in Hs as [Hs Hn]. rewrite <- elem_of_keys_of in Hs.
  by apply Hn, not_elem_of_nil in Hs.
Qed.

(** ** Following shows nothing new *)

Record same_shown (st st' : views) : Prop := SameShown {
  shown_info : viewInfo st' = viewInfo st;
  shown_tabs : tabs st' = tabs st;
  shown_scr : scr st' = scr st
}.

Lemma good_same st st' : same_shown st st' -> good st -> good st'.
Proof. intros [Hi Ht Hs] []. split; by rewrite ?Hi, ?Ht, ?Hs. Qed.

Lemma same_shown_trans st st' st'' : same_shown st st' -> same_shown st' st'' -> same_shown st st''.
Proof. intros [] []. split; congruence. Qed.

Lemma same_shown_then st (o : outcome) f :
  same_shown st o.1 -> (forall s, same_shown s (f s).1) -> same_shown st (andThen o f).1.
Proof. intros Ho Hf. unfold andThen. case_match; [done|]. by eapply same_shown_trans. Qed.

Lemma goToCell_same id st : same_shown st (goToCellViewCursor id st).1.
Proof. unfold goToCellViewCursor. repeat (case_match; try done). Qed.

Lemma goToView_same id st : same_shown st (goToViewCursor id st).1.
Proof. unfold goToViewCursor. repeat (case_match; try done). Qed.

Lemma goToViewId_same id st : same_shown st (goToViewId id st).1.
Proof. unfold goToViewId. repeat case_match; auto using goToCell_same, goToView_same. done. Qed.

Lemma setFollowing_same b id st : same_shown st (setFollowing b id st).1.
Proof.
  unfold setFollowing. apply same_shown_then; [|done].
  set (st1 := set_flags _ _ st). assert (H1 : same_shown st st1) by done. eapply same_shown_trans; [exact H1|].
  clearbody st1. assert (Hgo : forall i s, same_shown s (andThen (goToViewId i s) (fun s => ok (set_followThis i s))).1)
    by (intros; apply same_shown_then; [apply goToViewId_same|done]).
  repeat case_match; first [apply Hgo|done].
Qed.

Lemma followUser_same id st : same_shown st (userList_followUser id st).1.
Proof.
  unfold userList_followUser. apply same_shown_then; [destruct id; [apply goToViewId_same|by case_match]|]. intros s.
  case_bool_decide; [apply setFollowing_same|]. apply same_shown_then; [|done]. case_match; [done|apply setFollowing_same].
Qed.

Lemma editorUpdate_same b st : same_shown st (editorUpdate b st).1.
Proof.
  unfold editorUpdate. repeat case_match; try done. set (st1 := set_flags _ _ st). assert (H1 : same_shown st st1) by done.
  eapply same_shown_trans; [exact H1|]. apply same_shown_then; [apply goToViewId_same|done].
Qed.

(** ** All events *)

Lemma then_good (o : outcome) f : good o.1 -> (forall s, good s -> good (f s).1) -> good (andThen o f).1.
Proof. intros Ho Hf. unfold andThen. case_match; auto. Qed.

Lemma known_is_some id st : own_or_unknown id st = false -> is_Some (viewInfo st !! id).
Proof. unfold own_or_unknown, known. rewrite orb_false_iff, negb_false_iff, bool_decide_eq_true. by intros [_ H]. Qed.

Lemma good_entry_cursor id c st :
  good st -> is_Some (viewInfo st !! id) ->
  (forall c0, viewCursors (tabs st) !! id = Some c0 -> vc_marker c0 = vc_marker c) -> (vc_bounds c = None -> vc_marker c = None) ->
  good (set_cursors (<[id := c]> (viewCursors (tabs st))) st).
Proof.
  intros [Hcu Hce Hse Hgr Hba Hkc Hks Hkg] Hi Hm Hb. split; try done; cbn.
  - by apply owned_entry.
  - intros id' c0. rewrite lookup_insert_Some. intros [[_ <-]|[_ H0]]; [done|eauto].
  - by apply all_known_insert.
Qed.

Lemma onInvalidate_good id r part mode st : good st -> good (onInvalidateViewCursorMsg id r part mode st).1.
Proof.
  intros Hg. unfold onInvalidateViewCursorMsg. destruct (own_or_unknown id st) eqn:Hk; [done|]. apply known_is_some in Hk.
  destruct r as [r|]; [|done]. destruct (match viewCursors (tabs st) !! id with Some c => _ | None => _ end) as [visible marker] eqn:He.
  set (c := ViewCursor _ _ _ _ marker). set (st1 := set_cursors _ st).
  assert (H1 : good st1).
  { apply good_entry_cursor; try done. intros c0 Hc0. rewrite Hc0 in He. by injection He as <- <-. }
  destruct (onUpdateViewCursor_spec id st1 H1) as [_ Hc]. apply then_good; [apply Hc|]. intros s Hs.
  apply then_good; [|intros s' Hs'; by eapply good_same; [|exact Hs']].
  repeat case_match; (done || (by eapply good_same; [apply goToCell_same|]) || (by eapply good_same; [apply goToView_same|])).
Qed.

Lemma onVisible_good id v st : good st -> good (onViewCursorVisibleMsg id v st).1.
Proof.
  intros Hg. unfold onViewCursorVisibleMsg. destruct (own_or_unknown id st) eqn:Hk; [done|]. apply known_is_some in Hk.
  apply onUpdateViewCursor_spec. destruct (viewCursors (tabs st) !! id) as [c|] eqn:Hc; [|done].
  apply good_entry_cursor; try done; cbn; [|by apply (bare_cursors _ Hg id)].
  intros c0 Hc0. rewrite Hc in Hc0. by injection Hc0 as <-.
Qed.

Lemma onCell_good id r part st : good st -> good (onCellViewCursorMsg id r part st).1.
Proof.
  intros Hg. unfold onCellViewCursorMsg. case_bool_decide; [done|].
  set (marker := match cellViewCursors (tabs st) !! id with Some c => cc_marker c | None => None end).
  destruct (match r with Some r => _ | None => _ end) as [ll core]. set (st1 := set_cells _ st).
  assert (H1 : good st1).
  { destruct Hg as [Hcu Hce Hse Hgr Hba Hkc Hks Hkg]. split; try done; cbn. apply owned_entry; [done|].
    intros e0 He0. cbn. unfold marker. by rewrite He0. }
  destruct (onUpdateCellViewCursor_spec id st1 H1) as [_ Hc]. apply then_good; [apply Hc|]. intros s Hs. cbn. case_match; [|done].
  by eapply good_same; [|exact Hs].
Qed.

Lemma onTextSelection_good id l part mode st : good st -> good (onTextViewSelectionMsg id l part mode st).1.
Proof.
  intros Hg. unfold onTextViewSelectionMsg. destruct (own_or_unknown id st) eqn:Hk; [done|]. apply known_is_some in Hk.
  set (s0 := default _ (viewSelections (tabs st) !! id)). set (s1 := match l with [] => _ | _ => _ end).
  assert (Hm : vs_selection s1 = vs_selection s0) by (unfold s1; by destruct l). clearbody s1. set (st1 := set_selections _ st).
  assert (H1 : good st1).
  { destruct Hg as [Hcu Hce Hse Hgr Hba Hkc Hks Hkg]. split; try done; cbn; [|by apply all_known_insert].
    apply owned_entry; [done|]. intros e0 He0. rewrite Hm. unfold s0. by rewrite He0. }
  destruct (onUpdateTextViewSelection_spec id st1 H1) as [_ Hc]; [unfold st1; cbn; rewrite lookup_insert_eq; by eexists|].
  apply then_good; [apply Hc|]. intros s Hs. by eapply good_same; [|exact Hs].
Qed.

Lemma onGraphic_good id r part mode st : good st -> good (onGraphicViewSelectionMsg id r part mode st).1.
Proof.
  intros Hg. unfold onGraphicViewSelectionMsg. destruct (own_or_unknown id st) eqn:Hk; [done|]. apply known_is_some in Hk.
  set (marker := match graphicViewMarkers (tabs st) !! id with Some g => gm_marker g | None => None end). set (st1 := set_graphics _ st).
  assert (H1 : good st1).
  { destruct Hg as [Hcu Hce Hse Hgr Hba Hkc Hks Hkg]. split; try done; cbn; [|by apply all_known_insert].
    apply owned_entry; [done|]. intros e0 He0. cbn. unfold marker. by rewrite He0. }
  destruct (onUpdateGraphicViewSelection_spec id st1 H1) as [_ Hc]; [unfold st1; cbn; rewrite lookup_insert_eq; by eexists|].
  apply then_good; [apply Hc|]. intros s Hs. cbn. case_match; [|done]. by eapply good_same; [|exact Hs].
Qed.

Lemma onVideo_good st : good st -> good (onEmbeddedVideoContent st).
Proof.
  unfold onEmbeddedVideoContent. generalize (keys_of (graphicViewMarkers (tabs st))) as keys. intros keys. revert st.
  induction keys as [|id keys IH]; intros st Hg; [done|]. cbn [foldl]. apply IH. repeat (case_match; try done).
  destruct Hg. split; try done. by apply owned_hide.
Qed.

Lemma handle_good ev st : good st -> good (handle ev st).1.
Proof.
  intros Hg. destruct ev; cbn [handle].
  - by apply onViewInfoMsg_spec.
  - by apply removeAllViews_spec.
  - by eapply good_same; [|exact Hg].
  - by apply onInvalidate_good.
  - by apply onVisible_good.
  - by apply onCell_good.
  - by apply onTextSelection_good.
  - by apply onGraphic_good.
  - by apply setPart_spec.
  - by apply onStatus_spec.
  - by apply onVideo_good.
  - by eapply good_same; [|exact Hg].
  - assert (H1 : good (set_zooming false st)) by (by eapply good_same; [|exact Hg]). by destruct (all_cursors _ _ (updated_refl _ H1)) as (_ & [] & _).
  - by eapply good_same; [|exact Hg].
  - unfold updateEditor. cbn. by case_match; eapply good_same; [|exact Hg| |exact Hg].
  - by eapply good_same; [apply setFollowing_same|].
  - by eapply good_same; [apply followUser_same|].
  - by eapply good_same; [apply editorUpdate_same|].
Qed.

Lemma new_views_good : good new_views.
Proof.
  split; cbn; try (intros ? [? H]; by rewrite lookup_empty in H); try (intros ? ? ? H; by rewrite lookup_empty in H).
  intros ? ? H. by rewrite lookup_empty in H.
Qed.

Lemma run_good evs : good (run evs new_views).
Proof.
  unfold run. pose proof new_views_good as Hg. revert Hg. generalize new_views.
  induction evs as [|ev evs IH]; intros st Hg; [done|]. cbn [foldl]. by apply IH, handle_good.
Qed.

(** C31: No ghosts: whatever messages arrive and whatever the user does, a cursor, cell cursor,
    selection or selected object that is shown is that of a view that is still there, and the
    one the table of its kind knows, so that it can be moved and removed. *)
Theorem no_ghosts evs :
  let st := run evs new_views in
  (forall id n b, domCursors (scr st) !! (id, n) = Some b ->
     is_Some (viewInfo st !! id) /\ exists c, viewCursors (tabs st) !! id = Some c /\ vc_marker c = Some n) /\
  (forall id n b, cellPaths (scr st) !! (id, n) = Some b ->
     is_Some (viewInfo st !! id) /\ exists c, cellViewCursors (tabs st) !! id = Some c /\ cc_marker c = Some n) /\
  (forall id n l, selectionPaths (scr st) !! (id, n) = Some l ->
     is_Some (viewInfo st !! id) /\ exists s, viewSelections (tabs st) !! id = Some s /\ vs_selection s = Some n) /\
  (forall id n b, viewLayers (scr st) !! (id, n) = Some b ->
     is_Some (viewInfo st !! id) /\ exists g, graphicViewMarkers (tabs st) !! id = Some g /\ gm_marker g = Some n).
Proof.
  cbv zeta. destruct (run_good evs) as [Hcu Hce Hse Hgr _ _ _ _].
  split_and!; intros id n p H;
    [destruct (Hcu id n p H) as (e & ? & ? & ?)|destruct (Hce id n p H) as (e & ? & ? & ?)
    |destruct (Hse id n p H) as (e & ? & ? & ?)|destruct (Hgr id n p H) as (e & ? & ? & ?)]; eauto.
Qed.

(** The message with the list of views: no error is raised, and afterwards exactly the
    views of the list are known. *)
Theorem view_list_exact evs l :
  let st := run evs new_views in
  (onViewInfoMsg l st).2 = false /\ forall id, is_Some (viewInfo (onViewInfoMsg l st).1 !! id) <-> id ∈ l.*1.
Proof. cbv zeta. destruct (onViewInfoMsg_spec l (run evs new_views) (run_good evs)) as (? & _ & ?). done. Qed.

(** When another part is shown, exactly what the other views have there is: the cursor of
    each view that may edit, is visible and has a place on the part (in Writer: anywhere), its
    cell cursor, its selection and the object it selected - each at its place, and nothing of
    other parts - and no error is raised. *)
Theorem part_shows_views evs part :
  let st := run evs new_views in
  let st0 := show_part part (selectedMode (at_place st)) st in
  let o := setPart part st in
  o.2 = false /\
  (forall id b, (exists n, domCursors (scr o.1) !! (id, n) = Some b) <-> cursor_due id st0 = Some b) /\
  (forall id b, (exists n, cellPaths (scr o.1) !! (id, n) = Some b) <-> cell_due id st0 = Some b) /\
  (forall id b, (exists n, viewLayers (scr o.1) !! (id, n) = Some b) <-> graphic_due id st0 = Some b) /\
  (forall id l, l <> [] -> (exists n, selectionPaths (scr o.1) !! (id, n) = Some l) <-> selection_due id st0 = Some l).
Proof.
  cbv zeta. destruct (setPart_spec part _ (run_good evs)) as (Hr & _ & H1 & H2 & H3 & H4).
  split_and!; [done|intros id b; by apply H1|intros id b; by apply H2|intros id b; by apply H3|intros id l Hl; by apply H4].
Qed.
End Views.

(** ** Examples *)

Definition sample_latlng (b : bounds) : llbounds := LatLng (px (bmin b)) (- py (bmax b)) (px (bmax b)) (- py (bmin b)).
Definition sample_info (name : string) : info := Info name true false 0.
Definition sample_run (app : app) (evs : list event) : views := run app sample_latlng id id id evs new_views.
Definition sample_handle (app : app) (ev : event) (st : views) : outcome := handle app sample_latlng id id id ev st.
Definition sample_rect : bounds := Bounds (Point 100 200) (Point 110 240).
Definition sample_start : list event :=
  [OwnView (Some 1); ViewInfo [(1, sample_info "me"); (2, sample_info "her")]; Move (LatLng 0 (-1000) 1000 0)].

(** Following a view whose cursor is on another slide raises an error with each of its
    movements, before the message is kept to be handled again. *)
Example following_raises :
  let st := sample_run Impress (sample_start ++ [FollowUser (Some 2)]) in
  let here := sample_handle Impress (InvalidateViewCursor 2 (Some sample_rect) 0 None) st in
  let elsewhere := sample_handle Impress (InvalidateViewCursor 2 (Some sample_rect) 1 None) st in
  here.2 = false /\ log here.1 = [ShowHeader (2, 0%nat); ShowHeader (2, 0%nat); SaveForReplay 2] /\
  elsewhere.2 = true /\ log elsewhere.1 = [].
Proof. vm_compute. done. Qed.

(** We can be made to follow ourselves. *)
Example follow_ourselves :
  followThis (follow (sample_run Writer (sample_start ++ [SetFollowing (Some true) (Some 1)]))) = 1 /\
  followUser (follow (sample_run Writer (sample_start ++ [SetFollowing (Some true) (Some 1)]))) = true.
Proof. split; reflexivity. Qed.

(** Following a cell cursor that is beside the view scrolls up or down. *)
Example cell_cursor_beside :
  let st := sample_run Calc (sample_start ++
    [CellViewCursor 2 (Some (Bounds (Point 1200 200) (Point 1240 240))) 0; FollowUser (Some 2)]) in
  quarters_center (mapBounds (at_place st)) = (2000, -2000) /\
  log st = [SaveForReplay 2; ScrollCenter 2000 (-1000); BindPopup (2, 0%nat)].
Proof. vm_compute. done. Qed.

(** When one of two views of a user goes, the picture of the user goes with it. *)
Example picture_lost :
  let st := sample_run Writer [ViewInfo [(1, sample_info "me"); (2, sample_info "her"); (3, sample_info "her")];
                               ViewInfo [(1, sample_info "me"); (3, sample_info "her")]] in
  is_Some (viewInfo st !! 3) /\ viewInfoByUserName st !! "her" = None.
Proof. split; [apply (bool_decide_unpack _); vm_compute; exact I|vm_compute; reflexivity]. Qed.

(** The cell cursor of a view that is not known is kept for ever. *)
Example unknown_cell_cursor :
  let st := sample_run Calc (sample_start ++
    [ViewInfo [(1, sample_info "me")]; CellViewCursor 2 (Some sample_rect) 0; ViewInfo [(1, sample_info "me")]; RemoveAllViews]) in
  is_Some (cellViewCursors (tabs st) !! 2).
Proof. apply (bool_decide_unpack _). vm_compute. exact I. Qed.
