(* ===== verification/CellCursor.v ===== *)
(** * The cell cursor

    Models the cursor of a spreadsheet in src/browser/src/layer/tile/CanvasTileLayer.js and
    CalcTileLayer.js: the messages [cellcursor:], [cellselectionarea:], [cellautofillarea:],
    [textselectionstart:] and [textselectionend:], where the view scrolls after them, the lock
    of page up and page down ([postKeyboardEvent]), the button of a list of values and the
    help of a cell, and [_clearSelections].

    Rectangles are given in latitude and longitude, which the code computes from those of the
    messages; sums of fractions of them are in quarters.  [SheetSwitch] decides whether the
    view may scroll to the cursor.  A handler returns its state and whether it raised an
    error. *)

From S2P Require Import Prelude JsText Geometry MessageStore Views.
Local Open Scope Z_scope.

(** ** The state *)

(** What the handlers see of others. *)
Record scene := Scene {
  desktop : bool;
  paneRects : list llbounds;       (** [getPaneLatLngRectangles], the free pane last *)
  mapBounds : llbounds;
  splitPos : Z * Z;                (** longitude and latitude; (0, 0) without frozen panes *)
  calcInputBarHasFocus : bool;
  anyInputFocused : bool;
  focusOnBody : bool;              (** [document.activeElement === document.body] *)
  mayScroll : bool -> bool;        (** [tryRestore], of whether the cursor is where it was *)
  editMode : bool;
  hasClip : bool;
  cellAddress : string             (** of the address bar *)
}.

Inductive effect :=
  | ScrollTo (lng4 lat4 : Z)       (** a centre, in quarters *)
  | CellAddressChanged
  | AutoFillViaCursor (shown : bool)
  | AutoFillViaSelection (shown : bool)
  | ClipClear
  | EditorGotFocus
  | CloseURLPopUp
  | RefreshHeaders
  | SendKey (unoKeyCode : Z).

Record cells := Cells {
  cellCursor : option llbounds;
  prevCellCursor : option llbounds;
  cellCursorXY : option (Z * Z);
  prevCellCursorXY : option (Z * Z);
  cellCursorOnPgUp : option llbounds;
  cellCursorOnPgDn : option llbounds;
  cursorVisible : bool;
  cursorMarker : option llbounds;
  validatedCellXY : option (Z * Z);
  dropDown : option llbounds;      (** the cell at which the button is shown *)
  inputHelp : bool;
  cellSelectionArea : option llbounds;
  cellAutoFillArea : option (Z * Z * Z * Z);
  textSelectionStart : option llbounds;
  textSelectionEnd : option llbounds;
  wholeColumnSelected : bool;
  wholeRowSelected : bool;
  log : list effect
}.

Definition new_cells : cells :=
  Cells (Some createDefault) (Some createDefault) None None None None false None None None false None None None None false false [].

Definition set_cursor (c : option llbounds) (xy : option (Z * Z)) (s : cells) : cells :=
  Cells c (prevCellCursor s) xy (prevCellCursorXY s) (cellCursorOnPgUp s) (cellCursorOnPgDn s) (cursorVisible s)
    (cursorMarker s) (validatedCellXY s) (dropDown s) (inputHelp s) (cellSelectionArea s) (cellAutoFillArea s)
    (textSelectionStart s) (textSelectionEnd s) (wholeColumnSelected s) (wholeRowSelected s) (log s).
Definition set_prev (c : option llbounds) (s : cells) : cells :=
  Cells (cellCursor s) c (cellCursorXY s) (prevCellCursorXY s) (cellCursorOnPgUp s) (cellCursorOnPgDn s) (cursorVisible s)
    (cursorMarker s) (validatedCellXY s) (dropDown s) (inputHelp s) (cellSelectionArea s) (cellAutoFillArea s)
    (textSelectionStart s) (textSelectionEnd s) (wholeColumnSelected s) (wholeRowSelected s) (log s).
Definition set_prevXY (xy : option (Z * Z)) (s : cells) : cells :=
  Cells (cellCursor s) (prevCellCursor s) (cellCursorXY s) xy (cellCursorOnPgUp s) (cellCursorOnPgDn s) (cursorVisible s)
    (cursorMarker s) (validatedCellXY s) (dropDown s) (inputHelp s) (cellSelectionArea s) (cellAutoFillArea s)
    (textSelectionStart s) (textSelectionEnd s) (wholeColumnSelected s) (wholeRowSelected s) (log s).
Definition set_pages (up dn : option llbounds) (s : cells) : cells :=
  Cells (cellCursor s) (prevCellCursor s) (cellCursorXY s) (prevCellCursorXY s) up dn (cursorVisible s)
    (cursorMarker s) (validatedCellXY s) (dropDown s) (inputHelp s) (cellSelectionArea s) (cellAutoFillArea s)
    (textSelectionStart s) (textSelectionEnd s) (wholeColumnSelected s) (wholeRowSelected s) (log s).
Definition set_visible (b : bool) (s : cells) : cells :=
  Cells (cellCursor s) (prevCellCursor s) (cellCursorXY s) (prevCellCursorXY s) (cellCursorOnPgUp s) (cellCursorOnPgDn s) b
    (cursorMarker s) (validatedCellXY s) (dropDown s) (inputHelp s) (cellSelectionArea s) (cellAutoFillArea s)
    (textSelectionStart s) (textSelectionEnd s) (wholeColumnSelected s) (wholeRowSelected s) (log s).
Definition set_marker (m : option llbounds) (s : cells) : cells :=
  Cells (cellCursor s) (prevCellCursor s) (cellCursorXY s) (prevCellCursorXY s) (cellCursorOnPgUp s) (cellCursorOnPgDn s)
    (cursorVisible s) m (validatedCellXY s) (dropDown s) (inputHelp s) (cellSelectionArea s) (cellAutoFillArea s)
    (textSelectionStart s) (textSelectionEnd s) (wholeColumnSelected s) (wholeRowSelected s) (log s).
Definition set_validated (xy : option (Z * Z)) (s : cells) : cells :=
  Cells (cellCursor s) (prevCellCursor s) (cellCursorXY s) (prevCellCursorXY s) (cellCursorOnPgUp s) (cellCursorOnPgDn s)
    (cursorVisible s) (cursorMarker s) xy (dropDown s) (inputHelp s) (cellSelectionArea s) (cellAutoFillArea s)
    (textSelectionStart s) (textSelectionEnd s) (wholeColumnSelected s) (wholeRowSelected s) (log s).
Definition set_dropDown (d : option llbounds) (s : cells) : cells :=
  Cells (cellCursor s) (prevCellCursor s) (cellCursorXY s) (prevCellCursorXY s) (cellCursorOnPgUp s) (cellCursorOnPgDn s)
    (cursorVisible s) (cursorMarker s) (validatedCellXY s) d (inputHelp s) (cellSelectionArea s) (cellAutoFillArea s)
    (textSelectionStart s) (textSelectionEnd s) (wholeColumnSelected s) (wholeRowSelected s) (log s).
Definition set_inputHelp (b : bool) (s : cells) : cells :=
  Cells (cellCursor s) (prevCellCursor s) (cellCursorXY s) (prevCellCursorXY s) (cellCursorOnPgUp s) (cellCursorOnPgDn s)
    (cursorVisible s) (cursorMarker s) (validatedCellXY s) (dropDown s) b (cellSelectionArea s) (cellAutoFillArea s)
    (textSelectionStart s) (textSelectionEnd s) (wholeColumnSelected s) (wholeRowSelected s) (log s).
Definition set_area (a : option llbounds) (s : cells) : cells :=
  Cells (cellCursor s) (prevCellCursor s) (cellCursorXY s) (prevCellCursorXY s) (cellCursorOnPgUp s) (cellCursorOnPgDn s)
    (cursorVisible s) (cursorMarker s) (validatedCellXY s) (dropDown s) (inputHelp s) a (cellAutoFillArea s)
    (textSelectionStart s) (textSelectionEnd s) (wholeColumnSelected s) (wholeRowSelected s) (log s).
Definition set_autoFill (a : option (Z * Z * Z * Z)) (s : cells) : cells :=
  Cells (cellCursor s) (prevCellCursor s) (cellCursorXY s) (prevCellCursorXY s) (cellCursorOnPgUp s) (cellCursorOnPgDn s)
    (cursorVisible s) (cursorMarker s) (validatedCellXY s) (dropDown s) (inputHelp s) (cellSelectionArea s) a
    (textSelectionStart s) (textSelectionEnd s) (wholeColumnSelected s) (wholeRowSelected s) (log s).
Definition set_ends (a b : option llbounds) (s : cells) : cells :=
  Cells (cellCursor s) (prevCellCursor s) (cellCursorXY s) (prevCellCursorXY s) (cellCursorOnPgUp s) (cellCursorOnPgDn s)
    (cursorVisible s) (cursorMarker s) (validatedCellXY s) (dropDown s) (inputHelp s) (cellSelectionArea s) (cellAutoFillArea s)
    a b (wholeColumnSelected s) (wholeRowSelected s) (log s).
Definition set_whole (c r : bool) (s : cells) : cells :=
  Cells (cellCursor s) (prevCellCursor s) (cellCursorXY s) (prevCellCursorXY s) (cellCursorOnPgUp s) (cellCursorOnPgDn s)
    (cursorVisible s) (cursorMarker s) (validatedCellXY s) (dropDown s) (inputHelp s) (cellSelectionArea s) (cellAutoFillArea s)
    (textSelectionStart s) (textSelectionEnd s) c r (log s).
Definition does (f : effect) (s : cells) : cells :=
  Cells (cellCursor s) (prevCellCursor s) (cellCursorXY s) (prevCellCursorXY s) (cellCursorOnPgUp s) (cellCursorOnPgDn s)
    (cursorVisible s) (cursorMarker s) (validatedCellXY s) (dropDown s) (inputHelp s) (cellSelectionArea s) (cellAutoFillArea s)
    (textSelectionStart s) (textSelectionEnd s) (wholeColumnSelected s) (wholeRowSelected s) (log s ++ [f]).

(** [_isEmptyRectangle] of a rectangle that may be [null]. *)
Definition empty (b : option llbounds) : bool := match b with Some b => isEmptyRectangle b | None => true end.

Definition getWidth (b : llbounds) : Z := Z.abs (east b - west b).
Definition getHeight (b : llbounds) : Z := Z.abs (north b - south b).

Definition ll_intersects (a b : llbounds) : bool :=
  (south a <=? north b) && (south b <=? north a) && (west a <=? east b) && (west b <=? east a).

Definition isInAny (b : llbounds) (l : list llbounds) : bool := existsb (fun p => ll_contains p b) l.

(** ** Where the view scrolls *)

Section with_scene.
Context (e : scene).

(** The free pane. *)
Definition freePane : llbounds := List.last (paneRects e) createDefault.

Definition bigger (c p : llbounds) : bool := (getWidth p <? getWidth c) || (getHeight p <? getHeight c).

(** The distance along one axis, in quarters; [None]: return at once. *)
Definition scrollX (c free : llbounds) : option Z :=
  if (splitPos e).1 <? east c then
    if getWidth free <? getWidth c then None
    else if west c <? west free then Some (4 * (west c - west free) - getWidth c)
    else if (getWidth c <? getWidth free) && (east free <? east c)
    then Some (4 * (east c - east free) + getWidth c) else Some 0
  else Some 0.

Definition scrollY (c free : llbounds) : option Z :=
  if south c <? (splitPos e).2 then
    if getHeight free <? getHeight c then None
    else if north free <? north c then Some (4 * (north c - north free) + getHeight c)
    else if south c <? south free then Some (4 * (south c - south free) - getHeight c) else Some 0
  else Some 0.

Definition calculateScrollForNewCellCursor (s : cells) : Z * Z :=
  match cellCursor s with
  | None => (0, 0)
  | Some c =>
      if isEmptyRectangle c then (0, 0)
      else if isInAny c (paneRects e) then (0, 0)
      else
        let noSplit := bool_decide (splitPos e = (0, 0)) in
        let pane0 := List.hd createDefault (paneRects e) in
        if noSplit && ll_intersects c pane0 && bigger c pane0 then (0, 0)
        else
          match scrollX c freePane with
          | None => (0, 0)
          | Some lng => (lng, default 0 (scrollY c freePane))
          end
  end.

(** [scrollToPos (newCenter)], the centre moved by a distance in quarters. *)
Definition scrollCenter (d : Z * Z) (s : cells) : cells :=
  let '(lng, lat) := quarters_center (mapBounds e) in does (ScrollTo (lng + d.1) (lat + d.2)) s.

(** ** The button of a list of values *)

Definition addDropDownMarker (s : cells) : cells :=
  match validatedCellXY s, cellCursorXY s, cellCursor s with
  | Some v, Some xy, Some c => if bool_decide (v = xy) then set_dropDown (Some c) s else s
  | _, _, _ => s
  end.

Definition removeDropDownMarker (s : cells) : cells :=
  match validatedCellXY s with None => set_dropDown None s | Some _ => s end.

Definition onValidityListButtonMsg (cell : Z * Z) (shown : bool) (s : cells) : cells :=
  if shown then
    let s := match validatedCellXY s with
             | Some v => if bool_decide (v = cell) then s else removeDropDownMarker (set_validated None s)
             | None => s
             end in
    addDropDownMarker (set_validated (Some cell) s)
  else if bool_decide (validatedCellXY s = Some cell) then removeDropDownMarker (set_validated None s)
  else s.

Definition removeInputHelpMarker (s : cells) : cells := set_inputHelp false s.

(** [this._cellCursor.getNorthEast ()] raises without a cursor. *)
Definition onValidityInputHelpMsg (s : cells) : cells * bool :=
  let s := removeInputHelpMarker s in
  match cellCursor s with Some _ => (set_inputHelp true s, false) | None => (s, true) end.

(** ** The cell cursor *)

Definition onUpdateCellCursor (onPgUpDn scrollToCursor : bool) (s : cells) : cells :=
  let s :=
    match cellCursor s with
    | Some c =>
        if isEmptyRectangle c then
          set_marker None s
        else
          let s :=
            if scrollToCursor && negb (bool_decide (cellCursorXY s = prevCellCursorXY s)) && negb (calcInputBarHasFocus e) then
              let d := calculateScrollForNewCellCursor s in
              let s := if bool_decide (d = (0, 0)) then s else scrollCenter d s in
              set_prevXY (cellCursorXY s) s
            else s in
          let s := if onPgUpDn then set_pages None None s else s in
          let s := match cursorMarker s with Some _ => set_dropDown None (set_marker (Some c) s) | None => set_marker (Some c) s end in
          let s := addDropDownMarker s in
          if negb (anyInputFocused e || focusOnBody e) then does EditorGotFocus s else s
    | None => set_marker None s
    end in
  does CloseURLPopUp (removeDropDownMarker s).

(** A message without the word [EMPTY] has the rectangle and the column and row. *)
Definition onCellCursorMsg (msg : option (llbounds * (Z * Z))) (s : cells) : cells :=
  let oldCursorXY := Some (default (-1, -1) (cellCursorXY s)) in
  let s := set_cursor (Some (default createDefault (cellCursor s))) oldCursorXY s in
  let s := set_prevXY (Some (default (-1, -1) (prevCellCursorXY s))) (set_prev (Some (default createDefault (prevCellCursor s))) s) in
  let s :=
    match msg with
    | None =>
        let s := does (AutoFillViaCursor false) (set_cursor (Some createDefault) (Some (-1, -1)) (set_visible false s)) in
        if hasClip e then does ClipClear s else s
    | Some (b, xy) => does (AutoFillViaCursor true) (does CellAddressChanged (set_cursor (Some b) (Some xy) (set_visible true s)))
    end in
  let moved := negb (empty (cellCursor s)) && negb (bool_decide (prevCellCursor s = cellCursor s)) in
  let onPgUpDn := moved && ((negb (bool_decide (cellCursorOnPgUp s = None)) && bool_decide (cellCursorOnPgUp s = prevCellCursor s)) ||
                            (negb (bool_decide (cellCursorOnPgDn s = None)) && bool_decide (cellCursorOnPgDn s = prevCellCursor s))) in
  let s := if moved then set_prev (cellCursor s) s else s in
  removeInputHelpMarker (onUpdateCellCursor onPgUpDn (mayScroll e (bool_decide (oldCursorXY = cellCursorXY s))) s).

(** Of [_clearSelections]. *)
Definition clearSelections (s : cells) : cells :=
  let s := set_prevXY None (set_prev None (set_cursor None None s)) in
  let s := onUpdateCellCursor false false s in
  if hasClip e then does ClipClear s else s.

(** [postKeyboardEvent] of a key that is pressed in a spreadsheet: page up is 1030, page down
    1031, the space key 1284 with Control (8192) or Shift (4096). *)
Definition pressKey (unoKeyCode : Z) (s : cells) : cells :=
  match prevCellCursor s with
  | None => does (SendKey unoKeyCode) s
  | Some prev =>
      if unoKeyCode =? 1030 then
        match cellCursorOnPgUp s with
        | Some _ => s
        | None => does (SendKey unoKeyCode) (set_pages (Some prev) (cellCursorOnPgDn s) s)
        end
      else if unoKeyCode =? 1031 then
        match cellCursorOnPgDn s with
        | Some _ => s
        | None => does (SendKey unoKeyCode) (set_pages (cellCursorOnPgUp s) (Some prev) s)
        end
      else if unoKeyCode =? 1284 + 8192 then does (SendKey unoKeyCode) (set_whole true (wholeRowSelected s) s)
      else if unoKeyCode =? 1284 + 4096 then does (SendKey unoKeyCode) (set_whole (wholeColumnSelected s) true s)
      else does (SendKey unoKeyCode) s
  end.

(** ** Selections *)

(** The characters of a string that are digits, as a number, and those that are not. *)
Fixpoint digits_of (s : string) : string :=
  match s with
  | EmptyString => EmptyString
  | String c s => match digit_val c with
                  | Some d => if d <? 10 then String c (digits_of s) else digits_of s
                  | None => digits_of s
                  end
  end.

Fixpoint getStringPart (s : string) : string :=
  match s with
  | EmptyString => EmptyString
  | String c s => match digit_val c with
                  | Some d => if d <? 10 then getStringPart s else String c (getStringPart s)
                  | None => String c (getStringPart s)
                  end
  end.

Definition getNumberPart (s : string) : num := parseInt (digits_of s).

Definition isWholeColumnSelected (address : string) : bool :=
  match split_on ":" address with
  | first :: second :: _ =>
      bool_decide (getNumberPart first = Some 1) && bool_decide (getNumberPart second = Some 1048576)
  | _ => false
  end.

Definition isWholeRowSelected (address : string) : bool :=
  match split_on ":" address with
  | first :: second :: _ => String.eqb (getStringPart first) "A" && String.eqb (getStringPart second) "XFD"
  | _ => false
  end.

(** The distance to scroll for a selection, in quarters. *)
Definition selectionScroll (c old new : llbounds) : Z * Z :=
  let m := mapBounds e in
  let spacingX := getWidth c in
  let spacingY := 2 * getHeight c in
  (if (east m <? east new) && (east old <? east new) then 4 * (east new - east m) + spacingX
   else if (west new <? west m) && (west new <? west old) then 4 * (west new - west m) - spacingX else 0,
   if (north m <? north new) && (north old <? north new) then 4 * (north new - north m) + spacingY
   else if (south new <? south m) && (south new <? south old) then 4 * (south new - south m) - spacingY else 0).

(** [this._cellCursor.getEast ()] raises without a cursor. *)
Definition updateScrollOnCellSelection (oldSelection : option llbounds) (new : llbounds) (s : cells) : cells * bool :=
  match oldSelection with
  | None => (s, false)
  | Some old =>
      if negb (ll_contains (mapBounds e) new) && negb (bool_decide (new = old)) then
        match cellCursor s with
        | None => (s, true)
        | Some c =>
            let d := selectionScroll c old new in
            if bool_decide (d = (0, 0)) then (s, false)
            else if negb (wholeColumnSelected s) && negb (wholeRowSelected s)
                    && negb (isWholeColumnSelected (cellAddress e)) && negb (isWholeRowSelected (cellAddress e))
            then (scrollCenter d s, false) else (s, false)
        end
      else (s, false)
  end.

Definition onCellSelectionAreaMsg (area : option llbounds) (s : cells) : cells * bool :=
  match area with
  | Some new =>
      let s' := does (AutoFillViaSelection true) (set_area (Some new) s) in
      let s' := match cellCursor s' with None => set_cursor (Some createDefault) (cellCursorXY s') s' | Some _ => s' end in
      updateScrollOnCellSelection (cellSelectionArea s) new s'
  | None =>
      (does RefreshHeaders (set_whole false false (does (AutoFillViaSelection false) (set_area None s))), false)
  end.

Definition onCellAutoFillAreaMsg (area : option (Z * Z * Z * Z)) (s : cells) : cells :=
  set_autoFill (if editMode e then area else None) s.

(** Only the first rectangle matters.  The handles are left out. *)
Definition onTextSelectionEndMsg (rect : option llbounds) (s : cells) : cells * bool :=
  match rect with
  | Some new => updateScrollOnCellSelection (textSelectionEnd s) new (set_ends (textSelectionStart s) (Some new) s)
  | None => (set_ends (textSelectionStart s) None s, false)
  end.

Definition onTextSelectionStartMsg (rect : option llbounds) (s : cells) : cells * bool :=
  match rect with
  | Some new => updateScrollOnCellSelection (textSelectionStart s) new (set_ends (Some new) (textSelectionEnd s) s)
  | None => (set_ends None (textSelectionEnd s) s, false)
  end.

(** ** All that happens *)

Inductive event :=
  | CellCursorMsg (msg : option (llbounds * (Z * Z)))
  | ClearSelections
  | PressKey (unoKeyCode : Z)
  | ValidityListButton (cell : Z * Z) (shown : bool)
  | ValidityInputHelp
  | CellSelectionArea (area : option llbounds)
  | CellAutoFillArea (area : option (Z * Z * Z * Z))
  | TextSelectionStart (rect : option llbounds)
  | TextSelectionEnd (rect : option llbounds).

Definition handle (ev : event) (s : cells) : cells * bool :=
  match ev with
  | CellCursorMsg m => (onCellCursorMsg m s, false)
  | ClearSelections => (clearSelections s, false)
  | PressKey k => (pressKey k s, false)
  | ValidityListButton c b => (onValidityListButtonMsg c b s, false)
  | ValidityInputHelp => onValidityInputHelpMsg s
  | CellSelectionArea a => onCellSelectionAreaMsg a s
  | CellAutoFillArea a => (onCellAutoFillAreaMsg a s, false)
  | TextSelectionStart r => onTextSelectionStartMsg r s
  | TextSelectionEnd r => onTextSelectionEndMsg r s
  end.

End with_scene.

(** What happens, each with what the handlers see then. *)
Definition run (evs : list (scene * event)) (s : cells) : cells := foldl (fun s ev => (handle ev.1 ev.2 s).1) s evs.
(** ** The view reaches the cursor *)

(** Rectangles in quarters, and moved. *)
Definition quarters (b : llbounds) : llbounds := LatLng (4 * west b) (4 * south b) (4 * east b) (4 * north b).
Definition moved_by (d : Z * Z) (b : llbounds) : llbounds :=
  LatLng (west b + d.1) (south b + d.2) (east b + d.1) (north b + d.2).

Definition proper (b : llbounds) : Prop := west b <= east b /\ south b <= north b.

Lemma contains_spec a b : ll_contains a b = true <->
  south a <= south b /\ north b <= north a /\ west a <= west b /\ east b <= east a.
Proof. unfold ll_contains. rewrite !andb_true_iff, !Z.leb_le. tauto. Qed.

(** When the cell cursor is out of sight, the free pane scrolls to where it contains the cell,
    with room for cells that take four fifths of it at most; a cursor in sight scrolls nothing. *)
Theorem scroll_shows_cursor e s c :
  cellCursor s = Some c -> isEmptyRectangle c = false ->
  (isInAny c (paneRects e) = true -> calculateScrollForNewCellCursor e s = (0, 0)) /\
  (isInAny c (paneRects e) = false ->
   proper c -> proper (freePane e) ->
   5 * getWidth c <= 4 * getWidth (freePane e) -> 5 * getHeight c <= 4 * getHeight (freePane e) ->
   0 < getWidth c -> 0 < getHeight c ->
   (splitPos e).1 < east c -> south c < (splitPos e).2 ->
   (splitPos e = (0, 0) -> paneRects e = [freePane e]) ->
   ll_contains (moved_by (calculateScrollForNewCellCursor e s) (quarters (freePane e))) (quarters c) = true).
Proof.
  intros Hc He. unfold calculateScrollForNewCellCursor. rewrite Hc, He.
  split; [by intros ->|].
  intros -> [Hpc1 Hpc2] [Hf1 Hf2] Hw Hh Hw0 Hh0 Hx Hy Hpane.
  assert (bool_decide (splitPos e = (0, 0)) && ll_intersects c (List.hd createDefault (paneRects e))
            && bigger c (List.hd createDefault (paneRects e)) = false) as ->.
  { case_bool_decide as E; [|done]. rewrite (Hpane E). cbn [List.hd andb].
    apply andb_false_intro2. unfold bigger. apply orb_false_iff. split; apply Z.ltb_ge; lia. }
  unfold scrollX, scrollY, getWidth, getHeight in *.
  destruct (Z.ltb_spec (splitPos e).1 (east c)); [|lia].
  destruct (Z.ltb_spec (south c) (splitPos e).2); [|lia].
  repeat case_bool; try lia; cbn [default from_option fst snd]; apply contains_spec; cbn; lia.
Qed.

(** ** Page up and page down *)

(** A lock is at the last place of the cursor. *)
Definition locked_here (s : cells) : Prop :=
  (forall b, cellCursorOnPgUp s = Some b -> prevCellCursor s = Some b) /\
  (forall b, cellCursorOnPgDn s = Some b -> prevCellCursor s = Some b).

(** What the lock depends on. *)
Definition paging (s : cells) := (prevCellCursor s, cellCursorOnPgUp s, cellCursorOnPgDn s).

Lemma locked_paging s s' : paging s' = paging s -> locked_here s -> locked_here s'.
Proof. unfold paging, locked_here. by intros [= -> -> ->]. Qed.

Lemma paging_scrollCenter e d s : paging (scrollCenter e d s) = paging s.
Proof. unfold scrollCenter. by destruct (quarters_center _). Qed.

Lemma paging_dropDown s : paging (addDropDownMarker s) = paging s /\ paging (removeDropDownMarker s) = paging s.
Proof. unfold addDropDownMarker, removeDropDownMarker. split; repeat case_match; done. Qed.

Lemma paging_update e b scroll s :
  paging (onUpdateCellCursor e b scroll s) =
  if b && negb (empty (cellCursor s)) then (prevCellCursor s, None, None) else paging s.
Proof.
  unfold onUpdateCellCursor.
  assert (forall s, paging (does CloseURLPopUp (removeDropDownMarker s)) = paging s) as Hend
    by (intros; apply paging_dropDown).
  rewrite Hend. clear Hend.
  destruct (cellCursor s) as [c|] eqn:Ec; [|by rewrite andb_false_r]. cbn [empty].
  destruct (isEmptyRectangle c); [by rewrite andb_false_r|]. cbn [negb]. rewrite andb_true_r.
  set (s1 := if _ && _ && _ then _ else s).
  assert (paging s1 = paging s) as H1.
  { subst s1. destruct (_ && _ && _); [|done]. case_bool_decide; [done|].
    exact (paging_scrollCenter e (calculateScrollForNewCellCursor e s) s). }
  clearbody s1.
  set (s2 := if b then _ else s1).
  assert (paging s2 = if b then (prevCellCursor s, None, None) else paging s) as H2.
  { subst s2. destruct b; [|done]. unfold paging in *. cbn. by injection H1 as -> _ _. }
  rewrite <- H2. clearbody s2. clear H1 H2.
  set (s3 := match cursorMarker s2 with Some _ => _ | None => _ end).
  assert (paging s3 = paging s2) as <- by (subst s3; by destruct (cursorMarker s2)). clearbody s3.
  destruct (negb _); apply paging_dropDown.
Qed.

(** What a message of the cell cursor does to the locks. *)
Lemma paging_cursorMsg e m s :
  locked_here s ->
  let new := match m with Some (b, _) => Some b | None => Some createDefault end in
  let prev := Some (default createDefault (prevCellCursor s)) in
  let moved := negb (empty new) && negb (bool_decide (prev = new)) in
  prevCellCursor s <> None ->
  paging (onCellCursorMsg e m s) =
  if moved then (new, None, None) else (prev, cellCursorOnPgUp s, cellCursorOnPgDn s).
Proof.
  intros [Hu Hd] new prev moved Hp. unfold onCellCursorMsg.
  destruct (prevCellCursor s) as [p|] eqn:Ep; [|done]. cbn in prev.
  set (s2 := match m with Some _ => _ | None => _ end).
  assert (paging s2 = (prev, cellCursorOnPgUp s, cellCursorOnPgDn s) /\ cellCursor s2 = new) as [H2 Hc2].
  { subst s2. destruct m as [[b xy]|]; [|cbv zeta; destruct (hasClip e)];
    unfold paging; cbn; by rewrite Ep. }
  clearbody s2. unfold paging in H2. injection H2 as Hp2 Hu2 Hd2.
  cbv zeta. rewrite Hc2, Hp2, Hu2, Hd2. fold moved.
  set (pg := moved && _). set (s3 := if moved then _ else s2).
  assert (paging s3 = (if moved then new else prev, cellCursorOnPgUp s, cellCursorOnPgDn s) /\ cellCursor s3 = new) as [H3 Hc3].
  { subst s3. unfold paging; destruct moved; cbn; by rewrite ?Hp2, ?Hu2, ?Hd2, ?Hc2. }
  change (paging (removeInputHelpMarker ?s)) with (paging s).
  rewrite paging_update, Hc3, H3. subst pg. destruct moved eqn:Em; [|done]. cbn [andb].
  assert (empty new = false) as ->
    by (unfold moved in Em; apply andb_true_iff in Em; destruct Em as [Em _]; by apply negb_true_iff in Em).
  rewrite andb_true_r. change (prevCellCursor s3) with new.
  destruct (cellCursorOnPgUp s) as [u|].
  - by rewrite (bool_decide_eq_true_2 (Some u = prev)) by (symmetry; by apply Hu).
  - destruct (cellCursorOnPgDn s) as [u|]; [|done]. cbn.
    by rewrite (bool_decide_eq_true_2 (Some u = prev)) by (symmetry; by apply Hd).
Qed.

(** ** All that happens *)

Definition alive (s : cells) : Prop := locked_here s /\ prevCellCursor s <> None.

Lemma alive_paging s s' : paging s' = paging s -> alive s -> alive s'.
Proof. unfold alive. intros H [Hl Hp]. split; [by eapply locked_paging|]. unfold paging in H. by injection H as -> _ _. Qed.

Lemma alive_cursorMsg e m s : alive s -> alive (onCellCursorMsg e m s).
Proof.
  intros [Hl Hp]. pose proof (paging_cursorMsg e m s Hl Hp) as H. cbv zeta in H. destruct Hl as [Hu Hd].
  destruct (prevCellCursor s) as [p|]; [|done]. cbn [default from_option] in H. revert H.
  generalize (onCellCursorMsg e m s) as s'. generalize (match m with Some (b, _) => Some b | None => Some createDefault end).
  intros new s'. unfold paging, alive, locked_here. destruct (negb (empty new) && _) eqn:E; intros [= -> -> ->].
  - destruct new; [|by rewrite andb_false_l in E]. by repeat split.
  - by repeat split.
Qed.

(** A key that is not locked: what it locks is where the cursor is. *)
Lemma alive_pages up dn s :
  prevCellCursor s <> None -> (forall b, up = Some b -> prevCellCursor s = Some b) ->
  (forall b, dn = Some b -> prevCellCursor s = Some b) -> alive (set_pages up dn s).
Proof. by repeat split. Qed.

Lemma alive_does f s : alive s -> alive (does f s).
Proof. by intros []. Qed.

Lemma alive_pressKey k s : alive s -> alive (pressKey k s).
Proof.
  intros H. pose proof H as [[Hu Hd] Hp]. unfold pressKey. destruct (prevCellCursor s) as [p|] eqn:Ep; [|done].
  destruct (k =? 1030); [|destruct (k =? 1031); [|by repeat case_match; apply alive_does]].
  - destruct (cellCursorOnPgUp s); [done|]. apply alive_does, alive_pages; by rewrite Ep.
  - destruct (cellCursorOnPgDn s); [done|]. apply alive_does, alive_pages; by rewrite Ep.
Qed.

Lemma paging_updateScroll e old new s : paging (updateScrollOnCellSelection e old new s).1 = paging s.
Proof. unfold updateScrollOnCellSelection, scrollCenter. repeat case_match; done. Qed.

Lemma paging_selectionArea e a s : paging (onCellSelectionAreaMsg e a s).1 = paging s.
Proof.
  unfold onCellSelectionAreaMsg. destruct a as [new|]; [|done]. cbv zeta.
  destruct (cellCursor _); by rewrite paging_updateScroll.
Qed.

Lemma paging_validityButton c shown s : paging (onValidityListButtonMsg c shown s) = paging s.
Proof.
  unfold onValidityListButtonMsg. cbv zeta.
  repeat case_match; rewrite ?(proj1 (paging_dropDown _)), ?(proj2 (paging_dropDown _)); try done.
Qed.

Lemma alive_handle e ev s : ev <> ClearSelections -> alive s -> alive (handle e ev s).1.
Proof.
  intros Hev Ha. destruct ev; cbn [handle fst]; [|done|..].
  - by apply alive_cursorMsg.
  - by apply alive_pressKey.
  - apply (alive_paging s); [apply paging_validityButton|done].
  - apply (alive_paging s); [|done]. unfold onValidityInputHelpMsg, removeInputHelpMarker. by repeat case_match.
  - apply (alive_paging s); [apply paging_selectionArea|done].
  - by apply (alive_paging s).
  - apply (alive_paging s); [|done]. unfold onTextSelectionStartMsg.
    destruct rect; [by rewrite paging_updateScroll|done].
  - apply (alive_paging s); [|done]. unfold onTextSelectionEndMsg.
    destruct rect; [by rewrite paging_updateScroll|done].
Qed.

Lemma alive_new : alive new_cells.
Proof. by repeat split. Qed.

Lemma alive_run evs : Forall (fun ev => ev.2 <> ClearSelections) evs -> alive (run evs new_cells).
Proof.
  unfold run. generalize alive_new. generalize new_cells.
  induction evs as [|ev evs IH]; intros s Hs Hevs; [done|].
  apply Forall_cons in Hevs as [Hev Hevs]. cbn. apply IH; [|done]. by apply alive_handle.
Qed.

Definition page_key (k : Z) : Prop := k = 1030 \/ k = 1031.

Lemma pressKey_locked k s : page_key k -> prevCellCursor s <> None -> pressKey k (pressKey k s) = pressKey k s.
Proof.
  intros Hk Hp. destruct (prevCellCursor s) as [p|] eqn:Ep; [|done]. destruct Hk as [-> | ->].
  - assert (E : pressKey 1030 s = match cellCursorOnPgUp s with
      Some _ => s | None => does (SendKey 1030) (set_pages (Some p) (cellCursorOnPgDn s) s) end) by (unfold pressKey; by rewrite Ep).
    rewrite E. destruct (cellCursorOnPgUp s); [exact E|]. unfold pressKey. cbn. by rewrite Ep.
  - assert (E : pressKey 1031 s = match cellCursorOnPgDn s with
      Some _ => s | None => does (SendKey 1031) (set_pages (cellCursorOnPgUp s) (Some p) s) end) by (unfold pressKey; by rewrite Ep).
    rewrite E. destruct (cellCursorOnPgDn s); [exact E|]. unfold pressKey. cbn. by rewrite Ep.
Qed.

Lemma pressKey_free k b s :
  page_key k -> paging s = (Some b, None, None) -> log (pressKey k s) = log s ++ [SendKey k].
Proof. unfold paging. intros Hk [= H1 H2 H3]. unfold pressKey. rewrite H1, H2, H3. by destruct Hk as [-> | ->]. Qed.

Lemma cursorMsg_frees e b xy s :
  alive s -> isEmptyRectangle b = false -> prevCellCursor s <> Some b ->
  paging (onCellCursorMsg e (Some (b, xy)) s) = (Some b, None, None).
Proof.
  intros [Hl Hp] Hb Hne. rewrite (paging_cursorMsg e (Some (b, xy)) s Hl Hp). cbv zeta. cbn [empty]. rewrite Hb.
  destruct (prevCellCursor s) as [p|] eqn:Ep; [|done]. cbn [default from_option].
  by rewrite (bool_decide_eq_false_2 (Some p = Some b)).
Qed.

(** The page keys wait for the cursor and no longer: while the selections were never cleared,
    a second page up or page down before the cursor moves sends nothing, and each message that
    moves the cursor makes both keys send again. *)
Theorem page_keys_released evs :
  Forall (fun ev => ev.2 <> ClearSelections) evs ->
  let s := run evs new_cells in
  (forall k, page_key k -> pressKey k (pressKey k s) = pressKey k s) /\
  (forall e b xy, isEmptyRectangle b = false -> prevCellCursor s <> Some b ->
   let s' := onCellCursorMsg e (Some (b, xy)) s in
   forall k, page_key k -> log (pressKey k s') = log s' ++ [SendKey k]).
Proof.
  intros Hevs s. pose proof (alive_run evs Hevs) as Ha. fold s in Ha. clearbody s. split.
  - intros k Hk. by apply pressKey_locked; [|apply Ha].
  - intros e b xy Hb Hne s' k Hk. apply (pressKey_free k b); [done|]. by apply cursorMsg_frees.
Qed.

(** ** Examples *)

Definition sample_scene : scene :=
  Scene true [LatLng 0 (-1000) 1000 0] (LatLng 0 (-1000) 1000 0) (0, 0) false false true (fun _ => true) true false "A1".

Definition cell_at (i : Z) : llbounds := LatLng (100 * i) (-40) (100 * i + 100) (-20).

(** [_clearSelections] forgets where the cursor was while a page key waits: the key that is
    pressed again when the server has answered sends nothing, and neither do those after it. *)
Example page_up_dead :
  let at_cell i := (sample_scene, CellCursorMsg (Some (cell_at i, (i, 1)))) in
  let key := (sample_scene, PressKey 1030) in
  let evs := [at_cell 1; key; (sample_scene, ClearSelections); at_cell 2; key; at_cell 3; key] in
  omap (fun f => match f with SendKey k => Some k | _ => None end) (log (run evs new_cells)) = [1030].
Proof. vm_compute. reflexivity. Qed.

(** A cell that is wider than the free pane is not scrolled to, not even upwards or downwards. *)
Example wide_cell_not_shown :
  let s := set_cursor (Some (LatLng 0 (-3040) 1200 (-3020))) (Some (0, 100)) new_cells in
  calculateScrollForNewCellCursor sample_scene s = (0, 0).
Proof. vm_compute. reflexivity. Qed.
