(* ===== verification/Json.v ===== *)
(** * [JSON.stringify]

    The JSON texts the client sends as arguments of a command. *)

From S2P Require Import Prelude JsText.
Local Open Scope Z_scope.

Inductive json :=
  | JStr (s : string)
  | JNum (n : Z)
  | JBool (b : bool)
  | JNull
  | JObj (fields : list (string * json)).

Definition quote : string := String "034"%char "".
Definition backslash : string := String "092"%char "".

(** A character of a string literal. *)
Definition escape_char (c : ascii) : string :=
  let n := code c in
  if n =? 34 then backslash +:+ quote
  else if n =? 92 then backslash +:+ backslash
  else if n =? 8 then backslash +:+ "b"
  else if n =? 9 then backslash +:+ "t"
  else if n =? 10 then backslash +:+ "n"
  else if n =? 12 then backslash +:+ "f"
  else if n =? 13 then backslash +:+ "r"
  else if n <? 32 then
    backslash +:+ "u00" +:+ (if n <? 16 then "0" else "") +:+ to_string_radix 16 n
  else String c "".

Fixpoint escape (s : string) : string :=
  match s with
  | "" => ""
  | String c s' => escape_char c +:+ escape s'
  end.

Definition json_string (s : string) : string := quote +:+ escape s +:+ quote.

Fixpoint stringify (j : json) : string :=
  match j with
  | JStr s => json_string s
  | JNum n => num_to_string n
  | JBool b => if b then "true" else "false"
  | JNull => "null"
  | JObj fields =>
      "{" +:+ join "," (map (fun kv => json_string kv.1 +:+ ":" +:+ stringify kv.2) fields) +:+ "}"
  end.
