(* ===== verification/Parts.v ===== *)
(** * The parts of a document: sheets, slides and pages

    The part that is shown, the selected parts, the preview requests, and the
    commands that insert, delete, duplicate, rename, show and hide parts.  Models
    src/browser/src/control/Parts.js ([L.Map]) with the effects on other
    components as a log. *)

From S2P Require Import Prelude JsText JsObject Json Tiles FileBased.
Local Open Scope Z_scope.

(** ** State *)

Inductive doc_type := TextDoc | Spreadsheet | Presentation | Drawing.

#[export] Instance doc_type_eq_dec : EqDecision doc_type.
Proof. solve_decision. Defined.

Definition is_presentation_or_drawing (d : doc_type) : bool :=
  bool_decide (d = Presentation) || bool_decide (d = Drawing).

(** The argument of [setPart] and [goToPage]; [Other] is any other value. *)
Inductive part_arg := PrevPart | NextPart | PartNo (n : Z) | Other.

Inductive effect :=
  | Send (msg : string)
  | Fire (event : string)
  | FireUpdateParts (selectedPart : Z) (selectedParts : list Z) (parts : Z)
  | Call (method : string)
  | SheetSwitchSave (toPart : part_arg)
  | SheetInserted (nPos : option Z)
  | SheetDeleted (nPos : option Z)
  | ScrollViewByDirection (part : part_arg)
  | ScrollViewToPart (part : Z)
  | ClearSelections (calledFromSetPartHandler : bool)
  | ScrollTop (y : Z).

(** The part and selection fields of the document layer and the map. *)
Record selection := Selection {
  selectedPart : Z;
  prevSelectedPart : Z;
  selectedParts : list Z;
  nparts : Z;                      (** [_parts] *)
  partsDirection : Z;
  prevSelectedPartNeedsUpdate : bool
}.

Inductive preview :=
  | PartPreview (index maxWidth maxHeight : Z) (autoUpdate invalid : bool)
  | CustomPreview (part width height tilePosX tilePosY tileWidth tileHeight : Z)
                  (autoUpdate invalid : bool).

Record previews := Previews {
  previewQueue : list (Z * string);
  previewRequestsOnFly : Z;
  timeToEmptyQueue : Z;
  docPreviews : obj preview
}.

Record state := State {
  sel : selection;
  pages : Z;
  currentPage : Z;
  prev : previews;
  hiddenSlides : gset Z;
  tstore : store;
  log : list effect
}.

(** What the operations read. *)
Record env := Env {
  docType : doc_type;
  anyEdit : bool;                  (** a comment is being edited *)
  fileBasedView : bool;
  scrolled : file_view;            (** the layout after a scroll of the previews *)
  cursorVisible : bool;
  searchRequested : bool;
  editMode : bool;
  pageTops : list Z;               (** tops of [pageRectangleList], in core pixels *)
  hiddenParts : list Z;
  canonicalIdInitialized : bool;
  isPreviewVisible : Z -> bool;
  roundedDpiScale : Z;
  selectedMode : Z;
  partSize : Z * Z;                (** part width and height in twips, 0 for none *)
  docSize : Z * Z
}.

Definition do (e : effect) (s : state) : state :=
  State (sel s) (pages s) (currentPage s) (prev s) (hiddenSlides s) (tstore s) (log s ++ [e]).
Definition set_sel (f : selection -> selection) (s : state) : state :=
  State (f (sel s)) (pages s) (currentPage s) (prev s) (hiddenSlides s) (tstore s) (log s).
Definition set_currentPage (n : Z) (s : state) : state :=
  State (sel s) (pages s) n (prev s) (hiddenSlides s) (tstore s) (log s).
Definition set_prev (f : previews -> previews) (s : state) : state :=
  State (sel s) (pages s) (currentPage s) (f (prev s)) (hiddenSlides s) (tstore s) (log s).
Definition set_hiddenSlides (h : gset Z) (s : state) : state :=
  State (sel s) (pages s) (currentPage s) (prev s) h (tstore s) (log s).
Definition set_tstore (t : store) (s : state) : state :=
  State (sel s) (pages s) (currentPage s) (prev s) (hiddenSlides s) t (log s).

Definition move_to (part dir : Z) (c : selection) : selection :=
  Selection part (prevSelectedPart c) (selectedParts c) (nparts c) dir (prevSelectedPartNeedsUpdate c).
Definition set_selectedPart (part : Z) (c : selection) : selection :=
  Selection part (prevSelectedPart c) (selectedParts c) (nparts c) (partsDirection c)
            (prevSelectedPartNeedsUpdate c).
Definition set_selectedParts (l : list Z) (c : selection) : selection :=
  Selection (selectedPart c) (prevSelectedPart c) l (nparts c) (partsDirection c)
            (prevSelectedPartNeedsUpdate c).
Definition set_nparts (n : Z) (c : selection) : selection :=
  Selection (selectedPart c) (prevSelectedPart c) (selectedParts c) n (partsDirection c)
            (prevSelectedPartNeedsUpdate c).
Definition need_update (c : selection) : selection :=
  Selection (selectedPart c) (prevSelectedPart c) (selectedParts c) (nparts c) (partsDirection c) true.

(** [docLayer._prevSelectedPart = docLayer._selectedPart; docLayer._selectedParts = []] *)
Definition leave_part (c : selection) : selection :=
  Selection (selectedPart c) (selectedPart c) [] (nparts c) (partsDirection c)
            (prevSelectedPartNeedsUpdate c).

Definition do_all (l : list effect) (s : state) : state := foldl (fun s e => do e s) s l.

Definition fire_updateparts (s : state) : state :=
  do (FireUpdateParts (selectedPart (sel s)) (selectedParts (sel s)) (nparts (sel s))) s.

(** ** [setPart] *)

Definition notifyServer (external : bool) (part : Z) (s : state) : state :=
  if external then s else do (Send ("setclientpart part=" +:+ num_to_string part)) s.

(** The new part; [None]: the argument is no part. *)
Definition choose_part (part : part_arg) (s : state) : option state :=
  let c := sel s in
  match part with
  | PrevPart => Some (if 0 <? selectedPart c then set_sel (move_to (selectedPart c - 1) (-1)) s else s)
  | NextPart =>
      Some (if selectedPart c <? nparts c - 1 then set_sel (move_to (selectedPart c + 1) 1) s else s)
  | PartNo n =>
      if (0 <=? n) && (n <? nparts c) then
        Some (do (Call "updateReferenceMarks")
                (set_sel (move_to n (if selectedPart c <=? n then 1 else -1)) s))
      else None
  | Other => None
  end.

Section with_env.
Context (e : env).

Definition check_selected_part (s : state) : state :=
  let '(t, part, msgs) := checkSelectedPart (scrolled e) (selectedPart (sel s)) (tstore s) in
  do_all (Send <$> msgs) (set_sel (set_selectedPart part) (set_tstore t s)).

(** The file-based view scrolls instead of switching. *)
Definition scroll_to_part (part : part_arg) (external : bool) (s : state) : state :=
  let s := set_sel (fun c => set_selectedPart (prevSelectedPart c) c) s in
  match part with
  | PartNo n =>
      notifyServer external n
        (check_selected_part (do (ScrollViewToPart (selectedPart (sel s))) s))
  | _ => check_selected_part (do (ScrollViewByDirection part) s)
  end.

(** From [this.fire ('scrolltopart')] on. *)
Definition show_part (external calledFromSetPartHandler : bool) (s : state) : state :=
  let s := do (Fire "scrolltopart") s in
  let s := set_sel (fun c => set_selectedParts (selectedParts c ++ [selectedPart c]) c) s in
  let s := if cursorVisible e then do (Send "resetselection") s else s in
  let s := notifyServer external (selectedPart (sel s)) s in
  let s := fire_updateparts s in
  let s := do_all [Call "eachView viewCursors"; Call "eachView cellViewCursors";
                   Call "eachView graphicViewMarkers"; Call "eachView viewSelections";
                   ClearSelections calledFromSetPartHandler; Call "updateOnChangePart";
                   Call "pruneTiles"] s in
  let s := set_sel need_update s in
  let s := do_all [Call "invalidatePreviews"; Call "drawSearchResults"] s in
  if searchRequested e then s else do (Call "focus") s.

Definition setPart (part : part_arg) (external calledFromSetPartHandler : bool) (s : state) : state :=
  if anyEdit e then do (Call "showCommentEditingWarning") s
  else if match part with PartNo n => n =? selectedPart (sel s) | _ => false end then s
  else
    let s := if bool_decide (docType e = Spreadsheet) then do (SheetSwitchSave part) s else s in
    let s := set_sel leave_part (do (Call "clearMsgReplayStore") s) in
    match choose_part part s with
    | None => s
    | Some s =>
        if fileBasedView e then scroll_to_part part external s
        else show_part external calledFromSetPartHandler s
    end.

(** ** Selecting parts *)

(** [l.splice (l.indexOf (part), 1)] *)
Fixpoint remove_first (part : Z) (l : list Z) : list Z :=
  match l with
  | [] => []
  | p :: l' => if p =? part then l' else p :: remove_first part l'
  end.

(** [how] is 0 to deselect, 1 to select and 2 to toggle. *)
Definition selectPart (part how : Z) (external : bool) (s : state) : state :=
  let l := selectedParts (sel s) in
  let s :=
    if bool_decide (part ∈ l) && negb (how =? 1) then set_sel (set_selectedParts (remove_first part l)) s
    else if negb (how =? 0) then set_sel (set_selectedParts (l ++ [part])) s
    else s in
  let s := fire_updateparts s in
  if external then s
  else do (Send ("selectclientpart part=" +:+ num_to_string part +:+ " how=" +:+ num_to_string how)) s.

(** [while (selectedParts.length > 0)]; the length is fuel enough. *)
Fixpoint deselect_loop (fuel : nat) (s : state) : state :=
  match fuel, selectedParts (sel s) with
  | S fuel', p :: _ => deselect_loop fuel' (selectPart p 0 false s)
  | _, _ => s
  end.

Definition deselectAll (s : state) : state := deselect_loop (length (selectedParts (sel s))) s.

(** [_setPart] of the slide sorter (src/browser/src/control/Control.PartsPreview.js):
    a click on a part.  [firstSelection] is where a range starts. *)
Inductive click_key := NoKey | CtrlKey | AltKey | ShiftKey.

Definition range_between (first partId : Z) : list Z :=
  if first <? partId then seqZ (first + 1) (partId - first)
  else rev (seqZ partId (first - partId)).

Definition clickPart (partId : Z) (k : click_key) (firstSelection : option Z) (s : state)
    : state * option Z :=
  if anyEdit e then (do (Call "showCommentEditingWarning") s, firstSelection)
  else if fileBasedView e then
    (do (ScrollViewToPart partId) (setPart (PartNo partId) false false s), firstSelection)
  else
    match k with
    | CtrlKey =>
        let s := selectPart partId 2 false s in
        (s, Some (default (selectedPart (sel s)) firstSelection))
    | AltKey => (s, firstSelection)
    | ShiftKey =>
        let first := default (selectedPart (sel s)) firstSelection in
        let s := deselectAll s in
        let s := setPart (PartNo first) false false s in
        let s := selectPart first 1 false s in
        (foldl (fun s id => selectPart id 2 false s) s (range_between first partId), Some first)
    | NoKey =>
        let s := setPart (PartNo partId) false false s in
        (selectPart partId 1 false s, Some partId)
    end.

(** ** Previews *)

(** The requests taken from the queue while less than three are under way: what
    stays queued, how many are under way and the messages sent. *)
Fixpoint take_requests (queue : list (Z * string)) (onFly : Z) : list (Z * string) * Z * list string :=
  match queue with
  | [] => ([], onFly, [])
  | (part, msg) :: queue' =>
      if onFly <? 3 then
        if isPreviewVisible e part then
          let '(q, n, msgs) := take_requests queue' (onFly + 1) in (q, n, msg :: msgs)
        else take_requests queue' onFly
      else (queue, onFly, [])
  end.

Definition processPreviewQueue (now : Z) (s : state) : state :=
  if negb (canonicalIdInitialized e) then s
  else
    let p := prev s in
    let wait := (1 <? previewRequestsOnFly p) && (now - timeToEmptyQueue p <? 2000) in
    if wait then s
    else
      let reset := 1 <? previewRequestsOnFly p in
      let onFly := if reset then 0 else previewRequestsOnFly p in
      let time := if reset then now else timeToEmptyQueue p in
      let '(q, n, msgs) := take_requests (previewQueue p) onFly in
      do_all (Send <$> msgs) (set_prev (fun p => Previews q n time (docPreviews p)) s).

(** The values a strict comparison distinguishes. *)
Inductive js_value := VStr (s : string) | VNum (n : Z).

Definition strict_equal (a b : js_value) : bool :=
  match a, b with
  | VStr s, VStr t => String.eqb s t
  | VNum m, VNum n => m =? n
  | _, _ => false
  end.

(** [for (var tile in this._previewQueue) if (tile[0] === part)]: [tile] is an
    index of the array, a string. *)
Definition already_queued (queue : list (Z * string)) (part : Z) : bool :=
  existsb (fun i => strict_equal (VStr (str_take 1 (num_to_string (Z.of_nat i)))) (VNum part))
          (seq 0 (length queue)).

Definition addPreviewToQueue (part : Z) (tileMsg : string) (s : state) : state :=
  if already_queued (previewQueue (prev s)) part then s
  else set_prev (fun p => Previews (previewQueue p ++ [(part, tileMsg)]) (previewRequestsOnFly p)
                            (timeToEmptyQueue p) (docPreviews p)) s.

Definition add_docPreview (id : string) (v : preview) : state -> state :=
  set_prev (fun p => Previews (previewQueue p) (previewRequestsOnFly p) (timeToEmptyQueue p)
                       (obj_set id v (docPreviews p))).

(** The request for the image of an area. *)
Definition preview_msg (id : string) (part width height x y tileWidth tileHeight : Z) : string :=
  "tile " +:+ "nviewid=0" +:+ " " +:+
  "part=" +:+ num_to_string part +:+ " " +:+
  (if negb (selectedMode e =? 0) then "mode=" +:+ num_to_string (selectedMode e) +:+ " " else "") +:+
  "width=" +:+ num_to_string (width * roundedDpiScale e) +:+ " " +:+
  "height=" +:+ num_to_string (height * roundedDpiScale e) +:+ " " +:+
  "tileposx=" +:+ num_to_string x +:+ " " +:+
  "tileposy=" +:+ num_to_string y +:+ " " +:+
  "tilewidth=" +:+ num_to_string tileWidth +:+ " " +:+
  "tileheight=" +:+ num_to_string tileHeight +:+ " " +:+
  "id=" +:+ id.

Definition preview_area : Z * Z :=
  (if (partSize e).1 =? 0 then (docSize e).1 else (partSize e).1,
   if (partSize e).2 =? 0 then (docSize e).2 else (partSize e).2).

(** Fit the area into the box: [imgRatio > docRatio] without the divisions. *)
Definition fit_preview (maxWidth maxHeight : Z) : Z * Z :=
  let '(tileWidth, tileHeight) := preview_area in
  if tileWidth * maxHeight <? maxWidth * tileHeight
  then (js_round_div (tileWidth * maxHeight) tileHeight, maxHeight)
  else (maxWidth, js_round_div (tileHeight * maxWidth) tileWidth).

(** [options]: [autoUpdate] and [fetchThumbnail]. *)
Definition getPreview (id : string) (index maxWidth maxHeight : Z) (options : option (bool * option bool))
    (now : Z) (s : state) : state * option (Z * Z) :=
  let autoUpdate := match options with Some (a, _) => a | None => false end in
  let fetchThumbnail :=
    match options with Some (_, Some true) => true | _ => true end in
  let s := add_docPreview id (PartPreview index maxWidth maxHeight autoUpdate false) s in
  if bool_decide (docType e = TextDoc) then (s, None)
  else
    let '(w, h) := fit_preview maxWidth maxHeight in
    let s :=
      if fetchThumbnail then
        processPreviewQueue now
          (addPreviewToQueue index
             (preview_msg id index w h 0 0 preview_area.1 preview_area.2) s)
      else s in
    (s, Some (w, h)).

Definition getCustomPreview (id : string) (part width height tilePosX tilePosY tileWidth tileHeight : Z)
    (options : option bool) (now : Z) (s : state) : state :=
  let s := add_docPreview id
    (CustomPreview part width height tilePosX tilePosY tileWidth tileHeight (default false options) false) s in
  processPreviewQueue now
    (addPreviewToQueue part (preview_msg id part width height tilePosX tilePosY tileWidth tileHeight) s).

(** [_updatePreview] of the slide sorter, when the image of a preview arrives. *)
Definition preview_arrived (now : Z) (s : state) : state :=
  let n := previewRequestsOnFly (prev s) - 1 in
  let s := set_prev (fun p =>
    if n <? 0 then Previews (previewQueue p) 0 now (docPreviews p)
    else Previews (previewQueue p) n (timeToEmptyQueue p) (docPreviews p)) s in
  processPreviewQueue now s.

(** ** Pages of a text document *)

Definition goToPage (page : part_arg) (s : state) : state :=
  let s :=
    match page with
    | PrevPart => if 0 <? currentPage s then set_currentPage (currentPage s - 1) s else s
    | NextPart => if currentPage s <? pages s - 1 then set_currentPage (currentPage s + 1) s else s
    | PartNo n => if (0 <=? n) && (n <? pages s) then set_currentPage n s else s
    | Other => s
    end in
  let s :=
    if negb (editMode e) && (currentPage s <? Z.of_nat (length (pageTops e))) then
      match pageTops e !! Z.to_nat (currentPage s) with
      | Some y => do (Fire "updatestatepagenumber") (do (ScrollTop y) s)
      | None => s
      end
    else do (Send ("setpage page=" +:+ num_to_string (currentPage s))) s in
  do (Fire "pagenumberchanged") s.

(** ** Inserting, deleting and the rest *)

Definition uno (command : string) (args : list (string * json)) : effect :=
  Send ("uno " +:+ command +:+ " " +:+ stringify (JObj args)).

Definition arg (type : string) (value : json) : json :=
  JObj [("type", JStr type); ("value", value)].

(** [nPos + 1]; [undefined + 1] is [NaN], which JSON writes as [null]. *)
Definition position (nPos : option Z) : json :=
  match nPos with Some n => JNum (n + 1) | None => JNull end.

Definition set_part_at (nPos : option Z) (otherwise : part_arg) (s : state) : state :=
  setPart (match nPos with Some n => PartNo n | None => otherwise end) false false s.

(** The part of [insertPage] after the command was sent. *)
Definition part_inserted (nPos : option Z) (s : state) : state :=
  let s := if is_presentation_or_drawing (docType e) then s else do (Fire "insertpage") s in
  let s := set_sel (fun c => set_nparts (nparts c + 1) c) s in
  set_part_at nPos NextPart s.

Definition insertPage (nPos : option Z) (s : state) : state :=
  if anyEdit e then do (Call "showCommentEditingWarning") s
  else if is_presentation_or_drawing (docType e) then
    part_inserted nPos (do (Send "uno .uno:InsertPage") s)
  else if bool_decide (docType e = Spreadsheet) then
    part_inserted nPos
      (do (uno ".uno:Insert" [("Name", arg "string" (JStr "")); ("Index", arg "long" (position nPos))])
        (do (SheetInserted nPos) s))
  else s.

Definition duplicatePage (pos : option Z) (s : state) : state :=
  if negb (is_presentation_or_drawing (docType e)) then s
  else
    let s :=
      match pos with
      | None => do (Send "uno .uno:DuplicatePage") s
      | Some p => do (uno ".uno:DuplicatePage" [("InsertPos", arg "int16" (JNum p))]) s
      end in
    setPart NextPart false false (set_sel (fun c => set_nparts (nparts c + 1) c) s).

(** The part of [deletePage] after the command was sent. *)
Definition part_deleted (nPos : option Z) (s : state) : state :=
  let c := sel s in
  if nparts c =? 1 then s
  else if bool_decide (docType e = Spreadsheet)
          && (nparts c <=? Z.of_nat (length (hiddenParts e)) + 1) then s
  else
    let s := if is_presentation_or_drawing (docType e) then s else do (Fire "deletepage") s in
    let s := set_sel (fun c => set_nparts (nparts c - 1) c) s in
    let s := if nparts (sel s) <=? selectedPart (sel s)
             then set_sel (fun c => set_selectedPart (selectedPart c - 1) c) s else s in
    set_part_at nPos (PartNo (selectedPart (sel s))) s.

Definition deletePage (nPos : option Z) (s : state) : state :=
  if is_presentation_or_drawing (docType e) then part_deleted nPos (do (Send "uno .uno:DeletePage") s)
  else if bool_decide (docType e = Spreadsheet) then
    part_deleted nPos
      (do (uno ".uno:Remove" [("Index", arg "long" (position nPos))]) (do (SheetDeleted nPos) s))
  else s.

(** [this.setPart (this._docLayer)]: the argument is no part. *)
Definition renamePage (name : string) (nPos : option Z) (s : state) : state :=
  if bool_decide (docType e = Spreadsheet) then
    setPart Other false false
      (do (uno ".uno:Name" [("Name", arg "string" (JStr name)); ("Index", arg "long" (position nPos))]) s)
  else s.

(** The callback of the dialog of [showPage]: the sheets whose boxes are checked. *)
Definition showPage (partNames : list string) (checked : list Z) (s : state) : state :=
  if bool_decide (docType e = Spreadsheet) && negb (length (hiddenParts e) =? 0)%nat then
    do_all (omap (fun p => name ← partNames !! Z.to_nat p;
                           Some (uno ".uno:Show" [("aTableName", arg "string" (JStr name))]))
              (filter (fun p => p ∈ checked) (hiddenParts e))) s
  else s.

Definition getNumberOfVisibleParts (s : state) : Z :=
  nparts (sel s) - Z.of_nat (length (hiddenParts e)).

Definition hidePage (tabNumber : Z) (s : state) : state :=
  if bool_decide (docType e = Spreadsheet) && (1 <? getNumberOfVisibleParts s)
  then do (uno ".uno:Hide" [("nTabNumber", arg "int16" (JNum tabNumber))]) s else s.

Definition hideSlide (s : state) : state :=
  do (Fire "toggleslidehide") (do (Send "uno .uno:HideSlide")
    (set_hiddenSlides (hiddenSlides s ∪ list_to_set (selectedParts (sel s))) s)).

Definition showSlide (s : state) : state :=
  do (Fire "toggleslidehide") (do (Send "uno .uno:ShowSlide")
    (set_hiddenSlides (hiddenSlides s ∖ list_to_set (selectedParts (sel s))) s)).

Definition isHiddenPart (part : Z) : bool :=
  if negb (bool_decide (docType e = Spreadsheet)) then false else bool_decide (part ∈ hiddenParts e).

Definition hasAnyHiddenPart : bool :=
  if negb (bool_decide (docType e = Spreadsheet)) then false else negb (length (hiddenParts e) =? 0)%nat.

(** ** Switching to a part *)

Definition sends (l : list effect) : list string :=
  omap (fun x => match x with Send m => Some m | _ => None end) l.

Lemma sends_app l k : sends (l ++ k) = sends l ++ sends k.
Proof. apply omap_app. Qed.

(** What an operation leaves of the state besides the log. *)
Lemma sel_do x s : sel (do x s) = sel s. Proof. done. Qed.

Lemma sel_do_all l s : sel (do_all l s) = sel s.
Proof. revert s. induction l as [|x l IH]; intros s; simpl; [done|]. by rewrite IH. Qed.

Lemma log_do_all l s : log (do_all l s) = log s ++ l.
Proof.
  revert s. induction l as [|x l IH]; intros s; simpl; [by rewrite app_nil_r|].
  rewrite IH. simpl. by rewrite <- (assoc_L (++)).
Qed.

Lemma sel_notifyServer external n s : sel (notifyServer external n s) = sel s.
Proof. by destruct external. Qed.

Lemma show_part_sel external b s :
  sel (show_part external b s)
  = need_update (set_selectedParts (selectedParts (sel s) ++ [selectedPart (sel s)]) (sel s)).
Proof.
  unfold show_part, fire_updateparts. cbv zeta.
  destruct (searchRequested e); rewrite ?sel_do, sel_do_all; unfold set_sel at 1; cbn [sel];
    rewrite sel_do_all, sel_do, sel_notifyServer; destruct (cursorVisible e); done.
Qed.

Lemma show_part_sends external b s :
  sends (log (show_part external b s))
  = sends (log s) ++ (if cursorVisible e then ["resetselection"] else []) ++
    (if external then [] else ["setclientpart part=" +:+ num_to_string (selectedPart (sel s))]).
Proof.
  unfold show_part, fire_updateparts, notifyServer. cbv zeta.
  destruct (searchRequested e), (cursorVisible e), external; simpl;
    rewrite !sends_app; simpl; rewrite ?app_nil_r, <- ?(assoc_L (++)); done.
Qed.

(** Switching to another part of the document: it becomes the selected part and
    the only one, and the server is told, unless it was the server's wish. *)
Theorem setPart_switches n external b s :
  anyEdit e = false -> fileBasedView e = false ->
  n <> selectedPart (sel s) -> 0 <= n < nparts (sel s) ->
  let s' := setPart (PartNo n) external b s in
  sel s' = Selection n (selectedPart (sel s)) [n] (nparts (sel s))
             (if selectedPart (sel s) <=? n then 1 else -1) true /\
  sends (log s') = sends (log s) ++ (if cursorVisible e then ["resetselection"] else []) ++
    (if external then [] else ["setclientpart part=" +:+ num_to_string n]).
Proof.
  intros He Hf Hne Hn. cbv zeta. unfold setPart. rewrite He, Hf. cbv zeta.
  destruct (Z.eqb_spec n (selectedPart (sel s))); [done|].
  set (s1 := if bool_decide _ then _ else _).
  assert (Hs : sel s1 = sel s /\ sends (log s1) = sends (log s)).
  { subst s1. case_bool_decide; [|done]. split; [done|]. simpl. rewrite sends_app. simpl. by rewrite app_nil_r. }
  destruct Hs as [Hsel Hlog].
  set (s2 := set_sel leave_part _).
  assert (Hs2 : sel s2 = leave_part (sel s) /\ sends (log s2) = sends (log s)).
  { subst s2. simpl. rewrite Hsel, sends_app, Hlog. simpl. by rewrite app_nil_r. }
  destruct Hs2 as [Hsel2 Hlog2]. unfold choose_part. cbv zeta. rewrite Hsel2. cbn [nparts selectedPart leave_part].
  destruct (Z.leb_spec 0 n), (Z.ltb_spec n (nparts (sel s))); try lia. cbn [andb].
  rewrite show_part_sel, show_part_sends. simpl. rewrite Hsel, !sends_app, Hlog. simpl.
  by rewrite !app_nil_r.
Qed.

(** Any other argument: the part that is shown stays, nothing is sent, and yet the
    selection is emptied. *)
Lemma setPart_invalid part external b s :
  anyEdit e = false ->
  match part with PartNo n => n <> selectedPart (sel s) /\ ~ (0 <= n < nparts (sel s))
             | Other => True | _ => False end ->
  let s' := setPart part external b s in
  sel s' = leave_part (sel s) /\ sends (log s') = sends (log s) /\ Call "clearMsgReplayStore" ∈ log s'.
Proof.
  intros He Hpart. cbv zeta. unfold setPart. rewrite He. cbv zeta.
  set (s1 := if bool_decide _ then _ else _).
  assert (Hs : sel s1 = sel s /\ sends (log s1) = sends (log s)).
  { subst s1. case_bool_decide; [|done]. split; [done|]. simpl. rewrite sends_app. simpl. by rewrite app_nil_r. }
  destruct Hs as [Hsel Hlog]. set (s2 := set_sel leave_part _).
  assert (Hs2 : sel s2 = leave_part (sel s) /\ sends (log s2) = sends (log s) /\
                Call "clearMsgReplayStore" ∈ log s2).
  { subst s2. simpl. rewrite Hsel, sends_app, Hlog. simpl. rewrite app_nil_r. set_solver. }
  destruct part as [| |n|]; try done.
  destruct Hpart as [Hne Hn]. destruct (Z.eqb_spec n (selectedPart (sel s))); [done|].
  destruct Hs2 as (Hs2 & ? & ?). unfold choose_part. cbv zeta. rewrite Hs2. cbn [nparts leave_part].
  destruct (Z.leb_spec 0 n), (Z.ltb_spec n (nparts (sel s))); try lia; done.
Qed.

(** Renaming a sheet passes the document layer where a part is expected: the
    selection is emptied and the kept messages are dropped. *)
Theorem rename_clears_selection name nPos s :
  anyEdit e = false -> docType e = Spreadsheet ->
  let s' := renamePage name nPos s in
  selectedPart (sel s') = selectedPart (sel s) /\ selectedParts (sel s') = [] /\
  Call "clearMsgReplayStore" ∈ log s'.
Proof.
  intros He Hd. cbv zeta. unfold renamePage. rewrite bool_decide_eq_true_2 by done.
  edestruct (setPart_invalid Other false false) as (Hs & _ & Hl); [done|done|].
  rewrite Hs. split_and!; [done|done|exact Hl].
Qed.

(** Deleting the last part while it is shown: the part before it is shown, but
    the server is not told and no part is selected. *)
Theorem delete_shown_last_part s :
  anyEdit e = false -> docType e = Presentation ->
  1 < nparts (sel s) -> selectedPart (sel s) = nparts (sel s) - 1 ->
  let s' := deletePage (Some (nparts (sel s) - 1)) s in
  selectedPart (sel s') = nparts (sel s) - 2 /\ nparts (sel s') = nparts (sel s) - 1 /\
  selectedParts (sel s') = [] /\ sends (log s') = sends (log s) ++ ["uno .uno:DeletePage"].
Proof.
  intros He Hd Hn Hsel. cbv zeta. unfold deletePage, part_deleted. rewrite Hd. cbv zeta.
  change (is_presentation_or_drawing Presentation) with true. cbn [sel do].
  destruct (Z.eqb_spec (nparts (sel s)) 1); [lia|].
  rewrite bool_decide_eq_false_2 by done. cbn [andb].
  set (s1 := set_sel (fun c => set_nparts (nparts c - 1) c) _).
  assert (E1 : nparts (sel s1) = nparts (sel s) - 1 /\ selectedPart (sel s1) = nparts (sel s) - 1)
    by (subst s1; simpl; lia). destruct E1 as [E1 E2]. rewrite E1, E2, Z.leb_refl.
  set (s2 := set_sel _ s1). unfold set_part_at.
  edestruct (setPart_invalid (PartNo (nparts (sel s) - 1)) false false s2) as (Hs & Hl & _); [done| |].
  { subst s2. simpl. lia. }
  rewrite Hs, Hl. subst s2 s1. simpl. rewrite sends_app. simpl. split_and!; done || lia.
Qed.

(** ** The selection *)

Lemma selectPart_selectedParts part how external s :
  selectedParts (sel (selectPart part how external s)) =
  let l := selectedParts (sel s) in
  if bool_decide (part ∈ l) && negb (how =? 1) then remove_first part l
  else if negb (how =? 0) then l ++ [part] else l.
Proof. unfold selectPart, fire_updateparts. cbv zeta. destruct external; repeat case_bool; done. Qed.

Lemma selectPart_sends part how s :
  sends (log (selectPart part how false s)) = sends (log s) ++
    ["selectclientpart part=" +:+ num_to_string part +:+ " how=" +:+ num_to_string how].
Proof.
  unfold selectPart, fire_updateparts. cbv zeta. unfold do at 1. cbn [log]. rewrite sends_app.
  f_equal. unfold do at 1. cbn [log]. rewrite sends_app, app_nil_r. by repeat case_bool.
Qed.

Lemma remove_first_head part l : remove_first part (part :: l) = l.
Proof. simpl. by rewrite Z.eqb_refl. Qed.

Lemma remove_first_not_in part l : part ∉ l -> remove_first part l = l.
Proof.
  induction l as [|p l IH]; simpl; [done|]. intros [Hne Hl]%not_elem_of_cons.
  destruct (Z.eqb_spec p part); [congruence|]. by rewrite IH.
Qed.

Lemma elem_of_remove_first part l p :
  NoDup l -> p ∈ remove_first part l <-> p ∈ l /\ p <> part.
Proof.
  induction 1 as [|q l Hq Hnd IH]; simpl; [set_solver|].
  destruct (Z.eqb_spec q part) as [->|]; set_solver.
Qed.

Lemma NoDup_remove_first part l : NoDup l -> NoDup (remove_first part l).
Proof.
  induction 1 as [|q l Hq Hnd IH]; simpl; [constructor|].
  destruct (Z.eqb_spec q part); [done|]. constructor; [|done].
  by rewrite elem_of_remove_first; [intros [? _]|].
Qed.

(** Deselecting and toggling treat the selected parts as a set, and the server is
    told the same. *)
Lemma selectPart_toggles part how s :
  NoDup (selectedParts (sel s)) -> how = 0 \/ how = 2 ->
  let s' := selectPart part how false s in
  NoDup (selectedParts (sel s')) /\
  (forall p, p ∈ selectedParts (sel s') <->
     if decide (p = part) then how = 2 /\ p ∉ selectedParts (sel s) else p ∈ selectedParts (sel s)) /\
  sends (log s') = sends (log s) ++
    ["selectclientpart part=" +:+ num_to_string part +:+ " how=" +:+ num_to_string how].
Proof.
  intros Hnd Hhow. cbv zeta. split_and!.
  - rewrite selectPart_selectedParts. cbv zeta.
    case_bool_decide; destruct Hhow as [-> | ->]; simpl; auto using NoDup_remove_first.
    apply NoDup_app. split_and!; [done|set_solver|apply NoDup_singleton].
  - intros p. rewrite selectPart_selectedParts. cbv zeta.
    case_bool_decide; destruct Hhow as [-> | ->]; simpl;
      rewrite ?elem_of_remove_first by done; case_decide; subst; set_solver.
  - apply selectPart_sends.
Qed.

(** [deselectAll] ends, empties the selection, and tells the server of every
    selected part in turn. *)
Theorem deselectAll_spec s :
  selectedParts (sel (deselectAll s)) = [] /\
  sends (log (deselectAll s)) = sends (log s) ++
    ((fun p => "selectclientpart part=" +:+ num_to_string p +:+ " how=" +:+ num_to_string 0)
       <$> selectedParts (sel s)).
Proof.
  unfold deselectAll. remember (selectedParts (sel s)) as l eqn:El. revert s El.
  induction l as [|p l IH]; intros s El; cbn [length deselect_loop].
  - rewrite <- El. split; [done|]. by rewrite app_nil_r.
  - rewrite <- El. set (s1 := selectPart p 0 false s).
    assert (E1 : selectedParts (sel s1) = l).
    { subst s1. rewrite selectPart_selectedParts, <- El. cbv zeta.
      rewrite bool_decide_eq_true_2 by set_solver. apply remove_first_head. }
    destruct (IH s1 (eq_sym E1)) as [H1 H2]. split; [exact H1|]. rewrite H2.
    assert (E2 : sends (log s1) = sends (log s) ++
      ["selectclientpart part=" +:+ num_to_string p +:+ " how=" +:+ num_to_string 0]).
    { apply selectPart_sends. }
    by rewrite E2, <- (assoc_L (++)).
Qed.

(** A plain click on another slide selects it twice: [setPart] selects it, and so
    does [selectPart], which asks whether the slide is selected only to deselect.
    A control click then takes one of the two away: the slide stays selected here
    while the server is told to toggle it. *)
Theorem click_selects_twice n first s :
  anyEdit e = false -> fileBasedView e = false ->
  n <> selectedPart (sel s) -> 0 <= n < nparts (sel s) ->
  let '(s1, first1) := clickPart n NoKey first s in
  let '(s2, _) := clickPart n CtrlKey first1 s1 in
  selectedParts (sel s1) = [n; n] /\
  selectedParts (sel s2) = [n] /\
  sends (log s2) = sends (log s1) ++
    ["selectclientpart part=" +:+ num_to_string n +:+ " how=" +:+ num_to_string 2].
Proof.
  intros He Hf Hne Hn. unfold clickPart. rewrite He, Hf. cbv zeta.
  destruct (setPart_switches n false false s He Hf Hne Hn) as [Hs _].
  set (s0 := setPart (PartNo n) false false s) in *.
  assert (E1 : selectedParts (sel (selectPart n 1 false s0)) = [n; n]).
  { rewrite selectPart_selectedParts, Hs. cbv zeta. simpl. by rewrite andb_false_r. }
  set (s1 := selectPart n 1 false s0) in *. split_and!; [done| |].
  - rewrite selectPart_selectedParts, E1. cbv zeta. rewrite bool_decide_eq_true_2 by set_solver.
    apply remove_first_head.
  - apply selectPart_sends.
Qed.

(** ** Preview requests *)

Lemma take_requests_spec queue onFly q n msgs :
  take_requests queue onFly = (q, n, msgs) ->
  exists taken, queue = taken ++ q /\
    msgs = snd <$> filter (fun r => isPreviewVisible e r.1 = true) taken /\
    n = onFly + Z.of_nat (length msgs) /\ (onFly <= 3 -> n <= 3) /\ (q = [] \/ 3 <= n).
Proof.
  revert onFly q n msgs. induction queue as [|[part msg] queue IH]; intros onFly q n msgs; simpl.
  - intros [= <- <- <-]. exists []. split_and!; try done; [simpl; lia|by left].
  - destruct (Z.ltb_spec onFly 3).
    + destruct (isPreviewVisible e part) eqn:Hv.
      * destruct (take_requests queue (onFly + 1)) as [[q' n'] msgs'] eqn:E. intros [= <- <- <-].
        destruct (IH _ _ _ _ E) as (taken & -> & -> & -> & Hle & Hq).
        exists ((part, msg) :: taken). rewrite filter_cons, decide_True by done. csimpl in *.
        split_and!; done || lia.
      * intros E. destruct (IH _ _ _ _ E) as (taken & -> & -> & -> & Hle & Hq).
        exists ((part, msg) :: taken). rewrite filter_cons, decide_False by (simpl; congruence). done.
    + intros [= <- <- <-]. exists []. split_and!; try done; [simpl; lia|right; lia].
Qed.

Lemma prev_do_all l s : prev (do_all l s) = prev s.
Proof. revert s. induction l as [|x l IH]; intros s; simpl; [done|]. by rewrite IH. Qed.

(** Requests for previews leave the queue from its front, those of slides out of
    sight unsent and the others in order; no more than three are ever counted as
    under way, and a round stops only with the queue empty or three under way. *)
Theorem processPreviewQueue_spec now s :
  previewRequestsOnFly (prev s) <= 3 ->
  let s' := processPreviewQueue now s in
  let onFly := previewRequestsOnFly (prev s') in
  exists taken msgs,
    previewQueue (prev s) = taken ++ previewQueue (prev s') /\
    msgs = snd <$> filter (fun r => isPreviewVisible e r.1 = true) taken /\
    sends (log s') = sends (log s) ++ msgs /\
    onFly <= 3 /\
    (previewQueue (prev s') = [] \/ 3 <= onFly \/ canonicalIdInitialized e = false \/
     (1 < previewRequestsOnFly (prev s) /\ now - timeToEmptyQueue (prev s) < 2000)).
Proof.
  intros Hfly. cbv zeta. unfold processPreviewQueue.
  destruct (canonicalIdInitialized e); cbn [negb].
  2: { exists [], []. rewrite app_nil_r. split_and!; auto. }
  cbv zeta. destruct ((1 <? previewRequestsOnFly (prev s)) && _) eqn:Ew.
  { exists [], []. rewrite app_nil_r. split_and!; auto. right; right; right. to_prop. lia. }
  set (onFly := if 1 <? previewRequestsOnFly (prev s) then 0 else _).
  destruct (take_requests (previewQueue (prev s)) onFly) as [[q n] msgs] eqn:E.
  destruct (take_requests_spec _ _ _ _ _ E) as (taken & Hq & Hm & Hn & Hle & Hend).
  set (time := if 1 <? previewRequestsOnFly (prev s) then now else _).
  exists taken, msgs. rewrite prev_do_all, log_do_all, sends_app. simpl.
  assert (onFly <= 3) by (subst onFly; case_bool; lia).
  assert (Hs : sends (Send <$> msgs) = msgs).
  { clear. induction msgs as [|m msgs IH]; [done|]. unfold sends in *. csimpl. by rewrite IH. }
  rewrite Hs. split_and!; auto. destruct Hend; auto.
Qed.

(** A request is queued however often it is queued already: the test compares the
    first digit of an index, a string, with the number of the part. *)
Theorem addPreviewToQueue_repeats part msg s :
  previewQueue (prev (addPreviewToQueue part msg s)) = previewQueue (prev s) ++ [(part, msg)].
Proof.
  unfold addPreviewToQueue, already_queued.
  assert (H : forall l, existsb (fun i => strict_equal
     (VStr (str_take 1 (num_to_string (Z.of_nat i)))) (VNum part)) l = false).
  { induction l as [|i l IH]; [done|]. simpl. exact IH. }
  by rewrite H.
Qed.

(** The image of a preview fits the box it was asked for, fills it in one
    direction, and has the proportions of the slide up to rounding. *)
Theorem fit_preview_spec maxWidth maxHeight :
  0 < maxWidth -> 0 < maxHeight -> 0 < preview_area.1 -> 0 < preview_area.2 ->
  let '(w, h) := fit_preview maxWidth maxHeight in
  0 <= w <= maxWidth /\ 0 <= h <= maxHeight /\ (w = maxWidth \/ h = maxHeight) /\
  2 * Z.abs (w * preview_area.2 - h * preview_area.1) <= Z.max preview_area.1 preview_area.2.
Proof.
  intros Hw Hh Htw Hth. unfold fit_preview. destruct preview_area as [tw th]; simpl in *.
  case_bool; cbn [fst snd].
  - pose proof (js_round_div_bounds (tw * maxHeight) th Hth) as Hb.
    set (r := js_round_div _ _) in *. split_and!; nia || lia.
  - pose proof (js_round_div_bounds (th * maxWidth) tw Htw) as Hb.
    set (r := js_round_div _ _) in *. split_and!; nia || lia.
Qed.

(** ** The invariant *)

(** The operations of the map, as steps. *)
Inductive parts_step : state -> state -> Prop :=
  | step_setPart part external b s : parts_step s (setPart part external b s)
  | step_selectPart part how external s : parts_step s (selectPart part how external s)
  | step_deselectAll s : parts_step s (deselectAll s)
  | step_clickPart partId k first s : parts_step s (clickPart partId k first s).1
  | step_preview_arrived now s : parts_step s (preview_arrived now s)
  | step_getPreview id index w h options now s : parts_step s (getPreview id index w h options now s).1
  | step_getCustomPreview id part w h x y tw th options now s :
      parts_step s (getCustomPreview id part w h x y tw th options now s)
  | step_goToPage page s : parts_step s (goToPage page s)
  | step_insertPage nPos s : parts_step s (insertPage nPos s)
  | step_duplicatePage pos s : parts_step s (duplicatePage pos s)
  | step_deletePage nPos s : parts_step s (deletePage nPos s)
  | step_renamePage name nPos s : parts_step s (renamePage name nPos s)
  | step_hideSlide s : parts_step s (hideSlide s)
  | step_showSlide s : parts_step s (showSlide s).

Definition sel_ok (c : selection) : Prop := 0 <= selectedPart c < nparts c.

Definition parts_ok (s : state) : Prop :=
  sel_ok (sel s) /\ 0 <= currentPage s < pages s.

(** The page fields. *)
Definition page (s : state) : Z * Z := (currentPage s, pages s).

Lemma page_do_all l s : page (do_all l s) = page s.
Proof. revert s. induction l as [|x l IH]; intros s; simpl; [done|]. by rewrite IH. Qed.

Section not_file_based.
Context (Hf : fileBasedView e = false).

Lemma show_part_page external b s : page (show_part external b s) = page s.
Proof.
  unfold show_part, notifyServer, fire_updateparts. cbv zeta.
  by destruct (searchRequested e), (cursorVisible e), external.
Qed.

Lemma setPart_ok part external b s :
  sel_ok (sel s) -> sel_ok (sel (setPart part external b s)) /\ page (setPart part external b s) = page s.
Proof using Hf.
  unfold sel_ok. intros Hok. unfold setPart. rewrite Hf.
  destruct (anyEdit e); [done|]. destruct (match part with PartNo n => _ | _ => _ end); [done|].
  cbv zeta. set (s1 := if bool_decide _ then _ else _).
  assert (Hs : sel s1 = sel s /\ page s1 = page s) by (subst s1; by case_bool_decide).
  destruct Hs as [Hsel Hpage]. unfold choose_part.
  destruct part as [| |n|]; cbn [sel set_sel do leave_part selectedPart nparts]; rewrite ?Hsel;
    repeat case_bool; rewrite ?show_part_sel, ?show_part_page; simpl; rewrite ?Hsel;
    (split; [simpl; lia|exact Hpage]).
Qed.

Lemma selectPart_ok part how external s :
  let s' := selectPart part how external s in
  (sel_ok (sel s) -> sel_ok (sel s')) /\ page s' = page s.
Proof.
  unfold selectPart, fire_updateparts, sel_ok. cbv zeta.
  destruct external; repeat case_bool; done.
Qed.

Lemma deselect_loop_ok n s :
  (sel_ok (sel s) -> sel_ok (sel (deselect_loop n s))) /\ page (deselect_loop n s) = page s.
Proof.
  revert s. induction n as [|n IH]; intros s; cbn [deselect_loop]; [done|].
  destruct (selectedParts (sel s)) as [|p l]; [done|].
  destruct (IH (selectPart p 0 false s)) as [H1 H2], (selectPart_ok p 0 false s) as [H3 H4].
  split; [auto|]. by rewrite H2.
Qed.

Lemma foldl_selectPart_ok l s :
  let s' := foldl (fun s id => selectPart id 2 false s) s l in
  (sel_ok (sel s) -> sel_ok (sel s')) /\ page s' = page s.
Proof.
  cbv zeta. revert s. induction l as [|p l IH]; intros s; cbn [foldl]; [done|].
  destruct (IH (selectPart p 2 false s)) as [H1 H2], (selectPart_ok p 2 false s) as [H3 H4].
  split; [auto|]. by rewrite H2.
Qed.

Lemma clickPart_ok partId k first s :
  sel_ok (sel s) -> sel_ok (sel (clickPart partId k first s).1) /\ page (clickPart partId k first s).1 = page s.
Proof using Hf.
  intros Hok. unfold clickPart. rewrite Hf. destruct (anyEdit e); [done|]. destruct k; cbv zeta; cbn [fst].
  - destruct (setPart_ok (PartNo partId) false false s Hok) as [H1 H2].
    destruct (selectPart_ok partId 1 false (setPart (PartNo partId) false false s)) as [H3 H4].
    split; [auto|]. by rewrite H4.
  - destruct (selectPart_ok partId 2 false s) as [H3 H4]. split; auto.
  - done.
  - set (f := default _ first).
    destruct (deselect_loop_ok (length (selectedParts (sel s))) s) as [H1 H2]. fold (deselectAll s) in *.
    destruct (setPart_ok (PartNo f) false false (deselectAll s) (H1 Hok)) as [H3 H4].
    set (s1 := setPart _ _ _ _) in *. destruct (selectPart_ok f 1 false s1) as [H5 H6].
    destruct (foldl_selectPart_ok (range_between f partId) (selectPart f 1 false s1)) as [H7 H8].
    split; [auto|]. by rewrite H8, H6, H4.
Qed.

(** Previews do not touch the parts. *)
Lemma processPreviewQueue_frame now s :
  sel (processPreviewQueue now s) = sel s /\ page (processPreviewQueue now s) = page s.
Proof.
  unfold processPreviewQueue. destruct (negb _); [done|]. cbv zeta. destruct (_ && _); [done|].
  destruct (take_requests _ _) as [[q n] msgs]. by rewrite sel_do_all, page_do_all.
Qed.

Lemma addPreviewToQueue_frame part msg s :
  sel (addPreviewToQueue part msg s) = sel s /\ page (addPreviewToQueue part msg s) = page s.
Proof. unfold addPreviewToQueue. by destruct (already_queued _ _). Qed.

Lemma getPreview_frame id index w h options now s :
  let s' := (getPreview id index w h options now s).1 in sel s' = sel s /\ page s' = page s.
Proof.
  unfold getPreview. cbv zeta. destruct (bool_decide _); [done|].
  destruct (fit_preview w h) as [w' h']. destruct (match options with Some (_, Some _) => _ | _ => _ end);
    cbn [fst]; [|done].
  destruct (processPreviewQueue_frame now (addPreviewToQueue index (preview_msg id index w' h' 0 0
     preview_area.1 preview_area.2) (add_docPreview id (PartPreview index w h
     match options with Some (a, _) => a | None => false end false) s))) as [-> ->].
  exact (addPreviewToQueue_frame _ _ (add_docPreview _ _ s)).
Qed.

Lemma goToPage_ok p s : parts_ok s -> parts_ok (goToPage p s).
Proof.
  unfold parts_ok, goToPage. cbv zeta. intros [Hs Hp].
  set (s1 := match p with PrevPart => _ | _ => _ end).
  assert (H1 : sel s1 = sel s /\ pages s1 = pages s /\ 0 <= currentPage s1 < pages s).
  { subst s1. destruct p; repeat case_bool; simpl; split_and!; done || lia. }
  destruct H1 as (E1 & E2 & H3). repeat case_bool;
    try destruct (pageTops e !! _); simpl; by rewrite E1, E2.
Qed.

Lemma set_part_at_ok nPos p s :
  sel_ok (sel s) -> sel_ok (sel (set_part_at nPos p s)) /\ page (set_part_at nPos p s) = page s.
Proof using Hf. apply setPart_ok. Qed.

Lemma part_inserted_ok nPos s :
  sel_ok (sel s) -> sel_ok (sel (part_inserted nPos s)) /\ page (part_inserted nPos s) = page s.
Proof using Hf.
  intros Hok. unfold part_inserted. cbv zeta. set (s1 := if is_presentation_or_drawing _ then _ else _).
  assert (E : sel s1 = sel s /\ page s1 = page s) by (subst s1; by destruct (is_presentation_or_drawing _)).
  destruct E as [E1 E2]. rewrite <- E2.
  destruct (set_part_at_ok nPos NextPart (set_sel (fun c => set_nparts (nparts c + 1) c) s1)) as [H1 H2]; [|done].
  unfold sel_ok in *. simpl. rewrite E1. lia.
Qed.

Lemma part_deleted_ok nPos s :
  sel_ok (sel s) -> sel_ok (sel (part_deleted nPos s)) /\ page (part_deleted nPos s) = page s.
Proof using Hf.
  intros Hok. unfold part_deleted. cbv zeta. destruct (Z.eqb_spec (nparts (sel s)) 1); [done|].
  destruct (_ && _); [done|]. set (s1 := if is_presentation_or_drawing _ then _ else _).
  assert (E : sel s1 = sel s /\ page s1 = page s) by (subst s1; by destruct (is_presentation_or_drawing _)).
  destruct E as [E1 E2]. rewrite <- E2. set (s2 := if (_ <=? _) then _ else _).
  assert (H2 : sel_ok (sel s2) /\ page s2 = page s1).
  { subst s2. unfold sel_ok in *. simpl. rewrite E1. case_bool; simpl; rewrite ?E1; split; done || lia. }
  destruct H2 as [H2 <-]. by apply set_part_at_ok.
Qed.

Lemma parts_ok_intro s s' : parts_ok s -> sel_ok (sel s') /\ page s' = page s -> parts_ok s'.
Proof. unfold parts_ok, page. intros [_ Hp] [Hs [= -> ->]]. done. Qed.

Lemma parts_step_ok s s' : parts_step s s' -> parts_ok s -> parts_ok s'.
Proof using Hf.
  intros Hstep Hok. assert (Hsel := proj1 Hok). destruct Hstep; try (apply goToPage_ok; exact Hok);
    apply (parts_ok_intro s); try exact Hok.
  - by apply setPart_ok.
  - destruct (selectPart_ok part how external s). auto.
  - destruct (deselect_loop_ok (length (selectedParts (sel s))) s). split; [by auto|done].
  - by apply clickPart_ok.
  - unfold preview_arrived. cbv zeta. edestruct processPreviewQueue_frame as [-> ->]. done.
  - destruct (getPreview_frame id index w h options now s) as [-> ->]. done.
  - unfold getCustomPreview. cbv zeta. edestruct processPreviewQueue_frame as [-> ->].
    edestruct addPreviewToQueue_frame as [-> ->]. done.
  - unfold insertPage. destruct (anyEdit e); [done|]. repeat case_bool; try done; first [exact (part_inserted_ok nPos (do _ s) Hsel)|exact (part_inserted_ok nPos (do _ (do _ s)) Hsel)].
  - unfold duplicatePage. destruct (negb _); [done|]. cbv zeta.
    set (s1 := match pos with Some p => _ | None => _ end).
    assert (E : sel s1 = sel s /\ page s1 = page s) by (subst s1; by destruct pos).
    destruct E as [E1 E2]. rewrite <- E2.
    destruct (setPart_ok NextPart false false (set_sel (fun c => set_nparts (nparts c + 1) c) s1)) as [H1 H2]; [|done].
    unfold sel_ok in *. simpl. rewrite E1. lia.
  - unfold deletePage. repeat case_bool; try done; first [exact (part_deleted_ok nPos (do _ s) Hsel)|exact (part_deleted_ok nPos (do _ (do _ s)) Hsel)].
  - unfold renamePage. case_bool; [|done].
    destruct (setPart_ok Other false false
      (do (uno ".uno:Name" [("Name", arg "string" (JStr name)); ("Index", arg "long" (position nPos))]) s)) as [H1 H2]; done.
  - done.
  - done.
Qed.
End not_file_based.

(** C36: Whatever operations run, in any order, the selected part stays a part of the
    document and the current page one of its pages.  This is outside the
    file-based view, which sets the selected part in its own way (FileBased.v). *)
Theorem parts_invariant s s' :
  fileBasedView e = false -> parts_ok s -> rtc parts_step s s' -> parts_ok s'.
Proof.
  intros Hf Hok Hrun. induction Hrun as [|x y z Hxy _ IH]; [done|].
  apply IH. by eapply parts_step_ok.
Qed.
End with_env.

(** ** Witnesses *)

Definition sample_env (d : doc_type) : env :=
  Env d false false sample_file_view true false false [] [] true (fun p => negb (p =? 1)) 1 0
    (0, 0) (28000, 21000).

Definition sample_state : state :=
  State (Selection 0 0 [0] 3 1 false) 5 2
    (Previews [(0, "tile part=0"); (1, "tile part=1"); (2, "tile part=2")] 0 0 []) ∅ (Store [] 0 0) [].

Lemma setPart_switches_witness :
  sends (log (setPart (sample_env Presentation) (PartNo 2) false false sample_state))
  = ["resetselection"; "setclientpart part=2"].
Proof. by apply (setPart_switches (sample_env Presentation) 2 false false sample_state). Defined.

Lemma rename_clears_selection_witness :
  selectedParts (sel (renamePage (sample_env Spreadsheet) "Totals" (Some 1) sample_state)) = [].
Proof. by apply (rename_clears_selection (sample_env Spreadsheet) "Totals" (Some 1) sample_state). Defined.

Definition last_shown : state := set_sel (fun c => set_selectedPart 2 c) sample_state.

Lemma delete_shown_last_part_witness :
  selectedParts (sel (deletePage (sample_env Presentation) (Some 2) last_shown)) = [].
Proof. by apply (delete_shown_last_part (sample_env Presentation) last_shown). Defined.

Lemma click_selects_twice_witness :
  selectedParts (sel (clickPart (sample_env Presentation) 2 NoKey None sample_state).1) = [2; 2].
Proof.
  apply (click_selects_twice (sample_env Presentation) 2 None sample_state); [done|done|done|].
  simpl. lia.
Defined.

Lemma processPreviewQueue_spec_witness :
  previewRequestsOnFly (prev (processPreviewQueue (sample_env Presentation) 10 sample_state)) <= 3 /\
  previewQueue (prev (processPreviewQueue (sample_env Presentation) 10 sample_state)) = [].
Proof.
  split; [|by vm_compute].
  edestruct (processPreviewQueue_spec (sample_env Presentation) 10 sample_state) as (taken & msgs & _ & _ & _ & H & _);
    [vm_compute; discriminate|exact H].
Defined.

Lemma fit_preview_spec_witness :
  let '(w, h) := fit_preview (sample_env Presentation) 180 180 in 0 <= w <= 180 /\ 0 <= h <= 180.
Proof.
  pose proof (fit_preview_spec (sample_env Presentation) 180 180) as H.
  destruct (fit_preview _ _ _) as [w h]. destruct H as (? & ? & _); [done..|]. by split.
Defined.

Lemma parts_invariant_witness :
  parts_ok (deletePage (sample_env Presentation) (Some 0)
             (setPart (sample_env Presentation) (PartNo 2) false false sample_state)).
Proof.
  apply (parts_invariant (sample_env Presentation) sample_state); [done|unfold parts_ok, sel_ok; simpl; lia|].
  eapply rtc_l; [apply step_setPart|]. eapply rtc_l; [apply step_deletePage|]. apply rtc_refl.
Defined.
