(* ===== verification/SheetSwitch.v ===== *)
(** * Switching between sheets

    Models [SheetSwitchViewRestore] (src/browser/src/layer/tile/SheetSwitch.ts), which keeps
    where each sheet was last viewed and goes back there, and what calls it: the switch,
    insertion and deletion of sheets ([Parts], src/browser/src/control/Parts.js), the menu of
    the tabs (src/browser/src/control/Control.Tabs.js), the server's [setpart:] and the
    messages of the cell cursor.

    The centre of a view has a type of its own, a parameter.  The index of a sheet may be
    [undefined] ([None]), which no comparison holds of. *)

From S2P Require Import Prelude JsText JsObject Json Tiles FileBased Parts.
Local Open Scope Z_scope.

Section centers.
Context {C : Type}.

(** ** The state *)

Record switcher := Switcher {
  centerOfSheet : gmap Z C;
  mayRestore : bool;
  restorePart : Z;
  setPartRecvd : bool;
  currentSheetIndexReassigned : bool
}.

Definition new_switcher : switcher := Switcher ∅ false (-1) false false.

Definition set_centers (m : gmap Z C) (s : switcher) : switcher :=
  Switcher m (mayRestore s) (restorePart s) (setPartRecvd s) (currentSheetIndexReassigned s).
Definition set_reassigned (b : bool) (s : switcher) : switcher :=
  Switcher (centerOfSheet s) (mayRestore s) (restorePart s) (setPartRecvd s) b.

(** The key of [centerOfSheet] that the argument of [setPart] is, if any. *)
Definition part_key (part : part_arg) : option Z := match part with PartNo n => Some n | _ => None end.

(** [save]; [selected] and [center] are what the map shows. *)
Definition save (toPart : part_arg) (selected : Z) (center : C) (s : switcher) : switcher :=
  let s := if currentSheetIndexReassigned s then set_reassigned false s
           else set_centers (<[selected := center]> (centerOfSheet s)) s in
  match part_key toPart with
  | Some n =>
      let known := bool_decide (is_Some (centerOfSheet s !! n)) in
      Switcher (centerOfSheet s) known (if known then n else -1) false (currentSheetIndexReassigned s)
  | None => Switcher (centerOfSheet s) false (-1) false (currentSheetIndexReassigned s)
  end.

(** The entry of [i] becomes that of [j]: set when there is one and else deleted. *)
Definition copy_entry (i j : Z) (m : gmap Z C) : gmap Z C :=
  match m !! j with Some c => <[i := c]> m | None => delete i m end.

Definition put_entry (i : Z) (c : option C) (m : gmap Z C) : gmap Z C :=
  match c with Some c => <[i := c]> m | None => delete i m end.

(** [for (let i = a; i < b; ++i)] and [for (let i = b; i > a; --i)] *)
Definition shift_down (a b : Z) (m : gmap Z C) : gmap Z C :=
  foldl (fun m i => copy_entry i (i + 1) m) m (seqZ a (b - a)).
Definition shift_up (a b : Z) (m : gmap Z C) : gmap Z C :=
  foldl (fun m i => copy_entry i (i - 1) m) m (reverse (seqZ (a + 1) (b - a))).

Definition updateOnSheetMoved (oldIndex newIndex : Z) (s : switcher) : switcher :=
  if (oldIndex <? 0) || (newIndex <? 0) || (oldIndex =? newIndex) then s
  else
    let m := centerOfSheet s in
    let movedSheetCenter := m !! oldIndex in
    let m := if oldIndex <? newIndex then shift_down oldIndex newIndex m else shift_up newIndex oldIndex m in
    set_centers (put_entry newIndex movedSheetCenter m) s.

Definition updateOnSheetInsertion (index : option Z) (selected numberOfSheets : Z) (center : C) (s : switcher) : switcher :=
  if match index with Some i => i <? 0 | None => false end then s
  else
    let m := <[selected := center]> (centerOfSheet s) in
    match index with
    | None => set_reassigned false (set_centers m s)
    | Some i =>
        let m := delete i (shift_up i numberOfSheets m) in
        if i <=? selected
        then set_reassigned true (set_centers (<[selected + 1 := center]> m) s)
        else set_reassigned false (set_centers m s)
    end.

Definition updateOnSheetDeleted (index : option Z) (selected numberOfSheets : Z) (center : C) (s : switcher) : switcher :=
  match index with
  | None => set_reassigned false s
  | Some i =>
      if i <? 0 then s
      else
        let m := shift_down i numberOfSheets (centerOfSheet s) in
        let m := if i <? selected then <[selected - 1 := center]> m else m in
        set_reassigned (i <=? selected) (set_centers m s)
  end.

Definition gotSetPart (part : Z) (s : switcher) : switcher :=
  Switcher (centerOfSheet s) (mayRestore s) (restorePart s) (bool_decide (part = restorePart s))
    (currentSheetIndexReassigned s).

Definition reset (s : switcher) : switcher :=
  Switcher (centerOfSheet s) false (-1) (setPartRecvd s) (currentSheetIndexReassigned s).

(** The state and the centre the view is reset to. *)
Definition restoreView (s : switcher) : switcher * option C :=
  match centerOfSheet s !! restorePart s with
  | None => (reset s, None)
  | Some center => (if setPartRecvd s then reset s else s, Some center)
  end.

(** Also whether the map is to scroll to the cell cursor. *)
Definition tryRestore (duplicateCursor : bool) (currentPart : Z) (s : switcher) : switcher * option C * bool :=
  let attemptRestore := mayRestore s && (currentPart =? restorePart s) in
  let '(s', center) :=
    if attemptRestore then
      let s := if setPartRecvd s && duplicateCursor then reset s else s in
      if negb (setPartRecvd s) then restoreView s else (s, None)
    else (s, None) in
  (s', center, (negb attemptRestore || setPartRecvd s) && negb duplicateCursor).

(** ** What calls it *)

Record world := World {
  parts : Parts.state;
  switch : switcher;
  viewCenter : C;
  sentUno : list string     (** commands of the menu of the tabs *)
}.

Definition set_parts (p : Parts.state) (w : world) : world := World p (switch w) (viewCenter w) (sentUno w).
Definition set_switch (s : switcher) (w : world) : world := World (parts w) s (viewCenter w) (sentUno w).
Definition set_center (c : C) (w : world) : world := World (parts w) (switch w) c (sentUno w).
Definition send_uno (m : string) (w : world) : world := World (parts w) (switch w) (viewCenter w) (sentUno w ++ [m]).

Definition selected (w : world) : Z := selectedPart (sel (parts w)).

Context (e : Parts.env).

(** [setPart] reaches [save] unless a comment is edited or the part is shown already. *)
Definition world_setPart (part : part_arg) (external calledFromSetPartHandler : bool) (w : world) : world :=
  let w' := set_parts (setPart e part external calledFromSetPartHandler (parts w)) w in
  if anyEdit e || match part with PartNo n => n =? selected w | _ => false end
     || negb (bool_decide (docType e = Spreadsheet))
  then w'
  else set_switch (save part (selected w) (viewCenter w) (switch w)) w'.

(** [insertPage] and [deletePage] of a spreadsheet: the switch is told, and then sees the
    [setPart] they end with. *)
Definition world_insertPage (nPos : option Z) (w : world) : world :=
  if anyEdit e then set_parts (insertPage e nPos (parts w)) w
  else
    let w := set_switch (updateOnSheetInsertion nPos (selected w) (nparts (sel (parts w))) (viewCenter w) (switch w)) w in
    let p := do (uno ".uno:Insert" [("Name", arg "string" (JStr "")); ("Index", arg "long" (position nPos))])
               (do (SheetInserted nPos) (parts w)) in
    let p := set_sel (fun c => set_nparts (nparts c + 1) c) (do (Fire "insertpage") p) in
    world_setPart (match nPos with Some n => PartNo n | None => NextPart end) false false (set_parts p w).

Definition world_deletePage (nPos : option Z) (w : world) : world :=
  let w := set_switch (updateOnSheetDeleted nPos (selected w) (nparts (sel (parts w))) (viewCenter w) (switch w)) w in
  let p := do (uno ".uno:Remove" [("Index", arg "long" (position nPos))]) (do (SheetDeleted nPos) (parts w)) in
  let c := sel p in
  if nparts c =? 1 then set_parts p w
  else if nparts c <=? Z.of_nat (length (hiddenParts e)) + 1 then set_parts p w
  else
    let p := set_sel (fun c => set_nparts (nparts c - 1) c) (do (Fire "deletepage") p) in
    let p := if nparts (sel p) <=? selectedPart (sel p)
             then set_sel (fun c => set_selectedPart (selectedPart c - 1) c) p else p in
    world_setPart (match nPos with Some n => PartNo n | None => PartNo (selectedPart (sel p)) end)
      false false (set_parts p w).

(** [_onSetPartMsg] of Calc. *)
Definition onSetPartMsg (part : Z) (w : world) : world :=
  if bool_decide (part ∈ hiddenParts e) then w else set_switch (gotSetPart part (switch w)) w.

(** [_onCellCursorMsg], as far as the view is concerned: whether to scroll to the cursor. *)
Definition cellCursor (duplicateCursor : bool) (w : world) : world * bool :=
  let '(s, c, scroll) := tryRestore duplicateCursor (selected w) (switch w) in
  let w := set_switch s w in
  (match c with Some c => set_center c w | None => w end, scroll).

(** The menu of the tabs. *)
Definition moveSheet (newIndex : Z) (w : world) : world :=
  let currentTab := selected w in
  let newIndexZeroBased := if currentTab <? newIndex then newIndex - 2 else newIndex - 1 in
  send_uno (".uno:Move?Copy:bool=false&UseCurrentDocument:bool=true&Index=" +:+ num_to_string newIndex)
    (set_switch (updateOnSheetMoved currentTab newIndexZeroBased (switch w)) w).

Definition moveSheetLR (contextMenuTab newIndex : Z) (w : world) : world :=
  if 0 <=? contextMenuTab
  then send_uno (".uno:Move?Copy:bool=false&UseCurrentDocument:bool=true&FromContextMenu:bool=true&ContextMenuIndex="
                   +:+ num_to_string contextMenuTab +:+ "&Index=" +:+ num_to_string newIndex) w
  else w.

Definition moveSheetLeft (contextMenuTab : Z) (w : world) : world :=
  if contextMenuTab <=? 0 then w
  else moveSheetLR contextMenuTab contextMenuTab
         (set_switch (updateOnSheetMoved contextMenuTab (contextMenuTab - 1) (switch w)) w).

Definition moveSheetRight (contextMenuTab : Z) (w : world) : world :=
  moveSheetLR contextMenuTab (contextMenuTab + 3)
    (set_switch (updateOnSheetMoved contextMenuTab (contextMenuTab + 1) (switch w)) w).

Inductive event :=
  | Scroll (c : C)
  | SetPart (n : Z) (calledFromSetPartHandler : bool)
  | SetPartMsg (n : Z)
  | CellCursor (duplicateCursor : bool).

Definition handle (ev : event) (w : world) : world :=
  match ev with
  | Scroll c => set_center c w
  | SetPart n b => world_setPart (PartNo n) false b w
  | SetPartMsg n => onSetPartMsg n w
  | CellCursor d => (cellCursor d w).1
  end.

Definition run (evs : list event) (w : world) : world := foldl (fun w ev => handle ev w) w evs.

(** ** The world refines [Parts] *)

Lemma world_setPart_parts part external b w :
  parts (world_setPart part external b w) = setPart e part external b (parts w).
Proof. unfold world_setPart. by case_match. Qed.

Lemma world_insertPage_parts nPos w :
  docType e = Spreadsheet -> parts (world_insertPage nPos w) = insertPage e nPos (parts w).
Proof.
  intros Hd. unfold world_insertPage, insertPage. destruct (anyEdit e); [done|].
  rewrite world_setPart_parts. unfold part_inserted, set_part_at. by rewrite Hd.
Qed.

Lemma world_deletePage_parts nPos w :
  docType e = Spreadsheet -> parts (world_deletePage nPos w) = deletePage e nPos (parts w).
Proof.
  intros Hd. unfold world_deletePage, deletePage, part_deleted, set_part_at. rewrite Hd. cbn -[setPart].
  destruct (_ =? 1); [done|]. destruct (_ <=? _ + 1); [done|].
  rewrite world_setPart_parts. by destruct nPos.
Qed.

(** ** The loops *)

Lemma copy_entry_lookup i j (m : gmap Z C) k :
  copy_entry i j m !! k = if decide (k = i) then m !! j else m !! k.
Proof.
  unfold copy_entry. case_decide as E; [subst|].
  - destruct (m !! j); [apply lookup_insert_eq|apply lookup_delete_eq].
  - destruct (m !! j); [by apply lookup_insert_ne|by apply lookup_delete_ne].
Qed.

Lemma put_entry_lookup i c (m : gmap Z C) k :
  put_entry i c m !! k = if decide (k = i) then c else m !! k.
Proof.
  unfold put_entry. case_decide as E; [subst|]; destruct c.
  - apply lookup_insert_eq.
  - apply lookup_delete_eq.
  - by apply lookup_insert_ne.
  - by apply lookup_delete_ne.
Qed.

Lemma shift_down_lookup a b (m : gmap Z C) k :
  shift_down a b m !! k = if decide (a <= k < b) then m !! (k + 1) else m !! k.
Proof.
  unfold shift_down. remember (Z.to_nat (b - a)) as n eqn:Hn.
  revert a m Hn. induction n as [|n IH]; intros a m Hn.
  - rewrite seqZ_nil by lia. cbn. by rewrite decide_False by lia.
  - rewrite seqZ_cons by lia. cbn. replace (Z.pred (b - a)) with (b - Z.succ a) by lia.
    rewrite IH, !copy_entry_lookup by lia. repeat case_decide; try lia; try done. by subst.
Qed.

Lemma shift_up_lookup a b (m : gmap Z C) k :
  shift_up a b m !! k = if decide (a < k <= b) then m !! (k - 1) else m !! k.
Proof.
  unfold shift_up. remember (Z.to_nat (b - a)) as n eqn:Hn.
  revert b m Hn. induction n as [|n IH]; intros b m Hn.
  - rewrite seqZ_nil by lia. cbn. by rewrite decide_False by lia.
  - replace (b - a) with (Z.of_nat (S n)) by lia.
    rewrite <- Nat.add_1_r, Nat2Z.inj_add, seqZ_app by lia. rewrite reverse_app.
    change (seqZ ?x (Z.of_nat 1)) with [0 + x]. rewrite reverse_singleton. cbn [app foldl].
    replace (Z.of_nat n) with (b - 1 - a) by lia.
    rewrite IH, !copy_entry_lookup by lia.
    repeat case_decide; try lia; try done; subst; f_equal; lia.
Qed.

(** ** The centres follow their sheets *)

(** [m] holds, for each place of a list of sheets, the centre [views] has for the sheet there. *)
Definition follows {A} (sheets : list A) (views : A -> option C) (m : gmap Z C) : Prop :=
  forall k, m !! k = if decide (0 <= k) then sheets !! Z.to_nat k ≫= views else None.

(** The list with the element at [i] moved to [j]. *)
Definition move_sheet {A} (i j : nat) (l : list A) : list A :=
  match l !! i with
  | Some x => let rest := delete i l in take j rest ++ x :: drop j rest
  | None => l
  end.

Lemma insert_lookup {A} (l : list A) j x k :
  (j <= length l)%nat ->
  (take j l ++ x :: drop j l) !! k = if decide (k < j)%nat then l !! k else if decide (k = j) then Some x else l !! (k - 1)%nat.
Proof.
  intros Hj. repeat case_decide.
  - rewrite lookup_app_l by (rewrite length_take; lia). by apply lookup_take_lt.
  - subst. rewrite lookup_app_r by (rewrite length_take; lia).
    rewrite length_take. by replace (j - j `min` length l)%nat with 0%nat by lia.
  - rewrite lookup_app_r by (rewrite length_take; lia). rewrite length_take.
    replace (k - j `min` length l)%nat with (S (k - 1 - j)) by lia.
    change (drop j l !! (k - 1 - j)%nat = l !! (k - 1)%nat). rewrite lookup_drop. f_equal. lia.
Qed.

Lemma delete_lookup {A} (l : list A) i k :
  delete i l !! k = if decide (k < i)%nat then l !! k else l !! S k.
Proof. case_decide; [by apply list_lookup_delete_lt|apply list_lookup_delete_ge; lia]. Qed.

Section follow.
Context `{EqDecision A} (views : A -> option C).

Lemma follows_moved (l : list A) i j s :
  (i < length l)%nat -> (j < length l)%nat -> follows l views (centerOfSheet s) ->
  follows (move_sheet i j l) views (centerOfSheet (updateOnSheetMoved (Z.of_nat i) (Z.of_nat j) s)).
Proof.
  intros Hi Hj Hf k. destruct (lookup_lt_is_Some_2 l i Hi) as [x Hx]. unfold move_sheet. rewrite Hx.
  assert (length (delete i l) = (length l - 1)%nat) as Hlen by by apply length_delete.
  assert (centerOfSheet s !! Z.of_nat i = views x) as Hc
    by (rewrite Hf, decide_True, Nat2Z.id, Hx by lia; done).
  unfold updateOnSheetMoved. destruct (Z.eqb_spec (Z.of_nat i) (Z.of_nat j)) as [E|E].
  { assert (i = j) as <- by lia. rewrite orb_true_r, Hf. repeat case_decide; [|done].
    rewrite insert_lookup, !delete_lookup by lia. repeat case_decide; try lia; try done.
    - subst. by rewrite Hx.
    - by replace (S (Z.to_nat k - 1)) with (Z.to_nat k) by lia. }
  destruct (Z.ltb_spec (Z.of_nat i) 0); [lia|]. destruct (Z.ltb_spec (Z.of_nat j) 0); [lia|].
  cbn [orb set_centers centerOfSheet]. rewrite put_entry_lookup.
  rewrite Hc. rewrite insert_lookup, !delete_lookup by lia.
  destruct (Z.ltb_spec (Z.of_nat i) (Z.of_nat j)); rewrite ?shift_down_lookup, ?shift_up_lookup, !Hf;
    repeat case_decide; try lia; try done;
    try (f_equal; f_equal; lia).
Qed.

(** The sheet [x] is viewed at [c]. *)
Definition view_at (x : A) (c : option C) : A -> option C := fun y => if decide (y = x) then c else views y.

Lemma follows_saved (l : list A) i x c m :
  NoDup l -> l !! i = Some x -> follows l views m -> follows l (view_at x (Some c)) (<[Z.of_nat i := c]> m).
Proof.
  intros Hnd Hx Hf k. destruct (decide (k = Z.of_nat i)) as [->|Hk].
  - rewrite lookup_insert_eq, decide_True, Nat2Z.id, Hx by lia. cbn. unfold view_at. by rewrite decide_True.
  - rewrite lookup_insert_ne, Hf by done. case_decide; [|done].
    destruct (l !! Z.to_nat k) as [y|] eqn:Ey; [|done]. cbn. unfold view_at.
    rewrite decide_False; [done|]. intros ->. assert (Z.to_nat k = i) by by eapply NoDup_lookup. lia.
Qed.

Lemma follows_ext (l : list A) (f g : A -> option C) m :
  (forall x, x ∈ l -> f x = g x) -> follows l f m -> follows l g m.
Proof.
  intros Hfg Hf k. rewrite Hf. case_decide; [|done]. destruct (l !! Z.to_nat k) as [y|] eqn:Ey; [|done].
  cbn. apply Hfg. by apply list_elem_of_lookup_2 in Ey.
Qed.
End follow.

Section follow2.
Context `{EqDecision A} (views : A -> option C).

Lemma follows_inserted (l : list A) i j x y center s :
  NoDup l -> y ∉ l -> l !! i = Some x -> (j <= length l)%nat -> follows l views (centerOfSheet s) ->
  let s' := updateOnSheetInsertion (Some (Z.of_nat j)) (Z.of_nat i) (Z.of_nat (length l)) center s in
  follows (take j l ++ y :: drop j l) (view_at (view_at views x (Some center)) y None) (centerOfSheet s') /\
  currentSheetIndexReassigned s' = bool_decide (j <= i)%nat.
Proof.
  intros Hnd Hy Hx Hj Hf s'. subst s'.
  assert (i < length l)%nat as Hi by by eapply lookup_lt_Some.
  pose proof (follows_saved views l i x center _ Hnd Hx Hf) as Hs.
  apply (follows_ext _ _ (view_at (view_at views x (Some center)) y None)) in Hs.
  2:{ intros z Hz. unfold view_at at 2. rewrite decide_False; [done|]. by intros ->. }
  set (v := view_at (view_at views x (Some center)) y None) in *.
  assert (v y = None) as Hvy by (unfold v, view_at; by rewrite decide_True).
  assert (v x = Some center) as Hvx.
  { unfold v, view_at. rewrite decide_False, decide_True; [done..|]. intros ->. apply Hy. by eapply list_elem_of_lookup_2. }
  assert (follows (take j l ++ y :: drop j l) v
    (delete (Z.of_nat j) (shift_up (Z.of_nat j) (Z.of_nat (length l)) (<[Z.of_nat i := center]> (centerOfSheet s))))) as Hd.
  { intros k. destruct (decide (k = Z.of_nat j)) as [->|Hk].
    - rewrite lookup_delete_eq, decide_True, Nat2Z.id, insert_lookup by lia.
      rewrite decide_False, decide_True by lia. cbn. by rewrite Hvy.
    - rewrite lookup_delete_ne, shift_up_lookup, !Hs by done. rewrite insert_lookup by lia.
      repeat case_decide; try lia; try done; try (f_equal; f_equal; lia).
      rewrite !lookup_ge_None_2 by lia. done. }
  unfold updateOnSheetInsertion. destruct (Z.ltb_spec (Z.of_nat j) 0); [lia|].
  destruct (Z.leb_spec (Z.of_nat j) (Z.of_nat i)) as [Hji|Hji]; cbn [centerOfSheet currentSheetIndexReassigned set_centers set_reassigned].
  - split; [|by rewrite bool_decide_eq_true_2 by lia]. intros k.
    destruct (decide (k = Z.of_nat i + 1)) as [->|Hk]; [|by rewrite lookup_insert_ne by done].
    rewrite lookup_insert_eq, decide_True, insert_lookup by lia.
    rewrite !decide_False by lia. replace (Z.to_nat (Z.of_nat i + 1) - 1)%nat with i by lia.
    rewrite Hx. cbn. by rewrite Hvx.
  - split; [exact Hd|by rewrite bool_decide_eq_false_2 by lia].
Qed.

Lemma follows_deleted (l : list A) i j x center s :
  NoDup l -> l !! i = Some x -> (j < length l)%nat -> follows l views (centerOfSheet s) ->
  let s' := updateOnSheetDeleted (Some (Z.of_nat j)) (Z.of_nat i) (Z.of_nat (length l)) center s in
  follows (delete j l) (if decide (j < i)%nat then view_at views x (Some center) else views) (centerOfSheet s') /\
  currentSheetIndexReassigned s' = bool_decide (j <= i)%nat.
Proof.
  intros Hnd Hx Hj Hf s'. subst s'.
  assert (follows (delete j l) views (shift_down (Z.of_nat j) (Z.of_nat (length l)) (centerOfSheet s))) as Hd.
  { intros k. rewrite shift_down_lookup, !Hf, delete_lookup.
    repeat case_decide; try lia; try done; try (f_equal; f_equal; lia).
    rewrite !lookup_ge_None_2 by lia. done. }
  unfold updateOnSheetDeleted. destruct (Z.ltb_spec (Z.of_nat j) 0); [lia|].
  cbn [currentSheetIndexReassigned set_reassigned centerOfSheet set_centers].
  split; [|by destruct (Z.leb_spec (Z.of_nat j) (Z.of_nat i)); [rewrite bool_decide_eq_true_2 by lia|rewrite bool_decide_eq_false_2 by lia]].
  destruct (Z.ltb_spec (Z.of_nat j) (Z.of_nat i)) as [Hji|Hji]; [|by rewrite decide_False by lia].
  rewrite decide_True by lia. replace (Z.of_nat i - 1) with (Z.of_nat (i - 1)) by lia.
  apply follows_saved; [|  |exact Hd].
  - eapply sublist_NoDup; [exact Hnd|apply sublist_delete].
  - rewrite delete_lookup, decide_False by lia. by replace (S (i - 1)) with i by lia.
Qed.
End follow2.

(** C34: Whatever sheets are moved, inserted or deleted, the place each sheet was last viewed at stays
    with the sheet: the table is that of the new list of sheets, in which the sheet that is
    shown is viewed where the map is now when its place changed, and a new sheet nowhere. *)
Theorem views_follow_sheets `{EqDecision A} (views : A -> option C) (l : list A) i x center s :
  NoDup l -> l !! i = Some x -> follows l views (centerOfSheet s) ->
  (forall a b, (a < length l)%nat -> (b < length l)%nat ->
     follows (move_sheet a b l) views (centerOfSheet (updateOnSheetMoved (Z.of_nat a) (Z.of_nat b) s))) /\
  (forall j y, (j <= length l)%nat -> y ∉ l ->
     follows (take j l ++ y :: drop j l) (view_at (view_at views x (Some center)) y None)
       (centerOfSheet (updateOnSheetInsertion (Some (Z.of_nat j)) (Z.of_nat i) (Z.of_nat (length l)) center s))) /\
  (forall j, (j < length l)%nat ->
     follows (delete j l) (if decide (j < i)%nat then view_at views x (Some center) else views)
       (centerOfSheet (updateOnSheetDeleted (Some (Z.of_nat j)) (Z.of_nat i) (Z.of_nat (length l)) center s))).
Proof.
  intros Hnd Hx Hf. split_and!.
  - intros a b Ha Hb. by apply follows_moved.
  - intros j y Hj Hy. by apply (follows_inserted views l i j x y center s).
  - intros j Hj. by apply (follows_deleted views l i j x center s).
Qed.

(** ** Going away and coming back *)

Lemma check_selected_part_none external b s : fileBasedView e = false ->
  selectedPart (sel (show_part e external b s)) = selectedPart (sel s) /\
  nparts (sel (show_part e external b s)) = nparts (sel s).
Proof. intros _. unfold show_part, notifyServer. by destruct (cursorVisible e), external, (searchRequested e). Qed.

Lemma setPart_sel n external b s :
  anyEdit e = false -> fileBasedView e = false ->
  let s' := setPart e (PartNo n) external b s in
  selectedPart (sel s') = (if (0 <=? n) && (n <? nparts (sel s)) then n else selectedPart (sel s)) /\
  nparts (sel s') = nparts (sel s).
Proof.
  intros He Hf s'. subst s'. unfold setPart. rewrite He.
  destruct (Z.eqb_spec n (selectedPart (sel s))) as [->|Hn]; [by destruct (_ && _)|].
  set (s1 := set_sel leave_part _). assert (sel s1 = leave_part (sel s)) as H1 by (subst s1; by case_bool_decide).
  unfold choose_part. cbv zeta. rewrite H1. cbn [leave_part nparts selectedPart].
  destruct ((0 <=? n) && (n <? nparts (sel s))); [|by rewrite H1].
  rewrite Hf. destruct (check_selected_part_none external b
    (do (Call "updateReferenceMarks") (set_sel (move_to n (if selectedPart (sel s) <=? n then 1 else -1)) s1)) Hf) as [-> ->].
  clearbody s1. cbn. by rewrite H1.
Qed.

(** What holds while the view is away from sheet [p]. *)
Definition away (p : Z) (c : C) (w : world) : Prop :=
  selected w <> p /\ centerOfSheet (switch w) !! p = Some c /\ currentSheetIndexReassigned (switch w) = false /\
  0 <= p < nparts (sel (parts w)).

Lemma save_other part n c s p :
  currentSheetIndexReassigned s = false -> n <> p ->
  centerOfSheet (save part n c s) !! p = centerOfSheet s !! p /\ currentSheetIndexReassigned (save part n c s) = false.
Proof. intros H Hn. unfold save. rewrite H. destruct (part_key part); cbn; by rewrite lookup_insert_ne. Qed.

Lemma tryRestore_keeps d n s :
  centerOfSheet (tryRestore d n s).1.1 = centerOfSheet s /\
  currentSheetIndexReassigned (tryRestore d n s).1.1 = currentSheetIndexReassigned s.
Proof.
  unfold tryRestore, restoreView. destruct (mayRestore s && _); [|done].
  destruct (setPartRecvd s) eqn:E, d; cbn; rewrite ?E; cbn; try done;
    destruct (centerOfSheet s !! restorePart s); cbn; rewrite ?E; done.
Qed.

Lemma cellCursor_keeps d w :
  parts (cellCursor d w).1 = parts w /\ centerOfSheet (switch (cellCursor d w).1) = centerOfSheet (switch w) /\
  currentSheetIndexReassigned (switch (cellCursor d w).1) = currentSheetIndexReassigned (switch w).
Proof.
  unfold cellCursor. pose proof (tryRestore_keeps d (selected w) (switch w)) as H.
  destruct (tryRestore _ _ _) as [[s [c|]] b]; cbn in *; destruct H; by split_and!.
Qed.

Section returning.
Hypothesis Hedit : anyEdit e = false.
Hypothesis Hfile : fileBasedView e = false.
Hypothesis Hcalc : docType e = Spreadsheet.

Lemma away_handle p c ev w :
  (forall b, ev <> SetPart p b) -> away p c w -> away p c (handle ev w).
Proof using Hedit Hfile Hcalc.
  intros Hev (Hs & Hc & Hr & Hp). unfold away. destruct ev as [c'|n b|n|d]; cbn [handle].
  - exact (conj Hs (conj Hc (conj Hr Hp))).
  - unfold world_setPart. rewrite Hedit, Hcalc. cbn [orb].
    destruct (setPart_sel n false b (parts w) Hedit Hfile) as [H1 H2].
    assert (n <> p) as Hn by (intros ->; by apply (Hev b)).
    assert (selected (set_parts (setPart e (PartNo n) false b (parts w)) w) <> p) as Hsel
      by (unfold selected; cbn -[setPart]; rewrite H1; by case_match).
    rewrite bool_decide_eq_true_2 by done. cbn [negb orb]. rewrite orb_false_r.
    destruct (save_other (PartNo n) (selected w) (viewCenter w) (switch w) p Hr Hs) as [H3 H4].
    destruct (n =? selected w); split_and!; cbn -[setPart save]; rewrite ?H2, ?H3, ?H4; try done; apply Hp.
  - unfold onSetPartMsg. case_bool_decide; exact (conj Hs (conj Hc (conj Hr Hp))).
  - destruct (cellCursor_keeps d w) as (H1 & H2 & H3).
    unfold selected. by rewrite H1, H2, H3.
Qed.

Lemma away_run p c evs w :
  (forall b, SetPart p b ∉ evs) -> away p c w -> away p c (run evs w).
Proof using Hedit Hfile Hcalc.
  revert w. induction evs as [|ev evs IH]; intros w Hev Hw; [done|]. apply IH.
  - intros b Hb. by apply (Hev b), list_elem_of_further.
  - apply away_handle; [|done]. intros b ->. apply (Hev b), list_elem_of_here.
Qed.

(** What holds once the view is back and the server did not answer yet. *)
Definition back (p : Z) (c : C) (w : world) : Prop :=
  selected w = p /\ centerOfSheet (switch w) !! p = Some c /\ mayRestore (switch w) = true /\
  restorePart (switch w) = p /\ setPartRecvd (switch w) = false.

Lemma back_cursor p c d w :
  back p c w -> back p c (cellCursor d w).1 /\ viewCenter (cellCursor d w).1 = c /\ (cellCursor d w).2 = false.
Proof.
  intros (Hs & Hc & Hm & Hr & Hg). unfold cellCursor.
  replace (tryRestore d (selected w) (switch w)) with (switch w, Some c, false).
  - split; [|done]. split_and!; done.
  - unfold tryRestore, restoreView. rewrite Hm, Hr, Hs, Z.eqb_refl, !Hg. cbn. by rewrite ?Hg, Hr, Hc.
Qed.

(** C35: A view that leaves a sheet and comes back is put where it was by the first message of
    the cell cursor after the return, and does not scroll to the cell cursor before the server
    has answered.  In between it may visit and scroll other sheets, and messages of the cell
    cursor and of the part may arrive; no sheet is inserted, deleted or moved
    ([inserted_sheet_forgotten]), no message has just moved the selected sheet
    ([currentSheetIndexReassigned]), and the server's answer to the return does not come before
    the first message of the cell cursor ([answer_first]). *)
Theorem leave_and_return p q b b' evs d ds w :
  let n := nparts (sel (parts w)) in
  0 <= p < n -> 0 <= q < n -> q <> p -> selected w = p ->
  currentSheetIndexReassigned (switch w) = false -> (forall b, SetPart p b ∉ evs) ->
  let w' := run (SetPart q b :: evs ++ SetPart p b' :: CellCursor d :: (CellCursor <$> ds)) w in
  viewCenter w' = viewCenter w /\ selected w' = p /\ forall d, (cellCursor d w').2 = false.
Proof using Hedit Hfile Hcalc.
  intros n Hp Hq Hqp Hs Hr Hev w'. subst w'.
  set (w1 := handle (SetPart q b) w).
  assert (away p (viewCenter w) w1) as H1.
  { subst w1. cbn [handle]. unfold world_setPart. rewrite Hedit, Hcalc.
    destruct (setPart_sel q false b (parts w) Hedit Hfile) as [E1 E2].
    destruct (Z.eqb_spec q (selected w)); [lia|].
    rewrite bool_decide_eq_true_2 by done. cbn [negb orb].
    unfold away, selected. cbn -[setPart save]. rewrite E1, E2.
    destruct (Z.leb_spec 0 q); [|lia]. destruct (Z.ltb_spec q (nparts (sel (parts w)))); [|subst n; lia].
    unfold save. rewrite Hr. cbn. fold (selected w). rewrite Hs, lookup_insert_eq. split_and!; try done; apply Hp. }
  change (SetPart q b :: evs ++ ?l) with ([SetPart q b] ++ evs ++ l). unfold run. rewrite !foldl_app. cbn [foldl].
  fold (run evs (handle (SetPart q b) w)). fold w1.
  pose proof (away_run p _ evs w1 Hev H1) as H2. set (w2 := run evs w1) in *.
  assert (back p (viewCenter w) (handle (SetPart p b') w2)) as H3.
  { destruct H2 as (Ha & Hc & Hr2 & Hp2). cbn [handle]. unfold world_setPart. rewrite Hedit, Hcalc.
    destruct (setPart_sel p false b' (parts w2) Hedit Hfile) as [E1 E2].
    destruct (Z.eqb_spec p (selected w2)); [congruence|].
    rewrite bool_decide_eq_true_2 by done. cbn [negb orb].
    unfold back, selected. cbn -[setPart save]. rewrite E1.
    destruct (Z.leb_spec 0 p); [|lia]. destruct (Z.ltb_spec p (nparts (sel (parts w2)))); [|lia].
    unfold save. rewrite Hr2. cbn. fold (selected w2). rewrite lookup_insert_ne, Hc by done.
    rewrite bool_decide_eq_true_2 by done. done. }
  pose proof (back_cursor p _ d _ H3) as (H4 & H5 & _).
  change (handle (CellCursor d) ?w) with (cellCursor d w).1. revert H4 H5. generalize (cellCursor d (handle (SetPart p b') w2)).1.
  induction ds as [|d' ds IH]; intros w3 H4 H5; cbn.
  - split_and!; [done|apply H4|]. intros d0. apply (back_cursor _ _ d0 _ H4).
  - destruct (back_cursor _ _ d' _ H4) as (H6 & H7 & _). apply IH; [done|congruence].
Qed.
End returning.
End centers.

Arguments switcher : clear implicits.
Arguments world : clear implicits.
Arguments event : clear implicits.

(** ** Examples *)

Definition sample_world (center : Z) : world Z := World sample_state new_switcher center [].

Definition calc : Parts.env := sample_env Spreadsheet.

(** Comes back to the sheet at [n] from the one at [m], viewed at 5, and gets a message of the
    cell cursor: where the view is, and whether it scrolls to the cursor. *)
Definition come_back (m n : Z) (w : world Z) : Z * bool :=
  let r := cellCursor false (run calc [SetPart m true; Scroll 5; SetPart n true] w) in
  (viewCenter r.1, r.2).

(** A view comes back to where it was, but not to a sheet that was inserted before the one
    that was shown: [setPart] returns at once since the index is the same, and the next switch
    takes the mark that indices changed for its own. *)
Example inserted_sheet_forgotten :
  come_back 2 0 (run calc [Scroll 77] (sample_world 10)) = (77, false) /\
  come_back 2 0 (run calc [Scroll 77] (world_insertPage calc (Some 0) (sample_world 10))) = (5, true) /\
  come_back 2 1 (run calc [Scroll 77] (world_insertPage calc (Some 1) (sample_world 10))) = (77, false).
Proof. vm_compute. done. Qed.

(** After the sheet that is shown was deleted, the view of the one in its place goes back to
    where it was before the deletion. *)
Example deleted_sheet_stale :
  let w := run calc [SetPart 1 true; Scroll 33; SetPart 0 true] (sample_world 10) in
  come_back 1 0 (run calc [Scroll 77] (world_deletePage calc (Some 0) w)) = (33, false).
Proof. vm_compute. done. Qed.

(** When the answer of the server precedes the message of the cell cursor, the view is not put
    back, and scrolls to the cursor. *)
Example answer_first :
  let w := run calc [Scroll 77; SetPart 1 true; Scroll 5; SetPart 0 true; SetPartMsg 0] (sample_world 10) in
  viewCenter (cellCursor false w).1 = 5 /\ (cellCursor false w).2 = true.
Proof. vm_compute. done. Qed.

Lemma views_follow_sheets_witness :
  follows [20; 10; 30] (fun x => if x =? 10 then Some 7 else None)
    (centerOfSheet (updateOnSheetMoved 0 1 (set_centers {[0 := 7]} new_switcher))).
Proof.
  assert (follows [10; 20; 30] (fun x => if x =? 10 then Some 7 else None) (centerOfSheet (set_centers {[0 := 7]} new_switcher))) as Hf.
  { intros k. destruct (decide (k = 0)) as [->|Hk]; [reflexivity|]. cbn. rewrite lookup_singleton_ne by done.
    case_decide; [|done]. destruct (Z.to_nat k) as [|[|[|n]]] eqn:E; [lia|done|done|done]. }
  exact (proj1 (views_follow_sheets _ [10; 20; 30] 1 20 4 (set_centers {[0 := 7]} new_switcher)
    ltac:(apply (bool_decide_unpack _); vm_compute; exact I) eq_refl Hf) 0%nat 1%nat ltac:(cbn; lia) ltac:(cbn; lia)).
Defined.

Lemma leave_and_return_witness :
  let w := run calc [SetPart 2 true; Scroll 5; SetPartMsg 2; SetPart 0 false; CellCursor false; CellCursor true] (sample_world 10) in
  viewCenter w = 10 /\ selected w = 0.
Proof.
  destruct (leave_and_return calc eq_refl eq_refl eq_refl 0 2 true false [Scroll 5; SetPartMsg 2] false [true] (sample_world 10))
    as (H1 & H2 & _); [vm_compute; split; congruence|vm_compute; split; congruence|done|done|done| |split; [exact H1|exact H2]].
  intros b. set_solver.
Defined.
