(* ===== verification/Invalidate.v ===== *)
(** * Invalidation messages

    The server says which area of the document changed: the tiles that show it
    are marked for fetching, and previews are renewed a while later.  Models the
    handling of [invalidatetiles:] in [_onMessage]
    (src/browser/src/layer/tile/CanvasTileLayer.js), [_onInvalidateTilesMsg] of
    the Writer, Calc and Impress layers, [_invalidatePreviews] and
    [_invalidateAllPreviews].  What only serves the debugging overlay is left out. *)

From S2P Require Import Prelude JsText JsObject Geometry TileCoords Tiles ServerCmd FileBased Parts.
Local Open Scope Z_scope.

(** ** The area of a message *)

Inductive layer_kind := WriterLayer | CalcLayer | ImpressLayer.

#[export] Instance layer_kind_eq_dec : EqDecision layer_kind.
Proof. solve_decision. Defined.

(** [optTileWidthTwips] and [optTileHeightTwips] are the sizes of a tile at the
    zoom [baseZoom]; [docWidth] and [docHeight] are in twips. *)
Record layout := Layout {
  kind : layer_kind;
  ltileSize : Z;
  optTileWidthTwips : Z;
  optTileHeightTwips : Z;
  baseZoom : Z;
  lselectedMode : Z;
  ldocWidthTwips : Z;
  ldocHeightTwips : Z
}.

(** [zoomToFactor (z)] is 1.2 to the power [z - baseZoom], a fraction. *)
Definition zoomToFactor (l : layout) (z : Z) : Z * Z :=
  let k := z - baseZoom l in
  if 0 <=? k then (6 ^ k, 5 ^ k) else (5 ^ (- k), 6 ^ (- k)).

(** A point or bounds in units of [1 / (tileSize * factor numerator)] twips, in
    which the corners of the tiles of a zoom are whole. *)
Definition scale_point (n : Z) (p : point) : point := Point (n * px p) (n * py p).
Definition scale_bounds (n : Z) (b : bounds) : bounds :=
  mk_bounds (scale_point n (bmin b)) (scale_point n (bmax b)).

Definition unit (l : layout) (z : Z) : Z := ltileSize l * (zoomToFactor l z).1.

(** [_coordsToTileBounds], in those units. *)
Definition coordsToTileBounds (l : layout) (c : coord) : bounds :=
  let d := (zoomToFactor l (cz c)).2 in
  let tileTopLeft := Point (cx c * optTileWidthTwips l * d) (cy c * optTileHeightTwips l * d) in
  mk_bounds tileTopLeft
    (point_add tileTopLeft (Point (optTileWidthTwips l * ltileSize l * d)
                                  (optTileHeightTwips l * ltileSize l * d))).

(** The digit runs of a text: [textMsg.match (/\d+/g)]. *)
Definition is_digit (c : ascii) : bool := (48 <=? code c) && (code c <=? 57).

Fixpoint digit_runs (s : string) (run : string) : list string :=
  match s with
  | "" => if String.eqb run "" then [] else [run]
  | String c s' =>
      if is_digit c then digit_runs s' (run +:+ String c "")
      else (if String.eqb run "" then [] else [run]) ++ digit_runs s' ""
  end.

(** The fields of a message that say what changed; the numbers may be [NaN]. *)
Record invalidation := Invalidation {
  iv_x : num; iv_y : num; iv_width : num; iv_height : num;
  iv_part : num; iv_mode : num; iv_wid : option string
}.

Section messages.
Context (zoomOf : option (Z -> num)) (l : layout).

(** The first part of [_onInvalidateTilesMsg]; [None]: no number in the text, an
    exception. *)
Definition parse_invalidation (selectedPart : Z) (textMsg : string) : option invalidation :=
  let command := parseServerCmd zoomOf textMsg in
  let mode := match mjoin (get_num "mode" command) with Some m => Some m | None => Some (lselectedMode l) end in
  let wid := get_str "wireId" command in
  let size p := mjoin (get_num p command) in
  iv ← match get_num "x" command, get_num "y" command, get_num "part" command with
       | Some x, Some y, Some p =>
           Some (Invalidation x y (size "width") (size "height") p mode wid)
       | _, _, _ =>
           match digit_runs textMsg "" with
           | [] => None
           | strTwips =>
               Some (Invalidation (nth_int strTwips 0) (nth_int strTwips 1) (nth_int strTwips 2)
                       (nth_int strTwips 3) (Some selectedPart) mode wid)
           end
       end;
  Some (if bool_decide (kind l = WriterLayer)
        then Invalidation (iv_x iv) (iv_y iv) (iv_width iv) (iv_height iv) (Some 0) (iv_mode iv) (iv_wid iv)
        else iv).

(** [invalidBounds]; [None]: a coordinate is [NaN], and nothing intersects. *)
Definition invalidBounds (iv : invalidation) : option bounds :=
  match iv_x iv, iv_y iv, iv_width iv, iv_height iv with
  | Some x, Some y, Some w, Some h =>
      let topLeftTwips := Point x y in
      Some (mk_bounds topLeftTwips (point_add topLeftTwips (Point w h)))
  | _, _, _, _ => None
  end.

(** The test on a tile. *)
Definition is_hit (iv : invalidation) (c : coord) : bool :=
  num_eqb (Some (cpart c)) (iv_part iv) && num_eqb (Some (cmode c)) (iv_mode iv) &&
  match invalidBounds iv with
  | Some b => intersects (scale_bounds (unit l (cz c)) b) (coordsToTileBounds l c)
  | None => false
  end.

Definition visit_invalid (iv : invalidation) (s : store) (k : string) : store :=
  match obj_get k (tiles s) with
  | Some t => if is_hit iv (coords t) then invalidateTile k (iv_wid iv) s else s
  | None => s
  end.

(** [for (var key in this._tiles)] *)
Definition invalidate_tiles (iv : invalidation) (s : store) : store :=
  foldl (visit_invalid iv) s (own_keys (tiles s)).

(** ** The document layer *)

(** The fields of the layer the messages touch, next to those of the parts. *)
Record inval_state := InvalState {
  ist : state;
  previewInvalidations : list (option bounds);
  previewInvalidator : bool;         (** the timer runs *)
  lastValidPart : num;
  partUpdates : list num              (** parts of the [updatepart] events *)
}.

Definition with_ist (f : state -> state) (x : inval_state) : inval_state :=
  InvalState (f (ist x)) (previewInvalidations x) (previewInvalidator x) (lastValidPart x) (partUpdates x).

Definition mark_invalid (v : preview) : preview :=
  match v with
  | PartPreview i w h a _ => PartPreview i w h a true
  | CustomPreview p w h x y tw th a _ => CustomPreview p w h x y tw th a true
  end.

(** [_docPreviews[command.part]] *)
Definition part_key (p : num) : string := match p with Some p => num_to_string p | None => "NaN" end.

(** What the Impress layer does in between: the events about the part, and the
    mark on its preview. *)
Definition impress_part (iv : invalidation) (x : inval_state) : inval_state :=
  let c := sel (ist x) in
  let x :=
    if num_eqb (iv_part iv) (Some (selectedPart c)) && num_eqb (iv_mode iv) (Some (lselectedMode l))
       && negb (num_eqb (iv_part iv) (lastValidPart x))
    then InvalState (ist x) (previewInvalidations x) (previewInvalidator x) (iv_part iv)
           (partUpdates x ++ [lastValidPart x; iv_part iv])
    else x in
  with_ist (set_prev (fun p => Previews (previewQueue p) (previewRequestsOnFly p) (timeToEmptyQueue p)
                                 (obj_alter mark_invalid (part_key (iv_part iv)) (docPreviews p)))) x.

Definition onInvalidateTilesMsg (textMsg : string) (x : inval_state) : option inval_state :=
  match parse_invalidation (selectedPart (sel (ist x))) textMsg with
  | None => None
  | Some iv =>
      let x := with_ist (fun s => set_tstore (invalidate_tiles iv (tstore s)) s) x in
      let x := if bool_decide (kind l = ImpressLayer) then impress_part iv x else x in
      Some (InvalState (ist x) (previewInvalidations x ++ [invalidBounds iv]) true (lastValidPart x)
              (partUpdates x))
  end.

(** ** [invalidatetiles: EMPTY] *)

(** [s.replaceAll (',', ' , ')] *)
Fixpoint space_commas (s : string) : string :=
  match s with
  | "" => ""
  | String c s' => (if Ascii.eqb c ","%char then " , " else String c "") +:+ space_commas s'
  end.

(** The loop over the tokens: the arguments that follow commas, and the token of
    the wire id. *)
Fixpoint empty_args (tokens : list string) (commaarg : bool) (args : list string) (wid : option string)
    : list string * option string :=
  match tokens with
  | [] => (args, wid)
  | t :: ts =>
      if String.eqb t "," then empty_args ts true args wid
      else if commaarg then empty_args ts false (args ++ [t]) wid
      else if starts_with t "wid=" then empty_args ts false args (Some t)
      else empty_args ts false args wid
  end.

(** The message for the whole document that stands for an [EMPTY] payload. *)
Definition expand_empty (selectedPart : Z) (payload : string) : string :=
  let '(args, wid) := empty_args (split_tokens (space_commas (str_drop 5 payload))) false [] None in
  let part := parseInt (default "" (args !! 0%nat)) in
  let mode := default (lselectedMode l) (parseInt (default "" (args !! 1%nat))) in
  "invalidatetiles: " +:+
  (if bool_decide (kind l = WriterLayer) then "part=0 "
   else "part=" +:+ num_to_string (default selectedPart part)
        +:+ (if negb (mode =? 0) then " mode=" +:+ num_to_string mode else "") +:+ " ") +:+
  "x=0 y=0 " +:+ "width=" +:+ num_to_string (ldocWidthTwips l) +:+ " " +:+
  "height=" +:+ num_to_string (ldocHeightTwips l) +:+
  match wid with Some w => " " +:+ w | None => "" end.

(** The [invalidatetiles:] branch of [_onMessage]. *)
Definition onMessage_invalidatetiles (textMsg : string) (x : inval_state) : option inval_state :=
  let payload := str_drop (S (String.length "invalidatetiles:")) textMsg in
  if starts_with payload "EMPTY"
  then onInvalidateTilesMsg (expand_empty (selectedPart (sel (ist x))) payload) x
  else onInvalidateTilesMsg textMsg x.

(** ** Previews *)

(** [partPageRectanglesTwips]: the page rectangles of a text document. *)
Context (e : env) (partPageRectanglesTwips : list bounds).

Definition autoUpdate_of (v : preview) : bool :=
  match v with PartPreview _ _ _ a _ => a | CustomPreview _ _ _ _ _ _ _ a _ => a end.

Definition is_invalid (v : preview) : bool :=
  match v with PartPreview _ _ _ _ i => i | CustomPreview _ _ _ _ _ _ _ _ i => i end.

Definition bounds_hit (b : option bounds) (c : bounds) : bool :=
  match b with Some b => intersects b c | None => false end.

(** One preview against one invalidation: whether it is to be renewed, and
    whether the previously selected part has got its update. *)
Definition preview_needs (b : option bounds) (c : selection) (v : preview) : bool * bool :=
  match v with
  | PartPreview index _ _ _ invalid =>
      if 0 <=? index then
        if bool_decide (kind l = WriterLayer) then
          (invalid || match partPageRectanglesTwips !! Z.to_nat index with
                      | Some r => bounds_hit b r | None => false end, false)
        else
          let hit := invalid || (index =? selectedPart c) ||
                     ((index =? prevSelectedPart c) && prevSelectedPartNeedsUpdate c) in
          (hit, hit && (index =? prevSelectedPart c))
      else (invalid, false)
  | CustomPreview part _ _ x y tw th _ invalid =>
      (invalid || (((part =? selectedPart c) ||
                    ((part =? prevSelectedPart c) && prevSelectedPartNeedsUpdate c)) &&
                   bounds_hit b (mk_bounds (Point x y) (Point (x + tw) (y + th)))), false)
  end.

Definition clear_needs_update (c : selection) : selection :=
  Selection (selectedPart c) (prevSelectedPart c) (selectedParts c) (nparts c) (partsDirection c) false.

Definition visit_preview (b : option bounds) (a : obj bool * selection) (kv : string * preview)
    : obj bool * selection :=
  let '(toInvalidate, c) := a in
  let '(hit, updated) := preview_needs b c kv.2 in
  (if hit then obj_set kv.1 true toInvalidate else toInvalidate,
   if updated then clear_needs_update c else c).

(** The previews in the order [for ... in] visits them. *)
Definition preview_entries (o : obj preview) : list (string * preview) :=
  omap (fun k => v ← obj_get k o; Some (k, v)) (own_keys o).

Definition previews_to_renew (bs : list (option bounds)) (ps : list (string * preview)) (c : selection)
    : obj bool * selection :=
  foldl (fun a b => foldl (visit_preview b) a ps) ([], c) bs.

Definition renew_preview (now : Z) (s : state) (k : string) : state :=
  match obj_get k (docPreviews (prev s)) with
  | Some (PartPreview index w h true _) => (getPreview e k index w h (Some (true, None)) now s).1
  | Some (CustomPreview part w h x y tw th true _) => getCustomPreview e k part w h x y tw th (Some true) now s
  | _ => s
  end.

(** [_invalidatePreviews] *)
Definition invalidatePreviews (now : Z) (x : inval_state) : inval_state :=
  let s := ist x in
  let '(toInvalidate, c) :=
    previews_to_renew (previewInvalidations x) (preview_entries (docPreviews (prev s))) (sel s) in
  InvalState (foldl (renew_preview now) (set_sel (fun _ => c) s) (own_keys toInvalidate))
    [] (previewInvalidator x) (lastValidPart x) (partUpdates x).

(** [_invalidateAllPreviews] *)
Definition preview_box (v : preview) : option bounds :=
  match v with
  | PartPreview _ w h _ _ => Some (mk_bounds (Point 0 0) (Point w h))
  | CustomPreview _ _ _ _ _ _ _ _ _ => None
  end.

Definition invalidateAllPreviews (now : Z) (x : inval_state) : inval_state :=
  let ps := preview_entries (docPreviews (prev (ist x))) in
  let x := with_ist (set_prev (fun p => Previews (previewQueue p) (previewRequestsOnFly p)
             (timeToEmptyQueue p) (obj_imap (fun _ => mark_invalid) (docPreviews p)))) x in
  invalidatePreviews now
    (InvalState (ist x) ((fun kv => preview_box kv.2) <$> ps) (previewInvalidator x) (lastValidPart x)
       (partUpdates x)).
End messages.

(** The handlers of the Writer and the Calc layer: no part events and no mark on
    a preview; Writer's only part is 0. *)
Definition with_kind (k : layer_kind) (l : layout) : layout :=
  Layout k (ltileSize l) (optTileWidthTwips l) (optTileHeightTwips l) (baseZoom l) (lselectedMode l)
         (ldocWidthTwips l) (ldocHeightTwips l).

Definition writer_onInvalidateTilesMsg (zoomOf : option (Z -> num)) (l : layout) :
    string -> inval_state -> option inval_state := onInvalidateTilesMsg zoomOf (with_kind WriterLayer l).

Definition calc_onInvalidateTilesMsg (zoomOf : option (Z -> num)) (l : layout) :
    string -> inval_state -> option inval_state := onInvalidateTilesMsg zoomOf (with_kind CalcLayer l).

(** ** The tiles after an invalidation *)

(** What [_invalidateTile] leaves of a tile. *)
Definition invalidated (wid : option string) (t : tile) : option tile :=
  if negb (hasContent (data t)) then None
  else
    Some (set_invalidFrom
      (match wid with
       | Some w => if String.eqb w "" then wireId t else to_number w
       | None => wireId t
       end) (set_stats (incr_invalidateCount (tstats t)) t)).

Lemma invalidateTile_get k wid s k' :
  obj_get k' (tiles (invalidateTile k wid s)) =
  if decide (k' = k) then obj_get k (tiles s) ≫= invalidated wid else obj_get k' (tiles s).
Proof.
  unfold invalidateTile, invalidated. destruct (obj_get k (tiles s)) as [t|] eqn:E.
  2: { case_decide; [by subst|done]. }
  cbn [mbind option_bind].
  destruct (hasContent (data t)) eqn:Hc; cbn [negb].
  - destruct wid as [w|]; [destruct (String.eqb w "")|];
      unfold alter_tile, set_tiles; cbn [tiles]; rewrite !obj_get_alter;
      case_decide as Hd; case_decide as Hd'; subst; try done; by rewrite E.
  - unfold removeTile, alter_tile, set_tiles. cbn [tiles]. rewrite obj_get_alter, decide_True, E by done.
    cbn [fmap option_fmap option_map tiles]. rewrite obj_get_del, obj_get_alter.
    case_decide as Hd; case_decide as Hd'; subst; done.
Qed.

Section spec.
Context (l : layout).

Lemma visit_invalid_get iv s k k' :
  obj_get k' (tiles (visit_invalid l iv s k)) =
  if decide (k' = k) then
    t ← obj_get k (tiles s); if is_hit l iv (coords t) then invalidated (iv_wid iv) t else Some t
  else obj_get k' (tiles s).
Proof.
  unfold visit_invalid. destruct (obj_get k (tiles s)) as [t|] eqn:E; cbn [mbind option_bind].
  - destruct (is_hit l iv (coords t)).
    + rewrite invalidateTile_get, E. done.
    + case_decide; [by subst|done].
  - case_decide; [by subst|done].
Qed.

Lemma foldl_visit_get iv ks s k :
  NoDup ks ->
  obj_get k (tiles (foldl (visit_invalid l iv) s ks)) =
  if decide (k ∈ ks) then
    t ← obj_get k (tiles s); if is_hit l iv (coords t) then invalidated (iv_wid iv) t else Some t
  else obj_get k (tiles s).
Proof.
  intros Hnd. revert s. induction Hnd as [|k0 ks Hk0 Hnd IH]; intros s; cbn [foldl]; [done|].
  rewrite IH, visit_invalid_get. destruct (decide (k = k0)) as [->|Hne].
  - rewrite (decide_False (P := k0 ∈ ks)) by done. rewrite decide_True by set_solver. done.
  - destruct (decide (k ∈ ks)); [rewrite (decide_True (P := k ∈ k0 :: ks)) by set_solver; done|].
    by rewrite decide_False by set_solver.
Qed.

Lemma invalidate_tiles_get iv s k :
  obj_wf (tiles s) ->
  obj_get k (tiles (invalidate_tiles l iv s)) =
  t ← obj_get k (tiles s); if is_hit l iv (coords t) then invalidated (iv_wid iv) t else Some t.
Proof.
  intros Hwf. unfold invalidate_tiles. rewrite foldl_visit_get by by apply NoDup_own_keys_order.
  case_decide as Hk; [done|]. unfold own_keys in Hk. rewrite elem_of_own_keys_order in Hk.
  apply obj_get_None in Hk. by rewrite Hk.
Qed.

Lemma invalidate_tiles_ok iv s : store_ok s -> store_ok (invalidate_tiles l iv s).
Proof.
  unfold invalidate_tiles. generalize (own_keys (tiles s)) as ks. intros ks. revert s.
  induction ks as [|k ks IH]; intros s Hok; cbn [foldl]; [done|]. apply IH. unfold visit_invalid.
  destruct (obj_get k (tiles s)); [|done]. case_bool; [by apply invalidateTile_ok|done].
Qed.

(** ** The server's messages *)

(** The text the kit sends (src/kit/ChildSession.cpp); it leaves mode 0 out. *)
Definition invalidation_tokens (p m x y w h v : Z) : list string :=
  ["invalidatetiles:"; print_field "part=" p] ++
  (if 0 <? m then [print_field "mode=" m] else []) ++
  [print_field "x=" x; print_field "y=" y; print_field "width=" w; print_field "height=" h;
   print_field "wid=" v].

Definition server_invalidation (p m x y w h v : Z) : string :=
  join " " (invalidation_tokens p m x y w h v).

Lemma token_ok_print_field name v :
  token_ok name = true -> token_ok (print_field name v) = true.
Proof.
  unfold token_ok, print_field. intros [Hn Hs]%andb_true_iff. apply andb_true_iff. split.
  - destruct name; [done|]. done.
  - rewrite str_forall_app, Hs. apply num_to_string_no_sep_char.
Qed.

Lemma parse_server_invalidation zoomOf sel p m x y w h v :
  parse_invalidation zoomOf l sel (server_invalidation p m x y w h v) =
  Some (Invalidation (Some x) (Some y) (Some w) (Some h)
          (Some (if bool_decide (kind l = WriterLayer) then 0 else p))
          (Some (if 0 <? m then m else lselectedMode l)) (Some (num_to_string v))).
Proof.
  unfold parse_invalidation, server_invalidation, parseServerCmd.
  rewrite split_tokens_join.
  2: { done. }
  2: { unfold invalidation_tokens. rewrite !Forall_app. case_bool; repeat (constructor || split);
       by apply token_ok_print_field. }
  assert (E : foldl add_token [] (invalidation_tokens p m x y w h v) =
    [("part", FNum (Some p))] ++ (if 0 <? m then [("mode", FNum (Some m))] else []) ++
    [("x", FNum (Some x)); ("y", FNum (Some y)); ("width", FNum (Some w)); ("height", FNum (Some h));
     ("wireId", FStr (num_to_string v))]).
  { unfold invalidation_tokens. rewrite !foldl_app. cbn [foldl].
    change (add_token [] "invalidatetiles:") with (@nil (string * field)).
    rewrite (add_int _ _ "part=" "part") by reflexivity.
    case_bool; cbn [foldl]; rewrite ?(add_int _ _ "mode=" "mode") by reflexivity;
      rewrite (add_int _ _ "x=" "x"), (add_int _ _ "y=" "y"), (add_int _ _ "width=" "width"),
        (add_int _ _ "height=" "height"), add_wid by reflexivity; reflexivity. }
  rewrite E. unfold truthy_num. destruct (0 <? m), (bool_decide _); reflexivity.
Qed.

Lemma server_invalidation_payload p m x y w h v :
  starts_with (str_drop (S (String.length "invalidatetiles:")) (server_invalidation p m x y w h v)) "EMPTY"
  = false.
Proof.
  unfold server_invalidation, invalidation_tokens, join, print_field.
  case_bool; reflexivity.
Qed.
End spec.

(** The tile of [c] shows part of the area, borders included: both are compared on
    the document, a pixel of the tile being [W * d / (T * n)] twips wide, where [n / d]
    is the factor of the tile's zoom. *)
Definition touches (l : layout) (p m x y w h : Z) (c : coord) : Prop :=
  let '(n, d) := zoomToFactor l (cz c) in
  let T := ltileSize l in
  cpart c = p /\ cmode c = m /\
  cx c * optTileWidthTwips l * d <= (x + w) * T * n /\
  x * T * n <= (cx c + T) * optTileWidthTwips l * d /\
  cy c * optTileHeightTwips l * d <= (y + h) * T * n /\
  y * T * n <= (cy c + T) * optTileHeightTwips l * d.

Record layout_ok (l : layout) : Prop := {
  layout_tile : 0 < ltileSize l;
  layout_width : 0 <= optTileWidthTwips l;
  layout_height : 0 <= optTileHeightTwips l
}.

Lemma zoomToFactor_pos l z : 0 < (zoomToFactor l z).1 /\ 0 < (zoomToFactor l z).2.
Proof. unfold zoomToFactor. case_bool; simpl; split; apply Z.pow_pos_nonneg; lia. Qed.

Lemma is_hit_touches l p m x y w h wid c :
  layout_ok l -> 0 <= w -> 0 <= h ->
  is_hit l (Invalidation (Some x) (Some y) (Some w) (Some h) (Some p) (Some m) wid) c = true <->
  touches l p m x y w h c.
Proof.
  intros [HT HW HH] Hw Hh. pose proof (zoomToFactor_pos l (cz c)) as [Hn Hd].
  unfold is_hit, touches, invalidBounds, unit, coordsToTileBounds.
  cbn [iv_x iv_y iv_width iv_height iv_part iv_mode num_eqb].
  destruct (zoomToFactor l (cz c)) as [n d]. cbn [fst snd] in *.
  unfold intersects, scale_bounds, scale_point, mk_bounds, bounds_extend, point_add. cbn [bmin bmax px py].
  assert (0 <= w * (ltileSize l * n)) by nia. assert (0 <= h * (ltileSize l * n)) by nia.
  assert (0 <= optTileWidthTwips l * ltileSize l * d) by nia.
  assert (0 <= optTileHeightTwips l * ltileSize l * d) by nia.
  rewrite !andb_true_iff, !Z.eqb_eq, !Z.leb_le. split; intros; destruct_and?; split_and?; nia.
Qed.

(** C5: The invalidation of an area, as the server words it: every stored tile of the
    part and mode that shows some of the area is dropped when it has no content and
    otherwise invalid from the message's wire id on; no other tile changes; the
    store stays well-formed and the timer for the previews runs.  The part is 0 in a text
    document; the mode is that of the message where it has one, and where it has none - the
    server leaves mode 0 out - the one the client has selected, so that an invalidation of mode
    0 hits the tiles of another mode while that is selected ([invalidation_loses_mode_zero]). *)
Theorem invalidation_exact zoomOf l p m x y w h v s :
  store_ok (tstore (ist s)) -> layout_ok l -> 0 <= w -> 0 <= h ->
  let part := if bool_decide (kind l = WriterLayer) then 0 else p in
  let mode := if 0 <? m then m else lselectedMode l in
  exists s', onMessage_invalidatetiles zoomOf l (server_invalidation p m x y w h v) s = Some s' /\
    store_ok (tstore (ist s')) /\ previewInvalidator s' = true /\
    (forall k, obj_get k (tiles (tstore (ist s))) = None -> obj_get k (tiles (tstore (ist s'))) = None) /\
    forall k t, obj_get k (tiles (tstore (ist s))) = Some t ->
      (touches l part mode x y w h (coords t) ->
       obj_get k (tiles (tstore (ist s'))) =
         if hasContent (data t)
         then Some (set_invalidFrom (Some v) (set_stats (incr_invalidateCount (tstats t)) t))
         else None) /\
      (~ touches l part mode x y w h (coords t) -> obj_get k (tiles (tstore (ist s'))) = Some t).
Proof.
  intros Hok Hl Hw Hh part mode. unfold onMessage_invalidatetiles. rewrite server_invalidation_payload.
  unfold onInvalidateTilesMsg. rewrite parse_server_invalidation. cbv zeta. eexists. split; [done|].
  cbn [ist previewInvalidator]. fold part mode.
  set (iv := Invalidation _ _ _ _ _ _ _).
  set (s1 := with_ist (fun s => set_tstore (invalidate_tiles l iv (tstore s)) s) s).
  assert (E : tstore (ist (if bool_decide (kind l = ImpressLayer) then impress_part l iv s1 else s1))
              = invalidate_tiles l iv (tstore (ist s))).
  { case_bool_decide; [|done]. unfold impress_part. cbv zeta. by repeat case_bool. }
  rewrite E. split_and!; [by apply invalidate_tiles_ok|done| |].
  - intros k Hk. by rewrite invalidate_tiles_get, Hk by apply Hok.
  - intros k t Hk. rewrite invalidate_tiles_get, Hk by apply Hok. cbn [mbind option_bind].
    rewrite <- (is_hit_touches l part mode x y w h (Some (num_to_string v))) by done. fold iv.
    split; intros Ht; [|by destruct (is_hit l iv (coords t))].
    rewrite Ht. unfold invalidated. destruct (hasContent (data t)); cbn [negb]; [|done].
    subst iv. cbn [iv_wid]. by rewrite num_to_string_nonempty, to_number_num_to_string.
Qed.

(** The server leaves the mode out where it is 0, and the client takes its own
    mode for a missing one: while a presentation shows its master pages (mode 1),
    an invalidation of the slides themselves leaves all their tiles as they are. *)
Theorem invalidation_loses_mode_zero zoomOf l p x y w h v s :
  kind l = ImpressLayer -> lselectedMode l <> 0 -> store_ok (tstore (ist s)) ->
  exists s', onMessage_invalidatetiles zoomOf l (server_invalidation p 0 x y w h v) s = Some s' /\
    forall k t, obj_get k (tiles (tstore (ist s))) = Some t -> cmode (coords t) = 0 ->
      obj_get k (tiles (tstore (ist s'))) = Some t.
Proof.
  intros Hk Hm Hok. unfold onMessage_invalidatetiles. rewrite server_invalidation_payload.
  unfold onInvalidateTilesMsg. rewrite parse_server_invalidation. cbv zeta. eexists. split; [done|].
  intros k t Ht Hmode. rewrite (bool_decide_eq_true_2 (kind l = ImpressLayer)) by done.
  set (iv := Invalidation _ _ _ _ _ _ _). cbn [ist].
  set (s1 := with_ist (fun s => set_tstore (invalidate_tiles l iv (tstore s)) s) s).
  assert (E : tstore (ist (impress_part l iv s1)) = invalidate_tiles l iv (tstore (ist s))).
  { unfold impress_part. cbv zeta. by repeat case_bool. }
  rewrite E, invalidate_tiles_get, Ht by apply Hok. cbn [mbind option_bind].
  assert (is_hit l iv (coords t) = false) as ->; [|done].
  unfold is_hit. subst iv. cbn [iv_mode iv_part]. simpl. rewrite Hmode.
  destruct (Z.eqb_spec 0 (lselectedMode l)); [done|]. by rewrite andb_false_r.
Qed.

(** ** [EMPTY] payloads *)

Lemma space_commas_app s t : space_commas (s +:+ t) = space_commas s +:+ space_commas t.
Proof. induction s as [|c s IH]; [done|]. str_simpl. simpl. by rewrite IH, str_app_assoc. Qed.

Lemma space_commas_none s : no_char ","%char s = true -> space_commas s = s.
Proof.
  unfold no_char. induction s as [|c s IH]; simpl; [done|]. intros [->%negb_true_iff Hs]%andb_true_iff.
  by rewrite IH.
Qed.

Lemma split_tokens_app2 s t :
  str_forall (fun c => negb (is_sep c)) s = true -> starts_sep t = false ->
  split_tokens (s +:+ String " " (String " " t)) = s :: split_tokens t.
Proof.
  intros Hs Ht. induction s as [|c s IH]; simpl in *; str_simpl; simpl; [by rewrite Ht|].
  apply andb_true_iff in Hs as [->%negb_true_iff Hs]. by rewrite IH.
Qed.

(** The payload the kit sends for a whole part, and the one of the protocol's
    documentation, with a comma before the wire id. *)
Definition empty_payload (p m v : Z) : string :=
  "EMPTY, " +:+ num_to_string p +:+ ", " +:+ num_to_string m +:+ " wid=" +:+ num_to_string v.
Definition documented_payload (p m v : Z) : string :=
  "EMPTY, " +:+ num_to_string p +:+ ", " +:+ num_to_string m +:+ ", wid=" +:+ num_to_string v.

Lemma num_starts_sep n s : starts_sep (num_to_string n +:+ s) = false.
Proof.
  apply token_ok_starts. unfold token_ok. rewrite num_to_string_nonempty. apply num_to_string_no_sep_char.
Qed.

Lemma num_no_comma n : no_char ","%char (num_to_string n) = true.
Proof. apply num_to_string_no_sep. left. by vm_compute. Qed.

Lemma space_commas_num n : space_commas (num_to_string n) = num_to_string n.
Proof. apply space_commas_none, num_no_comma. Qed.

(** Numbers after commas, as the payload has them once the commas have spaces. *)
Lemma split_comma_num n s :
  starts_sep s = false ->
  split_tokens (" ,  " +:+ num_to_string n +:+ String " " s) = "" :: "," :: num_to_string n :: split_tokens s.
Proof.
  intros Hs.
  change (" ,  " +:+ num_to_string n +:+ String " " s)
    with (String " " ("," +:+ String " " (String " " (num_to_string n +:+ String " " s)))).
  transitivity ("" :: split_tokens ("," +:+ String " " (String " " (num_to_string n +:+ String " " s)))).
  { reflexivity. }
  rewrite split_tokens_app2 by (done || apply num_starts_sep).
  by rewrite split_tokens_app by (done || apply num_to_string_no_sep_char).
Qed.

Lemma payload_tokens p m v (sep : string) :
  sep = " wid=" \/ sep = ", wid=" ->
  split_tokens (space_commas (str_drop 5 ("EMPTY, " +:+ num_to_string p +:+ ", " +:+ num_to_string m +:+
                                          sep +:+ num_to_string v)))
  = [""; ","; num_to_string p; ","; num_to_string m] ++
    (if String.eqb sep " wid=" then [] else [","]) ++ ["wid=" +:+ num_to_string v].
Proof.
  intros Hsep.
  change (str_drop 5 _) with (", " +:+ num_to_string p +:+ ", " +:+ num_to_string m +:+
                              sep +:+ num_to_string v).
  rewrite !space_commas_app, !space_commas_num.
  change (space_commas ", ") with (" ,  ").
  assert (Hw : str_forall (fun c => negb (is_sep c)) ("wid=" +:+ num_to_string v) = true)
    by (rewrite str_forall_app; apply num_to_string_no_sep_char).
  assert (Hm : forall s, starts_sep s = false ->
     split_tokens (" ,  " +:+ num_to_string p +:+ " ,  " +:+ num_to_string m +:+ String " " s)
     = "" :: "," :: num_to_string p :: "," :: num_to_string m :: split_tokens s).
  { intros s Hs.
    change (" ,  " +:+ num_to_string p +:+ " ,  " +:+ num_to_string m +:+ String " " s)
      with (" ,  " +:+ num_to_string p +:+ String " " ("," +:+ String " " (String " " (num_to_string m +:+ String " " s)))).
    rewrite split_comma_num by done. rewrite split_tokens_app2 by (done || apply num_starts_sep).
    by rewrite split_tokens_app by (done || apply num_to_string_no_sep_char). }
  destruct Hsep as [-> | ->].
  - change (space_commas " wid=" +:+ num_to_string v) with (String " " ("wid=" +:+ num_to_string v)).
    rewrite Hm by done. by rewrite split_tokens_single.
  - change (space_commas ", wid=" +:+ num_to_string v)
      with (String " " ("," +:+ String " " (String " " ("wid=" +:+ num_to_string v)))).
    rewrite Hm by done. rewrite split_tokens_app2 by done. by rewrite split_tokens_single.
Qed.

Lemma num_not_comma n : String.eqb (num_to_string n) "," = false.
Proof.
  apply String.eqb_neq. intros E. pose proof (num_no_comma n) as H. rewrite E in H. done.
Qed.

(** The invalidation of a whole part, as the server words it, is handled as the
    invalidation of the area of the whole document; as the protocol's document
    words it, with a comma before the wire id, the wire id is taken for a third
    argument and lost. *)
Theorem expand_empty_server l sel p m v :
  kind l <> WriterLayer -> 0 <= m ->
  expand_empty l sel (empty_payload p m v)
  = server_invalidation p m 0 0 (ldocWidthTwips l) (ldocHeightTwips l) v /\
  expand_empty l sel (documented_payload p m v) +:+ " wid=" +:+ num_to_string v
  = server_invalidation p m 0 0 (ldocWidthTwips l) (ldocHeightTwips l) v.
Proof.
  intros Hk Hm. unfold expand_empty, empty_payload, documented_payload. rewrite !payload_tokens by auto.
  change (String.eqb " wid=" " wid=") with true. change (String.eqb ", wid=" " wid=") with false.
  cbn [app empty_args]. rewrite !num_not_comma. cbn [String.eqb Ascii.eqb Bool.eqb app].
  change (starts_with "" "wid=") with false. cbv iota. change (String.eqb "" ",") with false. cbv iota.
  change (String.eqb "," ",") with true. cbv iota.
  change (String.eqb ("wid=" +:+ num_to_string v) ",") with false. cbv iota.
  change (starts_with ("wid=" +:+ num_to_string v) "wid=") with true. cbv iota.
  rewrite (bool_decide_eq_false_2 (kind l = WriterLayer)) by done. cbn [lookup list_lookup].
  cbn. rewrite !parse_int_num_to_string. cbn [default].
  unfold server_invalidation, invalidation_tokens, print_field, id.
  destruct (Z.eqb_spec m 0), (Z.ltb_spec 0 m); try lia; subst; split;
    unfold join; cbn [negb app String.concat Z.eqb]; str_simpl; reflexivity.
Qed.

(** ** Witnesses *)

Definition sample_layout : layout := Layout ImpressLayer 256 3840 3840 10 0 28000 21000.

Definition content_tile (c : coord) : tile :=
  set_wireId (Some 3) (set_data (Content None (Some [0]) (Some [])) (new_tile c (Some 0))).

Definition near : coord := Coord 0 0 10 0 0.
Definition far : coord := Coord 512 512 10 0 0.

Definition sample_layer : inval_state :=
  InvalState
    (set_tstore (Store [(key near, content_tile near); (key far, content_tile far)] 0 0) sample_state)
    [] false (Some 0) [].

Lemma sample_layer_ok : store_ok (tstore (ist sample_layer)).
Proof.
  split.
  - apply (bool_decide_unpack _). by vm_compute.
  - intros k t. simpl. intros H. repeat (case_match; [simplify_eq; by apply String.eqb_eq|]). done.
  - vm_compute. split; discriminate.
Qed.

Lemma sample_layout_ok : layout_ok sample_layout.
Proof. by constructor. Qed.

Lemma invalidation_exact_witness :
  exists s', onMessage_invalidatetiles None sample_layout (server_invalidation 0 0 100 100 500 500 7) sample_layer
             = Some s' /\
    (needsFetch <$> obj_get (key near) (tiles (tstore (ist s')))) = Some true /\
    (needsFetch <$> obj_get (key far) (tiles (tstore (ist s')))) = Some false.
Proof.
  destruct (invalidation_exact None sample_layout 0 0 100 100 500 500 7 sample_layer sample_layer_ok
              sample_layout_ok ltac:(lia) ltac:(lia)) as (s' & H & _ & _ & _ & Hk).
  exists s'. split; [exact H|]. split.
  - destruct (Hk (key near) (content_tile near) eq_refl) as [H1 _]. rewrite H1; [done|]. by vm_compute.
  - destruct (Hk (key far) (content_tile far) eq_refl) as [_ H1]. rewrite H1; [done|].
    intros (_ & _ & H2 & _). vm_compute in H2. by apply H2.
Defined.

Lemma invalidation_loses_mode_zero_witness :
  exists s', onMessage_invalidatetiles None (Layout ImpressLayer 256 3840 3840 10 1 28000 21000)
               (server_invalidation 0 0 100 100 500 500 7) sample_layer = Some s' /\
    obj_get (key near) (tiles (tstore (ist s'))) = Some (content_tile near).
Proof.
  destruct (invalidation_loses_mode_zero None (Layout ImpressLayer 256 3840 3840 10 1 28000 21000)
    0 100 100 500 500 7 sample_layer eq_refl ltac:(discriminate) sample_layer_ok) as (s' & H & Hk).
  exists s'. split; [exact H|]. by apply Hk.
Defined.

Lemma expand_empty_server_witness :
  expand_empty sample_layout 0 (empty_payload 2 0 9)
  = "invalidatetiles: part=2 x=0 y=0 width=28000 height=21000 wid=9".
Proof.
  edestruct (expand_empty_server sample_layout 0 2 0 9) as [H _]; [discriminate|lia|].
  rewrite H. by vm_compute.
Defined.
