(* ===== verification/TextInput.v ===== *)
(** * Typing: the hidden text area and what it tells the server

    Characters are typed into a hidden editable area; after each event its
    content is compared with the content before, and the difference is sent.
    Models [_onInput], [_sendNewText], [_sendText], [_sendCompositionEvent],
    [_sendKeyEvent], [_sendNewlineEvent], [_removeTextContent], [_emptyArea],
    [_onKeyDown], [_onCompositionEnd], [_onBeforeInput], [_handleMentionInput] and
    the conversions of src/browser/src/layer/marker/TextInput.js, without
    accessibility support ([hasAccessibilitySupport] is false there).  A text is a
    list of UTF-16 code units. *)

From S2P Require Import Prelude JsText.
Local Open Scope Z_scope.

(** ** Conversions *)

(** [codePointsToString] *)
Definition units_of (c : Z) : list Z :=
  if c <=? 65535 then [c]
  else [Z.shiftr (c - 65536) 10 + 55296; (c - 65536) mod 1024 + 56320].

Definition codePointsToString (codePoints : list Z) : list Z := codePoints ≫= units_of.

(** [getValueAsCodePoints]: [charCodeAt] of every position. *)
Definition getValueAsCodePoints (value : list Z) : list Z := value.

Definition is_high (u : Z) : bool := (55296 <=? u) && (u <=? 56319).
Definition is_low (u : Z) : bool := (56320 <=? u) && (u <=? 57343).

(** The code points of a text; [None]: a surrogate without its partner. *)
Fixpoint code_points (s : list Z) : option (list Z) :=
  match s with
  | [] => Some []
  | u :: s' =>
      if is_high u then
        match s' with
        | v :: s'' =>
            if is_low v then cons ((u - 55296) * 1024 + (v - 56320) + 65536) <$> code_points s'' else None
        | [] => None
        end
      else if is_low u then None
      else cons u <$> code_points s'
  end.

Definition utf8 (c : Z) : list Z :=
  if c <? 128 then [c]
  else if c <? 2048 then [192 + c / 64; 128 + c mod 64]
  else if c <? 65536 then [224 + c / 4096; 128 + c / 64 mod 64; 128 + c mod 64]
  else [240 + c / 262144; 128 + c / 4096 mod 64; 128 + c / 64 mod 64; 128 + c mod 64].

Definition hex_upper (d : Z) : ascii := chr (if d <? 10 then 48 + d else 55 + d).

(** The characters [encodeURIComponent] leaves: letters, digits and [-_.!~*'()]. *)
Definition is_unreserved (c : Z) : bool :=
  ((48 <=? c) && (c <=? 57)) || ((65 <=? c) && (c <=? 90)) || ((97 <=? c) && (c <=? 122)) ||
  bool_decide (c ∈ [45; 95; 46; 33; 126; 42; 39; 40; 41]).

Definition encode_point (c : Z) : string :=
  if is_unreserved c then String (chr c) ""
  else foldr (fun b s => "%" +:+ String (hex_upper (b / 16)) (String (hex_upper (b mod 16)) s)) "" (utf8 c).

(** [encodeURIComponent]; [None]: a [URIError]. *)
Definition encodeURIComponent (s : list Z) : option string :=
  (fun cs => foldr (fun c t => encode_point c +:+ t) "" cs) <$> code_points s.

(** ** Commands *)

Inductive cmd :=
  | RemoveText (before after : Z)
  | TextCmd (text : list Z)
  | KeyCmd (up : bool) (charCode unoKeyCode : Z).

Record settings := Settings {
  mobileOrTablet : bool;
  isDesktop : bool;
  isGecko : bool;
  isSpreadsheet : bool;
  isTextDoc : bool;
  editorHasFocus : bool;
  formulaBarHasFocus : bool;
  winId : Z
}.

Definition newline : string := String "010"%char "".

Definition print_cmd (c : settings) (x : cmd) : string :=
  match x with
  | RemoveText before after =>
      "removetextcontext id=" +:+ num_to_string (winId c) +:+ " before=" +:+ num_to_string before +:+
      " after=" +:+ num_to_string after
  | TextCmd text =>
      "textinput id=" +:+ num_to_string (winId c) +:+ " text=" +:+ default "" (encodeURIComponent text)
  | KeyCmd up char key =>
      let type := if up then "up" else "input" in
      if editorHasFocus c || formulaBarHasFocus c then
        "key type=" +:+ type +:+ " char=" +:+ num_to_string char +:+ " key=" +:+ num_to_string key +:+ newline
      else
        "windowkey id=" +:+ num_to_string (winId c) +:+ " type=" +:+ type +:+ " char=" +:+ num_to_string char +:+
        " key=" +:+ num_to_string key +:+ newline
  end.

(** [_autoCorrectChars]: the codes for the key down and the key up. *)
Definition autoCorrectChars : list (Z * (Z * Z * Z * Z)) :=
  [(32, (32, 0, 0, 1284)); (33, (33, 0, 0, 4353)); (34, (34, 0, 0, 4353)); (37, (37, 0, 0, 4357));
   (39, (39, 0, 0, 192)); (42, (42, 0, 0, 4360)); (44, (44, 0, 0, 1291)); (45, (45, 0, 0, 1288));
   (46, (46, 0, 0, 190)); (47, (47, 0, 0, 191)); (58, (58, 0, 0, 5413)); (59, (59, 0, 0, 1317));
   (63, (63, 0, 0, 4287)); (95, (95, 0, 0, 5384))].

Fixpoint assoc {A} (k : Z) (l : list (Z * A)) : option A :=
  match l with [] => None | (k', v) :: l' => if k' =? k then Some v else assoc k l' end.

(** ** State *)

Inductive hint := NoHint | DeleteHint | BackspaceHint.

#[export] Instance hint_eq_dec : EqDecision hint.
Proof. solve_decision. Defined.

(** [out] is what was sent; [cleared]: the area was emptied; [threw]: an exception
    ended the handler. *)
Record input := Input {
  lastContent : list Z;
  deleteHint : hint;
  newlineHint : bool;
  linebreakHint : bool;
  ignoreNextBackspace : bool;
  typingMention : bool;
  mentionText : list (option (list Z));
  fired : list string;
  out : list cmd;
  cleared : bool;
  threw : bool
}.

Definition emit (l : list cmd) (s : input) : input :=
  Input (lastContent s) (deleteHint s) (newlineHint s) (linebreakHint s) (ignoreNextBackspace s)
    (typingMention s) (mentionText s) (fired s) (out s ++ l) (cleared s) (threw s).
Definition set_lastContent (c : list Z) (s : input) : input :=
  Input c (deleteHint s) (newlineHint s) (linebreakHint s) (ignoreNextBackspace s)
    (typingMention s) (mentionText s) (fired s) (out s) (cleared s) (threw s).
Definition set_hints (d : hint) (n l : bool) (s : input) : input :=
  Input (lastContent s) d n l (ignoreNextBackspace s)
    (typingMention s) (mentionText s) (fired s) (out s) (cleared s) (threw s).
Definition set_ignore (b : bool) (s : input) : input :=
  Input (lastContent s) (deleteHint s) (newlineHint s) (linebreakHint s) b
    (typingMention s) (mentionText s) (fired s) (out s) (cleared s) (threw s).
Definition set_mention (b : bool) (m : list (option (list Z))) (s : input) : input :=
  Input (lastContent s) (deleteHint s) (newlineHint s) (linebreakHint s) (ignoreNextBackspace s)
    b m (fired s) (out s) (cleared s) (threw s).
Definition fire (x : string) (s : input) : input :=
  Input (lastContent s) (deleteHint s) (newlineHint s) (linebreakHint s) (ignoreNextBackspace s)
    (typingMention s) (mentionText s) (fired s ++ [x]) (out s) (cleared s) (threw s).
Definition throw (s : input) : input :=
  Input (lastContent s) (deleteHint s) (newlineHint s) (linebreakHint s) (ignoreNextBackspace s)
    (typingMention s) (mentionText s) (fired s) (out s) (cleared s) true.

(** [_emptyArea] *)
Definition emptyArea (s : input) : input :=
  Input [] (deleteHint s) (newlineHint s) (linebreakHint s) (ignoreNextBackspace s)
    (typingMention s) (mentionText s) (fired s) (out s) true (threw s).

(** ** Sending *)

Definition removeTextContent (before after : Z) (s : input) : input := emit [RemoveText before after] s.

Definition sendNewlineEvent (s : input) : input :=
  let unoKeyCode := if linebreakHint s then 5376 else 1280 in
  emptyArea (set_hints (deleteHint s) false (linebreakHint s) (emit [KeyCmd false 13 unoKeyCode] s)).

Section handlers.
Context (c : settings).

Definition sendCompositionEvent (text : list Z) (s : input) : input :=
  match (if mobileOrTablet c then None else match text with [u] => assoc u autoCorrectChars | _ => None end) with
  | Some (c0, c1, c2, c3) => emit [KeyCmd false c0 c1; KeyCmd true c2 c3] s
  | None =>
      match encodeURIComponent text with
      | Some _ => emit [TextCmd text] s
      | None => throw s
      end
  end.

(** [text.split (/[\n\r]/)] *)
Definition is_break (u : Z) : bool := (u =? 10) || (u =? 13).

Fixpoint split_breaks (s : list Z) : list (list Z) :=
  match s with
  | [] => [[]]
  | u :: s' =>
      if is_break u then [] :: split_breaks s'
      else match split_breaks s' with [] => [[u]] | h :: t => (u :: h) :: t end
  end.

Definition send_part (p : list Z) (s : input) : input :=
  match p with [] => s | _ :: _ => sendCompositionEvent p s end.

(** The parts after the first, each behind a line break. *)
Fixpoint send_rest (parts : list (list Z)) (s : input) : input :=
  match parts with
  | [] => s
  | p :: parts' =>
      if threw s then s
      else send_rest parts' (send_part p (emptyArea (emit [KeyCmd false 13 1280] s)))
  end.

Definition sendText (text : list Z) (s : input) : input :=
  if bool_decide (text = [10]) || bool_decide (text = [13]) then sendNewlineEvent s
  else
    match split_breaks text with
    | [] => s
    | p :: parts => send_rest parts (send_part p s)
    end.

Definition is_digit (u : Z) : bool := (48 <=? u) && (u <=? 57).

(** The kind of an input event: its [inputType] and its [data]. *)
Inductive input_type := NoType | InsertText | DeleteForward | DeleteBackward | OtherType.

#[export] Instance input_type_eq_dec : EqDecision input_type.
Proof. solve_decision. Defined.

Record input_event := InputEvent { inputType : input_type; ev_data : option (list Z) }.

Definition sendNewText (ev : input_event) (content newText : list Z) (s : input) : input :=
  match newText with
  | [u] =>
      if isSpreadsheet c && (length content =? 1)%nat && bool_decide (inputType ev = InsertText)
         && is_digit u && isDesktop c
      then emit [KeyCmd false u (u + 48)] s
      else sendText (codePointsToString newText) s
  | _ => sendText (codePointsToString newText) s
  end.

(** [/^[0-9a-zA-Z ]+$/] *)
Definition is_mention_char (u : Z) : bool :=
  is_digit u || ((65 <=? u) && (u <=? 90)) || ((97 <=? u) && (u <=? 122)) || (u =? 32).

Definition mention_matches (d : option (list Z)) : bool :=
  match d with Some (u :: l) => forallb is_mention_char (u :: l) | _ => false end.

Definition data_of (ev : input_event) : list Z := default [] (ev_data ev).

Definition handleMentionInput (ev : input_event) (removeBefore : Z) (s : input) : input :=
  let s :=
    if typingMention s then
      if 0 <? removeBefore then
        let ch := List.last (mentionText s) None in
        let s := set_mention true (removelast (mentionText s)) s in
        if bool_decide (ch = Some [64]) then fire "closementionpopup" s else fire "sendmentiontext" s
      else if removeBefore =? 0 then
        let s := set_mention true (mentionText s ++ [ev_data ev]) s in
        if mention_matches (ev_data ev) then fire "sendmentiontext" s else fire "closementionpopup" s
      else s
    else s in
  if bool_decide (ev_data ev = Some [64]) && isTextDoc c
  then set_mention true (mentionText s ++ [Some [64]]) s else s.

Definition finishFormulabarEditing (content : list Z) (matchTo : nat) (s : input) : input :=
  if formulaBarHasFocus c && negb (length content =? 0)%nat then
    match codePointsToString content !! matchTo with
    | Some u => if (u =? 10) || (u =? 13) then fire "acceptformula" s else s
    | None => s
    end
  else s.

(** ** Events *)

(** The area when an event comes: whether the spaces at its ends are still there,
    and the text between them. *)
Record area := Area { hasPreSpace : bool; hasPostSpace : bool; value : list Z }.

Fixpoint match_length (a b : list Z) : nat :=
  match a, b with
  | x :: a', y :: b' => if x =? y then S (match_length a' b') else 0
  | _, _ => 0
  end.

(** From the comparison on. *)
Definition input_difference (ev : input_event) (content : list Z) (s : input) : input :=
  let last := lastContent s in
  let matchTo := match_length content last in
  let forward := (length content <? length last)%nat && bool_decide (deleteHint s = DeleteHint) in
  let removeBefore := Z.of_nat (length last) - Z.of_nat matchTo - (if forward then 1 else 0) in
  let removeAfter := if forward then 1 else 0 in
  let s := if (0 <? removeBefore) || (0 <? removeAfter)
           then removeTextContent removeBefore removeAfter s else s in
  let newText := drop matchTo content in
  let s := set_lastContent content s in
  let s := match newText with [] => s | _ :: _ => sendNewText ev content newText s end in
  if threw s then s
  else
    let s := if 0 <? removeAfter then emptyArea s else s in
    handleMentionInput ev removeBefore (finishFormulabarEditing content matchTo s).

Definition hint_of (ev : input_event) (h : hint) : hint :=
  match h, inputType ev with
  | NoHint, DeleteForward => DeleteHint
  | NoHint, DeleteBackward => BackspaceHint
  | _, _ => h
  end.

(** [_onInput]; the events [_emptyArea] itself causes are ignored. *)
Definition onInput (ev : input_event) (a : area) (s : input) : input :=
  let s := set_hints (hint_of ev (deleteHint s)) (newlineHint s) (linebreakHint s) s in
  let ignoreBackspace := ignoreNextBackspace s in
  let s := set_ignore false s in
  if newlineHint s then sendNewlineEvent s
  else if negb (hasPreSpace a) then
    emptyArea (if ignoreBackspace then s else removeTextContent 1 0 s)
  else if negb (hasPostSpace a) then emptyArea (removeTextContent 0 1 s)
  else input_difference ev (getValueAsCodePoints (value a)) s.

(** [_onKeyDown]: the hints. *)
Definition onKeyDown (keyCode : Z) (shiftKey : bool) (s : input) : input :=
  set_hints (if keyCode =? 8 then BackspaceHint else if keyCode =? 46 then DeleteHint else NoHint)
    (keyCode =? 13) ((keyCode =? 13) && shiftKey) s.

(** [_onCompositionEnd] *)
Definition onCompositionEnd (ev : input_event) (a : area) (s : input) : input :=
  let s := if match List.last (data_of ev) 0 with 10 => true | _ => false end
           then set_hints (deleteHint s) true (linebreakHint s) s else s in
  onInput ev a s.

(** [_handleMisplacedCursorAtBeginning] *)
Definition handleMisplacedCursorAtBeginning (ev : input_event) (s : input) : input :=
  emptyArea (if bool_decide (inputType ev = DeleteBackward)
             then set_ignore true (removeTextContent 1 0 s) else s).

(** [_onBeforeInput], with what it asks about the selection. *)
Definition onBeforeInput (ev : input_event) (selectionValid initialContent cursorAtBeginning cursorAtEnd : bool)
    (s : input) : input :=
  let s := set_ignore false s in
  let s :=
    if negb selectionValid then emptyArea s
    else if initialContent && cursorAtBeginning then handleMisplacedCursorAtBeginning ev s
    else s in
  if isGecko c && cursorAtEnd && bool_decide (deleteHint s = DeleteHint)
  then emptyArea (removeTextContent 0 1 s) else s.

(** [_onKeyUp] with a key that moves the cursor, and [_abortComposition]. *)
Definition onNavigation (s : input) : input := emptyArea s.
End handlers.

(** ** What the server makes of the commands *)

(** The text before and behind the cursor of the document. *)
Definition edit : Type := list Z * list Z.

Definition apply_cmd (d : edit) (x : cmd) : edit :=
  match x with
  | RemoveText before after =>
      (take (length d.1 - Z.to_nat before) d.1, drop (Z.to_nat after) d.2)
  | TextCmd text => (d.1 ++ text, d.2)
  | KeyCmd true _ _ => d
  | KeyCmd false char _ => (d.1 ++ [if char =? 13 then 10 else char], d.2)
  end.

Definition apply_cmds (l : list cmd) (d : edit) : edit := foldl apply_cmd d l.

(** Line breaks of either kind are one character to the server. *)
Definition norm (s : list Z) : list Z := (fun u => if is_break u then 10 else u) <$> s.

(** Text without characters beyond the basic plane. *)
Definition plain (s : list Z) : Prop := Forall (fun u => 0 <= u <= 65535 /\ is_high u = false /\ is_low u = false) s.

Lemma code_points_plain s : plain s -> code_points s = Some s.
Proof.
  induction 1 as [|u s (_ & Hh & Hl) _ IH]; [done|]. simpl. by rewrite Hh, Hl, IH.
Qed.

Lemma codePointsToString_plain s : plain s -> codePointsToString s = s.
Proof.
  unfold codePointsToString. induction 1 as [|u s (Hu & _) _ IH]; [done|].
  rewrite bind_cons, IH. unfold units_of. by rewrite (proj2 (Z.leb_le u 65535)) by lia.
Qed.

Lemma norm_app a b : norm (a ++ b) = norm a ++ norm b.
Proof. apply fmap_app. Qed.

Lemma norm_no_break s : Forall (fun u => is_break u = false) s -> norm s = s.
Proof. induction 1 as [|u s Hu _ IH]; [done|]. unfold norm in *. csimpl. by rewrite Hu, IH. Qed.

Lemma assoc_elem {A} k (l : list (Z * A)) v : assoc k l = Some v -> (k, v) ∈ l.
Proof.
  induction l as [|[k' v'] l IH]; simpl; [done|]. destruct (Z.eqb_spec k' k) as [->|].
  - intros [= ->]. set_solver.
  - intros H. apply IH in H. set_solver.
Qed.

Definition same_char (e : Z * (Z * Z * Z * Z)) : bool :=
  let '(u, (c0, _, _, _)) := e in (c0 =? u) && negb (u =? 13).

Lemma autoCorrect_char u c0 c1 c2 c3 :
  assoc u autoCorrectChars = Some (c0, c1, c2, c3) -> c0 = u /\ u <> 13.
Proof.
  intros H%assoc_elem%list_elem_of_In.
  assert (Hall : forallb same_char autoCorrectChars = true) by by vm_compute.
  rewrite forallb_forall in Hall. specialize (Hall _ H). unfold same_char in Hall. to_prop. done.
Qed.

(** [s'] is [s] after commands that insert [t] before the cursor; the area's text
    is as it was, or emptied. *)
Definition inserts (t : list Z) (s s' : input) : Prop :=
  (exists l, out s' = out s ++ l /\ forall b a, apply_cmds l (b, a) = (b ++ norm t, a)) /\
  threw s' = threw s /\ deleteHint s' = deleteHint s /\ (cleared s = true -> cleared s' = true) /\
  (lastContent s' = lastContent s \/ (lastContent s' = [] /\ cleared s' = true)).

Lemma apply_cmds_app l k d : apply_cmds (l ++ k) d = apply_cmds k (apply_cmds l d).
Proof. apply foldl_app. Qed.

Lemma inserts_nil s : inserts [] s s.
Proof. split_and!; auto. exists []. rewrite app_nil_r. split; [done|]. intros b a. by rewrite app_nil_r. Qed.

Lemma inserts_trans t u s1 s2 s3 : inserts t s1 s2 -> inserts u s2 s3 -> inserts (t ++ u) s1 s3.
Proof.
  intros ((l & E1 & H1) & T1 & D1 & M1 & C1) ((k & E2 & H2) & T2 & D2 & M2 & C2).
  split_and!; [|congruence|congruence|auto|].
  - exists (l ++ k). rewrite E2, E1, (assoc_L (++)). split; [done|]. intros b a.
    by rewrite apply_cmds_app, H1, H2, norm_app, (assoc_L (++)).
  - destruct C2 as [C2|C2]; [|by right]. destruct C1 as [C1|[C1 C1']]; [left; congruence|].
    right. split; [congruence|auto].
Qed.

(** A key press that inserts one character. *)
Lemma inserts_key u key s : u <> 13 -> is_break u = false -> inserts [u] s (emit [KeyCmd false u key] s).
Proof.
  intros Hu Hb. split_and!; auto. eexists. split; [done|]. intros b a. simpl.
  rewrite Hb. by rewrite (proj2 (Z.eqb_neq u 13)).
Qed.

Lemma inserts_break key s : inserts [13] s (emptyArea (emit [KeyCmd false 13 key] s)).
Proof. split_and!; auto. eexists. split; [done|]. done. Qed.

Section sending.
Context (c : settings).

Lemma sendCompositionEvent_inserts p s :
  plain p -> Forall (fun u => is_break u = false) p -> inserts p s (sendCompositionEvent c p s).
Proof.
  intros Hp Hb. unfold sendCompositionEvent.
  destruct (if mobileOrTablet c then None else _) as [[[[c0 c1] c2] c3]|] eqn:E.
  - destruct (mobileOrTablet c); [done|]. destruct p as [|u [|]]; try done.
    apply autoCorrect_char in E as [-> Hu]. apply Forall_cons in Hb as [Hb _].
    split_and!; auto. eexists. split; [done|]. intros b a. simpl. rewrite Hb.
    by rewrite (proj2 (Z.eqb_neq u 13)).
  - unfold encodeURIComponent. rewrite code_points_plain by done. simpl.
    split_and!; auto. eexists. split; [done|]. intros b a. simpl. by rewrite norm_no_break.
Qed.

Lemma split_breaks_cons u s :
  exists p ps, split_breaks (u :: s) = p :: ps /\
    (if is_break u then p = [] /\ ps = split_breaks s
     else exists p', split_breaks s = p' :: ps /\ p = u :: p').
Proof.
  simpl. destruct (is_break u); [by eauto|]. destruct (split_breaks s) as [|p' ps] eqn:E; [|by eauto 6].
  exfalso. destruct s as [|v s]; simpl in E; [done|]. destruct (is_break v); [done|]. by case_match.
Qed.

(** The parts of a text and the breaks between them. *)
Fixpoint with_breaks (ps : list (list Z)) : list Z :=
  match ps with [] => [] | p :: ps' => 13 :: p ++ with_breaks ps' end.

Lemma split_breaks_spec s :
  plain s ->
  exists p ps, split_breaks s = p :: ps /\ norm s = norm (p ++ with_breaks ps) /\
    Forall (fun p => plain p /\ Forall (fun u => is_break u = false) p) (p :: ps).
Proof.
  induction 1 as [|u s Hu Hs IH].
  - exists [], []. split_and!; [done|done|]. repeat constructor.
  - destruct IH as (q & qs & E & Hn & Hf). destruct (split_breaks_cons u s) as (p & ps & -> & H).
    exists p, ps. split; [done|]. destruct (is_break u) eqn:Hb.
    + destruct H as [-> ->]. rewrite E. split.
      * change (norm (u :: s)) with ((if is_break u then 10 else u) :: norm s). rewrite Hb, Hn. done.
      * constructor; [split; constructor|done].
    + destruct H as (p' & E' & ->). rewrite E in E'. injection E' as -> ->.
      apply Forall_cons in Hf as [[Hp1 Hp2] Hf]. split.
      * change (norm (u :: s)) with ((if is_break u then 10 else u) :: norm s). rewrite Hn.
        simpl. unfold norm. csimpl. done.
      * constructor; [|done]. split; by constructor.
Qed.

Lemma send_part_inserts p s :
  plain p -> Forall (fun u => is_break u = false) p -> inserts p s (send_part c p s).
Proof. destruct p; [intros; apply inserts_nil|apply sendCompositionEvent_inserts]. Qed.

Lemma send_rest_inserts ps s :
  threw s = false -> Forall (fun p => plain p /\ Forall (fun u => is_break u = false) p) ps ->
  inserts (with_breaks ps) s (send_rest c ps s).
Proof.
  intros Ht Hf. revert s Ht. induction Hf as [|p ps [Hp Hb] _ IH]; intros s Ht; simpl; [apply inserts_nil|].
  rewrite Ht. pose proof (inserts_break 1280 s) as H1.
  pose proof (send_part_inserts p (emptyArea (emit [KeyCmd false 13 1280] s)) Hp Hb) as H2.
  pose proof (inserts_trans _ _ _ _ _ H1 H2) as H3.
  assert (Ht3 : threw (send_part c p (emptyArea (emit [KeyCmd false 13 1280] s))) = false).
  { destruct H3 as (_ & -> & _). done. }
  exact (inserts_trans _ _ _ _ _ H3 (IH _ Ht3)).
Qed.

Lemma sendText_inserts t s : plain t -> threw s = false -> inserts t s (sendText c t s).
Proof.
  intros Hp Ht. unfold sendText.
  destruct (_ || _) eqn:E.
  - assert (Hn : norm t = [10]) by (to_prop; apply orb_true_iff in E as [E|E]; to_prop; by subst).
    unfold sendNewlineEvent. split_and!; auto. eexists. split; [done|].
    intros b a. by rewrite Hn.
  - destruct (split_breaks_spec t Hp) as (p & ps & -> & Hn & Hf). apply Forall_cons in Hf as [[Hp1 Hp2] Hf].
    pose proof (send_part_inserts p s Hp1 Hp2) as H1.
    assert (Ht1 : threw (send_part c p s) = false) by (destruct H1 as (_ & -> & _); done).
    destruct (inserts_trans _ _ _ _ _ H1 (send_rest_inserts ps _ Ht1 Hf)) as ((l & El & Hl) & H').
    split; [|exact H']. exists l. split; [done|]. intros b a. by rewrite Hl, Hn.
Qed.

Lemma sendNewText_inserts ev content newText s :
  plain newText -> threw s = false -> inserts newText s (sendNewText c ev content newText s).
Proof.
  intros Hp Ht. unfold sendNewText. rewrite codePointsToString_plain by done.
  destruct newText as [|u [|v l]]; try by apply sendText_inserts.
  case_bool; [|by apply sendText_inserts]. unfold is_digit in *. to_prop.
  apply inserts_key; unfold is_break; lia.
Qed.
End sending.

(** ** One event *)

Lemma match_length_spec a b :
  take (match_length a b) a = take (match_length a b) b /\
  (match_length a b <= length a)%nat /\ (match_length a b <= length b)%nat.
Proof.
  revert b. induction a as [|x a IH]; intros [|y b]; simpl; try (split_and!; [done|lia|lia]).
  destruct (Z.eqb_spec x y) as [->|]; simpl; [|split_and!; [done|lia|lia]].
  destruct (IH b) as (E & ? & ?). rewrite E. split_and!; [done|lia|lia].
Qed.

Lemma match_length_app a l : match_length a (a ++ l) = length a.
Proof. induction a as [|x a IH]; simpl; [by destruct l|]. by rewrite Z.eqb_refl, IH. Qed.

(** The last steps of an event send nothing. *)
Lemma mention_frame c ev n content m s :
  let s' := handleMentionInput c ev n (finishFormulabarEditing c content m s) in
  out s' = out s /\ lastContent s' = lastContent s /\ threw s' = threw s /\ cleared s' = cleared s.
Proof.
  cbv zeta. set (s1 := finishFormulabarEditing c content m s).
  assert (E : out s1 = out s /\ lastContent s1 = lastContent s /\ threw s1 = threw s /\ cleared s1 = cleared s).
  { subst s1. unfold finishFormulabarEditing. case_bool; [|done].
    destruct (codePointsToString content !! m); [|done]. by case_bool. }
  destruct E as (<- & <- & <- & <-). unfold handleMentionInput. cbv zeta.
  destruct (bool_decide (ev_data ev = Some [64]) && isTextDoc c), (typingMention s1);
    repeat case_bool; done.
Qed.

(** What an event leaves: the commands of it, and the text it compares with next
    time, which is the area's text unless the area was emptied. *)
Definition event_sends (s s' : input) (d d' : edit) (content : list Z) : Prop :=
  (exists l, out s' = out s ++ l /\ apply_cmds l d = d') /\ threw s' = false /\
  (lastContent s' = content \/ (lastContent s' = [] /\ cleared s' = true)).

Section one_event.
Context (c : settings) (ev : input_event) (s : input).
Context (Hnl : newlineHint s = false) (Hthrew : threw s = false).

(** C6: Typing, composing, pasting, correcting and backspacing: when the text before
    the cursor of the document ends with the text the area had, the commands of
    the event make it end with the text the area has now; nothing else changes.  This is for
    an event that finds both guard spaces in the area and no hint of a line break set, whose
    text has no characters beyond the basic plane (for those see [surrogate_pairs_break]), and
    that is not a deletion forwards that makes the text shorter. *)
Theorem typing_reaches_server content pre post :
  plain content ->
  (length (lastContent s) <= length content)%nat \/ hint_of ev (deleteHint s) <> DeleteHint ->
  event_sends s (onInput c ev (Area true true content) s)
    (pre ++ norm (lastContent s), post) (pre ++ norm content, post) content.
Proof using Hnl Hthrew.
  intros Hp Hforward. unfold onInput. cbv zeta.
  set (s1 := set_ignore false _). assert (Hs1 : newlineHint s1 = false) by done. rewrite Hs1. cbn [negb hasPreSpace hasPostSpace value].
  unfold getValueAsCodePoints, input_difference. cbv zeta.
  set (k := match_length content (lastContent s1)).
  destruct (match_length_spec content (lastContent s1)) as (Ek & Hk1 & Hk2). fold k in Ek, Hk1, Hk2.
  change (lastContent s1) with (lastContent s) in *. change (deleteHint s1) with (hint_of ev (deleteHint s)).
  assert ((length content <? length (lastContent s))%nat && bool_decide (hint_of ev (deleteHint s) = DeleteHint)
          = false) as ->.
  { destruct Hforward as [?|Hne]; [by rewrite (proj2 (Nat.ltb_ge _ _))|].
    by rewrite (bool_decide_eq_false_2 _ Hne), andb_false_r. }
  rewrite Z.sub_0_r, orb_false_r.
  set (n := Z.of_nat (length (lastContent s)) - Z.of_nat k).
  set (s2 := if 0 <? n then removeTextContent n 0 s1 else s1).
  assert (H2 : exists l, out s2 = out s ++ l /\
     apply_cmds l (pre ++ norm (lastContent s), post) = (pre ++ norm (take k content), post)).
  { assert (E : take (length (pre ++ norm (lastContent s)) - Z.to_nat n) (pre ++ norm (lastContent s))
                = pre ++ norm (take k content)).
    { rewrite Ek. unfold norm. rewrite length_app, length_fmap.
      replace (length pre + length (lastContent s) - Z.to_nat n)%nat with (length pre + k)%nat by lia.
      rewrite take_app_add. by rewrite fmap_take. }
    subst s2. destruct (Z.ltb_spec 0 n).
    - eexists. split; [done|]. cbn [apply_cmds foldl apply_cmd fst snd]. by rewrite E.
    - exists []. split; [by rewrite app_nil_r|]. cbn [apply_cmds foldl]. f_equal. rewrite <- E.
      rewrite take_ge; [done|lia]. }
  assert (Ht2 : threw s2 = false) by (subst s2; by case_bool).
  set (s3 := set_lastContent content s2).
  set (s4 := match drop k content with [] => s3 | _ :: _ => sendNewText c ev content (drop k content) s3 end).
  assert (H4 : inserts (drop k content) s3 s4).
  { subst s4. destruct (drop k content) eqn:Ed; [apply inserts_nil|]. apply sendNewText_inserts; [|done].
    rewrite <- Ed. by apply Forall_drop. }
  destruct H4 as ((l4 & E4 & A4) & T4 & _ & _ & C4). destruct H2 as (l2 & E2 & A2).
  change (threw s3) with (threw s2) in T4. rewrite Ht2 in T4. rewrite T4. cbn [Z.ltb Z.compare].
  pose proof (mention_frame c ev n content k s4) as Hm. cbv zeta in Hm. destruct Hm as (M1 & M2 & M3 & M4).
  unfold event_sends. rewrite M1, M2, M3, M4. split_and!; [|done|exact C4].
  exists (l2 ++ l4). change (out s3) with (out s2) in E4. rewrite E4, E2, (assoc_L (++)). split; [done|].
  by rewrite apply_cmds_app, A2, A4, <- (assoc_L (++)), <- norm_app, take_drop.
Qed.

(** Deleting forward with the delete key: the last character of the area's text
    stands behind the cursor of the document, and that character is deleted. *)
Theorem forward_delete_reaches_server content u pre post :
  lastContent s = content ++ [u] -> hint_of ev (deleteHint s) = DeleteHint ->
  let s' := onInput c ev (Area true true content) s in
  event_sends s s' (pre ++ norm content, norm [u] ++ post) (pre ++ norm content, post) content /\
  cleared s' = true.
Proof using Hnl Hthrew.
  intros Hlast Hhint. cbv zeta. unfold onInput. cbv zeta.
  set (s1 := set_ignore false _). assert (Hs1 : newlineHint s1 = false) by done. rewrite Hs1. cbn [negb hasPreSpace hasPostSpace value].
  unfold getValueAsCodePoints, input_difference. cbv zeta.
  change (lastContent s1) with (lastContent s). change (deleteHint s1) with (hint_of ev (deleteHint s)).
  rewrite Hlast, Hhint, match_length_app, length_app. cbn [length].
  rewrite (proj2 (Nat.ltb_lt _ _)) by lia. rewrite (bool_decide_eq_true_2 (DeleteHint = DeleteHint)) by done.
  cbn [andb]. replace (Z.of_nat (length content + 1) - Z.of_nat (length content) - 1) with 0 by lia.
  cbn [Z.ltb Z.compare orb]. rewrite drop_all.
  set (s3 := set_lastContent content _). assert (Ht : threw s3 = false) by done. rewrite Ht.
  pose proof (mention_frame c ev 0 content (length content) (emptyArea s3)) as Hm. cbv zeta in Hm.
  destruct Hm as (M1 & M2 & M3 & M4). unfold event_sends. rewrite M1, M2, M3, M4.
  split; [|done]. split_and!; [|done|by right]. eexists. split; [done|].
  cbn. f_equal. rewrite Nat.sub_0_r. by rewrite firstn_all.
Qed.
End one_event.

(** A character beyond the basic plane is two entries of the list that is to hold
    code points: replacing it by one with the same first half removes one
    character and then fails, and deleting it removes two characters. *)
Theorem surrogate_pairs_break c ev h l l' pre s :
  newlineHint s = false -> threw s = false -> hint_of ev (deleteHint s) <> DeleteHint ->
  is_high h = true -> is_low l = true -> is_low l' = true -> l <> l' ->
  lastContent s = pre ++ [h; l] ->
  let replaced := onInput c ev (Area true true (pre ++ [h; l'])) s in
  let deleted := onInput c ev (Area true true pre) s in
  (out replaced = out s ++ [RemoveText 1 0] /\ threw replaced = true) /\
  out deleted = out s ++ [RemoveText 2 0].
Proof.
  intros Hnl Hthrew Hhint Hh Hl Hl' Hne Hlast. cbv zeta.
  assert (Hk : match_length (pre ++ [h; l']) (pre ++ [h; l]) = S (length pre)).
  { clear - Hne. induction pre as [|x pre IH]; simpl.
    - rewrite Z.eqb_refl. destruct (Z.eqb_spec l' l); [congruence|done].
    - by rewrite Z.eqb_refl, IH. }
  unfold onInput. cbv zeta. set (s1 := set_ignore false _). assert (Hs1 : newlineHint s1 = false) by done.
  rewrite Hs1. cbn [negb hasPreSpace hasPostSpace value]. unfold getValueAsCodePoints, input_difference. cbv zeta.
  change (lastContent s1) with (lastContent s). change (deleteHint s1) with (hint_of ev (deleteHint s)).
  rewrite Hlast, Hk, match_length_app, (bool_decide_eq_false_2 _ Hhint), !andb_false_r, !length_app. cbn [length].
  split.
  - replace (Z.of_nat (length pre + 2) - Z.of_nat (S (length pre)) - 0) with 1 by lia.
    cbn [Z.ltb Z.compare orb]. replace (drop (S (length pre)) (pre ++ [h; l'])) with [l'].
    2: { rewrite drop_app_ge by lia. by replace (S (length pre) - length pre)%nat with 1%nat by lia. }
    assert (Hn : forall s0, sendNewText c ev (pre ++ [h; l']) [l'] s0 = throw s0).
    { intros s0. unfold sendNewText. rewrite length_app, Nat.add_comm. cbn [length Nat.add Nat.eqb].
      rewrite andb_false_r. cbn [andb].
      assert (Hrange : 56320 <= l' <= 57343) by (unfold is_low in Hl'; to_prop; lia).
      unfold codePointsToString. rewrite bind_cons. cbn [mbind list_bind]. unfold units_of.
      rewrite (proj2 (Z.leb_le l' 65535)) by lia. cbn [app]. unfold sendText.
      rewrite !bool_decide_eq_false_2 by (intros [= ->]; lia). cbn [orb split_breaks].
      unfold is_break. rewrite !(proj2 (Z.eqb_neq l' _)) by lia. cbn [orb].
      cbn [send_part send_rest]. unfold sendCompositionEvent.
      assert (assoc l' autoCorrectChars = None) as ->.
      { unfold autoCorrectChars. cbn [assoc]. repeat rewrite (proj2 (Z.eqb_neq _ l')) by lia. done. }
      destruct (mobileOrTablet c); unfold encodeURIComponent; cbn [code_points];
        rewrite Hl'; unfold is_high; rewrite (proj2 (Z.leb_gt l' 56319)), andb_false_r by lia; done. }
    rewrite Hn. cbn [threw throw]. done.
  - replace (Z.of_nat (length pre + 2) - Z.of_nat (length pre) - 0) with 2 by lia.
    cbn [Z.ltb Z.compare orb]. rewrite drop_all. set (s3 := set_lastContent pre _).
    assert (Ht : threw s3 = false) by done. rewrite Ht.
    destruct (mention_frame c ev 2 pre (length pre) s3) as (M1 & _). by rewrite M1.
Qed.

(** ** Witnesses *)

Definition sample_settings : settings := Settings false true false false true true false 0.

Definition typed (last : list Z) (h : hint) : input := Input last h false false false false [] [] [] false false.

(** "ab cd" becomes "ab" with a line break and "x ". *)
Lemma typing_reaches_server_witness :
  event_sends (typed [97; 98; 32; 99; 100] NoHint)
    (onInput sample_settings (InputEvent InsertText None) (Area true true [97; 98; 10; 120; 32])
       (typed [97; 98; 32; 99; 100] NoHint))
    ([1; 97; 98; 32; 99; 100], [2]) ([1; 97; 98; 10; 120; 32], [2]) [97; 98; 10; 120; 32].
Proof.
  apply (typing_reaches_server sample_settings (InputEvent InsertText None) (typed [97; 98; 32; 99; 100] NoHint)
           eq_refl eq_refl [97; 98; 10; 120; 32] [1] [2]).
  - repeat constructor; simpl; lia.
  - simpl. lia.
Defined.

Lemma forward_delete_reaches_server_witness :
  cleared (onInput sample_settings (InputEvent DeleteForward None) (Area true true [97]) (typed [97; 98] NoHint))
  = true.
Proof.
  by apply (forward_delete_reaches_server sample_settings (InputEvent DeleteForward None) (typed [97; 98] NoHint)
    eq_refl eq_refl [97] 98 [] []).
Defined.

Lemma surrogate_pairs_break_witness :
  threw (onInput sample_settings (InputEvent InsertText None) (Area true true [97; 55357; 56833])
           (typed [97; 55357; 56832] NoHint)) = true.
Proof.
  by apply (surrogate_pairs_break sample_settings (InputEvent InsertText None) 55357 56832 56833 [97]
    (typed [97; 55357; 56832] NoHint)).
Defined.
