(* ===== verification/Clipboard.v ===== *)
(** * The clipboard: text

    Models the part of [L.Clipboard] (src/browser/src/map/Clipboard.js) that reads and writes
    text: the address of the clipboard of a session, the HTML that is put on the clipboard of
    the system around what is copied, how a paste finds out where its content is from, and the
    content that is posted to the server, with the server's reader of it
    (src/common/Clipboard.hpp).  [CopyPaste] has the operations.

    Strings are their bytes in UTF-8. *)

From S2P Require Import Prelude JsText.
Local Open Scope Z_scope.

(** ** Percent encoding *)

Definition hex_char (d : Z) : ascii := chr (if d <? 10 then 48 + d else 55 + d).

(** What [encodeURIComponent] leaves: letters, digits and [-_.!~*'()]. *)
Definition unreserved (c : ascii) : bool :=
  let c := code c in
  ((48 <=? c) && (c <=? 57)) || ((65 <=? c) && (c <=? 90)) || ((97 <=? c) && (c <=? 122)) ||
  bool_decide (c ∈ [45; 95; 46; 33; 126; 42; 39; 40; 41]).

Definition percent (c : ascii) : string :=
  String "%" (String (hex_char (code c / 16)) (String (hex_char (code c mod 16)) "")).

Fixpoint encodeURI (s : string) : string :=
  match s with
  | "" => ""
  | String c s => (if unreserved c then String c "" else percent c) +:+ encodeURI s
  end.

(** [decodeURIComponent]; [None]: [URIError].  That the decoded bytes are UTF-8 is not checked. *)
Fixpoint decodeURI (s : string) : option string :=
  match s with
  | "" => Some ""
  | String "%" (String a (String b s)) =>
      match radix_digit 16 a, radix_digit 16 b with
      | Some x, Some y => String (chr (16 * x + y)) <$> decodeURI s
      | _, _ => None
      end
  | String "%" _ => None
  | String c s => String c <$> decodeURI s
  end.

(** ** Where content is from *)

(** What the addresses of clipboards of a session are made of. *)
Record session := Session { base : string; doc : string; serverId : string; viewId : string; routeToken : string }.

Definition getMetaPath (s : session) (key : string) : string :=
  if String.eqb key "" then ""
  else "/oxool/clipboard?WOPISrc=" +:+ encodeURI (doc s) +:+ "&ServerId=" +:+ serverId s +:+
       "&ViewId=" +:+ viewId s +:+ "&Tag=" +:+ key +:+
       (if String.eqb (routeToken s) "" then "" else "&RouteToken=" +:+ routeToken s).

Definition getMetaURL (s : session) (key : string) : string := base s +:+ getMetaPath s key.

Definition stub_marker : string := "<title>Stub HTML Message</title>".

(** [_isStubHtml] *)
Definition isStubHtml (text : string) : bool :=
  match index_of stub_marker text with Some (S _) => true | _ => false end.

Definition newline : string := String "010" "".
Definition quote : string := String "034" "".

Definition div_prefix : string := "<div id=" +:+ quote +:+ "meta-origin" +:+ quote +:+ " data-oxoolorigin=" +:+ quote.
Definition meta_prefix : string := "<meta name=" +:+ quote +:+ "origin" +:+ quote +:+ " content=" +:+ quote.

(** The text before the origin in the head, and between that and the origin in the body. *)
Definition wrap_head (isStub : bool) : string :=
  "<!DOCTYPE HTML PUBLIC " +:+ quote +:+ "-//W3C//DTD HTML 4.0 Transitional//EN" +:+ quote +:+ ">" +:+ newline +:+
  "<html>" +:+ newline +:+ "  <head>" +:+ newline +:+
  (if isStub then "    " +:+ stub_marker +:+ newline else "") +:+
  "    <meta http-equiv=" +:+ quote +:+ "content-type" +:+ quote +:+ " content=" +:+ quote +:+
  "text/html; charset=utf-8" +:+ quote +:+ "/>" +:+ newline +:+ "    ".

Definition wrap_middle : string :=
  quote +:+ "/>" +:+ newline +:+ "  </head>" +:+ newline +:+
  "  <body lang=" +:+ quote +:+ "en_US" +:+ quote +:+ " dir=" +:+ quote +:+ "ltr" +:+ quote +:+ ">".

(** [_originWrapBody] *)
Definition originWrapBody (s : session) (key body : string) (isStub : bool) : string :=
  let encodedOrigin := encodeURI (getMetaURL s key) in
  wrap_head isStub +:+ meta_prefix +:+ encodedOrigin +:+ wrap_middle +:+ div_prefix +:+ encodedOrigin +:+
  quote +:+ ">" +:+ newline +:+ body +:+ "  </div></body>" +:+ newline +:+ "</html>".

Definition found_after_start (s p : string) : bool := match index_of p s with Some (S _) => true | _ => false end.

(** [_getMetaOrigin]; [None]: an exception. *)
Definition getMetaOrigin (html prefix : string) : option string :=
  match index_of prefix html with
  | None => Some ""
  | Some start =>
      let rest := str_drop (start + String.length prefix) html in
      match index_of quote rest with
      | None => Some ""
      | Some n =>
          let meta := str_take n rest in
          if includes meta "%2Fclipboard%3FWOPISrc%3D" && found_after_start meta "%26ServerId%3D" &&
             found_after_start meta "%26ViewId%3D" && found_after_start meta "%26Tag%3D"
          then decodeURI meta
          else Some ""
      end
  end.

(** The keys of the session: the present one and the one before. *)
Definition setKey (key : string) (keys : string * string) : string * string :=
  if String.eqb keys.1 key then keys else (key, keys.1).

(** What a paste is to do: [dataTransferToDocument] up to the effects. *)
Inductive decision := InternalPaste | Transfer (origin : string) | FromClipboard.

Definition decide_paste (s : session) (preferInternal : bool) (keys : string * string) (htmlText : string) : option decision :=
  getMetaOrigin htmlText div_prefix ≫= fun meta =>
  (if String.eqb meta "" then getMetaOrigin htmlText meta_prefix else Some meta) ≫= fun meta =>
  let id := getMetaPath s keys.1 in
  let idOld := getMetaPath s keys.2 in
  if preferInternal && ((negb (String.eqb id "") && includes meta id) || (negb (String.eqb idOld "") && includes meta idOld))
  then Some InternalPaste
  else if negb (String.eqb meta "") then Some (Transfer meta)
  else Some FromClipboard.

(** ** What is posted *)

(** [_readContentSyncToBlob]: the types with their data, as the clipboard lists them. *)
Definition readContentSync (types : list (string * string)) : list (string * string) :=
  map (fun td => (if String.eqb td.1 "text" then "text/plain" else td.1, td.2))
    (filter (fun td => td.1 <> "Files" /\ td.2 <> "") types).

(** [content.push]: the type, the length in hexadecimal digits, and the data. *)
Definition encode_entry (td : string * string) : string :=
  td.1 +:+ newline +:+ to_string_radix 16 (Z.of_nat (String.length td.2)) +:+ newline +:+ td.2 +:+ newline.

Definition encode_blob (content : list (string * string)) : string := foldr (fun td s => encode_entry td +:+ s) "" content.

(** [std::getline]: the line and the rest; [None]: nothing left. *)
Fixpoint line_of (s : string) : string * string :=
  match s with
  | "" => ("", "")
  | String c s => if Ascii.eqb c "010" then ("", s) else let '(l, r) := line_of s in (String c l, r)
  end.

Definition getline (s : string) : option (string * string) := if String.eqb s "" then None else Some (line_of s).

(** [ClipboardData::read]; [None]: [ParseError]. *)
Fixpoint read_clipboard (fuel : nat) (s : string) : option (list (string * string)) :=
  match fuel with
  | O => None
  | S fuel =>
      match getline s with
      | None => Some []
      | Some (mime, s) =>
          match getline s with
          | None => Some []
          | Some (hexLen, s) =>
              if String.eqb mime "" || String.eqb hexLen "" then read_clipboard fuel s
              else
                let len := Z.to_nat (default 0 (parse_int 16 hexLen)) in
                if (String.length s <? len)%nat then None
                else
                  let rest := match getline (str_drop len s) with Some (_, r) => r | None => "" end in
                  cons (mime, str_take len s) <$> read_clipboard fuel rest
          end
      end
  end.

(** ** Facts about text *)

Lemma index_of_starts p s : starts_with s p = true -> index_of p s = Some 0%nat.
Proof. intros H. destruct s; simpl; by rewrite H. Qed.

Lemma index_of_step p c s :
  starts_with (String c s) p = false -> index_of p (String c s) = S <$> index_of p s.
Proof. intros H. cbn [index_of]. by rewrite H. Qed.

(** Text without the first character of what is looked for is passed over. *)
Lemma index_of_skip a p e s :
  no_char a e = true -> index_of (String a p) (e +:+ s) = (fun n => (String.length e + n)%nat) <$> index_of (String a p) s.
Proof.
  unfold no_char. induction e as [|c e IH]; cbn [str_forall]; intros He.
  - rewrite str_app_nil_l. by destruct (index_of (String a p) s).
  - apply andb_true_iff in He as [Hc He]. rewrite str_app_cons, index_of_step.
    + rewrite IH by done. cbn [String.length]. by destruct (index_of (String a p) s).
    + simpl. apply negb_true_iff in Hc. by rewrite Hc.
Qed.

Lemma includes_app a p b : includes (a +:+ p +:+ b) p = true.
Proof.
  unfold includes. induction a as [|c a IH].
  - rewrite str_app_nil_l, index_of_starts; [done|apply starts_with_app].
  - rewrite str_app_cons. cbn [index_of]. destruct (starts_with _ p); [done|]. by destruct (index_of p _).
Qed.

(** What is contained but not at the start is found after the start. *)
Lemma found_after_start_app a p b :
  starts_with (a +:+ p +:+ b) p = false -> found_after_start (a +:+ p +:+ b) p = true.
Proof.
  intros Hs. pose proof (includes_app a p b) as Hi. unfold includes, found_after_start in *.
  destruct (a +:+ p +:+ b) as [|c s]; cbn [index_of] in *; rewrite Hs in *; [done|]. by destruct (index_of p s).
Qed.

Lemma str_take_app s t : str_take (String.length s) (s +:+ t) = s.
Proof. induction s as [|c s IH]; [by destruct t|]. rewrite str_app_cons. cbn [String.length str_take]. by rewrite IH. Qed.

Lemma encode_app s t : encodeURI (s +:+ t) = encodeURI s +:+ encodeURI t.
Proof.
  induction s as [|c s IH]; [done|]. rewrite str_app_cons. cbn [encodeURI]. by rewrite IH, str_app_assoc.
Qed.

Lemma hex_char_digit d : 0 <= d < 16 -> radix_digit 16 (hex_char d) = Some d.
Proof.
  intros Hd. assert (H : forallb (fun d => bool_decide (radix_digit 16 (hex_char d) = Some d)) (seqZ 0 16) = true)
    by (vm_compute; reflexivity).
  rewrite forallb_forall in H. specialize (H d). rewrite bool_decide_eq_true in H. apply H.
  apply list_elem_of_In, elem_of_seqZ. lia.
Qed.

Lemma decodeURI_cons c s : c <> "%"%char -> decodeURI (String c s) = String c <$> decodeURI s.
Proof. intros Hc. destruct c as [[][][][][][][][]]; try done. Qed.

Lemma decodeURI_percent c s : decodeURI (percent c +:+ s) = String c <$> decodeURI s.
Proof.
  pose proof (code_bounds c) as Hc. unfold percent. rewrite !str_app_cons, str_app_nil_l. cbn [decodeURI].
  assert (0 <= code c / 16 < 16) by (split; [apply Z.div_pos; lia|apply Z.div_lt_upper_bound; lia]).
  pose proof (Z.mod_pos_bound (code c) 16 ltac:(lia)).
  rewrite !hex_char_digit by lia. f_equal. f_equal. rewrite <- Z.div_mod by lia. apply chr_code.
Qed.

Lemma unreserved_not_percent c : unreserved c = true -> c <> "%"%char.
Proof. intros H ->. by vm_compute in H. Qed.

(** Decoding undoes encoding. *)
Lemma decode_encode s : decodeURI (encodeURI s) = Some s.
Proof.
  induction s as [|c s IH]; [done|]. cbn [encodeURI]. destruct (unreserved c) eqn:Hc.
  - rewrite str_app_cons, str_app_nil_l, decodeURI_cons by by apply unreserved_not_percent. by rewrite IH.
  - by rewrite decodeURI_percent, IH.
Qed.

Lemma encode_no_char a s : a = "034"%char \/ a = "<"%char -> no_char a (encodeURI s) = true.
Proof.
  intros Ha. unfold no_char. induction s as [|c s IH]; [done|]. cbn [encodeURI]. rewrite str_forall_app, IH, andb_true_r.
  destruct (unreserved c) eqn:Hc.
  - cbn [str_forall]. rewrite andb_true_r. apply negb_true_iff, Ascii.eqb_neq. intros ->. by destruct Ha as [->| ->].
  - assert (Hall : forallb (fun d => bool_decide (hex_char d <> "034"%char /\ hex_char d <> "<"%char)) (seqZ 0 16) = true)
      by (vm_compute; reflexivity).
    rewrite forallb_forall in Hall. pose proof (code_bounds c).
    assert (H16 : forall d, 0 <= d < 16 -> hex_char d <> a).
    { intros d Hd. specialize (Hall d). rewrite bool_decide_eq_true in Hall.
      destruct Hall as [H1 H2]; [apply list_elem_of_In, elem_of_seqZ; lia|]. by destruct Ha as [->| ->]. }
    unfold percent. cbn [str_forall]. rewrite andb_true_r, !andb_true_iff, !negb_true_iff, !Ascii.eqb_neq.
    split_and!; [by destruct Ha as [->| ->]| |]; apply H16.
    + split; [apply Z.div_pos; lia|apply Z.div_lt_upper_bound; lia].
    + apply Z.mod_pos_bound. lia.
Qed.

Lemma length_app_str s t : String.length (s +:+ t) = (String.length s + String.length t)%nat.
Proof. induction s as [|c s IH]; [done|]. rewrite str_app_cons. cbn [String.length]. lia. Qed.

(** No match of a pattern that begins with [a] and [b] starts in [h], whatever follows. *)
Fixpoint no_start (a b : ascii) (h : string) : bool :=
  match h with
  | "" => true
  | String c h' =>
      (negb (Ascii.eqb c a) || match h' with "" => false | String d _ => negb (Ascii.eqb d b) end) && no_start a b h'
  end.

Lemma index_of_no_start a b p h s :
  no_start a b h = true ->
  index_of (String a (String b p)) (h +:+ s) = (fun n => (String.length h + n)%nat) <$> index_of (String a (String b p)) s.
Proof.
  induction h as [|c h IH]; cbn [no_start]; intros Hh.
  - rewrite str_app_nil_l. by destruct (index_of (String a (String b p)) s).
  - apply andb_true_iff in Hh as [Hc Hh]. rewrite str_app_cons, index_of_step.
    + rewrite IH by done. cbn [String.length]. by destruct (index_of (String a (String b p)) s).
    + simpl. destruct (Ascii.eqb c a); [|done]. destruct h as [|d h]; [done|]. apply negb_true_iff in Hc. simpl. by rewrite Hc.
Qed.

(** [base] is the address of the server, which [makeHttpUrl] asserts to be one of HTTP. *)
Definition good_session (s : session) : Prop := starts_with (base s) "http" = true.

Lemma starts_with_split p s : starts_with s p = true -> exists t, s = p +:+ t.
Proof.
  revert s. induction p as [|c p IH]; intros s Hs; [by exists s|]. destruct s as [|a s]; [done|]. simpl in Hs.
  apply andb_true_iff in Hs as [Ha Hs]. apply Ascii.eqb_eq in Ha as ->. destruct (IH s Hs) as [t ->]. exists t. by rewrite str_app_cons.
Qed.

(** The checks that an origin is one of ours pass for ours. *)
Lemma own_origin_checks s key :
  good_session s -> key <> "" ->
  let meta := encodeURI (getMetaURL s key) in
  includes meta "%2Fclipboard%3FWOPISrc%3D" && found_after_start meta "%26ServerId%3D" &&
  found_after_start meta "%26ViewId%3D" && found_after_start meta "%26Tag%3D" = true.
Proof.
  intros Hs Hk. destruct (starts_with_split _ _ Hs) as [b Hb]. unfold getMetaURL, getMetaPath.
  apply String.eqb_neq in Hk. rewrite Hk, Hb. cbv zeta.
  rewrite !encode_app. set (d := encodeURI (encodeURI (doc s))). set (r := encodeURI (if String.eqb _ _ then _ else _)).
  set (k := encodeURI key). set (v := encodeURI (viewId s)). set (i := encodeURI (serverId s)). set (b' := encodeURI b).
  change (encodeURI "/oxool/clipboard?WOPISrc=") with ("%2Foxool" +:+ "%2Fclipboard%3FWOPISrc%3D").
  change (encodeURI "&ServerId=") with "%26ServerId%3D". change (encodeURI "&ViewId=") with "%26ViewId%3D".
  change (encodeURI "&Tag=") with "%26Tag%3D". change (encodeURI "http") with "http".
  rewrite !andb_true_iff. split_and!.
  - replace (_ +:+ _) with ((("http" +:+ b') +:+ "%2Foxool") +:+ "%2Fclipboard%3FWOPISrc%3D" +:+
      (d +:+ "%26ServerId%3D" +:+ i +:+ "%26ViewId%3D" +:+ v +:+ "%26Tag%3D" +:+ k +:+ r)) by (by rewrite !str_app_assoc).
    apply includes_app.
  - replace (_ +:+ _) with ((("http" +:+ b') +:+ ("%2Foxool" +:+ "%2Fclipboard%3FWOPISrc%3D") +:+ d) +:+ "%26ServerId%3D" +:+
      (i +:+ "%26ViewId%3D" +:+ v +:+ "%26Tag%3D" +:+ k +:+ r)) by (by rewrite !str_app_assoc).
    apply found_after_start_app. rewrite !str_app_assoc. reflexivity.
  - replace (_ +:+ _) with ((("http" +:+ b') +:+ ("%2Foxool" +:+ "%2Fclipboard%3FWOPISrc%3D") +:+ d +:+ "%26ServerId%3D" +:+ i) +:+
      "%26ViewId%3D" +:+ (v +:+ "%26Tag%3D" +:+ k +:+ r)) by (by rewrite !str_app_assoc).
    apply found_after_start_app. rewrite !str_app_assoc. reflexivity.
  - replace (_ +:+ _) with ((("http" +:+ b') +:+ ("%2Foxool" +:+ "%2Fclipboard%3FWOPISrc%3D") +:+ d +:+ "%26ServerId%3D" +:+ i +:+
      "%26ViewId%3D" +:+ v) +:+ "%26Tag%3D" +:+ (k +:+ r)) by (by rewrite !str_app_assoc).
    apply found_after_start_app. rewrite !str_app_assoc. reflexivity.
Qed.

(** The origin of what the client put on the clipboard is found again. *)
Lemma own_origin s key body isStub :
  good_session s -> key <> "" -> getMetaOrigin (originWrapBody s key body isStub) div_prefix = Some (getMetaURL s key).
Proof.
  intros Hs Hk. unfold originWrapBody. set (e := encodeURI (getMetaURL s key)).
  set (rest := newline +:+ body +:+ "  </div></body>" +:+ newline +:+ "</html>").
  assert (Hdiv : exists p, div_prefix = String "<" (String "d" p)) by (eexists; reflexivity). destruct Hdiv as [p Hp].
  assert (He : no_char "<" e = true) by (apply encode_no_char; by right).
  assert (Hq : no_char "034" e = true) by (apply encode_no_char; by left).
  unfold getMetaOrigin. assert (index_of div_prefix (wrap_head isStub +:+ meta_prefix +:+ e +:+ wrap_middle +:+ div_prefix +:+ e +:+ quote +:+ ">" +:+ rest) =
      Some (String.length (wrap_head isStub +:+ meta_prefix +:+ e +:+ wrap_middle))) as ->.
  { rewrite Hp. rewrite index_of_no_start by (destruct isStub; vm_compute; reflexivity).
    rewrite index_of_no_start by (vm_compute; reflexivity). rewrite index_of_skip by done.
    rewrite index_of_no_start by (vm_compute; reflexivity).
    rewrite (index_of_starts _ (String "<" (String "d" p) +:+ _)) by apply starts_with_app. cbn [fmap option_fmap option_map].
    f_equal. rewrite !length_app_str. lia. }
  replace (wrap_head isStub +:+ meta_prefix +:+ e +:+ wrap_middle +:+ div_prefix +:+ e +:+ quote +:+ ">" +:+ rest) with
    ((wrap_head isStub +:+ meta_prefix +:+ e +:+ wrap_middle +:+ div_prefix) +:+ e +:+ quote +:+ ">" +:+ rest) by (by rewrite !str_app_assoc).
  replace (String.length (wrap_head isStub +:+ meta_prefix +:+ e +:+ wrap_middle) + String.length div_prefix)%nat with
    (String.length (wrap_head isStub +:+ meta_prefix +:+ e +:+ wrap_middle +:+ div_prefix)) by (rewrite !length_app_str; lia).
  rewrite str_drop_app. unfold quote at 1. rewrite index_of_skip by done.
  rewrite index_of_starts by apply starts_with_app. cbn [fmap option_fmap option_map]. rewrite Nat.add_0_r, str_take_app.
  pose proof (own_origin_checks s key Hs Hk) as Hc. cbv zeta in Hc. fold e in Hc. rewrite Hc. apply decode_encode.
Qed.

Lemma getMetaPath_nonempty s key : key <> "" -> String.eqb (getMetaPath s key) "" = false.
Proof. intros Hk. unfold getMetaPath. apply String.eqb_neq in Hk. by rewrite Hk. Qed.

Lemma getMetaURL_nonempty s key : good_session s -> String.eqb (getMetaURL s key) "" = false.
Proof. intros Hs. destruct (starts_with_split _ _ Hs) as [b Hb]. unfold getMetaURL. rewrite Hb. done. Qed.

Lemma own_origin_decides s (keys ks : string * string) body isStub :
  good_session s -> keys.1 <> "" -> keys.1 = ks.1 \/ keys.1 = ks.2 ->
  decide_paste s true ks (originWrapBody s keys.1 body isStub) = Some InternalPaste.
Proof.
  intros Hs Hk Hks. unfold decide_paste. rewrite own_origin by done. cbn [mbind option_bind].
  rewrite getMetaURL_nonempty by done. cbn [mbind option_bind].
  assert (Hi : includes (getMetaURL s keys.1) (getMetaPath s keys.1) = true).
  { unfold getMetaURL. rewrite <- (str_app_nil_r (getMetaPath s keys.1)) at 1. apply includes_app. }
  destruct Hks as [<-|<-]; rewrite (getMetaPath_nonempty s keys.1), Hi by done; cbn [negb andb orb]; [done|by rewrite orb_true_r].
Qed.

(** After the key was renewed content with the key before is still ours. *)
Lemma pasted_home s keys body isStub newKey :
  good_session s -> keys.1 <> "" ->
  decide_paste s true (setKey newKey keys) (originWrapBody s keys.1 body isStub) = Some InternalPaste.
Proof.
  intros Hs Hk. apply own_origin_decides; [done|done|]. unfold setKey. destruct (String.eqb keys.1 newKey); cbn; auto.
Qed.

(** Content that was copied in this session is recognised when it is pasted, whatever it
    is, and pasted inside the server instead of being sent: the origin written around it is
    found again in the text, decoded, and matches - also after the key of the clipboard was
    renewed once. *)
Theorem home_from_home s keys body isStub newKey :
  good_session s -> keys.1 <> "" ->
  let htmlText := originWrapBody s keys.1 body isStub in
  decide_paste s true keys htmlText = Some InternalPaste /\
  decide_paste s true (setKey newKey keys) htmlText = Some InternalPaste.
Proof. intros Hs Hk. split; [apply own_origin_decides; auto|by apply pasted_home]. Qed.

Lemma home_from_home_witness :
  let s := Session "https://host:9980" "http://wopi/files/1?x=%20y" "e91f" "3" "" in
  decide_paste s true ("key", "") (originWrapBody s "key" "<p>text</p>" false) = Some InternalPaste /\
  decide_paste s true (setKey "new" ("key", "")) (originWrapBody s "key" "<p>text</p>" false) = Some InternalPaste.
Proof. intros s. apply (home_from_home s ("key", "") "<p>text</p>" false "new"); [reflexivity|discriminate]. Defined.

(** Text from elsewhere is not taken for ours. *)
Lemma foreign_text s keys htmlText :
  index_of div_prefix htmlText = None -> index_of meta_prefix htmlText = None ->
  decide_paste s true keys htmlText = Some FromClipboard.
Proof.
  intros H1 H2. unfold decide_paste, getMetaOrigin. rewrite H1. cbn. rewrite H2. cbn.
  assert (Hi : forall key, negb (String.eqb (getMetaPath s key) "") && includes "" (getMetaPath s key) = false).
  { intros key. unfold includes. destruct (getMetaPath s key) as [|c p]; [done|]. reflexivity. }
  by rewrite !Hi.
Qed.

(** ** Posting content *)

Lemma line_of_app l s : no_char "010" l = true -> line_of (l +:+ newline +:+ s) = (l, s).
Proof.
  unfold no_char. induction l as [|c l IH]; cbn [str_forall]; intros Hl; [done|].
  apply andb_true_iff in Hl as [Hc Hl]. apply negb_true_iff in Hc. rewrite str_app_cons. cbn [line_of]. rewrite Hc, IH by done. done.
Qed.

Lemma getline_app l s : no_char "010" l = true -> getline (l +:+ newline +:+ s) = Some (l, s).
Proof.
  intros Hl. unfold getline. assert (String.eqb (l +:+ newline +:+ s) "" = false) as -> by (by destruct l).
  by rewrite line_of_app.
Qed.

Definition good_type (mime : string) : Prop := mime <> "" /\ no_char "010" mime = true.

Lemma read_entry fuel td s :
  good_type td.1 -> read_clipboard (S fuel) (encode_entry td +:+ s) = cons td <$> read_clipboard fuel s.
Proof.
  intros [Hm Hn]. destruct td as [mime data]. cbn [fst snd] in *. unfold encode_entry. cbn [fst snd].
  rewrite !str_app_assoc. cbn [read_clipboard]. rewrite getline_app by done.
  set (n := Z.of_nat (String.length data)). assert (Hn0 : 0 <= n) by lia.
  assert (Hh : no_char "010" (to_string_radix 16 n) = true).
  { unfold no_char. apply hex_chars; [done|]. intros d Hd. unfold digit_char. apply negb_true_iff, Ascii.eqb_neq.
    intros E. apply (f_equal code) in E. destruct (Z.ltb_spec d 10); rewrite code_chr in E by lia; vm_compute code in E; lia. }
  rewrite getline_app by done. apply String.eqb_neq in Hm. rewrite Hm. cbn [orb].
  assert (String.eqb (to_string_radix 16 n) "" = false) as ->.
  { pose proof (parse_int_hex n Hn0) as Hp. by destruct (to_string_radix 16 n). }
  rewrite parse_int_hex by done. unfold default, from_option, id. replace (Z.to_nat n) with (String.length data) by (unfold n; lia).
  rewrite length_app_str, (proj2 (Nat.ltb_ge _ _)) by lia. rewrite str_take_app, str_drop_app.
  assert (getline (newline +:+ s) = Some ("", s)) as -> by (exact (getline_app "" s eq_refl)). done.
Qed.

(** C29: What a paste posts to the server arrives: the reader of the server gets back every
    type with its data, byte for byte and in order, and ends. *)
Theorem post_roundtrip content :
  Forall (fun td => good_type td.1) content ->
  read_clipboard (S (length content)) (encode_blob content) = Some content.
Proof.
  induction 1 as [|td content Ht _ IH]; [done|]. cbn [encode_blob foldr length]. fold (encode_blob content).
  rewrite read_entry by done. by rewrite IH.
Qed.

Lemma post_roundtrip_witness :
  let content := readContentSync [("text", "a line" +:+ newline +:+ "and more"); ("Files", "x"); ("text/html", "<b>bold</b>"); ("text/rtf", "")] in
  read_clipboard 3 (encode_blob content) = Some content.
Proof.
  intros content. apply (post_roundtrip content). repeat constructor; discriminate.
Defined.
