(* ===== verification/CopyPaste.v ===== *)
(** * Copy and paste

    Models the rest of [L.Clipboard] (src/browser/src/map/Clipboard.js) and the widget for
    downloads (src/browser/src/control/Control.DownloadProgress.js) as a state machine: the
    selection the client remembers, what a copy puts on the clipboard of the system, what a
    paste tells the server, the requests that move content between servers, the ways around
    a browser that does not let the client at the clipboard, and the widget.

    Requests, readers of blobs, promises and timers are pending; the environment answers them
    in any order.  [document.execCommand] may dispatch the event it is named after before it
    returns: what it does is an argument.  An exception is [None].  Texts for the user are
    parameters; [.uno:CopyHyperlinkLocation] and the images of IE and Edge are left out. *)

From S2P Require Import Prelude JsText Clipboard.

(** ** The widget for downloads *)

Record progress := Progress {
  started : bool;
  complete : bool;
  closed : bool;
  isLargeCopy : bool;
  uri : option string
}.

(** [onAdd] *)
Definition new_progress : progress := Progress false false false false None.

Definition show (large : bool) (p : progress) : progress := Progress false false false large (uri p).

Definition setURI (u : string) (p : progress) : progress :=
  Progress (started p) (complete p) (closed p) (isLargeCopy p) (Some u).

Definition startProgressMode (p : progress) : progress :=
  Progress true (complete p) (closed p) (isLargeCopy p) (uri p).

Definition onComplete (p : progress) : progress :=
  if complete p then p else Progress false true (closed p) (isLargeCopy p) (uri p).

Definition onClose (p : progress) : progress := Progress false false true (isLargeCopy p) (uri p).

Inductive status := Closed | DownloadButton | Downloading | ConfirmPasteButton.

Definition currentStatus (p : progress) : status :=
  if closed p then Closed
  else if negb (started p) && negb (complete p) then DownloadButton
  else if started p then Downloading
  else ConfirmPasteButton.

(** ** The state *)

Inductive selection := SText | SComplex.

(** An entry of the clipboard of the system: types with their data. *)
Notation item := (list (string * string)) (only parsing).

(** What an event brings: types with their data, and files with their type. *)
Record dataTransfer := DataTransfer { types : item; files : list (string * string) }.

Definition getData (ty : string) (l : item) : string :=
  match List.find (fun td => String.eqb td.1 ty) l with Some td => td.2 | None => "" end.

Inductive request :=
  (** Requests of [_doAsyncDownload]. *)
  | TransferGet (src dest html : string)
  | TransferPost (dest data : string)
  | FallbackPost (src dest html : string) (special : bool)
  | ContentPost (dest : string) (content : item) (usePasteKeyEvent : bool)
  | LargeGet (url : string)
  (** Readers. *)
  | LargeParse (text : string)
  | ImageRead (mime data : string)
  (** Promises of [navigator.clipboard]. *)
  | NavRead (isSpecial : bool)
  | NavGetType (content : item) (mime : string)
  | NavText (content : item) (mime text : string)
  (** The timer of [_afterCopyCutPaste]. *)
  | HelpTimer (paste : bool) (serial : nat).

Inductive effect :=
  | Uno (command : string)
  | KeyEvent (charCode keyCode : Z)
  | PasteBlob (mime data : string)
  | GetTextSelection
  | AbortComposition
  | AskParent
  | WarnCopyPaste
  | WarnLargeStarted
  | WarnRecopy
  | WarnTimeout.

Record clip := Clip {
  selectionContent : string;
  selectionType : option selection;
  accessKey : string * string;
  clipboardSerial : nat;
  pasteSpecial : bool;
  specialOpen : bool;
  downloadProgress : option progress;
  pending : list request;
  onClipboard : option (string * string);
  log : list effect
}.

Definition new_clip : clip := Clip "" None ("", "") 0 false false None [] None [].

Definition set_selection (c : string) (t : option selection) (st : clip) : clip :=
  Clip c t (accessKey st) (clipboardSerial st) (pasteSpecial st) (specialOpen st) (downloadProgress st) (pending st) (onClipboard st) (log st).
Definition set_accessKey (k : string * string) (st : clip) : clip :=
  Clip (selectionContent st) (selectionType st) k (clipboardSerial st) (pasteSpecial st) (specialOpen st) (downloadProgress st) (pending st) (onClipboard st) (log st).
Definition bump_serial (st : clip) : clip :=
  Clip (selectionContent st) (selectionType st) (accessKey st) (S (clipboardSerial st)) (pasteSpecial st) (specialOpen st) (downloadProgress st) (pending st) (onClipboard st) (log st).
Definition set_special (f o : bool) (st : clip) : clip :=
  Clip (selectionContent st) (selectionType st) (accessKey st) (clipboardSerial st) f o (downloadProgress st) (pending st) (onClipboard st) (log st).
Definition set_progress (p : option progress) (st : clip) : clip :=
  Clip (selectionContent st) (selectionType st) (accessKey st) (clipboardSerial st) (pasteSpecial st) (specialOpen st) p (pending st) (onClipboard st) (log st).
Definition set_pending (l : list request) (st : clip) : clip :=
  Clip (selectionContent st) (selectionType st) (accessKey st) (clipboardSerial st) (pasteSpecial st) (specialOpen st) (downloadProgress st) l (onClipboard st) (log st).
Definition put_clipboard (plain html : string) (st : clip) : clip :=
  Clip (selectionContent st) (selectionType st) (accessKey st) (clipboardSerial st) (pasteSpecial st) (specialOpen st) (downloadProgress st) (pending st) (Some (plain, html)) (log st).
Definition emit (e : effect) (st : clip) : clip :=
  Clip (selectionContent st) (selectionType st) (accessKey st) (clipboardSerial st) (pasteSpecial st) (specialOpen st) (downloadProgress st) (pending st) (onClipboard st) (log st ++ [e]).

Definition on_progress (f : progress -> progress) (st : clip) : clip := set_progress (f <$> downloadProgress st) st.
Definition add_pending (r : request) (st : clip) : clip := set_pending (pending st ++ [r]) st.

(** What the page looks like when an event is handled. *)
Record page := Page {
  searchInputFocus : bool;
  uiEditFocus : bool;
  uiTextareaFocus : bool;
  w2uiInputFocus : bool;
  formulabarFocus : bool;
  anyDialogOpen : bool;
  commentHasFocus : bool;
  hasGraphicSelection : bool;
  isReadOnlyMode : bool;
  isSearching : bool;
  activeDialog : bool
}.

(** What does not change: the session, the texts of the two stubs, what a browser makes of
    HTML as plain text, which addresses can be opened, and what is enabled. *)
Record config := Config {
  sess : session;
  stubText : string;
  disabledText : string;
  stripHTML : string -> string;
  opens : string -> bool;
  isSpreadsheet : bool;
  disableCopy : bool;
  isMobileApp : bool;
  hasNavigatorRead : bool
}.

(** What [document.execCommand] does: the event it dispatches, if it does, on what page and
    with what data, and what it returns. *)
Record exec := Exec { dispatched : option (page * option dataTransfer); returns : bool }.

Inductive operation := OpCopy | OpCut | OpPaste.

Section Clip.
Variable cf : config.

(** ** The widget, from the clipboard *)

Definition metaURL (st : clip) : string := getMetaURL (sess cf) (accessKey st).1.

Definition is_closed (p : option progress) : bool := match p with Some p => closed p | None => true end.

(** [_startProgress] *)
Definition startProgress (large : bool) (st : clip) : clip :=
  set_progress (Some (show large (default new_progress (downloadProgress st)))) st.

(** [_onDownloadOnLargeCopyPaste] *)
Definition onDownloadOnLargeCopyPaste (st : clip) : clip :=
  if match downloadProgress st with Some p => started p | None => false end
  then emit WarnLargeStarted st else startProgress true st.

Definition downloadProgressStatus (st : clip) : option status := currentStatus <$> downloadProgress st.

(** [_stopHideDownload] *)
Definition stopHideDownload (st : clip) : clip :=
  if is_closed (downloadProgress st) then st else on_progress onClose st.

Definition button_shown (st : clip) : bool :=
  match downloadProgressStatus st with Some DownloadButton => true | _ => false end.

(** [_scheduleHideDownload] *)
Definition scheduleHideDownload (st : clip) : clip :=
  if is_closed (downloadProgress st) then st
  else if button_shown st then stopHideDownload st else st.

(** ** The selection *)

Definition clearSelection (st : clip) : clip := scheduleHideDownload (set_selection "" None st).

Definition setTextSelectionHTML (html : string) (st : clip) : clip :=
  scheduleHideDownload (set_selection html (Some SText) st).

Definition setTextSelectionText (text : string) (st : clip) : clip :=
  if isSpreadsheet cf && starts_with text "=" then emit GetTextSelection st
  else scheduleHideDownload (set_selection (originWrapBody (sess cf) (accessKey st).1 text false) (Some SText) st).

Definition onComplexSelection (st : clip) : clip :=
  scheduleHideDownload (set_selection (selectionContent st) (Some SComplex) st).

(** ** Copying *)

Definition getStubHtml (st : clip) : string := originWrapBody (sess cf) (accessKey st).1 (stubText cf) true.
Definition getDisabledCopyStubHtml (st : clip) : string := originWrapBody (sess cf) (accessKey st).1 (disabledText cf) true.

(** [isCopyPasteDialogReadyForCopy] *)
Definition isCopyPasteDialogReadyForCopy (st : clip) : bool :=
  match downloadProgress st with Some p => complete p | None => false end.

(** [_isAnyInputFieldSelected] *)
Definition isAnyInputFieldSelected (pg : page) (st : clip) : bool :=
  searchInputFocus pg || uiEditFocus pg || uiTextareaFocus pg || w2uiInputFocus pg ||
  (anyDialogOpen pg && negb (isCopyPasteDialogReadyForCopy st) && negb (specialOpen st)) || commentHasFocus pg.

(** [_getHtmlForClipboard]; [None]: jQuery objects have no method [value]. *)
Definition getHtmlForClipboard (pg : page) (st : clip) : option (string * clip) :=
  if uiEditFocus pg then None
  else if w2uiInputFocus pg then None
  else if match selectionType st with Some SComplex => true | _ => false end || hasGraphicSelection pg then
    if match selectionType st with Some SText => true | _ => false end && negb (String.eqb (selectionContent st) "")
    then Some (selectionContent st, st)
    else
      let st := onDownloadOnLargeCopyPaste st in
      Some (getStubHtml st, on_progress (setURI (metaURL st +:+ "&MimeType=text/html")) st)
  else match selectionType st with
       | None => Some (getStubHtml st, st)
       | Some _ => Some (selectionContent st, st)
       end.

(** What is put on the clipboard: a space where there is no text. *)
Definition put_both (html : string) (st : clip) : clip :=
  let plain := stripHTML cf html in
  bump_serial (put_clipboard (if String.eqb plain "" then " " else plain) html st).

(** [populateClipboard]; [hasData]: the event has a clipboard. *)
Definition populateClipboard (pg : page) (hasData : bool) (st : clip) : option clip :=
  '(html, st) ← getHtmlForClipboard pg st;
  Some (if hasData then put_both html st else st).

(** [_doCopyCut] *)
Definition doCopyCut (pg : page) (hasData isCut : bool) (st : clip) : option clip :=
  if isAnyInputFieldSelected pg st then Some st
  else
    let st := if button_shown st then stopHideDownload st else st in
    st ← (if disableCopy cf then Some (if hasData then put_both (getDisabledCopyStubHtml st) st else st)
          else populateClipboard pg hasData st);
    let st := emit (Uno (if isCut then ".uno:Cut" else ".uno:Copy")) st in
    Some (if hasData && isCut then emit AbortComposition st else st).

(** ** Requests *)

(** [_doAsyncDownload] up to the send: whether it raised. *)
Definition doAsyncDownload (r : request) (url : string) (st : clip) : clip * bool :=
  let st := if is_closed (downloadProgress st) then on_progress startProgressMode (startProgress false st) else st in
  if opens cf url then (add_pending r st, false) else (st, true).

(** [_checkAndDisablePasteSpecial] *)
Definition checkAndDisablePasteSpecial (st : clip) : bool * clip :=
  if pasteSpecial st then (true, set_special false (specialOpen st) st)
  else if specialOpen st then (true, set_special (pasteSpecial st) false st)
  else (false, st).

Definition paste_command (special : bool) : string := if special then ".uno:PasteSpecial" else ".uno:Paste".

Definition send_paste (st : clip) : clip :=
  let '(special, st) := checkAndDisablePasteSpecial st in emit (Uno (paste_command special)) st.

(** [_doInternalPaste] *)
Definition doInternalPaste (usePasteKeyEvent : bool) (st : clip) : clip :=
  if usePasteKeyEvent then emit (KeyEvent 0 1299) st else send_paste st.

(** The files of an entry [Files] that are images are read. *)
Definition paste_images (dt : dataTransfer) (st : clip) : clip :=
  foldl (fun st td =>
    if String.eqb td.1 "Files"
    then foldl (fun st f => if includes f.1 "image" then add_pending (ImageRead f.1 f.2) st else st) st (files dt)
    else st) st (types dt).

(** [dataTransferToDocumentFallback] *)
Definition dataTransferToDocumentFallback (dt : option dataTransfer) (html : string) (usePasteKeyEvent : bool) (st : clip) : clip :=
  let content := match dt with Some dt => readContentSync (types dt) | None => [] end in
  let content := match content with
                 | [] => if String.eqb html "" then [] else [("text/html", html)]
                 | _ => content
                 end in
  let htmlImage := starts_with html "<img" in
  match dt with
  | Some dt' =>
      if (bool_decide (content = []) && String.eqb html "") || htmlImage then paste_images dt' st
      else if bool_decide (content = []) then st
      else (doAsyncDownload (ContentPost (metaURL st) content usePasteKeyEvent) (metaURL st) st).1
  | None =>
      if bool_decide (content = []) then st
      else (doAsyncDownload (ContentPost (metaURL st) content usePasteKeyEvent) (metaURL st) st).1
  end.

(** What [_dataTransferDownloadAndPasteAsync] does when the download fails. *)
Definition download_failed (src dest html : string) (st : clip) : clip :=
  if isStubHtml html then emit WarnRecopy st
  else
    let '(special, st) := checkAndDisablePasteSpecial st in
    let '(st, raised) := doAsyncDownload (FallbackPost src dest html special) dest st in
    if raised then dataTransferToDocumentFallback None html false st else st.

(** [_dataTransferDownloadAndPasteAsync] *)
Definition dataTransferDownloadAndPasteAsync (src dest html : string) (st : clip) : clip :=
  let '(st, raised) := doAsyncDownload (TransferGet src dest html) src st in
  if raised then download_failed src dest html st else st.

(** [dataTransferToDocument]: whether it says it is finished. *)
Definition dataTransferToDocument (dt : dataTransfer) (preferInternal : bool) (html : string)
    (usePasteKeyEvent : bool) (st : clip) : option (clip * bool) :=
  d ← decide_paste (sess cf) preferInternal (accessKey st) html;
  Some match d with
       | InternalPaste => (doInternalPaste usePasteKeyEvent st, true)
       | Transfer meta => (dataTransferDownloadAndPasteAsync meta (metaURL st) html st, false)
       | FromClipboard => (dataTransferToDocumentFallback (Some dt) html usePasteKeyEvent st, true)
       end.

(** ** Pasting *)

(** [paste]: what remains when it raises is what it did before. *)
Definition paste (pg : page) (dt : option dataTransfer) (st : clip) : clip :=
  if isReadOnlyMode pg then st
  else if isAnyInputFieldSelected pg st && negb (formulabarFocus pg) then st
  else if isSearching pg then st
  else
    let st := if button_shown st then stopHideDownload st else st in
    match dt with
    | None => st
    | Some dt =>
        let html := getData "text/html" (types dt) in
        match dataTransferToDocument dt true html (activeDialog pg) st with
        | None => st
        | Some (st, hasFinished) =>
            let st := bump_serial (emit AbortComposition st) in
            if hasFinished then stopHideDownload st else st
        end
    end.

(** [_onDrop], after the mouse events: it does not prefer to paste internally. *)
Definition drop (dt : dataTransfer) (st : clip) : clip :=
  match dataTransferToDocument dt false (getData "text/html" (types dt)) false st with
  | Some (st, _) => st
  | None => st
  end.

(** ** When the browser does not help *)

Definition dispatch (op : operation) (e : exec) (st : clip) : clip :=
  match dispatched e with
  | None => st
  | Some (pg, dt) =>
      match op with
      | OpCopy => default st (doCopyCut pg (bool_decide (is_Some dt)) false st)
      | OpCut => default st (doCopyCut pg (bool_decide (is_Some dt)) true st)
      | OpPaste => paste pg dt st
      end
  end.

Definition is_paste (op : operation) : bool := match op with OpPaste => true | _ => false end.

(** [_afterCopyCutPaste], with [_execOnElement]. *)
Definition afterCopyCutPaste (op : operation) (e : exec) (st : clip) : clip :=
  let serial := clipboardSerial st in
  let st := dispatch op e st in
  if returns e && negb (serial =? clipboardSerial st)%nat then st
  else add_pending (HelpTimer (is_paste op) serial) (if is_paste op then emit AskParent st else st).

(** [_navigatorClipboardRead]: whether it is available. *)
Definition navigatorClipboardRead (isSpecial : bool) (st : clip) : clip * bool :=
  if hasNavigatorRead cf then (add_pending (NavRead isSpecial) st, true) else (st, false).

(** [_execCopyCutPaste], with what the browser does the first and the second time. *)
Definition execCopyCutPaste (op : operation) (e e' : exec) (st : clip) : clip :=
  let serial := clipboardSerial st in
  let st := dispatch op e st in
  if returns e && negb (serial =? clipboardSerial st)%nat then st
  else
    let '(st, read) := if is_paste op then navigatorClipboardRead false st else (st, false) in
    if read then st else afterCopyCutPaste op e' st.

(** [_openPasteSpecialPopup] *)
Definition openPasteSpecialPopup (st : clip) : clip := set_special (pasteSpecial st) true st.

(** [filterExecCopyPaste]: [None]: it returns [undefined]. *)
Definition filterExecCopyPaste (cmd : string) (e e' : exec) (st : clip) : clip * option bool :=
  if isMobileApp cf then (st, Some false)
  else if disableCopy cf && (String.eqb cmd ".uno:Copy" || String.eqb cmd ".uno:Cut") then (emit (Uno cmd) st, Some true)
  else if String.eqb cmd ".uno:Copy" then (execCopyCutPaste OpCopy e e' st, Some true)
  else if String.eqb cmd ".uno:Cut" then (execCopyCutPaste OpCut e e' st, Some true)
  else if String.eqb cmd ".uno:Paste" then (execCopyCutPaste OpPaste e e' st, Some true)
  else if String.eqb cmd ".uno:PasteSpecial" then
    let '(st, read) := navigatorClipboardRead true st in
    if read then (st, None) else (openPasteSpecialPopup st, Some true)
  else (st, Some false).

(** [_onStartDownload], the button of the widget. *)
Definition onStartDownload (st : clip) : clip :=
  match downloadProgress st with
  | Some p =>
      match uri p with
      | Some u =>
          let st := on_progress startProgressMode st in
          let '(st, raised) := doAsyncDownload (LargeGet u) u st in
          if raised then on_progress onClose st else st
      | None => st
      end
  | None => st
  end.

(** [_onConfirmCopyAction] *)
Definition onConfirmCopyAction (e e' : exec) (st : clip) : clip :=
  on_progress onClose (filterExecCopyPaste ".uno:Copy" e e' st).1.

(** ** Answers *)

(** What becomes of a pending operation: it succeeds, for a request with a status and a
    response, for [navigator.clipboard.read] with the entries of the clipboard; it fails; or
    it takes too long. *)
Inductive answer := Loaded (httpStatus : Z) (response : string) | Contents (entries : list item) | Failed | TimedOut.

(** The handlers of [_doAsyncDownload]. *)
Definition xhr_answer (forClipboard : bool) (completeFn : string -> clip -> clip) (onErrorFn : clip -> clip)
    (a : answer) (st : clip) : clip :=
  match a with
  | Loaded s response =>
      let st := on_progress onComplete st in
      let st := if forClipboard then st else on_progress onClose st in
      if (s =? 200)%Z then completeFn response st else onErrorFn st
  | TimedOut => on_progress onClose (emit WarnTimeout st)
  | _ => on_progress onClose (on_progress onComplete (onErrorFn st))
  end.

(** The text of a download begins with the document type. *)
Definition cut_before_doctype (text : string) : string :=
  let idx := match index_of "<!DOCTYPE HTML" text with
             | Some n => Some n
             | None => index_of "<!DOCTYPE html" text
             end in
  match idx with Some (S n) => str_drop (S n) text | _ => text end.

(** [_navigatorClipboardReadCallback] *)
Definition navigatorClipboardReadCallback (entries : list item) (st : clip) : clip :=
  match entries with
  | [] => st
  | content :: _ =>
      if existsb (fun td => String.eqb td.1 "text/html") content then add_pending (NavGetType content "text/html") st
      else if existsb (fun td => String.eqb td.1 "text/plain") content then add_pending (NavGetType content "text/plain") st
      else st
  end.

(** [_navigatorClipboardGetTypeCallback] *)
Definition navigatorClipboardGetTypeCallback (content : item) (mime data : string) (st : clip) : clip :=
  if String.eqb mime "image/png" then emit (PasteBlob mime data) st
  else add_pending (NavText content mime data) st.

(** [_navigatorClipboardTextCallback] *)
Definition navigatorClipboardTextCallback (pg : page) (text textType : string) (st : clip) : clip :=
  paste pg (Some (DataTransfer [(textType, text)] [])) st.

(** One answer.  The page and [execCommand] matter where a paste follows. *)
Definition handle (r : request) (a : answer) (pg : page) (e : exec) (st : clip) : clip :=
  match r with
  | TransferGet src dest html =>
      xhr_answer false
        (fun response st => (doAsyncDownload (TransferPost dest response) dest st).1)
        (download_failed src dest html) a st
  | TransferPost _ _ => xhr_answer false (fun _ => send_paste) id a st
  | FallbackPost _ _ html _ =>
      xhr_answer false (fun _ st => st) (dataTransferToDocumentFallback None html false) a st
  | ContentPost _ _ key => xhr_answer false (fun _ => doInternalPaste key) id a st
  | LargeGet _ =>
      xhr_answer true (fun response => add_pending (LargeParse response)) (on_progress onClose) a st
  | LargeParse text =>
      match a with Loaded _ _ => setTextSelectionHTML (cut_before_doctype text) st | _ => st end
  | ImageRead mime data =>
      match a with Loaded _ _ => emit (PasteBlob mime data) st | _ => st end
  | NavRead isSpecial =>
      match a with
      | Contents entries =>
          navigatorClipboardReadCallback entries (if isSpecial then set_special true (specialOpen st) st else st)
      | _ => if isSpecial then openPasteSpecialPopup st else afterCopyCutPaste OpPaste e st
      end
  | NavGetType content mime =>
      match a, List.find (fun td => String.eqb td.1 mime) content with
      | Loaded _ _, Some td => navigatorClipboardGetTypeCallback content mime td.2 st
      | _, _ => st
      end
  | NavText content mime text =>
      match a with
      | Loaded _ _ =>
          if String.eqb mime "text/html" && starts_with text "<img" then add_pending (NavGetType content "image/png") st
          else navigatorClipboardTextCallback pg text mime st
      | _ => st
      end
  | HelpTimer isPaste serial =>
      if negb (clipboardSerial st =? serial)%nat then (if isPaste then stopHideDownload st else st)
      else emit WarnCopyPaste st
  end.

(** ** Events *)

Inductive event :=
  | Copy (pg : page) (hasData : bool)
  | Cut (pg : page) (hasData : bool)
  | Paste (pg : page) (dt : option dataTransfer)
  | Drop (dt : dataTransfer)
  | Note (html : string)
  | Command (cmd : string) (e e' : exec)
  | SelectHTML (html : string)
  | SelectText (text : string)
  | SelectComplex
  | ClearSelection
  | SetKey (key : string)
  | ClipboardChanged (content : string) (e e' : exec)
  | StartDownload
  | ConfirmCopy (e e' : exec)
  | CancelDownload
  | OpenSpecial
  | CloseSpecial
  | Answer (i : nat) (a : answer) (pg : page) (e : exec).

(** [Note]: what Zotero inserts (src/browser/src/control/Control.Zotero.js:1223);
    [ClipboardChanged]: the message [clipboardchanged:] of the server. *)
Definition step (ev : event) (st : clip) : clip :=
  match ev with
  | Copy pg hasData => default st (doCopyCut pg hasData false st)
  | Cut pg hasData => default st (doCopyCut pg hasData true st)
  | Paste pg dt => paste pg dt st
  | Drop dt => drop dt st
  | Note html => dataTransferToDocumentFallback None html false st
  | Command cmd e e' => (filterExecCopyPaste cmd e e' st).1
  | SelectHTML html => setTextSelectionHTML html st
  | SelectText text => setTextSelectionText text st
  | SelectComplex => onComplexSelection st
  | ClearSelection => clearSelection st
  | SetKey key => set_accessKey (setKey key (accessKey st)) st
  | ClipboardChanged content e e' => execCopyCutPaste OpCopy e e' (setTextSelectionHTML content st)
  | StartDownload => onStartDownload st
  | ConfirmCopy e e' => onConfirmCopyAction e e' st
  | CancelDownload => on_progress onClose st
  | OpenSpecial => openPasteSpecialPopup st
  | CloseSpecial => set_special (pasteSpecial st) false st
  | Answer i a pg e =>
      match pending st !! i with
      | Some r => handle r a pg e (set_pending (delete i (pending st)) st)
      | None => st
      end
  end.

Definition run (evs : list event) (st : clip) : clip := foldl (fun st ev => step ev st) st evs.

(** ** Effects of the operations on what a paste can lead to *)

(** Whether an effect is a paste - a command to the server, or the data of an image - and
    whether a pending operation can lead to one. *)
Definition is_paste_effect (e : effect) : bool :=
  match e with
  | Uno c => String.eqb c ".uno:Paste" || String.eqb c ".uno:PasteSpecial"
  | KeyEvent _ k => (k =? 1299)%Z
  | PasteBlob _ _ => true
  | _ => false
  end.

Definition pastes (l : list effect) : nat := sum_list_with (fun e => Nat.b2n (is_paste_effect e)) l.

Definition can_paste (r : request) : nat :=
  match r with
  | LargeGet _ | LargeParse _ | HelpTimer _ _ => 0
  | _ => 1
  end.

(** The image files among those that an event brings. *)
Definition image_files (dt : dataTransfer) : nat :=
  sum_list_with (fun td => if String.eqb td.1 "Files"
                           then sum_list_with (fun f => Nat.b2n (includes f.1 "image")) (files dt) else 0) (types dt).

(** Whether there is nothing but images in what an event brings: no content, or the markup of
    an image. *)
Definition just_images (dt : dataTransfer) (html : string) : bool :=
  (bool_decide (readContentSync (types dt) = []) && String.eqb html "") || starts_with html "<img".

(** How many things an event offers for pasting: its image files if there is nothing else,
    and otherwise one content. *)
Definition offered (dt : dataTransfer) (html : string) : nat :=
  if just_images dt html then Nat.max 1 (image_files dt) else 1.

Definition paste_budget (dt : option dataTransfer) : nat :=
  match dt with Some dt => offered dt (getData "text/html" (types dt)) | None => 1 end.

(** The same for the event that [document.execCommand] dispatches. *)
Definition exec_budget (e : exec) : nat :=
  match dispatched e with Some (_, dt) => paste_budget dt | None => 1 end.

Definition potential (st : clip) : nat := pastes (log st) + sum_list_with can_paste (pending st).

(** An operation that leads to [n] pastes at most and leaves the clipboard alone. *)
Record grows (n : nat) (st st' : clip) : Prop := Grows {
  grows_potential : potential st' <= potential st + n;
  grows_serial : clipboardSerial st' = clipboardSerial st;
  grows_clipboard : onClipboard st' = onClipboard st
}.

Lemma grows_refl n st : grows n st st.
Proof. by split; [lia| |]. Qed.

Lemma grows_trans m n k st st' st'' : grows m st st' -> grows n st' st'' -> m + n <= k -> grows k st st''.
Proof. intros [] [] ?. split; [lia|congruence|congruence]. Qed.

Lemma grows_le m n st st' : grows m st st' -> m <= n -> grows n st st'.
Proof. intros [] ?. split; [lia|done|done]. Qed.

(** Changes of the other fields. *)
Lemma grows_frame st st' :
  log st' = log st -> pending st' = pending st -> clipboardSerial st' = clipboardSerial st ->
  onClipboard st' = onClipboard st -> grows 0 st st'.
Proof. intros Hl Hp ? ?. unfold potential. split; [|done|done]. unfold potential. rewrite Hl, Hp. lia. Qed.

Lemma grows_emit e st : grows (Nat.b2n (is_paste_effect e)) st (emit e st).
Proof. split; [|done|done]. unfold potential, pastes. cbn. rewrite sum_list_with_app. cbn. lia. Qed.

Lemma grows_pending r st : grows (can_paste r) st (add_pending r st).
Proof. split; [|done|done]. unfold potential. cbn [add_pending set_pending pending log]. rewrite sum_list_with_app. cbn [sum_list_with]. lia. Qed.

Lemma grows_on_progress f st : grows 0 st (on_progress f st).
Proof. by apply grows_frame. Qed.

Lemma grows_set_special f o st : grows 0 st (set_special f o st).
Proof. by apply grows_frame. Qed.

Lemma grows_stopHide st : grows 0 st (stopHideDownload st).
Proof. unfold stopHideDownload. case_match; by apply grows_frame. Qed.

Lemma grows_startProgress large st : grows 0 st (startProgress large st).
Proof. by apply grows_frame. Qed.

Lemma grows_scheduleHide st : grows 0 st (scheduleHideDownload st).
Proof. unfold scheduleHideDownload. repeat case_match; (apply grows_stopHide || apply grows_refl). Qed.

Lemma grows_largeCopy st : grows 0 st (onDownloadOnLargeCopyPaste st).
Proof. unfold onDownloadOnLargeCopyPaste. case_match; case_match; (apply (grows_emit WarnLargeStarted) || apply grows_startProgress). Qed.

Lemma grows_doAsync r url st :
  let '(st', raised) := doAsyncDownload r url st in grows (if raised then 0 else can_paste r) st st'.
Proof.
  unfold doAsyncDownload. set (st1 := if is_closed _ then _ else _).
  assert (grows 0 st st1) by (unfold st1; case_match; by apply grows_frame).
  destruct (opens cf url); [|done]. eapply grows_trans; [done|apply grows_pending|lia].
Qed.

Lemma grows_doAsync_fst r url st : grows (can_paste r) st (doAsyncDownload r url st).1.
Proof. pose proof (grows_doAsync r url st) as H. destruct (doAsyncDownload r url st) as [st' []]; [|done]. apply (grows_le 0); [done|lia]. Qed.

Lemma grows_check st : grows 0 st (checkAndDisablePasteSpecial st).2.
Proof. unfold checkAndDisablePasteSpecial. repeat case_match; by apply grows_frame. Qed.

Lemma grows_send_paste st : grows 1 st (send_paste st).
Proof.
  unfold send_paste. pose proof (grows_check st) as H. destruct (checkAndDisablePasteSpecial st) as [special st'].
  eapply grows_trans; [exact H|apply grows_emit|]. by destruct special.
Qed.

Lemma grows_internal key st : grows 1 st (doInternalPaste key st).
Proof. unfold doInternalPaste. case_match; [apply (grows_emit (KeyEvent 0 1299))|apply grows_send_paste]. Qed.

Lemma grows_foldl {A} (f : clip -> A -> clip) (n : A -> nat) l st :
  (forall st x, grows (n x) st (f st x)) -> grows (sum_list_with n l) st (foldl f st l).
Proof.
  intros Hf. revert st. induction l as [|x l IH]; intros st; [apply grows_refl|]. cbn [foldl sum_list_with].
  by eapply grows_trans; [apply Hf|apply IH|].
Qed.

Lemma grows_images dt st : grows (image_files dt) st (paste_images dt st).
Proof.
  apply grows_foldl. intros st' td. case_match; [|apply grows_refl]. apply grows_foldl. intros st'' f.
  case_match; [apply (grows_pending (ImageRead f.1 f.2))|apply grows_refl].
Qed.

Lemma offered_pos dt html : 1 <= offered dt html.
Proof. unfold offered. case_match; lia. Qed.

Lemma paste_budget_pos dt : 1 <= paste_budget dt.
Proof. destruct dt; [apply offered_pos|done]. Qed.

Lemma exec_budget_pos e : 1 <= exec_budget e.
Proof. unfold exec_budget. repeat case_match; auto using paste_budget_pos. Qed.

(** Either the images are read or the content is posted, not both. *)
Lemma grows_fallback dt html key st :
  grows (match dt with Some dt => offered dt html | None => 1 end) st (dataTransferToDocumentFallback dt html key st).
Proof.
  assert (Hp : forall content, grows 1 st (doAsyncDownload (ContentPost (metaURL st) content key) (metaURL st) st).1)
    by (intros content; apply (grows_doAsync_fst (ContentPost _ content key))).
  unfold dataTransferToDocumentFallback. destruct dt as [dt|]; [|repeat case_match; auto using grows_refl].
  set (content := match readContentSync (types dt) with [] => _ | _ => _ end).
  assert (Hj : bool_decide (content = []) && String.eqb html "" || starts_with html "<img" = just_images dt html).
  { unfold just_images, content. destruct (readContentSync (types dt)); [|done]. by destruct (String.eqb html ""). }
  rewrite Hj. unfold offered. destruct (just_images dt html).
  - eapply grows_le; [apply grows_images|lia].
  - case_match; auto using grows_refl.
Qed.

Lemma grows_download_failed src dest html st : grows 1 st (download_failed src dest html st).
Proof.
  unfold download_failed. case_match; [apply (grows_le 0); [apply (grows_emit WarnRecopy)|lia]|].
  pose proof (grows_check st) as Hc. destruct (checkAndDisablePasteSpecial st) as [special st1]. cbn [snd] in Hc.
  pose proof (grows_doAsync (FallbackPost src dest html special) dest st1) as Hd.
  destruct (doAsyncDownload _ dest st1) as [st2 []].
  - eapply grows_trans; [eapply grows_trans; [exact Hc|exact Hd|reflexivity]|apply grows_fallback|lia].
  - by eapply grows_trans; [exact Hc|exact Hd|].
Qed.

Lemma grows_transfer src dest html st : grows 1 st (dataTransferDownloadAndPasteAsync src dest html st).
Proof.
  unfold dataTransferDownloadAndPasteAsync. pose proof (grows_doAsync (TransferGet src dest html) src st) as Hd.
  destruct (doAsyncDownload _ src st) as [st1 []]; [|done]. by eapply grows_trans; [exact Hd|apply grows_download_failed|].
Qed.

Lemma grows_toDocument dt internal html key st st' fin :
  dataTransferToDocument dt internal html key st = Some (st', fin) -> grows (offered dt html) st st'.
Proof.
  pose proof (offered_pos dt html) as Ho.
  unfold dataTransferToDocument. destruct (decide_paste _ _ _ _) as [d|]; [|done]. cbn [mbind option_bind].
  intros H. apply (inj Some) in H. destruct d; apply pair_eq in H as [<- _].
  - eapply grows_le; [apply grows_internal|exact Ho].
  - eapply grows_le; [apply grows_transfer|exact Ho].
  - apply (grows_fallback (Some dt)).
Qed.

Lemma grows_drop dt st : grows (paste_budget (Some dt)) st (drop dt st).
Proof.
  unfold drop. destruct (dataTransferToDocument _ _ _ _ _) as [[st' fin]|] eqn:E; [by eapply grows_toDocument|apply grows_refl].
Qed.

(** A paste that is not carried out changes nothing, and one that is counts. *)
Lemma paste_grows pg dt st :
  grows 0 st (paste pg dt st) \/
  potential (paste pg dt st) <= potential st + paste_budget dt /\ onClipboard (paste pg dt st) = onClipboard st /\
  clipboardSerial (paste pg dt st) = S (clipboardSerial st).
Proof.
  unfold paste. destruct (isReadOnlyMode pg); [left; apply grows_refl|].
  destruct (_ && _); [left; apply grows_refl|]. destruct (isSearching pg); [left; apply grows_refl|].
  set (st1 := if button_shown st then _ else _). assert (H1 : grows 0 st st1) by (unfold st1; case_match; [apply grows_stopHide|apply grows_refl]).
  destruct dt as [dt|]; [|by left]. destruct (dataTransferToDocument _ _ _ _ st1) as [[st2 fin]|] eqn:E; [|by left].
  right. apply grows_toDocument in E. set (st3 := bump_serial _). pose proof (grows_emit AbortComposition st2) as H3.
  assert (Hst3 : potential st3 = potential (emit AbortComposition st2) /\ onClipboard st3 = onClipboard st2 /\ clipboardSerial st3 = S (clipboardSerial st2)) by done.
  clearbody st3. assert (Hs : grows 0 st3 (if fin then stopHideDownload st3 else st3)) by (case_match; [apply grows_stopHide|apply grows_refl]).
  destruct H1, E, H3, Hs, Hst3 as (? & ? & ?). cbn [is_paste_effect Nat.b2n paste_budget] in *. split_and!; [lia|congruence|congruence].
Qed.

Lemma paste_clipboard pg dt st : onClipboard (paste pg dt st) = onClipboard st.
Proof. destruct (paste_grows pg dt st) as [[]|(_ & H & _)]; done. Qed.

Lemma paste_potential pg dt st : potential (paste pg dt st) <= potential st + paste_budget dt.
Proof. destruct (paste_grows pg dt st) as [[]|(H & _)]; lia. Qed.

(** The stub for disabled copying, as HTML with the origin of the session, and as text. *)
Definition disabled_html (key : string) : string := originWrapBody (sess cf) key (disabledText cf) true.

Definition disabled_plain (key : string) : string :=
  let plain := stripHTML cf (disabled_html key) in if String.eqb plain "" then " " else plain.

(** Where [_doCopyCut] leads: what is on the clipboard is the stub if copying is disabled. *)
Definition good_clipboard (st st' : clip) : Prop :=
  onClipboard st' = onClipboard st \/
  disableCopy cf = false \/
  exists key, onClipboard st' = Some (disabled_plain key, disabled_html key).

Lemma grows_getHtml pg st html st' : getHtmlForClipboard pg st = Some (html, st') -> grows 0 st st'.
Proof.
  unfold getHtmlForClipboard. intros H.
  repeat case_match; simplify_eq; solve [apply grows_refl|by eapply grows_trans; [apply grows_largeCopy|apply grows_on_progress|]].
Qed.

(** Copying does not raise an error: the calls of [value] are out of reach. *)
Lemma copy_total pg hasData isCut st :
  exists st', doCopyCut pg hasData isCut st = Some st' /\ potential st' <= potential st /\ good_clipboard st st'.
Proof.
  unfold doCopyCut, good_clipboard. destruct (isAnyInputFieldSelected pg st) eqn:Hi; [exists st; auto|].
  assert (He : uiEditFocus pg = false /\ w2uiInputFocus pg = false).
  { unfold isAnyInputFieldSelected in Hi. rewrite !orb_false_iff in Hi. tauto. }
  set (st1 := if button_shown st then _ else _). assert (H1 : grows 0 st st1) by (unfold st1; case_match; [apply grows_stopHide|apply grows_refl]).
  clearbody st1. set (inner := if disableCopy cf then _ else _).
  assert (Hin : exists st2, inner = Some st2 /\ potential st2 <= potential st1 /\
    (onClipboard st2 = onClipboard st1 \/ disableCopy cf = false \/
     exists key, onClipboard st2 = Some (disabled_plain key, disabled_html key))).
  { unfold inner. destruct (disableCopy cf).
    - eexists. split; [reflexivity|]. destruct hasData; [|split; [lia|by left]]. split; [done|]. right. right. by eexists.
    - unfold populateClipboard. destruct (getHtmlForClipboard pg st1) as [[html st2]|] eqn:E.
      + apply grows_getHtml in E as []. cbn [mbind option_bind]. eexists. split; [reflexivity|].
        assert (Hq : potential (put_both html st2) = potential st2) by done.
        destruct hasData; split; auto; lia.
      + exfalso. unfold getHtmlForClipboard in E. destruct He as [-> ->] in E. repeat case_match; discriminate. }
  destruct Hin as (st2 & -> & Hp & Hc). cbn [mbind option_bind]. eexists. split; [reflexivity|].
  set (st3 := emit _ st2). assert (H3 : grows 0 st2 st3) by (destruct isCut; [apply (grows_emit (Uno ".uno:Cut"))|apply (grows_emit (Uno ".uno:Copy"))]).
  assert (H4 : grows 0 st3 (if hasData && isCut then emit AbortComposition st3 else st3))
    by (case_match; [apply (grows_emit AbortComposition)|apply grows_refl]).
  destruct H1, H3, H4. split; [lia|]. destruct Hc as [Hc|[Hc|(key & Hc)]]; [left; congruence|auto|].
  right. right. exists key. congruence.
Qed.

(** ** One paste for one gesture *)

(** A browser that dispatches an event says that it did. *)
Definition honest (e : exec) : Prop := is_Some (dispatched e) -> returns e = true.

Definition honest_event (ev : event) : Prop :=
  match ev with
  | Command _ e e' | ClipboardChanged _ e e' | ConfirmCopy e e' => honest e /\ honest e'
  | Answer _ _ _ e => honest e
  | _ => True
  end.

(** What the user does to paste, and how many things it may paste: one, unless there are just
    images.  An answer may make the browser dispatch an event with images, for the gesture
    that has had its one already. *)
Definition gesture (ev : event) : nat :=
  match ev with
  | Paste _ dt => paste_budget dt
  | Drop dt => paste_budget (Some dt)
  | Note _ => 1
  | Command cmd e e' =>
      if String.eqb cmd ".uno:Paste" then Nat.max (exec_budget e) (exec_budget e')
      else Nat.b2n (String.eqb cmd ".uno:PasteSpecial")
  | Answer _ _ _ e => Nat.pred (exec_budget e)
  | _ => 0
  end.

Definition op_budget (op : operation) (n : nat) : nat := if is_paste op then n else 0.

Lemma dispatch_spec op e st :
  let st' := dispatch op e st in
  good_clipboard st st' /\ potential st' <= potential st + op_budget op (exec_budget e) /\
  (honest e -> is_paste op = true -> returns e && negb (clipboardSerial st =? clipboardSerial st')%nat = false ->
   potential st' <= potential st).
Proof.
  unfold dispatch, good_clipboard, exec_budget. destruct (dispatched e) as [[pg dt]|] eqn:E; cbv zeta; [|split_and!; auto; lia].
  assert (Hcopy : forall isCut, let st' := default st (doCopyCut pg (bool_decide (is_Some dt)) isCut st) in
    good_clipboard st st' /\ potential st' <= potential st).
  { intros isCut. destruct (copy_total pg (bool_decide (is_Some dt)) isCut st) as (st' & -> & Hp & Hg). done. }
  destruct op; cbn [op_budget is_paste].
  - destruct (Hcopy false) as [Hg Hp]. split; [exact Hg|]. split; [lia|done].
  - destruct (Hcopy true) as [Hg Hp]. split; [exact Hg|]. split; [lia|done].
  - split; [left; apply paste_clipboard|]. split; [apply paste_potential|]. intros Hh _ Hr.
    destruct (paste_grows pg dt st) as [[]|(_ & _ & Hs)]; [lia|]. rewrite Hh, Hs in Hr by done.
    exfalso. cbn [andb] in Hr. apply negb_false_iff, Nat.eqb_eq in Hr. lia.
Qed.

Lemma good_clipboard_grows n st st1 st2 : good_clipboard st st1 -> grows n st1 st2 -> good_clipboard st st2.
Proof. unfold good_clipboard. intros H [_ _ ->]. done. Qed.

Lemma good_clipboard_trans st st1 st2 : good_clipboard st st1 -> good_clipboard st1 st2 -> good_clipboard st st2.
Proof. unfold good_clipboard. intros H [H2|H2]; [by rewrite H2|auto]. Qed.

Lemma grows_good n st st' : grows n st st' -> good_clipboard st st'.
Proof. intros [_ _ H]. by left. Qed.

Lemma after_spec op e st :
  honest e -> let st' := afterCopyCutPaste op e st in
  good_clipboard st st' /\ potential st' <= potential st + op_budget op (exec_budget e).
Proof.
  intros He. cbv zeta. unfold afterCopyCutPaste. destruct (dispatch_spec op e st) as (Hg & Hp & Hn). case_match; [done|].
  set (st1 := dispatch op e st) in *. set (st2 := if is_paste op then emit AskParent st1 else st1).
  assert (H2 : grows 0 st1 st2) by (unfold st2; case_match; [apply (grows_emit AskParent)|apply grows_refl]).
  pose proof (grows_pending (HelpTimer (is_paste op) (clipboardSerial st)) st2) as H3. cbn [can_paste] in H3.
  split; [eapply good_clipboard_grows; [eapply good_clipboard_grows; [exact Hg|exact H2]|exact H3]|]. destruct H2, H3. lia.
Qed.

Lemma navRead_grows special st : grows 1 st (navigatorClipboardRead special st).1.
Proof. unfold navigatorClipboardRead. case_match; [apply (grows_pending (NavRead special))|apply grows_refl]. Qed.

Lemma exec_spec op e e' st :
  honest e -> honest e' -> let st' := execCopyCutPaste op e e' st in
  good_clipboard st st' /\ potential st' <= potential st + op_budget op (Nat.max (exec_budget e) (exec_budget e')).
Proof.
  intros He He'. cbv zeta. unfold execCopyCutPaste. destruct (dispatch_spec op e st) as (Hg & Hp & Hn). set (st1 := dispatch op e st) in *.
  pose proof (exec_budget_pos e) as He1. destruct (after_spec op e' st1 He') as [Ha Hb].
  unfold op_budget in *. destruct (returns e && _) eqn:Hr; [split; [done|case_match; lia]|].
  destruct (is_paste op) eqn:Ho; [|split; [by eapply good_clipboard_trans|lia]].
  specialize (Hn He eq_refl eq_refl). pose proof (navRead_grows false st1) as Hv.
  unfold navigatorClipboardRead in *. destruct (hasNavigatorRead cf); cbn [fst] in Hv.
  - split; [by eapply good_clipboard_grows|]. destruct Hv. lia.
  - split; [by eapply good_clipboard_trans|lia].
Qed.

Lemma filter_spec cmd e e' st :
  honest e -> honest e' -> let st' := (filterExecCopyPaste cmd e e' st).1 in
  good_clipboard st st' /\
  potential st' <= potential st + gesture (Command cmd e e').
Proof.
  intros He He'. cbv zeta. unfold filterExecCopyPaste, gesture. destruct (isMobileApp cf); [split; [by left|cbn [fst]; lia]|].
  destruct (String.eqb_spec cmd ".uno:Copy") as [->|]; [|destruct (String.eqb_spec cmd ".uno:Cut") as [->|];
    [|destruct (String.eqb_spec cmd ".uno:Paste") as [->|]; [|destruct (String.eqb_spec cmd ".uno:PasteSpecial") as [->|]]]].
  - cbn [String.eqb Ascii.eqb Bool.eqb Nat.b2n]. destruct (disableCopy cf); cbn [andb orb fst]; [|exact (exec_spec OpCopy e e' st He He')].
    assert (H : grows 0 st (emit (Uno ".uno:Copy") st)) by apply (grows_emit (Uno ".uno:Copy")).
    destruct H. split; [by left|lia].
  - cbn [String.eqb Ascii.eqb Bool.eqb Nat.b2n]. destruct (disableCopy cf); cbn [andb orb fst]; [|exact (exec_spec OpCut e e' st He He')].
    assert (H : grows 0 st (emit (Uno ".uno:Cut") st)) by apply (grows_emit (Uno ".uno:Cut")).
    destruct H. split; [by left|lia].
  - cbn [orb]. rewrite andb_false_r. exact (exec_spec OpPaste e e' st He He').
  - cbn [orb]. rewrite andb_false_r. destruct (navRead_grows true st) as [Hp _ Hc]. unfold navigatorClipboardRead in *.
    destruct (hasNavigatorRead cf); cbn [fst] in *; [split; [by left|exact Hp]|]. split; [by left|].
    unfold openPasteSpecialPopup. destruct (grows_set_special (pasteSpecial st) true st). lia.
  - cbn [orb]. rewrite andb_false_r. split; [by left|cbn [fst]; lia].
Qed.

Lemma grows_xhr n forClipboard completeFn onErrorFn a st :
  (forall response st, grows n st (completeFn response st)) -> (forall st, grows n st (onErrorFn st)) ->
  grows n st (xhr_answer forClipboard completeFn onErrorFn a st).
Proof.
  intros Hc He. unfold xhr_answer.
  assert (Hf : forall st, grows n st (on_progress onClose (on_progress onComplete (onErrorFn st)))).
  { intros st'. eapply grows_trans; [apply He|eapply grows_trans; [apply grows_on_progress|apply grows_on_progress|reflexivity]|lia]. }
  destruct a; [|apply Hf|apply Hf|].
  - set (st1 := on_progress onComplete st). set (st2 := if forClipboard then st1 else on_progress onClose st1).
    assert (H2 : grows 0 st st2).
    { eapply (grows_trans 0 0); [apply grows_on_progress| |reflexivity]. unfold st2. case_match; [apply grows_refl|apply grows_on_progress]. }
    case_match; eapply grows_trans; [exact H2|apply Hc|reflexivity|exact H2|apply He|reflexivity].
  - apply (grows_le 0); [|lia]. eapply grows_trans; [apply (grows_emit WarnTimeout)|apply grows_on_progress|reflexivity].
Qed.

Lemma grows_navCallback entries st : grows 1 st (navigatorClipboardReadCallback entries st).
Proof.
  unfold navigatorClipboardReadCallback. repeat case_match;
    solve [apply grows_refl|apply (grows_pending (NavGetType _ _))].
Qed.

Lemma grows_setHTML html st : grows 0 st (setTextSelectionHTML html st).
Proof. unfold setTextSelectionHTML. by eapply grows_trans; [apply (grows_frame st (set_selection html (Some SText) st))|apply grows_scheduleHide|]. Qed.

Definition good_step (n : nat) (st st' : clip) : Prop := good_clipboard st st' /\ potential st' <= potential st + n.

Lemma grows_step n st st' : grows n st st' -> good_step n st st'.
Proof. intros H. split; [by eapply grows_good|apply H]. Qed.

Lemma good_step_le m n st st' : good_step m st st' -> m <= n -> good_step n st st'.
Proof. intros [] ?. split; [done|lia]. Qed.

(** Text of the browser's clipboard comes without files. *)
Lemma nav_text_potential pg text mime st :
  potential (navigatorClipboardTextCallback pg text mime st) <= potential st + 1.
Proof.
  etrans; [apply paste_potential|]. unfold paste_budget, offered, image_files. cbn [files types sum_list_with].
  repeat case_match; lia.
Qed.

(** What the environment does next matters to the reader of the clipboard alone. *)
Lemma handle_spec r a pg e st : honest e -> good_step (can_paste r + Nat.pred (exec_budget e)) st (handle r a pg e st).
Proof.
  intros He. pose proof (exec_budget_pos e) as He1. set (k := Nat.pred (exec_budget e)).
  assert (Hle : forall n st', good_step n st st' -> good_step (n + k) st st') by (intros n st' H; eapply good_step_le; [exact H|lia]).
  destruct r; cbn [handle can_paste].
  - apply Hle, grows_step, grows_xhr; [|apply grows_download_failed]. intros response st'. apply (grows_doAsync_fst (TransferPost _ _)).
  - apply Hle, grows_step, grows_xhr; [intros _; apply grows_send_paste|apply grows_refl].
  - apply Hle, grows_step, grows_xhr; [intros _; apply grows_refl|apply (grows_fallback None)].
  - apply Hle, grows_step, grows_xhr; [intros _; apply grows_internal|apply grows_refl].
  - apply Hle, grows_step, grows_xhr; [intros response st'; apply (grows_pending (LargeParse _))|apply grows_on_progress].
  - apply Hle. destruct a; apply grows_step; auto using grows_refl, grows_setHTML.
  - apply Hle. destruct a; apply grows_step; try apply grows_refl. apply (grows_emit (PasteBlob _ _)).
  - assert (Hc : forall entries, grows 1 st (navigatorClipboardReadCallback entries (if isSpecial then set_special true (specialOpen st) st else st))).
    { intros entries. eapply (grows_trans 0 1); [|apply grows_navCallback|lia]. destruct isSpecial; [apply grows_set_special|apply grows_refl]. }
    assert (Hf : good_step (1 + k) st (if isSpecial then openPasteSpecialPopup st else afterCopyCutPaste OpPaste e st)).
    { destruct isSpecial; [apply Hle, grows_step, (grows_le 0); [apply grows_set_special|lia]|].
      eapply good_step_le; [apply (after_spec OpPaste e st He)|cbn [op_budget is_paste]; lia]. }
    destruct a; try apply Hf. apply Hle, grows_step, Hc.
  - apply Hle. assert (Hn : good_step 1 st st) by apply grows_step, grows_refl.
    destruct a; try done. destruct (List.find _ _) as [td|]; [|done]. apply grows_step. unfold navigatorClipboardGetTypeCallback.
    case_match; [apply (grows_emit (PasteBlob _ _))|apply (grows_pending (NavText _ _ _))].
  - apply Hle. assert (Hn : good_step 1 st st) by apply grows_step, grows_refl.
    destruct a; try done. case_match; [apply grows_step, (grows_pending (NavGetType _ _))|].
    split; [left; apply paste_clipboard|apply (nav_text_potential pg text mime)].
  - apply Hle, grows_step. repeat case_match; [apply grows_stopHide|apply grows_refl|apply (grows_emit WarnCopyPaste)].
Qed.

Lemma sum_delete (f : request -> nat) l i r :
  l !! i = Some r -> sum_list_with f (delete i l) + f r = sum_list_with f l.
Proof.
  revert i. induction l as [|x l IH]; intros [|i] H; simplify_eq/=; [lia|]. specialize (IH i H). lia.
Qed.

Lemma step_spec ev st : honest_event ev -> good_step (gesture ev) st (step ev st).
Proof.
  destruct ev; cbn [honest_event gesture step]; intros H.
  - destruct (copy_total pg hasData false st) as (st' & -> & ? & ?). split; [done|cbn [default from_option id]; lia].
  - destruct (copy_total pg hasData true st) as (st' & -> & ? & ?). split; [done|cbn [default from_option id]; lia].
  - split; [left; apply paste_clipboard|apply paste_potential].
  - apply grows_step, grows_drop.
  - apply grows_step, (grows_fallback None).
  - destruct H. by apply filter_spec.
  - apply grows_step, grows_setHTML.
  - apply grows_step. unfold setTextSelectionText. case_match; [apply (grows_emit GetTextSelection)|].
    eapply (grows_trans 0 0); [|apply grows_scheduleHide|reflexivity]; by apply grows_frame.
  - apply grows_step. unfold onComplexSelection. eapply (grows_trans 0 0); [|apply grows_scheduleHide|reflexivity]; by apply grows_frame.
  - apply grows_step. unfold clearSelection. eapply (grows_trans 0 0); [|apply grows_scheduleHide|reflexivity]; by apply grows_frame.
  - by apply grows_step, grows_frame.
  - destruct H as [He He']. destruct (grows_setHTML content st) as [Hp _ Hc].
    destruct (exec_spec OpCopy e e' (setTextSelectionHTML content st) He He') as [Hg Hq]. cbn [op_budget is_paste] in Hq.
    split; [|lia]. unfold good_clipboard in *. by rewrite <- Hc.
  - apply grows_step. unfold onStartDownload. destruct (downloadProgress st) as [p|]; [|apply grows_refl].
    destruct (uri p) as [u|]; [|apply grows_refl]. set (st1 := on_progress startProgressMode st).
    assert (H1 : grows 0 st st1) by apply grows_on_progress. pose proof (grows_doAsync (LargeGet u) u st1) as Hd.
    destruct (doAsyncDownload _ u st1) as [st2 []]; cbn [can_paste] in Hd; [|by eapply grows_trans].
    by eapply grows_trans; [eapply grows_trans; [exact H1|exact Hd|reflexivity]|apply grows_on_progress|].
  - destruct H as [He He']. unfold onConfirmCopyAction. destruct (filter_spec ".uno:Copy" e e' st He He') as [Hg Hq].
    destruct (grows_on_progress onClose (filterExecCopyPaste ".uno:Copy" e e' st).1) as [Hp _ Hc].
    split; [unfold good_clipboard in *; by rewrite Hc|change (gesture (Command ".uno:Copy" e e')) with 0 in Hq; lia].
  - apply grows_step, grows_on_progress.
  - apply grows_step, grows_set_special.
  - apply grows_step, grows_set_special.
  - destruct (pending st !! i) as [r|] eqn:Hi; [|apply grows_step, grows_refl]. set (st1 := set_pending (delete i (pending st)) st).
    destruct (handle_spec r a pg e st1 H) as [Hg Hp]. split; [exact Hg|].
    assert (potential st1 + can_paste r = potential st); [|cbn [gesture]; lia].
    unfold potential, st1. cbn [set_pending pending log]. pose proof (sum_delete can_paste (pending st) i r Hi). lia.
Qed.

Definition gestures (evs : list event) : nat := sum_list_with gesture evs.

Lemma run_spec evs st : Forall honest_event evs -> good_step (gestures evs) st (run evs st).
Proof.
  revert st. induction evs as [|ev evs IH]; intros st Hf; [apply grows_step, grows_refl|].
  apply Forall_cons in Hf as [He Hf]. cbn [run foldl gestures sum_list_with]. fold (run evs (step ev st)) (gestures evs).
  destruct (step_spec ev st He) as [Hg Hp]. destruct (IH (step ev st) Hf) as [Hg' Hp'].
  split; [by eapply good_clipboard_trans|lia].
Qed.

(** C27: A gesture of the user pastes one thing at most, whichever way the content takes -
    inside the server, through a download and an upload, the fallback of the server, a post
    of the content, the data of an image, the promises of the browser's clipboard or an event
    dispatched on behalf of the client - in whatever order requests are answered, fail or time
    out.  Only where an event brings images and no content (or the markup of an image) may
    more be pasted: its image files, each once, and then nothing else.  The browser says so
    where [document.execCommand] dispatches an event. *)
Theorem pasted_once evs :
  Forall honest_event evs -> pastes (log (run evs new_clip)) <= gestures evs.
Proof. intros Hf. destruct (run_spec evs new_clip Hf) as [_ Hp]. unfold potential in Hp. cbn in Hp. lia. Qed.

(** C28: Where copying is disabled no content of the document gets on the clipboard of the
    system: whatever happens - selections, downloads, commands, pastes - all that is ever put
    on it is the stub that says so: as HTML with an origin, and as the text of that HTML. *)
Theorem copy_disabled evs plain html :
  disableCopy cf = true -> Forall honest_event evs -> onClipboard (run evs new_clip) = Some (plain, html) ->
  exists key, html = disabled_html key /\ plain = disabled_plain key.
Proof.
  intros Hd Hf Hc. destruct (run_spec evs new_clip Hf) as [[H|[H|(key & H)]] _]; [by rewrite Hc in H|congruence|].
  exists key. rewrite Hc in H. by injection H as -> ->.
Qed.

(** ** Pending operations come to an end *)

(** How many answers a pending operation can take, with those that follow from it. *)
Definition work_of (r : request) : nat :=
  match r with
  | TransferGet _ _ _ => 3
  | FallbackPost _ _ _ _ | LargeGet _ => 2
  | NavRead _ => 6
  | NavGetType _ mime => if String.eqb mime "image/png" then 1 else 5
  | NavText _ _ _ => 4
  | _ => 1
  end.

Definition work (st : clip) : nat := sum_list_with work_of (pending st).

Lemma work_pending r st : work (add_pending r st) = work st + work_of r.
Proof. unfold work. cbn [add_pending set_pending pending]. rewrite sum_list_with_app. cbn [sum_list_with]. lia. Qed.

Lemma work_stopHide st : work (stopHideDownload st) = work st.
Proof. unfold stopHideDownload. by case_match. Qed.

Lemma work_doAsync r url st : work (doAsyncDownload r url st).1 = work st + (if (doAsyncDownload r url st).2 then 0 else work_of r).
Proof.
  unfold doAsyncDownload. set (st1 := if is_closed _ then _ else _). assert (work st1 = work st) by (unfold st1; by case_match).
  destruct (opens cf url); cbn [fst snd]; [rewrite work_pending|]; lia.
Qed.

Lemma work_doAsync_le r url st : work (doAsyncDownload r url st).1 <= work st + work_of r.
Proof. rewrite work_doAsync. case_match; lia. Qed.

Lemma work_check st : work (checkAndDisablePasteSpecial st).2 = work st.
Proof. unfold checkAndDisablePasteSpecial. by repeat case_match. Qed.

Lemma work_internal key st : work (doInternalPaste key st) = work st.
Proof.
  unfold doInternalPaste, send_paste. case_match; [done|]. pose proof (work_check st).
  by destruct (checkAndDisablePasteSpecial st).
Qed.

Lemma work_post content key st : work (doAsyncDownload (ContentPost (metaURL st) content key) (metaURL st) st).1 <= work st + 1.
Proof. apply (work_doAsync_le (ContentPost _ _ _)). Qed.

(** Without files there are no images to read. *)
Lemma work_fallback dt html key st :
  match dt with Some dt => files dt = [] | None => True end ->
  work (dataTransferToDocumentFallback dt html key st) <= work st + 1.
Proof.
  intros Hf. unfold dataTransferToDocumentFallback. destruct dt as [dt|]; [|repeat case_match; auto using work_post; lia].
  assert (Hi : paste_images dt st = st).
  { unfold paste_images. rewrite Hf. cbn [foldl]. induction (types dt) as [|td l IH]; [done|]. cbn [foldl]. by case_match. }
  rewrite Hi. repeat case_match; auto using work_post; lia.
Qed.

Lemma work_download_failed src dest html st : work (download_failed src dest html st) <= work st + 2.
Proof.
  unfold download_failed. case_match; [change (work st <= work st + 2); lia|]. pose proof (work_check st) as Hc.
  destruct (checkAndDisablePasteSpecial st) as [special st1]. cbn [snd] in Hc.
  pose proof (work_doAsync (FallbackPost src dest html special) dest st1) as Hd.
  destruct (doAsyncDownload _ dest st1) as [st2 []]; cbn [fst snd work_of] in Hd; [|lia].
  pose proof (work_fallback None html false st2 I). lia.
Qed.

Lemma work_transfer src dest html st : work (dataTransferDownloadAndPasteAsync src dest html st) <= work st + 3.
Proof.
  unfold dataTransferDownloadAndPasteAsync. pose proof (work_doAsync (TransferGet src dest html) src st) as Hd.
  destruct (doAsyncDownload _ src st) as [st1 []]; cbn [fst snd work_of] in Hd; [|lia].
  pose proof (work_download_failed src dest html st1). lia.
Qed.

Lemma work_paste pg mime text st :
  work (paste pg (Some (DataTransfer [(mime, text)] [])) st) <= work st + 3.
Proof.
  unfold paste. destruct (isReadOnlyMode pg); [lia|]. destruct (_ && _); [lia|]. destruct (isSearching pg); [lia|].
  set (st1 := if button_shown st then _ else _). assert (H1 : work st1 = work st) by (unfold st1; case_match; [apply work_stopHide|done]).
  destruct (dataTransferToDocument _ _ _ _ st1) as [[st2 fin]|] eqn:E; [|lia].
  assert (H2 : work st2 <= work st + 3).
  { unfold dataTransferToDocument in E. destruct (decide_paste _ _ _ _) as [d|]; [|done]. cbn [mbind option_bind] in E.
    apply (inj Some) in E. destruct d; apply pair_eq in E as [<- _].
    - rewrite work_internal. lia.
    - rewrite <- H1. apply work_transfer.
    - etrans; [by apply work_fallback|lia]. }
  assert (Hb : work (bump_serial (emit AbortComposition st2)) = work st2) by done.
  destruct fin; [rewrite work_stopHide|]; lia.
Qed.

Lemma work_xhr n forClipboard completeFn onErrorFn a st :
  (forall response st, work (completeFn response st) <= work st + n) -> (forall st, work (onErrorFn st) <= work st + n) ->
  work (xhr_answer forClipboard completeFn onErrorFn a st) <= work st + n.
Proof.
  intros Hc He. unfold xhr_answer. pose proof (He st) as He'.
  destruct a; [|exact He'|exact He'|change (work st <= work st + n); lia].
  set (st2 := if forClipboard then _ else _). assert (H2 : work st2 = work st) by (unfold st2; by case_match).
  case_match; rewrite <- H2; auto.
Qed.

Lemma work_setHTML html st : work (setTextSelectionHTML html st) = work st.
Proof. unfold setTextSelectionHTML, scheduleHideDownload. repeat case_match; rewrite ?work_stopHide; done. Qed.

(** An answer is handled with less to come than before, unless the browser dispatches another
    event while it is. *)
Lemma work_handle r a pg e st :
  dispatched e = None -> work (handle r a pg e st) < work st + work_of r.
Proof.
  intros He. assert (Hlt : forall st' n, work st' <= work st + n -> n < work_of r -> work st' < work st + work_of r) by lia.
  destruct r; cbn [handle].
  - apply (Hlt _ 2); [|cbn; lia]. apply work_xhr; [|apply work_download_failed]. intros response st'.
    etrans; [apply work_doAsync_le|cbn; lia].
  - apply (Hlt _ 0); [|cbn; lia]. apply work_xhr; [|intros; unfold id; lia]. intros _ st'. pose proof (work_internal false st'). unfold doInternalPaste in *. lia.
  - apply (Hlt _ 1); [|cbn; lia]. apply work_xhr; [intros; lia|]. intros st'. by apply work_fallback.
  - apply (Hlt _ 0); [|cbn; lia]. apply work_xhr; [|intros; unfold id; lia]. intros _ st'. rewrite work_internal. lia.
  - apply (Hlt _ 1); [|cbn; lia]. apply work_xhr; [intros; by rewrite work_pending|]. intros st'. change (work st' <= work st' + 1). lia.
  - apply (Hlt _ 0); [|cbn; lia]. destruct a; rewrite ?work_setHTML; lia.
  - apply (Hlt _ 0); [|cbn; lia]. assert (work (emit (PasteBlob mime data) st) = work st) by done. destruct a; lia.
  - apply (Hlt _ 5); [|cbn; lia]. assert (Hs : work (if isSpecial then set_special true (specialOpen st) st else st) = work st) by by case_match.
    assert (Hf : work (if isSpecial then openPasteSpecialPopup st else afterCopyCutPaste OpPaste e st) <= work st + 5).
    { destruct isSpecial; [change (work st <= work st + 5); lia|]. unfold afterCopyCutPaste, dispatch. rewrite He, Nat.eqb_refl, andb_false_r.
      rewrite work_pending. change (work st + 1 <= work st + 5). lia. }
    destruct a; try exact Hf. unfold navigatorClipboardReadCallback. rewrite <- Hs. repeat case_match; rewrite ?work_pending; cbn [work_of]; simpl; lia.
  - destruct (String.eqb mime "image/png") eqn:Hm.
    + apply (Hlt _ 0); [|cbn [work_of]; rewrite Hm; lia].
      assert (forall data, work (emit (PasteBlob mime data) st) = work st) as Hb by done.
      destruct a; try lia. destruct (List.find _ _) as [td|]; [|lia]. unfold navigatorClipboardGetTypeCallback. rewrite Hm, Hb. lia.
    + apply (Hlt _ 4); [|cbn [work_of]; rewrite Hm; lia].
      destruct a; try lia. destruct (List.find _ _) as [td|]; [|lia]. unfold navigatorClipboardGetTypeCallback. by rewrite Hm, work_pending.
  - apply (Hlt _ 3); [|cbn; lia]. destruct a; try lia. case_match; [rewrite work_pending; simpl; lia|apply work_paste].
  - apply (Hlt _ 0); [|cbn; lia]. assert (work (emit WarnCopyPaste st) = work st) by done. repeat case_match; rewrite ?work_stopHide; lia.
Qed.

(** One answer without a further event of the browser. *)
Definition answered (st' st : clip) : Prop :=
  exists i a pg e, i < length (pending st) /\ dispatched e = None /\ st' = step (Answer i a pg e) st.

Lemma work_answered st' st : answered st' st -> work st' < work st.
Proof.
  intros (i & a & pg & e & Hi & He & ->). cbn [step]. destruct (lookup_lt_is_Some_2 _ _ Hi) as [r Hr]. rewrite Hr.
  set (st1 := set_pending (delete i (pending st)) st). pose proof (work_handle r a pg e st1 He) as H.
  pose proof (sum_delete work_of (pending st) i r Hr). unfold work in H at 2. cbn [st1 set_pending pending] in H. unfold work at 2. lia.
Qed.

(** The requests, readers, promises and timers of copying and pasting come to an end:
    no answer of the environment can keep them going, since each leaves less to do. *)
Theorem answers_end : well_founded answered.
Proof. apply (wf_projected lt work); [intros st' st; apply work_answered|apply lt_wf]. Qed.

(** ** Copy, then paste *)

(** Nothing but the document has the focus. *)
Definition document_focus (pg : page) : Prop :=
  searchInputFocus pg = false /\ uiEditFocus pg = false /\ uiTextareaFocus pg = false /\ w2uiInputFocus pg = false /\
  anyDialogOpen pg = false /\ commentHasFocus pg = false.

Lemma document_focus_input pg st : document_focus pg -> isAnyInputFieldSelected pg st = false.
Proof. unfold isAnyInputFieldSelected. by intros (-> & -> & -> & -> & -> & ->). Qed.

(** Operations that leave the selection, the keys, the mode of pasting, the log and what is
    pending alone. *)
Record quiet (st st' : clip) : Prop := Quiet {
  quiet_content : selectionContent st' = selectionContent st;
  quiet_type : selectionType st' = selectionType st;
  quiet_key : accessKey st' = accessKey st;
  quiet_special : pasteSpecial st' = pasteSpecial st /\ specialOpen st' = specialOpen st;
  quiet_log : log st' = log st;
  quiet_pending : pending st' = pending st
}.

Lemma quiet_stopHide st : quiet st (stopHideDownload st).
Proof. unfold stopHideDownload. by case_match. Qed.

Lemma quiet_scheduleHide st : quiet st (scheduleHideDownload st).
Proof. unfold scheduleHideDownload. repeat case_match; (apply quiet_stopHide || done). Qed.

Lemma quiet_button st : quiet st (if button_shown st then stopHideDownload st else st).
Proof. case_match; [apply quiet_stopHide|done]. Qed.

(** Simple text is copied as it is. *)
Lemma copy_text pg content st :
  document_focus pg -> disableCopy cf = false -> hasGraphicSelection pg = false ->
  selectionType st = Some SText -> selectionContent st = content ->
  exists plain st', doCopyCut pg true false st = Some st' /\ onClipboard st' = Some (plain, content) /\
    accessKey st' = accessKey st /\ pasteSpecial st' = pasteSpecial st /\ specialOpen st' = specialOpen st /\
    log st' = log st ++ [Uno ".uno:Copy"] /\ pending st' = pending st.
Proof.
  intros Hf Hd Hg Ht Hc. unfold doCopyCut. rewrite document_focus_input, Hd by done.
  destruct (quiet_button st) as [Hqc Hqt Hqk [Hqs Hqo] Hql Hqp]. set (st1 := if button_shown st then _ else _) in *.
  clearbody st1. unfold populateClipboard, getHtmlForClipboard.
  destruct Hf as (_ & -> & _ & -> & _). rewrite Hg, Hqt, Ht, Hqc, Hc. cbn [orb mbind option_bind andb].
  eexists _, _. split; [reflexivity|]. cbn. rewrite Hqk, Hql, Hqp. done.
Qed.

(** Content of this session is pasted inside the server. *)
Lemma paste_own pg plain html st :
  document_focus pg -> isReadOnlyMode pg = false -> isSearching pg = false ->
  decide_paste (sess cf) true (accessKey st) html = Some InternalPaste ->
  let st' := paste pg (Some (DataTransfer [("text/plain", plain); ("text/html", html)] [])) st in
  log st' = log st ++ [if activeDialog pg then KeyEvent 0 1299 else Uno (paste_command (pasteSpecial st || specialOpen st));
                       AbortComposition] /\
  pending st' = pending st.
Proof.
  intros Hf Hr Hs Hd. cbv zeta. unfold paste. rewrite Hr, Hs, document_focus_input by done. cbn [andb].
  destruct (quiet_button st) as [_ _ Hqk [Hqs Hqo] Hql Hqp]. set (st1 := if button_shown st then _ else _) in *. clearbody st1.
  change (getData "text/html" (types (DataTransfer [("text/plain", plain); ("text/html", html)] []))) with html.
  unfold dataTransferToDocument. rewrite Hqk, Hd. cbn [mbind option_bind].
  set (st2 := bump_serial _). destruct (quiet_stopHide st2) as [_ _ _ _ -> ->].
  unfold st2, doInternalPaste, send_paste, checkAndDisablePasteSpecial. rewrite <- Hqs, <- Hqo, <- Hql, <- Hqp.
  destruct (activeDialog pg); [by cbn; rewrite <- (assoc_L (++))|].
  destruct (pasteSpecial st1), (specialOpen st1); cbn; rewrite <- ?(assoc_L (++)); done.
Qed.

(** From one document to itself: text that is selected, copied, and pasted - also after
    the key of the clipboard was renewed - takes no request: the server is told to copy, and
    then to paste what it has, as special where that was asked for, or gets the key for it in
    a dialog. *)
Theorem copy_then_paste st text pg pg' newKey :
  good_session (sess cf) -> (accessKey st).1 <> "" -> disableCopy cf = false ->
  isSpreadsheet cf && starts_with text "=" = false ->
  document_focus pg -> hasGraphicSelection pg = false ->
  document_focus pg' -> isReadOnlyMode pg' = false -> isSearching pg' = false ->
  exists plain html,
    let st1 := run [SelectText text; Copy pg true] st in
    let st2 := run [SetKey newKey; Paste pg' (Some (DataTransfer [("text/plain", plain); ("text/html", html)] []))] st1 in
    onClipboard st1 = Some (plain, html) /\
    log st2 = log st ++ [Uno ".uno:Copy";
                         if activeDialog pg' then KeyEvent 0 1299 else Uno (paste_command (pasteSpecial st || specialOpen st));
                         AbortComposition] /\
    pending st2 = pending st.
Proof.
  intros Hs Hk Hd Hn Hf Hg Hf' Hr Hq. set (html := originWrapBody (sess cf) (accessKey st).1 text false).
  assert (Hst : exists st0, setTextSelectionText text st = st0 /\ selectionContent st0 = html /\ selectionType st0 = Some SText /\
    accessKey st0 = accessKey st /\ (pasteSpecial st0 = pasteSpecial st /\ specialOpen st0 = specialOpen st) /\ log st0 = log st /\ pending st0 = pending st).
  { eexists. split; [reflexivity|]. unfold setTextSelectionText. rewrite Hn. fold html.
    by destruct (quiet_scheduleHide (set_selection html (Some SText) st)) as [-> -> -> [-> ->] -> ->]. }
  destruct Hst as (st0 & Hst0 & Hc & Ht & Hk0 & [Hs0 Ho0] & Hl0 & Hp0).
  destruct (copy_text pg html st0 Hf Hd Hg Ht Hc) as (plain & st1 & Hst1 & Hcl & Hk1 & Hs1 & Ho1 & Hl1 & Hp1).
  exists plain, html. cbn [run foldl step]. rewrite Hst0, Hst1. cbn [default from_option id]. split; [exact Hcl|].
  set (st2 := set_accessKey _ st1).
  assert (Hi : decide_paste (sess cf) true (accessKey st2) html = Some InternalPaste).
  { unfold st2, html. cbn [set_accessKey accessKey]. rewrite Hk1, Hk0. by apply pasted_home. }
  destruct (paste_own pg' plain html st2 Hf' Hr Hq Hi) as [Hl Hp]. rewrite Hl, Hp. unfold st2. cbn [set_accessKey log pending pasteSpecial specialOpen].
  rewrite Hl1, Hp1, Hs1, Ho1, Hl0, Hp0, Hs0, Ho0. rewrite <- (assoc_L (++)). done.
Qed.
End Clip.

(** ** Examples *)

Definition example_session : session := Session "https://host:9980" "http://wopi/files/1" "e91f" "3" "".

Definition example_config (disabled : bool) : config :=
  Config example_session "<p>stub</p>" "<p>disabled</p>" (fun _ => "text") (fun _ => true) false disabled false true.

Definition example_page : page := Page false false false false false false false false false false false.

Definition example_state : clip := set_accessKey ("key", "") new_clip.

Definition no_exec : exec := Exec None false.

Definition foreign : dataTransfer := DataTransfer [("text/plain", "text"); ("text/html", "<b>text</b>")] [].

Definition two_images : dataTransfer := DataTransfer [("Files", "")] [("image/png", "a"); ("image/png", "b"); ("text/rtf", "c")].

(** Two images are pasted, of the three files. *)
Example images_pasted :
  let st := run (example_config false)
    [Paste example_page (Some two_images); Answer 0 (Loaded 0 "") example_page no_exec; Answer 0 (Loaded 0 "") example_page no_exec]
    new_clip in
  log st = [AbortComposition; PasteBlob "image/png" "a"; PasteBlob "image/png" "b"] /\ pending st = [].
Proof. by vm_compute. Qed.

Lemma pasted_once_witness :
  let evs := [Command ".uno:Paste" no_exec no_exec; Answer 0 (Contents [[("text/html", "<b>text</b>")]]) example_page no_exec;
              Answer 0 (Loaded 0 "") example_page no_exec; Answer 0 (Loaded 0 "") example_page no_exec;
              Answer 0 (Loaded 200 "") example_page no_exec; Paste example_page (Some two_images);
              Answer 0 (Loaded 0 "") example_page no_exec; Answer 0 (Loaded 0 "") example_page no_exec] in
  pastes (log (run (example_config false) evs new_clip)) = 3 /\ gestures evs = 3 /\
  pastes (log (run (example_config false) evs new_clip)) <= gestures evs.
Proof.
  intros evs. split; [vm_compute; reflexivity|]. split; [vm_compute; reflexivity|]. apply (pasted_once (example_config false) evs).
  repeat constructor; intros [? [=]].
Defined.

Lemma copy_disabled_witness :
  let evs := [SelectHTML "<b>secret</b>"; Copy example_page true] in
  let html := originWrapBody example_session "" "<p>disabled</p>" true in
  exists key, html = disabled_html (example_config true) key /\ "text" = disabled_plain (example_config true) key.
Proof.
  intros evs html. apply (copy_disabled (example_config true) evs "text" html); [reflexivity|repeat constructor|vm_compute; reflexivity].
Defined.

Lemma copy_then_paste_witness :
  exists plain html,
    let st1 := run (example_config false) [SelectText "text"; Copy example_page true] example_state in
    let st2 := run (example_config false)
      [SetKey "new"; Paste example_page (Some (DataTransfer [("text/plain", plain); ("text/html", html)] []))] st1 in
    onClipboard st1 = Some (plain, html) /\ log st2 = [Uno ".uno:Copy"; Uno ".uno:Paste"; AbortComposition] /\ pending st2 = [].
Proof.
  apply (copy_then_paste (example_config false) example_state "text" example_page example_page "new");
    solve [reflexivity|discriminate|by split_and!].
Defined.

(** The download of a large selection comes after another was made, and takes its place: the
    next copy is that of a selection that is no more. *)
Example late_copy_overwrites :
  let st := run (example_config false)
    [SelectComplex; Copy example_page true; StartDownload; SelectHTML "<b>new</b>";
     Answer 0 (Loaded 200 "<!DOCTYPE HTML old") example_page no_exec; Answer 0 (Loaded 0 "") example_page no_exec;
     Copy example_page true] example_state in
  onClipboard st = Some ("text", "<!DOCTYPE HTML old").
Proof. vm_compute. reflexivity. Qed.

(** A special paste that finds nothing to paste is not over: a later paste is special. *)
Example special_sticks :
  let st := run (example_config false)
    [Command ".uno:PasteSpecial" no_exec no_exec; Answer 0 (Contents []) example_page no_exec; Paste example_page (Some foreign);
     Answer 0 (Loaded 200 "") example_page no_exec] example_state in
  log st = [AbortComposition; Uno ".uno:PasteSpecial"].
Proof. vm_compute. reflexivity. Qed.

(** The command for a special paste is taken care of, and yet the caller is told nothing, who
    then sends it as well. *)
Example special_not_filtered :
  let '(st, filtered) := filterExecCopyPaste (example_config false) ".uno:PasteSpecial" no_exec no_exec example_state in
  pending st = [NavRead true] /\ filtered = None.
Proof. vm_compute. done. Qed.

(** Content is posted to the server with the widget closed: [dataTransferToDocument] says it
    is finished when it is not. *)
Example upload_without_progress :
  let st := run (example_config false) [Paste example_page (Some foreign)] example_state in
  length (pending st) = 1 /\ downloadProgressStatus st = Some Closed.
Proof. vm_compute. done. Qed.

(** A paste from another server during the download of a large copy closes the widget of
    that. *)
Example paste_closes_copy :
  let html := originWrapBody (Session "https://other" "doc" "1" "1" "") "their" "text" false in
  let st := run (example_config false)
    [SelectComplex; Copy example_page true; StartDownload;
     Paste example_page (Some (DataTransfer [("text/html", html)] []));
     Answer 1 (Loaded 200 "data") example_page no_exec] example_state in
  option_map isLargeCopy (downloadProgress st) = Some false /\ match pending st with LargeGet _ :: _ => True | _ => False end.
Proof. vm_compute. done. Qed.

(** An origin that cannot be decoded raises an error: such content is not pasted at all, not
    even as text. *)
Example bad_origin_not_pasted :
  let html := div_prefix +:+ "x%2Fclipboard%3FWOPISrc%3D%26ServerId%3D%26ViewId%3D%26Tag%3D%zz" +:+ quote +:+ ">text" in
  let st := run (example_config false) [Paste example_page (Some (DataTransfer [("text/plain", "text"); ("text/html", html)] []))] example_state in
  pending st = [] /\ log st = [].
Proof. vm_compute. done. Qed.
