(* ===== verification/Permission.v ===== *)
(** * Permission: who may edit, and when

    The permission of the file, the mode of the map (read-only or editing), the
    button that asks for editing, the dialogs it opens and the attempts to lock
    the file.  Models src/browser/src/control/Permission.js with the methods that
    src/ossii/browser/js/control/Permission.Extensions.js puts in their place, the
    messages [perm:], [filemode:], [lockfailed:] and [saveas:] of
    src/browser/src/core/Socket.js, the rights of the integration (Map.WOPI.js), the
    read-only status of a spreadsheet (CalcTileLayer.js) and the event [readonlymode] of
    the Android app (Map.js); the effects on other components are a log.  A handler that
    raises an exception stops there with the state it has reached.  The check box of
    Control.Permission.js is never added to the map. *)

From S2P Require Import Prelude JsText.
Local Open Scope Z_scope.

(** ** State *)

(** What does not change while a document is open: [window.mode], the kind of application,
    the integration's file name and rights, the lock configuration and the document. *)
Record session := Session {
  isMobile : bool;
  isTablet : bool;
  touch : bool;                     (** [L.Browser.touch] *)
  thisIsAMobileApp : bool;
  androidApp : bool;
  iosApp : bool;
  baseFileName : string;            (** [""] when there is none *)
  saveToOdf : option string;        (** [UserExtraInfo.SaveToOdf] *)
  userCanNotWriteRelative : bool;
  lockedReadOnlyUser : bool;
  fileBasedView : bool;
  textInput : bool;
  textDocument : bool;
  spreadsheet : bool
}.

Definition mobileOrTablet (e : session) : bool := isMobile e || isTablet e.

(** What the button does when it is clicked. *)
Inductive click := NoClick | SwitchToEdit | OpenUnlockPopup | RequestFileCopy.

Inductive yes_action := YesProceed | YesSaveAs.

Inductive modal :=
  | LockModal (retry : bool)
  | SwitchModal (yes : yes_action) (noButton : bool)
  | SaveAsModal (defaultValue format : string).

Inductive effect :=
  | Send (msg : string)
  | FireUpdatePermission (perm : string)
  | Fire (event : string)
  | Call (method : string)
  | PostMobile (msg : string)
  | SetZoom (z : Z)
  | SaveAs (name format : string).

Record state := State {
  filePermission : string;          (** [app.file.permission] *)
  permission : option string;       (** [_permission] *)
  canTryLock : option bool;         (** [options.canTryLock] *)
  editComment : bool;
  readOnly : bool;
  disableSidebar : bool;
  docLayer : bool;                  (** there is a document layer *)
  button : click;
  buttonVisible : bool;
  modals : list modal;
  odfOnly : bool;                   (** the file's extension was added to [readonlyStartingFormats] *)
  readonlyBar : bool;
  dragging : bool;
  log : list effect
}.

Definition set_filePermission (p : string) (s : state) : state :=
  State p (permission s) (canTryLock s) (editComment s) (readOnly s) (disableSidebar s)
    (docLayer s) (button s) (buttonVisible s) (modals s) (odfOnly s) (readonlyBar s) (dragging s)
    (log s).
Definition set_permission (p : string) (s : state) : state :=
  State (filePermission s) (Some p) (canTryLock s) (editComment s) (readOnly s) (disableSidebar s)
    (docLayer s) (button s) (buttonVisible s) (modals s) (odfOnly s) (readonlyBar s) (dragging s)
    (log s).
Definition set_canTryLock (b : bool) (s : state) : state :=
  State (filePermission s) (permission s) (Some b) (editComment s) (readOnly s) (disableSidebar s)
    (docLayer s) (button s) (buttonVisible s) (modals s) (odfOnly s) (readonlyBar s) (dragging s)
    (log s).
Definition set_flags (ec ro ds : bool) (s : state) : state :=
  State (filePermission s) (permission s) (canTryLock s) ec ro ds (docLayer s) (button s)
    (buttonVisible s) (modals s) (odfOnly s) (readonlyBar s) (dragging s) (log s).
Definition add_docLayer (s : state) : state :=
  State (filePermission s) (permission s) (canTryLock s) (editComment s) (readOnly s)
    (disableSidebar s) true (button s) (buttonVisible s) (modals s) (odfOnly s) (readonlyBar s)
    (dragging s) (log s).
Definition set_button (c : click) (s : state) : state :=
  State (filePermission s) (permission s) (canTryLock s) (editComment s) (readOnly s)
    (disableSidebar s) (docLayer s) c (buttonVisible s) (modals s) (odfOnly s) (readonlyBar s)
    (dragging s) (log s).
Definition show_button (b : bool) (s : state) : state :=
  State (filePermission s) (permission s) (canTryLock s) (editComment s) (readOnly s)
    (disableSidebar s) (docLayer s) (button s) b (modals s) (odfOnly s) (readonlyBar s)
    (dragging s) (log s).
Definition set_modals (m : list modal) (s : state) : state :=
  State (filePermission s) (permission s) (canTryLock s) (editComment s) (readOnly s)
    (disableSidebar s) (docLayer s) (button s) (buttonVisible s) m (odfOnly s) (readonlyBar s)
    (dragging s) (log s).
Definition set_odfOnly (b : bool) (s : state) : state :=
  State (filePermission s) (permission s) (canTryLock s) (editComment s) (readOnly s)
    (disableSidebar s) (docLayer s) (button s) (buttonVisible s) (modals s) b (readonlyBar s)
    (dragging s) (log s).
Definition set_readonlyBar (b : bool) (s : state) : state :=
  State (filePermission s) (permission s) (canTryLock s) (editComment s) (readOnly s)
    (disableSidebar s) (docLayer s) (button s) (buttonVisible s) (modals s) (odfOnly s) b
    (dragging s) (log s).
Definition set_dragging (b : bool) (s : state) : state :=
  State (filePermission s) (permission s) (canTryLock s) (editComment s) (readOnly s)
    (disableSidebar s) (docLayer s) (button s) (buttonVisible s) (modals s) (odfOnly s)
    (readonlyBar s) b (log s).
Definition do (e : effect) (s : state) : state :=
  State (filePermission s) (permission s) (canTryLock s) (editComment s) (readOnly s)
    (disableSidebar s) (docLayer s) (button s) (buttonVisible s) (modals s) (odfOnly s)
    (readonlyBar s) (dragging s) (log s ++ [e]).

(** What a handler ends in. *)
Inductive outcome := Returns (s : state) | Throws (s : state).

Definition final (o : outcome) : state := match o with Returns s | Throws s => s end.

Definition andThen (o : outcome) (f : state -> outcome) : outcome :=
  match o with Returns s => f s | Throws s => Throws s end.

(** The dialogs are kept by their id: one of a kind. *)
Definition same_dialog (a b : modal) : bool :=
  match a, b with
  | LockModal _, LockModal _ | SwitchModal _ _, SwitchModal _ _ | SaveAsModal _ _, SaveAsModal _ _ => true
  | _, _ => false
  end.

Definition closeModal (m : modal) (s : state) : state :=
  set_modals (List.filter (fun x => negb (same_dialog m x)) (modals s)) s.
Definition showModal (m : modal) (s : state) : state :=
  let s := closeModal m s in set_modals (modals s ++ [m]) s.

(** ** File names *)

(** [s.lastIndexOf (c)]; [None] for [-1]. *)
Fixpoint last_index_of (c : ascii) (s : string) : option nat :=
  match s with
  | "" => None
  | String a s' =>
      match last_index_of c s' with
      | Some i => Some (S i)
      | None => if Ascii.eqb a c then Some O else None
      end
  end.

Definition dot : ascii := "."%char.

Definition getFileExtension (filename : string) : string :=
  match last_index_of dot filename with
  | Some i => str_drop (S i) filename
  | None => filename
  end.

(** [filename.substring (0, filename.lastIndexOf ('.'))] *)
Definition base_name (filename : string) : string :=
  match last_index_of dot filename with Some i => str_take i filename | None => "" end.

Record format_info := FormatInfo { canEdit : bool; odfFormat : string }.

Definition readonlyStartingFormats (ext : string) : option format_info :=
  if String.eqb ext "txt" then Some (FormatInfo true "odt")
  else if String.eqb ext "csv" then Some (FormatInfo true "ods")
  else if String.eqb ext "xlsb" then Some (FormatInfo false "ods")
  else None.

Section handlers.
Context (e : session).

Definition hasFileName : bool := negb (String.eqb (baseFileName e) "").

Definition isOnlySaveAsODF : bool :=
  match saveToOdf e with Some f => bool_decide (f ∈ ["odt"; "ods"; "odp"]) | None => false end.

(** [readonlyStartingFormats[extension]]: the table, and the entry the file's own extension may
    have been given. *)
Definition tableInfo : option format_info := readonlyStartingFormats (getFileExtension (baseFileName e)).
Definition extensionInfo (s : state) : option format_info :=
  match tableInfo with
  | Some i => Some i
  | None => if odfOnly s then Some (FormatInfo false (default "" (saveToOdf e))) else None
  end.

Definition isSome {A} (o : option A) : bool := match o with Some _ => true | None => false end.

(** [_shouldStartReadOnly] of the extensions; it may add the entry. *)
Definition shouldStartReadOnly (s : state) : bool * state :=
  if lockedReadOnlyUser e then (true, s)
  else if negb hasFileName then (false, s)
  else
    let s := if isOnlySaveAsODF && negb (isSome (extensionInfo s)) then set_odfOnly true s else s in
    (isSome (extensionInfo s), s).

Definition canUserWrite (s : state) : bool := String.eqb (filePermission s) "edit".
Definition isPermissionEditForComments (s : state) : bool := canUserWrite s || editComment s.
Definition isReadOnlyMode (s : state) : bool := bool_decide (permission s = Some "readonly").
Definition isEditMode (s : state) : bool := bool_decide (permission s = Some "edit").
Definition isViewMode (s : state) : bool := bool_decide (permission s = Some "view").

(** ** Modes *)

Definition when (b : bool) (f : state -> state) (s : state) : state := if b then f s else s.

(** [_enterEditMode] of the extensions; the zoom is asked of the document layer. *)
Definition enterEditMode (perm : string) (s : state) : outcome :=
  let s := set_permission perm s in
  let s := when (negb (isMobile e)) (set_readonlyBar false) s in
  let s := when (negb (touch e)) (set_dragging false) s in
  let s := when (mobileOrTablet e && textInput e && textDocument e) (do (Call "setSwitchedToEditMode")) s in
  let s := do (FireUpdatePermission perm) s in
  if negb (docLayer s) then Throws s
  else
    let s := when (textDocument e) (do (SetZoom 10)) s in
    let s := when (iosApp e && isTablet e && spreadsheet e) (do (Call "showCalcInputBar")) s in
    Returns (when (androidApp e) (do (PostMobile "EDITMODE on")) s).

(** [_enterReadOnlyMode] of the extensions; [closealldialogs] closes the dialogs. *)
Definition enterReadOnlyMode (perm : string) (s : state) : state :=
  let s := set_permission perm s in
  let s := set_dragging true (when (negb (isMobile e)) (set_readonlyBar true) s) in
  let s := when (docLayer s) (fun s => do (Call "_onUpdateTextSelection")
             (do (Call "_clearSelections") (do (Call "_onUpdateCursor") s))) s in
  let s := do (Fire "closemobilewizard") (do (FireUpdatePermission perm) s) in
  let s := set_modals [] (do (Fire "closealldialogs") s) in
  when (androidApp e) (do (PostMobile "EDITMODE off")) s.

Definition proceedEditMode (s : state) : outcome :=
  if hasFileName && match extensionInfo s with Some i => negb (canEdit i) | None => false end then Returns s
  else
    andThen (enterEditMode "edit" (show_button false (set_canTryLock false s)))
      (fun s => Returns
         (when (mobileOrTablet e)
            (fun s => when (negb (iosApp e || androidApp e)) (do (Call "focus"))
               (do (Fire "closemobilewizard") (do (Fire "editorgotfocus") s))) s)).

(** [_offerSaveAs]; without an entry of the table it raises. *)
Definition offerSaveAs (s : state) : outcome :=
  if negb hasFileName then Returns s
  else
    match extensionInfo s with
    | None => Throws s
    | Some i =>
        Returns (showModal (SaveAsModal (base_name (baseFileName e) +:+ "." +:+ odfFormat i) (odfFormat i)) s)
    end.

(** [_switchToEditMode]: raises when the file has no name or its extension is not
    in the table, which a locked user's need not be. *)
Definition switchToEditMode (s : state) : outcome :=
  let '(start, s) := shouldStartReadOnly s in
  if start && negb (thisIsAMobileApp e) then
    if negb hasFileName then Throws s
    else
      match extensionInfo s with
      | None => Throws s
      | Some _ =>
          Returns (showModal (if userCanNotWriteRelative e then SwitchModal YesProceed false
                              else SwitchModal YesSaveAs true) s)
      end
  else proceedEditMode s.

Definition requestFileCopy (s : state) : outcome :=
  if negb (canUserWrite s) then Returns (do (PostMobile "REQUESTFILECOPY") s)
  else switchToEditMode s.

Definition isPDF (s : state) : bool := fileBasedView e && editComment s.

(** The button is shown unless the document is a PDF. *)
Definition updateButton (s : state) : state :=
  let s := set_button NoClick s in
  if isPDF s then show_button false s
  else let '(start, s) := shouldStartReadOnly s in show_button (start || mobileOrTablet e) s.

Definition setPermission (perm : string) (s : state) : outcome :=
  let s := updateButton s in
  if String.eqb perm "edit" then
    let '(start, s) := shouldStartReadOnly s in
    if start || mobileOrTablet e then
      Returns (enterReadOnlyMode "readonly" (set_button SwitchToEdit s))
    else
      match canTryLock s with
      | Some true => switchToEditMode s
      | _ => enterEditMode perm s
      end
  else if String.eqb perm "view" || String.eqb perm "readonly" then
    let s :=
      if lockedReadOnlyUser e then set_button OpenUnlockPopup s
      else if androidApp e then set_button RequestFileCopy s
      else if match canTryLock s with Some true => false | _ => true end && mobileOrTablet e
           then show_button false s else s in
    Returns (enterReadOnlyMode perm s)
  else Returns s.

Definition onLockFailed (s : state) : state :=
  match canTryLock s with
  | None => showModal (LockModal true) (set_canTryLock true s)
  | Some true => showModal (LockModal false) s
  | Some false => s
  end.

(** The click on the button. *)
Definition clickButton (s : state) : outcome :=
  match button s with
  | NoClick => Returns s
  | SwitchToEdit => switchToEditMode s
  | OpenUnlockPopup => Returns (do (Call "openUnlockPopup") s)
  | RequestFileCopy => requestFileCopy s
  end.

(** ** Answers to the dialogs *)

Inductive answer := AnswerYes (text : string) | AnswerNo | AnswerCancel.

(** The name typed in gets the extension of the format. *)
Definition save_as_name (value format : string) : string :=
  if String.eqb (getFileExtension value) format then value else value +:+ "." +:+ format.

Definition answer_action (m : modal) (a : answer) (s : state) : outcome :=
  match m, a with
  | LockModal true, AnswerYes _ => Returns (do (Send "attemptlock") s)
  | SwitchModal YesProceed _, AnswerYes _ => proceedEditMode s
  | SwitchModal YesSaveAs _, AnswerYes _ => offerSaveAs s
  | SwitchModal _ true, AnswerNo => proceedEditMode s
  | SaveAsModal _ format, AnswerYes value =>
      Returns (if String.eqb value "" then s else do (SaveAs (save_as_name value format) format) s)
  | _, _ => Returns s
  end.

Definition answerModal (m : modal) (a : answer) (s : state) : outcome :=
  andThen (answer_action m a s) (fun s => Returns (closeModal m s)).

(** ** Messages *)

Definition lower_permission (perm : string) (s : state) : state :=
  if canUserWrite s then set_filePermission perm s else s.

Definition apply_permission (s : state) : outcome :=
  if docLayer s then setPermission (filePermission s) s else Returns s.

(** [perm: ...] *)
Definition onPerm (perm : string) (s : state) : outcome :=
  andThen (apply_permission (lower_permission perm s))
    (fun s => Returns (set_flags (editComment s) (String.eqb (filePermission s) "readonly")
                         (negb (String.eqb perm "edit")) s)).

(** [filemode: { readOnly, editComment }] *)
Definition onFilemode (ro ec : bool) (s : state) : outcome :=
  andThen (apply_permission (if ro then lower_permission "readonly" s else s))
    (fun s => Returns (set_flags ec (String.eqb (filePermission s) "readonly") (disableSidebar s) s)).

(** The rights of the integration ([UserCanWrite]). *)
Definition onWopi (userCanWrite : bool) (s : state) : state :=
  if userCanWrite then s else set_filePermission "readonly" s.

(** The document layer is added. *)
Definition onLayerAdded (s : state) : outcome := apply_permission (add_docLayer s).

(** [readonly=1] of the status of a spreadsheet. *)
Definition onStatusReadonly (s : state) : outcome := setPermission "readonly" s.

(** The document was saved under another name: the copy is opened next, with the right to edit
    unless its own messages say otherwise. *)
Definition onSaveAs (s : state) : state := set_filePermission "edit" s.

(** [mobile: readonlymode], which only the Android app listens to. *)
Definition onReadonlymode (s : state) : outcome :=
  if androidApp e then setPermission "edit" s else Returns s.

(** An error, a lost connection or a migration ends editing. *)
Definition onDisconnect (s : state) : outcome :=
  if isEditMode s then setPermission "view" s else Returns s.

(** [enterReadonlyOrClose] of the UI manager, while editing. *)
Definition onLeaveEditing (s : state) : outcome :=
  if isEditMode s then setPermission "edit" s else Returns s.
End handlers.

(** ** The session as a step relation *)

(** What may happen after the page is loaded, while one document is open.  The server words
    permissions as [edit], [view] or [readonly]; the rights of the integration come before the
    document, or do not lower those of an open one. *)
Inductive perm_step (e : session) : state -> state -> Prop :=
  | step_perm p s : p ∈ ["edit"; "view"; "readonly"] -> perm_step e s (final (onPerm e p s))
  | step_filemode ro ec s : perm_step e s (final (onFilemode e ro ec s))
  | step_wopi w s :
      docLayer s = false \/ w = true \/ canUserWrite s = false -> perm_step e s (onWopi w s)
  | step_layer s : perm_step e s (final (onLayerAdded e s))
  | step_lockfailed s : perm_step e s (onLockFailed s)
  | step_click s : perm_step e s (final (clickButton e s))
  | step_answer m a s : m ∈ modals s -> perm_step e s (final (answerModal e m a s))
  | step_disconnect s : perm_step e s (final (onDisconnect e s))
  | step_reconnect s : docLayer s = true -> perm_step e s (final (apply_permission e s))
  | step_leave s : perm_step e s (final (onLeaveEditing e s))
  | step_status s : docLayer s = true -> perm_step e s (final (onStatusReadonly e s))
  | step_readonlymode s :
      docLayer s = true -> canUserWrite s = true -> perm_step e s (final (onReadonlymode e s)).

(** The other events: the document is saved under another name, the integration takes the right
    to write away from an open document (after a reconnection), the Android app asks for its
    read-only mode where the file may not be written. *)
Inductive other_step (e : session) : state -> state -> Prop :=
  | step_saveas s : other_step e s (onSaveAs s)
  | step_withdrawn s : docLayer s = true -> other_step e s (onWopi false s)
  | step_android s : docLayer s = true -> other_step e s (final (onReadonlymode e s)).

(** [p]: the permission the page was opened with. *)
Definition new_state (p : string) : state :=
  State p None None false false false false NoClick false [] false false false [].

(** The integration wants the format saved as ODF only. *)
Definition odfRule (e : session) : bool :=
  negb (lockedReadOnlyUser e) && hasFileName e && isOnlySaveAsODF e && negb (isSome (tableInfo e)).

(** The format can be written. *)
Definition editable_format (e : session) : Prop :=
  hasFileName e = true ->
  (forall i, tableInfo e = Some i -> canEdit i = true) /\ odfRule e = false.

(** Nothing can lead to editing: no dialog that asks for it and no click. *)
Definition no_way_to_edit (s : state) : Prop :=
  permission s <> Some "edit" /\ button s <> SwitchToEdit /\
  forall y n, SwitchModal y n ∉ modals s.

Record perm_inv (e : session) (s : state) : Prop := {
  pi_file : canUserWrite s = true \/ no_way_to_edit s;
  pi_format : permission s = Some "edit" -> editable_format e;
  pi_layer : docLayer s = false -> no_way_to_edit s /\ button s = NoClick;
  pi_odf : odfOnly s = true -> odfRule e = true;
  pi_primed : odfRule e = true -> forall y n, SwitchModal y n ∈ modals s -> odfOnly s = true
}.

Section proofs.
Context (e : session).

(** *** Where a document starts read-only *)

Definition startReadOnly : bool :=
  lockedReadOnlyUser e || (hasFileName e && (isSome (tableInfo e) || isOnlySaveAsODF e)).

Lemma set_odfOnly_same s : set_odfOnly (odfOnly s) s = s.
Proof. by destruct s. Qed.

Lemma shouldStartReadOnly_spec s :
  (odfOnly s = true -> odfRule e = true) ->
  shouldStartReadOnly e s = (startReadOnly, set_odfOnly (odfRule e) s).
Proof.
  intros Ho. assert (set_odfOnly (odfOnly s) s = s) as Es by apply set_odfOnly_same.
  unfold shouldStartReadOnly, startReadOnly, extensionInfo. destruct (odfOnly s) eqn:E.
  - specialize (Ho eq_refl). rewrite Ho, Es. unfold odfRule in Ho.
    destruct (lockedReadOnlyUser e); [done|]. destruct (hasFileName e); [|done].
    destruct (isOnlySaveAsODF e); [|done]. destruct (tableInfo e); [done|]. cbn. by rewrite E.
  - unfold odfRule. destruct (lockedReadOnlyUser e); cbn; [by rewrite Es|].
    destruct (hasFileName e); cbn; [|by rewrite Es].
    destruct (tableInfo e); cbn; [by rewrite andb_false_r, Es|].
    destruct (isOnlySaveAsODF e); cbn; [done|]. by rewrite Es, E.
Qed.

Lemma startReadOnly_editable : startReadOnly = false -> editable_format e.
Proof.
  unfold startReadOnly, editable_format, odfRule. intros H Hn. rewrite Hn in H. cbn in H.
  destruct (lockedReadOnlyUser e); [done|]. destruct (isOnlySaveAsODF e); [by rewrite orb_true_r in H|].
  destruct (tableInfo e); [done|]. split; [done|]. by rewrite andb_false_r.
Qed.

(** *** The state up to the log and the flags *)

Definition core (s : state) : string * option string * list modal * click * bool * bool :=
  (filePermission s, permission s, modals s, button s, docLayer s, odfOnly s).

Lemma core_do x s : core (do x s) = core s.
Proof. done. Qed.

Lemma core_when b f s : (forall s, core (f s) = core s) -> core (when b f s) = core s.
Proof. intros H. by destruct b; simpl. Qed.

Ltac core_simpl := repeat (rewrite core_do || (rewrite core_when; [|intros])); try done.

Lemma core_spec s f p m b d o :
  core s = (f, p, m, b, d, o) ->
  filePermission s = f /\ permission s = p /\ modals s = m /\ button s = b /\ docLayer s = d /\ odfOnly s = o.
Proof. unfold core. by intros [= -> -> -> -> -> ->]. Qed.

Lemma enterReadOnlyMode_core p s :
  core (enterReadOnlyMode e p s) = (filePermission s, Some p, [], button s, docLayer s, odfOnly s).
Proof.
  unfold enterReadOnlyMode. cbv zeta. set (s0 := set_dragging true _).
  assert (E : core s0 = (filePermission s, Some p, modals s, button s, docLayer s, odfOnly s)).
  { unfold s0. by destruct (negb (isMobile e)). }
  clearbody s0. set (s1 := when (docLayer s0) _ _).
  assert (E1 : core s1 = core s0) by (unfold s1; core_simpl).
  rewrite core_when by done. rewrite E in E1. unfold core in *. cbn. by injection E1 as -> -> _ -> -> ->.
Qed.

Lemma enterEditMode_core p s :
  core (final (enterEditMode e p s)) = (filePermission s, Some p, modals s, button s, docLayer s, odfOnly s) /\
  (docLayer s = true -> enterEditMode e p s = Returns (final (enterEditMode e p s))).
Proof.
  unfold enterEditMode. cbv zeta. set (s1 := do (FireUpdatePermission p) _).
  assert (E : core s1 = (filePermission s, Some p, modals s, button s, docLayer s, odfOnly s)).
  { unfold s1. core_simpl; by destruct (touch e), (isMobile e). }
  assert (Ed : docLayer s1 = docLayer s) by (unfold core in E; congruence). rewrite Ed.
  destruct (docLayer s); cbn [negb final]; (split; [|done]); [|done]. core_simpl.
Qed.

(** [_proceedEditMode] does nothing for a format that cannot be written, and enters
    the edit mode for every other. *)
Lemma proceedEditMode_core s :
  (odfOnly s = true -> odfRule e = true) -> (odfRule e = true -> odfOnly s = true) ->
  (docLayer s = true -> proceedEditMode e s = Returns (final (proceedEditMode e s))) /\
  ((proceedEditMode e s = Returns s /\ ~ editable_format e) \/
   (core (final (proceedEditMode e s)) = (filePermission s, Some "edit", modals s, button s, docLayer s, odfOnly s) /\
    editable_format e)).
Proof.
  intros Ho Hp. unfold proceedEditMode, editable_format.
  destruct (hasFileName e && _) eqn:Hi.
  - to_prop. split; [done|]. left. split; [done|]. intros H1. destruct (H1 H) as [Ht Hr].
    unfold extensionInfo in H0. destruct (tableInfo e) as [i|]; [by rewrite (Ht i eq_refl) in H0|].
    destruct (odfOnly s); [|done]. by rewrite Ho in Hr.
  - assert (Hed : hasFileName e = true -> (forall i, tableInfo e = Some i -> canEdit i = true) /\ odfRule e = false).
    { intros Hn. rewrite Hn in Hi. cbn [andb] in Hi. unfold extensionInfo in Hi. split.
      - intros i E. rewrite E in Hi. by destruct (canEdit i).
      - destruct (odfRule e) eqn:Hr; [|done]. rewrite (Hp eq_refl) in Hi.
        unfold odfRule in Hr. destruct (tableInfo e); [|done]. to_prop. done. }
    destruct (enterEditMode_core "edit" (show_button false (set_canTryLock false s))) as [Hc Hr].
    destruct (enterEditMode e "edit" _) as [s1|s1]; cbn [andThen final] in *.
    + split; [done|]. right. split; [|done]. rewrite core_when; [done|]. intros s2. core_simpl.
    + split; [|by right]. intros Hd. by specialize (Hr Hd).
Qed.

Lemma elem_of_closeModal m x s : x ∈ modals (closeModal m s) <-> x ∈ modals s /\ same_dialog m x = false.
Proof.
  unfold closeModal, set_modals. cbn [modals]. rewrite !list_elem_of_In, filter_In, negb_true_iff. done.
Qed.

Lemma elem_of_showModal m x s :
  x ∈ modals (showModal m s) <-> x = m \/ (x ∈ modals s /\ same_dialog m x = false).
Proof.
  unfold showModal. unfold set_modals at 1. cbn [modals]. rewrite elem_of_app, list_elem_of_singleton, elem_of_closeModal.
  tauto.
Qed.

(** The first thing [setPermission] does. *)
Lemma updateButton_core s :
  (odfOnly s = true -> odfRule e = true) ->
  exists o, core (updateButton e s) = (filePermission s, permission s, modals s, NoClick, docLayer s, o) /\
    (o = true -> odfRule e = true) /\ (odfOnly s = true -> o = true).
Proof.
  intros Ho. unfold updateButton. destruct (isPDF e _); [by exists (odfOnly s)|].
  rewrite shouldStartReadOnly_spec by done. exists (odfRule e). split_and!; [done|done|exact Ho].
Qed.

(** What lowers the permission of the file, or adds the layer, lets [setPermission]
    put everything right. *)
Lemma setPermission_inv s p :
  p = filePermission s \/ p = "view" \/ p = "readonly" \/ (p = "edit" /\ canUserWrite s = true) ->
  (permission s = Some "edit" -> editable_format e) ->
  (canUserWrite s = true \/ p = "view" \/ p = "readonly" \/ no_way_to_edit s) ->
  (odfOnly s = true -> odfRule e = true) ->
  (odfRule e = true -> forall y n, SwitchModal y n ∈ modals s -> odfOnly s = true) ->
  docLayer s = true ->
  perm_inv e (final (setPermission e p s)).
Proof.
  intros Hp Hfmt Hno Ho Hpr Hd. unfold setPermission.
  destruct (updateButton_core s Ho) as (o & Hcore & Ho' & Hso). set (s0 := updateButton e s) in *. clearbody s0.
  destruct (core_spec _ _ _ _ _ _ _ Hcore) as (F0 & P0 & M0 & B0 & D0 & O0).
  rewrite <- O0 in Ho', Hso. cbv zeta.
  destruct (String.eqb_spec p "edit") as [->|Hne].
  - assert (Hw : filePermission s = "edit").
    { destruct Hp as [<-|[|[|[_ Hw]]]]; try done. by apply String.eqb_eq. }
    rewrite shouldStartReadOnly_spec by done. set (s1 := set_odfOnly (odfRule e) s0).
    destruct (startReadOnly || mobileOrTablet e) eqn:Hs.
    + cbn [final]. set (s2 := set_button SwitchToEdit s1).
      destruct (core_spec _ _ _ _ _ _ _ (enterReadOnlyMode_core "readonly" s2)) as (A & B & M & _ & C & O).
      split; [|by rewrite B|by rewrite C; cbn; rewrite D0, Hd|by rewrite O|by rewrite O].
      left. unfold canUserWrite. rewrite A. cbn. rewrite F0. by apply String.eqb_eq.
    + apply orb_false_iff in Hs as [Hs Hm]. pose proof (startReadOnly_editable Hs) as Hed.
      assert (forall s2 q, core s2 = (filePermission s1, Some q, modals s1, button s1, docLayer s1, odfOnly s1) ->
                perm_inv e s2) as Hinv.
      { intros s2 q (A & B & _ & _ & C & O)%core_spec.
        split; [|done|by rewrite C; cbn; rewrite D0, Hd|by rewrite O|by rewrite O].
        left. unfold canUserWrite. rewrite A. cbn. rewrite F0. by apply String.eqb_eq. }
      destruct (enterEditMode_core "edit" s1) as [Hc _].
      assert (perm_inv e (final (enterEditMode e "edit" s1))) by by eapply Hinv.
      destruct (canTryLock s1) as [[]|]; try done. unfold switchToEditMode.
      rewrite shouldStartReadOnly_spec by done. rewrite Hs. cbn [andb].
      destruct (proceedEditMode_core (set_odfOnly (odfRule e) s1)) as [_ [[_ ?]|[Hc' _]]]; [done..|by eapply Hinv].
  - destruct (String.eqb p "view" || String.eqb p "readonly") eqn:Hr.
    + cbn [final]. set (s1 := if lockedReadOnlyUser e then _ else _).
      assert (E : docLayer s1 = true /\ button s1 <> SwitchToEdit /\ odfOnly s1 = odfOnly s0).
      { unfold s1. repeat case_match; cbn; rewrite ?D0, ?B0; done. }
      destruct E as (El & Eb & Eo).
      destruct (core_spec _ _ _ _ _ _ _ (enterReadOnlyMode_core p s1)) as (A & B & M & D & C & O).
      split; [right| |by rewrite C, El|by rewrite O, Eo|rewrite M; intros _ y n; set_solver].
      * split_and!; [rewrite B; congruence|by rewrite D|]. intros y n. rewrite M. set_solver.
      * rewrite B. congruence.
    + apply orb_false_iff in Hr as [Hv Hr]. apply String.eqb_neq in Hv, Hr. cbn [final].
      assert (no_way_to_edit s) as (H1 & H2 & H3).
      { destruct Hno as [Hw|[|[|]]]; try done. unfold canUserWrite in Hw. apply String.eqb_eq in Hw.
        destruct Hp as [|[|[|[? _]]]]; congruence. }
      split; unfold no_way_to_edit; rewrite ?P0, ?M0, ?B0, ?D0; [by right|done|by rewrite Hd|done|].
      intros Hrule y n Hin. by apply Hso, (Hpr Hrule y n).
Qed.

Lemma switchToEditMode_inv s :
  perm_inv e s -> canUserWrite s = true -> docLayer s = true -> perm_inv e (final (switchToEditMode e s)).
Proof.
  intros [_ Hf _ Ho _] Hw Hd. unfold switchToEditMode. rewrite shouldStartReadOnly_spec by done.
  set (s1 := set_odfOnly (odfRule e) s).
  assert (forall m, perm_inv e (set_modals m s1)) as Hinv.
  { intros m. split; [by left|done|by cbn; rewrite Hd|done|done]. }
  assert (perm_inv e s1) by apply (Hinv (modals s1)).
  destruct (startReadOnly && _).
  - destruct (hasFileName e); [|done]. destruct (extensionInfo e s1); [|done]. cbn [final].
    apply (Hinv (modals (showModal _ s1))).
  - destruct (proceedEditMode_core s1) as [_ [[-> _]|[(A & B & M & D & C & O)%core_spec Hed]]]; [done..|].
    split; [left; unfold canUserWrite; by rewrite A|done|by rewrite C; cbn; rewrite Hd|by rewrite O|by rewrite O].
Qed.

Lemma apply_permission_inv s :
  perm_inv e s -> perm_inv e (final (apply_permission e s)).
Proof.
  intros Hinv. unfold apply_permission. destruct (docLayer s) eqn:Hd; [|done].
  destruct Hinv as [Hf Hfmt _ Ho Hp]. apply setPermission_inv; auto. tauto.
Qed.

(** Lowering the permission of the file and telling the map. *)
Lemma lower_inv p s :
  p ∈ ["edit"; "view"; "readonly"] -> perm_inv e s ->
  perm_inv e (final (apply_permission e (lower_permission p s))).
Proof.
  intros Hp Hinv. pose proof Hinv as [Hf Hfmt Hl Ho Hpr]. unfold lower_permission.
  destruct (canUserWrite s) eqn:Hw; [|by apply apply_permission_inv].
  unfold apply_permission. cbn [docLayer set_filePermission filePermission].
  destruct (docLayer s) eqn:Hd.
  - apply setPermission_inv; [by left|done| |done..]. cbn.
    apply elem_of_cons in Hp as [->|Hp]; [by left|]. right. set_solver.
  - cbn [final]. destruct (Hl eq_refl) as [(H1 & H2 & H3) Hb].
    split; [right|done|intros _|done|done]; done.
Qed.

Lemma set_flags_inv a b c s : perm_inv e s -> perm_inv e (set_flags a b c s).
Proof. intros [H1 H2 H3 H4 H5]. split; [exact H1|exact H2|exact H3|exact H4|exact H5]. Qed.

Lemma andThen_final (P : state -> Prop) o f :
  P (final o) -> (forall s, P s -> P (final (f s))) -> P (final (andThen o f)).
Proof. destruct o; simpl; auto. Qed.

Lemma closeModal_inv m s : perm_inv e s -> perm_inv e (closeModal m s).
Proof.
  assert (Hno : no_way_to_edit s -> no_way_to_edit (closeModal m s)).
  { intros (H1 & H2 & H3). split_and!; [done|done|]. intros y n [H _]%elem_of_closeModal. by eapply H3. }
  intros [H1 H2 H3 H4 H5]. split; [tauto|done|intros Hd; destruct (H3 Hd); auto|done|].
  intros Hr y n [H _]%elem_of_closeModal. by eapply H5.
Qed.

Lemma showModal_inv m s : (forall y n, m <> SwitchModal y n) -> perm_inv e s -> perm_inv e (showModal m s).
Proof.
  intros Hm [H1 H2 H3 H4 H5].
  assert (Hno : no_way_to_edit s -> no_way_to_edit (showModal m s)).
  { intros (A & B & C). split_and!; [done|done|]. intros y n [<-|[H _]]%elem_of_showModal; [by eapply Hm|by eapply C]. }
  split; [tauto|done|intros Hd; destruct (H3 Hd); auto|done|].
  intros Hr y n [<-|[H _]]%elem_of_showModal; [by destruct (Hm y n)|by eapply H5].
Qed.

Lemma core_inv s s' : core s' = core s -> perm_inv e s -> perm_inv e s'.
Proof.
  intros (A & B & M & D & C & O)%core_spec [H1 H2 H3 H4 H5].
  split; unfold no_way_to_edit, canUserWrite in *; rewrite ?A, ?B, ?M, ?D, ?C, ?O; done.
Qed.

(** A dialog that leads to editing is only open while the file may be written. *)
Lemma answer_action_inv m a s :
  m ∈ modals s -> perm_inv e s -> perm_inv e (final (answer_action e m a s)).
Proof.
  intros Hm Hinv.
  assert (Hp : forall y n, m = SwitchModal y n -> perm_inv e (final (proceedEditMode e s))).
  { intros y n ->. pose proof Hinv as [Hf _ Hl Ho Hpr].
    destruct (proceedEditMode_core s) as [_ [[-> _]|[(A & B & M & D & C & O)%core_spec Hed]]]; [done|eauto|done|].
    assert (Hw : canUserWrite s = true) by (destruct Hf as [|(_ & _ & Hn)]; [done|by destruct (Hn y n)]).
    split; [left; unfold canUserWrite; by rewrite A|done| |by rewrite O|rewrite O, M; eauto].
    rewrite C. intros Hd. destruct (Hl Hd) as [(_ & _ & Hn) _]. by destruct (Hn y n). }
  unfold answer_action, offerSaveAs.
  destruct m as [[]|[] []|? ?], a; try done; eauto; cbn [final];
    repeat case_match; first [done | by apply showModal_inv | by apply (core_inv s)].
Qed.

Lemma perm_step_inv s s' : perm_inv e s -> perm_step e s s' -> perm_inv e s'.
Proof.
  intros Hinv. destruct 1 as [p s Hp|ro ec s|w s Hd|s|s|s|m a s Hm|s|s Hd|s|s Hd|s Hd Hw].
  - apply (andThen_final (perm_inv e)); [by apply lower_inv|]. intros. by apply set_flags_inv.
  - apply (andThen_final (perm_inv e)); [|intros; by apply set_flags_inv].
    destruct ro; [apply lower_inv; [set_solver|done]|by apply apply_permission_inv].
  - destruct w; [done|]. destruct Hinv as [Hf Hfmt Hl Ho Hpr].
    assert (no_way_to_edit s) as Hno.
    { destruct Hd as [Hd|[|Hw]]; [by destruct (Hl Hd)|done|]. destruct Hf; congruence. }
    split; [by right|done|exact Hl|done|done].
  - unfold onLayerAdded, apply_permission. cbn [docLayer add_docLayer filePermission].
    destruct Hinv as [Hf Hfmt _ Ho Hpr]. apply setPermission_inv; [by left|done| |done..]. tauto.
  - unfold onLockFailed. destruct (canTryLock s) as [[]|]; [|done|]; apply showModal_inv; [done|done|done|by apply (core_inv s)].
  - unfold clickButton. destruct (button s) eqn:Hb; [done| |by apply (core_inv s)|].
    + apply switchToEditMode_inv; [done| |].
      * destruct Hinv as [[|(_ & Hn & _)] _ _ _ _]; [done|congruence].
      * destruct Hinv as [_ _ Hl _ _]. destruct (docLayer s); [done|]. destruct (Hl eq_refl). congruence.
    + unfold requestFileCopy. destruct (canUserWrite s) eqn:Hw; cbn [negb]; [|by apply (core_inv s)].
      apply switchToEditMode_inv; [done|done|].
      destruct Hinv as [_ _ Hl _ _]. destruct (docLayer s); [done|]. destruct (Hl eq_refl). congruence.
  - apply (andThen_final (perm_inv e)); [by apply answer_action_inv|]. intros. by apply closeModal_inv.
  - unfold onDisconnect. destruct (isEditMode s) eqn:He; [|done].
    unfold isEditMode in He. apply bool_decide_eq_true in He. destruct Hinv as [Hf Hfmt Hl Ho Hpr].
    apply setPermission_inv; [by right; left|done|by right; left|done..|].
    destruct (docLayer s); [done|]. by destruct (Hl eq_refl) as [[? _] _].
  - by apply apply_permission_inv.
  - unfold onLeaveEditing. destruct (isEditMode s) eqn:He; [|done].
    unfold isEditMode in He. apply bool_decide_eq_true in He. destruct Hinv as [Hf Hfmt Hl Ho Hpr].
    assert (Hw : canUserWrite s = true) by (destruct Hf as [|[? _]]; done).
    apply setPermission_inv; [left; by apply String.eqb_eq in Hw|done|by left|done..|].
    destruct (docLayer s); [done|]. by destruct (Hl eq_refl) as [[? _] _].
  - destruct Hinv as [Hf Hfmt Hl Ho Hpr]. apply setPermission_inv; auto.
  - unfold onReadonlymode. destruct (androidApp e); [|done]. destruct Hinv as [Hf Hfmt Hl Ho Hpr].
    apply setPermission_inv; auto. 
Qed.

Lemma new_state_inv p : perm_inv e (new_state p).
Proof.
  assert (H : no_way_to_edit (new_state p)) by (split_and!; [done|done|intros y n; set_solver]).
  split; [by right|done|done|done|]. intros _ y n. set_solver.
Qed.

Lemma reachable_inv p s : rtc (perm_step e) (new_state p) s -> perm_inv e s.
Proof.
  intros H. pose proof (new_state_inv p) as Hi. revert Hi. generalize dependent (new_state p).
  induction 1; eauto using perm_step_inv.
Qed.

(** ** The permission of the file *)

Lemma enterEditMode_file p s : filePermission (final (enterEditMode e p s)) = filePermission s.
Proof. by destruct (enterEditMode_core p s) as [(A & _)%core_spec _]. Qed.

Lemma proceedEditMode_file s : filePermission (final (proceedEditMode e s)) = filePermission s.
Proof.
  unfold proceedEditMode. destruct (_ && _); [done|].
  pose proof (enterEditMode_file "edit" (show_button false (set_canTryLock false s))) as H.
  destruct (enterEditMode e "edit" _) as [s1|s1]; cbn [andThen final] in *; [|done].
  unfold when. by destruct (mobileOrTablet e), (negb (iosApp e || androidApp e)).
Qed.

Lemma shouldStartReadOnly_file s :
  filePermission (shouldStartReadOnly e s).2 = filePermission s /\
  docLayer (shouldStartReadOnly e s).2 = docLayer s /\ canTryLock (shouldStartReadOnly e s).2 = canTryLock s.
Proof. unfold shouldStartReadOnly. repeat case_match; done. Qed.

Lemma switchToEditMode_file s : filePermission (final (switchToEditMode e s)) = filePermission s.
Proof.
  unfold switchToEditMode. pose proof (shouldStartReadOnly_file s) as [H _].
  destruct (shouldStartReadOnly e s) as [b s1]. cbn in H.
  repeat case_match; try done. by rewrite proceedEditMode_file.
Qed.

Lemma enterReadOnlyMode_file p s : filePermission (enterReadOnlyMode e p s) = filePermission s.
Proof. by destruct (core_spec _ _ _ _ _ _ _ (enterReadOnlyMode_core p s)) as (A & _). Qed.

Lemma updateButton_file s :
  filePermission (updateButton e s) = filePermission s /\ docLayer (updateButton e s) = docLayer s /\
  canTryLock (updateButton e s) = canTryLock s.
Proof.
  unfold updateButton. pose proof (shouldStartReadOnly_file (set_button NoClick s)) as H.
  destruct (isPDF e _); [done|]. by destruct (shouldStartReadOnly e _).
Qed.

Lemma setPermission_file p s : filePermission (final (setPermission e p s)) = filePermission s.
Proof.
  unfold setPermission. destruct (updateButton_file s) as [E _]. cbv zeta. set (s1 := updateButton e s) in *.
  clearbody s1. destruct (String.eqb p "edit"); [|destruct (_ || _)].
  - pose proof (shouldStartReadOnly_file s1) as [E2 _]. destruct (shouldStartReadOnly e s1) as [b s2].
    cbn in E2. destruct (_ || _); [by cbn [final]; rewrite enterReadOnlyMode_file; cbn; congruence|].
    destruct (canTryLock s2) as [[]|]; rewrite ?switchToEditMode_file, ?enterEditMode_file; congruence.
  - cbn [final]. rewrite enterReadOnlyMode_file. by repeat case_match.
  - done.
Qed.

Lemma apply_permission_file s : filePermission (final (apply_permission e s)) = filePermission s.
Proof. unfold apply_permission. case_match; [apply setPermission_file|done]. Qed.

Lemma perm_step_file s s' : perm_step e s s' -> canUserWrite s = false -> canUserWrite s' = false.
Proof.
  assert (Heq : forall o s, filePermission (final o) = filePermission s -> canUserWrite s = false ->
            canUserWrite (final o) = false) by (unfold canUserWrite; congruence).
  destruct 1 as [p s Hp|ro ec s|w s Hd|s|s|s|m a s Hm|s|s Hd|s|s Hd|s Hd Hwr]; intros Hw.
  - apply (Heq _ s); [|done]. unfold onPerm, lower_permission. rewrite Hw.
    pose proof (apply_permission_file s). by destruct (apply_permission e s).
  - apply (Heq _ s); [|done]. unfold onFilemode, lower_permission. rewrite Hw.
    pose proof (apply_permission_file s). by destruct ro, (apply_permission e s).
  - by destruct w.
  - apply (Heq _ s); [|done]. apply (apply_permission_file (add_docLayer s)).
  - unfold onLockFailed. by destruct (canTryLock s) as [[]|].
  - apply (Heq _ s); [|done]. unfold clickButton, requestFileCopy. rewrite Hw.
    destruct (button s); try done. apply switchToEditMode_file.
  - apply (Heq _ s); [|done]. unfold answerModal.
    assert (E : filePermission (final (answer_action e m a s)) = filePermission s).
    { unfold answer_action, offerSaveAs. repeat case_match; try done; apply proceedEditMode_file. }
    by destruct (answer_action e m a s).
  - apply (Heq _ s); [|done]. unfold onDisconnect. case_match; [apply setPermission_file|done].
  - apply (Heq _ s); [|done]. apply apply_permission_file.
  - apply (Heq _ s); [|done]. unfold onLeaveEditing. case_match; [apply setPermission_file|done].
  - apply (Heq _ s); [|done]. apply setPermission_file.
  - congruence.
Qed.

Lemma perm_steps_file s s' : rtc (perm_step e) s s' -> canUserWrite s = false -> canUserWrite s' = false.
Proof. induction 1; eauto using perm_step_file. Qed.

Lemma reachable_edit p s :
  rtc (perm_step e) (new_state p) s -> isEditMode s = true -> canUserWrite s = true /\ editable_format e.
Proof.
  intros [Hf Hfmt _ _ _]%reachable_inv He. unfold isEditMode in He. apply bool_decide_eq_true in He.
  split; [|auto]. destruct Hf as [|[? _]]; done.
Qed.
End proofs.

(** ** Properties *)

Lemma setPermission_readonly e s :
  let s' := final (setPermission e "readonly" s) in
  setPermission e "readonly" s = Returns s' /\ permission s' = Some "readonly" /\ docLayer s' = docLayer s /\
  canTryLock s' = canTryLock s.
Proof.
  unfold setPermission. change (String.eqb "readonly" "edit") with false.
  change (String.eqb "readonly" "view" || String.eqb "readonly" "readonly") with true.
  destruct (updateButton_file e s) as (_ & Ed0 & Ec0). set (s0 := updateButton e s) in *. clearbody s0.
  cbv iota zeta. cbn [final]. set (s1 := if lockedReadOnlyUser e then _ else _).
  assert (E : docLayer s1 = docLayer s /\ canTryLock s1 = canTryLock s)
    by (rewrite <- Ed0, <- Ec0; unfold s1; by repeat case_match).
  destruct E as [Ed Ec]. destruct (core_spec _ _ _ _ _ _ _ (enterReadOnlyMode_core e "readonly" s1)) as (_ & B & _ & _ & D & _).
  split_and!; [done|done|congruence|]. rewrite <- Ec. clearbody s1. unfold enterReadOnlyMode, when.
  cbn. destruct (androidApp e), (negb (isMobile e)), (docLayer s1) eqn:E; cbn; by rewrite ?E.
Qed.

(** Where a click is needed to edit, [setPermission] leaves the map read-only. *)
Lemma setPermission_asks e s :
  (odfOnly s = true -> odfRule e = true) -> mobileOrTablet e = true \/ startReadOnly e = true ->
  let s' := final (setPermission e "edit" s) in
  modals s' = [] /\ docLayer s' = docLayer s /\ permission s' = Some "readonly" /\
  button s' = SwitchToEdit /\ filePermission s' = filePermission s /\ odfOnly s' = odfRule e.
Proof.
  intros Ho Ha. unfold setPermission. change (String.eqb "edit" "edit") with true.
  destruct (updateButton_core e s Ho) as (o & Hcore & Ho' & _). set (s0 := updateButton e s) in *. clearbody s0.
  destruct (core_spec _ _ _ _ _ _ _ Hcore) as (F0 & _ & _ & _ & D0 & O0).
  assert (E : startReadOnly e || mobileOrTablet e = true) by (destruct Ha as [-> | ->]; by rewrite ?orb_true_r).
  cbv zeta. rewrite shouldStartReadOnly_spec by (rewrite O0; done). rewrite E. cbn [final].
  set (s1 := set_button SwitchToEdit _).
  destruct (core_spec _ _ _ _ _ _ _ (enterReadOnlyMode_core e "readonly" s1)) as (-> & -> & -> & -> & -> & ->).
  done.
Qed.

Lemma proceedEditMode_edits e s :
  odfOnly s = odfRule e ->
  permission s <> Some "edit" -> isEditMode (final (proceedEditMode e s)) = true <-> editable_format e.
Proof.
  intros Ho Hp. unfold isEditMode. rewrite bool_decide_eq_true.
  destruct (proceedEditMode_core e s) as [_ [[-> ?]|[(_ & -> & _)%core_spec ?]]]; [congruence..|done|done].
Qed.

Lemma andThen_edits m (o : outcome) (P : Prop) :
  (isEditMode (final o) = true <-> P) ->
  isEditMode (final (andThen o (fun s => Returns (closeModal m s)))) = true <-> P.
Proof. by destruct o. Qed.

(** C7: Editing needs the right to.  While one document is open, whatever the order of messages,
    clicks, answers and lost connections, the map is in edit mode only while the permission of the
    file is [edit] and its format can be written, and once the permission is lower nothing leads
    to editing.  Three events are not among these steps ([other_step]) and do bring editing
    without the right, or the right back: saving under another name, the integration withdrawing
    the right from an open document, and [readonlymode] of the Android app. *)
Theorem edit_mode_needs_permission e p s s' :
  rtc (perm_step e) (new_state p) s -> rtc (perm_step e) s s' ->
  (isEditMode s = true -> filePermission s = "edit" /\ editable_format e) /\
  (filePermission s <> "edit" -> isEditMode s' = false).
Proof.
  intros H H'. split.
  - intros [Hw Hf]%(reachable_edit e p s H). split; [by apply String.eqb_eq|done].
  - intros Hne. apply not_true_iff_false. intros He.
    destruct (reachable_edit e p s') as [Hw _]; [by transitivity s|done|].
    rewrite (perm_steps_file e s s') in Hw; [done..|]. by apply String.eqb_neq.
Qed.

(** The three ways round. *)
Definition shared : session :=
  Session false false false false false false "a.ods" None false false false true false true.

(** A saved copy is opened with the right to edit, whatever it was before. *)
Example saveas_raises :
  let s := final (onPerm shared "readonly" (final (onLayerAdded shared (new_state "edit")))) in
  filePermission s = "readonly" /\
  isEditMode (final (apply_permission shared (onSaveAs s))) = true.
Proof. by vm_compute. Qed.

(** The rights of the integration after a reconnection take the permission of the file away and
    leave the edit mode. *)
Example withdrawn_keeps_editing :
  let s := onWopi false (final (onLayerAdded shared (new_state "edit"))) in
  filePermission s = "readonly" /\ isEditMode s = true.
Proof. by vm_compute. Qed.

(** The read-only mode of the Android app is asked for with the permission to edit, so that the
    button leads to editing without the right to. *)
Example android_edits_readonly :
  let e := Session true false true true true false "" None false false false true true false in
  let s := final (onPerm e "readonly" (final (onLayerAdded e (new_state "edit")))) in
  let s' := final (clickButton e (final (onReadonlymode e s))) in
  filePermission s' = "readonly" /\ isEditMode s' = true.
Proof. by vm_compute. Qed.

(** A format the integration wants saved as ODF only is not edited, but the name of the copy is
    offered. *)
Example odf_only_is_readonly :
  let e := Session false false false false false false "a.doc" (Some "odt") false false false true true false in
  let s := final (clickButton e (final (onLayerAdded e (new_state "edit")))) in
  isEditMode (final (answerModal e (SwitchModal YesSaveAs true) AnswerNo s)) = false /\
  modals (final (answerModal e (SwitchModal YesSaveAs true) (AnswerYes "") s)) = [SaveAsModal "a.odt" "odt"].
Proof. by vm_compute. Qed.

(** A failed lock can be tried again, in vain: the server's [perm: readonly] has
    lowered the permission of the file for good, so that its [perm: edit] after the
    lock has been granted leaves the document read-only. *)
Theorem lock_retry_stays_readonly e s :
  docLayer s = true -> canTryLock s = None ->
  let s1 := final (onPerm e "readonly" s) in
  let s2 := onLockFailed s1 in
  let s3 := final (answerModal e (LockModal true) (AnswerYes "") s2) in
  let s4 := final (onPerm e "edit" s3) in
  canUserWrite s = true ->
  last (log s3) = Some (Send "attemptlock") /\ filePermission s4 = "readonly" /\ isEditMode s4 = false.
Proof.
  intros Hd Hc s1 s2 s3 s4 Hw.
  assert (E1 : filePermission s1 = "readonly" /\ docLayer s1 = true /\ canTryLock s1 = None).
  { subst s1. unfold onPerm, lower_permission, apply_permission. rewrite Hw.
    cbn [docLayer set_filePermission filePermission]. rewrite Hd.
    pose proof (setPermission_file e "readonly" (set_filePermission "readonly" s)) as Hf.
    destruct (setPermission_readonly e (set_filePermission "readonly" s)) as (-> & _ & D & C).
    cbn [andThen final] in *. cbn in *. split_and!; congruence. }
  destruct E1 as (Ef & Ed & Ec). clearbody s1.
  assert (E2 : s2 = showModal (LockModal true) (set_canTryLock true s1)) by (subst s2; unfold onLockFailed; by rewrite Ec).
  assert (E3 : filePermission s3 = "readonly" /\ docLayer s3 = true /\ log s3 = log s2 ++ [Send "attemptlock"])
    by (subst s3; rewrite E2; done).
  destruct E3 as (Ef3 & Ed3 & El). split; [rewrite El; apply last_snoc|].
  clearbody s3. subst s4. unfold onPerm, lower_permission, apply_permission, canUserWrite. rewrite Ef3.
  change (String.eqb "readonly" "edit") with false. cbv iota. rewrite Ed3, Ef3. pose proof (setPermission_file e "readonly" s3) as Hf.
  destruct (setPermission_readonly e s3) as (-> & B & _ & _).
  cbn [andThen final] in *. unfold isEditMode. cbn. cbn in B, Hf. rewrite B. split; [congruence|done].
Qed.

(** Asking to edit, where the document starts read-only: the button of a file with
    a format that is meant to be edited opens the edit mode at once; for the other
    formats of the table it opens a dialog, and going on from there opens the edit
    mode exactly when the format can be written. *)
Theorem editing_on_request e s :
  docLayer s = true -> canUserWrite s = true -> lockedReadOnlyUser e = false ->
  (odfOnly s = true -> odfRule e = true) ->
  mobileOrTablet e = true \/ startReadOnly e = true ->
  let s1 := final (setPermission e "edit" s) in
  let s2 := final (clickButton e s1) in
  let asks := startReadOnly e && negb (thisIsAMobileApp e) in
  isReadOnlyMode s1 = true /\
  (asks = false -> isEditMode s2 = true <-> editable_format e) /\
  (asks = true ->
     exists y n, modals s2 = [SwitchModal y n] /\ isEditMode s2 = false /\
       let a := if userCanNotWriteRelative e then AnswerYes "" else AnswerNo in
       isEditMode (final (answerModal e (SwitchModal y n) a s2)) = true <-> editable_format e).
Proof.
  intros Hd Hw Hlock Ho Hask s1 s2 asks.
  destruct (setPermission_asks e s Ho Hask) as (M & D & P & B & _ & O). fold s1 in M, D, P, B, O.
  assert (Hsw : switchToEditMode e s1 =
    if asks then if hasFileName e then
        match extensionInfo e s1 with
        | None => Throws s1
        | Some _ => Returns (showModal (if userCanNotWriteRelative e then SwitchModal YesProceed false
                                        else SwitchModal YesSaveAs true) s1)
        end else Throws s1
    else proceedEditMode e s1).
  { unfold switchToEditMode. rewrite shouldStartReadOnly_spec by (by rewrite O).
    rewrite <- O, set_odfOnly_same. unfold asks. by destruct (_ && _), (hasFileName e). }
  split_and!.
  - unfold isReadOnlyMode. by rewrite P.
  - intros Ha. subst s2. unfold clickButton. rewrite B, Hsw, Ha.
    apply proceedEditMode_edits; [done|]. by rewrite P.
  - intros Ha. rewrite Ha in Hsw.
    assert (E : s2 = showModal (if userCanNotWriteRelative e then SwitchModal YesProceed false
                                else SwitchModal YesSaveAs true) s1).
    { subst s2. unfold clickButton. rewrite B, Hsw. unfold asks, startReadOnly in Ha. rewrite Hlock in Ha.
      unfold extensionInfo. rewrite O. unfold odfRule. rewrite Hlock.
      destruct (hasFileName e); [|done]. destruct (tableInfo e); [done|].
      destruct (isOnlySaveAsODF e); done. }
    assert (Hne : permission s2 <> Some "edit") by (rewrite E; cbn; by rewrite P).
    assert (Ho2 : odfOnly s2 = odfRule e) by (rewrite E; exact O).
    unfold answerModal. destruct (userCanNotWriteRelative e); eexists _, _; split_and!;
      try (rewrite E; unfold showModal, closeModal; cbn; by rewrite M);
      try (by apply bool_decide_eq_false); cbn [answer_action]; by apply andThen_edits, proceedEditMode_edits.
Qed.

(** A user locked out of editing who has the right to write: the button calls the
    switch to editing instead of the unlock dialog, and the switch looks up the
    format of the file, which is not in the table: the click raises an exception and
    nothing happens. *)
Theorem locked_user_click_raises e s :
  lockedReadOnlyUser e = true -> thisIsAMobileApp e = false -> tableInfo e = None -> odfOnly s = false ->
  let s1 := final (setPermission e "edit" s) in
  clickButton e s1 = Throws s1 /\ isReadOnlyMode s1 = true.
Proof.
  intros Hl Hm Hx Ho s1.
  assert (Hs : startReadOnly e = true) by (unfold startReadOnly; by rewrite Hl).
  assert (Ho1 : odfOnly s = true -> odfRule e = true) by congruence.
  destruct (setPermission_asks e s Ho1 (or_intror Hs)) as (_ & _ & P & B & _ & O). fold s1 in P, B, O.
  split; [|unfold isReadOnlyMode; by rewrite P].
  assert (Hr : odfRule e = false) by (unfold odfRule; by rewrite Hl).
  unfold clickButton, switchToEditMode, shouldStartReadOnly, extensionInfo. rewrite B, Hl, Hm, Hx, O, Hr.
  by destruct (hasFileName e).
Qed.

(** ** Witnesses *)

Definition desktop (file : string) (locked : bool) : session :=
  Session false false false false false false file None false locked false true false true.

Definition editing : state := final (onLayerAdded (desktop "a.ods" false) (new_state "edit")).

Lemma edit_mode_needs_permission_witness :
  isEditMode editing = true /\ filePermission editing = "edit" /\
  isEditMode (final (onPerm (desktop "a.ods" false) "edit"
               (final (onPerm (desktop "a.ods" false) "readonly" editing)))) = false.
Proof.
  set (s1 := final (onPerm (desktop "a.ods" false) "readonly" editing)).
  assert (H1 : rtc (perm_step (desktop "a.ods" false)) (new_state "edit") editing)
    by (apply rtc_once, step_layer).
  assert (H2 : rtc (perm_step (desktop "a.ods" false)) editing s1).
  { apply rtc_once, step_perm. set_solver. }
  assert (H3 : rtc (perm_step (desktop "a.ods" false)) s1 (final (onPerm (desktop "a.ods" false) "edit" s1))).
  { apply rtc_once, step_perm. set_solver. }
  split_and!; [by vm_compute| |].
  - destruct (edit_mode_needs_permission _ _ _ _ H1 H2) as [H _]. apply H. by vm_compute.
  - assert (H12 : rtc (perm_step (desktop "a.ods" false)) (new_state "edit") s1) by by transitivity editing.
    destruct (edit_mode_needs_permission _ _ _ _ H12 H3) as [_ H]. apply H. by vm_compute.
Defined.

Lemma lock_retry_stays_readonly_witness :
  isEditMode (final (onPerm (desktop "a.ods" false) "edit"
    (final (answerModal (desktop "a.ods" false) (LockModal true) (AnswerYes "")
      (onLockFailed (final (onPerm (desktop "a.ods" false) "readonly" editing))))))) = false.
Proof.
  apply (lock_retry_stays_readonly (desktop "a.ods" false) editing); by vm_compute.
Defined.

Definition csv_session : session := desktop "table.csv" false.
Definition csv_opened : state := final (onLayerAdded csv_session (new_state "edit")).

Lemma editing_on_request_witness :
  let s2 := final (clickButton csv_session (final (setPermission csv_session "edit" csv_opened))) in
  modals s2 = [SwitchModal YesSaveAs true] /\ isEditMode s2 = false /\
  isEditMode (final (answerModal csv_session (SwitchModal YesSaveAs true) AnswerNo s2)) = true.
Proof.
  destruct (editing_on_request csv_session csv_opened eq_refl eq_refl eq_refl (fun H => H) (or_intror eq_refl)) as (_ & _ & H).
  destruct (H eq_refl) as (y & n & H1 & H2 & H3).
  assert (E : y = YesSaveAs /\ n = true) by (vm_compute in H1; injection H1 as <- <-; done).
  destruct E as [-> ->]. split_and!; [exact H1|exact H2|]. apply H3. intros _. split; [|done]. intros i E. vm_compute in E. by injection E as <-.
Defined.

Lemma locked_user_click_raises_witness :
  let e := desktop "a.ods" true in
  let s1 := final (setPermission e "edit" (new_state "edit")) in clickButton e s1 = Throws s1.
Proof. apply (locked_user_click_raises (desktop "a.ods" true) (new_state "edit")); by vm_compute. Defined.
