(* ===== verification/PreFetch.v ===== *)
(** * Fetching tiles ahead

    The tiles around the view are fetched while nothing else happens: ring after
    ring around every split pane, a few tiles at a time.  Models
    [L.TilesPreFetcher], [L.TilesPreFetcher.PaneBorder],
    [_initPreFetchAdjacentTiles] and [_prefetchTilesSync] of
    src/browser/src/layer/tile/CanvasTileLayer.js.  [None] as a number of tiles is
    [Infinity]. *)

From S2P Require Import Prelude Sorts JsText JsObject Geometry TileCoords Tiles TileRequest.
Local Open Scope Z_scope.

(** ** Borders *)

(** [L.TilesPreFetcher.PaneBorder]; the bounds are changed in place. *)
Record pane_border := PaneBorder { border : bounds; xFixed : bool; yFixed : bool; index : Z }.

Definition incBorderIndex (p : pane_border) : pane_border :=
  PaneBorder (border p) (xFixed p) (yFixed p) (index p + 1).

(** What a pane is: may it move in x, may it move in y. *)
Record pane_status := PaneStatus { st_xFixed : bool; st_yFixed : bool }.

(** The range of tiles around [r]. *)
Definition around (r : bounds) : bounds :=
  mk_bounds (point_add (bmin r) (Point (-1) (-1))) (point_add (bmax r) (Point 1 1)).

(** One border for every pane that is not fixed in both directions. *)
Definition new_borders (tileRanges : list bounds) (paneStatusList : list pane_status) : list pane_border :=
  omap (fun rs : bounds * pane_status =>
    if st_xFixed rs.2 && st_yFixed rs.2 then None
    else Some (PaneBorder (around rs.1) (st_xFixed rs.2) (st_yFixed rs.2) 0))
  (zip tileRanges paneStatusList).

(** [for (var i = min; i <= max; i++)] *)
Definition for_range (min max : Z) : list Z := seqZ min (max - min + 1).

Section fetching.
(** The grid, the tiles, and the zoom, part and mode to fetch. *)
Context (g : grid) (s : store) (zoom part mode : Z).

Definition validTileRange : bounds :=
  mk_bounds (Point 0 0)
    (Point (js_floor_div (docWidthTwips g - 1) (tileWidthTwips g))
           (js_floor_div (docHeightTwips g - 1) (tileHeightTwips g))).

Definition tile_at (i j : Z) : coord := Coord (i * tileSize g) (j * tileSize g) zoom part mode.

(** Which sides of the border lie in the document. *)
Record sides := Sides { fetchTop : bool; fetchBottom : bool; fetchLeft : bool; fetchRight : bool }.

Definition sides_of (p : pane_border) : sides :=
  let b := border p in
  let c := clamp_bounds validTileRange b in
  Sides (negb (yFixed p) && (py (bmin b) =? py (bmin c))) (negb (yFixed p) && (py (bmax b) =? py (bmax c)))
        (negb (xFixed p) && (px (bmin b) =? px (bmin c))) (negb (xFixed p) && (px (bmax b) =? px (bmax c))).

Definition no_side (f : sides) : bool :=
  negb (fetchLeft f) && negb (fetchRight f) && negb (fetchTop f) && negb (fetchBottom f).

(** The tiles of the sides: below, above, right, left. *)
Definition ring (p : pane_border) : list coord :=
  let b := border p in
  let c := clamp_bounds validTileRange b in
  let f := sides_of p in
  let row j := (fun i => tile_at i j) <$> for_range (px (bmin c)) (px (bmax c)) in
  let column i := (fun j => tile_at i j) <$> for_range (py (bmin c)) (py (bmax c)) in
  (if fetchBottom f then row (py (bmax b)) else []) ++
  (if fetchTop f then row (py (bmin b)) else []) ++
  (if fetchRight f then column (px (bmax b)) else []) ++
  (if fetchLeft f then column (px (bmin b)) else []).

(** The next border out, as far as the document reaches. *)
Definition grow (p : pane_border) : pane_border :=
  let b := border p in
  let v := validTileRange in
  let x0 := if negb (xFixed p) && (0 <? px (bmin b)) then px (bmin b) - 1 else px (bmin b) in
  let x1 := if negb (xFixed p) && (px (bmax b) <? px (bmax v)) then px (bmax b) + 1 else px (bmax b) in
  let y0 := if negb (yFixed p) && (0 <? py (bmin b)) then py (bmin b) - 1 else py (bmin b) in
  let y1 := if negb (yFixed p) && (py (bmax b) <? py (bmax v)) then py (bmax b) + 1 else py (bmax b) in
  PaneBorder (Bounds (Point x0 y0) (Point x1 y1)) (xFixed p) (yFixed p) (index p).

(** ** The queue *)

Record fetching := Fetching {
  visitedTiles : list string;
  finalQueue : list coord;
  tilesToFetch : option Z
}.

Definition may_fetch (n : option Z) : bool := match n with None => true | Some z => 0 <? z end.

Definition wanted_tile (c : coord) : bool := isValidTile g c && tileNeedsFetch (tileCoordsToKey c) s.

(** One tile of the queue; the flag is [tilesPending]. *)
Definition visit (fp : fetching * bool) (c : coord) : fetching * bool :=
  let '(f, pending) := fp in
  if bool_decide (tileCoordsToKey c ∈ visitedTiles f) || negb (wanted_tile c) then (f, pending)
  else if may_fetch (tilesToFetch f) then
    (Fetching (visitedTiles f ++ [tileCoordsToKey c]) (finalQueue f ++ [c])
       ((fun z => z - 1) <$> tilesToFetch f), pending)
  else (f, true).

(** The loop over the borders of one pane; [queue] keeps the tiles of the borders
    before.  [None]: out of fuel. *)
Fixpoint pane_loop (maxBorderWidth : Z) (fuel : nat) (p : pane_border) (queue : list coord) (f : fetching) :
    option (pane_border * fetching) :=
  match fuel with
  | O => None
  | S fuel' =>
      if may_fetch (tilesToFetch f) && (index p <? maxBorderWidth) then
        if no_side (sides_of p) then Some (p, f)
        else
          let queue := queue ++ ring p in
          let '(f, tilesPending) := foldl visit (f, false) queue in
          if tilesPending then pane_loop maxBorderWidth fuel' p queue f
          else pane_loop maxBorderWidth fuel' (incBorderIndex (grow p)) queue f
      else Some (p, f)
  end.

(** Every turn of the loop ends it or moves the border on. *)
Definition pane_fuel (maxBorderWidth : Z) (p : pane_border) : nat := S (S (Z.to_nat (maxBorderWidth - index p))).

(** The loop over the panes: the borders, the queue, and [doneAllPanes]. *)
Fixpoint panes_loop (maxBorderWidth : Z) (ps : list pane_border) (f : fetching) :
    option (list pane_border * fetching * bool) :=
  match ps with
  | [] => Some ([], f, true)
  | p :: ps' =>
      '(p', f') ← pane_loop maxBorderWidth (pane_fuel maxBorderWidth p) p [] f;
      '(ps'', f'', done) ← panes_loop maxBorderWidth ps' f';
      Some (p' :: ps'', f'', (maxBorderWidth <=? index p') && done)
  end.

Definition fetch_borders (maxBorderWidth : Z) (limit : option Z) (ps : list pane_border) :
    option (list pane_border * fetching * bool) :=
  panes_loop maxBorderWidth ps (Fetching [] [] limit).
End fetching.

(** ** The prefetcher *)

(** Fields are [None] before they are first set.  The timers: the interval of the
    prefetcher and the wait before it. *)
Record prefetcher := Prefetcher {
  pzoom : option Z;
  preFetchPart : option Z;
  preFetchMode : option Z;
  phasEditPerm : option bool;
  ppixelBounds : option bounds;
  psplitPos : option point;
  borders : option (list pane_border);
  tilesPreFetcher : bool;
  preFetchIdle : bool;
  cumTileCount : num
}.

Definition new_prefetcher : prefetcher :=
  Prefetcher None None None None None None None false false None.

Definition set_timers (t i : bool) (p : prefetcher) : prefetcher :=
  Prefetcher (pzoom p) (preFetchPart p) (preFetchMode p) (phasEditPerm p) (ppixelBounds p) (psplitPos p)
    (borders p) t i (cumTileCount p).
Definition set_borders (b : option (list pane_border)) (p : prefetcher) : prefetcher :=
  Prefetcher (pzoom p) (preFetchPart p) (preFetchMode p) (phasEditPerm p) (ppixelBounds p) (psplitPos p)
    b (tilesPreFetcher p) (preFetchIdle p) (cumTileCount p).
Definition set_preFetchView (part mode : Z) (p : prefetcher) : prefetcher :=
  Prefetcher (pzoom p) (Some part) (Some mode) (phasEditPerm p) (ppixelBounds p) (psplitPos p)
    (borders p) (tilesPreFetcher p) (preFetchIdle p) (cumTileCount p).
Definition set_cumTileCount (n : num) (p : prefetcher) : prefetcher :=
  Prefetcher (pzoom p) (preFetchPart p) (preFetchMode p) (phasEditPerm p) (ppixelBounds p) (psplitPos p)
    (borders p) (tilesPreFetcher p) (preFetchIdle p) n.

Definition clearTilesPreFetcher (p : prefetcher) : prefetcher := set_timers false (preFetchIdle p) p.

Definition clearPreFetch (p : prefetcher) : prefetcher := set_timers (tilesPreFetcher (clearTilesPreFetcher p)) false p.

Definition resetPreFetching (selectedPart selectedMode : Z) (resetBorder : bool) (p : prefetcher) : prefetcher :=
  let p := clearPreFetch p in
  let p := if resetBorder then set_borders None p else p in
  set_timers (tilesPreFetcher p) true (set_preFetchView selectedPart selectedMode p).

(** The wait is over: the interval starts. *)
Definition idle_fires (p : prefetcher) : prefetcher := set_cumTileCount (Some 0) (set_timers true false p).

(** What [preFetchTiles] asks the map and the layer. *)
Record scene := Scene {
  sview : view;
  szoom : Z;
  sPixelBounds : bounds;
  sHasEditPerm : bool;
  sSplitPos : point;
  sPanes : list pane_status;
  canonicalIdInitialized : bool
}.

Definition point_eqb (a b : point) : bool := (px a =? px b) && (py a =? py b).
Definition bounds_eqb (a b : bounds) : bool := point_eqb (bmin a) (bmin b) && point_eqb (bmax a) (bmax b).

(** A field that was never set is set to the value of now, and is then equal. *)
Definition same {A} (eqb : A -> A -> bool) (old : option A) (now : A) : bool :=
  match old with None => true | Some x => eqb x now end.

Definition maxTilesToFetch (sc : scene) : Z := if sHasEditPerm sc then 5 else 10.
Definition maxBorderWidth (sc : scene) : Z := if sHasEditPerm sc then 3 else 5.

Definition needs_borders (sc : scene) (force : bool) (p : prefetcher) : bool :=
  force || match borders p with None | Some [] => true | Some _ => false end ||
  negb (same Z.eqb (pzoom p) (szoom sc)) ||
  negb (same Z.eqb (preFetchPart p) (selectedPart (sview sc))) ||
  negb (same Z.eqb (preFetchMode p) (selectedMode (sview sc))) ||
  negb (same Bool.eqb (phasEditPerm p) (sHasEditPerm sc)) ||
  negb (same bounds_eqb (ppixelBounds p) (sPixelBounds sc)) ||
  negb (same point_eqb (psplitPos p) (sSplitPos sc)).

(** The fields as they are after the test of [needs_borders]. *)
Definition look (sc : scene) (p : prefetcher) (b : option (list pane_border)) : prefetcher :=
  Prefetcher (Some (szoom sc)) (Some (selectedPart (sview sc))) (Some (selectedMode (sview sc)))
    (Some (sHasEditPerm sc)) (Some (sPixelBounds sc)) (Some (sSplitPos sc))
    b (tilesPreFetcher p) (preFetchIdle p) (cumTileCount p).

Definition borders_for (sc : scene) (force : bool) (p : prefetcher) : list pane_border :=
  if needs_borders sc force p
  then new_borders (pxBoundsToTileRanges (vgrid (sview sc)) (splitPanes (sview sc)) (sPixelBounds sc)) (sPanes sc)
  else default [] (borders p).

(** [preFetchTiles], for a view that is not file-based; [None]: out of fuel. *)
Definition preFetchTiles (sc : scene) (force immediate : bool) (now : num) (s : store) (p : prefetcher) :
    option (prefetcher * store * list combine_request) :=
  if (0 <? emptyTilesCount s) || negb (canonicalIdInitialized sc) then Some (p, s, [])
  else
    let v := sview sc in
    let limit := if immediate then None else Some (maxTilesToFetch sc) in
    '(bs, f, done) ← fetch_borders (vgrid v) s (szoom sc) (selectedPart v) (selectedMode v)
                       (maxBorderWidth sc) limit (borders_for sc force p);
    let p := look sc p (Some bs) in
    let tilesRequested := negb (length (finalQueue f) =? 0)%nat in
    let '(p, (s, requests)) :=
      if tilesRequested
      then (set_cumTileCount (num_add (cumTileCount p) (Some (Z.of_nat (length (finalQueue f))))) p,
            addTiles v now (finalQueue f) s)
      else (p, (s, [])) in
    Some (if negb tilesRequested || done then set_borders None (clearTilesPreFetcher p) else p, s, requests).

(** [_prefetchTilesSync] *)
Definition prefetchTilesSync (sc : scene) (now : num) (s : store) (p : prefetcher) :=
  preFetchTiles sc true true now s p.

(** The timer of [_initPreFetchAdjacentTiles]: the areas below and above the view. *)
Definition adjacent_bounds (isCalc : bool) (b : bounds) : bounds * bounds :=
  let pixelHeight := py (getSize b) in
  let pixelPrevNextHeight := if isCalc then Z.quot (pixelHeight * 3) 2 else pixelHeight in
  let top := point_add (bmin b) (Point 0 pixelHeight) in
  let bottom := point_add (bmax b) (Point 0 pixelPrevNextHeight) in
  let back := Point 0 (- (pixelHeight + pixelPrevNextHeight)) in
  (mk_bounds top bottom, mk_bounds (point_add top back) (point_add bottom back)).

Definition preFetchAdjacentTiles (v : view) (isCalc : bool) (pixelBounds : bounds) (zoom : Z) (now : num)
    (s : store) : store * list combine_request :=
  let '(next, previous) := adjacent_bounds isCalc pixelBounds in
  let '(s1, queue1) := getMissingTiles v next zoom s in
  let '(s2, queue2) := getMissingTiles v previous zoom s1 in
  let queue := queue1 ++ queue2 in
  if (length queue =? 0)%nat then (s2, []) else addTiles v now queue s2.

(** ** The queue of a call *)

(** The first [n] elements, all of them for [Infinity]; what is left of the limit;
    whether the limit is exceeded. *)
Definition taken {A} (n : option Z) (l : list A) : list A :=
  match n with None => l | Some z => take (Z.to_nat z) l end.
Definition left_of (n : option Z) (k : nat) : option Z := (fun z => Z.max 0 (z - Z.of_nat k)) <$> n.
Definition over (n : option Z) (k : nat) : bool := match n with None => false | Some z => z <? Z.of_nat k end.
Definition limit_ok (n : option Z) : Prop := match n with None => True | Some z => 0 <= z end.

Lemma left_of_ok n k : limit_ok (left_of n k).
Proof. destruct n; simpl; [lia|done]. Qed.

Lemma left_of_add n k j : left_of (left_of n k) j = left_of n (k + j).
Proof. destruct n as [z|]; simpl; [|done]. f_equal. lia. Qed.

Lemma left_of_0 n : limit_ok n -> left_of n 0 = n.
Proof. destruct n as [z|]; simpl; [|done]. intros. f_equal. lia. Qed.

Lemma over_left n k j : over n k = false -> over (left_of n k) j = over n (k + j).
Proof. destruct n as [z|]; simpl; [|done]. intros. to_prop. destruct (Z.ltb_spec z (Z.of_nat (k + j))); lia. Qed.

Lemma over_0 n : limit_ok n -> over n 0 = false.
Proof. destruct n as [z|]; simpl; [|done]. intros. apply Z.ltb_ge. lia. Qed.

Lemma taken_not_over {A} n (l : list A) : limit_ok n -> over n (length l) = false -> taken n l = l.
Proof. destruct n as [z|]; simpl; [|done]. intros ? H. to_prop. apply take_ge. lia. Qed.

Lemma taken_app {A} n (l k : list A) : limit_ok n -> taken n (l ++ k) = taken n l ++ taken (left_of n (length l)) k.
Proof. destruct n as [z|]; simpl; [|done]. intros. rewrite take_app. do 2 f_equal. lia. Qed.

Lemma taken_cons {A} n x (l : list A) : limit_ok n -> may_fetch n = true -> taken n (x :: l) = x :: taken (left_of n 1) l.
Proof.
  destruct n as [z|]; simpl; [|done]. intros. to_prop.
  replace (Z.to_nat z) with (S (Z.to_nat (Z.max 0 (z - 1)))) by lia. done.
Qed.

Section queue.
Context (g : grid) (s : store) (zoom part mode : Z).

(** The wanted tiles of a list that were not visited before, each once. *)
Fixpoint fresh (v : list string) (l : list coord) : list coord :=
  match l with
  | [] => []
  | c :: l' =>
      if bool_decide (key c ∈ v) || negb (wanted_tile g s c) then fresh v l'
      else c :: fresh (v ++ [key c]) l'
  end.

Lemma visit_fold l : forall f b, limit_ok (tilesToFetch f) ->
  let fr := fresh (visitedTiles f) l in
  let n := tilesToFetch f in
  foldl (visit g s) (f, b) l
  = (Fetching (visitedTiles f ++ (key <$> taken n fr)) (finalQueue f ++ taken n fr) (left_of n (length fr)),
     b || over n (length fr)).
Proof.
  induction l as [|c l IH]; intros [v q n] b Hn; cbn [tilesToFetch visitedTiles finalQueue] in *; cbn [foldl fresh].
  - assert (taken n ([] : list coord) = []) as -> by (destruct n; [apply take_nil|done]).
    cbn [length fmap list_fmap]. rewrite left_of_0, !app_nil_r by done.
    rewrite over_0 by done. by rewrite orb_false_r.
  - unfold visit at 2. cbn [visitedTiles finalQueue tilesToFetch]. unfold tileCoordsToKey.
    destruct (bool_decide (key c ∈ v) || negb (wanted_tile g s c)) eqn:E; [by apply IH|].
    destruct (may_fetch n) eqn:Hm.
    + rewrite IH by (destruct n; simpl in *; to_prop; [lia|done]). cbn [visitedTiles finalQueue tilesToFetch].
      assert (((fun z => z - 1) <$> n) = left_of n 1) as -> by (destruct n; simpl in *; to_prop; [f_equal; lia|done]).
      rewrite taken_cons by done. set (fr := fresh _ l). cbn [length fmap list_fmap].
      rewrite left_of_add, <- !(assoc_L (++)). do 2 f_equal.
      rewrite over_left; [done|]. destruct n; simpl in *; to_prop; [apply Z.ltb_ge; lia|done].
    + destruct n as [z|]; [|done]. simpl in Hm, Hn. to_prop. assert (z = 0) as -> by lia.
      rewrite IH by done. cbn [visitedTiles finalQueue tilesToFetch taken left_of over length fmap option_fmap option_map].
      change (Z.to_nat 0) with 0%nat. cbn [take fmap list_fmap]. f_equal; [do 2 f_equal; lia|].
      destruct b; [done|]. simpl. symmetry. apply Z.ltb_lt. lia.
Qed.

Definition settled (v : list string) (c : coord) : Prop := key c ∈ v \/ wanted_tile g s c = false.

Lemma fresh_settled v q l : Forall (settled v) q -> fresh v (q ++ l) = fresh v l.
Proof.
  induction 1 as [|c q Hc _ IH]; [done|]. cbn [app fresh].
  assert (bool_decide (key c ∈ v) || negb (wanted_tile g s c) = true) as ->; [|done].
  destruct Hc as [Hc | ->]; [by rewrite bool_decide_eq_true_2|by rewrite orb_true_r].
Qed.

Lemma fresh_app l : forall v k, fresh v (l ++ k) = fresh v l ++ fresh (v ++ (key <$> fresh v l)) k.
Proof.
  induction l as [|c l IH]; intros v k; cbn [app fresh]; [by rewrite app_nil_r|].
  destruct (_ || _); [apply IH|]. cbn [fmap list_fmap app]. rewrite IH. by rewrite <- !(assoc_L (++)).
Qed.

Lemma settled_mono v w c : settled v c -> settled (v ++ w) c.
Proof. intros [H|H]; [left|by right]. set_solver. Qed.

Lemma fresh_settles l : forall v, Forall (settled (v ++ (key <$> fresh v l))) l.
Proof.
  induction l as [|c l IH]; intros v; [constructor|]. cbn [fresh].
  destruct (bool_decide (key c ∈ v)) eqn:Hv; cbn [orb]; to_prop.
  - constructor; [left; set_solver|apply IH].
  - destruct (wanted_tile g s c) eqn:Hw; cbn [negb].
    + constructor; [left; csimpl; set_solver|]. csimpl. specialize (IH (v ++ [key c])).
      by rewrite <- (assoc_L (++)) in IH.
    + constructor; [by right|apply IH].
Qed.

Lemma elem_of_fresh l : forall v c, c ∈ fresh v l <-> c ∈ l /\ wanted_tile g s c = true /\ key c ∉ v.
Proof.
  induction l as [|d l IH]; intros v c; cbn [fresh]; [set_solver|].
  destruct (bool_decide (key d ∈ v)) eqn:Hv; cbn [orb]; to_prop.
  - rewrite IH, elem_of_cons. split; [tauto|]. intros ([->|] & ? & ?); tauto.
  - destruct (wanted_tile g s d) eqn:Hw; cbn [negb].
    + rewrite elem_of_cons, IH, elem_of_cons, elem_of_app, list_elem_of_singleton. split.
      * intros [->|(? & ? & ?)]; [split_and!; [by left|done|done]|tauto].
      * intros ([->|Hc] & Hw' & Hn); [by left|]. destruct (decide (c = d)) as [->|Hne]; [by left|].
        right. split_and!; [done|done|]. intros [?|E]; [done|]. apply (inj key) in E. done.
    + rewrite IH, elem_of_cons. split; [tauto|]. intros ([->|] & ? & ?); [congruence|tauto].
Qed.

Lemma NoDup_fresh l : forall v, NoDup (fresh v l).
Proof.
  induction l as [|c l IH]; intros v; cbn [fresh]; [constructor|]. destruct (_ || _); [done|].
  constructor; [|done]. intros (_ & _ & H)%elem_of_fresh. apply H. set_solver.
Qed.

(** The tiles of the borders of a pane, from the inside out. *)
Fixpoint rings (k : nat) (p : pane_border) : list coord :=
  match k with
  | O => []
  | S k' => if no_side (sides_of g p) then [] else ring g zoom part mode p ++ rings k' (grow g p)
  end.

Definition rings_left (m : Z) (p : pane_border) : nat := Z.to_nat (m - index p).

Lemma rings_inc k p : rings k (incBorderIndex p) = rings k p.
Proof.
  revert p. induction k as [|k IH]; intros p; [done|]. cbn [rings].
  change (grow g (incBorderIndex p)) with (incBorderIndex (grow g p)). by rewrite IH.
Qed.

(** What the loop over the borders of a pane does, with a limit and without. *)
Lemma pane_loop_spec m k : forall fuel p queue f,
  rings_left m p = k -> (S k < fuel)%nat -> limit_ok (tilesToFetch f) ->
  Forall (settled (visitedTiles f)) queue ->
  let fr := fresh (visitedTiles f) (rings k p) in
  let n := tilesToFetch f in
  exists p' f', pane_loop g s zoom part mode m fuel p queue f = Some (p', f') /\
    finalQueue f' = finalQueue f ++ taken n fr /\ tilesToFetch f' = left_of n (length fr) /\
    (over n (length fr) = false -> visitedTiles f' = visitedTiles f ++ (key <$> fr)).
Proof.
  induction k as [|k IH]; intros fuel p queue [v q n] Hk Hf Hn Hq fr;
    cbn [tilesToFetch visitedTiles finalQueue] in *; destruct fuel as [|fuel]; try lia; cbn [pane_loop tilesToFetch].
  - unfold rings_left in Hk. assert ((index p <? m) = false) as -> by (apply Z.ltb_ge; lia). rewrite andb_false_r.
    eexists p, _. split; [done|]. subst fr. cbn. rewrite left_of_0 by done.
    destruct n; simpl; rewrite ?take_nil, ?app_nil_r; done.
  - assert ((index p <? m) = true) as -> by (apply Z.ltb_lt; unfold rings_left in Hk; lia). rewrite andb_true_r.
    destruct (may_fetch n) eqn:Hm.
    2: { destruct n as [z|]; [|done]. simpl in Hm, Hn. to_prop. assert (z = 0) as -> by lia.
         eexists p, _. split; [done|]. cbn [visitedTiles finalQueue tilesToFetch taken left_of over fmap option_fmap option_map].
         change (Z.to_nat 0) with 0%nat. rewrite take_0, app_nil_r. split_and!; [done|f_equal; lia|].
         intros H%Z.ltb_ge. assert (length fr = 0%nat) as ->%length_zero_iff_nil by lia. by rewrite app_nil_r. }
    cbn [rings] in fr. destruct (no_side (sides_of g p)).
    { eexists p, _. split; [done|]. subst fr. cbn. rewrite left_of_0 by done.
      destruct n; simpl; rewrite ?take_nil, ?app_nil_r; done. }
    set (qu := queue ++ ring g zoom part mode p).
    set (fr1 := fresh v (ring g zoom part mode p)).
    assert (Hfr1 : fresh v qu = fr1) by by apply fresh_settled.
    set (fr2 := fresh (v ++ (key <$> fr1)) (rings k (grow g p))).
    assert (Hfr : fr = fr1 ++ fr2) by apply fresh_app.
    rewrite visit_fold by done. cbn [visitedTiles finalQueue tilesToFetch orb]. rewrite Hfr1.
    destruct (over n (length fr1)) eqn:Ho.
    + destruct fuel as [|fuel]; [lia|]. cbn [pane_loop tilesToFetch].
      destruct n as [z|]; [|done]. simpl in Ho, Hn. to_prop.
      assert (Hl : forall k, z < Z.of_nat k -> left_of (Some z) k = Some 0) by (intros; simpl; f_equal; lia).
      rewrite Hl by done. cbn [may_fetch Z.ltb Z.compare andb]. eexists p, _. split; [done|].
      cbn [finalQueue tilesToFetch visitedTiles]. rewrite Hfr, length_app. split_and!.
      * rewrite taken_app, Hl by done. simpl. by rewrite app_nil_r.
      * rewrite Hl by lia. done.
      * intros H%Z.ltb_ge. lia.
    + rewrite taken_not_over by done.
      destruct (IH fuel (incBorderIndex (grow g p)) qu (Fetching (v ++ (key <$> fr1)) (q ++ fr1) (left_of n (length fr1))))
        as (p' & f' & E & Q & T & V).
      * unfold rings_left in *. cbn. lia.
      * lia.
      * apply left_of_ok.
      * cbn [visitedTiles]. unfold qu. apply Forall_app. split; [|apply fresh_settles].
        eapply Forall_impl; [exact Hq|]. intros c. apply settled_mono.
      * cbn [visitedTiles finalQueue tilesToFetch] in *. rewrite rings_inc in *. fold fr2 in Q, T, V.
        exists p', f'. split; [exact E|]. rewrite Hfr, length_app. split_and!.
        -- rewrite Q, taken_app, (taken_not_over n fr1) by done. by rewrite <- (assoc_L (++)).
        -- by rewrite T, left_of_add.
        -- intros H. rewrite V by (by rewrite over_left). by rewrite fmap_app, (assoc_L (++)).
Qed.

(** The tiles of all panes. *)
Definition all_rings (m : Z) (ps : list pane_border) : list coord :=
  ps ≫= fun p => rings (rings_left m p) p.

Lemma panes_loop_spec m ps : forall f, limit_ok (tilesToFetch f) ->
  let fr := fresh (visitedTiles f) (all_rings m ps) in
  exists ps' f' done, panes_loop g s zoom part mode m ps f = Some (ps', f', done) /\
    finalQueue f' = finalQueue f ++ taken (tilesToFetch f) fr.
Proof.
  induction ps as [|p ps IH]; intros f Hn; cbn [panes_loop all_rings mbind list_bind].
  - eexists _, _, _. split; [done|]. destruct (tilesToFetch f); cbn; by rewrite ?take_nil, app_nil_r.
  - destruct (pane_loop_spec m (rings_left m p) (pane_fuel m p) p [] f) as (p' & f1 & -> & Q & T & V);
      [done|unfold pane_fuel, rings_left; lia|done|constructor|].
    cbn [mbind option_bind]. destruct (IH f1) as (ps' & f' & dn & -> & Q'); [rewrite T; apply left_of_ok|].
    eexists _, _, _. split; [done|]. rewrite Q', Q, T. fold (all_rings m ps).
    rewrite fresh_app. set (fr := fresh (visitedTiles f) (rings (rings_left m p) p)) in *.
    rewrite taken_app, <- (assoc_L (++)) by done. do 2 f_equal.
    destruct (over (tilesToFetch f) (length fr)) eqn:Ho.
    + destruct (tilesToFetch f) as [z|]; [|done]. simpl in *. to_prop.
      replace (Z.max 0 (z - Z.of_nat (length fr))) with 0 by lia. done.
    + by rewrite V.
Qed.

Lemma fetch_borders_spec m limit ps :
  limit_ok limit ->
  exists ps' f dn, fetch_borders g s zoom part mode m limit ps = Some (ps', f, dn) /\
    finalQueue f = taken limit (fresh [] (all_rings m ps)).
Proof. intros H. apply (panes_loop_spec m ps (Fetching [] [] limit) H). Qed.
End queue.

(** ** The tiles around a pane *)

Definition doc_ok (g : grid) : Prop := grid_ok g /\ 0 < docWidthTwips g /\ 0 < docHeightTwips g.

(** The tile in column [i] and row [j] shows some of the document. *)
Definition in_doc (g : grid) (i j : Z) : Prop :=
  0 <= i /\ i * tileWidthTwips g < docWidthTwips g /\ 0 <= j /\ j * tileHeightTwips g < docHeightTwips g.

(** Some of the tiles of [r] may show the document. *)
Definition meets_doc (g : grid) (r : bounds) : Prop :=
  valid_bounds r /\ 0 <= px (bmax r) /\ px (bmin r) * tileWidthTwips g < docWidthTwips g /\
  0 <= py (bmax r) /\ py (bmin r) * tileHeightTwips g < docHeightTwips g.

(** Within [m] tiles of [r] in the directions the pane may move, and not in [r]. *)
Definition near (m : Z) (r : bounds) (st : pane_status) (i j : Z) : Prop :=
  let dx := if st_xFixed st then 1 else m in
  let dy := if st_yFixed st then 1 else m in
  px (bmin r) - dx <= i <= px (bmax r) + dx /\ py (bmin r) - dy <= j <= py (bmax r) + dy /\
  ((st_xFixed st = false /\ ~ px (bmin r) <= i <= px (bmax r)) \/
   (st_yFixed st = false /\ ~ py (bmin r) <= j <= py (bmax r))).

Section rings_cover.
Context (g : grid) (zoom part mode : Z).
Hypothesis Hdoc : doc_ok g.

Definition last_column : Z := (docWidthTwips g - 1) / tileWidthTwips g.
Definition last_row : Z := (docHeightTwips g - 1) / tileHeightTwips g.

Lemma le_last w n k : 0 < w -> k <= (n - 1) / w <-> k * w < n.
Proof. intros Hw. split; intros H; [|apply Z.div_le_lower_bound; nia]. pose proof (Z.mul_div_le (n - 1) w Hw). nia. Qed.

Lemma validTileRange_eq :
  validTileRange g = Bounds (Point 0 0) (Point last_column last_row) /\ 0 <= last_column /\ 0 <= last_row.
Proof using Hdoc.
  destruct Hdoc as ((_ & Hw & Hh) & HW & HH).
  assert (0 <= last_column) by (apply le_last; lia). assert (0 <= last_row) by (apply le_last; lia).
  split; [|done]. unfold validTileRange, mk_bounds, bounds_extend, js_floor_div. fold last_column last_row.
  cbn [bmin bmax px py]. by rewrite !Z.min_r, !Z.max_l by lia.
Qed.

(** The bounds of the border. *)
Definition x0 (p : pane_border) := px (bmin (border p)).
Definition x1 (p : pane_border) := px (bmax (border p)).
Definition y0 (p : pane_border) := py (bmin (border p)).
Definition y1 (p : pane_border) := py (bmax (border p)).

Record border_ok (p : pane_border) : Prop := {
  bo_x : x0 p <= x1 p;  bo_x0 : x0 p <= last_column;  bo_x1 : 0 <= x1 p;
  bo_y : y0 p <= y1 p;  bo_y0 : y0 p <= last_row;  bo_y1 : 0 <= y1 p
}.

Lemma clamp_eq p :
  border_ok p ->
  clamp_bounds (validTileRange g) (border p)
  = Bounds (Point (Z.max 0 (x0 p)) (Z.max 0 (y0 p))) (Point (Z.min last_column (x1 p)) (Z.min last_row (y1 p))).
Proof using Hdoc.
  intros []. destruct validTileRange_eq as (-> & ? & ?).
  unfold clamp_bounds, clamp_point, mk_bounds, bounds_extend, clampX, clampY.
  cbn [bmin bmax px py]. fold (x0 p) (x1 p) (y0 p) (y1 p). f_equal; f_equal; lia.
Qed.

Lemma sides_eq p :
  border_ok p ->
  sides_of g p = Sides (negb (yFixed p) && (0 <=? y0 p)) (negb (yFixed p) && (y1 p <=? last_row))
                       (negb (xFixed p) && (0 <=? x0 p)) (negb (xFixed p) && (x1 p <=? last_column)).
Proof using Hdoc.
  intros Hp. unfold sides_of. rewrite clamp_eq by done. cbn [bmin bmax px py].
  fold (x0 p) (x1 p) (y0 p) (y1 p). destruct Hp.
  f_equal; f_equal; apply Bool.eq_iff_eq_true; rewrite Z.eqb_eq, Z.leb_le; lia.
Qed.

Lemma elem_of_for_range a b i : i ∈ for_range a b <-> a <= i <= b.
Proof. unfold for_range. rewrite elem_of_seqZ. lia. Qed.

(** The tiles of the document on a side of the border that moves are fetched. *)
Lemma elem_of_ring p i j :
  border_ok p -> x0 p <= i <= x1 p -> y0 p <= j <= y1 p -> 0 <= i <= last_column -> 0 <= j <= last_row ->
  (xFixed p = false /\ (i = x0 p \/ i = x1 p)) \/ (yFixed p = false /\ (j = y0 p \/ j = y1 p)) ->
  tile_at g zoom part mode i j ∈ ring g zoom part mode p.
Proof using Hdoc.
  intros Hp Hi Hj Hci Hrj Hside. unfold ring. rewrite clamp_eq, sides_eq by done.
  cbn [bmin bmax px py fetchTop fetchBottom fetchLeft fetchRight]. fold (x0 p) (x1 p) (y0 p) (y1 p).
  rewrite !elem_of_app.
  assert (Hrow : i ∈ for_range (Z.max 0 (x0 p)) (Z.min last_column (x1 p))) by (apply elem_of_for_range; lia).
  assert (Hcol : j ∈ for_range (Z.max 0 (y0 p)) (Z.min last_row (y1 p))) by (apply elem_of_for_range; lia).
  destruct Hside as [[-> [-> | ->]]|[-> [-> | ->]]]; cbn [negb andb].
  - right. right. right. rewrite (proj2 (Z.leb_le 0 (x0 p))) by lia. by apply list_elem_of_fmap_2.
  - right. right. left. rewrite (proj2 (Z.leb_le (x1 p) last_column)) by lia. by apply list_elem_of_fmap_2.
  - right. left. rewrite (proj2 (Z.leb_le 0 (y0 p))) by lia. by apply (list_elem_of_fmap_2 (fun i => tile_at g zoom part mode i (y0 p))).
  - left. rewrite (proj2 (Z.leb_le (y1 p) last_row)) by lia. by apply (list_elem_of_fmap_2 (fun i => tile_at g zoom part mode i (y1 p))).
Qed.

Lemma grow_eq p :
  border_ok p ->
  x0 (grow g p) = (if negb (xFixed p) && (0 <? x0 p) then x0 p - 1 else x0 p) /\
  x1 (grow g p) = (if negb (xFixed p) && (x1 p <? last_column) then x1 p + 1 else x1 p) /\
  y0 (grow g p) = (if negb (yFixed p) && (0 <? y0 p) then y0 p - 1 else y0 p) /\
  y1 (grow g p) = (if negb (yFixed p) && (y1 p <? last_row) then y1 p + 1 else y1 p).
Proof using Hdoc. intros _. unfold grow. destruct validTileRange_eq as (-> & _ & _). done. Qed.

Lemma grow_ok p : border_ok p -> border_ok (grow g p).
Proof using Hdoc.
  intros Hp. destruct (grow_eq p Hp) as (E0 & E1 & E2 & E3). destruct Hp.
  split; rewrite ?E0, ?E1, ?E2, ?E3; repeat case_bool; lia.
Qed.

(** A tile the rings can reach that is not inside the first border. *)
Definition reach (k : Z) (p : pane_border) (i j : Z) : Prop :=
  let dx := if xFixed p then 0 else k in
  let dy := if yFixed p then 0 else k in
  x0 p - dx <= i <= x1 p + dx /\ y0 p - dy <= j <= y1 p + dy /\
  ((xFixed p = false /\ (i <= x0 p \/ x1 p <= i)) \/ (yFixed p = false /\ (j <= y0 p \/ y1 p <= j))).

Lemma rings_cover k : forall p i j,
  border_ok p -> 0 <= i <= last_column -> 0 <= j <= last_row -> reach (Z.of_nat k) p i j ->
  tile_at g zoom part mode i j ∈ rings g zoom part mode (S k) p.
Proof using Hdoc.
  induction k as [|k IH]; intros p i j Hp Hi Hj Hr.
  all: destruct (grow_eq p Hp) as (E0 & E1 & E2 & E3); pose proof Hp as [? ? ? ? ? ?].
  all: cbn [rings]; unfold reach in Hr.
  all: assert (Hno : no_side (sides_of g p) = false)
    by (rewrite sides_eq by done; unfold no_side; cbn [fetchTop fetchBottom fetchLeft fetchRight];
        destruct (xFixed p), (yFixed p); cbn [negb andb];
        repeat match goal with |- context [?a <=? ?b] => destruct (Z.leb_spec a b) end; cbn [negb andb]; try done; exfalso; lia).
  all: rewrite Hno, elem_of_app.
  - left. apply elem_of_ring; [done|..]; destruct (xFixed p), (yFixed p); lia.
  - destruct (decide (x0 p <= i <= x1 p /\ y0 p <= j <= y1 p)) as [Hin|Hout].
    + left. apply elem_of_ring; [done|..]; destruct (xFixed p), (yFixed p); lia.
    + right. apply IH; [by apply grow_ok|done|done|]. unfold reach. rewrite E0, E1, E2, E3.
      change (xFixed (grow g p)) with (xFixed p). change (yFixed (grow g p)) with (yFixed p).
      destruct (xFixed p), (yFixed p); cbn [negb andb];
        repeat match goal with |- context [?a <? ?b] => destruct (Z.ltb_spec a b) end; lia.
Qed.
End rings_cover.

(** ** Whole calls *)

Lemma addTiles_requests v now q s c :
  Forall (fun c => tileNeedsFetch (key c) s = true /\ is_selected v c = true) q ->
  c ∈ (addTiles v now q s).2 ≫= rq_coords <-> c ∈ q.
Proof.
  intros Hq. unfold addTiles. cbn [snd]. rewrite elem_of_rect_requests, rectangles_exact.
  - by rewrite js_sort_perm.
  - apply Forall_forall. intros d Hd. rewrite js_sort_perm in Hd. rewrite Forall_forall in Hq.
    destruct (Hq d Hd) as [Hn Hs]. unfold interesting, tileCoordsToKey. by rewrite createTiles_needsFetch, Hn, Hs.
Qed.

Lemma elem_of_rings_selected g zoom part mode k : forall p c,
  c ∈ rings g zoom part mode k p -> exists i j, c = tile_at g zoom part mode i j.
Proof.
  induction k as [|k IH]; intros p c; cbn [rings]; [by intros ?%not_elem_of_nil|].
  destruct (no_side _); [by intros ?%not_elem_of_nil|]. rewrite elem_of_app. intros [H|H]; [|by eapply IH].
  unfold ring in H. rewrite !elem_of_app in H.
  destruct H as [H|[H|[H|H]]]; case_match; try (by apply not_elem_of_nil in H);
    apply list_elem_of_fmap in H as (x & -> & _); by eexists _, _.
Qed.

(** All tiles a call may ask for, in order: those of the borders that are wanted. *)
Definition prefetch_queue (sc : scene) (force : bool) (s : store) (p : prefetcher) : list coord :=
  let v := sview sc in
  fresh (vgrid v) s []
    (all_rings (vgrid v) (szoom sc) (selectedPart v) (selectedMode v) (maxBorderWidth sc) (borders_for sc force p)).

Lemma prefetch_queue_wanted sc force s p :
  Forall (fun c => tileNeedsFetch (key c) s = true /\ is_selected (sview sc) c = true) (prefetch_queue sc force s p) /\
  NoDup (prefetch_queue sc force s p).
Proof.
  split; [|apply NoDup_fresh]. apply Forall_forall. intros c (Hc & Hw & _)%elem_of_fresh.
  unfold wanted_tile in Hw. apply andb_true_iff in Hw as [_ Hw]. split; [done|].
  apply list_elem_of_bind in Hc as (q & Hc & _). apply elem_of_rings_selected in Hc as (i & j & ->).
  unfold is_selected, tile_at. cbn. by rewrite !Z.eqb_refl.
Qed.

Definition call_limit (sc : scene) (immediate : bool) : option Z :=
  if immediate then None else Some (maxTilesToFetch sc).

(** What a call does to the tiles, and what it asks for. *)
Lemma preFetchTiles_call sc force immediate now s p :
  (0 <? emptyTilesCount s) || negb (canonicalIdInitialized sc) = false ->
  let q := taken (call_limit sc immediate) (prefetch_queue sc force s p) in
  exists p', preFetchTiles sc force immediate now s p =
    Some (p', (if (length q =? 0)%nat then (s, []) else addTiles (sview sc) now q s).1,
          (if (length q =? 0)%nat then (s, []) else addTiles (sview sc) now q s).2) /\
    (q = [] -> tilesPreFetcher p' = false /\ borders p' = None).
Proof.
  intros Hgo q. unfold preFetchTiles. rewrite Hgo.
  destruct (fetch_borders_spec (vgrid (sview sc)) s (szoom sc) (selectedPart (sview sc)) (selectedMode (sview sc))
              (maxBorderWidth sc) (call_limit sc immediate) (borders_for sc force p)) as (ps & f & dn & E & Q).
  { unfold call_limit, maxTilesToFetch. destruct immediate, (sHasEditPerm sc); simpl; lia. }
  fold (call_limit sc immediate). rewrite E. cbn [mbind option_bind]. fold (prefetch_queue sc force s p) in Q.
  fold q in Q. rewrite Q. clear E Q. destruct (addTiles (sview sc) now q s) as [s1 r].
  destruct (length q =? 0)%nat eqn:El; cbn [negb orb fst snd].
  - eexists. split; [done|]. done.
  - eexists. split; [done|]. intros ->. done.
Qed.

Lemma around_eq r :
  valid_bounds r ->
  around r = Bounds (Point (px (bmin r) - 1) (py (bmin r) - 1)) (Point (px (bmax r) + 1) (py (bmax r) + 1)).
Proof.
  intros [Hx Hy]. unfold around, mk_bounds, bounds_extend, point_add. cbn [bmin bmax px py].
  f_equal; f_equal; lia.
Qed.

(** A wanted tile near a pane is in the queue of a call with fresh borders. *)
Lemma prefetch_queue_near sc s p r st i j :
  let v := sview sc in
  doc_ok (vgrid v) ->
  (r, st) ∈ zip (pxBoundsToTileRanges (vgrid v) (splitPanes v) (sPixelBounds sc)) (sPanes sc) ->
  meets_doc (vgrid v) r -> in_doc (vgrid v) i j -> near (maxBorderWidth sc) r st i j ->
  let c := tile_at (vgrid v) (szoom sc) (selectedPart v) (selectedMode v) i j in
  tileNeedsFetch (key c) s = true -> c ∈ prefetch_queue sc true s p.
Proof.
  intros v Hdoc Hr (Hvb & Hmx & Hmx' & Hmy & Hmy') (Hi & Hi' & Hj & Hj') Hn c Hf.
  subst v.
  pose proof Hdoc as ((Hs & Hw & Hh) & _).
  apply elem_of_fresh. split_and!; [|unfold wanted_tile, tileCoordsToKey; rewrite Hf, andb_true_r|apply not_elem_of_nil].
  2: { unfold isValidTile, c, tile_at. cbn [cx cy].
       rewrite (proj2 (Z.ltb_ge (i * tileSize (vgrid (sview sc))) 0)), (proj2 (Z.ltb_ge (j * tileSize (vgrid (sview sc))) 0)) by nia.
       assert (i * tileSize (vgrid (sview sc)) * tileWidthTwips (vgrid (sview sc)) <= docWidthTwips (vgrid (sview sc)) * tileSize (vgrid (sview sc))) as
         ->%Z.ltb_ge by nia.
       assert (j * tileSize (vgrid (sview sc)) * tileHeightTwips (vgrid (sview sc)) <= docHeightTwips (vgrid (sview sc)) * tileSize (vgrid (sview sc))) as
         ->%Z.ltb_ge by nia. done. }
  set (p0 := PaneBorder (around r) (st_xFixed st) (st_yFixed st) 0).
  assert (Hp0 : p0 ∈ borders_for sc true p).
  { unfold borders_for, needs_borders. cbn [orb]. unfold new_borders. apply list_elem_of_omap.
    exists (r, st). split; [done|]. cbn [fst snd]. destruct Hn as (_ & _ & Hn).
    assert (st_xFixed st && st_yFixed st = false) as -> by (destruct Hn as [[-> _]|[-> _]]; by rewrite ?andb_false_r).
    done. }
  apply list_elem_of_bind. exists p0. split; [|done].
  replace (rings_left (maxBorderWidth sc) p0) with (S (Z.to_nat (maxBorderWidth sc - 1)))
    by (unfold rings_left, p0, maxBorderWidth; cbn [index]; destruct (sHasEditPerm sc); done).
  assert (E : x0 p0 = px (bmin r) - 1 /\ x1 p0 = px (bmax r) + 1 /\ y0 p0 = py (bmin r) - 1 /\ y1 p0 = py (bmax r) + 1).
  { unfold x0, x1, y0, y1, p0. cbn [border]. by rewrite around_eq. }
  destruct E as (E0 & E1 & E2 & E3). destruct Hvb as [Hvx Hvy].
  apply le_last in Hmx', Hmy', Hi', Hj'; try done.
  apply rings_cover; [done|..].
  - split; rewrite ?E0, ?E1, ?E2, ?E3; unfold last_column, last_row; lia.
  - unfold last_column. lia.
  - unfold last_row. lia.
  - unfold reach. rewrite E0, E1, E2, E3. unfold p0. cbn [xFixed yFixed]. unfold near in Hn.
    assert (1 <= maxBorderWidth sc) by (unfold maxBorderWidth; destruct (sHasEditPerm sc); lia).
    rewrite Z2Nat.id by lia. destruct (st_xFixed st), (st_yFixed st); lia.
Qed.

(** ** Properties *)

(** Fetching ahead ends and keeps its limit: there is one list of tiles, each once,
    of the document and out of date, such that a call asks for all of them when it is
    immediate and otherwise for the first ten, or the first five while editing; and a
    call that finds none stops the timer. *)
Theorem preFetch_limited sc force now s p :
  emptyTilesCount s <= 0 -> canonicalIdInitialized sc = true ->
  exists queue,
    NoDup queue /\
    (forall c, c ∈ queue -> isValidTile (vgrid (sview sc)) c = true /\ tileNeedsFetch (key c) s = true) /\
    forall immediate, exists p' s' reqs,
      preFetchTiles sc force immediate now s p = Some (p', s', reqs) /\
      (forall c, c ∈ reqs ≫= rq_coords <->
         c ∈ if immediate then queue else take (if sHasEditPerm sc then 5 else 10) queue) /\
      (reqs ≫= rq_coords = [] -> tilesPreFetcher p' = false /\ borders p' = None).
Proof.
  intros He Hc. exists (prefetch_queue sc force s p).
  destruct (prefetch_queue_wanted sc force s p) as [Hw Hnd]. split_and!; [done| |].
  - intros c (_ & H & _)%elem_of_fresh. unfold wanted_tile in H. by apply andb_true_iff in H.
  - intros immediate.
    assert (Hgo : (0 <? emptyTilesCount s) || negb (canonicalIdInitialized sc) = false)
      by (rewrite Hc, orb_false_r; by apply Z.ltb_ge).
    destruct (preFetchTiles_call sc force immediate now s p Hgo) as (p' & E & Hstop).
    set (q := taken (call_limit sc immediate) (prefetch_queue sc force s p)) in *.
    assert (Hq : q = if immediate then prefetch_queue sc force s p
                     else take (if sHasEditPerm sc then 5 else 10) (prefetch_queue sc force s p)).
    { unfold q, call_limit, maxTilesToFetch. by destruct immediate, (sHasEditPerm sc). }
    rewrite <- Hq. eexists p', _, _. split; [exact E|].
    assert (Hr : forall c, c ∈ (if (length q =? 0)%nat then (s, []) else addTiles (sview sc) now q s).2 ≫= rq_coords
                           <-> c ∈ q).
    { intros c. destruct (length q =? 0)%nat eqn:El; to_prop.
      - apply length_zero_iff_nil in El as ->. done.
      - apply addTiles_requests. rewrite Hq. destruct immediate; [done|by apply Forall_take]. }
    split; [exact Hr|]. intros H0. apply Hstop. destruct q as [|c q']; [done|].
    exfalso. apply (not_elem_of_nil c). rewrite <- H0. apply Hr. by left.
Qed.

(** C38: Fetching ahead covers the surroundings: a synchronous call, made while no tile on screen
    is empty and after the canonical view id has come (else it asks for nothing), leaves no
    tile of the document out of date and unasked for within five tiles, three while editing, of
    a pane that meets the document, in the directions in which the pane may scroll: across an
    axis that is frozen only one tile, beside what lies ahead along the other axis, and nothing
    around a pane that is fixed both ways. *)
Theorem prefetch_covers sc now s p r st i j :
  let v := sview sc in
  emptyTilesCount s <= 0 -> canonicalIdInitialized sc = true -> doc_ok (vgrid v) ->
  (r, st) ∈ zip (pxBoundsToTileRanges (vgrid v) (splitPanes v) (sPixelBounds sc)) (sPanes sc) ->
  meets_doc (vgrid v) r -> in_doc (vgrid v) i j -> near (if sHasEditPerm sc then 3 else 5) r st i j ->
  let c := tile_at (vgrid v) (szoom sc) (selectedPart v) (selectedMode v) i j in
  exists p' s' reqs, prefetchTilesSync sc now s p = Some (p', s', reqs) /\
    (tileNeedsFetch (key c) s = false \/ c ∈ reqs ≫= rq_coords).
Proof.
  intros v He Hc Hdoc Hr Hm Hi Hn c.
  assert (Hgo : (0 <? emptyTilesCount s) || negb (canonicalIdInitialized sc) = false)
    by (rewrite Hc, orb_false_r; by apply Z.ltb_ge).
  destruct (preFetchTiles_call sc true true now s p Hgo) as (p' & E & _). cbn [taken call_limit] in E.
  eexists p', _, _. split; [exact E|].
  destruct (tileNeedsFetch (key c) s) eqn:Hf; [right|by left].
  assert (Hq : c ∈ prefetch_queue sc true s p) by (apply (prefetch_queue_near sc s p r st i j); done).
  destruct (length (prefetch_queue sc true s p) =? 0)%nat eqn:El; to_prop.
  - apply length_zero_iff_nil in El. rewrite El in Hq. by apply not_elem_of_nil in Hq.
  - by apply addTiles_requests; [apply prefetch_queue_wanted|].
Qed.

(** ** The timers *)

(** What may happen to a prefetcher, in any order. *)
Inductive prefetch_step : prefetcher -> prefetcher -> Prop :=
  | step_reset part mode b p : prefetch_step p (resetPreFetching part mode b p)
  | step_clear p : prefetch_step p (clearPreFetch p)
  | step_clear_interval p : prefetch_step p (clearTilesPreFetcher p)
  | step_idle p : preFetchIdle p = true -> prefetch_step p (idle_fires p)
  | step_call sc force immediate now s p p' s' reqs :
      preFetchTiles sc force immediate now s p = Some (p', s', reqs) -> prefetch_step p p'.

(** Never two timers: a wait for idleness and a running prefetcher exclude each
    other, so a reset or a stop leaves no timer behind. *)
Theorem prefetch_one_timer p :
  rtc prefetch_step new_prefetcher p ->
  tilesPreFetcher p && preFetchIdle p = false /\
  tilesPreFetcher (clearPreFetch p) = false /\ preFetchIdle (clearPreFetch p) = false.
Proof.
  intros H. split; [|done]. remember new_prefetcher as p0 eqn:E0.
  assert (Hp : tilesPreFetcher p0 && preFetchIdle p0 = false) by by subst. clear E0.
  induction H as [p|p1 p2 p3 Hs _ IH]; [done|]. apply IH. clear IH.
  destruct Hs as [? ? [] ?|?|?|? Hi|sc force immediate now s p p' s' reqs E]; try done.
  unfold preFetchTiles in E. destruct (_ || _); [by injection E as <- _ _|].
  destruct (fetch_borders _ _ _ _ _ _ _ _) as [[[bs f] dn]|]; [|done]. cbn [mbind option_bind] in E.
  repeat case_match; injection E as <- _ _; simplify_eq; cbn in *; done.
Qed.

(** A reset that keeps the borders hides a change of part: the next call takes the
    borders of the part before for its own, however far out they already are, and
    never asks for the tiles of the inner borders. *)
Theorem reset_hides_part_change sc p b bs :
  borders p = Some (b :: bs) ->
  same Z.eqb (pzoom p) (szoom sc) = true -> same Bool.eqb (phasEditPerm p) (sHasEditPerm sc) = true ->
  same bounds_eqb (ppixelBounds p) (sPixelBounds sc) = true -> same point_eqb (psplitPos p) (sSplitPos sc) = true ->
  let p' := resetPreFetching (selectedPart (sview sc)) (selectedMode (sview sc)) false p in
  borders_for sc false p' = b :: bs.
Proof.
  intros Hb Hz He Hp Hs p'. unfold borders_for, needs_borders, p'. cbn. rewrite Hb, Hz, He, Hp, Hs.
  by rewrite !Z.eqb_refl.
Qed.

(** ** Witnesses *)

Definition sample_scene : scene :=
  Scene sample_view 10 (Bounds (Point 256 256) (Point 511 511)) false (Point 0 0) [PaneStatus false false] true.

Lemma preFetch_limited_witness :
  exists p' s' reqs, preFetchTiles sample_scene false false (Some 0) empty_store new_prefetcher = Some (p', s', reqs) /\
    length (reqs ≫= rq_coords) = 10%nat.
Proof.
  destruct (preFetch_limited sample_scene false (Some 0) empty_store new_prefetcher) as (q & _ & _ & H); [done|done|].
  destruct (H false) as (p' & s' & reqs & E & _ & _). eexists p', s', reqs. split; [exact E|].
  vm_compute in E. injection E as <- <- <-. by vm_compute.
Defined.

Lemma prefetch_covers_witness :
  exists p' s' reqs, prefetchTilesSync sample_scene (Some 0) empty_store new_prefetcher = Some (p', s', reqs) /\
    Coord 768 1024 10 0 0 ∈ reqs ≫= rq_coords.
Proof.
  assert (Hr : (Bounds (Point 1 1) (Point 1 1), PaneStatus false false)
               ∈ zip (pxBoundsToTileRanges (vgrid sample_view) (splitPanes sample_view) (sPixelBounds sample_scene))
                     (sPanes sample_scene)).
  { change ((Bounds (Point 1 1) (Point 1 1), PaneStatus false false) ∈
            [(Bounds (Point 1 1) (Point 1 1), PaneStatus false false)]). by left. }
  destruct (prefetch_covers sample_scene (Some 0) empty_store new_prefetcher _ _ 3 4 ltac:(done) ltac:(done)
              ltac:(split; [split_and!|split]; done) Hr) as (p' & s' & reqs & E & H).
  - split; [split; done|]. cbn. lia.
  - split_and!; cbn; lia.
  - unfold near. cbn. split_and!; [lia..|]. left. split; [done|lia].
  - exists p', s', reqs. split; [exact E|]. destruct H as [H|H]; [done|exact H].
Defined.

Lemma prefetch_one_timer_witness :
  tilesPreFetcher (idle_fires (resetPreFetching 0 0 true new_prefetcher)) = true /\
  preFetchIdle (idle_fires (resetPreFetching 0 0 true new_prefetcher)) = false.
Proof.
  assert (H : rtc prefetch_step new_prefetcher (idle_fires (resetPreFetching 0 0 true new_prefetcher))).
  { eapply rtc_l; [apply step_reset|]. by apply rtc_once, step_idle. }
  split; [done|]. by destruct (prefetch_one_timer _ H) as [E _].
Defined.

(** The messages of a first call while editing, for a view of one tile. *)
Example preFetchTiles_sample :
  option_map (fun r => print_request sample_view <$> r.2)
    (preFetchTiles (Scene sample_view 10 (Bounds (Point 256 256) (Point 511 511)) true (Point 0 0)
                     [PaneStatus false false] true) false false (Some 0) empty_store new_prefetcher)
  = Some
    ["tilecombine nviewid=0 part=0 width=256 height=256 tileposx=0,3840 tileposy=0,0 oldwid=0,0 tilewidth=3840 tileheight=3840";
     "tilecombine nviewid=0 part=0 width=256 height=256 tileposx=0,3840,7680 tileposy=7680,7680,7680 oldwid=0,0,0 tilewidth=3840 tileheight=3840"].
Proof. by vm_compute. Qed.
