(* ===== verification/Mouse.v ===== *)
(** * The mouse: from the events of the browser to the messages of the server

    A press is not sent at once: it may turn out to be part of a panning movement or
    of a double click.  It waits in a queue for a timer, a movement or the release.
    Models [L.Map.Mouse] (src/browser/src/map/handler/Map.Mouse.js) and
    [_postMouseEvent] (src/browser/src/layer/tile/CanvasTileLayer.js).  The events
    come with their position in twips; what else the handler looks at is the
    [surroundings].  Effects on other components are a log. *)

From S2P Require Import Prelude JsText SocketSend Session.
Local Open Scope Z_scope.

(** ** Events and state *)

Inductive mouse_type := MouseDown | MouseUp | MouseOver | MouseOut | MouseMove | DblClick | TrplClick | QdrplClick.

#[export] Instance mouse_type_eq_dec : EqDecision mouse_type.
Proof. solve_decision. Defined.

Record mouse_event := MouseEvent {
  m_type : mouse_type;
  m_x : Z;
  m_y : Z;
  shiftKey : bool;
  ctrlKey : bool;
  altKey : bool;
  metaKey : bool;
  button : Z
}.

(** The selected graphic: whether its marker is dragged, whether the selection is
    empty, and whether the event is inside of it. *)
Record graphic := Graphic { isDragged : bool; emptySelection : bool; isInside : bool }.

Record surroundings := Surroundings {
  now : Z;
  hasLayer : bool;
  fullscreen : bool;
  rulerActive : bool;
  graphicMarker : option graphic;
  handleDragged : bool;               (** one of the selection handles *)
  handleIcons : nat;                  (** how many of them have an icon *)
  dragging : bool;                    (** [map.dragging.enabled ()] *)
  mac : bool;
  mouseEnteringLeaving : bool;
  inputBarFocus : bool;               (** [calcInputBarHasFocus ()] *)
  readonly : bool;                    (** [app.file.permission === 'readonly'] *)
  hyperlinkPopup : bool;
  zoom_now : zoom_level;
  area_now : visible_area
}.

(** The functions in [_mouseEventsQueue]. *)
Inductive pending :=
  | Press (x y buttons modifier : Z)
  | Release (x y buttons modifier : Z).

(** The timeouts under way. *)
Inductive timeout := Execute | Hover (x y modifier : Z).

Inductive effect :=
  | NotifyActive | ResetPreFetching | Focus | ScrollVelocity | AutoScroll
  | HandleClickable (b : bool) | ClosePopup | ClearSearchResults
  | ListenOutside (b : bool) | HandleDOMEvent | DragMove | DragUp.

Record mouse := Mouse {
  mouseEventsQueue : list pending;
  holdMouseEvent : option nat;
  timeouts : list (nat * timeout);
  nextTimeout : nat;
  mouseDown : bool;
  buttonDown : option Z;
  clickTime : option Z;
  clickCount : option Z;
  mouseOverTimeout : option nat;
  prevMousePos : option (Z * Z);
  effects : list effect;
  session_of : session
}.

Definition set_queue x m := Mouse x (holdMouseEvent m) (timeouts m) (nextTimeout m) (mouseDown m) (buttonDown m) (clickTime m) (clickCount m) (mouseOverTimeout m) (prevMousePos m) (effects m) (session_of m).
Definition set_hold x m := Mouse (mouseEventsQueue m) x (timeouts m) (nextTimeout m) (mouseDown m) (buttonDown m) (clickTime m) (clickCount m) (mouseOverTimeout m) (prevMousePos m) (effects m) (session_of m).
Definition set_timeouts x n m := Mouse (mouseEventsQueue m) (holdMouseEvent m) x n (mouseDown m) (buttonDown m) (clickTime m) (clickCount m) (mouseOverTimeout m) (prevMousePos m) (effects m) (session_of m).
Definition set_down x m := Mouse (mouseEventsQueue m) (holdMouseEvent m) (timeouts m) (nextTimeout m) x (buttonDown m) (clickTime m) (clickCount m) (mouseOverTimeout m) (prevMousePos m) (effects m) (session_of m).
Definition set_buttonDown x m := Mouse (mouseEventsQueue m) (holdMouseEvent m) (timeouts m) (nextTimeout m) (mouseDown m) x (clickTime m) (clickCount m) (mouseOverTimeout m) (prevMousePos m) (effects m) (session_of m).
Definition set_click t n m := Mouse (mouseEventsQueue m) (holdMouseEvent m) (timeouts m) (nextTimeout m) (mouseDown m) (buttonDown m) t n (mouseOverTimeout m) (prevMousePos m) (effects m) (session_of m).
Definition set_over x m := Mouse (mouseEventsQueue m) (holdMouseEvent m) (timeouts m) (nextTimeout m) (mouseDown m) (buttonDown m) (clickTime m) (clickCount m) x (prevMousePos m) (effects m) (session_of m).
Definition set_prev x m := Mouse (mouseEventsQueue m) (holdMouseEvent m) (timeouts m) (nextTimeout m) (mouseDown m) (buttonDown m) (clickTime m) (clickCount m) (mouseOverTimeout m) x (effects m) (session_of m).
Definition log (e : list effect) m := Mouse (mouseEventsQueue m) (holdMouseEvent m) (timeouts m) (nextTimeout m) (mouseDown m) (buttonDown m) (clickTime m) (clickCount m) (mouseOverTimeout m) (prevMousePos m) (effects m ++ e) (session_of m).
Definition set_session x m := Mouse (mouseEventsQueue m) (holdMouseEvent m) (timeouts m) (nextTimeout m) (mouseDown m) (buttonDown m) (clickTime m) (clickCount m) (mouseOverTimeout m) (prevMousePos m) (effects m) x.

(** [clearTimeout], [setTimeout] *)
Definition clear (id : option nat) (m : mouse) : mouse :=
  match id with
  | Some i => set_timeouts (filter (fun t => t.1 <> i) (timeouts m)) (nextTimeout m) m
  | None => m
  end.
Definition set_timeout (t : timeout) (m : mouse) : nat * mouse :=
  (nextTimeout m, set_timeouts (timeouts m ++ [(nextTimeout m, t)]) (S (nextTimeout m)) m).

(** ** [_postMouseEvent] *)

Definition mouse_text (type : string) (x y count buttons modifier : Z) : string :=
  "mouse type=" +:+ type +:+ " x=" +:+ num_to_string x +:+ " y=" +:+ num_to_string y +:+
  " count=" +:+ num_to_string count +:+ " buttons=" +:+ num_to_string buttons +:+ " modifier=" +:+ num_to_string modifier.

(** The messages, and the other effects. *)
Definition post_messages (e : surroundings) (type : string) (x y count buttons modifier : Z) (c : session) : session :=
  let c := sendClientVisibleArea (area_now e) false (sendClientZoom (zoom_now e) false c) in
  let c := send (Text (mouse_text type x y count buttons modifier)) c in
  if readonly e && String.eqb type "buttonup"
  then send (Text ("readonlyclick x=" +:+ num_to_string x +:+ " y=" +:+ num_to_string y)) c
  else c.

Definition postMouseEvent (e : surroundings) (type : string) (x y count buttons modifier : Z) (m : mouse) : mouse :=
  if negb (docLoaded (session_of m)) then m
  else if inputBarFocus e && String.eqb type "move" then m
  else
    let m := set_session (post_messages e type x y count buttons modifier (session_of m)) m in
    let m := if readonly e && String.eqb type "buttonup" && hyperlinkPopup e then log [ClosePopup] m else m in
    if String.eqb type "buttondown" then log [ClearSearchResults] m else m.

(** ** The queue *)

(** The loop over the queue: a release empties the queue, which ends the loop. *)
Fixpoint run_queue (e : surroundings) (q : list pending) (m : mouse) : mouse :=
  match q with
  | [] => m
  | Press x y buttons modifier :: q' => run_queue e q' (postMouseEvent e "buttondown" x y 1 buttons modifier m)
  | Release x y buttons modifier :: _ =>
      log [Focus] (postMouseEvent e "buttonup" x y 1 buttons modifier (set_queue [] m))
  end.

Definition flush (e : surroundings) (m : mouse) : mouse := set_queue [] (run_queue e (mouseEventsQueue m) m).

(** [_executeMouseEvents] *)
Definition executeMouseEvents (e : surroundings) (m : mouse) : mouse := flush e (set_hold None m).

(** The timeout [id] fires. *)
Definition fire_timeout (e : surroundings) (id : nat) (m : mouse) : mouse :=
  match list_find (fun t => t.1 = id) (timeouts m) with
  | None => m
  | Some (_, (_, t)) =>
      let m := clear (Some id) m in
      match t with
      | Execute => executeMouseEvents e m
      | Hover x y modifier => postMouseEvent e "move" x y 1 0 modifier m
      end
  end.

(** ** [_onMouseEvent] *)

Definition modifier_of (ev : mouse_event) : Z :=
  Z.lor (Z.lor (Z.lor (if shiftKey ev then 4096 else 0) (if ctrlKey ev then 8192 else 0))
               (if altKey ev then 16384 else 0))
        (if metaKey ev then 32768 else 0).

Definition LO_left : Z := 1.
Definition LO_middle : Z := 2.
Definition LO_right : Z := 4.

Definition buttons_of (ev : mouse_event) : Z :=
  Z.lor (Z.lor (if button ev =? 0 then LO_left else 0) (if button ev =? 1 then LO_middle else 0))
        (if button ev =? 2 then LO_right else 0).

(** A control click on a Mac is a right click. *)
Definition modifier_buttons (e : surroundings) (ev : mouse_event) : Z * Z :=
  if mac e && (modifier_of ev =? 8192) && (buttons_of ev =? LO_left) then (0, LO_right)
  else (modifier_of ev, buttons_of ev).

(** The position of a movement of the selected graphic; both branches for a movement
    do the same. *)
Definition track_graphic (e : surroundings) (ev : mouse_event) (m : mouse) : mouse :=
  match graphicMarker e with
  | Some g =>
      if emptySelection g then m
      else if bool_decide (m_type ev = MouseDown) && isInside g then set_prev (Some (m_x ev, m_y ev)) m
      else if bool_decide (m_type ev = MouseMove) && mouseDown m then set_prev (Some (m_x ev, m_y ev)) m
      else if bool_decide (m_type ev = MouseUp) then set_prev None m
      else m
  | None => m
  end.

Definition click_type (t : mouse_type) : option Z :=
  match t with DblClick => Some 2 | TrplClick => Some 3 | QdrplClick => Some 4 | _ => None end.

(** The early returns. *)
Definition ignored (e : surroundings) (m : mouse) : bool :=
  uiBlocked (sock (session_of m)) || negb (hasLayer e) || fullscreen e || rulerActive e.
Definition dragged (e : surroundings) : bool :=
  match graphicMarker e with Some g => isDragged g | None => false end.

Definition on_mousedown (e : surroundings) (ev : mouse_event) (modifier buttons : Z) (m : mouse) : mouse :=
  let m := set_buttonDown (Some buttons) (set_down true (log [ResetPreFetching] m)) in
  let m := clear (holdMouseEvent m) m in
  let m := set_queue (mouseEventsQueue m ++ [Press (m_x ev) (m_y ev) buttons modifier]) m in
  let '(id, m) := set_timeout Execute m in
  set_hold (Some id) m.

(** A release within a quarter of a second after the last one. *)
Definition is_repeated (e : surroundings) (m : mouse) : bool :=
  match clickTime m with
  | Some t => negb (t =? 0) && (1 <? now e - t) && (now e - t <=? 250)
  | None => false
  end.

Definition on_mouseup (e : surroundings) (ev : mouse_event) (modifier buttons : Z) (m : mouse) : mouse :=
  let m := set_down false m in
  if dragging e && (length (mouseEventsQueue m) =? 0)%nat then m
  else if num_eqb (buttonDown m) (Some LO_right) && (modifier =? 0) then m
  else
    let m := set_hold None (clear (holdMouseEvent m) m) in
    if is_repeated e m then
      let count := num_add (clickCount m) (Some 1) in
      set_click (if num_ltb count (Some 4) then Some (now e) else clickTime m) count (set_queue [] m)
    else
      let m := set_click (Some (now e)) (Some 1) m in
      let m := set_queue (mouseEventsQueue m ++ [Release (m_x ev) (m_y ev) buttons modifier]) m in
      let '(id, m) := set_timeout Execute m in
      log (repeat (HandleClickable true) (handleIcons e) ++ [ScrollVelocity]) (set_hold (Some id) m).

Definition on_mousemove (e : surroundings) (ev : mouse_event) (modifier buttons : Z) (m : mouse) : mouse :=
  if mouseDown m then
    let m := clear (mouseOverTimeout m) m in
    match holdMouseEvent m with
    | Some id =>
        let m := set_hold None (clear (Some id) m) in
        if dragging e then set_queue [] m
        else
          let m := flush e m in
          log (repeat (HandleClickable false) (handleIcons e) ++ [AutoScroll])
            (postMouseEvent e "move" (m_x ev) (m_y ev) 1 buttons modifier m)
    | None =>
        if dragging e then m
        else
          log (repeat (HandleClickable false) (handleIcons e) ++ [AutoScroll])
            (postMouseEvent e "move" (m_x ev) (m_y ev) 1 buttons modifier m)
    end
  else
    let m := clear (mouseOverTimeout m) m in
    let '(id, m) := set_timeout (Hover (m_x ev) (m_y ev) modifier) m in
    set_over (Some id) m.

Definition onMouseEvent (e : surroundings) (ev : mouse_event) (m : mouse) : mouse :=
  if uiBlocked (sock (session_of m)) then m
  else
    let m := log [NotifyActive] m in
    if ignored e m || dragged e then m
    else
      let m := track_graphic e ev m in
      if handleDragged e then m
      else
        let '(modifier, buttons) := modifier_buttons e ev in
        match m_type ev with
        | MouseOver => if mouseEnteringLeaving e && mouseDown m then log [ListenOutside false] m else m
        | MouseDown => on_mousedown e ev modifier buttons m
        | MouseUp => on_mouseup e ev modifier buttons m
        | MouseMove => on_mousemove e ev modifier buttons m
        | MouseOut => if mouseEnteringLeaving e && mouseDown m then log [ListenOutside true] m else m
        | DblClick | TrplClick | QdrplClick =>
            let count := default 1 (click_type (m_type ev)) in
            postMouseEvent e "buttonup" (m_x ev) (m_y ev) count buttons modifier
              (postMouseEvent e "buttondown" (m_x ev) (m_y ev) count buttons modifier m)
        end.

(** [_onMouseMoveOutside], [_onMouseUpOutside]: the map then fires the event. *)
Definition onMouseMoveOutside (e : surroundings) (m : mouse) : mouse :=
  log (HandleDOMEvent :: if dragging e then [DragMove] else []) m.
Definition onMouseUpOutside (e : surroundings) (m : mouse) : mouse :=
  log (ListenOutside false :: HandleDOMEvent :: if dragging e then [DragUp] else []) (set_down false m).

(** ** Sending *)

(** The mouse messages among those sent. *)
Definition mouse_message (p : payload) : option string :=
  match p with Text t => if starts_with t "mouse " then Some t else None | Binary _ => None end.
Definition sent (m : mouse) : list string := omap mouse_message (wire (sock (session_of m))).

(** A session in which messages go out. *)
Definition ready (c : session) : Prop := uiBlocked (sock c) = false /\ docLoaded c = true /\ may_remember c = true.

Lemma ready_send m c : ready c -> ready (send m c) /\ wire (sock (send m c)) = wire (sock c) ++ [m].
Proof.
  intros (Hb & Hd & Hm). unfold may_remember in Hm. apply andb_true_iff in Hm as [Hm Ho].
  apply andb_true_iff in Hm as [Hf Hi]. apply negb_true_iff in Hf.
  destruct (send_open m c Ho) as [Ho' Hd']. destruct (sendMessage_flags m (sock c)) as (Ef & Ei & Eb).
  assert (Ha : accepted m (sock c) = true) by (unfold accepted; by rewrite Hf, Hi, Hb).
  destruct (sendMessage_accepted m (sock c) Ha) as (_ & Hw & _). apply connected_open in Ho. rewrite bool_decide_true in Hw by done.
  split; [|by rewrite sock_send]. split_and!; [by rewrite sock_send, Eb|by rewrite Hd'|].
  unfold may_remember. by rewrite Ho', sock_send, Ef, Ei, Hf, Hi.
Qed.

(** A step of the session that keeps it ready and sends messages of other kinds. *)
Definition sends_other (c c' : session) : Prop :=
  ready c' /\ omap mouse_message (wire (sock c')) = omap mouse_message (wire (sock c)).

Lemma ready_zoom z c : ready c -> sends_other c (sendClientZoom z false c).
Proof.
  intros H. unfold sendClientZoom. case_match; [by split|]. case_match; [|by split]. cbv zeta.
  destruct (ready_send (Text ("clientzoom " +:+ zoom_text z)) c H) as [Hr Hw].
  assert (Hs : sends_other c (send (Text ("clientzoom " +:+ zoom_text z)) c)).
  { split; [done|]. rewrite Hw, omap_app. cbn. by rewrite app_nil_r. }
  case_match; [|done]. exact Hs.
Qed.

Lemma ready_area a c : ready c -> sends_other c (sendClientVisibleArea a false c).
Proof.
  intros H. unfold sendClientVisibleArea. case_match; [by split|]. case_match; [|by split]. cbv zeta.
  destruct (ready_send (Text (area_text a)) c H) as [Hr Hw].
  assert (Hs : sends_other c (send (Text (area_text a)) c)).
  { split; [done|]. rewrite Hw, omap_app. cbn. by rewrite app_nil_r. }
  case_match; [|done]. exact Hs.
Qed.

(** Everything but the session and the log. *)
Definition control (m : mouse) :=
  (mouseEventsQueue m, holdMouseEvent m, timeouts m, nextTimeout m, mouseDown m, buttonDown m,
   (clickTime m, clickCount m, mouseOverTimeout m)).

Lemma control_post e type x y n b k m : control (postMouseEvent e type x y n b k m) = control m.
Proof. unfold postMouseEvent. repeat case_match; done. Qed.

Lemma post_ready e type x y n b k m :
  ready (session_of m) -> inputBarFocus e = false ->
  ready (session_of (postMouseEvent e type x y n b k m)) /\
  sent (postMouseEvent e type x y n b k m) = sent m ++ [mouse_text type x y n b k].
Proof.
  intros H Hi. destruct (ready_zoom (zoom_now e) _ H) as [H1 E1].
  destruct (ready_area (area_now e) _ H1) as [H2 E2].
  destruct (ready_send (Text (mouse_text type x y n b k)) _ H2) as [H3 E3].
  assert (Hp : ready (post_messages e type x y n b k (session_of m)) /\
    omap mouse_message (wire (sock (post_messages e type x y n b k (session_of m)))) = sent m ++ [mouse_text type x y n b k]).
  { unfold post_messages. cbv zeta.
    set (c3 := send (Text (mouse_text type x y n b k)) _) in *.
    assert (E4 : omap mouse_message (wire (sock c3)) = sent m ++ [mouse_text type x y n b k]).
    { rewrite E3, omap_app, E2, E1. done. }
    case_match; [|done].
    destruct (ready_send (Text ("readonlyclick x=" +:+ num_to_string x +:+ " y=" +:+ num_to_string y)) c3 H3) as [H5 E5].
    split; [done|]. rewrite E5, omap_app, E4. cbn. by rewrite app_nil_r. }
  unfold postMouseEvent. destruct H as (_ & -> & _). rewrite Hi. cbn [negb andb].
  repeat case_match; exact Hp.
Qed.

Lemma control_inv m m' :
  control m' = control m ->
  mouseEventsQueue m' = mouseEventsQueue m /\ holdMouseEvent m' = holdMouseEvent m /\ timeouts m' = timeouts m /\
  nextTimeout m' = nextTimeout m /\ mouseDown m' = mouseDown m /\ buttonDown m' = buttonDown m /\
  clickTime m' = clickTime m /\ clickCount m' = clickCount m /\ mouseOverTimeout m' = mouseOverTimeout m.
Proof. by intros [=]. Qed.

(** ** The timers *)

(** At most the queue's timer and the one for resting are under way, and what waits
    in the queue waits for the timer. *)
Record mouse_ok (m : mouse) : Prop := {
  ok_timeouts : forall id t, (id, t) ∈ timeouts m ->
    (id < nextTimeout m)%nat /\
    match t with Execute => holdMouseEvent m = Some id | Hover _ _ _ => mouseOverTimeout m = Some id end;
  ok_distinct : NoDup (timeouts m).*1;
  ok_hold : forall id, holdMouseEvent m = Some id -> (id, Execute) ∈ timeouts m;
  ok_queue : mouseEventsQueue m <> [] -> is_Some (holdMouseEvent m);
  ok_over : forall id, mouseOverTimeout m = Some id -> (id < nextTimeout m)%nat /\ (id, Execute) ∉ timeouts m
}.

Lemma mouse_ok_same m m' :
  mouseEventsQueue m' = mouseEventsQueue m -> holdMouseEvent m' = holdMouseEvent m -> timeouts m' = timeouts m ->
  nextTimeout m' = nextTimeout m -> mouseOverTimeout m' = mouseOverTimeout m -> mouse_ok m -> mouse_ok m'.
Proof. intros E1 E2 E3 E4 E9 []. split; rewrite ?E1, ?E2, ?E3, ?E4, ?E9; done. Qed.

Lemma mouse_ok_control m m' : control m' = control m -> mouse_ok m -> mouse_ok m'.
Proof. intros [= E1 E2 E3 E4 E5 E6 E7 E8 E9]. by apply mouse_ok_same. Qed.

Lemma control_run_queue e q : forall m,
  control (run_queue e q m) = control m \/ control (run_queue e q m) = control (set_queue [] m).
Proof.
  induction q as [|[x y b k|x y b k] q IH]; intros m; cbn [run_queue]; [by left| |].
  - destruct (IH (postMouseEvent e "buttondown" x y 1 b k m)) as [E|E]; [left|right]; rewrite E.
    + apply control_post.
    + pose proof (control_post e "buttondown" x y 1 b k m) as [= E1 E2 E3 E4 E5 E6 E7 E8 E9].
      unfold control. cbn. congruence.
  - right. exact (control_post e "buttonup" x y 1 b k (set_queue [] m)).
Qed.

Lemma control_flush e m : control (flush e m) = control (set_queue [] m).
Proof.
  unfold flush. destruct (control_run_queue e (mouseEventsQueue m) m) as [E|E]; unfold control in *; cbn in *; congruence.
Qed.

Lemma mouse_ok_flush e m : mouse_ok m -> mouse_ok (flush e m).
Proof. intros H. apply (mouse_ok_control (set_queue [] m)); [by rewrite control_flush|]. destruct H. by split. Qed.

Lemma elem_of_clear i id t m : (id, t) ∈ timeouts (clear i m) <-> (id, t) ∈ timeouts m /\ i <> Some id.
Proof.
  unfold clear. destruct i as [i|]; cbn; [|naive_solver]. rewrite list_elem_of_filter. cbn. split.
  - intros [Hne Hin]. split; [done|congruence].
  - intros [Hin Hne]. split; [|done]. intros ->. by apply Hne.
Qed.

Lemma clear_frame i m :
  mouseEventsQueue (clear i m) = mouseEventsQueue m /\ holdMouseEvent (clear i m) = holdMouseEvent m /\
  nextTimeout (clear i m) = nextTimeout m /\ mouseOverTimeout (clear i m) = mouseOverTimeout m /\
  mouseDown (clear i m) = mouseDown m /\ buttonDown (clear i m) = buttonDown m /\
  clickTime (clear i m) = clickTime m /\ clickCount (clear i m) = clickCount m /\ session_of (clear i m) = session_of m.
Proof. by destruct i. Qed.

Lemma NoDup_clear i m : NoDup (timeouts m).*1 -> NoDup (timeouts (clear i m)).*1.
Proof.
  destruct i as [i|]; [|done]. cbn. intros H. eapply sublist_NoDup; [exact H|]. apply fmap_sublist, sublist_filter.
Qed.

(** Nothing waits and no timer of the queue is under way. *)
Lemma mouse_ok_cleared m :
  mouse_ok m -> mouse_ok (set_queue [] (set_hold None (clear (holdMouseEvent m) m))).
Proof.
  intros [H1 H2 H3 H4 H5]. destruct (clear_frame (holdMouseEvent m) m) as (Eq & Eh & En & Eo & _).
  split; cbn; [|by apply NoDup_clear|done|done|].
  - intros id t Hin. apply elem_of_clear in Hin as [Hin Hne].
    destruct (H1 id t Hin) as [Hlt Ht]. rewrite En, Eo. split; [done|]. destruct t; [congruence|done].
  - intros id. rewrite En, Eo. intros Hid. destruct (H5 id Hid) as [Hlt Hn]. split; [done|].
    intros [Hin _]%elem_of_clear. done.
Qed.

Lemma mouse_ok_hover m : mouse_ok m -> mouse_ok (clear (mouseOverTimeout m) m).
Proof.
  intros [H1 H2 H3 H4 H5]. destruct (clear_frame (mouseOverTimeout m) m) as (Eq & Eh & En & Eo & _).
  split; rewrite ?Eq, ?Eh, ?En, ?Eo; [|by apply NoDup_clear| |done|].
  - intros id t Hin. apply elem_of_clear in Hin as [Hin _]. by apply H1.
  - intros id Hid. apply elem_of_clear. split; [by apply H3|]. intros E. destruct (H5 id E) as [_ Hn]. by apply Hn, H3.
  - intros id Hid. destruct (H5 id Hid) as [Hlt Hn]. split; [done|]. intros [Hin _]%elem_of_clear. done.
Qed.

(** A new timer for the queue, when none is under way. *)
Lemma mouse_ok_execute q m :
  (forall id t, (id, t) ∈ timeouts m -> t <> Execute) -> mouse_ok (set_queue [] (set_hold None m)) ->
  let '(id, m') := set_timeout Execute (set_queue q m) in mouse_ok (set_hold (Some id) m').
Proof.
  intros Hno [H1 H2 H3 H4 H5]. cbn in *. split; cbn.
  - intros id t [Hin|Hin]%elem_of_app.
    + destruct (H1 id t Hin) as [Hlt Ht]. split; [lia|]. pose proof (Hno id t Hin). by destruct t.
    + apply list_elem_of_singleton in Hin as [= -> ->]. split; [lia|done].
  - rewrite fmap_app. apply NoDup_app. split_and!; [done| |apply NoDup_singleton].
    intros id Hin. apply list_elem_of_fmap in Hin as ([id' t] & -> & Hin). destruct (H1 id' t Hin) as [Hlt _].
    cbn. rewrite list_elem_of_singleton. lia.
  - intros id [= <-]. apply elem_of_app. right. by apply list_elem_of_singleton.
  - done.
  - intros id Hid. destruct (H5 id Hid) as [Hlt Hn]. split; [lia|]. rewrite elem_of_app, list_elem_of_singleton.
    intros [Hin|[= ->]]; [done|lia].
Qed.

(** The timers of the queue are gone after they were cleared. *)
Lemma no_execute m : mouse_ok m -> forall id t, (id, t) ∈ timeouts (clear (holdMouseEvent m) m) -> t <> Execute.
Proof. intros H id t [Hin Hne]%elem_of_clear ->. by destruct (ok_timeouts m H _ _ Hin). Qed.

Lemma mouse_ok_mousedown e ev k b m : mouse_ok m -> mouse_ok (on_mousedown e ev k b m).
Proof.
  intros H. unfold on_mousedown. cbv zeta. set (m1 := set_buttonDown _ _).
  assert (H1 : mouse_ok m1) by by apply (mouse_ok_same m).
  pose proof (mouse_ok_execute (mouseEventsQueue (clear (holdMouseEvent m1) m1) ++ [Press (m_x ev) (m_y ev) b k])
    (clear (holdMouseEvent m1) m1) (no_execute m1 H1) (mouse_ok_cleared m1 H1)) as Hx.
  exact Hx.
Qed.

Lemma mouse_ok_mouseup e ev k b m : mouse_ok m -> mouse_ok (on_mouseup e ev k b m).
Proof.
  intros H. unfold on_mouseup. cbv zeta. set (m1 := set_down false m).
  assert (H1 : mouse_ok m1) by by apply (mouse_ok_same m). clearbody m1.
  case_match; [done|]. case_match; [done|]. pose proof (mouse_ok_cleared m1 H1) as Hc.
  set (m2 := set_hold None (clear (holdMouseEvent m1) m1)) in *. case_match.
  - destruct Hc. by split.
  - set (m3 := set_click _ _ m2).
    pose proof (mouse_ok_execute (mouseEventsQueue m3 ++ [Release (m_x ev) (m_y ev) b k]) m3 (no_execute m1 H1)) as Hx.
    assert (Hc3 : mouse_ok (set_queue [] (set_hold None m3))) by (destruct Hc; by split).
    specialize (Hx Hc3). cbn in Hx. revert Hx. by apply mouse_ok_control.
Qed.

Lemma mouse_ok_mousemove e ev k b m : mouse_ok m -> mouse_ok (on_mousemove e ev k b m).
Proof.
  intros H. unfold on_mousemove. cbv zeta. pose proof (mouse_ok_hover m H) as H1. destruct (mouseDown m).
  - revert H1. generalize (clear (mouseOverTimeout m) m) as m1. intros m1 H1.
    assert (Hpost : forall m2 n, mouse_ok m2 -> mouse_ok (log (repeat (HandleClickable false) n ++ [AutoScroll])
      (postMouseEvent e "move" (m_x ev) (m_y ev) 1 b k m2))).
    { intros m2 n. apply mouse_ok_control. exact (control_post e "move" (m_x ev) (m_y ev) 1 b k m2). }
    destruct (holdMouseEvent m1) as [id|] eqn:Eh.
    + pose proof (mouse_ok_cleared m1 H1) as Hc. rewrite Eh in Hc. case_match; [exact Hc|]. apply Hpost.
      apply (mouse_ok_control (set_queue [] (set_hold None (clear (Some id) m1)))); [|done].
      by rewrite control_flush.
    + case_match; [done|]. by apply Hpost.
  - destruct H as [_ _ _ _ Hover]. revert H1. destruct (clear_frame (mouseOverTimeout m) m) as (_ & _ & En & Eo & _).
    assert (Hno : forall id t, (id, t) ∈ timeouts (clear (mouseOverTimeout m) m) ->
      mouseOverTimeout (clear (mouseOverTimeout m) m) <> Some id).
    { intros id t [_ Hne]%elem_of_clear. by rewrite Eo. }
    revert Hno. generalize (clear (mouseOverTimeout m) m) as m1. clear. intros m1 Hno [H1 H2 H3 H4 H5].
    cbn. split; cbn.
    + intros id t [Hin|Hin]%elem_of_app.
      * destruct (H1 id t Hin) as [Hlt Ht]. split; [lia|]. destruct t; [done|]. by apply Hno in Hin.
      * apply list_elem_of_singleton in Hin as [= -> ->]. split; [lia|done].
    + rewrite fmap_app. apply NoDup_app. split_and!; [done| |apply NoDup_singleton].
      intros id Hin. apply list_elem_of_fmap in Hin as ([id' t] & -> & Hin). destruct (H1 id' t Hin) as [Hlt _].
      cbn. rewrite list_elem_of_singleton. lia.
    + intros id Hid. apply elem_of_app. left. by apply H3.
    + done.
    + intros id [= <-]. split; [lia|]. rewrite elem_of_app, list_elem_of_singleton. intros [Hin|Hin]; [|done].
      destruct (H1 _ _ Hin). lia.
Qed.

Lemma mouse_ok_fire e id m : mouse_ok m -> mouse_ok (fire_timeout e id m).
Proof.
  intros H. unfold fire_timeout. destruct (list_find (fun t => t.1 = id) (timeouts m)) as [[i [id' t]]|] eqn:E; [|done].
  apply list_find_Some in E as (Hi & Hid & _). cbn in Hid. subst id'. apply list_elem_of_lookup_2 in Hi.
  destruct (ok_timeouts m H id t Hi) as [Hlt Ht]. cbv zeta. destruct t as [|x y k].
  - pose proof (mouse_ok_cleared m H) as Hc. rewrite Ht in Hc. unfold executeMouseEvents.
    apply (mouse_ok_control (set_queue [] (set_hold None (clear (Some id) m)))); [by rewrite control_flush|done].
  - apply (mouse_ok_control (clear (Some id) m)); [apply control_post|].
    pose proof (mouse_ok_hover m H) as Hc. by rewrite Ht in Hc.
Qed.

Inductive mouse_step : mouse -> mouse -> Prop :=
| step_event e ev m : mouse_step m (onMouseEvent e ev m)
| step_timeout e id m : mouse_step m (fire_timeout e id m)
| step_move_outside e m : mouse_step m (onMouseMoveOutside e m)
| step_up_outside e m : mouse_step m (onMouseUpOutside e m)
| step_session c m : mouse_step m (set_session c m).     (** anything else happens *)

Definition new_mouse (c : session) : mouse := Mouse [] None [] 0 false None None None None None [] c.

Lemma track_graphic_frame e ev m :
  control (track_graphic e ev m) = control m /\ session_of (track_graphic e ev m) = session_of m.
Proof. unfold track_graphic. repeat case_match; done. Qed.

Lemma mouse_step_ok m m' : mouse_step m m' -> mouse_ok m -> mouse_ok m'.
Proof.
  intros Hs H. destruct Hs as [e ev m|e id m|e m|e m|c m]; try (by apply (mouse_ok_same m)); [|by apply mouse_ok_fire].
  unfold onMouseEvent. case_match; [done|]. cbv zeta. set (m1 := log [NotifyActive] m).
  assert (H1 : mouse_ok m1) by by apply (mouse_ok_same m). case_match; [done|].
  apply (mouse_ok_control _ (track_graphic e ev m1)) in H1; [|apply track_graphic_frame].
  case_match; [done|]. destruct (modifier_buttons e ev) as [k b].
  assert (Hpost : forall t1 n1 t2 n2, mouse_ok (postMouseEvent e t1 (m_x ev) (m_y ev) n1 b k
    (postMouseEvent e t2 (m_x ev) (m_y ev) n2 b k (track_graphic e ev m1)))).
  { intros. eapply mouse_ok_control; [|exact H1]. by rewrite !control_post. }
  destruct (m_type ev); try by apply Hpost.
  - by apply mouse_ok_mousedown.
  - by apply mouse_ok_mouseup.
  - case_match; [|done]. by apply (mouse_ok_same (track_graphic e ev m1)).
  - case_match; [|done]. by apply (mouse_ok_same (track_graphic e ev m1)).
  - by apply mouse_ok_mousemove.
Qed.

(** ** Gestures *)

(** Surroundings in which the handler does its work. *)
Definition attentive (e : surroundings) : Prop :=
  hasLayer e = true /\ fullscreen e = false /\ rulerActive e = false /\ handleDragged e = false /\
  dragged e = false /\ inputBarFocus e = false.

Definition dispatch (e : surroundings) (ev : mouse_event) (m : mouse) : mouse :=
  match m_type ev with
  | MouseDown => on_mousedown e ev (modifier_buttons e ev).1 (modifier_buttons e ev).2 m
  | MouseUp => on_mouseup e ev (modifier_buttons e ev).1 (modifier_buttons e ev).2 m
  | MouseMove => on_mousemove e ev (modifier_buttons e ev).1 (modifier_buttons e ev).2 m
  | _ => m
  end.

Lemma onMouseEvent_attentive e ev m :
  attentive e -> uiBlocked (sock (session_of m)) = false ->
  (m_type ev = MouseDown \/ m_type ev = MouseUp \/ m_type ev = MouseMove) ->
  exists m1, control m1 = control m /\ session_of m1 = session_of m /\ onMouseEvent e ev m = dispatch e ev m1.
Proof.
  intros (H1 & H2 & H3 & H4 & H5 & H6) Hb Ht. exists (track_graphic e ev (log [NotifyActive] m)).
  destruct (track_graphic_frame e ev (log [NotifyActive] m)) as [E1 E2]. split_and!; [done|done|].
  unfold onMouseEvent, ignored, dispatch. cbn [session_of log]. rewrite Hb, H1, H2, H3, H4, H5. cbn.
  destruct (modifier_buttons e ev) as [k b]. by destruct Ht as [->|[->| ->]].
Qed.

Definition down_text (e : surroundings) (ev : mouse_event) : string :=
  mouse_text "buttondown" (m_x ev) (m_y ev) 1 (modifier_buttons e ev).2 (modifier_buttons e ev).1.
Definition move_text (e : surroundings) (ev : mouse_event) : string :=
  mouse_text "move" (m_x ev) (m_y ev) 1 (modifier_buttons e ev).2 (modifier_buttons e ev).1.

(** Between press and release the mouse moves, the timer of the queue fires, or the one for
    resting that was under way at the press. *)
Inductive motion := Moved (e : surroundings) (ev : mouse_event) | Waited (e : surroundings) | Rested (e : surroundings).

Definition do_motion (m : mouse) (x : motion) : mouse :=
  match x with
  | Moved e ev => onMouseEvent e ev m
  | Waited e => match holdMouseEvent m with Some id => fire_timeout e id m | None => m end
  | Rested e => match mouseOverTimeout m with Some id => fire_timeout e id m | None => m end
  end.

Definition motion_ok (drag : bool) (x : motion) : Prop :=
  match x with
  | Moved e ev => attentive e /\ dragging e = drag /\ m_type ev = MouseMove
  | Waited e | Rested e => attentive e
  end.
Definition motion_texts (x : motion) : list string :=
  match x with Moved e ev => [move_text e ev] | Waited _ | Rested _ => [] end.

(** What the timer for resting will send. *)
Definition hover_text (t : nat * timeout) : option string :=
  match t.2 with Hover x y k => Some (mouse_text "move" x y 1 0 k) | Execute => None end.
Definition hover_texts (m : mouse) : list string := omap hover_text (timeouts m).

Lemma hover_texts_timeouts m m' : timeouts m' = timeouts m -> hover_texts m' = hover_texts m.
Proof. unfold hover_texts. by intros ->. Qed.

Lemma hover_no_hover (l : list (nat * timeout)) :
  (forall id t, (id, t) ∈ l -> t = Execute) -> omap hover_text l = [].
Proof.
  induction l as [|[i t] l IH]; intros H; [done|]. cbn. rewrite (H i t) by (left; done). cbn. apply IH.
  intros id t' Hin. apply (H id t'). by right.
Qed.

Lemma hover_filter i (l : list (nat * timeout)) :
  (forall t, (i, t) ∈ l -> t = Execute) -> omap hover_text (filter (fun t => t.1 <> i) l) = omap hover_text l.
Proof.
  induction l as [|[j t] l IH]; intros H; [done|]. rewrite filter_cons.
  assert (IH' : omap hover_text (filter (fun t => t.1 <> i) l) = omap hover_text l) by (apply IH; intros t' Hin; apply H; by right).
  case_decide as Hj; cbn in Hj; cbn [omap list_omap]; [by rewrite IH'|].
  assert (j = i) as -> by lia. rewrite (H t) by (left; done). exact IH'.
Qed.

(** Clearing the timer of the queue leaves the other one. *)
Lemma hover_hold m : mouse_ok m -> hover_texts (clear (holdMouseEvent m) m) = hover_texts m.
Proof.
  intros H. unfold hover_texts. destruct (holdMouseEvent m) as [i|] eqn:E; [|done]. cbn. apply hover_filter.
  intros t Hin. pose proof (ok_hold m H i E) as Hx. destruct t as [|x y k]; [done|].
  destruct (ok_timeouts m H _ _ Hin) as [_ Ho]. by destruct (ok_over m H _ Ho).
Qed.

Lemma hover_cleared m : mouse_ok m -> hover_texts (clear (mouseOverTimeout m) m) = [].
Proof.
  intros H. apply hover_no_hover. intros id t [Hin Hne]%elem_of_clear. destruct t; [done|].
  by destruct (ok_timeouts m H _ _ Hin).
Qed.

Lemma hover_clear_nil i m : hover_texts m = [] -> hover_texts (clear i m) = [].
Proof.
  unfold hover_texts. destruct i as [i|]; [|done]. cbn. induction (timeouts m) as [|[j t] l IH]; [done|].
  rewrite filter_cons. destruct t; cbn; [|done]. intros Hl. case_decide; cbn; auto.
Qed.

(** There is one at most. *)
Lemma hover_single id x y k (l : list (nat * timeout)) :
  NoDup l.*1 -> (forall i x' y' k', (i, Hover x' y' k') ∈ l -> i = id) -> (id, Hover x y k) ∈ l ->
  omap hover_text l = [mouse_text "move" x y 1 0 k].
Proof.
  induction l as [|[i t] l IH]; intros Hd Ho Hin; [by apply not_elem_of_nil in Hin|].
  cbn [fmap list_fmap fst] in Hd. apply NoDup_cons in Hd as [Hi Hd].
  assert (Hrest : forall j x' y' k', (j, Hover x' y' k') ∈ l -> j = id) by (intros j x' y' k' Hj; apply (Ho j x' y' k'); by right).
  apply elem_of_cons in Hin as [[= <- <-]|Hin].
  - cbn. f_equal. apply hover_no_hover. intros j t' Hj. destruct t'; [done|]. exfalso. apply Hi.
    rewrite <- (Hrest _ _ _ _ Hj). apply list_elem_of_fmap. by exists (j, Hover x0 y0 modifier).
  - destruct t as [|x' y' k']; [cbn; by apply IH|]. exfalso. apply Hi.
    rewrite (Ho i x' y' k') by (left; done). apply list_elem_of_fmap. by exists (id, Hover x y k).
Qed.

Lemma fire_hold e id m :
  mouse_ok m -> holdMouseEvent m = Some id -> fire_timeout e id m = executeMouseEvents e (clear (Some id) m).
Proof.
  intros H Hid. unfold fire_timeout. destruct (list_find (fun t => t.1 = id) (timeouts m)) as [[i [id' t]]|] eqn:E.
  - apply list_find_Some in E as (Hi & Hid' & _). cbn in Hid'. subst id'. apply list_elem_of_lookup_2 in Hi.
    pose proof (ok_hold m H id Hid) as Hx. cbv zeta. destruct t; [done|]. exfalso.
    destruct (ok_timeouts m H _ _ Hi) as [_ Ho]. destruct (ok_over m H _ Ho). done.
  - exfalso. apply list_find_None in E. rewrite Forall_forall in E.
    by apply (E (id, Execute)); [apply (ok_hold m H)|].
Qed.

Lemma flush_press e x y b k m :
  ready (session_of m) -> inputBarFocus e = false -> mouseEventsQueue m = [Press x y b k] ->
  ready (session_of (flush e m)) /\ sent (flush e m) = sent m ++ [mouse_text "buttondown" x y 1 b k].
Proof. intros H Hi Hq. unfold flush. rewrite Hq. cbn [run_queue]. by apply post_ready. Qed.

Lemma flush_nil e m : mouseEventsQueue m = [] -> session_of (flush e m) = session_of m.
Proof. intros Hq. unfold flush. by rewrite Hq. Qed.

(** The state between press and release: the press waits, or it was sent. *)
Record in_gesture (base : list string) (press : Z * Z * Z * Z) (click : option Z * option Z) (waits : bool)
    (moves : list string) (m : mouse) : Prop := {
  g_ok : mouse_ok m;
  g_ready : ready (session_of m);
  g_down : mouseDown m = true;
  g_button : buttonDown m = Some press.1.2;
  g_click : (clickTime m, clickCount m) = click;
  g_sent : let '(x, y, b, k) := press in
    if waits then mouseEventsQueue m = [Press x y b k] /\ sent m = base
    else mouseEventsQueue m = [] /\ sent m = base ++ mouse_text "buttondown" x y 1 b k :: moves
}.

Lemma in_gesture_control base press click waits moves m m' :
  control m' = control m -> session_of m' = session_of m ->
  in_gesture base press click waits moves m -> in_gesture base press click waits moves m'.
Proof.
  intros Hc Hs [H1 H2 H3 H4 H5 H6]. pose proof (mouse_ok_control _ _ Hc H1). apply control_inv in Hc as (E1 & E2 & E3 & E4 & E5 & E6 & E7 & E8 & E9).
  split; rewrite ?Hs, ?E1, ?E5, ?E6, ?E7, ?E8; try done. destruct press as [[[x y] b] k].
  assert (Es : sent m' = sent m) by (unfold sent; by rewrite Hs). by rewrite Es.
Qed.

(** The timer for resting sends its message, and is not under way any more. *)
Lemma rest_frame e m :
  mouse_ok m -> ready (session_of m) -> attentive e ->
  let m' := do_motion m (Rested e) in
  mouse_ok m' /\ ready (session_of m') /\ sent m' = sent m ++ hover_texts m /\ hover_texts m' = [] /\
  mouseEventsQueue m' = mouseEventsQueue m /\ holdMouseEvent m' = holdMouseEvent m /\ mouseDown m' = mouseDown m /\
  buttonDown m' = buttonDown m /\ clickTime m' = clickTime m /\ clickCount m' = clickCount m.
Proof.
  intros H Hr Ha. cbv zeta. cbn [do_motion].
  assert (Hnone : (forall id t, (id, t) ∈ timeouts m -> t = Execute) -> hover_texts m = []) by apply hover_no_hover.
  destruct (mouseOverTimeout m) as [id|] eqn:Eo.
  2: { assert (En : hover_texts m = []).
       { apply Hnone. intros id t Hin. destruct t; [done|]. destruct (ok_timeouts m H _ _ Hin). congruence. }
       rewrite En, app_nil_r. by split_and!. }
  pose proof (mouse_ok_fire e id m H) as Hok. unfold fire_timeout in *.
  destruct (list_find (fun t => t.1 = id) (timeouts m)) as [[i [id' t]]|] eqn:E.
  - apply list_find_Some in E as (Hi & Hid & _). cbn in Hid. subst id'. apply list_elem_of_lookup_2 in Hi.
    destruct t as [|x y k]; [by destruct (ok_over m H _ Eo)|]. cbv zeta in *.
    assert (Et : hover_texts m = [mouse_text "move" x y 1 0 k]).
    { apply (hover_single id); [apply H| |done]. intros j x' y' k' Hj. destruct (ok_timeouts m H _ _ Hj). congruence. }
    set (m1 := clear (Some id) m) in *. pose proof (hover_cleared m H) as Hc. rewrite Eo in Hc. fold m1 in Hc.
    destruct (post_ready e "move" x y 1 0 k m1 Hr ltac:(apply Ha)) as [Hr' Hs'].
    pose proof (control_post e "move" x y 1 0 k m1) as Hx. apply control_inv in Hx as (F1 & F2 & F3 & F4 & F5 & F6 & F7 & F8 & F9).
    rewrite Et, Hs', F1, F2, F5, F6, F7, F8, (hover_texts_timeouts _ _ F3). by split_and!.
  - assert (En : hover_texts m = []).
    { apply Hnone. intros j t Hin. destruct t; [done|]. destruct (ok_timeouts m H _ _ Hin) as [_ Ho].
      apply list_find_None in E. rewrite Forall_forall in E. exfalso. apply (E _ Hin). cbn. congruence. }
    rewrite En, app_nil_r. by split_and!.
Qed.

Definition press_of (e : surroundings) (ev : mouse_event) : Z * Z * Z * Z :=
  (m_x ev, m_y ev, (modifier_buttons e ev).2, (modifier_buttons e ev).1).
Definition press_text (p : Z * Z * Z * Z) : string :=
  let '(x, y, b, k) := p in mouse_text "buttondown" x y 1 b k.

Lemma sent_session m m' : session_of m' = session_of m -> sent m' = sent m.
Proof. intros E. unfold sent. by rewrite E. Qed.

Lemma gesture_press e ev m :
  mouse_ok m -> ready (session_of m) -> mouseEventsQueue m = [] -> attentive e -> m_type ev = MouseDown ->
  in_gesture (sent m) (press_of e ev) (clickTime m, clickCount m) true [] (onMouseEvent e ev m).
Proof.
  intros H Hr Hq Ha Ht. destruct (onMouseEvent_attentive e ev m Ha (proj1 Hr) (or_introl Ht)) as (m1 & Ec & Es & ->).
  unfold dispatch. rewrite Ht. pose proof (mouse_ok_control _ _ Ec H) as H1.
  apply control_inv in Ec as (E1 & E2 & E3 & E4 & E5 & E6 & E7 & E8 & E9). rewrite <- E7, <- E8, <- (sent_session _ _ Es). rewrite <- E1 in Hq. rewrite <- Es in Hr.
  clear dependent m. unfold press_of.
  split; [by apply mouse_ok_mousedown| |unfold on_mousedown; cbn; by destruct (holdMouseEvent m1)..|].
  - unfold on_mousedown. cbn. by destruct (holdMouseEvent m1).
  - split.
    + unfold on_mousedown. cbn. destruct (holdMouseEvent m1); cbn; by rewrite Hq.
    + apply sent_session. unfold on_mousedown. cbn. by destruct (holdMouseEvent m1).
Qed.

(** Events and timers, and the timer for resting: a press, a release and the timer of the
    queue leave it alone, a movement clears it. *)
Lemma hover_press e ev m :
  mouse_ok m -> ready (session_of m) -> attentive e -> m_type ev = MouseDown ->
  hover_texts (onMouseEvent e ev m) = hover_texts m.
Proof.
  intros H Hr Ha Ht. destruct (onMouseEvent_attentive e ev m Ha (proj1 Hr) (or_introl Ht)) as (m1 & Ec & Es & ->).
  unfold dispatch. rewrite Ht. pose proof (mouse_ok_control _ _ Ec H) as H1. apply control_inv in Ec as (_ & _ & E3 & _).
  rewrite <- (hover_texts_timeouts _ _ E3), <- (hover_hold m1 H1). unfold on_mousedown, hover_texts. cbn.
  destruct (holdMouseEvent m1); cbn; by rewrite omap_app, app_nil_r.
Qed.


Lemma hover_flush e m : mouse_ok m -> hover_texts (flush e (set_hold None (clear (holdMouseEvent m) m))) = hover_texts m.
Proof.
  intros H. rewrite <- (hover_hold m H). apply hover_texts_timeouts.
  by destruct (control_inv _ _ (control_flush e (set_hold None (clear (holdMouseEvent m) m)))) as (_ & _ & -> & _).
Qed.

Lemma hover_wait e m : mouse_ok m -> hover_texts (do_motion m (Waited e)) = hover_texts m.
Proof.
  intros H. cbn [do_motion]. destruct (holdMouseEvent m) as [id|] eqn:E; [|done]. rewrite fire_hold by done.
  pose proof (hover_flush e m H) as Hf. by rewrite E in Hf.
Qed.

Lemma hover_move e ev m :
  mouse_ok m -> ready (session_of m) -> mouseDown m = true -> attentive e -> m_type ev = MouseMove ->
  hover_texts (onMouseEvent e ev m) = [].
Proof.
  intros H Hr Hd Ha Ht. destruct (onMouseEvent_attentive e ev m Ha (proj1 Hr) (or_intror (or_intror Ht))) as (m1 & Ec & Es & ->).
  unfold dispatch. rewrite Ht. pose proof (mouse_ok_control _ _ Ec H) as H1. apply control_inv in Ec as (_ & _ & _ & _ & E5 & _).
  unfold on_mousemove. rewrite E5, Hd. cbv zeta. pose proof (hover_cleared m1 H1) as Hc. revert Hc.
  generalize (clear (mouseOverTimeout m1) m1) as m2. intros m2 Hc.
  assert (Hpost : forall m3 l, hover_texts m3 = [] -> hover_texts (log l
    (postMouseEvent e "move" (m_x ev) (m_y ev) 1 (modifier_buttons e ev).2 (modifier_buttons e ev).1 m3)) = []).
  { intros m3 l H3. rewrite <- H3. apply hover_texts_timeouts. cbn [log timeouts].
    by destruct (control_inv _ _ (control_post e "move" (m_x ev) (m_y ev) 1 (modifier_buttons e ev).2 (modifier_buttons e ev).1 m3)) as (_ & _ & -> & _). }
  destruct (holdMouseEvent m2) as [id|]; case_match; auto; [by apply (hover_clear_nil (Some id) m2)|].
  apply Hpost. rewrite <- (hover_clear_nil (Some id) m2 Hc). apply hover_texts_timeouts.
  by destruct (control_inv _ _ (control_flush e (set_hold None (clear (Some id) m2)))) as (_ & _ & -> & _).
Qed.

(** Sending what waits. *)
Lemma gesture_flush e base press click waits moves m :
  in_gesture base press click waits moves m -> attentive e -> (waits = true -> moves = []) ->
  in_gesture base press click false moves (flush e (set_hold None (clear (holdMouseEvent m) m))).
Proof.
  intros [H1 H2 H3 H4 H5 H6] Ha Hw. set (m1 := set_hold None (clear (holdMouseEvent m) m)).
  destruct (clear_frame (holdMouseEvent m) m) as (Eq & _ & _ & _ & Ed & Eb & Et & En & Es).
  pose proof (control_flush e m1) as Hc. pose proof (mouse_ok_cleared m H1) as Hok.
  apply (mouse_ok_control _ (flush e m1)) in Hok; [|done].
  apply control_inv in Hc as (F1 & F2 & F3 & F4 & F5 & F6 & F7 & F8 & F9). 
  change (mouseDown (set_queue [] m1)) with (mouseDown (clear (holdMouseEvent m) m)) in F5. rewrite Ed in F5.
  change (buttonDown (set_queue [] m1)) with (buttonDown (clear (holdMouseEvent m) m)) in F6. rewrite Eb in F6.
  change (clickTime (set_queue [] m1)) with (clickTime (clear (holdMouseEvent m) m)) in F7. rewrite Et in F7.
  change (clickCount (set_queue [] m1)) with (clickCount (clear (holdMouseEvent m) m)) in F8. rewrite En in F8.
  destruct press as [[[x y] b] k]. assert (Hs1 : session_of m1 = session_of m) by exact Es.
  assert (Hq1 : mouseEventsQueue m1 = mouseEventsQueue m) by exact Eq.
  destruct waits; destruct H6 as [Hq Hsent].
  - destruct (flush_press e x y b k m1) as [Hr Hs]; [by rewrite Hs1|apply Ha|by rewrite Hq1|].
    rewrite (sent_session m m1 Hs1), Hsent in Hs. rewrite (Hw eq_refl).
    split; [done|done|by rewrite F5|by rewrite F6|by rewrite F7, F8|]. split; [done|]. by rewrite Hs.
  - assert (Hf : session_of (flush e m1) = session_of m) by (rewrite flush_nil; [done|by rewrite Hq1]).
    split; [done|by rewrite Hf|by rewrite F5|by rewrite F6|by rewrite F7, F8|]. split; [done|].
    by rewrite (sent_session _ _ Hf), Hsent.
Qed.

(** A movement is sent, after what waits. *)
Lemma gesture_move e ev base press click waits moves m :
  in_gesture base press click waits moves m -> (waits = true -> moves = []) ->
  attentive e -> dragging e = false -> m_type ev = MouseMove ->
  in_gesture base press click false (moves ++ [move_text e ev]) (onMouseEvent e ev m).
Proof.
  intros H Hw Ha Hd Ht.
  destruct (onMouseEvent_attentive e ev m Ha (proj1 (g_ready _ _ _ _ _ _ H)) (or_intror (or_intror Ht))) as (m1 & Ec & Es & ->).
  apply (in_gesture_control _ _ _ _ _ _ m1 Ec Es) in H. clear dependent m. unfold dispatch. rewrite Ht.
  unfold on_mousemove. rewrite (g_down _ _ _ _ _ _ H). cbv zeta.
  assert (H1 : in_gesture base press click waits moves (clear (mouseOverTimeout m1) m1)).
  { destruct (clear_frame (mouseOverTimeout m1) m1) as (Eq & _ & _ & _ & Ed & Eb & Et & En & Es).
    destruct H as [G1 G2 G3 G4 G5 G6]. split; rewrite ?Es, ?Ed, ?Eb, ?Et, ?En; try done; [by apply mouse_ok_hover|].
    destruct press as [[[x y] b] k]. by rewrite Eq, (sent_session _ _ Es). }
  revert H1. clear H. generalize (clear (mouseOverTimeout m1) m1) as m2. clear m1. intros m H. rewrite Hd.
  (* the last step: the movement itself *)
  assert (Hpost : forall m', in_gesture base press click false moves m' ->
    in_gesture base press click false (moves ++ [move_text e ev])
      (log (repeat (HandleClickable false) (handleIcons e) ++ [AutoScroll])
         (postMouseEvent e "move" (m_x ev) (m_y ev) 1 (modifier_buttons e ev).2 (modifier_buttons e ev).1 m'))).
  { intros m' [G1 G2 G3 G4 G5 G6]. set (m2 := postMouseEvent _ _ _ _ _ _ _ _).
    pose proof (control_post e "move" (m_x ev) (m_y ev) 1 (modifier_buttons e ev).2 (modifier_buttons e ev).1 m') as Hc. fold m2 in Hc.
    destruct (post_ready e "move" (m_x ev) (m_y ev) 1 (modifier_buttons e ev).2 (modifier_buttons e ev).1 m' G2) as [Hr Hs]; [apply Ha|].
    fold m2 in Hr, Hs. pose proof (mouse_ok_control _ _ Hc G1) as Hok. apply control_inv in Hc as (E1 & E2 & E3 & E4 & E5 & E6 & E7 & E8 & E9).
    split; cbn [log mouseDown buttonDown clickTime clickCount session_of]; rewrite ?E5, ?E6, ?E7, ?E8; try done; [by apply (mouse_ok_same m2)|].
    destruct press as [[[x y] b] k]. destruct G6 as [Gq Gs]. split; [by rewrite <- Gq|].
    change (sent (log _ m2)) with (sent m2). rewrite Hs, Gs, <- app_assoc. done. }
  destruct (holdMouseEvent m) as [id|] eqn:Eh.
  - apply Hpost. pose proof (gesture_flush e _ _ _ _ _ _ H Ha Hw) as Hf. by rewrite Eh in Hf.
  - apply Hpost. destruct waits; [|done]. exfalso. destruct press as [[[x y] b] k].
    destruct (g_sent _ _ _ _ _ _ H) as [Hq _]. destruct (ok_queue m (g_ok _ _ _ _ _ _ H)) as [id Hid]; [by rewrite Hq|congruence].
Qed.

Lemma gesture_wait e base press click waits moves m :
  in_gesture base press click waits moves m -> (waits = true -> moves = []) -> attentive e ->
  in_gesture base press click false moves (do_motion m (Waited e)).
Proof.
  intros H Hw Ha. cbn [do_motion]. destruct (holdMouseEvent m) as [id|] eqn:Eh.
  - rewrite fire_hold; [|apply H|done]. unfold executeMouseEvents.
    pose proof (gesture_flush e _ _ _ _ _ _ H Ha Hw) as Hf. by rewrite Eh in Hf.
  - destruct waits; [|done]. exfalso. destruct press as [[[x y] b] k].
    destruct (g_sent _ _ _ _ _ _ H) as [Hq _]. destruct (ok_queue m (g_ok _ _ _ _ _ _ H)) as [id Hid]; [by rewrite Hq|congruence].
Qed.

(** The message of the timer for resting comes before the press, or between it and the first
    movement. *)
Lemma gesture_rest e base press click waits moves m :
  in_gesture base press click waits moves m -> attentive e ->
  in_gesture (if waits then base ++ hover_texts m else base) press click waits
    (if waits then moves else moves ++ hover_texts m) (do_motion m (Rested e)).
Proof.
  intros [H1 H2 H3 H4 H5 H6] Ha.
  destruct (rest_frame e m H1 H2 Ha) as (K1 & K2 & K3 & _ & K5 & _ & K7 & K8 & K9 & K10).
  split; rewrite ?K5, ?K7, ?K8, ?K9, ?K10; try done. destruct press as [[[x y] b] k]. rewrite K3.
  destruct waits; destruct H6 as [-> ->]; split; [done|done|done|]. by rewrite <- app_assoc.
Qed.


(** None, or those of [hs]. *)
Definition at_most (hs l : list string) : Prop := l = [] \/ l = hs.

Lemma at_most_nil l : at_most [] l -> l = [].
Proof. by intros [->| ->]. Qed.


Lemma gesture_motions xs : forall base press click waits moves m,
  in_gesture base press click waits moves m -> (waits = true -> moves = []) -> Forall (motion_ok false) xs ->
  exists waits' h1 h2,
    in_gesture (base ++ h1) press click waits' (moves ++ h2 ++ xs ≫= motion_texts) (foldl do_motion m xs) /\
    at_most (hover_texts m) (h1 ++ h2) /\ (waits = false -> waits' = false /\ h1 = []) /\
    (waits' = true -> h2 ++ (xs ≫= motion_texts) = []) /\
    (hover_texts (foldl do_motion m xs) = [] \/
     hover_texts (foldl do_motion m xs) = hover_texts m /\ h1 ++ h2 = [] /\ xs ≫= motion_texts = []).
Proof.
  induction xs as [|x xs IH]; intros base press click waits moves m H Hw Hxs.
  { exists waits, [], []. cbn. rewrite !app_nil_r. split_and!; [done|by left|done|done|by right]. }
  apply Forall_cons in Hxs as [Hx Hxs]. cbn [foldl mbind list_bind]. destruct x as [e ev|e|e]; cbn [motion_texts app] in *.
  - destruct Hx as (Ha & Hd & Ht). pose proof (hover_move e ev m (g_ok _ _ _ _ _ _ H) (g_ready _ _ _ _ _ _ H) (g_down _ _ _ _ _ _ H) Ha Ht) as Hn.
    destruct (IH _ _ _ _ _ _ (gesture_move _ _ _ _ _ _ _ _ H Hw Ha Hd Ht) ltac:(done) Hxs) as (w & h1 & h2 & K1 & K2 & K3 & K4 & K5).
    cbn [do_motion] in *. rewrite Hn in K2, K5. apply at_most_nil in K2. apply app_nil in K2 as [-> ->]. destruct (K3 eq_refl) as [-> _].
    exists false, [], []. rewrite <- app_assoc in K1. split_and!; [done|by left|done|done|]. left. by destruct K5 as [->|[-> _]].
  - pose proof (hover_wait e m (g_ok _ _ _ _ _ _ H)) as Hn.
    destruct (IH _ _ _ _ _ _ (gesture_wait e _ _ _ _ _ _ H Hw Hx) ltac:(done) Hxs) as (w & h1 & h2 & K1 & K2 & K3 & K4 & K5).
    rewrite Hn in K2, K5. destruct (K3 eq_refl) as [-> ->]. exists false, [], h2. by split_and!.
  - destruct (rest_frame e m (g_ok _ _ _ _ _ _ H) (g_ready _ _ _ _ _ _ H) Hx) as (_ & _ & _ & Hn & _).
    assert (Hw' : waits = true -> (if waits then moves else moves ++ hover_texts m) = []) by by destruct waits; auto.
    destruct (IH _ _ _ _ _ _ (gesture_rest e _ _ _ _ _ _ H Hx) Hw' Hxs) as (w & h1 & h2 & K1 & K2 & K3 & K4 & K5).
    rewrite Hn in K2, K5. apply at_most_nil in K2. apply app_nil in K2 as [-> ->]. cbn [app] in *. rewrite ?app_nil_r in K1.
    assert (K6 : hover_texts (foldl do_motion (do_motion m (Rested e)) xs) = []) by by destruct K5 as [->|[-> _]].
    destruct waits.
    + exists w, (hover_texts m), []. rewrite app_nil_r. split_and!; [done|by right|done|done|by left].
    + destruct (K3 eq_refl) as [-> _]. exists false, [], (hover_texts m). rewrite app_nil_r, <- app_assoc in *. split_and!; [done|by right|done|done|by left].
Qed.



(** ** Properties *)

(** Whatever the mouse, the timers and the rest of the program do, at most the
    queue's timer and the one for resting are under way, and what waits in the queue
    waits for a timer: no click is forgotten. *)
Theorem mouse_invariant c m : rtc mouse_step (new_mouse c) m -> mouse_ok m.
Proof.
  intros H. assert (H0 : mouse_ok (new_mouse c)).
  { split; cbn; try done; [intros id t Hin; by apply not_elem_of_nil in Hin|constructor]. }
  revert H0. induction H as [|m1 m2 m3 Hs _ IH]; [done|]. intros H1. apply IH. by eapply mouse_step_ok.
Qed.


Lemma gesture_repeated e ev base press click waits moves m :
  in_gesture base press click waits moves m ->
  attentive e -> dragging e = false -> m_type ev = MouseUp -> is_repeated e m = true ->
  (press.1.2 <> LO_right \/ (modifier_buttons e ev).1 <> 0) ->
  let m' := onMouseEvent e ev m in
  mouse_ok m' /\ ready (session_of m') /\ mouseEventsQueue m' = [] /\ holdMouseEvent m' = None /\ sent m' = sent m /\
  clickCount m' = num_add (clickCount m) (Some 1).
Proof.
  intros H Ha Hd Ht Hrep Hright. cbv zeta.
  destruct (onMouseEvent_attentive e ev m Ha (proj1 (g_ready _ _ _ _ _ _ H)) (or_intror (or_introl Ht))) as (m1 & Ec & Es & ->).
  assert (Hrep1 : is_repeated e m1 = true /\ clickCount m1 = clickCount m).
  { apply control_inv in Ec as (_ & _ & _ & _ & _ & _ & E7 & E8 & _). unfold is_repeated in *. by rewrite E7. }
  destruct Hrep1 as [Hrep1 <-]. rewrite <- (sent_session _ _ Es).
  apply (in_gesture_control _ _ _ _ _ _ m1 Ec Es) in H. clear dependent m.
  unfold dispatch. rewrite Ht. pose proof (mouse_ok_mouseup e ev (modifier_buttons e ev).1 (modifier_buttons e ev).2 m1 (g_ok _ _ _ _ _ _ H)) as Hok.
  revert Hok. unfold on_mouseup. cbv zeta. rewrite Hd. cbn [andb].
  change (buttonDown (set_down false m1)) with (buttonDown m1). rewrite (g_button _ _ _ _ _ _ H).
  assert (Er : num_eqb (Some press.1.2) (Some LO_right) && ((modifier_buttons e ev).1 =? 0) = false).
  { apply andb_false_iff. destruct Hright; [left|right]; by apply Z.eqb_neq. }
  rewrite Er. destruct H as [G1 G2 G3 G4 G5 G6]. set (m2 := set_hold None _).
  destruct (clear_frame (holdMouseEvent (set_down false m1)) (set_down false m1)) as (Eq & _ & _ & _ & Ed & Eb & Et & En & Es).
  assert (M2 : session_of m2 = session_of m1 /\ clickCount m2 = clickCount m1 /\ clickTime m2 = clickTime m1 /\
    holdMouseEvent m2 = None) by exact (conj Es (conj En (conj Et eq_refl))).
  clearbody m2. destruct M2 as (M1 & M2 & M3 & M4).
  assert (Hrep2 : is_repeated e m2 = true) by (unfold is_repeated in *; by rewrite M3).
  rewrite Hrep2. intros Hok. split_and!; [exact Hok| |done|exact M4|by apply sent_session|].
  - cbn. by rewrite M1.
  - cbn. by rewrite M2.
Qed.

(** The second click of a double click is not sent as a click: the server gets the
    double click alone, press and release, when the browser reports it. *)
Theorem double_click m e1 ev1 e2 ev2 e3 ev3 :
  mouse_ok m -> ready (session_of m) -> mouseEventsQueue m = [] ->
  attentive e1 -> m_type ev1 = MouseDown ->
  attentive e2 -> dragging e2 = false -> m_type ev2 = MouseUp -> is_repeated e2 m = true ->
  ((modifier_buttons e1 ev1).2 <> LO_right \/ (modifier_buttons e2 ev2).1 <> 0) ->
  attentive e3 -> m_type ev3 = DblClick ->
  let '(k, b) := modifier_buttons e3 ev3 in
  sent (onMouseEvent e3 ev3 (onMouseEvent e2 ev2 (onMouseEvent e1 ev1 m))) =
    sent m ++ [mouse_text "buttondown" (m_x ev3) (m_y ev3) 2 b k; mouse_text "buttonup" (m_x ev3) (m_y ev3) 2 b k].
Proof.
  intros H Hr Hq Ha1 Ht1 Ha2 Hd2 Ht2 Hrep Hright (A1 & A2 & A3 & A4 & A5 & A6) Ht3.
  pose proof (gesture_press e1 ev1 m H Hr Hq Ha1 Ht1) as H1. set (m1 := onMouseEvent e1 ev1 m) in *.
  assert (Hrep1 : is_repeated e2 m1 = true).
  { destruct H1 as [_ _ _ _ G5 _]. injection G5 as G5 _. unfold is_repeated in *. by rewrite G5. }
  destruct (gesture_repeated e2 ev2 _ _ _ _ _ m1 H1 Ha2 Hd2 Ht2 Hrep1 Hright) as (_ & K2 & _ & _ & K5 & _).
  assert (Hs1 : sent m1 = sent m) by (destruct H1 as [_ _ _ _ _ G6]; by destruct G6).
  rewrite Hs1 in K5. rewrite <- K5. revert K2. generalize (onMouseEvent e2 ev2 m1) as m2. clear - A1 A2 A3 A4 A5 A6 Ht3.
  intros m2 K2. unfold onMouseEvent, ignored. cbn [session_of log]. rewrite (proj1 K2), A1, A2, A3, A5, A4. cbn [orb negb].
  set (m3 := track_graphic e3 ev3 (log [NotifyActive] m2)).
  assert (Es : session_of m3 = session_of m2) by exact (proj2 (track_graphic_frame e3 ev3 (log [NotifyActive] m2))). clearbody m3.
  destruct (modifier_buttons e3 ev3) as [k b]. rewrite Ht3. cbn [click_type default].
  rewrite <- Es in K2. destruct (post_ready e3 "buttondown" (m_x ev3) (m_y ev3) 2 b k m3 K2 A6) as [R1 S1].
  destruct (post_ready e3 "buttonup" (m_x ev3) (m_y ev3) 2 b k _ R1 A6) as [_ S2].
  rewrite S1, (sent_session _ _ Es) in S2. by rewrite <- app_assoc in S2.
Qed.

(** *** Panning *)

Definition panning (base : list string) (m : mouse) : Prop :=
  mouse_ok m /\ ready (session_of m) /\ mouseDown m = true /\ mouseEventsQueue m = [] /\ holdMouseEvent m = None /\ sent m = base /\
  hover_texts m = [].

Lemma pan_first e ev base press click moves m :
  in_gesture base press click true moves m -> motion_ok true (Moved e ev) -> panning base (onMouseEvent e ev m).
Proof.
  intros H (Ha & Hd & Ht). pose proof (hover_move e ev m (g_ok _ _ _ _ _ _ H) (g_ready _ _ _ _ _ _ H) (g_down _ _ _ _ _ _ H) Ha Ht) as Hh.
  cut (mouse_ok (onMouseEvent e ev m) /\ ready (session_of (onMouseEvent e ev m)) /\ mouseDown (onMouseEvent e ev m) = true /\
    mouseEventsQueue (onMouseEvent e ev m) = [] /\ holdMouseEvent (onMouseEvent e ev m) = None /\ sent (onMouseEvent e ev m) = base);
    [unfold panning; tauto|]. clear Hh.
  destruct (onMouseEvent_attentive e ev m Ha (proj1 (g_ready _ _ _ _ _ _ H)) (or_intror (or_intror Ht))) as (m1 & Ec & Es & ->).
  apply (in_gesture_control _ _ _ _ _ _ m1 Ec Es) in H. clear dependent m. unfold dispatch. rewrite Ht.
  unfold on_mousemove. rewrite (g_down _ _ _ _ _ _ H). cbv zeta.
  pose proof (mouse_ok_hover m1 (g_ok _ _ _ _ _ _ H)) as H1.
  destruct (clear_frame (mouseOverTimeout m1) m1) as (Eq & _ & _ & _ & Ed & _ & _ & _ & Es).
  destruct H as [G1 G2 G3 G4 G5 G6]. destruct press as [[[x y] b] k]. destruct G6 as [Gq Gs].
  rewrite <- (sent_session _ _ Es) in Gs. rewrite <- Es in G2. rewrite <- Ed in G3.
  assert (Hne : mouseEventsQueue (clear (mouseOverTimeout m1) m1) <> []) by (rewrite Eq, Gq; done).
  revert H1 G2 G3 Gs Hne. generalize (clear (mouseOverTimeout m1) m1) as m. clear - Hd. intros m H1 G2 G3 Gs Hne.
  destruct (ok_queue m H1 Hne) as [id Hid]. rewrite Hid, Hd. pose proof (mouse_ok_cleared m H1) as Hc. rewrite Hid in Hc.
  split_and!; done.
Qed.

Lemma pan_more x base m : panning base m -> motion_ok true x -> panning base (do_motion m x).
Proof.
  intros (H1 & H2 & H3 & H4 & H5 & H6 & H7) Hx. destruct x as [e ev|e|e]; [|by cbn [do_motion]; rewrite H5|].
  2: { destruct (rest_frame e m H1 H2 Hx) as (K1 & K2 & K3 & K4 & K5 & K6 & K7 & _). unfold panning.
       by rewrite K3, K4, K5, K6, K7, H3, H4, H5, H6, H7, app_nil_r. }
  destruct Hx as (Ha & Hd & Ht). cbn [do_motion]. pose proof (hover_move e ev m H1 H2 H3 Ha Ht) as Hh.
  cut (mouse_ok (onMouseEvent e ev m) /\ ready (session_of (onMouseEvent e ev m)) /\ mouseDown (onMouseEvent e ev m) = true /\
    mouseEventsQueue (onMouseEvent e ev m) = [] /\ holdMouseEvent (onMouseEvent e ev m) = None /\ sent (onMouseEvent e ev m) = base);
    [unfold panning; tauto|]. clear Hh H7.
  destruct (onMouseEvent_attentive e ev m Ha (proj1 H2) (or_intror (or_intror Ht))) as (m1 & Ec & Es & ->).
  apply (mouse_ok_control _ _ Ec) in H1. apply control_inv in Ec as (E1 & E2 & _ & _ & E5 & _).
  rewrite <- Es in H2. rewrite <- E5 in H3. rewrite <- E1 in H4. rewrite <- E2 in H5. rewrite <- (sent_session _ _ Es) in H6.
  clear dependent m. unfold dispatch. rewrite Ht. unfold on_mousemove. rewrite H3. cbv zeta.
  destruct (clear_frame (mouseOverTimeout m1) m1) as (Eq & Eh & _ & _ & Ed & _ & _ & _ & Es).
  rewrite Eh, H5, Hd. split_and!; [by apply mouse_ok_hover|by rewrite Es|by rewrite Ed|by rewrite Eq|by rewrite Eh|].
  by rewrite (sent_session _ _ Es).
Qed.

(** Dragging the document around, where that is enabled, tells the server nothing
    of the mouse: the press that waited is dropped, and the release is not sent. *)
Theorem panning_is_silent m e1 ev1 e2 ev2 xs e3 ev3 e4 :
  mouse_ok m -> ready (session_of m) -> mouseEventsQueue m = [] ->
  attentive e1 -> m_type ev1 = MouseDown -> motion_ok true (Moved e2 ev2) -> Forall (motion_ok true) xs ->
  attentive e3 -> dragging e3 = true -> m_type ev3 = MouseUp ->
  let m' := do_motion (onMouseEvent e3 ev3 (foldl do_motion (onMouseEvent e2 ev2 (onMouseEvent e1 ev1 m)) xs)) (Waited e4) in
  sent m' = sent m /\ mouseEventsQueue m' = [] /\ mouseDown m' = false.
Proof.
  intros H Hr Hq Ha1 Ht1 Hm Hxs Ha3 Hd3 Ht3. cbv zeta.
  pose proof (pan_first e2 ev2 _ _ _ _ _ (gesture_press e1 ev1 m H Hr Hq Ha1 Ht1) Hm) as Hp.
  assert (Hall : forall l m1, panning (sent m) m1 -> Forall (motion_ok true) l -> panning (sent m) (foldl do_motion m1 l)).
  { induction l as [|x l IH]; intros m1 Hm1 Hl; [done|]. apply Forall_cons in Hl as [Hx Hl]. cbn. apply IH; [by apply pan_more|done]. }
  specialize (Hall xs _ Hp Hxs). revert Hall. generalize (foldl do_motion (onMouseEvent e2 ev2 (onMouseEvent e1 ev1 m)) xs) as m1.
  generalize (sent m) as base. clear - Ha3 Hd3 Ht3. intros base m (H1 & H2 & H3 & H4 & H5 & H6 & _).
  destruct (onMouseEvent_attentive e3 ev3 m Ha3 (proj1 H2) (or_intror (or_introl Ht3))) as (m1 & Ec & Es & ->).
  apply control_inv in Ec as (E1 & E2 & _). unfold dispatch, on_mouseup. rewrite Ht3, Hd3. cbn [mouseEventsQueue set_down].
  rewrite E1, H4. cbn [andb length Nat.eqb]. unfold do_motion. cbn [holdMouseEvent set_down]. rewrite E2, H5.
  split_and!; [|by cbn; rewrite E1|done]. rewrite <- H6. by apply sent_session.
Qed.

(** Whenever a mouse event reaches the server, the server knows the zoom and the
    visible area of the client at that moment. *)
Theorem click_in_view geometry e type x y n b k m :
  Forall plain geometry -> rtc (session_step geometry) new_session (session_of m) ->
  ready (session_of m) -> inputBarFocus e && String.eqb type "move" = false ->
  server_view (wire (sock (session_of (postMouseEvent e type x y n b k m)))) =
    (Some ("clientzoom " +:+ zoom_text (zoom_now e)), Some (area_text (area_now e))).
Proof.
  intros Hg Hc Hr Hi. pose proof (session_reachable_ok geometry Hg _ Hc) as Hok.
  pose proof (view_told (zoom_now e) false (area_now e) false _ Hok (proj1 Hr) (proj1 (proj2 Hr)) (proj2 (proj2 Hr))) as Hv.
  destruct (ready_area (area_now e) _ (proj1 (ready_zoom (zoom_now e) _ Hr))) as [H2 _].
  destruct (ready_send (Text (mouse_text type x y n b k)) _ H2) as [H3 E3].
  assert (Hp : server_view (wire (sock (post_messages e type x y n b k (session_of m)))) =
    (Some ("clientzoom " +:+ zoom_text (zoom_now e)), Some (area_text (area_now e)))).
  { unfold post_messages. cbv zeta. set (c3 := send (Text (mouse_text type x y n b k)) _) in *.
    assert (E4 : server_view (wire (sock c3)) =
      (Some ("clientzoom " +:+ zoom_text (zoom_now e)), Some (area_text (area_now e)))).
    { rewrite E3, server_view_app, Hv. done. }
    case_match; [|done]. rewrite (proj2 (ready_send _ c3 H3)), server_view_app, E4. done. }
  unfold postMouseEvent. rewrite (proj1 (proj2 Hr)), Hi. cbn [negb]. repeat case_match; exact Hp.
Qed.

(** *** Examples *)

Definition sample_surroundings (t : Z) (drag : bool) : surroundings :=
  Surroundings t true false false None false 0 drag false false false false false sample_zoom sample_area.
Definition sample_event (t : mouse_type) (x : Z) : mouse_event := MouseEvent t x 50 false false false false 0.
Definition sample_mouse (click : option Z) : mouse := set_click click (Some 1) (new_mouse loaded_session).

Lemma sample_mouse_ok click : mouse_ok (sample_mouse click).
Proof. split; cbn; try done; [intros id t Hin; by apply not_elem_of_nil in Hin|constructor]. Qed.
Lemma sample_ready click : ready (session_of (sample_mouse click)).
Proof. by repeat split. Qed.
Lemma sample_attentive t drag : attentive (sample_surroundings t drag).
Proof. by repeat split. Qed.

Lemma mouse_invariant_witness : mouse_ok (onMouseEvent (sample_surroundings 1000 false) (sample_event MouseDown 10) (new_mouse loaded_session)).
Proof. apply (mouse_invariant loaded_session). apply rtc_once, step_event. Defined.

(** The mouse moved before the press, and rests while the button is down. *)
Definition sample_hover : mouse := onMouseEvent (sample_surroundings 950 false) (sample_event MouseMove 5) (sample_mouse None).


Example rest_within_gesture :
  hover_texts sample_hover = ["mouse type=move x=5 y=50 count=1 buttons=0 modifier=0"] /\
  sent (foldl do_motion (onMouseEvent (sample_surroundings 1000 false) (sample_event MouseDown 10) sample_hover)
    [Waited (sample_surroundings 1050 false); Rested (sample_surroundings 1060 false);
     Moved (sample_surroundings 1100 false) (sample_event MouseMove 20); Rested (sample_surroundings 1200 false)]) =
  ["mouse type=buttondown x=10 y=50 count=1 buttons=1 modifier=0"; "mouse type=move x=5 y=50 count=1 buttons=0 modifier=0";
   "mouse type=move x=20 y=50 count=1 buttons=1 modifier=0"].
Proof. vm_compute. done. Qed.


Lemma double_click_witness :
  sent (onMouseEvent (sample_surroundings 1210 false) (sample_event DblClick 10)
    (onMouseEvent (sample_surroundings 1200 false) (sample_event MouseUp 10)
      (onMouseEvent (sample_surroundings 1100 false) (sample_event MouseDown 10) (sample_mouse (Some 1000))))) =
  ["mouse type=buttondown x=10 y=50 count=2 buttons=1 modifier=0"; "mouse type=buttonup x=10 y=50 count=2 buttons=1 modifier=0"].
Proof.
  refine (double_click (sample_mouse (Some 1000)) (sample_surroundings 1100 false) (sample_event MouseDown 10)
    (sample_surroundings 1200 false) (sample_event MouseUp 10) (sample_surroundings 1210 false) (sample_event DblClick 10)
    (sample_mouse_ok _) (sample_ready _) eq_refl (sample_attentive _ _) eq_refl (sample_attentive _ _) eq_refl eq_refl eq_refl
    (or_introl _) (sample_attentive _ _) eq_refl).
  discriminate.
Defined.

Lemma panning_is_silent_witness :
  sent (do_motion (onMouseEvent (sample_surroundings 1400 true) (sample_event MouseUp 30)
    (foldl do_motion (onMouseEvent (sample_surroundings 1100 true) (sample_event MouseMove 20)
      (onMouseEvent (sample_surroundings 1000 true) (sample_event MouseDown 10) (sample_mouse None))) []))
    (Waited (sample_surroundings 1401 true))) = [].
Proof.
  refine (proj1 (panning_is_silent (sample_mouse None) (sample_surroundings 1000 true) (sample_event MouseDown 10)
    (sample_surroundings 1100 true) (sample_event MouseMove 20) [] (sample_surroundings 1400 true) (sample_event MouseUp 30)
    (sample_surroundings 1401 true) (sample_mouse_ok _) (sample_ready _) eq_refl (sample_attentive _ _) eq_refl
    (conj (sample_attentive _ _) (conj eq_refl eq_refl)) (Forall_nil_2 _) (sample_attentive _ _) eq_refl eq_refl)).
Defined.

Lemma click_in_view_witness :
  server_view (wire (sock (session_of (postMouseEvent (sample_surroundings 1000 false) "move" 1 2 1 1 0 (sample_mouse None))))) =
    (Some ("clientzoom " +:+ zoom_text sample_zoom), Some (area_text sample_area)).
Proof.
  apply (click_in_view []); [constructor|exact loaded_session_reachable|exact (sample_ready None)|reflexivity].
Defined.

(** ** Findings *)

(** A drag that ends within a quarter of a second after a click: the server gets the
    press and the movements, and never the release, which is taken for the end of a
    double click. *)
Theorem quick_drag_not_released m e1 ev1 x xs e2 ev2 :
  mouse_ok m -> ready (session_of m) -> mouseEventsQueue m = [] ->
  attentive e1 -> m_type ev1 = MouseDown -> Forall (motion_ok false) (x :: xs) ->
  attentive e2 -> dragging e2 = false -> m_type ev2 = MouseUp -> is_repeated e2 m = true ->
  ((modifier_buttons e1 ev1).2 <> LO_right \/ (modifier_buttons e2 ev2).1 <> 0) ->
  hover_texts m = [] -> (x :: xs) ≫= motion_texts <> [] ->
  let m' := onMouseEvent e2 ev2 (foldl do_motion (onMouseEvent e1 ev1 m) (x :: xs)) in
  sent m' = sent m ++ [down_text e1 ev1] ++ ((x :: xs) ≫= motion_texts) /\
  mouseEventsQueue m' = [] /\ holdMouseEvent m' = None.
Proof.
  intros H Hr Hq Ha1 Ht1 Hxs Ha2 Hd2 Ht2 Hrep Hright Hh Hne. cbv zeta.
  pose proof (gesture_press e1 ev1 m H Hr Hq Ha1 Ht1) as H1.
  destruct (gesture_motions (x :: xs) _ _ _ _ _ _ H1 ltac:(done) Hxs) as (w & h1 & h2 & H2 & Hmost & _ & Hw & _).
  rewrite (hover_press e1 ev1 m H Hr Ha1 Ht1), Hh in Hmost. apply at_most_nil, app_nil in Hmost as [-> ->].
  assert (w = false) as -> by (destruct w; [by destruct (Hne (Hw eq_refl))|done]). cbn [app] in H2. rewrite app_nil_r in H2. clear H1. rename H2 into H1.
  set (m1 := foldl do_motion (onMouseEvent e1 ev1 m) (x :: xs)) in *.
  assert (Hrep1 : is_repeated e2 m1 = true).
  { destruct H1 as [_ _ _ _ G5 _]. injection G5 as G5 _. unfold is_repeated in *. by rewrite G5. }
  destruct (gesture_repeated e2 ev2 _ _ _ _ _ m1 H1 Ha2 Hd2 Ht2 Hrep1 Hright) as (_ & _ & K3 & K4 & K5 & _).
  split_and!; [|done|done]. rewrite K5. by destruct (g_sent _ _ _ _ _ _ H1).
Qed.

Lemma quick_drag_not_released_witness :
  sent (onMouseEvent (sample_surroundings 1200 false) (sample_event MouseUp 30)
    (foldl do_motion (onMouseEvent (sample_surroundings 1100 false) (sample_event MouseDown 10) (sample_mouse (Some 1000)))
      [Moved (sample_surroundings 1150 false) (sample_event MouseMove 20)])) =
  ["mouse type=buttondown x=10 y=50 count=1 buttons=1 modifier=0"; "mouse type=move x=20 y=50 count=1 buttons=1 modifier=0"].
Proof.
  refine (proj1 (quick_drag_not_released (sample_mouse (Some 1000)) (sample_surroundings 1100 false) (sample_event MouseDown 10)
    (Moved (sample_surroundings 1150 false) (sample_event MouseMove 20)) [] (sample_surroundings 1200 false) (sample_event MouseUp 30)
    (sample_mouse_ok _) (sample_ready _) eq_refl (sample_attentive _ _) eq_refl _ (sample_attentive _ _) eq_refl eq_refl eq_refl _ eq_refl _)).
  - apply Forall_cons. split; [split; [apply sample_attentive|done]|constructor].
  - left. discriminate.
  - discriminate.
Defined.

(** A button pressed again before the timer of the release fired: the release empties
    the queue while it is worked off, and the second press is lost, although the
    button is held down. *)
Theorem press_after_click_lost :
  let e := sample_surroundings 1000 false in
  let m := onMouseEvent e (sample_event MouseDown 20) (onMouseEvent e (sample_event MouseUp 10)
    (onMouseEvent e (sample_event MouseDown 10) (sample_mouse None))) in
  let m' := do_motion m (Waited e) in
  mouseEventsQueue m = [Press 10 50 1 0; Release 10 50 1 0; Press 20 50 1 0] /\
  sent m' = ["mouse type=buttondown x=10 y=50 count=1 buttons=1 modifier=0"; "mouse type=buttonup x=10 y=50 count=1 buttons=1 modifier=0"] /\
  mouseEventsQueue m' = [] /\ mouseDown m' = true.
Proof. vm_compute. repeat split. Qed.
