(* ===== verification/Keyboard.v ===== *)
(** * The keyboard: which keys become shortcuts, and which reach the document

    Models [L.Map.Keyboard] (src/browser/src/map/handler/Map.Keyboard.js), which sees
    the keys that are not text (typing is [TextInput]), and [postKeyboardEvent]
    (src/browser/src/layer/tile/CanvasTileLayer.js).  What the handlers look at is the
    record [scene]; what they do besides sending is a log.  Keys are the codes of the
    browser, sent keys those of the office ([UNOKey], src/browser/src/UNO/Key.js). *)

From S2P Require Import Prelude JsText SocketSend Session.
Local Open Scope Z_scope.

(** ** Codes *)

(** [keymap] without the entries that are [null]. *)
Definition keymap : list (Z * Z) :=
  [(8, 1283); (9, 1282); (13, 1280); (27, 1281); (32, 1284); (33, 1030); (34, 1031); (35, 1029); (36, 1028);
   (37, 1026); (38, 1025); (39, 1027); (40, 1024); (45, 1285); (46, 1286);
   (48, 256); (49, 257); (50, 258); (51, 259); (52, 260); (53, 261); (54, 262); (55, 263); (56, 264); (57, 265);
   (65, 512); (66, 513); (67, 514); (68, 515); (69, 516); (70, 517); (71, 518); (72, 519); (73, 520); (74, 521);
   (75, 522); (76, 523); (77, 524); (78, 525); (79, 526); (80, 527); (81, 528); (82, 529); (83, 530); (84, 531);
   (85, 532); (86, 533); (87, 534); (88, 535); (89, 536); (90, 537);
   (96, 256); (97, 257); (98, 258); (99, 259); (100, 260); (101, 261); (102, 262); (103, 263); (104, 264); (105, 265);
   (106, 1288); (107, 1287); (109, 1288); (110, 1309); (111, 1289);
   (112, 768); (113, 769); (114, 770); (115, 771); (116, 772); (117, 773); (118, 774); (119, 775); (120, 776);
   (121, 777); (122, 778); (123, 779); (144, 1313); (145, 1314); (173, 1288); (186, 1317); (187, 1295);
   (188, 1292); (189, 1288)].

Fixpoint assoc_key (k : Z) (l : list (Z * Z)) : option Z :=
  match l with [] => None | (k', v) :: l' => if k =? k' then Some v else assoc_key k l' end.

(** [_toUNOKeyCode] *)
Definition toUNOKeyCode (keyCode : Z) : Z := default keyCode (assoc_key keyCode keymap).

Definition handleOnKeyDownKeys : list Z := [9; 19; 20; 27; 33; 34; 35; 36; 37; 38; 39; 40; 45; 113].

Definition mem (k : Z) (l : list Z) : bool := existsb (Z.eqb k) l.

(** [keyCodes] *)
Definition K_BACKSPACE := 8.
Definition K_TAB := 9.
Definition K_enter := 13.
Definition K_SHIFT := 16.
Definition K_CTRL := 17.
Definition K_SPACE := 32.
Definition K_pageUp := 33.
Definition K_pageDown := 34.
Definition K_END := 35.
Definition K_HOME := 36.
Definition K_LEFT := 37.
Definition K_UP := 38.
Definition K_RIGHT := 39.
Definition K_DOWN := 40.
Definition K_INSERT := 45.
Definition K_DELETE := 46.
Definition K_NUM0 := [48; 96].
Definition K_NUM3 := 51.
Definition K_NUM5 := 53.
Definition K_C := [67; 99].
Definition K_V := [86; 118].
Definition K_X := [88; 120].
Definition K_D := 68.
Definition K_F := 70.
Definition K_K := 75.
Definition K_L := 76.
Definition K_M := 77.
Definition K_N := 78.
Definition K_O := 79.
Definition K_P := 80.
Definition K_R := 82.
Definition K_S := 83.
Definition K_Y := 89.
Definition K_Z := 90.
Definition K_F1 := 112.
Definition K_F2 := 113.
Definition K_F3 := 114.
Definition K_F4 := 115.
Definition K_F5 := 116.
Definition K_F9 := 120.
Definition K_F12 := 123.
Definition K_COMMA := 188.
Definition K_PERIOD := 190.

(** [_panKeys] and [_zoomKeys], for offsets [pan] and [zoom]. *)
Definition panKeys (pan : Z) (k : Z) : option (Z * Z) :=
  if k =? K_LEFT then Some (- pan, 0) else if k =? K_RIGHT then Some (pan, 0)
  else if k =? K_DOWN then Some (0, pan) else if k =? K_UP then Some (0, - pan) else None.
Definition zoomKeys (zoom : Z) (k : Z) : option Z :=
  if mem k [187; 107; 61; 171] then Some zoom else if mem k [189; 109; 173] then Some (- zoom) else None.

Definition M_SHIFT : Z := 4096.
Definition M_CTRL : Z := 8192.
Definition M_ALT : Z := 16384.

(** ** Events and state *)

Inductive key_type := KeyDown | KeyUp | KeyPress.
#[export] Instance key_type_eq_dec : EqDecision key_type.
Proof. solve_decision. Defined.

Record key_event := KeyEvent {
  k_type : key_type;
  charCode : Z;
  keyCode : Z;
  k_shift : bool;
  k_ctrl : bool;
  k_alt : bool;
  k_meta : bool;
  location : Z;
  k_key : string
}.

Inductive doc_type := TextDoc | Spreadsheet | Presentation | Drawing.
#[export] Instance doc_type_eq_dec : EqDecision doc_type.
Proof. solve_decision. Defined.

Record scene := Scene {
  readOnlyMode : bool;
  editMode : bool;
  editForComments : bool;
  docType : doc_type;
  partsFocused : bool;
  inFullscreen : bool;
  german : bool;                      (** [app.UI.language.fromURL === 'de'] *)
  notebookbar : bool;                 (** the mode of the user interface *)
  notebookbarCollapsed : bool;
  insertMode : bool;
  cursorVisible : bool;
  slideMaster : bool;                 (** .uno:SlideMasterPage is on *)
  accessibleFocus : bool;             (** the text area has focus and accessibility support *)
  panInProgress : bool;
  textSelected : bool;
  fileBasedView : bool;
  nparts : Z;
  selectedPart : Z;
  followUser : bool;
  onMac : bool;
  iosApp : bool;
  mobileApp : bool;
  androidApp : bool;
  statusBarVisible : bool;
  hideSave : bool;
  saveDisabled : bool;
  userListShown : bool;               (** the popover is hidden and there are users *)
  prevCellCursor : bool;
  winId : Z;
  panOffset : Z;
  zoomOffset : Z;
  dialogHandles : bool;               (** a dialog is open and takes the key *)
  k_zoom : zoom_level;
  k_area : visible_area
}.

Inductive deed :=
  | PostKey (type : string) (char uno : Z)        (** [keyEventFn] is called *)
  | PreventDefault | StopPropagation | NotifyActive | ResetPreFetching
  | Uno (command : string) | PostMessage (id : string)
  | ShowHelp (page : string) | OpenSaveAs | StartShow (here : bool) | FocusTab | FocusAddress
  | InsertComment | PasteSpecial | ExtendBar | CollapseBar | HyperlinkDialog | ShowStatusBar | FocusSearch
  | ClickUserList | HideUserList | ClearReferences | SetPart (p : Z) | SwitchPart (next : bool) | DeletePart (p : Z)
  | ScrollPreview (next : bool) | ScrollToPart (p : Z) | CheckSelectedPart | ToggleDebug | FocusMap | Print | Save
  | ScrollBy (x y : Z) | ZoomBy (n : Z) | StopFollowing | UnfocusParts.

Record keyboard := Keyboard {
  modifier : Z;
  prevCtrlAltLocation : option Z;
  shiftKeyPressed : bool;
  cellCursorOnPgUp : bool;
  cellCursorOnPgDn : bool;
  wholeColumnSelected : bool;
  wholeRowSelected : bool;
  deeds : list deed;
  k_session : session
}.

Definition set_modifier x k := Keyboard x (prevCtrlAltLocation k) (shiftKeyPressed k) (cellCursorOnPgUp k) (cellCursorOnPgDn k) (wholeColumnSelected k) (wholeRowSelected k) (deeds k) (k_session k).
Definition set_prevLocation x k := Keyboard (modifier k) x (shiftKeyPressed k) (cellCursorOnPgUp k) (cellCursorOnPgDn k) (wholeColumnSelected k) (wholeRowSelected k) (deeds k) (k_session k).
Definition set_shiftPressed x k := Keyboard (modifier k) (prevCtrlAltLocation k) x (cellCursorOnPgUp k) (cellCursorOnPgDn k) (wholeColumnSelected k) (wholeRowSelected k) (deeds k) (k_session k).
Definition set_pages u d k := Keyboard (modifier k) (prevCtrlAltLocation k) (shiftKeyPressed k) u d (wholeColumnSelected k) (wholeRowSelected k) (deeds k) (k_session k).
Definition set_whole c r k := Keyboard (modifier k) (prevCtrlAltLocation k) (shiftKeyPressed k) (cellCursorOnPgUp k) (cellCursorOnPgDn k) c r (deeds k) (k_session k).
Definition does d k := Keyboard (modifier k) (prevCtrlAltLocation k) (shiftKeyPressed k) (cellCursorOnPgUp k) (cellCursorOnPgDn k) (wholeColumnSelected k) (wholeRowSelected k) (deeds k ++ d) (k_session k).
Definition set_ksession x k := Keyboard (modifier k) (prevCtrlAltLocation k) (shiftKeyPressed k) (cellCursorOnPgUp k) (cellCursorOnPgDn k) (wholeColumnSelected k) (wholeRowSelected k) (deeds k) x.

(** [app.socket.sendMessage] *)
Definition message (t : string) (k : keyboard) : keyboard := set_ksession (send (Text t) (k_session k)) k.

(** ** [postKeyboardEvent] *)

(** The shortcuts of a Mac. *)
Definition mac_key (uno : Z) : Z :=
  if uno =? 1025 + M_CTRL then 1028 + M_CTRL
  else if uno =? 1024 + M_CTRL then 1029 + M_CTRL
  else if uno =? 1026 + M_CTRL then 1028
  else if uno =? 1027 + M_CTRL then 1029
  else if uno =? 1026 + M_ALT then 1026 + M_CTRL
  else if uno =? 1027 + M_ALT then 1027 + M_CTRL
  else uno.

Definition key_text (win : Z) (type : string) (char uno : Z) : string :=
  (if win =? 0 then "key" else "windowkey id=" +:+ num_to_string win) +:+
  " type=" +:+ type +:+ " char=" +:+ num_to_string char +:+ " key=" +:+ num_to_string uno +:+ String (ascii_of_nat 10) "".

Definition send_key (s : scene) (type : string) (char uno : Z) (k : keyboard) : keyboard :=
  let c := sendClientVisibleArea (k_area s) false (sendClientZoom (k_zoom s) false (k_session k)) in
  set_ksession (send (Text (key_text (winId s) type char uno)) c) k.

Definition postKeyboardEvent (s : scene) (type : string) (char unoKeyCode : Z) (k : keyboard) : keyboard :=
  if negb (docLoaded (k_session k)) then k
  else
    let uno := if onMac s then mac_key unoKeyCode else unoKeyCode in
    if bool_decide (docType s = Spreadsheet) && prevCellCursor s && String.eqb type "input" && (winId s =? 0) then
      if uno =? 1030 then
        if cellCursorOnPgUp k then k else send_key s type char uno (set_pages true (cellCursorOnPgDn k) k)
      else if uno =? 1031 then
        if cellCursorOnPgDn k then k else send_key s type char uno (set_pages (cellCursorOnPgUp k) true k)
      else if uno =? 1284 + M_CTRL then send_key s type char uno (set_whole true (wholeRowSelected k) k)
      else if uno =? 1284 + M_SHIFT then send_key s type char uno (set_whole (wholeColumnSelected k) true k)
      else send_key s type char uno k
    else send_key s type char uno k.

(** [keyEventFn], which is [postKeyboardEvent]. *)
Definition post_key (s : scene) (type : string) (char uno : Z) (k : keyboard) : keyboard :=
  postKeyboardEvent s type char uno (does [PostKey type char uno] k).

(** ** Shortcuts with Control *)

(** [_isCtrlKey] *)
Definition isCtrlKey (s : scene) (ev : key_event) : bool := if iosApp s || onMac s then k_meta ev else k_ctrl ev.

(** Keys that the clipboard's events take care of. *)
Definition clipboard_key (kc : Z) : bool := mem kc K_C || mem kc K_V || mem kc K_X.

Definition is_text_or_sheet (s : scene) : bool := bool_decide (docType s = TextDoc) || bool_decide (docType s = Spreadsheet).

(** The switch for Control with Alt; [None]: the key is none of them. *)
Definition ctrl_alt (s : scene) (ev : key_event) (k : keyboard) : option (bool * keyboard) :=
  let kc := keyCode ev in
  if kc =? K_NUM5 then Some (true, message "uno .uno:Strikeout" k)
  else if kc =? K_F then Some (true, message "uno .uno:InsertFootnote" k)
  else if (kc =? 67) || (kc =? K_M) then Some (true, does [InsertComment] k)
  else if kc =? K_D then Some (true, message "uno .uno:InsertEndnote" k)
  else if kc =? K_P then
    Some (true, does [if userListShown s then ClickUserList else HideUserList; PreventDefault] k)
  else if (kc =? K_pageUp) || (kc =? K_pageDown) then
    if bool_decide (docType s = Spreadsheet) then
      let part :=
        if kc =? K_pageDown then if selectedPart s =? nparts s - 1 then 0 else selectedPart s + 1
        else if selectedPart s =? 0 then nparts s - 1 else selectedPart s - 1 in
      Some (false, does [ClearReferences; SetPart part] k)
    else None
  else None.

(** The last switch. *)
Definition ctrl_plain (s : scene) (ev : key_event) (k : keyboard) : bool * keyboard :=
  let kc := keyCode ev in
  if kc =? K_NUM3 then
    if bool_decide (docType s = Spreadsheet)
    then (true, message "commandvalues command=.uno:ViewRowColumnHeaders" (message "uno .uno:SetOptimalColumnWidthDirect" k))
    else (false, k)
  else if kc =? K_NUM5 then
    if bool_decide (docType s = Spreadsheet) then (true, message "uno .uno:Strikeout" k) else (false, k)
  else if mem kc K_C || mem kc K_X || (kc =? 91) || (kc =? 93) then (true, does [FocusMap] k)
  else if kc =? K_P then (true, does [Print] k)
  else if kc =? K_S then
    (true, if negb (readOnlyMode s) && negb (hideSave s)
           then does (PostMessage "UI_Save" :: if saveDisabled s then [] else [Save]) k else k)
  else if mem kc K_V then (true, k)
  else if kc =? K_F1 then (true, message "uno .uno:NoteVisible" k)
  else if kc =? K_COMMA then (true, message "uno .uno:SubScript" k)
  else if kc =? K_PERIOD then (true, message "uno .uno:SuperScript" k)
  else if bool_decide (k_type ev = KeyPress) && (k_ctrl ev || k_meta ev) && clipboard_key kc then (true, k)
  else (false, k).

(** [_handleCtrlCommand]; [true]: handled. *)
Definition handleCtrlCommand (s : scene) (ev : key_event) (k : keyboard) : bool * keyboard :=
  let kc := keyCode ev in
  let ctrl := isCtrlKey s ev in
  let keydown := bool_decide (k_type ev = KeyDown) in
  if uiBlocked (sock (k_session k)) then (false, k)
  else if kc =? K_CTRL then (true, k)
  else if negb keydown && negb (clipboard_key kc) then (true, does [PreventDefault] k)
  else
    let k := if clipboard_key kc then k else does [PreventDefault] k in
    if ctrl && k_alt ev && (kc =? K_N) then (true, does [PostMessage "UI_CreateFile"; PreventDefault] k)
    else if ctrl && k_shift ev && (kc =? K_L) && negb (is_text_or_sheet s)
    then (true, does [PreventDefault] (message "uno .uno:DefaultBullet" k))
    else if ctrl && k_alt ev && (kc =? K_O) then (true, does [PostMessage "UI_OpenDocument"; PreventDefault] k)
    else if ctrl && k_shift ev && String.eqb (k_key ev) "?"
    then (true, does [ShowHelp "keyboard-shortcuts-content"; PreventDefault] k)
    else if negb (mobileApp s) && k_ctrl ev && k_shift ev && k_alt ev && mem kc K_V then (true, does [PasteSpecial] k)
    else if ctrl && k_shift ev && mem kc K_V then (true, k)
    else if ctrl && (kc =? K_F1) then
      (true, if notebookbar s then does [if notebookbarCollapsed s then ExtendBar else CollapseBar] k else k)
    else if ctrl && negb (k_shift ev) && (kc =? K_K) then (true, does [HyperlinkDialog; PreventDefault] k)
    else if ctrl && (kc =? K_Z) then (true, does [PreventDefault] (message "uno .uno:Undo" k))
    else if ctrl && (kc =? K_Y) then (true, does [PreventDefault] (message "uno .uno:Redo" k))
    else if ctrl && negb (k_shift ev) && negb (k_alt ev) && (kc =? K_F) then
      (true, if german s && bool_decide (docType s = TextDoc) then does [Uno ".uno:Navigator"; PreventDefault] k
             else does ((if statusBarVisible s then [] else [ShowStatusBar]) ++ [FocusSearch; PreventDefault]) k)
    else if ctrl && negb (k_shift ev) && k_alt ev && (kc =? K_S) && german s && bool_decide (docType s = TextDoc)
    then (true, does [FocusSearch; PreventDefault] k)
    else if k_alt ev || k_shift ev then
      if (mem kc K_C || (kc =? K_R)) && k_alt ev then (true, does [InsertComment] k)
      else if negb (k_shift ev) then default (false, k) (ctrl_alt s ev k)
      else if k_alt ev && (kc =? K_D) then (false, does [ToggleDebug] k)
      else (false, k)
    else if keydown && mobileApp s && mem kc K_C then (true, message "uno .uno:Copy" k)
    else if keydown && mobileApp s && mem kc K_V then (true, message "uno .uno:Paste" k)
    else if keydown && mobileApp s && mem kc K_X then (true, message "uno .uno:Cut" k)
    else ctrl_plain s ev (if keydown && mobileApp s && androidApp s then does [PreventDefault] k else k).

(** ** [_handleKeyEvent] *)

(** [_ignoreKeyEvent] *)
Definition ignoreKeyEvent (ev : key_event) : bool :=
  k_shift ev && ((keyCode ev =? K_INSERT) || (keyCode ev =? K_DELETE)).

Definition modifier_bits (shift ctrl alt cmd : bool) : Z :=
  Z.lor (Z.lor (Z.lor (if shift then M_SHIFT else 0) (if ctrl then M_CTRL else 0)) (if alt then M_ALT else 0))
        (if cmd then M_CTRL else 0).

(** The keys with a meaning of their own; [None]: go on. *)
Definition special_key (s : scene) (ev : key_event) (k : keyboard) : option keyboard :=
  let kc := keyCode ev in
  let plain := modifier k =? 0 in
  let german_shift := negb (k_alt ev) && k_shift ev && german s in
  if negb (bool_decide (k_type ev = KeyDown)) then None
  else if negb (k_alt ev) && plain && (kc =? K_F1) then Some (does [ShowHelp "online-help-content"; PreventDefault] k)
  else if negb (k_alt ev) && plain && (kc =? K_F12) && german s && negb (bool_decide (docType s = Drawing)) && notebookbar s
  then Some (does [OpenSaveAs; PreventDefault] k)
  else if german_shift && (kc =? K_F9) && bool_decide (docType s = Presentation)
  then Some (does [Uno ".uno:GridVisible"; PreventDefault] k)
  else if german_shift && (kc =? K_F3) && bool_decide (docType s = Presentation)
  then Some (does [Uno ".uno:ChangeCaseRotateCase"; PreventDefault] k)
  else if german_shift && (kc =? K_F5) && bool_decide (docType s = Presentation)
  then Some (does [StartShow true; PreventDefault] k)
  else if german_shift && (kc =? K_F3) && is_text_or_sheet s then
    Some (does [Uno (if bool_decide (docType s = TextDoc) then ".uno:ChangeCaseRotateCase" else ".uno:FunctionDialog"); PreventDefault] k)
  else if k_alt ev && (kc =? K_F1) then Some (does [FocusTab; PreventDefault] k)
  else if plain && (kc =? K_F2) && bool_decide (docType s = TextDoc) then Some (does [PreventDefault] k)
  else if german_shift && (kc =? K_F2) && bool_decide (docType s = Spreadsheet)
  then Some (does [InsertComment; PreventDefault] k)
  else if plain && (kc =? K_F4) && bool_decide (docType s = Spreadsheet) && german s && insertMode s
  then Some (does [Uno ".uno:ToggleRelative"; PreventDefault] k)
  else if plain && (kc =? K_F9) && bool_decide (docType s = Spreadsheet) && german s
  then Some (does [Uno ".uno:Calculate"; PreventDefault] k)
  else if kc =? K_F5 then
    Some (does (PreventDefault ::
      if bool_decide (docType s = Presentation) then [StartShow false]
      else if bool_decide (docType s = TextDoc) && plain && german s then [Uno ".uno:GoToPage"]
      else if bool_decide (docType s = Spreadsheet) && plain && german s then [FocusAddress] else []) k)
  else if k_alt ev && mem kc K_NUM0 then Some (does [PreventDefault] (message "uno .uno:FormatCellDialog" k))
  else None.

(** The end of [_handleKeyEvent]. *)
Definition key_end (s : scene) (k : keyboard) : keyboard :=
  does ((if followUser s then [StopFollowing] else []) ++ [StopPropagation]) k.

(** In the edit mode. *)
Definition edit_key (s : scene) (ev : key_event) (uno : Z) (k : keyboard) : keyboard :=
  let kc := keyCode ev in
  let cc := charCode ev in
  let down_key := mem kc handleOnKeyDownKeys in
  let k := does [ResetPreFetching] k in
  let tab kc k := key_end s (if kc =? K_TAB then does [PreventDefault] k else k) in
  if ignoreKeyEvent ev then tab kc k
  else
    match k_type ev with
    | KeyDown =>
        tab kc (if down_key && (cc =? 0) then
                  let k := post_key s "input" cc uno k in
                  if accessibleFocus s && ((kc =? K_LEFT) || (kc =? K_RIGHT)) then k else does [PreventDefault] k
                else k)
    | KeyPress =>
        if negb down_key || negb (cc =? 0) then
          if (kc =? K_BACKSPACE) || (kc =? K_DELETE) || (kc =? K_enter) then k
          else if (cc =? kc) && negb (cc =? K_enter) then tab 0 (post_key s "input" cc (toUNOKeyCode 0) k)
          else tab kc (post_key s "input" cc uno k)
        else tab kc k
    | KeyUp =>
        tab kc (if (down_key && (cc =? 0)) || negb (modifier k =? 0) || (uno =? 1280) then post_key s "up" cc uno k else k)
    end.

(** When the document is not edited. *)
Definition view_key (s : scene) (ev : key_event) (uno : Z) (k : keyboard) : keyboard :=
  let kc := keyCode ev in
  let keydown := bool_decide (k_type ev = KeyDown) in
  let plain := modifier k =? 0 in
  let slides := bool_decide (docType s = Presentation) || bool_decide (docType s = Drawing) in
  if plain && ((kc =? K_pageUp) || (kc =? K_pageDown)) && keydown then
    if slides then does (ScrollPreview (kc =? K_pageDown) :: if fileBasedView s then [CheckSelectedPart] else []) k else k
  else if plain && ((kc =? K_END) || (kc =? K_HOME)) && keydown then
    if bool_decide (docType s = Drawing) && fileBasedView s
    then does [ScrollToPart (if kc =? K_HOME then 0 else nparts s - 1); CheckSelectedPart] k else k
  else if keydown then
    match panKeys (panOffset s) kc with
    | Some (x, y) =>
        if negb (k_shift ev) then
          if panInProgress s then k else key_end s (does [ScrollBy x y] k)
        else if textSelected s then key_end s (post_key s "input" (charCode ev) uno k)
        else
          key_end s (match zoomKeys (zoomOffset s) kc with
                     | Some z => does [ZoomBy ((if k_shift ev then 3 else 1) * z)] k | None => k end)
    | None =>
        key_end s (match zoomKeys (zoomOffset s) kc with
                   | Some z => does [ZoomBy ((if k_shift ev then 3 else 1) * z)] k | None => k end)
    end
  else key_end s k.

(** From the special keys on. *)
Definition handle_key (s : scene) (ev : key_event) (shift : Z) (k : keyboard) : keyboard :=
  match special_key s ev k with
  | Some k => k
  | None =>
      let uno := toUNOKeyCode (keyCode ev) in
      let uno := if modifier k =? 0 then uno else Z.lor uno (modifier k) in
      if negb (modifier k =? 0) && negb (bool_decide (k_type ev = KeyUp)) &&
         (negb (modifier k =? shift) || ((keyCode ev =? K_SPACE) && negb (cursorVisible s)))
      then does [PreventDefault] (post_key s "input" (charCode ev) uno k)
      else if slideMaster s then does [PreventDefault] k
      else if editMode s then edit_key s ev uno k
      else view_key s ev uno k
  end.

(** AltGr is Control and Alt: [Some] leaves what is to be handled, with the bits of
    the modifiers; [None]: nothing more. *)
Definition alt_gr (ev : key_event) (ctrl alt : bool) (k : keyboard) : keyboard * option (bool * bool) :=
  if ctrl && alt then
    if bool_decide (k_type ev = KeyDown) && (location ev =? 2) then (set_prevLocation (Some 2) k, None)
    else
      let k := if location ev =? 1 then set_prevLocation None k else k in
      if num_eqb (prevCtrlAltLocation k) (Some 2) && (location ev =? 0) then
        if bool_decide (k_type ev = KeyPress) then (set_modifier 0 k, Some (false, false)) else (k, None)
      else (k, Some (ctrl, alt))
  else (k, Some (ctrl, alt)).

Definition handleKeyEvent (s : scene) (ev : key_event) (k : keyboard) : keyboard :=
  if uiBlocked (sock (k_session k)) then k
  else
    let k := does [NotifyActive] k in
    if inFullscreen s then k
    else
      let shift := if k_shift ev then M_SHIFT else 0 in
      let k := set_modifier (modifier_bits (k_shift ev) (k_ctrl ev) (k_alt ev) (k_meta ev)) k in
      if bool_decide (docType s = Spreadsheet) && k_ctrl ev && k_shift ev &&
         (String.eqb (k_key ev) "PageUp" || String.eqb (k_key ev) "PageDown") then k
      else
        match alt_gr ev (k_ctrl ev) (k_alt ev) k with
        | (k, None) => k
        | (k, Some (ctrl, alt)) =>
            let '(handled, k) := if ctrl || k_meta ev then handleCtrlCommand s ev k else (false, k) in
            if handled then k
            else
              let special := ((modifier k =? M_ALT) || (modifier k =? M_SHIFT + M_ALT)) && (48 <=? keyCode ev) in
              let k := if special then set_modifier (modifier k - (if alt then M_ALT else 0)) k else k in
              handle_key s ev shift k
        end.

(** ** The handlers of the browser's events *)

(** [readOnlyAllowedShortcuts] *)
Definition readOnlyAllowedShortcuts (s : scene) (ev : key_event) (k : keyboard) : bool :=
  let kc := keyCode ev in
  let keydown := bool_decide (k_type ev = KeyDown) in
  (isCtrlKey s ev && k_shift ev && String.eqb (k_key ev) "?") ||
  (keydown && negb (k_shift ev) && negb (k_ctrl ev) && negb (k_alt ev) && negb (k_meta ev) && (kc =? K_F1)) ||
  (mem kc K_C && k_alt ev && k_ctrl ev && editForComments s) ||
  (keydown && (kc =? K_F5) && bool_decide (docType s = Presentation)) ||
  ((modifier k =? 0) && ((kc =? K_pageUp) || (kc =? K_pageDown)) && keydown) ||
  ((modifier k =? 0) && ((kc =? K_END) || (kc =? K_HOME)) && keydown) ||
  (keydown && bool_decide (is_Some (panKeys (panOffset s) kc))).

(** [_onKeyDown] *)
Definition onKeyDown (s : scene) (ev : key_event) (k : keyboard) : keyboard :=
  if uiBlocked (sock (k_session k)) || (readOnlyMode s && negb (readOnlyAllowedShortcuts s ev k)) ||
     ((bool_decide (docType s = Presentation) || bool_decide (docType s = Drawing)) && partsFocused s)
  then k
  else
    let k := if charCode ev =? 0 then handleKeyEvent s ev k else k in
    if k_shift ev && bool_decide (k_type ev = KeyDown) then set_shiftPressed true k
    else if (keyCode ev =? K_SHIFT) && bool_decide (k_type ev = KeyUp) then set_shiftPressed false k
    else k.

(** [_globalKeyEvent] *)
Definition globalKeyEvent (s : scene) (ev : key_event) (k : keyboard) : keyboard :=
  let kc := keyCode ev in
  if uiBlocked (sock (k_session k)) then k
  else if dialogHandles s then does [PreventDefault] k
  else if (bool_decide (docType s = Presentation) || bool_decide (docType s = Drawing)) && partsFocused s then
    if (modifier k =? 0) && mem kc [K_DOWN; K_UP; K_RIGHT; K_LEFT; K_DELETE; K_BACKSPACE] && bool_decide (k_type ev = KeyDown) then
      if negb (mem kc [K_DELETE; K_BACKSPACE]) then
        does (SwitchPart (negb (mem kc [K_UP; K_LEFT])) :: (if fileBasedView s then [CheckSelectedPart] else []) ++ [PreventDefault]) k
      else does ((if editMode s && negb (fileBasedView s) then [DeletePart (selectedPart s)] else []) ++ [PreventDefault]) k
    else if k_ctrl ev then
      if negb (k_alt ev) && (kc =? K_HOME) then does [SetPart 0] k
      else if negb (k_alt ev) && (kc =? K_END) then does [SetPart (nparts s - 1)] k
      else k
    else does [UnfocusParts] k
  else k.

(** ** What is posted *)

(** From [k] to [k'] only keys with [P] were posted. *)
Definition posts (P : string -> Z -> Z -> Prop) (k k' : keyboard) : Prop :=
  exists ds, deeds k' = deeds k ++ ds /\ forall t c u, PostKey t c u ∈ ds -> P t c u.

(** Nothing was posted. *)
Abbreviation silent := (posts (fun _ _ _ => False)).

Lemma posts_refl P k : posts P k k.
Proof. exists []. split; [by rewrite app_nil_r|]. intros t c u Hin. by apply not_elem_of_nil in Hin. Qed.

Lemma posts_trans P k1 k2 k3 : posts P k1 k2 -> posts P k2 k3 -> posts P k1 k3.
Proof.
  intros (d1 & E1 & H1) (d2 & E2 & H2). exists (d1 ++ d2). rewrite E2, E1, app_assoc. split; [done|].
  intros t c u [Hin|Hin]%elem_of_app; auto.
Qed.

Lemma posts_weaken (P Q : string -> Z -> Z -> Prop) k k' : (forall t c u, P t c u -> Q t c u) -> posts P k k' -> posts Q k k'.
Proof. intros H (ds & E & Hd). exists ds. split; [done|]. intros t c u Hin. by apply H, Hd. Qed.

Lemma posts_same P k k1 k' : deeds k' = deeds k1 -> posts P k k1 -> posts P k k'.
Proof. intros E (ds & E1 & H). exists ds. by rewrite E. Qed.

Definition is_post (d : deed) : bool := match d with PostKey _ _ _ => true | _ => false end.

Lemma posts_does P d k k' : existsb is_post d = false -> posts P k k' -> posts P k (does d k').
Proof.
  intros Hd H. eapply posts_trans; [exact H|]. exists d. split; [done|]. intros t c u Hin. exfalso.
  assert (existsb is_post d = true); [|congruence]. apply existsb_exists. exists (PostKey t c u).
  split; [by apply list_elem_of_In|done].
Qed.

Lemma posts_message P t k k' : posts P k k' -> posts P k (message t k').
Proof. by apply posts_same. Qed.

Lemma deeds_postKeyboardEvent s t c u k : deeds (postKeyboardEvent s t c u k) = deeds k.
Proof. unfold postKeyboardEvent. cbv zeta. repeat case_match; done. Qed.

Lemma posts_post P s t c u k k' : P t c u -> posts P k k' -> posts P k (post_key s t c u k').
Proof.
  intros HP H. unfold post_key. eapply posts_same; [apply deeds_postKeyboardEvent|]. eapply posts_trans; [exact H|].
  exists [PostKey t c u]. split; [done|]. intros t' c' u' Hin. apply list_elem_of_singleton in Hin as [= -> -> ->]. done.
Qed.

Create HintDb posts.
#[local] Hint Resolve posts_refl posts_message : posts.
#[local] Hint Extern 2 (posts _ _ (does _ _)) => (apply posts_does; [done|]) : posts.
#[local] Hint Extern 3 (posts _ _ (set_modifier _ _)) => (apply (posts_same _ _ _ _ eq_refl)) : posts.
#[local] Hint Extern 3 (posts _ _ (set_prevLocation _ _)) => (apply (posts_same _ _ _ _ eq_refl)) : posts.
#[local] Hint Extern 3 (posts _ _ (set_shiftPressed _ _)) => (apply (posts_same _ _ _ _ eq_refl)) : posts.

(** Case analysis on the tests of a handler. *)
Ltac by_tests :=
  repeat match goal with
  | |- context [if ?b then _ else _] => destruct b
  end; auto with posts.

Lemma ctrl_alt_silent s ev k r : ctrl_alt s ev k = Some r -> silent k r.2.
Proof.
  unfold ctrl_alt. cbv zeta. intros E.
  repeat match type of E with context [if ?b then _ else _] => destruct b end;
    try discriminate E; injection E as <-; cbn [snd]; auto with posts.
Qed.

Lemma ctrl_plain_silent s ev k : silent k (ctrl_plain s ev k).2.
Proof.
  unfold ctrl_plain. cbv zeta.
  repeat match goal with |- context [(if ?b then _ else _).2] => destruct b; cbn [snd] end; auto with posts.
  - by_tests.
Qed.

Lemma handleCtrlCommand_silent s ev k : silent k (handleCtrlCommand s ev k).2.
Proof.
  unfold handleCtrlCommand. cbv zeta.
  destruct (uiBlocked _); [apply posts_refl|]. destruct (keyCode ev =? K_CTRL); [apply posts_refl|].
  destruct (_ && negb (clipboard_key _)); [cbn [snd]; auto with posts|].
  assert (H0 : silent k (if clipboard_key (keyCode ev) then k else does [PreventDefault] k)) by by_tests.
  revert H0. generalize (if clipboard_key (keyCode ev) then k else does [PreventDefault] k) as k1. intros k1 H0.
  apply (posts_trans _ _ _ _ H0). clear H0.
  repeat match goal with
  | |- posts _ _ ((if ?b then (true, _) else _).2) => destruct b; cbn [snd]
  end; try by by_tests; auto with posts.
  destruct (k_alt ev || k_shift ev).
  - destruct (_ && k_alt ev); [cbn [snd]; auto with posts|]. destruct (negb (k_shift ev)).
    + destruct (ctrl_alt s ev k1) as [r|] eqn:E; cbn [default snd id]; [by eapply ctrl_alt_silent|apply posts_refl].
    + destruct (_ && _); cbn [snd]; auto with posts.
  - repeat match goal with
    | |- posts _ _ ((if ?b then (true, _) else _).2) => destruct b; cbn [snd]; [auto with posts|]
    end.
    eapply posts_trans; [|apply ctrl_plain_silent]. by_tests.
Qed.

Lemma special_key_silent s ev k k' : special_key s ev k = Some k' -> silent k k'.
Proof.
  unfold special_key. cbv zeta. intros E.
  repeat match type of E with context [if ?b then _ else _] => destruct b end;
    try discriminate E; injection E as <-; auto with posts.
Qed.

Lemma view_key_posts s ev uno k :
  posts (fun t c u => t = "input" /\ is_Some (panKeys (panOffset s) (keyCode ev))) k (view_key s ev uno k).
Proof.
  unfold view_key, key_end. cbv zeta.
  destruct (panKeys (panOffset s) (keyCode ev)) as [[x y]|] eqn:E; by_tests;
    repeat case_match; auto with posts; apply posts_does; by_tests; try (apply posts_post; [by eauto|]); auto with posts.
Qed.

(** How [_handleKeyEvent] comes to the special keys: with the modifiers of AltGr
    taken away, without Control, or with a shortcut that is none. *)
Definition comes_through (s : scene) (ev : key_event) (k1 : keyboard) : Prop :=
  (k_type ev = KeyPress /\ modifier k1 = 0) \/
  (k_ctrl ev = false /\ k_meta ev = false /\ (k_shift ev = false -> k_alt ev = false -> modifier k1 = 0)) \/
  ((k_ctrl ev = true \/ k_meta ev = true) /\
   exists k2, uiBlocked (sock (k_session k2)) = false /\ (handleCtrlCommand s ev k2).1 = false).

Lemma alt_gr_spec ev ctrl alt k k1 r :
  alt_gr ev ctrl alt k = (k1, r) ->
  deeds k1 = deeds k /\ k_session k1 = k_session k /\
  match r with
  | None => True
  | Some (ctrl', alt') => (ctrl' = ctrl /\ alt' = alt /\ modifier k1 = modifier k) \/
      (k_type ev = KeyPress /\ ctrl' = false /\ alt' = false /\ modifier k1 = 0)
  end.
Proof.
  unfold alt_gr. destruct (ctrl && alt); [|intros [= <- <-]; split_and!; [done|done|by left]].
  destruct (_ && (location ev =? 2)); [intros [= <- <-]; done|]. cbv zeta.
  set (k0 := if location ev =? 1 then set_prevLocation None k else k).
  assert (H0 : deeds k0 = deeds k /\ k_session k0 = k_session k /\ modifier k0 = modifier k) by (unfold k0; by case_match).
  destruct H0 as (E1 & E2 & E3). clearbody k0. destruct (_ && (location ev =? 0)).
  - case_bool_decide; intros [= <- <-]; cbn; [|by rewrite E1, E2]. split_and!; [done|done|]. right. done.
  - intros [= <- <-]. split_and!; [done|done|]. left. done.
Qed.

Lemma handleKeyEvent_posts P s ev k :
  (forall k1, comes_through s ev k1 -> posts P k1 (handle_key s ev (if k_shift ev then M_SHIFT else 0) k1)) ->
  posts P k (handleKeyEvent s ev k).
Proof.
  intros Hk. assert (Hsil : forall k k0, silent k k0 -> posts P k k0).
  { intros k1 k2. apply posts_weaken. intros ? ? ? []. }
  unfold handleKeyEvent. destruct (uiBlocked (sock (k_session k))) eqn:Hb; [apply posts_refl|]. cbv zeta.
  destruct (inFullscreen s); [apply Hsil; auto with posts|].
  set (k1 := set_modifier _ (does [NotifyActive] k)).
  assert (H1 : silent k k1) by (apply (posts_same _ _ (does [NotifyActive] k)); [done|auto with posts]).
  apply (posts_trans _ _ k1); [by apply Hsil|].
  match goal with |- posts _ _ (if ?b then _ else _) => destruct b end; [apply posts_refl|].
  assert (Hs1 : k_session k1 = k_session k) by done.
  assert (Hm1 : modifier k1 = modifier_bits (k_shift ev) (k_ctrl ev) (k_alt ev) (k_meta ev)) by done.
  clearbody k1. destruct (alt_gr ev (k_ctrl ev) (k_alt ev) k1) as [k2 [[ctrl alt]|]] eqn:Eg.
  2: { destruct (alt_gr_spec _ _ _ _ _ _ Eg) as (E & _). by apply (posts_same _ _ k1); [|apply posts_refl]. }
  destruct (alt_gr_spec _ _ _ _ _ _ Eg) as (E & Es & Hcase).
  apply (posts_trans _ _ k2); [by apply (posts_same _ _ k1); [|apply posts_refl]|].
  assert (Hfin : forall k3 : keyboard, comes_through s ev k3 -> comes_through s ev
      (if ((modifier k3 =? M_ALT) || (modifier k3 =? M_SHIFT + M_ALT)) && (48 <=? keyCode ev)
       then set_modifier (modifier k3 - (if alt then M_ALT else 0)) k3 else k3) ->
    posts P k3 (handle_key s ev (if k_shift ev then M_SHIFT else 0)
      (if ((modifier k3 =? M_ALT) || (modifier k3 =? M_SHIFT + M_ALT)) && (48 <=? keyCode ev)
       then set_modifier (modifier k3 - (if alt then M_ALT else 0)) k3 else k3))).
  { intros k3 _ Hc. eapply posts_trans; [|by apply Hk]. case_match; [|apply posts_refl].
    apply (posts_same _ _ k3); [done|apply posts_refl]. }
  destruct (ctrl || k_meta ev) eqn:Ec.
  - destruct (handleCtrlCommand s ev k2) as [handled k3] eqn:Eh.
    pose proof (handleCtrlCommand_silent s ev k2) as Hs. rewrite Eh in Hs. cbn [snd] in Hs.
    destruct handled; [by apply Hsil|]. apply (posts_trans _ _ k3); [by apply Hsil|].
    assert (Hc : forall k4, comes_through s ev k4).
    { intros k4. right; right. split; [|by exists k2; rewrite Eh, Es, Hs1].
      apply orb_true_iff in Ec as [Ec|Ec]; [left|by right]. destruct Hcase as [(<- & _)|(_ & -> & _)]; done. }
    by apply Hfin.
  - apply orb_false_iff in Ec as [-> Hmeta].
    destruct Hcase as [(Hc & Ha & Hm)|(Hp & _ & -> & Hm)].
    + assert (Hct : forall k4, (k_shift ev = false -> k_alt ev = false -> modifier k4 = 0) -> comes_through s ev k4).
      { intros k4 H4. right; left. done. }
      assert (Hm0 : k_shift ev = false -> k_alt ev = false -> modifier k2 = 0).
      { intros E1 E2. rewrite Hm, Hm1, <- Hc, E1, E2, Hmeta. done. }
      apply Hfin; apply Hct; [done|]. intros E1 E2. rewrite (Hm0 E1 E2). cbn. by apply Hm0.
    + apply Hfin; left; [done|]. rewrite Hm. done.
Qed.

Lemma handle_key_view s ev shift k :
  editMode s = false -> posts (fun t _ _ => t = "input") k (handle_key s ev shift k).
Proof.
  intros He. unfold handle_key. destruct (special_key s ev k) as [k1|] eqn:E.
  { eapply posts_weaken; [|by eapply special_key_silent]. done. }
  cbv zeta. rewrite He.
  match goal with |- posts _ _ (if ?b then _ else _) => destruct b end.
  { apply posts_does; [done|]. apply posts_post; [done|apply posts_refl]. }
  destruct (slideMaster s); [auto with posts|]. eapply posts_weaken; [|apply view_key_posts]. naive_solver.
Qed.

Lemma handle_key_special s ev shift k : is_Some (special_key s ev k) -> silent k (handle_key s ev shift k).
Proof. intros [k1 E]. unfold handle_key. rewrite E. by eapply special_key_silent. Qed.

(** A press without modifiers outside the edit mode. *)
Lemma handle_key_press s ev shift k :
  editMode s = false -> k_type ev = KeyPress -> modifier k = 0 -> silent k (handle_key s ev shift k).
Proof.
  intros He Ht Hm. unfold handle_key. destruct (special_key s ev k) as [k1|] eqn:E; [by eapply special_key_silent|].
  cbv zeta. rewrite Hm, He. cbn [Z.eqb negb andb]. destruct (slideMaster s); [auto with posts|].
  unfold view_key, key_end. cbv zeta. rewrite Ht. rewrite bool_decide_false by done. rewrite !andb_false_r. by_tests.
Qed.

Lemma question_handled s ev k :
  uiBlocked (sock (k_session k)) = false -> isCtrlKey s ev = true -> k_shift ev = true -> k_key ev = "?" ->
  (handleCtrlCommand s ev k).1 = true.
Proof.
  intros Hb Hc Hs Hk. unfold handleCtrlCommand. cbv zeta. rewrite Hb, Hc, Hs, Hk. cbn [andb String.eqb Ascii.eqb Bool.eqb].
  repeat match goal with |- context [if ?b then (true, _) else _] => destruct b; [done|] end. done.
Qed.

Lemma comment_handled s ev k :
  uiBlocked (sock (k_session k)) = false -> mem (keyCode ev) K_C = true -> k_alt ev = true ->
  (handleCtrlCommand s ev k).1 = true.
Proof.
  intros Hb Hc Ha. unfold handleCtrlCommand. cbv zeta. rewrite Hb, Hc, Ha. cbn [orb andb].
  repeat match goal with |- context [if ?b then (true, _) else _] => destruct b; [done|] end. done.
Qed.

Lemma readOnlyAllowed_cases s ev k :
  readOnlyAllowedShortcuts s ev k = true ->
  (isCtrlKey s ev = true /\ k_shift ev = true /\ k_key ev = "?") \/
  (k_type ev = KeyDown /\ k_shift ev = false /\ k_ctrl ev = false /\ k_alt ev = false /\ k_meta ev = false /\ keyCode ev = K_F1) \/
  (mem (keyCode ev) K_C = true /\ k_alt ev = true /\ k_ctrl ev = true) \/
  (k_type ev = KeyDown /\ keyCode ev = K_F5) \/
  33 <= keyCode ev <= 40.
Proof.
  unfold readOnlyAllowedShortcuts. cbv zeta. intros H.
  repeat (apply orb_true_iff in H as [H|H]); to_prop; repeat match goal with
  | H : negb _ = true |- _ => apply negb_true_iff in H
  | H : bool_decide _ = true |- _ => apply bool_decide_eq_true in H
  | H : String.eqb _ _ = true |- _ => apply String.eqb_eq in H
  | H : _ || _ = true |- _ => apply orb_true_iff in H as [H|H]
  | H : (_ =? _) = true |- _ => apply Z.eqb_eq in H
  end; unfold K_pageUp, K_pageDown, K_END, K_HOME in *; try (by tauto); try (by right; right; right; right; lia).
  right; right; right; right. destruct H0 as [xy Hp]. unfold panKeys, K_LEFT, K_RIGHT, K_DOWN, K_UP in Hp.
  repeat match type of Hp with context [if ?b then _ else _] => destruct b eqn:? end; try done;
    match goal with H : (_ =? _) = true |- _ => apply Z.eqb_eq in H end; lia.
Qed.

Lemma onKeyDown_posts P s ev k :
  (uiBlocked (sock (k_session k)) = false -> (readOnlyMode s = true -> readOnlyAllowedShortcuts s ev k = true) ->
   posts P k (handleKeyEvent s ev k)) ->
  posts P k (onKeyDown s ev k).
Proof.
  intros H. unfold onKeyDown.
  destruct (uiBlocked (sock (k_session k))) eqn:Hb; [apply posts_refl|]. cbn [orb].
  destruct (readOnlyMode s && negb (readOnlyAllowedShortcuts s ev k)) eqn:Hr; [apply posts_refl|]. cbn [orb].
  match goal with |- posts _ _ (if ?b then _ else _) => destruct b end; [apply posts_refl|]. cbv zeta.
  assert (Hp : posts P k (if charCode ev =? 0 then handleKeyEvent s ev k else k)).
  { case_match; [|apply posts_refl]. apply H; [done|]. intros Hro. rewrite Hro in Hr. cbn in Hr. by apply negb_false_iff. }
  repeat match goal with |- posts _ _ (if ?b then set_shiftPressed _ _ else _) => destruct b end;
    try (eapply posts_same; [|exact Hp]); done.
Qed.

Lemma mem_C kc : mem kc K_C = true -> kc = 67 \/ kc = 99.
Proof. unfold mem, K_C. cbn. rewrite orb_false_r. intros [H|H]%orb_true_iff; apply Z.eqb_eq in H; auto. Qed.

(** ** Properties *)

(** C14: A document that may only be read gets no key that could change it: whatever is
    typed, all that reaches it are presses of the keys that move around - page up and
    down, home, end and the arrows. *)
Theorem readonly_posts_navigation s ev k :
  readOnlyMode s = true -> editMode s = false ->
  exists ds, deeds (onKeyDown s ev k) = deeds k ++ ds /\
    forall t c u, PostKey t c u ∈ ds -> t = "input" /\ 33 <= keyCode ev <= 40.
Proof.
  intros Hro He. apply onKeyDown_posts. intros Hb Hal. specialize (Hal Hro).
  apply handleKeyEvent_posts. intros k1 Hc.
  assert (Hsil : forall k0, silent k1 k0 -> posts (fun t _ _ => t = "input" /\ 33 <= keyCode ev <= 40) k1 k0).
  { intros k0. apply posts_weaken. intros ? ? ? []. }
  destruct (readOnlyAllowed_cases s ev k Hal) as [(Hctrl & Hs & Hq)|[(Ht & Hs & Hct & Ha & Hm & Hf)|[(HC & Ha & Hct)|[(Ht & Hf)|Hnav]]]].
  - destruct Hc as [(Ht & Hm)|[(Hct & Hm & _)|(_ & k2 & Hb2 & Hh)]].
    + by apply Hsil, handle_key_press.
    + unfold isCtrlKey in Hctrl. destruct (iosApp s || onMac s); congruence.
    + by rewrite question_handled in Hh.
  - destruct Hc as [(Ht' & _)|[(_ & _ & H0)|([Hct'|Hm'] & _)]]; [congruence| |congruence|congruence].
    apply Hsil, handle_key_special. unfold special_key. cbv zeta. rewrite Ht, Ha, Hf, (H0 Hs Ha). cbn. by eexists.
  - destruct Hc as [(Ht & Hm)|[(Hct' & _)|(_ & k2 & Hb2 & Hh)]]; [by apply Hsil, handle_key_press|congruence|].
    by rewrite comment_handled in Hh.
  - apply Hsil, handle_key_special. unfold special_key. cbv zeta. rewrite Ht, Hf, (Z.eqb_refl K_F5).
    rewrite bool_decide_true by done. cbn [negb].
    repeat match goal with |- is_Some (if ?b then Some _ else _) => destruct b; [by eexists|] end. by eexists.
  - eapply posts_weaken; [|by apply handle_key_view]. cbn. by intros t _ _ ->.
Qed.

(** The plain keys of [handleOnKeyDownKeys] have no meaning of their own. *)
Lemma special_key_plain s ev k :
  mem (keyCode ev) handleOnKeyDownKeys = true -> keyCode ev <> K_F2 ->
  k_alt ev = false -> k_shift ev = false -> special_key s ev k = None.
Proof.
  intros Hm Hf Ha Hs. unfold special_key. cbv zeta. rewrite Ha, Hs. cbn [negb andb].
  assert (E : (keyCode ev =? K_F1) = false /\ (keyCode ev =? K_F12) = false /\ (keyCode ev =? K_F2) = false /\
    (keyCode ev =? K_F4) = false /\ (keyCode ev =? K_F9) = false /\ (keyCode ev =? K_F5) = false).
  { unfold mem in Hm. apply existsb_exists in Hm as (x & Hin & Hx%Z.eqb_eq). rewrite Hx in *.
    rewrite <- list_elem_of_In in Hin. repeat (apply elem_of_cons in Hin as [->|Hin]; [by vm_compute|]). by apply elem_of_nil in Hin. }
  destruct E as (-> & -> & -> & -> & -> & ->). rewrite !andb_false_r. cbn [andb]. by destruct (negb _).
Qed.

(** While a text or a presentation is edited, every press of a key that is not text
    - arrows, home, end, page up and down, tab, escape, insert - reaches the document
    as the office's code of that key, exactly once, and after the view it refers to. *)
Theorem edit_keys_reach_document s ev k :
  uiBlocked (sock (k_session k)) = false -> docLoaded (k_session k) = true ->
  readOnlyMode s = false -> editMode s = true -> inFullscreen s = false -> slideMaster s = false ->
  docType s <> Spreadsheet -> partsFocused s = false -> onMac s = false ->
  k_type ev = KeyDown -> charCode ev = 0 -> mem (keyCode ev) handleOnKeyDownKeys = true -> keyCode ev <> K_F2 ->
  k_shift ev = false -> k_ctrl ev = false -> k_alt ev = false -> k_meta ev = false ->
  k_session (onKeyDown s ev k) =
  send (Text (key_text (winId s) "input" 0 (toUNOKeyCode (keyCode ev))))
       (sendClientVisibleArea (k_area s) false (sendClientZoom (k_zoom s) false (k_session k))).
Proof.
  intros Hb Hl Hro He Hfs Hsm Hd Hpf Hmac Ht Hc Hm Hf2 Hs Hct Ha Hme.
  unfold onKeyDown. rewrite Hb, Hro, Hpf, Hc, Hs. cbn [orb andb negb Z.eqb]. rewrite !andb_false_r.
  cbv zeta. rewrite Ht. rewrite (bool_decide_false (KeyDown = KeyUp)) by done. rewrite andb_false_r.
  unfold handleKeyEvent. rewrite Hb, Hfs. cbv zeta. rewrite Hct, Hs, Ha, Hme. cbn [andb orb]. rewrite !andb_false_r.
  cbn [andb alt_gr].
  unfold handle_key. set (k1 := set_modifier (modifier_bits _ _ _ _) _).
  assert (Hk1 : modifier k1 = 0 /\ k_session k1 = k_session k) by done. destruct Hk1 as [Hm1 Hs1]. clearbody k1.
  cbv match beta. cbn [orb]. rewrite Hm1. change ((0 =? M_ALT) || (0 =? M_SHIFT + M_ALT)) with false. cbn [andb].
  rewrite special_key_plain by done. cbv zeta. rewrite Hm1, Hsm, He. cbn [Z.eqb negb andb].
  unfold edit_key. cbv zeta. unfold ignoreKeyEvent. rewrite Hs, Ht, Hm, Hc. cbn [andb Z.eqb].
  match goal with |- k_session (key_end s (if _ then does _ ?x else ?x)) = _ => transitivity (k_session x) end; [by case_match|].
  match goal with |- k_session (if _ then ?x else does _ ?x) = _ => transitivity (k_session x) end; [by case_match|].
  unfold post_key, postKeyboardEvent. cbn [does k_session]. rewrite Hs1, Hl, Hmac. cbn [negb].
  rewrite bool_decide_false by done. cbn [andb]. unfold send_key. cbn [does set_ksession k_session]. by rewrite Hs1.
Qed.

(** ** Findings *)

(** [readOnlyAllowedShortcuts] looks at the modifiers of the last event handled instead of
    those of the event at hand.  Letting go of Control is not handled in a document that
    may only be read, so after Control with an arrow page down does nothing. *)
Lemma stale_modifier_blocks s ev k :
  readOnlyMode s = true -> modifier k <> 0 -> mem (keyCode ev) [K_pageUp; K_pageDown; K_END; K_HOME] = true ->
  k_shift ev = false -> onKeyDown s ev k = k.
Proof.
  intros Hro Hm Hkc Hs. unfold onKeyDown.
  assert (Hf : readOnlyAllowedShortcuts s ev k = false).
  { unfold readOnlyAllowedShortcuts. cbv zeta. rewrite Hs. rewrite (proj2 (Z.eqb_neq _ _) Hm).
    unfold mem in Hkc. apply existsb_exists in Hkc as (x & Hin & Hx%Z.eqb_eq). rewrite Hx in *.
    rewrite <- list_elem_of_In in Hin. repeat (apply elem_of_cons in Hin as [->|Hin]; [cbn; by rewrite ?andb_false_r|]).
    by apply elem_of_nil in Hin. }
  rewrite Hro, Hf. cbn [negb andb]. by rewrite orb_true_r.
Qed.

(** The codes of the small letters c, v and x, which the lists [C], [V] and [X] hold, are
    also those of the 3 of the number block, F7 and F9: with Control these are taken for
    copy, paste and cut and never reach the document. *)
Lemma control_f7_swallowed s ev k :
  keyCode ev = 118 -> k_ctrl ev = true -> k_shift ev = false -> k_alt ev = false ->
  onMac s = false -> iosApp s = false -> mobileApp s = false ->
  uiBlocked (sock (k_session k)) = false -> handleCtrlCommand s ev k = (true, k).
Proof.
  intros Hk Hc Hs Ha Hm Hi Hmo Hb. unfold handleCtrlCommand, isCtrlKey. cbv zeta.
  rewrite Hb, Hk, Hc, Hs, Ha, Hm, Hi, Hmo. cbn. rewrite !andb_false_r. unfold ctrl_plain. by rewrite Hk.
Qed.

(** ** Witnesses *)

Definition sample_scene (ro : bool) : scene :=
  Scene ro (negb ro) false TextDoc false false false false false true true false false false false false 1 0 false
    false false false false true false false false false 0 100 1 false sample_zoom sample_area.
Definition press (kc : Z) (ctrl : bool) : key_event := KeyEvent KeyDown 0 kc false ctrl false false 0 "".
Definition sample_keyboard : keyboard := Keyboard 0 None false false false false false [] loaded_session.

Lemma readonly_posts_navigation_witness :
  exists ds, deeds (onKeyDown (sample_scene true) (press K_RIGHT true) sample_keyboard) = [] ++ ds /\
    forall t c u, PostKey t c u ∈ ds -> t = "input" /\ 33 <= 39 <= 40.
Proof. apply (readonly_posts_navigation (sample_scene true) (press K_RIGHT true) sample_keyboard); reflexivity. Defined.

Lemma edit_keys_reach_document_witness :
  k_session (onKeyDown (sample_scene false) (press K_RIGHT false) sample_keyboard) =
  send (Text (key_text 0 "input" 0 1027))
       (sendClientVisibleArea sample_area false (sendClientZoom sample_zoom false loaded_session)).
Proof.
  apply (edit_keys_reach_document (sample_scene false) (press K_RIGHT false) sample_keyboard); try reflexivity; discriminate.
Defined.

(** Control with the right arrow is posted in a document that may only be read, and page
    down after it, pressed alone, is not handled. *)
Lemma page_down_after_control :
  let k := onKeyDown (sample_scene true) (press K_RIGHT true) sample_keyboard in
  PostKey "input" 0 (1027 + M_CTRL) ∈ deeds k /\
  onKeyDown (sample_scene true) (press K_pageDown false) k = k.
Proof.
  intros k. split; [vm_compute; by repeat constructor|].
  apply stale_modifier_blocks; [reflexivity|by vm_compute|reflexivity|reflexivity].
Qed.
