(* ===== verification/Events.v ===== *)
(** * Events: listeners, and what happens when they are fired

    Models [L.Evented] of src/browser/src/core/Events.js, which the map, the layers
    and the controls communicate with.  Listeners may add, remove and fire
    listeners while they are called, so the objects they share are kept in a store:
    the listener records (whose function a removal overwrites), the indexes of the
    listeners with a context, and the emitters.  What the functions do is a
    parameter.  Stamps ([L.stamp]) are the identities of functions and objects;
    the three keys [type], [type + '_idx'] and [type + '_len'] of an emitter's
    [_events] are three maps (no type ends in one of these suffixes).  [for ... in]
    visits the keys that were there when it started and are still there. *)

From S2P Require Import Prelude JsText.
Local Open Scope Z_scope.

(** ** Objects *)

Abbreviation oid := nat (only parsing).
Abbreviation ref := nat (only parsing).

(** A function of the program, or the handler an [once] makes. *)
Inductive fn :=
  | User (n : nat)
  | OnceHandler (n : nat) (o : oid) (types : string) (f : fn) (ctx : option oid).

(** [===] on functions *)
Fixpoint fn_eqb (f g : fn) : bool :=
  match f, g with
  | User n, User m => (n =? m)%nat
  | OnceHandler n o t f c, OnceHandler m o' t' f' c' =>
      (n =? m)%nat && (o =? o')%nat && String.eqb t t' && fn_eqb f f' &&
      match c, c' with Some x, Some y => (x =? y)%nat | None, None => true | _, _ => false end
  | _, _ => false
  end.

Lemma fn_eqb_spec f g : fn_eqb f g = true <-> f = g.
Proof.
  revert g. induction f as [n|n o t f IH c]; intros [m|m o' t' f' c']; cbn; try (split; [done|discriminate]).
  - rewrite Nat.eqb_eq. split; [by intros ->|by intros [= ->]].
  - rewrite !andb_true_iff, !Nat.eqb_eq, String.eqb_eq, IH. destruct c as [x|], c' as [y|]; rewrite ?Nat.eqb_eq; naive_solver.
Qed.

#[export] Instance fn_eq_dec : EqDecision fn.
Proof.
  intros f g. destruct (fn_eqb f g) eqn:E.
  - left. by apply fn_eqb_spec.
  - right. intros H%fn_eqb_spec. by rewrite H in E.
Defined.

(** A listener record: [None] is [L.Util.falseFn], which a removal puts there. *)
Record listener := Listener { l_fn : option fn; l_ctx : option oid }.

(** The key [stamp (fn) + '_' + contextId] of an index. *)
Abbreviation ikey := (fn * oid)%type (only parsing).

(** [_events] *)
Record events := Events {
  arrays : gmap string (list ref);
  idx : gmap string ref;             (** indexes by reference *)
  lens : gmap string Z
}.

(** [_eventParents] is enumerated by stamp. *)
Record emitter := Emitter { evs : option events; parents : list oid }.

Record world := World {
  emitters : gmap oid emitter;
  listeners : gmap ref listener;
  indexes : gmap ref (list (ikey * ref));
  next : ref
}.

Definition no_events : events := Events ∅ ∅ ∅.
Definition new_emitter : emitter := Emitter None [].

Definition emitter_of (o : oid) (w : world) : emitter := default new_emitter (emitters w !! o).
Definition events_of (o : oid) (w : world) : option events := evs (emitter_of o w).

Definition set_emitter (o : oid) (e : emitter) (w : world) : world :=
  World (<[o := e]> (emitters w)) (listeners w) (indexes w) (next w).
Definition set_events (o : oid) (e : option events) (w : world) : world :=
  set_emitter o (Emitter e (parents (emitter_of o w))) w.
Definition set_listener (r : ref) (l : listener) (w : world) : world :=
  World (emitters w) (<[r := l]> (listeners w)) (indexes w) (next w).
Definition set_index (i : ref) (l : list (ikey * ref)) (w : world) : world :=
  World (emitters w) (listeners w) (<[i := l]> (indexes w)) (next w).

(** A new listener record, a new index. *)
Definition new_listener (l : listener) (w : world) : ref * world :=
  (next w, World (emitters w) (<[next w := l]> (listeners w)) (indexes w) (S (next w))).
Definition new_index (w : world) : ref * world :=
  (next w, World (emitters w) (listeners w) (<[next w := []]> (indexes w)) (S (next w))).

Definition index_of (i : option ref) (w : world) : list (ikey * ref) :=
  match i with Some i => default [] (indexes w !! i) | None => [] end.

Fixpoint lookup_key (k : ikey) (l : list (ikey * ref)) : option ref :=
  match l with [] => None | (k', r) :: l' => if decide (k' = k) then Some r else lookup_key k l' end.
Definition delete_key (k : ikey) (l : list (ikey * ref)) : list (ikey * ref) := filter (fun e => e.1 <> k) l.

(** ** Adding and removing *)

(** [context && context !== this && L.stamp (context)] *)
Definition contextId (o : oid) (ctx : option oid) : option oid :=
  match ctx with Some c => if decide (c = o) then None else Some c | None => None end.

(** [_on] *)
Definition on1 (o : oid) (type : string) (f : fn) (ctx : option oid) (w : world) : world :=
  let ev := default no_events (events_of o w) in
  match contextId o ctx with
  | Some c =>
      let '(i, w) := match idx ev !! type with Some i => (i, w) | None => new_index w end in
      let ev := Events (arrays ev) (<[type := i]> (idx ev)) (lens ev) in
      let l := index_of (Some i) w in
      match lookup_key (f, c) l with
      | Some _ => set_events o (Some ev) w
      | None =>
          let '(r, w) := new_listener (Listener (Some f) (Some c)) w in
          let ev := Events (arrays ev) (idx ev) (<[type := default 0 (lens ev !! type) + 1]> (lens ev)) in
          set_events o (Some ev) (set_index i (l ++ [((f, c), r)]) w)
      end
  | None =>
      let '(r, w) := new_listener (Listener (Some f) None) w in
      let l := default [] (arrays ev !! type) in
      set_events o (Some (Events (<[type := l ++ [r]]> (arrays ev)) (idx ev) (lens ev))) w
  end.

Definition fn_of (r : ref) (w : world) : option fn := listeners w !! r ≫= l_fn.

(** The removed listener's function is overwritten. *)
Definition silence (r : ref) (w : world) : world :=
  set_listener r (Listener None (listeners w !! r ≫= l_ctx)) w.

(** The first listener of an array with function [f], and the array without it. *)
Fixpoint take_listener (f : fn) (w : world) (l : list ref) : option (ref * list ref) :=
  match l with
  | [] => None
  | r :: l' =>
      if decide (fn_of r w = Some f) then Some (r, l')
      else '(r', l'') ← take_listener f w l'; Some (r', r :: l'')
  end.

(** [_off] *)
Definition off1 (o : oid) (type : string) (f : option fn) (ctx : option oid) (w : world) : world :=
  match events_of o w with
  | None => w
  | Some ev =>
      match f with
      | None => set_events o (Some (Events (delete type (arrays ev)) (delete type (idx ev)) (delete type (lens ev)))) w
      | Some f =>
          match contextId o ctx with
          | Some c =>
              match idx ev !! type with
              | Some i =>
                  let l := index_of (Some i) w in
                  match lookup_key (f, c) l with
                  | Some r =>
                      let n := lens ev !! type in
                      let lens' := match n with Some n => <[type := n - 1]> (lens ev) | None => lens ev end in
                      silence r (set_events o (Some (Events (arrays ev) (idx ev) lens'))
                                   (set_index i (delete_key (f, c) l) w))
                  | None => w
                  end
              | None => w
              end
          | None =>
              match arrays ev !! type with
              | Some l =>
                  match take_listener f w l with
                  | Some (r, l') =>
                      silence r (set_events o (Some (Events (<[type := l']> (arrays ev)) (idx ev) (lens ev))) w)
                  | None => w
                  end
              | None => w
              end
          end
      end
  end.

(** [str.trim ().split (/\s+/)] *)
Fixpoint words_of (s word : string) : list string :=
  match s with
  | "" => [word]
  | String c s' =>
      if is_space c then
        match s' with
        | String c' _ => if is_space c' then words_of s' word else word :: words_of s' ""
        | "" => [word; ""]
        end
      else words_of s' (word +:+ String c "")
  end.

Definition splitWords (s : string) : list string := words_of (trim s) "".

(** [on] and [off] with words, and with a map of functions by type. *)
Definition on_ (o : oid) (types : string) (f : fn) (ctx : option oid) (w : world) : world :=
  foldl (fun w t => on1 o t f ctx w) w (splitWords types).
Definition on_map (o : oid) (types : list (string * fn)) (ctx : option oid) (w : world) : world :=
  foldl (fun w tf => on1 o tf.1 tf.2 ctx w) w types.
Definition off_all (o : oid) (w : world) : world := set_events o None w.
Definition off_ (o : oid) (types : string) (f : option fn) (ctx : option oid) (w : world) : world :=
  if String.eqb types "" then off_all o w
  else foldl (fun w t => off1 o t f ctx w) w (splitWords types).
Definition off_map (o : oid) (types : list (string * fn)) (ctx : option oid) (w : world) : world :=
  foldl (fun w tf => off1 o tf.1 (Some tf.2) ctx w) w types.

(** [once]: the function, and a handler that removes both. *)
Definition once (o : oid) (types : string) (f : fn) (ctx : option oid) (w : world) : world :=
  let handler := OnceHandler (next w) o types f ctx in
  let w := World (emitters w) (listeners w) (indexes w) (S (next w)) in
  on_ o types handler ctx (on_ o types f ctx w).

Fixpoint insert_stamp (o : oid) (l : list oid) : list oid :=
  match l with
  | [] => [o]
  | x :: l' => if decide (o = x) then l else if (o <? x)%nat then o :: l else x :: insert_stamp o l'
  end.

Definition addEventParent (o p : oid) (w : world) : world :=
  set_emitter o (Emitter (events_of o w) (insert_stamp p (parents (emitter_of o w)))) w.
Definition removeEventParent (o p : oid) (w : world) : world :=
  set_emitter o (Emitter (events_of o w) (filter (fun x => x <> p) (parents (emitter_of o w)))) w.

(** ** Firing *)

(** The data of an event: its [layer] and everything else. *)
Record event_data := EventData { d_layer : option oid; d_rest : list Z }.
Record event := Event { e_type : string; e_target : oid; e_data : event_data }.

(** What a function may do. *)
Inductive action :=
  | On (o : oid) (types : string) (f : fn) (ctx : option oid)
  | Off (o : oid) (types : string) (f : option fn) (ctx : option oid)
  | OffAll (o : oid)
  | DoOnce (o : oid) (types : string) (f : fn) (ctx : option oid)
  | AddParent (o p : oid)
  | RemoveParent (o p : oid)
  | Fire (o : oid) (type : string) (data : event_data) (propagate : bool).

(** All but [Fire]. *)
Definition act (a : action) (w : world) : world :=
  match a with
  | On o types f ctx => on_ o types f ctx w
  | Off o types f ctx => off_ o types f ctx w
  | OffAll o => off_all o w
  | DoOnce o types f ctx => once o types f ctx w
  | AddParent o p => addEventParent o p w
  | RemoveParent o p => removeEventParent o p w
  | Fire _ _ _ _ => w
  end.

(** The calls made, each with the calls made inside it. *)
Inductive call := Call (r : ref) (f : fn) (this : option oid) (e : event) (nested : list call).

Definition called (c : call) : ref := match c with Call r _ _ _ _ => r end.

Section fire.
(** What a function does, given [this], the event and the state. *)
Context (code : nat -> option oid -> event -> world -> list action).

Definition body (f : fn) (this : option oid) (e : event) (w : world) : list action :=
  match f with
  | User n => code n this e w
  | OnceHandler _ o types g ctx => [Off o types (Some g) ctx; Off o types (Some f) ctx]
  end.

(** [listens]; [None]: out of fuel. *)
Fixpoint listens (fuel : nat) (o : oid) (type : string) (propagate : bool) (w : world) : option bool :=
  match fuel with
  | O => None
  | S fuel' =>
      let own := match events_of o w with
                 | Some ev => bool_decide (is_Some (arrays ev !! type)) ||
                              match lens ev !! type with Some n => negb (n =? 0) | None => false end
                 | None => false
                 end in
      if own then Some true
      else if propagate then
        foldr (fun p rest => b ← listens fuel' p type propagate w; if b : bool then Some true else rest)
              (Some false) (parents (emitter_of o w))
      else Some false
  end.

Definition result : Type := option (world * list call).

(** The actions of a function, one after the other; [fire_] fires. *)
Fixpoint run (fire_ : oid -> string -> event_data -> bool -> world -> result) (l : list action) (w : world) : result :=
  match l with
  | [] => Some (w, [])
  | a :: l' =>
      '(w1, cs) ← match a with
                  | Fire o type data propagate => fire_ o type data propagate w
                  | _ => Some (act a w, [])
                  end;
      '(w2, cs') ← run fire_ l' w1;
      Some (w2, cs ++ cs')
  end.

Section calls.
Context (fire_ : oid -> string -> event_data -> bool -> world -> result).

(** Call a listener; one that was removed meanwhile does nothing. *)
Definition call_listener (r : ref) (this : option oid) (e : event) (w : world) : result :=
  match fn_of r w with
  | None => Some (w, [])
  | Some f => '(w1, nested) ← run fire_ (body f this e w) w; Some (w1, [Call r f this e nested])
  end.

(** The loop over the copy of the array. *)
Fixpoint call_array (o : oid) (e : event) (rs : list ref) (w : world) : result :=
  match rs with
  | [] => Some (w, [])
  | r :: rs' =>
      '(w1, cs) ← call_listener r (Some o) e w;
      '(w2, cs') ← call_array o e rs' w1;
      Some (w2, cs ++ cs')
  end.

(** The loop over the keys of an index. *)
Fixpoint call_index (i : ref) (e : event) (ks : list ikey) (w : world) : result :=
  match ks with
  | [] => Some (w, [])
  | k :: ks' =>
      '(w1, cs) ← match lookup_key k (index_of (Some i) w) with
                  | Some r => call_listener r (listeners w !! r ≫= l_ctx) e w
                  | None => Some (w, [])
                  end;
      '(w2, cs') ← call_index i e ks' w1;
      Some (w2, cs ++ cs')
  end.

(** [_propagateEvent]; a parent removed meanwhile is passed over. *)
Fixpoint propagate_event (o : oid) (e : event) (ps : list oid) (w : world) : result :=
  match ps with
  | [] => Some (w, [])
  | p :: ps' =>
      '(w1, cs) ← (if decide (p ∈ parents (emitter_of o w)) then
                     fire_ p (e_type e)
                       (EventData (Some (default (e_target e) (d_layer (e_data e)))) (d_rest (e_data e))) true w
                   else Some (w, []));
      '(w2, cs') ← propagate_event o e ps' w1;
      Some (w2, cs ++ cs')
  end.

(** The listeners of the object itself. *)
Definition call_own (o : oid) (type : string) (e : event) (w : world) : result :=
  match events_of o w with
  | None => Some (w, [])
  | Some ev =>
      '(w1, cs) ← call_array o e (default [] (arrays ev !! type)) w;
      '(w2, cs') ← match idx ev !! type with
                   | Some i => call_index i e (index_of (Some i) w1).*1 w1
                   | None => Some (w1, [])
                   end;
      Some (w2, cs ++ cs')
  end.
End calls.

(** [fire]; [None]: out of fuel. *)
Fixpoint fire (fuel : nat) (o : oid) (type : string) (data : event_data) (propagate : bool) (w : world) : result :=
  match fuel with
  | O => None
  | S fuel' =>
      b ← listens fuel o type propagate w;
      if negb b then Some (w, [])
      else
        let e := Event type o data in
        '(w1, cs) ← call_own (fire fuel') o type e w;
        '(w2, cs') ← (if propagate : bool then propagate_event (fire fuel') o e (parents (emitter_of o w1)) w1
                      else Some (w1, []));
        Some (w2, cs ++ cs')
  end.
End fire.

(** ** What every firing keeps *)

(** All listeners called, those inside calls included. *)
Fixpoint refs_of (c : call) : list ref :=
  match c with Call r _ _ _ nested => r :: List.flat_map refs_of nested end.

Section trace.
Context (code : nat -> option oid -> event -> world -> list action).
(** A property [P] of states that the allowed actions keep, in which functions only do
    what is allowed, and only listeners with [good] are called. *)
Context (P : world -> Prop) (allowed : action -> Prop) (good : ref -> Prop).
Hypothesis P_act : forall a w, P w -> allowed a -> P (act a w).
Hypothesis P_call : forall r f this e w, P w -> fn_of r w = Some f -> good r /\ Forall allowed (body code f this e w).

Definition result_ok (x : result) : Prop :=
  match x with Some (w', cs) => P w' /\ Forall good (List.flat_map refs_of cs) | None => True end.

Lemma result_ok_seq x f :
  result_ok x -> (forall w, P w -> result_ok (f w)) ->
  result_ok ('(w1, cs) ← x; '(w2, cs') ← f w1; Some (w2, cs ++ cs')).
Proof.
  destruct x as [[w1 cs]|]; [|done]. intros [Hw Hcs] Hf. cbn. specialize (Hf w1 Hw).
  destruct (f w1) as [[w2 cs']|]; [|done]. destruct Hf as [Hw2 Hcs']. cbn. split; [done|].
  rewrite List.flat_map_app. by apply Forall_app.
Qed.

Section calls.
Context (fire_ : oid -> string -> event_data -> bool -> world -> result).
Hypothesis fire_ok : forall o t d b w, P w -> result_ok (fire_ o t d b w).

Lemma run_ok l : forall w, P w -> Forall allowed l -> result_ok (run fire_ l w).
Proof using P_act fire_ok.
  induction l as [|a l IH]; intros w Hw Hl; [done|]. apply Forall_cons in Hl as [Ha Hl]. cbn [run].
  apply result_ok_seq; [|auto]. pose proof (P_act a w Hw Ha). destruct a; try done. by apply fire_ok.
Qed.

Lemma call_listener_ok r this e w : P w -> result_ok (call_listener code fire_ r this e w).
Proof using P_act P_call fire_ok.
  intros Hw. unfold call_listener. destruct (fn_of r w) as [f|] eqn:E; [|done].
  destruct (P_call r f this e w Hw E) as [Hg Hb]. pose proof (run_ok _ w Hw Hb) as H.
  destruct (run fire_ (body code f this e w) w) as [[w1 nested]|]; [|done]. destruct H as [Hw1 Hn].
  cbn. split; [done|]. rewrite app_nil_r. by constructor.
Qed.

Lemma call_array_ok o e rs : forall w, P w -> result_ok (call_array code fire_ o e rs w).
Proof using P_act P_call fire_ok.
  induction rs as [|r rs IH]; intros w Hw; [done|]. cbn [call_array]. apply result_ok_seq; [by apply call_listener_ok|auto].
Qed.

Lemma call_index_ok i e ks : forall w, P w -> result_ok (call_index code fire_ i e ks w).
Proof using P_act P_call fire_ok.
  induction ks as [|k ks IH]; intros w Hw; [done|]. cbn [call_index]. apply result_ok_seq; [|auto].
  case_match; [by apply call_listener_ok|done].
Qed.

Lemma propagate_ok o e ps : forall w, P w -> result_ok (propagate_event fire_ o e ps w).
Proof using fire_ok.
  induction ps as [|p ps IH]; intros w Hw; [done|]. cbn [propagate_event]. apply result_ok_seq; [|auto].
  case_decide; [by apply fire_ok|done].
Qed.

Lemma call_own_ok o type e w : P w -> result_ok (call_own code fire_ o type e w).
Proof using P_act P_call fire_ok.
  intros Hw. unfold call_own. destruct (events_of o w) as [ev|]; [|done].
  apply result_ok_seq; [by apply call_array_ok|]. intros w1 Hw1. case_match; [by apply call_index_ok|done].
Qed.
End calls.

Lemma fire_result_ok fuel : forall o type d b w, P w -> result_ok (fire code fuel o type d b w).
Proof using P_act P_call.
  induction fuel as [|fuel IH]; intros o type d b w Hw; [done|]. cbn [fire].
  destruct (listens (S fuel) o type b w) as [[]|]; [|done|done]. cbn [mbind option_bind negb].
  apply result_ok_seq; [by apply call_own_ok|]. intros w1 Hw1. destruct b; [by apply propagate_ok|done].
Qed.
End trace.

(** ** Well-formed states *)

(** Where a listener is kept: the array of an object and type, or an index under a
    key. *)
Inductive slot := SArray (o : oid) (t : string) | SIndex (i : ref) (k : ikey).

Definition held (w : world) (s : slot) (r : ref) : Prop :=
  match s with
  | SArray o t => exists ev l, events_of o w = Some ev /\ arrays ev !! t = Some l /\ r ∈ l
  | SIndex i k => exists l, indexes w !! i = Some l /\ (k, r) ∈ l
  end.

(** The record of a listener kept in a slot. *)
Definition slot_listener (s : slot) (l : listener) : Prop :=
  match s with
  | SArray _ _ => is_Some (l_fn l) /\ l_ctx l = None
  | SIndex _ k => l = Listener (Some k.1) (Some k.2)
  end.

Record world_ok (w : world) : Prop := {
  ok_held : forall s r, held w s r -> exists l, listeners w !! r = Some l /\ slot_listener s l;
  ok_unique : forall s s' r, held w s r -> held w s' r -> s = s';
  ok_array : forall o ev t l, events_of o w = Some ev -> arrays ev !! t = Some l -> NoDup l;
  ok_index : forall i l, indexes w !! i = Some l -> NoDup l.*1;
  ok_idx : forall o ev t i, events_of o w = Some ev -> idx ev !! t = Some i ->
    exists l, indexes w !! i = Some l /\ default 0 (lens ev !! t) = Z.of_nat (length l);
  ok_noidx : forall o ev t, events_of o w = Some ev -> idx ev !! t = None -> lens ev !! t = None;
  ok_inj : forall o ev t i o' ev' t', events_of o w = Some ev -> idx ev !! t = Some i ->
    events_of o' w = Some ev' -> idx ev' !! t' = Some i -> o = o' /\ t = t';
  ok_next : forall r, is_Some (listeners w !! r) -> (r < next w)%nat;
  ok_next_index : forall i, is_Some (indexes w !! i) -> (i < next w)%nat
}.

Lemma events_of_set o o' e w : events_of o' (set_events o e w) = if decide (o' = o) then e else events_of o' w.
Proof.
  unfold events_of, set_events, set_emitter, emitter_of. cbn. case_decide as H.
  - subst. by rewrite lookup_insert_eq.
  - by rewrite lookup_insert_ne.
Qed.

Lemma elem_of_lookup_key k r l : NoDup l.*1 -> lookup_key k l = Some r <-> (k, r) ∈ l.
Proof.
  induction l as [|[k' r'] l IH]; cbn [lookup_key]; [set_solver|]. csimpl. intros [Hn Hd]%NoDup_cons.
  rewrite elem_of_cons. case_decide as H.
  - subst. split; [intros [= ->]; by left|]. intros [[= ->]|Hin]; [done|]. exfalso. apply Hn.
    apply list_elem_of_fmap. by exists (k, r).
  - rewrite IH by done. split; [by right|]. intros [[= -> _]|]; [done|done].
Qed.

Lemma lookup_key_None k l : lookup_key k l = None <-> k ∉ l.*1.
Proof.
  induction l as [|[k' r'] l IH]; csimpl; [set_solver|]. cbn [lookup_key]. case_decide; [set_solver|].
  rewrite IH. set_solver.
Qed.

Lemma take_listener_spec f w l r l' :
  take_listener f w l = Some (r, l') -> NoDup l ->
  fn_of r w = Some f /\ r ∈ l /\ NoDup l' /\ forall x, x ∈ l' <-> x ∈ l /\ x <> r.
Proof.
  revert l'. induction l as [|x l IH]; intros l'; cbn [take_listener]; [done|]. intros E [Hx Hd]%NoDup_cons.
  case_decide as Hf.
  - injection E as -> ->. split_and!; [done|by left|done|]. intros y. rewrite elem_of_cons. split; [|naive_solver].
    intros Hy. split; [by right|]. intros ->. done.
  - destruct (take_listener f w l) as [[r' l'']|]; [|done]. cbn in E. injection E as -> <-.
    destruct (IH l'' eq_refl Hd) as (A & B & C & D). split_and!; [done|by right| |].
    + constructor; [|done]. rewrite D. tauto.
    + intros y. rewrite !elem_of_cons, D. split; [|naive_solver]. intros [->|[? ?]]; [|by split; [right|]].
      split; [by left|]. intros ->. done.
Qed.

Lemma delete_key_spec k r l :
  NoDup l.*1 -> (k, r) ∈ l ->
  NoDup (delete_key k l).*1 /\ length l = S (length (delete_key k l)) /\
  forall e, e ∈ delete_key k l <-> e ∈ l /\ e.1 <> k.
Proof.
  intros Hd Hin. split_and!.
  - unfold delete_key. eapply sublist_NoDup; [exact Hd|]. apply fmap_sublist, sublist_filter.
  - revert Hd Hin. induction l as [|[k' r'] l IH]; csimpl; [set_solver|]. intros [Hn Hd]%NoDup_cons Hin.
    unfold delete_key. rewrite filter_cons. cbn [fst]. apply elem_of_cons in Hin as [[= <- <-]|Hin].
    + rewrite decide_False by naive_solver. f_equal. fold (delete_key k l). clear IH.
      assert (E : delete_key k l = l); [|by rewrite E].
      unfold delete_key. clear Hd r. induction l as [|e l IH]; [done|]. csimpl in Hn. rewrite filter_cons.
      rewrite decide_True by set_solver. f_equal. apply IH. set_solver.
    + rewrite decide_True; [cbn [length]; f_equal; by apply IH|]. intros ->. apply Hn.
      apply list_elem_of_fmap. by exists (k, r).
  - intros e. unfold delete_key. rewrite list_elem_of_filter. tauto.
Qed.

(** *** Steps that keep them *)

Lemma ok_no_events o w : world_ok w -> events_of o w = None -> world_ok (set_events o (Some no_events) w).
Proof.
  intros H Ho. assert (Hev : forall o' ev, events_of o' (set_events o (Some no_events) w) = Some ev ->
    ev = no_events \/ events_of o' w = Some ev).
  { intros o' ev. rewrite events_of_set. case_decide; [intros [= <-]; by left|by right]. }
  assert (Hh : forall s r, held (set_events o (Some no_events) w) s r -> held w s r).
  { intros [o' t|i k] r; [|done]. intros (ev & l & [->|E]%Hev & Hl & Hr); [by cbn in Hl; rewrite lookup_empty in Hl|].
    by exists ev, l. }
  destruct H. split; try done.
  - intros s r Hs%Hh. by apply ok_held0.
  - intros s s' r Hs%Hh Hs'%Hh. by eapply ok_unique0.
  - intros o' ev t l [->|E]%Hev Hl; [by cbn in Hl; rewrite lookup_empty in Hl|]. by eapply ok_array0.
  - intros o' ev t i [->|E]%Hev Hl; [by cbn in Hl; rewrite lookup_empty in Hl|]. by eapply ok_idx0.
  - intros o' ev t [->|E]%Hev Hl; [apply lookup_empty|]. by eapply ok_noidx0.
  - intros o' ev t i o2 ev2 t2 [->|E]%Hev Hl [->|E2]%Hev Hl2; cbn in *; rewrite ?lookup_empty in *; try done.
    by eapply ok_inj0.
Qed.

Lemma ok_ensure_index o t ev w :
  world_ok w -> events_of o w = Some ev -> idx ev !! t = None ->
  world_ok (set_events o (Some (Events (arrays ev) (<[t := next w]> (idx ev)) (lens ev))) (new_index w).2).
Proof.
  intros H Ho Ht. set (w1 := set_events _ _ _).
  assert (Hfresh : indexes w !! next w = None).
  { apply eq_None_not_Some. intros Hs%(ok_next_index w H). lia. }
  assert (Hev : forall o' ev', events_of o' w1 = Some ev' ->
    (o' = o /\ ev' = Events (arrays ev) (<[t := next w]> (idx ev)) (lens ev)) \/ (o' <> o /\ events_of o' w = Some ev')).
  { intros o' ev'. unfold w1. rewrite events_of_set. case_decide; [intros [= <-]; by left|by right]. }
  assert (Hh : forall s r, held w1 s r -> held w s r).
  { intros [o' t'|i k] r.
    - intros (ev' & l & [[-> ->]|[_ E]]%Hev & Hl & Hr); [by exists ev, l|by exists ev', l].
    - intros (l & Hl & Hr). exists l. split; [|done]. cbn in Hl. destruct (decide (i = next w)) as [->|Hne].
      + rewrite lookup_insert_eq in Hl. injection Hl as <-. set_solver.
      + by rewrite lookup_insert_ne in Hl. }
  assert (Hidx : forall o' ev' t' i, events_of o' w1 = Some ev' -> idx ev' !! t' = Some i ->
    (o' = o /\ t' = t /\ i = next w) \/
    (i <> next w /\ exists ev0, events_of o' w = Some ev0 /\ idx ev0 !! t' = Some i /\ lens ev' = lens ev0)).
  { intros o' ev' t' i E Hi. assert (Hex : (o' = o /\ t' = t /\ i = next w) \/
      exists ev0, events_of o' w = Some ev0 /\ idx ev0 !! t' = Some i /\ lens ev' = lens ev0).
    { apply Hev in E as [[-> ->]|[_ E]]; cbn in Hi.
      - destruct (decide (t' = t)) as [->|Hne]; [rewrite lookup_insert_eq in Hi; left; naive_solver|].
        rewrite lookup_insert_ne in Hi by done. right. by exists ev.
      - right. by exists ev'. }
    destruct Hex as [?|(ev0 & E0 & Hi0 & Hl0)]; [by left|]. right. split; [|by exists ev0]. intros ->.
    destruct (ok_idx w H _ _ _ _ E0 Hi0) as (l & Hl & _). congruence. }
  split.
  - intros s r Hs%Hh. destruct (ok_held w H s r Hs) as (l & Hl & Hs'). by exists l.
  - intros s s' r Hs%Hh Hs'%Hh. by eapply (ok_unique w H).
  - intros o' ev' t' l [[-> ->]|[_ E]]%Hev Hl; [by eapply (ok_array w H o)|by eapply (ok_array w H)].
  - intros i l. cbn. destruct (decide (i = next w)) as [->|Hne].
    + rewrite lookup_insert_eq. intros [= <-]. constructor.
    + rewrite lookup_insert_ne by done. apply (ok_index w H).
  - intros o' ev' t' i E Hi. destruct (Hidx _ _ _ _ E Hi) as [(-> & -> & ->)|(Hne & ev0 & E0 & Hi0 & ->)].
    + exists []. cbn. rewrite lookup_insert_eq. split; [done|]. apply Hev in E as [[_ ->]|[? _]]; [|done]. cbn.
      by rewrite (ok_noidx w H _ _ _ Ho Ht).
    + cbn. rewrite lookup_insert_ne by done. by eapply (ok_idx w H).
  - intros o' ev' t' [[-> ->]|[_ E]]%Hev Hi; [|by eapply (ok_noidx w H)]. cbn in *.
    apply lookup_insert_None in Hi as [Hi _]. by eapply (ok_noidx w H).
  - intros o1 ev1 t1 i o2 ev2 t2 E1 Hi1 E2 Hi2. destruct (Hidx _ _ _ _ E1 Hi1) as [(-> & -> & ->)|(Hne & ev0 & E0 & Hi0 & _)].
    + destruct (Hidx _ _ _ _ E2 Hi2) as [(-> & -> & _)|(Hne & _)]; done.
    + destruct (Hidx _ _ _ _ E2 Hi2) as [(-> & -> & ?)|(_ & ev3 & E3 & Hi3 & _)]; [done|].
      by eapply (ok_inj w H).
  - intros r Hs. cbn in Hs. apply (ok_next w H) in Hs. cbn. lia.
  - intros i Hs. cbn in Hs. cbn. destruct (decide (i = next w)) as [->|Hne]; [lia|].
    rewrite lookup_insert_ne in Hs by done. apply (ok_next_index w H) in Hs. lia.
Qed.

(** The remaining steps never add an index. *)
Lemma inj_smaller w w' :
  world_ok w ->
  (forall o ev', events_of o w' = Some ev' -> exists ev, events_of o w = Some ev /\ idx ev' ⊆ idx ev) ->
  forall o ev t i o' ev' t', events_of o w' = Some ev -> idx ev !! t = Some i ->
    events_of o' w' = Some ev' -> idx ev' !! t' = Some i -> o = o' /\ t = t'.
Proof.
  intros H Hs o ev t i o' ev' t' E Hi E' Hi'. destruct (Hs _ _ E) as (ev1 & E1 & S1), (Hs _ _ E') as (ev2 & E2 & S2).
  eapply (ok_inj w H); [exact E1| |exact E2|]; by eapply lookup_weaken.
Qed.

Lemma fresh_listener w s : world_ok w -> ~ held w s (next w).
Proof. intros H Hs. destruct (ok_held w H _ _ Hs) as (l & Hl & _). pose proof (ok_next w H _ (mk_is_Some _ _ Hl)). lia. Qed.

Lemma ok_index_add o t i ev k w :
  world_ok w -> events_of o w = Some ev -> idx ev !! t = Some i -> lookup_key k (index_of (Some i) w) = None ->
  world_ok (set_events o (Some (Events (arrays ev) (idx ev) (<[t := default 0 (lens ev !! t) + 1]> (lens ev))))
    (set_index i (index_of (Some i) w ++ [(k, next w)]) (new_listener (Listener (Some k.1) (Some k.2)) w).2)).
Proof.
  intros H Ho Hi Hk. destruct (ok_idx w H _ _ _ _ Ho Hi) as (l & Hl & Hlen).
  assert (El : index_of (Some i) w = l) by (unfold index_of; by rewrite Hl). rewrite El in *.
  apply lookup_key_None in Hk. set (ev1 := Events _ _ _). set (w1 := set_events _ _ _).
  assert (Hev : forall o' ev', events_of o' w1 = Some ev' ->
    (o' = o /\ ev' = ev1) \/ (o' <> o /\ events_of o' w = Some ev')).
  { intros o' ev'. unfold w1. rewrite events_of_set. case_decide; [intros [= <-]; by left|by right]. }
  assert (Hh : forall s r, held w1 s r -> held w s r \/ (s = SIndex i k /\ r = next w)).
  { intros [o' t'|i' k'] r.
    - intros (ev' & l' & [[-> ->]|[_ E]]%Hev & Hl' & Hr); left; [by exists ev, l'|by exists ev', l'].
    - intros (l' & Hl' & Hr). cbn in Hl'. destruct (decide (i' = i)) as [->|Hne].
      + rewrite lookup_insert_eq in Hl'. injection Hl' as <-. apply elem_of_app in Hr as [Hr|Hr].
        * left. by exists l.
        * apply list_elem_of_singleton in Hr as [= -> ->]. by right.
      + rewrite lookup_insert_ne in Hl' by done. left. by exists l'. }
  split.
  - intros s r [Hs|[-> ->]]%Hh.
    + destruct (ok_held w H s r Hs) as (l' & Hl' & Hs'). exists l'. split; [|done]. cbn.
      rewrite lookup_insert_ne; [done|]. intros <-. by apply (fresh_listener w s H).
    + exists (Listener (Some k.1) (Some k.2)). cbn. by rewrite lookup_insert_eq.
  - intros s s' r [Hs|[-> ->]]%Hh [Hs'|[-> E]]%Hh; subst; try done.
    + by eapply (ok_unique w H).
    + by apply fresh_listener in Hs.
    + by apply fresh_listener in Hs'.
  - intros o' ev' t' l' [[-> ->]|[_ E]]%Hev Hl'; [by eapply (ok_array w H o)|by eapply (ok_array w H)].
  - intros i' l'. cbn. destruct (decide (i' = i)) as [->|Hne].
    + rewrite lookup_insert_eq. intros [= <-]. rewrite fmap_app. apply NoDup_app. split_and!.
      * by apply (ok_index w H i).
      * intros x Hx. cbn. rewrite list_elem_of_singleton. by intros ->.
      * cbn. apply NoDup_singleton.
    + rewrite lookup_insert_ne by done. apply (ok_index w H).
  - intros o' ev' t' i' E' Hi'. cbn. apply Hev in E' as [[-> ->]|[Hne E']]; cbn in *.
    + destruct (decide (t' = t)) as [->|Hne].
      * rewrite Hi in Hi'. injection Hi' as <-. rewrite !lookup_insert_eq. exists (l ++ [(k, next w)]).
        split; [done|]. cbn. rewrite length_app. cbn [length]. lia.
      * assert (i' <> i) by (intros ->; destruct (ok_inj w H _ _ _ _ _ _ _ Ho Hi Ho Hi'); congruence).
        rewrite !lookup_insert_ne by done. by apply (ok_idx w H o).
    + assert (i' <> i) by (intros ->; destruct (ok_inj w H _ _ _ _ _ _ _ Ho Hi E' Hi'); congruence).
      rewrite lookup_insert_ne by done. by apply (ok_idx w H o').
  - intros o' ev' t' [[-> ->]|[_ E]]%Hev Hi'; [|by eapply (ok_noidx w H)]. cbn in *.
    rewrite lookup_insert_ne by congruence. by eapply (ok_noidx w H).
  - apply (inj_smaller w w1 H). intros o' ev' [[-> ->]|[_ E]]%Hev; [by exists ev|by exists ev'].
  - intros r Hs. cbn in Hs. cbn. destruct (decide (r = next w)) as [->|Hne]; [lia|].
    rewrite lookup_insert_ne in Hs by done. apply (ok_next w H) in Hs. lia.
  - intros i' Hs. cbn in Hs. cbn. destruct (decide (i' = i)) as [->|Hne].
    + pose proof (ok_next_index w H i (mk_is_Some _ _ Hl)). lia.
    + rewrite lookup_insert_ne in Hs by done. apply (ok_next_index w H) in Hs. lia.
Qed.

Lemma ok_array_add o t ev f w :
  world_ok w -> events_of o w = Some ev ->
  world_ok (set_events o (Some (Events (<[t := default [] (arrays ev !! t) ++ [next w]]> (arrays ev)) (idx ev) (lens ev)))
    (new_listener (Listener (Some f) None) w).2).
Proof.
  intros H Ho. set (ev1 := Events _ _ _). set (w1 := set_events _ _ _).
  assert (Hev : forall o' ev', events_of o' w1 = Some ev' ->
    (o' = o /\ ev' = ev1) \/ (o' <> o /\ events_of o' w = Some ev')).
  { intros o' ev'. unfold w1. rewrite events_of_set. case_decide; [intros [= <-]; by left|by right]. }
  assert (Hold : forall r, r ∈ default [] (arrays ev !! t) -> held w (SArray o t) r).
  { intros r Hr. destruct (arrays ev !! t) as [l|] eqn:E; [by exists ev, l|by apply not_elem_of_nil in Hr]. }
  assert (Hh : forall s r, held w1 s r -> held w s r \/ (s = SArray o t /\ r = next w)).
  { intros [o' t'|i' k'] r; [|by left].
    intros (ev' & l' & [[-> ->]|[_ E]]%Hev & Hl' & Hr); [|by left; exists ev', l']. cbn in Hl'.
    destruct (decide (t' = t)) as [->|Hne].
    - rewrite lookup_insert_eq in Hl'. injection Hl' as <-. apply elem_of_app in Hr as [Hr|Hr].
      + left. by apply Hold.
      + apply list_elem_of_singleton in Hr as ->. by right.
    - rewrite lookup_insert_ne in Hl' by done. left. by exists ev, l'. }
  split.
  - intros s r [Hs|[-> ->]]%Hh.
    + destruct (ok_held w H s r Hs) as (l' & Hl' & Hs'). exists l'. split; [|done]. cbn.
      rewrite lookup_insert_ne; [done|]. intros <-. by apply (fresh_listener w s H).
    + exists (Listener (Some f) None). cbn. rewrite lookup_insert_eq. by repeat split.
  - intros s s' r [Hs|[-> ->]]%Hh [Hs'|[-> E]]%Hh; subst; try done.
    + by eapply (ok_unique w H).
    + by apply fresh_listener in Hs.
    + by apply fresh_listener in Hs'.
  - intros o' ev' t' l' [[-> ->]|[_ E]]%Hev Hl'; [|by eapply (ok_array w H)]. cbn in Hl'.
    destruct (decide (t' = t)) as [->|Hne].
    + rewrite lookup_insert_eq in Hl'. injection Hl' as <-. apply NoDup_app. split_and!.
      * destruct (arrays ev !! t) as [l|] eqn:E; [by eapply (ok_array w H o)|constructor].
      * intros r Hr%Hold. rewrite list_elem_of_singleton. intros ->. by apply fresh_listener in Hr.
      * apply NoDup_singleton.
    + rewrite lookup_insert_ne in Hl' by done. by eapply (ok_array w H o).
  - apply (ok_index w H).
  - intros o' ev' t' i' [[-> ->]|[_ E]]%Hev Hi'; [exact (ok_idx w H _ _ _ _ Ho Hi')|by eapply (ok_idx w H)].
  - intros o' ev' t' [[-> ->]|[_ E]]%Hev Hi'; [exact (ok_noidx w H _ _ _ Ho Hi')|by eapply (ok_noidx w H)].
  - apply (inj_smaller w w1 H). intros o' ev' [[-> ->]|[_ E]]%Hev; [by exists ev|by exists ev'].
  - intros r Hs. cbn in Hs. cbn. destruct (decide (r = next w)) as [->|Hne]; [lia|].
    rewrite lookup_insert_ne in Hs by done. apply (ok_next w H) in Hs. lia.
  - intros i' Hs. cbn in Hs. apply (ok_next_index w H) in Hs. cbn. lia.
Qed.

(** Taking away: a listener of an array, a type, everything. *)
Lemma ok_shrink o e w :
  world_ok w ->
  (forall ev', e = Some ev' -> exists ev, events_of o w = Some ev /\
    (forall t l', arrays ev' !! t = Some l' -> exists l, arrays ev !! t = Some l /\ l' ⊆ l /\ NoDup l') /\
    idx ev' ⊆ idx ev /\
    (forall t, is_Some (idx ev' !! t) -> lens ev' !! t = lens ev !! t) /\
    (forall t, idx ev' !! t = None -> lens ev' !! t = None)) ->
  world_ok (set_events o e w) /\ (forall s r, held (set_events o e w) s r -> held w s r).
Proof.
  intros H He. set (w1 := set_events o e w).
  assert (Hev : forall o' ev', events_of o' w1 = Some ev' ->
    (o' = o /\ e = Some ev') \/ (o' <> o /\ events_of o' w = Some ev')).
  { intros o' ev'. unfold w1. rewrite events_of_set. case_decide; [by left|by right]. }
  assert (Hh : forall s r, held w1 s r -> held w s r).
  { intros [o' t'|i' k'] r; [|done]. intros (ev' & l' & [[-> E]|[_ E]]%Hev & Hl' & Hr); [|by exists ev', l'].
    destruct (He _ E) as (ev & Ho & Ha & _). destruct (Ha _ _ Hl') as (l & Hl & Hs & _).
    exists ev, l. split_and!; [done|done|by apply Hs]. }
  split; [|done]. split.
  - intros s r Hs%Hh. by apply (ok_held w H).
  - intros s s' r Hs%Hh Hs'%Hh. by eapply (ok_unique w H).
  - intros o' ev' t' l' [[-> E]|[_ E]]%Hev Hl'; [|by eapply (ok_array w H)].
    destruct (He _ E) as (ev & _ & Ha & _). by destruct (Ha _ _ Hl') as (l & _ & _ & Hd).
  - apply (ok_index w H).
  - intros o' ev' t' i' [[-> E]|[_ E]]%Hev Hi'; [|by eapply (ok_idx w H)].
    destruct (He _ E) as (ev & Ho & _ & Hi & Hl & _). rewrite Hl by done.
    apply (ok_idx w H o); [done|]. by eapply lookup_weaken.
  - intros o' ev' t' [[-> E]|[_ E]]%Hev Hi'; [|by eapply (ok_noidx w H)].
    destruct (He _ E) as (ev & _ & _ & _ & _ & Hl). by apply Hl.
  - apply (inj_smaller w w1 H). intros o' ev' [[-> E]|[_ E]]%Hev; [|by exists ev'].
    destruct (He _ E) as (ev & Ho & _ & Hi & _). by exists ev.
  - apply (ok_next w H).
  - apply (ok_next_index w H).
Qed.

Lemma ok_silence r w :
  world_ok w -> is_Some (listeners w !! r) -> (forall s, ~ held w s r) -> world_ok (silence r w).
Proof.
  intros H Hr Hh. split; try apply H.
  - intros s r' Hs. destruct (ok_held w H s r' Hs) as (l & Hl & Hsl). exists l. split; [|done]. cbn.
    rewrite lookup_insert_ne; [done|]. intros <-. by apply (Hh s).
  - intros r'. cbn. destruct (decide (r' = r)) as [->|Hne]; [intros _; by apply (ok_next w H)|].
    rewrite lookup_insert_ne by done. apply (ok_next w H).
Qed.

Lemma ok_index_remove o t i ev k r w :
  world_ok w -> events_of o w = Some ev -> idx ev !! t = Some i -> lookup_key k (index_of (Some i) w) = Some r ->
  let lens' := match lens ev !! t with Some n => <[t := n - 1]> (lens ev) | None => lens ev end in
  let w' := set_events o (Some (Events (arrays ev) (idx ev) lens')) (set_index i (delete_key k (index_of (Some i) w)) w) in
  world_ok w' /\ is_Some (listeners w' !! r) /\ forall s, ~ held w' s r.
Proof.
  intros H Ho Hi Hk. destruct (ok_idx w H _ _ _ _ Ho Hi) as (l & Hl & Hlen).
  assert (El : index_of (Some i) w = l) by (unfold index_of; by rewrite Hl). rewrite El in *. cbv zeta.
  pose proof (ok_index w H _ _ Hl) as Hd. apply elem_of_lookup_key in Hk; [|done].
  destruct (delete_key_spec k r l Hd Hk) as (Hd' & Hlen' & Hin').
  destruct (lens ev !! t) as [n|] eqn:En; [|cbn in Hlen; lia]. cbn in Hlen.
  set (ev1 := Events _ _ _). set (w1 := set_events _ _ _).
  assert (Hev : forall o' ev', events_of o' w1 = Some ev' ->
    (o' = o /\ ev' = ev1) \/ (o' <> o /\ events_of o' w = Some ev')).
  { intros o' ev'. unfold w1. rewrite events_of_set. case_decide; [intros [= <-]; by left|by right]. }
  assert (Hh : forall s x, held w1 s x -> held w s x /\ s <> SIndex i k).
  { intros [o' t'|i' k'] x.
    - intros (ev' & l' & [[-> ->]|[_ E]]%Hev & Hl' & Hr); (split; [|done]); [by exists ev, l'|by exists ev', l'].
    - intros (l' & Hl' & Hr). cbn in Hl'. destruct (decide (i' = i)) as [->|Hne].
      + rewrite lookup_insert_eq in Hl'. injection Hl' as <-. apply Hin' in Hr as [Hr Hne]. cbn in Hne.
        split; [by exists l|congruence].
      + rewrite lookup_insert_ne in Hl' by done. split; [by exists l'|congruence]. }
  assert (Hheld : held w (SIndex i k) r) by by exists l.
  split_and!.
  - split.
    + intros s x [Hs _]%Hh. by apply (ok_held w H).
    + intros s s' x [Hs _]%Hh [Hs' _]%Hh. by eapply (ok_unique w H).
    + intros o' ev' t' l' [[-> ->]|[_ E]]%Hev Hl'; [by eapply (ok_array w H o)|by eapply (ok_array w H)].
    + intros i' l'. cbn. destruct (decide (i' = i)) as [->|Hne].
      * rewrite lookup_insert_eq. by intros [= <-].
      * rewrite lookup_insert_ne by done. apply (ok_index w H).
    + intros o' ev' t' i' E' Hi'. cbn. apply Hev in E' as [[-> ->]|[Hne E']]; cbn in *.
      * destruct (decide (t' = t)) as [->|Hne].
        -- rewrite Hi in Hi'. injection Hi' as <-. rewrite !lookup_insert_eq. eexists. split; [done|]. cbn. lia.
        -- assert (i' <> i) by (intros ->; destruct (ok_inj w H _ _ _ _ _ _ _ Ho Hi Ho Hi'); congruence).
           rewrite !lookup_insert_ne by done. by apply (ok_idx w H o).
      * assert (i' <> i) by (intros ->; destruct (ok_inj w H _ _ _ _ _ _ _ Ho Hi E' Hi'); congruence).
        rewrite lookup_insert_ne by done. by apply (ok_idx w H o').
    + intros o' ev' t' [[-> ->]|[_ E]]%Hev Hi'; [|by eapply (ok_noidx w H)]. cbn in *.
      rewrite lookup_insert_ne by congruence. by eapply (ok_noidx w H).
    + apply (inj_smaller w w1 H). intros o' ev' [[-> ->]|[_ E]]%Hev; [by exists ev|by exists ev'].
    + apply (ok_next w H).
    + intros i' Hs. cbn in Hs. destruct (decide (i' = i)) as [->|Hne]; [by apply (ok_next_index w H)|].
      rewrite lookup_insert_ne in Hs by done. by apply (ok_next_index w H).
  - destruct (ok_held w H _ _ Hheld) as (x & Hx & _). by exists x.
  - intros s [Hs Hne]%Hh. apply Hne. by eapply (ok_unique w H).
Qed.

Lemma ok_bump w : world_ok w -> world_ok (World (emitters w) (listeners w) (indexes w) (S (next w))).
Proof.
  intros H. split; try apply H.
  - intros r Hr%(ok_next w H). cbn. lia.
  - intros i Hi%(ok_next_index w H). cbn. lia.
Qed.

Lemma set_events_twice o e e' w : set_events o e (set_events o e' w) = set_events o e w.
Proof. unfold set_events, set_emitter, emitter_of. cbn. by rewrite lookup_insert_eq, insert_insert_eq. Qed.

Lemma ok_parents o l w : world_ok w -> world_ok (set_emitter o (Emitter (events_of o w) l) w).
Proof.
  intros H. set (w1 := set_emitter _ _ _).
  assert (Hev : forall o', events_of o' w1 = events_of o' w).
  { intros o'. unfold w1, events_of, set_emitter, emitter_of. cbn. destruct (decide (o' = o)) as [->|Hne].
    - by rewrite lookup_insert_eq.
    - by rewrite lookup_insert_ne. }
  assert (Hh : forall s r, held w1 s r -> held w s r).
  { intros [o' t|i k] r; [|done]. unfold held. by rewrite Hev. }
  split; try (apply H; fail).
  - intros s r Hs%Hh. by apply (ok_held w H).
  - intros s s' r Hs%Hh Hs'%Hh. by eapply (ok_unique w H).
  - intros o' ev t l'. rewrite Hev. apply (ok_array w H).
  - intros o' ev t l'. rewrite Hev. apply (ok_idx w H).
  - intros o' ev t. rewrite Hev. apply (ok_noidx w H).
  - intros o1 ev1 t1 i o2 ev2 t2. rewrite !Hev. apply (ok_inj w H).
Qed.

(** [_on] starts with an [_events] object. *)
Definition with_events (o : oid) (w : world) : world :=
  match events_of o w with Some _ => w | None => set_events o (Some no_events) w end.

Lemma with_events_ok o w : world_ok w ->
  world_ok (with_events o w) /\ events_of o (with_events o w) = Some (default no_events (events_of o w)).
Proof.
  intros H. unfold with_events. destruct (events_of o w) eqn:E; [done|]. split; [by apply ok_no_events|].
  rewrite events_of_set. by rewrite decide_True.
Qed.

Lemma on1_with_events o t f c w : on1 o t f c w = on1 o t f c (with_events o w).
Proof.
  unfold with_events. destruct (events_of o w) as [ev|] eqn:E; [done|]. unfold on1. rewrite events_of_set, E.
  rewrite decide_True by done. cbn [default arrays idx lens no_events]. destruct (contextId o c) as [c'|].
  - repeat (rewrite lookup_empty; cbn). repeat (rewrite lookup_insert_eq; cbn).
    unfold set_index, set_events, set_emitter, emitter_of. cbn. by rewrite !lookup_insert_eq, !insert_insert_eq.
  - cbn. unfold set_events, set_emitter, emitter_of. cbn. by rewrite lookup_insert_eq, insert_insert_eq.
Qed.

Lemma on1_ok o t f c w : world_ok w -> world_ok (on1 o t f c w).
Proof.
  intros H. rewrite on1_with_events. destruct (with_events_ok o w H) as [H1 E]. clear H.
  revert H1 E. generalize (with_events o w) as w1, (default no_events (events_of o w)) as ev. clear w.
  intros w ev H E. unfold on1. rewrite E. cbn [default id]. destruct (contextId o c) as [c'|]; [|by apply ok_array_add].
  assert (Hw : exists i w', (match idx ev !! t with Some i => (i, w) | None => new_index w end) = (i, w') /\
    let ev' := Events (arrays ev) (<[t := i]> (idx ev)) (lens ev) in world_ok (set_events o (Some ev') w')).
  { destruct (idx ev !! t) as [i|] eqn:Ei.
    - exists i, w. split; [done|]. cbn. apply (ok_shrink o _ w); [done|]. intros ev' [= <-]. exists ev.
      cbn. rewrite insert_id by done. split_and!; [done| |done|done|intros t'; by eapply (ok_noidx w H)].
      intros t' l' Hl'. exists l'. split_and!; [done|done|by eapply (ok_array w H)].
    - exists (next w), (new_index w).2. split; [done|]. by apply ok_ensure_index. }
  destruct Hw as (i & w' & Hi & H'). cbn beta iota zeta delta [id]. rewrite Hi. clear Hi. cbv zeta in *.
  set (ev' := Events (arrays ev) (<[t := i]> (idx ev)) (lens ev)) in *.
  destruct (lookup_key (f, c') (index_of (Some i) w')) as [r|] eqn:Ek; [done|].
  pose proof (ok_index_add o t i ev' (f, c') (set_events o (Some ev') w') H') as Ha.
  rewrite events_of_set in Ha. rewrite decide_True in Ha by done.
  specialize (Ha eq_refl (lookup_insert_eq _ _ _) Ek).
  cbn. unfold set_index, set_events, set_emitter, emitter_of in *. cbn in *.
  by rewrite lookup_insert_eq, insert_insert_eq in Ha.
Qed.

Lemma off1_ok o t f c w : world_ok w -> world_ok (off1 o t f c w).
Proof.
  intros H. unfold off1. destruct (events_of o w) as [ev|] eqn:E; [|done]. destruct f as [f|].
  2: { apply (ok_shrink o _ w); [done|]. intros ev' [= <-]. exists ev. cbn. split_and!; [done| |apply delete_subseteq| |].
       - intros t' l'. rewrite lookup_delete_Some. intros [_ Hl']. exists l'. split_and!; [done|done|by eapply (ok_array w H)].
       - intros t' [i Hi]. apply lookup_delete_Some in Hi as [Hne _]. by rewrite lookup_delete_ne.
       - intros t'. destruct (decide (t' = t)) as [->|Hne]; [by rewrite !lookup_delete_eq|].
         rewrite !lookup_delete_ne by done. by eapply (ok_noidx w H o). }
  destruct (contextId o c) as [c'|].
  - destruct (idx ev !! t) as [i|] eqn:Ei; [|done].
    destruct (lookup_key (f, c') (index_of (Some i) w)) as [r|] eqn:Ek; [|done].
    destruct (ok_index_remove o t i ev (f, c') r w H E Ei Ek) as (H1 & H2 & H3). by apply ok_silence.
  - destruct (arrays ev !! t) as [l|] eqn:El; [|done].
    destruct (take_listener f w l) as [[r l']|] eqn:Et; [|done].
    pose proof (ok_array w H _ _ _ _ E El) as Hd. destruct (take_listener_spec _ _ _ _ _ Et Hd) as (_ & Hr & Hd' & Hl').
    assert (Hheld : held w (SArray o t) r) by by exists ev, l.
    set (ev1 := Events _ _ _). destruct (ok_shrink o (Some ev1) w H) as [H1 Hh].
    { intros ev' [= <-]. exists ev. cbn. split_and!; [done| |done|done|intros t'; by eapply (ok_noidx w H o)].
      intros t' l0. destruct (decide (t' = t)) as [->|Hne].
      - rewrite lookup_insert_eq. intros [= <-]. exists l. split_and!; [done| |done]. intros x Hx. by apply Hl'.
      - rewrite lookup_insert_ne by done. intros Hl0. exists l0. split_and!; [done|done|by eapply (ok_array w H)]. }
    apply ok_silence; [done| |].
    + destruct (ok_held w H _ _ Hheld) as (x & Hx & _). by exists x.
    + intros s Hs. assert (s = SArray o t) as -> by (eapply (ok_unique w H); [by apply Hh|done]).
      destruct Hs as (ev' & l0 & E' & El' & Hr0). rewrite events_of_set, decide_True in E' by done.
      injection E' as <-. cbn in El'. rewrite lookup_insert_eq in El'. injection El' as <-.
      apply Hl' in Hr0 as [_ ?]. done.
Qed.

Lemma ok_foldl {A} (g : world -> A -> world) l :
  (forall w x, world_ok w -> world_ok (g w x)) -> forall w, world_ok w -> world_ok (foldl g w l).
Proof. intros Hg. induction l; cbn; auto. Qed.

Lemma off_all_ok o w : world_ok w -> world_ok (off_all o w).
Proof. intros H. by apply ok_shrink. Qed.

Lemma act_ok a w : world_ok w -> world_ok (act a w).
Proof.
  intros H. assert (Hon : forall o ts f c w, world_ok w -> world_ok (on_ o ts f c w)).
  { intros. apply ok_foldl; [|done]. intros. by apply on1_ok. }
  destruct a; cbn [act]; [by apply Hon| |by apply off_all_ok| |by apply ok_parents|by apply ok_parents|done].
  - unfold off_. case_match; [by apply off_all_ok|]. apply ok_foldl; [|done]. intros. by apply off1_ok.
  - unfold once. cbv zeta. apply Hon, Hon. by apply ok_bump.
Qed.

Definition empty_world : world := World ∅ ∅ ∅ 0.

Lemma empty_world_ok : world_ok empty_world.
Proof.
  assert (He : forall o, events_of o empty_world = None).
  { intros o. unfold events_of, emitter_of. cbn. by rewrite lookup_empty. }
  split; try (intros o ev; rewrite He; discriminate).
  - intros [o t|i k] r; cbn; [intros (ev & l & E & _); by rewrite He in E|].
    intros (l & E & _). by rewrite lookup_empty in E.
  - intros [o t|i k] s' r; cbn; [intros (ev & l & E & _); by rewrite He in E|].
    intros (l & E & _). by rewrite lookup_empty in E.
  - intros i l. cbn. by rewrite lookup_empty.
  - intros r [x Hx]. cbn in Hx. by rewrite lookup_empty in Hx.
  - intros r [x Hx]. cbn in Hx. by rewrite lookup_empty in Hx.
Qed.

(** ** What can happen to a listener *)

(** From one state to a later one a listener may only be removed, and it leaves an
    index only by being removed. *)
Record later (w w' : world) : Prop := {
  later_next : (next w <= next w')%nat;
  later_fn : forall r, (r < next w)%nat -> fn_of r w' = fn_of r w \/ fn_of r w' = None;
  later_index : forall i k r, (k, r) ∈ index_of (Some i) w -> (k, r) ∈ index_of (Some i) w' \/ fn_of r w' = None
}.

Lemma later_refl w : later w w.
Proof. split; auto. Qed.

Lemma indexed_held w i k r : (k, r) ∈ index_of (Some i) w -> held w (SIndex i k) r.
Proof. unfold index_of. destruct (indexes w !! i) as [l|] eqn:E; [|by intros ?%not_elem_of_nil]. by exists l. Qed.

Lemma held_next w s r : world_ok w -> held w s r -> (r < next w)%nat.
Proof. intros H Hs. destruct (ok_held w H _ _ Hs) as (l & Hl & _). apply (ok_next w H). by exists l. Qed.

Lemma later_trans w w1 w2 : world_ok w -> later w w1 -> later w1 w2 -> later w w2.
Proof.
  intros H [N1 F1 I1] [N2 F2 I2]. split; [lia| |].
  - intros r Hr. destruct (F1 r Hr) as [E1|E1], (F2 r ltac:(lia)) as [E2|E2]; rewrite E2; auto.
  - intros i k r Hin. pose proof (held_next w _ _ H (indexed_held _ _ _ _ Hin)) as Hr.
    destruct (I1 i k r Hin) as [Hin1|Hn]; [by apply I2|]. right.
    destruct (F2 r ltac:(lia)) as [E2|E2]; [by rewrite E2|done].
Qed.

(** Only the emitters change. *)
Lemma later_same w w' :
  listeners w' = listeners w -> indexes w' = indexes w -> (next w <= next w')%nat -> later w w'.
Proof. intros E1 E2 E3. split; [done| |]; unfold fn_of, index_of; rewrite ?E1, ?E2; auto. Qed.

Lemma later_on1 o t f c w : world_ok w -> later w (on1 o t f c w).
Proof.
  intros H. assert (Hf : forall r x, (r < next w)%nat ->
    <[next w := x]> (listeners w) !! r ≫= l_fn = listeners w !! r ≫= l_fn).
  { intros r x Hr. rewrite lookup_insert_ne; [done|lia]. }
  unfold on1. destruct (contextId o c) as [c'|]; cbn [default].
  2: { split; cbn; [lia| |by left]. intros r Hr. left. by apply Hf. }
  destruct (idx (default no_events (events_of o w)) !! t) as [i|]; cbv beta iota zeta.
  - case_match; [by apply later_same|]. cbn -[index_of]. split; cbn -[index_of]; [lia| |].
    + intros r Hr. left. by apply Hf.
    + intros i' k r Hin. left. unfold index_of at 1. cbn -[index_of]. destruct (decide (i' = i)) as [->|Hne].
      * rewrite lookup_insert_eq. cbn -[index_of]. apply elem_of_app. by left.
      * by rewrite lookup_insert_ne.
  - unfold new_index at 1. cbv beta iota. assert (Hi : forall l i' k r,
      (k, r) ∈ index_of (Some i') w -> (k, r) ∈ default [] (<[next w := l]> (indexes w) !! i')).
    { intros l i' k r Hin. destruct (decide (i' = next w)) as [->|Hne]; [|by rewrite lookup_insert_ne].
      apply indexed_held in Hin as (l' & Hl' & _). pose proof (ok_next_index w H _ (mk_is_Some _ _ Hl')). lia. }
    case_match.
    + split; cbn; [lia|by left|]. intros i' k r' Hin. left. by apply Hi.
    + cbn. split; cbn; [lia| |].
      * intros r Hr. left. unfold fn_of. cbn. rewrite lookup_insert_ne; [done|lia].
      * intros i' k r Hin. left. rewrite insert_insert_eq. by apply Hi.
Qed.

Lemma fn_of_silence r r' w : fn_of r' (silence r w) = if decide (r' = r) then None else fn_of r' w.
Proof.
  unfold fn_of, silence, set_listener. cbn. case_decide as E; [subst; by rewrite lookup_insert_eq|].
  by rewrite lookup_insert_ne.
Qed.

Lemma later_silence r w : later w (silence r w).
Proof.
  split; [done| |by left]. intros r' _. rewrite fn_of_silence. case_decide; auto.
Qed.

(** The listener that [_off] removes. *)
Definition removed (o : oid) (t : string) (f : fn) (ctx : option oid) (w : world) : option ref :=
  ev ← events_of o w;
  match contextId o ctx with
  | Some c => i ← idx ev !! t; lookup_key (f, c) (index_of (Some i) w)
  | None => l ← arrays ev !! t; fst <$> take_listener f w l
  end.

Lemma off1_removes o t f c r w : removed o t f c w = Some r -> fn_of r (off1 o t (Some f) c w) = None.
Proof.
  unfold removed, off1. destruct (events_of o w) as [ev|]; [|done]. cbn. destruct (contextId o c) as [c'|].
  - destruct (idx ev !! t) as [i|]; [|done]. cbn -[index_of]. intros E. rewrite E.
    rewrite fn_of_silence. by rewrite decide_True.
  - destruct (arrays ev !! t) as [l|]; [|done]. cbn. destruct (take_listener f w l) as [[r' l']|]; [|done].
    cbn. intros [= ->]. rewrite fn_of_silence. by rewrite decide_True.
Qed.

Lemma later_off1 o t f c w : world_ok w -> later w (off1 o t f c w).
Proof.
  intros H. unfold off1. destruct (events_of o w) as [ev|]; [|apply later_refl].
  destruct f as [f|]; [|by apply later_same]. destruct (contextId o c) as [c'|].
  - destruct (idx ev !! t) as [i|]; [|apply later_refl].
    destruct (lookup_key (f, c') (index_of (Some i) w)) as [r|] eqn:E; [|apply later_refl].
    split; [done| |].
    + intros r' _. rewrite fn_of_silence. case_decide; [by right|by left].
    + intros i' k r' Hin. rewrite fn_of_silence. case_decide as Hr; [by right|left]. unfold index_of at 1. cbn -[index_of].
      destruct (decide (i' = i)) as [->|Hne]; [|by rewrite lookup_insert_ne].
      rewrite lookup_insert_eq. cbn -[index_of]. unfold delete_key. apply list_elem_of_filter. split; [|done].
      cbn. intros ->. apply Hr. pose proof (indexed_held _ _ _ _ Hin) as (l & Hl & _).
      assert (El : index_of (Some i) w = l) by (unfold index_of; by rewrite Hl). rewrite El in *.
      pose proof (ok_index w H _ _ Hl) as Hd. apply elem_of_lookup_key in Hin; [|done]. congruence.
  - destruct (arrays ev !! t) as [l|]; [|apply later_refl].
    destruct (take_listener f w l) as [[r l']|]; [|apply later_refl].
    eapply later_trans; [done| |apply later_silence]. by apply later_same.
Qed.

(** Together: what the actions and firings preserve. *)
Definition since (w0 w : world) : Prop := world_ok w /\ later w0 w.

Lemma since_foldl {A} w0 (g : world -> A -> world) l :
  (forall w x, since w0 w -> since w0 (g w x)) -> forall w, since w0 w -> since w0 (foldl g w l).
Proof. intros Hg. induction l; cbn; auto. Qed.

Lemma since_act w0 a w : world_ok w0 -> since w0 w -> since w0 (act a w).
Proof.
  intros H0 Hw. split; [by apply act_ok; destruct Hw|].
  assert (Hon : forall o ts f c w, since w0 w -> since w0 (on_ o ts f c w)).
  { intros. apply since_foldl; [|done]. intros w' x [H1 H2]. split; [by apply on1_ok|].
    eapply later_trans; [done|done|by apply later_on1]. }
  assert (Hsame : forall w', listeners w' = listeners w -> indexes w' = indexes w -> (next w <= next w')%nat ->
    later w0 w'). { intros w' ???. destruct Hw. eapply later_trans; [done|done|by apply later_same]. }
  destruct a; cbn [act]; [by apply Hon| |by apply Hsame| |by apply Hsame|by apply Hsame|apply Hw].
  - unfold off_. case_match; [by apply Hsame|]. apply since_foldl; [|done].
    intros w' x [H1 H2]. split; [by apply off1_ok|]. eapply later_trans; [done|done|by apply later_off1].
  - unfold once. cbv zeta. apply Hon, Hon. split; [by apply ok_bump; destruct Hw|].
    apply Hsame; cbn; [done|done|lia].
Qed.

(** ** Firing *)

Lemma elem_of_insert_stamp p q l : p ∈ insert_stamp q l -> p = q \/ p ∈ l.
Proof.
  induction l as [|x l IH]; cbn [insert_stamp]; [set_solver|].
  repeat case_match; rewrite ?elem_of_cons; naive_solver.
Qed.

Section firing.
Context (code : nat -> option oid -> event -> world -> list action).

Lemma since_call w0 : world_ok w0 -> forall r f this e w, since w0 w -> fn_of r w = Some f ->
  True /\ Forall (fun _ => True) (body code f this e w).
Proof. intros H0 r f this e w _ _. split; [done|]. by apply Forall_true. Qed.

Lemma since_ok w0 : world_ok w0 -> forall a w, since w0 w -> True -> since w0 (act a w).
Proof. intros. by apply since_act. Qed.

Lemma fire_since w0 fuel o t d b w : world_ok w0 -> since w0 w -> result_ok (since w0) (fun _ => True) (fire code fuel o t d b w).
Proof.
  intros H0. apply (fire_result_ok code (since w0) (fun _ => True)); [by apply since_ok|by apply since_call].
Qed.

Lemma call_listener_spec fuel r this e w w' cs :
  world_ok w -> call_listener code (fire code fuel) r this e w = Some (w', cs) ->
  since w w' /\
  ((fn_of r w = None /\ cs = [] /\ w' = w) \/ exists f nested, fn_of r w = Some f /\ cs = [Call r f this e nested]).
Proof.
  intros H E. split.
  - pose proof (call_listener_ok code (since w) (fun _ => True) (fun _ => True) (since_ok w H) (since_call w H)
      (fire code fuel)) as Hok. specialize (Hok ltac:(intros; by apply fire_since) r this e w (conj H (later_refl w))).
    rewrite E in Hok. by destruct Hok.
  - revert E. unfold call_listener. destruct (fn_of r w) as [f|]; [|intros [= <- <-]; by left].
    destruct (run _ _ _) as [[w1 nested]|]; [|done]. cbn. intros [= <- <-]. right. by exists f, nested.
Qed.

(** A call made for a listener that was there in the state [w]. *)
Definition calls (w : world) (r : ref) (this : option oid) (e : event) (cs : list call) : Prop :=
  exists f nested, fn_of r w = Some f /\ Call r f this e nested ∈ cs.

Lemma calls_app w r this e cs cs' : calls w r this e cs \/ calls w r this e cs' -> calls w r this e (cs ++ cs').
Proof. intros [(f & n & ? & ?)|(f & n & ? & ?)]; exists f, n; (split; [done|]); apply elem_of_app; auto. Qed.

Lemma calls_later w w1 r this e cs :
  later w w1 -> (r < next w)%nat -> calls w1 r this e cs -> calls w r this e cs.
Proof. intros [_ Hf _] Hr (f & n & Hfn & Hin). exists f, n. split; [|done]. destruct (Hf r Hr); congruence. Qed.

Lemma later_none w w1 r : later w w1 -> (r < next w)%nat -> fn_of r w = None -> fn_of r w1 = None.
Proof. intros [_ Hf _] Hr E. destruct (Hf r Hr); congruence. Qed.

Lemma call_array_spec fuel o e rs : forall w w' cs,
  world_ok w -> (forall r, r ∈ rs -> (r < next w)%nat) -> call_array code (fire code fuel) o e rs w = Some (w', cs) ->
  since w w' /\ called <$> cs `sublist_of` rs /\ forall r, r ∈ rs -> calls w r (Some o) e cs \/ fn_of r w' = None.
Proof.
  induction rs as [|r rs IH]; intros w w' cs H Hrs; cbn [call_array].
  - intros [= <- <-]. split_and!; [split; [done|apply later_refl]|done|]. by intros r ?%not_elem_of_nil.
  - destruct (call_listener code (fire code fuel) r (Some o) e w) as [[w1 cs1]|] eqn:E1; [|done].
    destruct (call_listener_spec _ _ _ _ _ _ _ H E1) as [[H1 L1] Hc].
    cbn [mbind option_bind]. destruct (call_array code (fire code fuel) o e rs w1) as [[w2 cs2]|] eqn:E2; [|done].
    cbn. intros [= <- <-]. pose proof (Hrs r ltac:(by left)) as Hr.
    destruct (IH w1 w2 cs2 H1) as ([H2 L2] & Hsub & Hall); [|done|].
    { intros r' Hr'. pose proof (later_next _ _ L1). pose proof (Hrs r' ltac:(by right)). lia. }
    split_and!.
    + split; [done|]. by eapply later_trans.
    + rewrite fmap_app. destruct Hc as [(_ & -> & _)|(f & n & _ & ->)]; [by apply sublist_cons|by apply sublist_skip].
    + intros r' [->|Hr']%elem_of_cons.
      * destruct Hc as [(Hn & _ & ->)|(f & n & Hf & ->)]; [right; by eapply later_none|].
        left. apply calls_app. left. exists f, n. split; [done|by left].
      * destruct (Hall r' Hr') as [Hcall|]; [|by right]. left. apply calls_app. right.
        eapply calls_later; [done|by apply Hrs; right|done].
Qed.

Lemma call_index_spec fuel i e ks : forall w w' cs,
  world_ok w -> call_index code (fire code fuel) i e ks w = Some (w', cs) ->
  since w w' /\ forall k r, k ∈ ks -> (k, r) ∈ index_of (Some i) w -> calls w r (Some k.2) e cs \/ fn_of r w' = None.
Proof.
  induction ks as [|k ks IH]; intros w w' cs H; cbn [call_index].
  - intros [= <- <-]. split; [split; [done|apply later_refl]|]. by intros k r ?%not_elem_of_nil.
  - set (step := match lookup_key k (index_of (Some i) w) with Some r => _ | None => _ end).
    destruct step as [[w1 cs1]|] eqn:E1; [|done]. subst step.
    cbn [mbind option_bind]. destruct (call_index code (fire code fuel) i e ks w1) as [[w2 cs2]|] eqn:E2; [|done].
    cbn. intros [= <- <-].
    assert (Hlook : forall r, (k, r) ∈ index_of (Some i) w -> lookup_key k (index_of (Some i) w) = Some r).
    { intros r Hin. pose proof (indexed_held _ _ _ _ Hin) as (l & Hl & _). unfold index_of in *. rewrite Hl in *.
      apply elem_of_lookup_key; [by eapply (ok_index w H)|done]. }
    assert (Hc : since w w1 /\ forall r, (k, r) ∈ index_of (Some i) w ->
      (calls w r (Some k.2) e cs1 \/ fn_of r w1 = None)).
    { destruct (lookup_key k (index_of (Some i) w)) as [r|].
      - destruct (call_listener_spec _ _ _ _ _ _ _ H E1) as [Hs Hc]. split; [done|].
        intros r' Hin. pose proof (Hlook _ Hin) as [= ->]. apply indexed_held, (ok_held w H) in Hin as (x & Hx & ->).
        destruct Hc as [(Hn & _ & ->)|(f & n & Hf & ->)]; [by right|]. left. exists f, n. split; [done|].
        rewrite Hx. by left.
      - injection E1 as <- <-. split; [split; [done|apply later_refl]|]. intros r Hin. by apply Hlook in Hin. }
    destruct Hc as [[H1 L1] Hc]. destruct (IH w1 w2 cs2 H1 E2) as [[H2 L2] Hall].
    split; [split; [done|by eapply later_trans]|]. intros k' r Hk Hin.
    pose proof (held_next w _ _ H (indexed_held _ _ _ _ Hin)) as Hr. pose proof (later_next _ _ L1) as Hn.
    apply elem_of_cons in Hk as [->|Hk].
    + destruct (Hc r Hin); [left; apply calls_app; by left|right]. eapply later_none; [done|lia|done].
    + destruct (later_index _ _ L1 _ _ _ Hin) as [Hin1|Hno]; [|right; eapply later_none; [done|lia|done]].
      destruct (Hall k' r Hk Hin1); [|by right]. left. apply calls_app. right. by eapply calls_later.
Qed.

(** *** Termination

    The firings of the functions go down in some order of objects and types, and so
    do the parents. *)
Section terminates.
Context (rank : oid -> string -> nat).

Definition descends (a : action) (o : oid) (t : string) : Prop :=
  match a with
  | Fire o' t' _ _ => (rank o' t' < rank o t)%nat
  | AddParent o' p => forall t', (rank p t' < rank o' t')%nat
  | _ => True
  end.
Definition parents_descend (w : world) : Prop :=
  forall o p t, p ∈ parents (emitter_of o w) -> (rank p t < rank o t)%nat.
Definition adds_descending (a : action) : Prop :=
  match a with AddParent o' p => forall t', (rank p t' < rank o' t')%nat | _ => True end.

Hypothesis code_descends : forall n this e w, Forall (fun a => descends a (e_target e) (e_type e)) (code n this e w).

Lemma body_descends f this e w : Forall (fun a => descends a (e_target e) (e_type e)) (body code f this e w).
Proof using code_descends. destruct f; cbn [body]; [done|]. by repeat constructor. Qed.

Lemma parents_set_events o o' e w : parents (emitter_of o' (set_events o e w)) = parents (emitter_of o' w).
Proof.
  unfold set_events, set_emitter, emitter_of. cbn. destruct (decide (o' = o)) as [->|Hne].
  - by rewrite lookup_insert_eq.
  - by rewrite lookup_insert_ne.
Qed.

Lemma parents_on1 o o' t f c w : parents (emitter_of o' (on1 o t f c w)) = parents (emitter_of o' w).
Proof.
  unfold on1. destruct (contextId o c); [|cbn -[set_events]; by rewrite parents_set_events].
  destruct (idx _ !! t); cbn -[set_events index_of]; case_match; cbn -[set_events index_of]; by rewrite parents_set_events.
Qed.

Lemma parents_off1 o o' t f c w : parents (emitter_of o' (off1 o t f c w)) = parents (emitter_of o' w).
Proof.
  unfold off1. destruct (events_of o w); [|done]. destruct f; [|by rewrite parents_set_events].
  destruct (contextId o c); repeat case_match; try done; unfold silence, set_listener; subst;
    (etrans; [apply (parents_set_events o o')|done]).
Qed.

Lemma parents_act a w : parents_descend w -> adds_descending a -> parents_descend (act a w).
Proof.
  assert (Hf : forall A (g : world -> A -> world) l o', (forall w x, parents (emitter_of o' (g w x)) = parents (emitter_of o' w)) ->
    forall w, parents (emitter_of o' (foldl g w l)) = parents (emitter_of o' w)).
  { intros A g l o' Hg. induction l as [|x l IH]; intros w'; [done|]. cbn. by rewrite IH. }
  assert (Hon : forall o ts f c o' w, parents (emitter_of o' (on_ o ts f c w)) = parents (emitter_of o' w)).
  { intros. apply Hf. intros. apply parents_on1. }
  intros H Ha o' p t'. destruct a as [o ts f c|o ts f c|o|o ts f c|o q|o q|o ts d b]; cbn [act].
  - rewrite Hon. apply H.
  - unfold off_. case_match; [unfold off_all; rewrite parents_set_events; apply H|].
    rewrite Hf; [apply H|]. intros. apply parents_off1.
  - unfold off_all. rewrite parents_set_events. apply H.
  - unfold once. cbv zeta. rewrite !Hon. apply H.
  - unfold addEventParent, set_emitter, emitter_of at 1. cbn -[emitter_of]. destruct (decide (o' = o)) as [->|Hne].
    + rewrite lookup_insert_eq. cbn -[emitter_of]. intros [->|Hp]%elem_of_insert_stamp; [apply Ha|by apply H].
    + rewrite lookup_insert_ne by done. apply H.
  - unfold removeEventParent, set_emitter, emitter_of at 1. cbn -[emitter_of]. destruct (decide (o' = o)) as [->|Hne].
    + rewrite lookup_insert_eq. cbn -[emitter_of]. intros [_ Hp]%list_elem_of_filter. by apply H.
    + rewrite lookup_insert_ne by done. apply H.
  - apply H.
Qed.

Lemma parents_call r f this e w : parents_descend w -> fn_of r w = Some f ->
  True /\ Forall adds_descending (body code f this e w).
Proof using code_descends.
  intros _ _. split; [done|]. eapply Forall_impl; [apply (body_descends f this e w)|]. intros []; done.
Qed.

Definition returns (x : result) : Prop := exists w cs, x = Some (w, cs) /\ parents_descend w.

Lemma returns_intro (x : result) : is_Some x -> result_ok parents_descend (fun _ => True) x -> returns x.
Proof. intros [[w cs] ->] [H _]. by exists w, cs. Qed.

Lemma returns_seq (x : result) f :
  returns x -> (forall w, parents_descend w -> returns (f w)) ->
  returns ('(w1, cs) ← x; '(w2, cs') ← f w1; Some (w2, cs ++ cs')).
Proof. intros (w & cs & -> & Hw) Hf. cbn. destruct (Hf w Hw) as (w2 & cs' & -> & Hw2). cbn. by eexists _, _. Qed.

Lemma listens_returns fuel : forall o t b w, parents_descend w -> (rank o t < fuel)%nat -> is_Some (listens fuel o t b w).
Proof.
  induction fuel as [|fuel IH]; intros o t b w Hw Hr; [lia|]. cbn [listens]. cbv zeta.
  match goal with |- is_Some (if ?c then _ else _) => destruct c end; [done|].
  destruct b; [|done]. assert (Hp : forall p, p ∈ parents (emitter_of o w) -> is_Some (listens fuel p t true w)).
  { intros p Hp. apply IH; [done|]. pose proof (Hw o p t Hp). lia. }
  induction (parents (emitter_of o w)) as [|p ps IHp]; [done|]. cbn.
  destruct (Hp p ltac:(by left)) as [bp ->]. cbn. destruct bp; [done|]. apply IHp. intros q Hq. apply Hp. by right.
Qed.

Section level.
Context (fire_ : oid -> string -> event_data -> bool -> world -> result) (o : oid) (t : string).
Hypothesis fire_rec : forall o' t' d b w, parents_descend w -> (rank o' t' < rank o t)%nat -> returns (fire_ o' t' d b w).

Lemma run_returns l : forall w, parents_descend w -> Forall (fun a => descends a o t) l -> returns (run fire_ l w).
Proof using fire_rec.
  induction l as [|a l IH]; intros w Hw Hl; [by exists w, []|]. apply Forall_cons in Hl as [Ha Hl]. cbn [run].
  apply returns_seq; [|by auto]. assert (Hact : adds_descending a -> returns (Some (act a w, []))).
  { intros Hd. exists (act a w), []. split; [done|]. by apply parents_act. }
  destruct a; try by apply Hact. by apply fire_rec.
Qed.

Lemma call_listener_returns r this e w :
  e_target e = o -> e_type e = t -> parents_descend w -> returns (call_listener code fire_ r this e w).
Proof using code_descends fire_rec.
  intros He Ht Hw. unfold call_listener. destruct (fn_of r w) as [f|]; [|by exists w, []].
  pose proof (body_descends f this e w) as Hb. rewrite He, Ht in Hb.
  destruct (run_returns _ w Hw Hb) as (w1 & cs & -> & Hw1). by eexists _, _.
Qed.

Lemma call_own_returns e w : e_target e = o -> e_type e = t -> parents_descend w -> returns (call_own code fire_ o t e w).
Proof using code_descends fire_rec.
  intros He Ht Hw. unfold call_own. destruct (events_of o w) as [ev|]; [|by exists w, []].
  apply returns_seq.
  - generalize (default [] (arrays ev !! t)) as rs. intros rs. revert w Hw. induction rs as [|r rs IH]; intros w Hw; [by exists w, []|].
    cbn [call_array]. apply returns_seq; [by apply call_listener_returns|auto].
  - intros w1 Hw1. destruct (idx ev !! t) as [i|]; [|by exists w1, []].
    generalize ((index_of (Some i) w1).*1) as ks. intros ks. revert w1 Hw1.
    induction ks as [|k ks IH]; intros w1 Hw1; [by exists w1, []|].
    cbn [call_index]. apply returns_seq; [|auto].
    case_match; [by apply call_listener_returns|by exists w1, []].
Qed.

Lemma propagate_returns e ps w :
  e_type e = t -> (forall p, p ∈ ps -> (rank p t < rank o t)%nat) -> parents_descend w -> returns (propagate_event fire_ o e ps w).
Proof using fire_rec.
  intros Ht. revert w. induction ps as [|p ps IH]; intros w Hps Hw; [by exists w, []|]. cbn [propagate_event].
  apply returns_seq; [|intros w1 Hw1; apply IH; [|done]; intros q Hq; apply Hps; by right].
  case_decide; [|by exists w, []]. apply fire_rec; [done|]. rewrite Ht. apply Hps. by left.
Qed.
End level.

Lemma fire_descends fuel : forall o t d b w, parents_descend w -> (rank o t < fuel)%nat -> returns (fire code fuel o t d b w).
Proof using code_descends.
  induction fuel as [|fuel IH]; intros o t d b w Hw Hr; [lia|]. cbn [fire].
  destruct (listens_returns (S fuel) o t b w Hw Hr) as [bl ->]. cbn [mbind option_bind].
  destruct bl; cbn [negb]; [|by exists w, []].
  assert (Hf : forall o' t' d b w, parents_descend w -> (rank o' t' < rank o t)%nat -> returns (fire code fuel o' t' d b w)).
  { intros. apply IH; [done|lia]. }
  apply returns_seq; [by apply call_own_returns|]. intros w1 Hw1. destruct b; [|by exists w1, []].
  apply (propagate_returns (fire code fuel) o t Hf); [done|by intros p; apply Hw1|done].
Qed.
End terminates.
End firing.

Section reachable.
Context (code : nat -> option oid -> event -> world -> list action).

(** What the program does, between two events of the browser. *)
Inductive ev_step : world -> world -> Prop :=
| step_act a w : ev_step w (act a w)
| step_fire fuel o t d b w w' cs : fire code fuel o t d b w = Some (w', cs) -> ev_step w w'.

Lemma steps_since w0 w w' : world_ok w0 -> since w0 w -> rtc ev_step w w' -> since w0 w'.
Proof.
  intros H0 Hw Hs. induction Hs as [|w w1 w2 Hst _ IH]; [done|]. apply IH. destruct Hst.
  - by apply since_act.
  - pose proof (fire_since code w0 fuel o t d b w H0 Hw) as Hf. rewrite H in Hf. by destruct Hf.
Qed.
End reachable.

Lemma removed_next o t f c w r : world_ok w -> removed o t f c w = Some r -> (r < next w)%nat.
Proof.
  intros H. unfold removed. destruct (events_of o w) as [ev|] eqn:E; [|done]. cbn. destruct (contextId o c) as [c'|].
  - destruct (idx ev !! t) as [i|] eqn:Ei; [|done]. cbn -[index_of]. intros Hk.
    destruct (ok_idx w H _ _ _ _ E Ei) as (l & Hl & _). unfold index_of in Hk. rewrite Hl in Hk. cbn in Hk.
    apply elem_of_lookup_key in Hk; [|by eapply (ok_index w H)].
    apply (held_next w (SIndex i (f, c')) _ H). by exists l.
  - destruct (arrays ev !! t) as [l|] eqn:El; [|done]. cbn. destruct (take_listener f w l) as [[r' l']|] eqn:Et; [|done].
    cbn. intros [= ->]. destruct (take_listener_spec _ _ _ _ _ Et (ok_array w H _ _ _ _ E El)) as (_ & Hr & _).
    apply (held_next w (SArray o t) _ H). by exists ev, l.
Qed.

(** ** Properties *)

(** Whatever the functions do, in every state the program can reach the event
    tables are well-formed: no listener is kept twice, each is kept with its own
    function and context, an index has one listener for a function and context, and
    the count kept beside an index is the number of its listeners. *)
Theorem events_invariant code w : rtc (ev_step code) empty_world w -> world_ok w.
Proof. intros H. eapply (steps_since code empty_world); [|split|exact H]; auto using empty_world_ok, later_refl. Qed.

(** Firing an event calls every listener the object has for its type, with the
    event and the listener's [this], unless another function removed it before its
    turn; those of the array come first, once each, in the order they were added. *)
Theorem fire_calls_listeners code fuel o t d b w w' cs ev :
  world_ok w -> events_of o w = Some ev -> fire code fuel o t d b w = Some (w', cs) ->
  (forall l, arrays ev !! t = Some l -> exists cs1 cs2, cs = cs1 ++ cs2 /\ called <$> cs1 `sublist_of` l /\
    forall r, r ∈ l -> calls w r (Some o) (Event t o d) cs1 \/ fn_of r w' = None) /\
  (forall i k r, idx ev !! t = Some i -> (k, r) ∈ index_of (Some i) w ->
    calls w r (Some k.2) (Event t o d) cs \/ fn_of r w' = None).
Proof.
  intros H Ho. destruct fuel as [|fuel]; [done|]. cbn [fire].
  destruct (listens (S fuel) o t b w) as [bl|] eqn:El; [|done]. cbn [mbind option_bind]. destruct bl; cbn [negb].
  2: { intros [= <- <-]. cbn [listens] in El. rewrite Ho in El. cbv zeta in El.
       destruct (arrays ev !! t) as [l|] eqn:Ea; [by rewrite bool_decide_true in El|]. split; [done|].
       intros i k r Hi Hin. exfalso. destruct (ok_idx w H _ _ _ _ Ho Hi) as (l & Hl & Hlen).
       unfold index_of in Hin. rewrite Hl in Hin. cbn in Hin. destruct l as [|x l]; [by apply not_elem_of_nil in Hin|].
       destruct (lens ev !! t) as [n|]; cbn in Hlen; [|lia]. rewrite (proj2 (Z.eqb_neq n 0)) in El by lia.
       rewrite orb_true_r in El. done. }
  unfold call_own. rewrite Ho. cbv zeta.
  destruct (call_array code (fire code fuel) o (Event t o d) (default [] (arrays ev !! t)) w) as [[w1 cs1]|] eqn:E1; [|done].
  pose proof (fun Hr => call_array_spec code fuel o _ _ w w1 cs1 H Hr E1) as Hspec.
  destruct Hspec as ([H1 L1] & Hsub & Hall).
  { intros r Hr. destruct (arrays ev !! t) as [l|] eqn:Ea; [|by apply not_elem_of_nil in Hr].
    apply (held_next w (SArray o t) _ H). by exists ev, l. }
  cbn [mbind option_bind].
  set (index := match idx ev !! t with Some i => _ | None => _ end).
  destruct index as [[w2 cs2]|] eqn:E2; [|done]. cbn [mbind option_bind].
  set (parent := if b then _ else _). destruct parent as [[w3 cs3]|] eqn:E3; [|done].
  cbn [mbind option_bind]. intros [= <- <-].
  assert (Hidx : since w1 w2 /\ forall i k r, idx ev !! t = Some i -> (k, r) ∈ index_of (Some i) w1 ->
    calls w1 r (Some k.2) (Event t o d) cs2 \/ fn_of r w2 = None).
  { subst index. destruct (idx ev !! t) as [i|].
    - destruct (call_index_spec code fuel i (Event t o d) _ w1 w2 cs2 H1 E2) as [Hs Hc]. split; [done|].
      intros i' k r [= <-] Hin. apply (Hc k r); [|done]. apply list_elem_of_fmap. by exists (k, r).
    - injection E2 as <- <-. split; [split; [done|apply later_refl]|done]. }
  destruct Hidx as [[H2 L2] Hidx].
  assert (L3 : later w2 w3).
  { subst parent. destruct b; [|injection E3 as <- <-; apply later_refl].
    pose proof (propagate_ok (since w2) (fun _ => True) (fire code fuel)) as Hp.
    specialize (Hp ltac:(intros; by apply fire_since) o (Event t o d) (parents (emitter_of o w2)) w2 (conj H2 (later_refl w2))).
    rewrite E3 in Hp. by destruct Hp as [[_ ?] _]. }
  assert (L13 : later w1 w3) by by eapply later_trans.
  pose proof (later_next _ _ L1). split.
  - intros l Ea. rewrite Ea in *. cbn [default id] in *. exists cs1, (cs2 ++ cs3). split_and!; [by rewrite app_assoc|done|].
    intros r Hr. destruct (Hall r Hr) as [|Hn]; [by left|right].
    assert (r < next w)%nat by (apply (held_next w (SArray o t) _ H); by exists ev, l).
    eapply later_none; [done|lia|done].
  - intros i k r Hi Hin. pose proof (held_next w _ _ H (indexed_held _ _ _ _ Hin)) as Hr.
    destruct (later_index _ _ L1 _ _ _ Hin) as [Hin1|Hn]; [|right; eapply later_none; [done|lia|done]].
    destruct (Hidx i k r Hi Hin1) as [Hc|Hn].
    + left. apply calls_app. left. apply calls_app. right. by eapply calls_later.
    + right. pose proof (later_next _ _ L2). apply (later_none w2); [done|lia|done].
Qed.

(** A listener that was removed is never called again: not by a later event, not
    by an event fired inside another, whatever is added meanwhile. *)
Theorem removed_never_called code o t f c r w w1 fuel o' t' d b w2 cs :
  world_ok w -> removed o t f c w = Some r -> rtc (ev_step code) (off1 o t (Some f) c w) w1 ->
  fire code fuel o' t' d b w1 = Some (w2, cs) -> r ∉ List.flat_map refs_of cs.
Proof.
  intros H Hr Hs Hf. set (w0 := off1 o t (Some f) c w) in *.
  assert (H0 : world_ok w0) by by apply off1_ok.
  destruct (steps_since code w0 w0 w1 H0 (conj H0 (later_refl w0)) Hs) as [H1 L1].
  assert (Hn : (r < next w0)%nat).
  { pose proof (removed_next _ _ _ _ _ _ H Hr). pose proof (later_next _ _ (later_off1 o t (Some f) c w H)). unfold w0. lia. }
  pose proof (fire_result_ok code (fun w => since w0 w) (fun _ => True) (fun r' => r' <> r)) as Hk.
  specialize (Hk ltac:(intros; by apply since_act)).
  assert (Hcall : forall r' g this e w', since w0 w' -> fn_of r' w' = Some g ->
    r' <> r /\ Forall (fun _ => True) (body code g this e w')).
  { intros r' g this e w' [_ Lw] Hg. split; [|by apply Forall_true]. intros ->.
    rewrite (later_none w0 w' r Lw Hn) in Hg; [done|]. by apply off1_removes. }
  specialize (Hk Hcall fuel o' t' d b w1 (conj H1 L1)). rewrite Hf in Hk. destruct Hk as [_ Hk].
  intros Hin. by apply (proj1 (Forall_forall _ _) Hk r Hin).
Qed.

(** Firing returns, when the events that functions fire and the parents go down in
    some order of the objects and types. *)
Theorem fire_terminates code rank fuel o t d b w :
  (forall n this e w, Forall (fun a => descends rank a (e_target e) (e_type e)) (code n this e w)) ->
  parents_descend rank w -> (rank o t < fuel)%nat ->
  exists w' cs, fire code fuel o t d b w = Some (w', cs).
Proof.
  intros Hcode Hw Hr. destruct (fire_descends code rank Hcode fuel o t d b w Hw Hr) as (w' & cs & E & _).
  by exists w', cs.
Qed.

(** *** Examples *)

(** Object 1 has object 0 as a parent; function 1 removes function 2 and fires "y",
    whose function 3 does nothing. *)
Definition sample_code (n : nat) (this : option oid) (e : event) (w : world) : list action :=
  match n with
  | 1%nat => if String.eqb (e_type e) "x" then [Off 1 "x" (Some (User 2)) None; Fire 1 "y" (EventData None []) false] else []
  | _ => []
  end.

Definition sample_world : world :=
  on_ 0 "x" (User 5) None (addEventParent 1 0
    (on_ 1 "x" (User 4) (Some 7%nat) (on_ 1 "y" (User 3) None (on_ 1 "x y" (User 2) None (on_ 1 "x" (User 1) None empty_world))))).

Definition call_fn (c : call) : fn := match c with Call _ f _ _ _ => f end.
Definition names (x : result) : option (list fn) :=
  match x with Some (_, cs) => Some (map call_fn cs) | None => None end.

Example sample_fire :
  names (fire sample_code 10 1 "x" (EventData None []) true sample_world) = Some [User 1; User 4; User 5].
Proof. vm_compute. reflexivity. Qed.

Lemma sample_reachable : rtc (ev_step sample_code) empty_world sample_world.
Proof.
  unfold sample_world.
  eapply rtc_l; [apply (step_act _ (On 1 "x" (User 1) None))|]. eapply rtc_l; [apply (step_act _ (On 1 "x y" (User 2) None))|].
  eapply rtc_l; [apply (step_act _ (On 1 "y" (User 3) None))|]. eapply rtc_l; [apply (step_act _ (On 1 "x" (User 4) (Some 7%nat)))|].
  eapply rtc_l; [apply (step_act _ (AddParent 1 0))|]. eapply rtc_l; [apply (step_act _ (On 0 "x" (User 5) None))|].
  apply rtc_refl.
Qed.

Lemma sample_world_ok : world_ok sample_world.
Proof. eapply (steps_since sample_code empty_world); [|split|apply sample_reachable]; auto using empty_world_ok, later_refl. Qed.

Lemma events_invariant_witness : world_ok sample_world.
Proof. apply (events_invariant sample_code). exact sample_reachable. Defined.

Lemma fire_calls_listeners_witness :
  exists w' cs, fire sample_code 10 1 "x" (EventData None []) true sample_world = Some (w', cs) /\
    (calls sample_world 5 (Some 7%nat) (Event "x" 1 (EventData None [])) cs \/ fn_of 5 w' = None).
Proof.
  destruct (fire sample_code 10 1 "x" (EventData None []) true sample_world) as [[w' cs]|] eqn:E; [|vm_compute in E; discriminate].
  exists w', cs. split; [reflexivity|].
  destruct (events_of 1 sample_world) as [ev|] eqn:Eo; [|vm_compute in Eo; discriminate].
  refine (proj2 (fire_calls_listeners sample_code 10 1 "x" _ true sample_world w' cs ev sample_world_ok Eo E) 4%nat (User 4, 7%nat) 5%nat _ _).
  - assert (Hi : (ev ← events_of 1 sample_world; idx ev !! "x") = Some 4%nat) by (vm_compute; reflexivity).
    rewrite Eo in Hi. exact Hi.
  - vm_compute. by left.
Defined.

Lemma removed_never_called_witness :
  exists w' cs, fire sample_code 10 1 "x" (EventData None []) true (off1 1 "x" (Some (User 1)) None sample_world) = Some (w', cs) /\
    0%nat ∉ List.flat_map refs_of cs.
Proof.
  destruct (fire sample_code 10 1 "x" (EventData None []) true (off1 1 "x" (Some (User 1)) None sample_world)) as [[w' cs]|] eqn:E;
    [|vm_compute in E; discriminate].
  exists w', cs. split; [reflexivity|].
  refine (removed_never_called sample_code 1 "x" (User 1) None 0 sample_world _ 10 1 "x" _ true w' cs sample_world_ok _ (rtc_refl _ _) E).
  vm_compute. reflexivity.
Defined.

(** Of objects 0 and 1, types "x" and the others. *)
Definition sample_rank (o : oid) (t : string) : nat := (if String.eqb t "x" then 2 else 0) + o.

Lemma fire_terminates_witness :
  exists w' cs, fire sample_code 10 1 "x" (EventData None []) true sample_world = Some (w', cs).
Proof.
  apply (fire_terminates sample_code sample_rank).
  - intros [|[|n]] this [t o d] w; cbn; [constructor| |constructor].
    destruct (String.eqb t "x") eqn:E; [|constructor]. apply String.eqb_eq in E as ->.
    apply Forall_cons. split; [exact I|]. apply Forall_cons. split; [cbn; lia|constructor].
  - apply (parents_act sample_rank (On 0 "x" (User 5) None)); [|exact I].
    apply (parents_act sample_rank (AddParent 1 0)); [|intros t'; unfold sample_rank; lia].
    apply (parents_act sample_rank (On 1 "x" (User 4) (Some 7%nat))); [|exact I].
    apply (parents_act sample_rank (On 1 "y" (User 3) None)); [|exact I].
    apply (parents_act sample_rank (On 1 "x y" (User 2) None)); [|exact I].
    apply (parents_act sample_rank (On 1 "x" (User 1) None)); [|exact I].
    intros o p t Hp. unfold emitter_of in Hp. cbn in Hp. rewrite lookup_empty in Hp. by apply not_elem_of_nil in Hp.
  - vm_compute. lia.
Defined.

(** ** Findings *)

(** An object from which the only listener was removed still listens: the array of its
    listeners is empty, not missing. *)
Theorem listens_after_removal :
  listens 1 0 "x" false (off_ 0 "x" (Some (User 1)) None (on_ 0 "x" (User 1) None empty_world)) = Some true /\
  listens 1 0 "x" false (off_ 0 "x" (Some (User 1)) (Some 7%nat) (on_ 0 "x" (User 1) (Some 7%nat) empty_world)) = Some false.
Proof. split; vm_compute; reflexivity. Qed.

(** [once] removes a listener that [on] added for the same function and context. *)
Theorem once_removes_on :
  let w := once 0 "x" (User 9) (Some 7%nat) (on_ 0 "x" (User 9) (Some 7%nat) empty_world) in
  let fire_x := fire sample_code 5 0 "x" (EventData None []) false in
  names (fire_x (on_ 0 "x" (User 9) (Some 7%nat) empty_world)) = Some [User 9] /\
  option_map head (names (fire_x w)) = Some (Some (User 9)) /\
  (match fire_x w with Some (w', _) => names (fire_x w') | None => None end) = Some [].
Proof. vm_compute. repeat split. Qed.
