(* ===== verification/SpanList.v ===== *)
(** * Lists of spans: run-length encoded sizes and flags of columns and rows

    Models [SpanList], [BoolSpanList], [parseSpanListEncoding] and [binarySearch] of
    src/browser/src/layer/tile/SheetGeometry.ts.  A sheet has a million rows, most of
    them alike, so the server sends spans of equal ones: a span holds its last element
    and the value of each of its elements. *)

From S2P Require Import Prelude JsText.
Local Open Scope Z_scope.

(** ** [binarySearch]

    [None] as the direction: the direction provider raises an exception.  [None] as the
    result: it raised, or the fuel ran out ([binarySearch_spec]: neither happens). *)
Section search.
Context {A : Type} (directionProvider : option A -> A -> option A -> option Z).

(** [array[i]]; [None]: undefined. *)
Definition at_ (array : list A) (i : Z) : option A := if i <? 0 then None else array !! Z.to_nat i.

(** [directionProvider(key, array[i - 1], array[i], array[i + 1])] *)
Definition probe (array : list A) (i : Z) : option Z :=
  at_ array i ≫= fun cur => directionProvider (at_ array (i - 1)) cur (at_ array (i + 1)).

(** The loop of [_findFirstMatch], from [index = n - 1] down. *)
Fixpoint first_match_loop (array : list A) (n : nat) : option Z :=
  match n with
  | O => Some 0
  | S i => probe array (Z.of_nat i) ≫= fun d => if d =? 0 then first_match_loop array i else Some (Z.of_nat n)
  end.

Definition findFirstMatch (array : list A) (randomMatchingIndex : Z) : option Z :=
  if randomMatchingIndex =? 0 then Some 0 else first_match_loop array (Z.to_nat randomMatchingIndex).

(** The loop; -1 when [start] passes [end]. *)
Fixpoint search_loop (fuel : nat) (array : list A) (start end_ : Z) : option Z :=
  match fuel with
  | O => None
  | S fuel =>
      if start <=? end_ then
        let mid := js_round_div (start + end_) 2 in
        probe array mid ≫= fun direction =>
          if direction =? 0 then Some mid
          else if direction =? -1 then search_loop fuel array start (mid - 1)
          else search_loop fuel array (mid + 1) end_
      else Some (-1)
  end.

Definition binarySearch (array : list A) (firstMatch : bool) : option Z :=
  let end_ := Z.of_nat (length array) - 1 in
  match array with
  | [] => Some (-1)
  | first :: _ =>
      directionProvider None first (at_ array 1) ≫= fun startDir =>
      if startDir <=? 0 then Some startDir
      else
        at_ array end_ ≫= fun last =>
        directionProvider (at_ array (end_ - 1)) last None ≫= fun endDir =>
        if 0 <=? endDir then
          if endDir =? 1 then Some (-1)
          else if firstMatch then findFirstMatch array end_ else Some end_
        else
          search_loop (S (length array)) array 0 end_ ≫= fun mid =>
          if (mid =? -1) || negb firstMatch then Some mid else findFirstMatch array mid
  end.
End search.

(** ** Spans *)

(** What [_updatePositions] attaches to a span: the size of one element in core pixels
    and the end of the span in three units. *)
Record positions := Positions { sizecore : Z; poscorepx : Z; postiletwips : Z; posprinttwips : Z }.

(** [SpanData]: the last element, the value, and the attached data. *)
Record span := Span { sp_index : Z; sp_value : Z; sp_data : option positions }.

(** [SpanViewData], a copy of a span that knows its first element. *)
Record span_view := SpanView { sv_start : Z; sv_end : Z; sv_size : Z; sv_data : option positions }.

(** The fields that are searched. *)
Inductive field := PosTileTwips | PosPrintTwips.
Definition get_field (f : field) (p : positions) : Z :=
  match f with PosTileTwips => postiletwips p | PosPrintTwips => posprinttwips p end.

(** [BoolSpanList]: the flag of the first span and the last element of each. *)
Record bool_spans := BoolSpans { startBit : bool; ends : list Z }.

(** ** [parseSpanListEncoding], for sizes and for flags *)

(** [None]: undefined. *)
Definition parse_span (s : string) : option span :=
  match split_on ":" s with
  | [v; i] => parseInt i ≫= fun i => parseInt v ≫= fun v => Some (Span i v None)
  | _ => None
  end.

Definition parse_spans (encoding : string) : option (list span) :=
  let splits := split_on " " encoding in
  if (length splits <? 2)%nat then None else mapM parse_span (take (length splits - 1) splits).

Definition parse_bool_spans (encoding : string) : option bool_spans :=
  match split_on " " encoding with
  | (s :: _ :: _) as splits =>
      match split_on ":" s with
      | [b; e] =>
          parseInt b ≫= fun startBitInt =>
          parseInt e ≫= fun first =>
          mapM parseInt (drop 1 (take (length splits - 1) splits)) ≫= fun entries =>
          Some (BoolSpans (negb (startBitInt =? 0)) (first :: entries))
      | _ => None
      end
  | _ => None
  end.

(** ** Operations *)

(** The loop of [union]; [None]: out of fuel. *)
Fixpoint union_loop (fuel : nat) (this other : list Z) (thisBit otherBit resultBit : bool) (maxElement : Z) : option (list Z) :=
  match fuel with
  | O => None
  | S fuel =>
      match this, other with
      | thisElement :: this', otherElement :: other' =>
          let next lastElement this other thisBit otherBit :=
            let nextResultBit := thisBit || otherBit in
            if negb (Bool.eqb resultBit nextResultBit) || (maxElement <=? lastElement)
            then cons lastElement <$> union_loop fuel this other thisBit otherBit nextResultBit maxElement
            else union_loop fuel this other thisBit otherBit resultBit maxElement in
          if thisElement <? otherElement then next thisElement this' other (negb thisBit) otherBit
          else if otherElement <? thisElement then next otherElement this other' thisBit (negb otherBit)
          else next otherElement this' other' (negb thisBit) (negb otherBit)
      | _, _ => Some []
      end
  end.

(** [union] of two lists; [Some None]: undefined. *)
Definition union_spans (this other : bool_spans) : option (option bool_spans) :=
  if negb (bool_decide (last (ends this) = last (ends other))) then Some None
  else
    let resultBit := startBit this || startBit other in
    match last (ends this) with
    | None => Some (Some (BoolSpans resultBit []))
    | Some maxElement =>
        union_loop (S (length (ends this) + length (ends other))) (ends this) (ends other)
                   (startBit this) (startBit other) resultBit maxElement ≫= fun l =>
        Some (Some (BoolSpans resultBit l))
    end.

(** The loop of [applyZeroValues]. *)
Fixpoint zero_loop (fuel : nat) (this : list span) (other : list Z) (zeroBit : bool) (resultValue maxElement : Z)
    : option (list span) :=
  match fuel with
  | O => None
  | S fuel =>
      match this, other with
      | thisSpan :: this', otherElement :: other' =>
          let thisElement := sp_index thisSpan in
          let next lastElement this other zeroBit :=
            let nextResultValue := match this with [] => resultValue | s :: _ => if zeroBit : bool then 0 else sp_value s end in
            if negb (resultValue =? nextResultValue) || (maxElement <=? lastElement)
            then cons (Span lastElement resultValue None) <$> zero_loop fuel this other zeroBit nextResultValue maxElement
            else zero_loop fuel this other zeroBit resultValue maxElement in
          if thisElement <? otherElement then next thisElement this' other zeroBit
          else if otherElement <? thisElement then next otherElement this other' (negb zeroBit)
          else next otherElement this' other' (negb zeroBit)
      | _, _ => Some []
      end
  end.

(** [applyZeroValues]: [None] raises an exception (there is no span), [Some None] is
    undefined. *)
Definition applyZeroValues (this : list span) (other : option bool_spans) : option (option (list span)) :=
  match other with
  | None => Some None
  | Some other =>
      match this, last this with
      | first :: _, Some s =>
          if negb (bool_decide (last (ends other) = Some (sp_index s))) then Some None
          else
            zero_loop (S (length this + length (ends other))) this (ends other) (startBit other)
                      (if startBit other then 0 else sp_value first) (sp_index s) ≫= fun l => Some (Some l)
      | _, _ => None
      end
  end.

(** [addCustomDataForEachSpan]; the callback has a state [S]. *)
Fixpoint add_data {S : Type} (callback : Z -> Z -> Z -> S -> S * positions) (prevIndex : Z) (l : list span) (s : S) : list span :=
  match l with
  | [] => []
  | sp :: l' =>
      let '(s', d) := callback (sp_index sp) (sp_value sp) (sp_index sp - prevIndex) s in
      Span (sp_index sp) (sp_value sp) (Some d) :: add_data callback (sp_index sp) l' s'
  end.

(** [_getSpanData] *)
Definition getSpanData (l : list span) (spanid : Z) : option span_view :=
  at_ l spanid ≫= fun s =>
  let start := if 0 <? spanid then match at_ l (spanid - 1) with Some p => sp_index p + 1 | None => 0 end else 0 in
  Some (SpanView start (sp_index s) (sp_value s) (sp_data s)).

(** [_searchByIndex] *)
Definition index_direction (testIndex : Z) (prevSpan : option span) (curSpan : span) (_ : option span) : option Z :=
  let spanStart := match prevSpan with Some p => sp_index p + 1 | None => 0 end in
  Some (if testIndex <? spanStart then -1 else if sp_index curSpan <? testIndex then 1 else 0).

Definition searchByIndex (l : list span) (i : Z) : option Z := binarySearch (index_direction i) l false.

(** [getSpanDataByIndex]; [Some None]: undefined. *)
Definition getSpanDataByIndex (l : list span) (i : Z) : option (option span_view) :=
  searchByIndex l i ≫= fun spanid => Some (if spanid =? -1 then None else getSpanData l spanid).

(** [_searchByCustomDataField], for the value [num / den]. *)
Definition field_direction (f : field) (num den : Z) (prevSpan : option span) (curSpan : span) (nextSpan : option span) : option Z :=
  let get (s : span) : option Z := get_field f <$> sp_data s in
  (match prevSpan with Some p => get p | None => Some 0 end) ≫= fun valueStart =>
  get curSpan ≫= fun valueEnd =>
  let valueEnd := valueEnd - match nextSpan with Some _ => 1 | None => 0 end in
  Some (if num <? valueStart * den then -1 else if valueEnd * den <? num then 1 else 0).

Definition searchByCustomDataField (l : list span) (f : field) (num den : Z) : option Z :=
  binarySearch (field_direction f num den) l true.

Definition getSpanDataByCustomDataField (l : list span) (f : field) (num den : Z) : option (option span_view) :=
  searchByCustomDataField l f num den ≫= fun spanid => Some (if spanid =? -1 then None else getSpanData l spanid).

(** [forEachSpan] and [forEachSpanInRange]: the spans the callback gets. *)
Definition forEachSpan (l : list span) : list span_view :=
  omap (fun id => getSpanData l (Z.of_nat id)) (seq 0 (length l)).

Fixpoint range_loop (fuel : nat) (l : list span) (id end_ : Z) : list span_view :=
  match fuel with
  | O => []
  | S fuel =>
      match getSpanData l id with
      | None => []
      | Some v =>
          v :: (if (id + 1 <? Z.of_nat (length l)) && (sv_end v <=? end_) then range_loop fuel l (id + 1) end_ else [])
      end
  end.

Definition forEachSpanInRange (l : list span) (start end_ : Z) : option (list span_view) :=
  if end_ <? start then Some []
  else searchByIndex l start ≫= fun id => Some (if id =? -1 then [] else range_loop (length l) l id end_).

(** ** Binary search finds *)

Section search_spec.
Context {A : Type} (dir : option A -> A -> option A -> option Z) (array : list A) (d : Z -> Z).
Let n := Z.of_nat (length array).
Hypothesis d_defined : forall i, 0 <= i < n -> probe dir array i = Some (d i).
Hypothesis d_range : forall i, 0 <= i < n -> d i = -1 \/ d i = 0 \/ d i = 1.
(** What is left of a match says up, what is right of it says down. *)
Hypothesis d_sorted : forall i j, 0 <= i <= j -> j < n -> d j <= d i.

Lemma at_nth i : 0 <= i < n -> exists a, at_ array i = Some a.
Proof.
  intros Hi. unfold at_. destruct (Z.ltb_spec i 0); [lia|]. apply lookup_lt_is_Some_2. unfold n in Hi. lia.
Qed.

Lemma first_match_loop_spec r (k : nat) :
  0 <= r < n -> d r = 0 -> Z.of_nat k <= r + 1 -> (forall i, Z.of_nat k <= i <= r -> d i = 0) ->
  exists m, first_match_loop dir array k = Some m /\ 0 <= m <= Z.of_nat k /\ (forall i, m <= i <= r -> d i = 0) /\
    (forall i, 0 <= i < m -> d i = 1).
Proof using d_defined d_range d_sorted.
  intros Hr Hd. induction k as [|k IH]; intros Hk Hz; cbn [first_match_loop].
  { exists 0. split_and!; [done|lia|lia|intros i Hi; apply Hz; lia|intros i Hi; lia]. }
  rewrite d_defined by lia. cbn. destruct (Z.eqb_spec (d (Z.of_nat k)) 0) as [E|E].
  - destruct IH as (m & Hm & Hb & H1 & H2); [lia| |].
    { intros i Hi. destruct (decide (i = Z.of_nat k)) as [->|]; [done|]. apply Hz. lia. }
    exists m. split_and!; [done|lia|lia|done|done].
  - exists (Z.of_nat (S k)). split_and!; [done|lia|lia|done|]. intros i Hi.
    assert (d (Z.of_nat k) <= d i) by (apply d_sorted; lia).
    assert (d r <= d (Z.of_nat k)) by (apply d_sorted; lia).
    destruct (d_range i) as [|[|]]; destruct (d_range (Z.of_nat k)) as [|[|]]; lia.
Qed.

Lemma findFirstMatch_spec r :
  0 <= r < n -> d r = 0 ->
  exists m, findFirstMatch dir array r = Some m /\ 0 <= m <= r /\ d m = 0 /\ (forall i, 0 <= i < m -> d i = 1).
Proof using d_defined d_range d_sorted.
  intros Hr Hd. unfold findFirstMatch. destruct (Z.eqb_spec r 0) as [->|Hne].
  { exists 0. split_and!; [done|lia|lia|done|intros i Hi; lia]. }
  destruct (first_match_loop_spec r (Z.to_nat r)) as (m & Hm & Hb & H1 & H2); [done|done|lia| |].
  { intros i Hi. assert (i = r) as -> by lia. done. }
  exists m. split_and!; [done|lia|lia| |done]. apply H1. lia.
Qed.

Lemma search_loop_spec fuel lo hi :
  0 <= lo -> hi < n -> hi - lo + 1 < Z.of_nat fuel -> lo <= hi + 1 ->
  (forall i, 0 <= i < lo -> d i = 1) -> (forall i, hi < i < n -> d i = -1) ->
  exists r, search_loop dir fuel array lo hi = Some r /\
    (r = -1 /\ (forall i, 0 <= i < n -> d i <> 0) \/ 0 <= r < n /\ d r = 0).
Proof using d_defined d_range d_sorted.
  revert lo hi. induction fuel as [|fuel IH]; intros lo hi Hlo Hhi Hf Hle H1 H2; [lia|]. cbn [search_loop].
  destruct (Z.leb_spec lo hi) as [Hc|Hc].
  2: { exists (-1). split; [done|]. left. split; [done|]. intros i Hi.
       destruct (Z.lt_ge_cases i lo); [rewrite H1 by lia; lia|rewrite H2 by lia; lia]. }
  cbv zeta. set (mid := js_round_div (lo + hi) 2). assert (Hmid : lo <= mid <= hi).
  { pose proof (js_round_div_bounds (lo + hi) 2 ltac:(lia)). unfold mid. lia. }
  rewrite d_defined by lia. cbn. destruct (Z.eqb_spec (d mid) 0) as [E|E].
  { exists mid. split; [done|]. right. split; [lia|done]. }
  destruct (Z.eqb_spec (d mid) (-1)) as [E'|E'].
  - apply IH; [lia|lia|lia|lia|done|]. intros i Hi. destruct (Z.le_gt_cases i hi); [|apply H2; lia].
    assert (d i <= d mid) by (apply d_sorted; lia). destruct (d_range i) as [|[|]]; lia.
  - apply IH; [lia|lia|lia|lia| |done]. intros i Hi. destruct (Z.lt_ge_cases i lo); [apply H1; lia|].
    assert (d mid <= d i) by (apply d_sorted; lia).
    destruct (d_range i) as [|[|]]; destruct (d_range mid) as [|[|]]; lia.
Qed.

(** The search ends, raises nothing, and finds a match exactly when there is one; with
    [firstMatch] it finds the first. *)
Lemma binarySearch_finds firstMatch :
  exists r, binarySearch dir array firstMatch = Some r /\
    (r = -1 /\ (forall i, 0 <= i < n -> d i <> 0) \/
     0 <= r < n /\ d r = 0 /\ (firstMatch = true -> forall i, 0 <= i < r -> d i = 1)).
Proof using d_defined d_range d_sorted.
  destruct (decide (n = 0)) as [H0|Hn0].
  { exists (-1). split; [|left; split; [done|lia]]. subst n. by destruct array. }
  assert (Hn : 0 < n) by (subst n; lia). destruct (at_nth 0 ltac:(lia)) as [first Hfirst].
  assert (E0 : dir None first (at_ array 1) = Some (d 0)).
  { rewrite <- d_defined by lia. unfold probe. by rewrite Hfirst. }
  assert (Ht : binarySearch dir array firstMatch =
    dir None first (at_ array 1) ≫= fun startDir =>
    if startDir <=? 0 then Some startDir
    else probe dir array (n - 1) ≫= fun endDir =>
      if 0 <=? endDir then if endDir =? 1 then Some (-1) else if firstMatch then findFirstMatch dir array (n - 1) else Some (n - 1)
      else search_loop dir (S (length array)) array 0 (n - 1) ≫= fun mid =>
        if (mid =? -1) || negb firstMatch then Some mid else findFirstMatch dir array mid).
  { unfold binarySearch. fold n. destruct array as [|a l]; [done|]. injection Hfirst as <-.
    destruct (dir None a _) as [s|]; [|done]. cbn [mbind option_bind]. destruct (s <=? 0); [done|].
    unfold probe. destruct (at_ (a :: l) (n - 1)) as [b|]; [|done]. cbn [mbind option_bind].
    replace (at_ (a :: l) (n - 1 + 1)) with (@None A); [done|]. unfold at_.
    destruct (Z.ltb_spec (n - 1 + 1) 0); [done|]. symmetry. apply lookup_ge_None_2. unfold n. lia. }
  rewrite Ht, E0. cbn [mbind option_bind]. clear Ht E0.
  destruct (Z.leb_spec (d 0) 0) as [H0|H0].
  { exists (d 0). split; [done|]. destruct (d_range 0 ltac:(lia)) as [E|[E|E]]; [left|right|lia]; rewrite E.
    - split; [done|]. intros i Hi. assert (d i <= d 0) by (apply d_sorted; lia). lia.
    - split_and!; [lia|lia|done|]. intros _ i Hi. lia. }
  rewrite d_defined by lia. cbn [mbind option_bind].
  assert (Hfind : forall r, 0 <= r < n -> d r = 0 -> exists r', findFirstMatch dir array r = Some r' /\
    (r' = -1 /\ (forall i, 0 <= i < n -> d i <> 0) \/
     0 <= r' < n /\ d r' = 0 /\ (firstMatch = true -> forall i, 0 <= i < r' -> d i = 1))).
  { intros r Hr Hd. destruct (findFirstMatch_spec r Hr Hd) as (m & Hm & Hb & Hd' & Hl).
    exists m. split; [done|]. right. split_and!; [lia|lia|done|done]. }
  destruct (Z.leb_spec 0 (d (n - 1))) as [H1|H1].
  - destruct (Z.eqb_spec (d (n - 1)) 1) as [E|E].
    + exists (-1). split; [done|]. left. split; [done|]. intros i Hi.
      assert (d (n - 1) <= d i) by (apply d_sorted; lia). lia.
    + assert (d (n - 1) = 0) by (destruct (d_range (n - 1)) as [|[|]]; lia).
      destruct firstMatch; [apply Hfind; [lia|done]|]. exists (n - 1). split; [done|]. right. split_and!; [lia|lia|done|done].
  - destruct (search_loop_spec (S (length array)) 0 (n - 1)) as (r & -> & Hr); [lia|lia|unfold n; lia|lia|lia|lia|].
    cbn [mbind option_bind]. destruct Hr as [[-> Hr]|[Hr Hd]].
    + exists (-1). cbn. split; [done|]. by left.
    + destruct (Z.eqb_spec r (-1)); [lia|]. destruct firstMatch; cbn; [by apply Hfind|].
      exists r. split; [done|]. right. done.
Qed.
End search_spec.

(** ** What span lists stand for *)

(** [l] ascends from above [p] to [m]. *)
Fixpoint chain (p : Z) (l : list Z) (m : Z) : Prop :=
  match l with [] => p = m | e :: l' => p < e /\ chain e l' m end.

(** Spans that cover the elements 0 to [m]. *)
Definition spans_ok (l : list span) (m : Z) : Prop := chain (-1) (map sp_index l) m.
Definition bools_ok (b : bool_spans) (m : Z) : Prop := chain (-1) (ends b) m.

(** The value and the flag of an element. *)
Fixpoint value_at (l : list span) (i : Z) : Z :=
  match l with [] => 0 | s :: l' => if i <=? sp_index s then sp_value s else value_at l' i end.

Fixpoint bit_from (bit : bool) (l : list Z) (i : Z) : bool :=
  match l with [] => bit | e :: l' => if i <=? e then bit else bit_from (negb bit) l' i end.

Definition bit_at (b : bool_spans) (i : Z) : bool := bit_from (startBit b) (ends b) i.

Lemma chain_le p l m : chain p l m -> p <= m.
Proof. revert p. induction l as [|e l IH]; cbn; intros p H; [lia|]. destruct H as [H1 H2%IH]. lia. Qed.

Lemma chain_end p l m m' : chain p l m -> chain p l m' -> m = m'.
Proof. revert p. induction l as [|e l IH]; cbn; intros p; [congruence|]. intros [_ H] [_ H']. by apply (IH e). Qed.

Lemma chain_elem p l m e : chain p l m -> e ∈ l -> p < e <= m.
Proof.
  revert p. induction l as [|e' l IH]; cbn; intros p H Hin; [by apply elem_of_nil in Hin|].
  destruct H as [H1 H2]. apply elem_of_cons in Hin as [->|Hin].
  - split; [done|]. by apply chain_le in H2.
  - specialize (IH _ H2 Hin). lia.
Qed.

Lemma chain_last p l m : chain p l m -> l <> [] -> last l = Some m.
Proof.
  revert p. induction l as [|e l IH]; cbn; intros p H Hne; [done|]. destruct H as [H1 H2].
  destruct l as [|e' l]; [by cbn in H2; subst|]. apply (IH _ H2). done.
Qed.

Lemma chain_nonempty p l m : chain p l m -> p < m -> l <> [].
Proof. intros H Hlt ->. cbn in H. lia. Qed.

(** The loop of [union] computes the disjunction. *)
Lemma union_loop_spec fuel p m this other t o :
  (length this + length other < fuel)%nat -> chain p this m -> chain p other m ->
  exists l, union_loop fuel this other t o (t || o) m = Some l /\ chain p l m /\
    forall i, p < i <= m -> bit_from (t || o) l i = bit_from t this i || bit_from o other i.
Proof.
  revert p this other t o. induction fuel as [|fuel IH]; intros p this other t o Hf Ht Ho; [lia|]. cbn [union_loop].
  destruct this as [|e1 this].
  { exists []. cbn in Ht. split_and!; [done|done|intros i Hi; lia]. }
  destruct other as [|e2 other].
  { exists []. cbn in Ho. split_and!; [done|done|intros i Hi; lia]. }
  cbn [chain] in Ht, Ho. destruct Ht as [Ht1 Ht2], Ho as [Ho1 Ho2]. cbn [length] in Hf.
  pose proof (chain_le _ _ _ Ht2) as Hm1. pose proof (chain_le _ _ _ Ho2) as Hm2.
  (* one step, to [e] with the rests [th] and [ot] *)
  assert (Hstep : forall e th ot t' o', p < e -> (length th + length ot < fuel)%nat -> chain e th m -> chain e ot m ->
    exists l,
      (if negb (Bool.eqb (t || o) (t' || o')) || (m <=? e) then cons e <$> union_loop fuel th ot t' o' (t' || o') m
       else union_loop fuel th ot t' o' (t || o) m) = Some l /\ chain p l m /\
      forall i, p < i <= m -> bit_from (t || o) l i =
        if i <=? e then t || o else bit_from t' th i || bit_from o' ot i).
  { intros e th ot t' o' He Hlen Hth Hot.
    destruct (IH e th ot t' o' Hlen Hth Hot) as (l & Hl & Hch & Hbits).
    destruct (Bool.eqb (t || o) (t' || o')) eqn:Eb; cbn [negb orb].
    - apply Bool.eqb_prop in Eb. destruct (Z.leb_spec m e) as [Hme|Hme].
      + rewrite Hl. exists (e :: l). cbn. split_and!; [done|done|done|]. intros i Hi.
        destruct (Z.leb_spec i e); [done|]. lia.
      + rewrite Eb, Hl. exists l. split_and!; [done| |].
        * destruct l as [|x l]; cbn in Hch |- *; [lia|]. destruct Hch as [Hx Hch]. split; [lia|done].
        * intros i Hi. destruct (Z.leb_spec i e) as [Hie|Hie]; [|apply Hbits; lia].
          destruct l as [|x l]; [done|]. cbn in Hch |- *. destruct (Z.leb_spec i x); [done|]. lia.
    - rewrite Hl. exists (e :: l). cbn. split_and!; [done|done|done|]. intros i Hi.
      destruct (Z.leb_spec i e); [done|]. rewrite <- Hbits by lia. f_equal.
      destruct (t || o), (t' || o'); done. }
  destruct (Z.ltb_spec e1 e2) as [H12|H12]; [|destruct (Z.ltb_spec e2 e1) as [H21|H21]].
  - destruct (Hstep e1 this (e2 :: other) (negb t) o) as (l & Hl & Hch & Hb); [lia|cbn; lia|done|cbn; split; [lia|done]|].
    exists l. split_and!; [done|done|]. intros i Hi. rewrite Hb by lia. cbn [bit_from].
    destruct (Z.leb_spec i e1); [|done]. by rewrite (proj2 (Z.leb_le i e2)) by lia.
  - destruct (Hstep e2 (e1 :: this) other t (negb o)) as (l & Hl & Hch & Hb); [lia|cbn; lia|cbn; split; [lia|done]|done|].
    exists l. split_and!; [done|done|]. intros i Hi. rewrite Hb by lia. cbn [bit_from].
    destruct (Z.leb_spec i e2); [|done]. by rewrite (proj2 (Z.leb_le i e1)) by lia.
  - assert (e1 = e2) as -> by lia.
    destruct (Hstep e2 this other (negb t) (negb o)) as (l & Hl & Hch & Hb); [lia|lia|done|done|].
    exists l. split_and!; [done|done|]. intros i Hi. rewrite Hb by lia. cbn [bit_from]. by destruct (i <=? e2).
Qed.

Lemma union_spans_ok a b m :
  bools_ok a m -> bools_ok b m ->
  exists c, union_spans a b = Some (Some c) /\ bools_ok c m /\
    forall i, 0 <= i <= m -> bit_at c i = bit_at a i || bit_at b i.
Proof.
  intros Ha Hb. unfold bools_ok in *. unfold union_spans.
  assert (Hl : last (ends a) = last (ends b)).
  { destruct (decide (m = -1)) as [->|Hm].
    - destruct (ends a) as [|x l]; [|cbn in Ha; destruct Ha as [H1 H2%chain_le]; lia].
      destruct (ends b) as [|y l]; [done|cbn in Hb; destruct Hb as [H1 H2%chain_le]; lia].
    - pose proof (chain_le _ _ _ Ha). rewrite (chain_last _ _ _ Ha), (chain_last _ _ _ Hb); [done| |];
        eapply chain_nonempty; try done; lia. }
  rewrite bool_decide_true by done. cbn [negb]. cbv zeta. destruct (last (ends a)) as [m'|] eqn:Em.
  - assert (m' = m) as ->.
    { assert (Hne : ends a <> []) by (intros E; by rewrite E in Em). rewrite (chain_last _ _ _ Ha Hne) in Em. congruence. }
    destruct (union_loop_spec (S (length (ends a) + length (ends b))) (-1) m (ends a) (ends b) (startBit a) (startBit b))
      as (l & -> & Hch & Hbits); [lia|done|done|].
    eexists. split; [done|]. split; [done|]. intros i Hi. apply Hbits. lia.
  - assert (ends a = []) as E by (by apply last_None). rewrite E in Ha. cbn in Ha. eexists. split; [done|]. split; [done|].
    intros i Hi. lia.
Qed.

(** The loop of [applyZeroValues] gives the flagged elements the value 0. *)
Lemma zero_loop_spec fuel p m this other z r :
  (length this + length other < fuel)%nat -> chain p (map sp_index this) m -> chain p other m ->
  r = (match this with [] => r | s :: _ => if z : bool then 0 else sp_value s end) ->
  exists l, zero_loop fuel this other z r m = Some l /\ chain p (map sp_index l) m /\
    (forall i, p < i <= m -> value_at l i = if bit_from z other i then 0 else value_at this i).
Proof.
  revert p this other z r. induction fuel as [|fuel IH]; intros p this other z r Hf Ht Ho Hr; [lia|]. cbn [zero_loop].
  destruct this as [|s1 this].
  { exists []. cbn in Ht. split_and!; [done|done|intros i Hi; lia]. }
  destruct other as [|e2 other].
  { exists []. cbn in Ho. split_and!; [done|done|intros i Hi; lia]. }
  cbn [map chain] in Ht. cbn [chain] in Ho. destruct Ht as [Ht1 Ht2], Ho as [Ho1 Ho2]. cbn [length] in Hf. cbv zeta.
  set (nv z' (th : list span) := match th with [] => r | s :: _ => if z' : bool then 0 else sp_value s end).
  assert (Hstep : forall e th ot z', p < e -> (length th + length ot < fuel)%nat ->
    chain e (map sp_index th) m -> chain e ot m ->
    exists l,
      (if negb (r =? nv z' th) || (m <=? e)
       then cons (Span e r None) <$> zero_loop fuel th ot z' (nv z' th) m
       else zero_loop fuel th ot z' r m) = Some l /\ chain p (map sp_index l) m /\
      forall i, p < i <= m -> value_at l i = if i <=? e then r else if bit_from z' ot i then 0 else value_at th i).
  { intros e th ot z' He Hlen Hth Hot.
    destruct (IH e th ot z' (nv z' th) Hlen Hth Hot) as (l & Hl & Hch & Hv); [by destruct th|].
    destruct (Z.eqb_spec r (nv z' th)) as [Eb|Eb]; cbn [negb orb].
    - destruct (Z.leb_spec m e) as [Hme|Hme].
      + rewrite Hl. exists (Span e r None :: l). cbn. split_and!; [done|done|done|]. intros i Hi.
        destruct (Z.leb_spec i e); [done|]. lia.
      + rewrite <- Eb in Hl. rewrite Hl. exists l. split_and!; [done| |].
        * destruct l as [|x l]; cbn in Hch |- *; [lia|]. destruct Hch as [Hx Hch]. split; [lia|done].
        * intros i Hi. destruct (Z.leb_spec i e) as [Hie|Hie]; [|apply Hv; lia].
          assert (Hth1 : map sp_index th <> []) by (eapply chain_nonempty; [exact Hth|lia]).
          destruct th as [|s th]; [done|].
          assert (Hot1 : ot <> []) by (eapply chain_nonempty; [exact Hot|lia]). destruct ot as [|o ot]; [done|].
          cbn in Hth, Hot. destruct Hth as [Hth _], Hot as [Hot _].
          specialize (Hv (e + 1) ltac:(lia)). cbn [value_at bit_from] in Hv.
          rewrite !(proj2 (Z.leb_le _ _)) in Hv by lia.
          destruct l as [|x l]; [cbn in Hch; lia|]. cbn [map chain value_at] in Hch, Hv |- *. destruct Hch as [Hch _].
          rewrite (proj2 (Z.leb_le _ _)) in Hv by lia. rewrite (proj2 (Z.leb_le _ _)) by lia. rewrite Hv, Eb. done.
    - rewrite Hl. exists (Span e r None :: l). cbn. split_and!; [done|done|done|]. intros i Hi.
      destruct (Z.leb_spec i e); [done|]. apply Hv. lia. }
  pose proof (chain_le _ _ _ Ht2) as Hm1. pose proof (chain_le _ _ _ Ho2) as Hm2.
  destruct (Z.ltb_spec (sp_index s1) e2) as [H12|H12]; [|destruct (Z.ltb_spec e2 (sp_index s1)) as [H21|H21]].
  - destruct (Hstep (sp_index s1) this (e2 :: other) z) as (l & Hl & Hch & Hb); [lia|cbn; lia|done|cbn; split; [lia|done]|].
    exists l. split_and!; [done|done|]. intros i Hi. rewrite Hb by lia. cbn [bit_from value_at].
    destruct (Z.leb_spec i (sp_index s1)); [|done]. by rewrite (proj2 (Z.leb_le i e2)) by lia.
  - destruct (Hstep e2 (s1 :: this) other (negb z)) as (l & Hl & Hch & Hb); [lia|cbn; lia|cbn; split; [lia|done]|done|].
    exists l. split_and!; [done|done|]. intros i Hi. rewrite Hb by lia. cbn [bit_from value_at].
    destruct (Z.leb_spec i e2); [|done]. by rewrite (proj2 (Z.leb_le i (sp_index s1))) by lia.
  - assert (Ee : e2 = sp_index s1) by lia.
    destruct (Hstep e2 this other (negb z)) as (l & Hl & Hch & Hb); [lia|lia|by rewrite Ee|done|].
    exists l. split_and!; [done|done|]. intros i Hi. rewrite Hb by lia. cbn [bit_from value_at]. rewrite <- Ee.
    by destruct (i <=? e2).
Qed.

Lemma map_last_index (l : list span) : last (map sp_index l) = sp_index <$> last l.
Proof. induction l as [|s l IH]; [done|]. cbn in *. by destruct l. Qed.

Lemma applyZeroValues_ok l b m :
  spans_ok l m -> bools_ok b m -> 0 <= m ->
  exists l', applyZeroValues l (Some b) = Some (Some l') /\ spans_ok l' m /\
    forall i, 0 <= i <= m -> value_at l' i = if bit_at b i then 0 else value_at l i.
Proof.
  intros Hl Hb Hm. unfold spans_ok, bools_ok in *. unfold applyZeroValues.
  assert (Hne : map sp_index l <> []) by (eapply chain_nonempty; [exact Hl|lia]).
  pose proof (chain_last _ _ _ Hl Hne) as Hlast. rewrite map_last_index in Hlast.
  destruct l as [|first l]; [done|]. destruct (last (first :: l)) as [s|]; [|done]. injection Hlast as Hs.
  rewrite (chain_last _ _ _ Hb) by (eapply chain_nonempty; [exact Hb|lia]).
  rewrite bool_decide_true by (by rewrite Hs). cbn [negb].
  rewrite Hs.
  destruct (zero_loop_spec (S (length (first :: l) + length (ends b))) (-1) m (first :: l) (ends b) (startBit b)
    (if startBit b then 0 else sp_value first)) as (l' & -> & Hch & Hv); [lia|done|done|done|].
  exists l'. split; [done|]. split; [done|]. intros i Hi. apply Hv. lia.
Qed.

(** ** Views of spans *)

Fixpoint views (p : Z) (l : list span) : list span_view :=
  match l with [] => [] | s :: l' => SpanView (p + 1) (sp_index s) (sp_value s) (sp_data s) :: views (sp_index s) l' end.

Lemma length_views p l : length (views p l) = length l.
Proof. revert p. induction l as [|s l IH]; intros p; cbn; [done|]. by rewrite IH. Qed.

Lemma views_lookup p l k :
  views p l !! k = (l !! k) ≫= fun s =>
    Some (SpanView (match k with O => p + 1 | S k' => from_option (fun s' => sp_index s' + 1) 0 (l !! k') end)
                   (sp_index s) (sp_value s) (sp_data s)).
Proof.
  revert p k. induction l as [|s l IH]; intros p [|k]; cbn; [done|done|done|]. rewrite IH. by destruct k, l.
Qed.

Lemma getSpanData_views l k : getSpanData l k = at_ (views (-1) l) k.
Proof.
  unfold getSpanData, at_. destruct (Z.ltb_spec k 0); [done|]. rewrite views_lookup.
  destruct (l !! Z.to_nat k) as [s|] eqn:E; [|done]. cbn [mbind option_bind]. f_equal. f_equal.
  destruct (Z.ltb_spec 0 k).
  - rewrite (proj2 (Z.ltb_ge (k - 1) 0)) by lia. destruct (Z.to_nat k) as [|k'] eqn:Ek; [lia|].
    replace (Z.to_nat (k - 1)) with k' by lia. by destruct (l !! k').
  - by replace (Z.to_nat k) with O by lia.
Qed.

Lemma omap_seq_lookup {B} (f : Z -> option B) (l : list B) :
  (forall k, (k < length l)%nat -> f (Z.of_nat k) = l !! k) ->
  omap (fun k => f (Z.of_nat k)) (seq 0 (length l)) = l.
Proof.
  intros H. assert (forall n k, (k + n = length l)%nat -> omap (fun k => f (Z.of_nat k)) (seq k n) = drop k l) as Hg.
  { induction n as [|n IH]; intros k Hk; cbn.
    - by rewrite drop_ge by lia.
    - destruct (lookup_lt_is_Some_2 l k) as [x Hx]; [lia|]. rewrite H, Hx by lia.
      rewrite (drop_S _ _ _ Hx). cbn. f_equal. apply IH. lia. }
  apply (Hg (length l) O). lia.
Qed.

Lemma forEachSpan_views l : forEachSpan l = views (-1) l.
Proof.
  unfold forEachSpan. rewrite <- (length_views (-1) l). apply omap_seq_lookup. intros k Hk.
  rewrite getSpanData_views. unfold at_. destruct (Z.ltb_spec (Z.of_nat k) 0); [lia|]. by rewrite Nat2Z.id.
Qed.

(** The spans of a good list lie end to end, and a view tells the value of its elements. *)
Lemma views_ok p l m k v :
  chain p (map sp_index l) m -> views p l !! k = Some v ->
  p < sv_start v <= sv_end v /\ sv_end v <= m /\ (forall j, sv_start v <= j <= sv_end v -> value_at l j = sv_size v).
Proof.
  revert p k. induction l as [|s l IH]; intros p [|k]; cbn; intros H Hk; try done.
  - injection Hk as <-. cbn. destruct H as [H1 H2]. split_and!; [lia|lia|by apply chain_le in H2|].
    intros j Hj. by rewrite (proj2 (Z.leb_le _ _)) by lia.
  - destruct H as [H1 H2]. destruct (IH _ _ H2 Hk) as (E1 & E2 & E3). split_and!; [lia|lia|done|].
    intros j Hj. rewrite (proj2 (Z.leb_gt _ _)) by lia. by apply E3.
Qed.

Lemma views_next p l k v v' :
  views p l !! k = Some v -> views p l !! S k = Some v' -> sv_start v' = sv_end v + 1.
Proof.
  rewrite !views_lookup. destruct (l !! k) as [s|]; [|done]. destruct (l !! S k) as [s'|]; [|done].
  cbn. by intros [= <-] [= <-].
Qed.

Lemma views_sorted p l m i j v w :
  chain p (map sp_index l) m -> (i < j)%nat -> views p l !! i = Some v -> views p l !! j = Some w -> sv_end v < sv_start w.
Proof.
  revert p i j. induction l as [|s l IH]; intros p i j; cbn; [done|]. intros [H1 H2] Hij Hi Hj.
  destruct j as [|j]; [lia|]. destruct i as [|i]; cbn in Hi, Hj.
  - injection Hi as <-. cbn. by apply (views_ok _ _ _ _ _ H2) in Hj as [? _]; lia.
  - apply (IH _ i j H2); [lia|done|done].
Qed.

Lemma views_first p l m : chain p (map sp_index l) m -> forall v, views p l !! 0%nat = Some v -> sv_start v = p + 1.
Proof. destruct l; [done|]. by intros _ v [= <-]. Qed.

Lemma views_covers p l m i :
  chain p (map sp_index l) m -> p < i <= m -> exists k v, views p l !! k = Some v /\ sv_start v <= i <= sv_end v.
Proof.
  revert p. induction l as [|s l IH]; intros p; cbn; [intros; lia|]. intros [H1 H2] Hi.
  destruct (Z.le_gt_cases i (sp_index s)).
  - eexists O, _. split; [done|]. cbn. lia.
  - destruct (IH _ H2) as (k & v & Hk & Hv); [lia|]. by exists (S k), v.
Qed.

Lemma views_last p l m :
  chain p (map sp_index l) m -> l <> [] -> exists v, views p l !! (length l - 1)%nat = Some v /\ sv_end v = m.
Proof.
  revert p. induction l as [|s l IH]; intros p; [done|]. intros [H1 H2] _. destruct l as [|s' l].
  - eexists. split; [done|]. done.
  - destruct (IH _ H2) as (v & Hv & Hm); [done|]. exists v. split; [|done].
    cbn [length] in *. by replace (S (S (length l)) - 1)%nat with (S (S (length l) - 1)) by lia.
Qed.

(** ** Searching for an element *)

Lemma at_of_nat {A} (l : list A) (k : nat) : at_ l (Z.of_nat k) = l !! k.
Proof. unfold at_. destruct (Z.ltb_spec (Z.of_nat k) 0); [lia|]. by rewrite Nat2Z.id. Qed.

Definition view_direction (t : Z) (v : span_view) : Z :=
  if t <? sv_start v then -1 else if sv_end v <? t then 1 else 0.

Lemma probe_index l t k v :
  views (-1) l !! k = Some v -> probe (index_direction t) l (Z.of_nat k) = Some (view_direction t v).
Proof.
  rewrite views_lookup. destruct (l !! k) as [s|] eqn:E; [|done]. cbn. intros [= <-].
  unfold probe. rewrite at_of_nat, E. cbn. unfold index_direction, view_direction. cbn. do 2 f_equal.
  destruct k as [|k]; [done|]. replace (Z.of_nat (S k) - 1) with (Z.of_nat k) by lia. rewrite at_of_nat.
  destruct (l !! k) eqn:E'; [done|]. apply lookup_ge_None in E'. apply lookup_lt_Some in E. lia.
Qed.

Lemma lookup_views_Z l i :
  0 <= i < Z.of_nat (length l) -> exists v, views (-1) l !! Z.to_nat i = Some v.
Proof. intros Hi. apply lookup_lt_is_Some_2. rewrite length_views. lia. Qed.

Definition dir_of (f : span_view -> Z) (l : list span) (i : Z) : Z :=
  match views (-1) l !! Z.to_nat i with Some v => f v | None => 0 end.

Lemma searchByIndex_ok l m t :
  spans_ok l m ->
  (exists k v, searchByIndex l t = Some (Z.of_nat k) /\ views (-1) l !! k = Some v /\ sv_start v <= t <= sv_end v) \/
  (searchByIndex l t = Some (-1) /\ (t < 0 \/ m < t)).
Proof.
  intros Hl. unfold searchByIndex.
  assert (Hv : forall i, 0 <= i < Z.of_nat (length l) ->
    exists v, views (-1) l !! Z.to_nat i = Some v /\ dir_of (view_direction t) l i = view_direction t v).
  { intros i Hi. destruct (lookup_views_Z l i Hi) as [v Hv]. exists v. split; [done|]. unfold dir_of. by rewrite Hv. }
  destruct (binarySearch_finds (index_direction t) l (dir_of (view_direction t) l)) with (firstMatch := false)
    as (r & -> & Hr).
  - intros i Hi. destruct (Hv i Hi) as (v & E & ->). rewrite <- (probe_index _ _ _ _ E). f_equal. lia.
  - intros i Hi. destruct (Hv i Hi) as (v & E & ->). unfold view_direction. repeat case_match; lia.
  - intros i j Hi Hj. destruct (decide (i = j)) as [->|]; [lia|].
    destruct (Hv i ltac:(lia)) as (v & E & ->), (Hv j ltac:(lia)) as (w & E' & ->).
    pose proof (views_sorted _ _ _ (Z.to_nat i) (Z.to_nat j) _ _ Hl ltac:(lia) E E').
    pose proof (proj1 (views_ok _ _ _ _ _ Hl E)). pose proof (proj1 (views_ok _ _ _ _ _ Hl E')).
    unfold view_direction. repeat case_bool; lia.
  - destruct Hr as [[-> Hr]|(Hr & Hd & _)].
    + right. split; [done|]. destruct (decide (t < 0)) as [|Ht]; [by left|]. destruct (decide (m < t)) as [|Ht']; [by right|].
      destruct (views_covers _ _ _ t Hl) as (k & v & E & Hk); [lia|].
      pose proof (lookup_lt_Some _ _ _ E) as Hlen. rewrite length_views in Hlen.
      destruct (Hr (Z.of_nat k)); [lia|]. unfold dir_of. rewrite Nat2Z.id, E. unfold view_direction. repeat case_bool; lia.
    + left. destruct (Hv r Hr) as (v & E & Ed). rewrite Ed in Hd. exists (Z.to_nat r), v. split_and!; [f_equal; lia|done| |];
        unfold view_direction in Hd; repeat case_match; to_prop; lia.
Qed.

Lemma getSpanDataByIndex_ok l m i :
  spans_ok l m -> 0 <= i <= m ->
  exists k v, getSpanDataByIndex l i = Some (Some v) /\ views (-1) l !! k = Some v /\ sv_start v <= i <= sv_end v.
Proof.
  intros Hl Hi. unfold getSpanDataByIndex. destruct (searchByIndex_ok l m i Hl) as [(k & v & -> & Hv & Hb)|[_ ?]]; [|lia].
  exists k, v. cbn. rewrite (proj2 (Z.eqb_neq _ _)) by lia. rewrite getSpanData_views, at_of_nat, Hv. done.
Qed.

Lemma getSpanDataByIndex_out l m i :
  spans_ok l m -> i < 0 \/ m < i -> getSpanDataByIndex l i = Some None.
Proof.
  intros Hl Hi. unfold getSpanDataByIndex. destruct (searchByIndex_ok l m i Hl) as [(k & v & _ & Hv & Hb)|[-> _]]; [|done].
  pose proof (views_ok _ _ _ _ _ Hl Hv). lia.
Qed.

(** ** Searching for a position *)

Section field_search.
Context (l : list span) (f : field) (num den : Z).
Let n := Z.of_nat (length l).
(** The ends of the spans. *)
Definition field_end (i : Z) : Z :=
  match views (-1) l !! Z.to_nat i ≫= sv_data with Some d => get_field f d | None => 0 end.
Definition field_start (i : Z) : Z := if i =? 0 then 0 else field_end (i - 1).
Definition field_last (i : Z) : Z := field_end i - (if i + 1 <? n then 1 else 0).
Definition field_match (i : Z) : Prop := field_start i * den <= num <= field_last i * den.

Hypothesis den_pos : 0 < den.
Hypothesis has_data : Forall (fun s => is_Some (sp_data s)) l.
Hypothesis ascending : forall i j, 0 <= i <= j -> j < n -> field_end i <= field_end j.
Hypothesis from_zero : 0 < n -> 0 <= field_end 0.

Definition dirF (i : Z) : Z :=
  if num <? field_start i * den then -1 else if field_last i * den <? num then 1 else 0.

Lemma field_end_data (k : nat) s : l !! k = Some s -> get_field f <$> sp_data s = Some (field_end (Z.of_nat k)).
Proof using has_data.
  intros E. unfold field_end. rewrite Nat2Z.id, views_lookup, E. cbn.
  rewrite Forall_lookup in has_data. destruct (has_data _ _ E) as [d ->]. done.
Qed.

Lemma probe_field i : 0 <= i < n -> probe (field_direction f num den) l i = Some (dirF i).
Proof using has_data.
  intros Hi. replace i with (Z.of_nat (Z.to_nat i)) by lia. set (k := Z.to_nat i).
  destruct (lookup_lt_is_Some_2 l k) as [s Hs]; [subst n k; lia|].
  unfold probe. rewrite at_of_nat, Hs. cbn [mbind option_bind]. unfold field_direction. cbv zeta.
  assert (Ep : (match at_ l (Z.of_nat k - 1) with Some p => get_field f <$> sp_data p | None => Some 0 end)
    = Some (field_start (Z.of_nat k))).
  { unfold field_start. destruct k as [|k'] eqn:Ek; [done|]. rewrite (proj2 (Z.eqb_neq _ _)) by lia.
    replace (Z.of_nat (S k') - 1) with (Z.of_nat k') by lia. rewrite at_of_nat.
    destruct (lookup_lt_is_Some_2 l k') as [p Hp]; [apply lookup_lt_Some in Hs; lia|]. rewrite Hp. by apply field_end_data. }
  rewrite Ep. cbn [mbind option_bind]. rewrite (field_end_data _ _ Hs). cbn [mbind option_bind].
  unfold dirF, field_last. do 2 f_equal. replace (Z.of_nat k + 1) with (Z.of_nat (S k)) by lia. rewrite at_of_nat.
  destruct (l !! S k) as [s'|] eqn:E.
  - apply lookup_lt_Some in E. rewrite (proj2 (Z.ltb_lt _ n)) by (subst n; lia). done.
  - apply lookup_ge_None in E. rewrite (proj2 (Z.ltb_ge _ n)) by (subst n; lia). done.
Qed.

Lemma dirF_sorted i j : 0 <= i <= j -> j < n -> dirF j <= dirF i.
Proof using den_pos ascending from_zero.
  intros Hi Hj. destruct (decide (i = j)) as [->|Hne]; [lia|].
  assert (Hij : field_end i <= field_start j).
  { unfold field_start. rewrite (proj2 (Z.eqb_neq _ _)) by lia. apply ascending; lia. }
  assert (Hs : field_start i <= field_end i).
  { unfold field_start. destruct (Z.eqb_spec i 0) as [->|]; [apply from_zero; lia|]. apply ascending; lia. }
  assert (El : field_last i = field_end i - 1) by (unfold field_last; rewrite (proj2 (Z.ltb_lt _ _)) by lia; lia).
  unfold dirF. rewrite El. destruct (Z.ltb_spec num (field_start j * den)); [repeat case_bool; lia|].
  rewrite (proj2 (Z.ltb_ge num (field_start i * den))) by nia.
  rewrite (proj2 (Z.ltb_lt ((field_end i - 1) * den) num)) by nia. repeat case_bool; lia.
Qed.

Lemma dirF_match i : dirF i = 0 <-> field_match i.
Proof. unfold dirF, field_match. repeat case_bool; lia. Qed.

Lemma searchByCustomDataField_finds :
  exists r, searchByCustomDataField l f num den = Some r /\
    (r = -1 /\ (forall i, 0 <= i < n -> ~ field_match i) \/
     0 <= r < n /\ field_match r /\ forall i, 0 <= i < r -> ~ field_match i).
Proof using den_pos has_data ascending from_zero.
  unfold searchByCustomDataField.
  destruct (binarySearch_finds (field_direction f num den) l dirF) with (firstMatch := true) as (r & -> & Hr).
  - exact probe_field.
  - intros i _. unfold dirF. repeat case_bool; lia.
  - exact dirF_sorted.
  - exists r. split; [done|]. destruct Hr as [[-> Hr]|(Hr & Hd & Hf)]; [left|right].
    + split; [done|]. intros i Hi Hm%dirF_match. by apply (Hr i).
    + split_and!; [lia|lia|by apply dirF_match|]. intros i Hi Hm%dirF_match. rewrite Hf in Hm; [lia|done|lia].
Qed.

(** A match before the last span is the only one. *)
Lemma getSpanDataByCustomDataField_match k v :
  views (-1) l !! k = Some v -> field_match (Z.of_nat k) -> (forall i, 0 <= i < Z.of_nat k -> ~ field_match i) ->
  getSpanDataByCustomDataField l f num den = Some (Some v).
Proof using den_pos has_data ascending from_zero.
  intros Hv Hm Hf. unfold getSpanDataByCustomDataField.
  assert (Hk : 0 <= Z.of_nat k < n) by (apply lookup_lt_Some in Hv; rewrite length_views in Hv; unfold n; lia).
  destruct searchByCustomDataField_finds as (r & -> & [[-> Hr]|(Hr & Hd & Hr')]).
  - exfalso. by apply (Hr (Z.of_nat k)).
  - assert (r = Z.of_nat k) as ->.
    { destruct (Z.lt_trichotomy r (Z.of_nat k)) as [?|[?|?]]; [exfalso; apply (Hf r); [lia|done]|done|].
      exfalso. apply (Hr' (Z.of_nat k)); [lia|done]. }
    cbn. rewrite (proj2 (Z.eqb_neq _ _)) by lia. by rewrite getSpanData_views, at_of_nat, Hv.
Qed.

Lemma getSpanDataByCustomDataField_none :
  (forall i, 0 <= i < n -> ~ field_match i) -> getSpanDataByCustomDataField l f num den = Some None.
Proof using den_pos has_data ascending from_zero.
  intros Hf. unfold getSpanDataByCustomDataField.
  destruct searchByCustomDataField_finds as (r & -> & [[-> Hr]|(Hr & Hd & Hr')]); [done|].
  exfalso. by apply (Hf r).
Qed.

(** A position inside a span, at least a unit before its end, matches it and none before. *)
Lemma field_match_inside i :
  0 <= i < n -> field_start i * den <= num -> num <= (field_end i - 1) * den ->
  field_match i /\ forall j, 0 <= j < i -> ~ field_match j.
Proof using den_pos ascending.
  intros Hi H1 H2. split.
  - unfold field_match, field_last. split; [done|]. case_match; nia.
  - intros j Hj [_ Hm]. unfold field_last in Hm. rewrite (proj2 (Z.ltb_lt _ _)) in Hm by lia.
    assert (field_end j <= field_start i); [|nia].
    unfold field_start. rewrite (proj2 (Z.eqb_neq _ _)) by lia. apply ascending; lia.
Qed.
End field_search.
