(* ===== verification/SheetGeometry.v ===== *)
(** * Sheet geometry: where the columns and rows of a sheet are

    Models [SheetDimension], [DimensionOutlines] and [SheetGeometry] of
    src/browser/src/layer/tile/SheetGeometry.ts on top of [SpanList].  The server sends
    the sizes of columns and rows in print twips (independent of the zoom), and which
    are hidden or filtered.  The client computes from that positions in core pixels,
    tile twips (core pixels scaled back to twips) and print twips, and finds the element
    at a position.  What the code throws is [None].

    Numbers.  A tile has [tileSizePixels] pixels, a power of two, and [tileSizeTwips]
    twips, a rounded integer, so the ratio of the two and its multiples are exact in
    floating point, and a division that is rounded down is too, since the quotient is
    an integer or further from one than the precision.  Positions that may be fractions
    of twips are counted in [tileSizePixels]-ths.  Scales of other zooms are fractions. *)

From S2P Require Import Prelude JsText SpanList.
Local Open Scope Z_scope.

(** ** Data *)

Inductive geometry_unit := CorePixels | TileTwips | PrintTwips.

Record outline := Outline { o_start : Z; o_end : Z; o_hidden : Z; o_visible : Z }.

(** [SheetDimension]; [visibleSizes] and [maxIndex] are undefined at first, the tile
    sizes are set by the constructor of [SheetGeometry]. *)
Record dimension := Dimension {
  sizes : list span;
  hidden : bool_spans;
  filtered : bool_spans;
  outlines : list (list outline);
  visibleSizes : option (list span);
  maxIndex : num;
  tileSizeTwips : Z;
  tileSizePixels : Z;
  viewStartIndex : num;
  viewEndIndex : num
}.

Definition new_dimension : dimension := Dimension [] (BoolSpans false []) (BoolSpans false []) [] None None 0 0 None None.

Definition set_sizes x d := Dimension x (hidden d) (filtered d) (outlines d) (visibleSizes d) (maxIndex d) (tileSizeTwips d) (tileSizePixels d) (viewStartIndex d) (viewEndIndex d).
Definition set_hidden x d := Dimension (sizes d) x (filtered d) (outlines d) (visibleSizes d) (maxIndex d) (tileSizeTwips d) (tileSizePixels d) (viewStartIndex d) (viewEndIndex d).
Definition set_filtered x d := Dimension (sizes d) (hidden d) x (outlines d) (visibleSizes d) (maxIndex d) (tileSizeTwips d) (tileSizePixels d) (viewStartIndex d) (viewEndIndex d).
Definition set_outlines x d := Dimension (sizes d) (hidden d) (filtered d) x (visibleSizes d) (maxIndex d) (tileSizeTwips d) (tileSizePixels d) (viewStartIndex d) (viewEndIndex d).
Definition set_visible x d := Dimension (sizes d) (hidden d) (filtered d) (outlines d) x (maxIndex d) (tileSizeTwips d) (tileSizePixels d) (viewStartIndex d) (viewEndIndex d).
Definition setMaxIndex x d := Dimension (sizes d) (hidden d) (filtered d) (outlines d) (visibleSizes d) x (tileSizeTwips d) (tileSizePixels d) (viewStartIndex d) (viewEndIndex d).
Definition set_tile t p d := Dimension (sizes d) (hidden d) (filtered d) (outlines d) (visibleSizes d) (maxIndex d) t p (viewStartIndex d) (viewEndIndex d).
Definition set_view a b d := Dimension (sizes d) (hidden d) (filtered d) (outlines d) (visibleSizes d) (maxIndex d) (tileSizeTwips d) (tileSizePixels d) a b.

(** ** Positions *)

(** The callback of [_updatePositions]; its state are the positions in core pixels and
    in print twips. *)
Definition position_of_span (twips pixels : Z) (index size spanLength : Z) (s : Z * Z) : (Z * Z) * positions :=
  let '(posCorePx, posPrintTwips) := s in
  let sizeCorePxOne := size * pixels / twips in
  let posCorePx := posCorePx + sizeCorePxOne * spanLength in
  let posTileTwips := posCorePx * twips / pixels in
  let posPrintTwips := posPrintTwips + size * spanLength in
  ((posCorePx, posPrintTwips), Positions sizeCorePxOne posCorePx posTileTwips posPrintTwips).

Definition updatePositions (d : dimension) : option dimension :=
  visibleSizes d ≫= fun l =>
  Some (set_visible (Some (add_data (position_of_span (tileSizeTwips d) (tileSizePixels d)) (-1) l (0, 0))) d).

(** [_updateVisible], with what it leaves behind when it throws ([false]). *)
Definition updateVisible (d : dimension) : dimension * bool :=
  match union_spans (hidden d) (filtered d) ≫= fun invisible => applyZeroValues (sizes d) invisible with
  | None => (d, false)
  | Some v =>
      let d := set_visible v d in
      match updatePositions d with Some d => (d, true) | None => (d, false) end
  end.

(** [setTileGeometryData] *)
Definition setTileGeometryData (twips pixels : Z) (updatePos : bool) (d : dimension) : option dimension :=
  if (tileSizeTwips d =? twips) && (tileSizePixels d =? pixels) then Some d
  else let d := set_tile twips pixels d in if updatePos then updatePositions d else Some d.

(** ** [DimensionOutlines] *)

Definition parse_outline (s : string) : option outline :=
  match split_on ":" s with
  | a :: b :: c :: e :: _ =>
      parseInt a ≫= fun start => parseInt b ≫= fun size => parseInt c ≫= fun hidden => parseInt e ≫= fun visible =>
      Some (Outline start (size + (start - 1)) hidden visible)
  | _ => None
  end.

Definition parse_level (s : string) : option (list outline) :=
  let collectionSplits := split_on "," s in
  if (length collectionSplits <? 2)%nat then None
  else mapM parse_outline (take (length collectionSplits - 1) collectionSplits).

(** [load]; [None]: false is returned and nothing changes. *)
Definition load_outlines (encoding : string) : option (list (list outline)) :=
  let levels := split_on " " encoding in
  if (length levels <? 2)%nat then Some [] else mapM parse_level (take (length levels - 1) levels).

Definition group_direction (elementIdx : Z) (prevGroup : option outline) (curGroup : outline) (_ : option outline) : option Z :=
  let direction := if elementIdx <? o_start curGroup then -1 else if o_end curGroup <? elementIdx then 1 else 0 in
  Some (if 0 <=? direction then direction
        else match prevGroup with
             | None => 0
             | Some p => if o_end p <? elementIdx then 0 else -1
             end).

(** The groups of a level the callback gets, with their number. *)
Definition groups_in_level (groups : list outline) (start end_ : Z) : option (list (nat * outline)) :=
  binarySearch (group_direction start) groups false ≫= fun startGroupIdx =>
  if startGroupIdx =? -1 then Some []
  else
    at_ groups startGroupIdx ≫= fun startGroup =>
    if end_ <? o_start startGroup then Some []
    else Some (filter (fun g => o_start g.2 <= end_) (drop (Z.to_nat startGroupIdx) (imap pair groups))).

(** [forEachGroupInRange]: level, number and group of each call, the last level first. *)
Definition forEachGroupInRange (levels : list (list outline)) (start end_ : Z) : option (list (nat * (nat * outline))) :=
  if (length levels =? 0)%nat || (end_ <? start) then Some []
  else (@concat _) <$> mapM (fun l => (map (pair l.1)) <$> groups_in_level l.2 start end_) (reverse (imap pair levels)).

(** ** [SheetDimension.update] *)

(** The strings of [SheetDimensionCoreData]; [None]: undefined. *)
Record dimension_data := DimensionData {
  j_sizes : option string;
  j_hidden : option string;
  j_filtered : option string;
  j_groups : option string
}.

(** A [load] of a field: the new state and whether it was read. *)
Definition load_field {A} (parse : string -> option A) (set : A -> dimension -> dimension) (s : option string) (d : dimension) : dimension * bool :=
  match s with
  | None => (d, true)
  | Some s => match parse s with Some x => (set x d, true) | None => (d, false) end
  end.

(** [None] as the result: an exception. *)
Definition update_dimension (j : dimension_data) (d : dimension) : dimension * option bool :=
  let '(d, ok1) := load_field parse_spans set_sizes (j_sizes j) d in
  let '(d, ok2) := load_field parse_bool_spans set_hidden (j_hidden j) d in
  let '(d, ok3) := load_field parse_bool_spans set_filtered (j_filtered j) d in
  let '(d, ok4) := load_field load_outlines set_outlines (j_groups j) d in
  let loadsOK := ok1 && ok2 && ok3 && ok4 in
  let regenerateVisibleSizes := bool_decide (is_Some (j_sizes j) \/ is_Some (j_hidden j) \/ is_Some (j_filtered j)) in
  if loadsOK && regenerateVisibleSizes then
    let '(d, done) := updateVisible d in (d, if done then Some true else None)
  else (d, Some loadsOK).

(** ** Elements *)

Record pos_size := PosSize { startpos : num; ps_size : Z }.

(** [_getElementDataAnyFromSpanByIndex]; [Some None]: undefined. *)
Definition getElementDataAnyFromSpanByIndex (d : dimension) (index : num) (span : option span_view) (unitName : geometry_unit)
    : option (option pos_size) :=
  match span with
  | None => Some None
  | Some v =>
      if num_ltb index (Some (sv_start v)) || num_ltb (Some (sv_end v)) index then Some None
      else
        sv_data v ≫= fun p =>
        let numSizes := num_add (num_sub (Some (sv_end v)) index) (Some 1) in
        let corepx := num_sub (Some (poscorepx p)) (num_mul (Some (sizecore p)) numSizes) in
        Some (Some match unitName with
          | CorePixels => PosSize corepx (sizecore p)
          | PrintTwips => PosSize (num_sub (Some (posprinttwips p)) (num_mul (Some (sv_size v)) numSizes)) (sv_size v)
          | TileTwips => PosSize ((fun x => x * tileSizeTwips d / tileSizePixels d) <$> corepx)
                                 (sizecore p * tileSizeTwips d / tileSizePixels d)
          end)
  end.

(** [getSpanDataByIndex] for an index that may be undefined. *)
Definition span_by_index (l : list span) (index : num) : option (option span_view) :=
  match index with Some i => getSpanDataByIndex l i | None => Some None end.

Definition getElementDataAny (d : dimension) (index : num) (unitName : geometry_unit) : option (option pos_size) :=
  visibleSizes d ≫= fun l =>
  span_by_index l index ≫= fun span => getElementDataAnyFromSpanByIndex d index span unitName.

(** [getElementData] without a scale, and at the scale [zn / zd]. *)
Definition getElementData (d : dimension) (index : Z) : option (option pos_size) := getElementDataAny d (Some index) CorePixels.

Definition add_span_at_zoom (zn zd index : Z) (acc : Z * Z) (v : span_view) : Z * Z :=
  let '(startpos, size) := acc in
  let count := sv_end v - sv_start v + 1 in
  let sizeOneCorePx := sv_size v * zn / (zd * 15) in
  if sv_end v <? index then (startpos + sizeOneCorePx * count, size)
  else if (sv_start v <=? index) && (index <=? sv_end v) then (startpos + sizeOneCorePx * (index - sv_start v), sizeOneCorePx)
  else (startpos, size).

Definition getElementDataAtZoom (d : dimension) (index zn zd : Z) : option pos_size :=
  visibleSizes d ≫= fun l => forEachSpanInRange l 0 index ≫= fun spans =>
  let '(startpos, size) := fold_left (add_span_at_zoom zn zd index) spans (0, 0) in Some (PosSize (Some startpos) size).

(** [forEachInRange]: the calls of the callback. *)
Definition forEachInRange (d : dimension) (start end_ : Z) : option (list (Z * option pos_size)) :=
  visibleSizes d ≫= fun l => forEachSpanInRange l start end_ ≫= fun spans =>
  (@concat _) <$> mapM (fun v =>
    let first := Z.max (sv_start v) start in
    let last := Z.min (sv_end v) end_ in
    mapM (fun index => pair index <$> getElementDataAnyFromSpanByIndex d (Some index) (Some v) CorePixels) (seqZ first (last - first + 1)))
    spans.

(** The loop of [forEachInCorePixelRange] over a span; a size of 0 makes the first
    position [NaN]. *)
Fixpoint grid_loop (fuel : nat) (pos last step index : Z) : list (Z * Z) :=
  match fuel with
  | O => []
  | S fuel => if pos <=? last then (pos, index) :: grid_loop fuel (pos + step) last step (index + 1) else []
  end.

(** [a % b] with the sign of [a]. *)
Definition js_rem (a b : Z) : Z := Z.rem a b.

Definition grid_lines_of_span (startPix endPix : Z) (v : span_view) (p : positions) : list (Z * Z) :=
  let spanFirstCorePx := poscorepx p - sizecore p * (sv_end v - sv_start v + 1) in
  if (spanFirstCorePx <? endPix) && (startPix <? poscorepx p) && negb (sizecore p =? 0) then
    let firstCorePx := Z.max spanFirstCorePx (startPix + sizecore p - js_rem (startPix - spanFirstCorePx) (sizecore p)) in
    let lastCorePx := Z.min endPix (poscorepx p) in
    let index := sv_start v + (firstCorePx - spanFirstCorePx) / sizecore p in
    grid_loop (S (Z.to_nat (lastCorePx - firstCorePx))) firstCorePx lastCorePx (sizecore p) index
  else [].

Definition forEachInCorePixelRange (d : dimension) (startPix endPix : Z) : option (list (Z * Z)) :=
  visibleSizes d ≫= fun l =>
  (@concat _) <$> mapM (fun v => grid_lines_of_span startPix endPix v <$> sv_data v) (forEachSpan l).

(** ** From positions to elements *)

Record index_and_span := IndexAndSpan { is_index : num; is_span : option span_view }.

(** [Math.floor (a / b)]; what comes of a division by 0 is no index. *)
Definition floor_quotient (a b : Z) : num := if b =? 0 then None else Some (a / b).

(** The index and span when no span is found. *)
Definition enforce_limits (d : dimension) (l : list span) (pos : Z) : option index_and_span :=
  let index := if 0 <=? pos then maxIndex d else Some 0 in
  span_by_index l index ≫= fun span => Some (IndexAndSpan index span).

(** [_getSpanAndIndexFromTileTwipsPos], for the position [pos / tileSizePixels]. *)
Definition getSpanAndIndexFromTileTwipsPos (d : dimension) (pos : Z) : option index_and_span :=
  visibleSizes d ≫= fun l =>
  getSpanDataByCustomDataField l PosTileTwips pos (tileSizePixels d) ≫= fun span =>
  match span with
  | None => enforce_limits d l pos
  | Some v =>
      sv_data v ≫= fun p =>
      let elementCount := sv_end v - sv_start v + 1 in
      let posStart := (poscorepx p - sizecore p * elementCount) * tileSizeTwips d in
      let posEnd := postiletwips p * tileSizePixels d in
      let relativeIndex := floor_quotient ((pos - posStart) * elementCount) (posEnd - posStart) in
      Some (IndexAndSpan (num_add (Some (sv_start v)) relativeIndex) span)
  end.

(** [_getSpanAndIndexFromPrintTwipsPos] *)
Definition getSpanAndIndexFromPrintTwipsPos (d : dimension) (pos : Z) : option index_and_span :=
  visibleSizes d ≫= fun l =>
  getSpanDataByCustomDataField l PosPrintTwips pos 1 ≫= fun span =>
  match span with
  | None => enforce_limits d l pos
  | Some v =>
      sv_data v ≫= fun p =>
      let elementCount := sv_end v - sv_start v + 1 in
      let posStart := posprinttwips p - sv_size v * elementCount in
      let relativeIndex := floor_quotient (pos - posStart) (sv_size v) in
      Some (IndexAndSpan (num_add (Some (sv_start v)) relativeIndex) span)
  end.

(** The search for a position in a unit: tile twips in [tileSizePixels]-ths, the others
    whole. *)
Definition getSpanAndIndexFromPos (d : dimension) (pos : Z) (unit : geometry_unit) : option index_and_span :=
  match unit with
  | CorePixels => getSpanAndIndexFromTileTwipsPos d (pos * tileSizeTwips d)
  | TileTwips => getSpanAndIndexFromTileTwipsPos d pos
  | PrintTwips => getSpanAndIndexFromPrintTwipsPos d pos
  end.

Definition getIndexFromPos (d : dimension) (pos : Z) (unit : geometry_unit) : option num :=
  is_index <$> getSpanAndIndexFromPos d pos unit.

(** The data of what was found; [undefined.startpos] throws. *)
Definition found_data (d : dimension) (r : index_and_span) (unit : geometry_unit) : option pos_size :=
  getElementDataAnyFromSpanByIndex d (is_index r) (is_span r) unit ≫= id.

Definition getSnapPos (d : dimension) (pos : Z) (unit : geometry_unit) : option num :=
  getSpanAndIndexFromPos d pos unit ≫= fun r => startpos <$> found_data d r unit.

(** [setViewLimits], for positions in [tileSizePixels]-ths of tile twips. *)
Definition num_max (a b : num) : num := match a, b with Some x, Some y => Some (Z.max x y) | _, _ => None end.
Definition num_min (a b : num) : num := match a, b with Some x, Some y => Some (Z.min x y) | _, _ => None end.

Definition setViewLimits (startPos endPos : Z) (d : dimension) : option dimension :=
  getIndexFromPos d startPos TileTwips ≫= fun a =>
  getIndexFromPos d endPos TileTwips ≫= fun b =>
  Some (set_view (num_max (Some 0) a) (num_min (maxIndex d) b) d).

(** [getSize] *)
Definition getSize (d : dimension) (unit : geometry_unit) : option num :=
  getElementDataAny d (maxIndex d) unit ≫= fun posSize =>
  Some (match posSize with Some p => num_add (startpos p) (Some (ps_size p)) | None => None end).

(** ** Conversions of positions *)

(** [getTileTwipsPosFromPrint] without a scale. *)
Definition getTileTwipsPosFromPrint (d : dimension) (posPT : Z) : option num :=
  getSpanAndIndexFromPrintTwipsPos d posPT ≫= fun element =>
  found_data d element TileTwips ≫= fun elementDataTT =>
  found_data d element PrintTwips ≫= fun elementDataPT =>
  Some (num_add (startpos elementDataTT) (num_sub (Some posPT) (startpos elementDataPT))).

(** [getPrintTwipsPosFromTile], for a whole position. *)
Definition getPrintTwipsPosFromTile (d : dimension) (posTT : Z) : option num :=
  getSpanAndIndexFromTileTwipsPos d (posTT * tileSizePixels d) ≫= fun element =>
  found_data d element TileTwips ≫= fun elementDataTT =>
  found_data d element PrintTwips ≫= fun elementDataPT =>
  Some (num_add (startpos elementDataPT) (num_sub (Some posTT) (startpos elementDataTT))).

(** [getTileTwipsRangeFromPrint] *)
Definition getTileTwipsRangeFromPrint (d : dimension) (posStartPT posEndPT : Z) : option (num * num) :=
  getSpanAndIndexFromPrintTwipsPos d posStartPT ≫= fun startElement =>
  getElementDataAnyFromSpanByIndex d (is_index startElement) (is_span startElement) TileTwips ≫= fun startData =>
  if posStartPT =? posEndPT then
    startData ≫= fun s => Some (startpos s, num_add (startpos s) (Some (tileSizeTwips d / tileSizePixels d)))
  else
    getSpanAndIndexFromPrintTwipsPos d posEndPT ≫= fun endElement =>
    getElementDataAnyFromSpanByIndex d (is_index endElement) (is_span endElement) TileTwips ≫= fun endData =>
    startData ≫= fun s => endData ≫= fun e =>
    let endPos := num_add (startpos e) (Some (ps_size e)) in
    Some (startpos s, if num_ltb endPos (startpos s) then startpos s else endPos).

(** The loop of [getTileTwipsPosFromPrint] at the scale [zn / zd]. *)
Definition tile_twips_step (posPT zn zd : Z) (acc : Z * Z) (v : span_view) : Z * Z :=
  let '(posTT, posPTInc) := acc in
  let count := sv_end v - sv_start v + 1 in
  let sizeSpanPT := sv_size v * count in
  let sizeOneCorePx := sv_size v * zn / (zd * 15) in
  let sizeSpanTT := sizeOneCorePx * count * 15 * zd / zn in
  if posPT <=? posPTInc then (posTT, posPTInc)
  else if posPTInc + sizeSpanPT <? posPT then (posTT + sizeSpanTT, posPTInc + sizeSpanPT)
  else
    let remainingPT := posPT - posPTInc in
    let elemCountFinalSpan := remainingPT / sv_size v in
    let extra := remainingPT - elemCountFinalSpan * sv_size v in
    (posTT + (elemCountFinalSpan * sizeSpanTT / count + extra), posPT).

Definition getTileTwipsPosFromPrintAtZoom (d : dimension) (posPT zn zd : Z) : option Z :=
  visibleSizes d ≫= fun l => Some (fold_left (tile_twips_step posPT zn zd) (forEachSpan l) (0, 0)).1.

(** [getTileTwipsAtZoom] *)
Definition getTileTwipsAtZoom (d : dimension) (posTT zn zd : Z) : option num :=
  getPrintTwipsPosFromTile d posTT ≫= fun posPT =>
  match posPT with Some p => Some <$> getTileTwipsPosFromPrintAtZoom d p zn zd | None => Some None end.

(** The loops of [getCorePixelsAtZoom] and [getCorePixelsFromZoom]: [from] and [to] give
    the size of an element of a span in the unit converted from and to; the state is the
    position converted so far and what remains. *)
Definition convert_step (from to : span_view -> Z) (acc : Z * Z) (v : span_view) : Z * Z :=
  let '(converted, rem) := acc in
  let elementCount := sv_end v - sv_start v + 1 in
  if rem <? from v then (converted, rem)
  else if from v * elementCount <=? rem then (converted + to v * elementCount, rem - from v * elementCount)
  else
    let elems := rem / from v in
    (converted + elems * to v, rem - elems * from v).

Definition convert (from to : span_view -> Z) (l : list span) (pos : Z) : Z * Z :=
  fold_left (convert_step from to) (forEachSpan l) (0, pos).

Definition size_core (v : span_view) : Z := match sv_data v with Some p => sizecore p | None => 0 end.
Definition size_zoom (zn zd : Z) (v : span_view) : Z := sv_size v * zn / (15 * zd).

(** [getCorePixelsAtZoom], in [15 * tileSizePixels * zd]-ths of a pixel. *)
Definition getCorePixelsAtZoom (d : dimension) (posCP zn zd : Z) : option Z :=
  visibleSizes d ≫= fun l =>
  let '(posCPZ, posCPRem) := convert size_core (size_zoom zn zd) l posCP in
  Some (posCPZ * (15 * tileSizePixels d * zd) + posCPRem * zn * tileSizeTwips d).

(** [getCorePixelsFromZoom], in [tileSizeTwips * zn]-ths of a pixel. *)
Definition getCorePixelsFromZoom (d : dimension) (posCPZ zn zd : Z) : option Z :=
  visibleSizes d ≫= fun l =>
  let '(posCP, posCPZRem) := convert (size_zoom zn zd) size_core l posCPZ in
  Some (posCP * (tileSizeTwips d * zn) + posCPZRem * 15 * tileSizePixels d * zd).

(** ** Groups in view *)

Record group_data := GroupData { g_level : string; g_index : string; g_startPos : string; g_endPos : string; g_hidden : string }.

Definition num_text (n : num) : string := match n with Some z => num_to_string z | None => "NaN" end.

(** The data of an element that must be there. *)
Definition existing_data (d : dimension) (index : Z) : option pos_size :=
  match getElementData d index with Some (Some p) => Some p | _ => None end.

Definition group_data_of (d : dimension) (g : nat * (nat * outline)) : option group_data :=
  let '(levelIdx, (groupIdx, o)) := g in
  existing_data d (o_start o) ≫= fun startElementData =>
  existing_data d (o_end o) ≫= fun endElementData =>
  Some (GroupData (num_to_string (Z.of_nat levelIdx + 1)) (num_to_string (Z.of_nat groupIdx))
                  (num_text (startpos startElementData))
                  (num_text (num_add (startpos endElementData) (Some (ps_size endElementData))))
                  (if o_hidden o =? 0 then "0" else "1")).

(** [getGroupsDataInView] *)
Definition getGroupsDataInView (d : dimension) : option (list group_data) :=
  if (length (outlines d) =? 0)%nat then Some []
  else
    match viewEndIndex d with
    | None => Some []
    | Some e =>
        forEachGroupInRange (outlines d) 0 e ≫= fun groups =>
        mapM (group_data_of d) groups
    end.

(** ** [SheetGeometry] *)

(** The parsed message; [None]: undefined. *)
Record geometry_data := GeometryData {
  commandName : option string;
  maxtiledcolumn : option string;
  maxtiledrow : option string;
  j_columns : option dimension_data;
  j_rows : option dimension_data
}.

Record sheet_geometry := SheetGeometry { part : Z; columns : dimension; rows : dimension }.

Definition unoCommand : string := ".uno:SheetGeometryData".

(** [/^\d+$/.test] of a string. *)
Definition is_number_text (s : option string) : bool :=
  match s with
  | Some s => negb (String.eqb s "") && str_forall (fun c => (48 <=? code c) && (code c <=? 57)) s
  | None => false
  end.

Definition has_text (s : option string) : bool := match s with Some s => negb (String.eqb s "") | None => false end.

Definition is_complete (j : dimension_data) : bool := has_text (j_sizes j) && has_text (j_hidden j) && has_text (j_filtered j).

(** [_testValidity] *)
Definition testValidity (j : geometry_data) (checkCompleteness : bool) : bool :=
  match commandName j with Some c => String.eqb c unoCommand | None => false end &&
  is_number_text (maxtiledcolumn j) && is_number_text (maxtiledrow j) &&
  (negb checkCompleteness ||
   match j_rows j, j_columns j with Some r, Some c => is_complete r && is_complete c | _, _ => false end).

Definition number_of (s : option string) : num := match s with Some s => to_number s | None => None end.

(** The update of one dimension. *)
Definition update_part (j : option dimension_data) (d : dimension) : dimension * option bool :=
  match j with Some j => update_dimension j d | None => (d, Some true) end.

(** [update]; [None] as the result: an exception. *)
Definition update_geometry (j : geometry_data) (checkCompleteness : bool) (newPart : Z) (g : sheet_geometry) : sheet_geometry * option bool :=
  if negb (testValidity j checkCompleteness) then (g, Some false)
  else
    let '(c, ok1) := update_part (j_columns j) (columns g) in
    match ok1 with
    | None => (SheetGeometry (part g) c (rows g), None)
    | Some ok1 =>
        let '(r, ok2) := update_part (j_rows j) (rows g) in
        match ok2 with
        | None => (SheetGeometry (part g) c r, None)
        | Some ok2 =>
            (SheetGeometry (if ok1 && ok2 then newPart else part g)
               (setMaxIndex (number_of (maxtiledcolumn j)) c) (setMaxIndex (number_of (maxtiledrow j)) r), Some (ok1 && ok2))
        end
    end.

(** The constructor; [None]: an exception. *)
Definition new_SheetGeometry (j : geometry_data) (tileWidthTwips tileHeightTwips tileSizePixels newPart : Z) : option sheet_geometry :=
  setTileGeometryData tileWidthTwips tileSizePixels false new_dimension ≫= fun c =>
  setTileGeometryData tileHeightTwips tileSizePixels false new_dimension ≫= fun r =>
  match update_geometry j true newPart (SheetGeometry (-1) c r) with
  | (g, Some _) => Some g
  | (_, None) => None
  end.

(** [setTileGeometryData] of both. *)
Definition set_tile_geometry (tileWidthTwips tileHeightTwips tileSizePixels : Z) (updatePos : bool) (g : sheet_geometry) : option sheet_geometry :=
  setTileGeometryData tileWidthTwips tileSizePixels updatePos (columns g) ≫= fun c =>
  setTileGeometryData tileHeightTwips tileSizePixels updatePos (rows g) ≫= fun r => Some (SheetGeometry (part g) c r).

(** [setViewArea], in [tileSizePixels]-ths of tile twips. *)
Definition setViewArea (left top width height : Z) (g : sheet_geometry) : option sheet_geometry :=
  setViewLimits left (left + width) (columns g) ≫= fun c =>
  setViewLimits top (top + height) (rows g) ≫= fun r => Some (SheetGeometry (part g) c r).

(** [getCellFromPos] *)
Definition getCellFromPos (g : sheet_geometry) (x y : Z) (unit : geometry_unit) : option (num * num) :=
  getIndexFromPos (columns g) x unit ≫= fun column => getIndexFromPos (rows g) y unit ≫= fun row => Some (column, row).

(** [getCellRect] at the scale [zn / zd]: position and size. *)
Definition getCellRect (g : sheet_geometry) (columnIndex rowIndex zn zd : Z) : option (pos_size * pos_size) :=
  getElementDataAtZoom (columns g) columnIndex zn zd ≫= fun h =>
  getElementDataAtZoom (rows g) rowIndex zn zd ≫= fun v => Some (h, v).

(** [getTileTwipsPointFromPrint] and [getTileTwipsSheetAreaFromPrint] *)
Definition getTileTwipsPointFromPrint (g : sheet_geometry) (x y : Z) : option (num * num) :=
  getTileTwipsPosFromPrint (columns g) x ≫= fun x => getTileTwipsPosFromPrint (rows g) y ≫= fun y => Some (x, y).

Definition getTileTwipsSheetAreaFromPrint (g : sheet_geometry) (x1 y1 x2 y2 : Z) : option ((num * num) * (num * num)) :=
  getTileTwipsRangeFromPrint (columns g) x1 x2 ≫= fun h =>
  getTileTwipsRangeFromPrint (rows g) y1 y2 ≫= fun v => Some ((h.1, v.1), (h.2, v.2)).

(** ** Sums of sizes *)

Fixpoint zsum (f : Z -> Z) (n : nat) : Z := match n with O => 0 | S k => zsum f k + f (Z.of_nat k) end.

(** The sum of [f 0] to [f (n - 1)]: where element [n] starts. *)
Definition psum (f : Z -> Z) (n : Z) : Z := zsum f (Z.to_nat n).

Lemma psum_0 f : psum f 0 = 0.
Proof. done. Qed.

Lemma psum_succ f n : 0 <= n -> psum f (n + 1) = psum f n + f n.
Proof.
  intros Hn. unfold psum. replace (Z.to_nat (n + 1)) with (S (Z.to_nat n)) by lia. cbn [zsum]. by rewrite Z2Nat.id.
Qed.

Lemma psum_ext f g n : (forall i, 0 <= i < n -> f i = g i) -> psum f n = psum g n.
Proof.
  intros H. unfold psum. assert (forall k, (k <= Z.to_nat n)%nat -> zsum f k = zsum g k) as Hk; [|by apply Hk].
  induction k as [|k IH]; intros Hk; [done|]. cbn [zsum]. rewrite IH, H; lia.
Qed.

(** Elements of the same size. *)
Lemma psum_block f c a b : 0 <= a <= b -> (forall i, a <= i < b -> f i = c) -> psum f b = psum f a + c * (b - a).
Proof.
  intros Hab. replace b with (a + Z.of_nat (Z.to_nat (b - a))) by lia. generalize (Z.to_nat (b - a)).
  intros n H2. induction n as [|n IH]; [replace (a + Z.of_nat 0) with a by lia; lia|].
  replace (a + Z.of_nat (S n)) with (a + Z.of_nat n + 1) by lia. rewrite psum_succ by lia.
  rewrite IH by (intros i Hi; apply H2; lia). rewrite H2 by lia. lia.
Qed.

Lemma psum_mono f a b m : (forall i, 0 <= i <= m -> 0 <= f i) -> 0 <= a <= b -> b <= m + 1 -> psum f a <= psum f b.
Proof.
  intros Hf Hab Hb. replace b with (a + Z.of_nat (Z.to_nat (b - a))) in * by lia. revert Hb. generalize (Z.to_nat (b - a)).
  induction n as [|n IH]; intros Hb; [replace (a + Z.of_nat 0) with a by lia; lia|].
  replace (a + Z.of_nat (S n)) with (a + Z.of_nat n + 1) in * by lia. rewrite psum_succ by lia.
  specialize (IH ltac:(lia)). pose proof (Hf (a + Z.of_nat n) ltac:(lia)). lia.
Qed.

(** Every position before the end is in an element. *)
Lemma psum_covers f m pos :
  0 <= pos < psum f (m + 1) -> exists i, 0 <= i <= m /\ psum f i <= pos < psum f (i + 1).
Proof.
  intros [H0 H]. unfold psum in H. assert (exists k, (k < Z.to_nat (m + 1))%nat /\ zsum f k <= pos < zsum f (S k)) as (k & Hk & Hp).
  { induction (Z.to_nat (m + 1)) as [|n IH]; cbn [zsum] in H; [lia|].
    destruct (Z.lt_ge_cases pos (zsum f n)) as [Hlt|Hge].
    - destruct (IH Hlt) as (k & Hk & Hp). exists k. split; [lia|done].
    - exists n. cbn [zsum]. lia. }
  exists (Z.of_nat k). split; [lia|]. unfold psum. replace (Z.to_nat (Z.of_nat k + 1)) with (S k) by lia.
  by rewrite Nat2Z.id.
Qed.

(** ** Good positions *)

(** Every span knows where it ends. *)
Definition positions_ok (twips pixels : Z) (l : list span) : Prop :=
  forall k v, views (-1) l !! k = Some v ->
  let px := psum (fun j => value_at l j * pixels / twips) (sv_end v + 1) in
  sv_data v = Some (Positions (sv_size v * pixels / twips) px (px * twips / pixels) (psum (value_at l) (sv_end v + 1))).

Lemma add_data_views {S} (cb : Z -> Z -> Z -> S -> S * positions) p l s :
  map (fun v => (sv_start v, sv_end v, sv_size v)) (views p (add_data cb p l s)) =
  map (fun v => (sv_start v, sv_end v, sv_size v)) (views p l).
Proof.
  revert p s. induction l as [|sp l IH]; intros p s; [done|]. cbn [add_data]. destruct (cb _ _ _ _) as [s' d].
  cbn. f_equal. apply IH.
Qed.

Lemma add_data_index {S} (cb : Z -> Z -> Z -> S -> S * positions) p l s :
  map sp_index (add_data cb p l s) = map sp_index l.
Proof.
  revert p s. induction l as [|sp l IH]; intros p s; [done|]. cbn [add_data]. destruct (cb _ _ _ _) as [s' d].
  cbn. f_equal. apply IH.
Qed.

Lemma add_data_value {S} (cb : Z -> Z -> Z -> S -> S * positions) p l s i :
  value_at (add_data cb p l s) i = value_at l i.
Proof.
  revert p s. induction l as [|sp l IH]; intros p s; [done|]. cbn [add_data]. destruct (cb _ _ _ _) as [s' d].
  cbn. case_match; [done|apply IH].
Qed.

Lemma add_positions twips pixels (f : Z -> Z) p l m px pt k v :
  -1 <= p -> chain p (map sp_index l) m -> (forall i, p < i <= m -> value_at l i = f i) ->
  px = psum (fun j => f j * pixels / twips) (p + 1) -> pt = psum f (p + 1) ->
  views p (add_data (position_of_span twips pixels) p l (px, pt)) !! k = Some v ->
  let q := psum (fun j => f j * pixels / twips) (sv_end v + 1) in
  sv_data v = Some (Positions (sv_size v * pixels / twips) q (q * twips / pixels) (psum f (sv_end v + 1))).
Proof.
  revert p px pt k. induction l as [|s l IH]; intros p px pt k Hp Hc Hf Epx Ept; [done|].
  cbn [map chain] in Hc. destruct Hc as [Hc1 Hc2]. cbn [add_data position_of_span]. cbv zeta.
  assert (Hfs : forall i, p < i <= sp_index s -> f i = sp_value s).
  { intros i Hi. rewrite <- Hf by (apply chain_le in Hc2; lia). cbn. by rewrite (proj2 (Z.leb_le _ _)) by lia. }
  assert (E1 : px + sp_value s * pixels / twips * (sp_index s - p) = psum (fun j => f j * pixels / twips) (sp_index s + 1)).
  { rewrite (psum_block _ (sp_value s * pixels / twips) (p + 1)) by (try lia; intros i Hi; rewrite Hfs by lia; done). lia. }
  assert (E2 : pt + sp_value s * (sp_index s - p) = psum f (sp_index s + 1)).
  { rewrite (psum_block _ (sp_value s) (p + 1)) by (try lia; intros i Hi; apply Hfs; lia). lia. }
  rewrite E1, E2. destruct k as [|k]; cbn.
  - intros [= <-]. done.
  - intros Hk. refine (IH (sp_index s) _ _ k _ Hc2 _ eq_refl eq_refl Hk); [lia|].
    intros i Hi. rewrite <- Hf by lia. cbn. by rewrite (proj2 (Z.leb_gt _ _)) by lia.
Qed.

(** What a dimension that was updated looks like: [vis] tells the visible size of each
    element up to [m] in print twips. *)
Record dimension_ok (d : dimension) (m : Z) (vis : Z -> Z) (l : list span) : Prop := {
  do_visible : visibleSizes d = Some l;
  do_twips : 0 < tileSizeTwips d;
  do_pixels : 0 < tileSizePixels d;
  do_spans : spans_ok l m;
  do_max : 0 <= m;
  do_values : forall i, 0 <= i <= m -> value_at l i = vis i;
  do_sizes : forall i, 0 <= i <= m -> 0 <= vis i;
  do_positions : positions_ok (tileSizeTwips d) (tileSizePixels d) l
}.

Lemma updatePositions_ok d m vis l :
  visibleSizes d = Some l -> 0 < tileSizeTwips d -> 0 < tileSizePixels d -> spans_ok l m -> 0 <= m ->
  (forall i, 0 <= i <= m -> value_at l i = vis i) -> (forall i, 0 <= i <= m -> 0 <= vis i) ->
  exists l', updatePositions d = Some (set_visible (Some l') d) /\ dimension_ok (set_visible (Some l') d) m vis l'.
Proof.
  intros Hl Ht Hp Hs Hm Hv Hn. unfold updatePositions. rewrite Hl. cbn [mbind option_bind]. eexists. split; [done|].
  split; cbn; try done.
  - unfold spans_ok. by rewrite add_data_index.
  - intros i Hi. rewrite add_data_value. by apply Hv.
  - intros k v Hk. pose proof (add_positions (tileSizeTwips d) (tileSizePixels d) (value_at l) (-1) l m 0 0 k v
      ltac:(lia) Hs ltac:(done) eq_refl eq_refl Hk) as E. cbv zeta in E |- *. rewrite E.
    assert (Ex : forall j, value_at (add_data (position_of_span (tileSizeTwips d) (tileSizePixels d)) (-1) l (0, 0)) j = value_at l j)
      by (intros j; apply add_data_value).
    generalize dependent (value_at (add_data (position_of_span (tileSizeTwips d) (tileSizePixels d)) (-1) l (0, 0))). intros w Ex.
    rewrite (psum_ext w (value_at l)) by (intros; apply Ex).
    rewrite (psum_ext (fun j => w j * tileSizePixels d / tileSizeTwips d) (fun j => value_at l j * tileSizePixels d / tileSizeTwips d))
      by (intros; by rewrite Ex). done.
Qed.

(** ** Elements and positions of a good dimension *)

Section good.
Context (d : dimension) (m : Z) (vis : Z -> Z) (l : list span).
Hypothesis Hd : dimension_ok d m vis l.
Let T := tileSizeTwips d.
Let P := tileSizePixels d.

(** Sizes in core pixels. *)
Definition core_size (i : Z) : Z := vis i * tileSizePixels d / tileSizeTwips d.

(** Where an element starts and how big it is, by unit. *)
Definition unit_start (unit : geometry_unit) (i : Z) : Z :=
  match unit with
  | CorePixels => psum core_size i
  | TileTwips => psum core_size i * tileSizeTwips d / tileSizePixels d
  | PrintTwips => psum vis i
  end.
Definition unit_size (unit : geometry_unit) (i : Z) : Z :=
  match unit with
  | CorePixels => core_size i
  | TileTwips => core_size i * tileSizeTwips d / tileSizePixels d
  | PrintTwips => vis i
  end.

Lemma T_pos : 0 < T.
Proof using Hd. apply (do_twips _ _ _ _ Hd). Qed.

Lemma P_pos : 0 < P.
Proof using Hd. apply (do_pixels _ _ _ _ Hd). Qed.

Lemma core_size_nonneg i : 0 <= i <= m -> 0 <= core_size i.
Proof using Hd.
  intros Hi. unfold core_size. apply Z.div_pos; [|apply T_pos].
  pose proof (do_sizes _ _ _ _ Hd i Hi). pose proof P_pos. unfold P in *. nia.
Qed.

Lemma span_facts k v :
  views (-1) l !! k = Some v ->
  0 <= sv_start v <= sv_end v /\ sv_end v <= m /\ (forall j, sv_start v <= j <= sv_end v -> vis j = sv_size v) /\
  sv_data v = Some (Positions (sv_size v * P / T) (psum core_size (sv_end v + 1))
                              (psum core_size (sv_end v + 1) * T / P) (psum vis (sv_end v + 1))).
Proof using Hd.
  intros Hk. destruct (views_ok _ _ _ _ _ (do_spans _ _ _ _ Hd) Hk) as (H1 & H2 & H3).
  split_and!; [lia|lia|lia| |].
  - intros j Hj. rewrite <- (do_values _ _ _ _ Hd) by lia. by apply H3.
  - rewrite (do_positions _ _ _ _ Hd _ _ Hk). cbv zeta. fold T P.
    rewrite (psum_ext (value_at l) vis) by (intros i Hi; apply (do_values _ _ _ _ Hd); lia).
    rewrite (psum_ext (fun j => value_at l j * P / T) core_size); [done|].
    intros i Hi. unfold core_size. fold T P. by rewrite (do_values _ _ _ _ Hd) by lia.
Qed.

(** Sums up to an element of a span, from either end of it. *)
Lemma span_sums k v i :
  views (-1) l !! k = Some v -> sv_start v <= i <= sv_end v + 1 ->
  psum core_size i = psum core_size (sv_start v) + sv_size v * P / T * (i - sv_start v) /\
  psum vis i = psum vis (sv_start v) + sv_size v * (i - sv_start v).
Proof using Hd.
  intros Hk Hi. destruct (span_facts k v Hk) as (H1 & H2 & H3 & _). split.
  - apply psum_block; [lia|]. intros j Hj. unfold core_size. fold T P. by rewrite H3 by lia.
  - apply psum_block; [lia|]. intros j Hj. apply H3. lia.
Qed.

Lemma element_data_in_span k v i unit :
  views (-1) l !! k = Some v -> sv_start v <= i <= sv_end v ->
  getElementDataAnyFromSpanByIndex d (Some i) (Some v) unit = Some (Some (PosSize (Some (unit_start unit i)) (unit_size unit i))).
Proof using Hd.
  intros Hk Hi. destruct (span_facts k v Hk) as (H1 & H2 & H3 & H4).
  destruct (span_sums k v i Hk ltac:(lia)) as [S1 S2]. destruct (span_sums k v (sv_end v + 1) Hk ltac:(lia)) as [E1 E2].
  unfold getElementDataAnyFromSpanByIndex. cbn [num_ltb].
  rewrite (proj2 (Z.ltb_ge i _)), (proj2 (Z.ltb_ge _ i)) by lia. cbn [orb]. rewrite H4.
  cbn [mbind option_bind num_add num_sub num_mul sizecore poscorepx postiletwips posprinttwips].
  assert (Ec : core_size i = sv_size v * P / T) by (unfold core_size; fold T P; by rewrite H3 by lia).
  assert (Ep : psum core_size (sv_end v + 1) - sv_size v * P / T * (sv_end v - i + 1) = psum core_size i) by (rewrite S1, E1; ring).
  assert (Et : psum vis (sv_end v + 1) - sv_size v * (sv_end v - i + 1) = psum vis i) by (rewrite S2, E2; ring).
  rewrite Ep, Et. unfold unit_start, unit_size. rewrite Ec, (H3 i) by lia. fold T P. by destruct unit.
Qed.

(** The data of an element. *)
Lemma element_data i unit :
  0 <= i <= m -> getElementDataAny d (Some i) unit = Some (Some (PosSize (Some (unit_start unit i)) (unit_size unit i))).
Proof using Hd.
  intros Hi. unfold getElementDataAny. rewrite (do_visible _ _ _ _ Hd). cbn [mbind option_bind span_by_index].
  destruct (getSpanDataByIndex_ok l m i (do_spans _ _ _ _ Hd) Hi) as (k & v & -> & Hk & Hv). cbn [mbind option_bind].
  by apply (element_data_in_span k).
Qed.

(** The starts of elements ascend. *)
Lemma core_mono a b : 0 <= a <= b -> b <= m + 1 -> psum core_size a <= psum core_size b.
Proof using Hd. intros Ha Hb. apply (psum_mono _ _ _ m); [apply core_size_nonneg|lia|lia]. Qed.

Lemma print_mono a b : 0 <= a <= b -> b <= m + 1 -> psum vis a <= psum vis b.
Proof using Hd. intros Ha Hb. apply (psum_mono _ _ _ m); [apply (do_sizes _ _ _ _ Hd)|lia|lia]. Qed.

(** The searched fields. *)
Lemma field_end_print k v : views (-1) l !! k = Some v -> field_end l PosPrintTwips (Z.of_nat k) = psum vis (sv_end v + 1).
Proof using Hd.
  intros Hk. destruct (span_facts k v Hk) as (_ & _ & _ & H4). unfold field_end. rewrite Nat2Z.id, Hk. cbn. by rewrite H4.
Qed.

Lemma field_end_tile k v : views (-1) l !! k = Some v -> field_end l PosTileTwips (Z.of_nat k) = psum core_size (sv_end v + 1) * T / P.
Proof using Hd.
  intros Hk. destruct (span_facts k v Hk) as (_ & _ & _ & H4). unfold field_end. rewrite Nat2Z.id, Hk. cbn. by rewrite H4.
Qed.

Lemma field_start_span f (g : Z -> Z) k v :
  (forall k v, views (-1) l !! k = Some v -> field_end l f (Z.of_nat k) = g (sv_end v + 1)) -> g 0 = 0 ->
  views (-1) l !! k = Some v -> field_start l f (Z.of_nat k) = g (sv_start v).
Proof using Hd.
  intros Hg H0 Hk. unfold field_start. destruct k as [|k].
  - cbn. rewrite (views_first _ _ _ (do_spans _ _ _ _ Hd) v Hk). done.
  - rewrite (proj2 (Z.eqb_neq _ _)) by lia. replace (Z.of_nat (S k) - 1) with (Z.of_nat k) by lia.
    destruct (lookup_lt_is_Some_2 (views (-1) l) k) as [w Hw]; [apply lookup_lt_Some in Hk; lia|].
    rewrite (Hg _ _ Hw). by rewrite (views_next _ _ _ _ _ Hw Hk).
Qed.

Lemma all_data : Forall (fun s => is_Some (sp_data s)) l.
Proof using Hd.
  apply Forall_lookup. intros k s Hs. destruct (lookup_lt_is_Some_2 (views (-1) l) k) as [v Hv].
  { rewrite length_views. by apply lookup_lt_Some in Hs. }
  destruct (span_facts k v Hv) as (_ & _ & _ & H4). rewrite views_lookup, Hs in Hv. injection Hv as <-.
  cbn in H4. by rewrite H4.
Qed.

Lemma field_ascending f (g : Z -> Z) i j :
  (forall k v, views (-1) l !! k = Some v -> field_end l f (Z.of_nat k) = g (sv_end v + 1)) ->
  (forall a b, 0 <= a <= b -> b <= m + 1 -> g a <= g b) ->
  0 <= i <= j -> j < Z.of_nat (length l) -> field_end l f i <= field_end l f j.
Proof using Hd.
  intros Hg Hm Hi Hj. destruct (lookup_views_Z l i) as [v Hv]; [lia|]. destruct (lookup_views_Z l j) as [w Hw]; [lia|].
  pose proof (Hg _ _ Hv) as E1. pose proof (Hg _ _ Hw) as E2. rewrite Z2Nat.id in E1, E2 by lia. rewrite E1, E2.
  destruct (span_facts _ _ Hv) as (? & ? & _). destruct (span_facts _ _ Hw) as (? & ? & _).
  destruct (decide (i = j)) as [->|]; [rewrite Hv in Hw; injection Hw as ->; lia|].
  pose proof (views_sorted _ _ _ (Z.to_nat i) (Z.to_nat j) _ _ (do_spans _ _ _ _ Hd) ltac:(lia) Hv Hw).
  apply Hm; lia.
Qed.

Lemma field_from_zero f (g : Z -> Z) :
  (forall k v, views (-1) l !! k = Some v -> field_end l f (Z.of_nat k) = g (sv_end v + 1)) ->
  (forall a b, 0 <= a <= b -> b <= m + 1 -> g a <= g b) -> g 0 = 0 ->
  0 < Z.of_nat (length l) -> 0 <= field_end l f 0.
Proof using Hd.
  intros Hg Hm H0 Hl. destruct (lookup_views_Z l 0) as [v Hv]; [lia|]. pose proof (Hg _ _ Hv) as E.
  rewrite Z2Nat.id in E by lia. rewrite E, <- H0. destruct (span_facts _ _ Hv) as (? & ? & _). apply Hm; lia.
Qed.

(** The span a position is found in: it contains an element whose start is not after
    the position, and ends a unit after it. *)
Lemma find_span f (g : Z -> Z) k v pos den :
  (forall k v, views (-1) l !! k = Some v -> field_end l f (Z.of_nat k) = g (sv_end v + 1)) ->
  (forall a b, 0 <= a <= b -> b <= m + 1 -> g a <= g b) -> g 0 = 0 -> 0 < den ->
  views (-1) l !! k = Some v -> g (sv_start v) * den <= pos <= (g (sv_end v + 1) - 1) * den ->
  getSpanDataByCustomDataField l f pos den = Some (Some v).
Proof using Hd.
  intros Hg Hm H0 Hden Hk Hpos.
  assert (Hlen : 0 <= Z.of_nat k < Z.of_nat (length l)) by (apply lookup_lt_Some in Hk; rewrite length_views in Hk; lia).
  assert (Hasc : forall i j, 0 <= i <= j -> j < Z.of_nat (length l) -> field_end l f i <= field_end l f j)
    by (intros i j; by apply (field_ascending f g)).
  destruct (field_match_inside l f pos den Hden Hasc (Z.of_nat k) Hlen) as [Hm1 Hm2].
  - rewrite (field_start_span f g k v) by done. lia.
  - rewrite (Hg k v Hk). lia.
  - apply (getSpanDataByCustomDataField_match l f pos den Hden all_data Hasc) with k; try done.
    by apply (field_from_zero f g).
Qed.

(** An element and the span it is in. *)
Lemma span_of i : 0 <= i <= m -> exists k v, views (-1) l !! k = Some v /\ sv_start v <= i <= sv_end v.
Proof using Hd. intros Hi. apply (views_covers _ _ m); [apply (do_spans _ _ _ _ Hd)|lia]. Qed.

(** A position in print twips is found in the element that contains it. *)
Lemma found_print i pos :
  0 <= i <= m -> psum vis i <= pos < psum vis (i + 1) ->
  exists k v, getSpanAndIndexFromPrintTwipsPos d pos = Some (IndexAndSpan (Some i) (Some v)) /\
    views (-1) l !! k = Some v /\ sv_start v <= i <= sv_end v.
Proof using Hd.
  intros Hi Hpos. destruct (span_of i Hi) as (k & v & Hk & Hv). exists k, v. split; [|done].
  destruct (span_facts k v Hk) as (H1 & H2 & H3 & H4).
  destruct (span_sums k v i Hk ltac:(lia)) as [_ S1]. destruct (span_sums k v (i + 1) Hk ltac:(lia)) as [_ S2].
  destruct (span_sums k v (sv_end v + 1) Hk ltac:(lia)) as [_ S3].
  unfold getSpanAndIndexFromPrintTwipsPos. rewrite (do_visible _ _ _ _ Hd). cbn [mbind option_bind].
  rewrite (find_span PosPrintTwips (psum vis) k v); [|exact field_end_print|exact print_mono|done|lia|done|].
  2: { pose proof (print_mono (sv_start v) i ltac:(lia) ltac:(lia)).
       pose proof (print_mono (i + 1) (sv_end v + 1) ltac:(lia) ltac:(lia)). lia. }
  cbn [mbind option_bind]. rewrite H4. cbn [mbind option_bind posprinttwips].
  unfold floor_quotient. destruct (Z.eqb_spec (sv_size v) 0) as [E|E]; [nia|]. cbn [num_add].
  assert (0 < sv_size v) by nia. do 3 f_equal.
  rewrite S3. replace (pos - _) with (pos - psum vis (sv_start v)) by ring.
  assert ((pos - psum vis (sv_start v)) / sv_size v = i - sv_start v) as ->; [|lia].
  apply floor_div_iff; [done|]. nia.
Qed.

(** At two twips a pixel or more, a core pixel is found in the element that contains it. *)
Lemma found_core i px :
  2 * P <= T -> 0 <= i <= m -> psum core_size i <= px < psum core_size (i + 1) ->
  exists k v, getSpanAndIndexFromTileTwipsPos d (px * T) = Some (IndexAndSpan (Some i) (Some v)) /\
    views (-1) l !! k = Some v /\ sv_start v <= i <= sv_end v.
Proof using Hd.
  intros HTP Hi Hpos. destruct (span_of i Hi) as (k & v & Hk & Hv). exists k, v. split; [|done].
  destruct (span_facts k v Hk) as (H1 & H2 & H3 & H4). pose proof P_pos as HP. pose proof T_pos as HT.
  destruct (span_sums k v i Hk ltac:(lia)) as [S1 _]. destruct (span_sums k v (i + 1) Hk ltac:(lia)) as [S2 _].
  destruct (span_sums k v (sv_end v + 1) Hk ltac:(lia)) as [S3 _].
  set (s := sv_size v * P / T) in *. set (S0 := psum core_size (sv_start v)) in *. set (E := psum core_size (sv_end v + 1)) in *.
  set (n := sv_end v - sv_start v + 1). set (j := i - sv_start v) in *. assert (Hj : 0 <= j < n) by (unfold j, n; lia).
  assert (HE : E = S0 + s * n) by (rewrite S3; unfold n; ring).
  replace (i + 1 - sv_start v) with (j + 1) in S2 by (unfold j; ring).
  assert (Hs : 0 < s) by nia.
  assert (Hdiv : E * T - P < E * T / P * P <= E * T) by (pose proof (Z.div_mod (E * T) P ltac:(lia)); pose proof (Z.mod_pos_bound (E * T) P HP); nia).
  unfold getSpanAndIndexFromTileTwipsPos. rewrite (do_visible _ _ _ _ Hd). cbn [mbind option_bind]. fold T P.
  assert (HS0 : 0 <= S0) by (unfold S0; rewrite <- (psum_0 core_size); apply core_mono; lia).
  rewrite (find_span PosTileTwips (fun x => psum core_size x * T / P) k v);
    [|exact field_end_tile| |done|done|done|].
  2: { intros a b Hab Hb. apply Z.div_le_mono; [done|]. pose proof (core_mono a b Hab Hb). nia. }
  2: { fold S0 E. assert (Hd0 : S0 * T / P * P <= S0 * T) by (pose proof (Z.div_mod (S0 * T) P ltac:(lia)); pose proof (Z.mod_pos_bound (S0 * T) P HP); nia).
       split; [nia|]. assert (px <= E - 1) by nia. nia. }
  cbn [mbind option_bind]. rewrite H4. cbn [mbind option_bind poscorepx sizecore postiletwips]. fold n s E.
  replace (E - s * n) with S0 by lia. unfold floor_quotient.
  set (D := E * T / P * P - S0 * T). assert (HD : s * n * T - P < D <= s * n * T) by (unfold D; rewrite HE in *; lia).
  assert (Hsn : 1 <= s * n) by nia. assert (HsnT : T <= s * n * T) by nia. assert (HD0 : 0 < D) by lia.
  destruct (Z.eqb_spec D 0) as [E0|E0]; [lia|]. cbn [num_add]. do 3 f_equal.
  assert ((px * T - S0 * T) * n / D = j) as ->; [|unfold j; lia].
  apply floor_div_iff; [lia|]. set (r := px - S0 - s * j). assert (Hr : 0 <= r < s) by (unfold r; nia).
  replace (px * T - S0 * T) with ((s * j + r) * T) by (unfold r; ring). split.
  - assert (j * D <= j * (s * n * T)) by nia. nia.
  - assert ((j + 1) * (s * n * T - P + 1) <= (j + 1) * D) by nia.
    assert ((j + 1) * (P - 1) <= n * (P - 1)) by nia. nia.
Qed.
End good.

(** ** From a message to positions *)

(** The element is neither hidden nor filtered. *)
Definition is_hidden (d : dimension) (i : Z) : bool := bit_at (hidden d) i || bit_at (filtered d) i.
Definition visible_size (d : dimension) (i : Z) : Z := if is_hidden d i then 0 else value_at (sizes d) i.

(** Sizes and flags tell about the same elements. *)
Record source_ok (d : dimension) (m : Z) : Prop := {
  so_sizes : spans_ok (sizes d) m;
  so_hidden : bools_ok (hidden d) m;
  so_filtered : bools_ok (filtered d) m;
  so_max : 0 <= m;
  so_values : forall i, 0 <= i <= m -> 0 <= value_at (sizes d) i;
  so_twips : 0 < tileSizeTwips d;
  so_pixels : 0 < tileSizePixels d
}.

Lemma updateVisible_ok d m :
  source_ok d m ->
  exists l, updateVisible d = (set_visible (Some l) d, true) /\ dimension_ok (set_visible (Some l) d) m (visible_size d) l.
Proof.
  intros [Hs Hh Hf Hm Hv Ht Hp]. unfold updateVisible.
  destruct (union_spans_ok _ _ _ Hh Hf) as (c & -> & Hc & Hbits). cbn [mbind option_bind].
  destruct (applyZeroValues_ok _ _ _ Hs Hc Hm) as (l & -> & Hl & Hvals).
  destruct (updatePositions_ok (set_visible (Some l) d) m (visible_size d) l) as (l' & -> & Hok); try done.
  - intros i Hi. rewrite Hvals, Hbits by done. done.
  - intros i Hi. unfold visible_size. case_match; [lia|by apply Hv].
  - by exists l'.
Qed.

(** A dimension with positions, up to [m]. *)
Definition good_dimension (d : dimension) : Prop :=
  exists m l, source_ok d m /\ dimension_ok d m (visible_size d) l.

(** The operations on a sheet geometry; a message is good when what it leaves tells about
    the same columns, and the same rows, in sizes and flags. *)
Definition loaded (j : dimension_data) (d : dimension) : dimension :=
  let d := (load_field parse_spans set_sizes (j_sizes j) d).1 in
  let d := (load_field parse_bool_spans set_hidden (j_hidden j) d).1 in
  let d := (load_field parse_bool_spans set_filtered (j_filtered j) d).1 in
  (load_field load_outlines set_outlines (j_groups j) d).1.

Definition reads (j : dimension_data) : bool :=
  let ok {A} (parse : string -> option A) (s : option string) : bool :=
    match s with Some s => bool_decide (is_Some (parse s)) | None => true end in
  ok parse_spans (j_sizes j) && ok parse_bool_spans (j_hidden j) && ok parse_bool_spans (j_filtered j) &&
  ok load_outlines (j_groups j).

Definition good_data (j : dimension_data) (d : dimension) : Prop :=
  reads j = true /\ exists m, source_ok (loaded j d) m.

Lemma load_field_eq {A} (parse : string -> option A) set s d :
  (match s with Some s => bool_decide (is_Some (parse s)) | None => true end) = true ->
  load_field parse set s d = ((load_field parse set s d).1, true).
Proof. destruct s as [s|]; [|done]. cbn. destruct (parse s); [done|]. intros H%bool_decide_eq_true. by destruct H. Qed.

Lemma good_set_outlines x d : good_dimension d -> good_dimension (set_outlines x d).
Proof. intros (m & l & [] & []). exists m, l. split; [done|]. by split. Qed.

Lemma update_dimension_ok j d :
  good_data j d -> good_dimension d \/ is_Some (j_sizes j) ->
  exists d', update_dimension j d = (d', Some true) /\ good_dimension d'.
Proof.
  intros (Hr & m & Hs) Hd. unfold reads in Hr.
  apply andb_true_iff in Hr as [Hr H4]. apply andb_true_iff in Hr as [Hr H3]. apply andb_true_iff in Hr as [H1 H2].
  unfold update_dimension. rewrite (load_field_eq _ _ _ _ H1). cbv beta iota. rewrite (load_field_eq _ _ _ _ H2).
  cbv beta iota. rewrite (load_field_eq _ _ _ _ H3). cbv beta iota. rewrite (load_field_eq _ _ _ _ H4). cbv beta iota.
  cbn [andb]. case_bool_decide as Hany.
  - destruct (updateVisible_ok _ _ Hs) as (l & Hu & Hok). unfold loaded in Hu at 1. rewrite Hu.
    eexists. split; [done|]. exists m, l. split; [by destruct Hs|done].
  - destruct j as [js jh jf jg]. cbn [j_sizes j_hidden j_filtered j_groups] in *.
    destruct js as [js|]; [destruct Hany; left; by eexists|]. destruct jh as [jh|]; [destruct Hany; right; left; by eexists|].
    destruct jf as [jf|]; [destruct Hany; right; right; by eexists|]. destruct Hd as [Hd|[? ?]]; [|done].
    eexists. split; [done|]. cbn. destruct jg as [jg|]; cbn; [|done].
    destruct (load_outlines jg); [by apply good_set_outlines|done].
Qed.

(** What is good survives what does not touch it. *)
Lemma good_set_max x d : good_dimension d -> good_dimension (setMaxIndex x d).
Proof. intros (m & l & [] & []). exists m, l. split; [done|]. by split. Qed.

Lemma good_set_view a b d : good_dimension d -> good_dimension (set_view a b d).
Proof. intros (m & l & [] & []). exists m, l. split; [done|]. by split. Qed.

Lemma good_set_tile d t p u :
  good_dimension d -> 0 < t -> 0 < p -> u = true ->
  exists d', setTileGeometryData t p u d = Some d' /\ good_dimension d'.
Proof.
  intros (m & l & Hs & Hok) Ht Hp ->. unfold setTileGeometryData. case_match; [exists d; split; [done|by exists m, l]|].
  destruct Hs as [H1 H2 H3 H4 H5 _ _], Hok as [K1 _ _ K4 K5 K6 K7 _].
  destruct (updatePositions_ok (set_tile t p d) m (visible_size d) l) as (l' & -> & Hok); try done.
  eexists. split; [done|]. exists m, l'. by split.
Qed.

Lemma good_update_part j d :
  good_dimension d \/ is_Some (j ≫= j_sizes) -> (forall j', j = Some j' -> good_data j' d) ->
  exists d', update_part j d = (d', Some true) /\ good_dimension d'.
Proof.
  intros Hd Hj. destruct j as [j|]; cbn in *.
  - by apply update_dimension_ok; [apply Hj|].
  - destruct Hd as [Hd|[? ?]]; [|done]. by exists d.
Qed.

Inductive geometry_step : sheet_geometry -> sheet_geometry -> Prop :=
  | step_update j complete newPart g g' ok :
      (forall j', j_columns j = Some j' -> good_data j' (columns g)) ->
      (forall j', j_rows j = Some j' -> good_data j' (rows g)) ->
      update_geometry j complete newPart g = (g', ok) -> geometry_step g g'
  | step_zoom w h p g g' :
      0 < w -> 0 < h -> 0 < p -> set_tile_geometry w h p true g = Some g' -> geometry_step g g'
  | step_view x y w h g g' : setViewArea x y w h g = Some g' -> geometry_step g g'.

Definition good_geometry (g : sheet_geometry) : Prop := good_dimension (columns g) /\ good_dimension (rows g).

Lemma update_geometry_ok j complete newPart g :
  testValidity j complete = true ->
  good_dimension (columns g) \/ is_Some (j_columns j ≫= j_sizes) -> good_dimension (rows g) \/ is_Some (j_rows j ≫= j_sizes) ->
  (forall j', j_columns j = Some j' -> good_data j' (columns g)) ->
  (forall j', j_rows j = Some j' -> good_data j' (rows g)) ->
  exists g', update_geometry j complete newPart g = (g', Some true) /\ good_geometry g' /\ part g' = newPart.
Proof.
  intros Hv Hc0 Hr0 Hc Hr. unfold update_geometry. rewrite Hv. cbn [negb].
  destruct (good_update_part _ _ Hc0 Hc) as (c & -> & Hgc). destruct (good_update_part _ _ Hr0 Hr) as (r & -> & Hgr).
  eexists. split; [done|]. split; [|done]. split; by apply good_set_max.
Qed.

Lemma setViewLimits_good a b d d' : setViewLimits a b d = Some d' -> good_dimension d -> good_dimension d'.
Proof.
  unfold setViewLimits. destruct (getIndexFromPos d a TileTwips); [|done]. destruct (getIndexFromPos d b TileTwips); [|done].
  intros [= <-]. apply good_set_view.
Qed.

Lemma geometry_step_good g g' : geometry_step g g' -> good_geometry g -> good_geometry g'.
Proof.
  intros Hs [Hc Hr]. destruct Hs as [j complete newPart g g' ok Hjc Hjr Hu|w h p g g' Hw Hh Hp Hu|x y w h g g' Hu].
  - unfold update_geometry in Hu. destruct (testValidity j complete); cbn [negb] in Hu; [|injection Hu as <- _; done].
    destruct (good_update_part (j_columns j) (columns g)) as (c & Ec & Hgc); [by left|done|].
    destruct (good_update_part (j_rows j) (rows g)) as (r & Er & Hgr); [by left|done|].
    rewrite Ec, Er in Hu. injection Hu as <- _. split; by apply good_set_max.
  - unfold set_tile_geometry in Hu.
    destruct (good_set_tile (columns g) w p true Hc Hw Hp eq_refl) as (c & Ec & Hgc).
    destruct (good_set_tile (rows g) h p true Hr Hh Hp eq_refl) as (r & Er & Hgr).
    rewrite Ec in Hu. cbn [mbind option_bind] in Hu. rewrite Er in Hu. injection Hu as <-. done.
  - unfold setViewArea in Hu. destruct (setViewLimits x (x + w) (columns g)) as [c|] eqn:Ec; [|done].
    cbn [mbind option_bind] in Hu. destruct (setViewLimits y (y + h) (rows g)) as [r|] eqn:Er; [|done].
    injection Hu as <-. split; cbn; [by eapply setViewLimits_good|by eapply setViewLimits_good].
Qed.

Lemma new_SheetGeometry_good j w h p n :
  testValidity j true = true -> 0 < w -> 0 < h -> 0 < p ->
  (forall j', j_columns j = Some j' -> good_data j' (set_tile w p new_dimension)) ->
  (forall j', j_rows j = Some j' -> good_data j' (set_tile h p new_dimension)) ->
  exists g, new_SheetGeometry j w h p n = Some g /\ good_geometry g /\ part g = n.
Proof.
  intros Hv Hw Hh Hp Hc Hr. unfold new_SheetGeometry.
  assert (Hset : forall t, 0 < t -> setTileGeometryData t p false new_dimension = Some (set_tile t p new_dimension)).
  { intros t Ht. unfold setTileGeometryData. cbn. destruct t; done. }
  rewrite !Hset by done. cbn [mbind option_bind].
  assert (Hj : is_Some (j_columns j ≫= j_sizes) /\ is_Some (j_rows j ≫= j_sizes)).
  { unfold testValidity in Hv. apply andb_true_iff in Hv as [_ Hv]. cbn in Hv.
    destruct (j_rows j) as [r|]; [|done]. destruct (j_columns j) as [c|]; [|done].
    apply andb_true_iff in Hv as [Hv1 Hv2]. unfold is_complete, has_text in *. cbn.
    destruct (j_sizes r); [|done]. destruct (j_sizes c); [|done]. split; by eexists. }
  destruct (update_geometry_ok j true n (SheetGeometry (-1) (set_tile w p new_dimension) (set_tile h p new_dimension)))
    as (g & -> & Hg & Hp'); [done|right; apply Hj|right; apply Hj|done|done|].
  by exists g.
Qed.

(** An element whose data is told is one of the sheet. *)
Lemma element_data_inv d m vis l i unit x :
  dimension_ok d m vis l -> getElementDataAny d (Some i) unit = Some (Some x) ->
  0 <= i <= m /\ x = PosSize (Some (unit_start d vis unit i)) (unit_size d vis unit i).
Proof.
  intros Hd Hx. destruct (decide (0 <= i <= m)) as [Hi|Hi].
  - rewrite (element_data _ _ _ _ Hd) in Hx by done. injection Hx as <-. done.
  - exfalso. unfold getElementDataAny in Hx. rewrite (do_visible _ _ _ _ Hd) in Hx. cbn [mbind option_bind span_by_index] in Hx.
    rewrite (getSpanDataByIndex_out _ _ _ (do_spans _ _ _ _ Hd)) in Hx by lia. done.
Qed.

Lemma found_data_eq d m vis l i k v unit :
  dimension_ok d m vis l -> views (-1) l !! k = Some v -> sv_start v <= i <= sv_end v ->
  found_data d (IndexAndSpan (Some i) (Some v)) unit = Some (PosSize (Some (unit_start d vis unit i)) (unit_size d vis unit i)).
Proof. intros Hd Hk Hv. unfold found_data. cbn [is_index is_span]. by rewrite (element_data_in_span _ _ _ _ Hd k). Qed.

Lemma core_succ d m vis l i : dimension_ok d m vis l -> 0 <= i <= m -> psum (core_size d vis) (i + 1) = psum (core_size d vis) i + core_size d vis i.
Proof. intros _ Hi. apply psum_succ. lia. Qed.

(** ** Properties *)

(** C40: From the first message on, whatever messages, changes of zoom and moves of the
    view follow, both dimensions stay good: every element's position is the sum of the
    visible sizes before it, where hidden and filtered elements have size 0. *)
Theorem geometry_invariant j w h p n g0 g :
  testValidity j true = true -> 0 < w -> 0 < h -> 0 < p ->
  (forall j', j_columns j = Some j' -> good_data j' (set_tile w p new_dimension)) ->
  (forall j', j_rows j = Some j' -> good_data j' (set_tile h p new_dimension)) ->
  new_SheetGeometry j w h p n = Some g0 -> rtc geometry_step g0 g -> good_geometry g.
Proof.
  intros Hv Hw Hh Hp Hc Hr Hn Hsteps. destruct (new_SheetGeometry_good j w h p n) as (g1 & E & Hg & _); try done.
  assert (g1 = g0) as -> by congruence. clear Hn E. induction Hsteps as [|? ? ? Hs _ IH]; [done|].
  apply IH. by eapply geometry_step_good.
Qed.

(** C39: The data of the elements tile the line: the first starts at 0, each starts where
    the one before ends, a hidden or filtered one takes no room, and every other one its
    size of the message - in print twips as it is, in core pixels rounded down at the
    present zoom. *)
Theorem element_positions d m i :
  good_dimension d -> spans_ok (sizes d) m -> 0 <= i <= m ->
  let size := if bit_at (hidden d) i || bit_at (filtered d) i then 0 else value_at (sizes d) i in
  let px := size * tileSizePixels d / tileSizeTwips d in
  exists cx pt,
    getElementDataAny d (Some i) CorePixels = Some (Some (PosSize (Some cx) px)) /\
    getElementDataAny d (Some i) PrintTwips = Some (Some (PosSize (Some pt) size)) /\
    getElementDataAny d (Some i) TileTwips =
      Some (Some (PosSize (Some (cx * tileSizeTwips d / tileSizePixels d)) (px * tileSizeTwips d / tileSizePixels d))) /\
    (i = 0 -> cx = 0 /\ pt = 0) /\
    (i < m -> exists s s', getElementDataAny d (Some (i + 1)) CorePixels = Some (Some (PosSize (Some (cx + px)) s)) /\
                           getElementDataAny d (Some (i + 1)) PrintTwips = Some (Some (PosSize (Some (pt + size)) s'))).
Proof.
  intros (m' & l & Hs & Hd) Hm Hi. rewrite <- (chain_end _ _ _ _ (so_sizes _ _ Hs) Hm) in *. clear Hm.
  exists (psum (core_size d (visible_size d)) i), (psum (visible_size d) i).
  rewrite !(element_data _ _ _ _ Hd) by done. split_and!; try done.
  - by intros ->.
  - intros Hlt. rewrite !(element_data _ _ _ _ Hd) by lia. cbn [unit_start unit_size]. rewrite !psum_succ by lia. by eexists _, _.
Qed.

(** The element at a core pixel is the one whose extent contains the pixel, at every
    zoom with at least two twips a pixel, and the element at a position in print twips
    the one whose extent contains it, at every zoom. *)
Theorem index_of_position d i unit x size pos :
  good_dimension d ->
  unit = CorePixels /\ 2 * tileSizePixels d <= tileSizeTwips d \/ unit = PrintTwips ->
  getElementDataAny d (Some i) unit = Some (Some (PosSize (Some x) size)) -> x <= pos < x + size ->
  getIndexFromPos d pos unit = Some (Some i) /\ getSnapPos d pos unit = Some (Some x).
Proof.
  intros (m & l & _ & Hd) Hu Hx Hpos. destruct (element_data_inv _ _ _ _ _ _ _ Hd Hx) as [Hi [= -> ->]].
  unfold getIndexFromPos, getSnapPos, getSpanAndIndexFromPos. destruct Hu as [[-> Hz]| ->]; cbn [unit_start unit_size] in Hpos.
  - destruct (found_core _ _ _ _ Hd i pos Hz Hi) as (k & v & -> & Hk & Hv); [rewrite psum_succ by lia; done|].
    cbn [fmap option_fmap option_map mbind option_bind is_index]. rewrite (found_data_eq _ _ _ _ _ k _ _ Hd) by done. done.
  - destruct (found_print _ _ _ _ Hd i pos Hi) as (k & v & -> & Hk & Hv); [rewrite psum_succ by lia; lia|].
    cbn [fmap option_fmap option_map mbind option_bind is_index]. rewrite (found_data_eq _ _ _ _ _ k _ _ Hd) by done. done.
Qed.

(** A position in print twips is converted to tile twips by way of its element: it
    keeps its distance from the start of the element. *)
Theorem tile_from_print d i pt pts tt tts pos :
  good_dimension d ->
  getElementDataAny d (Some i) PrintTwips = Some (Some (PosSize (Some pt) pts)) ->
  getElementDataAny d (Some i) TileTwips = Some (Some (PosSize (Some tt) tts)) ->
  pt <= pos < pt + pts -> getTileTwipsPosFromPrint d pos = Some (Some (tt + (pos - pt))).
Proof.
  intros (m & l & _ & Hd) Hp Ht Hpos. destruct (element_data_inv _ _ _ _ _ _ _ Hd Hp) as [Hi [= -> ->]].
  rewrite (element_data _ _ _ _ Hd) in Ht by done. injection Ht as <- _. cbn [unit_start unit_size] in Hpos.
  unfold getTileTwipsPosFromPrint.
  destruct (found_print _ _ _ _ Hd i pos Hi) as (k & v & -> & Hk & Hv); [rewrite psum_succ by lia; lia|].
  cbn [mbind option_bind]. rewrite !(found_data_eq _ _ _ _ _ k _ _ Hd) by done. done.
Qed.

(** ** Grid lines *)

Lemma elem_of_grid_loop fuel pos last step index x i :
  0 < step -> last - pos < Z.of_nat fuel ->
  (x, i) ∈ grid_loop fuel pos last step index <-> exists k, 0 <= k /\ x = pos + k * step /\ i = index + k /\ x <= last.
Proof.
  intros Hs. revert pos index. induction fuel as [|fuel IH]; intros pos index Hf; cbn [grid_loop].
  - rewrite elem_of_nil. split; [done|]. intros (k & Hk & -> & _ & Hl). nia.
  - destruct (Z.leb_spec pos last) as [Hp|Hp].
    + rewrite elem_of_cons, IH by lia. split.
      * intros [[= -> ->]|(k & Hk & -> & -> & Hl)]; [exists 0; lia|exists (k + 1); lia].
      * intros (k & Hk & -> & -> & Hl). destruct (decide (k = 0)) as [->|]; [left; f_equal; lia|].
        right. exists (k - 1). lia.
    + rewrite elem_of_nil. split; [done|]. intros (k & Hk & -> & _ & Hl). nia.
Qed.

(** The first line: a multiple of the size from the start of the span, after [startPix],
    and not after any other such line but the start of the span. *)
Lemma first_line S0 s startPix :
  0 < s ->
  exists q, 0 <= q /\ Z.max S0 (startPix + s - js_rem (startPix - S0) s) = S0 + q * s /\ startPix < S0 + q * s /\
    forall q', 1 <= q' -> startPix < S0 + q' * s -> q <= q'.
Proof.
  intros Hs. unfold js_rem. destruct (Z.le_gt_cases S0 startPix) as [H|H].
  - rewrite Z.rem_mod_nonneg by lia. pose proof (Z.div_mod (startPix - S0) s ltac:(lia)) as E.
    pose proof (Z.mod_pos_bound (startPix - S0) s Hs). set (q := (startPix - S0) / s) in *. set (r := (startPix - S0) mod s) in *.
    exists (q + 1). assert (0 <= q) by nia. split_and!; [lia|nia|nia|]. intros q' Hq' Hl. nia.
  - replace (startPix - S0) with (- (S0 - startPix)) by ring. rewrite Z.rem_opp_l by lia. rewrite Z.rem_mod_nonneg by lia.
    pose proof (Z.div_mod (S0 - startPix) s ltac:(lia)) as E. pose proof (Z.mod_pos_bound (S0 - startPix) s Hs).
    set (q := (S0 - startPix) / s) in *. set (r := (S0 - startPix) mod s) in *.
    assert (0 <= q) by nia. destruct (decide (q = 0)) as [Eq|Eq].
    + exists 1. rewrite Eq in E. split_and!; [lia|lia|lia|lia].
    + exists 0. split_and!; [lia|nia|lia|lia].
Qed.

Section grid.
Context (d : dimension) (m : Z) (vis : Z -> Z) (l : list span).
Hypothesis Hd : dimension_ok d m vis l.
Let edge := psum (core_size d vis).

Lemma grid_lines_span k v p startPix endPix x i :
  views (-1) l !! k = Some v -> sv_data v = Some p ->
  (x, i) ∈ grid_lines_of_span startPix endPix v p ->
  sv_start v <= i <= sv_end v + 1 /\ x = edge i /\ startPix < x <= endPix.
Proof using Hd.
  intros Hk Hp. destruct (span_facts _ _ _ _ Hd k v Hk) as (H1 & H2 & H3 & H4). rewrite H4 in Hp. injection Hp as <-.
  destruct (span_sums _ _ _ _ Hd k v (sv_end v + 1) Hk ltac:(lia)) as [E _]. fold edge in E.
  unfold grid_lines_of_span. cbn [poscorepx sizecore]. fold edge.
  set (s := sv_size v * tileSizePixels d / tileSizeTwips d) in *.
  replace (edge (sv_end v + 1) - s * (sv_end v - sv_start v + 1)) with (edge (sv_start v)) by (rewrite E; ring).
  destruct (_ && _) eqn:Hc; [|intros Hin; by apply elem_of_nil in Hin]. to_prop.
  assert (Hs : 0 < s).
  { pose proof (core_size_nonneg _ _ _ _ Hd (sv_start v) ltac:(lia)) as Hs. unfold core_size in Hs. rewrite H3 in Hs by lia. fold s in Hs. lia. }
  cbv zeta. destruct (first_line (edge (sv_start v)) s startPix Hs) as (q & Hq & -> & Hgt & _).
  rewrite elem_of_grid_loop by lia. intros (k' & Hk' & -> & -> & Hl).
  replace (edge (sv_start v) + q * s - edge (sv_start v)) with (q * s) by ring. rewrite Z.div_mul by lia.
  assert (Hn : q + k' <= sv_end v + 1 - sv_start v) by nia.
  destruct (span_sums _ _ _ _ Hd k v (sv_start v + (q + k')) Hk ltac:(lia)) as [E' _]. fold edge s in E'.
  split_and!; [lia|lia| |nia|lia]. replace (sv_start v + q + k') with (sv_start v + (q + k')) by ring. rewrite E'. ring.
Qed.

Lemma grid_lines_all k v p startPix endPix i :
  views (-1) l !! k = Some v -> sv_data v = Some p -> sv_start v <= i <= sv_end v -> 0 < core_size d vis i ->
  startPix < edge (i + 1) <= endPix -> (edge (i + 1), i + 1) ∈ grid_lines_of_span startPix endPix v p.
Proof using Hd.
  intros Hk Hp Hi Hpos Hx. destruct (span_facts _ _ _ _ Hd k v Hk) as (H1 & H2 & H3 & H4). rewrite H4 in Hp. injection Hp as <-.
  destruct (span_sums _ _ _ _ Hd k v (sv_end v + 1) Hk ltac:(lia)) as [E _]. fold edge in E.
  destruct (span_sums _ _ _ _ Hd k v (i + 1) Hk ltac:(lia)) as [E' _]. fold edge in E'.
  unfold core_size in Hpos. rewrite H3 in Hpos by lia.
  unfold grid_lines_of_span. cbn [poscorepx sizecore]. fold edge.
  set (s := sv_size v * tileSizePixels d / tileSizeTwips d) in *.
  replace (edge (sv_end v + 1) - s * (sv_end v - sv_start v + 1)) with (edge (sv_start v)) by (rewrite E; ring).
  rewrite (proj2 (Z.ltb_lt _ _)) by nia. rewrite (proj2 (Z.ltb_lt startPix _)) by nia.
  rewrite (proj2 (Z.eqb_neq s 0)) by lia. cbn [andb negb]. cbv zeta.
  destruct (first_line (edge (sv_start v)) s startPix Hpos) as (q & Hq & -> & Hgt & Hmin).
  rewrite elem_of_grid_loop by lia.
  specialize (Hmin (i + 1 - sv_start v) ltac:(lia) ltac:(nia)).
  exists (i + 1 - sv_start v - q). replace (edge (sv_start v) + q * s - edge (sv_start v)) with (q * s) by ring.
  rewrite Z.div_mul by lia. split_and!; [lia|nia|lia|]. nia.
Qed.

Lemma grid_lines startPix endPix :
  exists lines, forEachInCorePixelRange d startPix endPix = Some lines /\
    (forall x i, (x, i) ∈ lines -> 0 <= i <= m + 1 /\ x = edge i /\ startPix < x <= endPix) /\
    (forall i, 0 <= i <= m -> 0 < core_size d vis i -> startPix < edge (i + 1) <= endPix -> (edge (i + 1), i + 1) ∈ lines).
Proof using Hd.
  unfold forEachInCorePixelRange. rewrite (do_visible _ _ _ _ Hd). cbn [mbind option_bind]. rewrite forEachSpan_views.
  set (f := fun v => grid_lines_of_span startPix endPix v <$> sv_data v).
  assert (exists ls, mapM f (views (-1) l) = Some ls) as [ls Hls].
  { apply mapM_is_Some_2, Forall_lookup. intros k v Hk. unfold compose, f.
    destruct (span_facts _ _ _ _ Hd k v Hk) as (_ & _ & _ & ->). by eexists. }
  rewrite Hls. cbn. eexists. split; [done|]. apply mapM_Some_1 in Hls. split.
  - intros x i Hin. apply list_elem_of_In, in_concat in Hin as (ll & Hll & Hin).
    apply list_elem_of_In in Hll, Hin. apply list_elem_of_lookup in Hll as (k & Hk).
    destruct (Forall2_lookup_r _ _ _ _ _ Hls Hk) as (v & Hv & Hf). unfold f in Hf. cbv beta in Hf.
    destruct (sv_data v) as [p|] eqn:Ep; [|done]. injection Hf as <-.
    destruct (grid_lines_span k v p startPix endPix x i) as (A & B & C); [done|done|done|].
    destruct (span_facts _ _ _ _ Hd k v Hv) as (? & ? & _). split_and!; [lia|lia|done|lia|lia].
  - intros i Hi Hc Hx. destruct (span_of _ _ _ _ Hd i Hi) as (k & v & Hk & Hv).
    destruct (Forall2_lookup_l _ _ _ _ _ Hls Hk) as (ll & Hll & Hf). unfold f in Hf. cbv beta in Hf.
    destruct (sv_data v) as [p|] eqn:Ep; [|done]. injection Hf as <-.
    apply list_elem_of_In, in_concat. exists (grid_lines_of_span startPix endPix v p).
    split; apply list_elem_of_In; [by eapply list_elem_of_lookup_2|by apply (grid_lines_all k)].
Qed.
End grid.

(** The grid lines drawn in a range of pixels are exactly the edges of elements in
    it: every line told is the edge of the element it is told for, and the end of every
    visible element in the range is told. *)
Theorem grid_lines_exact d startPix endPix :
  good_dimension d ->
  exists lines, forEachInCorePixelRange d startPix endPix = Some lines /\
    (forall x i, (x, i) ∈ lines -> startPix < x <= endPix /\
       exists j p s, getElementDataAny d (Some j) CorePixels = Some (Some (PosSize (Some p) s)) /\
         (j = i /\ x = p \/ j = i - 1 /\ x = p + s)) /\
    (forall i p s, getElementDataAny d (Some i) CorePixels = Some (Some (PosSize (Some p) s)) ->
       0 < s -> startPix < p + s <= endPix -> (p + s, i + 1) ∈ lines).
Proof.
  intros (m & l & _ & Hd). destruct (grid_lines _ _ _ _ Hd startPix endPix) as (lines & -> & H1 & H2).
  exists lines. split; [done|]. split.
  - intros x i Hin. destruct (H1 _ _ Hin) as (Hi & -> & Hx). split; [done|]. pose proof (do_max _ _ _ _ Hd).
    destruct (decide (i = m + 1)) as [->|Hne].
    + exists m. rewrite (element_data _ _ _ _ Hd) by lia. do 2 eexists. split; [done|]. right. split; [lia|].
      cbn [unit_start unit_size]. rewrite psum_succ by lia. done.
    + exists i. rewrite (element_data _ _ _ _ Hd) by lia. do 2 eexists. split; [done|]. by left.
  - intros i p s Hdata Hs Hx. destruct (element_data_inv _ _ _ _ _ _ _ Hd Hdata) as [Hi [= -> ->]].
    cbn [unit_start unit_size] in *. rewrite <- psum_succ in * by lia. by apply H2.
Qed.

(** ** Groups *)

(** The groups of a level follow each other. *)
Definition groups_ok (groups : list outline) : Prop :=
  (forall k g, groups !! k = Some g -> o_start g <= o_end g) /\
  (forall i j g h, (i < j)%nat -> groups !! i = Some g -> groups !! j = Some h -> o_end g < o_start h).

Lemma groups_follow groups i j g h :
  groups_ok groups -> groups !! i = Some g -> groups !! j = Some h -> (i < j)%nat -> o_end g < o_start h.
Proof. intros [_ H] Hg Hh Hij. by apply (H i j). Qed.

Section groups.
Context (groups : list outline) (start end_ : Z).
Hypothesis Hok : groups_ok groups.
Hypothesis Hrange : start <= end_.

Definition group_dir (i : Z) : Z :=
  match groups !! Z.to_nat i with
  | Some g =>
      if o_end g <? start then 1
      else if i =? 0 then 0
      else match groups !! (Z.to_nat i - 1)%nat with Some p => if o_end p <? start then 0 else -1 | None => 0 end
  | None => 0
  end.

Lemma probe_group i : 0 <= i < Z.of_nat (length groups) -> probe (group_direction start) groups i = Some (group_dir i).
Proof using Hok.
  intros Hi. destruct Hok as [H1 H2]. destruct (lookup_lt_is_Some_2 groups (Z.to_nat i)) as [g Hg]; [lia|].
  unfold probe, group_dir. replace (at_ groups i) with (Some g) by (rewrite <- Hg; unfold at_; by rewrite (proj2 (Z.ltb_ge _ _)) by lia).
  rewrite Hg. cbn [mbind option_bind]. unfold group_direction. pose proof (H1 _ _ Hg). f_equal.
  destruct (Z.eqb_spec i 0) as [->|Hne].
  - change (at_ groups (0 - 1)) with (@None outline). repeat case_bool; lia.
  - replace (at_ groups (i - 1)) with (groups !! (Z.to_nat i - 1)%nat).
    2: { unfold at_. rewrite (proj2 (Z.ltb_ge _ _)) by lia. by replace (Z.to_nat (i - 1)) with (Z.to_nat i - 1)%nat by lia. }
    destruct (lookup_lt_is_Some_2 groups (Z.to_nat i - 1)) as [p Hp]; [lia|]. rewrite Hp.
    pose proof (groups_follow _ _ _ _ _ Hok Hp Hg ltac:(lia)). pose proof (H1 _ _ Hp). repeat case_bool; lia.
Qed.

Lemma group_dir_sorted i j : 0 <= i <= j -> j < Z.of_nat (length groups) -> group_dir j <= group_dir i.
Proof using Hok.
  intros Hi Hj. destruct (decide (i = j)) as [->|Hne]; [lia|]. destruct Hok as [H1 H2].
  destruct (lookup_lt_is_Some_2 groups (Z.to_nat i)) as [g Hg]; [lia|].
  destruct (lookup_lt_is_Some_2 groups (Z.to_nat j)) as [h Hh]; [lia|].
  destruct (lookup_lt_is_Some_2 groups (Z.to_nat j - 1)) as [p Hp]; [lia|].
  pose proof (groups_follow _ _ _ _ _ Hok Hg Hh ltac:(lia)). pose proof (H1 _ _ Hh).
  assert (o_end g <= o_end p).
  { destruct (decide (Z.to_nat i = Z.to_nat j - 1)%nat) as [E|E]; [rewrite E, Hp in Hg; injection Hg as ->; lia|].
    pose proof (groups_follow _ _ _ _ _ Hok Hg Hp ltac:(lia)). pose proof (H1 _ _ Hp). lia. }
  unfold group_dir. rewrite Hg, Hh, Hp. rewrite (proj2 (Z.eqb_neq j 0)) by lia.
  destruct (Z.ltb_spec (o_end g) start).
  - repeat case_bool; lia.
  - rewrite (proj2 (Z.ltb_ge (o_end h) start)), (proj2 (Z.ltb_ge (o_end p) start)) by lia.
    destruct (i =? 0); [lia|]. destruct (groups !! (Z.to_nat i - 1)%nat); [|lia]. case_match; lia.
Qed.

Lemma group_dir_range i : group_dir i = -1 \/ group_dir i = 0 \/ group_dir i = 1.
Proof using. unfold group_dir. repeat case_match; lia. Qed.

(** Without a match all groups end before the range. *)
Lemma no_match :
  (forall i, 0 <= i < Z.of_nat (length groups) -> group_dir i <> 0) ->
  forall k g, groups !! k = Some g -> o_end g < start.
Proof using.
  intros Hr. induction k as [|k IH]; intros h Hh; pose proof (lookup_lt_Some _ _ _ Hh) as Hk.
  - specialize (Hr 0 ltac:(lia)). unfold group_dir in Hr. change (Z.to_nat 0) with 0%nat in Hr. rewrite Hh in Hr.
    destruct (Z.ltb_spec (o_end h) start); [done|]. by destruct Hr.
  - destruct (lookup_lt_is_Some_2 groups k) as [p Hp]; [lia|]. pose proof (IH _ Hp) as Hlt.
    specialize (Hr (Z.of_nat (S k)) ltac:(lia)). unfold group_dir in Hr.
    rewrite Nat2Z.id, Hh in Hr. rewrite (proj2 (Z.eqb_neq _ _)) in Hr by lia.
    replace (S k - 1)%nat with k in Hr by lia. rewrite Hp in Hr. rewrite (proj2 (Z.ltb_lt (o_end p) _)) in Hr by done.
    destruct (Z.ltb_spec (o_end h) start); [done|]. by destruct Hr.
Qed.

(** The groups before a match end before the range. *)
Lemma before_match r g0 :
  0 <= r < Z.of_nat (length groups) -> groups !! Z.to_nat r = Some g0 -> group_dir r = 0 ->
  forall k g, (k < Z.to_nat r)%nat -> groups !! k = Some g -> o_end g < start.
Proof using Hok.
  intros Hr Hg0 Hdir k g Hk Hg. destruct Hok as [H1 _]. unfold group_dir in Hdir. rewrite Hg0 in Hdir.
  destruct (Z.ltb_spec (o_end g0) start); [done|]. rewrite (proj2 (Z.eqb_neq _ _)) in Hdir by lia.
  destruct (lookup_lt_is_Some_2 groups (Z.to_nat r - 1)) as [p Hp]; [lia|]. rewrite Hp in Hdir.
  destruct (Z.ltb_spec (o_end p) start) as [Hlt|]; [|lia].
  destruct (decide (k = Z.to_nat r - 1)%nat) as [->|]; [rewrite Hg in Hp; injection Hp as ->; done|].
  pose proof (groups_follow _ _ _ _ _ Hok Hg Hp ltac:(lia)). pose proof (H1 _ _ Hp). lia.
Qed.

(** The group touches the range. *)
Definition touches (g : outline) : Prop := o_start g <= end_ /\ start <= o_end g.

Lemma groups_in_level_spec :
  exists calls, groups_in_level groups start end_ = Some calls /\
    forall k g, (k, g) ∈ calls <-> groups !! k = Some g /\ touches g.
Proof using Hok Hrange.
  pose proof Hok as [H1 H2]. unfold groups_in_level.
  destruct (binarySearch_finds (group_direction start) groups group_dir) with (firstMatch := false) as (r & -> & Hr).
  - exact probe_group.
  - intros i _. apply group_dir_range.
  - exact group_dir_sorted.
  - cbn [mbind option_bind]. destruct Hr as [[-> Hr]|(Hr & Hdir & _)].
    + exists []. split; [done|]. intros k g. rewrite elem_of_nil. split; [done|]. intros [Hg [_ Ht]].
      pose proof (no_match Hr k g Hg). lia.
    + rewrite (proj2 (Z.eqb_neq _ _)) by lia.
      destruct (lookup_lt_is_Some_2 groups (Z.to_nat r)) as [g0 Hg0]; [lia|].
      assert (Hat : at_ groups r = Some g0) by (unfold at_; by rewrite (proj2 (Z.ltb_ge _ _)) by lia).
      rewrite Hat. cbn [mbind option_bind].
      assert (Hge : start <= o_end g0).
      { unfold group_dir in Hdir. rewrite Hg0 in Hdir. destruct (Z.ltb_spec (o_end g0) start); [done|lia]. }
      pose proof (before_match r g0 ltac:(lia) Hg0 Hdir) as Hbefore.
      assert (Hafter : forall k g, (Z.to_nat r <= k)%nat -> groups !! k = Some g -> start <= o_end g /\ o_start g0 <= o_start g).
      { intros k g Hk Hg. destruct (decide (k = Z.to_nat r)) as [->|]; [rewrite Hg in Hg0; injection Hg0 as ->; lia|].
        pose proof (groups_follow _ _ _ _ _ Hok Hg0 Hg ltac:(lia)). pose proof (H1 _ _ Hg). pose proof (H1 _ _ Hg0). lia. }
      destruct (Z.ltb_spec end_ (o_start g0)) as [Hout|Hin].
      * exists []. split; [done|]. intros k g. rewrite elem_of_nil. split; [done|]. intros [Hg [Ht1 Ht2]].
        destruct (decide (k < Z.to_nat r)%nat) as [Hk|Hk]; [pose proof (Hbefore _ _ Hk Hg); lia|].
        destruct (Hafter k g ltac:(lia) Hg). lia.
      * eexists. split; [done|]. intros k g. rewrite list_elem_of_filter. cbn [snd]. rewrite list_elem_of_lookup.
        setoid_rewrite lookup_drop. setoid_rewrite list_lookup_imap. split.
        -- intros [Hs (n & Hn)]. destruct (groups !! (Z.to_nat r + n)%nat) as [h|] eqn:Eh; [|done]. injection Hn as <- <-.
           split; [done|]. split; [done|]. apply (Hafter (Z.to_nat r + n)%nat); [lia|done].
        -- intros [Hg [Ht1 Ht2]]. split; [done|]. exists (k - Z.to_nat r)%nat.
           assert (Z.to_nat r <= k)%nat. { destruct (decide (k < Z.to_nat r)%nat) as [Hk|]; [pose proof (Hbefore _ _ Hk Hg); lia|lia]. }
           replace (Z.to_nat r + (k - Z.to_nat r))%nat with k by lia. by rewrite Hg.
Qed.
End groups.

(** The groups that are told for a range of elements are exactly those of all levels
    that touch it, wherever the binary search starts. *)
Theorem groups_exact levels start end_ :
  (forall k groups, levels !! k = Some groups -> groups_ok groups) -> start <= end_ ->
  exists calls, forEachGroupInRange levels start end_ = Some calls /\
    forall level k g, (level, (k, g)) ∈ calls <->
      exists groups, levels !! level = Some groups /\ groups !! k = Some g /\ o_start g <= end_ /\ start <= o_end g.
Proof.
  intros Hok Hr. unfold forEachGroupInRange. rewrite (proj2 (Z.ltb_ge _ _)) by done. rewrite orb_false_r.
  destruct (Nat.eqb_spec (length levels) 0) as [E|E].
  { exists []. split; [done|]. destruct levels; [|done]. intros level k g. rewrite elem_of_nil. split; [done|]. by intros (? & ? & _). }
  set (f := fun lv : nat * list outline => map (pair lv.1) <$> groups_in_level lv.2 start end_).
  assert (Hf : forall n groups, levels !! n = Some groups -> exists calls, f (n, groups) = Some calls /\
    forall level k g, (level, (k, g)) ∈ calls <-> level = n /\ groups !! k = Some g /\ o_start g <= end_ /\ start <= o_end g).
  { intros n groups Hg. destruct (groups_in_level_spec groups start end_ (Hok _ _ Hg) Hr) as (calls & Hc & Hin).
    unfold f. cbn [fst snd]. rewrite Hc. eexists. split; [done|]. intros level k g. rewrite list_elem_of_fmap. split.
    - intros ([k' g'] & [= -> -> ->] & Hx). apply Hin in Hx as [? [? ?]]. done.
    - intros (-> & H1 & H2 & H3). exists (k, g). split; [done|]. apply Hin. done. }
  assert (exists ls, mapM f (reverse (imap pair levels)) = Some ls) as [ls Hls].
  { apply mapM_is_Some_2, Forall_reverse, Forall_lookup. intros n lv Hlv. rewrite list_lookup_imap in Hlv.
    destruct (levels !! n) as [groups|] eqn:Eg; [|done]. injection Hlv as <-. destruct (Hf _ _ Eg) as (calls & Hc & _).
    unfold compose. rewrite Hc. by eexists. }
  rewrite Hls. eexists. split; [done|]. apply mapM_Some_1 in Hls. intros level k g. split.
  - intros Hin. apply list_elem_of_In, in_concat in Hin as (ll & Hll & Hin). apply list_elem_of_In in Hll, Hin.
    apply list_elem_of_lookup in Hll as (n & Hn). destruct (Forall2_lookup_r _ _ _ _ _ Hls Hn) as (lv & Hlv & Hc).
    apply list_elem_of_lookup_2 in Hlv. rewrite elem_of_reverse in Hlv. apply list_elem_of_lookup in Hlv as (n' & Hlv).
    rewrite list_lookup_imap in Hlv. destruct (levels !! n') as [groups|] eqn:Eg; [|done]. injection Hlv as <-.
    destruct (Hf _ _ Eg) as (calls & Hc' & Hiff). rewrite Hc' in Hc. injection Hc as <-.
    apply Hiff in Hin as (-> & ? & ? & ?). by exists groups.
  - intros (groups & Hg & Hin). destruct (Hf _ _ Hg) as (calls & Hc & Hiff).
    assert (Hlv : (level, groups) ∈ reverse (imap pair levels)).
    { rewrite elem_of_reverse. apply list_elem_of_lookup. exists level. by rewrite list_lookup_imap, Hg. }
    apply list_elem_of_lookup in Hlv as (n & Hn). destruct (Forall2_lookup_l _ _ _ _ _ Hls Hn) as (ll & Hll & Hc').
    rewrite Hc in Hc'. injection Hc' as <-. apply list_elem_of_In, in_concat. exists calls.
    split; apply list_elem_of_In; [by eapply list_elem_of_lookup_2|by apply Hiff].
Qed.

(** ** Deviations *)

(** [_searchByCustomDataField] counts the end of the last span as one of its positions,
    but the index computed from it is one too high: the conversion of the position at
    the very end of a sheet raises a TypeError, although positions after it are taken for
    those of the last element. *)
Lemma end_position_throws d m l size pt pts :
  dimension_ok d m size l -> getElementDataAny d (Some m) PrintTwips = Some (Some (PosSize (Some pt) pts)) -> 0 < pts ->
  getTileTwipsPosFromPrint d (pt + pts) = None.
Proof.
  intros Hd Hx Hs. destruct (element_data_inv _ _ _ _ _ _ _ Hd Hx) as [Hm [= -> ->]]. cbn [unit_start unit_size] in *.
  rewrite <- psum_succ by lia. destruct (span_of _ _ _ _ Hd m Hm) as (k & v & Hk & Hv).
  destruct (span_facts _ _ _ _ Hd k v Hk) as (H1 & H2 & H3 & H4). assert (Ee : sv_end v = m) by lia.
  assert (Hlen : Z.of_nat k + 1 = Z.of_nat (length l)).
  { pose proof (lookup_lt_Some _ _ _ Hk) as Hk'. rewrite length_views in Hk'.
    destruct (decide (S k = length l)) as [|Hne]; [lia|]. destruct (lookup_lt_is_Some_2 (views (-1) l) (S k)) as [w Hw]; [rewrite length_views; lia|].
    pose proof (views_sorted _ _ _ k (S k) _ _ (do_spans _ _ _ _ Hd) ltac:(lia) Hk Hw). destruct (span_facts _ _ _ _ Hd _ _ Hw) as (? & ? & _). lia. }
  assert (Hend : field_end l PosPrintTwips (Z.of_nat k) = psum size (m + 1)) by (by rewrite (field_end_print _ _ _ _ Hd k v), Ee).
  assert (Hstart : field_start l PosPrintTwips (Z.of_nat k) = psum size (sv_start v))
    by (apply (field_start_span _ _ _ _ Hd PosPrintTwips (psum size) k v); [apply (field_end_print _ _ _ _ Hd)|done|done]).
  pose proof (print_mono _ _ _ _ Hd) as Hmono. pose proof (Hmono (sv_start v) m ltac:(lia) ltac:(lia)) as Hsm.
  rewrite psum_succ in * by lia.
  assert (Hasc : forall i j, 0 <= i <= j -> j < Z.of_nat (length l) -> field_end l PosPrintTwips i <= field_end l PosPrintTwips j).
  { intros i j. apply (field_ascending _ _ _ _ Hd PosPrintTwips (psum size)); [apply (field_end_print _ _ _ _ Hd)|done]. }
  unfold getTileTwipsPosFromPrint, getSpanAndIndexFromPrintTwipsPos. rewrite (do_visible _ _ _ _ Hd). cbn [mbind option_bind].
  rewrite (getSpanDataByCustomDataField_match l PosPrintTwips (psum size m + size m) 1 ltac:(lia) (all_data _ _ _ _ Hd) Hasc) with (k := k) (v := v).
  - cbn [mbind option_bind]. rewrite H4. cbn [mbind option_bind posprinttwips].
    destruct (span_sums _ _ _ _ Hd k v (sv_end v + 1) Hk ltac:(lia)) as [_ S]. rewrite Ee in *.
    rewrite (H3 m) in * by lia. unfold floor_quotient. rewrite (proj2 (Z.eqb_neq _ 0)) by lia. cbn [num_add].
    rewrite psum_succ in * by lia. rewrite (H3 m) in * by lia.
    replace (psum size m + sv_size v - (psum size m + sv_size v - sv_size v * (m - sv_start v + 1)))
      with ((m - sv_start v + 1) * sv_size v) by ring.
    rewrite Z.div_mul by lia. unfold found_data, getElementDataAnyFromSpanByIndex. cbn [is_index is_span num_ltb mbind option_bind].
    rewrite (proj2 (Z.ltb_lt (sv_end v) _)) by lia. by rewrite orb_true_r.
  - intros Hn. apply (field_from_zero _ _ _ _ Hd PosPrintTwips (psum size)); [apply (field_end_print _ _ _ _ Hd)|done|done|done].
  - done.
  - unfold field_match, field_last. rewrite Hstart, Hend. rewrite (proj2 (Z.ltb_ge _ _)) by lia. lia.
  - intros j Hj [_ Hle]. unfold field_last in Hle. rewrite (proj2 (Z.ltb_lt _ _)) in Hle by lia.
    assert (field_end l PosPrintTwips j <= field_start l PosPrintTwips (Z.of_nat k)).
    { unfold field_start. rewrite (proj2 (Z.eqb_neq _ _)) by lia. apply Hasc; lia. }
    lia.
Qed.

(** A message about 13 elements, of which 5 and 6 are hidden. *)
Definition sample_data : dimension_data := DimensionData (Some "1280:3 300:9 2000:12 ") (Some "0:4 6 12 ") (Some "0:12 ") (Some "2:3:0:1, ").
Definition sample_dimension : dimension := (update_dimension sample_data (set_tile 3840 256 new_dimension)).1.
Definition sample_message : geometry_data := GeometryData (Some unoCommand) (Some "12") (Some "12") (Some sample_data) (Some sample_data).

Lemma sample_good_data : good_data sample_data (set_tile 3840 256 new_dimension).
Proof.
  split; [by vm_compute|]. exists 12.
  assert (Es : sizes (loaded sample_data (set_tile 3840 256 new_dimension)) = [Span 3 1280 None; Span 9 300 None; Span 12 2000 None]) by (by vm_compute).
  split; try (by vm_compute).
  intros i _. rewrite Es. cbn. repeat case_match; lia.
Qed.

Lemma sample_dimension_good : good_dimension sample_dimension.
Proof.
  destruct (update_dimension_ok sample_data (set_tile 3840 256 new_dimension) sample_good_data) as (d' & E & Hd); [right; by eexists|].
  unfold sample_dimension. by rewrite E.
Qed.

(** The positions of the sample; the position at its end throws. *)
Lemma sample_positions :
  getElementDataAny sample_dimension (Some 7) CorePixels = Some (Some (PosSize (Some 360) 20)) /\
  getIndexFromPos sample_dimension 350 CorePixels = Some (Some 4) /\
  getIndexFromPos sample_dimension 360 CorePixels = Some (Some 7) /\
  getSize (setMaxIndex (Some 12) sample_dimension) PrintTwips = Some (Some 12320) /\
  getTileTwipsPosFromPrint sample_dimension 12320 = None.
Proof. by vm_compute. Qed.

(** A sheet whose last columns are hidden: at the end of the sheet the index is NaN. *)
Lemma hidden_end_is_nan :
  let d := (update_dimension (DimensionData (Some "1280:12 ") (Some "0:9 12 ") (Some "0:12 ") None) (set_tile 3840 256 new_dimension)).1 in
  getSize (setMaxIndex (Some 12) d) PrintTwips = Some (Some 12800) /\ getIndexFromPos d 12800 PrintTwips = Some None.
Proof. by vm_compute. Qed.

(** At a zoom where a core pixel is no whole number of twips, the element at the tile
    position where an element starts may be the one before it. *)
Lemma tile_start_not_found :
  let d := (update_dimension (DimensionData (Some "20:9 ") (Some "0:9 ") (Some "0:9 ") None) (set_tile 3200 256 new_dimension)).1 in
  getElementDataAny d (Some 1) TileTwips = Some (Some (PosSize (Some 12) 12)) /\
  getIndexFromPos d (12 * 256) TileTwips = Some (Some 0).
Proof. by vm_compute. Qed.

(** [getCorePixelsAtZoom] does not stop in the element the position is in: what remains
    is converted with the sizes of smaller elements that follow.  Half of a column of 100
    pixels, followed by narrow ones, becomes position 0 at half the zoom instead of 25. *)
Lemma pixels_at_zoom_skips :
  let d := (update_dimension (DimensionData (Some "1500:0 29:50 ") (Some "0:50 ") (Some "0:50 ") None) (set_tile 3840 256 new_dimension)).1 in
  getElementDataAny d (Some 0) CorePixels = Some (Some (PosSize (Some 0) 100)) /\ getCorePixelsAtZoom d 50 1 2 = Some 0.
Proof. by vm_compute. Qed.

(** ** Witnesses *)

Definition sample_geometry : sheet_geometry :=
  default (SheetGeometry 0 new_dimension new_dimension) (new_SheetGeometry sample_message 3840 3840 256 0).
Definition sample_zoomed : sheet_geometry :=
  default (SheetGeometry 0 new_dimension new_dimension) (set_tile_geometry 3200 3200 256 true sample_geometry).

Lemma geometry_invariant_witness : good_geometry sample_zoomed.
Proof.
  apply (geometry_invariant sample_message 3840 3840 256 0 sample_geometry sample_zoomed).
  - vm_compute. reflexivity.
  - lia.
  - lia.
  - lia.
  - intros j' [= <-]. exact sample_good_data.
  - intros j' [= <-]. exact sample_good_data.
  - vm_compute. reflexivity.
  - apply rtc_once. apply (step_zoom 3200 3200 256); [lia|lia|lia|vm_compute; reflexivity].
Defined.

Lemma element_positions_witness : exists cx pt,
  getElementDataAny sample_dimension (Some 7) CorePixels = Some (Some (PosSize (Some cx) 20)) /\
  getElementDataAny sample_dimension (Some 7) PrintTwips = Some (Some (PosSize (Some pt) 300)).
Proof.
  destruct (element_positions sample_dimension 12 7) as (cx & pt & H1 & H2 & _).
  - exact sample_dimension_good.
  - vm_compute. repeat split.
  - lia.
  - exists cx, pt. split; [exact H1|exact H2].
Defined.

Lemma index_of_position_witness :
  getIndexFromPos sample_dimension 375 CorePixels = Some (Some 7) /\ getSnapPos sample_dimension 375 CorePixels = Some (Some 360).
Proof.
  apply (index_of_position sample_dimension 7 CorePixels 360 20 375).
  - exact sample_dimension_good.
  - left. split; [reflexivity|]. vm_compute. discriminate.
  - vm_compute. reflexivity.
  - lia.
Defined.

Lemma tile_from_print_witness : getTileTwipsPosFromPrint sample_dimension 5500 = Some (Some (5400 + (5500 - 5420))).
Proof.
  apply (tile_from_print sample_dimension 7 5420 300 5400 300 5500); [exact sample_dimension_good|vm_compute; reflexivity|vm_compute; reflexivity|lia].
Defined.

Lemma grid_lines_exact_witness : exists lines, forEachInCorePixelRange sample_dimension 100 400 = Some lines /\ (380, 8) ∈ lines.
Proof.
  destruct (grid_lines_exact sample_dimension 100 400 sample_dimension_good) as (lines & E & _ & H).
  exists lines. split; [exact E|]. apply (H 7 360 20); [vm_compute; reflexivity|lia|lia].
Defined.

Lemma groups_exact_witness : exists calls, forEachGroupInRange [[Outline 2 4 0 1; Outline 6 7 1 0]] 5 9 = Some calls /\
  (0%nat, (1%nat, Outline 6 7 1 0)) ∈ calls.
Proof.
  destruct (groups_exact [[Outline 2 4 0 1; Outline 6 7 1 0]] 5 9) as (calls & E & H).
  - intros [|k] groups Hg; [|done]. injection Hg as <-. split.
    + intros [|[|k]] g Hg; try done; injection Hg as <-; cbn; lia.
    + intros [|[|i]] [|[|j]] g h Hij Hg Hh; try lia; try done. injection Hg as <-. injection Hh as <-. cbn. lia.
  - lia.
  - exists calls. split; [exact E|]. apply H. eexists. split; [reflexivity|]. split; [reflexivity|]. cbn. lia.
Defined.
