(* ===== verification/Panes.v ===== *)
(** * Split panes

    Frozen rows and columns divide the view of a sheet into up to four panes.  Models
    [SplitPanesContext] (src/browser/src/layer/SplitPanesContext.ts), [CalcSplitPanesContext]
    (CalcSplitPanesContext.ts) and what the layer does with them
    (src/browser/src/layer/tile/CalcTileLayer.js): a context per sheet, the position of the
    split computed from its cell and back, and the state exchanged with the server.

    What the panes need of the geometry of the sheet is the interface [GridAxis]; the
    dimensions of [SheetGeometry] implement it at the end of the file.  An exception is
    [None]. *)

From S2P Require Import Prelude JsText Geometry TileCoords PreFetch SpanList SheetGeometry.
Local Open Scope Z_scope.

(** ** The geometry the panes rely on *)

(** Columns, or rows, in core pixels: where an element starts, the element at a position, and
    the start of the element at a position. *)
Class GridAxis (D : Type) := {
  axis_start : D -> Z -> option Z;
  axis_index : D -> Z -> option Z;
  axis_snap : D -> Z -> option Z
}.

(** What a good axis promises: elements up to [axis_last], over positions below
    [axis_length]. *)
Class GridAxisLaws (D : Type) `{GridAxis D} := {
  axis_good : D -> Prop;
  axis_last : D -> Z;
  axis_length : D -> Z;
  axis_start_ok d i : axis_good d -> 0 <= i <= axis_last d ->
    exists x, axis_start d i = Some x /\ 0 <= x <= axis_length d;
  axis_index_ok d p : axis_good d -> 0 <= p < axis_length d ->
    exists i x, axis_index d p = Some i /\ 0 <= i <= axis_last d /\ axis_start d i = Some x /\
      axis_snap d p = Some x /\ 0 <= x <= p /\ axis_index d x = Some i;
  axis_visible d i x : axis_good d -> 0 <= i <= axis_last d -> axis_start d i = Some x -> x < axis_length d ->
    exists j, 0 <= j <= axis_last d /\ axis_index d x = Some j /\ axis_start d j = Some x
}.

(** ** Rectangles of the panes *)

(** [getPanesProperties] *)
Definition getPanesProperties (split : point) : list pane_status :=
  (if negb (px split =? 0) && negb (py split =? 0) then [PaneStatus true true] else []) ++
  (if negb (py split =? 0) then [PaneStatus false true] else []) ++
  (if negb (px split =? 0) then [PaneStatus true false] else []) ++
  [PaneStatus false false].

(** [getPxBoundList]: the panes of the area [b]. *)
Definition getPxBoundList (split : point) (b : bounds) : list bounds :=
  let topLeft := bmin b in
  let bottomRight := bmax b in
  let boundList :=
    (if negb (px split =? 0) && negb (py split =? 0) then [mk_bounds (Point 0 0) split] else []) ++
    (if negb (py split =? 0) then
       [mk_bounds (Point (px topLeft + px split) 0) (Point (px bottomRight) (py split))] else []) ++
    (if negb (px split =? 0) then
       [mk_bounds (Point 0 (py topLeft + py split)) (Point (px split) (py bottomRight))] else []) in
  match boundList with
  | [] => [mk_bounds topLeft bottomRight]
  | _ => boundList ++ [mk_bounds (point_add topLeft split) bottomRight]
  end.

(** [getTwipsBoundList], given [_corePixelsToTwips]. *)
Definition getTwipsBoundList (corePixelsToTwips : point -> point) (split : point) (b : bounds) : list bounds :=
  (fun bound => mk_bounds (corePixelsToTwips (bmin bound)) (corePixelsToTwips (bmax bound))) <$> getPxBoundList split b.

(** [SplitPanesContext.intersectsVisible] *)
Definition intersectsVisible (areaPx : bounds) (split : point) (b : bounds) : bool :=
  existsb (fun bound => intersects areaPx bound) (getPxBoundList split b).

(** ** The position of the split *)

Definition maxHorizontalSplitPercent : Z := 70.
Definition maxVerticalSplitPercent : Z := 70.

Record context := Context { splitPos : point; splitCell : point }.

Definition new_context : context := Context (Point 0 0) (Point 0 0).

Inductive action :=
  | UpdateXSplitter
  | UpdateYSplitter
  | SplitPosChanged
  | FreezePanesColumn (n : Z)
  | FreezePanesRow (n : Z).

(** The part of the layer that concerns panes.  [contexts] holds the context object of each
    sheet, [current] the sheet whose context is in use; [coreCell] is [_splitCellState]. *)
Record layer := Layer {
  contexts : gmap Z context;
  current : option Z;
  coreCell : option point;
  hasXSplitter : bool;
  hasYSplitter : bool;
  dontSendSplitPosToCore : bool;
  isEditMode : bool;
  syncSplits : bool;
  actions : list action
}.

Definition set_contexts x s := Layer x (current s) (coreCell s) (hasXSplitter s) (hasYSplitter s) (dontSendSplitPosToCore s) (isEditMode s) (syncSplits s) (actions s).
Definition set_current x s := Layer (contexts s) x (coreCell s) (hasXSplitter s) (hasYSplitter s) (dontSendSplitPosToCore s) (isEditMode s) (syncSplits s) (actions s).
Definition set_coreCell x s := Layer (contexts s) (current s) x (hasXSplitter s) (hasYSplitter s) (dontSendSplitPosToCore s) (isEditMode s) (syncSplits s) (actions s).
Definition set_splitters x y s := Layer (contexts s) (current s) (coreCell s) x y (dontSendSplitPosToCore s) (isEditMode s) (syncSplits s) (actions s).
Definition set_dontSend x s := Layer (contexts s) (current s) (coreCell s) (hasXSplitter s) (hasYSplitter s) x (isEditMode s) (syncSplits s) (actions s).
Definition act a s := Layer (contexts s) (current s) (coreCell s) (hasXSplitter s) (hasYSplitter s) (dontSendSplitPosToCore s) (isEditMode s) (syncSplits s) (actions s ++ [a]).

(** [this._splitPanesContext] *)
Definition the_context (s : layer) : option context := current s ≫= fun part => contexts s !! part.

Definition alter_context (f : context -> context) (s : layer) : layer :=
  match current s with Some part => set_contexts (alter f part (contexts s)) s | None => s end.

Definition set_pos_x x c := Context (Point x (py (splitPos c))) (splitCell c).
Definition set_pos_y y c := Context (Point (px (splitPos c)) y) (splitCell c).
Definition set_cell_x x c := Context (splitPos c) (Point x (py (splitCell c))).
Definition set_cell_y y c := Context (splitPos c) (Point (px (splitCell c)) y).

Definition updateXSplitter (s : layer) : layer := act UpdateXSplitter (set_splitters true (hasYSplitter s) s).
Definition updateYSplitter (s : layer) : layer := act UpdateYSplitter (set_splitters (hasXSplitter s) true s).

Section operations.
Context {D : Type} `{GridAxis D}.

(** The geometry of the sheet, the device pixels per CSS pixel and the size of the map. *)
Record environment := Environment { columns : D; rows : D; dpi_num : Z; dpi_den : Z; mapSize : point }.

Definition rawMax (e : environment) (size percent : Z) : Z := dpi_num e * size * percent / (dpi_den e * 100).

Definition getMaxSplitPosX (e : environment) : option Z :=
  axis_snap (columns e) (rawMax e (px (mapSize e)) maxHorizontalSplitPercent).
Definition getMaxSplitPosY (e : environment) : option Z :=
  axis_snap (rows e) (rawMax e (py (mapSize e)) maxVerticalSplitPercent).

(** [justifySplitPos], given the greatest position. *)
Definition justifySplitPos (d : D) (maxSplitPos : option Z) (split : Z) : option Z :=
  if split <=? 0 then Some 0
  else maxSplitPos ≫= fun m => if m <=? split then Some m else axis_snap d split.

(** [setHorizSplitPos] and [setVertSplitPos], called without an event of their own. *)
Definition setHorizSplitPos (e : environment) (splitX : Z) (forceUpdate : bool) (c : context) (s : layer) :
    option (layer * bool) :=
  if px (splitPos c) =? splitX then
    Some (if forceUpdate || negb (hasXSplitter s) then updateXSplitter s else s, false)
  else
    newX ← justifySplitPos (columns e) (getMaxSplitPosX e) splitX;
    Some (updateXSplitter (alter_context (set_pos_x newX) s), negb (newX =? px (splitPos c))).

Definition setVertSplitPos (e : environment) (splitY : Z) (forceUpdate : bool) (c : context) (s : layer) :
    option (layer * bool) :=
  if py (splitPos c) =? splitY then
    Some (if forceUpdate || negb (hasYSplitter s) then updateYSplitter s else s, false)
  else
    newY ← justifySplitPos (rows e) (getMaxSplitPosY e) splitY;
    Some (updateYSplitter (alter_context (set_pos_y newY) s), negb (newY =? py (splitPos c))).

(** [sendSplitIndex] *)
Definition sendSplitIndex (newSplitIndex : Z) (isSplitCol : bool) (s : layer) : layer :=
  match coreCell s with
  | Some core =>
      if negb (isEditMode s) || negb (syncSplits s) then s
      else if (px core =? -1) || (py core =? -1) then s
      else if (if isSplitCol then px core else py core) =? newSplitIndex then s
      else act (if isSplitCol then FreezePanesColumn newSplitIndex else FreezePanesRow newSplitIndex) s
  | None => s
  end.

(** [setSplitCol] and [setSplitRow], followed by [sendSplitIndex] when they changed something. *)
Definition sync_column (n : Z) (s : layer) : layer :=
  match the_context s with
  | Some c =>
      if n =? px (splitCell c) then s else sendSplitIndex n true (alter_context (set_cell_x n) s)
  | None => s
  end.
Definition sync_row (n : Z) (s : layer) : layer :=
  match the_context s with
  | Some c =>
      if n =? py (splitCell c) then s else sendSplitIndex n false (alter_context (set_cell_y n) s)
  | None => s
  end.

(** [setSplitCellFromPos] *)
Definition setSplitCellFromPos (e : environment) (s : layer) : option layer :=
  match the_context s with
  | None => Some s
  | Some c =>
      x ← axis_index (columns e) (px (splitPos c));
      y ← axis_index (rows e) (py (splitPos c));
      Some (if dontSendSplitPosToCore s then s else sync_row y (sync_column x s))
  end.

(** [setSplitPos]; the layer listens to [splitposchanged]. *)
Definition setSplitPos (e : environment) (splitX splitY : Z) (forceUpdate : bool) (s : layer) : option layer :=
  match the_context s with
  | None => Some s
  | Some c =>
      '(s, xchanged) ← setHorizSplitPos e splitX forceUpdate c s;
      '(s, ychanged) ← setVertSplitPos e splitY forceUpdate c s;
      if xchanged || ychanged then setSplitCellFromPos e (act SplitPosChanged s) else Some s
  end.

(** [setSplitPosFromCell] *)
Definition setSplitPosFromCell (e : environment) (forceSplittersUpdate : bool) (s : layer) : option layer :=
  match the_context s with
  | None => Some s
  | Some c =>
      x ← axis_start (columns e) (px (splitCell c));
      y ← axis_start (rows e) (py (splitCell c));
      s ← setSplitPos e x y forceSplittersUpdate s;
      setSplitCellFromPos e s
  end.

(** ** Events of the layer *)

(** [_switchSplitPanesContext]: another sheet is shown. *)
Definition switchSplitPanesContext (e : option environment) (part : Z) (s : layer) : option layer :=
  let s := match contexts s !! part with
           | Some _ => s
           | None => set_contexts (<[part:=new_context]> (contexts s)) s
           end in
  let s := set_current (Some part) s in
  match e with Some e => setSplitPosFromCell e true s | None => Some s end.

(** [_onSplitStateChanged], for a state that is a number. *)
Definition onSplitStateChanged (e : option environment) (newSplitIndex : Z) (isSplitCol : bool) (s : layer) :
    option layer :=
  match the_context s with
  | None => Some s
  | Some c =>
      let core := default (Point (-1) (-1)) (coreCell s) in
      let s := set_coreCell (Some (if isSplitCol then Point newSplitIndex (py core)
                                   else Point (px core) newSplitIndex)) s in
      if negb (syncSplits s) then Some s
      else
        let old := if isSplitCol then px (splitCell c) else py (splitCell c) in
        if newSplitIndex =? old then Some s
        else
          let s := alter_context ((if isSplitCol then set_cell_x else set_cell_y) newSplitIndex) s in
          match e with Some e => setSplitPosFromCell e false s | None => Some s end
  end.

(** [_onZoomRowColumns]: the geometry is that of the new zoom. *)
Definition onZoomRowColumns (e : environment) (s : layer) : option layer := setSplitPosFromCell e false s.

(** [_handleSheetGeometryDataMsg]: the geometry is that of the message. *)
Definition onSheetGeometry (e : environment) (s : layer) : option layer :=
  set_dontSend false <$> setSplitPosFromCell e false (set_dontSend true s).
End operations.
Arguments environment D : clear implicits.

(** ** The panes share the view *)

Definition inside (r : bounds) (p : point) : Prop :=
  px (bmin r) <= px p < px (bmax r) /\ py (bmin r) <= py p < py (bmax r).

(** The point of the document a pane shows at a place of the view: fixed coordinates do not
    scroll. *)
Definition shown (st : pane_status) (b : bounds) (place : point) : point :=
  Point (if st_xFixed st then px place else px (bmin b) + px place)
        (if st_yFixed st then py place else py (bmin b) + py place).

Lemma mk_bounds_id a b : px a <= px b -> py a <= py b -> mk_bounds a b = Bounds a b.
Proof. destruct a, b. simpl. intros. unfold mk_bounds, bounds_extend. simpl. f_equal; f_equal; lia. Qed.

(** The panes share the view: for every place of it there is exactly one pane that shows
    a point of the document there, and rectangles and properties of the panes come in the
    same order. *)
Theorem panes_share_view split b place :
  0 <= px split -> 0 <= py split -> 0 <= px (bmin b) -> 0 <= py (bmin b) ->
  px (bmin b) + px split <= px (bmax b) -> py (bmin b) + py split <= py (bmax b) ->
  0 <= px place < px (bmax b) - px (bmin b) -> 0 <= py place < py (bmax b) - py (bmin b) ->
  length (getPxBoundList split b) = length (getPanesProperties split) /\
  exists i r st, zip (getPxBoundList split b) (getPanesProperties split) !! i = Some (r, st) /\
    inside r (shown st b place) /\
    forall j r' st', zip (getPxBoundList split b) (getPanesProperties split) !! j = Some (r', st') ->
      inside r' (shown st' b place) -> j = i.
Proof.
  destruct split as [sx sy], b as [[ax ay] [bx by_]], place as [x y]. cbn [px py bmin bmax]. intros.
  unfold getPxBoundList, getPanesProperties, point_add. cbn [px py bmin bmax].
  destruct (Z.eqb_spec sx 0) as [->|Hx], (Z.eqb_spec sy 0) as [->|Hy]; cbn [negb andb app length];
    rewrite !mk_bounds_id by (cbn [px py]; lia); cbn [zip zip_with]; (split; [done|]).
  - exists 0%nat; eexists _, _; split; [done|]. split; [unfold inside; cbn; lia|].
    intros [|j] r' st' Hj _; [done|]. by destruct j.
  - destruct (Z.lt_ge_cases y sy).
    + exists 0%nat; eexists _, _; split; [done|]. split; [unfold inside; cbn; lia|].
      intros [|[|j]] r' st' Hj Hin; simplify_eq/=; [done|unfold inside in Hin; cbn in Hin; lia].
    + exists 1%nat; eexists _, _; split; [done|]. split; [unfold inside; cbn; lia|].
      intros [|[|j]] r' st' Hj Hin; simplify_eq/=; [unfold inside in Hin; cbn in Hin; lia|done].
  - destruct (Z.lt_ge_cases x sx).
    + exists 0%nat; eexists _, _; split; [done|]. split; [unfold inside; cbn; lia|].
      intros [|[|j]] r' st' Hj Hin; simplify_eq/=; [done|unfold inside in Hin; cbn in Hin; lia].
    + exists 1%nat; eexists _, _; split; [done|]. split; [unfold inside; cbn; lia|].
      intros [|[|j]] r' st' Hj Hin; simplify_eq/=; [unfold inside in Hin; cbn in Hin; lia|done].
  - exists (if y <? sy then if x <? sx then 0%nat else 1%nat else if x <? sx then 2%nat else 3%nat).
    destruct (Z.ltb_spec y sy), (Z.ltb_spec x sx); eexists _, _; (split; [done|]);
      (split; [unfold inside; cbn; lia|]);
      intros [|[|[|[|j]]]] r' st' Hj Hin; simplify_eq/=; try done; unfold inside in Hin; cbn in Hin; lia.
Qed.

Lemma panes_share_view_witness :
  let split := Point 30 20 in let b := Bounds (Point 100 200) (Point 400 500) in
  length (getPxBoundList split b) = length (getPanesProperties split) /\
  exists i r st, zip (getPxBoundList split b) (getPanesProperties split) !! i = Some (r, st) /\
    inside r (shown st b (Point 31 5)) /\
    forall j r' st', zip (getPxBoundList split b) (getPanesProperties split) !! j = Some (r', st') ->
      inside r' (shown st' b (Point 31 5)) -> j = i.
Proof. intros split b. apply panes_share_view; cbn; lia. Defined.

(** ** The exchange with the server *)

Definition paints (a : action) : Prop := a = UpdateXSplitter \/ a = UpdateYSplitter \/ a = SplitPosChanged.

(** The commands to freeze up to another cell. *)
Definition freeze_commands (core old new : point) : list action :=
  (if (px new =? px old) || (px new =? px core) then [] else [FreezePanesColumn (px new)]) ++
  (if (py new =? py old) || (py new =? py core) then [] else [FreezePanesRow (py new)]).

(** The fields events of panes leave alone. *)
Definition same_mode (s s' : layer) : Prop :=
  current s' = current s /\ coreCell s' = coreCell s /\ dontSendSplitPosToCore s' = dontSendSplitPosToCore s /\
  isEditMode s' = isEditMode s /\ syncSplits s' = syncSplits s.

Lemma same_mode_refl s : same_mode s s.
Proof. by repeat split. Qed.

Lemma same_mode_trans s1 s2 s3 : same_mode s1 s2 -> same_mode s2 s3 -> same_mode s1 s3.
Proof. intros (A1 & A2 & A3 & A4 & A5) (B1 & B2 & B3 & B4 & B5). by repeat split; congruence. Qed.

Lemma alter_context_spec f s c :
  the_context s = Some c ->
  the_context (alter_context f s) = Some (f c) /\ same_mode s (alter_context f s) /\
  actions (alter_context f s) = actions s.
Proof.
  unfold the_context, alter_context. destruct (current s) as [p|] eqn:Ec; [|done]. cbn. intros Hc. rewrite Ec. cbn.
  rewrite lookup_alter_eq, Hc. split; [done|]. split; [|done]. by repeat split.
Qed.

Section laws.
Context {D : Type} `{GridAxisLaws D}.

(** A position of the split on one axis for a wanted one: the wanted one or the maximum,
    and the element that starts there. *)
Definition resolved (d : D) (maxSplitPos : option Z) (x X k : Z) : Prop :=
  axis_index d X = Some k /\ axis_start d k = Some X /\ 0 <= X < axis_length d /\ 0 <= k <= axis_last d /\
  (X = x \/ maxSplitPos = Some X /\ X <= x).

Lemma snap_below d p : axis_good d -> 0 <= p < axis_length d -> exists x, axis_snap d p = Some x /\ resolved d (Some x) x x (default 0 (axis_index d x)).
Proof.
  intros Hd Hp. destruct (axis_index_ok d p Hd Hp) as (i & x & Hi & Hl & Hs & Hn & Hx & Hxi).
  exists x. split; [done|]. rewrite Hxi. cbn. split_and!; try done; try lia; by left.
Qed.

Lemma start_resolved d i x :
  axis_good d -> 0 <= i <= axis_last d -> axis_start d i = Some x -> x < axis_length d ->
  exists k, axis_index d x = Some k /\ axis_start d k = Some x /\ 0 <= k <= axis_last d /\ axis_snap d x = Some x /\ 0 <= x.
Proof.
  intros Hd Hi Hs Hx. destruct (axis_start_ok d i Hd Hi) as (x' & Hs' & Hx'). assert (x' = x) as -> by congruence.
  destruct (axis_visible d i x Hd Hi Hs Hx) as (j & Hj & Hij & Hsj).
  destruct (axis_index_ok d x Hd ltac:(lia)) as (i' & y & Hi' & _ & Hsi' & Hn & _).
  assert (i' = j) as -> by congruence. assert (y = x) as -> by congruence.
  exists j. split_and!; try done; lia.
Qed.

(** What [justifySplitPos] makes of the start of an element. *)
Lemma justify_start d rawMax i x :
  axis_good d -> 0 <= rawMax < axis_length d -> 0 <= i <= axis_last d -> axis_start d i = Some x ->
  exists X k, justifySplitPos d (axis_snap d rawMax) x = Some X /\ resolved d (axis_snap d rawMax) x X k.
Proof.
  intros Hd Hm Hi Hs. destruct (snap_below d rawMax Hd Hm) as (mx & Hmx & Hr & Hrs & Hrx & Hrk & _).
  destruct (axis_index_ok d rawMax Hd Hm) as (_ & y & _ & _ & _ & Hy & Hyr & _). assert (y = mx) as -> by congruence.
  destruct (axis_start_ok d i Hd Hi) as (x' & Hs' & Hx'). assert (x' = x) as -> by congruence.
  unfold justifySplitPos. rewrite Hmx. cbn [mbind option_bind]. unfold resolved.
  destruct (Z.leb_spec x 0) as [Hx0|Hx0]; [|destruct (Z.leb_spec mx x) as [Hle|Hlt]].
  - assert (x = 0) as -> by lia. destruct (start_resolved d i 0) as (k & A & B & C & E & F); try done; [lia|].
    exists 0, k. split_and!; try done; try lia; by left.
  - exists mx, (default 0 (axis_index d mx)). split_and!; try done; try lia; by right.
  - destruct (start_resolved d i x) as (k & A & B & C & E & F); try done; [lia|].
    exists x, k. split_and!; try done; try lia; by left.
Qed.

Lemma setHoriz_spec (e : environment D) s c i x f :
  the_context s = Some c -> axis_good (columns e) ->
  0 <= rawMax e (px (mapSize e)) maxHorizontalSplitPercent < axis_length (columns e) ->
  0 <= px (splitPos c) < axis_length (columns e) ->
  0 <= i <= axis_last (columns e) -> axis_start (columns e) i = Some x ->
  exists s' X k b pre, setHorizSplitPos e x f c s = Some (s', b) /\ resolved (columns e) (getMaxSplitPosX e) x X k /\
    (px (splitPos c) = x -> X = x) /\
    the_context s' = Some (set_pos_x X c) /\ same_mode s s' /\ actions s' = actions s ++ pre /\ Forall paints pre.
Proof.
  intros Hc Hd Hm Hp Hi Hs. unfold setHorizSplitPos. destruct (Z.eqb_spec (px (splitPos c)) x) as [Ex|Ex].
  - destruct (start_resolved _ i x Hd Hi Hs) as (k & A & B & C & E & F); [lia|].
    assert (Hr : resolved (columns e) (getMaxSplitPosX e) x x k) by (split_and!; try done; try lia; by left).
    assert (Hcx : c = set_pos_x x c) by (destruct c as [[? ?] ?]; unfold set_pos_x; cbn in *; by subst).
    destruct (_ || _); eexists _, x, k, _, _; (split; [done|]); (split; [done|]); (split; [done|]); rewrite <- Hcx;
      (split; [done|]); (split; [apply same_mode_refl || by repeat split|]).
    + split; [done|]. repeat constructor.
    + split; [by rewrite app_nil_r|constructor].
  - destruct (justify_start _ _ i x Hd Hm Hi Hs) as (X & k & HX & Hr). unfold getMaxSplitPosX. rewrite HX.
    cbn [mbind option_bind]. destruct (alter_context_spec (set_pos_x X) s c Hc) as (A & B & C).
    eexists _, X, k, _, _. split; [done|]. split; [done|]. split; [done|]. split; [done|]. split; [done|].
    split; [cbn; by rewrite C|]. repeat constructor.
Qed.

Lemma setVert_spec (e : environment D) s c c' i y f :
  the_context s = Some c' -> axis_good (rows e) ->
  0 <= rawMax e (py (mapSize e)) maxVerticalSplitPercent < axis_length (rows e) ->
  0 <= py (splitPos c) < axis_length (rows e) -> py (splitPos c') = py (splitPos c) ->
  0 <= i <= axis_last (rows e) -> axis_start (rows e) i = Some y ->
  exists s' Y k b pre, setVertSplitPos e y f c s = Some (s', b) /\ resolved (rows e) (getMaxSplitPosY e) y Y k /\
    (py (splitPos c) = y -> Y = y) /\
    the_context s' = Some (set_pos_y Y c') /\ same_mode s s' /\ actions s' = actions s ++ pre /\ Forall paints pre.
Proof.
  intros Hc Hd Hm Hp Hcc Hi Hs. unfold setVertSplitPos. destruct (Z.eqb_spec (py (splitPos c)) y) as [Ey|Ey].
  - destruct (start_resolved _ i y Hd Hi Hs) as (k & A & B & C & E & F); [lia|].
    assert (Hr : resolved (rows e) (getMaxSplitPosY e) y y k) by (split_and!; try done; try lia; by left).
    assert (Hcx : c' = set_pos_y y c') by (destruct c' as [[? ?] ?]; unfold set_pos_y; cbn in *; by subst).
    destruct (_ || _); eexists _, y, k, _, _; (split; [done|]); (split; [done|]); (split; [done|]); rewrite <- Hcx;
      (split; [done|]); (split; [apply same_mode_refl || by repeat split|]).
    + split; [done|]. constructor; [right; by left|constructor].
    + split; [by rewrite app_nil_r|constructor].
  - destruct (justify_start _ _ i y Hd Hm Hi Hs) as (Y & k & HY & Hr). unfold getMaxSplitPosY. rewrite HY.
    cbn [mbind option_bind]. destruct (alter_context_spec (set_pos_y Y) s c' Hc) as (A & B & C).
    eexists _, Y, k, _, _. split; [done|]. split; [done|]. split; [done|]. split; [done|]. split; [done|].
    split; [cbn; by rewrite C|]. constructor; [right; by left|constructor].
Qed.

(** The layer talks to the server: it may edit, and was told what is frozen. *)
Definition talking (core : point) (s : layer) : Prop :=
  isEditMode s = true /\ syncSplits s = true /\ dontSendSplitPosToCore s = false /\ coreCell s = Some core /\
  px core <> -1 /\ py core <> -1.

Lemma same_mode_talking core s s' : same_mode s s' -> talking core s -> talking core s'.
Proof. intros (_ & A & B & C & E) (A1 & A2 & A3 & A4 & A5 & A6). repeat split; congruence. Qed.

Lemma sendSplitIndex_talking core s n isSplitCol :
  talking core s ->
  sendSplitIndex n isSplitCol s =
    if n =? (if isSplitCol then px core else py core) then s
    else act (if isSplitCol then FreezePanesColumn n else FreezePanesRow n) s.
Proof.
  intros (He & Hy & _ & Hc & Hx & Hr). unfold sendSplitIndex. rewrite Hc, He, Hy. cbn [negb orb].
  apply Z.eqb_neq in Hx, Hr. rewrite Hx, Hr. cbn [orb]. by rewrite (Z.eqb_sym n).
Qed.

Lemma act_same_mode a s : same_mode s (act a s).
Proof. by repeat split. Qed.

Lemma sync_column_spec core s c n :
  talking core s -> the_context s = Some c ->
  the_context (sync_column n s) = Some (set_cell_x n c) /\ same_mode s (sync_column n s) /\
  actions (sync_column n s) =
    actions s ++ (if (n =? px (splitCell c)) || (n =? px core) then [] else [FreezePanesColumn n]).
Proof.
  intros Ht Hc. unfold sync_column. rewrite Hc. destruct (Z.eqb_spec n (px (splitCell c))) as [->|Hn]; cbn [orb].
  - rewrite app_nil_r. split; [by destruct c as [? []]|]. split; [apply same_mode_refl|done].
  - destruct (alter_context_spec (set_cell_x n) s c Hc) as (A & B & C).
    rewrite (sendSplitIndex_talking core) by by eapply same_mode_talking. cbn match.
    destruct (n =? px core); [by rewrite app_nil_r|]. split; [done|]. split; [done|cbn; by rewrite C].
Qed.

Lemma sync_row_spec core s c n :
  talking core s -> the_context s = Some c ->
  the_context (sync_row n s) = Some (set_cell_y n c) /\ same_mode s (sync_row n s) /\
  actions (sync_row n s) =
    actions s ++ (if (n =? py (splitCell c)) || (n =? py core) then [] else [FreezePanesRow n]).
Proof.
  intros Ht Hc. unfold sync_row. rewrite Hc. destruct (Z.eqb_spec n (py (splitCell c))) as [->|Hn]; cbn [orb].
  - rewrite app_nil_r. split; [by destruct c as [? []]|]. split; [apply same_mode_refl|done].
  - destruct (alter_context_spec (set_cell_y n) s c Hc) as (A & B & C).
    rewrite (sendSplitIndex_talking core) by by eapply same_mode_talking. cbn match.
    destruct (n =? py core); [by rewrite app_nil_r|]. split; [done|]. split; [done|cbn; by rewrite C].
Qed.

Lemma setSplitCellFromPos_spec (e : environment D) core s c kx ky :
  talking core s -> the_context s = Some c ->
  axis_index (columns e) (px (splitPos c)) = Some kx -> axis_index (rows e) (py (splitPos c)) = Some ky ->
  exists s', setSplitCellFromPos e s = Some s' /\ the_context s' = Some (Context (splitPos c) (Point kx ky)) /\
    same_mode s s' /\ actions s' = actions s ++ freeze_commands core (splitCell c) (Point kx ky).
Proof.
  intros Ht Hc Hx Hy. unfold setSplitCellFromPos. rewrite Hc, Hx, Hy. cbn [mbind option_bind].
  assert (dontSendSplitPosToCore s = false) as -> by apply Ht.
  destruct (sync_column_spec core s c kx Ht Hc) as (A1 & A2 & A3).
  destruct (sync_row_spec core (sync_column kx s) _ ky (same_mode_talking _ _ _ A2 Ht) A1) as (B1 & B2 & B3).
  eexists. split; [done|]. split; [by rewrite B1; destruct c as [? []]|]. split; [by eapply same_mode_trans|].
  rewrite B3, A3, <- app_assoc. by destruct c as [? []].
Qed.

(** Both sides agree on the frozen cell, and the split is where it starts. *)
Definition settled_at (e : environment D) (c : context) : Prop :=
  axis_index (columns e) (px (splitPos c)) = Some (px (splitCell c)) /\
  axis_start (columns e) (px (splitCell c)) = Some (px (splitPos c)) /\
  0 <= px (splitPos c) < axis_length (columns e) /\ 0 <= px (splitCell c) <= axis_last (columns e) /\
  axis_index (rows e) (py (splitPos c)) = Some (py (splitCell c)) /\
  axis_start (rows e) (py (splitCell c)) = Some (py (splitPos c)) /\
  0 <= py (splitPos c) < axis_length (rows e) /\ 0 <= py (splitCell c) <= axis_last (rows e).

(** A good geometry, and a window no larger than the sheet. *)
Definition good_environment (e : environment D) : Prop :=
  axis_good (columns e) /\ axis_good (rows e) /\
  0 <= rawMax e (px (mapSize e)) maxHorizontalSplitPercent < axis_length (columns e) /\
  0 <= rawMax e (py (mapSize e)) maxVerticalSplitPercent < axis_length (rows e).

(** The positions are some positions of the sheet, the cell is a cell of the sheet. *)
Definition on_sheet (e : environment D) (c : context) : Prop :=
  0 <= px (splitPos c) < axis_length (columns e) /\ 0 <= py (splitPos c) < axis_length (rows e) /\
  0 <= px (splitCell c) <= axis_last (columns e) /\ 0 <= py (splitCell c) <= axis_last (rows e).

Lemma freeze_commands_refl core c : freeze_commands core c c = [].
Proof. unfold freeze_commands. by rewrite !Z.eqb_refl. Qed.

Lemma setSplitPosFromCell_spec (e : environment D) core s c f x y :
  good_environment e -> talking core s -> the_context s = Some c -> on_sheet e c ->
  axis_start (columns e) (px (splitCell c)) = Some x -> axis_start (rows e) (py (splitCell c)) = Some y ->
  exists s' X Y kx ky pre, setSplitPosFromCell e f s = Some s' /\
    resolved (columns e) (getMaxSplitPosX e) x X kx /\ resolved (rows e) (getMaxSplitPosY e) y Y ky /\
    (px (splitPos c) = x -> X = x) /\ (py (splitPos c) = y -> Y = y) /\
    the_context s' = Some (Context (Point X Y) (Point kx ky)) /\ same_mode s s' /\
    actions s' = actions s ++ pre ++ freeze_commands core (splitCell c) (Point kx ky) /\ Forall paints pre.
Proof.
  intros (G1 & G2 & G3 & G4) Ht Hc (O1 & O2 & O3 & O4) Hx Hy. unfold setSplitPosFromCell. rewrite Hc, Hx, Hy.
  cbn [mbind option_bind]. unfold setSplitPos. rewrite Hc.
  destruct (setHoriz_spec e s c _ x f Hc G1 G3 O1 O3 Hx) as (s1 & X & kx & b1 & pre1 & -> & R1 & E1 & C1 & M1 & A1 & F1).
  cbn [mbind option_bind].
  destruct (setVert_spec e s1 c _ _ y f C1 G2 G4 O2 eq_refl O4 Hy) as (s2 & Y & ky & b2 & pre2 & -> & R2 & E2 & C2 & M2 & A2 & F2).
  cbn [mbind option_bind].
  assert (Ht2 : talking core s2) by (by eapply same_mode_talking, same_mode_talking).
  assert (Hc2 : the_context s2 = Some (Context (Point X Y) (splitCell c))) by (rewrite C2; by destruct c as [[] ?]).
  destruct R1 as (R11 & R12), R2 as (R21 & R22).
  destruct (b1 || b2).
  - assert (Hc3 : the_context (act SplitPosChanged s2) = Some (Context (Point X Y) (splitCell c))) by done.
    destruct (setSplitCellFromPos_spec e core (act SplitPosChanged s2) _ kx ky ltac:(done) Hc3 R11 R21) as (s3 & -> & C3 & M3 & A3).
    cbn [mbind option_bind].
    assert (Ht3 : talking core s3) by (eapply same_mode_talking; [exact M3|exact Ht2]).
    destruct (setSplitCellFromPos_spec e core s3 _ kx ky Ht3 C3 R11 R21) as (s4 & -> & C4 & M4 & A4).
    exists s4, X, Y, kx, ky, (pre1 ++ pre2 ++ [SplitPosChanged]).
    do 6 (split; [done|]).
    split; [do 3 (eapply same_mode_trans; [done|]); done|].
    cbn [splitCell] in *. rewrite freeze_commands_refl, app_nil_r in A4. rewrite A4, A3. cbn [actions act]. rewrite A2, A1.
    split; [by rewrite <- !app_assoc|]. rewrite !Forall_app. split_and!; try done. constructor; [by right; right|constructor].
  - cbn [mbind option_bind]. destruct (setSplitCellFromPos_spec e core s2 _ kx ky Ht2 Hc2 R11 R21) as (s4 & -> & C4 & M4 & A4).
    exists s4, X, Y, kx, ky, (pre1 ++ pre2). do 6 (split; [done|]).
    split; [do 2 (eapply same_mode_trans; [done|]); done|].
    rewrite A4, A2, A1. split; [by rewrite <- !app_assoc|]. rewrite !Forall_app. done.
Qed.

(** The frozen column or row, and the command to freeze it. *)
Definition along (isSplitCol : bool) (c : point) : Z := if isSplitCol then px c else py c.
Definition freeze_at (isSplitCol : bool) (c : point) (n : Z) : point := if isSplitCol then Point n (py c) else Point (px c) n.
Definition freeze_command (isSplitCol : bool) (n : Z) : action := if isSplitCol then FreezePanesColumn n else FreezePanesRow n.
Definition axis_along (isSplitCol : bool) (e : environment D) : D := if isSplitCol then columns e else rows e.
Definition max_along (isSplitCol : bool) (e : environment D) : option Z := if isSplitCol then getMaxSplitPosX e else getMaxSplitPosY e.

(** A report of what the layer has already only updates what it knows of the server. *)
Lemma report_known (e : environment D) core s c isSplitCol :
  talking core s -> the_context s = Some c ->
  onSplitStateChanged (Some e) (along isSplitCol (splitCell c)) isSplitCol s =
    Some (set_coreCell (Some (freeze_at isSplitCol core (along isSplitCol (splitCell c)))) s).
Proof.
  intros (He & Hy & _ & Hc & Hx & Hr) Hctx. unfold onSplitStateChanged. rewrite Hctx, Hc. cbn [default].
  unfold set_coreCell at 1. cbn [syncSplits]. rewrite Hy. cbn [negb]. unfold along. by rewrite Z.eqb_refl.
Qed.

(** A report of something else moves the split. *)
Lemma report_new (e : environment D) s c n isSplitCol :
  good_environment e -> talking (splitCell c) s -> the_context s = Some c -> settled_at e c ->
  n <> along isSplitCol (splitCell c) -> 0 <= n <= axis_last (axis_along isSplitCol e) ->
  exists s1 c1 pre x, onSplitStateChanged (Some e) n isSplitCol s = Some s1 /\ the_context s1 = Some c1 /\
    settled_at e c1 /\ talking (freeze_at isSplitCol (splitCell c) n) s1 /\
    axis_start (axis_along isSplitCol e) n = Some x /\
    resolved (axis_along isSplitCol e) (max_along isSplitCol e) x (along isSplitCol (splitPos c1)) (along isSplitCol (splitCell c1)) /\
    splitCell c1 = freeze_at isSplitCol (splitCell c) (along isSplitCol (splitCell c1)) /\
    actions s1 = actions s ++ pre ++
      freeze_commands (freeze_at isSplitCol (splitCell c) n) (freeze_at isSplitCol (splitCell c) n) (splitCell c1) /\
    Forall paints pre.
Proof.
  intros He Ht Hc (S1 & S2 & S3 & S4 & S5 & S6 & S7 & S8) Hn Hl.
  pose proof Ht as (T1 & T2 & T3 & T4 & _ & _).
  set (core := freeze_at isSplitCol (splitCell c) n).
  set (c' := Context (splitPos c) core).
  set (s' := alter_context ((if isSplitCol then set_cell_x else set_cell_y) n) (set_coreCell (Some core) s)).
  assert (onSplitStateChanged (Some e) n isSplitCol s = setSplitPosFromCell e false s') as ->.
  { unfold onSplitStateChanged. rewrite Hc, T4. cbn [default]. unfold set_coreCell at 1. cbn [syncSplits].
    rewrite T2. cbn [negb]. unfold along in Hn. rewrite (proj2 (Z.eqb_neq _ _) Hn). done. }
  destruct (alter_context_spec ((if isSplitCol then set_cell_x else set_cell_y) n) (set_coreCell (Some core) s) c Hc)
    as (A1 & A2 & A3). fold s' in A1, A2, A3.
  assert (Hc' : the_context s' = Some c') by (rewrite A1; by destruct isSplitCol).
  assert (Ht' : talking core s').
  { eapply same_mode_talking; [exact A2|]. repeat split; try done; unfold core; destruct isSplitCol; cbn; lia. }
  destruct He as (G1 & G2 & G3 & G4). assert (He : good_environment e) by done.
  assert (exists x, axis_start (columns e) (px core) = Some x) as [x Hx].
  { unfold core. destruct isSplitCol; cbn; [|by eexists]. destruct (axis_start_ok (columns e) n G1 Hl) as (x & -> & _). by eexists. }
  assert (exists y, axis_start (rows e) (py core) = Some y) as [y Hy].
  { unfold core. destruct isSplitCol; cbn; [by eexists|]. destruct (axis_start_ok (rows e) n G2 Hl) as (y & -> & _). by eexists. }
  destruct (setSplitPosFromCell_spec e core s' c' false x y He Ht' Hc')
    as (s1 & X & Y & kx & ky & pre & -> & (R1 & R2 & R3 & R4 & R5) & (Q1 & Q2 & Q3 & Q4 & Q5) & EX & EY & C1 & M1 & A1' & F1); try done.
  { unfold on_sheet, c', core. destruct isSplitCol; cbn; cbn in Hl; lia. }
  exists s1, (Context (Point X Y) (Point kx ky)), pre, (if isSplitCol then x else y).
  split; [done|]. split; [done|]. split; [done|]. split; [by eapply same_mode_talking|].
  unfold c' in *. cbn [splitPos splitCell] in *.
  destruct isSplitCol; cbn [along axis_along max_along freeze_at px py splitPos splitCell core] in *; subst core; cbn [px py] in *.
  - assert (Y = py (splitPos c)) as -> by (rewrite EY; congruence). assert (ky = py (splitCell c)) as -> by congruence.
    split_and!; try done. by rewrite A1', A3.
  - assert (X = px (splitPos c)) as -> by (rewrite EX; congruence). assert (kx = px (splitCell c)) as -> by congruence.
    split_and!; try done. by rewrite A1', A3.
Qed.

(** C25: Freezing panes comes to rest: when the server reports another frozen column or row,
    the layer moves the split there, or as far as the window allows, and if the cell at the
    split is not the one reported - it is hidden, or too far - asks the server once to freeze
    that one instead; the server's answer to that changes nothing more, and both sides agree.
    A visible column or row within reach is taken as reported. *)
Theorem freeze_settles (e : environment D) s c n isSplitCol :
  good_environment e -> talking (splitCell c) s -> the_context s = Some c -> settled_at e c ->
  0 <= n <= axis_last (axis_along isSplitCol e) ->
  exists s1 c1 pre, onSplitStateChanged (Some e) n isSplitCol s = Some s1 /\ the_context s1 = Some c1 /\
    settled_at e c1 /\ Forall paints pre /\
    let k := along isSplitCol (splitCell c1) in
    (k = n /\ coreCell s1 = Some (splitCell c1) /\ actions s1 = actions s ++ pre \/
     k <> n /\ actions s1 = actions s ++ pre ++ [freeze_command isSplitCol k] /\
     exists s2, onSplitStateChanged (Some e) k isSplitCol s1 = Some s2 /\ the_context s2 = Some c1 /\
       coreCell s2 = Some (splitCell c1) /\ actions s2 = actions s1) /\
    (forall x mx, axis_start (axis_along isSplitCol e) n = Some x -> axis_index (axis_along isSplitCol e) x = Some n ->
       max_along isSplitCol e = Some mx -> x <= mx -> k = n).
Proof.
  intros He Ht Hc Hs Hn. destruct (decide (n = along isSplitCol (splitCell c))) as [->|Hne].
  - rewrite (report_known e (splitCell c) s c) by done.
    eexists _, c, []. split; [done|]. split; [done|]. split; [done|]. split; [constructor|]. cbv zeta. split; [|done].
    left. split; [done|]. split; [|by rewrite app_nil_r]. destruct (splitCell c) as [a b]. by destruct isSplitCol.
  - destruct (report_new e s c n isSplitCol He Ht Hc Hs Hne Hn)
      as (s1 & c1 & pre & x & -> & Hc1 & Hs1 & Ht1 & Hx & (R1 & R2 & R3 & R4 & R5) & Hcell & Ha & Hp).
    exists s1, c1, pre. split; [done|]. split; [done|]. split; [done|]. split; [done|]. cbv zeta. split.
    + set (k := along isSplitCol (splitCell c1)) in *. destruct (decide (k = n)) as [Ek|Ek].
      * left. split; [done|]. rewrite Ek in Hcell. rewrite Ha, Hcell. split; [apply Ht1|].
        by rewrite freeze_commands_refl, app_nil_r.
      * right. split; [done|]. split.
        { rewrite Ha, Hcell. f_equal. f_equal. unfold freeze_commands, freeze_at, freeze_command.
          apply Z.eqb_neq in Ek. destruct isSplitCol; cbn [px py]; by rewrite Ek, Z.eqb_refl. }
        unfold k. rewrite (report_known e _ s1 c1) by done. eexists. split; [done|]. split; [done|]. split; [|done].
        cbn [coreCell set_coreCell]. fold k. rewrite Hcell. by destruct isSplitCol.
    + intros x' mx Hx' Hi Hm Hle. assert (x' = x) as -> by congruence.
      destruct R5 as [E|[E1 E2]]; [rewrite E in R1; congruence|].
      assert (mx = along isSplitCol (splitPos c1)) as -> by congruence.
      assert (along isSplitCol (splitPos c1) = x) as E by lia. rewrite E in R1. congruence.
Qed.
End laws.

(** ** The dimensions of the sheet geometry *)

(** A number that is neither undefined nor [NaN]. *)
Definition defined (x : option num) : option Z := match x with Some n => n | None => None end.

#[export] Instance dimension_axis : GridAxis dimension := {
  axis_start d i := match getElementData d i with Some (Some r) => startpos r | _ => None end;
  axis_index d p := defined (getIndexFromPos d p CorePixels);
  axis_snap d p := defined (getSnapPos d p CorePixels)
}.

Definition last_element (d : dimension) : Z := List.last (map sp_index (sizes d)) (-1).
Definition size_in_pixels (d : dimension) : Z := psum (core_size d (visible_size d)) (last_element d + 1).

Lemma freeze_chain_last p l m : chain p l m -> List.last l p = m.
Proof.
  revert p. induction l as [|e [|e' l] IH]; intros p; cbn [chain]; [done|intros [_ H]; exact H|].
  intros [H1 H2]. rewrite <- (IH e H2). cbn [List.last]. clear. revert e'. induction l as [|e'' l IH]; intros e'; [done|apply IH].
Qed.

Lemma last_element_eq d m : source_ok d m -> last_element d = m.
Proof. intros Hs. apply freeze_chain_last. exact (so_sizes _ _ Hs). Qed.

Lemma dimension_start d m l i :
  dimension_ok d m (visible_size d) l -> 0 <= i <= m ->
  axis_start d i = Some (psum (core_size d (visible_size d)) i).
Proof. intros Hd Hi. cbn. unfold getElementData. by rewrite (element_data _ _ _ _ Hd) by done. Qed.

Lemma dimension_index d m l i p :
  dimension_ok d m (visible_size d) l -> 2 * tileSizePixels d <= tileSizeTwips d -> 0 <= i <= m ->
  psum (core_size d (visible_size d)) i <= p < psum (core_size d (visible_size d)) (i + 1) ->
  axis_index d p = Some i /\ axis_snap d p = Some (psum (core_size d (visible_size d)) i).
Proof.
  intros Hd Hz Hi Hp. cbn. unfold getIndexFromPos, getSnapPos, getSpanAndIndexFromPos.
  destruct (found_core _ _ _ _ Hd i p Hz Hi Hp) as (k & v & -> & Hk & Hv).
  cbn [fmap option_fmap option_map mbind option_bind is_index id].
  by rewrite (found_data_eq _ _ _ _ _ k _ _ Hd).
Qed.

#[export] Program Instance dimension_axis_laws : GridAxisLaws dimension := {
  axis_good d := good_dimension d /\ 2 * tileSizePixels d <= tileSizeTwips d;
  axis_last := last_element;
  axis_length := size_in_pixels
}.
Next Obligation.
  intros d i [(m & l & Hs & Hd) Hz] Hi. pose proof (last_element_eq _ _ Hs) as El. unfold size_in_pixels. rewrite El in *.
  exists (psum (core_size d (visible_size d)) i). rewrite (dimension_start d m l i Hd Hi). split; [done|].
  rewrite <- (psum_0 (core_size d (visible_size d))) at 1. split; apply (core_mono _ _ _ _ Hd); lia.
Qed.
Next Obligation.
  intros d p [(m & l & Hs & Hd) Hz] Hp. pose proof (last_element_eq _ _ Hs) as El. unfold size_in_pixels in Hp. rewrite El in *.
  destruct (psum_covers _ _ _ Hp) as (i & Hi & Hpi). destruct (dimension_index d m l i p Hd Hz Hi Hpi) as [Ei Es].
  exists i, (psum (core_size d (visible_size d)) i). rewrite (dimension_start d m l i Hd Hi).
  destruct (dimension_index d m l i (psum (core_size d (visible_size d)) i) Hd Hz Hi ltac:(lia)) as [Ei' _].
  split_and!; try done; try lia. rewrite <- (psum_0 (core_size d (visible_size d))) at 1. apply (core_mono _ _ _ _ Hd); lia.
Qed.
Next Obligation.
  intros d i x [(m & l & Hs & Hd) Hz] Hi Hx Hlt. pose proof (last_element_eq _ _ Hs) as El.
  unfold size_in_pixels in Hlt. rewrite El in *. rewrite (dimension_start d m l i Hd Hi) in Hx. injection Hx as <-.
  assert (H0 : 0 <= psum (core_size d (visible_size d)) i).
  { rewrite <- (psum_0 (core_size d (visible_size d))) at 1. apply (core_mono _ _ _ _ Hd); lia. }
  destruct (psum_covers _ _ _ (conj H0 Hlt)) as (j & Hj & Hpj). exists j.
  destruct (dimension_index d m l j _ Hd Hz Hj Hpj) as [Ej _]. rewrite (dimension_start d m l j Hd Hj). split_and!; try done; try lia.
  f_equal. destruct (Z.le_gt_cases i j) as [H|H].
  - pose proof (core_mono _ _ _ _ Hd i j). lia.
  - pose proof (core_mono _ _ _ _ Hd (j + 1) i). lia.
Qed.

(** ** A sheet *)

Definition sample_environment : environment dimension := Environment sample_dimension sample_dimension 1 1 (Point 540 540).
Definition sample_context : context := Context (Point 85 0) (Point 1 0).
Definition sample_layer : layer :=
  Layer {[0 := sample_context]} (Some 0) (Some (Point 1 0)) true true false true true [].

(** Columns 5 and 6 are hidden: the server freezes up to column 6, the layer asks for column 7
    instead. *)
Example freeze_hidden :
  actions <$> onSplitStateChanged (Some sample_environment) 6 true sample_layer =
    Some [UpdateXSplitter; SplitPosChanged; FreezePanesColumn 7].
Proof. vm_compute. reflexivity. Qed.

Lemma sample_environment_good : good_environment sample_environment.
Proof.
  assert (axis_good sample_dimension) by (split; [exact sample_dimension_good|vm_compute; discriminate]).
  repeat split; try apply sample_dimension_good; try (vm_compute; discriminate); try (vm_compute; reflexivity).
Qed.

Lemma freeze_settles_witness :
  let s := sample_layer in let e := sample_environment in
  exists s1 c1 pre, onSplitStateChanged (Some e) 6 true s = Some s1 /\ the_context s1 = Some c1 /\
    settled_at e c1 /\ Forall paints pre /\
    let k := along true (splitCell c1) in
    (k = 6 /\ coreCell s1 = Some (splitCell c1) /\ actions s1 = actions s ++ pre \/
     k <> 6 /\ actions s1 = actions s ++ pre ++ [freeze_command true k] /\
     exists s2, onSplitStateChanged (Some e) k true s1 = Some s2 /\ the_context s2 = Some c1 /\
       coreCell s2 = Some (splitCell c1) /\ actions s2 = actions s1) /\
    (forall x mx, axis_start (axis_along true e) 6 = Some x -> axis_index (axis_along true e) x = Some 6 ->
       max_along true e = Some mx -> x <= mx -> k = 6).
Proof.
  intros s e. apply (freeze_settles e s sample_context 6 true).
  - exact sample_environment_good.
  - repeat split; discriminate.
  - reflexivity.
  - unfold settled_at. split_and!; vm_compute; (reflexivity || discriminate).
  - vm_compute. split; discriminate.
Defined.

(** The first column of a sheet is hidden and nothing is frozen. *)
Definition first_hidden : dimension :=
  (update_dimension (DimensionData (Some "1280:12 ") (Some "1:0 12 ") (Some "0:12 ") None) (set_tile 3840 256 new_dimension)).1.
Definition unfrozen_layer : layer :=
  Layer {[0 := new_context]} (Some 0) (Some (Point 0 0)) true true false true true [].

(** A change of the zoom then freezes that column. *)
Example zoom_freezes_hidden_column :
  actions <$> onZoomRowColumns (Environment first_hidden sample_dimension 1 1 (Point 540 540)) unfrozen_layer =
    Some [FreezePanesColumn 1].
Proof. vm_compute. reflexivity. Qed.

(** As long as the first column and row are visible, nothing is frozen by a change of zoom. *)
Example zoom_keeps_unfrozen :
  actions <$> onZoomRowColumns sample_environment unfrozen_layer = Some [].
Proof. vm_compute. reflexivity. Qed.
