(* ===== verification/Overlay.v ===== *)
(** * The overlay

    Models [CanvasOverlay] (src/browser/src/layer/vector/CanvasOverlay.ts) and [CPath]
    (CPath.ts): the paths painted over the tiles - cursors, selections, splitters - the order
    they are painted in, the parts of the panes they are painted to, where their points end
    up, and which of them is under the mouse; and the popup of a path with its timer.

    Coordinates are counted in half pixels as in [Shapes].  The renderings of the canvas and
    of popups are logged; the animation of a zoom, which paints in scaled coordinates, is left
    out. *)

From S2P Require Import Prelude Geometry Sorts Shapes PreFetch Panes.
Local Open Scope Z_scope.

(** ** Paths *)

(** [PathGroupType], from bottom to top. *)
Inductive group_type := CellSelection | TextSelection | CellCursor | Other.

Definition group_number (g : group_type) : Z :=
  match g with CellSelection => 0 | TextSelection => 1 | CellCursor => 2 | Other => 3 end.

(** A path.  [zIndex]: [None] is [-Infinity]; [path_bounds]: [None] is not valid. *)
Record path := Path {
  viewId : Z;
  groupType : group_type;
  zIndex : option Z;
  fixed : bool;
  path_bounds : option bounds;
  underMouse : bool;
  popupOpen : option bool;
  popupTimer : bool
}.

Definition set_underMouse (b : bool) (p : path) : path :=
  Path (viewId p) (groupType p) (zIndex p) (fixed p) (path_bounds p) b (popupOpen p) (popupTimer p).
Definition set_path_bounds (b : option bounds) (p : path) : path :=
  Path (viewId p) (groupType p) (zIndex p) (fixed p) b (underMouse p) (popupOpen p) (popupTimer p).
Definition set_popup (o : option bool) (t : bool) (p : path) : path :=
  Path (viewId p) (groupType p) (zIndex p) (fixed p) (path_bounds p) (underMouse p) o t.

(** The constructor: a new path is above those made before it.  The view is that of another
    user, or our own: -1. *)
Definition new_path (id : Z) (optViewId : option Z) (g : group_type) (fix_ : bool) (b : option bounds) : path :=
  Path (default (-1) optViewId) g (Some id) fix_ b false None false.

(** [CSplitterLine]: fixed, and meant to be behind all others. *)
Definition new_splitter (b : option bounds) : path := Path (-1) Other None true b false None false.

(** ** Popups *)

(** [bindPopup]: the handlers of a path open and close its popup. *)
Definition bindPopup (p : path) : path := set_popup (Some (default false (popupOpen p))) (popupTimer p) p.

Definition delayClosePopup (p : path) : path := set_popup (popupOpen p) true p.
Definition closePopup (p : path) : path := set_popup ((fun _ => false) <$> popupOpen p) (popupTimer p) p.
Definition openPopup (p : path) : path :=
  match popupOpen p with
  | Some false => delayClosePopup (set_popup (Some true) (popupTimer p) p)
  | _ => p
  end.

(** The timer of [delayClosePopup] fires. *)
Definition popup_timeout (p : path) : path :=
  if popupTimer p then closePopup (set_popup (popupOpen p) false p) else p.

Inductive path_event := EAdd | ERemove | EMouseEnter (pos : point) | EMouseLeave (pos : point).

(** [fire], with the handlers of [bindPopup]. *)
Definition fire (e : path_event) (p : path) : path :=
  match popupOpen p with
  | None => p
  | Some _ =>
      match e with
      | EAdd => openPopup p
      | ERemove => closePopup p
      | EMouseEnter _ => openPopup p
      | EMouseLeave _ => delayClosePopup p
      end
  end.

(** ** The order of painting *)

(** The difference of two layers, or its sign where one is infinite. *)
Definition z_difference (a b : option Z) : num :=
  match a, b with
  | Some x, Some y => Some (x - y)
  | Some _, None => Some 1
  | None, Some _ => Some (-1)
  | None, None => None
  end.

Definition groupwise (a b : path) : num :=
  if group_number (groupType a) =? group_number (groupType b) then z_difference (zIndex a) (zIndex b)
  else Some (group_number (groupType a) - group_number (groupType b)).

(** [renderOrderComparator] *)
Definition renderOrderComparator (a b : path) : num :=
  if (viewId a =? -1) && (viewId b =? -1) then groupwise a b
  else if viewId a =? -1 then Some 1
  else if viewId b =? -1 then Some (-1)
  else if viewId a =? viewId b then groupwise a b
  else Some (viewId a - viewId b).

(** ** The overlay and what it is painted on *)

(** The visible area of the document, the split if the document has panes, the width of the
    section, and whether the sheet runs from right to left. *)
Record view := View {
  view_bounds : bounds;
  splitPanes : option point;
  sectionWidth : Z;
  isCalcRTL : bool;
  waitForTiles : bool
}.

(** What is painted of a path on a pane: [updatePath (paintArea, paneBounds, freezePane)]. *)
Record pane_paint := PanePaint { paintArea : bounds; paneBounds : bounds; freezePane : option (bool * bool) }.

Inductive overlay_log :=
  | Fired (id : Z) (e : path_event)
  | Painted (id : Z) (panes : list pane_paint)
  | SetPen
  | RequestReDraw.

(** [paths]: the ids in the order of the map; [heap]: the path objects. *)
Record overlay := Overlay { paths : list Z; heap : Z -> path; log : list overlay_log }.

Definition set_paths l o := Overlay l (heap o) (log o).
Definition set_path (id : Z) (p : path) o := Overlay (paths o) (fun j => if j =? id then p else heap o j) (log o).
Definition say e o := Overlay (paths o) (heap o) (log o ++ [e]).

(** [path.fire], logged. *)
Definition fire_path (e : path_event) (id : Z) (o : overlay) : overlay :=
  say (Fired id e) (set_path id (fire e (heap o id)) o).

(** ** Painting *)

(** [getSplitPanesContext ().getPxBoundList ()], or the view. *)
Definition pane_list (v : view) : list bounds :=
  match splitPanes v with Some split => getPxBoundList split (view_bounds v) | None => [view_bounds v] end.

Definition max_min (f : point -> Z) (l : list bounds) : Z := foldl (fun m b => Z.max m (f (bmin b))) 0 l.

(** The part of an area on a pane. *)
Definition clip_area (area pane : bounds) : bounds :=
  Bounds (Point (Z.max (px (bmin area)) (px (bmin pane))) (Z.max (py (bmin area)) (py (bmin pane))))
         (Point (Z.min (px (bmax area)) (px (bmax pane))) (Z.min (py (bmax area)) (py (bmax pane)))).

(** [updatePathAllPanes]: the calls of [updatePath]. *)
Definition updatePathAllPanes (v : view) (area : option bounds) (p : path) : list pane_paint :=
  if fixed p then
    let fixedMapArea := mk_bounds (Point 0 0) (getSize (view_bounds v)) in
    [PanePaint fixedMapArea fixedMapArea None]
  else
    let panes := pane_list v in
    let maxXBound := max_min px panes in
    let maxYBound := max_min py panes in
    omap (fun paneArea =>
      let freezeX := (px (bmin paneArea) =? 0) && negb (maxXBound =? 0) in
      let freezeY := (py (bmin paneArea) =? 0) && negb (maxYBound =? 0) in
      match area with
      | None => Some (PanePaint paneArea paneArea (Some (freezeX, freezeY)))
      | Some area =>
          if intersects paneArea area then Some (PanePaint (clip_area area paneArea) paneArea (Some (freezeX, freezeY)))
          else None
      end) panes.

(** [intersectsVisible] and [isPathVisible] *)
Definition overlay_intersectsVisible (v : view) (b : bounds) : bool :=
  match splitPanes v with
  | Some split => intersectsVisible b split (view_bounds v)
  | None => intersects (view_bounds v) b
  end.

Definition isPathVisible (v : view) (p : path) : bool :=
  match path_bounds p with Some b => overlay_intersectsVisible v b | None => false end.

(** [draw] *)
Definition draw (v : view) (area : option bounds) (o : overlay) : overlay :=
  if waitForTiles v then o
  else
    foldl (fun o id => if isPathVisible v (heap o id) then say (Painted id (updatePathAllPanes v area (heap o id))) o else o) o
      (js_sort (fun a b => renderOrderComparator (heap o a) (heap o b)) (paths o)).

(** [redraw], for [updatePath] and [updateStyle]; [oldBounds]: [None] is not valid. *)
Definition redraw (v : view) (id : Z) (oldBounds : option bounds) (o : overlay) : overlay :=
  if waitForTiles v then o
  else if negb (isPathVisible v (heap o id)) &&
          match oldBounds with Some b => negb (overlay_intersectsVisible v b) | None => true end then o
  else say RequestReDraw o.

(** ** Adding and removing *)

Definition initPath (v : view) (id : Z) (o : overlay) : overlay :=
  let o := if decide (id ∈ paths o) then o else set_paths (paths o ++ [id]) o in
  let o := say SetPen (fire_path EAdd id o) in
  say (Painted id (updatePathAllPanes v None (heap o id))) o.

Definition initPathGroup (v : view) (ids : list Z) (o : overlay) : overlay := foldl (fun o id => initPath v id o) o ids.

Definition removePath (id : Z) (o : overlay) : overlay :=
  let o := fire_path ERemove id o in
  say RequestReDraw (set_paths (filter (fun j => j <> id) (paths o)) o).

Definition removePathGroup (ids : list Z) (o : overlay) : overlay := foldl (fun o id => removePath id o) o ids.

(** ** The mouse *)

(** The position in the document of a position on the section. *)
Definition document_position (v : view) (position : point) : point :=
  let splitPos := default (Point 0 0) (splitPanes v) in
  let b := view_bounds v in
  let x := if isCalcRTL v then px (bmax b) - px (bmin b) - px position else px position in
  Point (if px splitPos <? x then x + px (bmin b) else x)
        (if py splitPos <? py position then py position + py (bmin b) else py position).

Definition mouse_over (mousePos : point) (o : overlay) (id : Z) : overlay :=
  let p := heap o id in
  match path_bounds p with
  | None => o
  | Some b =>
      let mouseOverPath := contains_point b mousePos in
      if mouseOverPath && negb (underMouse p) then
        let o := fire_path (EMouseEnter mousePos) id o in set_path id (set_underMouse true (heap o id)) o
      else if negb mouseOverPath && underMouse p then
        let o := fire_path (EMouseLeave mousePos) id o in set_path id (set_underMouse false (heap o id)) o
      else o
  end.

(** [onMouseMove] *)
Definition onMouseMove (v : view) (position : point) (o : overlay) : overlay :=
  foldl (mouse_over (document_position v position)) o (paths o).

(** ** From the document to the canvas *)

(** [OverlayTransform]: scaled, then translated. *)
Record transform := Transform { translationAmount : point; scaleAmount : point }.

Definition transform_point (t : transform) (p : point) : point :=
  Point (px p * px (scaleAmount t) - px (translationAmount t)) (py p * py (scaleAmount t) - py (translationAmount t)).

Definition transform_bounds (t : transform) (b : bounds) : bounds :=
  mk_bounds (transform_point t (bmin b)) (transform_point t (bmax b)).

(** [TransformationsList] *)
Definition applyToPoint (l : list transform) (p : point) : point := foldl (fun p t => transform_point t p) p l.
Definition applyToBounds (l : list transform) (b : bounds) : bounds := foldl (fun b t => transform_bounds t b) b l.

(** [ctStart] while no zoom is animated: the transformations for a pane. *)
Definition pane_transform (v : view) (paneBounds : bounds) : list transform :=
  Transform (Point (if px (bmin paneBounds) =? 0 then 0 else px (bmin (view_bounds v)))
                   (if py (bmin paneBounds) =? 0 then 0 else py (bmin (view_bounds v)))) (Point 1 1) ::
  (if isCalcRTL v then [Transform (Point (- sectionWidth v) 0) (Point (-1) 1)] else []).

(** [updatePoly]: the clip area and the lines on the canvas. *)
Definition updatePoly (v : view) (parts : list (list point)) (pp : pane_paint) : option (bounds * list (list point)) :=
  match parts with
  | [] => None
  | _ => Some (applyToBounds (pane_transform v (paneBounds pp)) (paintArea pp),
               map (map (applyToPoint (pane_transform v (paneBounds pp)))) parts)
  end.

(** [setPointSet] of a path on the overlay. *)
Definition setPointSet (v : view) (id : Z) (s : point_set) (o : overlay) : overlay :=
  let old := path_bounds (heap o id) in
  let p := set_path_bounds (updateRingsBounds s).2 (heap o id) in
  let o := set_path id (if empty s then closePopup p else p) o in
  redraw v id old (say SetPen o).

(** ** The order *)

Definition z_le (a b : option Z) : Prop :=
  match a, b with Some x, Some y => x <= y | None, _ => True | Some _, None => False end.

(** Paths of other users are below our own; of one user, groups are in order, and in a group
    layers are. *)
Definition not_above (a b : path) : Prop :=
  (viewId a <> -1 /\ (viewId b = -1 \/ viewId a < viewId b)) \/
  (viewId a = viewId b /\
   (group_number (groupType a) < group_number (groupType b) \/
    groupType a = groupType b /\ z_le (zIndex a) (zIndex b))).

Lemma group_number_inj g h : group_number g = group_number h -> g = h.
Proof. by destruct g, h. Qed.

Lemma z_le_trans a b c : z_le a b -> z_le b c -> z_le a c.
Proof. destruct a, b, c; cbn; try done. lia. Qed.

#[export] Instance not_above_trans : Transitive not_above.
Proof.
  intros a b c [H1|(E1 & H1)] [H2|(E2 & H2)].
  - left. lia.
  - left. lia.
  - left. lia.
  - right. split; [lia|]. destruct H1 as [H1|[G1 H1]], H2 as [H2|[G2 H2]]; [left; lia|left; by rewrite <- G2|left; by rewrite G1|].
    right. split; [congruence|by eapply z_le_trans].
Qed.

Lemma groupwise_le a b :
  viewId a = viewId b -> if cmp_le groupwise a b then not_above a b else not_above b a.
Proof.
  intros Ev. unfold cmp_le, groupwise, not_above.
  destruct (Z.eqb_spec (group_number (groupType a)) (group_number (groupType b))) as [Eg|Ng].
  - pose proof (group_number_inj _ _ Eg). destruct (zIndex a) as [x|], (zIndex b) as [y|]; cbn;
      try (destruct (Z.leb_spec (x - y) 0)); right; (split; [done|]); right; (split; [done|]); cbn; lia || done.
  - destruct (Z.leb_spec (group_number (groupType a) - group_number (groupType b)) 0); right; split; try done; left; lia.
Qed.

Lemma render_le a b :
  if cmp_le renderOrderComparator a b then not_above a b else not_above b a.
Proof.
  pose proof (groupwise_le a b) as Hg. unfold cmp_le in *. unfold renderOrderComparator.
  destruct (Z.eqb_spec (viewId a) (-1)) as [Ea|Na], (Z.eqb_spec (viewId b) (-1)) as [Eb|Nb]; cbn [andb].
  - apply Hg. lia.
  - cbn. left. lia.
  - cbn. left. lia.
  - destruct (Z.eqb_spec (viewId a) (viewId b)) as [E|N]; [by apply Hg|].
    destruct (Z.leb_spec (viewId a - viewId b) 0); left; lia.
Qed.

Lemma sort_paths (f : Z -> path) l :
  StronglySorted (fun i j => not_above (f i) (f j)) (js_sort (fun a b => renderOrderComparator (f a) (f b)) l).
Proof.
  apply (js_sort_sorted _ (fun _ _ => True)).
  - intros i j k. apply not_above_trans.
  - intros i j E _. pose proof (render_le (f i) (f j)) as H. unfold cmp_le in *. by rewrite E in H.
  - intros i j E _. pose proof (render_le (f i) (f j)) as H. unfold cmp_le in *. by rewrite E in H.
  - apply StronglySorted_true.
Qed.

(** A draw paints exactly the paths that are in view, each once, from bottom to top: those
    of other users before our own, user by user, selections before cursors before others, and
    in each group by layer. *)
Theorem draw_in_order v area o :
  waitForTiles v = false ->
  exists ids,
    log (draw v area o) = log o ++ map (fun id => Painted id (updatePathAllPanes v area (heap o id))) ids /\
    ids ≡ₚ filter (fun id => isPathVisible v (heap o id) = true) (paths o) /\
    StronglySorted (fun i j => not_above (heap o i) (heap o j)) ids.
Proof.
  intros Hw. unfold draw. rewrite Hw.
  set (sorted := js_sort (fun a b => renderOrderComparator (heap o a) (heap o b)) (paths o)).
  exists (filter (fun id => isPathVisible v (heap o id) = true) sorted). split_and!.
  - assert (forall o', heap o' = heap o -> log (foldl (fun o id => if isPathVisible v (heap o id) then
        say (Painted id (updatePathAllPanes v area (heap o id))) o else o) o' sorted) =
      log o' ++ map (fun id => Painted id (updatePathAllPanes v area (heap o id)))
        (filter (fun id => isPathVisible v (heap o id) = true) sorted)) as H; [|by apply H].
    induction sorted as [|id l IH]; intros o' Ho; [by rewrite app_nil_r|]. cbn [foldl]. rewrite filter_cons, Ho.
    destruct (isPathVisible v (heap o id)).
    + rewrite IH by done. cbn [log say]. rewrite decide_True, <- app_assoc by done. done.
    + rewrite IH by done. rewrite decide_False by done. done.
  - unfold sorted. by rewrite js_sort_perm.
  - apply sorted_filter, sort_paths.
Qed.

(** ** Areas of the panes *)

Lemma clip_area_spec a b p :
  contains_point (clip_area a b) p = contains_point a p && contains_point b p.
Proof. unfold contains_point, clip_area. cbn [px py bmin bmax]. lia. Qed.

(** A path that is not fixed is painted to every pane, and only where the area to paint
    and the pane overlap: a place is painted on a pane exactly when both contain it. *)
Theorem paints_all_panes v area p r q :
  fixed p = false -> valid_bounds area -> r ∈ pane_list v -> valid_bounds r ->
  (contains_point area q = true /\ contains_point r q = true) <->
  exists pp, pp ∈ updatePathAllPanes v (Some area) p /\ paneBounds pp = r /\ contains_point (paintArea pp) q = true.
Proof.
  intros Hf Ha Hr Hv. unfold updatePathAllPanes. rewrite Hf. split.
  - intros [H1 H2]. assert (Hi : intersects r area = true) by (apply intersects_spec; [done|done|eauto]).
    eexists (PanePaint (clip_area area r) r _). cbn [paneBounds paintArea]. rewrite clip_area_spec, H1, H2.
    split; [|done]. apply list_elem_of_omap. exists r. split; [done|]. rewrite Hi. reflexivity.
  - intros (pp & (r' & Hr' & E)%list_elem_of_omap & Hp & Hq).
    destruct (intersects r' area); [|done]. injection E as <-. cbn [paneBounds paintArea] in *. subst r'.
    rewrite clip_area_spec in Hq. by apply andb_true_iff in Hq.
Qed.

(** ** What the mouse is over *)

(** Positions without those in the first row or column of pixels of a part that scrolls. *)
Definition off_edge (v : view) (p : point) : Prop :=
  let split := default (Point 0 0) (splitPanes v) in
  (px (bmin (view_bounds v)) = 0 \/ px p <> px (bmin (view_bounds v)) + px split) /\
  (py (bmin (view_bounds v)) = 0 \/ py p <> py (bmin (view_bounds v)) + py split).

(** A view and its split. *)
Definition good_view (v : view) : Prop :=
  let split := default (Point 0 0) (splitPanes v) in
  let b := view_bounds v in
  0 <= px split /\ 0 <= py split /\ 0 <= px (bmin b) /\ 0 <= py (bmin b) /\
  px (bmin b) + px split <= px (bmax b) /\ py (bmin b) + py split <= py (bmax b) /\
  sectionWidth v = px (bmax b) - px (bmin b).

(** Along one axis a pane is fixed, from 0 to the split, or scrolls. *)
Lemma pane_axes v r :
  good_view v -> r ∈ pane_list v ->
  let split := default (Point 0 0) (splitPanes v) in
  let b := view_bounds v in
  (px (bmin r) = 0 /\ px (bmax r) = px split \/ px (bmin r) = px (bmin b) + px split) /\
  (py (bmin r) = 0 /\ py (bmax r) = py split \/ py (bmin r) = py (bmin b) + py split).
Proof.
  intros (H1 & H2 & H3 & H4 & H5 & H6 & _). unfold pane_list.
  destruct v as [[[ax ay] [bx by_]] [[sx sy]|] w rtl wait]; cbn [splitPanes view_bounds default bmin bmax px py] in *.
  - unfold getPxBoundList, point_add. cbn [px py bmin bmax].
    destruct (Z.eqb_spec sx 0) as [->|Hx], (Z.eqb_spec sy 0) as [->|Hy]; cbn [negb andb app];
      rewrite ?mk_bounds_ordered by (cbn [px py]; lia); rewrite ?elem_of_cons, elem_of_nil;
      intros Hr; destruct_or?; try done; subst r; cbn in *; lia.
  - intros ->%list_elem_of_singleton. cbn. lia.
Qed.

(** The mouse is over what is painted under it: the position of the mouse that shows a
    point of a pane is taken for that point, also where the sheet runs from right to left and
    on panes that do not scroll - except for the first row and column of pixels of what
    scrolls. *)
Theorem mouse_over_shown v r p :
  good_view v -> r ∈ pane_list v -> inside r p -> off_edge v p ->
  document_position v (applyToPoint (pane_transform v r) p) = p.
Proof.
  intros Hv Hr Hp [Ex Ey]. destruct (pane_axes v r Hv Hr) as [Ax Ay]. destruct Hp as [Px Py].
  destruct Hv as (H1 & H2 & H3 & H4 & H5 & H6 & Hw). destruct p as [x y]. cbn [px py] in *.
  unfold document_position, pane_transform.
  destruct (isCalcRTL v); cbn [applyToPoint foldl transform_point px py translationAmount scaleAmount];
    destruct (Z.eqb_spec (px (bmin r)) 0), (Z.eqb_spec (py (bmin r)) 0); f_equal; case_match; to_prop; lia.
Qed.

(** With the pointer at the left edge of a view that was scrolled, the position is taken for
    one at the start of the document. *)
Example mouse_edge_missed :
  let v := View (Bounds (Point 200 100) (Point 2200 1700)) None 2000 false false in
  document_position v (Point 0 300) = Point 0 400 /\
  applyToPoint (pane_transform v (view_bounds v)) (Point 200 400) = Point 0 300.
Proof. split; reflexivity. Qed.

(** ** Events of the overlay *)

Inductive overlay_step (v : view) : overlay -> overlay -> Prop :=
  | step_init id o : overlay_step v o (initPath v id o)
  | step_remove id o : overlay_step v o (removePath id o)
  | step_mouse position o : overlay_step v o (onMouseMove v position o)
  | step_draw area o : overlay_step v o (draw v area o)
  | step_redraw id b o : overlay_step v o (redraw v id b o)
  | step_shape id s o : overlay_step v o (setPointSet v id s o)
  | step_bind id o : overlay_step v o (set_path id (bindPopup (heap o id)) o)
  | step_timeout id o : overlay_step v o (set_path id (popup_timeout (heap o id)) o).

(** The view may change between events. *)
Definition overlay_moves (o o' : overlay) : Prop := exists v, overlay_step v o o'.

(** What a path is told of the mouse: [true] for entering. *)
Definition mouse_events (id : Z) (l : list overlay_log) : list bool :=
  omap (fun e => match e with
    | Fired j (EMouseEnter _) => if j =? id then Some true else None
    | Fired j (EMouseLeave _) => if j =? id then Some false else None
    | _ => None
    end) l.

(** Entering and leaving in turn, from [under] on: where the mouse is at the end. *)
Fixpoint alternate (under : bool) (l : list bool) : option bool :=
  match l with
  | [] => Some under
  | e :: l => if eqb e under then None else alternate e l
  end.

Lemma mouse_events_app id l k : mouse_events id (l ++ k) = mouse_events id l ++ mouse_events id k.
Proof. apply omap_app. Qed.

Lemma alternate_snoc u l w e : alternate u l = Some w -> e <> w -> alternate u (l ++ [e]) = Some e.
Proof.
  revert u. induction l as [|x l IH]; intros u; cbn.
  - intros [= ->] He. by destruct e, w.
  - destruct (eqb x u); [done|]. apply IH.
Qed.

(** A path's own part of the invariant: it is told of the mouse in turn, and an open popup
    has a timer that will close it. *)
Definition path_ok (o : overlay) (id : Z) : Prop :=
  alternate false (mouse_events id (log o)) = Some (underMouse (heap o id)) /\
  (popupOpen (heap o id) = Some true -> popupTimer (heap o id) = true).

Definition overlay_ok (o : overlay) : Prop := NoDup (paths o) /\ forall id, path_ok o id.

(** Popups move on their own. *)
Definition popup_ok (p : path) : Prop := popupOpen p = Some true -> popupTimer p = true.

Lemma path_popup o id : path_ok o id -> popup_ok (heap o id).
Proof. by intros [_ H]. Qed.

Lemma fire_popup_ok e p : popup_ok p -> popup_ok (fire e p).
Proof. unfold popup_ok, fire, openPopup, closePopup, delayClosePopup. by destruct (popupOpen p) as [[]|] eqn:E, e; cbn; rewrite ?E. Qed.

Lemma fire_underMouse e p : underMouse (fire e p) = underMouse p.
Proof. unfold fire, openPopup. by destruct (popupOpen p) as [[]|], e. Qed.

Lemma closePopup_ok p : popup_ok (closePopup p).
Proof. unfold popup_ok, closePopup. cbn. by destruct (popupOpen p). Qed.

(** Steps that tell a path nothing of the mouse and leave its flag alone. *)
Lemma quiet_ok o o' :
  (forall id, mouse_events id (log o') = mouse_events id (log o)) ->
  (forall id, underMouse (heap o' id) = underMouse (heap o id)) ->
  (forall id, popup_ok (heap o' id)) -> (forall id, path_ok o id) -> forall id, path_ok o' id.
Proof. intros Hl Hu Hp Hok id. split; [rewrite Hl, Hu; apply Hok|apply Hp]. Qed.

Lemma say_quiet e o : (forall id, mouse_events id [e] = []) -> forall id, mouse_events id (log (say e o)) = mouse_events id (log o).
Proof. intros He id. cbn [say log]. by rewrite mouse_events_app, He, app_nil_r. Qed.

Lemma path_ok_say e o : (forall id, mouse_events id [e] = []) -> (forall id, path_ok o id) -> forall id, path_ok (say e o) id.
Proof. intros He Hok. apply (quiet_ok o); [by apply say_quiet|done|intros j; exact (path_popup o j (Hok j))|done]. Qed.

Lemma path_ok_set id p o :
  underMouse p = underMouse (heap o id) -> popup_ok p -> (forall j, path_ok o j) -> forall j, path_ok (set_path id p o) j.
Proof.
  intros Hu Hp Hok. apply (quiet_ok o); [done| | |done]; intros j; cbn [set_path heap];
    destruct (Z.eqb_spec j id) as [->|]; [done|done|done|exact (path_popup o j (Hok j))].
Qed.

Lemma path_ok_fire e id o :
  e = EAdd \/ e = ERemove -> (forall j, path_ok o j) -> forall j, path_ok (fire_path e id o) j.
Proof.
  intros He Hok. unfold fire_path. apply path_ok_say; [by destruct He as [->| ->]|].
  apply path_ok_set; [apply fire_underMouse|exact (fire_popup_ok e _ (path_popup o id (Hok id)))|done].
Qed.

Lemma path_ok_draw v area o : (forall j, path_ok o j) -> forall j, path_ok (draw v area o) j.
Proof.
  intros Hok. unfold draw. destruct (waitForTiles v); [done|].
  generalize (js_sort (fun a b => renderOrderComparator (heap o a) (heap o b)) (paths o)). intros l.
  revert o Hok. induction l as [|id l IH]; intros o Hok; cbn [foldl]; [done|]. apply IH.
  destruct (isPathVisible v (heap o id)); [|done]. by apply path_ok_say.
Qed.

Lemma path_ok_redraw v id b o : (forall j, path_ok o j) -> forall j, path_ok (redraw v id b o) j.
Proof. intros Hok. unfold redraw. destruct (waitForTiles v); [done|]. destruct (_ && _); [done|]. by apply path_ok_say. Qed.

(** The fields [mouse_over] keeps, and what it makes of the path itself. *)
Lemma mouse_over_spec pos o id :
  (forall j, path_ok o j) ->
  paths (mouse_over pos o id) = paths o /\ (forall j, path_ok (mouse_over pos o id) j) /\
  (forall j, path_bounds (heap (mouse_over pos o id) j) = path_bounds (heap o j)) /\
  (forall j, j <> id -> underMouse (heap (mouse_over pos o id) j) = underMouse (heap o j)) /\
  (forall b, path_bounds (heap o id) = Some b -> underMouse (heap (mouse_over pos o id) id) = contains_point b pos).
Proof.
  intros Hok. unfold mouse_over. destruct (path_bounds (heap o id)) as [b|] eqn:Eb; [|by split_and!].
  assert (Hfb : forall e, path_bounds (fire e (heap o id)) = path_bounds (heap o id))
    by (intros e; unfold fire, openPopup; by destruct (popupOpen (heap o id)) as [[]|], e).
  assert (Htell : forall e u, underMouse (heap o id) = negb u ->
    (forall j, mouse_events j [Fired id e] = if id =? j then [u] else []) ->
    let o' := fire_path e id o in
    forall j, path_ok (set_path id (set_underMouse u (heap o' id)) o') j).
  { intros e u Hu He o' j. destruct (Hok j) as [H1 H2]. split; cbn [set_path fire_path say log heap o'].
    - rewrite mouse_events_app, He. rewrite Z.eqb_refl. destruct (Z.eqb_spec j id) as [->|Hj].
      + rewrite Z.eqb_refl. cbn. apply (alternate_snoc _ _ (underMouse (heap o id))); [done|]. rewrite Hu. by destruct u.
      + rewrite (proj2 (Z.eqb_neq id j)) by done. by rewrite app_nil_r.
    - rewrite Z.eqb_refl. destruct (Z.eqb_spec j id) as [->|Hj]; [|done]. exact (fire_popup_ok e _ (path_popup o id (Hok id))). }
  destruct (contains_point b pos) eqn:Ec, (underMouse (heap o id)) eqn:Eu; cbn [negb andb];
    try (split_and!; [done|done|done|done|by intros b' [= <-]; rewrite ?Ec, ?Eu]).
  - split_and!; [done|apply Htell; [done|]| | |].
    + intros j. cbn. by destruct (id =? j).
    + intros j. cbn. rewrite Z.eqb_refl. destruct (Z.eqb_spec j id) as [->|]; [apply Hfb|done].
    + intros j Hj. cbn. by rewrite (proj2 (Z.eqb_neq _ _) Hj).
    + intros b' [= <-]. cbn. by rewrite Z.eqb_refl.
  - split_and!; [done|apply Htell; [done|]| | |].
    + intros j. cbn. by destruct (id =? j).
    + intros j. cbn. rewrite Z.eqb_refl. destruct (Z.eqb_spec j id) as [->|]; [apply Hfb|done].
    + intros j Hj. cbn. by rewrite (proj2 (Z.eqb_neq _ _) Hj).
    + intros b' [= <-]. cbn. by rewrite Z.eqb_refl.
Qed.

Lemma onMouseMove_spec pos l o :
  NoDup l -> (forall j, path_ok o j) ->
  let o' := foldl (mouse_over pos) o l in
  paths o' = paths o /\ (forall j, path_ok o' j) /\
  (forall j, path_bounds (heap o' j) = path_bounds (heap o j)) /\
  (forall j, j ∉ l -> underMouse (heap o' j) = underMouse (heap o j)) /\
  (forall id b, id ∈ l -> path_bounds (heap o id) = Some b -> underMouse (heap o' id) = contains_point b pos).
Proof.
  intros Hn. revert o. induction Hn as [|id l Hid Hn IH]; intros o Hok; cbn [foldl].
  - split_and!; try done. by intros ? ? ?%elem_of_nil.
  - destruct (mouse_over_spec pos o id Hok) as (A1 & A2 & A3 & A4 & A5).
    destruct (IH (mouse_over pos o id) A2) as (B1 & B2 & B3 & B4 & B5).
    split_and!; [congruence|done|by intros; rewrite B3, A3| |].
    + intros j [Hj Hl]%not_elem_of_cons. by rewrite B4, A4.
    + intros j b [->|Hj]%elem_of_cons Hb; [by rewrite B4, (A5 b)|]. apply B5; [done|]. by rewrite A3.
Qed.

Lemma overlay_step_ok v o o' : overlay_step v o o' -> overlay_ok o -> overlay_ok o'.
Proof.
  intros Hs [Hn Hok]. destruct Hs as [id o|id o|pos o|area o|id b o|id s o|id o|id o].
  - split.
    + unfold initPath. cbn. case_decide; [done|]. cbn. apply NoDup_app. split_and!; [done| |apply NoDup_singleton].
      intros x Hx ->%list_elem_of_singleton. done.
    + unfold initPath. apply path_ok_say; [done|]. apply path_ok_say; [done|]. apply path_ok_fire; [by left|].
      by case_decide.
  - split; [by apply NoDup_filter|]. unfold removePath. apply path_ok_say; [done|].
    exact (path_ok_fire ERemove id o (or_intror eq_refl) Hok).
  - destruct (onMouseMove_spec (document_position v pos) (paths o) o Hn Hok) as (A1 & A2 & _).
    split; [unfold onMouseMove; by rewrite A1|exact A2].
  - split; [|by apply path_ok_draw]. unfold draw. destruct (waitForTiles v); [done|].
    generalize (js_sort (fun a b => renderOrderComparator (heap o a) (heap o b)) (paths o)). intros l.
    clear Hok. revert o Hn. induction l as [|id l IH]; intros o Hn; cbn [foldl]; [done|]. apply IH. by case_match.
  - split; [|by apply path_ok_redraw]. unfold redraw. by repeat case_match.
  - split.
    + unfold setPointSet, redraw. by repeat case_match.
    + unfold setPointSet. apply path_ok_redraw, path_ok_say; [done|]. apply path_ok_set; [by destruct (empty s)| |done].
      destruct (empty s); [apply closePopup_ok|exact (path_popup o id (Hok id))].
  - split; [done|]. apply path_ok_set; [done| |done]. unfold popup_ok, bindPopup. cbn.
    destruct (popupOpen (heap o id)) as [[]|] eqn:E; cbn; try done. intros _. by apply Hok.
  - split; [done|]. apply path_ok_set; [|unfold popup_timeout; destruct (popupTimer _); [apply closePopup_ok|exact (path_popup o id (Hok id))]|done].
    unfold popup_timeout. by destruct (popupTimer _).
Qed.

Definition initial_overlay (o : overlay) : Prop :=
  paths o = [] /\ log o = [] /\ forall id, underMouse (heap o id) = false /\ popupOpen (heap o id) = None.

(** C30: However paths come, go, change and are painted while the mouse moves, every path is
    told of the mouse entering and leaving in turn and knows which it was last, an open popup
    always has a timer running that closes it, and after a movement exactly the paths whose
    bounds contain the position are under the mouse. *)
Theorem overlay_invariant o0 o :
  initial_overlay o0 -> rtc overlay_moves o0 o ->
  (forall id, alternate false (mouse_events id (log o)) = Some (underMouse (heap o id)) /\
              (popupOpen (heap o id) = Some true -> popupTimer (heap o id) = true)) /\
  forall v position id b, id ∈ paths o -> path_bounds (heap o id) = Some b ->
    underMouse (heap (onMouseMove v position o) id) = contains_point b (document_position v position).
Proof.
  intros (H1 & H2 & H3) Hs. assert (Hok : overlay_ok o).
  { assert (H0 : overlay_ok o0).
    { split; [rewrite H1; constructor|]. intros id. destruct (H3 id) as [Hu Hp]. split; [by rewrite H2, Hu|by rewrite Hp]. }
    clear H1 H2 H3. revert H0. induction Hs as [|o1 o2 o3 [v Hs] _ IH]; [done|]. intros H0. by eapply IH, overlay_step_ok. }
  destruct Hok as [Hn Hok]. split; [exact Hok|]. intros v position id b Hid Hb.
  destruct (onMouseMove_spec (document_position v position) (paths o) o Hn Hok) as (_ & _ & _ & _ & A). by apply A.
Qed.

Lemma initPathGroup_moves v ids o : rtc overlay_moves o (initPathGroup v ids o).
Proof.
  revert o. induction ids as [|id ids IH]; intros o; [apply rtc_refl|].
  apply rtc_l with (initPath v id o); [exists v; apply step_init|apply IH].
Qed.

(** ** A sheet with paths *)

Definition sample_view : view := View (Bounds (Point 200 100) (Point 2200 1700)) (Some (Point 60 40)) 2000 true false.

(** A splitter, another user's cursor, our cell selection and our cell cursor. *)
Definition sample_paths (id : Z) : path :=
  if id =? 1 then new_splitter (Some (Bounds (Point 58 0) (Point 62 1600)))
  else if id =? 2 then new_path 2 (Some 3) CellCursor false (Some (Bounds (Point 300 200) (Point 400 240)))
  else if id =? 3 then new_path 3 None CellSelection false (Some (Bounds (Point 300 200) (Point 800 640)))
  else new_path id None CellCursor false (Some (Bounds (Point 500 200) (Point 600 240))).

Definition empty_overlay : overlay := Overlay [] sample_paths [].
Definition sample_overlay : overlay := initPathGroup sample_view [1; 2; 3; 4] empty_overlay.

(** The splitters are to be behind other overlays, but the layer only counts within a group:
    they are painted last. *)
Example splitter_on_top :
  omap (fun e => match e with Painted id _ => Some id | _ => None end)
    (drop (length (log sample_overlay)) (log (draw sample_view None sample_overlay))) = [2; 3; 4; 1].
Proof. vm_compute. reflexivity. Qed.

Lemma draw_in_order_witness :
  exists ids,
    log (draw sample_view None sample_overlay) = log sample_overlay ++
      map (fun id => Painted id (updatePathAllPanes sample_view None (heap sample_overlay id))) ids /\
    ids ≡ₚ filter (fun id => isPathVisible sample_view (heap sample_overlay id) = true) (paths sample_overlay) /\
    StronglySorted (fun i j => not_above (heap sample_overlay i) (heap sample_overlay j)) ids.
Proof. apply (draw_in_order sample_view None sample_overlay). reflexivity. Defined.

Lemma paints_all_panes_witness :
  let r := Bounds (Point 260 140) (Point 2200 1700) in
  (contains_point (Bounds (Point 240 120) (Point 420 300)) (Point 300 200) = true /\ contains_point r (Point 300 200) = true) <->
  exists pp, pp ∈ updatePathAllPanes sample_view (Some (Bounds (Point 240 120) (Point 420 300))) (sample_paths 2) /\
    paneBounds pp = r /\ contains_point (paintArea pp) (Point 300 200) = true.
Proof.
  intros r. apply (paints_all_panes sample_view (Bounds (Point 240 120) (Point 420 300)) (sample_paths 2) r (Point 300 200)).
  - reflexivity.
  - split; cbn; lia.
  - vm_compute. do 3 right. left.
  - split; cbn; lia.
Defined.

Lemma mouse_over_shown_witness :
  document_position sample_view (applyToPoint (pane_transform sample_view (Bounds (Point 260 140) (Point 2200 1700))) (Point 300 200)) = Point 300 200.
Proof.
  apply mouse_over_shown.
  - vm_compute. repeat split; discriminate.
  - vm_compute. do 3 right. left.
  - split; cbn; lia.
  - split; right; cbn; lia.
Defined.

Lemma overlay_invariant_witness :
  underMouse (heap (onMouseMove sample_view (Point 1900 100) sample_overlay) 2) =
    contains_point (Bounds (Point 300 200) (Point 400 240)) (document_position sample_view (Point 1900 100)).
Proof.
  apply (overlay_invariant empty_overlay sample_overlay).
  - split_and!; [reflexivity|reflexivity|]. intros id. unfold empty_overlay, sample_paths. cbn. by repeat case_match.
  - apply initPathGroup_moves.
  - vm_compute. right. left.
  - reflexivity.
Defined.
