(* ===== verification/SectionLayout.v ===== *)
(** * Layout of the sections of the canvas

    src/browser/src/layer/tile/CanvasSectionContainer.ts: the canvas is divided into
    sections (tiles, headers, scroll bars, comments...).  This file has their data, the
    order in which they are placed and drawn, where they are placed and how far they
    expand, which of them contains a point, and which sections an event is passed on to.

    Lengths are counted in fractions of a pixel, [per_pixel] of them to one: any finite
    set of floating-point numbers has such a unit, and [Math.round] is rounding to its
    multiples.  A section is an object: [heap] maps its identity to its fields, and lists
    of sections hold identities. *)

From stdpp Require Import functions.
From S2P Require Import Prelude Sorts.
Local Open Scope Z_scope.

Class Resolution := { per_pixel : Z; per_pixel_pos : 0 < per_pixel }.

Section layout.
Context `{R : Resolution}.

Definition js_round (x : Z) : Z := js_round_div x per_pixel * per_pixel.

Definition whole (x : Z) : Prop := exists k, x = k * per_pixel.

(** ** Sections *)

(** One component of an anchor: an edge of the canvas, or names of sections, each with
    an edge, and an edge of the canvas for when none of them exists. *)
Inductive anchor_part := Edge (e : string) | Chain (l : list string).

Record section := MkSection {
  name : string;
  boundToSection : option string;
  anchor : anchor_part * anchor_part;
  documentObject : bool;
  isVisible : bool;
  showSection : bool;
  position : Z * Z;
  size : Z * Z;
  origSizeHint : option (Z * Z);
  expand : list string;
  isLocated : bool;
  myTopLeft : option (Z * Z);
  processingOrder : Z;
  drawingOrder : Z;
  zIndex : Z;
  interactable : bool;
  isAnimating : bool;
  windowSection : bool;
  boundsList : list nat
}.

Definition set_isVisible (b : bool) (s : section) : section :=
  MkSection (name s) (boundToSection s) (anchor s) (documentObject s) b (showSection s)
    (position s) (size s) (origSizeHint s) (expand s) (isLocated s) (myTopLeft s)
    (processingOrder s) (drawingOrder s) (zIndex s) (interactable s) (isAnimating s)
    (windowSection s) (boundsList s).
Definition set_size (z : Z * Z) (s : section) : section :=
  MkSection (name s) (boundToSection s) (anchor s) (documentObject s) (isVisible s)
    (showSection s) (position s) z (origSizeHint s) (expand s) (isLocated s) (myTopLeft s)
    (processingOrder s) (drawingOrder s) (zIndex s) (interactable s) (isAnimating s)
    (windowSection s) (boundsList s).
Definition set_origSizeHint (h : option (Z * Z)) (s : section) : section :=
  MkSection (name s) (boundToSection s) (anchor s) (documentObject s) (isVisible s)
    (showSection s) (position s) (size s) h (expand s) (isLocated s) (myTopLeft s)
    (processingOrder s) (drawingOrder s) (zIndex s) (interactable s) (isAnimating s)
    (windowSection s) (boundsList s).
Definition set_located (b : bool) (s : section) : section :=
  MkSection (name s) (boundToSection s) (anchor s) (documentObject s) (isVisible s)
    (showSection s) (position s) (size s) (origSizeHint s) (expand s) b (myTopLeft s)
    (processingOrder s) (drawingOrder s) (zIndex s) (interactable s) (isAnimating s)
    (windowSection s) (boundsList s).
Definition set_myTopLeft (p : option (Z * Z)) (s : section) : section :=
  MkSection (name s) (boundToSection s) (anchor s) (documentObject s) (isVisible s)
    (showSection s) (position s) (size s) (origSizeHint s) (expand s) (isLocated s) p
    (processingOrder s) (drawingOrder s) (zIndex s) (interactable s) (isAnimating s)
    (windowSection s) (boundsList s).
Definition set_position (p : Z * Z) (s : section) : section :=
  MkSection (name s) (boundToSection s) (anchor s) (documentObject s) (isVisible s)
    (showSection s) p (size s) (origSizeHint s) (expand s) (isLocated s) (myTopLeft s)
    (processingOrder s) (drawingOrder s) (zIndex s) (interactable s) (isAnimating s)
    (windowSection s) (boundsList s).
Definition set_drawing_order (d : Z) (s : section) : section :=
  MkSection (name s) (boundToSection s) (anchor s) (documentObject s) (isVisible s)
    (showSection s) (position s) (size s) (origSizeHint s) (expand s) (isLocated s)
    (myTopLeft s) (processingOrder s) d (zIndex s) (interactable s) (isAnimating s)
    (windowSection s) (boundsList s).
Definition set_z_index (z : Z) (s : section) : section :=
  MkSection (name s) (boundToSection s) (anchor s) (documentObject s) (isVisible s)
    (showSection s) (position s) (size s) (origSizeHint s) (expand s) (isLocated s)
    (myTopLeft s) (processingOrder s) (drawingOrder s) z (interactable s) (isAnimating s)
    (windowSection s) (boundsList s).
Definition set_bound_to (n : option string) (s : section) : section :=
  MkSection (name s) n (anchor s) (documentObject s) (isVisible s) (showSection s)
    (position s) (size s) (origSizeHint s) (expand s) (isLocated s) (myTopLeft s)
    (processingOrder s) (drawingOrder s) (zIndex s) (interactable s) (isAnimating s)
    (windowSection s) (boundsList s).
Definition set_isAnimating (b : bool) (s : section) : section :=
  MkSection (name s) (boundToSection s) (anchor s) (documentObject s) (isVisible s)
    (showSection s) (position s) (size s) (origSizeHint s) (expand s) (isLocated s)
    (myTopLeft s) (processingOrder s) (drawingOrder s) (zIndex s) (interactable s) b
    (windowSection s) (boundsList s).
Definition set_boundsList (l : list nat) (s : section) : section :=
  MkSection (name s) (boundToSection s) (anchor s) (documentObject s) (isVisible s)
    (showSection s) (position s) (size s) (origSizeHint s) (expand s) (isLocated s)
    (myTopLeft s) (processingOrder s) (drawingOrder s) (zIndex s) (interactable s)
    (isAnimating s) (windowSection s) l.

(** The edges of a section that has its place. *)
Definition top_left (s : section) : Z * Z := default (0, 0) (myTopLeft s).
Definition left_of (s : section) : Z := (top_left s).1.
Definition right_of (s : section) : Z := left_of s + (size s).1.
Definition top_of (s : section) : Z := (top_left s).2.
Definition bottom_of (s : section) : Z := top_of s + (size s).2.

(** ** The container *)

Record container := MkContainer {
  heap : nat -> section;
  sections : list nat;
  windowSectionList : list nat;
  documentTopLeft : Z * Z;
  documentBottomRight : Z * Z;
  canvas : Z * Z;
  right : Z;
  bottom : Z;
  roundedDpiScale : Z;
  documentAnchorSectionName : option string;
  documentAnchor : option (Z * Z)
}.

Definition set_heap (h : nat -> section) (c : container) : container :=
  MkContainer h (sections c) (windowSectionList c) (documentTopLeft c)
    (documentBottomRight c) (canvas c) (right c) (bottom c) (roundedDpiScale c)
    (documentAnchorSectionName c) (documentAnchor c).
Definition set_sections (l : list nat) (c : container) : container :=
  MkContainer (heap c) l (windowSectionList c) (documentTopLeft c) (documentBottomRight c)
    (canvas c) (right c) (bottom c) (roundedDpiScale c) (documentAnchorSectionName c)
    (documentAnchor c).
Definition set_windowSectionList (l : list nat) (c : container) : container :=
  MkContainer (heap c) (sections c) l (documentTopLeft c) (documentBottomRight c) (canvas
    c) (right c) (bottom c) (roundedDpiScale c) (documentAnchorSectionName c)
    (documentAnchor c).
Definition set_bounds (tl br : Z * Z) (c : container) : container :=
  MkContainer (heap c) (sections c) (windowSectionList c) tl br (canvas c) (right c)
    (bottom c) (roundedDpiScale c) (documentAnchorSectionName c) (documentAnchor c).
Definition set_canvas (wh : Z * Z) (dpi : Z) (c : container) : container :=
  MkContainer (heap c) (sections c) (windowSectionList c) (documentTopLeft c)
    (documentBottomRight c) wh wh.1 wh.2 dpi (documentAnchorSectionName c) (documentAnchor
    c).
Definition set_anchor_name (n : option string) (c : container) : container :=
  MkContainer (heap c) (sections c) (windowSectionList c) (documentTopLeft c)
    (documentBottomRight c) (canvas c) (right c) (bottom c) (roundedDpiScale c) n
    (documentAnchor c).
Definition set_documentAnchor (p : option (Z * Z)) (c : container) : container :=
  MkContainer (heap c) (sections c) (windowSectionList c) (documentTopLeft c)
    (documentBottomRight c) (canvas c) (right c) (bottom c) (roundedDpiScale c)
    (documentAnchorSectionName c) p.

Definition alter_section (f : section -> section) (i : nat) (c : container) : container :=
  set_heap (<[i := f (heap c i)]> (heap c)) c.

(** [getSectionWithName] and [doesSectionExist]; the empty name is no name. *)
Definition getSectionWithName (n : string) (c : container) : option nat :=
  if String.eqb n "" then None
  else list_find (fun i => name (heap c i) = n) (sections c) ≫= fun p => Some p.2.

Definition doesSectionExist (n : string) (c : container) : bool :=
  negb (String.eqb n "") && existsb (fun i => String.eqb (name (heap c i)) n) (sections c).

(** ** Order *)

Definition orderSections (c : container) : container :=
  set_sections (exchange_sort (lex_gt (fun i => zIndex (heap c i)) (fun i => processingOrder (heap c i)))
                  (sections c)) c.

Definition applyDrawingOrders (c : container) : container :=
  set_sections (run_sort (fun i => zIndex (heap c i)) (fun i => drawingOrder (heap c i)) (sections c)) c.

(** ** Bounds lists *)

(** The sections [i] is bound to, and those bound to it, that are not yet in the list. *)
Definition bound_parent (c : container) (i : nat) (sectionList : list nat) : list nat :=
  match boundToSection (heap c i) ≫= fun n => getSectionWithName n c with
  | Some p => if isLocated (heap c p) && negb (bool_decide (p ∈ sectionList)) then [p] else []
  | None => []
  end.

Definition bound_children (c : container) (i : nat) (sectionList : list nat) : list nat :=
  filter (fun k => isLocated (heap c k) = true /\ boundToSection (heap c k) = Some (name (heap c i))
                   /\ k ∉ sectionList) (sections c).

Fixpoint updateBoundSectionList (fuel : nat) (c : container) (i : nat) (sectionList : list nat)
    : option (list nat) :=
  match fuel with
  | O => None
  | S fuel' =>
      let sectionList := sectionList ++ [i] in
      let tempSectionList := bound_parent c i sectionList ++ bound_children c i sectionList in
      foldl (fun acc t => acc ≫= updateBoundSectionList fuel' c t) (Some sectionList) tempSectionList
  end.

Definition bound_fuel (c : container) : nat := S (length (sections c)).

(** The sections above this one are removed: they are not told what happens to it. *)
Fixpoint pop_above (c : container) (n : string) (rev_list : list nat) : list nat :=
  match rev_list with
  | [] => []
  | k :: l => if String.eqb (name (heap c k)) n then rev_list else pop_above c n l
  end.

Definition orderBoundsList (c : container) (i : nat) (l : list nat) : list nat :=
  reverse (pop_above c (name (heap c i))
    (reverse (exchange_sort (lex_gt (fun k => zIndex (heap c k)) (fun k => drawingOrder (heap c k))) l))).

Definition bounds_of (c : container) (i : nat) : list nat :=
  orderBoundsList c i (default [] (updateBoundSectionList (bound_fuel c) c i [])).

Definition updateBoundSectionLists (c : container) : container :=
  foldl (fun c i => alter_section (set_boundsList (bounds_of c i)) i c) c (sections c).

(** ** Expansion *)

Definition doSectionsIntersectOnYAxis (s1 s2 : section) : bool :=
  let y11 := top_of s1 in let y12 := bottom_of s1 in
  let y21 := top_of s2 in let y22 := bottom_of s2 in
  ((y21 <=? y11) && (y11 <=? y22) || (y21 <=? y12) && (y12 <=? y22))
  || ((y11 <=? y21) && (y21 <=? y12) || (y11 <=? y22) && (y22 <=? y12)).

Definition doSectionsIntersectOnXAxis (s1 s2 : section) : bool :=
  let x11 := left_of s1 in let x12 := right_of s1 in
  let x21 := left_of s2 in let x22 := right_of s2 in
  ((x21 <=? x11) && (x11 <? x22) || (x21 <=? x12) && (x12 <=? x22))
  || ((x11 <=? x21) && (x21 <=? x12) || (x11 <=? x22) && (x22 <=? x12)).

(** The located sections of the same level, other than [s]. *)
Definition neighbours (c : container) (s : section) : list section :=
  filter (fun t => isLocated t = true /\ zIndex t = zIndex s /\ name t <> name s)
    (heap c <$> sections c).

(** The greatest (least) of the edges that pass the test; [None] is the infinity the
    search starts from. *)
Definition max_edge (e : section -> Z) (ok : section -> bool) (l : list section) : option Z :=
  foldl (fun m t => if match m with Some m => m <? e t | None => true end && ok t
                    then Some (e t) else m) None l.

Definition min_edge (e : section -> Z) (ok : section -> bool) (l : list section) : option Z :=
  foldl (fun m t => if match m with Some m => e t <? m | None => true end && ok t
                    then Some (e t) else m) None l.

Definition hitLeft (c : container) (s : section) : Z :=
  match max_edge right_of (fun t => (right_of t <? left_of s) && doSectionsIntersectOnYAxis t s)
          (neighbours c s) with
  | None => 0
  | Some maxX => maxX + roundedDpiScale c * per_pixel
  end.

Definition hitRight (c : container) (s : section) : Z :=
  match min_edge left_of (fun t => (left_of s <? left_of t) && doSectionsIntersectOnYAxis t s)
          (neighbours c s) with
  | None => right c
  | Some minX => minX - roundedDpiScale c * per_pixel
  end.

Definition hitTop (c : container) (s : section) : Z :=
  match max_edge bottom_of (fun t => (bottom_of t <? top_of s) && doSectionsIntersectOnXAxis t s)
          (neighbours c s) with
  | None => 0
  | Some maxY => maxY + roundedDpiScale c * per_pixel
  end.

Definition hitBottom (c : container) (s : section) : Z :=
  match min_edge top_of (fun t => (top_of s <? top_of t) && doSectionsIntersectOnXAxis t s)
          (neighbours c s) with
  | None => bottom c
  | Some minY => minY - roundedDpiScale c * per_pixel
  end.

Definition expands (d : string) (s : section) : bool := bool_decide (d ∈ expand s).

Definition expand_left (c : container) (s : section) : section :=
  if expands "left" s then
    let initialX := left_of s in
    let x := hitLeft c s in
    set_size (initialX - x, (size s).2) (set_myTopLeft (Some (x, top_of s)) s)
  else s.

Definition expand_right (c : container) (s : section) : section :=
  if expands "right" s then set_size (hitRight c s - left_of s, (size s).2) s else s.

Definition expand_top (c : container) (s : section) : section :=
  if expands "top" s then
    let initialY := top_of s in
    let y := hitTop c s in
    set_size ((size s).1, initialY - y) (set_myTopLeft (Some (left_of s, y)) s)
  else s.

Definition expand_bottom (c : container) (s : section) : section :=
  if expands "bottom" s then set_size ((size s).1, hitBottom c s - top_of s) s else s.

Definition expandSection (c : container) (s : section) : section :=
  expand_bottom c (expand_top c (expand_right c (expand_left c s))).

Definition roundPositionAndSize (s : section) : section :=
  set_size (js_round (size s).1, js_round (size s).2)
    (set_myTopLeft (Some (js_round (left_of s), js_round (top_of s))) s).

(** ** Placing *)

(** [section.anchor[index]], [section.position[i]] and [section.size[i]]. *)
Inductive axis := Vertical | Horizontal.

Definition anchor_of (ix : axis) (s : section) : anchor_part :=
  match ix with Vertical => (anchor s).1 | Horizontal => (anchor s).2 end.

(** A position relative to an edge of the canvas. *)
Definition from_edge (c : container) (ix : axis) (a : string) (s : section) : Z :=
  match ix with
  | Vertical => if String.eqb a "top" then (position s).2 else bottom c - ((position s).2 + (size s).2)
  | Horizontal => if String.eqb a "left" then (position s).1 else right c - ((position s).1 + (size s).1)
  end.

(** The first name of the chain that is a section, and the word after it; the last
    element of the chain is not looked up. *)
Fixpoint anchor_target (c : container) (l : list string) : option (nat * string) :=
  match l with
  | [] => None
  | n :: l' =>
      match l' with
      | [] => None
      | e :: _ =>
          match getSectionWithName n c with
          | Some t => Some (t, e)
          | None => anchor_target c l'
          end
      end
  end.

(** The section changes where its edge is snapped to the left of another one: its width
    is the original one again.  [None]: the edge is none of the known words, and the
    coordinate is undefined. *)
Definition calculateSectionInitialPosition (c : container) (s : section) (ix : axis)
    : option (section * Z) :=
  match anchor_of ix s with
  | Edge a => Some (s, from_edge c ix a s)
  | Chain [a] => Some (s, from_edge c ix a s)
  | Chain l =>
      if Nat.even (length l) then Some (s, 0)
      else
        match anchor_target c l with
        | None => Some (s, from_edge c ix (List.last l "") s)
        | Some (i, targetEdge) =>
            let t := heap c i in
            let d := roundedDpiScale c * per_pixel in
            if negb (isLocated t) then Some (s, 0)
            else if String.eqb targetEdge "top" then Some (s, top_of t - d)
            else if String.eqb targetEdge "bottom" then Some (s, bottom_of t + d)
            else if String.eqb targetEdge "left" then Some (s, left_of t - d)
            else if String.eqb targetEdge "right" then Some (s, right_of t + d)
            else if String.eqb targetEdge "-left" then
              let s := match expand s, origSizeHint s with
                       | e :: _, Some h => if String.eqb e "left" then set_size (h.1, (size s).2) s else s
                       | _, _ => s
                       end in
              Some (s, left_of t - (size s).1)
            else None
        end
  end.

(** What [locateSections] resets. *)
Definition reset_section (s : section) : section :=
  let s := set_myTopLeft None (set_located false s) in
  match origSizeHint s with
  | None => set_origSizeHint (Some (size s)) s
  | Some _ => s
  end.

Definition reset_sections (c : container) : container :=
  let c := foldl (fun c i => alter_section reset_section i c) c (sections c) in
  set_windowSectionList [] (set_documentAnchor None c).

(** Where an object of the document is on the canvas. *)
Definition object_place (c : container) (a : Z * Z) (s : section) : Z * Z :=
  (a.1 + (position s).1 - (documentTopLeft c).1, a.2 + (position s).2 - (documentTopLeft c).2).

(** A regular element of the user interface. *)
Definition place_regular (c : container) (s : section) : option section :=
  '(s, x) ← calculateSectionInitialPosition c s Horizontal;
  '(s, y) ← calculateSectionInitialPosition c s Vertical;
  let s := set_myTopLeft (Some (x, y)) s in
  let s := match expand s with e :: _ => if String.eqb e "" then s else expandSection c s
                             | [] => expandSection c s end in
  Some (set_located true (roundPositionAndSize s)).

(** The new fields of one section; [None] is a [TypeError] (no document anchor yet, or a
    parent that has no place). *)
Definition place_section (c : container) (s : section) : option section :=
  if documentObject s then
    a ← documentAnchor c;
    Some (set_located true (set_myTopLeft (Some (object_place c a s)) s))
  else match boundToSection s with
  | Some n =>
      match getSectionWithName n c with
      | None => Some s
      | Some p =>
          tl ← myTopLeft (heap c p);
          Some (set_located true (roundPositionAndSize
            (set_myTopLeft (Some tl) (set_size (size (heap c p)) s))))
      end
  | None =>
      if windowSection s then Some (set_located true (set_size (canvas c) (set_myTopLeft (Some (0, 0)) s)))
      else place_regular c s
  end.

Definition is_window (s : section) : bool :=
  negb (documentObject s) && bool_decide (boundToSection s = None) && windowSection s.

Definition is_anchor (c : container) (s : section) : bool :=
  bool_decide (documentAnchorSectionName c = Some (name s)).

(** One round of the loop. *)
Definition locate_one (c : container) (i : nat) : option container :=
  s ← place_section c (heap c i);
  let c := alter_section (fun _ => s) i c in
  let c := if is_window s then set_windowSectionList (windowSectionList c ++ [i]) c else c in
  if is_anchor c s then
    tl ← myTopLeft s; Some (set_documentAnchor (Some tl) c)
  else Some c.

Fixpoint locate_loop (c : container) (l : list nat) : option container :=
  match l with
  | [] => Some c
  | i :: l' => locate_one c i ≫= fun c => locate_loop c l'
  end.

Definition locateSections (c : container) : option container :=
  let c := reset_sections c in locate_loop c (sections c).

(** ** Hit test *)

Definition isDocumentObjectVisible (c : container) (s : section) : bool :=
  let l := (documentTopLeft c).1 in let t := (documentTopLeft c).2 in
  let r := (documentBottomRight c).1 in let b := (documentBottomRight c).2 in
  let x := (position s).1 in let y := (position s).2 in
  let w := (size s).1 in let h := (size s).2 in
  ((l <=? x) && (x <=? r) || (l <=? x + w) && (x + w <=? r))
  && ((t <=? y) && (y <=? b) || (t <=? y + h) && (y + h <=? b)).

Definition doesSectionIncludePoint (s : section) (p : Z * Z) : bool :=
  (left_of s <=? p.1) && (p.1 <=? right_of s) && ((top_of s <=? p.2) && (p.2 <=? bottom_of s)).

(** The sections that can be the target of an event. *)
Definition can_be_target (s : section) : bool :=
  isLocated s && negb (windowSection s) && showSection s && (negb (documentObject s) || isVisible s).

Fixpoint last_match {A} (P : A -> bool) (l : list A) : option A :=
  match l with
  | [] => None
  | x :: l' => match last_match P l' with Some y => Some y | None => if P x then Some x else None end
  end.

Definition findSectionContainingPoint (c : container) (p : Z * Z) : option nat :=
  last_match (fun i => can_be_target (heap c i) && doesSectionIncludePoint (heap c i) p) (sections c).

Definition targetBoundSectionListContains (c : container) (targetSection : option string) (n : string) : bool :=
  match targetSection ≫= fun t => getSectionWithName t c with
  | Some i => existsb (fun k => String.eqb (name (heap c k)) n) (boundsList (heap c i))
  | None => false
  end.

(** ** Moving the view and objects of the document *)

(** [setDocumentBounds]; [None] is a [TypeError]: there is an object but no anchor. *)
Definition object_step (c : container) (i : nat) : option container :=
  let s := heap c i in
  if documentObject s then
    a ← documentAnchor c;
    let s := set_myTopLeft (Some (object_place c a s)) s in
    Some (alter_section (fun _ => set_isVisible (isDocumentObjectVisible c s) s) i c)
  else Some c.

Fixpoint object_loop (c : container) (l : list nat) : option container :=
  match l with
  | [] => Some c
  | i :: l' => object_step c i ≫= fun c => object_loop c l'
  end.

Definition setDocumentBounds (x1 y1 x2 y2 : Z) (c : container) : option container :=
  let c := set_bounds (js_round x1, js_round y1) (js_round x2, js_round y2) c in
  object_loop c (sections c).

(** [setPosition]; [docWidth] is the width of the document where a sheet runs from right
    to left. *)
Definition setPosition (docWidth : option Z) (i : nat) (x y : Z) (c : container) : option container :=
  let s := heap c i in
  if negb (documentObject s) then Some c
  else
    let x := js_round x in let y := js_round y in
    let sectionXcoord := x - (documentTopLeft c).1 in
    let sectionXcoord := match docWidth with
                         | Some w => w - sectionXcoord - (size s).1
                         | None => sectionXcoord end in
    _ ← myTopLeft s;
    a ← documentAnchor c;
    let s := set_position (x, y)
               (set_myTopLeft (Some (a.1 + sectionXcoord, a.2 + y - (documentTopLeft c).2)) s) in
    Some (alter_section (fun _ => set_isVisible (isDocumentObjectVisible c s) s) i c).

Definition setDocumentAnchorSection (n : string) (c : container) : container :=
  match getSectionWithName n c with
  | Some _ => set_anchor_name (Some n) c
  | None => set_documentAnchor None (set_anchor_name None c)
  end.

(** ** What placing leaves alone *)

Definition static (s : section) :=
  (name s, boundToSection s, anchor s, documentObject s, isVisible s, showSection s, position s, expand s,
   (processingOrder s, drawingOrder s, zIndex s, interactable s, isAnimating s, windowSection s, boundsList s)).

Ltac static_solve :=
  repeat match goal with
  | H : static _ = static _ |- _ => unfold static in H; injection H as ??????????????
  end; try congruence.

Lemma expandSection_static c s : static (expandSection c s) = static s.
Proof.
  unfold expandSection, expand_bottom, expand_top, expand_right, expand_left.
  repeat (match goal with |- context [if expands ?d ?s then _ else _] => destruct (expands d s) end);
    reflexivity.
Qed.

Lemma initial_position_static c s ix s' x :
  calculateSectionInitialPosition c s ix = Some (s', x) ->
  static s' = static s /\ myTopLeft s' = myTopLeft s /\ origSizeHint s' = origSizeHint s.
Proof.
  unfold calculateSectionInitialPosition.
  destruct (anchor_of ix s) as [a|[|a [|b l]]]; try (by intros [= <- <-]).
  destruct (Nat.even (length (a :: b :: l))); [by intros [= <- <-]|].
  destruct (anchor_target c (a :: b :: l)) as [[i e]|]; [|by intros [= <- <-]].
  destruct (isLocated (heap c i)); simpl negb; [|by intros [= <- <-]].
  repeat (destruct (String.eqb e _); [by intros [= <- <-]|]).
  destruct (String.eqb e "-left"); [|done]. intros [= <- <-].
  destruct (expand s) as [|d l'] eqn:Ee, (origSizeHint s) as [h|] eqn:Eh; try done.
  destruct (String.eqb d "left"); [|done]. by destruct s.
Qed.

Lemma place_regular_static c s s' : place_regular c s = Some s' -> static s' = static s.
Proof.
  unfold place_regular.
  destruct (calculateSectionInitialPosition c s Horizontal) as [[s1 x]|] eqn:E1; [|done]. simpl.
  destruct (calculateSectionInitialPosition c s1 Vertical) as [[s2 y]|] eqn:E2; [|done]. simpl.
  apply initial_position_static in E1 as (E1 & _), E2 as (E2 & _). intros [= <-].
  rewrite <- E1, <- E2. destruct (expand s2) as [|e l]; simpl;
    [|destruct (String.eqb e ""); [reflexivity|]]; apply (expandSection_static c (set_myTopLeft _ s2)).
Qed.

Lemma place_section_static c s s' : place_section c s = Some s' -> static s' = static s.
Proof.
  unfold place_section. destruct (documentObject s).
  { destruct (documentAnchor c); [|done]. simpl. by intros [= <-]. }
  destruct (boundToSection s) as [n|].
  - destruct (getSectionWithName n c) as [p|]; [|by intros [= <-]].
    destruct (myTopLeft (heap c p)); [|done]. simpl. by intros [= <-].
  - destruct (windowSection s); [by intros [= <-]|]. apply place_regular_static.
Qed.

(** The rest of the container, and the fields above of every section. *)
Definition same_frame (c c' : container) : Prop :=
  sections c' = sections c /\ canvas c' = canvas c /\ right c' = right c /\ bottom c' = bottom c /\
  roundedDpiScale c' = roundedDpiScale c /\
  documentAnchorSectionName c' = documentAnchorSectionName c /\
  documentTopLeft c' = documentTopLeft c /\ documentBottomRight c' = documentBottomRight c /\
  forall i, static (heap c' i) = static (heap c i).

#[local] Instance same_frame_preorder : PreOrder same_frame.
Proof.
  split; [intros c; by split_and!|].
  intros c1 c2 c3 H1 H2. unfold same_frame in *. destruct_and!. split_and!; try congruence; intros i; etrans; eauto.
Qed.

Lemma locate_one_frame c i c' : locate_one c i = Some c' -> same_frame c c'.
Proof.
  unfold locate_one. destruct (place_section c (heap c i)) as [s|] eqn:E; [|done]. simpl.
  apply place_section_static in E.
  assert (Ha : forall j, static (heap (alter_section (fun _ => s) i c) j) = static (heap c j)).
  { intros j. simpl. destruct (decide (i = j)) as [->|];
      [by rewrite fn_lookup_insert | by rewrite fn_lookup_insert_ne]. }
  destruct (is_window s); destruct (is_anchor _ s); try (destruct (myTopLeft s)); simpl;
    intros; simplify_eq/=; by split_and!.
Qed.

Lemma locate_loop_frame c l c' : locate_loop c l = Some c' -> same_frame c c'.
Proof.
  revert c. induction l as [|i l IH]; intros c; simpl; [by intros [= <-]|].
  destruct (locate_one c i) as [c1|] eqn:E; simpl; [|done]. intros H.
  etrans; [by eapply locate_one_frame | eauto].
Qed.

(** [alter_section] in a loop over distinct sections. *)
Lemma alter_loop_heap f l c i :
  NoDup l ->
  heap (foldl (fun c i => alter_section f i c) c l) i = if decide (i ∈ l) then f (heap c i) else heap c i.
Proof.
  revert c. induction l as [|j l IH]; intros c Hd; simpl; [done|].
  apply NoDup_cons in Hd as [Hj Hd]. rewrite IH by done. simpl.
  destruct (decide (i = j)) as [->|Hij].
  - rewrite (decide_False _ _ Hj), fn_lookup_insert. by rewrite decide_True by set_solver.
  - rewrite fn_lookup_insert_ne by done. repeat case_decide; set_solver.
Qed.

Lemma alter_loop_rest f l c :
  let c' := foldl (fun c i => alter_section f i c) c l in
  c' = set_heap (heap c') c.
Proof.
  revert c. induction l as [|j l IH]; intros c; simpl; [by destruct c|].
  rewrite IH at 1. done.
Qed.

Lemma reset_section_static s : static (reset_section s) = static s.
Proof. unfold reset_section. destruct (origSizeHint _); reflexivity. Qed.

Lemma reset_sections_heap c i :
  NoDup (sections c) -> i ∈ sections c -> heap (reset_sections c) i = reset_section (heap c i).
Proof. intros Hd Hi. unfold reset_sections. simpl. by rewrite alter_loop_heap, decide_True by done. Qed.

Lemma reset_sections_frame c : NoDup (sections c) -> same_frame c (reset_sections c).
Proof.
  intros Hd. unfold reset_sections. pose proof (alter_loop_rest reset_section (sections c) c) as H.
  simpl in H. unfold same_frame. rewrite H. simpl. split_and!; try done.
  intros i. rewrite alter_loop_heap by done. case_decide; [apply reset_section_static | done].
Qed.

Lemma locateSections_frame c c' :
  NoDup (sections c) -> locateSections c = Some c' -> same_frame c c'.
Proof.
  intros Hd H. etrans; [by apply reset_sections_frame | by eapply locate_loop_frame].
Qed.

(** ** Order *)

(** What [reNewAllSections] does to the container. *)
Definition relayout (c : container) : option container :=
  c ← locateSections (orderSections c); Some (applyDrawingOrders c).

Definition not_above (c : container) : nat -> nat -> Prop :=
  lex_le (fun i => zIndex (heap c i)) (fun i => drawingOrder (heap c i)).

Lemma orderSections_perm c : sections (orderSections c) ≡ₚ sections c.
Proof. apply exchange_sort_perm. Qed.

Lemma orderSections_by_z c : sorted_by_first (fun i => zIndex (heap c i)) (sections (orderSections c)).
Proof.
  unfold orderSections, sorted_by_first. simpl.
  pose proof (lex_sort_sorted (fun i => zIndex (heap c i)) (fun i => processingOrder (heap c i)) (sections c)) as H.
  revert H. induction 1; constructor; [done|].
  eapply Forall_impl; [done|]. unfold lex_le. lia.
Qed.

Lemma StronglySorted_ext {A} (P Q : A -> A -> Prop) l :
  (forall x y, P x y -> Q x y) -> StronglySorted P l -> StronglySorted Q l.
Proof. intros HPQ. induction 1; constructor; [done|]. eapply Forall_impl; eauto. Qed.

Lemma relayout_order c c' :
  NoDup (sections c) -> relayout c = Some c' ->
  sections c' ≡ₚ sections c /\ StronglySorted (not_above c') (sections c').
Proof.
  intros Hd. unfold relayout. destruct (locateSections (orderSections c)) as [c1|] eqn:E; [|done].
  simpl. intros [= <-]. apply locateSections_frame in E; [|by rewrite orderSections_perm].
  destruct E as (Hs & _ & _ & _ & _ & _ & _ & _ & Hst). simpl. split.
  - rewrite run_sort_perm, Hs. apply orderSections_perm.
  - unfold not_above. simpl. rewrite run_sort_exchange; [apply lex_sort_sorted|].
    rewrite Hs. eapply StronglySorted_ext; [|apply orderSections_by_z].
    intros i j. simpl. pose proof (Hst i). pose proof (Hst j). static_solve.
Qed.

(** *** Hit test *)

Lemma last_match_Some {A} (P : A -> bool) (l : list A) x :
  last_match P l = Some x <-> exists l1 l2, l = l1 ++ x :: l2 /\ P x = true /\ Forall (fun y => P y = false) l2.
Proof.
  induction l as [|y l IH]; simpl.
  { split; [done|]. intros (l1 & l2 & H & _). by destruct l1. }
  destruct (last_match P l) as [z|] eqn:E.
  - split.
    + intros H. apply IH in H as (l1 & l2 & -> & HP & H2). by exists (y :: l1), l2.
    + intros (l1 & l2 & H & HP & H2). apply IH. destruct l1 as [|y' l1]; simplify_eq/=; [|by exists l1, l2].
      exfalso. apply proj1 in IH. clear IH. revert E H2. clear. intros E H2.
      induction l2 as [|w l2 IH]; [done|]. simpl in E. inversion_clear H2 as [|?? Hw H2'].
      rewrite Hw in E. destruct (last_match P l2); eauto.
  - assert (Hn : Forall (fun y => P y = false) l).
    { revert E. clear. induction l as [|w l IH]; simpl; [by constructor|].
      destruct (last_match P l); [done|]. destruct (P w) eqn:Hw; [done|]. constructor; auto. }
    split.
    + destruct (P y) eqn:Hy; [|done]. intros [= <-]. by exists [], l.
    + intros (l1 & l2 & H & HP & H2). destruct l1 as [|y' l1]; simplify_eq/=; [by rewrite HP|].
      rewrite Forall_forall in Hn. rewrite Hn in HP by set_solver. done.
Qed.

Lemma last_match_None {A} (P : A -> bool) (l : list A) :
  last_match P l = None <-> Forall (fun y => P y = false) l.
Proof.
  induction l as [|w l IH]; simpl; [by repeat constructor|]. rewrite Forall_cons, <- IH.
  destruct (last_match P l), (P w); naive_solver.
Qed.

Lemma StronglySorted_app_cons {A} (Q : A -> A -> Prop) l1 x l2 y :
  StronglySorted Q (l1 ++ x :: l2) -> y ∈ l1 -> Q y x.
Proof.
  induction l1 as [|z l1 IH]; simpl; [set_solver|]. intros H. inversion_clear H as [|?? Hs Hf].
  intros [->|Hy]%elem_of_cons; [|by apply IH]. rewrite Forall_forall in Hf. set_solver.
Qed.

Definition hit (c : container) (p : Z * Z) (i : nat) : Prop :=
  i ∈ sections c /\ can_be_target (heap c i) = true /\ doesSectionIncludePoint (heap c i) p = true.

(** C22: After the sections were placed and ordered, the section an event at a point goes to
    is the one drawn last there: among all sections that are shown and contain the point,
    none has a higher zIndex, or the same and a higher drawing order; and there is none
    only if no section contains the point. *)
Theorem hit_topmost c c' p :
  NoDup (sections c) -> relayout c = Some c' ->
  match findSectionContainingPoint c' p with
  | Some i => hit c' p i /\ forall j, hit c' p j -> not_above c' j i
  | None => forall j, ~ hit c' p j
  end.
Proof.
  intros Hd H. apply relayout_order in H as [_ Hs]; [|done].
  unfold findSectionContainingPoint, hit.
  destruct (last_match _ (sections c')) as [i|] eqn:E.
  - apply last_match_Some in E as (l1 & l2 & El & Hi & H2). apply andb_true_iff in Hi as [Hi1 Hi2].
    split; [split_and!; [|done..]; rewrite El; set_solver|]. intros j (Hj & Hj1 & Hj2).
    rewrite El in Hj, Hs. apply elem_of_app in Hj as [Hj|Hj]; [by eapply StronglySorted_app_cons|].
    apply elem_of_cons in Hj as [->|Hj]; [right; lia|].
    rewrite Forall_forall in H2. apply H2 in Hj. by rewrite Hj1, Hj2 in Hj.
  - apply last_match_None in E. rewrite Forall_forall in E. intros j (Hj & Hj1 & Hj2).
    apply E in Hj. by rewrite Hj1, Hj2 in Hj.
Qed.

(** ** Expansion *)

Lemma max_edge_snoc e ok l t :
  max_edge e ok (l ++ [t]) =
  if match max_edge e ok l with Some m => m <? e t | None => true end && ok t then Some (e t)
  else max_edge e ok l.
Proof. unfold max_edge. by rewrite foldl_app. Qed.

Lemma max_edge_spec e ok l :
  match max_edge e ok l with
  | None => forall t, t ∈ l -> ok t = false
  | Some m => (exists t, t ∈ l /\ ok t = true /\ e t = m) /\ forall t, t ∈ l -> ok t = true -> e t <= m
  end.
Proof.
  induction l as [|t l IH] using rev_ind; [set_solver|]. rewrite max_edge_snoc.
  assert (Hin : forall t1, t1 ∈ l ++ [t] <-> t1 ∈ l \/ t1 = t).
  { intros t1. by rewrite elem_of_app, list_elem_of_singleton. }
  destruct (max_edge e ok l) as [m|].
  - destruct IH as ((t0 & H0 & Hok & He) & IH).
    destruct ((m <? e t) && ok t) eqn:E1; to_prop.
    + split; [exists t; split_and!; [by apply Hin; right|done..]|].
      intros t1 [Hl| ->]%Hin Ht; [|lia]. specialize (IH t1 Hl Ht). lia.
    + split; [exists t0; split_and!; [by apply Hin; left|done..]|].
      intros t1 [Hl| ->]%Hin Ht; [by apply IH|]. rewrite Ht, andb_true_r in E1. lia.
  - destruct (ok t) eqn:E2; simpl.
    + split; [exists t; split_and!; [by apply Hin; right|done..]|].
      intros t1 [Hl| ->]%Hin Ht; [by rewrite (IH t1 Hl) in Ht | lia].
    + intros t1 [Hl| ->]%Hin; [by apply IH | done].
Qed.

Lemma min_edge_max e ok l : min_edge e ok l = Z.opp <$> max_edge (fun t => - e t) ok l.
Proof.
  induction l as [|t l IH] using rev_ind; [done|]. rewrite max_edge_snoc.
  unfold min_edge in *. rewrite foldl_app. simpl. rewrite IH.
  destruct (max_edge _ ok l) as [m|]; simpl.
  - replace (e t <? - m) with (m <? - e t) by lia.
    destruct ((m <? - e t) && ok t); simpl; f_equal; lia.
  - destruct (ok t); simpl; [f_equal; lia | done].
Qed.

Lemma min_edge_spec e ok l :
  match min_edge e ok l with
  | None => forall t, t ∈ l -> ok t = false
  | Some m => (exists t, t ∈ l /\ ok t = true /\ e t = m) /\ forall t, t ∈ l -> ok t = true -> m <= e t
  end.
Proof.
  rewrite min_edge_max. pose proof (max_edge_spec (fun t => - e t) ok l) as H.
  destruct (max_edge _ ok l) as [m|]; simpl; [|done]. destruct H as ((t & Ht & Hok & He) & H).
  split; [exists t; split_and!; [done..|lia]|]. intros t1 H1 Ht1. specialize (H t1 H1 Ht1). simpl in H. lia.
Qed.

(** One axis: from [a] to [b], with the low and high ends of the others and which of them
    are in the way. *)
Definition axis_low (hi : section -> Z) (touch : section -> bool) (N : list section) (d a : Z) : Z :=
  match max_edge hi (fun t => (hi t <? a) && touch t) N with None => 0 | Some m => m + d end.

Definition axis_high (lo : section -> Z) (touch : section -> bool) (N : list section) (d lim a : Z) : Z :=
  match min_edge lo (fun t => (a <? lo t) && touch t) N with None => lim | Some m => m - d end.

Lemma axis_low_spec lo hi touch N d a b :
  0 < d -> 0 <= a <= b ->
  (forall t, t ∈ N -> lo t <= hi t /\ (touch t = true -> hi t + d <= a \/ b + d <= lo t)) ->
  let a1 := axis_low hi touch N d a in
  a1 <= a /\ (forall t, t ∈ N -> touch t = true -> hi t + d <= a1 \/ a + d <= lo t) /\
  (a1 = 0 \/ exists t, t ∈ N /\ touch t = true /\ hi t + d = a1).
Proof.
  intros Hd Hab HN a1. unfold a1, axis_low.
  pose proof (max_edge_spec hi (fun t => (hi t <? a) && touch t) N) as Hm.
  destruct (max_edge hi _ N) as [m|].
  - destruct Hm as ((t & Ht & Hok & Hm) & Hmax). to_prop.
    destruct (HN t Ht) as [Hs Hx]. destruct (Hx ltac:(done)); [|lia].
    split_and!; [lia| |right; exists t; split_and!; [done..|lia]].
    intros t' Ht' Htt. destruct (HN t' Ht') as [Hs' Hx'].
    destruct (Hx' Htt) as [Hl|Hl]; [|lia]. left.
    enough (hi t' <= m) by lia. apply Hmax; [done|]. rewrite Htt. lia.
  - split_and!; [lia| |by left]. intros t' Ht' Htt. specialize (Hm t' Ht'). simpl in Hm. rewrite Htt in Hm.
    destruct (HN t' Ht') as [Hs' Hx']. destruct (Hx' Htt); lia.
Qed.

Lemma axis_high_spec lo hi touch N d lim a b :
  0 < d -> a <= b -> a <= lim ->
  (forall t, t ∈ N -> lo t <= hi t /\ (touch t = true -> hi t + d <= a \/ b + d <= lo t)) ->
  let b1 := axis_high lo touch N d lim a in
  a <= b1 /\ (forall t, t ∈ N -> touch t = true -> hi t + d <= a \/ b1 + d <= lo t) /\
  (b1 = lim \/ exists t, t ∈ N /\ touch t = true /\ b1 + d = lo t).
Proof.
  intros Hd Hab Hlim HN b1. unfold b1, axis_high.
  pose proof (min_edge_spec lo (fun t => (a <? lo t) && touch t) N) as Hm.
  destruct (min_edge lo _ N) as [m|].
  - destruct Hm as ((t & Ht & Hok & Hm) & Hmin). to_prop.
    destruct (HN t Ht) as [Hs Hx]. destruct (Hx ltac:(done)); [lia|].
    split_and!; [lia| |right; exists t; split_and!; [done..|lia]].
    intros t' Ht' Htt. destruct (HN t' Ht') as [Hs' Hx'].
    destruct (Hx' Htt) as [Hl|Hl]; [lia|]. right.
    enough (m <= lo t') by lia. apply Hmin; [done|]. rewrite Htt. lia.
  - split_and!; [lia| |by left]. intros t' Ht' Htt. specialize (Hm t' Ht'). simpl in Hm. rewrite Htt in Hm.
    destruct (HN t' Ht') as [Hs' Hx']. destruct (Hx' Htt); lia.
Qed.

(** Both, as the code does them: what expands to the low side ends where it began. *)
Lemma expand_axis lo hi touch N d lim a b (el er : bool) :
  0 < d -> 0 <= a <= b -> a <= lim ->
  (forall t, t ∈ N -> lo t <= hi t /\ (touch t = true -> hi t + d <= a \/ b + d <= lo t)) ->
  let a1 := if el then axis_low hi touch N d a else a in
  let b1 := if er then axis_high lo touch N d lim a1 else if el then a else b in
  a1 <= a /\ a1 <= b1 /\
  (forall t, t ∈ N -> touch t = true -> hi t + d <= a1 \/ b1 + d <= lo t) /\
  (el = true -> a1 = 0 \/ exists t, t ∈ N /\ touch t = true /\ hi t + d = a1) /\
  (er = true -> b1 = lim \/ exists t, t ∈ N /\ touch t = true /\ b1 + d = lo t).
Proof.
  intros Hd Hab Hlim HN.
  assert (H1 : let a1 := if el then axis_low hi touch N d a else a in
               let b1 := if el then a else b in a1 <= a /\ a1 <= b1 /\
               (forall t, t ∈ N -> touch t = true -> hi t + d <= a1 \/ b1 + d <= lo t) /\
               (el = true -> a1 = 0 \/ exists t, t ∈ N /\ touch t = true /\ hi t + d = a1)).
  { destruct el; simpl.
    - destruct (axis_low_spec lo hi touch N d a b Hd Hab HN) as (H1 & H2 & H3). by split_and!.
    - split_and!; [lia..| |done]. intros t Ht. by apply HN. }
  destruct H1 as (H1 & H2 & H3 & H4). set (a1 := if el then _ else a) in *. intros a1' b1.
  unfold b1, a1'. destruct er; [|by split_and!].
  destruct (axis_high_spec lo hi touch N d lim a1 (if el then a else b) Hd) as (H5 & H6 & H7);
    [done|lia| |by split_and!].
  intros t Ht. split; [by apply HN | by apply H3].
Qed.

Definition spacing (c : container) : Z := roundedDpiScale c * per_pixel.

Definition sized (s : section) : Prop := 0 <= (size s).1 /\ 0 <= (size s).2.
Definition touch_x (t s : section) : Prop := left_of t <= right_of s /\ left_of s <= right_of t.
Definition touch_y (t s : section) : Prop := top_of t <= bottom_of s /\ top_of s <= bottom_of t.
Definition beside (d : Z) (t s : section) : Prop := right_of t + d <= left_of s \/ right_of s + d <= left_of t.
Definition above_below (d : Z) (t s : section) : Prop := bottom_of t + d <= top_of s \/ bottom_of s + d <= top_of t.

Lemma intersect_y_spec s1 s2 :
  sized s1 -> sized s2 -> doSectionsIntersectOnYAxis s1 s2 = true <-> touch_y s1 s2.
Proof. unfold sized, doSectionsIntersectOnYAxis, touch_y, bottom_of. lia. Qed.

Lemma intersect_x_spec s1 s2 :
  sized s1 -> sized s2 -> doSectionsIntersectOnXAxis s1 s2 = true <-> touch_x s1 s2.
Proof. unfold sized, doSectionsIntersectOnXAxis, touch_x, right_of. lia. Qed.

Lemma neighbours_ext c s s' : static s' = static s -> neighbours c s' = neighbours c s.
Proof.
  intros H. unfold neighbours.
  assert (zIndex s' = zIndex s) as -> by static_solve.
  by assert (name s' = name s) as -> by static_solve.
Qed.

Lemma expands_ext d s s' : static s' = static s -> expands d s' = expands d s.
Proof.
  intros H. unfold expands. assert (expand s' = expand s) as -> by static_solve. done.
Qed.

Lemma intersect_y_ext t s s' :
  top_of s' = top_of s -> bottom_of s' = bottom_of s ->
  doSectionsIntersectOnYAxis t s' = doSectionsIntersectOnYAxis t s.
Proof. intros H1 H2. unfold doSectionsIntersectOnYAxis. by rewrite H1, H2. Qed.

Lemma intersect_x_ext t s s' :
  left_of s' = left_of s -> right_of s' = right_of s ->
  doSectionsIntersectOnXAxis t s' = doSectionsIntersectOnXAxis t s.
Proof. intros H1 H2. unfold doSectionsIntersectOnXAxis. by rewrite H1, H2. Qed.

Lemma max_edge_ext e ok ok' l : (forall t, ok t = ok' t) -> max_edge e ok l = max_edge e ok' l.
Proof.
  intros H. induction l as [|t l IH] using rev_ind; [done|]. by rewrite !max_edge_snoc, IH, H.
Qed.

Lemma min_edge_ext e ok ok' l : (forall t, ok t = ok' t) -> min_edge e ok l = min_edge e ok' l.
Proof. intros H. rewrite !min_edge_max. by erewrite max_edge_ext. Qed.

Lemma right_set_size x h s : right_of (set_size (x - left_of s, h) s) = x.
Proof. unfold right_of, left_of. simpl. unfold top_left. simpl. lia. Qed.

Lemma bottom_set_size w y s : bottom_of (set_size (w, y - top_of s) s) = y.
Proof. unfold bottom_of, top_of. simpl. unfold top_left. simpl. lia. Qed.

(** The edges after the two steps along each axis. *)
Lemma expand_x_edges c s :
  let N := neighbours c s in
  let touch := fun t => doSectionsIntersectOnYAxis t s in
  let s1 := expand_right c (expand_left c s) in
  left_of s1 = (if expands "left" s then axis_low right_of touch N (spacing c) (left_of s) else left_of s) /\
  right_of s1 = (if expands "right" s then axis_high left_of touch N (spacing c) (right c) (left_of s1)
                 else if expands "left" s then left_of s else right_of s) /\
  top_of s1 = top_of s /\ bottom_of s1 = bottom_of s /\ static s1 = static s.
Proof.
  intros N touch s1. set (s0 := expand_left c s) in *.
  assert (H0 : left_of s0 = (if expands "left" s then axis_low right_of touch N (spacing c) (left_of s) else left_of s)
               /\ right_of s0 = (if expands "left" s then left_of s else right_of s)
               /\ top_of s0 = top_of s /\ bottom_of s0 = bottom_of s /\ static s0 = static s).
  { unfold s0, expand_left. destruct (expands "left" s); [|by split_and!].
    split_and!; try done. unfold right_of at 1, left_of at 1. simpl. lia. }
  destruct H0 as (Hl & Hr & Ht & Hb & Hs). unfold s1, expand_right. rewrite (expands_ext _ _ _ Hs).
  destruct (expands "right" s); [|by split_and!].
  split_and!; try done. rewrite right_set_size. unfold hitRight, axis_high.
  rewrite (neighbours_ext _ _ _ Hs).
  rewrite (min_edge_ext _ _ (fun t => (left_of s0 <? left_of t) && touch t)); [done|].
  intros t. unfold touch. by rewrite (intersect_y_ext t s s0).
Qed.

Lemma expand_y_edges c s :
  let N := neighbours c s in
  let touch := fun t => doSectionsIntersectOnXAxis t s in
  let s1 := expand_bottom c (expand_top c s) in
  top_of s1 = (if expands "top" s then axis_low bottom_of touch N (spacing c) (top_of s) else top_of s) /\
  bottom_of s1 = (if expands "bottom" s then axis_high top_of touch N (spacing c) (bottom c) (top_of s1)
                  else if expands "top" s then top_of s else bottom_of s) /\
  left_of s1 = left_of s /\ right_of s1 = right_of s /\ static s1 = static s.
Proof.
  intros N touch s1. set (s0 := expand_top c s) in *.
  assert (H0 : top_of s0 = (if expands "top" s then axis_low bottom_of touch N (spacing c) (top_of s) else top_of s)
               /\ bottom_of s0 = (if expands "top" s then top_of s else bottom_of s)
               /\ left_of s0 = left_of s /\ right_of s0 = right_of s /\ static s0 = static s).
  { unfold s0, expand_top. destruct (expands "top" s); [|by split_and!].
    split_and!; try done. unfold bottom_of at 1, top_of at 1. simpl. lia. }
  destruct H0 as (Hl & Hr & Ht & Hb & Hs). unfold s1, expand_bottom. rewrite (expands_ext _ _ _ Hs).
  destruct (expands "bottom" s); [|by split_and!].
  split_and!; try done. rewrite bottom_set_size. unfold hitBottom, axis_high.
  rewrite (neighbours_ext _ _ _ Hs).
  rewrite (min_edge_ext _ _ (fun t => (top_of s0 <? top_of t) && touch t)); [done|].
  intros t. unfold touch. by rewrite (intersect_x_ext t s s0).
Qed.

(** *** Rounding leaves whole pixels alone *)

Definition whole_rect (s : section) : Prop :=
  whole (left_of s) /\ whole (right_of s) /\ whole (top_of s) /\ whole (bottom_of s).

Lemma js_round_whole x : whole x -> js_round x = x.
Proof.
  pose proof per_pixel_pos. intros [k ->]. unfold js_round. by rewrite js_round_div_mul.
Qed.

Lemma whole_add x y : whole x -> whole y -> whole (x + y).
Proof. intros [k ->] [l ->]. exists (k + l). lia. Qed.

Lemma whole_sub x y : whole x -> whole y -> whole (x - y).
Proof. intros [k ->] [l ->]. exists (k - l). lia. Qed.

Lemma spacing_whole c : whole (spacing c).
Proof. by exists (roundedDpiScale c). Qed.

Lemma round_edges s :
  whole_rect s ->
  left_of (roundPositionAndSize s) = left_of s /\ right_of (roundPositionAndSize s) = right_of s /\
  top_of (roundPositionAndSize s) = top_of s /\ bottom_of (roundPositionAndSize s) = bottom_of s.
Proof.
  intros (Hl & Hr & Ht & Hb).
  assert (Hw : whole (size s).1).
  { replace (size s).1 with (right_of s - left_of s) by (unfold right_of; lia). by apply whole_sub. }
  assert (Hh : whole (size s).2).
  { replace (size s).2 with (bottom_of s - top_of s) by (unfold bottom_of; lia). by apply whole_sub. }
  unfold roundPositionAndSize, right_of, bottom_of, left_of, top_of, top_left. simpl.
  rewrite !js_round_whole by done. done.
Qed.

(** Where there is room for the section as it is, expanding it makes no room for less. *)
Definition fits (c : container) (s : section) : Prop :=
  sized s /\ whole_rect s /\ 0 <= left_of s <= right c /\ 0 <= top_of s <= bottom c /\
  forall t, t ∈ neighbours c s ->
    sized t /\ whole_rect t /\
    (above_below (spacing c) t s \/ touch_y t s /\ beside (spacing c) t s).

(** The edges of the expanded section: that it is where an edge of the canvas or the
    space next to a neighbour is. *)
Definition reaches (d lim : Z) (e : section -> Z) (N : list section) (x : Z) : Prop :=
  x = lim \/ exists t, t ∈ N /\ x = e t + d.

Lemma reaches_whole d lim e N x :
  whole d -> whole lim -> (forall t, t ∈ N -> whole (e t)) -> reaches d lim e N x -> whole x.
Proof. intros Hd Hl HN [->|(t & Ht & ->)]; [done|]. apply whole_add; auto. Qed.

Lemma expand_x_fits c s :
  0 < spacing c -> fits c s ->
  let N := neighbours c s in
  let s1 := expand_right c (expand_left c s) in
  left_of s1 <= left_of s /\ left_of s1 <= right_of s1 /\
  (forall t, t ∈ N -> touch_y t s -> beside (spacing c) t s1) /\
  (expands "left" s = true -> reaches (spacing c) 0 right_of N (left_of s1)) /\
  (expands "right" s = true -> reaches (- spacing c) (right c) left_of N (right_of s1)).
Proof.
  intros Hd (Hs & Hw & Hx & Hy & HN) N s1. pose proof (expand_x_edges c s) as (El & Er & _ & _ & _).
  fold s1 N in El, Er. destruct Hs as [Hs1 Hs2].
  pose proof (expand_axis left_of right_of (fun t => doSectionsIntersectOnYAxis t s) N (spacing c) (right c)
    (left_of s) (right_of s) (expands "left" s) (expands "right" s) Hd) as HA.
  cbv zeta in HA. rewrite <- El in HA. rewrite <- Er in HA.
  destruct HA as (H1 & H2 & H3 & H4 & H5); [unfold right_of; lia|lia| |].
  { intros t Ht. destruct (HN t Ht) as (Hst & _ & Hap). split; [unfold right_of, sized in *; lia|].
    rewrite intersect_y_spec by done. intros Hty.
    destruct Hap as [Hab|[_ Hbe]]; [unfold above_below, touch_y in *; lia|done]. }
  split_and!; [done..| | |].
  - intros t Ht Hty. apply H3; [done|]. apply intersect_y_spec; [by apply HN|done..].
  - intros E. destruct (H4 E) as [?|(t & Ht & _ & ?)]; [by left|right; exists t; split; [done|lia]].
  - intros E. destruct (H5 E) as [?|(t & Ht & _ & ?)]; [by left|right; exists t; split; [done|lia]].
Qed.

Lemma expand_y_fits c s s1 :
  0 < spacing c -> fits c s -> s1 = expand_right c (expand_left c s) ->
  let N := neighbours c s in
  let s2 := expand_bottom c (expand_top c s1) in
  top_of s2 <= top_of s /\ top_of s2 <= bottom_of s2 /\
  (forall t, t ∈ N -> touch_x t s1 -> above_below (spacing c) t s2) /\
  (expands "top" s = true -> reaches (spacing c) 0 bottom_of N (top_of s2)) /\
  (expands "bottom" s = true -> reaches (- spacing c) (bottom c) top_of N (bottom_of s2)).
Proof.
  intros Hd Hf -> N s2. pose proof (expand_x_fits c s Hd Hf) as (X1 & X2 & X3 & _ & _).
  pose proof (expand_x_edges c s) as (_ & _ & Et & Eb & Est). set (s1 := expand_right c _) in *.
  pose proof (expand_y_edges c s1) as (El & Er & _). fold s2 in El, Er.
  rewrite (neighbours_ext c _ _ Est), (expands_ext "top" _ _ Est) in El, Er.
  rewrite (expands_ext "bottom" _ _ Est) in Er. fold N in El, Er.
  rewrite Et, Eb in *. destruct Hf as (Hs & Hw & Hx & Hy & HN). destruct Hs as [Hs1 Hs2].
  assert (Hs : sized s1) by (unfold sized; unfold right_of, bottom_of in *; lia).
  pose proof (expand_axis top_of bottom_of (fun t => doSectionsIntersectOnXAxis t s1) N (spacing c) (bottom c)
    (top_of s) (bottom_of s) (expands "top" s) (expands "bottom" s) Hd) as HA.
  cbv zeta in HA. rewrite <- El in HA. rewrite <- Er in HA.
  destruct HA as (H1 & H2 & H3 & H4 & H5); [unfold bottom_of; lia|lia| |].
  { intros t Ht. destruct (HN t Ht) as (Hst & _ & Hap). split; [unfold bottom_of, sized in *; lia|].
    rewrite intersect_x_spec by done. intros Htx.
    destruct Hap as [Hab|[Hty _]]; [done|]. pose proof (X3 t Ht Hty). unfold beside, touch_x in *. lia. }
  split_and!; [done..| | |].
  - intros t Ht Htx. apply H3; [done|]. apply intersect_x_spec; [by apply HN|done..].
  - intros E. destruct (H4 E) as [?|(t & Ht & _ & ?)]; [by left|right; exists t; split; [done|lia]].
  - intros E. destruct (H5 E) as [?|(t & Ht & _ & ?)]; [by left|right; exists t; split; [done|lia]].
Qed.

Lemma expansion_core c s s1 s2 :
  s1 = expand_right c (expand_left c s) -> s2 = expand_bottom c (expand_top c s1) ->
  0 < spacing c -> whole (right c) -> whole (bottom c) -> fits c s ->
  let N := neighbours c s in
  sized s2 /\ whole_rect s2 /\
  (forall t, t ∈ N -> ~ (touch_x t s2 /\ touch_y t s2)) /\
  (expands "left" s = true -> reaches (spacing c) 0 right_of N (left_of s2)) /\
  (expands "right" s = true -> reaches (- spacing c) (right c) left_of N (right_of s2)) /\
  (expands "top" s = true -> reaches (spacing c) 0 bottom_of N (top_of s2)) /\
  (expands "bottom" s = true -> reaches (- spacing c) (bottom c) top_of N (bottom_of s2)).
Proof.
  intros Es1 Es2 Hd Hwr Hwb Hf N.
  pose proof (expand_x_fits c s Hd Hf) as (X1 & X2 & X3 & X4 & X5).
  pose proof (expand_y_fits c s s1 Hd Hf Es1) as (Y1 & Y2 & Y3 & Y4 & Y5).
  pose proof (expand_x_edges c s) as (Exl & Exr & Et & Eb & Est).
  rewrite <- Es1 in X1, X2, X3, X4, X5, Exl, Exr, Et, Eb, Est.
  pose proof (expand_y_edges c s1) as (Eyt & Eyb & El & Er & _).
  rewrite <- Es2 in Y1, Y2, Y3, Y4, Y5, Eyt, Eyb, El, Er.
  rewrite (expands_ext "top" _ _ Est) in Eyt, Eyb. rewrite (expands_ext "bottom" _ _ Est) in Eyb.
  fold N in X3, X4, X5, Y3, Y4, Y5. pose proof Hf as (Hs & (Wl & Wr & Wt & Wb) & _ & _ & HN). fold N in HN.
  assert (HW : forall t, t ∈ N -> whole_rect t) by (intros t Ht; by apply HN).
  pose proof (spacing_whole c) as Wd. pose proof (whole_sub 0 _ ltac:(by exists 0) Wd) as Wd'.
  assert (W0 : whole 0) by (by exists 0). replace (0 - spacing c) with (- spacing c) in Wd' by lia.
  assert (Hwl : whole (left_of s1)).
  { destruct (expands "left" s); [eapply reaches_whole; [..|by apply X4]; try done|by rewrite Exl].
    intros t Ht. by apply HW. }
  assert (Hwr' : whole (right_of s1)).
  { destruct (expands "right" s); [eapply reaches_whole; [..|by apply X5]; try done|].
    - intros t Ht. by apply HW.
    - rewrite Exr. by destruct (expands "left" s). }
  assert (Hwt : whole (top_of s2)).
  { destruct (expands "top" s); [eapply reaches_whole; [..|by apply Y4]; try done|by rewrite Eyt, Et].
    intros t Ht. by apply HW. }
  assert (Hwb' : whole (bottom_of s2)).
  { destruct (expands "bottom" s); [eapply reaches_whole; [..|by apply Y5]; try done|].
    - intros t Ht. by apply HW.
    - rewrite Eyb, Et, Eb. by destruct (expands "top" s). }
  assert (Hw : whole_rect s2) by (split_and!; [by rewrite El|by rewrite Er|done..]).
  rewrite El, Er. split; [unfold sized, right_of, bottom_of in *; lia|].
  split; [done|]. split; [|done]. intros t Ht [Htx Hty].
  assert (Hx1 : touch_x t s1) by (unfold touch_x in *; by rewrite El, Er in Htx).
  pose proof (Y3 t Ht Hx1). unfold above_below, touch_y in *. lia.
Qed.

(** C21: A section placed where it has room - inside the canvas, a pixel of spacing away from
    every section of its level placed before it - keeps clear of all of them when it is
    expanded, whatever the directions are; and in each direction it reaches the edge of
    the canvas or the spacing next to one of them. *)
Theorem expansion_fits c s :
  0 < spacing c -> whole (right c) -> whole (bottom c) -> fits c s ->
  let N := neighbours c s in
  let s' := roundPositionAndSize (expandSection c s) in
  sized s' /\
  (forall t, t ∈ N -> ~ (touch_x t s' /\ touch_y t s')) /\
  (expands "left" s = true -> reaches (spacing c) 0 right_of N (left_of s')) /\
  (expands "right" s = true -> reaches (- spacing c) (right c) left_of N (right_of s')) /\
  (expands "top" s = true -> reaches (spacing c) 0 bottom_of N (top_of s')) /\
  (expands "bottom" s = true -> reaches (- spacing c) (bottom c) top_of N (bottom_of s')).
Proof.
  intros Hd Hwr Hwb Hf. pose proof (expansion_core c s _ (expandSection c s) eq_refl eq_refl Hd Hwr Hwb Hf) as H.
  revert H. generalize (expandSection c s) as s2. intros s2 (Hs & Hw & Hn & Hl & Hr & Ht & Hb).
  apply round_edges in Hw as (Rl & Rr & Rt & Rb). cbv zeta. rewrite Rl, Rr, Rt, Rb.
  split; [unfold sized, right_of, bottom_of in *; lia|]. split; [|done].
  intros t Hin. specialize (Hn t Hin). unfold touch_x, touch_y in *. by rewrite Rl, Rr, Rt, Rb.
Qed.

(** ** Names *)

(** Sections are told apart by their names, which [addSection] checks. *)
Definition wf_names (c : container) : Prop :=
  NoDup (sections c) /\ (forall i, i ∈ sections c -> name (heap c i) <> "") /\
  forall i j, i ∈ sections c -> j ∈ sections c -> name (heap c i) = name (heap c j) -> i = j.

Lemma getSectionWithName_sound n c i :
  getSectionWithName n c = Some i -> i ∈ sections c /\ name (heap c i) = n.
Proof.
  unfold getSectionWithName. destruct (String.eqb n "") eqn:E; [done|].
  destruct (list_find _ (sections c)) as [[k x]|] eqn:El; [|done]. simpl. intros [= <-].
  apply list_find_Some in El as (Hx & Hn & _). split; [by eapply list_elem_of_lookup_2|done].
Qed.

Lemma getSectionWithName_spec n c i :
  wf_names c -> getSectionWithName n c = Some i <-> i ∈ sections c /\ name (heap c i) = n.
Proof.
  intros (Hd & Hne & Hu). split; [apply getSectionWithName_sound|]. intros [Hi Hn].
  destruct (getSectionWithName n c) as [j|] eqn:E.
  - apply getSectionWithName_sound in E as [Hj Hnj]. f_equal. apply Hu; congruence.
  - exfalso. unfold getSectionWithName in E. destruct (String.eqb_spec n "") as [->|Hn0]; [by apply (Hne i)|].
    destruct (list_find _ (sections c)) as [[k x]|] eqn:El; [done|].
    apply list_find_None in El. rewrite Forall_forall in El. by apply (El i).
Qed.

Lemma wf_names_frame c c' : same_frame c c' -> wf_names c -> wf_names c'.
Proof.
  intros (Hs & _ & _ & _ & _ & _ & _ & _ & Hst) (Hd & Hne & Hu).
  assert (Hn : forall i, name (heap c' i) = name (heap c i)).
  { intros i. pose proof (Hst i). static_solve. }
  unfold wf_names. rewrite Hs. setoid_rewrite Hn. done.
Qed.

Lemma wf_names_perm c l : l ≡ₚ sections c -> wf_names c -> wf_names (set_sections l c).
Proof.
  intros Hp (Hd & Hne & Hu). split_and!; simpl; [by rewrite Hp|intros i; rewrite Hp; apply Hne|].
  intros i j. rewrite Hp. apply Hu.
Qed.

Lemma relayout_wf c c' : wf_names c -> relayout c = Some c' -> wf_names c'.
Proof.
  intros Hw. unfold relayout. destruct (locateSections (orderSections c)) as [c1|] eqn:E; [|done].
  simpl. intros [= <-]. apply wf_names_perm; [apply run_sort_perm|].
  assert (Hw' : wf_names (orderSections c)) by (apply wf_names_perm; [apply exchange_sort_perm|done]).
  eapply wf_names_frame; [|done]. apply locateSections_frame; [apply Hw'|done].
Qed.

(** ** Bounds lists *)

(** [b] is bound to [a], or [a] to [b], and [b] has its place. *)
Definition bound (c : container) (a b : nat) : Prop :=
  b ∈ sections c /\ isLocated (heap c b) = true /\
  (boundToSection (heap c a) = Some (name (heap c b)) \/
   boundToSection (heap c b) = Some (name (heap c a))).

Definition unlisted (c : container) (l : list nat) : nat :=
  length (filter (fun k => k ∉ l) (sections c)).

Lemma bound_temp c i l x :
  wf_names c -> x ∈ bound_parent c i l ++ bound_children c i l <-> bound c i x /\ x ∉ l.
Proof.
  intros Hw. unfold bound_parent, bound_children, bound. rewrite elem_of_app, list_elem_of_filter.
  assert (Hp : x ∈ match boundToSection (heap c i) ≫= fun n => getSectionWithName n c with
                   | Some p => if isLocated (heap c p) && negb (bool_decide (p ∈ l)) then [p] else []
                   | None => [] end <->
               x ∈ sections c /\ isLocated (heap c x) = true /\
               boundToSection (heap c i) = Some (name (heap c x)) /\ x ∉ l).
  { destruct (boundToSection (heap c i)) as [n|]; simpl; [|set_solver].
    destruct (getSectionWithName n c) as [p|] eqn:E.
    - apply getSectionWithName_sound in E as [Hp Hn]. destruct Hw as (_ & _ & Hu).
      destruct (isLocated (heap c p)) eqn:El; simpl; [case_bool_decide; simpl|].
      + split; [set_solver|]. intros (Hx & _ & [= Hb] & Hxl). rewrite (Hu x p) in Hxl; [done|done..|congruence].
      + rewrite list_elem_of_singleton. split; [intros ->; by rewrite Hn|].
        intros (Hx & _ & [= Hb] & Hxl). apply Hu; congruence.
      + split; [set_solver|]. intros (Hx & Hxl & [= Hb] & _). rewrite (Hu x p) in Hxl; [congruence|done..|congruence].
    - split; [set_solver|]. intros (Hx & _ & [= Hb] & _).
      assert (getSectionWithName n c = Some x) by (by apply getSectionWithName_spec). congruence. }
  rewrite Hp. naive_solver.
Qed.

Lemma unlisted_mono c l l' : (forall x, x ∈ l -> x ∈ l') -> (unlisted c l' <= unlisted c l)%nat.
Proof.
  intros H. unfold unlisted. induction (sections c) as [|k s IH]; [done|].
  rewrite !filter_cons. repeat case_decide; simpl; try lia. exfalso. eauto.
Qed.

Lemma unlisted_lt c l l' t :
  (forall x, x ∈ l -> x ∈ l') -> t ∈ sections c -> t ∉ l -> t ∈ l' ->
  (unlisted c l' < unlisted c l)%nat.
Proof.
  intros H Hs Ht Ht'. unfold unlisted. revert Hs.
  induction (sections c) as [|k s IH]; intros Hs; [set_solver|].
  assert (Hm : (length (filter (fun k => k ∉ l') s) <= length (filter (fun k => k ∉ l) s))%nat).
  { clear -H. induction s as [|k s IH]; [done|].
    rewrite !filter_cons. repeat case_decide; simpl; try lia. exfalso. eauto. }
  rewrite !filter_cons. apply elem_of_cons in Hs as [->|Hs].
  - rewrite (decide_False (P := k ∉ l')) by auto. rewrite decide_True by done. simpl. lia.
  - specialize (IH Hs). repeat case_decide; simpl; try lia. exfalso. eauto.
Qed.

(** What one call adds to the list: sections bound to it, closed under the relation. *)
Definition visited (c : container) (i : nat) (acc r : list nat) : Prop :=
  (forall x, x ∈ acc -> x ∈ r) /\
  (forall x, x ∈ r -> x ∈ acc \/ rtc (bound c) i x) /\
  (forall x y, x ∈ r -> x ∉ acc -> bound c x y -> y ∈ r).

Lemma update_fold fuel c i (acc' : list nat) ts a :
  (forall t acc, (unlisted c (acc ++ [t]) < fuel)%nat ->
     exists r, updateBoundSectionList fuel c t acc = Some r /\ t ∈ r /\ visited c t acc r) ->
  (unlisted c acc' <= fuel)%nat ->
  (forall t, t ∈ ts -> bound c i t /\ t ∉ acc') -> (forall x, x ∈ acc' -> x ∈ a) ->
  exists r, foldl (fun acc t => acc ≫= updateBoundSectionList fuel c t) (Some a) ts = Some r /\
            (forall t, t ∈ ts -> t ∈ r) /\ visited c i a r.
Proof.
  intros IH Hf. revert a. induction ts as [|t ts IHts]; intros a Hts Ha; simpl.
  { exists a. split_and!; [done|set_solver|]. split_and!; naive_solver. }
  destruct (Hts t) as [Hb Ht]; [by left|].
  destruct (IH t a) as (r1 & -> & Htr & V1a & V1b & V1c).
  { eapply Nat.lt_le_trans; [|exact Hf]. apply (unlisted_lt c acc' _ t); [|apply Hb|done|]; set_solver. }
  destruct (IHts r1) as (r & -> & Hr & Va & Vb & Vc);
    [intros t' Ht'; apply Hts; by right|auto|].
  exists r. split_and!; [done|intros t' [->|Ht']%elem_of_cons; auto|]. split_and!.
  - auto.
  - intros x Hx. destruct (Vb x Hx) as [Hx1|?]; [|by right].
    destruct (V1b x Hx1) as [?|?]; [by left|right]. by eapply rtc_l.
  - intros x y Hx Hxa Hxy. destruct (decide (x ∈ r1)) as [Hx1|Hx1]; [|by apply (Vc x y)].
    apply Va, (V1c x y); done.
Qed.

Lemma updateBoundSectionList_spec fuel c i acc :
  wf_names c -> (unlisted c (acc ++ [i]) < fuel)%nat ->
  exists r, updateBoundSectionList fuel c i acc = Some r /\ i ∈ r /\ visited c i acc r.
Proof.
  intros Hw. revert i acc. induction fuel as [|fuel IH]; intros i acc Hf; [lia|]. simpl.
  set (acc' := acc ++ [i]) in *.
  destruct (update_fold fuel c i acc' (bound_parent c i acc' ++ bound_children c i acc') acc')
    as (r & -> & Hr & Va & Vb & Vc);
    [exact IH|lia|intros t Ht; by apply bound_temp in Ht|auto|].
  exists r. split_and!; [done|apply Va; unfold acc'; set_solver|]. split_and!.
  - intros x Hx. apply Va. unfold acc'. set_solver.
  - intros x Hx. destruct (Vb x Hx) as [Hx'|?]; [|by right]. unfold acc' in Hx'.
    apply elem_of_app in Hx' as [?|Hx']; [by left|]. apply list_elem_of_singleton in Hx' as ->. right. done.
  - intros x y Hx Hxa Hxy. destruct (decide (x ∈ acc')) as [Hx'|Hx']; [|by apply (Vc x y)].
    unfold acc' in Hx'. apply elem_of_app in Hx' as [?|Hx']; [done|].
    apply list_elem_of_singleton in Hx' as ->.
    destruct (decide (y ∈ acc')) as [Hy|Hy]; [by apply Va|]. apply Hr, bound_temp; done.
Qed.

(** The fuel is enough, and the list has exactly the sections connected to the first. *)
Lemma updateBoundSectionList_exact c i :
  wf_names c ->
  exists r, updateBoundSectionList (bound_fuel c) c i [] = Some r /\
            forall x, x ∈ r <-> rtc (bound c) i x.
Proof.
  intros Hw. destruct (updateBoundSectionList_spec (bound_fuel c) c i []) as (r & Hr & Hi & _ & Vb & Vc); [done| |].
  { unfold bound_fuel, unlisted. apply Nat.lt_succ_r, length_filter_le. }
  exists r. split; [done|]. intros x. split.
  - intros Hx. destruct (Vb x Hx) as [?|?]; [set_solver|done].
  - intros H. clear Vb Hr. revert Hi. induction H as [x|x y z Hxy Hyz IH]; [done|].
    intros Hx. apply IH. apply (Vc x y); [done|apply not_elem_of_nil|done].
Qed.

Lemma pop_above_spec c i l :
  i ∈ l -> (forall k, k ∈ l -> name (heap c k) = name (heap c i) -> k = i) ->
  exists l1 l2, l = l1 ++ i :: l2 /\ pop_above c (name (heap c i)) l = i :: l2.
Proof.
  intros Hi Hu. induction l as [|k l IH]; [set_solver|]. simpl.
  destruct (String.eqb_spec (name (heap c k)) (name (heap c i))) as [E|E].
  - rewrite (Hu k) by (done || by left). by exists [], l.
  - destruct IH as (l1 & l2 & -> & E2); [set_solver|intros; apply Hu; [by right|done]|].
    by exists (k :: l1), l2.
Qed.

Lemma StronglySorted_app_l {A} (P : A -> A -> Prop) l1 l2 :
  StronglySorted P (l1 ++ l2) -> StronglySorted P l1.
Proof.
  induction l1 as [|x l1 IH]; simpl; [by constructor|]. intros H. inversion_clear H as [|?? Hs Hf].
  constructor; [auto|]. by apply Forall_app in Hf as [? _].
Qed.

Lemma StronglySorted_app_cons_r {A} (P : A -> A -> Prop) l1 x l2 y :
  StronglySorted P (l1 ++ x :: l2) -> y ∈ l2 -> P x y.
Proof.
  induction l1 as [|z l1 IH]; simpl; intros H; inversion_clear H as [|?? Hs Hf]; [|by apply IH].
  rewrite Forall_forall in Hf. intros Hy. by apply Hf.
Qed.

(** A bounds list: from the bottom to the section itself, what is bound to it. *)
Definition bounds_list_of (c : container) (i : nat) (l : list nat) : Prop :=
  (exists below, l = below ++ [i]) /\
  StronglySorted (not_above c) l /\
  (forall x, x ∈ l -> rtc (bound c) i x) /\
  (forall x, rtc (bound c) i x -> x ∈ l \/ not_above c i x).

Lemma rtc_bound_sections c i x : i ∈ sections c -> rtc (bound c) i x -> x ∈ sections c.
Proof. intros Hi H. induction H as [|x y z Hxy _ IH]; [done|]. apply IH, Hxy. Qed.

Lemma bounds_of_spec c i :
  wf_names c -> i ∈ sections c -> bounds_list_of c i (bounds_of c i).
Proof.
  intros Hw Hi. unfold bounds_of. destruct (updateBoundSectionList_exact c i Hw) as (r & -> & Hr). simpl.
  unfold orderBoundsList.
  set (r' := exchange_sort _ r). assert (Hp : r' ≡ₚ r) by apply exchange_sort_perm.
  assert (Hs : StronglySorted (not_above c) r') by apply lex_sort_sorted.
  destruct (pop_above_spec c i (reverse r')) as (l1 & l2 & E & ->).
  - rewrite elem_of_reverse, Hp. by apply Hr.
  - intros k Hk Hn. rewrite elem_of_reverse, Hp, Hr in Hk. apply rtc_bound_sections in Hk; [|done].
    by apply Hw.
  - assert (E' : r' = reverse l2 ++ i :: reverse l1).
    { rewrite <- (reverse_involutive r'), E, reverse_app, reverse_cons. by rewrite <- app_assoc. }
    rewrite reverse_cons. split_and!.
    + by exists (reverse l2).
    + apply (StronglySorted_app_l _ _ (reverse l1)). rewrite <- app_assoc. simpl. by rewrite <- E'.
    + intros x Hx. apply Hr. rewrite <- Hp, E'. set_solver.
    + intros x Hx. apply Hr in Hx. rewrite <- Hp, E' in Hx.
      apply elem_of_app in Hx as [Hx|Hx]; [left; set_solver|].
      apply elem_of_cons in Hx as [->|Hx]; [left; set_solver|right].
      rewrite E' in Hs. by eapply StronglySorted_app_cons_r.
Qed.

(** Containers that differ in the bounds lists only. *)
Definition same_but_lists (c c' : container) : Prop :=
  sections c' = sections c /\
  forall i, set_boundsList [] (heap c' i) = set_boundsList [] (heap c i).

Lemma same_but_lists_fields c c' i :
  same_but_lists c c' ->
  name (heap c' i) = name (heap c i) /\ boundToSection (heap c' i) = boundToSection (heap c i) /\
  isLocated (heap c' i) = isLocated (heap c i) /\ zIndex (heap c' i) = zIndex (heap c i) /\
  drawingOrder (heap c' i) = drawingOrder (heap c i).
Proof. intros [_ H]. specialize (H i). by injection H. Qed.

Lemma same_but_lists_bound c c' x y : same_but_lists c c' -> bound c' x y <-> bound c x y.
Proof.
  intros H. unfold bound. destruct (same_but_lists_fields c c' x H) as (-> & -> & _).
  destruct (same_but_lists_fields c c' y H) as (-> & -> & -> & _). by destruct H as [-> _].
Qed.

Lemma same_but_lists_above c c' x y : same_but_lists c c' -> not_above c' x y <-> not_above c x y.
Proof.
  intros H. unfold not_above, lex_le. destruct (same_but_lists_fields c c' x H) as (_ & _ & _ & -> & ->).
  by destruct (same_but_lists_fields c c' y H) as (_ & _ & _ & -> & ->).
Qed.

Lemma rtc_iff {A} (P Q : A -> A -> Prop) x y : (forall a b, P a b -> Q a b) -> rtc P x y -> rtc Q x y.
Proof. intros H. by apply rtc_subrel. Qed.

Lemma bounds_list_transfer c c' i l :
  same_but_lists c c' -> bounds_list_of c' i l -> bounds_list_of c i l.
Proof.
  intros H (H1 & H2 & H3 & H4). split_and!; [done| | |].
  - eapply StronglySorted_ext; [|done]. intros x y. apply (same_but_lists_above _ _ _ _ H).
  - intros x Hx. eapply rtc_iff; [|by apply H3]. intros a b. apply (same_but_lists_bound _ _ _ _ H).
  - intros x Hx. assert (Hx' : rtc (bound c') i x).
    { eapply rtc_iff; [|exact Hx]. intros a b. apply (same_but_lists_bound _ _ _ _ H). }
    destruct (H4 x Hx') as [?|Ha]; [by left|right]. by apply (same_but_lists_above _ _ _ _ H).
Qed.

Lemma update_lists_loop l c0 c :
  wf_names c0 -> same_but_lists c0 c -> NoDup l -> (forall i, i ∈ l -> i ∈ sections c0) ->
  let c' := foldl (fun c i => alter_section (set_boundsList (bounds_of c i)) i c) c l in
  same_but_lists c0 c' /\
  (forall i, i ∈ l -> bounds_list_of c0 i (boundsList (heap c' i))) /\
  (forall i, i ∉ l -> heap c' i = heap c i).
Proof.
  intros Hw. revert c. induction l as [|k l IH]; intros c Hc Hd Hl; simpl; [split_and!; set_solver|].
  apply NoDup_cons in Hd as [Hk Hd]. set (c1 := alter_section _ k c).
  assert (Hc1 : same_but_lists c0 c1).
  { destruct Hc as [Hs Hh]. split; [done|]. intros i. simpl. destruct (decide (k = i)) as [->|];
      [by rewrite fn_lookup_insert, <- Hh | by rewrite fn_lookup_insert_ne]. }
  destruct (IH c1 Hc1 Hd) as (H1 & H2 & H3); [intros; apply Hl; by right|].
  split_and!; [done| |].
  - intros i [->|Hi]%elem_of_cons; [|by apply H2]. rewrite H3 by done. simpl. rewrite fn_lookup_insert. simpl.
    eapply bounds_list_transfer; [exact Hc|]. apply bounds_of_spec.
    + destruct Hw as (Hd0 & Hne & Hu). destruct Hc as [Hs Hh].
      assert (Hn : forall j, name (heap c j) = name (heap c0 j)) by (intros j; by apply same_but_lists_fields).
      unfold wf_names. rewrite Hs. setoid_rewrite Hn. done.
    + destruct Hc as [-> _]. apply Hl. by left.
  - intros i Hi. rewrite H3 by set_solver. simpl. rewrite fn_lookup_insert_ne by set_solver. done.
Qed.

(** The bounds list of a section, along which an event is passed on, is the stack of what
    is bound to it: it ends in the section itself, is ordered from the bottom to the top,
    has only sections connected to it by bindings through located sections, and leaves
    out only those that are not below it.  The search for them ends. *)
Theorem bounds_lists_exact c i :
  wf_names c -> i ∈ sections c ->
  bounds_list_of c i (boundsList (heap (updateBoundSectionLists c) i)).
Proof.
  intros Hw Hi. pose proof Hw as (Hd & _). by apply (update_lists_loop (sections c) c c).
Qed.

(** ** Placing *)

(** What placing a section needs: the document anchor before an object of the document, the
    parent before a section bound to it, edges the code knows for the others. *)
Definition known_edges (c : container) (s : section) (ix : axis) : Prop :=
  match anchor_of ix s with
  | Chain l => match anchor_target c l with
               | Some (_, e) => e ∈ ["top"; "bottom"; "left"; "right"; "-left"]
               | None => True
               end
  | Edge _ => True
  end.

Definition can_place (c : container) (seen : list nat) (i : nat) : Prop :=
  let s := heap c i in
  if documentObject s then exists k, k ∈ seen /\ documentAnchorSectionName c = Some (name (heap c k))
  else match boundToSection s with
  | Some n => exists p, p ∈ seen /\ name (heap c p) = n
  | None => if windowSection s then True else known_edges c s Horizontal /\ known_edges c s Vertical
  end.

Fixpoint placeable (c : container) (seen l : list nat) : Prop :=
  match l with
  | [] => True
  | i :: l' => can_place c seen i /\ placeable c (seen ++ [i]) l'
  end.

(** Where a section ends up. *)
Definition in_place (c : container) (i : nat) : Prop :=
  let s := heap c i in
  isLocated s = true /\
  exists tl, myTopLeft s = Some tl /\
    (is_anchor c s = true -> documentAnchor c = Some tl) /\
    if documentObject s then exists a, documentAnchor c = Some a /\ tl = object_place c a s
    else match boundToSection s with
    | Some n => exists p ptl, getSectionWithName n c = Some p /\ myTopLeft (heap c p) = Some ptl /\
                  tl = (js_round ptl.1, js_round ptl.2) /\
                  size s = (js_round (size (heap c p)).1, js_round (size (heap c p)).2)
    | None => windowSection s = true -> tl = (0, 0) /\ size s = canvas c
    end.

Lemma frame_fields c c' i :
  same_frame c c' ->
  name (heap c' i) = name (heap c i) /\ boundToSection (heap c' i) = boundToSection (heap c i) /\
  anchor (heap c' i) = anchor (heap c i) /\ documentObject (heap c' i) = documentObject (heap c i) /\
  windowSection (heap c' i) = windowSection (heap c i) /\ position (heap c' i) = position (heap c i).
Proof. intros (_ & _ & _ & _ & _ & _ & _ & _ & Hst). pose proof (Hst i). split_and!; static_solve. Qed.

Lemma getSectionWithName_frame c c' n : same_frame c c' -> getSectionWithName n c' = getSectionWithName n c.
Proof.
  intros H. unfold getSectionWithName. destruct (String.eqb n ""); [done|].
  destruct H as [Hs H]. rewrite Hs. f_equal. apply list_find_ext. intros i.
  destruct (frame_fields c c' i) as [-> _]; [by split|done].
Qed.

Lemma anchor_target_frame c c' l : same_frame c c' -> anchor_target c' l = anchor_target c l.
Proof.
  intros H. induction l as [|n l IH]; [done|]. simpl. destruct l as [|e l]; [done|].
  by rewrite (getSectionWithName_frame _ _ _ H), IH.
Qed.

Lemma known_edges_frame c c' s s' ix :
  same_frame c c' -> static s' = static s -> known_edges c s ix -> known_edges c' s' ix.
Proof.
  intros H Hs. unfold known_edges, anchor_of. assert (anchor s' = anchor s) as -> by static_solve.
  destruct ix; [destruct (anchor s).1|destruct (anchor s).2]; try done; by rewrite (anchor_target_frame _ _ _ H).
Qed.

Lemma can_place_frame c c' seen i : same_frame c c' -> can_place c seen i -> can_place c' seen i.
Proof.
  intros H. unfold can_place. destruct (frame_fields c c' i H) as (_ & -> & _ & -> & -> & _).
  destruct (documentObject (heap c i)).
  { intros (k & Hk & E). exists k. split; [done|]. destruct (frame_fields c c' k H) as [-> _].
    destruct H as (_ & _ & _ & _ & _ & Ha & _). by rewrite Ha. }
  destruct (boundToSection (heap c i)) as [n|].
  { intros (p & Hp & E). exists p. split; [done|]. by destruct (frame_fields c c' p H) as [-> _]. }
  destruct (windowSection (heap c i)); [done|].
  assert (Hst : static (heap c' i) = static (heap c i)) by apply H.
  intros [H1 H2]. split; by eapply known_edges_frame.
Qed.

Lemma placeable_frame c c' seen l : same_frame c c' -> placeable c seen l -> placeable c' seen l.
Proof.
  intros H. revert seen. induction l as [|i l IH]; intros seen; simpl; [done|].
  intros [H1 H2]. split; [by eapply can_place_frame | by apply IH].
Qed.

Lemma initial_position_some c s ix :
  known_edges c s ix -> exists s' x, calculateSectionInitialPosition c s ix = Some (s', x).
Proof.
  unfold known_edges, calculateSectionInitialPosition.
  destruct (anchor_of ix s) as [a|[|a [|b l]]]; try (by eauto).
  destruct (Nat.even (length (a :: b :: l))); [by eauto|].
  destruct (anchor_target c (a :: b :: l)) as [[i e]|]; [|by eauto].
  destruct (isLocated (heap c i)); simpl negb; [|by eauto]. intros He.
  repeat (destruct (String.eqb_spec e _); [by eauto|]). set_solver.
Qed.

Lemma place_regular_some c s :
  known_edges c s Horizontal -> known_edges c s Vertical ->
  exists s', place_regular c s = Some s' /\ isLocated s' = true /\ is_Some (myTopLeft s').
Proof.
  intros Hh Hv. unfold place_regular. destruct (initial_position_some c s Horizontal Hh) as (s1 & x & E1).
  rewrite E1. simpl. apply initial_position_static in E1 as (E1 & _).
  destruct (initial_position_some c s1 Vertical) as (s2 & y & ->).
  { by eapply known_edges_frame. }
  simpl. eexists. split; [done|]. simpl. split; [done|]. eauto.
Qed.

(** What one step writes. *)
Definition kind_place (c : container) (s s' : section) (tl : Z * Z) : Prop :=
  if documentObject s then exists a, documentAnchor c = Some a /\ tl = object_place c a s
  else match boundToSection s with
  | Some n => exists p ptl, getSectionWithName n c = Some p /\ myTopLeft (heap c p) = Some ptl /\
                tl = (js_round ptl.1, js_round ptl.2) /\
                size s' = (js_round (size (heap c p)).1, js_round (size (heap c p)).2)
  | None => windowSection s = true -> tl = (0, 0) /\ size s' = canvas c
  end.

Lemma in_place_alt c i :
  in_place c i <->
  isLocated (heap c i) = true /\
  exists tl, myTopLeft (heap c i) = Some tl /\ (is_anchor c (heap c i) = true -> documentAnchor c = Some tl) /\
             kind_place c (heap c i) (heap c i) tl.
Proof. done. Qed.

Lemma place_section_step c seen i :
  wf_names c -> (forall k, k ∈ seen -> k ∈ sections c /\ in_place c k) -> can_place c seen i ->
  exists s' tl, place_section c (heap c i) = Some s' /\ isLocated s' = true /\ myTopLeft s' = Some tl /\
                kind_place c (heap c i) s' tl.
Proof.
  intros Hw Hseen. unfold can_place, place_section, kind_place. destruct (documentObject (heap c i)).
  { intros (k & Hk & Ea). destruct (Hseen k Hk) as [_ (_ & tl & _ & Han & _)].
    rewrite Han by (by apply bool_decide_eq_true). simpl. eauto 10. }
  destruct (boundToSection (heap c i)) as [n|].
  { intros (p & Hp & Hn). destruct (Hseen p Hp) as [Hps (_ & ptl & Ept & _)].
    assert (Eg : getSectionWithName n c = Some p) by (by apply getSectionWithName_spec).
    rewrite Eg, Ept. simpl. eexists _, _. split_and!; [done..|]. exists p, ptl. by split_and!. }
  destruct (windowSection (heap c i)); [intros _; eauto 10|].
  intros [Hh Hv]. destruct (place_regular_some c _ Hh Hv) as (s' & -> & Hl & tl & Etl). by exists s', tl.
Qed.

Lemma locate_one_step c seen i :
  wf_names c -> (forall k, k ∈ seen -> k ∈ sections c /\ in_place c k) -> can_place c seen i ->
  exists s' tl c', locate_one c i = Some c' /\
    static s' = static (heap c i) /\ isLocated s' = true /\ myTopLeft s' = Some tl /\
    kind_place c (heap c i) s' tl /\ heap c' = <[i := s']> (heap c) /\
    documentAnchor c' = (if is_anchor c (heap c i) then Some tl else documentAnchor c) /\
    windowSectionList c' = windowSectionList c ++ (if is_window (heap c i) then [i] else []).
Proof.
  intros Hw Hseen Hc. destruct (place_section_step c seen i Hw Hseen Hc) as (s' & tl & E & Hl & Etl & Hk).
  pose proof (place_section_static _ _ _ E) as Hst. exists s', tl.
  assert (Ew : is_window s' = is_window (heap c i)).
  { unfold is_window. assert (documentObject s' = documentObject (heap c i)) as -> by static_solve.
    assert (windowSection s' = windowSection (heap c i)) as -> by static_solve.
    by assert (boundToSection s' = boundToSection (heap c i)) as -> by static_solve. }
  assert (Ea : is_anchor c s' = is_anchor c (heap c i)).
  { unfold is_anchor. by assert (name s' = name (heap c i)) as -> by static_solve. }
  unfold locate_one. rewrite E. simpl. rewrite Ew, Etl.
  assert (Eac : forall l, is_anchor (set_windowSectionList l (alter_section (fun _ => s') i c)) s' = is_anchor c s')
    by done.
  assert (Eac' : is_anchor (alter_section (fun _ => s') i c) s' = is_anchor c s') by done.
  destruct (is_window (heap c i)); rewrite ?Eac, ?Eac', Ea; destruct (is_anchor c (heap c i)); simpl;
    eexists; rewrite ?app_nil_r; split_and!; done.
Qed.

Lemma kind_place_frame c c' s s0 s1 s' tl :
  same_frame c c' -> static s1 = static s0 -> (documentObject s0 = true -> documentAnchor c' = documentAnchor c) ->
  (forall n p, boundToSection s0 = Some n -> getSectionWithName n c = Some p -> documentObject s0 = false ->
     heap c' p = heap c p) ->
  size s' = size s -> kind_place c s0 s tl -> kind_place c' s1 s' tl.
Proof.
  intros Hf Hst Ha Hb Hsz. unfold kind_place, object_place.
  assert (documentObject s1 = documentObject s0) as -> by static_solve.
  assert (boundToSection s1 = boundToSection s0) as -> by static_solve.
  assert (windowSection s1 = windowSection s0) as -> by static_solve.
  assert (position s1 = position s0) as -> by static_solve.
  pose proof Hf as (Hs & Hcan & _ & _ & _ & _ & Htl & _). rewrite Hcan, Htl, Hsz.
  destruct (documentObject s0); [intros (a & E & ->); exists a; by rewrite Ha|].
  destruct (boundToSection s0) as [n|]; [|done].
  intros (p & ptl & E1 & E2 & E3). exists p, ptl. rewrite (getSectionWithName_frame _ _ _ Hf).
  by rewrite (Hb n p).
Qed.

(** What holds after the sections [seen] were placed. *)
Definition placed (c : container) (seen : list nat) : Prop :=
  (forall k, k ∈ seen -> k ∈ sections c /\ in_place c k) /\
  (documentAnchor c <> None -> exists k, k ∈ seen /\ is_anchor c (heap c k) = true) /\
  windowSectionList c = filter (fun k => is_window (heap c k) = true) seen /\
  (forall k, k ∈ sections c -> k ∉ seen -> myTopLeft (heap c k) = None).

Lemma is_window_frame c c' i : same_frame c c' -> is_window (heap c' i) = is_window (heap c i).
Proof.
  intros H. unfold is_window. by destruct (frame_fields c c' i H) as (_ & -> & _ & -> & -> & _).
Qed.

Lemma is_anchor_frame c c' i : same_frame c c' -> is_anchor c' (heap c' i) = is_anchor c (heap c i).
Proof.
  intros H. unfold is_anchor. destruct (frame_fields c c' i H) as (-> & _).
  by destruct H as (_ & _ & _ & _ & _ & -> & _).
Qed.

Lemma locate_one_placed c seen i :
  wf_names c -> placed c seen -> can_place c seen i -> i ∈ sections c -> i ∉ seen ->
  exists c', locate_one c i = Some c' /\ same_frame c c' /\ placed c' (seen ++ [i]).
Proof.
  intros Hw (Hp & Ha & Hwin & Hun) Hc Hi Hns.
  destruct (locate_one_step c seen i Hw Hp Hc) as (s' & tl & c' & E & Hst & Hl & Etl & Hk & Hh & Hda & Hwl).
  pose proof (locate_one_frame _ _ _ E) as Hf. exists c'. split; [done|]. split; [done|].
  assert (Hother : forall k, k <> i -> heap c' k = heap c k) by (intros k Hk'; by rewrite Hh, fn_lookup_insert_ne).
  assert (Hself : heap c' i = s') by (by rewrite Hh, fn_lookup_insert).
  assert (Hdoc : documentAnchor c <> None -> documentAnchor c' = documentAnchor c).
  { intros Hn. rewrite Hda. destruct (Ha Hn) as (k & Hks & Hka). destruct (is_anchor c (heap c i)) eqn:Ei; [|done].
    unfold is_anchor in *. to_prop. destruct Hw as (_ & _ & Hu). destruct (Hp k Hks) as [Hkc _].
    assert (i = k) by (apply Hu; congruence). by subst. }
  assert (Hmove : forall k s tl', kind_place c (heap c k) s tl' -> size (heap c' k) = size s ->
                    kind_place c' (heap c' k) (heap c' k) tl').
  { intros k s tl' Hkp Hsz. refine (kind_place_frame c c' _ _ _ _ _ Hf _ _ _ Hsz Hkp); [by apply Hf| |].
    - intros Hd. apply Hdoc. unfold kind_place in Hkp. rewrite Hd in Hkp. by destruct Hkp as (a & -> & _).
    - intros n p Hb Hg Hd. apply Hother. unfold kind_place in Hkp. rewrite Hd, Hb in Hkp.
      destruct Hkp as (p' & ptl & Hg' & Hptl & _). simplify_eq. intros ->. by rewrite Hun in Hptl. }
  assert (Hsec : forall k, k ∈ seen ++ [i] -> k ∈ sections c').
  { intros k [Hk'|Hk']%elem_of_app; destruct Hf as [-> _]; [by apply Hp|by apply list_elem_of_singleton in Hk' as ->]. }
  split_and!.
  - intros k Hk'. split; [by apply Hsec|]. apply in_place_alt. rewrite (is_anchor_frame _ _ _ Hf).
    apply elem_of_app in Hk' as [Hk'|Hk'].
    + destruct (Hp k Hk') as [_ (Hkl & tl' & Hktl & Hka & Hkp)%in_place_alt].
      assert (k <> i) by congruence. assert (Eh : heap c' k = heap c k) by auto.
      split; [by rewrite Eh|]. exists tl'. split_and!; [by rewrite Eh| |by eapply Hmove; [|rewrite Eh]].
      intros E1. rewrite <- (Hka E1). apply Hdoc. by rewrite Hka.
    + apply list_elem_of_singleton in Hk' as ->. rewrite Hself at 1. split; [done|]. exists tl.
      split_and!; [by rewrite Hself|intros E1; by rewrite Hda, E1|by eapply Hmove; [|rewrite Hself]].
  - rewrite Hda. setoid_rewrite (is_anchor_frame _ _ _ Hf). destruct (is_anchor c (heap c i)) eqn:Ei.
    + intros _. exists i. set_solver.
    + intros Hn. destruct (Ha Hn) as (k & Hks & Hka). exists k. set_solver.
  - rewrite Hwl, Hwin, filter_app. f_equal.
    + apply list_filter_iff. intros k. by rewrite (is_window_frame _ _ _ Hf).
    + rewrite filter_cons, filter_nil, (is_window_frame _ _ _ Hf). by destruct (is_window (heap c i)).
  - intros k Hk1 Hk2. rewrite Hother by set_solver. apply Hun; [by destruct Hf as [<- _]|set_solver].
Qed.

Lemma locate_loop_placed l c seen :
  wf_names c -> placed c seen -> placeable c seen l -> sections c = seen ++ l ->
  exists c', locate_loop c l = Some c' /\ same_frame c c' /\ placed c' (seen ++ l).
Proof.
  revert c seen. induction l as [|i l IH]; intros c seen Hw Hp Hl Hs; simpl.
  { exists c. by rewrite app_nil_r. }
  destruct Hl as [Hi Hl]. pose proof Hw as (Hd & _). rewrite Hs in Hd.
  destruct (locate_one_placed c seen i) as (c1 & -> & Hf & Hp1); [done..| | |].
  { rewrite Hs. set_solver. }
  { apply NoDup_app in Hd as (_ & Hd & _). intros Hin. apply (Hd i Hin). set_solver. }
  simpl. destruct (IH c1 (seen ++ [i])) as (c2 & -> & Hf2 & Hp2).
  - by eapply wf_names_frame.
  - done.
  - by eapply placeable_frame.
  - destruct Hf as [-> _]. by rewrite Hs, <- app_assoc.
  - exists c2. rewrite <- app_assoc in Hp2. split_and!; [done|by etrans|done].
Qed.

(** Where every object of the document comes after the document anchor, every bound section
    after its parent, and anchors name edges, placing the sections raises no error and
    every section gets its place: objects where the document anchor and the view put
    them, bound sections over their parent, window sections over the whole canvas; the
    window sections are listed in order. *)
Theorem locate_places c :
  wf_names c -> placeable c [] (sections c) ->
  exists c', locateSections c = Some c' /\ same_frame c c' /\
    (forall i, i ∈ sections c -> in_place c' i) /\
    windowSectionList c' = filter (fun i => is_window (heap c' i) = true) (sections c).
Proof.
  intros Hw Hp. pose proof Hw as (Hd & _). pose proof (reset_sections_frame c Hd) as Hf.
  unfold locateSections. pose proof Hf as (Hs & _).
  destruct (locate_loop_placed (sections c) (reset_sections c) []) as (c' & E & Hf' & H1 & _ & H3 & _).
  - by eapply wf_names_frame.
  - split_and!; [set_solver|done|done|]. intros k Hk _. rewrite Hs in Hk. rewrite reset_sections_heap by done.
    unfold reset_section. by destruct (origSizeHint _).
  - by eapply placeable_frame.
  - done.
  - exists c'. rewrite Hs, E. split_and!; [done|by etrans| |done]. intros i Hi. by apply H1.
Qed.

(** *** Each section is listed once

    All sections of the program that are bound are bound to one that is not. *)
Definition flat (c : container) : Prop :=
  forall i p, i ∈ sections c -> p ∈ sections c ->
    boundToSection (heap c i) = Some (name (heap c p)) -> boundToSection (heap c p) = None.

Lemma bound_children_nodup c i l : NoDup (sections c) -> NoDup (bound_children c i l).
Proof. intros Hd. unfold bound_children. by apply NoDup_filter. Qed.

(** A child whose parent is listed adds itself only. *)
Lemma update_child fuel c k i acc :
  wf_names c -> flat c -> k ∈ sections c -> i ∈ sections c ->
  boundToSection (heap c k) = Some (name (heap c i)) -> i ∈ acc ->
  updateBoundSectionList (S fuel) c k acc = Some (acc ++ [k]).
Proof.
  intros Hw Hfl Hk Hi Hb Hia. simpl. set (acc' := acc ++ [k]).
  assert (E : bound_parent c k acc' ++ bound_children c k acc' = []).
  { apply elem_of_nil_inv. intros x [(Hx & _ & [Hbx|Hbx]) Hn]%bound_temp; [..|done].
    - assert (x = i) as -> by (apply Hw; congruence). unfold acc' in Hn. set_solver.
    - apply Hfl in Hbx; [congruence|done..]. }
  by rewrite E.
Qed.

Lemma update_children fuel c i ks acc :
  wf_names c -> flat c -> i ∈ sections c -> i ∈ acc ->
  (forall k, k ∈ ks -> k ∈ sections c /\ boundToSection (heap c k) = Some (name (heap c i))) ->
  foldl (fun acc t => acc ≫= updateBoundSectionList (S fuel) c t) (Some acc) ks = Some (acc ++ ks).
Proof.
  intros Hw Hfl Hi Hia Hks. revert acc Hia. induction ks as [|k ks IH]; intros acc Hia.
  { simpl. by rewrite app_nil_r. }
  change (foldl (fun acc t => acc ≫= updateBoundSectionList (S fuel) c t)
            (updateBoundSectionList (S fuel) c k acc) ks = Some (acc ++ k :: ks)).
  destruct (Hks k) as [Hk Hb]; [by left|]. rewrite (update_child fuel c k i acc) by done.
  rewrite IH; [by rewrite <- app_assoc|intros; apply Hks; by right|set_solver].
Qed.

Lemma update_root fuel c i acc :
  wf_names c -> flat c -> i ∈ sections c -> boundToSection (heap c i) = None -> NoDup acc -> i ∉ acc ->
  exists ks, updateBoundSectionList (S (S fuel)) c i acc = Some (acc ++ i :: ks) /\ NoDup (acc ++ i :: ks).
Proof.
  intros Hw Hfl Hi Hb Hd Hn. exists (bound_children c i (acc ++ [i])). split.
  - change (foldl (fun acc t => acc ≫= updateBoundSectionList (S fuel) c t) (Some (acc ++ [i]))
              (bound_parent c i (acc ++ [i]) ++ bound_children c i (acc ++ [i])) =
            Some (acc ++ i :: bound_children c i (acc ++ [i]))).
    unfold bound_parent. rewrite Hb. simpl. rewrite (update_children fuel c i); [by rewrite <- app_assoc|done..| |].
    + set_solver.
    + intros k Hk. unfold bound_children in Hk. apply list_elem_of_filter in Hk as ((_ & ? & _) & ?). done.
  - replace (acc ++ i :: bound_children c i (acc ++ [i])) with ((acc ++ [i]) ++ bound_children c i (acc ++ [i]))
      by (by rewrite <- app_assoc).
    apply NoDup_app. split_and!.
    + apply NoDup_app. split_and!; [done|set_solver|apply NoDup_singleton].
    + intros x Hx Hk. unfold bound_children in Hk. by apply list_elem_of_filter in Hk as ((_ & _ & ?) & _).
    + apply bound_children_nodup. by apply Hw.
Qed.

Lemma update_nodup c i r :
  wf_names c -> flat c -> i ∈ sections c ->
  updateBoundSectionList (bound_fuel c) c i [] = Some r -> NoDup r.
Proof.
  intros Hw Hfl Hi. unfold bound_fuel. destruct (length (sections c)) as [|[|n]] eqn:Elen.
  { apply length_zero_iff_nil in Elen. rewrite Elen in Hi. set_solver. }
  { simpl. replace (bound_parent c i [i] ++ bound_children c i [i]) with (@nil nat);
      [intros [= <-]; apply NoDup_singleton|].
    symmetry. apply elem_of_nil_inv. intros x [(Hx & _) Hn]%bound_temp; [|done].
    destruct (sections c) as [|k [|? ?]]; simplify_eq/=. set_solver. }
  destruct (boundToSection (heap c i)) as [m|] eqn:Eb.
  - change (updateBoundSectionList (S (S (S n))) c i []) with
      (foldl (fun acc t => acc ≫= updateBoundSectionList (S (S n)) c t) (Some [i])
         (bound_parent c i [i] ++ bound_children c i [i])).
    assert (Ec : bound_children c i [i] = []).
    { apply elem_of_nil_inv. intros x Hx. unfold bound_children in Hx.
      apply list_elem_of_filter in Hx as ((_ & Hbx & _) & Hx). apply Hfl in Hbx; [congruence|done..]. }
    rewrite Ec, app_nil_r.
    assert (Hp : forall p, p ∈ bound_parent c i [i] -> bound c i p /\ p ∉ [i]).
    { intros p Hp. apply bound_temp; [done|]. set_solver. }
    unfold bound_parent in *. rewrite Eb in *. simpl in *.
    destruct (getSectionWithName m c) as [p|] eqn:Ep; [|intros [= <-]; apply NoDup_singleton].
    apply getSectionWithName_sound in Ep as [Hps Hpn].
    destruct (isLocated (heap c p) && _); [|intros [= <-]; apply NoDup_singleton].
    destruct (Hp p) as [_ Hpi]; [by left|].
    destruct (update_root n c p [i]) as (ks & E & Hd); [done..| | | |].
    + apply (Hfl i p); congruence.
    + apply NoDup_singleton.
    + done.
    + change (updateBoundSectionList (S (S n)) c p [i] = Some r -> NoDup r). rewrite E. by intros [= <-].
  - destruct (update_root (S n) c i []) as (ks & -> & Hd); [done..|constructor|set_solver|]. by intros [= <-].
Qed.

Lemma pop_above_nodup c n l : NoDup l -> NoDup (pop_above c n l).
Proof.
  induction 1 as [|k l Hk Hd IH]; simpl; [constructor|]. case_match; [by constructor|done].
Qed.

Lemma bounds_of_nodup c i : wf_names c -> flat c -> i ∈ sections c -> NoDup (bounds_of c i).
Proof.
  intros Hw Hfl Hi. unfold bounds_of, orderBoundsList.
  destruct (updateBoundSectionList_exact c i Hw) as (r & Hr & _). rewrite Hr. simpl.
  rewrite reverse_Permutation. apply pop_above_nodup. rewrite reverse_Permutation, exchange_sort_perm.
  by eapply update_nodup.
Qed.

(** ** Objects of the document *)

(** The rectangle of an object and the viewed area have a point in common. *)
Definition in_view (c : container) (s : section) : Prop :=
  (position s).1 <= (documentBottomRight c).1 /\ (documentTopLeft c).1 <= (position s).1 + (size s).1 /\
  (position s).2 <= (documentBottomRight c).2 /\ (documentTopLeft c).2 <= (position s).2 + (size s).2.

(** An object that is no larger than the viewed area is visible when it meets it. *)
Lemma visible_iff_in_view c s :
  sized s ->
  (size s).1 <= (documentBottomRight c).1 - (documentTopLeft c).1 ->
  (size s).2 <= (documentBottomRight c).2 - (documentTopLeft c).2 ->
  isDocumentObjectVisible c s = true <-> in_view c s.
Proof. unfold sized, isDocumentObjectVisible, in_view. lia. Qed.

(** A larger one is not, where both its edges are outside: an object that covers the
    viewed area from side to side counts as invisible, although the class promises that an
    object which is visible even partially is told so. *)
Theorem wide_object_invisible c s :
  (position s).1 < (documentTopLeft c).1 -> (documentBottomRight c).1 < (position s).1 + (size s).1 ->
  isDocumentObjectVisible c s = false.
Proof. unfold isDocumentObjectVisible. lia. Qed.

(** Objects follow the view. *)
Definition follows (c : container) (a : Z * Z) (s : section) : Prop :=
  documentObject s = true ->
  myTopLeft s = Some (object_place c a s) /\ isVisible s = isDocumentObjectVisible c s.

Definition move_object (c : container) (a : Z * Z) (s : section) : section :=
  if documentObject s then
    let s := set_myTopLeft (Some (object_place c a s)) s in set_isVisible (isDocumentObjectVisible c s) s
  else s.

Lemma move_object_ext c c' a s :
  documentTopLeft c' = documentTopLeft c -> documentBottomRight c' = documentBottomRight c ->
  move_object c' a s = move_object c a s.
Proof.
  intros H1 H2. unfold move_object, object_place, isDocumentObjectVisible. by rewrite H1, H2.
Qed.

Lemma object_loop_spec c0 c a l :
  NoDup l -> documentAnchor c = Some a ->
  documentTopLeft c = documentTopLeft c0 -> documentBottomRight c = documentBottomRight c0 ->
  exists c', object_loop c l = Some c' /\
    (forall i, heap c' i = if decide (i ∈ l) then move_object c0 a (heap c i) else heap c i) /\
    c' = set_heap (heap c') c.
Proof.
  intros Hd Ha. revert c Ha. induction Hd as [|i l Hi Hd IH]; intros c Ha Htl Hbr; simpl.
  { exists c. by destruct c. }
  set (c1 := alter_section (fun _ => move_object c0 a (heap c i)) i c).
  assert (E : exists c1', object_step c i = Some c1' /\ (forall j, heap c1' j = heap c1 j) /\ c1' = set_heap (heap c1') c).
  { unfold object_step. rewrite Ha. destruct (documentObject (heap c i)) eqn:Ed; simpl.
    - eexists. split; [done|]. split; [|done]. intros j. unfold c1. simpl.
      rewrite <- (move_object_ext _ _ _ _ Htl Hbr). unfold move_object. by rewrite Ed.
    - exists c. split; [done|]. split; [|by destruct c]. intros j. unfold c1, move_object. simpl. rewrite Ed.
      destruct (decide (i = j)) as [->|]; [by rewrite fn_lookup_insert | by rewrite fn_lookup_insert_ne]. }
  destruct E as (c1' & -> & Hh & Ec). simpl.
  destruct (IH c1') as (c' & E & Hh' & Ec'); [by rewrite Ec..|].
  exists c'. split; [done|]. split; [|by rewrite Ec', Ec].
  intros j. rewrite Hh', Hh. unfold c1. simpl. destruct (decide (i = j)) as [->|Hij].
  - rewrite fn_lookup_insert. rewrite decide_False by done. by rewrite decide_True by set_solver.
  - rewrite fn_lookup_insert_ne by done. repeat case_decide; set_solver.
Qed.

(** When the view moves, every object of the document moves with it: it is where the
    document anchor and the view put it, and it counts as visible as the view says; the
    other sections are left alone. *)
Theorem setDocumentBounds_moves x1 y1 x2 y2 c a :
  NoDup (sections c) -> documentAnchor c = Some a ->
  exists c', setDocumentBounds x1 y1 x2 y2 c = Some c' /\
    documentTopLeft c' = (js_round x1, js_round y1) /\ documentBottomRight c' = (js_round x2, js_round y2) /\
    (forall i, i ∈ sections c -> follows c' a (heap c' i)) /\
    (forall i, documentObject (heap c i) = false -> heap c' i = heap c i).
Proof.
  intros Hd Ha. unfold setDocumentBounds. set (c0 := set_bounds _ _ c).
  destruct (object_loop_spec c0 c0 a (sections c0)) as (c' & E & Hh & Ec); [done..|].
  exists c'. split; [done|]. split; [by rewrite Ec|]. split; [by rewrite Ec|]. split.
  - intros i Hi. rewrite Hh, decide_True by done. unfold follows, move_object.
    destruct (documentObject (heap c0 i)) eqn:Ed; [|intros Hd'; simpl in *; congruence].
    intros _. rewrite Ec. unfold object_place, isDocumentObjectVisible. simpl. done.
  - intros i Hi. rewrite Hh. unfold move_object. simpl. rewrite Hi. by case_decide.
Qed.

(** An object put somewhere else is shown there at once. *)
Lemma setPosition_follows i x y c a tl :
  documentObject (heap c i) = true -> myTopLeft (heap c i) = Some tl -> documentAnchor c = Some a ->
  exists c', setPosition None i x y c = Some c' /\ position (heap c' i) = (js_round x, js_round y) /\
    follows c' a (heap c' i) /\ forall j, j <> i -> heap c' j = heap c j.
Proof.
  intros Hd Htl Ha. unfold setPosition. rewrite Hd, Htl, Ha. simpl. eexists. split; [done|].
  simpl. rewrite fn_lookup_insert. split; [done|]. split.
  - intros _. split; [|done]. simpl. unfold object_place. simpl. f_equal. f_equal; lia.
  - intros j Hj. by rewrite fn_lookup_insert_ne.
Qed.
End layout.

(** ** A sheet *)

(** The sections of a sheet (Control.CornerHeader.ts, Control.RowHeader.ts,
    Control.ColumnHeader.ts, TilesSection.ts, CanvasTileLayer.js, ScrollSection.ts), in
    whole pixels on a canvas of 800 by 600. *)
Definition whole_pixels : Resolution := {| per_pixel := 1; per_pixel_pos := eq_refl |}.

Definition new_section (n : string) (z p d : Z) (a : anchor_part * anchor_part) (wh : Z * Z)
    (ex : list string) (parent : option string) (window : bool) : section :=
  MkSection n parent a false false true (0, 0) wh None ex false None p d z true false window [].

Definition sheet_sections : list section := [
  new_section "corner header" 5 30 130
    (Chain ["column group"; "bottom"; "top"], Chain ["row group"; "right"; "left"])
    (48, 19) [""] None false;
  new_section "row header" 5 40 140
    (Chain ["corner header"; "bottom"; "top"], Chain ["row group"; "right"; "left"])
    (48, 0) ["top"; "bottom"] None false;
  new_section "column header" 5 50 150
    (Chain ["column group"; "bottom"; "top"], Chain ["corner header"; "right"; "left"])
    (0, 19) ["right"] None false;
  new_section "tiles" 5 60 50
    (Chain ["column header"; "bottom"; "top"], Chain ["row header"; "right"; "left"])
    (0, 0) ["top"; "left"; "bottom"; "right"] None false;
  new_section "calc grid" 5 63 40 (Edge "top", Edge "left") (0, 0) [""] (Some "tiles") false;
  new_section "overlay" 5 61 71 (Edge "top", Edge "left") (0, 0) [""] (Some "tiles") false;
  new_section "scroll" 8 1 1 (Edge "top", Edge "left") (0, 0) [""] None true;
  MkSection "comment" None (Edge "top", Edge "left") true false true (100, 50) (20, 20) None [""] false None
    1 1 9 true false false []].

Definition no_section : section := new_section "" 0 0 0 (Edge "top", Edge "left") (0, 0) [""] None false.

Definition sheet : container :=
  MkContainer (fun i => nth i sheet_sections no_section) (seq 0 8) [] (0, 0) (751, 580) (800, 600) 800 600 1
    (Some "tiles") None.

Definition laid_out : container := default sheet (relayout (R := whole_pixels) sheet).

Example sheet_layout :
  (fun i => (name (heap laid_out i), myTopLeft (heap laid_out i), size (heap laid_out i))) <$> sections laid_out =
  [("calc grid", Some (49, 20), (751, 580)); ("tiles", Some (49, 20), (751, 580));
   ("overlay", Some (49, 20), (751, 580)); ("corner header", Some (0, 0), (48, 19));
   ("row header", Some (0, 20), (48, 580)); ("column header", Some (49, 0), (751, 19));
   ("scroll", Some (0, 0), (800, 600)); ("comment", Some (149, 70), (20, 20))].
Proof. vm_compute. reflexivity. Qed.

Lemma sheet_wf : wf_names sheet.
Proof.
  split_and!; [by apply (bool_decide_unpack (NoDup (seq 0 8))); vm_compute| |].
  - intros i Hi. simpl in Hi.
    repeat (apply elem_of_cons in Hi as [->|Hi]; [done|]). set_solver.
  - intros i j Hi Hj. simpl in Hi, Hj.
    repeat (apply elem_of_cons in Hi as [->|Hi];
      [repeat (apply elem_of_cons in Hj as [->|Hj]; [simpl; intros; congruence|]); set_solver|]).
    set_solver.
Qed.

Lemma laid_out_eq : relayout (R := whole_pixels) sheet = Some laid_out.
Proof.
  unfold laid_out. destruct (relayout sheet) eqn:E; [done|]. exfalso.
  assert (is_Some (relayout (R := whole_pixels) sheet)) as [? ?] by (vm_compute; eauto). congruence.
Qed.

Lemma hit_topmost_witness :
  NoDup (sections sheet) /\ relayout (R := whole_pixels) sheet = Some laid_out /\
  findSectionContainingPoint laid_out (100, 100) = Some 5%nat /\
  forall j, hit laid_out (100, 100) j -> not_above laid_out j 5.
Proof.
  assert (Hd : NoDup (sections sheet)) by apply sheet_wf.
  pose proof laid_out_eq as E.
  pose proof (hit_topmost (R := whole_pixels) sheet laid_out (100, 100) Hd E) as H.
  assert (Ef : findSectionContainingPoint laid_out (100, 100) = Some 5%nat) by (vm_compute; reflexivity).
  rewrite Ef in H. split_and!; [done..|]. apply H.
Defined.

(** The tiles below a bar. *)
Definition bar : section :=
  MkSection "bar" None (Edge "top", Edge "left") false false true (0, 0) (800, 19) None ["right"] true
    (Some (0, 0)) 1 1 5 true false false [].

Definition tiles_below : section :=
  MkSection "tiles" None (Edge "top", Edge "left") false false true (0, 0) (0, 0) None
    ["top"; "left"; "bottom"; "right"] false (Some (300, 300)) 60 50 5 true false false [].

Definition with_bar : container :=
  MkContainer (fun i => if decide (i = 0%nat) then bar else tiles_below) [0%nat; 1%nat] [] (0, 0) (0, 0)
    (800, 600) 800 600 1 None None.

Lemma expansion_fits_witness :
  let s' := roundPositionAndSize (R := whole_pixels) (expandSection (R := whole_pixels) with_bar tiles_below) in
  (sized s' /\ forall t, t ∈ neighbours with_bar tiles_below -> ~ (touch_x t s' /\ touch_y t s')) /\
  (top_left s', size s') = ((0, 20), (800, 580)).
Proof.
  assert (Hw : forall x, whole (R := whole_pixels) x) by (intros x; exists x; simpl; lia).
  assert (HN : neighbours with_bar tiles_below = [bar]) by reflexivity.
  pose proof (expansion_fits (R := whole_pixels) with_bar tiles_below) as H.
  split; [|vm_compute; reflexivity].
  destruct H as (H1 & H2 & _); [by vm_compute|apply Hw..| |by split].
  assert (Hr : forall s, whole_rect (R := whole_pixels) s) by (intros s; split_and!; apply Hw).
  split; [by vm_compute|]. split; [apply Hr|]. split; [by vm_compute|]. split; [by vm_compute|].
  intros t Ht. rewrite HN in Ht. apply list_elem_of_singleton in Ht as ->.
  split; [by vm_compute|]. split; [apply Hr|]. left. left. by vm_compute.
Defined.

Lemma bounds_lists_exact_witness :
  wf_names laid_out /\
  bounds_list_of laid_out 5 (boundsList (heap (updateBoundSectionLists laid_out) 5)) /\
  boundsList (heap (updateBoundSectionLists laid_out) 5) = [4%nat; 3%nat; 5%nat].
Proof.
  assert (Hs : sections laid_out = [4; 3; 5; 0; 1; 2; 6; 7]%nat) by (vm_compute; reflexivity).
  pose proof (relayout_wf (R := whole_pixels) _ _ sheet_wf laid_out_eq) as Hw.
  split_and!; [done| |vm_compute; reflexivity].
  apply bounds_lists_exact; [done|]. rewrite Hs. do 2 right. by left.
Defined.

Lemma locate_places_witness :
  exists c', locateSections (R := whole_pixels) (orderSections sheet) = Some c' /\
    (forall i, i ∈ sections (orderSections sheet) -> in_place (R := whole_pixels) c' i) /\
    windowSectionList c' = [6%nat].
Proof.
  assert (Hs : sections (orderSections sheet) = [0; 1; 2; 3; 5; 4; 6; 7]%nat) by (vm_compute; reflexivity).
  assert (Hw : wf_names (orderSections sheet)).
  { apply wf_names_perm; [apply exchange_sort_perm | apply sheet_wf]. }
  assert (Hp : placeable (orderSections sheet) [] (sections (orderSections sheet))).
  { rewrite Hs. simpl. split_and!; try done;
      first [exists 3%nat; split; [set_solver|reflexivity] | vm_compute; set_solver]. }
  destruct (locate_places (R := whole_pixels) (orderSections sheet) Hw Hp) as (c' & E & Hf & H1 & H2).
  exists c'. split_and!; [done..|]. rewrite H2, Hs, !filter_cons, filter_nil.
  rewrite !(is_window_frame _ _ _ Hf). vm_compute. reflexivity.
Defined.

Lemma setDocumentBounds_moves_witness :
  documentAnchor laid_out = Some (49, 20) /\
  exists c', setDocumentBounds (R := whole_pixels) 0 30 751 610 laid_out = Some c' /\
    (forall i, i ∈ sections laid_out -> follows c' (49, 20) (heap c' i)) /\
    myTopLeft (heap c' 7) = Some (149, 40) /\ isVisible (heap c' 7) = true.
Proof.
  assert (Ha : documentAnchor laid_out = Some (49, 20)) by (vm_compute; reflexivity).
  assert (Hd : NoDup (sections laid_out)).
  { by apply (bool_decide_unpack (NoDup (sections laid_out))); vm_compute. }
  split; [done|].
  destruct (setDocumentBounds_moves (R := whole_pixels) 0 30 751 610 laid_out (49, 20) Hd Ha)
    as (c' & E & _ & _ & H1 & _).
  exists c'. split; [done|]. split; [done|].
  assert (Hc : c' = default laid_out (setDocumentBounds (R := whole_pixels) 0 30 751 610 laid_out)) by (by rewrite E).
  rewrite Hc. split; vm_compute; reflexivity.
Defined.
