(* ===== verification/SectionDrawing.v ===== *)
(** * Drawing of the sections

    src/browser/src/layer/tile/CanvasSectionContainer.ts: pausing and resuming drawing, what
    is to be drawn again, adding and removing sections, and animations.

    What is painted is a log of calls: what was asked to be drawn again and what was drawn,
    in order.  The functions a section brings (callbacks) are parameters, functions on the
    state of the container; drawing itself only paints. *)

From stdpp Require Import functions.
From S2P Require Import Prelude Sorts SectionLayout JsText.
Local Open Scope Z_scope.

(** ** State *)

(** A set of tiles, each under the name of its coordinates. *)
Abbreviation tile_set := (list string).

Inductive DirtyType := NotDirty | All | TileRange.

(** [Asked] is a call that asks for something to be drawn again: all sections, or tiles.
    [Drew] is one execution of [drawSections]: its arguments, the tiles it was limited to, if
    it was, whether the canvas was cleared, and the sections drawn, in order. *)
Inductive event :=
  | Asked (what : option tile_set)
  | Drew (frameCount elapsedTime : option Z) (clip : option tile_set) (cleared : bool) (drawn : list nat).

Record drawing := MkDrawing {
  layout : container;  (* sections and places *)
  drawingPaused : Z;
  drawingEnabled : bool;
  dirty : DirtyType;
  dirtySubset : option tile_set;
  sectionsDirty : bool;
  paintedEver : bool;
  zoomChanged : bool;
  fileBased : bool;  (* app.file.fileBasedView *)
  splitPanes : bool;  (* the document layer has a split panes context *)
  animatingSectionName : option string;
  lastFrameStamp : Z;
  continueAnimating : bool;
  frameCount : Z;
  duration : option Z;
  elapsedTime : Z;
  frames : nat;  (* requests of animation frames that are pending *)
  log : list event
}.

Definition set_layout (c : container) (s : drawing) : drawing :=
  MkDrawing c (drawingPaused s) (drawingEnabled s) (dirty s) (dirtySubset s)
    (sectionsDirty s) (paintedEver s) (zoomChanged s) (fileBased s) (splitPanes s)
    (animatingSectionName s) (lastFrameStamp s) (continueAnimating s) (frameCount s)
    (duration s) (elapsedTime s) (frames s) (log s).
Definition set_paused (n : Z) (s : drawing) : drawing :=
  MkDrawing (layout s) n (drawingEnabled s) (dirty s) (dirtySubset s) (sectionsDirty s)
    (paintedEver s) (zoomChanged s) (fileBased s) (splitPanes s) (animatingSectionName s)
    (lastFrameStamp s) (continueAnimating s) (frameCount s) (duration s) (elapsedTime s)
    (frames s) (log s).
Definition set_enabled (b : bool) (s : drawing) : drawing :=
  MkDrawing (layout s) (drawingPaused s) b (dirty s) (dirtySubset s) (sectionsDirty s)
    (paintedEver s) (zoomChanged s) (fileBased s) (splitPanes s) (animatingSectionName s)
    (lastFrameStamp s) (continueAnimating s) (frameCount s) (duration s) (elapsedTime s)
    (frames s) (log s).
Definition set_dirty (d : DirtyType) (ts : option tile_set) (s : drawing) : drawing :=
  MkDrawing (layout s) (drawingPaused s) (drawingEnabled s) d ts (sectionsDirty s)
    (paintedEver s) (zoomChanged s) (fileBased s) (splitPanes s) (animatingSectionName s)
    (lastFrameStamp s) (continueAnimating s) (frameCount s) (duration s) (elapsedTime s)
    (frames s) (log s).
Definition set_sectionsDirty (b : bool) (s : drawing) : drawing :=
  MkDrawing (layout s) (drawingPaused s) (drawingEnabled s) (dirty s) (dirtySubset s) b
    (paintedEver s) (zoomChanged s) (fileBased s) (splitPanes s) (animatingSectionName s)
    (lastFrameStamp s) (continueAnimating s) (frameCount s) (duration s) (elapsedTime s)
    (frames s) (log s).
Definition set_painted (e : event) (s : drawing) : drawing :=
  MkDrawing (layout s) (drawingPaused s) (drawingEnabled s) (dirty s) (dirtySubset s)
    (sectionsDirty s) true (zoomChanged s) (fileBased s) (splitPanes s)
    (animatingSectionName s) (lastFrameStamp s) (continueAnimating s) (frameCount s)
    (duration s) (elapsedTime s) (frames s) (log s ++ [e]).
Definition ask (w : option tile_set) (s : drawing) : drawing :=
  MkDrawing (layout s) (drawingPaused s) (drawingEnabled s) (dirty s) (dirtySubset s)
    (sectionsDirty s) (paintedEver s) (zoomChanged s) (fileBased s) (splitPanes s)
    (animatingSectionName s) (lastFrameStamp s) (continueAnimating s) (frameCount s)
    (duration s) (elapsedTime s) (frames s) (log s ++ [Asked w]).
Definition set_zoomChanged (b : bool) (s : drawing) : drawing :=
  MkDrawing (layout s) (drawingPaused s) (drawingEnabled s) (dirty s) (dirtySubset s)
    (sectionsDirty s) (paintedEver s) b (fileBased s) (splitPanes s) (animatingSectionName
    s) (lastFrameStamp s) (continueAnimating s) (frameCount s) (duration s) (elapsedTime s)
    (frames s) (log s).
Definition set_animating (n : option string) (s : drawing) : drawing :=
  MkDrawing (layout s) (drawingPaused s) (drawingEnabled s) (dirty s) (dirtySubset s)
    (sectionsDirty s) (paintedEver s) (zoomChanged s) (fileBased s) (splitPanes s) n
    (lastFrameStamp s) (continueAnimating s) (frameCount s) (duration s) (elapsedTime s)
    (frames s) (log s).
Definition set_clock (stamp elapsed : Z) (s : drawing) : drawing :=
  MkDrawing (layout s) (drawingPaused s) (drawingEnabled s) (dirty s) (dirtySubset s)
    (sectionsDirty s) (paintedEver s) (zoomChanged s) (fileBased s) (splitPanes s)
    (animatingSectionName s) stamp (continueAnimating s) (frameCount s) (duration s) elapsed
    (frames s) (log s).
Definition set_continue (b : bool) (s : drawing) : drawing :=
  MkDrawing (layout s) (drawingPaused s) (drawingEnabled s) (dirty s) (dirtySubset s)
    (sectionsDirty s) (paintedEver s) (zoomChanged s) (fileBased s) (splitPanes s)
    (animatingSectionName s) (lastFrameStamp s) b (frameCount s) (duration s) (elapsedTime
    s) (frames s) (log s).
Definition set_frameCount (n : Z) (s : drawing) : drawing :=
  MkDrawing (layout s) (drawingPaused s) (drawingEnabled s) (dirty s) (dirtySubset s)
    (sectionsDirty s) (paintedEver s) (zoomChanged s) (fileBased s) (splitPanes s)
    (animatingSectionName s) (lastFrameStamp s) (continueAnimating s) n (duration s)
    (elapsedTime s) (frames s) (log s).
Definition set_duration (d : option Z) (s : drawing) : drawing :=
  MkDrawing (layout s) (drawingPaused s) (drawingEnabled s) (dirty s) (dirtySubset s)
    (sectionsDirty s) (paintedEver s) (zoomChanged s) (fileBased s) (splitPanes s)
    (animatingSectionName s) (lastFrameStamp s) (continueAnimating s) (frameCount s) d
    (elapsedTime s) (frames s) (log s).
Definition set_frames (n : nat) (s : drawing) : drawing :=
  MkDrawing (layout s) (drawingPaused s) (drawingEnabled s) (dirty s) (dirtySubset s)
    (sectionsDirty s) (paintedEver s) (zoomChanged s) (fileBased s) (splitPanes s)
    (animatingSectionName s) (lastFrameStamp s) (continueAnimating s) (frameCount s)
    (duration s) (elapsedTime s) n (log s).

Definition drawingAllowed (s : drawing) : bool := drawingEnabled s && (drawingPaused s <=? 0).

Section drawing.
Context `{R : Resolution}.

(** The functions of the sections. *)
Record callbacks := MkCallbacks {
  onInitialize : nat -> drawing -> drawing;
  onResize : nat -> drawing -> drawing;
  onRemove : nat -> drawing -> drawing;
  onAnimationEnded : nat -> Z -> Z -> drawing -> drawing;
  completePendingScroll : nat -> drawing -> drawing
}.
Context (cb : callbacks).

(** ** Drawing *)

Definition shouldDrawSection (s : section) : bool :=
  isLocated s && showSection s && (negb (documentObject s) || isVisible s).

(** The limits of the tiles that changed, where there are any. *)
Definition clip_of (tileSubset : option tile_set) (s : drawing) : option tile_set :=
  match tileSubset, getSectionWithName "tiles" (layout s) with
  | Some (t :: ts), Some i =>
      if shouldDrawSection (heap (layout s) i) && negb (fileBased s) then Some (t :: ts) else None
  | _, _ => None
  end.

Definition drawSections (fc et : option Z) (tileSubset : option tile_set) (s : drawing) : drawing :=
  set_painted (Drew fc et (clip_of tileSubset s) (negb (zoomChanged s))
    (filter (fun i => shouldDrawSection (heap (layout s) i) = true) (sections (layout s)))) s.

Definition clearDirty (s : drawing) : drawing := set_dirty NotDirty None s.

(** [coords] is [None] for [null]. *)
Definition setDirty (coords : option string) (s : drawing) : drawing :=
  match dirty s with
  | All => s
  | _ =>
      match coords with
      | Some t =>
          if splitPanes s then set_dirty All None s
          else set_dirty TileRange (Some (default [] (dirtySubset s) ++ [t])) s
      | None => set_dirty All None s
      end
  end.

(** The call made when a tile arrives in the visible area. *)
Definition tile_arrives (t : string) (s : drawing) : drawing := setDirty (Some t) (ask (Some [t]) s).

Definition requestReDraw (tileSubset : option tile_set) (s : drawing) : drawing :=
  let s := ask tileSubset s in
  if negb (drawingAllowed s) then setDirty None s
  else match animatingSectionName s with
       | None => drawSections None None tileSubset s
       | Some _ => s
       end.

(** ** Layout *)

(** [this.sections[i].onResize()] for the sections the list has when its turn comes. *)
Fixpoint resize_loop (fuel i : nat) (s : drawing) : drawing :=
  match fuel with
  | O => s
  | S fuel' =>
      match sections (layout s) !! i with
      | Some k => resize_loop fuel' (S i) (onResize cb k s)
      | None => s
      end
  end.

(** [None] is an error that was raised. *)
Definition reNewAllSections (redraw : bool) (s : drawing) : option drawing :=
  c ← locateSections (orderSections (layout s));
  let s := set_layout c s in
  let s := resize_loop (length (sections c)) 0 s in
  let s := set_layout (applyDrawingOrders (layout s)) s in
  Some (if redraw && drawingAllowed s then drawSections None None None s else s).

Definition update_lists (s : drawing) : drawing := set_layout (updateBoundSectionLists (layout s)) s.

Definition paintOnResumeOrEnable (s : drawing) : option drawing :=
  s ← (if sectionsDirty s then
         s ← reNewAllSections false (update_lists s);
         Some (set_sectionsDirty false s)
       else Some s);
  let s := match getSectionWithName "scroll" (layout s) with
           | Some i => completePendingScroll cb i s
           | None => s
           end in
  Some (match dirty s with
        | NotDirty => s
        | _ => clearDirty (requestReDraw (dirtySubset s) s)
        end).

Definition disableDrawing (s : drawing) : drawing := set_enabled false s.

Definition enableDrawing (s : drawing) : option drawing :=
  if drawingEnabled s then Some s
  else
    let s := set_enabled true s in
    if drawingPaused s =? 0 then paintOnResumeOrEnable (setDirty None (ask None s)) else Some s.

Definition pauseDrawing (s : drawing) : drawing :=
  let s' := set_paused (drawingPaused s + 1) s in
  if drawingPaused s =? 0 then clearDirty s' else s'.

Definition resumeDrawing (topLevel : bool) (s : drawing) : option drawing :=
  let wasNonZero := negb (drawingPaused s =? 0) in
  let s := if topLevel then set_paused 0 s
           else if 0 <? drawingPaused s then set_paused (drawingPaused s - 1) s else s in
  if drawingEnabled s && wasNonZero && (drawingPaused s =? 0) then paintOnResumeOrEnable s else Some s.

(** ** Sections come and go *)

Definition checkNewSectionName (n : string) (s : drawing) : bool :=
  if String.eqb (trim n) "" then false
  else if doesSectionExist n (layout s) then false
  else negb (existsb (String.eqb (trim n)) ["top"; "left"; "bottom"; "right"]).

Definition setBoundTo (i : nat) (n : option string) (s : drawing) : option drawing :=
  reNewAllSections true (update_lists (set_layout (alter_section (set_bound_to n) i (layout s)) s)).

Definition setZIndex (i : nat) (z : Z) (s : drawing) : option drawing :=
  reNewAllSections true (update_lists (set_layout (alter_section (set_z_index z) i (layout s)) s)).

Definition setDrawingOrder (i : nat) (d : Z) (s : drawing) : option drawing :=
  reNewAllSections true (update_lists (set_layout (alter_section (set_drawing_order d) i (layout s)) s)).

(** A new object: [i] is its identity. *)
Definition pushSection (i : nat) (new : section) (s : drawing) : option drawing :=
  let c := layout s in
  let s := set_layout (set_sections (sections c ++ [i]) (set_heap (<[i := new]> (heap c)) c)) s in
  let s := onInitialize cb i s in
  if drawingAllowed s then reNewAllSections true (update_lists s)
  else Some (setDirty None (ask None (set_sectionsDirty true s))).

Definition addSection (i : nat) (new : section) (s : drawing) : option (drawing * bool) :=
  if checkNewSectionName (name new) s then s ← pushSection i new s; Some (s, true)
  else Some (s, false).

(** [createSection]: a section made from options, bound to another one. *)
Definition createSection (i : nat) (new : section) (parent : option string) (s : drawing)
    : option (drawing * bool) :=
  addSection i (set_bound_to parent new) s.

Definition removeSection (n : string) (s : drawing) : option (drawing * bool) :=
  match list_find (fun i => name (heap (layout s) i) = n) (sections (layout s)) with
  | None => Some (s, false)
  | Some (k, i) =>
      let s := onRemove cb i s in
      let s := set_layout (set_sections (delete k (sections (layout s))) (layout s)) s in
      if negb (drawingAllowed s) then Some (set_sectionsDirty true s, true)
      else s ← reNewAllSections true (update_lists s); Some (s, true)
  end.

(** A new size of the canvas, in pixels, at a scale. *)
Definition onResizeCanvas (w h dpi : Z) (s : drawing) : option drawing :=
  reNewAllSections true (set_layout (set_canvas (w * per_pixel, h * per_pixel) dpi (layout s)) s).

(** ** Animation *)

(** One frame, at a time.  At the end the counters become [null]; they are not read before
    the next start sets them. *)
Definition animate (timeStamp : Z) (s : drawing) : drawing :=
  let s := if 0 <? lastFrameStamp s
           then set_clock timeStamp (elapsedTime s + (timeStamp - lastFrameStamp s)) s
           else set_clock timeStamp (elapsedTime s) s in
  let s := match duration s with
           | Some d => if d <=? elapsedTime s then set_continue false s else s
           | None => s
           end in
  if continueAnimating s then
    let s := drawSections (Some (frameCount s)) (Some (elapsedTime s)) None s in
    set_frames (S (frames s)) (set_frameCount (frameCount s + 1) s)
  else
    let s := match animatingSectionName s ≫= fun n => getSectionWithName n (layout s) with
             | Some i =>
                 onAnimationEnded cb i (frameCount s) (elapsedTime s)
                   (set_layout (alter_section (set_isAnimating false) i (layout s)) s)
             | None => s
             end in
    drawSections None None None (set_animating None s).

Definition resetAnimation (n : string) (s : drawing) : drawing :=
  if bool_decide (animatingSectionName s = Some n) then set_frameCount 0 (set_clock 0 0 s) else s.

Definition stopAnimating (s : drawing) : drawing := set_continue false s.

(** A duration of zero is none.  [None]: there is no section of that name. *)
Definition startAnimating (n : string) (dur : option Z) (now : Z) (s : drawing) : option (drawing * bool) :=
  match animatingSectionName s with
  | Some _ => Some (s, false)
  | None =>
      i ← getSectionWithName n (layout s);
      let s := set_layout (alter_section (set_isAnimating true) i (layout s)) (set_animating (Some n) s) in
      let s := set_continue true (set_clock 0 0 s) in
      let s := set_duration (match dur with Some 0 => None | d => d end) s in
      Some (animate now (set_frameCount 0 s), true)
  end.

(** The browser runs a requested frame. *)
Definition frame (timeStamp : Z) (s : drawing) : drawing :=
  match frames s with
  | O => s
  | S n => animate timeStamp (set_frames n s)
  end.

(** ** Clicks draw, too *)
Definition draw_all (s : drawing) : drawing := drawSections None None None s.

(** ** What is still to be drawn

    [None] is everything, [Some l] the tiles [l].  A call that asks adds to it; an
    execution of [drawSections] removes what it was not kept from drawing. *)
Definition serve (n : option tile_set) (e : event) : option tile_set :=
  match e with
  | Asked None => None
  | Asked (Some ts) => us ← n; Some (us ++ ts)
  | Drew _ _ None _ _ => Some []
  | Drew _ _ (Some ts) _ _ => us ← n; Some (filter (fun u => u ∉ ts) us)
  end.

(** What was asked from position [k] of the log on and not drawn since. *)
Definition outstanding (k : nat) (s : drawing) : option tile_set :=
  foldl serve (Some []) (drop k (log s)).

Definition nothing (n : option tile_set) : Prop := n = Some [].

(** What the container remembers covers what is to be drawn. *)
Definition covered (n : option tile_set) (s : drawing) : Prop :=
  match dirty s, n with
  | All, _ => True
  | TileRange, Some us => exists ts, dirtySubset s = Some ts /\ us ⊆ ts
  | NotDirty, Some us => us = []
  | _, None => False
  end.

Definition dirty_ok (s : drawing) : Prop :=
  match dirty s with TileRange => is_Some (dirtySubset s) | _ => dirtySubset s = None end.

(** The weak invariant holds in the middle of an operation, too. *)
Definition remembers (k : nat) (s : drawing) : Prop :=
  (k <= length (log s))%nat /\ dirty_ok s /\ 0 <= drawingPaused s /\
  (animatingSectionName s = None -> covered (outstanding k s) s).

Definition drawn (k : nat) (s : drawing) : Prop :=
  drawingAllowed s = true -> animatingSectionName s = None -> nothing (outstanding k s).

Lemma outstanding_snoc k s s' e :
  (k <= length (log s))%nat -> log s' = log s ++ [e] -> outstanding k s' = serve (outstanding k s) e.
Proof. intros Hk E. unfold outstanding. rewrite E, drop_app_le, foldl_app by done. done. Qed.

Lemma outstanding_log k s s' : log s' = log s -> outstanding k s' = outstanding k s.
Proof. unfold outstanding. by intros ->. Qed.

Lemma drawSections_full k s fc et :
  (k <= length (log s))%nat -> nothing (outstanding k (drawSections fc et None s)).
Proof. intros Hk. unfold nothing. by erewrite outstanding_snoc by done. Qed.

(** A step that leaves these fields alone. *)
Definition same_drawing (s s' : drawing) : Prop :=
  log s' = log s /\ dirty s' = dirty s /\ dirtySubset s' = dirtySubset s /\
  drawingPaused s' = drawingPaused s /\ drawingEnabled s' = drawingEnabled s /\
  animatingSectionName s' = animatingSectionName s.

Lemma remembers_same k s s' : same_drawing s s' -> remembers k s -> remembers k s'.
Proof.
  intros (E1 & E2 & E3 & E4 & _ & E6) (H1 & H2 & H3 & H4).
  unfold remembers, covered, dirty_ok, outstanding. by rewrite E1, E2, E3, E4, E6.
Qed.

Lemma drawn_same k s s' : same_drawing s s' -> drawn k s -> drawn k s'.
Proof.
  intros (E1 & E2 & E3 & E4 & E5 & E6). unfold drawn, drawingAllowed, outstanding. by rewrite E1, E4, E5, E6.
Qed.

Lemma nothing_remembers k s :
  (k <= length (log s))%nat -> dirty_ok s -> 0 <= drawingPaused s -> nothing (outstanding k s) -> remembers k s.
Proof.
  intros Hk Hd Hp Hn. split_and!; [done..|]. intros _. unfold covered. rewrite Hn.
  unfold dirty_ok in Hd. destruct (dirty s); [done..|]. destruct Hd as [ts ->]. exists ts. set_solver.
Qed.

Lemma drawSections_remembers k s fc et :
  remembers k s -> let s' := drawSections fc et None s in remembers k s' /\ nothing (outstanding k s').
Proof.
  intros (H1 & H2 & H3 & _) s'. assert (Hn : nothing (outstanding k s')) by by apply drawSections_full.
  split; [|done]. apply nothing_remembers; [|done..]. simpl. rewrite length_app. simpl. lia.
Qed.

Lemma serve_asked_covered n s w :
  dirty s = All \/ (exists ts, w = Some ts /\ dirty s = TileRange /\ exists us, dirtySubset s = Some us /\ ts ⊆ us) ->
  covered n s -> covered (serve n (Asked w)) s.
Proof.
  unfold covered. intros [->|(ts & -> & -> & us & -> & Hts)]; [done|]. destruct n as [vs|]; simpl; [|done].
  intros (ws & [= <-] & Hvs). exists us. split; [done|]. set_solver.
Qed.

Lemma setDirty_all k s :
  (k <= length (log s))%nat -> dirty_ok s -> 0 <= drawingPaused s -> remembers k (setDirty None s).
Proof.
  intros Hk Hd Hp. unfold setDirty. unfold dirty_ok in Hd. destruct (dirty s) eqn:E.
  - split_and!; done.
  - split_and!; [done|unfold dirty_ok; by rewrite E|done|]. intros _. unfold covered. by rewrite E.
  - split_and!; done.
Qed.

Lemma ask_outstanding k s w :
  (k <= length (log s))%nat -> outstanding k (ask w s) = serve (outstanding k s) (Asked w).
Proof. intros Hk. by apply outstanding_snoc. Qed.

Lemma ask_length k s w : (k <= length (log s))%nat -> (k <= length (log (ask w s)))%nat.
Proof. simpl. rewrite length_app. lia. Qed.

Lemma clip_of_some sub s ts : clip_of sub s = Some ts -> sub = Some ts.
Proof.
  unfold clip_of. destruct sub as [[|t us]|]; [done| |done].
  destruct (getSectionWithName _ _); [|done]. case_match; [by intros [= <-]|done].
Qed.

(** Asking for something and drawing it leaves what was outstanding before, at most. *)
Lemma ask_draw_outstanding k s sub fc et :
  (k <= length (log s))%nat ->
  let s' := drawSections fc et sub (ask sub s) in
  nothing (outstanding k s') \/
  outstanding k s = None \/ exists us vs, outstanding k s = Some us /\ outstanding k s' = Some vs /\ vs ⊆ us.
Proof.
  intros Hk s'. unfold s', drawSections. erewrite (outstanding_snoc k (ask sub s)) by (done || by apply ask_length).
  rewrite ask_outstanding by done. destruct (clip_of sub (ask sub s)) as [ts|] eqn:Ec; [|by left]. right.
  apply clip_of_some in Ec as ->. destruct (outstanding k s) as [us|]; [right|by left]. simpl.
  eexists us, _. split; [done|]. split; [done|]. intros u Hu. apply list_elem_of_filter in Hu as [H1 H2].
  set_solver.
Qed.

Lemma requestReDraw_remembers k s sub : remembers k s -> remembers k (requestReDraw sub s).
Proof.
  intros (Hk & Hd & Hp & Hc). unfold requestReDraw. destruct (negb (drawingAllowed (ask sub s))).
  { apply setDirty_all; [by apply ask_length|done..]. }
  destruct (animatingSectionName (ask sub s)) as [n|] eqn:En.
  { split_and!; [by apply ask_length|done..|]. intros E. congruence. }
  simpl in En. specialize (Hc En). split_and!; [|done..|].
  { simpl. rewrite !length_app. simpl. lia. }
  intros _. unfold covered in *. change (dirty (drawSections None None sub (ask sub s))) with (dirty s).
  change (dirtySubset (drawSections None None sub (ask sub s))) with (dirtySubset s).
  destruct (ask_draw_outstanding k s sub None None Hk) as [->|[E|(us & vs & E & -> & Hv)]]; [|rewrite E in Hc..].
  - unfold dirty_ok in Hd. destruct (dirty s); [done..|]. destruct Hd as [ts ->]. exists ts. set_solver.
  - by destruct (dirty s).
  - destruct (dirty s); [| |destruct Hc as (ts & -> & Hts); exists ts; set_solver]; [|done].
    subst. destruct vs; [done|]. set_solver.
Qed.

Lemma requestReDraw_drawn k s sub : remembers k s -> drawn k s -> drawn k (requestReDraw sub s).
Proof.
  intros (Hk & _) Hj. unfold requestReDraw, drawn.
  change (drawingAllowed (ask sub s)) with (drawingAllowed s).
  change (animatingSectionName (ask sub s)) with (animatingSectionName s).
  destruct (drawingAllowed s) eqn:Ea; simpl.
  - destruct (animatingSectionName s) as [n|] eqn:En; [simpl; congruence|]. intros _ _.
    pose proof (Hj Ea En) as Hn. unfold nothing in *.
    destruct (ask_draw_outstanding k s sub None None Hk) as [E|[E|(us & vs & E & E' & Hv)]]; [done|congruence|].
    rewrite E' in *. destruct vs as [|v vs]; [done|]. assert (us = []) as -> by congruence. set_solver.
  - unfold setDirty. intros Hal. exfalso. revert Hal.
    destruct (dirty (ask sub s)); unfold drawingAllowed in *; simpl; congruence.
Qed.

Lemma tile_arrives_remembers k s t : remembers k s -> remembers k (tile_arrives t s).
Proof.
  intros (Hk & Hd & Hp & Hc). unfold tile_arrives, setDirty.
  pose proof (ask_length k s (Some [t]) Hk) as Hk'. change (dirty (ask (Some [t]) s)) with (dirty s).
  change (splitPanes (ask (Some [t]) s)) with (splitPanes s).
  change (dirtySubset (ask (Some [t]) s)) with (dirtySubset s).
  destruct (dirty s) eqn:E; [destruct (splitPanes s)| |destruct (splitPanes s)]; try (by split_and!).
  - split_and!; [done|by eexists|done|]. intros En. simpl in En. specialize (Hc En). unfold covered in *. simpl.
    rewrite (outstanding_log k (ask (Some [t]) s)), ask_outstanding by done. rewrite E in Hc.
    destruct (outstanding k s) as [us|]; [|done]. subst. simpl. eexists. split; [done|].
    unfold dirty_ok in Hd. rewrite E in Hd. rewrite Hd. simpl. set_solver.
  - split_and!; [done| |done|]; [unfold dirty_ok in *; simpl; by rewrite E in *|].
    intros _. unfold covered. simpl. by rewrite E.
  - split_and!; [done|by eexists|done|]. intros En. simpl in En. specialize (Hc En). unfold covered in *. simpl.
    rewrite (outstanding_log k (ask (Some [t]) s)), ask_outstanding by done. rewrite E in Hc.
    destruct (outstanding k s) as [us|]; [|done]. destruct Hc as (ts & -> & Hts). simpl. eexists. split; [done|].
    set_solver.
Qed.

(** A drawing that was limited to what is remembered leaves nothing. *)
Lemma paint_dirty_drawn k s :
  remembers k s -> drawingAllowed s = true -> dirty s <> NotDirty ->
  let s' := clearDirty (requestReDraw (dirtySubset s) s) in remembers k s' /\ drawn k s'.
Proof.
  intros (Hk & Hd & Hp & Hc) Ha Hn s'. unfold s', requestReDraw.
  change (drawingAllowed (ask ?w s)) with (drawingAllowed s). rewrite Ha. simpl.
  pose proof (ask_length k s (dirtySubset s) Hk) as Hk'.
  destruct (animatingSectionName s) as [n|] eqn:En.
  { split; [|unfold drawn; simpl; congruence]. split_and!; [done..|]. simpl. congruence. }
  specialize (Hc eq_refl).
  assert (E : nothing (outstanding k (clearDirty (drawSections None None (dirtySubset s) (ask (dirtySubset s) s))))).
  { rewrite (outstanding_log k (drawSections None None (dirtySubset s) (ask (dirtySubset s) s))) by done.
    unfold drawSections. erewrite (outstanding_snoc k (ask (dirtySubset s) s)) by done.
    rewrite ask_outstanding by done. unfold covered, dirty_ok in *. destruct (dirty s); [done| |].
    - by rewrite Hd.
    - destruct (clip_of _ _) as [ts|] eqn:Ec; [|done]. apply clip_of_some in Ec. rewrite Ec.
      destruct (outstanding k s) as [us|]; [|done]. destruct Hc as (ts' & Ets & Hts). simplify_eq/=.
      unfold nothing. f_equal. apply elem_of_nil_inv. intros u Hu. apply list_elem_of_filter in Hu. set_solver. }
  split; [|by intros _ _]. apply nothing_remembers; [|done..]. simpl. rewrite !length_app. simpl. lia.
Qed.

(** ** The functions of sections

    They may ask for redraws and start animations; what they must not do is forget, or
    change whether drawing is allowed after they are done. *)
Definition keeps (f : drawing -> drawing) : Prop :=
  forall s, (forall k, remembers k s -> remembers k (f s)) /\
            drawingPaused (f s) = drawingPaused s /\ drawingEnabled (f s) = drawingEnabled s.

Definition callbacks_keep : Prop :=
  (forall i, keeps (onInitialize cb i)) /\ (forall i, keeps (onResize cb i)) /\
  (forall i, keeps (onRemove cb i)) /\ (forall i n e, keeps (onAnimationEnded cb i n e)) /\
  (forall i, keeps (completePendingScroll cb i)).

Context (Hcb : callbacks_keep).

Lemma keeps_allowed f s : keeps f -> drawingAllowed (f s) = drawingAllowed s.
Proof. intros H. destruct (H s) as (_ & E1 & E2). unfold drawingAllowed. by rewrite E1, E2. Qed.

Lemma keeps_compose f g : keeps f -> keeps g -> keeps (fun s => g (f s)).
Proof.
  intros Hf Hg s. destruct (Hf s) as (F1 & F2 & F3), (Hg (f s)) as (G1 & G2 & G3).
  split_and!; [auto|congruence..].
Qed.

Lemma keeps_same f : (forall s, same_drawing s (f s)) -> keeps f.
Proof.
  intros H s. split; [intros k; by apply remembers_same|]. by destruct (H s) as (_ & _ & _ & ? & ? & _).
Qed.

Lemma resize_loop_keeps fuel i : keeps (resize_loop fuel i).
Proof using Hcb.
  revert i. induction fuel as [|fuel IH]; intros i s; simpl; [by split_and!|].
  destruct (sections (layout s) !! i) as [k|]; [|by split_and!].
  destruct Hcb as (_ & Hr & _). apply (keeps_compose _ _ (Hr k) (IH (S i))).
Qed.

(** What a whole operation establishes. *)
Definition settles (f : drawing -> option drawing) : Prop :=
  forall k s s', remembers k s -> f s = Some s' ->
    remembers k s' /\ drawn k s' /\
    drawingPaused s' = drawingPaused s /\ drawingEnabled s' = drawingEnabled s.

Lemma reNewAllSections_inv redraw k s s' :
  remembers k s -> reNewAllSections redraw s = Some s' ->
  remembers k s' /\ (redraw = true -> drawn k s') /\
  drawingPaused s' = drawingPaused s /\ drawingEnabled s' = drawingEnabled s.
Proof using Hcb.
  intros Hr. unfold reNewAllSections. destruct (locateSections _) as [c|]; [|done]. simpl.
  set (s1 := resize_loop (length (sections c)) 0 (set_layout c s)).
  destruct (resize_loop_keeps (length (sections c)) 0 (set_layout c s)) as (R1 & R2 & R3). fold s1 in R1, R2, R3.
  assert (Hs1 : remembers k s1) by (apply R1; by eapply remembers_same; [|done]).
  set (s2 := set_layout (applyDrawingOrders (layout s1)) s1).
  assert (Hs2 : remembers k s2) by (by eapply remembers_same; [|exact Hs1]).
  destruct (redraw && drawingAllowed s2) eqn:E; intros [= <-].
  - destruct (drawSections_remembers k s2 None None Hs2) as [H1 H2]. split_and!; [done|by intros _ _ _|done..].
  - split_and!; [done| |done..]. intros ->. simpl in E. intros Ha. congruence.
Qed.

Lemma reNew_settles : settles (fun s => reNewAllSections true (update_lists s)).
Proof using Hcb.
  intros k s s' Hr E. apply (reNewAllSections_inv _ k) in E as (H1 & H2 & H3 & H4);
    [|by eapply remembers_same; [|exact Hr]]. split_and!; auto.
Qed.

Lemma paint_settles k s s' :
  remembers k s -> drawingAllowed s = true -> paintOnResumeOrEnable s = Some s' ->
  remembers k s' /\ drawn k s' /\ drawingPaused s' = drawingPaused s /\ drawingEnabled s' = drawingEnabled s.
Proof using Hcb.
  intros Hr Ha. unfold paintOnResumeOrEnable.
  set (o := if sectionsDirty s then _ else _). intros E.
  assert (H1 : exists s1, o = Some s1 /\ remembers k s1 /\ drawingPaused s1 = drawingPaused s /\
                          drawingEnabled s1 = drawingEnabled s).
  { unfold o in *. destruct (sectionsDirty s); [|by exists s].
    destruct (reNewAllSections false (update_lists s)) as [s1|] eqn:E1; [|done]. simpl.
    apply (reNewAllSections_inv _ k) in E1 as (H1 & _ & H3 & H4); [|by eapply remembers_same; [|exact Hr]].
    eexists. split; [done|]. split_and!; [by eapply remembers_same; [|exact H1]|done..]. }
  destruct H1 as (s1 & Eo & H1 & H2 & H3). rewrite Eo in E. simpl in E. clear Eo o.
  set (s2 := match getSectionWithName "scroll" (layout s1) with Some i => completePendingScroll cb i s1 | None => s1 end) in *.
  assert (H4 : remembers k s2 /\ drawingPaused s2 = drawingPaused s /\ drawingEnabled s2 = drawingEnabled s).
  { unfold s2. destruct (getSectionWithName "scroll" (layout s1)) as [i|]; [|done].
    destruct Hcb as (_ & _ & _ & _ & Hc). destruct (Hc i s1) as (C1 & -> & ->). auto. }
  destruct H4 as (H4 & H5 & H6).
  assert (Ha2 : drawingAllowed s2 = true) by (unfold drawingAllowed in *; by rewrite H5, H6).
  destruct (dirty s2) eqn:Ed; injection E as <-.
  - split_and!; [done| |done..]. intros _ En. destruct H4 as (_ & _ & _ & Hc). specialize (Hc En).
    unfold covered in Hc. rewrite Ed in Hc. unfold nothing. destruct (outstanding k s2); [by subst|done].
  - destruct (paint_dirty_drawn k s2 H4 Ha2) as [P1 P2]; [congruence|]. split_and!; [done..| |];
      unfold requestReDraw; change (drawingAllowed (ask ?w s2)) with (drawingAllowed s2); rewrite Ha2; simpl;
      by destruct (animatingSectionName s2).
  - destruct (paint_dirty_drawn k s2 H4 Ha2) as [P1 P2]; [congruence|]. split_and!; [done..| |];
      unfold requestReDraw; change (drawingAllowed (ask ?w s2)) with (drawingAllowed s2); rewrite Ha2; simpl;
      by destruct (animatingSectionName s2).
Qed.

Lemma resumeDrawing_inv top k s s' :
  remembers k s -> drawn k s -> resumeDrawing top s = Some s' -> remembers k s' /\ drawn k s'.
Proof using Hcb.
  intros Hr Hj. pose proof Hr as (Hk & Hd & Hp & Hc). unfold resumeDrawing.
  set (s1 := if top then set_paused 0 s else _).
  assert (H1 : exists p, s1 = set_paused p s /\ 0 <= p /\ (drawingPaused s = 0 -> p = 0)).
  { unfold s1. destruct top; [exists 0; split_and!; [done|lia..]|].
    destruct (0 <? drawingPaused s) eqn:E; to_prop; [exists (drawingPaused s - 1); split_and!; [done|lia..]|].
    exists 0. assert (drawingPaused s = 0) as E0 by lia. split_and!; [rewrite <- E0; by destruct s|lia..]. }
  destruct H1 as (p & -> & Hp0 & Hpz). simpl.
  assert (Hr1 : remembers k (set_paused p s)) by by split_and!.
  destruct (drawingEnabled s && negb (drawingPaused s =? 0) && (p =? 0)) eqn:E.
  - to_prop. intros Hpaint. apply (paint_settles k) in Hpaint as (P1 & P2 & _); [done..|].
    unfold drawingAllowed. simpl. apply andb_true_intro. split; [done|]. apply Z.leb_le. lia.
  - intros [= <-]. split; [done|]. unfold drawn, drawingAllowed in *. simpl in *. intros Ha En. apply Hj; [|done].
    to_prop. destruct (drawingEnabled s); [|done]. simpl in *. lia.
Qed.

Lemma enableDrawing_inv k s s' :
  remembers k s -> drawn k s ->
  enableDrawing s = Some s' -> remembers k s' /\ drawn k s'.
Proof using Hcb.
  intros Hr Hj. pose proof Hr as (Hk & Hd & Hp0 & Hc). unfold enableDrawing.
  destruct (drawingEnabled s) eqn:Ee; [by intros [= <-]|]. simpl.
  destruct (drawingPaused s =? 0) eqn:E0; to_prop.
  - intros Hpaint. apply (paint_settles k) in Hpaint as (P1 & P2 & _); [done..| |].
    + apply setDirty_all; [by apply (ask_length k s None)|done..].
    + unfold setDirty. simpl. by destruct (dirty s); unfold drawingAllowed; simpl; rewrite E0.
  - intros [= <-]. split; [by split_and!|]. unfold drawn, drawingAllowed. simpl. intros Ha. to_prop. lia.
Qed.

Lemma pauseDrawing_inv k s :
  remembers k s -> drawn k s ->
  let k' := if (drawingPaused s =? 0) && negb (drawingEnabled s) then length (log s) else k in
  remembers k' (pauseDrawing s) /\ drawn k' (pauseDrawing s).
Proof.
  intros (Hk & Hd & Hp & Hc) Hj k'. unfold k'. clear k'. unfold pauseDrawing.
  assert (Hno : forall k s', drawingPaused s' = drawingPaused s + 1 -> drawn k s').
  { intros k' s' E. unfold drawn, drawingAllowed. rewrite E. intros Ha. to_prop. lia. }
  destruct (drawingPaused s =? 0) eqn:E; simpl; [|split; [split_and!; simpl; done || lia|by apply Hno]].
  to_prop. destruct (drawingEnabled s) eqn:Ee; simpl; (split; [|by apply Hno]).
  - split_and!; simpl; [done|done|lia|]. intros En. unfold covered. simpl.
    assert (Hn : nothing (outstanding k s)) by (apply Hj; [unfold drawingAllowed; by rewrite Ee, E|done]).
    rewrite (outstanding_log k s) by done. by rewrite Hn.
  - split_and!; simpl; [done|done|lia|]. intros _. unfold covered. simpl. unfold outstanding. simpl.
    by rewrite drop_all.
Qed.

Lemma pushSection_inv i new k s s' :
  remembers k s -> pushSection i new s = Some s' -> remembers k s' /\ drawn k s'.
Proof using Hcb.
  intros Hr. unfold pushSection. set (s0 := set_layout _ s).
  assert (Hr0 : remembers k s0) by (by eapply remembers_same; [|exact Hr]).
  destruct Hcb as (Hi & _). destruct (Hi i s0) as (I1 & I2 & I3). specialize (I1 k Hr0).
  set (s1 := onInitialize cb i s0) in *. destruct (drawingAllowed s1) eqn:Ea.
  - intros E. by apply (reNew_settles k) in E as (H1 & H2 & _).
  - intros [= <-]. pose proof I1 as (Hk & Hd & Hp & Hc). split.
    + apply setDirty_all; [|done..]. by apply (ask_length k s1 None).
    + intros Hal. exfalso. unfold setDirty, drawingAllowed in *. simpl in *. destruct (dirty s1); simpl in *; congruence.
Qed.

Lemma removeSection_inv n k s s' b :
  remembers k s -> drawn k s -> removeSection n s = Some (s', b) -> remembers k s' /\ drawn k s'.
Proof using Hcb.
  intros Hr Hj. unfold removeSection. destruct (list_find _ _) as [[j i]|]; [|by intros [= <- <-]].
  destruct Hcb as (_ & _ & Hrm & _). destruct (Hrm i s) as (I1 & I2 & I3). specialize (I1 k Hr).
  set (s1 := set_layout _ _).
  assert (Hr1 : remembers k s1) by (by eapply remembers_same; [|exact I1]).
  destruct (negb (drawingAllowed s1)) eqn:Ea.
  - intros [= <- <-]. to_prop. split; [by eapply remembers_same; [|exact Hr1]|].
    intros Hal. unfold drawingAllowed in *. simpl in *. congruence.
  - destruct (reNewAllSections true (update_lists s1)) as [s2|] eqn:E; [|done]. simpl. intros [= <- <-].
    by apply (reNew_settles k) in E as (H1 & H2 & _).
Qed.

Lemma animate_inv t k s : remembers k s -> remembers k (animate t s) /\ drawn k (animate t s).
Proof using Hcb.
  intros Hr. unfold animate.
  set (s1 := if 0 <? lastFrameStamp s then _ else _).
  assert (H1 : remembers k s1).
  { unfold s1. destruct (0 <? lastFrameStamp s); by eapply remembers_same; [|exact Hr]. }
  set (s2 := match duration s1 with Some d => if d <=? elapsedTime s1 then set_continue false s1 else s1 | None => s1 end).
  assert (H2 : remembers k s2).
  { unfold s2. destruct (duration s1) as [d|]; [|done]. destruct (d <=? elapsedTime s1); [|done].
    by eapply remembers_same; [|exact H1]. }
  destruct (continueAnimating s2).
  - destruct (drawSections_remembers k s2 (Some (frameCount s2)) (Some (elapsedTime s2)) H2) as [D1 D2].
    split; [by eapply remembers_same; [|exact D1]|]. intros _ _. exact D2.
  - set (s3 := match animatingSectionName s2 ≫= _ with Some i => _ | None => s2 end).
    assert (H3 : remembers k s3).
    { unfold s3. destruct (animatingSectionName s2 ≫= _) as [i|]; [|done].
      destruct Hcb as (_ & _ & _ & He & _). apply He. by eapply remembers_same; [|exact H2]. }
    assert (H4 : (k <= length (log (set_animating None s3)))%nat /\ dirty_ok s3 /\ 0 <= drawingPaused s3)
      by (by destruct H3 as (? & ? & ? & _)).
    destruct H4 as (K1 & K2 & K3).
    assert (Hn : nothing (outstanding k (drawSections None None None (set_animating None s3))))
      by by apply drawSections_full.
    split; [|by intros _ _]. apply nothing_remembers; [|done..]. simpl in *. rewrite length_app. simpl. lia.
Qed.

(** ** All operations together

    With the state goes the position in the log from which on nothing is forgotten: pausing
    forgets what was asked while drawing was disabled and not paused. *)
Definition base_after_pause (k : nat) (s : drawing) : nat :=
  if (drawingPaused s =? 0) && negb (drawingEnabled s) then length (log s) else k.

Inductive step : nat * drawing -> nat * drawing -> Prop :=
  | step_request k s sub : step (k, s) (k, requestReDraw sub s)
  | step_tile k s t : drawingAllowed s = false -> step (k, s) (k, tile_arrives t s)
  | step_pause k s : step (k, s) (base_after_pause k s, pauseDrawing s)
  | step_resume k s top s' : resumeDrawing top s = Some s' -> step (k, s) (k, s')
  | step_enable k s s' : enableDrawing s = Some s' -> step (k, s) (k, s')
  | step_disable k s : step (k, s) (k, disableDrawing s)
  | step_add k s i new s' b : addSection i new s = Some (s', b) -> step (k, s) (k, s')
  | step_remove k s n s' b : removeSection n s = Some (s', b) -> step (k, s) (k, s')
  | step_bind k s i n s' : setBoundTo i n s = Some s' -> step (k, s) (k, s')
  | step_zIndex k s i z s' : setZIndex i z s = Some s' -> step (k, s) (k, s')
  | step_drawingOrder k s i d s' : setDrawingOrder i d s = Some s' -> step (k, s) (k, s')
  | step_resize k s w h dpi s' : onResizeCanvas w h dpi s = Some s' -> step (k, s) (k, s')
  | step_move k s c : step (k, s) (k, set_layout c s)
  | step_zoom k s b : step (k, s) (k, set_zoomChanged b s)
  | step_frame k s t : step (k, s) (k, frame t s)
  | step_start k s n d now s' b : startAnimating n d now s = Some (s', b) -> step (k, s) (k, s')
  | step_stop k s : step (k, s) (k, stopAnimating s)
  | step_reset k s n : step (k, s) (k, resetAnimation n s)
  | step_click k s : step (k, s) (k, draw_all s).

Definition settled (ks : nat * drawing) : Prop := remembers ks.1 ks.2 /\ drawn ks.1 ks.2.

Lemma same_settled k s s' : same_drawing s s' -> settled (k, s) -> settled (k, s').
Proof. intros H [H1 H2]. split; [by eapply remembers_same | by eapply drawn_same]. Qed.

Lemma reNew_settled k c s s' :
  settled (k, s) -> reNewAllSections true (set_layout c s) = Some s' -> settled (k, s').
Proof using Hcb.
  intros [Hr _] E. apply (reNewAllSections_inv _ k) in E as (H1 & H2 & _); [by split; auto|].
  by eapply remembers_same; [|exact Hr].
Qed.

Lemma step_settled ks ks' : step ks ks' -> settled ks -> settled ks'.
Proof using Hcb.
  destruct 1; intros Hs; pose proof Hs as [Hr Hj]; simpl in Hr, Hj.
  - split; [by apply requestReDraw_remembers | by apply requestReDraw_drawn].
  - split; [by apply tile_arrives_remembers|]. unfold drawn, tile_arrives, setDirty. simpl.
    intros Ha. exfalso. destruct (dirty s); try destruct (splitPanes s); unfold drawingAllowed in *; simpl in *; congruence.
  - by apply pauseDrawing_inv.
  - by eapply resumeDrawing_inv.
  - by eapply enableDrawing_inv.
  - split; [by destruct Hr as (? & ? & ? & ?); split_and!|]. unfold drawn. done.
  - unfold addSection in H. destruct (checkNewSectionName _ _); [|simplify_eq; done].
    destruct (pushSection i new s) as [s1|] eqn:E; [|done]. simplify_eq/=. by eapply pushSection_inv.
  - by eapply removeSection_inv.
  - by eapply reNew_settled in H.
  - by eapply reNew_settled in H.
  - by eapply reNew_settled in H.
  - by eapply reNew_settled in H.
  - by eapply same_settled; [|exact Hs].
  - by eapply same_settled; [|exact Hs].
  - unfold frame. destruct (frames s) as [|n]; [done|].
    destruct (animate_inv t k (set_frames n s)) as [A1 A2]; [by eapply remembers_same; [|exact Hr]|done].
  - unfold startAnimating in H. destruct (animatingSectionName s) eqn:En; [by simplify_eq|].
    destruct (getSectionWithName n (layout s)) as [i|]; [|done]. simpl in H. simplify_eq.
    apply animate_inv. destruct Hr as (K1 & K2 & K3 & _). split_and!; done.
  - by eapply same_settled; [|exact Hs].
  - unfold resetAnimation. case_bool_decide; [|done]. by eapply same_settled; [|exact Hs].
  - destruct (drawSections_remembers k s None None Hr) as [D1 D2]. split; [done|by intros _ _].
Qed.

(** A container as it is made. *)
Definition new_container (c : container) (enabled fileb split : bool) : drawing :=
  MkDrawing c 0 enabled NotDirty None false false false fileb split None 0 false 0 None 0 0 [].

Definition reachable (ks : nat * drawing) : Prop :=
  exists c enabled fileb split, rtc step (0%nat, new_container c enabled fileb split) ks.

Lemma reachable_settled ks : reachable ks -> settled ks.
Proof using Hcb.
  intros (c & en & fb & sp & H). assert (H0 : settled (0%nat, new_container c en fb sp)).
  { split; [|by intros _ _]. split_and!; done. }
  revert H0. induction H as [|x y z Hxy _ IH]; [done|]. intros Hx. by eapply IH, step_settled.
Qed.

(** C18: Whenever drawing is enabled, not paused and no animation runs, everything any part of
    the program asked to be drawn again has been drawn since - however pausing is nested,
    whatever tiles arrived meanwhile, and while sections come and go - with one exception:
    [pauseDrawing] while drawing is disabled clears what was asked before, and such requests
    are lost ([disabled_request_lost]).  They are not counted: [k] is the place in the log of
    the last such pause, and requests from there on are not lost. *)
Theorem redraws_not_lost k s :
  reachable (k, s) -> drawingEnabled s = true -> drawingPaused s = 0 -> animatingSectionName s = None ->
  outstanding k s = Some [].
Proof using Hcb.
  intros H He Hp Ha. apply reachable_settled in H as [_ H]. apply H; [|done].
  unfold drawingAllowed. simpl. by rewrite He, Hp.
Qed.

(** ** Animations *)

Definition frames_at (ts : list Z) (s : drawing) : drawing := foldl (fun s t => frame t s) s ts.

(** Running: one frame is pending, and the clock counts from [t0]. *)
Definition running (n : string) (d t0 last : Z) (s : drawing) : Prop :=
  animatingSectionName s = Some n /\ frames s = 1%nat /\ continueAnimating s = true /\
  duration s = Some d /\ lastFrameStamp s = last /\ elapsedTime s = last - t0.

Lemma frame_running n d t0 last t s :
  0 < last -> running n d t0 last s -> t < t0 + d ->
  running n d t0 t (frame t s) /\
  log (frame t s) = log s ++ [Drew (Some (frameCount s)) (Some (t - t0)) None (negb (zoomChanged s))
    (filter (fun i => shouldDrawSection (heap (layout s) i) = true) (sections (layout s)))].
Proof.
  intros Hl (H1 & H2 & H3 & H4 & H5 & H6) Ht. unfold frame, animate. rewrite H2.
  change (lastFrameStamp (set_frames 0 s)) with (lastFrameStamp s). rewrite H5.
  rewrite (proj2 (Z.ltb_lt 0 last) Hl).
  change (duration (set_clock ?a ?b (set_frames 0 s))) with (duration s). rewrite H4.
  change (elapsedTime (set_clock ?a ?b (set_frames 0 s))) with b.
  change (elapsedTime (set_frames 0 s)) with (elapsedTime s). rewrite H6.
  replace (last - t0 + (t - last)) with (t - t0) by lia.
  rewrite (proj2 (Z.leb_gt d (t - t0))) by lia.
  change (continueAnimating (set_clock ?a ?b (set_frames 0 s))) with (continueAnimating s). rewrite H3.
  split; [|done]. by split_and!.
Qed.

Lemma frame_ends n d t0 last t s :
  (forall i fc et s, frames (onAnimationEnded cb i fc et s) = frames s) ->
  0 < last -> running n d t0 last s -> t0 + d <= t ->
  animatingSectionName (frame t s) = None /\ frames (frame t s) = 0%nat.
Proof.
  intros Hf Hl (H1 & H2 & H3 & H4 & H5 & H6) Ht. unfold frame, animate. rewrite H2.
  change (lastFrameStamp (set_frames 0 s)) with (lastFrameStamp s). rewrite H5.
  rewrite (proj2 (Z.ltb_lt 0 last) Hl).
  change (duration (set_clock ?a ?b (set_frames 0 s))) with (duration s). rewrite H4.
  change (elapsedTime (set_clock ?a ?b (set_frames 0 s))) with b.
  change (elapsedTime (set_frames 0 s)) with (elapsedTime s). rewrite H6.
  replace (last - t0 + (t - last)) with (t - t0) by lia.
  rewrite (proj2 (Z.leb_le d (t - t0))) by lia. simpl. split; [done|].
  destruct (animatingSectionName s ≫= _) as [i|]; simpl; [by rewrite Hf | done].
Qed.

Lemma last_cons {A} (x a : A) l : List.last (x :: l) a = List.last l x.
Proof.
  revert x a. induction l as [|y l IH]; intros x a; [done|].
  change (List.last (y :: l) a = List.last (y :: l) x). by rewrite !IH.
Qed.

Lemma frames_at_running n d t0 ts last s :
  0 < last -> running n d t0 last s -> StronglySorted Z.lt (last :: ts) -> Forall (fun t => t < t0 + d) ts ->
  running n d t0 (List.last ts last) (frames_at ts s) /\
  length (log (frames_at ts s)) = (length (log s) + length ts)%nat.
Proof.
  revert last s. induction ts as [|t ts IH]; intros last s Hl Hr Hs Hf.
  - split; [done|]. simpl. lia.
  - inversion_clear Hf as [|? ? Ht Hf']. inversion_clear Hs as [|? ? Hs' Hlt]. inversion_clear Hlt as [|? ? Hlt' _].
    destruct (frame_running n d t0 last t s Hl Hr Ht) as [H1 H2].
    destruct (IH t (frame t s)) as [H3 H4]; [lia|done..|].
    change (frames_at (t :: ts) s) with (frames_at ts (frame t s)). split.
    + by rewrite last_cons.
    + rewrite H4, H2, length_app. simpl. lia.
Qed.

(** An animation with a duration ends by itself: started at [t0], it draws one frame each
    time the browser runs one, as long as the duration is not over; the first frame after
    that ends it, whatever the times between frames are, and none is pending then. *)
Theorem animation_ends n d t0 s s1 ts t :
  (forall i fc et s, frames (onAnimationEnded cb i fc et s) = frames s) ->
  startAnimating n (Some d) t0 s = Some (s1, true) -> frames s = 0%nat -> 0 < t0 -> 0 < d ->
  StronglySorted Z.lt (t0 :: ts) -> Forall (fun t => t < t0 + d) ts -> t0 + d <= t ->
  animatingSectionName (frames_at ts s1) = Some n /\
  length (log (frames_at ts s1)) = (length (log s1) + length ts)%nat /\
  animatingSectionName (frames_at (ts ++ [t]) s1) = None /\
  frames (frames_at (ts ++ [t]) s1) = 0%nat.
Proof.
  intros Hf Hst Hfr Ht0 Hd Hs Hts Ht.
  assert (Hr : running n d t0 t0 s1).
  { unfold startAnimating in Hst. destruct (animatingSectionName s); [done|].
    destruct (getSectionWithName n (layout s)) as [i|]; [|done]. simpl in Hst.
    destruct d as [|p|p]; [lia| |lia]. injection Hst as <-. unfold animate. simpl.
    unfold running. simpl. rewrite Hfr. split_and!; [done..|lia]. }
  destruct (frames_at_running n d t0 ts t0 s1 Ht0 Hr Hs Hts) as [H1 H2].
  split; [by apply H1|]. split; [done|]. unfold frames_at. rewrite foldl_app. simpl.
  eapply frame_ends; [done| |exact H1|done].
  clear -Hs Ht0. revert Ht0 Hs. generalize t0 as a. induction ts as [|t' ts IH]; intros a Ha Hs; [done|].
  inversion_clear Hs as [|? ? Hs' Hlt]. inversion_clear Hlt as [|? ? Hlt' _].
  rewrite last_cons. apply IH; [lia|done].
Qed.

(** The section that animated cannot start again while it is told that the animation ended;
    nothing else can start either. *)
Lemma one_animation n m dur now s s' b :
  animatingSectionName s = Some m -> startAnimating n dur now s = Some (s', b) -> b = false /\ s' = s.
Proof. unfold startAnimating. intros ->. by intros [= <- <-]. Qed.

(** ** What is forgotten *)

(** A request made while drawing is disabled is forgotten when drawing is enabled inside a
    batch of messages, the only place where the program enables it
    (CalcTileLayer.js, [_onCellCursorMsg]): pausing clears what was asked, and enabling
    asks for nothing while drawing is paused. *)
Theorem disabled_request_lost s :
  drawingEnabled s = false -> drawingPaused s = 0 -> sectionsDirty s = false ->
  getSectionWithName "scroll" (layout s) = None ->
  exists s1 s2, enableDrawing (pauseDrawing (requestReDraw None s)) = Some s1 /\
    resumeDrawing true s1 = Some s2 /\
    drawingAllowed s2 = true /\ log s2 = log s ++ [Asked None].
Proof.
  intros He Hp Hs Hg. unfold requestReDraw, pauseDrawing.
  assert (Ha : drawingAllowed (ask None s) = false) by (unfold drawingAllowed; simpl; by rewrite He).
  rewrite Ha. cbn [negb]. set (s0 := setDirty None (ask None s)).
  assert (E0 : drawingPaused s0 = 0 /\ drawingEnabled s0 = false /\ sectionsDirty s0 = false /\ layout s0 = layout s /\
               log s0 = log s ++ [Asked None]).
  { unfold s0, setDirty. simpl. by destruct (dirty s). }
  destruct E0 as (E1 & E2 & E3 & E4 & E5). clearbody s0. rewrite E1. simpl. unfold enableDrawing. simpl.
  rewrite E2. simpl.
  eexists _, _. split; [done|]. unfold resumeDrawing. simpl. unfold paintOnResumeOrEnable. simpl.
  rewrite E3. simpl. rewrite E4, Hg. simpl. split; [done|]. by split.
Qed.

Lemma resume_last s :
  drawingEnabled s = true -> drawingPaused s = 1 -> resumeDrawing false s = paintOnResumeOrEnable (set_paused 0 s).
Proof. intros He Hp. unfold resumeDrawing. rewrite Hp. simpl. by rewrite He. Qed.

(** A section removed while drawing is paused stays on the canvas: sections are placed
    again when drawing resumes, but nothing is drawn. *)
Theorem removed_section_stays s n s1 s2 :
  drawingEnabled s = true -> drawingPaused s = 1 -> dirty s = NotDirty -> (forall i s, onRemove cb i s = s) ->
  (forall i s, onResize cb i s = s) -> (forall i s, completePendingScroll cb i s = s) ->
  removeSection n s = Some (s1, true) -> resumeDrawing false s1 = Some s2 -> log s2 = log s.
Proof.
  intros He Hp Hd Hr Hz Hc. unfold removeSection. destruct (list_find _ _) as [[k i]|]; [|done].
  rewrite Hr. set (s0 := set_layout _ s).
  assert (Ha : drawingAllowed s0 = false) by (unfold drawingAllowed; simpl; by rewrite He, Hp).
  rewrite Ha. intros [= <-]. rewrite resume_last by done. unfold paintOnResumeOrEnable.
  change (sectionsDirty (set_paused 0 (set_sectionsDirty true s0))) with true. cbv iota.
  unfold reNewAllSections. destruct (locateSections _) as [c|]; simpl; [|done].
  assert (Hl : forall fuel j s, resize_loop fuel j s = s).
  { intros fuel. induction fuel as [|fuel IH]; intros j s'; [done|]. simpl.
    destruct (sections (layout s') !! j); [|done]. by rewrite Hz. }
  rewrite Hl. simpl. destruct (getSectionWithName "scroll" _); simpl; rewrite ?Hc; simpl; rewrite Hd; by intros [= <-].
Qed.
End drawing.

(** ** A sheet *)

Definition idle : callbacks :=
  MkCallbacks (fun _ s => s) (fun _ s => s) (fun _ s => s) (fun _ _ _ s => s) (fun _ s => s).

Lemma idle_keeps : callbacks_keep idle.
Proof. unfold callbacks_keep, keeps. simpl. split_and!; intros; split_and!; done. Qed.

(** A new container of 800 by 600 pixels whose document anchor will be the tiles. *)
Definition empty_canvas : container :=
  MkContainer (fun _ => no_section) [] [] (0, 0) (751, 580) (800, 600) 800 600 1 (Some "tiles") None.

Definition add_section (s : option drawing) (p : nat * section) : option drawing :=
  s ← s; fst <$> addSection (R := whole_pixels) idle p.1 p.2 s.

(** The sections of a sheet are added while drawing is disabled, as for every sheet; then
    drawing is enabled. *)
Definition sheet_added : option drawing :=
  s ← foldl add_section (Some (new_container empty_canvas false false true)) (zip (seq 0 8) sheet_sections);
  enableDrawing (R := whole_pixels) idle s.

Definition names_in_bounds_list (n : string) (c : container) : option (list string) :=
  i ← getSectionWithName n c; Some ((fun k => name (heap c k)) <$> boundsList (heap c i)).

(** The bounds lists are made before the sections are placed, and sections without a place
    are left out: although everything was placed and drawn, the overlay does not pass
    events on to the tiles it is bound to until the lists are made again. *)
Theorem bounds_lists_made_too_early :
  exists s, sheet_added = Some s /\ sectionsDirty s = false /\
    names_in_bounds_list "overlay" (layout s) = Some ["overlay"] /\
    names_in_bounds_list "overlay" (updateBoundSectionLists (layout s)) = Some ["calc grid"; "tiles"; "overlay"].
Proof.
  destruct sheet_added as [s|] eqn:E.
  - exists s. assert (Es : s = default (new_container empty_canvas false false true) sheet_added) by (by rewrite E).
    rewrite Es. split; [done|]. split_and!; vm_compute; reflexivity.
  - exfalso. assert (is_Some sheet_added) as [? ?] by (vm_compute; eauto). congruence.
Qed.

(** Two tiles arrive in a batch of messages. *)
Abbreviation batch c :=
  (resumeDrawing (R := whole_pixels) idle true
    (tile_arrives "b" (tile_arrives "a" (pauseDrawing (new_container c true false false))))).

Lemma tile_arrives_allowed t s : drawingAllowed (tile_arrives t s) = drawingAllowed s.
Proof. unfold tile_arrives, setDirty. simpl. by destruct (dirty s), (splitPanes s). Qed.

Lemma batch_steps k s0 s1 s :
  step (R := whole_pixels) idle (k, s0) (k, s1) -> drawingAllowed s1 = false ->
  resumeDrawing (R := whole_pixels) idle true (tile_arrives "b" (tile_arrives "a" s1)) = Some s ->
  rtc (step (R := whole_pixels) idle) (k, s0) (k, s).
Proof.
  intros H1 Ha E. eapply rtc_l; [exact H1|]. eapply rtc_l; [exact (step_tile idle k s1 "a" Ha)|].
  assert (Hb : drawingAllowed (tile_arrives "a" s1) = false) by (by rewrite tile_arrives_allowed).
  eapply rtc_l; [exact (step_tile idle k _ "b" Hb)|]. apply rtc_once. exact (step_resume idle k _ true s E).
Qed.

Lemma batch_reachable c s : batch c = Some s -> reachable (R := whole_pixels) idle (0%nat, s).
Proof.
  intros E. exists c, true, false, false. apply (batch_steps _ _ (pauseDrawing (new_container c true false false)) _).
  - exact (step_pause idle 0%nat (new_container c true false false)).
  - reflexivity.
  - exact E.
Qed.

Lemma redraws_not_lost_witness :
  exists s, batch laid_out = Some s /\ outstanding 0 s = Some [] /\
    log s = [Asked (Some ["a"]); Asked (Some ["b"]); Asked (Some ["a"; "b"]);
             Drew None None (Some ["a"; "b"]) true [4; 3; 5; 0; 1; 2; 6]%nat].
Proof.
  assert (E : is_Some (batch laid_out)) by (vm_compute; eauto). destruct E as [s E]. exists s. split; [done|].
  assert (Es : s = default (new_container laid_out true false false) (batch laid_out)) by (by rewrite E).
  split; [|rewrite Es; vm_compute; reflexivity].
  apply (redraws_not_lost (R := whole_pixels) idle idle_keeps 0 s); [by eapply batch_reachable|..];
    rewrite Es; vm_compute; reflexivity.
Defined.

(** A fade of a tenth of a second. *)
Abbreviation fading c := (startAnimating idle "scroll" (Some 100) 1000 (new_container c true false false)).

Lemma animation_ends_witness :
  exists s1, fading laid_out = Some (s1, true) /\
    animatingSectionName (frames_at idle [1016; 1033; 1090] s1) = Some "scroll" /\
    animatingSectionName (frames_at idle [1016; 1033; 1090; 1107] s1) = None /\
    frames (frames_at idle [1016; 1033; 1090; 1107] s1) = 0%nat.
Proof.
  assert (E : is_Some (fading laid_out)) by (vm_compute; eauto). destruct E as [[s1 b] E].
  assert (b = true) as ->.
  { change b with (snd (s1, b)). assert ((s1, b) = default (s1, b) (fading laid_out)) as -> by (by rewrite E).
    vm_compute. reflexivity. }
  exists s1. split; [done|].
  destruct (animation_ends idle "scroll" 100 1000 (new_container laid_out true false false) s1
    [1016; 1033; 1090] 1107) as (H1 & _ & H2 & H3); [done|exact E|done|done|done| | |done|by split_and!].
  - repeat constructor; done.
  - repeat constructor; done.
Defined.
