(* ===== verification/SectionEvents.v ===== *)
(** * Events of the sections

    src/browser/src/layer/tile/CanvasSectionContainer.ts: what the mouse and touches do -
    which section is the target, to which sections an event is passed on, dragging, clicks,
    long presses, and touches with several fingers.

    The functions of the sections are a parameter: one function of the call and the state.
    Every call is logged.  [None] is an error that was raised. *)

From stdpp Require Import functions.
From S2P Require Import Prelude Sorts SectionLayout SectionDrawing.
Local Open Scope Z_scope.

(** ** Calls and events *)

Inductive kind :=
  | Click | DoubleClick | MouseLeave | MouseEnter | MouseMove | LongPress | MouseDown | MouseUp | ContextMenu
  | MouseWheel | MultiTouchStart | MultiTouchMove | MultiTouchEnd | CursorPositionChanged | CellAddressChanged.

#[global] Instance kind_eq_dec : EqDecision kind.
Proof. solve_decision. Defined.

(** A call of a function of section [who]: the point, in its coordinates, and the drag
    distance or the delta of the wheel, where there is one; a distance between two
    fingers is in the first component. *)
Record call := Call { what : kind; who : nat; point : option (Z * Z); extra : option (Z * Z) }.

(** What the handlers read of a native event. *)
Record native := Native {
  touches : list (Z * Z);
  changedTouches : list (Z * Z);
  client : Z * Z;
  button : Z
}.

Definition is_button (e : native) (b : Z) : bool := button e =? b.

Record state := MkState {
  painter : drawing;  (* sections, places and drawing *)
  canvasRect : Z * Z;  (* left and top of the canvas element *)
  dpiScale : Z * Z;  (* a fraction *)
  positionOnMouseDown : option (Z * Z);
  positionOnMouseUp : option (Z * Z);
  positionOnClick : option (Z * Z);
  positionOnDoubleClick : option (Z * Z);
  mousePosition : option (Z * Z);
  dragDistance : option (Z * Z);
  touchCenter : option (Z * Z);
  draggingSomething : bool;
  sectionOnMouseDown : option string;
  sectionUnderMouse : option string;
  multiTouch : bool;
  longPressTimer : bool;  (* is the variable set? *)
  longPressPending : option native;  (* will it fire, with which event? *)
  touchEventInProgress : bool;
  lowestPropagatedBoundSection : option string;
  targetSection : option string;
  mouseIsInside : bool;
  calls : list call
}.

Definition set_painter (d : drawing) (s : state) : state :=
  MkState d (canvasRect s) (dpiScale s) (positionOnMouseDown s) (positionOnMouseUp s)
    (positionOnClick s) (positionOnDoubleClick s) (mousePosition s) (dragDistance s)
    (touchCenter s) (draggingSomething s) (sectionOnMouseDown s) (sectionUnderMouse s)
    (multiTouch s) (longPressTimer s) (longPressPending s) (touchEventInProgress s)
    (lowestPropagatedBoundSection s) (targetSection s) (mouseIsInside s) (calls s).
Definition set_positionOnMouseDown (p : option (Z * Z)) (s : state) : state :=
  MkState (painter s) (canvasRect s) (dpiScale s) p (positionOnMouseUp s) (positionOnClick
    s) (positionOnDoubleClick s) (mousePosition s) (dragDistance s) (touchCenter s)
    (draggingSomething s) (sectionOnMouseDown s) (sectionUnderMouse s) (multiTouch s)
    (longPressTimer s) (longPressPending s) (touchEventInProgress s)
    (lowestPropagatedBoundSection s) (targetSection s) (mouseIsInside s) (calls s).
Definition set_positionOnMouseUp (p : option (Z * Z)) (s : state) : state :=
  MkState (painter s) (canvasRect s) (dpiScale s) (positionOnMouseDown s) p
    (positionOnClick s) (positionOnDoubleClick s) (mousePosition s) (dragDistance s)
    (touchCenter s) (draggingSomething s) (sectionOnMouseDown s) (sectionUnderMouse s)
    (multiTouch s) (longPressTimer s) (longPressPending s) (touchEventInProgress s)
    (lowestPropagatedBoundSection s) (targetSection s) (mouseIsInside s) (calls s).
Definition set_positionOnClick (p : option (Z * Z)) (s : state) : state :=
  MkState (painter s) (canvasRect s) (dpiScale s) (positionOnMouseDown s)
    (positionOnMouseUp s) p (positionOnDoubleClick s) (mousePosition s) (dragDistance s)
    (touchCenter s) (draggingSomething s) (sectionOnMouseDown s) (sectionUnderMouse s)
    (multiTouch s) (longPressTimer s) (longPressPending s) (touchEventInProgress s)
    (lowestPropagatedBoundSection s) (targetSection s) (mouseIsInside s) (calls s).
Definition set_positionOnDoubleClick (p : option (Z * Z)) (s : state) : state :=
  MkState (painter s) (canvasRect s) (dpiScale s) (positionOnMouseDown s)
    (positionOnMouseUp s) (positionOnClick s) p (mousePosition s) (dragDistance s)
    (touchCenter s) (draggingSomething s) (sectionOnMouseDown s) (sectionUnderMouse s)
    (multiTouch s) (longPressTimer s) (longPressPending s) (touchEventInProgress s)
    (lowestPropagatedBoundSection s) (targetSection s) (mouseIsInside s) (calls s).
Definition set_mousePosition (p : option (Z * Z)) (s : state) : state :=
  MkState (painter s) (canvasRect s) (dpiScale s) (positionOnMouseDown s)
    (positionOnMouseUp s) (positionOnClick s) (positionOnDoubleClick s) p (dragDistance s)
    (touchCenter s) (draggingSomething s) (sectionOnMouseDown s) (sectionUnderMouse s)
    (multiTouch s) (longPressTimer s) (longPressPending s) (touchEventInProgress s)
    (lowestPropagatedBoundSection s) (targetSection s) (mouseIsInside s) (calls s).
Definition set_dragDistance (p : option (Z * Z)) (s : state) : state :=
  MkState (painter s) (canvasRect s) (dpiScale s) (positionOnMouseDown s)
    (positionOnMouseUp s) (positionOnClick s) (positionOnDoubleClick s) (mousePosition s) p
    (touchCenter s) (draggingSomething s) (sectionOnMouseDown s) (sectionUnderMouse s)
    (multiTouch s) (longPressTimer s) (longPressPending s) (touchEventInProgress s)
    (lowestPropagatedBoundSection s) (targetSection s) (mouseIsInside s) (calls s).
Definition set_touchCenter (p : option (Z * Z)) (s : state) : state :=
  MkState (painter s) (canvasRect s) (dpiScale s) (positionOnMouseDown s)
    (positionOnMouseUp s) (positionOnClick s) (positionOnDoubleClick s) (mousePosition s)
    (dragDistance s) p (draggingSomething s) (sectionOnMouseDown s) (sectionUnderMouse s)
    (multiTouch s) (longPressTimer s) (longPressPending s) (touchEventInProgress s)
    (lowestPropagatedBoundSection s) (targetSection s) (mouseIsInside s) (calls s).
Definition set_dragging (b : bool) (s : state) : state :=
  MkState (painter s) (canvasRect s) (dpiScale s) (positionOnMouseDown s)
    (positionOnMouseUp s) (positionOnClick s) (positionOnDoubleClick s) (mousePosition s)
    (dragDistance s) (touchCenter s) b (sectionOnMouseDown s) (sectionUnderMouse s)
    (multiTouch s) (longPressTimer s) (longPressPending s) (touchEventInProgress s)
    (lowestPropagatedBoundSection s) (targetSection s) (mouseIsInside s) (calls s).
Definition set_sectionOnMouseDown (n : option string) (s : state) : state :=
  MkState (painter s) (canvasRect s) (dpiScale s) (positionOnMouseDown s)
    (positionOnMouseUp s) (positionOnClick s) (positionOnDoubleClick s) (mousePosition s)
    (dragDistance s) (touchCenter s) (draggingSomething s) n (sectionUnderMouse s)
    (multiTouch s) (longPressTimer s) (longPressPending s) (touchEventInProgress s)
    (lowestPropagatedBoundSection s) (targetSection s) (mouseIsInside s) (calls s).
Definition set_sectionUnderMouse (n : option string) (s : state) : state :=
  MkState (painter s) (canvasRect s) (dpiScale s) (positionOnMouseDown s)
    (positionOnMouseUp s) (positionOnClick s) (positionOnDoubleClick s) (mousePosition s)
    (dragDistance s) (touchCenter s) (draggingSomething s) (sectionOnMouseDown s) n
    (multiTouch s) (longPressTimer s) (longPressPending s) (touchEventInProgress s)
    (lowestPropagatedBoundSection s) (targetSection s) (mouseIsInside s) (calls s).
Definition set_multiTouch (b : bool) (s : state) : state :=
  MkState (painter s) (canvasRect s) (dpiScale s) (positionOnMouseDown s)
    (positionOnMouseUp s) (positionOnClick s) (positionOnDoubleClick s) (mousePosition s)
    (dragDistance s) (touchCenter s) (draggingSomething s) (sectionOnMouseDown s)
    (sectionUnderMouse s) b (longPressTimer s) (longPressPending s) (touchEventInProgress s)
    (lowestPropagatedBoundSection s) (targetSection s) (mouseIsInside s) (calls s).
Definition set_longPress (b : bool) (e : option native) (s : state) : state :=
  MkState (painter s) (canvasRect s) (dpiScale s) (positionOnMouseDown s)
    (positionOnMouseUp s) (positionOnClick s) (positionOnDoubleClick s) (mousePosition s)
    (dragDistance s) (touchCenter s) (draggingSomething s) (sectionOnMouseDown s)
    (sectionUnderMouse s) (multiTouch s) b e (touchEventInProgress s)
    (lowestPropagatedBoundSection s) (targetSection s) (mouseIsInside s) (calls s).
Definition set_touchEventInProgress (b : bool) (s : state) : state :=
  MkState (painter s) (canvasRect s) (dpiScale s) (positionOnMouseDown s)
    (positionOnMouseUp s) (positionOnClick s) (positionOnDoubleClick s) (mousePosition s)
    (dragDistance s) (touchCenter s) (draggingSomething s) (sectionOnMouseDown s)
    (sectionUnderMouse s) (multiTouch s) (longPressTimer s) (longPressPending s) b
    (lowestPropagatedBoundSection s) (targetSection s) (mouseIsInside s) (calls s).
Definition set_lowest (n : option string) (s : state) : state :=
  MkState (painter s) (canvasRect s) (dpiScale s) (positionOnMouseDown s)
    (positionOnMouseUp s) (positionOnClick s) (positionOnDoubleClick s) (mousePosition s)
    (dragDistance s) (touchCenter s) (draggingSomething s) (sectionOnMouseDown s)
    (sectionUnderMouse s) (multiTouch s) (longPressTimer s) (longPressPending s)
    (touchEventInProgress s) n (targetSection s) (mouseIsInside s) (calls s).
Definition set_target (n : option string) (s : state) : state :=
  MkState (painter s) (canvasRect s) (dpiScale s) (positionOnMouseDown s)
    (positionOnMouseUp s) (positionOnClick s) (positionOnDoubleClick s) (mousePosition s)
    (dragDistance s) (touchCenter s) (draggingSomething s) (sectionOnMouseDown s)
    (sectionUnderMouse s) (multiTouch s) (longPressTimer s) (longPressPending s)
    (touchEventInProgress s) (lowestPropagatedBoundSection s) n (mouseIsInside s) (calls s).
Definition set_mouseIsInside (b : bool) (s : state) : state :=
  MkState (painter s) (canvasRect s) (dpiScale s) (positionOnMouseDown s)
    (positionOnMouseUp s) (positionOnClick s) (positionOnDoubleClick s) (mousePosition s)
    (dragDistance s) (touchCenter s) (draggingSomething s) (sectionOnMouseDown s)
    (sectionUnderMouse s) (multiTouch s) (longPressTimer s) (longPressPending s)
    (touchEventInProgress s) (lowestPropagatedBoundSection s) (targetSection s) b (calls s).
Definition log_call (c : call) (s : state) : state :=
  MkState (painter s) (canvasRect s) (dpiScale s) (positionOnMouseDown s)
    (positionOnMouseUp s) (positionOnClick s) (positionOnDoubleClick s) (mousePosition s)
    (dragDistance s) (touchCenter s) (draggingSomething s) (sectionOnMouseDown s)
    (sectionUnderMouse s) (multiTouch s) (longPressTimer s) (longPressPending s)
    (touchEventInProgress s) (lowestPropagatedBoundSection s) (targetSection s)
    (mouseIsInside s) (calls s ++ [c]).

(** [clearMousePositions] *)
Definition clearMousePositions (s : state) : state :=
  MkState (painter s) (canvasRect s) (dpiScale s) None None None None (mousePosition s)
    None None false None (sectionUnderMouse s) (multiTouch s) (longPressTimer s)
    (longPressPending s) false None None (mouseIsInside s) (calls s).

Definition arrange (s : state) : container := layout (painter s).
Definition section_at (s : state) (i : nat) : section := heap (arrange s) i.
Definition named (n : option string) (s : state) : option nat := n ≫= fun n => getSectionWithName n (arrange s).

Section events.
Context `{R : Resolution}.
Context (handle : call -> state -> state).

(** ** Coordinates *)

Definition scaled (x : Z) (s : state) : Z :=
  js_round_div (x * (dpiScale s).1) ((dpiScale s).2 * per_pixel) * per_pixel.

Definition convertPointToCanvasLocale (p : Z * Z) (s : state) : Z * Z :=
  (scaled (p.1 - (canvasRect s).1) s, scaled (p.2 - (canvasRect s).2) s).

Definition convertPositionToCanvasLocale (e : native) (s : state) : Z * Z :=
  match touches e, changedTouches e with
  | p :: _, _ => convertPointToCanvasLocale p s
  | [], p :: _ => convertPointToCanvasLocale p s
  | [], [] => convertPointToCanvasLocale (client e) s
  end.

Definition convertPositionToSectionLocale (i : nat) (p : Z * Z) (s : state) : option (Z * Z) :=
  tl ← myTopLeft (section_at s i); Some (p.1 - tl.1, p.2 - tl.2).

(** ** Propagation *)

(** The function of one section, if it takes part. *)
Definition deliver (k : kind) (i : nat) (p x : option (Z * Z)) (s : state) : state :=
  if interactable (section_at s i) then handle (Call k i p x) (log_call (Call k i p x) s) else s.

Definition stopped_at (i : nat) (s : state) : bool :=
  bool_decide (lowestPropagatedBoundSection s = Some (name (section_at s i))).

(** The window sections, from number [j] on: all are told; does the event go on?  The fuel
    is the number of window sections, which does not grow meanwhile. *)
Fixpoint window_loop (fuel : nat) (k : kind) (p x : option (Z * Z)) (j : nat) (go : bool) (s : state)
    : state * bool :=
  match fuel with
  | O => (s, go)
  | S fuel' =>
      match windowSectionList (arrange s) !! j with
      | None => (s, go)
      | Some i =>
          let s := deliver k i p x s in
          window_loop fuel' k p x (S j) (if stopped_at i s then false else go) s
      end
  end.

Definition tell_windows (k : kind) (p x : option (Z * Z)) (s : state) : state * bool :=
  window_loop (length (windowSectionList (arrange s))) k p x 0 true s.

(** The bounds list of section [i], from the top down. *)
Fixpoint bounds_loop (n : nat) (k : kind) (i : nat) (p x : option (Z * Z)) (s : state) : option state :=
  match n with
  | O => Some s
  | S m =>
      b ← boundsList (section_at s i) !! m;
      let s := deliver k b p x s in
      if stopped_at b s then Some s else bounds_loop m k i p x s
  end.

Definition tell_bounds (k : kind) (i : nat) (p x : option (Z * Z)) (s : state) : option state :=
  bounds_loop (length (boundsList (section_at s i))) k i p x s.

Definition begin_event (i : nat) (s : state) : state := set_target (Some (name (section_at s i))) s.

(** The point on the canvas, which the window sections are told. *)
Definition window_position (i : nat) (p : option (Z * Z)) (s : state) : option (option (Z * Z)) :=
  match p with
  | None => Some None
  | Some p => tl ← myTopLeft (section_at s i); Some (Some (p.1 + tl.1, p.2 + tl.2))
  end.

Definition propagate (k : kind) (i : nat) (p x : option (Z * Z)) (s : state) : option state :=
  let s := begin_event i s in
  wp ← window_position i p s;
  let '(s, go) := tell_windows k wp x s in
  if go then tell_bounds k i p x s else Some s.

Definition propagateOnClick (i : nat) (p : option (Z * Z)) := propagate Click i p None.
Definition propagateOnDoubleClick (i : nat) (p : option (Z * Z)) := propagate DoubleClick i p None.
Definition propagateOnMouseMove (i : nat) (p drag : option (Z * Z)) := propagate MouseMove i p drag.
Definition propagateOnLongPress (i : nat) (p : option (Z * Z)) := propagate LongPress i p None.
Definition propagateOnMouseDown (i : nat) (p : option (Z * Z)) := propagate MouseDown i p None.
Definition propagateOnMouseUp (i : nat) (p : option (Z * Z)) := propagate MouseUp i p None.
Definition propagateOnMouseWheel (i : nat) (p delta : option (Z * Z)) := propagate MouseWheel i p delta.
Definition propagateOnMultiTouchMove (i : nat) (p distance : option (Z * Z)) := propagate MultiTouchMove i p distance.
Definition propagateOnContextMenu (i : nat) := propagate ContextMenu i None None.
Definition propagateOnMultiTouchStart (i : nat) := propagate MultiTouchStart i None None.
Definition propagateOnMultiTouchEnd (i : nat) := propagate MultiTouchEnd i None None.

(** Window sections are left only with the canvas, and cannot stop this event. *)
Definition propagateOnMouseLeave (i : nat) (p : option (Z * Z)) (s : state) : option state :=
  let s := begin_event i s in
  wp ← window_position i p s;
  let s := match wp with None => (tell_windows MouseLeave wp None s).1 | Some _ => s end in
  tell_bounds MouseLeave i p None s.

Definition propagateOnMouseEnter (i : nat) (p : option (Z * Z)) (s : state) : option state :=
  tell_bounds MouseEnter i p None (begin_event i s).

(** Events from the server go to all sections, from the last one to the first. *)
Fixpoint sections_loop (n : nat) (k : kind) (s : state) : option state :=
  match n with
  | O => Some s
  | S m => i ← sections (arrange s) !! m; sections_loop m k (deliver k i None None s)
  end.

Definition tell_all (k : kind) (s : state) : option state :=
  let '(s, go) := tell_windows k None None s in
  if go then sections_loop (length (sections (arrange s))) k s else Some s.

Definition onCursorPositionChanged (text_document : bool) (s : state) : option state :=
  if text_document then tell_all CursorPositionChanged s else Some s.

Definition onCellAddressChanged (spreadsheet : bool) (s : state) : option state :=
  if spreadsheet then tell_all CellAddressChanged s else Some s.

(** ** The mouse *)

Definition find (p : Z * Z) (s : state) : option nat := findSectionContainingPoint (arrange s) p.

(** [propagateOnX (section, this.convertPositionToSectionLocale (section, p), ...)] *)
Definition at_local (f : nat -> option (Z * Z) -> state -> option state) (i : nat) (p : Z * Z) (s : state)
    : option state :=
  q ← convertPositionToSectionLocale i p s; f i (Some q) s.

Definition draw (s : state) : state := set_painter (draw_all (painter s)) s.

Definition sub2 (a b : Z * Z) : Z * Z := (a.1 - b.1, a.2 - b.2).

Definition same_section (a b : option nat) : bool :=
  match a, b with Some i, Some j => (i =? j)%nat | _, _ => false end.

(** A click is passed on if the button was pressed and released over one section. *)
Definition pass_click (e : native) (s : state) : option state :=
  match positionOnMouseDown s, positionOnMouseUp s with
  | Some down, Some up =>
      let p := convertPositionToCanvasLocale e s in
      let s := set_positionOnClick (Some p) s in
      if same_section (find down s) (find up s) then
        match find p s with
        | Some i => at_local propagateOnClick i p s
        | None => Some s
        end
      else Some s
  | _, _ => Some s
  end.

Definition onClick (e : native) (s : state) : option state :=
  if negb (draggingSomething s) then s ← pass_click e s; Some (draw (clearMousePositions s))
  else Some (clearMousePositions s).

Definition onDoubleClick (e : native) (s : state) : option state :=
  let p := convertPositionToCanvasLocale e s in
  let s := set_positionOnDoubleClick (Some p) s in
  s ← (match find p s with Some i => at_local propagateOnDoubleClick i p s | None => Some s end);
  Some (draw (clearMousePositions s)).

Definition isLongPressActive (s : state) : bool := longPressTimer s.

Definition stopLongPress (s : state) : state := if longPressTimer s then set_longPress false None s else s.

Definition startLongPress (e : native) (s : state) : state := set_longPress true (Some e) (stopLongPress s).

Definition draggingTolerance : Z := 5 * per_pixel.

(** Does dragging begin? *)
Definition check_drag (p : Z * Z) (s : state) : state :=
  match positionOnMouseDown s with
  | Some down =>
      if negb (draggingSomething s) then
        let d := sub2 p down in
        if (draggingTolerance <=? Z.abs d.1) || (draggingTolerance <=? Z.abs d.2)
        then set_dragging true s else s
      else s
  | None => s
  end.

Definition leave_previous (p : Z * Z) (s : state) : option state :=
  match named (sectionUnderMouse s) s with
  | Some prev => at_local propagateOnMouseLeave prev p s
  | None => Some s
  end.

(** The section the mouse is over or that is dragged is told that the mouse entered, if it
    was elsewhere, and that it moved.  The code also tests [section.boundsList]: it is an array,
    and so true, whenever an event is handled, since [updateBoundSectionLists] sets it to null
    only to assign it again in the next statement. *)
Definition move_over (i : nat) (p : Z * Z) (s : state) : option state :=
  s ← (if bool_decide (sectionUnderMouse s = Some (name (section_at s i))) then Some s
       else
         s ← leave_previous p s;
         at_local propagateOnMouseEnter i p (set_sectionUnderMouse (Some (name (section_at s i))) s));
  at_local (fun i q s => propagateOnMouseMove i q (dragDistance s) s) i p s.

Definition onMouseMove (e : native) (s : state) : option state :=
  if negb (mouseIsInside s) && negb (draggingSomething s) then Some s
  else if negb (isLongPressActive s) then
    if touchEventInProgress s then Some s
    else
      let p := convertPositionToCanvasLocale e s in
      let s := check_drag p (set_mousePosition (Some p) s) in
      '(s, target) ← (if draggingSomething s then
                        down ← positionOnMouseDown s;
                        let s := set_dragDistance (Some (sub2 p down)) s in
                        Some (s, named (sectionOnMouseDown s) s)
                      else Some (s, find p s));
      match target with
      | Some i => move_over i p s
      | None =>
          match sectionUnderMouse s with
          | Some _ => s ← leave_previous p s; Some (set_sectionUnderMouse None s)
          | None => Some s
          end
      end
  else
    let p := convertPositionToCanvasLocale e s in
    let s := set_mousePosition (Some p) s in
    match find p s with
    | Some i => propagateOnContextMenu i (stopLongPress s)
    | None => Some s
    end.

(** The timer of a long press: half a second after the touch, at the first finger. *)
Definition longPressFires (s : state) : option state :=
  match longPressPending s with
  | None => Some s
  | Some e =>
      let s := set_longPress (longPressTimer s) None s in
      p ← head (touches e);
      onMouseMove (Native (touches e) (changedTouches e) p (button e)) s
  end.

(** The part of pressing that mouse and touches share. *)
Definition press (p : Z * Z) (s : state) : option state :=
  let s := set_positionOnMouseDown (Some p) s in
  match find p s with
  | Some i => at_local propagateOnMouseDown i p (set_sectionOnMouseDown (Some (name (section_at s i))) s)
  | None => Some s
  end.

Definition onMouseDown (e : native) (s : state) : option state :=
  if is_button e 0 && negb (touchEventInProgress s) then
    let s := clearMousePositions s in press (convertPositionToCanvasLocale e s) s
  else Some s.

(** Where the release goes: to the section that is dragged, or the one below it. *)
Definition release (p : Z * Z) (s : state) : option state :=
  let s := set_positionOnMouseUp (Some p) s in
  match (if negb (draggingSomething s) then find p s else named (sectionOnMouseDown s) s) with
  | Some i => at_local propagateOnMouseUp i p s
  | None => Some s
  end.

Definition onMouseUp (e : native) (s : state) : option state :=
  match positionOnMouseDown s with
  | None => Some (clearMousePositions s)
  | Some _ =>
      s ← (if is_button e 0 && negb (touchEventInProgress s)
           then release (convertPositionToCanvasLocale e s) s else Some s);
      Some (if mouseIsInside s then s else clearMousePositions s)
  end.

(** The second component: is the menu of the browser prevented? *)
Definition onContextMenu (e : native) (s : state) : option (state * bool) :=
  let p := convertPositionToCanvasLocale e s in
  s ← (match find p s with Some i => propagateOnContextMenu i s | None => Some s end);
  Some (s, isLongPressActive s).

Definition onMouseWheel (e : native) (lines : bool) (delta : Z * Z) (scrollLineHeight : Z) (s : state)
    : option state :=
  let p := convertPositionToCanvasLocale e s in
  let d := if lines then (delta.1 * scrollLineHeight, delta.2 * scrollLineHeight) else delta in
  match find p s with
  | Some i => at_local (fun i q => propagateOnMouseWheel i q (Some d)) i p s
  | None => Some s
  end.

Definition onMouseLeave (s : state) : option state :=
  s ← (if draggingSomething s then Some s
       else
         s ← (match sectionUnderMouse s with
              | Some _ =>
                  s ← (match named (sectionUnderMouse s) s with
                       | Some i => propagateOnMouseLeave i None s
                       | None => Some s
                       end);
                  Some (set_sectionUnderMouse None s)
              | None => Some s
              end);
         Some (set_mousePosition None (clearMousePositions s)));
  Some (set_mouseIsInside false s).

(** All window sections are told, without a point; nothing can stop it. *)
Fixpoint enter_loop (fuel j : nat) (s : state) : state :=
  match fuel with
  | O => s
  | S fuel' =>
      match windowSectionList (arrange s) !! j with
      | Some i => enter_loop fuel' (S j) (deliver MouseEnter i None None s)
      | None => s
      end
  end.

Definition onMouseEnter (s : state) : state :=
  let s := set_mouseIsInside true s in enter_loop (length (windowSectionList (arrange s))) 0 s.

(** ** Touches *)

Definition onTouchStart (e : native) (s : state) : option state :=
  if (length (touches e) =? 1)%nat then
    let s := startLongPress e (clearMousePositions s) in
    press (convertPositionToCanvasLocale e s) s
  else if negb (multiTouch s) then
    let s := set_multiTouch true (stopLongPress s) in
    match named (sectionOnMouseDown s) s with
    | Some i => propagateOnMultiTouchStart i s
    | None => Some s
    end
  else Some s.

(** Twice the middle between two points, and the square of their distance: the code halves
    the one and takes the root of the other. *)
Definition middle (a b : Z * Z) (s : state) : Z * Z :=
  let at2 x := js_round_div (x * (dpiScale s).1) (2 * (dpiScale s).2 * per_pixel) * per_pixel in
  (at2 (a.1 + b.1 - 2 * (canvasRect s).1), at2 (a.2 + b.2 - 2 * (canvasRect s).2)).

Definition squared_distance (a b : Z * Z) : Z := (a.1 - b.1) ^ 2 + (a.2 - b.2) ^ 2.

Definition onTouchMove (e : native) (s : state) : option state :=
  match positionOnMouseDown s with
  | None => Some s
  | Some down =>
      let s := stopLongPress s in
      if negb (multiTouch s) then
        let p := convertPositionToCanvasLocale e s in
        let d := sub2 p down in
        let s := set_dragDistance (Some d) (set_dragging true (set_mousePosition (Some p) s)) in
        match named (sectionOnMouseDown s) s with
        | Some i => at_local (fun i q => propagateOnMouseMove i q (Some d)) i p s
        | None => Some s
        end
      else
        match touches e, named (sectionOnMouseDown s) s with
        | [a; b], Some i =>
            let s := match touchCenter s with
                     | None => set_touchCenter (Some (middle a b s)) s
                     | Some _ => s
                     end in
            c ← touchCenter s;
            at_local (fun i q => propagateOnMultiTouchMove i q (Some (squared_distance a b, 0))) i c s
        | _, _ => Some s
        end
  end.

Definition onTouchEnd (e : native) (s : state) : option state :=
  let s := stopLongPress s in
  s ← (if negb (multiTouch s) then release (convertPositionToCanvasLocale e s) s
       else if (length (touches e) =? 0)%nat then
         let s := set_multiTouch false s in
         match named (sectionOnMouseDown s) s with
         | Some i => propagateOnMultiTouchEnd i s
         | None => Some s
         end
       else Some s);
  Some (set_touchEventInProgress true s).

Definition onTouchCancel (s : state) : state := stopLongPress (clearMousePositions s).

(** [onResize], for a new size of the canvas in pixels. *)
Definition onResize (cb : callbacks) (w h dpi : Z) (s : state) : option state :=
  let s := clearMousePositions s in
  d ← onResizeCanvas cb w h dpi (painter s); Some (set_painter d s).

(** ** Everything that can happen

    [IRelayout] is any change of the sections: they are placed again, added, removed. *)
Inductive input :=
  | IClick (e : native) | IDoubleClick (e : native) | IMouseMove (e : native) | IMouseDown (e : native)
  | IMouseUp (e : native) | IContextMenu (e : native) | IMouseWheel (e : native) (lines : bool) (delta : Z * Z) (h : Z)
  | IMouseLeave | IMouseEnter | ITouchStart (e : native) | ITouchMove (e : native) | ITouchEnd (e : native)
  | ITouchCancel | ILongPress | ICursorPosition (text_document : bool) | ICellAddress (spreadsheet : bool)
  | IRelayout (d : drawing).

Definition react (i : input) (s : state) : option state :=
  match i with
  | IClick e => onClick e s
  | IDoubleClick e => onDoubleClick e s
  | IMouseMove e => onMouseMove e s
  | IMouseDown e => onMouseDown e s
  | IMouseUp e => onMouseUp e s
  | IContextMenu e => fst <$> onContextMenu e s
  | IMouseWheel e lines delta h => onMouseWheel e lines delta h s
  | IMouseLeave => onMouseLeave s
  | IMouseEnter => Some (onMouseEnter s)
  | ITouchStart e => onTouchStart e s
  | ITouchMove e => onTouchMove e s
  | ITouchEnd e => onTouchEnd e s
  | ITouchCancel => Some (onTouchCancel s)
  | ILongPress => longPressFires s
  | ICursorPosition b => onCursorPositionChanged b s
  | ICellAddress b => onCellAddressChanged b s
  | IRelayout d => Some (set_painter d s)
  end.

Fixpoint run (evs : list input) (s : state) : option state :=
  match evs with
  | [] => Some s
  | i :: evs' => react i s ≫= run evs'
  end.

(** ** What the functions of sections may do

    [stops] tells which calls end in [stopPropagating].  The fields below are private to
    the container. *)
Definition gesture (s : state) :=
  (canvasRect s, dpiScale s, positionOnMouseDown s, positionOnMouseUp s, positionOnClick s,
   positionOnDoubleClick s, mousePosition s, dragDistance s, touchCenter s, draggingSomething s,
   (sectionOnMouseDown s, sectionUnderMouse s, multiTouch s, longPressTimer s, longPressPending s,
    touchEventInProgress s, mouseIsInside s)).

Context (stops : call -> bool).

Definition stopper (c : container) (cl : call) (l : option string) : option string :=
  if stops cl then Some (name (heap c (who cl))) else l.

Definition tame : Prop := forall cl s,
  arrange (handle cl s) = arrange s /\ gesture (handle cl s) = gesture s /\
  targetSection (handle cl s) = targetSection s /\ calls (handle cl s) = calls s /\
  lowestPropagatedBoundSection (handle cl s) = stopper (arrange s) cl (lowestPropagatedBoundSection s).

Context (Htame : tame).

(** ** To whom an event is passed on

    [l] is the section that stopped the propagation last. *)
Definition told (c : container) (cl : call) (l : option string) : list call * option string :=
  if interactable (heap c (who cl)) then ([cl], stopper c cl l) else ([], l).

Definition stopped_by (c : container) (i : nat) (l : option string) : bool :=
  bool_decide (l = Some (name (heap c i))).

Fixpoint told_windows (c : container) (k : kind) (p x : option (Z * Z)) (ws : list nat) (go : bool) (l : option string)
    : list call * option string * bool :=
  match ws with
  | [] => ([], l, go)
  | i :: ws' =>
      let '(cs, l) := told c (Call k i p x) l in
      let '(cs', l, go) := told_windows c k p x ws' (if stopped_by c i l then false else go) l in
      (cs ++ cs', l, go)
  end.

(** From the top down. *)
Fixpoint told_bounds (c : container) (k : kind) (p x : option (Z * Z)) (bs : list nat) (l : option string)
    : list call * option string :=
  match bs with
  | [] => ([], l)
  | b :: bs' =>
      let '(cs, l) := told c (Call k b p x) l in
      if stopped_by c b l then (cs, l)
      else let '(cs', l) := told_bounds c k p x bs' l in (cs ++ cs', l)
  end.

Definition passed (c : container) (k : kind) (i : nat) (p wp x : option (Z * Z)) (l : option string)
    : list call * option string :=
  let '(cs, l, go) := told_windows c k wp x (windowSectionList c) true l in
  if go then let '(cs', l) := told_bounds c k p x (reverse (boundsList (heap c i))) l in (cs ++ cs', l)
  else (cs, l).

(** A step that only tells sections. *)
Definition tells (s s' : state) (r : list call * option string) : Prop :=
  arrange s' = arrange s /\ gesture s' = gesture s /\ targetSection s' = targetSection s /\
  calls s' = calls s ++ r.1 /\ lowestPropagatedBoundSection s' = r.2.

Lemma deliver_told k i p x s :
  tells s (deliver k i p x s) (told (arrange s) (Call k i p x) (lowestPropagatedBoundSection s)).
Proof using Htame.
  unfold deliver, told, section_at. simpl. destruct (interactable (heap (arrange s) i)).
  - destruct (Htame (Call k i p x) (log_call (Call k i p x) s)) as (H1 & H2 & H3 & H4 & H5).
    split_and!; [exact H1|exact H2|exact H3|exact H4|exact H5].
  - split_and!; simpl; rewrite ?app_nil_r; done.
Qed.

Lemma tells_trans s1 s2 s3 cs l r :
  tells s1 s2 (cs, l) -> tells s2 s3 r -> tells s1 s3 (cs ++ r.1, r.2).
Proof.
  intros (A1 & A2 & A3 & A4 & A5) (B1 & B2 & B3 & B4 & B5).
  split_and!; simpl in *; [congruence..| |done]. rewrite B4, A4. by rewrite app_assoc.
Qed.

Lemma stopped_told s s' i cs l :
  tells s s' (cs, l) -> stopped_at i s' = stopped_by (arrange s) i l.
Proof. intros (A1 & _ & _ & _ & A5). unfold stopped_at, stopped_by, section_at. by rewrite A1, A5. Qed.

Lemma window_loop_told ws fuel k p x j go s :
  drop j (windowSectionList (arrange s)) = ws -> fuel = length ws ->
  let '(cs, l, go') := told_windows (arrange s) k p x ws go (lowestPropagatedBoundSection s) in
  exists s', window_loop fuel k p x j go s = (s', go') /\ tells s s' (cs, l).
Proof using Htame.
  revert fuel j go s. induction ws as [|i ws IH]; intros fuel j go s Hd ->; simpl.
  { exists s. split; [done|]. split_and!; simpl; by rewrite ?app_nil_r. }
  assert (Hi : windowSectionList (arrange s) !! j = Some i).
  { rewrite <- (Nat.add_0_r j), <- lookup_drop, Hd. done. }
  assert (Hd' : drop (S j) (windowSectionList (arrange s)) = ws).
  { replace (S j) with (j + 1)%nat by lia. by rewrite <- drop_drop, Hd. }
  rewrite Hi. pose proof (deliver_told k i p x s) as Ht. set (s1 := deliver k i p x s) in *.
  destruct (told (arrange s) (Call k i p x) (lowestPropagatedBoundSection s)) as [cs l] eqn:Et.
  rewrite (stopped_told _ _ i _ _ Ht). pose proof Ht as (A1 & _ & _ & _ & A5). simpl in A5.
  specialize (IH (length ws) (S j) (if stopped_by (arrange s) i l then false else go) s1).
  rewrite A1, A5 in IH. specialize (IH Hd' eq_refl).
  destruct (told_windows (arrange s) k p x ws _ l) as [[cs' l'] go']. destruct IH as (s' & -> & Ht').
  exists s'. split; [done|]. by apply (tells_trans _ _ _ _ _ _ Ht) in Ht'.
Qed.

Lemma bounds_loop_told n k i p x s :
  (n <= length (boundsList (section_at s i)))%nat ->
  exists s', bounds_loop n k i p x s = Some s' /\
    tells s s' (told_bounds (arrange s) k p x (reverse (take n (boundsList (section_at s i))))
                  (lowestPropagatedBoundSection s)).
Proof using Htame.
  revert s. induction n as [|n IH]; intros s Hn; simpl.
  { exists s. split; [done|]. split_and!; simpl; by rewrite ?app_nil_r. }
  destruct (lookup_lt_is_Some_2 (boundsList (section_at s i)) n) as [b Hb]; [lia|]. rewrite Hb. simpl.
  rewrite (take_S_r _ _ _ Hb), reverse_app. simpl.
  pose proof (deliver_told k b p x s) as Ht. set (s1 := deliver k b p x s) in *.
  destruct (told (arrange s) (Call k b p x) (lowestPropagatedBoundSection s)) as [cs l] eqn:Et.
  rewrite (stopped_told _ _ b _ _ Ht). destruct (stopped_by (arrange s) b l); [by exists s1|].
  pose proof Ht as (A1 & _ & _ & _ & A5). simpl in A5.
  destruct (IH s1) as (s' & -> & Ht'); [unfold section_at in *; rewrite A1; lia|]. exists s'. split; [done|].
  unfold section_at in *. rewrite A1, A5 in Ht'.
  destruct (told_bounds _ _ _ _ _ l) as [cs' l']. by apply (tells_trans _ _ _ _ _ _ Ht) in Ht'.
Qed.

(** An event is passed on as [passed] says, and nothing else happens. *)
Definition passes (s s' : state) (i : nat) (r : list call * option string) : Prop :=
  arrange s' = arrange s /\ gesture s' = gesture s /\
  targetSection s' = Some (name (section_at s i)) /\
  calls s' = calls s ++ r.1 /\ lowestPropagatedBoundSection s' = r.2.

Lemma propagate_passes k i p wp x s :
  window_position i p s = Some wp ->
  exists s', propagate k i p x s = Some s' /\
    passes s s' i (passed (arrange s) k i p wp x (lowestPropagatedBoundSection s)).
Proof using Htame.
  intros Hwp. unfold propagate. set (s0 := begin_event i s).
  change (window_position i p s0) with (window_position i p s). rewrite Hwp. simpl.
  unfold tell_windows, passed. change (arrange s) with (arrange s0).
  change (lowestPropagatedBoundSection s) with (lowestPropagatedBoundSection s0).
  pose proof (window_loop_told (windowSectionList (arrange s0)) _ k wp x 0 true s0 eq_refl eq_refl) as Hw.
  destruct (told_windows (arrange s0) k wp x (windowSectionList (arrange s0)) true _) as [[cs l] go].
  destruct Hw as (s1 & Ew & Ht). rewrite Ew. clear Ew. pose proof Ht as (A1 & A2 & A3 & A4 & A5).
  destruct go; [|exists s1; by split_and!].
  unfold tell_bounds. destruct (bounds_loop_told (length (boundsList (section_at s1 i))) k i p x s1) as (s' & -> & Ht'); [done|].
  exists s'. split; [done|]. rewrite firstn_all in Ht'. unfold section_at in *. rewrite A1 in Ht'. simpl in A5.
  rewrite A5 in Ht'. destruct (told_bounds _ _ _ _ _ l) as [cs' l'].
  destruct (tells_trans _ _ _ _ _ _ Ht Ht') as (B1 & B2 & B3 & B4 & B5). by split_and!.
Qed.

(** *** A fresh event *)

Fixpoint until_stop (cs : list call) : list call :=
  match cs with
  | [] => []
  | cl :: cs' => cl :: if stops cl then [] else until_stop cs'
  end.

Lemma told_windows_stopped c k p x ws l :
  exists l', told_windows c k p x ws false l =
    ((fun w => Call k w p x) <$> filter (fun w => interactable (heap c w) = true) ws, l', false).
Proof.
  revert l. induction ws as [|w ws IH]; intros l; simpl; [by exists l|].
  rewrite filter_cons. unfold told. simpl. destruct (interactable (heap c w)); simpl.
  - destruct (IH (stopper c (Call k w p x) l)) as [l' E]. exists l'.
    destruct (stopped_by _ _ _); by rewrite E.
  - destruct (IH l) as [l' E]. exists l'. destruct (stopped_by _ _ _); by rewrite E.
Qed.

Lemma told_windows_clean c k p x ws :
  let cw := (fun w => Call k w p x) <$> filter (fun w => interactable (heap c w) = true) ws in
  exists l', told_windows c k p x ws true None = (cw, l', negb (existsb stops cw)) /\
             (existsb stops cw = false -> l' = None).
Proof.
  induction ws as [|w ws IH]; simpl; [by exists None|].
  rewrite filter_cons. unfold told. simpl. destruct (interactable (heap c w)); simpl.
  - unfold stopper. simpl. destruct (stops (Call k w p x)) eqn:Es; simpl.
    + unfold stopped_by. rewrite bool_decide_true by done.
      destruct (told_windows_stopped c k p x ws (Some (name (heap c w)))) as [l' E]. exists l'. by rewrite E.
    + destruct IH as (l' & E & Hl). exists l'. rewrite E. by split.
  - destruct IH as (l' & E & Hl). exists l'. rewrite E. by split.
Qed.

Lemma told_bounds_clean c k p x bs :
  (told_bounds c k p x bs None).1 =
  until_stop ((fun b => Call k b p x) <$> filter (fun b => interactable (heap c b) = true) bs).
Proof.
  induction bs as [|b bs IH]; [done|]. cbn [told_bounds]. rewrite filter_cons. unfold told. cbn [who].
  destruct (interactable (heap c b)) eqn:Ei; [rewrite decide_True by done|rewrite decide_False by done].
  - rewrite fmap_cons. cbn [until_stop]. rewrite <- IH. unfold stopper. cbn [who].
    destruct (stops (Call k b p x)); unfold stopped_by; [by rewrite bool_decide_true|].
    rewrite bool_decide_false by done. by destruct (told_bounds c k p x bs None).
  - rewrite <- IH. unfold stopped_by. rewrite bool_decide_false by done.
    by destruct (told_bounds c k p x bs None).
Qed.

(** C19: An event for a section that begins afresh - no stop of an earlier event is left, that
    is, [lowestPropagatedBoundSection] is null - is passed on to every window section that
    takes part, in their order; and, unless one of them stops it, to the sections of the bounds
    list that take part, from the section itself down, up to the first that stops it: each of
    them once, and no other.  A stop that is left over keeps an event from sections that nobody
    stopped it for ([wheel_stop_outlives_event]). *)
Theorem propagation_exact k i p wp x s :
  lowestPropagatedBoundSection s = None -> window_position i p s = Some wp ->
  let c := arrange s in
  let cw := (fun w => Call k w wp x) <$> filter (fun w => interactable (heap c w) = true) (windowSectionList c) in
  let cb := (fun b => Call k b p x) <$> filter (fun b => interactable (heap c b) = true)
                                          (reverse (boundsList (heap c i))) in
  exists s', propagate k i p x s = Some s' /\ targetSection s' = Some (name (section_at s i)) /\
    gesture s' = gesture s /\
    calls s' = calls s ++ cw ++ (if existsb stops cw then [] else until_stop cb).
Proof using Htame.
  intros Hl Hwp c cw cb. destruct (propagate_passes k i p wp x s Hwp) as (s' & E & H1 & H2 & H3 & H4 & H5).
  exists s'. split_and!; [done..|]. rewrite H4. f_equal. rewrite Hl. unfold passed. fold c.
  destruct (told_windows_clean c k wp x (windowSectionList c)) as (l' & -> & Hl'). fold cw in Hl' |- *.
  destruct (existsb stops cw); simpl; [by rewrite app_nil_r|]. rewrite Hl' by done.
  unfold cb. rewrite <- told_bounds_clean. by destruct (told_bounds c k p x _ None).
Qed.

(** *** Stopping lasts *)

(** Once a section of the stack has stopped an event, nothing below it is told, even if it
    does not stop the events that follow. *)
Lemma told_bounds_below c k p x above b below l :
  l = Some (name (heap c b)) ->
  forall cl, cl ∈ (told_bounds c k p x (above ++ b :: below) l).1 -> who cl ∈ above ++ [b].
Proof.
  clear Htame handle. intros Hl.
  assert (Hgen : forall ab l, (forall d, d ∈ ab -> d ∈ above) -> (exists d, d ∈ ab ++ [b] /\ l = Some (name (heap c d))) ->
            forall cl, cl ∈ (told_bounds c k p x (ab ++ b :: below) l).1 -> who cl ∈ above ++ [b]).
  { induction ab as [|a ab IH]; intros l0 Hab Hl0 cl; simpl.
    - destruct Hl0 as (d & Hd0%list_elem_of_singleton & ->). subst d. unfold told. simpl.
      destruct (interactable (heap c b)); simpl.
      + unfold stopped_by, stopper. simpl.
        destruct (stops (Call k b p x)); rewrite bool_decide_true by done; simpl;
          intros ->%list_elem_of_singleton; simpl; set_solver.
      + unfold stopped_by. rewrite bool_decide_true by done. simpl. set_solver.
    - assert (Hab' : forall d, d ∈ ab -> d ∈ above) by (intros; apply Hab; by right).
      unfold told. simpl. destruct (interactable (heap c a)); simpl.
      + destruct (stopped_by c a _) eqn:Es; simpl.
        { intros ->%list_elem_of_singleton. simpl. assert (a ∈ above) by (apply Hab; by left). set_solver. }
        destruct (told_bounds c k p x (ab ++ b :: below) _) as [cs' l'] eqn:Et. simpl.
        intros [->|Hcl]%elem_of_cons; [simpl; assert (a ∈ above) by (apply Hab; by left); set_solver|].
        eapply (IH _ Hab'); [|by rewrite Et].
        unfold stopper. simpl. destruct (stops (Call k a p x)) eqn:Est.
        * unfold stopped_by, stopper in Es. simpl in Es. rewrite Est in Es. by rewrite bool_decide_true in Es.
        * unfold stopped_by, stopper in Es. simpl in Es. rewrite Est in Es. to_prop.
          destruct Hl0 as (d & Hd0 & ->). exists d. split; [|done].
          apply elem_of_cons in Hd0 as [->|?]; [done|done].
      + destruct (stopped_by c a l0) eqn:Es; simpl; [set_solver|].
        destruct (told_bounds c k p x (ab ++ b :: below) l0) as [cs' l'] eqn:Et. simpl. intros Hcl.
        eapply (IH l0 Hab'); [|by rewrite Et].
        unfold stopped_by in Es. to_prop. destruct Hl0 as (d & Hd0 & ->). exists d. split; [|done].
        apply elem_of_cons in Hd0 as [->|?]; [done|done]. }
  apply Hgen; [done|]. exists b. split; [set_solver|done].
Qed.

(** *** Gestures

    Events for one section at points of the canvas, one after the other. *)
Fixpoint told_in_turn (c : container) (i : nat) (evs : list (kind * (Z * Z) * option (Z * Z))) (l : option string)
    : list call * option string :=
  match evs with
  | [] => ([], l)
  | (k, p, x) :: evs' =>
      let '(cs, l) := passed c k i (Some (sub2 p (top_left (heap c i)))) (Some p) x l in
      let '(cs', l) := told_in_turn c i evs' l in (cs ++ cs', l)
  end.

Lemma told_in_turn_app c i evs1 evs2 l :
  told_in_turn c i (evs1 ++ evs2) l =
  let '(cs, l) := told_in_turn c i evs1 l in
  let '(cs', l) := told_in_turn c i evs2 l in (cs ++ cs', l).
Proof.
  revert l. induction evs1 as [|[[k p] x] evs1 IH]; intros l; simpl; [by destruct (told_in_turn c i evs2 l)|].
  destruct (passed c k i _ _ x l) as [cs1 l1]. rewrite IH.
  destruct (told_in_turn c i evs1 l1) as [cs2 l2]. destruct (told_in_turn c i evs2 l2) as [cs3 l3].
  by rewrite app_assoc.
Qed.

Lemma at_local_passes k i p x s :
  is_Some (myTopLeft (section_at s i)) ->
  exists s', at_local (fun i q => propagate k i q x) i p s = Some s' /\
    passes s s' i (passed (arrange s) k i (Some (sub2 p (top_left (section_at s i)))) (Some p) x
                     (lowestPropagatedBoundSection s)).
Proof using Htame.
  intros [tl Htl]. unfold at_local, convertPositionToSectionLocale. rewrite Htl. simpl.
  destruct (propagate_passes k i (Some (p.1 - tl.1, p.2 - tl.2)) (Some p) x s) as (s' & -> & Hp).
  - unfold window_position. rewrite Htl. simpl. destruct p as [a b]. simpl. do 2 f_equal. f_equal; lia.
  - exists s'. split; [done|]. unfold top_left. rewrite Htl. exact Hp.
Qed.

(** The parts of a state a gesture depends on. *)
Definition same_place (s s' : state) : Prop :=
  arrange s' = arrange s /\ canvasRect s' = canvasRect s /\ dpiScale s' = dpiScale s.

Lemma to_canvas_same e s s' :
  same_place s s' -> convertPositionToCanvasLocale e s' = convertPositionToCanvasLocale e s.
Proof.
  intros (_ & H1 & H2). unfold convertPositionToCanvasLocale, convertPointToCanvasLocale, scaled.
  destruct (touches e); [destruct (changedTouches e)|]; by rewrite H1, H2.
Qed.

(** A section is dragged from [p0]. *)
Definition dragging (i : nat) (p0 : Z * Z) (s : state) : Prop :=
  draggingSomething s = true /\ positionOnMouseDown s = Some p0 /\
  sectionOnMouseDown s = Some (name (section_at s i)) /\ sectionUnderMouse s = Some (name (section_at s i)) /\
  longPressTimer s = false /\ touchEventInProgress s = false.

Ltac gesture_fields H := unfold gesture in H; simpl in H; injection H as ?????????????????.

Lemma named_self i s :
  wf_names (arrange s) -> i ∈ sections (arrange s) -> named (Some (name (section_at s i))) s = Some i.
Proof. intros Hw Hi. simpl. by apply getSectionWithName_spec. Qed.

(** A movement while dragging. *)
Lemma drag_move i p0 e s :
  wf_names (arrange s) -> i ∈ sections (arrange s) -> is_Some (myTopLeft (section_at s i)) -> dragging i p0 s ->
  let p := convertPositionToCanvasLocale e s in
  exists s', onMouseMove e s = Some s' /\ dragging i p0 s' /\ same_place s s' /\
    mouseIsInside s' = mouseIsInside s /\
    let r := passed (arrange s) MouseMove i (Some (sub2 p (top_left (section_at s i)))) (Some p)
               (Some (sub2 p p0)) (lowestPropagatedBoundSection s) in
    calls s' = calls s ++ r.1 /\ lowestPropagatedBoundSection s' = r.2.
Proof using Htame.
  intros Hw Hi Htl (D1 & D2 & D3 & D4 & D5 & D6) p. unfold onMouseMove. rewrite D1, andb_false_r.
  unfold isLongPressActive. rewrite D5, D6. simpl. unfold check_drag. simpl. rewrite D2, D1. simpl.
  rewrite D1. simpl. rewrite D2. simpl. fold p.
  set (s1 := set_dragDistance _ _).
  change (sectionOnMouseDown s1) with (sectionOnMouseDown s). rewrite D3.
  assert (En : named (Some (name (section_at s i))) s1 = Some i) by (by apply (named_self i s1)).
  rewrite En. unfold move_over.
  rewrite bool_decide_true by exact D4. simpl.
  destruct (at_local_passes MouseMove i p (Some (sub2 p p0)) s1 Htl) as (s' & E & P1 & P2 & P3 & P4 & P5).
  exists s'. split; [exact E|]. unfold dragging, same_place, section_at in *. rewrite P1.
  change (arrange s1) with (arrange s). unfold s1 in P2. gesture_fields P2. split; [split_and!; congruence|]. split; [by split_and!|].
  split; [done|]. by split.
Qed.

Lemma same_place_trans s1 s2 s3 : same_place s1 s2 -> same_place s2 s3 -> same_place s1 s3.
Proof. unfold same_place. intuition congruence. Qed.

(** [None]: the mouse leaves the canvas, which a drag goes on through. *)
Definition drag_input (e : option native) : input :=
  match e with Some e => IMouseMove e | None => IMouseLeave end.

Definition drag_points (p0 : Z * Z) (s : state) (es : list (option native)) : list (kind * (Z * Z) * option (Z * Z)) :=
  e ← es;
  match e with
  | Some e => let p := convertPositionToCanvasLocale e s in [(MouseMove, p, Some (sub2 p p0))]
  | None => []
  end.

Lemma run_app evs1 evs2 s : run (evs1 ++ evs2) s = run evs1 s ≫= run evs2.
Proof. revert s. induction evs1 as [|i evs1 IH]; intros s; [done|]. simpl. destruct (react i s); [apply IH|done]. Qed.

Lemma drag_loop i p0 es s0 s :
  wf_names (arrange s) -> i ∈ sections (arrange s) -> is_Some (myTopLeft (section_at s i)) -> dragging i p0 s ->
  same_place s0 s ->
  exists s', run (drag_input <$> es) s = Some s' /\ dragging i p0 s' /\ same_place s0 s' /\
    let r := told_in_turn (arrange s0) i (drag_points p0 s0 es) (lowestPropagatedBoundSection s) in
    calls s' = calls s ++ r.1 /\ lowestPropagatedBoundSection s' = r.2.
Proof using Htame.
  intros Hw Hi Htl. revert s Hw Hi Htl. induction es as [|[e|] es IH]; intros s Hw Hi Htl Hd Hs; simpl.
  - exists s. split; [done|]. split; [done|]. split; [done|]. split; [by rewrite app_nil_r|done].
  - destruct (drag_move i p0 e s Hw Hi Htl Hd) as (s1 & E & D1 & S1 & _ & C1 & L1). rewrite E. simpl.
    assert (Ea : arrange s1 = arrange s) by apply S1.
    destruct (IH s1) as (s' & E' & D' & S' & C' & L');
      [unfold section_at in *; rewrite Ea; done..|done|by eapply same_place_trans|].
    exists s'. split; [exact E'|]. split; [done|]. split; [done|]. unfold drag_points in *. simpl.
    rewrite (to_canvas_same e s0 s Hs) in C1, L1. unfold section_at in *.
    destruct Hs as (Es & _). rewrite Es in C1, L1.
    destruct (passed (arrange s0) MouseMove i _ _ _ (lowestPropagatedBoundSection s)) as [cs l] eqn:Ep.
    simpl in C1, L1. rewrite L1 in C', L'. destruct (told_in_turn (arrange s0) i _ l) as [cs' l'].
    simpl in *. split; [by rewrite C', C1, app_assoc|done].
  - unfold onMouseLeave. destruct Hd as (D1 & Hd). rewrite D1. simpl.
    destruct (IH (set_mouseIsInside false s)) as (s' & E' & D' & S' & C' & L');
      [done|done|done|by split|exact Hs|].
    exists s'. split; [exact E'|]. split; [done|]. by split.
Qed.

(** Pressing on a section. *)
Lemma press_down i e s :
  wf_names (arrange s) -> find (convertPositionToCanvasLocale e s) s = Some i ->
  is_Some (myTopLeft (section_at s i)) -> is_button e 0 = true -> touchEventInProgress s = false ->
  let p := convertPositionToCanvasLocale e s in
  exists s', onMouseDown e s = Some s' /\ same_place s s' /\
    draggingSomething s' = false /\ positionOnMouseDown s' = Some p /\
    sectionOnMouseDown s' = Some (name (section_at s i)) /\ sectionUnderMouse s' = sectionUnderMouse s /\
    longPressTimer s' = longPressTimer s /\ touchEventInProgress s' = false /\ mouseIsInside s' = mouseIsInside s /\
    positionOnMouseUp s' = None /\
    let r := passed (arrange s) MouseDown i (Some (sub2 p (top_left (section_at s i)))) (Some p) None None in
    calls s' = calls s ++ r.1 /\ lowestPropagatedBoundSection s' = r.2.
Proof using Htame.
  intros Hw Hf Htl Hb Ht p. unfold onMouseDown. rewrite Hb, Ht. simpl.
  change (convertPositionToCanvasLocale e (clearMousePositions s)) with p. unfold press.
  set (s1 := set_positionOnMouseDown (Some p) (clearMousePositions s)).
  change (find p s1) with (find p s). change (find p s = Some i) in Hf. rewrite Hf.
  set (s2 := set_sectionOnMouseDown _ s1).
  destruct (at_local_passes MouseDown i p None s2 Htl) as (s' & E & P1 & P2 & P3 & P4 & P5).
  exists s'. split; [exact E|]. unfold same_place, section_at in *. rewrite P1. unfold s2, s1 in P2. gesture_fields P2.
  split; [split_and!; try congruence; done|]. do 8 (split; [done|]). by split.
Qed.

(** Releasing, where a section is dragged. *)
Lemma drag_release i p0 e s :
  wf_names (arrange s) -> i ∈ sections (arrange s) -> is_Some (myTopLeft (section_at s i)) -> dragging i p0 s ->
  is_button e 0 = true ->
  let p := convertPositionToCanvasLocale e s in
  exists s', onMouseUp e s = Some s' /\ arrange s' = arrange s /\
    (draggingSomething s' = true \/ positionOnMouseDown s' = None) /\
    let r := passed (arrange s) MouseUp i (Some (sub2 p (top_left (section_at s i)))) (Some p) None
               (lowestPropagatedBoundSection s) in
    calls s' = calls s ++ r.1.
Proof using Htame.
  intros Hw Hi Htl (D1 & D2 & D3 & D4 & D5 & D6) Hb p. unfold onMouseUp. rewrite D2, Hb, D6. simpl. fold p.
  unfold release. set (s1 := set_positionOnMouseUp (Some p) s).
  change (draggingSomething s1) with (draggingSomething s). rewrite D1. simpl.
  change (sectionOnMouseDown s1) with (sectionOnMouseDown s). rewrite D3.
  assert (En : named (Some (name (section_at s i))) s1 = Some i) by (by apply (named_self i s1)).
  simpl in En. simpl. rewrite En.
  destruct (at_local_passes MouseUp i p None s1 Htl) as (s2 & E & P1 & P2 & P3 & P4 & P5).
  change (propagateOnMouseUp) with (fun i q => propagate MouseUp i q None). rewrite E. simpl.
  unfold s1 in P2. gesture_fields P2.
  destruct (mouseIsInside s2); eexists; (split; [done|]); (split; [exact P1|]); (split; [|exact P4]).
  - left. congruence.
  - by right.
Qed.

(** The first movement far enough makes it a drag. *)
Definition far (p p0 : Z * Z) : Prop :=
  draggingTolerance <= Z.abs (p.1 - p0.1) \/ draggingTolerance <= Z.abs (p.2 - p0.2).

Lemma onMouseMove_begins e p0 s :
  positionOnMouseDown s = Some p0 -> draggingSomething s = false -> mouseIsInside s = true ->
  longPressTimer s = false -> touchEventInProgress s = false -> far (convertPositionToCanvasLocale e s) p0 ->
  onMouseMove e s = onMouseMove e (set_dragging true s).
Proof.
  intros H1 H2 H3 H4 H5 Hf. unfold onMouseMove, isLongPressActive. rewrite H2, H3, H4, H5. simpl.
  rewrite H4, H5. simpl. unfold check_drag. simpl. rewrite H1, H2. simpl.
  change (convertPositionToCanvasLocale e (set_dragging true s)) with (convertPositionToCanvasLocale e s).
  set (p := convertPositionToCanvasLocale e s) in *.
  assert (Hb : (draggingTolerance <=? Z.abs (p.1 - p0.1)) || (draggingTolerance <=? Z.abs (p.2 - p0.2)) = true).
  { unfold far in Hf. apply orb_true_iff. by rewrite !Z.leb_le. }
  rewrite Hb. simpl. rewrite andb_false_r. reflexivity.
Qed.

(** C20: A drag belongs to the section it began on.  After the button was pressed on it and the
    mouse moved five pixels, every movement, with its distance from the press, and the
    release are passed on for this section, wherever the mouse is - over other sections or
    outside of the canvas - and nothing else is told anything; and the click that may
    follow the release is not passed on. *)
Theorem drag_captured i e0 e1 es eu s :
  wf_names (arrange s) -> find (convertPositionToCanvasLocale e0 s) s = Some i ->
  is_Some (myTopLeft (section_at s i)) -> mouseIsInside s = true -> longPressTimer s = false ->
  touchEventInProgress s = false -> sectionUnderMouse s = Some (name (section_at s i)) ->
  is_button e0 0 = true -> is_button eu 0 = true ->
  let p0 := convertPositionToCanvasLocale e0 s in
  far (convertPositionToCanvasLocale e1 s) p0 ->
  exists s', run (IMouseDown e0 :: (drag_input <$> Some e1 :: es) ++ [IMouseUp eu]) s = Some s' /\
    calls s' = calls s ++ (told_in_turn (arrange s) i
      ((MouseDown, p0, None) :: drag_points p0 s (Some e1 :: es) ++
       [(MouseUp, convertPositionToCanvasLocale eu s, None)]) None).1 /\
    forall ec, exists s'', onClick ec s' = Some s'' /\ calls s'' = calls s'.
Proof using Htame.
  intros Hw Hf Htl Hin Hlp Hte Hum Hb0 Hbu p0 Hfar.
  assert (Hi : i ∈ sections (arrange s)).
  { apply last_match_Some in Hf as (l1 & l2 & -> & _). set_solver. }
  destruct (press_down i e0 s Hw Hf Htl Hb0 Hte) as
    (s1 & E1 & S1 & A1 & A2 & A3 & A4 & A5 & A6 & A7 & _ & C1 & L1).
  fold p0 in A2, C1, L1. remember (drag_points p0 s (Some e1 :: es)) as D eqn:ED.
  pose proof S1 as (Ea1 & _). cbn [run react]. rewrite E1. cbn [mbind option_bind]. rewrite run_app.
  set (s2 := set_dragging true s1). assert (Ea2 : arrange s2 = arrange s) by exact Ea1.
  assert (Er : run (drag_input <$> Some e1 :: es) s1 = run (drag_input <$> Some e1 :: es) s2).
  { cbn [fmap list_fmap run drag_input react]. rewrite (onMouseMove_begins e1 p0 s1); [done| |congruence..|].
    - done.
    - by rewrite (to_canvas_same e1 s s1 S1). }
  destruct (drag_loop i p0 (Some e1 :: es) s s2) as (s3 & E3 & D3 & S3 & C3 & L3);
    [by rewrite Ea2|by rewrite Ea2|unfold section_at; by rewrite Ea2| |exact S1|].
  { unfold dragging, section_at. rewrite Ea2. unfold section_at in A3, Hum. unfold s2. simpl.
    split_and!; congruence. }
  rewrite Er, E3. simpl. pose proof S3 as (Ea3 & _).
  destruct (drag_release i p0 eu s3) as (s' & Eu & Ea' & Hd & Cu);
    [by rewrite Ea3|by rewrite Ea3|unfold section_at; by rewrite Ea3|done|done|].
  rewrite Eu. simpl. exists s'. split; [done|]. split.
  - cbv zeta in C3, L3. rewrite <- ED in C3, L3. rewrite Cu, C3. simpl calls. rewrite C1, (to_canvas_same eu s s3 S3). unfold section_at. rewrite Ea3, L3.
    change (lowestPropagatedBoundSection s2) with (lowestPropagatedBoundSection s1). rewrite L1.
    unfold section_at. fold p0. cbn [told_in_turn].
    destruct (passed (arrange s) MouseDown i _ (Some p0) None None) as [cs1 l1]. simpl snd. simpl fst.
    rewrite told_in_turn_app. destruct (told_in_turn (arrange s) i D l1) as [cs2 l2].
    cbn [told_in_turn fst snd]. destruct (passed (arrange s) MouseUp i _ _ None l2) as [cs3 l3]. simpl.
    by rewrite app_nil_r, <- !app_assoc.
  - intros ec. unfold onClick, pass_click. destruct (draggingSomething s') eqn:Ed; simpl; [by eexists|].
    destruct Hd as [?|Hd]; [congruence|]. rewrite Hd. simpl. by eexists.
Qed.

(** Pressing, releasing and clicking at points of one section, with the mouse over it, tells
    it and what is bound to it just that, in this order; what stops the press stops the
    release and the click as well; and the gesture is forgotten then. *)
Theorem click_gesture i e0 eu ec s :
  let p0 := convertPositionToCanvasLocale e0 s in
  let pu := convertPositionToCanvasLocale eu s in
  let pc := convertPositionToCanvasLocale ec s in
  wf_names (arrange s) -> find p0 s = Some i -> find pu s = Some i -> find pc s = Some i ->
  is_Some (myTopLeft (section_at s i)) -> mouseIsInside s = true -> touchEventInProgress s = false ->
  is_button e0 0 = true -> is_button eu 0 = true ->
  exists s', run [IMouseDown e0; IMouseUp eu; IClick ec] s = Some s' /\
    calls s' = calls s ++ (told_in_turn (arrange s) i [(MouseDown, p0, None); (MouseUp, pu, None); (Click, pc, None)] None).1 /\
    positionOnMouseDown s' = None /\ positionOnMouseUp s' = None /\ lowestPropagatedBoundSection s' = None /\
    draggingSomething s' = false.
Proof using Htame.
  intros p0 pu pc Hw F0 Fu Fc Htl Hin Hte Hb0 Hbu.
  destruct (press_down i e0 s Hw F0 Htl Hb0 Hte) as
    (s1 & E1 & S1 & A1 & A2 & A3 & A4 & A5 & A6 & A7 & _ & C1 & L1).
  fold p0 in A2, C1, L1. pose proof S1 as (Ea1 & _). cbn [run react]. rewrite E1. cbn [mbind option_bind].
  unfold onMouseUp. rewrite A2, Hbu, A6. simpl. rewrite (to_canvas_same eu s s1 S1). fold pu.
  unfold release. set (s1' := set_positionOnMouseUp (Some pu) s1).
  change (draggingSomething s1') with (draggingSomething s1). rewrite A1. simpl negb. cbv iota.
  assert (Fu' : find pu s1' = Some i).
  { unfold find in *. change (arrange s1') with (arrange s1). by rewrite Ea1. }
  rewrite Fu'. destruct (at_local_passes MouseUp i pu None s1') as (s2 & E2 & P1 & P2 & P3 & P4 & P5).
  { unfold section_at in *. change (arrange s1') with (arrange s1). by rewrite Ea1. }
  unfold propagateOnMouseUp. rewrite E2. simpl. change (arrange s1') with (arrange s1) in *.
  unfold s1' in P2. gesture_fields P2.
  assert (Hin2 : mouseIsInside s2 = true) by congruence. rewrite Hin2. simpl.
  assert (S2 : same_place s s2) by (destruct S1 as (? & ? & ?); split_and!; congruence).
  unfold onClick, pass_click. assert (draggingSomething s2 = false) as -> by congruence. simpl.
  assert (positionOnMouseDown s2 = Some p0) as -> by congruence.
  assert (positionOnMouseUp s2 = Some pu) as -> by congruence. rewrite (to_canvas_same ec s s2 S2). fold pc.
  set (s2' := set_positionOnClick (Some pc) s2).
  assert (Ff : forall p, find p s2' = find p s).
  { intros p. unfold find. change (arrange s2') with (arrange s2). by rewrite P1, Ea1. }
  rewrite !Ff, F0, Fu, Fc. simpl. rewrite Nat.eqb_refl.
  destruct (at_local_passes Click i pc None s2') as (s3 & E3 & Q1 & Q2 & Q3 & Q4 & Q5).
  { unfold section_at in *. change (arrange s2') with (arrange s2). by rewrite P1, Ea1. }
  unfold propagateOnClick. rewrite E3. simpl. eexists. split; [done|]. split; [|done].
  change (calls (draw (clearMousePositions s3))) with (calls s3). rewrite Q4.
  change (calls s2') with (calls s2). rewrite P4. change (calls s1') with (calls s1). rewrite C1.
  change (lowestPropagatedBoundSection s2') with (lowestPropagatedBoundSection s2). rewrite P5.
  change (lowestPropagatedBoundSection s1') with (lowestPropagatedBoundSection s1). rewrite L1.
  unfold section_at. change (arrange s2') with (arrange s2). change (arrange s1') with (arrange s1).
  rewrite P1, Ea1. cbn [told_in_turn]. fold p0.
  destruct (passed (arrange s) MouseDown i _ (Some p0) None None) as [cs1 l1]. simpl fst. simpl snd.
  destruct (passed (arrange s) MouseUp i _ (Some pu) None l1) as [cs2 l2]. simpl fst. simpl snd.
  destruct (passed (arrange s) Click i _ (Some pc) None l2) as [cs3 l3]. simpl.
  by rewrite app_nil_r, <- !app_assoc.
Qed.

(** *** No handler raises an error *)

Definition quiet (s s' : state) : Prop := arrange s' = arrange s /\ gesture s' = gesture s.

Definition all_placed (c : container) : Prop := forall i, i ∈ sections c -> is_Some (myTopLeft (heap c i)).

(** Dragging needs a press, a pending long press a finger. *)
Definition consistent (s : state) : Prop :=
  all_placed (arrange s) /\ (draggingSomething s = true -> is_Some (positionOnMouseDown s)) /\
  (forall e, longPressPending s = Some e -> touches e <> []).

Definition works (f : state -> option state) (s : state) : Prop := exists s', f s = Some s' /\ quiet s s'.

Lemma quiet_consistent s s' : quiet s s' -> consistent s -> consistent s'.
Proof.
  intros (H1 & H2) (C1 & C2 & C3). gesture_fields H2. unfold consistent. rewrite H1.
  split; [done|]. split; [|intros e He; apply C3; congruence].
  intros Hd. assert (positionOnMouseDown s' = positionOnMouseDown s) as -> by congruence. apply C2. congruence.
Qed.

Lemma quiet_refl s : quiet s s.
Proof. by split. Qed.

Lemma quiet_trans s1 s2 s3 : quiet s1 s2 -> quiet s2 s3 -> quiet s1 s3.
Proof. intros [A1 A2] [B1 B2]. split; congruence. Qed.

Lemma works_then f g s : works f s -> (forall s', quiet s s' -> works g s') -> works (fun s => f s ≫= g) s.
Proof.
  intros (s1 & E1 & Q1) Hg. destruct (Hg s1 Q1) as (s2 & E2 & Q2).
  exists s2. rewrite E1. split; [done|]. by eapply quiet_trans.
Qed.

Lemma propagate_works k i p x s :
  is_Some (myTopLeft (section_at s i)) -> works (propagate k i p x) s.
Proof using Htame.
  intros [tl Htl].
  assert (Hw : exists wp, window_position i p s = Some wp).
  { unfold window_position. destruct p; [rewrite Htl|]; by eexists. }
  destruct Hw as [wp Hw]. destruct (propagate_passes k i p wp x s Hw) as (s' & E & H1 & H2 & _). by exists s'.
Qed.

Lemma tell_bounds_works k i p x s : works (tell_bounds k i p x) s.
Proof using Htame.
  destruct (bounds_loop_told (length (boundsList (section_at s i))) k i p x s) as (s' & E & H1 & H2 & _); [done|].
  by exists s'.
Qed.

Lemma tell_windows_quiet k p x s : quiet s (tell_windows k p x s).1.
Proof using Htame.
  unfold tell_windows.
  pose proof (window_loop_told (windowSectionList (arrange s)) _ k p x 0 true s eq_refl eq_refl) as Hw.
  destruct (told_windows _ _ _ _ _ _ _) as [[cs l] go]. destruct Hw as (s1 & -> & H1 & H2 & _). by split.
Qed.

Lemma leave_works i p s : is_Some (myTopLeft (section_at s i)) -> works (propagateOnMouseLeave i p) s.
Proof using Htame.
  intros [tl Htl]. unfold propagateOnMouseLeave, works.
  change (window_position i p (begin_event i s)) with (window_position i p s).
  assert (Hw : exists wp, window_position i p s = Some wp).
  { unfold window_position. destruct p; [rewrite Htl|]; by eexists. }
  destruct Hw as [wp ->]. simpl.
  set (s1 := match wp with None => _ | Some _ => begin_event i s end).
  assert (Hq : quiet s s1).
  { unfold s1. destruct wp; [by split|]. apply (quiet_trans _ (begin_event i s)); [by split|apply tell_windows_quiet]. }
  destruct (tell_bounds_works MouseLeave i p None s1) as (s2 & E & Q2). exists s2. split; [done|]. by eapply quiet_trans.
Qed.

Lemma enter_works i p s : works (propagateOnMouseEnter i p) s.
Proof using Htame.
  unfold propagateOnMouseEnter. destruct (tell_bounds_works MouseEnter i p None (begin_event i s)) as (s' & E & Q).
  exists s'. split; [done|exact Q].
Qed.

Lemma at_local_works f i p s :
  (forall q, works (f i q) s) -> is_Some (myTopLeft (section_at s i)) -> works (at_local f i p) s.
Proof.
  intros Hf [tl Htl]. unfold works, at_local, convertPositionToSectionLocale. rewrite Htl. simpl. apply Hf.
Qed.

Lemma find_placed p s i : all_placed (arrange s) -> find p s = Some i -> is_Some (myTopLeft (section_at s i)).
Proof.
  intros Hp Hf. apply Hp. unfold find in Hf. apply last_match_Some in Hf as (l1 & l2 & -> & _).
  apply elem_of_app. right. by left.
Qed.

Lemma named_placed n s i : all_placed (arrange s) -> named n s = Some i -> is_Some (myTopLeft (section_at s i)).
Proof.
  intros Hp Hn. apply Hp. unfold named in Hn. destruct n as [n|]; [|done]. simpl in Hn.
  by apply getSectionWithName_sound in Hn as [? _].
Qed.

(** To one section, if there is one. *)
Lemma maybe_works (o : option nat) (f : nat -> state -> option state) s :
  (forall i, o = Some i -> works (f i) s) ->
  exists s', (match o with Some i => f i s | None => Some s end) = Some s' /\ quiet s s'.
Proof. intros H. destruct o as [i|]; [by apply H|]. exists s. by split. Qed.

Lemma press_works p s :
  all_placed (arrange s) ->
  exists s', press p s = Some s' /\ arrange s' = arrange s /\ positionOnMouseDown s' = Some p /\
             draggingSomething s' = draggingSomething s /\ longPressPending s' = longPressPending s.
Proof using Htame.
  intros Hp. unfold press. set (s1 := set_positionOnMouseDown (Some p) s).
  destruct (find p s1) as [i|] eqn:Ef; [|by exists s1].
  set (s2 := set_sectionOnMouseDown _ s1).
  destruct (at_local_works propagateOnMouseDown i p s2) as (s' & E & Q1 & Q2).
  - intros q. apply propagate_works. by apply (find_placed p s1).
  - by apply (find_placed p s1).
  - exists s'. unfold s2, s1 in Q2. gesture_fields Q2. by split_and!.
Qed.

Lemma release_works p s :
  all_placed (arrange s) ->
  exists s', release p s = Some s' /\ arrange s' = arrange s /\ positionOnMouseDown s' = positionOnMouseDown s /\
             draggingSomething s' = draggingSomething s /\ longPressPending s' = longPressPending s.
Proof using Htame.
  intros Hp. unfold release. set (s1 := set_positionOnMouseUp (Some p) s).
  destruct (maybe_works (if negb (draggingSomething s1) then find p s1 else named (sectionOnMouseDown s1) s1)
              (fun i => at_local propagateOnMouseUp i p) s1) as (s' & E & Q1 & Q2).
  - intros i Hi. assert (is_Some (myTopLeft (section_at s1 i))).
    { destruct (negb _); [by apply (find_placed p)|by eapply named_placed]. }
    apply at_local_works; [|done]. intros q. by apply propagate_works.
  - exists s'. split; [exact E|]. unfold s1 in Q2. gesture_fields Q2. by split_and!.
Qed.

Definition safe (f : state -> option state) : Prop :=
  forall s, consistent s -> exists s', f s = Some s' /\ consistent s'.

Lemma cleared_consistent s s' :
  arrange s' = arrange s -> draggingSomething s' = false -> longPressPending s' = longPressPending s ->
  consistent s -> consistent s'.
Proof. intros H1 H2 H3 (C1 & C2 & C3). unfold consistent. rewrite H1, H2, H3. by split_and!. Qed.

Lemma kept_consistent s s' :
  arrange s' = arrange s -> draggingSomething s' = draggingSomething s ->
  positionOnMouseDown s' = positionOnMouseDown s -> longPressPending s' = longPressPending s ->
  consistent s -> consistent s'.
Proof. intros H1 H2 H3 H4 (C1 & C2 & C3). unfold consistent. rewrite H1, H2, H3, H4. by split_and!. Qed.

Lemma stopLongPress_consistent s : consistent s -> consistent (stopLongPress s).
Proof.
  intros (C1 & C2 & C3). unfold stopLongPress. destruct (longPressTimer s); [|by split_and!].
  split_and!; [done|done|]. by intros e.
Qed.

Lemma onClick_safe e : safe (onClick e).
Proof using Htame.
  intros s Hc. unfold onClick. destruct (negb (draggingSomething s)); [|eexists; split; [done|by apply (cleared_consistent s)]].
  assert (Hm : exists s1, pass_click e s = Some s1 /\ consistent s1).
  { unfold pass_click. destruct (positionOnMouseDown s) as [down|] eqn:Ed; [|by exists s].
    destruct (positionOnMouseUp s) as [up|]; [|by exists s]. cbv zeta.
    set (p := convertPositionToCanvasLocale e s). set (s0 := set_positionOnClick (Some p) s).
    assert (Hc0 : consistent s0) by (by eapply kept_consistent; [..|exact Hc]).
    destruct (same_section (find down s0) (find up s0)); [|by exists s0].
    destruct (maybe_works (find p s0) (fun i => at_local propagateOnClick i p) s0) as (s1 & E & Q).
    - intros i Hi. pose proof (find_placed p s0 i (proj1 Hc0) Hi). apply at_local_works; [|done].
      intros q. by apply propagate_works.
    - exists s1. split; [exact E|]. by eapply quiet_consistent. }
  destruct Hm as (s1 & -> & H1). simpl. eexists. split; [done|]. by eapply cleared_consistent; [..|exact H1].
Qed.

Lemma onDoubleClick_safe e : safe (onDoubleClick e).
Proof using Htame.
  intros s Hc. unfold onDoubleClick. set (p := convertPositionToCanvasLocale e s).
  set (s0 := set_positionOnDoubleClick (Some p) s).
  assert (Hc0 : consistent s0) by (by eapply kept_consistent; [..|exact Hc]).
  destruct (maybe_works (find p s0) (fun i => at_local propagateOnDoubleClick i p) s0) as (s1 & -> & Q).
  - intros i Hi. pose proof (find_placed p s0 i (proj1 Hc0) Hi). apply at_local_works; [|done].
    intros q. by apply propagate_works.
  - simpl. eexists. split; [done|]. eapply cleared_consistent; [..|eapply quiet_consistent; [exact Q|done]]; done.
Qed.

Lemma leave_previous_works p s : all_placed (arrange s) -> works (leave_previous p) s.
Proof using Htame.
  intros Hp. unfold leave_previous. unfold works.
  apply (maybe_works (named (sectionUnderMouse s) s) (fun i => at_local propagateOnMouseLeave i p)).
  intros i Hi. pose proof (named_placed _ s i Hp Hi). apply at_local_works; [|done]. intros q. by apply leave_works.
Qed.

Lemma move_over_safe i p s :
  is_Some (myTopLeft (section_at s i)) -> consistent s -> exists s', move_over i p s = Some s' /\ consistent s'.
Proof using Htame.
  intros Hi Hc. unfold move_over.
  assert (Hm : exists s1, (if bool_decide (sectionUnderMouse s = Some (name (section_at s i))) then Some s
    else s ← leave_previous p s;
         at_local propagateOnMouseEnter i p (set_sectionUnderMouse (Some (name (section_at s i))) s)) = Some s1 /\
    arrange s1 = arrange s /\ consistent s1).
  { case_bool_decide; [by exists s|]. destruct (leave_previous_works p s (proj1 Hc)) as (s1 & -> & Q1). simpl.
    set (s2 := set_sectionUnderMouse _ s1). assert (Ea : arrange s2 = arrange s) by apply Q1.
    assert (Hc2 : consistent s2).
    { eapply kept_consistent; [..|eapply quiet_consistent; [exact Q1|done]]; done. }
    destruct (at_local_works propagateOnMouseEnter i p s2) as (s3 & -> & Q3).
    - intros q. apply enter_works.
    - unfold section_at in *. by rewrite Ea.
    - exists s3. split; [done|]. split; [by rewrite (proj1 Q3)|]. by eapply quiet_consistent. }
  destruct Hm as (s1 & -> & Ea & Hc1). simpl.
  destruct (at_local_works (fun i q s => propagateOnMouseMove i q (dragDistance s) s) i p s1) as (s2 & E & Q2).
  - intros q. apply propagate_works. unfold section_at in *. by rewrite Ea.
  - unfold section_at in *. by rewrite Ea.
  - exists s2. split; [exact E|]. by eapply quiet_consistent.
Qed.

Lemma move_or_leave_safe o p s :
  consistent s -> (forall i, o = Some i -> is_Some (myTopLeft (section_at s i))) ->
  exists s', (match o with
    | Some i => move_over i p s
    | None => match sectionUnderMouse s with
              | Some _ => s ← leave_previous p s; Some (set_sectionUnderMouse None s)
              | None => Some s end end) = Some s' /\ consistent s'.
Proof using Htame.
  intros Hc Ho. destruct o as [i|]; [apply move_over_safe; auto|].
  destruct (sectionUnderMouse s); [|by exists s].
  destruct (leave_previous_works p s (proj1 Hc)) as (s1 & -> & Q1). simpl. eexists. split; [done|].
  eapply kept_consistent; [..|eapply quiet_consistent; [exact Q1|done]]; done.
Qed.

Lemma check_drag_consistent p s :
  consistent s -> consistent (check_drag p s) /\ arrange (check_drag p s) = arrange s.
Proof.
  intros Hc. unfold check_drag. destruct (positionOnMouseDown s) as [d|] eqn:Ed; [|done].
  destruct (negb (draggingSomething s)); [|done]. cbv zeta. destruct (_ || _); [|done].
  destruct Hc as (C1 & C2 & C3). split; [|done]. split; [done|]. split; [|done].
  intros _. simpl. rewrite Ed. by eexists.
Qed.

Lemma onMouseMove_safe e : safe (onMouseMove e).
Proof using Htame.
  intros s Hc. unfold onMouseMove. destruct (negb (mouseIsInside s) && negb (draggingSomething s)); [by exists s|].
  set (p := convertPositionToCanvasLocale e s). set (s0 := set_mousePosition (Some p) s).
  assert (Hc0 : consistent s0) by (by eapply kept_consistent; [..|exact Hc]).
  destruct (negb (isLongPressActive s)).
  - destruct (touchEventInProgress s); [by exists s|].
    destruct (check_drag_consistent p s0 Hc0) as [Hc1 Ea1]. set (s1 := check_drag p s0) in *.
    destruct (draggingSomething s1) eqn:Ed.
    + pose proof Hc1 as (_ & Hd & _). destruct (Hd Ed) as [d Edown]. rewrite Edown. cbn [mbind option_bind].
      apply move_or_leave_safe; [by eapply kept_consistent; [..|exact Hc1]|].
      intros i Hi. eapply (named_placed _ _ i); [|exact Hi]. apply Hc1.
    + cbn [mbind option_bind]. apply move_or_leave_safe; [done|]. intros i Hi. by apply (find_placed p s1 i (proj1 Hc1)).
  - destruct (find p s0) as [i|] eqn:Ef; [|by exists s0].
    pose proof (find_placed p s0 i (proj1 Hc0) Ef) as Hp.
    assert (Ea : arrange (stopLongPress s0) = arrange s0) by (unfold stopLongPress; by destruct (longPressTimer s0)).
    destruct (propagate_works ContextMenu i None None (stopLongPress s0)) as (s' & E & Q).
    { unfold section_at in *. by rewrite Ea. }
    exists s'. split; [exact E|]. eapply quiet_consistent; [exact Q|]. by apply stopLongPress_consistent.
Qed.

Lemma press_consistent p s s' :
  arrange s' = arrange s -> positionOnMouseDown s' = Some p -> longPressPending s' = longPressPending s ->
  consistent s -> consistent s'.
Proof.
  intros H1 H2 H3 (C1 & C2 & C3). unfold consistent. rewrite H1, H2, H3. by split_and!.
Qed.

Lemma onMouseDown_safe e : safe (onMouseDown e).
Proof using Htame.
  intros s Hc. unfold onMouseDown. destruct (_ && _); [|by exists s]. cbv zeta.
  set (p := convertPositionToCanvasLocale e _).
  destruct (press_works p (clearMousePositions s)) as (s' & -> & P1 & P2 & P3 & P4); [apply Hc|].
  exists s'. split; [done|]. by eapply (press_consistent p s).
Qed.

Lemma onMouseUp_safe e : safe (onMouseUp e).
Proof using Htame.
  intros s Hc. unfold onMouseUp. destruct (positionOnMouseDown s) as [d|] eqn:Ed.
  - assert (Hm : exists s1, (if is_button e 0 && negb (touchEventInProgress s)
        then release (convertPositionToCanvasLocale e s) s else Some s) = Some s1 /\ consistent s1).
    { destruct (_ && _); [|by exists s].
      destruct (release_works (convertPositionToCanvasLocale e s) s (proj1 Hc)) as (s1 & -> & R1 & R2 & R3 & R4).
      exists s1. split; [done|]. by apply (kept_consistent s). }
    destruct Hm as (s1 & -> & Hc1). simpl. destruct (mouseIsInside s1); [by exists s1|].
    eexists. split; [done|]. by apply (cleared_consistent s1).
  - eexists. split; [done|]. by apply (cleared_consistent s).
Qed.

Lemma onMouseWheel_safe e lines delta h : safe (onMouseWheel e lines delta h).
Proof using Htame.
  intros s Hc. unfold onMouseWheel. set (p := convertPositionToCanvasLocale e s).
  set (d := if lines then _ else _). cbv zeta.
  destruct (maybe_works (find p s) (fun i => at_local (fun i q => propagateOnMouseWheel i q (Some d)) i p) s)
    as (s' & E & Q).
  - intros i Hi. pose proof (find_placed p s i (proj1 Hc) Hi). apply at_local_works; [|done].
    intros q. by apply propagate_works.
  - exists s'. split; [exact E|]. by eapply quiet_consistent.
Qed.

Lemma onContextMenu_safe e : safe (fun s => fst <$> onContextMenu e s).
Proof using Htame.
  intros s Hc. unfold onContextMenu. set (p := convertPositionToCanvasLocale e s). cbv zeta.
  destruct (maybe_works (find p s) propagateOnContextMenu s) as (s' & -> & Q).
  - intros i Hi. apply propagate_works. by apply (find_placed p s i (proj1 Hc)).
  - exists s'. split; [done|]. by eapply quiet_consistent.
Qed.

Lemma onMouseLeave_safe : safe onMouseLeave.
Proof using Htame.
  intros s Hc. unfold onMouseLeave. destruct (draggingSomething s).
  { simpl. eexists. split; [done|]. by apply (kept_consistent s). }
  assert (Hm : exists s1, (match sectionUnderMouse s with
    | Some _ => s ← (match named (sectionUnderMouse s) s with Some i => propagateOnMouseLeave i None s | None => Some s end);
                Some (set_sectionUnderMouse None s)
    | None => Some s end) = Some s1 /\ consistent s1).
  { destruct (sectionUnderMouse s) as [n|]; [|by exists s].
    destruct (maybe_works (named (Some n) s) (fun i => propagateOnMouseLeave i None) s) as (s1 & -> & Q).
    - intros i Hi. apply leave_works. by eapply (named_placed _ s i (proj1 Hc)).
    - simpl. eexists. split; [done|]. apply (kept_consistent s1); [done..|]. by eapply quiet_consistent. }
  destruct Hm as (s1 & -> & Hc1). simpl. eexists. split; [done|]. by apply (cleared_consistent s1).
Qed.

Lemma enter_loop_quiet fuel j s : quiet s (enter_loop fuel j s).
Proof using Htame.
  revert j s. induction fuel as [|fuel IH]; intros j s; [by split|]. simpl.
  destruct (windowSectionList (arrange s) !! j) as [i|]; [|by split].
  destruct (deliver_told MouseEnter i None None s) as (H1 & H2 & _). eapply quiet_trans; [by split|apply IH].
Qed.

Lemma onMouseEnter_consistent s : consistent s -> consistent (onMouseEnter s).
Proof using Htame.
  intros Hc. eapply quiet_consistent; [apply enter_loop_quiet|]. by apply (kept_consistent s).
Qed.

Lemma onTouchStart_safe e : safe (onTouchStart e).
Proof using Htame.
  intros s Hc. unfold onTouchStart. destruct (length (touches e) =? 1)%nat eqn:El; to_prop.
  - cbv zeta. set (s1 := startLongPress e (clearMousePositions s)).
    assert (Hc1 : consistent s1).
    { destruct Hc as (C1 & C2 & C3). unfold s1, startLongPress. split; [|split].
      - unfold stopLongPress. by destruct (longPressTimer (clearMousePositions s)).
      - unfold stopLongPress. by destruct (longPressTimer (clearMousePositions s)).
      - intros e'. simpl. intros [= <-] E. rewrite E in El. done. }
    destruct (press_works (convertPositionToCanvasLocale e s1) s1 (proj1 Hc1)) as (s' & -> & P1 & P2 & P3 & P4).
    exists s'. split; [done|]. by eapply (press_consistent _ s1).
  - destruct (negb (multiTouch s)); [|by exists s]. cbv zeta.
    set (s1 := set_multiTouch true (stopLongPress s)).
    assert (Hc1 : consistent s1).
    { eapply kept_consistent; [..|exact (stopLongPress_consistent s Hc)]; done. }
    destruct (maybe_works (named (sectionOnMouseDown s1) s1) propagateOnMultiTouchStart s1) as (s' & E & Q).
    + intros i Hi. apply propagate_works. by eapply (named_placed _ s1 i (proj1 Hc1)).
    + exists s'. split; [exact E|]. by eapply quiet_consistent.
Qed.

Lemma onTouchMove_safe e : safe (onTouchMove e).
Proof using Htame.
  intros s Hc. unfold onTouchMove. destruct (positionOnMouseDown s) as [down|] eqn:Ed; [|by exists s]. cbv zeta.
  pose proof (stopLongPress_consistent s Hc) as Hc1. set (s1 := stopLongPress s) in *.
  assert (Ed1 : positionOnMouseDown s1 = Some down) by (unfold s1, stopLongPress; by destruct (longPressTimer s)).
  destruct (negb (multiTouch s1)).
  - set (p := convertPositionToCanvasLocale e s1). set (s2 := set_dragDistance _ _).
    assert (Hc2 : consistent s2) by (by eapply (press_consistent down s1)).
    destruct (maybe_works (named (sectionOnMouseDown s2) s2)
      (fun i => at_local (fun i q => propagateOnMouseMove i q (Some (sub2 p down))) i p) s2) as (s' & E & Q).
    + intros i Hi. pose proof (named_placed _ s2 i (proj1 Hc2) Hi). apply at_local_works; [|done].
      intros q. by apply propagate_works.
    + exists s'. split; [exact E|]. by eapply quiet_consistent.
  - destruct (touches e) as [|a [|b [|? ?]]]; try (by exists s1).
    destruct (named (sectionOnMouseDown s1) s1) as [i|] eqn:En; [|by exists s1].
    set (s2 := match touchCenter s1 with None => _ | Some _ => s1 end).
    assert (Hs2 : consistent s2 /\ arrange s2 = arrange s1 /\ is_Some (touchCenter s2)).
    { unfold s2. destruct (touchCenter s1) eqn:Et; [by rewrite Et|].
      split_and!; [|done|by eexists]. by apply (kept_consistent s1). }
    destruct Hs2 as (Hc2 & Ea2 & [c Ec]). rewrite Ec. cbn [mbind option_bind].
    pose proof (named_placed _ s1 i (proj1 Hc1) En) as Hi.
    destruct (at_local_works (fun i q => propagateOnMultiTouchMove i q (Some (squared_distance a b, 0))) i c s2)
      as (s' & E & Q).
    + intros q. apply propagate_works. unfold section_at in *. by rewrite Ea2.
    + unfold section_at in *. by rewrite Ea2.
    + exists s'. split; [exact E|]. by eapply quiet_consistent.
Qed.

Lemma onTouchEnd_safe e : safe (onTouchEnd e).
Proof using Htame.
  intros s Hc. unfold onTouchEnd. pose proof (stopLongPress_consistent s Hc) as Hc1.
  set (s1 := stopLongPress s) in *. cbv zeta.
  assert (Hm : exists s2, (if negb (multiTouch s1) then release (convertPositionToCanvasLocale e s1) s1
    else if (length (touches e) =? 0)%nat then
      match named (sectionOnMouseDown (set_multiTouch false s1)) (set_multiTouch false s1) with
      | Some i => propagateOnMultiTouchEnd i (set_multiTouch false s1)
      | None => Some (set_multiTouch false s1)
      end
    else Some s1) = Some s2 /\ consistent s2).
  { destruct (negb (multiTouch s1)).
    - destruct (release_works (convertPositionToCanvasLocale e s1) s1 (proj1 Hc1)) as (s2 & -> & R1 & R2 & R3 & R4).
      exists s2. split; [done|]. by apply (kept_consistent s1).
    - destruct (length (touches e) =? 0)%nat; [|by exists s1]. set (s2 := set_multiTouch false s1).
      assert (Hc2 : consistent s2) by (by apply (kept_consistent s1)).
      destruct (maybe_works (named (sectionOnMouseDown s2) s2) propagateOnMultiTouchEnd s2) as (s' & E & Q).
      + intros i Hi. apply propagate_works. by eapply (named_placed _ s2 i (proj1 Hc2)).
      + exists s'. split; [exact E|]. by eapply quiet_consistent. }
  destruct Hm as (s2 & -> & Hc2). simpl. eexists. split; [done|]. by apply (kept_consistent s2).
Qed.

Lemma longPressFires_safe : safe longPressFires.
Proof using Htame.
  intros s Hc. unfold longPressFires. destruct (longPressPending s) as [e|] eqn:El; [|by exists s].
  pose proof Hc as (C1 & C2 & C3). pose proof (C3 e El) as He. destruct (touches e) as [|p ts] eqn:Et; [done|].
  simpl. apply onMouseMove_safe. split_and!; [done|done|]. by intros e'.
Qed.

Lemma sections_loop_works n k s :
  (n <= length (sections (arrange s)))%nat -> works (sections_loop n k) s.
Proof using Htame.
  revert s. induction n as [|n IH]; intros s Hn; [by exists s|]. unfold works. simpl.
  destruct (lookup_lt_is_Some_2 (sections (arrange s)) n) as [i ->]; [lia|]. simpl.
  destruct (deliver_told k i None None s) as (H1 & H2 & _).
  destruct (IH (deliver k i None None s)) as (s' & E & Q); [rewrite H1; lia|].
  exists s'. split; [exact E|]. eapply quiet_trans; [by split|done].
Qed.

Lemma tell_all_safe k : safe (tell_all k).
Proof using Htame.
  intros s Hc. unfold tell_all. pose proof (tell_windows_quiet k None None s) as Q1.
  destruct (tell_windows k None None s) as [s1 go]. simpl in Q1. destruct go.
  - destruct (sections_loop_works (length (sections (arrange s1))) k s1) as (s2 & -> & Q2); [done|].
    exists s2. split; [done|]. eapply quiet_consistent; [|exact Hc]. by eapply quiet_trans.
  - exists s1. split; [done|]. by eapply quiet_consistent.
Qed.

Definition relayouts_place (i : input) : Prop :=
  match i with IRelayout d => all_placed (layout d) | _ => True end.

Lemma react_safe i : relayouts_place i -> safe (react i).
Proof using Htame.
  intros Hi. destruct i; simpl.
  - apply onClick_safe.
  - apply onDoubleClick_safe.
  - apply onMouseMove_safe.
  - apply onMouseDown_safe.
  - apply onMouseUp_safe.
  - apply onContextMenu_safe.
  - apply onMouseWheel_safe.
  - apply onMouseLeave_safe.
  - intros s Hc. eexists. split; [done|]. by apply onMouseEnter_consistent.
  - apply onTouchStart_safe.
  - apply onTouchMove_safe.
  - apply onTouchEnd_safe.
  - intros s Hc. eexists. split; [done|]. apply stopLongPress_consistent. by apply (cleared_consistent s).
  - apply longPressFires_safe.
  - destruct text_document; [apply tell_all_safe|]. intros s Hc. by exists s.
  - destruct spreadsheet; [apply tell_all_safe|]. intros s Hc. by exists s.
  - intros s (C1 & C2 & C3). eexists. split; [done|]. by split_and!.
Qed.

(** C23: Whatever the user and the server do, in any order - mouse, wheel, one finger or many,
    long presses, sections placed anew in between - no handler raises an error, as long as
    sections are placed; and dragging always goes with a press. *)
Theorem events_never_raise evs s :
  consistent s -> Forall relayouts_place evs ->
  exists s', run evs s = Some s' /\
    (draggingSomething s' = true -> is_Some (positionOnMouseDown s')).
Proof using Htame.
  intros Hc Hevs. revert s Hc. induction Hevs as [|i evs Hi _ IH]; intros s Hc.
  - exists s. split; [done|]. by apply Hc.
  - simpl. destruct (react_safe i Hi s Hc) as (s1 & -> & Hc1). simpl. by apply IH.
Qed.

Lemma told_windows_go c k p x ws go l :
  let '(cs, l', go') := told_windows c k p x ws go l in
  (forall cl, cl ∈ cs -> who cl ∈ ws) /\ (go' = true -> l' = l).
Proof.
  clear Htame handle. revert go l. induction ws as [|w ws IH]; intros go l; simpl; [by split; [set_solver|]|].
  unfold told. simpl. destruct (interactable (heap c w)).
  - specialize (IH (if stopped_by c w (stopper c (Call k w p x) l) then false else go) (stopper c (Call k w p x) l)).
    destruct (told_windows c k p x ws _ _) as [[cs' l'] go'] eqn:Et. destruct IH as [H1 H2]. split.
    + intros cl Hcl. simpl in Hcl. apply elem_of_cons in Hcl as [->|Hcl]; [by left|right; auto].
    + intros Hgo. rewrite H2 by done. unfold stopper in *. simpl in *.
      destruct (stops (Call k w p x)); [|done]. exfalso. unfold stopped_by in Et. rewrite bool_decide_true in Et by done.
      destruct (told_windows_stopped c k p x ws (Some (name (heap c w)))) as [l'' E]. rewrite E in Et. congruence.
  - specialize (IH (if stopped_by c w l then false else go) l).
    destruct (told_windows c k p x ws _ l) as [[cs' l'] go']. destruct IH as [H1 H2]. split; [|done].
    intros cl Hcl. right. by apply H1.
Qed.

Lemma passed_below c k i p wp x below b above :
  boundsList (heap c i) = below ++ b :: above ->
  forall cl, cl ∈ (passed c k i p wp x (Some (name (heap c b)))).1 ->
    who cl ∈ windowSectionList c \/ who cl ∈ b :: above.
Proof.
  intros Hb cl. unfold passed.
  pose proof (told_windows_go c k wp x (windowSectionList c) true (Some (name (heap c b)))) as Hw.
  destruct (told_windows _ _ _ _ _ _ _) as [[cs l] go]. destruct Hw as [H1 H2]. destruct go.
  - specialize (H2 eq_refl). subst l. rewrite Hb, reverse_app, reverse_cons, <- app_assoc. simpl.
    pose proof (told_bounds_below c k p x (reverse above) b (reverse below) (Some (name (heap c b))) eq_refl) as H3.
    destruct (told_bounds c k p x _ _) as [cs' l']. simpl in *.
    intros [Hc|Hc]%elem_of_app; [left; auto|right].
    specialize (H3 cl Hc). rewrite elem_of_app, elem_of_reverse, list_elem_of_singleton in H3.
    destruct H3 as [?| ->]; [by right|by left].
  - simpl. intros Hc. left. auto.
Qed.

(** A section that stopped the propagation during a drag keeps the rest of the drag from what
    is below it, without stopping every movement: only window sections, the section itself
    and those above it are told. *)
Theorem stop_lasts i p0 e s below b above :
  wf_names (arrange s) -> i ∈ sections (arrange s) -> is_Some (myTopLeft (section_at s i)) -> dragging i p0 s ->
  boundsList (section_at s i) = below ++ b :: above ->
  lowestPropagatedBoundSection s = Some (name (section_at s b)) ->
  exists s' cs, onMouseMove e s = Some s' /\ calls s' = calls s ++ cs /\
    forall cl, cl ∈ cs -> who cl ∈ windowSectionList (arrange s) \/ who cl ∈ b :: above.
Proof using Htame.
  intros Hw Hi Htl Hd Hb Hl. destruct (drag_move i p0 e s Hw Hi Htl Hd) as (s' & E & _ & _ & _ & C & _).
  eexists _, _. split; [exact E|]. split; [exact C|]. rewrite Hl. by apply (passed_below _ _ _ _ _ _ below).
Qed.
End events.

(** ** A sheet *)

(** Sections that only stop calls. *)
Definition stopping (stops : call -> bool) (cl : call) (s : state) : state :=
  if stops cl then set_lowest (Some (name (section_at s (who cl)))) s else s.

Lemma stopping_tame stops : tame (stopping stops) stops.
Proof. intros cl s. unfold stopping, stopper. destruct (stops cl); by split_and!. Qed.

(** The sheet of [laid_out] with its bounds lists, the mouse over the overlay, which lies
    over the tiles and the grid. *)
Definition bound_sheet : container := updateBoundSectionLists laid_out.

Definition at_sheet (under : option string) : state :=
  MkState (new_container bound_sheet true false false) (0, 0) (1, 1) None None None None None None None false
    None under false false None false None None true [].

Definition at_point (x y : Z) : native := Native [] [] (x, y) 0.
Definition finger (x y : Z) : native := Native [(x, y)] [] (0, 0) 0.

Definition told_of (k : kind) (o : option state) : option (list nat) :=
  s ← o; Some (who <$> filter (fun cl => bool_decide (what cl = k) = true) (calls s)).

Lemma update_lists_wf c : wf_names c -> wf_names (updateBoundSectionLists c).
Proof.
  intros Hw. pose proof Hw as (Hd & Hne & Hu).
  destruct (update_lists_loop (sections c) c c Hw) as ([Hs Hh] & _); [by split|exact Hd|auto|].
  fold (updateBoundSectionLists c) in Hs, Hh.
  assert (Hn : forall i, name (heap (updateBoundSectionLists c) i) = name (heap c i)).
  { intros i. specialize (Hh i). by injection Hh. }
  unfold wf_names. rewrite Hs. setoid_rewrite Hn. done.
Qed.

Lemma bound_sheet_wf : wf_names bound_sheet.
Proof. apply update_lists_wf. exact (relayout_wf (R := whole_pixels) _ _ sheet_wf laid_out_eq). Qed.

Lemma bound_sheet_placed : all_placed bound_sheet.
Proof.
  assert (Hs : sections bound_sheet = [4; 3; 5; 0; 1; 2; 6; 7]%nat) by (vm_compute; reflexivity).
  unfold all_placed. rewrite Hs. apply Forall_forall. repeat constructor; vm_compute; eexists; reflexivity.
Qed.

(** The overlay stops the wheel and nothing else... *)
Definition overlay_stops_wheel : call -> bool :=
  fun cl => bool_decide (what cl = MouseWheel) && (who cl =? 5)%nat.

Definition at_overlay (evs : list input) : option state :=
  run (R := whole_pixels) (stopping overlay_stops_wheel) evs (at_sheet (Some "overlay")).

(** ... but after a wheel, movements of the mouse do not reach the sections below it any
    more, until a button is pressed: [lowestPropagatedBoundSection] is reset with the
    positions of the mouse, and the wheel resets nothing, although the class says that the
    end of an event does. *)
Theorem wheel_stop_outlives_event :
  told_of MouseMove (at_overlay [IMouseMove (at_point 100 100)]) = Some [6; 5; 3; 4]%nat /\
  told_of MouseMove (at_overlay [IMouseWheel (at_point 100 100) false (0, 30) 16; IMouseMove (at_point 100 100)]) =
    Some [6; 5]%nat.
Proof. split; vm_compute; reflexivity. Qed.

(** After a touch with two fingers is cancelled by the browser, the next drag with one finger
    moves nothing: [onTouchCancel] leaves [multiTouch] set. *)
Theorem cancelled_touch_blocks_drag :
  let two := Native [(100, 100); (200, 200)] [] (0, 0) 0 in
  let drag := [ITouchStart (finger 100 100); ITouchMove (finger 150 150)] in
  told_of MouseMove (at_overlay (ITouchStart (finger 100 100) :: ITouchStart two :: ITouchCancel :: drag)) = Some [] /\
  told_of MouseMove (at_overlay (ITouchStart (finger 100 100) :: ITouchCancel :: drag)) = Some [6; 5; 3; 4]%nat.
Proof. split; vm_compute; reflexivity. Qed.

Lemma propagation_exact_witness :
  lowestPropagatedBoundSection (at_sheet None) = None /\
  exists s', propagate (stopping overlay_stops_wheel) MouseWheel 5 (Some (51, 80)) None (at_sheet None) = Some s' /\
    calls s' = [Call MouseWheel 6 (Some (100, 100)) None; Call MouseWheel 5 (Some (51, 80)) None].
Proof.
  split; [done|].
  assert (Hw : window_position 5 (Some (51, 80)) (at_sheet None) = Some (Some (100, 100))) by (vm_compute; reflexivity).
  destruct (propagation_exact _ _ (stopping_tame overlay_stops_wheel) MouseWheel 5 (Some (51, 80)) (Some (100, 100)) None
    (at_sheet None) eq_refl Hw) as (s' & E & _ & _ & C).
  exists s'. split; [exact E|]. rewrite C. vm_compute. reflexivity.
Defined.

Lemma drag_captured_witness :
  exists s', run (R := whole_pixels) (stopping overlay_stops_wheel)
    (IMouseDown (at_point 100 100) :: (drag_input <$> [Some (at_point 10 110); None; Some (at_point 900 110)]) ++
     [IMouseUp (at_point 900 120)]) (at_sheet (Some "overlay")) = Some s' /\
    who <$> calls s' = [6; 5; 3; 4; 6; 5; 3; 4; 6; 5; 3; 4; 6; 5; 3; 4]%nat.
Proof.
  destruct (drag_captured (R := whole_pixels) _ _ (stopping_tame overlay_stops_wheel) 5 (at_point 100 100) (at_point 10 110)
    [None; Some (at_point 900 110)] (at_point 900 120) (at_sheet (Some "overlay"))) as (s' & E & C & _).
  - exact bound_sheet_wf.
  - vm_compute. reflexivity.
  - vm_compute. by eexists.
  - done.
  - done.
  - done.
  - vm_compute. reflexivity.
  - done.
  - done.
  - left. vm_compute. done.
  - exists s'. split; [exact E|]. rewrite C. vm_compute. reflexivity.
Defined.

Lemma click_gesture_witness :
  exists s', run (R := whole_pixels) (stopping overlay_stops_wheel)
    [IMouseDown (at_point 100 100); IMouseUp (at_point 101 100); IClick (at_point 101 100)] (at_sheet None) = Some s' /\
    (what <$> calls s') = replicate 4 MouseDown ++ replicate 4 MouseUp ++ replicate 4 Click.
Proof.
  destruct (click_gesture (R := whole_pixels) _ _ (stopping_tame overlay_stops_wheel) 5 (at_point 100 100) (at_point 101 100)
    (at_point 101 100) (at_sheet None)) as (s' & E & C & _).
  - exact bound_sheet_wf.
  - vm_compute. reflexivity.
  - vm_compute. reflexivity.
  - vm_compute. reflexivity.
  - vm_compute. by eexists.
  - done.
  - done.
  - done.
  - done.
  - exists s'. split; [exact E|]. rewrite C. vm_compute. reflexivity.
Defined.

Lemma events_never_raise_witness :
  exists s', run (R := whole_pixels) (stopping overlay_stops_wheel)
    [ITouchStart (finger 100 100); ILongPress; ITouchMove (finger 120 100); IMouseLeave; IRelayout (new_container bound_sheet true false false);
     ITouchEnd (finger 1 1); IDoubleClick (at_point 1 1)] (at_sheet None) = Some s' /\
    (draggingSomething s' = true -> is_Some (positionOnMouseDown s')).
Proof.
  apply (events_never_raise (R := whole_pixels) _ _ (stopping_tame overlay_stops_wheel)).
  - split; [exact bound_sheet_placed|]. by split.
  - repeat constructor. exact bound_sheet_placed.
Defined.

Lemma stop_lasts_witness :
  let s := set_lowest (Some "tiles") (set_dragging true (set_sectionOnMouseDown (Some "overlay")
             (set_positionOnMouseDown (Some (100, 100)) (at_sheet (Some "overlay"))))) in
  exists s' cs, onMouseMove (R := whole_pixels) (stopping overlay_stops_wheel) (at_point 200 200) s = Some s' /\
    calls s' = calls s ++ cs /\ forall cl, cl ∈ cs -> who cl ∈ [6%nat] \/ who cl ∈ [3; 5]%nat.
Proof.
  intros s. destruct (stop_lasts (R := whole_pixels) _ _ (stopping_tame overlay_stops_wheel) 5 (100, 100) (at_point 200 200) s
    [4%nat] 3 [5%nat]) as (s' & cs & E & C & H).
  - exact bound_sheet_wf.
  - vm_compute. set_solver.
  - vm_compute. by eexists.
  - unfold dragging. split_and!; vm_compute; reflexivity.
  - vm_compute. reflexivity.
  - vm_compute. reflexivity.
  - assert (Hws : windowSectionList (arrange s) = [6%nat]) by (vm_compute; reflexivity). rewrite Hws in H.
    exists s', cs. split; [exact E|]. split; [exact C|exact H].
Defined.
