(* ===== verification/Scroll.v ===== *)
(** * Scrolling

    Models the scroll bars of the document and all that scrolls it: the wheel, dragging a
    bar, pressing its railway, scrolling by itself at the edge of the view, and requests of
    other parts of the client (src/browser/src/layer/tile/ScrollSection.ts,
    src/browser/src/control/Scroll.js).

    The two bars are records of the same type, and functions that the code has once for each
    axis take the axis.  Positions on the canvas are integers; the factor between pixels of
    CSS and of the canvas ([app.dpiScale]) is rational, and quotients are rational or
    infinite or [NaN], as in the code ([jsnum]; zeros have no sign).  What the section reads
    of others - the size of the document and of its views, the mode of the browser, whether
    the mouse drags something - is an [env] given with each event.  A handler returns its
    state and whether it raised an error. *)

From S2P Require Import Prelude.
From Stdlib Require Import QArith Qround Qabs Lqa.
Local Open Scope Z_scope.

(** ** Numbers *)

Inductive jsnum := Fin (q : Q) | PInf | NInf | NaN.

(** [Math.round]: halves up. *)
Definition js_round (q : Q) : Z := Qfloor (q + (1 # 2)).

Definition int (z : Z) : jsnum := Fin (inject_Z z).

Definition xround (a : jsnum) : jsnum := match a with Fin q => int (js_round q) | _ => a end.

Definition xneg (a : jsnum) : jsnum :=
  match a with Fin q => Fin (- q) | PInf => NInf | NInf => PInf | NaN => NaN end.

Definition xadd (a b : jsnum) : jsnum :=
  match a, b with
  | Fin p, Fin q => Fin (p + q)
  | NaN, _ | _, NaN | PInf, NInf | NInf, PInf => NaN
  | PInf, _ | _, PInf => PInf
  | NInf, _ | _, NInf => NInf
  end.

Definition xsub (a b : jsnum) : jsnum := xadd a (xneg b).

(** An infinity with the sign of a number. *)
Definition signed_inf (q : Q) : jsnum :=
  match Qcompare q 0 with Eq => NaN | Gt => PInf | Lt => NInf end.

Definition xmul (a b : jsnum) : jsnum :=
  match a, b with
  | Fin p, Fin q => Fin (p * q)
  | NaN, _ | _, NaN => NaN
  | PInf, Fin q | Fin q, PInf => signed_inf q
  | NInf, Fin q | Fin q, NInf => xneg (signed_inf q)
  | PInf, PInf | NInf, NInf => PInf
  | PInf, NInf | NInf, PInf => NInf
  end.

Definition xdiv (a b : jsnum) : jsnum :=
  match a, b with
  | Fin p, Fin q => if Qeq_bool q 0 then signed_inf p else Fin (p / q)
  | NaN, _ | _, NaN => NaN
  | Fin _, _ => Fin 0
  | PInf, Fin q => if Qle_bool 0 q then PInf else NInf
  | NInf, Fin q => if Qle_bool 0 q then NInf else PInf
  | _, _ => NaN
  end.

(** [a < b] and [a <= b]: false when one is [NaN]. *)
Definition xltb (a b : jsnum) : bool :=
  match a, b with
  | Fin p, Fin q => negb (Qle_bool q p)
  | NInf, Fin _ | NInf, PInf | Fin _, PInf => true
  | _, _ => false
  end.

Definition xleb (a b : jsnum) : bool :=
  match a, b with
  | NaN, _ | _, NaN => false
  | _, _ => negb (xltb b a)
  end.

(** ** The surroundings *)

Inductive axis := Horizontal | Vertical.

Definition along {A} (a : axis) (p : A * A) : A := match a with Horizontal => p.1 | Vertical => p.2 end.

Record env := Env {
  calc : bool;              (** [_docType === 'spreadsheet'] *)
  desktop : bool;
  mobile : bool;
  rtl : bool;               (** [isCalcRTL] *)
  fileBased : bool;
  dpiScale : Q;
  roundedDpiScale : Z;
  anchorTopLeft : Z * Z;    (** the section the document is in *)
  anchorSize : Z * Z;
  secSize : Z * Z;          (** this section *)
  splitPos : option (Q * Q); (** of the frozen panes, in pixels of CSS *)
  viewSize : Z * Z;         (** [app.view.size.pixels] *)
  mapSize : Z * Z;          (** in pixels of CSS *)
  pixelsToTwips : Q;
  draggingSomething : bool;
  otherAnimates : bool;     (** another section animates *)
  cursorMarker : bool;
  tilesTargeted : bool;     (** [targetBoundSectionListContains] the tiles *)
  positionOnMouseDown : Z * Z;
  positionOnMouseUp : Z * Z
}.

(** [getPixelBoundsCore().getSize().x] *)
Definition docWidth (e : env) : Q := (inject_Z (mapSize e).1 * dpiScale e)%Q.

Definition usableThickness (e : env) : Z := 20 * roundedDpiScale e.
Definition scrollBarThickness (e : env) : Z := 6 * roundedDpiScale e.
Definition railwayThickness (e : env) : Z := 12 * roundedDpiScale e.
Definition minimumScrollSize (e : env) : Z := 80 * roundedDpiScale e.
Definition circleSliderRadius (e : env) : Z := 24 * roundedDpiScale e.
Definition horizontalScrollRightOffset (e : env) : Z := usableThickness e * 2.
Definition edgeOffset : Z := 0.
Definition alphaWhenVisible : Q := 1 # 2.
Definition alphaWhenBeingUsed : Q := 4 # 5.
Definition idleDuration : Q := 2000.
Definition fadeOutStartingTime : Q := 1800.
Definition fadeOutDuration : Q := idleDuration - fadeOutStartingTime.

(** ** The state *)

(** What waits for the timer of a quick scroll: the point, [originalSign] and [sign]. *)
Record quick := Quick { q_point : Z * Z; originalSign : option Z; q_sign : Z }.

Record bar := Bar {
  bmin : Z;                 (** [yMin] *)
  bmax : Z;                 (** [yMax] *)
  boffset : Z;              (** [yOffset] *)
  drawBar : bool;           (** [drawVerticalScrollBar] *)
  clickScroll : bool;
  mouseIsOn : bool;
  animatingBar : bool;
  pointerSync : bool;
  quickTimer : option quick
}.

(** What is called, in order. *)
Inductive effect :=
  | PauseDrawing | ResumeDrawing
  | RefreshViewData | UpdateScrollLimit | CheckSelectedPart
  | RequestReDraw | StartAnimating | ResetAnimation | StopAnimating
  | SetMouseCursor | StopPropagation
  | PostMouse (kind : string) (x y : Z)
  | FillRect (alpha : Q) (x y w h : jsnum)
  | Circle (alpha : Q) (x : Q) (y : jsnum).

Record scroll := Scroll {
  vertical : bar;
  horizontal : bar;
  css : Z * Z;                              (** top left of the map, in pixels of CSS *)
  stepByStepScrolling : bool;
  pendingScrollEvent : option (Z * Z);
  drawingAllowed : bool;
  autoScrollTimer : option (Z * Z);         (** the velocity it scrolls with *)
  isAutoScrolling : bool;
  previousDragDistance : option (Z * Z);
  pointerReCaptureSpacer : jsnum;           (** [null] counts as 0 *)
  isAnimating : bool;
  currentAlpha : Q;
  scrollingIsHandled : bool;
  preventSelect : bool;
  pointerStyle : bool;                      (** the cursor is ['pointer'] *)
  map_mouseDown : bool;
  log : list effect
}.

Definition set_bar (a : axis) (b : bar) (s : scroll) : scroll :=
  Scroll (match a with Vertical => b | Horizontal => vertical s end)
    (match a with Vertical => horizontal s | Horizontal => b end)
    (css s) (stepByStepScrolling s) (pendingScrollEvent s) (drawingAllowed s)
    (autoScrollTimer s) (isAutoScrolling s) (previousDragDistance s) (pointerReCaptureSpacer s)
    (isAnimating s) (currentAlpha s) (scrollingIsHandled s) (preventSelect s) (pointerStyle s)
    (map_mouseDown s) (log s).

Definition get_bar (a : axis) (s : scroll) : bar :=
  match a with Vertical => vertical s | Horizontal => horizontal s end.

Definition alter_bar (f : bar -> bar) (a : axis) (s : scroll) : scroll := set_bar a (f (get_bar a s)) s.

Definition set_range (lo hi : Z) (b : bar) : bar :=
  Bar lo hi (boffset b) (drawBar b) (clickScroll b) (mouseIsOn b) (animatingBar b) (pointerSync b) (quickTimer b).
Definition set_boffset (o : Z) (b : bar) : bar :=
  Bar (bmin b) (bmax b) o (drawBar b) (clickScroll b) (mouseIsOn b) (animatingBar b) (pointerSync b) (quickTimer b).
Definition set_drawBar (d : bool) (b : bar) : bar :=
  Bar (bmin b) (bmax b) (boffset b) d (clickScroll b) (mouseIsOn b) (animatingBar b) (pointerSync b) (quickTimer b).
Definition set_clickScroll (c : bool) (b : bar) : bar :=
  Bar (bmin b) (bmax b) (boffset b) (drawBar b) c (mouseIsOn b) (animatingBar b) (pointerSync b) (quickTimer b).
Definition set_mouseIsOn (m : bool) (b : bar) : bar :=
  Bar (bmin b) (bmax b) (boffset b) (drawBar b) (clickScroll b) m (animatingBar b) (pointerSync b) (quickTimer b).
Definition set_animatingBar (m : bool) (b : bar) : bar :=
  Bar (bmin b) (bmax b) (boffset b) (drawBar b) (clickScroll b) (mouseIsOn b) m (pointerSync b) (quickTimer b).
Definition set_pointerSync (m : bool) (b : bar) : bar :=
  Bar (bmin b) (bmax b) (boffset b) (drawBar b) (clickScroll b) (mouseIsOn b) (animatingBar b) m (quickTimer b).
Definition set_quickTimer (t : option quick) (b : bar) : bar :=
  Bar (bmin b) (bmax b) (boffset b) (drawBar b) (clickScroll b) (mouseIsOn b) (animatingBar b) (pointerSync b) t.

Definition set_css (c : Z * Z) (s : scroll) : scroll :=
  Scroll (vertical s) (horizontal s) c (stepByStepScrolling s) (pendingScrollEvent s) (drawingAllowed s)
    (autoScrollTimer s) (isAutoScrolling s) (previousDragDistance s) (pointerReCaptureSpacer s)
    (isAnimating s) (currentAlpha s) (scrollingIsHandled s) (preventSelect s) (pointerStyle s)
    (map_mouseDown s) (log s).
Definition set_stepByStep (b : bool) (s : scroll) : scroll :=
  Scroll (vertical s) (horizontal s) (css s) b (pendingScrollEvent s) (drawingAllowed s)
    (autoScrollTimer s) (isAutoScrolling s) (previousDragDistance s) (pointerReCaptureSpacer s)
    (isAnimating s) (currentAlpha s) (scrollingIsHandled s) (preventSelect s) (pointerStyle s)
    (map_mouseDown s) (log s).
Definition set_pending (p : option (Z * Z)) (s : scroll) : scroll :=
  Scroll (vertical s) (horizontal s) (css s) (stepByStepScrolling s) p (drawingAllowed s)
    (autoScrollTimer s) (isAutoScrolling s) (previousDragDistance s) (pointerReCaptureSpacer s)
    (isAnimating s) (currentAlpha s) (scrollingIsHandled s) (preventSelect s) (pointerStyle s)
    (map_mouseDown s) (log s).
Definition set_allowed (d : bool) (s : scroll) : scroll :=
  Scroll (vertical s) (horizontal s) (css s) (stepByStepScrolling s) (pendingScrollEvent s) d
    (autoScrollTimer s) (isAutoScrolling s) (previousDragDistance s) (pointerReCaptureSpacer s)
    (isAnimating s) (currentAlpha s) (scrollingIsHandled s) (preventSelect s) (pointerStyle s)
    (map_mouseDown s) (log s).
Definition set_auto (t : option (Z * Z)) (b : bool) (s : scroll) : scroll :=
  Scroll (vertical s) (horizontal s) (css s) (stepByStepScrolling s) (pendingScrollEvent s) (drawingAllowed s)
    t b (previousDragDistance s) (pointerReCaptureSpacer s)
    (isAnimating s) (currentAlpha s) (scrollingIsHandled s) (preventSelect s) (pointerStyle s)
    (map_mouseDown s) (log s).
Definition set_drag (d : option (Z * Z)) (s : scroll) : scroll :=
  Scroll (vertical s) (horizontal s) (css s) (stepByStepScrolling s) (pendingScrollEvent s) (drawingAllowed s)
    (autoScrollTimer s) (isAutoScrolling s) d (pointerReCaptureSpacer s)
    (isAnimating s) (currentAlpha s) (scrollingIsHandled s) (preventSelect s) (pointerStyle s)
    (map_mouseDown s) (log s).
Definition set_spacer (n : jsnum) (s : scroll) : scroll :=
  Scroll (vertical s) (horizontal s) (css s) (stepByStepScrolling s) (pendingScrollEvent s) (drawingAllowed s)
    (autoScrollTimer s) (isAutoScrolling s) (previousDragDistance s) n
    (isAnimating s) (currentAlpha s) (scrollingIsHandled s) (preventSelect s) (pointerStyle s)
    (map_mouseDown s) (log s).
Definition set_isAnimating (b : bool) (s : scroll) : scroll :=
  Scroll (vertical s) (horizontal s) (css s) (stepByStepScrolling s) (pendingScrollEvent s) (drawingAllowed s)
    (autoScrollTimer s) (isAutoScrolling s) (previousDragDistance s) (pointerReCaptureSpacer s)
    b (currentAlpha s) (scrollingIsHandled s) (preventSelect s) (pointerStyle s)
    (map_mouseDown s) (log s).
Definition set_alpha (q : Q) (s : scroll) : scroll :=
  Scroll (vertical s) (horizontal s) (css s) (stepByStepScrolling s) (pendingScrollEvent s) (drawingAllowed s)
    (autoScrollTimer s) (isAutoScrolling s) (previousDragDistance s) (pointerReCaptureSpacer s)
    (isAnimating s) q (scrollingIsHandled s) (preventSelect s) (pointerStyle s)
    (map_mouseDown s) (log s).
Definition set_handled (b : bool) (s : scroll) : scroll :=
  Scroll (vertical s) (horizontal s) (css s) (stepByStepScrolling s) (pendingScrollEvent s) (drawingAllowed s)
    (autoScrollTimer s) (isAutoScrolling s) (previousDragDistance s) (pointerReCaptureSpacer s)
    (isAnimating s) (currentAlpha s) b (preventSelect s) (pointerStyle s)
    (map_mouseDown s) (log s).
Definition set_preventSelect (b : bool) (s : scroll) : scroll :=
  Scroll (vertical s) (horizontal s) (css s) (stepByStepScrolling s) (pendingScrollEvent s) (drawingAllowed s)
    (autoScrollTimer s) (isAutoScrolling s) (previousDragDistance s) (pointerReCaptureSpacer s)
    (isAnimating s) (currentAlpha s) (scrollingIsHandled s) b (pointerStyle s)
    (map_mouseDown s) (log s).
Definition set_pointerStyle (b : bool) (s : scroll) : scroll :=
  Scroll (vertical s) (horizontal s) (css s) (stepByStepScrolling s) (pendingScrollEvent s) (drawingAllowed s)
    (autoScrollTimer s) (isAutoScrolling s) (previousDragDistance s) (pointerReCaptureSpacer s)
    (isAnimating s) (currentAlpha s) (scrollingIsHandled s) (preventSelect s) b
    (map_mouseDown s) (log s).
Definition set_mouseDown (b : bool) (s : scroll) : scroll :=
  Scroll (vertical s) (horizontal s) (css s) (stepByStepScrolling s) (pendingScrollEvent s) (drawingAllowed s)
    (autoScrollTimer s) (isAutoScrolling s) (previousDragDistance s) (pointerReCaptureSpacer s)
    (isAnimating s) (currentAlpha s) (scrollingIsHandled s) (preventSelect s) (pointerStyle s)
    b (log s).
Definition does (f : effect) (s : scroll) : scroll :=
  Scroll (vertical s) (horizontal s) (css s) (stepByStepScrolling s) (pendingScrollEvent s) (drawingAllowed s)
    (autoScrollTimer s) (isAutoScrolling s) (previousDragDistance s) (pointerReCaptureSpacer s)
    (isAnimating s) (currentAlpha s) (scrollingIsHandled s) (preventSelect s) (pointerStyle s)
    (map_mouseDown s) (log s ++ [f]).

Definition new_bar (e : env) : bar := Bar 0 0 0 (desktop e) false false false true None.

(** The section after [onInitialize]. *)
Definition onInitialize (e : env) (at_ : Z * Z) : scroll :=
  Scroll (new_bar e) (new_bar e) at_ false None true None false None (int 0) false 1 false false false false [].

(** [documentTopLeft]: the array of the container, which follows the map. *)
Definition documentTopLeft (e : env) (s : scroll) : Z * Z :=
  (js_round (dpiScale e * inject_Z (css s).1), js_round (dpiScale e * inject_Z (css s).2)).

(** A handler and whether it raised an error. *)
Definition outcome : Type := scroll * bool.
Definition andThen (o : outcome) (f : scroll -> outcome) : outcome := if o.2 then o else f o.1.
Notation "'then!' s := o 'in' b" := (andThen o (fun s => b))
  (at level 10, s name, o at level 200, b at level 200).

(** ** The map (Scroll.js) *)

(** [L.Point.round] of a movement.  An infinite movement does not occur: [scrollWithOffset]
    keeps between finite limits.  [NaN] is no movement ([!offset.x]). *)
Definition movement (a : jsnum) : Z := match xround a with Fin q => Qfloor q | _ => 0 end.

Definition panBy (dx dy : jsnum) (s : scroll) : scroll :=
  set_css ((css s).1 + movement dx, (css s).2 + movement dy) s.

Definition scrollOffset (s : scroll) : Z * Z := (if (css s).1 <? 0 then 0 else (css s).1, (css s).2).

Definition map_scroll (x y : jsnum) (s : scroll) : scroll := panBy x y s.
Definition scrollTop (y : Z) (s : scroll) : scroll := panBy (int 0) (int (y - (scrollOffset s).2)) s.
Definition scrollLeft (x : Z) (s : scroll) : scroll := panBy (int (x - (scrollOffset s).1)) (int 0) s.

(** ** Requests to scroll *)

Definition onScrollTo (x y : Z) (force : bool) (s : scroll) : scroll :=
  if negb force && negb (drawingAllowed s) then set_pending (Some (x, y)) s
  else scrollLeft x (scrollTop y s).

Definition completePendingScroll (s : scroll) : scroll :=
  match pendingScrollEvent s with
  | Some (x, y) => set_pending None (onScrollTo x y true s)
  | None => s
  end.

Definition onUpdateScrollOffset (e : env) (s : scroll) : scroll :=
  if calc e then does UpdateScrollLimit (does RefreshViewData s) else s.

(** What [pauseDrawing] and [resumeDrawing] come to here: when nothing else pauses drawing, a
    scroll that was put off is done. *)
Definition paused (f : scroll -> scroll) (s : scroll) : scroll :=
  let allowed := drawingAllowed s in
  let s := does ResumeDrawing (set_allowed allowed (f (does PauseDrawing (set_allowed false s)))) in
  if allowed then completePendingScroll s else s.

(** The movement within the limits, and whether there is one to make. *)
Definition limit (top lo hi : Z) (offset : jsnum) : jsnum * bool :=
  if xltb (int 0) offset then
    let offset := if xltb (int hi) (xadd (int top) offset) then int (hi - top) else offset in
    (offset, negb (xleb offset (int 0)))
  else
    let offset := if xltb (xadd (int top) offset) (int lo) then int (lo - top) else offset in
    (offset, negb (xleb (int 0) offset)).

Definition scrollVerticalWithOffset (e : env) (offset : jsnum) (s : scroll) : scroll :=
  let '(offset, go) := limit (documentTopLeft e s).2 (bmin (vertical s)) (bmax (vertical s)) offset in
  if go then
    let s := paused (fun s => onUpdateScrollOffset e (map_scroll (int 0) (xdiv offset (Fin (dpiScale e))) s)) s in
    if fileBased e then does CheckSelectedPart s else s
  else s.

Definition scrollHorizontalWithOffset (e : env) (offset : jsnum) (s : scroll) : scroll :=
  let offset := if rtl e then xneg offset else offset in
  let '(offset, go) := limit (documentTopLeft e s).1 (bmin (horizontal s)) (bmax (horizontal s)) offset in
  if go then
    paused (fun s => onUpdateScrollOffset e (map_scroll (xdiv offset (Fin (dpiScale e))) (int 0) s)) s
  else s.

Definition scrollWithOffset (a : axis) : env -> jsnum -> scroll -> scroll :=
  match a with Vertical => scrollVerticalWithOffset | Horizontal => scrollHorizontalWithOffset end.

(** The distance of [onScrollBy], cut to what is left before the document begins. *)
Definition toOrigin (e : env) (top : Z) (d : Q) : Q :=
  if top + js_round (d * dpiScale e) <? 0 then inject_Z (js_round (inject_Z (-1 * top) / dpiScale e)) else d.

Definition onScrollBy (e : env) (x y : Q) (s : scroll) : scroll :=
  if negb (calc e) then
    scrollHorizontalWithOffset e (Fin x) (scrollVerticalWithOffset e (Fin y) s)
  else
    let docTopLef := documentTopLeft e s in
    if negb (Qle_bool 0 y) && (docTopLef.2 =? 0) then s
    else if negb (Qle_bool 0 x) && (docTopLef.1 =? 0) then s
    else
      let y := toOrigin e docTopLef.2 y in
      let x := toOrigin e docTopLef.1 x in
      panBy (Fin x) (Fin y) s.

(** ** Scrolling by itself *)

Definition onScrollVelocity (vx vy : Z) (s : scroll) : scroll :=
  if (vx =? 0) && (vy =? 0) then set_auto None false s
  else set_auto (Some (vx, vy)) true s.

(** A position of the mouse in twips of the document. *)
Definition to_twips (e : env) (x y : Z) (s : scroll) : Z * Z :=
  let at_ (p top : Z) := (inject_Z p * dpiScale e + inject_Z top)%Q in
  (js_round (at_ x (documentTopLeft e s).1 * pixelsToTwips e),
   js_round (at_ y (documentTopLeft e s).2 * pixelsToTwips e)).

(** The mouse drags in the tiles of a spreadsheet. *)
Definition selecting (e : env) (s : scroll) : bool :=
  map_mouseDown s && tilesTargeted e && desktop e && draggingSomething e && calc e.

(** The interval of [onScrollVelocity]. *)
Definition autoScroll (e : env) (s : scroll) : scroll :=
  match autoScrollTimer s with
  | None => s
  | Some (vx, vy) =>
      let s := onScrollBy e (inject_Z vx) (inject_Z vy) s in
      if selecting e s then
        let temp := positionOnMouseDown e in
        let tempPos := to_twips e (if rtl e then (mapSize e).1 - temp.1 else temp.1) temp.2 s in
        does (PostMouse "move" tempPos.1 tempPos.2) s
      else s
  end.

Definition onHandleAutoScroll (e : env) (pos : Z * Z) (s : scroll) : scroll :=
  let vy := if (mapSize e).2 - 50 <? pos.2 then 50
            else if (pos.2 <? 50) && (50 <? (css s).2) then -50 else 0 in
  let mousePosX := if rtl e then (mapSize e).1 - pos.1 else pos.1 in
  let mapLeft := if rtl e then (mapSize e).1 - (css s).1 else (css s).1 in
  let vx := if (mapSize e).1 - 50 <? mousePosX then 50
            else if (mousePosX <? 50) && (50 <? mapLeft) then -50 else 0 in
  onScrollVelocity vx vy s.

(** ** The size and place of a bar *)

Record scrollProps := Props {
  scrollLength : Z;         (** of the railway the bar moves on *)
  scrollSize : jsnum;       (** of the bar *)
  ratio : jsnum;            (** pixels of the document for one of the bar *)
  start : jsnum;            (** [startX] or [startY] *)
  scrollStep : Q
}.

(** The frozen rows and columns, in pixels. *)
Definition splitPixels (e : env) : Z * Z :=
  match splitPos e with
  | Some (x, y) => (js_round (x * dpiScale e), js_round (y * dpiScale e))
  | None => (0, 0)
  end.

Definition getVerticalScrollLength (e : env) (s : scroll) : scroll * Z :=
  let result := (anchorSize e).2 in
  let yOffset := (anchorTopLeft e).2 in
  if negb (calc e) then (alter_bar (set_boffset yOffset) Vertical s, result)
  else (alter_bar (set_boffset (yOffset + (splitPixels e).2)) Vertical s, result - (splitPixels e).2).

Definition getHorizontalScrollLength (e : env) (s : scroll) : scroll * Z :=
  let result := (anchorSize e).1 in
  let xOffset := (anchorTopLeft e).1 in
  if negb (calc e) then
    (alter_bar (set_boffset xOffset) Horizontal s, result - horizontalScrollRightOffset e)
  else (alter_bar (set_boffset (xOffset + (splitPixels e).1)) Horizontal s,
        result - (splitPixels e).1 - horizontalScrollRightOffset e).

(** Rounded once more for the vertical bar, to no effect. *)
Definition calculateScrollSize (a : axis) (e : env) (len : Z) : jsnum :=
  xround (xdiv (int (len * len)) (int (along a (viewSize e)))).

Definition calculateMinMax (a : axis) (e : env) (s : scroll) : scroll :=
  let diff := along a (viewSize e) - along a (anchorSize e) in
  if 0 <=? diff then
    let s := alter_bar (set_range 0 diff) a s in
    if desktop e then alter_bar (set_drawBar true) a s else s
  else
    let half := js_round_div diff 2 in
    let s := alter_bar (set_range half half) a s in
    if (0 <? along a (viewSize e)) && (negb (calc e) || negb (desktop e))
    then alter_bar (set_drawBar false) a s else s.

Definition calculateYMinMax : env -> scroll -> scroll := calculateMinMax Vertical.
Definition calculateXMinMax : env -> scroll -> scroll := calculateMinMax Horizontal.

(** A bar that would be too small gets the least size, and a shorter railway. *)
Definition propsOf (a : axis) (e : env) (top offset len : Z) : scrollProps :=
  let size := calculateScrollSize a e len in
  let small := xltb size (int (minimumScrollSize e)) in
  let len := if small then match size with Fin q => len - (minimumScrollSize e - Qfloor q) | _ => len end else len in
  let size := if small then int (minimumScrollSize e) else size in
  let r := xdiv (int (along a (viewSize e))) (int len) in
  Props len size r (xround (xadd (xdiv (int top) r) (int offset))) (inject_Z (along a (secSize e)) / 2).

Definition getVerticalScrollProperties (e : env) (s : scroll) : scroll * scrollProps :=
  let s := calculateYMinMax e s in
  let '(s, len) := getVerticalScrollLength e s in
  (s, propsOf Vertical e (documentTopLeft e s).2 (boffset (vertical s)) len).

Definition getHorizontalScrollProperties (e : env) (s : scroll) : scroll * scrollProps :=
  let s := calculateXMinMax e s in
  let '(s, len) := getHorizontalScrollLength e s in
  (s, propsOf Horizontal e (documentTopLeft e s).1 (boffset (horizontal s)) len).

Definition getScrollProperties (a : axis) : env -> scroll -> scroll * scrollProps :=
  match a with Vertical => getVerticalScrollProperties | Horizontal => getHorizontalScrollProperties end.

(** The size a bar is drawn with, and where the horizontal one is drawn. *)
Definition sizeX (e : env) (p : scrollProps) : jsnum := xsub (scrollSize p) (int (scrollBarThickness e)).
Definition startX (e : env) (p : scrollProps) : jsnum :=
  if rtl e then xsub (xsub (Fin (docWidth e)) (start p)) (sizeX e p) else start p.

(** ** Showing and hiding *)

(** The container's [startAnimating]: one section animates at a time. *)
Definition startAnimating (e : env) (s : scroll) : scroll * bool :=
  if isAnimating s || otherAnimates e then (s, false)
  else (does StartAnimating (set_isAnimating true s), true).

Definition fadeOut (a : axis) (e : env) (s : scroll) : scroll :=
  if isAnimating s then alter_bar (set_animatingBar true) a (does ResetAnimation s)
  else let '(s, started) := startAnimating e s in alter_bar (set_animatingBar started) a s.

Definition fadeOutVerticalScrollBar : env -> scroll -> scroll := fadeOut Vertical.
Definition fadeOutHorizontalScrollBar : env -> scroll -> scroll := fadeOut Horizontal.

Definition hide (a : axis) (e : env) (s : scroll) : scroll :=
  if mouseIsOn (get_bar a s) then
    let s := set_pointerStyle false (alter_bar (set_mouseIsOn false) a s) in
    let s := if desktop e then s else fadeOut a e (alter_bar (set_drawBar false) a s) in
    if cursorMarker e then does SetMouseCursor s else s
  else s.

Definition hideVerticalScrollBar : env -> scroll -> scroll := hide Vertical.
Definition hideHorizontalScrollBar : env -> scroll -> scroll := hide Horizontal.

Definition show (a : axis) (e : env) (s : scroll) : scroll :=
  let s := if isAnimating s && animatingBar (get_bar a s) then does StopAnimating s else s in
  if negb (mouseIsOn (get_bar a s)) then
    let s := set_pointerStyle true (alter_bar (set_mouseIsOn true) a (alter_bar (set_drawBar true) a s)) in
    if negb (draggingSomething e) && negb (desktop e) then does RequestReDraw s else s
  else s.

Definition showVerticalScrollBar : env -> scroll -> scroll := show Vertical.
Definition showHorizontalScrollBar : env -> scroll -> scroll := show Horizontal.

(** Where a press or the mouse is on the place of a bar. *)
Definition onVerticalPlace (e : env) (s : scroll) (point : Z * Z) : bool :=
  ((negb (rtl e) && ((secSize e).1 - usableThickness e <=? point.1)) ||
   (rtl e && (point.1 <=? usableThickness e))) &&
  (boffset (vertical s) <? point.2).

Definition onHorizontalPlace (e : env) (s : scroll) (point : Z * Z) : bool :=
  ((secSize e).2 - usableThickness e <=? point.2) &&
  ((negb (rtl e) && (point.1 <=? (secSize e).1 - horizontalScrollRightOffset e) && (boffset (horizontal s) <=? point.1)) ||
   (rtl e && (horizontalScrollRightOffset e <=? point.1) && (boffset (horizontal s) <=? point.1))).

Definition isMouseOnScrollBar (e : env) (point : Z * Z) (s : scroll) : scroll :=
  let s := if 0 <=? (documentTopLeft e s).2 then
             if onVerticalPlace e s point then show Vertical e s else hide Vertical e s
           else s in
  if 0 <=? (documentTopLeft e s).1 then
    if onHorizontalPlace e s point then show Horizontal e s else hide Horizontal e s
  else s.

Definition onMouseLeave (e : env) (s : scroll) : scroll := hide Horizontal e (hide Vertical e s).

Definition onAnimationEnded (s : scroll) : scroll :=
  alter_bar (set_animatingBar false) Horizontal (alter_bar (set_animatingBar false) Vertical s).

(** The end of the animation: what the container does, and the handler. *)
Definition animationEnds (s : scroll) : scroll := onAnimationEnded (set_isAnimating false s).

(** ** Dragging *)

Definition isMouseInsideDocumentAnchor (e : env) (p : Z * Z) : bool :=
  ((anchorTopLeft e).1 <=? p.1) && (p.1 <=? (anchorTopLeft e).1 + (anchorSize e).1) &&
  (((anchorTopLeft e).2 <=? p.2) && (p.2 <=? (anchorTopLeft e).2 + (anchorSize e).2)).

(** Whether the pointer is still at the bar, or is again where it took it. *)
Definition pointerIsSync (a : axis) (e : env) (first size : jsnum) (position : Z * Z) (s : scroll) : bool :=
  let p := int (along a position) in
  if pointerSync (get_bar a s) then
    (xltb first p && xltb p (xadd first size)) || isMouseInsideDocumentAnchor e position
  else
    let spacer := pointerReCaptureSpacer s in
    if xltb first (int (30 * roundedDpiScale e + along a (anchorTopLeft e)))
    then xltb (xadd first spacer) p else xltb p (xadd first spacer).

Definition isMousePointerSync (a : axis) (e : env) (first size : jsnum) (position : Z * Z) (s : scroll) : scroll * bool :=
  if negb (desktop e) then (s, true)
  else let b := pointerIsSync a e first size position s in (alter_bar (set_pointerSync b) a s, b).

Definition isMousePointerSycnWithVerticalScrollBar (e : env) (p : scrollProps) : Z * Z -> scroll -> scroll * bool :=
  isMousePointerSync Vertical e (start p) (sizeX e p).

Definition isMousePointerSycnWithHorizontalScrollBar (e : env) (p : scrollProps) : Z * Z -> scroll -> scroll * bool :=
  isMousePointerSync Horizontal e (startX e p) (sizeX e p).

Definition clearQuickScrollTimeout (s : scroll) : scroll :=
  alter_bar (set_quickTimer None) Horizontal (alter_bar (set_quickTimer None) Vertical s).

Definition set_along (a : axis) (v : Z) (p : Z * Z) : Z * Z :=
  match a with Horizontal => (v, p.2) | Vertical => (p.1, v) end.

(** One movement of the mouse that drags a bar.  [None] is [null], which cannot be indexed. *)
Definition dragBar (a : axis) (e : env) (position : Z * Z) (dragDistance : option (Z * Z)) (s : scroll) : outcome :=
  let prev := default (0, 0) (previousDragDistance s) in
  let s := show a e (set_drag (Some prev) s) in
  let '(s, p) := getScrollProperties a e s in
  match dragDistance with
  | None => (s, true)
  | Some dist =>
      let diff := along a dist - along a prev in
      let diff := match a with Horizontal => if rtl e then -1 * diff else 1 * diff | Vertical => diff end in
      let actualDistance := xmul (ratio p) (int diff) in
      let '(s, sync) := match a with
                        | Vertical => isMousePointerSycnWithVerticalScrollBar e p position s
                        | Horizontal => isMousePointerSycnWithHorizontalScrollBar e p position s
                        end in
      let s := if sync then scrollWithOffset a e actualDistance s else s in
      (does StopPropagation (set_drag (Some (set_along a (along a dist) prev)) s), false)
  end.

Definition onMouseMove (e : env) (position : Z * Z) (dragDistance : option (Z * Z)) (s : scroll) : outcome :=
  let s := clearQuickScrollTimeout s in
  if clickScroll (vertical s) && draggingSomething e then dragBar Vertical e position dragDistance s
  else if clickScroll (horizontal s) && draggingSomething e then dragBar Horizontal e position dragDistance s
  else (isMouseOnScrollBar e position s, false).

(** ** Pressing the railway *)

(** Where the point is: after the bar, before it, or on it.  The vertical bar ends here with
    its whole size, the horizontal one with the size it is drawn with. *)
Definition side (first size : jsnum) (p : Z) : Z :=
  if xltb (int 0) (xsub (int p) (xadd first size)) then 1
  else if xltb (xsub (int p) first) (int 0) then -1 else 0.

Definition half : jsnum := Fin (1 # 2).

(** The distance to scroll at once, and the steps with their timer. *)
Definition quickScrollBy (a : axis) (e : env) (point : Z * Z) (orig : option Z) (p : scrollProps)
    (mid : jsnum) (sign : Z) (s : scroll) : scroll :=
  if stepByStepScrolling s then
    let offset := Fin (scrollStep p * inject_Z sign) in
    let s := alter_bar (set_quickTimer None) a s in
    let s := if clickScroll (get_bar a s)
             then alter_bar (set_quickTimer (Some (Quick point orig sign))) a s else s in
    scrollWithOffset a e offset s
  else
    scrollWithOffset a e (xround (xmul (xsub (int (along a point)) mid) (ratio p))) s.

Definition quickScrollVertical (e : env) (point : Z * Z) (orig : option Z) (s : scroll) : scroll :=
  if negb (desktop e) then s else
  let '(s, p) := getVerticalScrollProperties e (set_preventSelect true s) in
  let midY := xmul (xsub (xadd (xadd (start p) (start p)) (scrollSize p)) (int (scrollBarThickness e))) half in
  quickScrollBy Vertical e point orig p midY (side (start p) (scrollSize p) point.2) s.

Definition quickScrollHorizontal (e : env) (point : Z * Z) (orig : option Z) (s : scroll) : scroll :=
  if negb (desktop e) then s else
  let '(s, p) := getHorizontalScrollProperties e (set_preventSelect true s) in
  let midX := xadd (startX e p) (xmul (sizeX e p) half) in
  quickScrollBy Horizontal e point orig p midX (side (startX e p) (sizeX e p) point.1) s.

Definition quickScroll (a : axis) : env -> Z * Z -> option Z -> scroll -> scroll :=
  match a with Vertical => quickScrollVertical | Horizontal => quickScrollHorizontal end.

(** The timer of a quick scroll fires.  [!originalSign] holds of [undefined] and of 0. *)
Definition quickTimeout (a : axis) (e : env) (s : scroll) : scroll :=
  match quickTimer (get_bar a s) with
  | None => s
  | Some q =>
      let s := alter_bar (set_quickTimer None) a s in
      if match originalSign q with None => true | Some o => (o =? 0) || (o =? q_sign q) end
      then quickScroll a e (q_point q) (Some (q_sign q)) s else s
  end.

Definition getLocalYOnVerticalScrollBar (e : env) (point : Z * Z) (s : scroll) : scroll * jsnum :=
  let '(s, p) := getVerticalScrollProperties e s in (s, xsub (int point.2) (start p)).

Definition getLocalXOnHorizontalScrollBar (e : env) (point : Z * Z) (s : scroll) : scroll * jsnum :=
  let '(s, p) := getHorizontalScrollProperties e s in (s, xsub (int point.1) (start p)).

Definition getLocal (a : axis) : env -> Z * Z -> scroll -> scroll * jsnum :=
  match a with Vertical => getLocalYOnVerticalScrollBar | Horizontal => getLocalXOnHorizontalScrollBar end.

(** What a press on the place of a bar does. *)
Definition pressBar (a : axis) (e : env) (point : Z * Z) (s : scroll) : scroll :=
  let s := quickScroll a e point None (set_handled true (alter_bar (set_clickScroll true) a s)) in
  let '(s, spacer) := getLocal a e point s in
  does StopPropagation (set_spacer spacer s).

Definition onMouseDown (e : env) (point : Z * Z) (s : scroll) : outcome :=
  then! s := onMouseMove e point None (clearQuickScrollTimeout s) in
  let s := isMouseOnScrollBar e point s in
  let s := if 0 <=? (documentTopLeft e s).2 then
             if onVerticalPlace e s point then pressBar Vertical e point s
             else alter_bar (set_clickScroll false) Vertical s
           else s in
  let s := if 0 <=? (documentTopLeft e s).1 then
             if onHorizontalPlace e s point then pressBar Horizontal e point s
             else alter_bar (set_clickScroll false) Horizontal s
           else s in
  (s, false).

Definition releaseBar (a : axis) (s : scroll) : scroll :=
  alter_bar (set_pointerSync true) a (alter_bar (set_clickScroll false) a (does StopPropagation s)).

Definition onMouseUp (e : env) (point : Z * Z) (s : scroll) : outcome :=
  let s := clearQuickScrollTimeout (set_handled false (set_preventSelect false s)) in
  let s :=
    if clickScroll (vertical s) then releaseBar Vertical s
    else if clickScroll (horizontal s) then releaseBar Horizontal s
    else if selecting e s then
      let tempPos := to_twips e (positionOnMouseUp e).1 (positionOnMouseUp e).2 s in
      does (PostMouse "buttonup" tempPos.1 tempPos.2) (set_mouseDown false (onScrollVelocity 0 0 s))
    else s in
  onMouseMove e point None (set_drag None s).

(** ** The wheel *)

Definition performScroll (a : axis) (e : env) (delta : Q) (s : scroll) : scroll :=
  let s := scrollWithOffset a e (Fin delta) s in
  if drawBar (get_bar a s) then s
  else if isAnimating s then alter_bar (set_animatingBar true) a (does ResetAnimation s)
  else fadeOut a e s.

Definition performVerticalScroll : env -> Q -> scroll -> scroll := performScroll Vertical.
Definition performHorizontalScroll : env -> Q -> scroll -> scroll := performScroll Horizontal.

Definition onMouseWheel (e : env) (delta : Q * Q) (ctrlKey shiftKey : bool) (s : scroll) : scroll :=
  if ctrlKey then s
  else if negb (Qle_bool (Qabs delta.2) (Qabs delta.1)) then
    if negb shiftKey then performVerticalScroll e delta.2 s else performHorizontalScroll e delta.2 s
  else performHorizontalScroll e delta.1 s.

(** ** Drawing *)

Definition Qmax (a b : Q) : Q := if Qle_bool a b then b else a.

Definition calculateCurrentAlpha (elapsed : Q) : Q :=
  if Qle_bool fadeOutStartingTime elapsed
  then Qmax ((1 - (elapsed - fadeOutStartingTime) / fadeOutDuration) * alphaWhenVisible) (1 # 10)
  else alphaWhenVisible.

Definition barAlpha (b : bar) (s : scroll) : Q :=
  if animatingBar b then currentAlpha s else if clickScroll b then alphaWhenBeingUsed else alphaWhenVisible.

Definition railwayAlpha (e : env) : Q := if calc e then 1 else 1 # 2.

Definition DrawVerticalScrollBarMobile (e : env) (s : scroll) : scroll :=
  let '(s, p) := getVerticalScrollProperties e s in
  does (Circle (barAlpha (vertical s) s)
          (inject_Z (secSize e).1 - inject_Z (circleSliderRadius e) * (1 # 2))
          (xadd (start p) (int (circleSliderRadius e)))) s.

Definition drawVerticalScrollBar (e : env) (s : scroll) : scroll :=
  let '(s, p) := getVerticalScrollProperties e s in
  let b := vertical s in
  let x := int (if rtl e then edgeOffset else (secSize e).1 - scrollBarThickness e - edgeOffset) in
  let s := does (FillRect (railwayAlpha e) x (int (bmin b + boffset b)) (int (railwayThickness e))
                   (int (bmax b - bmin b - boffset b))) s in
  does (FillRect (barAlpha b s) x (start p) (int (scrollBarThickness e)) (sizeX e p)) s.

Definition drawHorizontalScrollBar (e : env) (s : scroll) : scroll :=
  let '(s, p) := getHorizontalScrollProperties e s in
  let b := horizontal s in
  let y := int ((secSize e).2 - scrollBarThickness e - edgeOffset) in
  let s := does (FillRect (railwayAlpha e) (int (bmin b + boffset b)) y
                   (int (bmax b - bmin b - boffset b)) (int (railwayThickness e))) s in
  does (FillRect (barAlpha b s) (startX e p) y (sizeX e p) (int (scrollBarThickness e))) s.

(** [frameCount] is [None] when nothing animates: [undefined >= 0] is false. *)
Definition onDraw (e : env) (frameCount : option Z) (elapsed : Q) (s : scroll) : scroll :=
  let s := if isAnimating s && num_geb frameCount (Some 0)
           then set_alpha (calculateCurrentAlpha elapsed) s else s in
  let s := if drawBar (vertical s) || animatingBar (vertical s) then
             if mobile e then DrawVerticalScrollBarMobile e s else drawVerticalScrollBar e s
           else s in
  if drawBar (horizontal s) || animatingBar (horizontal s) then drawHorizontalScrollBar e s else s.

(** ** All that happens to the section *)

Inductive event :=
  | ScrollTo (x y : Z)
  | ScrollBy (x y : Q)
  | ScrollVelocity (vx vy : Z)
  | HandleAutoScroll (pos : Z * Z)
  | AutoScroll                              (** the interval *)
  | ScrollWithOffset (a : axis) (offset : jsnum)
  | UpdateScrollOffset
  | Pause                                   (** somebody pauses drawing *)
  | Resume                                  (** the last pause ends *)
  | MouseMove (position : Z * Z) (dragDistance : option (Z * Z))
  | MouseDown (point : Z * Z)
  | MouseUp (point : Z * Z)
  | MouseLeave
  | MouseWheel (delta : Q * Q) (ctrl shift : bool)
  | QuickTimeout (a : axis)
  | Draw (frameCount : option Z) (elapsed : Q)
  | AnimationEnds
  | StepByStep.                             (** of CalcTileLayer.js *)

Definition handle (e : env) (ev : event) (s : scroll) : outcome :=
  match ev with
  | ScrollTo x y => (onScrollTo x y false s, false)
  | ScrollBy x y => (onScrollBy e x y s, false)
  | ScrollVelocity vx vy => (onScrollVelocity vx vy s, false)
  | HandleAutoScroll pos => (onHandleAutoScroll e pos s, false)
  | AutoScroll => (autoScroll e s, false)
  | ScrollWithOffset a offset => (scrollWithOffset a e offset s, false)
  | UpdateScrollOffset => (onUpdateScrollOffset e s, false)
  | Pause => (set_allowed false s, false)
  | Resume => (completePendingScroll (set_allowed true s), false)
  | MouseMove p d => onMouseMove e p d s
  | MouseDown p => onMouseDown e p s
  | MouseUp p => onMouseUp e p s
  | MouseLeave => (onMouseLeave e s, false)
  | MouseWheel d c sh => (onMouseWheel e d c sh s, false)
  | QuickTimeout a => (quickTimeout a e s, false)
  | Draw f t => (onDraw e f t s, false)
  | AnimationEnds => (animationEnds s, false)
  | StepByStep => (set_stepByStep true s, false)
  end.

(** ** Rounding and limits *)

#[export] Instance js_round_proper : Proper (Qeq ==> eq) js_round.
Proof. intros p q H. unfold js_round. apply Qfloor_comp. by rewrite H. Qed.

Lemma js_round_bounds q : (q - (1 # 2) < inject_Z (js_round q) <= q + (1 # 2))%Q.
Proof.
  unfold js_round. pose proof (Qfloor_le (q + (1 # 2))). pose proof (Qlt_floor (q + (1 # 2))) as H1.
  rewrite inject_Z_plus in H1. change (inject_Z 1) with 1%Q in H1. split; [lra|done].
Qed.

Lemma js_round_unique q z : (q - (1 # 2) < inject_Z z <= q + (1 # 2))%Q -> js_round q = z.
Proof.
  intros [H1 H2]. pose proof (js_round_bounds q) as [H3 H4].
  assert (inject_Z (js_round q) < inject_Z (z + 1))%Q as H5 by (rewrite inject_Z_plus; change (inject_Z 1) with 1%Q; lra).
  assert (inject_Z z < inject_Z (js_round q + 1))%Q as H6 by (rewrite inject_Z_plus; change (inject_Z 1) with 1%Q; lra).
  rewrite <- Zlt_Qlt in H5, H6. lia.
Qed.

Lemma js_round_int z : js_round (inject_Z z) = z.
Proof. apply js_round_unique. split; lra. Qed.

Lemma js_round_add z q : js_round (inject_Z z + q) = z + js_round q.
Proof.
  apply js_round_unique. pose proof (js_round_bounds q). rewrite inject_Z_plus. split; lra.
Qed.

Lemma js_round_le p q : (p <= q)%Q -> js_round p <= js_round q.
Proof. intros. apply Qfloor_resp_le. lra. Qed.

Lemma movement_fin q : movement (Fin q) = js_round q.
Proof. apply (Qfloor_Z (js_round q)). Qed.

Lemma xadd_int a b : xadd (int a) (int b) = int (a + b).
Proof. unfold int, inject_Z. cbn. unfold Qplus. cbn. by rewrite !Z.mul_1_r. Qed.

Lemma xltb_int a b : xltb (int a) (int b) = (a <? b).
Proof.
  unfold int, xltb. destruct (Z.ltb_spec a b) as [H|H].
  - apply negb_true_iff, not_true_iff_false. rewrite Qle_bool_iff, <- Zle_Qle. lia.
  - apply negb_false_iff, Qle_bool_iff. rewrite <- Zle_Qle. lia.
Qed.

Lemma xltb_fin p q : xltb (Fin p) (Fin q) = true <-> (p < q)%Q.
Proof.
  cbn. rewrite negb_true_iff, <- not_true_iff_false, Qle_bool_iff. split; [apply Qnot_le_lt|apply Qlt_not_le].
Qed.

Lemma xltb_fin_false p q : xltb (Fin p) (Fin q) = false <-> (q <= p)%Q.
Proof. cbn. rewrite negb_false_iff. apply Qle_bool_iff. Qed.

Lemma xleb_fin p q : xleb (Fin p) (Fin q) = true <-> (p <= q)%Q.
Proof. unfold xleb. rewrite negb_true_iff. apply xltb_fin_false. Qed.

Lemma xleb_fin_false p q : xleb (Fin p) (Fin q) = false <-> (q < p)%Q.
Proof. unfold xleb. rewrite negb_false_iff. apply xltb_fin. Qed.

(** ** What a scroll comes to *)

Definition Qmin (a b : Q) : Q := if Qle_bool a b then a else b.

(** Where a scroll is to arrive: as far as it goes within the limits, and never back. *)
Definition target (top lo hi : Q) (offset : jsnum) : Q :=
  match offset with
  | Fin q => if xltb (Fin 0) (Fin q) then Qmax top (Qmin (top + q) hi) else Qmin top (Qmax (top + q) lo)
  | PInf => Qmax top hi
  | NInf => Qmin top lo
  | NaN => top
  end.

Lemma Qmax_case a b : ((Qmax a b == b)%Q /\ (a <= b)%Q) \/ ((Qmax a b == a)%Q /\ (b < a)%Q).
Proof.
  unfold Qmax. destruct (Qle_bool a b) eqn:E; [left|right]; (split; [reflexivity|]).
  - by apply Qle_bool_iff.
  - apply Qnot_le_lt. rewrite <- Qle_bool_iff. by rewrite E.
Qed.

Lemma Qmin_case a b : ((Qmin a b == a)%Q /\ (a <= b)%Q) \/ ((Qmin a b == b)%Q /\ (b < a)%Q).
Proof.
  unfold Qmin. destruct (Qle_bool a b) eqn:E; [left|right]; (split; [reflexivity|]).
  - by apply Qle_bool_iff.
  - apply Qnot_le_lt. rewrite <- Qle_bool_iff. by rewrite E.
Qed.

(** Decide the comparisons of [limit]. *)
Ltac case_lt :=
  repeat match goal with
  | |- context [xltb (Fin ?a) (Fin ?b)] =>
      let E := fresh "E" in destruct (xltb (Fin a) (Fin b)) eqn:E; [apply xltb_fin in E|apply xltb_fin_false in E]
  | |- context [xleb (Fin ?a) (Fin ?b)] =>
      let E := fresh "E" in destruct (xleb (Fin a) (Fin b)) eqn:E; [apply xleb_fin in E|apply xleb_fin_false in E]
  end.

(** The movement that is made, and that is 0 when none is. *)
Definition made (r : jsnum * bool) : jsnum := if r.2 then r.1 else Fin 0.

(** Case analysis on the least and greatest of two numbers, innermost first. *)
Ltac atomic q := lazymatch q with context [Qmin _ _] => fail | context [Qmax _ _] => fail | _ => idtac end.
Ltac split_cases :=
  repeat match goal with
  | |- context [Qmin ?a ?b] =>
      atomic a; atomic b;
      let m := fresh "m" in pose proof (Qmin_case a b); generalize dependent (Qmin a b); intros m [[? ?]|[? ?]]
  | |- context [Qmax ?a ?b] =>
      atomic a; atomic b;
      let m := fresh "m" in pose proof (Qmax_case a b); generalize dependent (Qmax a b); intros m [[? ?]|[? ?]]
  end.

Lemma limit_target top lo hi o :
  o <> NaN -> exists q, made (limit top lo hi o) = Fin q /\
  (inject_Z top + q == target (inject_Z top) (inject_Z lo) (inject_Z hi) o)%Q.
Proof.
  intros Ho. unfold made, limit, int, target.
  destruct o as [q| | |]; [| | |done]; cbn [xadd]; change (inject_Z 0) with 0%Q.
  - case_lt; cbn [fst snd]; case_lt; cbn [negb]; eexists; (split; [reflexivity|]).
    all: unfold Zminus in *; rewrite ?inject_Z_plus, ?inject_Z_opp in *; split_cases; lra.
  - change (xltb (Fin 0) PInf) with true. change (xltb (Fin (inject_Z hi)) PInf) with true. cbn iota.
    case_lt; cbn [fst snd]; case_lt; cbn [negb]; eexists; (split; [reflexivity|]).
    all: unfold Zminus in *; rewrite ?inject_Z_plus, ?inject_Z_opp in *; split_cases; lra.
  - change (xltb (Fin 0) NInf) with false. change (xltb NInf (Fin (inject_Z lo))) with true. cbn iota.
    case_lt; cbn [fst snd]; case_lt; cbn [negb]; eexists; (split; [reflexivity|]).
    all: unfold Zminus in *; rewrite ?inject_Z_plus, ?inject_Z_opp in *; split_cases; lra.
Qed.

(** No scroll is put off while drawing is allowed. *)
Definition settled (s : scroll) : Prop := drawingAllowed s = true -> pendingScrollEvent s = None.

Definition oriented (a : axis) (e : env) (o : jsnum) : jsnum :=
  match a with Horizontal => if rtl e then xneg o else o | Vertical => o end.

Definition limit_of (a : axis) (e : env) (o : jsnum) (s : scroll) : jsnum * bool :=
  limit (along a (documentTopLeft e s)) (bmin (get_bar a s)) (bmax (get_bar a s)) (oriented a e o).

Lemma paused_settled f s :
  settled s -> pendingScrollEvent (f (does PauseDrawing (set_allowed false s))) = pendingScrollEvent s ->
  paused f s = does ResumeDrawing (set_allowed (drawingAllowed s) (f (does PauseDrawing (set_allowed false s)))).
Proof.
  intros Hs Hp. unfold paused. destruct (drawingAllowed s) eqn:E; [|done].
  unfold completePendingScroll. cbn. by rewrite Hp, (Hs E).
Qed.

Lemma xdiv_fin p q : (0 < q)%Q -> xdiv (Fin p) (Fin q) = Fin (p / q).
Proof.
  intros Hq. cbn. destruct (Qeq_bool q 0) eqn:E; [|done]. apply Qeq_bool_eq in E. lra.
Qed.

Lemma movement_0 : movement (int 0) = 0.
Proof. reflexivity. Qed.

(** A scroll moves the map by what [limit] leaves of it. *)
Lemma scroll_css a e o s q :
  settled s -> (0 < dpiScale e)%Q -> made (limit_of a e o s) = Fin q ->
  css (scrollWithOffset a e o s) = set_along a (along a (css s) + js_round (q / dpiScale e)) (css s).
Proof.
  intros Hs Hd Hm. unfold made, limit_of in Hm.
  destruct a; cbn [scrollWithOffset along set_along get_bar oriented] in *;
    unfold scrollHorizontalWithOffset, scrollVerticalWithOffset;
    destruct (limit _ _ _ _) as [o' [|]]; cbn [fst snd] in Hm.
  - subst o'. rewrite paused_settled; [|done|unfold onUpdateScrollOffset; by destruct (calc e)].
    rewrite xdiv_fin by done. unfold onUpdateScrollOffset; destruct (calc e); cbn -[movement js_round];
    rewrite movement_fin, movement_0; f_equal; lia.
  - replace q with 0%Q by congruence. unfold Qdiv; rewrite Qmult_0_l.
    change 0%Q with (inject_Z 0); rewrite js_round_int, Z.add_0_r. by destruct (css s).
  - subst o'. rewrite paused_settled; [|done|unfold onUpdateScrollOffset; by destruct (calc e)].
    rewrite xdiv_fin by done. unfold onUpdateScrollOffset; destruct (calc e), (fileBased e); cbn -[movement js_round];
    rewrite movement_fin, movement_0; f_equal; lia.
  - replace q with 0%Q by congruence. unfold Qdiv; rewrite Qmult_0_l.
    change 0%Q with (inject_Z 0); rewrite js_round_int, Z.add_0_r. by destruct (css s).
Qed.

Lemma oriented_number a e o : o <> NaN -> oriented a e o <> NaN.
Proof. destruct a; [|done]. cbn. destruct (rtl e), o; done. Qed.

(** C32: Scrolling by a distance, infinite ones included, goes as far as the limits of the
    document allow and never back: up to the rounding to pixels of CSS, and exactly when these
    are those of the canvas.  The other axis stays. *)
Theorem scroll_reaches a e o s :
  settled s -> (0 < dpiScale e)%Q -> o <> NaN ->
  let top := along a (documentTopLeft e s) in
  let goal := target (inject_Z top) (inject_Z (bmin (get_bar a s))) (inject_Z (bmax (get_bar a s))) (oriented a e o) in
  let s' := scrollWithOffset a e o s in
  css s' = set_along a (along a (css s')) (css s) /\
  (Qabs (inject_Z (along a (documentTopLeft e s')) - goal) <= dpiScale e * (1 # 2) + 1)%Q /\
  ((dpiScale e == 1)%Q -> along a (documentTopLeft e s') = js_round goal).
Proof.
  intros Hs Hd Ho top goal s'.
  destruct (limit_target top (bmin (get_bar a s)) (bmax (get_bar a s)) (oriented a e o)) as (q & Hq & Hg);
    [by apply oriented_number|].
  pose proof (scroll_css a e o s q Hs Hd Hq) as Hc. fold s' in Hc. fold goal in Hg.
  assert (forall s, along a (documentTopLeft e s) = js_round (dpiScale e * inject_Z (along a (css s)))) as Hdoc
    by (intros; by destruct a).
  assert (along a (css s') = along a (css s) + js_round (q / dpiScale e)) as Hk
    by (rewrite Hc; by destruct a).
  split; [by rewrite Hc; destruct a|]. rewrite Hdoc, Hk, inject_Z_plus. split.
  - subst top. rewrite Hdoc in Hg.
    pose proof (js_round_bounds (dpiScale e * (inject_Z (along a (css s)) + inject_Z (js_round (q / dpiScale e))))).
    pose proof (js_round_bounds (dpiScale e * inject_Z (along a (css s)))).
    pose proof (js_round_bounds (q / dpiScale e)) as Hr. rewrite <- Hg.
    set (k := inject_Z (js_round (q / dpiScale e))) in *.
    assert (dpiScale e * (q / dpiScale e) == q)%Q as Hdiv by (field; lra).
    apply Qabs_Qle_condition. generalize dependent (q / dpiScale e)%Q. intros x _ _ k ? Hr Hdiv.
    pose proof (Qmult_le_0_compat (dpiScale e) (x + (1 # 2) - k) ltac:(lra) ltac:(lra)).
    pose proof (Qmult_le_0_compat (dpiScale e) (k - x + (1 # 2)) ltac:(lra) ltac:(lra)).
    split; nra.
  - intros H1. subst top. rewrite Hdoc in Hg.
    assert (q / dpiScale e == q)%Q as E by (rewrite H1; field).
    rewrite (js_round_proper _ _ E).
    rewrite (js_round_proper (dpiScale e * inject_Z (along a (css s)))%Q (inject_Z (along a (css s)))), js_round_int in Hg
      by (rewrite H1; ring).
    rewrite <- (js_round_proper _ _ Hg), js_round_add.
    etransitivity; [|apply js_round_int]. apply js_round_proper. rewrite H1, inject_Z_plus. ring.
Qed.

(** ** Scrolling by itself in a spreadsheet *)

Lemma inject_nonneg z : (0 <= inject_Z z)%Q <-> 0 <= z.
Proof. change 0%Q with (inject_Z 0). by rewrite <- Zle_Qle. Qed.

(** What is left before the document begins is not overrun in pixels of CSS. *)
Lemma toOrigin_stays e c v :
  (1 <= dpiScale e)%Q -> 0 <= c ->
  0 <= c + movement (Fin (toOrigin e (js_round (dpiScale e * inject_Z c)) (inject_Z v))).
Proof.
  intros Hd Hc. rewrite movement_fin. unfold toOrigin.
  set (top := js_round (dpiScale e * inject_Z c)).
  pose proof (js_round_bounds (dpiScale e * inject_Z c)) as Ht. fold top in Ht.
  destruct (Z.ltb_spec (top + js_round (inject_Z v * dpiScale e)) 0) as [Hlt|Hge].
  - rewrite js_round_int. change (-1 * top) with (- top). rewrite inject_Z_opp.
    assert (js_round (inject_Z (- c) - (1 # 2)) <= js_round (- inject_Z top / dpiScale e)) as H.
    { apply js_round_le. rewrite inject_Z_opp.
      assert (inject_Z top / dpiScale e <= inject_Z c + (1 # 2))%Q; [|unfold Qdiv in *; lra].
      apply Qle_shift_div_r; [lra|]. nra. }
    assert (js_round (inject_Z (- c) - (1 # 2)) = - c) as E; [|lia].
    apply js_round_unique. split; lra.
  - rewrite js_round_int. destruct (Z.le_gt_cases 0 (c + v)) as [|Hneg]; [done|exfalso].
    pose proof (js_round_bounds (inject_Z v * dpiScale e)) as Hv.
    assert (inject_Z c + inject_Z v <= -1)%Q as Hs
      by (rewrite <- inject_Z_plus; change (-1)%Q with (inject_Z (-1)); rewrite <- Zle_Qle; lia).
    destruct (Qlt_le_dec 1 (dpiScale e)) as [H1|H1].
    + assert (0 <= inject_Z (top + js_round (inject_Z v * dpiScale e)))%Q as H2 by by apply inject_nonneg.
      rewrite inject_Z_plus in H2. nra.
    + assert (dpiScale e == 1)%Q as E by lra. subst top.
      rewrite (js_round_proper _ (inject_Z c)), (js_round_proper (inject_Z v * dpiScale e)%Q (inject_Z v)), !js_round_int in Hge
        by (rewrite E; ring). lia.
Qed.

Lemma onScrollBy_stays e vx vy s :
  calc e = true -> (1 <= dpiScale e)%Q -> 0 <= (css s).1 -> 0 <= (css s).2 ->
  let c := css (onScrollBy e (inject_Z vx) (inject_Z vy) s) in 0 <= c.1 /\ 0 <= c.2.
Proof.
  intros Hc Hd Hx Hy. unfold onScrollBy. rewrite Hc. cbn [negb].
  destruct (_ && _); [done|]. destruct (_ && _); [done|].
  split; by apply toOrigin_stays.
Qed.

(** A spreadsheet that scrolls by itself, while the mouse drags beyond the edge of the view,
    stays within the sheet whatever the velocity and however the rounding to pixels of the
    canvas turns out. *)
Theorem autoScroll_stays e s :
  calc e = true -> (1 <= dpiScale e)%Q -> 0 <= (css s).1 -> 0 <= (css s).2 ->
  0 <= (css (autoScroll e s)).1 /\ 0 <= (css (autoScroll e s)).2.
Proof.
  intros Hc Hd Hx Hy. unfold autoScroll. destruct (autoScrollTimer s) as [[vx vy]|]; [|done].
  pose proof (onScrollBy_stays e vx vy s Hc Hd Hx Hy). by destruct (selecting _ _).
Qed.

(** ** A bar that is dragged *)

(** The railway before it is shortened, where it begins, and the limits. *)
Definition railway (a : axis) (e : env) : Z :=
  along a (anchorSize e) - (if calc e then along a (splitPixels e) else 0) -
  match a with Horizontal => horizontalScrollRightOffset e | Vertical => 0 end.

Definition railwayStart (a : axis) (e : env) : Z :=
  along a (anchorTopLeft e) + (if calc e then along a (splitPixels e) else 0).

Definition limits (a : axis) (e : env) : Z * Z :=
  let diff := along a (viewSize e) - along a (anchorSize e) in
  if 0 <=? diff then (0, diff) else (js_round_div diff 2, js_round_div diff 2).

(** What of the state matters for scrolling: drags, shows and properties keep it. *)
Definition scroll_part (s : scroll) := (css s, pendingScrollEvent s, drawingAllowed s).

Lemma props_value a e s :
  (getScrollProperties a e s).2 = propsOf a e (along a (documentTopLeft e s)) (railwayStart a e) (railway a e).
Proof.
  destruct s as [v h]. unfold railway, railwayStart.
  destruct a; cbn; unfold getHorizontalScrollProperties, getVerticalScrollProperties,
    getHorizontalScrollLength, getVerticalScrollLength, calculateXMinMax, calculateYMinMax, calculateMinMax;
    destruct (calc e) eqn:E; rewrite ?E; cbn;
    repeat (case_match; cbn); f_equal; lia.
Qed.

Lemma props_state a e s :
  let s' := (getScrollProperties a e s).1 in
  scroll_part s' = scroll_part s /\ previousDragDistance s' = previousDragDistance s /\
  (bmin (get_bar a s'), bmax (get_bar a s')) = limits a e /\
  pointerSync (get_bar a s') = pointerSync (get_bar a s) /\
  pointerReCaptureSpacer s' = pointerReCaptureSpacer s.
Proof.
  destruct s as [v h]. unfold limits.
  destruct a; cbn; unfold getHorizontalScrollProperties, getVerticalScrollProperties,
    getHorizontalScrollLength, getVerticalScrollLength, calculateXMinMax, calculateYMinMax, calculateMinMax;
    repeat (case_match; cbn); simplify_eq/=; try done; exfalso; cbn in *; to_prop; lia.
Qed.

Lemma show_state a e s :
  scroll_part (show a e s) = scroll_part s /\ previousDragDistance (show a e s) = previousDragDistance s /\
  pointerSync (get_bar a (show a e s)) = pointerSync (get_bar a s) /\
  pointerReCaptureSpacer (show a e s) = pointerReCaptureSpacer s.
Proof. destruct s as [v h], a; unfold show; cbn; repeat (case_match; cbn); done. Qed.

Lemma sync_state a e f n p s :
  let s' := (isMousePointerSync a e f n p s).1 in
  scroll_part s' = scroll_part s /\ get_bar a s' = set_pointerSync (pointerSync (get_bar a s')) (get_bar a s).
Proof. destruct s as [[] []], a; unfold isMousePointerSync; cbn; by destruct (desktop e). Qed.

Lemma top_of_part e s s' : scroll_part s = scroll_part s' -> documentTopLeft e s = documentTopLeft e s'.
Proof. unfold scroll_part. intros [= H _ _]. unfold documentTopLeft. by rewrite H. Qed.

Lemma part_settled s s' : scroll_part s = scroll_part s' -> settled s' -> settled s.
Proof. unfold scroll_part, settled. by intros [= _ -> ->]. Qed.

(** A scroll that stays within the limits is made as it is asked for. *)
Lemma scroll_within a e q s :
  settled s -> (dpiScale e == 1)%Q -> oriented a e (Fin q) = Fin q ->
  let top := along a (documentTopLeft e s) in
  (inject_Z (bmin (get_bar a s)) <= inject_Z top + q <= inject_Z (bmax (get_bar a s)))%Q ->
  along a (documentTopLeft e (scrollWithOffset a e (Fin q) s)) = js_round (inject_Z top + q).
Proof.
  intros Hs H1 Ho top Hr.
  assert (forall s, along a (documentTopLeft e s) = along a (css s)) as Hdoc.
  { intros s1. transitivity (js_round (inject_Z (along a (css s1)))); [|apply js_round_int].
    destruct a; refine (js_round_proper _ _ _); cbn [along]; rewrite H1; ring. }
  destruct (limit_target top (bmin (get_bar a s)) (bmax (get_bar a s)) (Fin q)) as (o & Hm & Ht); [done|].
  assert (o == q)%Q as Eo.
  { unfold target in Ht. revert Ht. case_lt; split_cases; intros Ht; lra. }
  rewrite Hdoc, (scroll_css a e (Fin q) s o), js_round_add.
  - transitivity (along a (css s) + js_round (o / dpiScale e)); [by destruct a|].
    subst top. rewrite Hdoc. f_equal. refine (js_round_proper _ _ _). rewrite H1, Eo. field.
  - done.
  - lra.
  - unfold limit_of. by rewrite Ho.
Qed.

(** Where a bar begins. *)
Lemma start_value a e top offset len :
  0 < along a (viewSize e) -> let p := propsOf a e top offset len in 0 < scrollLength p ->
  let r := (inject_Z (along a (viewSize e)) / inject_Z (scrollLength p))%Q in
  ratio p = Fin r /\ start p = int (js_round (inject_Z top / r + inject_Z offset)).
Proof.
  intros HV p HL r.
  assert (0 < inject_Z (scrollLength p))%Q as HL' by (change 0%Q with (inject_Z 0); by rewrite <- Zlt_Qlt).
  assert (0 < inject_Z (along a (viewSize e)))%Q as HV' by (change 0%Q with (inject_Z 0); by rewrite <- Zlt_Qlt).
  assert (ratio p = Fin r) as Hr by (apply xdiv_fin, HL').
  split; [done|]. change (start p) with (xround (xadd (xdiv (int top) (ratio p)) (int offset))).
  rewrite Hr. unfold int at 1. rewrite xdiv_fin; [done|]. by apply Qlt_shift_div_l; [|rewrite Qmult_0_l].
Qed.

(** The bar that begins where a point of the document is moves by what the pointer does. *)
Lemma bar_follows top offset d r :
  (1 <= r)%Q ->
  let v := js_round (inject_Z top / r + inject_Z offset) in
  let v' := js_round (inject_Z (js_round (inject_Z top + r * inject_Z d)) / r + inject_Z offset) in
  v + d - 1 <= v' <= v + d + 1.
Proof.
  intros Hr v v'. subst v v'.
  set (x := (inject_Z top / r + inject_Z offset)%Q).
  set (top' := js_round (inject_Z top + r * inject_Z d)).
  pose proof (js_round_bounds (inject_Z top + r * inject_Z d)) as Ht. fold top' in Ht.
  assert (x + inject_Z d - (1 # 2) <= inject_Z top' / r + inject_Z offset <= x + inject_Z d + (1 # 2))%Q as Hx.
  { assert (x + inject_Z d == (inject_Z top + r * inject_Z d) / r + inject_Z offset)%Q as E
      by (subst x; field; lra).
    assert (inject_Z top' / r <= (inject_Z top + r * inject_Z d) / r + (1 # 2))%Q.
    { apply Qle_shift_div_r; [lra|].
      setoid_replace (((inject_Z top + r * inject_Z d) / r + (1 # 2)) * r)%Q
        with (inject_Z top + r * inject_Z d + (1 # 2) * r)%Q using relation Qeq by (field; lra). lra. }
    assert ((inject_Z top + r * inject_Z d) / r - (1 # 2) <= inject_Z top' / r)%Q.
    { apply Qle_shift_div_l; [lra|].
      setoid_replace (((inject_Z top + r * inject_Z d) / r - (1 # 2)) * r)%Q
        with (inject_Z top + r * inject_Z d - (1 # 2) * r)%Q using relation Qeq by (field; lra). lra. }
    split; lra. }
  assert (forall z, js_round (x + inject_Z z) = js_round x + z) as Hz
    by (intros; rewrite Qplus_comm, js_round_add; lia).
  split.
  - transitivity (js_round (x + inject_Z (d - 1))); [rewrite Hz; lia|].
    apply js_round_le. replace (d - 1) with (d + -1) by lia. rewrite inject_Z_plus. change (inject_Z (-1)) with (-1)%Q. lra.
  - transitivity (js_round (x + inject_Z (d + 1))); [|rewrite Hz; lia].
    apply js_round_le. rewrite inject_Z_plus. change (inject_Z 1) with 1%Q. lra.
Qed.

Lemma props_part a e s s' :
  scroll_part s = scroll_part s' -> (getScrollProperties a e s).2 = (getScrollProperties a e s').2.
Proof. intros H. by rewrite !props_value, (top_of_part e s s' H). Qed.

(** In sync, [isMousePointerSync] lets the drag pass. *)
Lemma sync_passes a e f n position s :
  (desktop e = true -> pointerIsSync a e f n position s = true) ->
  (isMousePointerSync a e f n position s).2 = true.
Proof. unfold isMousePointerSync. destruct (desktop e); [cbn; auto|done]. Qed.

Lemma pointerIsSync_ext a e f n position s s' :
  pointerSync (get_bar a s) = pointerSync (get_bar a s') -> pointerReCaptureSpacer s = pointerReCaptureSpacer s' ->
  pointerIsSync a e f n position s = pointerIsSync a e f n position s'.
Proof. unfold pointerIsSync. by intros -> ->. Qed.

(** A movement in sync scrolls, and remembers the distance. *)
Lemma dragBar_scrolls a e position dist s :
  (a = Horizontal -> rtl e = false) ->
  let p := (getScrollProperties a e s).2 in
  let prev := default (0, 0) (previousDragDistance s) in
  (desktop e = true -> pointerIsSync a e (start p) (sizeX e p) position s = true) ->
  exists s3, scroll_part s3 = scroll_part s /\ (bmin (get_bar a s3), bmax (get_bar a s3)) = limits a e /\
    dragBar a e position (Some dist) s =
      (does StopPropagation (set_drag (Some (set_along a (along a dist) prev))
         (scrollWithOffset a e (xmul (ratio p) (int (along a dist - along a prev))) s3)), false).
Proof.
  intros Ha p prev Hsync. unfold dragBar. fold prev.
  destruct (show_state a e (set_drag (Some prev) s)) as (Hp1 & Hd1 & Hy1 & Hc1).
  set (s1 := show a e (set_drag (Some prev) s)) in *.
  assert (scroll_part s1 = scroll_part s) as Hp1' by (by rewrite Hp1).
  assert (pointerSync (get_bar a s1) = pointerSync (get_bar a s)) as Hy1' by (rewrite Hy1; by destruct a).
  destruct (props_state a e s1) as (Hp2 & Hd2 & Hl2 & Hy2 & Hc2).
  pose proof (props_part a e s1 s Hp1') as Hp. fold p in Hp.
  destruct (getScrollProperties a e s1) as [s2 p2]. cbn [fst snd] in *. subst p2.
  assert (desktop e = true -> pointerIsSync a e (start p) (sizeX e p) position s2 = true) as Hsync2.
  { intros Hd. rewrite <- (Hsync Hd). apply pointerIsSync_ext; [by rewrite Hy2|by rewrite Hc2, Hc1]. }
  pose proof (sync_passes a e _ _ _ _ Hsync2) as Hpass.
  destruct (sync_state a e (start p) (sizeX e p) position s2) as [Hp3 Hb3].
  destruct (isMousePointerSync a e (start p) (sizeX e p) position s2) as [s3 b] eqn:E. cbn [fst snd] in *. subst b.
  exists s3. split; [by rewrite Hp3, Hp2|]. split; [by rewrite Hb3|].
  destruct a; cbv beta iota.
  - unfold isMousePointerSycnWithHorizontalScrollBar, startX. rewrite (Ha eq_refl), Z.mul_1_l.
    cbn [sizeX] in E. by rewrite E.
  - unfold isMousePointerSycnWithVerticalScrollBar. by rewrite E.
Qed.

(** C33: While the mouse drags a bar on a screen with one pixel per CSS pixel, a movement scrolls
    the document by as much as moves the bar along with the pointer, up to one pixel of
    rounding; it is kept from the map and from other sections.  This is for a movement whose
    goal lies within the limits of the bar, with the pointer in sync with the bar (on a
    desktop), along a track of positive length that is not longer than the view, and, for the
    horizontal bar, on a sheet that is not written from right to left and while the vertical
    bar is not dragged.  Otherwise the bar may go elsewhere ([frozen_drag_reversed],
    [rtl_drag_reversed]). *)
Theorem drag_moves_bar a e position dist s :
  settled s -> (dpiScale e == 1)%Q -> draggingSomething e = true ->
  clickScroll (get_bar a s) = true ->
  (a = Horizontal -> clickScroll (vertical s) = false /\ rtl e = false) ->
  let p := (getScrollProperties a e s).2 in
  0 < scrollLength p <= along a (viewSize e) ->
  let r := (inject_Z (along a (viewSize e)) / inject_Z (scrollLength p))%Q in
  let d := along a dist - along a (default (0, 0) (previousDragDistance s)) in
  let top := along a (documentTopLeft e s) in
  (inject_Z (limits a e).1 <= inject_Z top + r * inject_Z d <= inject_Z (limits a e).2)%Q ->
  (desktop e = true -> pointerIsSync a e (start p) (sizeX e p) position s = true) ->
  exists s' v v',
    onMouseMove e position (Some dist) s = (s', false) /\
    along a (documentTopLeft e s') = js_round (inject_Z top + r * inject_Z d) /\
    start p = int v /\ start (getScrollProperties a e s').2 = int v' /\ v + d - 1 <= v' <= v + d + 1 /\
    option_map (along a) (previousDragDistance s') = Some (along a dist) /\
    last (log s') = Some StopPropagation.
Proof.
  intros Hs H1 Hdrag Hclick Ha p HL r d top Hrange Hsync.
  set (prev := default (0, 0) (previousDragDistance s)) in *.
  destruct (dragBar_scrolls a e position dist (clearQuickScrollTimeout s)) as (s3 & Hp3 & Hl3 & Hm).
  - intros ->. by apply Ha.
  - rewrite (props_part a e _ s) by done. fold p. intros Hd. rewrite <- (Hsync Hd).
    apply pointerIsSync_ext; by destruct a.
  - rewrite (props_part a e _ s) in Hm by done. fold p prev d in Hm.
    change (previousDragDistance (clearQuickScrollTimeout s)) with (previousDragDistance s) in Hm. fold prev d in Hm.
    assert (scroll_part s3 = scroll_part s) as Hp3' by (by rewrite Hp3).
    assert (0 < along a (viewSize e)) as HV by lia.
    destruct (start_value a e (along a (documentTopLeft e s)) (railwayStart a e) (railway a e) HV) as [Hr Hv];
      [by rewrite <- (props_value a e s); apply HL|].
    pose proof (props_value a e s) as Hpv. fold p in Hpv. rewrite <- Hpv in Hr, Hv. fold r top in Hr, Hv.
    rewrite Hr in Hm.
    set (s' := does StopPropagation _) in Hm.
    assert (along a (documentTopLeft e s') = js_round (inject_Z top + r * inject_Z d)) as Htop.
    { transitivity (along a (documentTopLeft e (scrollWithOffset a e (Fin (r * inject_Z d)) s3))); [done|].
      subst top. rewrite <- (top_of_part e s3 s Hp3'). apply scroll_within.
      - by apply (part_settled s3 s).
      - done.
      - destruct a; [|done]. cbn. by rewrite (proj2 (Ha eq_refl)).
      - rewrite (top_of_part e s3 s Hp3'). rewrite <- Hl3 in Hrange. exact Hrange. }
    set (top' := js_round (inject_Z top + r * inject_Z d)) in *.
    assert (scrollLength (propsOf a e top' (railwayStart a e) (railway a e)) = scrollLength p) as Hsl
      by (rewrite Hpv; reflexivity).
    destruct (start_value a e top' (railwayStart a e) (railway a e) HV) as [_ Hv']; [rewrite Hsl; apply HL|].
    rewrite Hsl in Hv'. fold r in Hv'.
    exists s'. eexists _, _. split; [|split; [exact Htop|split; [exact Hv|split]]].
    + rewrite <- Hm. unfold onMouseMove. rewrite Hdrag. destruct a; cbn [get_bar] in Hclick.
      * destruct (Ha eq_refl) as [E _]. cbn -[dragBar]. by rewrite E, Hclick.
      * cbn -[dragBar]. by rewrite Hclick.
    + rewrite (props_value a e s'), Htop. exact Hv'.
    + split; [|split; [by destruct a|apply last_snoc]].
      apply bar_follows. apply Qle_shift_div_l.
      * change 0%Q with (inject_Z 0). rewrite <- Zlt_Qlt. lia.
      * rewrite Qmult_1_l, <- Zle_Qle. lia.
Qed.

(** ** What holds at all times *)

(** What of a bar and of the section is kept by most operations. *)
Definition bar_core (b : bar) := (quickTimer b, clickScroll b, animatingBar b).
Definition core (s : scroll) :=
  (pendingScrollEvent s, drawingAllowed s, bar_core (vertical s), bar_core (horizontal s),
   autoScrollTimer s, isAutoScrolling s, isAnimating s).

Definition bar_good (animating : bool) (b : bar) : Prop :=
  (is_Some (quickTimer b) -> clickScroll b = true) /\ (animatingBar b = true -> animating = true).

(** A scroll is put off only while drawing is not allowed; the timer of a quick scroll runs only
    while its bar is pressed; the map knows whether it scrolls by itself, and then moves; a bar
    fades only while the section animates. *)
Definition good (s : scroll) : Prop :=
  settled s /\ bar_good (isAnimating s) (vertical s) /\ bar_good (isAnimating s) (horizontal s) /\
  isAutoScrolling s = bool_decide (is_Some (autoScrollTimer s)) /\ autoScrollTimer s <> Some (0, 0).

Lemma core_good s s' : core s' = core s -> good s -> good s'.
Proof.
  unfold core, bar_core, good, bar_good, settled.
  intros [= -> -> -> -> -> -> -> -> -> -> ->]. done.
Qed.

Lemma core_settled s s' : core s' = core s -> settled s -> settled s'.
Proof. unfold settled. intros H. injection H. by intros _ _ _ _ _ _ _ _ _ -> ->. Qed.

Lemma scroll_core a e o s : settled s -> core (scrollWithOffset a e o s) = core s.
Proof.
  intros Hs. destruct a; cbn [scrollWithOffset]; unfold scrollHorizontalWithOffset, scrollVerticalWithOffset;
    destruct (limit _ _ _ _) as [o' [|]]; try done;
    rewrite paused_settled by (try done; unfold onUpdateScrollOffset; by destruct (calc e));
    unfold onUpdateScrollOffset; repeat case_match; done.
Qed.

Lemma props_core a e s : core (getScrollProperties a e s).1 = core s.
Proof.
  destruct a; cbn; unfold getHorizontalScrollProperties, getVerticalScrollProperties,
    getHorizontalScrollLength, getVerticalScrollLength, calculateXMinMax, calculateYMinMax, calculateMinMax;
    repeat (case_match; cbn); simplify_eq/=; done.
Qed.

Lemma sync_core a e f n p s : core (isMousePointerSync a e f n p s).1 = core s.
Proof. unfold isMousePointerSync. destruct (desktop e), a; done. Qed.

Lemma show_core a e s : core (show a e s) = core s.
Proof. unfold show. destruct a; repeat case_match; done. Qed.

Lemma clear_core_good s : good s -> good (clearQuickScrollTimeout s).
Proof.
  unfold good, bar_good, settled, clearQuickScrollTimeout. cbn. intros (?&[? ?]&[? ?]&?&?).
  split_and!; try done; by intros [].
Qed.

Lemma fadeOut_good a e s : good s -> good (fadeOut a e s).
Proof.
  unfold fadeOut, startAnimating, good, bar_good, settled.
  intros (?&[? ?]&[? ?]&?&?).
  destruct (isAnimating s) eqn:E, (otherAnimates e), a; cbn; rewrite ?E; naive_solver.
Qed.

Lemma hide_good a e s : good s -> good (hide a e s).
Proof.
  intros H. unfold hide. destruct (mouseIsOn _); [|done].
  set (s1 := set_pointerStyle _ _). assert (good s1) as H1 by (eapply core_good; [|exact H]; by destruct a).
  set (s2 := if desktop e then s1 else _).
  assert (good s2) as H2.
  { subst s2. destruct (desktop e); [done|]. apply fadeOut_good. eapply core_good; [|exact H1]; by destruct a. }
  destruct (cursorMarker e); [|done]. by eapply core_good; [|exact H2].
Qed.

Lemma show_good a e s : good s -> good (show a e s).
Proof. apply core_good, show_core. Qed.

Lemma scroll_good a e o s : good s -> good (scrollWithOffset a e o s).
Proof. intros H. eapply core_good; [|exact H]. by apply scroll_core, H. Qed.

Lemma props_good a e s : good s -> good (getScrollProperties a e s).1.
Proof. apply core_good, props_core. Qed.

Create HintDb scroll.
#[local] Hint Resolve clear_core_good hide_good show_good scroll_good props_good fadeOut_good : scroll.

Lemma mouse_on_good e p s : good s -> good (isMouseOnScrollBar e p s).
Proof. intros H. unfold isMouseOnScrollBar. repeat case_match; auto 10 with scroll. Qed.

Lemma dragBar_good a e p d s : good s -> good (dragBar a e p d s).1.
Proof.
  intros H. unfold dragBar.
  set (s1 := show _ _ _). assert (good s1) as H1 by (apply show_good; by eapply core_good; [|exact H]).
  pose proof (props_good a e s1 H1) as H2. destruct (getScrollProperties a e s1) as [s2 q].
  destruct d as [d|]; [|done].
  set (sp := match a with Horizontal => _ | Vertical => _ end).
  assert (good sp.1) as H3.
  { subst sp. destruct a; (eapply core_good; [apply sync_core|exact H2]). }
  destruct sp as [s3 b]. cbn in *.
  set (s4 := if b then _ else s3). assert (good s4) as H4 by (subst s4; destruct b; auto with scroll).
  by eapply core_good; [|exact H4].
Qed.

Lemma onMouseMove_good e p d s : good s -> good (onMouseMove e p d s).1.
Proof.
  intros H%clear_core_good. unfold onMouseMove.
  destruct (_ && _); [by apply dragBar_good|]. destruct (_ && _); [by apply dragBar_good|].
  by apply mouse_on_good.
Qed.

Lemma quickScrollBy_good a e p o q m z s : good s -> good (quickScrollBy a e p o q m z s).
Proof.
  intros H. unfold quickScrollBy. destruct (stepByStepScrolling s); [|auto with scroll].
  apply scroll_good.
  assert (good (alter_bar (set_quickTimer None) a s)) as H1
    by (destruct H as (?&[? ?]&[? ?]&?&?), a; repeat split; cbn; auto; by intros []).
  case_match eqn:E; [|done].
  destruct H1 as (?&[? ?]&[? ?]&?&?), a; repeat split; cbn in *; auto.
Qed.

Lemma quickScroll_good a e p o s : good s -> good (quickScroll a e p o s).
Proof.
  intros H. destruct a; cbn [quickScroll]; unfold quickScrollHorizontal, quickScrollVertical;
    (destruct (negb (desktop e)); [done|]).
  - pose proof (props_good Horizontal e (set_preventSelect true s)) as H1. cbn [getScrollProperties] in H1.
    destruct (getHorizontalScrollProperties _ _). apply quickScrollBy_good, H1. by eapply core_good; [|exact H].
  - pose proof (props_good Vertical e (set_preventSelect true s)) as H1. cbn [getScrollProperties] in H1.
    destruct (getVerticalScrollProperties _ _). apply quickScrollBy_good, H1. by eapply core_good; [|exact H].
Qed.

Lemma getLocal_core a e p s : core (getLocal a e p s).1 = core s.
Proof.
  rewrite <- (props_core a e s). destruct a; cbn; unfold getLocalXOnHorizontalScrollBar, getLocalYOnVerticalScrollBar;
    by case_match.
Qed.

Lemma press_good a e p s : good s -> good (pressBar a e p s).
Proof.
  intros H. unfold pressBar.
  set (s1 := set_handled _ _).
  assert (good s1) as H1 by (destruct H as (?&[? ?]&[? ?]&?&?), a; repeat split; cbn; auto).
  pose proof (getLocal_core a e p (quickScroll a e p None s1)) as H2.
  destruct (getLocal _ _ _ _) as [s2 n]. eapply core_good; [exact H2|]. by apply quickScroll_good.
Qed.

Lemma release_good a s :
  quickTimer (get_bar a s) = None -> good s -> good (releaseBar a s).
Proof.
  intros Hq (?&[? ?]&[? ?]&?&?). destruct a; cbn in Hq; repeat split; cbn; auto; rewrite Hq; by intros [].
Qed.

Lemma onScrollVelocity_good vx vy s : good s -> good (onScrollVelocity vx vy s).
Proof.
  intros (?&[? ?]&[? ?]&?&?). unfold onScrollVelocity.
  destruct ((vx =? 0) && (vy =? 0)) eqn:E; (split_and!; [done|done|done|done|]); [done|].
  intros [= -> ->]. done.
Qed.

Lemma onScrollBy_good e x y s : good s -> good (onScrollBy e x y s).
Proof.
  intros H. unfold onScrollBy. destruct (negb (calc e)).
  - by apply (scroll_good Horizontal), (scroll_good Vertical).
  - repeat case_match; try done; by eapply core_good; [|exact H].
Qed.

Lemma complete_good s : good s -> good (completePendingScroll (set_allowed true s)) /\ good (set_allowed false s).
Proof.
  intros (?&[? ?]&[? ?]&?&?). unfold completePendingScroll. cbn.
  split; [destruct (pendingScrollEvent s) as [[x y]|] eqn:E|]; split_and!; unfold settled; cbn; try done; by rewrite ?E.
Qed.

(** The timers of quick scrolls. *)
Definition timers (s : scroll) := (quickTimer (vertical s), quickTimer (horizontal s)).

Lemma core_timers s s' : core s = core s' -> timers s = timers s'.
Proof. unfold core, bar_core, timers. intros H. injection H. intros. congruence. Qed.

Lemma hide_timers a e s : timers (hide a e s) = timers s.
Proof.
  unfold hide, fadeOut, startAnimating. destruct a; repeat (case_match; simplify_eq/=); done.
Qed.

Lemma mouse_on_timers e p s : timers (isMouseOnScrollBar e p s) = timers s.
Proof.
  assert (forall a s, timers (show a e s) = timers s) as Hs by (intros; apply core_timers, show_core).
  unfold isMouseOnScrollBar. repeat case_match; rewrite ?Hs, ?hide_timers, ?Hs, ?hide_timers; done.
Qed.

Lemma dragBar_timers a e p d s : good s -> timers (dragBar a e p d s).1 = timers s.
Proof.
  intros H. unfold dragBar.
  set (s1 := show _ _ _). assert (core s1 = core s) as H1 by exact (show_core a e _).
  pose proof (props_core a e s1) as H2. destruct (getScrollProperties a e s1) as [s2 q]. cbn in H2.
  destruct d as [d|]; [|apply core_timers; cbn; congruence].
  set (sp := match a with Horizontal => _ | Vertical => _ end).
  assert (core sp.1 = core s) as H3.
  { subst sp. destruct a; (etransitivity; [apply sync_core|congruence]). }
  destruct sp as [s3 b]. apply core_timers. cbn in H3.
  assert (settled s3) as Hs by (eapply core_settled; [exact H3|apply H]).
  rewrite <- H3. destruct b; [|done]. exact (scroll_core a e _ s3 Hs).
Qed.

(** A movement of the mouse stops quick scrolls. *)
Lemma onMouseMove_timers e p d s : good s -> timers (onMouseMove e p d s).1 = (None, None).
Proof.
  intros H%clear_core_good. unfold onMouseMove.
  change (None, None) with (timers (clearQuickScrollTimeout s)).
  destruct (_ && _); [by apply dragBar_timers|]. destruct (_ && _); [by apply dragBar_timers|].
  apply mouse_on_timers.
Qed.

(** A press on the vertical bar leaves the timer of the other alone. *)
Lemma press_timer_other e p s : good s -> (timers (pressBar Vertical e p s)).2 = (timers s).2.
Proof.
  intros H. unfold pressBar. cbn [quickScroll getLocal].
  set (s1 := set_handled _ _). change (timers s) with (quickTimer (vertical s), (timers s1).2). cbn [snd].
  assert (settled s1) as H1 by apply H.
  transitivity (timers (quickScrollVertical e p None s1)).2.
  { pose proof (getLocal_core Vertical e p (quickScrollVertical e p None s1)) as Hl. cbn [getLocal] in Hl.
    destruct (getLocalYOnVerticalScrollBar _ _ _) as [s2 n]. cbn in Hl. by rewrite <- (core_timers _ _ Hl). }
  unfold quickScrollVertical. destruct (negb (desktop e)); [done|].
  pose proof (props_core Vertical e (set_preventSelect true s1)) as Hp. cbn [getScrollProperties] in Hp.
  destruct (getVerticalScrollProperties _ _) as [s2 q]. cbn [fst] in Hp.
  assert (settled s2) as H2 by by eapply core_settled.
  change (timers s1).2 with (timers (set_preventSelect true s1)).2. rewrite <- (core_timers _ _ Hp).
  unfold quickScrollBy. destruct (stepByStepScrolling s2).
  - match goal with |- context [scrollWithOffset _ _ _ ?s] => set (s3 := s) end.
    assert (settled s3) as H3 by (subst s3; by destruct (clickScroll _)).
    rewrite (core_timers _ _ (scroll_core Vertical e _ s3 H3)). subst s3. by destruct (clickScroll _).
  - by rewrite (core_timers _ _ (scroll_core Vertical e _ s2 H2)).
Qed.

Lemma unpress_good a s : quickTimer (get_bar a s) = None -> good s -> good (alter_bar (set_clickScroll false) a s).
Proof.
  intros Hq (?&[? ?]&[? ?]&?&?). destruct a; cbn in Hq; split_and!; try done; split; cbn; auto; rewrite Hq; by intros [].
Qed.

Lemma onMouseDown_good e p s : good s -> good (onMouseDown e p s).1.
Proof.
  intros H. unfold onMouseDown, andThen. apply clear_core_good in H.
  pose proof (onMouseMove_good e p None _ H) as H1. pose proof (onMouseMove_timers e p None _ H) as T1.
  destruct (onMouseMove _ _ _ _) as [s1 [|]]; [done|]. cbn [fst snd] in *.
  pose proof (mouse_on_good e p s1 H1) as H2. rewrite <- (mouse_on_timers e p s1) in T1.
  set (s2 := isMouseOnScrollBar _ _ _) in *. injection T1 as Tv Th.
  set (s3 := if 0 <=? (documentTopLeft e s2).2 then _ else s2).
  assert (good s3 /\ quickTimer (horizontal s3) = None) as [H3 T3].
  { subst s3. destruct (0 <=? _); [|by split]. destruct (onVerticalPlace _ _ _).
    - split; [by apply press_good|]. rewrite <- Th. by apply press_timer_other.
    - split; [by apply unpress_good|exact Th]. }
  clearbody s3. destruct (0 <=? _); [|done]. destruct (onHorizontalPlace _ _ _); [by apply press_good|by apply unpress_good].
Qed.

Lemma onMouseUp_good e p s : good s -> good (onMouseUp e p s).1.
Proof.
  intros H. apply onMouseMove_good. eapply core_good; [reflexivity|].
  set (s1 := clearQuickScrollTimeout _).
  assert (good s1) as H1 by (apply clear_core_good; by eapply core_good; [|exact H]).
  destruct (clickScroll (vertical s1)); [by apply release_good|].
  destruct (clickScroll (horizontal s1)); [by apply release_good|].
  destruct (selecting e s1); [|done]. eapply core_good; [|by apply (onScrollVelocity_good 0 0 s1)]. done.
Qed.

Lemma autoScroll_good e s : good s -> good (autoScroll e s).
Proof.
  intros H. unfold autoScroll. destruct (autoScrollTimer s) as [[vx vy]|]; [|done].
  pose proof (onScrollBy_good e (inject_Z vx) (inject_Z vy) s H) as H1.
  destruct (selecting _ _); [|done]. by eapply core_good; [|exact H1].
Qed.

Lemma quickTimeout_good a e s : good s -> good (quickTimeout a e s).
Proof.
  intros H. unfold quickTimeout. destruct (quickTimer _); [|done].
  set (s1 := alter_bar _ _ _).
  assert (good s1) as H1 by (destruct H as (?&[? ?]&[? ?]&?&?), a; split_and!; try done; split; cbn; auto; by intros []).
  case_match; [by apply quickScroll_good|done].
Qed.

Lemma performScroll_good a e d s : good s -> good (performScroll a e d s).
Proof.
  intros H. unfold performScroll. pose proof (scroll_good a e (Fin d) s H) as H1.
  set (s1 := scrollWithOffset _ _ _ _) in *. destruct (drawBar _); [done|].
  destruct (isAnimating s1) eqn:E; [|by apply fadeOut_good].
  pose proof (fadeOut_good a e s1 H1) as H2. unfold fadeOut in H2. by rewrite E in H2.
Qed.

Lemma onDraw_good e f t s : good s -> good (onDraw e f t s).
Proof.
  intros H. unfold onDraw.
  set (s1 := if _ && _ then _ else s). assert (core s1 = core s) as H1 by (subst s1; by destruct (_ && _)).
  set (s2 := if drawBar (vertical s1) || _ then _ else s1).
  assert (core s2 = core s1) as H2.
  { subst s2. destruct (_ || _); [|done]. unfold DrawVerticalScrollBarMobile, drawVerticalScrollBar.
    pose proof (props_core Vertical e s1) as Hp. cbn [getScrollProperties] in Hp.
    destruct (getVerticalScrollProperties _ _). by destruct (mobile e). }
  apply core_good with s; [|done]. rewrite <- H1, <- H2. clearbody s2. destruct (_ || _); [|done]. unfold drawHorizontalScrollBar.
  pose proof (props_core Horizontal e s2) as Hp. cbn [getScrollProperties] in Hp.
  by destruct (getHorizontalScrollProperties _ _).
Qed.

Lemma animationEnds_good s : good s -> good (animationEnds s).
Proof. intros (?&[? ?]&[? ?]&?&?). split_and!; try done; split; cbn; auto. Qed.

Lemma scroll_handle_good e ev s : good s -> good (handle e ev s).1.
Proof.
  intros H. destruct ev; cbn [handle fst];
    auto using onScrollBy_good, onScrollVelocity_good, autoScroll_good, onMouseMove_good, onMouseDown_good,
      onMouseUp_good, quickTimeout_good, onDraw_good, animationEnds_good with scroll.
  - unfold onScrollTo. destruct (drawingAllowed s) eqn:E; cbn; [by eapply core_good; [|exact H]|].
    destruct H as (?&?&?&?&?). split_and!; try done. unfold settled. cbn. by rewrite E.
  - by apply onScrollVelocity_good.
  - unfold onUpdateScrollOffset. destruct (calc e); [by eapply core_good; [|exact H]|done].
  - by apply complete_good.
  - by apply complete_good.
  - unfold onMouseLeave. auto with scroll.
  - unfold onMouseWheel, performVerticalScroll, performHorizontalScroll.
    repeat case_match; auto using performScroll_good.
Qed.

Fixpoint run (evs : list (env * event)) (s : scroll) : scroll :=
  match evs with [] => s | (e, ev) :: evs => run evs (handle e ev s).1 end.

(** Whatever happens, and whatever happens to the document and the view in between: a scroll is put off
    only while drawing is not allowed; the timer of a quick scroll runs only while its bar is
    pressed; the map is told whether it scrolls by itself, which it does with a velocity; and a
    bar fades only while the section animates. *)
Theorem scroll_invariant e at_ evs : good (run evs (onInitialize e at_)).
Proof.
  assert (good (onInitialize e at_)) as H0 by (repeat split; cbn; try done; by intros []).
  revert H0. generalize (onInitialize e at_). induction evs as [|[e' ev] evs IH]; intros s Hs; [done|].
  apply IH. by apply scroll_handle_good.
Qed.

(** ** Examples *)

Definition sample (calc rtl drag : bool) (dpi : Q) (r : Z) (split : option (Q * Q)) : env :=
  Env calc true false rtl false dpi r (0, 0) (1000, 800) (1000, 800) split (4000, 4000) (1000, 800) 15
    drag false false true (30, 40) (100, 200).

Definition sample_run (e : env) (evs : list event) (at_ : Z * Z) : scroll :=
  run (map (fun ev => (e, ev)) evs) (onInitialize e at_).

(** Where the horizontal bar is drawn. *)
Definition sample_start (e : env) (s : scroll) : jsnum := startX e (getHorizontalScrollProperties e s).2.

(** A press at [p] and a drag by 40 pixels to the right. *)
Definition sample_drag (p : Z * Z) : list event :=
  [Draw None 0; StepByStep; MouseDown p; MouseMove (p.1 + 40, p.2) (Some (40, 0))].

(** Dragging the horizontal bar to the right moves it to the right; in a spreadsheet that is
    written from right to left it moves to the left, away from the pointer: the sign is
    reversed where the distance is made and once more where the document is scrolled. *)
Example rtl_drag_reversed :
  let ltr := sample true false true 1 1 None in
  let rtl := sample true true true 1 1 None in
  sample_start ltr (sample_run ltr [] (1000, 0)) = int 240 /\
  sample_start ltr (sample_run ltr (sample_drag (300, 790)) (1000, 0)) = int 280 /\
  sample_start rtl (sample_run rtl [] (1000, 0)) = int 536 /\
  sample_start rtl (sample_run rtl (sample_drag (650, 790)) (1000, 0)) = int 496.
Proof. vm_compute. done. Qed.

(** A press on the bar itself, here between 100 and 254, scrolls the document too. *)
Example press_on_bar_scrolls :
  let e := sample false false false 1 1 None in
  let s := sample_run e [Draw None 0] (0, 500) in
  start (getVerticalScrollProperties e s).2 = int 100 /\ sizeX e (getVerticalScrollProperties e s).2 = int 154 /\
  css (handle e (MouseDown (990, 150)) s).1 = (0, 365).
Proof. vm_compute. done. Qed.

(** When frozen rows leave less room than the least size of a bar, the railway has a negative
    length and dragging down scrolls up. *)
Example frozen_drag_reversed :
  let e := sample true false true 1 1 (Some (0%Q, 760%Q)) in
  let s := sample_run e [Draw None 0; StepByStep; MouseDown (990, 780)] (0, 500) in
  scrollLength (getVerticalScrollProperties e s).2 = -40 /\
  css s = (0, 500) /\ css (handle e (MouseMove (990, 782) (Some (0, 2))) s).1 = (0, 300).
Proof. vm_compute. done. Qed.

(** At the top of a sheet, scrolling by itself up and to the right does not scroll to the right. *)
Example corner_stops :
  let e := sample true false false 1 1 None in
  css (sample_run e [ScrollVelocity 50 (-50); AutoScroll; AutoScroll] (0, 100)) = (100, 0) /\
  css (sample_run e [ScrollVelocity 50 (-50); AutoScroll; AutoScroll; AutoScroll; AutoScroll] (0, 100)) = (100, 0).
Proof. vm_compute. done. Qed.

(** Positions on the canvas are multiplied by the factor of the screen once more before they are
    sent: the button is let go at 100, 200 of a document of which the top left is shown. *)
Example released_elsewhere :
  let e := sample true false true 2 2 None in
  log (onMouseUp e (100, 200) (set_mouseDown true (onInitialize e (0, 0)))).1 =
    [PostMouse "buttonup" (2 * (100 * 15)) (2 * (200 * 15))].
Proof. vm_compute. done. Qed.

Lemma scroll_reaches_witness :
  exists e s, (settled s /\ (0 < dpiScale e)%Q) /\
  css (scrollWithOffset Vertical e (Fin 5000) s) = set_along Vertical 3200 (css s) /\
  ((dpiScale e == 1)%Q -> along Vertical (documentTopLeft e (scrollWithOffset Vertical e (Fin 5000) s)) = 3200).
Proof.
  exists (sample false false false 1 1 None), (sample_run (sample false false false 1 1 None) [Draw None 0] (0, 500)).
  assert (settled (sample_run (sample false false false 1 1 None) [Draw None 0] (0, 500))) as Hs by done.
  destruct (scroll_reaches Vertical (sample false false false 1 1 None) (Fin 5000)
    (sample_run (sample false false false 1 1 None) [Draw None 0] (0, 500)) Hs ltac:(done) ltac:(done)) as (H1 & _ & H2).
  split; [done|]. split; [rewrite H1; reflexivity|exact H2].
Defined.

Lemma autoScroll_stays_witness :
  let e := sample true false false (5 # 4) 1 None in
  let s := sample_run e [ScrollVelocity (-50) (-50)] (13, 7) in
  (1 <= dpiScale e)%Q /\ 0 <= (css (autoScroll e s)).1 /\ 0 <= (css (autoScroll e s)).2.
Proof.
  intros e s. split; [done|]. apply (autoScroll_stays e s); [reflexivity|discriminate|vm_compute; discriminate|vm_compute; discriminate].
Defined.

Lemma drag_moves_bar_witness :
  let e := sample false false true 1 1 None in
  let s := sample_run e [Draw None 0; StepByStep; MouseDown (990, 150)] (0, 500) in
  exists s' v v', onMouseMove e (990, 170) (Some (0, 20)) s = (s', false) /\
    (documentTopLeft e s').2 = 600 /\ start (getVerticalScrollProperties e s).2 = int v /\
    start (getVerticalScrollProperties e s').2 = int v' /\ v + 20 - 1 <= v' <= v + 20 + 1.
Proof.
  intros e s.
  destruct (drag_moves_bar Vertical e (990, 170) (0, 20) s) as (s' & v & v' & H1 & H2 & H3 & H4 & H5 & _);
    [done|done|done|vm_compute; reflexivity|done|vm_compute; split; [reflexivity|discriminate]
    |vm_compute; split; discriminate|intros _; vm_compute; reflexivity|].
  exists s', v, v'. split; [exact H1|]. split; [exact H2|]. split; [exact H3|]. split; [exact H4|exact H5].
Defined.
