(* ===== verification/TileSystem.v ===== *)
(** * The tile layer as a transition system

    The operations of the previous files as the steps of one system: what can
    happen to the tiles of a document between the start of a session and any later
    moment, in any order.  The invariants hold in every reachable state. *)

From S2P Require Import Prelude JsText JsObject Geometry TileCoords Tiles Delta ServerCmd FileBased Parts Invalidate.
From S2P Require Import TileRequest PreFetch TileMsg.
Local Open Scope Z_scope.

(** [ensureCanvas (this._tiles[key], now)], as the painter calls it. *)
Definition paint_tile (decompress : list Z -> option (list Z)) (getImageData : list Z -> list Z)
    (tileSizePx : nat) (k : string) (now : num) (answers : list bool) (s : store) : outcome :=
  match obj_get k (tiles s) with
  | None => Returns (s, (new_tile (Coord 0 0 0 0 0) now, answers))
  | Some t =>
      ensureCanvas tileSizePx
        (fun raw h => applyDelta decompress getImageData tileSizePx (applyDelta_fuel answers) k raw true false h)
        k now (s, (t, answers))
  end.

Section system.
Context (decompress : list Z -> option (list Z)) (getImageData : list Z -> list Z).
Context (tileSizePx : nat) (visible : coord -> bool).

(** One step of the layer. Messages follow the protocol ([img_ok]); [answers] are those of
    [getContext] meanwhile. *)
Inductive layer_step : layer -> layer -> Prop :=
| step_message g m im now answers l l' :
    (forall i, im = Some i -> img_ok decompress tileSizePx i) ->
    onTileMsg decompress getImageData tileSizePx visible g m im now answers l = Handled l' ->
    layer_step l l'
| step_processed v l : layer_step l (sendProcessedResponse v l)
| step_update v b zoom now l :
    layer_step l (with_store (update v b zoom now (lstore l)).1 l)
| step_prefetch sc force immediate now p p' s' reqs l :
    preFetchTiles sc force immediate now (lstore l) p = Some (p', s', reqs) ->
    layer_step l (with_store s' l)
| step_adjacent v isCalc b zoom now l :
    layer_step l (with_store (preFetchAdjacentTiles v isCalc b zoom now (lstore l)).1 l)
| step_file_based f now l : layer_step l (with_store (updateFileBasedView f now (lstore l)).1 l)
| step_select_part f selected l : layer_step l (with_store (checkSelectedPart f selected (lstore l)).1.1 l)
| step_area lay iv l : layer_step l (with_store (invalidate_tiles lay iv (lstore l)) l)
| step_invalidate k wid l : layer_step l (with_store (invalidateTile k wid (lstore l)) l)
| step_remove k l : layer_step l (with_store (removeTile k (lstore l)) l)
| step_removeAll l : layer_step l (with_store (removeAllTiles (lstore l)) l)
| step_refresh l : layer_step l (with_store (refreshTilesInBackground (lstore l)) l)
| step_collect l : layer_step l (with_store (garbageCollect (lstore l)) l)
| step_paint k now answers l h :
    paint_tile decompress getImageData tileSizePx k now answers (lstore l) = Returns h ->
    layer_step l (with_store h.1 l).

Definition reachable (l : layer) : Prop := rtc layer_step empty_layer l.

(** ** Steps and pictures *)

Abbreviation show := (all_show decompress tileSizePx).

Lemma shrunk_show s s' : store_shrunk s s' -> show s -> show s'.
Proof. intros Hsh H k t' (t & Hg & Hd)%Hsh. eapply shrunk_shows; [exact Hd|]. by apply (H k). Qed.

Lemma removeTile_show k s : show s -> show (removeTile k s).
Proof. apply shrunk_show, store_shrunk_remove, store_shrunk_refl. Qed.

Lemma removeAllTiles_show s : show s -> show (removeAllTiles s).
Proof.
  unfold removeAllTiles. generalize (own_keys (tiles s)) as ks. intros ks. revert s.
  induction ks as [|k ks IH]; simpl; auto using removeTile_show.
Qed.

Lemma invalidateTile_show k wid s : show s -> show (invalidateTile k wid s).
Proof.
  intros H. unfold invalidateTile. destruct (obj_get k (tiles s)) as [t|]; [|done].
  assert (show (alter_tile (fun t => set_stats (incr_invalidateCount (tstats t)) t) k s))
    by by apply all_show_alter.
  destruct (negb (hasContent (data t))); [by apply removeTile_show|].
  destruct wid as [v|]; [destruct (String.eqb v "")|]; by apply all_show_alter.
Qed.

Lemma imap_show f s :
  (forall k t, data (f k t) = data t) -> show s -> show (set_tiles (obj_imap f (tiles s)) s).
Proof.
  intros Hf H k t. simpl. rewrite obj_get_imap. destruct (obj_get k (tiles s)) as [t0|] eqn:E; [|done].
  intros [= <-]. rewrite Hf. by apply (H k).
Qed.

(** *** Well-formed and shown *)

Definition good (s : store) : Prop := store_ok s /\ show s.

Lemma good_alter f k s :
  (forall t, coords (f t) = coords t) -> (forall t, data (f t) = data t) -> good s -> good (alter_tile f k s).
Proof.
  intros Hc Hd [Hok Hsh]. split; [|by apply all_show_alter].
  apply store_ok_alter_tile; [done| |done]. intros t. unfold contentless. by rewrite Hd.
Qed.

Lemma good_createTile c now s : good s -> good (createTile c (key c) now s).
Proof.
  intros [Hok Hsh]. split; [by apply createTile_ok|]. intros k t. rewrite createTile_get.
  destruct (obj_get k (tiles s)) as [t0|] eqn:E; [intros [= <-]; by eapply Hsh|].
  case_decide; [|done]. by intros [= <-].
Qed.

Lemma good_foldl {A} (f : store -> A -> store) l :
  (forall s x, good s -> good (f s x)) -> forall s, good s -> good (foldl f s l).
Proof. intros H. induction l as [|x l IH]; simpl; auto. Qed.

Lemma good_createTiles v now q s : good s -> good (createTiles v now q s).
Proof. apply good_foldl. intros s0 c Hs. case_bool; [by apply good_createTile|done]. Qed.

Lemma good_addTiles v now q s : good s -> good (addTiles v now q s).1.
Proof. apply good_createTiles. Qed.

Lemma good_getMissingTiles v b zoom s : good s -> good (getMissingTiles v b zoom s).1.
Proof.
  unfold getMissingTiles. generalize (@nil coord) as q. generalize (visited_coords v zoom b) as cs.
  intros cs. revert s. induction cs as [|c cs IH]; intros s q Hs; [done|]. cbn [foldl]. unfold visit_tile at 2.
  destruct (negb (isValidTile (vgrid v) c)); [by apply IH|].
  destruct (obj_get (tileCoordsToKey c) (tiles s)); [|by apply IH].
  destruct (negb (needsFetch t)); apply IH; [by apply good_alter|done].
Qed.

Lemma good_update v b zoom now s : good s -> good (update v b zoom now s).1.
Proof.
  intros Hs. rewrite update_unfold. apply good_createTiles, good_getMissingTiles. destruct Hs as [Hok Hsh].
  split; [|apply imap_show; [intros k t; by case_match|done]].
  apply set_tiles_imap_ok; [intros k t; by case_match|intros k t; by case_match|done].
Qed.

Lemma good_preFetchTiles sc force immediate now s p p' s' reqs :
  preFetchTiles sc force immediate now s p = Some (p', s', reqs) -> good s -> good s'.
Proof.
  intros E Hs. destruct ((0 <? emptyTilesCount s) || negb (canonicalIdInitialized sc)) eqn:Hgo.
  - unfold preFetchTiles in E. rewrite Hgo in E. by injection E as _ <- _.
  - destruct (preFetchTiles_call sc force immediate now s p Hgo) as (p1 & E1 & _). rewrite E1 in E.
    injection E as _ <- _. case_match; [done|by apply good_addTiles].
Qed.

Lemma good_preFetchAdjacent v isCalc b zoom now s : good s -> good (preFetchAdjacentTiles v isCalc b zoom now s).1.
Proof.
  intros Hs. unfold preFetchAdjacentTiles. destruct (adjacent_bounds isCalc b) as [next previous].
  apply (good_getMissingTiles v next zoom) in Hs. destruct (getMissingTiles v next zoom s) as [s1 q1].
  cbn [fst] in Hs. apply (good_getMissingTiles v previous zoom) in Hs. destruct (getMissingTiles v previous zoom s1) as [s2 q2].
  destruct (length (q1 ++ q2) =? 0)%nat; [exact Hs|by apply good_addTiles].
Qed.

Lemma good_file_check f z s : good s -> good (updateFileBasedView_check f z s).1.
Proof.
  intros Hs. unfold updateFileBasedView_check.
  destruct (partHeightTwips f =? 0); [done|]. destruct (isZooming f); [done|]. apply good_foldl; [|done].
  intros s0 c Hs0. by apply good_alter.
Qed.

Lemma good_fetch_queue now q : forall s acc,
  good s -> good (foldl (fun '(s, q) c =>
    let s := if obj_has (tileCoordsToKey c) (tiles s) then s
             else createTile c (tileCoordsToKey c) now s in
    (s, if tileNeedsFetch (tileCoordsToKey c) s then q ++ [c] else q)) (s, acc) q).1.
Proof.
  induction q as [|c q IH]; intros s acc Hs; [done|]. cbn [foldl]. cbv zeta. apply IH.
  case_match; [done|by apply good_createTile].
Qed.

Lemma good_file_based f now s : good s -> good (updateFileBasedView f now s).1.
Proof.
  intros Hs. unfold updateFileBasedView. destruct (_ || _); [done|].
  apply (good_file_check f None) in Hs. destruct (updateFileBasedView_check f None s) as [s1 q].
  assert (H : good (fetch_queue now q s1).1) by apply (good_fetch_queue now q s1 [] Hs).
  destruct (fetch_queue now q s1). exact H.
Qed.

Lemma good_checkSelectedPart f selected s : good s -> good (checkSelectedPart f selected s).1.1.
Proof.
  intros Hs. unfold checkSelectedPart. apply (good_file_check f None) in Hs.
  destruct (updateFileBasedView_check f None s) as [s1 [|c q]]; [done|]. by case_match.
Qed.

Lemma good_invalidateTile k wid s : good s -> good (invalidateTile k wid s).
Proof. intros [Hok Hsh]. split; [by apply invalidateTile_ok|by apply invalidateTile_show]. Qed.

Lemma good_invalidate_tiles lay iv s : good s -> good (invalidate_tiles lay iv s).
Proof.
  apply good_foldl. intros s0 k Hs. unfold visit_invalid. destruct (obj_get k (tiles s0)); [|done].
  case_match; [by apply good_invalidateTile|done].
Qed.

Lemma paint_show k now answers s h :
  show s -> paint_tile decompress getImageData tileSizePx k now answers s = Returns h -> show h.1.
Proof.
  intros H. unfold paint_tile. destruct (obj_get k (tiles s)) as [t|] eqn:Hg; [|by intros [= <-]].
  set (apply := fun raw h => applyDelta _ _ _ _ _ raw true false h). intros E.
  assert (Ht : h_tile k (s, (t, answers)) = t) by (unfold h_tile; cbn [fst snd]; by rewrite Hg).
  assert (Hsd : sound decompress tileSizePx k (s, (t, answers))).
  { apply shows_sound. rewrite Ht. by apply (H k). }
  assert (Hself : shown decompress tileSizePx k h).
  { destruct (has_canvas t) eqn:Hc.
    - revert E. unfold ensureCanvas. rewrite Ht, Hc. cbn [andThen]. intros [= <-].
      case_match; repeat apply sound_alter; try done; apply Hsd.
    - pose proof (ensureCanvas_shows decompress tileSizePx k apply now (s, (t, answers))) as Hs.
      rewrite E in Hs. apply Hs.
      + intros raw px css h'. apply applyDelta_keyframe.
      + apply canvas_false. by rewrite Ht.
      + apply Hsd.
      + apply (sound_no_image _ _ _ _ Hsd). by rewrite Ht. }
  assert (Hoth : outcome_all (fun h' => forall k' t, k' <> k -> obj_get k' (tiles h'.1) = Some t ->
                   shows_deltas decompress tileSizePx (data t)) (ensureCanvas tileSizePx apply k now (s, (t, answers)))).
  { apply ensureCanvas_ind.
    - intros f h' _ Hh' k' t' Hne. simpl. rewrite obj_get_alter, decide_False by congruence. by apply Hh'.
    - intros raw h' Hh'. by apply applyDelta_others.
    - intros k' t' _. apply (H k'). }
  rewrite E in Hoth. simpl in Hoth. intros k' t' Hg'. destruct (decide (k' = k)) as [->|Hne].
  - by apply Hself.
  - by apply (Hoth k').
Qed.

Lemma paint_ok k now answers s h :
  store_ok s -> paint_tile decompress getImageData tileSizePx k now answers s = Returns h -> store_ok h.1.
Proof.
  intros Hok. unfold paint_tile. destruct (obj_get k (tiles s)) as [t|]; [|by intros [= <-]].
  intros E. pose proof (ensureCanvas_store_ok decompress getImageData tileSizePx k (applyDelta_fuel answers)
    now (s, (t, answers)) Hok) as H. by rewrite E in H.
Qed.
End system.

(** ** Properties *)

(** C1: In every state a session can reach, whatever the order of messages,
    updates, prefetches, invalidations, collections and paints, each tile with a
    canvas shows exactly the image its stored deltas describe, and the store is
    well-formed: every tile sits under the key of its own coordinates, once, and the
    count of empty tiles does not exceed the tiles without content. *)
Theorem reachable_invariant decompress getImageData w visible l :
  decompress_concat decompress ->
  reachable decompress getImageData w visible l ->
  store_ok (lstore l) /\ all_show decompress w (lstore l).
Proof.
  intros Hcat. unfold reachable.
  assert (Hstep : forall l l', layer_step decompress getImageData w visible l l' ->
    store_ok (lstore l) /\ all_show decompress w (lstore l) ->
    store_ok (lstore l') /\ all_show decompress w (lstore l')).
  { intros l1 l2 Hs [Hok Hsh]. destruct Hs; simpl.
    - split; [by eapply handled_store_ok|].
      pose proof (handled_shows decompress getImageData w visible g m im now answers l0 Hcat H Hsh) as Hs.
      by rewrite H0 in Hs.
    - unfold sendProcessedResponse. destruct (fetchKeyframeQueue l0); done.
    - by apply good_update.
    - by eapply good_preFetchTiles.
    - by apply good_preFetchAdjacent.
    - by apply good_file_based.
    - by apply good_checkSelectedPart.
    - by apply good_invalidate_tiles.
    - by apply good_invalidateTile.
    - split; [by apply removeTile_ok|by apply removeTile_show].
    - split; [by apply removeAllTiles_ok|by apply removeAllTiles_show].
    - split; [by apply refreshTilesInBackground_ok|by apply imap_show].
    - split; [by apply garbageCollect_ok|].
      eapply shrunk_show; [apply garbageCollect_shrunk|done].
    - split; [by eapply paint_ok|by eapply paint_show]. }
  assert (Hinit : store_ok (lstore empty_layer) /\ all_show decompress w (lstore empty_layer)).
  { split; [apply empty_store_ok|]. by intros k t. }
  intros Hr. revert Hinit. induction Hr; eauto.
Qed.

Lemma reachable_invariant_witness :
  store_ok (lstore layer_after_keyframe) /\ all_show Some 2 (lstore layer_after_keyframe).
Proof.
  apply (reachable_invariant Some (fun l => l) 2 (fun _ => true)).
  - apply identity_decompress_concat.
  - apply rtc_once. eapply (step_message _ _ _ _ (vgrid sample_view) (sample_msg 7) (Some keyframe_img)
      (Some 1) []).
    + intros i [= <-]. apply sample_imgs_ok.
    + vm_compute. reflexivity.
Defined.
